(* ===== verification/_CoqProject ===== *)
-Q . S2P
Prelude.v
GoFloat.v
GoText.v
GoNumber.v
AlertModel.v
AlertPolicy.v
AlertWindow.v
AlertEngine.v
AlertInvariant.v
AlertHealth.v
AlertScheduler.v
IngressClass.v
IngressLimiter.v
IngressInvariant.v
ReleaseVersion.v
GoDate.v
NodeCalendar.v
NodePrice.v
NodeLifecycle.v
GoSha256.v
OpsPolicy.v
OpsAttempt.v
FanoutFrame.v
FanoutService.v
FanoutInvariant.v
UpdateModel.v
UpdateDisk.v
UpdateSupervisor.v
UpdateLogic.v
UpdateCrash.v
UpdateSample.v
UpdateSafety.v
MetricCatalog.v
MetricQuery.v
MetricBuckets.v
MetricService.v
GoTable.v
NoticeTemplate.v
NoticeModel.v
NoticeQueue.v
NoticeInvariant.v
NoticeSteps.v
NoticeSafety.v
RolloutModel.v
RolloutService.v
RolloutRelease.v
RolloutInvariant.v
RolloutSteps.v
RolloutRun.v
RolloutSample.v
RolloutSafety.v
RolloutAgent.v
RolloutPrune.v
OpsModel.v
OpsTasks.v
OpsAttempts.v
OpsInvariant.v
OpsSteps.v
OpsRun.v
OpsCount.v
OpsTrace.v
OpsSample.v
OpsSafety.v
GoInstant.v
EnrollSecret.v
EnrollPolicy.v
EnrollModel.v
EnrollService.v
EnrollNodes.v
EnrollHandlers.v
EnrollInvariant.v
EnrollSteps.v
EnrollRun.v
EnrollTrace.v
EnrollAnswers.v
EnrollCount.v
EnrollSample.v
EnrollSafety.v
