(* ===== verification/Prelude.v ===== *)
(** * Beat: a verification development (root file and shared prelude)

    Beat is a self-hosted monitoring server written in Go: agents report metrics,
    the server evaluates alert rules, serves dashboards and a live metrics stream,
    tracks the hosting contracts of nodes and runs authorized operations on them.
    This library models the parts that decide, count, order and bound things, as
    functions translated from the source under [src/internal], and proves what makes
    them correct. Every definition keeps the name it has in the source where that is
    possible; the comment above a definition says where it departs from it.

    ** The parts and where they are

    - Shared ground. [Prelude] (this file): error results, machine integers, instants
      and durations, tactics, hint databases, lists. [GoFloat]: [float64] as IEEE
      binary64, with its order, exactness and rounding lemmas. [GoText]: byte strings,
      UTF-8, hexadecimal. [GoNumber]: decimal integers. [GoDate]: the Gregorian
      calendar and the [2006-01-02] format. [GoInstant]: instants in RFC 3339. [GoSha256]: SHA-256, base64, the JSON of
      scalars, big-endian words. [GoTable]: tables and transactions, with what it is for
      one to only read or to keep a property.
    - Alert evaluation ([alerteval], [model/alert*.go]). [AlertModel]: rules, states,
      events, observations. [AlertPolicy]: [ValidateRule], [Triggered], [Recovered].
      [AlertWindow]: aggregation of a window of samples. [AlertEngine]: [Step], the
      state machine of one rule on one node or device. [AlertInvariant]: its reachable
      states, when incidents open and close. [AlertHealth]: health notifications, errors
      of a step. [AlertScheduler]: rounds over due pairs, and the worker pool as a
      transition system.
    - Ingress control ([ingress]). [IngressClass]: the budget a request is charged to.
      [IngressLimiter]: capacities, token buckets, admission, release, views.
      [IngressInvariant]: accounting over every sequence of calls.
    - Release versions ([agentrollout/protocol/version.go]). [ReleaseVersion]: parsing,
      precedence, tags.
    - Agent updates ([agentupdate], [agentrollout/protocol]). [UpdateModel]: manifests,
      signatures, assignments, executables, and when a journal is accepted. [UpdateDisk]:
      the updater's operations as steps on a disk that can fail or stop at any step.
      [UpdateSupervisor]: pending assignments, installation receipts, one step of the
      supervisor. [UpdateLogic]: the promise about the disk and the program logic for it.
      [UpdateCrash]: the specification of every operation. [UpdateSafety]: the theorems;
      [UpdateSample]: the installation they are run on.
    - Node contracts ([nodelifecycle]). [NodeCalendar]: anchored renewal dates.
      [NodePrice]: decimal prices. [NodeLifecycle]: validation, saving, reminders,
      automatic renewal and the public view over the service's tables.
    - Remote operations ([remoteoperations]). [OpsPolicy]: policies, paths, files and what
      two policies authorize together. [OpsAttempt]: the life of one leased execution.
      [OpsModel]: the tables, the authority of administrators and agents, policies,
      capabilities, snippets. [OpsTasks]: creating tasks and leasing them to agents.
      [OpsAttempts]: starting, heartbeats, results, retries, expiry, retention, restore.
      [OpsInvariant], [OpsSteps], [OpsRun], [OpsCount]: the invariant of the tables, what
      each operation does, runs of operations and how often they start a command.
      [OpsTrace]: where the tasks of a run come from. [OpsSafety]: the theorems, with the
      service of [OpsSample].
    - Metrics stream ([metricsfanout]). [FanoutFrame]: WebSocket frames, reassembly,
      the read loop. [FanoutService]: connection slots, the shared snapshot, its
      producer and queues. [FanoutInvariant]: every interleaving of their critical
      sections.
    - Metric queries ([metriccatalog], [metricquery]). [MetricCatalog]: definitions of
      metrics, their validation and policies. [MetricQuery]: requests, plans, the one-pass
      aggregation, slots, range and latest queries. [MetricBuckets]: what the aggregation
      computes. [MetricService]: slots and visibility.
    - Notifications ([notificationqueue], [notification]). [NoticeTemplate]: templates and
      what they render to. [NoticeModel]: the tables, transactions over them, requests and
      receipts. [NoticeQueue]: every operation of the queue, one transaction each.
      [NoticeInvariant], [NoticeSteps]: the invariant of the tables and that each operation
      keeps it. [NoticeSafety]: runs of operations and the theorems.
    - Agent rollouts ([agentrollout]), the server's side of agent updates. [RolloutModel]:
      the tables, policies, trusted keys and releases. [RolloutService]: creating and
      promoting rollouts, the eligibility of nodes, leases, reports, recovery, restore.
      [RolloutRelease]: imports, revocation, artifacts, downloads, deletion, retention.
      [RolloutInvariant], [RolloutSteps], [RolloutRun]: the invariant of the tables, what
      each transaction does, and runs of transactions. [RolloutSafety]: the theorems, with
      the rollout of [RolloutSample]. [RolloutAgent]: the offers of the server against the
      checks of the agent in [UpdateModel]. [RolloutPrune]: retention.
    - Agent enrollment ([agentenrollment], [agentcredential], [agentjoin], the enrollment
      and node files of [store], [api/handler/agent_discovery*.go]). [EnrollSecret]: the
      tokens of every purpose. [EnrollPolicy]: grant policies, metadata, node names and the
      bytes an agent signs. [EnrollModel]: the tables and their constraints.
      [EnrollService]: grants, challenges, requests, approval, claims, cleanup.
      [EnrollNodes]: the credentials of nodes, one-time joins, the other writers of nodes.
      [EnrollHandlers]: the four endpoints of the protocol with their budgets.
      [EnrollInvariant], [EnrollSteps], [EnrollRun]: the invariant of the tables, that each
      operation keeps it, and runs of operations. [EnrollTrace]: how requests and grants
      evolve. [EnrollAnswers]: the endpoints read from their answers. [EnrollCount]: how
      often challenges and claims can succeed. [EnrollSafety]: the theorems, with the
      server of [EnrollSample].

    ** How state and effects are modelled

    A struct is a record, an enumeration an inductive type, a method a function that
    takes the struct and returns the changed one. A function that returns an [error]
    returns a [result]; a function whose error path leaves changes behind returns the
    state beside the error. Maps are [gmap]s; where the order in which Go walks a map
    can matter, the order is an argument. Clock readings, random identifiers and the
    answers of callbacks are arguments. Code that runs under a mutex is one step, so
    sequences of steps are all the interleavings; goroutines that share state without
    one lock for the whole operation are transition systems ([AlertScheduler],
    [FanoutInvariant]). The updater, whose point is to survive crashes, is a monad over
    the disk with an oracle that lets every step succeed, fail or be the last. A
    transaction of the notification queue, of the rollouts, of remote operations or of
    enrollment is a state monad over its tables that an error or a failing commit rolls
    back; an endpoint of enrollment is a monad over the tables and budgets that stops with
    an answer. Transactions do not interleave, and an operation of several transactions (a
    lease, an import, a download, retention) is a definition per transaction, with
    arbitrary other transactions in between. One simplification remains: an endpoint of
    enrollment runs its transactions (finding the grant, using up the challenge, creating
    the request) one after the other in a single step.
    [int] and [int64] are [Z] with [wrap64] written where a sum or product can leave the
    range; [Time.Sub] saturates.

    Loops over lists are structural. Fuel appears in ten places: the calendar's
    catch-up loop (122 turns, proved enough: the code stops after 120 advances), the
    scheduler's round (two more than the number of stored pairs, proved enough), the
    decimal formatter (20 digits, enough for 64 bits), the block splitter of SHA-256
    (one per word), the stream's read loop (one per received byte and one more, proved
    enough), the chunks of a download (one per missing byte, proved enough), the
    rounds of retention (129, one more than the deliveries it may delete, proved enough),
    the two retention loops of the rollouts (one more than the rows of their tables, proved
    enough by [prune_terminates]) and the template compiler (one per byte and one more, proved enough).

    Parameters stand for what is not in the repository or is data of the machine: the
    SHA-1 based identifier function and the fresh-identifier source, time-zone tables,
    address parsing, the source of due pairs and the evaluator of the scheduler, the
    builder and observer callbacks of the stream, what converting an out-of-range float
    to an integer gives, the catalog, node and storage readers of metric queries, the
    clock, random source and encryption of the notification queue, the encryption, keyed
    fingerprint and JSON of tasks and policies of remote operations, the parsing of
    addresses and regular expressions, case folding and Ed25519 of enrollment, and URL
    parsing, JSON decoding and Ed25519 of the updater and the rollouts. A
    crash of the machine keeps every rename that was made: the syncs of the updater are
    steps that can fail, but what a file system does to unsynced renames is not modelled.

    ** What the theorems show

    - Alerts: hysteresis of validated rules; coverage and values of window aggregates,
      insensitivity to redelivered samples; timers never ahead of the clock; incidents
      open only after their confirmation time, and close only after theirs or when the
      accelerator they concern is gone; one health notification per
      problem and epoch; the exact errors of a step; a round evaluates each due pair at
      most once, terminates, and its concurrent execution refines the sequential one.
    - Ingress: administration paths never use public budgets; in-flight counts equal
      the leases that are out, releases are exact, bursts are bounded, and each decision
      is one the limits justify.
    - Updates: no sequence of operations, failures and crashes leaves an agent that cannot
      be started, an image that is not signed, or a published update without its way
      back; a recovery on a working machine, with a journal that is accepted, settles
      whatever was interrupted and undoes it past its deadline, or reports a conflict when
      the old and the new image are the same bytes; an update on a working machine installs
      exactly the artifact; the image a receipt names is the one at the entry point; which
      health evidence leaves a journal that is refused from then on.
    - Versions, contracts: precedence is a total preorder; renewal dates do not drift,
      catch-up ends at the first future date; prices round-trip exactly; each contract
      event is sent once; the public view leaks nothing that is not public.
    - Remote operations: authorization is the intersection of two policies and the hard
      limits; accepted paths stay below their root. Whatever operations run, the tables
      stay consistent, with at most four commands at a time on a node; a command is started
      on a target once for its creation and once per retry, no matter which answers,
      leases or commits are lost; what an agent is handed, and what it starts, is exactly
      what an administrator submitted and what both policies allow at that instant; the SQL
      filter of the queue agrees with the authorization in Go; results are final, and
      repeated requests and results change nothing; a restored database starts nothing by
      itself, asks for an acknowledgement before a retry, and stops what still runs.
    - Stream: exactly the legal frames are read; reassembly is exact and bounded; the
      read loop ends; slots are exact and a release never meets a missing entry;
      generations are ordered and complete; nothing stale is served.
    - Metric queries: the one-pass aggregation gives in every bucket the aggregate of that
      bucket's samples; rates are exact over pairs of samples and never negative; validated
      requests always have their points; slots count the queries in progress; a query
      shows only what its caller may see; a policy keeps the meaning of a metric.
    - Notifications: whatever operations run, the tables stay consistent, with at most one
      delivery of a channel on the way, at most six attempts, one retry of a dead delivery
      and bounded queues; a claim is exclusive and in order; only the holder of a lease that
      has not expired completes a delivery, and once; a source is enqueued once, to exactly
      its channels; a channel that can be served is served. Templates are parsed exactly,
      rendering is substitution within a budget, and message templates never reach secrets.
    - Rollouts: whatever transactions run, the tables stay consistent, with one update in
      flight per node; waves open one after another, each by an owner after the wave before
      it was healthy; updates are offered only to eligible nodes of the open wave, and an offer
      passes the checks of an agent with the same keys and clock; a failure stops a rollout; downloads are authorized at
      every read; a restored database does nothing by itself; a revoked key is never used
      again; retention deletes only what is over, and ends.
    - Enrollment: whatever agents and administrators call, the tables stay consistent, a
      grant never hands out more places than it has, and a reserved node stays hidden and
      without a token until its claim; a request is created only for the holder of a key
      that signed a fresh challenge under an open grant, and a token is handed out only to
      the holder of the approved key, with the last ticket, in time, and at most four times;
      a challenge is used once; the token of a claim authenticates its node and no other
      does; requests move one way through their states; a revoked grant stays closed; the
      cleanup is complete and takes nothing else; signed bytes and tokens have one meaning.

    ** Not modelled

    Network, file and process I/O; SQL (tables are modelled only where the service's own
    logic is in the service: contracts, notifications, rollouts, remote operations, enrollment);
    HTTP handlers other than the endpoints of enrollment; cryptography other than the hashes;
    environment-variable configuration of ingress; the stream's write loop and HTTP
    upgrade; the contract service's tick loop, pruning and settings; agents' host
    probing; the update transport, helper installation and polling loop; backups, themes,
    the web user interface. Not modelled of notifications: the
    worker goroutines, provider configuration, delivery and views. Not modelled of rollouts:
    HTTP handlers, remote imports, the release tools, views, ownership of cached files, the
    JSON copies of reports and the schema check of a restored database. Not modelled of
    remote operations: the transfer, spool and scan of files (runs allow any change of
    their tables, and tasks they create or stop) and the pages that are only read. Not modelled of
    enrollment: lists, statistics and forms of administrators, the reader of JSON bodies,
    the normalisation of server URLs, and columns of nodes that neither it nor the
    credentials use. *)

From Stdlib Require Export Ascii.
From stdpp Require Export prelude strings gmap sorting.
From Stdlib Require Export ZArith Lia.

#[global] Open Scope string_scope.
#[global] Open Scope list_scope.
#[global] Open Scope Z_scope.

(** ** Go strings

    A Go string is a sequence of bytes; [string] (a list of 8-bit [ascii]) is
    exactly that, and [len] is the number of bytes. *)

Declare Scope go_scope.
Delimit Scope go_scope with go.
#[global] Open Scope go_scope.

Notation "a '=s' b" := (String.eqb a b) (at level 70, no associativity) : go_scope.
Notation "a '<>s' b" := (negb (String.eqb a b)) (at level 70, no associativity) : go_scope.

(** Field updates of a struct, in the order the code makes them. *)
Notation "x '|>' f" := (f x) (at level 50, left associativity, only parsing) : go_scope.

Definition len (s : string) : Z := Z.of_nat (String.length s).

(** [len] of a slice or a map's key list. *)
Definition llen {A} (l : list A) : Z := Z.of_nat (length l).

(** ** Error results

    A Go function returning [(T, error)] is a [result]: on the error path the
    other value is the zero value and no caller in the modelled code reads it. *)

Inductive result (E A : Type) : Type :=
| Ok (a : A)
| Err (e : E).
Arguments Ok {E A} a.
Arguments Err {E A} e.

Definition bind {E A B} (r : result E A) (k : A -> result E B) : result E B :=
  match r with Ok a => k a | Err e => Err e end.

Notation "'let*' x ':=' r 'in' k" := (bind r (fun x => k))
  (at level 10, x pattern, k at level 200) : go_scope.
Notation "'guard' b 'else' e 'in' k" := (if (b : bool) then k else Err e)
  (at level 10, k at level 200) : go_scope.

Definition is_ok {E A} (r : result E A) : bool := match r with Ok _ => true | Err _ => false end.

Lemma bind_ok {E A B} (r : result E A) (k : A -> result E B) b :
  bind r k = Ok b <-> exists a, r = Ok a /\ k a = Ok b.
Proof. destruct r as [a|e]; simpl; split; [eauto|by intros (? & [=->] & ?)|done|by intros (? & ? & ?)]. Qed.

(** ** Machine integers

    [int] and [int64] are 64-bit two's complement on every platform the program
    is built for; [wrap64] is their wrap-around. [time.Duration] is an [int64]
    number of nanoseconds, and [Time.Sub] saturates instead of wrapping. *)

Definition int64_min : Z := - 2 ^ 63.
Definition int64_max : Z := 2 ^ 63 - 1.
Definition wrap64 (z : Z) : Z := (z + 2 ^ 63) mod 2 ^ 64 - 2 ^ 63.
Definition sat64 (z : Z) : Z := Z.max int64_min (Z.min z int64_max).
Definition in_int64 (z : Z) : Prop := int64_min <= z <= int64_max.

Lemma wrap64_id z : in_int64 z -> wrap64 z = z.
Proof. unfold in_int64, int64_min, int64_max, wrap64. intros H. rewrite Z.mod_small; lia. Qed.

Lemma wrap64_range z : in_int64 (wrap64 z).
Proof.
  unfold in_int64, int64_min, int64_max, wrap64.
  pose proof (Z.mod_pos_bound (z + 2 ^ 63) (2 ^ 64)). lia.
Qed.

Lemma sat64_range z : in_int64 (sat64 z).
Proof. unfold in_int64, sat64, int64_min, int64_max. lia. Qed.

Lemma sat64_id z : in_int64 z -> sat64 z = z.
Proof. unfold in_int64, sat64, int64_min, int64_max. lia. Qed.

(** ** Instants and durations

    A [time.Time] is a number of nanoseconds since Go's zero time (1 January of
    year 1, UTC). [IsZero] is the test for that instant. The monotonic reading a
    [time.Time] may carry is not a separate component: one number stands for the
    reading every comparison and difference uses. *)

Abbreviation Time := Z (only parsing).
Abbreviation Duration := Z (only parsing).

Definition Nanosecond : Duration := 1.
Definition Millisecond : Duration := 1000000.
Definition Second : Duration := 1000000000.
Definition Minute : Duration := 60 * Second.
Definition Hour : Duration := 60 * Minute.

Definition IsZero (t : Time) : bool := t =? 0.
Definition After (t u : Time) : bool := u <? t.
Definition Before (t u : Time) : bool := t <? u.
Definition TimeEqual (t u : Time) : bool := t =? u.
Definition Sub (t u : Time) : Duration := sat64 (t - u).
Definition Add (t : Time) (d : Duration) : Time := t + d.
(** Go's integer division truncates towards zero. *)
Definition Milliseconds (d : Duration) : Z := Z.quot d Millisecond.

(** The Unix epoch; [Time.Unix] and [Time.UnixMilli]. *)
Definition unixEpoch : Time := 62135596800 * Second.
Definition Unix (t : Time) : Z := (t - unixEpoch) / Second.
Definition UnixMilli (t : Time) : Z := (t - unixEpoch) / Millisecond.

(** ** Automation

    [go_cases] splits every [if] and [match] of the goal and hypotheses on its
    scrutinee; [go_bool] turns the boolean tests of the code into propositions. *)

Create HintDb go.
Create Rewrite HintDb go_rw.

#[export] Hint Rewrite andb_true_iff andb_false_iff orb_true_iff orb_false_iff
  negb_true_iff negb_false_iff Z.ltb_lt Z.ltb_ge Z.leb_le Z.leb_gt Z.eqb_eq Z.eqb_neq
  String.eqb_eq String.eqb_neq Z.gtb_lt Z.geb_le : go_rw.

Ltac go_bool := repeat (autorewrite with go_rw in *).

Ltac go_case :=
  match goal with
  | |- context [if ?b then _ else _] => destruct b eqn:?
  | |- context [match ?x with _ => _ end] => destruct x eqn:?
  end.

Ltac go_case_in H :=
  match type of H with
  | context [if ?b then _ else _] => destruct b eqn:?
  | context [match ?x with _ => _ end] => destruct x eqn:?
  end.

(** [go_inv H]: exhaust the branches of a computation that returned [Ok]. *)
Ltac go_inv H := repeat (go_case_in H; simplify_eq/=).

#[export] Hint Resolve wrap64_range sat64_range : go.
#[export] Hint Extern 2 (_ <= _) => lia : go.
#[export] Hint Extern 2 (_ < _) => lia : go.

(** ** Generic lemmas on durations *)

Lemma milliseconds_nonneg d : 0 <= d -> 0 <= Milliseconds d.
Proof. intros H. apply Z.quot_pos; [done | unfold Millisecond; lia]. Qed.

Lemma milliseconds_le d : 0 <= d -> Milliseconds d * Millisecond <= d.
Proof.
  intros H. unfold Milliseconds, Millisecond. rewrite Z.quot_div_nonneg by lia.
  pose proof (Z.div_mod d 1000000). pose proof (Z.mod_pos_bound d 1000000). lia.
Qed.

Lemma milliseconds_bound d b : 0 <= d -> d <= b * Millisecond -> Milliseconds d <= b.
Proof. intros H H0. pose proof (milliseconds_le d H). unfold Millisecond in *. lia. Qed.
#[export] Hint Resolve milliseconds_nonneg milliseconds_le : go.

Lemma Sub_nonneg t u : u <= t -> 0 <= Sub t u.
Proof. unfold Sub, sat64, int64_min, int64_max. lia. Qed.

Lemma Sub_le t u : u <= t -> Sub t u <= t - u.
Proof. unfold Sub, sat64, int64_min, int64_max. lia. Qed.
#[export] Hint Resolve Sub_nonneg Sub_le : go.

(** ** Generic lemmas on lists *)

Lemma elem_of_rev {A} (x : A) (l : list A) : x ∈ rev l <-> x ∈ l.
Proof. by rewrite !list_elem_of_In, <- in_rev. Qed.

(** ** Lengths *)

Lemma llen_nonneg {A} (l : list A) : 0 <= llen l.
Proof. unfold llen. lia. Qed.
#[export] Hint Resolve llen_nonneg : go.

Lemma llen_cons {A} (x : A) l : llen (x :: l) = llen l + 1.
Proof. unfold llen. cbn [length]. lia. Qed.

Lemma llen_app {A} (l m : list A) : llen (l ++ m) = llen l + llen m.
Proof. unfold llen. rewrite length_app. lia. Qed.

(** A pair by its first component. *)
Lemma pair_of {A B} (x : A * B) a : x.1 = a -> x = (a, x.2).
Proof. by destruct x; cbn; intros ->. Qed.

(** ** Counting the elements of a list with a property *)

Section counting.
Context {A : Type} (P : A -> Prop) `{!forall x, Decision (P x)}.

Definition indicator (x : A) : Z := if decide (P x) then 1 else 0.

Lemma llen_filter_app l1 l2 : llen (filter P (l1 ++ l2)) = llen (filter P l1) + llen (filter P l2).
Proof. unfold llen. rewrite filter_app, length_app. lia. Qed.

Lemma llen_filter_one x : llen (filter P [x]) = indicator x.
Proof. unfold llen, indicator. rewrite filter_cons, filter_nil. by case_decide. Qed.

Lemma llen_filter_insert l i x y : l !! i = Some x ->
  llen (filter P (<[i := y]> l)) = llen (filter P l) - indicator x + indicator y.
Proof.
  intros Hi. assert (i < length l)%nat by by eapply lookup_lt_Some.
  rewrite insert_take_drop by done. rewrite <- (take_drop_middle l i x Hi) at 3.
  rewrite !llen_filter_app. change (y :: drop (S i) l) with ([y] ++ drop (S i) l).
  change (x :: drop (S i) l) with ([x] ++ drop (S i) l). rewrite !llen_filter_app, !llen_filter_one. lia.
Qed.
End counting.
