(* ===== verification/GoFloat.v ===== *)
(** * float64

    Go's [float64] is IEEE 754 binary64 with rounding to nearest even. The
    standard library's [SpecFloat] is that arithmetic as executable functions
    on [spec_float], at precision 53 and maximal exponent 1024; nothing here is
    axiomatic. Operations are rounded one by one (no fused multiply-add, which
    the language permits a compiler to use on some architectures).

    The order lemmas are about the comparison the code uses ([<], [<=], [==] are
    false on NaN). The exactness lemma of the token buckets, [sub_one_exact],
    speaks of [units x], the value of [x] as an integer multiple of 2^-1074. *)

From S2P Require Import Prelude.
From Stdlib Require Export Floats.SpecFloat.

Abbreviation float64 := spec_float (only parsing).

Definition prec : Z := 53.
Definition emax : Z := 1024.

Definition f_add : float64 -> float64 -> float64 := SFadd prec emax.
Definition f_sub : float64 -> float64 -> float64 := SFsub prec emax.
Definition f_mul : float64 -> float64 -> float64 := SFmul prec emax.
Definition f_div : float64 -> float64 -> float64 := SFdiv prec emax.
(** [float64(n)] for an integer [n]. *)
Definition f_of_Z (n : Z) : float64 := binary_normalize prec emax n 0 false.

Declare Scope float_scope.
Delimit Scope float_scope with f64.
Infix "<" := SFltb : float_scope.
Infix "<=" := SFleb : float_scope.
Notation "x > y" := (SFltb y x) : float_scope.
Notation "x >= y" := (SFleb y x) : float_scope.
Infix "==" := SFeqb (at level 70) : float_scope.
Notation "x != y" := (negb (SFeqb x y)) (at level 70) : float_scope.
Infix "+" := f_add : float_scope.
Infix "-" := f_sub : float_scope.
Infix "*" := f_mul : float_scope.
Infix "/" := f_div : float_scope.

Definition IsNaN (x : float64) : bool := match x with S754_nan => true | _ => false end.
Definition IsInf (x : float64) : bool := match x with S754_infinity _ => true | _ => false end.
Definition Signbit (x : float64) : bool :=
  match x with
  | S754_zero s | S754_infinity s | S754_finite s _ _ => s
  | S754_nan => false
  end.

(** [math.Min] and the built-in [min] and [max] on two floats: NaN wins, then
    the infinities, and a negative zero is below a positive one. *)
Definition f_min (x y : float64) : float64 :=
  if IsNaN x || IsNaN y then S754_nan
  else if (x == y)%f64 then (if Signbit x then x else y)
  else if (x < y)%f64 then x else y.

Definition f_max (x y : float64) : float64 :=
  if IsNaN x || IsNaN y then S754_nan
  else if (x == y)%f64 then (if Signbit x then y else x)
  else if (x > y)%f64 then x else y.

(** [math.Ceil]: the least integer above a finite value, with its sign kept. *)
Definition f_ceil (x : float64) : float64 :=
  match x with
  | S754_finite s m e =>
      if 0 <=? e then x
      else if s then binary_normalize prec emax (- Z.shiftr (Zpos m) (- e)) 0 true
      else binary_normalize prec emax (- Z.shiftr (- Zpos m) (- e)) 0 false
  | _ => x
  end.

(** [int(x)]: truncation towards zero. Outside the range of [int] the language
    leaves the result to the implementation, so it is an argument here. *)
Definition f_trunc (m : positive) (e : Z) : Z :=
  if 0 <=? e then Z.shiftl (Zpos m) e else Z.shiftr (Zpos m) (- e).

Definition f_to_int (out_of_range : float64 -> Z) (x : float64) : Z :=
  match x with
  | S754_zero _ => 0
  | S754_finite s m e =>
      let z := if s then - f_trunc m e else f_trunc m e in
      if (int64_min <=? z) && (z <=? int64_max) then z else out_of_range x
  | _ => out_of_range x
  end.

(** [Duration.Seconds]: whole seconds plus the fraction, each converted. *)
Definition Seconds (d : Duration) : float64 :=
  (f_of_Z (Z.quot d Second) + f_of_Z (Z.rem d Second) / f_of_Z 1000000000)%f64.

(** A finite value: neither NaN nor an infinity ([finite] in the Go packages). *)
Definition is_finite (x : float64) : bool := negb (IsNaN x) && negb (IsInf x).

(** ** Order *)

(** Position of a float on the line, by its exponent and mantissa. [SFcompare]
    is the lexicographic order of these keys. *)
Definition key (x : float64) : Z * Z * Z :=
  match x with
  | S754_zero _ | S754_nan => (0, 0, 0)
  | S754_infinity s => (if s then -2 else 2, 0, 0)
  | S754_finite s m e => if s then (-1, - e, - Zpos m) else (1, e, Zpos m)
  end.

Definition lex (a b : Z * Z * Z) : comparison :=
  let '(a1, a2, a3) := a in
  let '(b1, b2, b3) := b in
  match a1 ?= b1 with
  | Eq => match a2 ?= b2 with Eq => a3 ?= b3 | c => c end
  | c => c
  end.

Lemma SFcompare_key x y :
  IsNaN x = false -> IsNaN y = false -> SFcompare x y = Some (lex (key x) (key y)).
Proof.
  destruct x as [s|s| |s m e], y as [t|t| |t n f]; try done; intros _ _;
    try (destruct s; reflexivity); try (destruct t; reflexivity);
    try (destruct s, t; reflexivity).
  destruct s, t; try reflexivity; unfold lex; simpl; f_equal.
  rewrite (Z.compare_opp e f), (Z.compare_antisym e f). by destruct (e ?= f).
Qed.

Lemma lex_refl a : lex a a = Eq.
Proof. destruct a as [[a1 a2] a3]. simpl. by rewrite !Z.compare_refl. Qed.

Lemma lex_antisym a b : lex b a = CompOpp (lex a b).
Proof.
  destruct a as [[a1 a2] a3], b as [[b1 b2] b3]. simpl.
  rewrite (Z.compare_antisym a1 b1). destruct (a1 ?= b1) eqn:?; try done. simpl.
  rewrite (Z.compare_antisym a2 b2). destruct (a2 ?= b2) eqn:?; try done. simpl.
  by rewrite (Z.compare_antisym a3 b3).
Qed.

Definition lex_lt (a b : Z * Z * Z) : Prop :=
  a.1.1 < b.1.1 \/ (a.1.1 = b.1.1 /\ (a.1.2 < b.1.2 \/ (a.1.2 = b.1.2 /\ a.2 < b.2))).

Lemma lex_spec a b :
  match lex a b with
  | Lt => lex_lt a b
  | Gt => lex_lt b a
  | Eq => a = b
  end.
Proof.
  destruct a as [[a1 a2] a3], b as [[b1 b2] b3]. unfold lex, lex_lt. simpl.
  destruct (Z.compare_spec a1 b1); simpl; try lia. subst.
  destruct (Z.compare_spec a2 b2); simpl; try lia. subst.
  destruct (Z.compare_spec a3 b3); simpl; try lia. by subst.
Qed.

(** [float_order] moves every float comparison between values known not to be
    NaN to integer comparisons of the keys. *)
Lemma SFltb_key x y : IsNaN x = false -> IsNaN y = false ->
  (x < y)%f64 = true <-> lex_lt (key x) (key y).
Proof.
  intros Hx Hy. unfold SFltb. rewrite (SFcompare_key x y Hx Hy).
  pose proof (lex_spec (key x) (key y)) as Hs.
  destruct (lex (key x) (key y)); unfold lex_lt in *; try rewrite Hs in *; split; try done; lia.
Qed.

Lemma SFleb_key x y : IsNaN x = false -> IsNaN y = false ->
  (x <= y)%f64 = true <-> ~ lex_lt (key y) (key x).
Proof.
  intros Hx Hy. unfold SFleb. rewrite (SFcompare_key x y Hx Hy).
  pose proof (lex_spec (key x) (key y)) as Hs.
  destruct (lex (key x) (key y)); unfold lex_lt in *; try rewrite Hs in *; split; try done; lia.
Qed.

Lemma SFeqb_key x y : IsNaN x = false -> IsNaN y = false ->
  (x == y)%f64 = true <-> key x = key y.
Proof.
  intros Hx Hy. unfold SFeqb. rewrite (SFcompare_key x y Hx Hy).
  pose proof (lex_spec (key x) (key y)) as Hs.
  destruct (lex (key x) (key y)); unfold lex_lt in *; split; try done; intros E; rewrite E in Hs; lia.
Qed.

Lemma SFltb_not_leb x y : IsNaN x = false -> IsNaN y = false ->
  (x < y)%f64 = negb (y <= x)%f64.
Proof.
  intros Hx Hy. apply eq_true_iff_eq. rewrite negb_true_iff, <- not_true_iff_false.
  rewrite SFltb_key, SFleb_key by done. unfold lex_lt. lia.
Qed.

Lemma SFleb_trans x y z : (x <= y)%f64 = true -> (y <= z)%f64 = true -> (x <= z)%f64 = true.
Proof.
  destruct (IsNaN x) eqn:Hx; [by destruct x|]. destruct (IsNaN y) eqn:Hy; [by destruct x, y|].
  destruct (IsNaN z) eqn:Hz; [by destruct x, y, z|].
  rewrite !SFleb_key by done. unfold lex_lt. lia.
Qed.

Lemma SFleb_refl x : IsNaN x = false -> (x <= x)%f64 = true.
Proof. intros Hx. rewrite SFleb_key by done. unfold lex_lt. lia. Qed.

Lemma SFleb_total x y : IsNaN x = false -> IsNaN y = false ->
  (x <= y)%f64 = true \/ (y <= x)%f64 = true.
Proof. intros Hx Hy. rewrite !SFleb_key by done. unfold lex_lt. lia. Qed.

Lemma SFltb_SFleb x y : (x < y)%f64 = true -> (x <= y)%f64 = true.
Proof. unfold SFltb, SFleb. by destruct (SFcompare x y) as [[]|]. Qed.

Lemma SFleb_not_nan x y : (x <= y)%f64 = true -> IsNaN x = false /\ IsNaN y = false.
Proof. unfold SFleb. destruct x, y; simpl; done. Qed.

Lemma is_finite_not_nan x : is_finite x = true -> IsNaN x = false.
Proof. unfold is_finite. by destruct x. Qed.
#[export] Hint Resolve is_finite_not_nan : go.

(** The minimum is below both arguments and is one of them. *)
Lemma f_min_spec x y : IsNaN x = false -> IsNaN y = false ->
  (f_min x y <= x)%f64 = true /\ (f_min x y <= y)%f64 = true /\ (f_min x y = x \/ f_min x y = y).
Proof.
  intros Hx Hy. unfold f_min. rewrite Hx, Hy. simpl.
  destruct (x == y)%f64 eqn:E; [|destruct (x < y)%f64 eqn:L].
  - apply SFeqb_key in E; [|done..].
    destruct (Signbit x); rewrite !SFleb_key by done; rewrite E; unfold lex_lt; split_and!; auto; lia.
  - split_and!; [by apply SFleb_refl|by apply SFltb_SFleb|auto].
  - rewrite SFltb_not_leb in L by done. apply negb_false_iff in L.
    split_and!; [done|by apply SFleb_refl|auto].
Qed.

Lemma f_max_spec x y : IsNaN x = false -> IsNaN y = false ->
  (x <= f_max x y)%f64 = true /\ (y <= f_max x y)%f64 = true /\ (f_max x y = x \/ f_max x y = y).
Proof.
  intros Hx Hy. unfold f_max. rewrite Hx, Hy. simpl.
  destruct (x == y)%f64 eqn:E; [|destruct (y < x)%f64 eqn:L].
  - apply SFeqb_key in E; [|done..].
    destruct (Signbit x); rewrite !SFleb_key by done; rewrite E; unfold lex_lt; split_and!; auto; lia.
  - split_and!; [by apply SFleb_refl|by apply SFltb_SFleb|auto].
  - rewrite SFltb_not_leb in L by done. apply negb_false_iff in L.
    split_and!; [done|by apply SFleb_refl|auto].
Qed.

(** ** Signs

    A result of rounding keeps the sign it is given, so sums, products and
    quotients of values without a sign bit have none; [nn x] (not negative: NaN,
    a zero of either sign, or positive) is what the accumulations preserve. *)

Definition nn (x : float64) : bool := negb (x < S754_zero false)%f64.

Lemma round_aux_pos m e l : Signbit (binary_round_aux prec emax false m e l) = false.
Proof.
  unfold binary_round_aux. destruct (shr_fexp _ _ _ _ _) as [mrs1 e1].
  destruct (shr_fexp _ _ _ _ _) as [mrs2 e2]. destruct (shr_m mrs2); try done. by destruct (_ <=? _).
Qed.

Lemma round_pos m e : Signbit (binary_round prec emax false m e) = false.
Proof. unfold binary_round. destruct (shl_align _ _ _). apply round_aux_pos. Qed.

Lemma Signbit_nn x : Signbit x = false -> nn x = true.
Proof. destruct x as [[]|[]| |[] ? ?]; done. Qed.

Lemma f_of_Z_pos n : 0 <= n -> Signbit (f_of_Z n) = false.
Proof. intros H. unfold f_of_Z, binary_normalize. destruct n; [done|apply round_pos|lia]. Qed.

Lemma f_add_pos x y : Signbit x = false -> Signbit y = false -> Signbit (x + y)%f64 = false.
Proof.
  unfold f_add. destruct x as [[]|[]| |[] m e], y as [[]|[]| |[] n f]; try done.
  intros _ _. simpl. apply round_pos.
Qed.

Lemma f_div_pos x y : Signbit x = false -> Signbit y = false -> Signbit (x / y)%f64 = false.
Proof.
  unfold f_div. destruct x as [[]|[]| |[] m e], y as [[]|[]| |[] n f]; try done.
  intros _ _. unfold SFdiv. destruct (SFdiv_core_binary _ _ _ _ _ _) as [[a b] c]. apply round_aux_pos.
Qed.

Lemma Seconds_pos d : 0 <= d -> Signbit (Seconds d) = false.
Proof.
  intros H. unfold Seconds.
  apply f_add_pos; [|apply f_div_pos]; apply f_of_Z_pos; unfold Second;
    [apply Z.quot_pos|apply Z.rem_nonneg|]; lia.
Qed.

Lemma nn_add x y : nn x = true -> nn y = true -> nn (x + y)%f64 = true.
Proof.
  unfold f_add. destruct x as [[]|[]| |[] m e], y as [[]|[]| |[] n f]; try done.
  intros _ _. apply Signbit_nn. simpl. apply round_pos.
Qed.

Lemma nn_mul x y : nn x = true -> nn y = true -> nn (x * y)%f64 = true.
Proof.
  unfold f_mul. destruct x as [[]|[]| |[] m e], y as [[]|[]| |[] n f]; try done.
  intros _ _. apply Signbit_nn. simpl. apply round_aux_pos.
Qed.

Lemma nn_div x y : nn x = true -> Signbit y = false -> nn (x / y)%f64 = true.
Proof.
  unfold f_div. destruct x as [[]|[]| |[] m e], y as [[]|[]| |[] n f]; try done.
  intros _ _. unfold SFdiv. destruct (SFdiv_core_binary _ _ _ _ _ _) as [[a b] c].
  apply Signbit_nn, round_aux_pos.
Qed.

Lemma nn_nonneg x : IsNaN x = false -> nn x = true -> (S754_zero false <= x)%f64 = true.
Proof. unfold nn. intros Hn H. rewrite SFltb_not_leb in H by done. by rewrite negb_involutive in H. Qed.
#[export] Hint Resolve Signbit_nn nn_add nn_mul nn_div f_add_pos f_div_pos Seconds_pos f_of_Z_pos : go.

(** ** Exact values

    Every finite float64 is an integer multiple of 2^-1074; [units] is that
    integer. On values in canonical form ([valid]) the comparison is the
    comparison of units. *)

Definition valid (x : float64) : bool := valid_binary prec emax x.

Definition units (x : float64) : Z :=
  match x with
  | S754_finite s m e => (if s then -1 else 1) * (Zpos m * 2 ^ (e + 1074))
  | _ => 0
  end.

(** One, in units. *)
Definition unit1 : Z := 2 ^ 1074.

Lemma digits2_log2 m : Zpos (digits2_pos m) = Z.log2 (Zpos m) + 1.
Proof.
  induction m as [m IH|m IH|]; [..|done]; simpl digits2_pos; rewrite Pos2Z.inj_succ, IH.
  - change (Zpos m~1) with (2 * Zpos m + 1). rewrite Z.log2_succ_double by lia. lia.
  - change (Zpos m~0) with (2 * Zpos m). rewrite Z.log2_double by lia. lia.
Qed.

Lemma Zdigits2_log2 n : 0 < n -> Zdigits2 n = Z.log2 n + 1.
Proof. intros H. destruct n; try lia. apply digits2_log2. Qed.

Lemma shr_1_double z : 0 < z ->
  shr_1 (Build_shr_record (2 * z) false false) = Build_shr_record z false false.
Proof. by destruct z. Qed.

Lemma shr_exact p k : 0 < k ->
  iter_pos shr_1 p (Build_shr_record (k * 2 ^ Zpos p) false false) = Build_shr_record k false false.
Proof.
  revert k. induction p as [p IH|p IH|]; intros k Hk; cbn [iter_pos].
  - replace (k * 2 ^ Zpos p~1) with (2 * (k * 2 ^ Zpos p * 2 ^ Zpos p)).
    2:{ change (Zpos p~1) with (2 * Zpos p + 1).
        rewrite Z.pow_add_r, Z.pow_twice_r by lia. lia. }
    pose proof (Z.pow_pos_nonneg 2 (Zpos p)).
    rewrite shr_1_double, IH by nia. by apply IH.
  - replace (k * 2 ^ Zpos p~0) with (k * 2 ^ Zpos p * 2 ^ Zpos p).
    2:{ change (Zpos p~0) with (2 * Zpos p). rewrite Z.pow_twice_r by lia. lia. }
    pose proof (Z.pow_pos_nonneg 2 (Zpos p)). rewrite IH by nia. by apply IH.
  - rewrite Z.mul_comm. by apply shr_1_double.
Qed.

Lemma shl_align_fst m e e' : e' <= e -> Zpos (shl_align m e e').1 = Zpos m * 2 ^ (e - e').
Proof.
  intros H. unfold shl_align. destruct (e' - e) eqn:E; simpl; try lia.
  - replace (e - e') with 0 by lia. lia.
  - replace (e - e') with (Zpos p) by lia.
    clear E H. induction p using Pos.peano_ind; [simpl; lia|].
    rewrite Pos.iter_succ. change (Zpos (Pos.iter xO m p)~0) with (2 * Zpos (Pos.iter xO m p)).
    rewrite IHp, Pos2Z.inj_succ, Z.pow_succ_r by lia. lia.
Qed.

(** Rounding is exact when the bits that would be dropped are zero. *)
Lemma round_aux_exact s k e e' :
  0 < k -> e <= e' -> fexp prec emax (Z.log2 k + 1 + e') = e' -> e' <= emax - prec ->
  exists m, Zpos m = k /\
    binary_round_aux prec emax s (k * 2 ^ (e' - e)) e loc_Exact = S754_finite s m e'.
Proof.
  intros Hk He Hf Hmax. destruct k as [|m|m]; try lia. exists m. split; [done|].
  unfold binary_round_aux, shr_fexp.
  rewrite Zdigits2_log2 by (pose proof (Z.pow_pos_nonneg 2 (e' - e)); nia).
  rewrite Z.log2_mul_pow2 by lia.
  replace (e' - e + Z.log2 (Zpos m) + 1 + e) with (Z.log2 (Zpos m) + 1 + e') by lia. rewrite Hf.
  assert (shr (shr_record_of_loc (Zpos m * 2 ^ (e' - e)) loc_Exact) e (e' - e)
          = (Build_shr_record (Zpos m) false false, e')) as ->.
  { unfold shr. simpl shr_record_of_loc. destruct (e' - e) as [|p|p] eqn:E; try lia.
    - replace e' with e by lia. by rewrite Z.mul_1_r.
    - rewrite shr_exact by lia. f_equal. lia. }
  simpl shr_m. simpl loc_of_shr_record. simpl round_nearest_even. simpl shr_record_of_loc.
  rewrite Zdigits2_log2, Hf, Z.sub_diag by lia. simpl.
  by replace (e' <=? emax - prec) with true by (symmetry; apply Z.leb_le; lia).
Qed.

Lemma binary_round_exact s n e k :
  let e' := fexp prec emax (Z.log2 (Zpos n) + 1 + e) in
  e' <= emax - prec -> 0 < k ->
  (e' <= e -> k = Zpos n * 2 ^ (e - e')) -> (e < e' -> Zpos n = k * 2 ^ (e' - e)) ->
  exists m, Zpos m = k /\ binary_round prec emax s n e = S754_finite s m e'.
Proof.
  intros e' Hmax Hk Hle Hgt. unfold binary_round. rewrite digits2_log2. fold e'.
  destruct (Z_le_gt_dec e' e) as [H|H].
  - pose proof (shl_align_fst n e e' H) as Hs.
    assert (Hsnd : (shl_align n e e').2 = e').
    { unfold shl_align. destruct (e' - e) eqn:E; simpl; lia. }
    destruct (shl_align n e e') as [mz ez]. simpl in Hs, Hsnd. subst ez. rewrite Hs, <- Hle by done.
    destruct (round_aux_exact s k e' e') as (m & Hm & Hr); try done; try lia.
    { rewrite (Hle H), Z.log2_mul_pow2 by lia. unfold e' at 3. f_equal. lia. }
    rewrite Z.sub_diag, Z.mul_1_r in Hr. eauto.
  - assert (shl_align n e e' = (n, e)) as ->.
    { unfold shl_align. destruct (e' - e) eqn:E; try done; lia. }
    rewrite (Hgt ltac:(lia)). apply round_aux_exact; try done; try lia.
    unfold e'. f_equal. rewrite (Hgt ltac:(lia)) at 2. rewrite Z.log2_mul_pow2 by lia. lia.
Qed.

Lemma valid_finite_spec s m e : valid (S754_finite s m e) = true <->
  fexp prec emax (Z.log2 (Zpos m) + 1 + e) = e /\ e <= emax - prec.
Proof.
  unfold valid. cbn [valid_binary]. unfold bounded, canonical_mantissa. rewrite digits2_log2. go_bool. done.
Qed.

(** A canonical mantissa has at most 53 bits, and exactly 53 above the
    subnormal range. *)
Lemma canonical_bounds m e : fexp prec emax (Z.log2 (Zpos m) + 1 + e) = e ->
  -1074 <= e /\ 0 < Zpos m < 2 ^ 53 /\ (-1074 < e -> 2 ^ 52 <= Zpos m).
Proof.
  unfold fexp, emin, prec, emax. intros H.
  pose proof (Z.log2_nonneg (Zpos m)).
  assert (-1074 <= e /\ Z.log2 (Zpos m) <= 52 /\ (-1074 < e -> Z.log2 (Zpos m) = 52)) as (H1 & H2 & H3) by lia.
  pose proof (Z.log2_spec (Zpos m) ltac:(lia)) as [Hl Hu].
  pose proof (Z.pow_le_mono_r 2 (Z.succ (Z.log2 (Zpos m))) 53 ltac:(lia) ltac:(lia)).
  split_and!; try lia. intros He. by rewrite H3 in Hl.
Qed.

Lemma finite_lt_units m e n f :
  fexp prec emax (Z.log2 (Zpos m) + 1 + e) = e -> fexp prec emax (Z.log2 (Zpos n) + 1 + f) = f ->
  e < f -> Zpos m * 2 ^ (e + 1074) < Zpos n * 2 ^ (f + 1074).
Proof.
  intros Hm Hn Hef.
  destruct (canonical_bounds m e Hm) as (He & Hm1 & _).
  destruct (canonical_bounds n f Hn) as (Hf & _ & Hn1). specialize (Hn1 ltac:(lia)).
  replace (f + 1074) with ((f - e - 1) + 1 + (e + 1074)) by lia.
  rewrite (Z.pow_add_r 2 (f - e - 1 + 1)), (Z.pow_add_r 2 (f - e - 1)) by lia.
  pose proof (Z.pow_pos_nonneg 2 (e + 1074) ltac:(lia) ltac:(lia)) as HA.
  pose proof (Z.pow_pos_nonneg 2 (f - e - 1) ltac:(lia) ltac:(lia)) as HB.
  rewrite Z.mul_assoc. apply Z.mul_lt_mono_pos_r; [done|].
  apply (Z.lt_le_trans _ (2 ^ 52 * 2)); [lia|]. nia.
Qed.

Lemma pow_units_pos m e : -1074 <= e -> 0 < Zpos m * 2 ^ (e + 1074).
Proof. intros H. pose proof (Z.pow_pos_nonneg 2 (e + 1074)). nia. Qed.

Ltac zcompare := symmetry; first [apply Z.compare_lt_iff; lia | apply Z.compare_gt_iff; lia | apply Z.compare_eq_iff; lia].

Lemma SFcompare_units x y : valid x = true -> valid y = true ->
  is_finite x = true -> is_finite y = true -> SFcompare x y = Some (units x ?= units y).
Proof.
  destruct x as [s|s| |s m e], y as [t|t| |t n f]; try done; intros Hx Hy _ _;
    try (apply valid_finite_spec in Hx as [Hx _]; pose proof (canonical_bounds _ _ Hx);
         pose proof (pow_units_pos m e ltac:(lia)));
    try (apply valid_finite_spec in Hy as [Hy _]; pose proof (canonical_bounds _ _ Hy);
         pose proof (pow_units_pos n f ltac:(lia)));
    cbn [SFcompare units]; f_equal.
  - destruct t; zcompare.
  - destruct s; zcompare.
  - pose proof (finite_lt_units m e n f Hx Hy). pose proof (finite_lt_units n f m e Hy Hx).
    assert (e = f -> (m ?= n)%positive = (Zpos m * 2 ^ (e + 1074) ?= Zpos n * 2 ^ (f + 1074))) as Heq.
    { intros ->. change ((m ?= n)%positive) with (Zpos m ?= Zpos n).
      destruct (Z.compare_spec (Zpos m) (Zpos n)); symmetry;
        [apply Z.compare_eq_iff|apply Z.compare_lt_iff|apply Z.compare_gt_iff]; nia. }
    destruct s, t; try zcompare; destruct (Z.compare_spec e f) as [Hef|Hef|Hef]; try zcompare;
      change (PosDef.Pos.compare_cont Eq m n) with (m ?= n)%positive; rewrite (Heq Hef).
    + rewrite <- Z.compare_antisym, <- Z.compare_opp. f_equal; lia.
    + f_equal; lia.
Qed.

Lemma SFltb_units x y : valid x = true -> valid y = true -> is_finite x = true -> is_finite y = true ->
  (x < y)%f64 = (units x <? units y).
Proof.
  intros. unfold SFltb, Z.ltb. rewrite SFcompare_units by done. by destruct (_ ?= _).
Qed.

Lemma SFleb_units x y : valid x = true -> valid y = true -> is_finite x = true -> is_finite y = true ->
  (x <= y)%f64 = (units x <=? units y).
Proof.
  intros. unfold SFleb, Z.leb. rewrite SFcompare_units by done. by destruct (_ ?= _).
Qed.

(** The exact value of a rounding that drops only zero bits. *)
Lemma binary_round_units n e k :
  let e' := fexp prec emax (Z.log2 (Zpos n) + 1 + e) in
  -1074 <= e -> e' <= emax - prec ->
  (e < e' -> Zpos n = k * 2 ^ (e' - e)) ->
  let r := binary_round prec emax false n e in
  valid r = true /\ is_finite r = true /\ units r = Zpos n * 2 ^ (e + 1074).
Proof.
  intros e' He Hmax Hgt r.
  assert (-1074 <= e') by (unfold e', fexp, emin, prec, emax; lia).
  destruct (Z_le_gt_dec e' e) as [H0|H0].
  - destruct (binary_round_exact false n e (Zpos n * 2 ^ (e - e'))) as (m & Hm & Hr); try done.
    { pose proof (Z.pow_pos_nonneg 2 (e - e')). nia. }
    { fold e'. lia. }
    unfold r. rewrite Hr. fold e'. split_and!; [|done|].
    + apply valid_finite_spec. split; [|done]. rewrite Hm, Z.log2_mul_pow2 by lia. unfold e' at 3. f_equal. lia.
    + cbn [units]. rewrite Hm.
      replace (e + 1074) with ((e - e') + (e' + 1074)) by lia. rewrite (Z.pow_add_r 2 (e - e')) by lia. lia.
  - specialize (Hgt ltac:(lia)).
    assert (0 < k) by (pose proof (Z.pow_pos_nonneg 2 (e' - e)); nia).
    destruct (binary_round_exact false n e k) as (m & Hm & Hr); try done.
    unfold r. rewrite Hr. fold e'. split_and!; [|done|].
    + apply valid_finite_spec. split; [|done]. rewrite Hm. unfold e' at 2. f_equal.
      rewrite Hgt, Z.log2_mul_pow2 by lia. lia.
    + cbn [units]. rewrite Hm, Hgt.
      replace (e' + 1074) with ((e' - e) + (e + 1074)) by lia. rewrite (Z.pow_add_r 2 (e' - e)) by lia. lia.
Qed.

Lemma f_of_Z_units n : 0 <= n < 2 ^ 53 ->
  valid (f_of_Z n) = true /\ is_finite (f_of_Z n) = true /\ units (f_of_Z n) = n * unit1.
Proof.
  intros Hn. unfold f_of_Z, binary_normalize. destruct n as [|p|p]; [done| |lia].
  pose proof (Z.log2_nonneg (Zpos p)).
  assert (Z.log2 (Zpos p) < 53) by (apply Z.log2_lt_pow2; lia).
  apply (binary_round_units p 0 0); unfold fexp, emin, prec, emax; lia.
Qed.

Definition f_one : float64 := f_of_Z 1.

(** The exponent of a canonical value between 1 and 2^21. *)
Lemma one_to_2p21_exponent m e : fexp prec emax (Z.log2 (Zpos m) + 1 + e) = e ->
  unit1 <= Zpos m * 2 ^ (e + 1074) <= 2 ^ 21 * unit1 -> -52 <= e <= -31 /\ 2 ^ 52 <= Zpos m < 2 ^ 53.
Proof.
  intros Hc [H1 H2]. pose proof (canonical_bounds m e Hc) as (He & Hm & Hm52).
  assert (-52 <= e) as He52.
  { destruct (Z_lt_ge_dec e (-52)) as [Hlt|]; [|lia]. exfalso.
    pose proof (Z.pow_le_mono_r 2 (e + 1074) 1021 ltac:(lia) ltac:(lia)).
    assert (unit1 = 2 ^ 53 * 2 ^ 1021) by (unfold unit1; rewrite <- Z.pow_add_r; lia || done). nia. }
  specialize (Hm52 ltac:(lia)). split; [|lia]. split; [done|].
  destruct (Z_lt_ge_dec (-31) e) as [Hlt|]; [|lia]. exfalso.
  pose proof (Z.pow_le_mono_r 2 1044 (e + 1074) ltac:(lia) ltac:(lia)).
  assert (2 ^ 21 * unit1 = 2 ^ 51 * 2 ^ 1044) by (unfold unit1; rewrite <- !Z.pow_add_r; lia || done). nia.
Qed.

(** Normalising m * 2^(e+52) - 2^52 at exponent -52 drops only zero bits. *)
Lemma normalize_minus_one m e : -52 <= e <= -31 -> 2 ^ 52 <= Zpos m < 2 ^ 53 ->
  let n := Zpos m * 2 ^ (e + 52) - 2 ^ 52 in
  let r := binary_normalize prec emax n (-52) false in
  valid r = true /\ is_finite r = true /\ units r = n * 2 ^ 1022.
Proof.
  intros He Hm n r. pose proof (Z.pow_pos_nonneg 2 (e + 52) ltac:(lia) ltac:(lia)) as Hp.
  assert (0 <= n) as Hn0 by (unfold n; nia).
  assert (n < 2 ^ (53 + (e + 52))) as Hnu by (rewrite Z.pow_add_r by lia; unfold n; nia).
  unfold r, binary_normalize. destruct n as [|p|p] eqn:En; [done| |lia].
  assert (Z.log2 (Zpos p) < 53 + (e + 52)) by (apply Z.log2_lt_pow2; lia).
  apply (binary_round_units p (-52) (Zpos p / 2 ^ (fexp prec emax (Z.log2 (Zpos p) + 1 + -52) - -52)));
    [lia|unfold fexp, emin, prec, emax; lia|].
  intros Hlt. set (d := fexp prec emax (Z.log2 (Zpos p) + 1 + -52) - -52) in *.
  assert (0 < d <= e + 52) by (unfold d, fexp, emin, prec, emax in *; lia).
  rewrite Z.mul_comm, <- Znumtheory.Zdivide_Zdiv_eq; [done|apply Z.pow_pos_nonneg; lia|].
  rewrite <- En. exists (Zpos m * 2 ^ (e + 52 - d) - 2 ^ (52 - d)). unfold n.
  rewrite Z.mul_sub_distr_r, <- Z.mul_assoc, <- !Z.pow_add_r by lia.
  f_equal; [f_equal|]; f_equal; lia.
Qed.

(** Taking one token: on a canonical value between 1 and 2^21 the subtraction is
    exact, so the result is canonical and never negative. *)
Lemma sub_one_exact x : valid x = true -> is_finite x = true ->
  unit1 <= units x <= 2 ^ 21 * unit1 ->
  valid (x - f_one)%f64 = true /\ is_finite (x - f_one)%f64 = true /\
  units (x - f_one)%f64 = units x - unit1.
Proof.
  destruct x as [s|s| |s m e]; try done; intros Hv _ Hb.
  apply valid_finite_spec in Hv as [Hc _]. pose proof (canonical_bounds m e Hc) as (He0 & _ & _).
  pose proof (pow_units_pos m e He0). unfold units in Hb.
  destruct s; [unfold unit1 in Hb; lia|]. rewrite Z.mul_1_l in Hb.
  destruct (one_to_2p21_exponent m e Hc Hb) as [He Hm].
  destruct (normalize_minus_one m e He Hm) as (Hv & Hf & Hu).
  change f_one with (S754_finite false 4503599627370496 (-52)).
  unfold f_sub. cbn [SFsub cond_Zopp]. rewrite Z.min_r by lia. rewrite !shl_align_fst by lia.
  replace (e - -52) with (e + 52) by lia. replace (-52 - -52) with 0 by lia.
  rewrite Z.mul_1_r. change 4503599627370496 with (2 ^ 52).
  split_and!; [done..|]. rewrite Hu. unfold units. rewrite Z.mul_1_l, Z.mul_sub_distr_r.
  rewrite <- Z.mul_assoc, <- !Z.pow_add_r by lia. unfold unit1.
  replace (e + 52 + 1022) with (e + 1074) by lia. done.
Qed.
