(* ===== verification/GoText.v ===== *)
(** * Strings, runes and UTF-8

    The string functions of Go's standard library that the modelled code calls,
    on byte strings: [strings.HasPrefix], [TrimSuffix], [Contains], [Split] with
    a one-byte separator, [SplitN(.., 2)], [TrimSpace], the rune iteration of
    [range] over a string, [utf8.ValidString], [unicode.IsControl], byte-wise
    comparison, and lower-case hexadecimal. *)

From S2P Require Import Prelude.
From Stdlib Require Import Structures.OrdersEx.

(** ** Bytes *)

Definition byte_of (a : ascii) : Z := Z.of_N (N_of_ascii a).
Definition of_byte (b : Z) : ascii := ascii_of_N (Z.to_N b).

Fixpoint bytes (s : string) : list Z :=
  match s with
  | EmptyString => []
  | String a t => byte_of a :: bytes t
  end.

Fixpoint of_bytes (l : list Z) : string :=
  match l with
  | [] => EmptyString
  | b :: t => String (of_byte b) (of_bytes t)
  end.

Lemma byte_of_range a : 0 <= byte_of a < 256.
Proof. unfold byte_of. pose proof (N_ascii_bounded a). lia. Qed.

Lemma of_byte_of a : of_byte (byte_of a) = a.
Proof. unfold of_byte, byte_of. rewrite N2Z.id. apply ascii_N_embedding. Qed.

Lemma of_bytes_bytes s : of_bytes (bytes s) = s.
Proof. induction s as [|a s IH]; simpl; [done|]. by rewrite of_byte_of, IH. Qed.

Lemma length_bytes s : length (bytes s) = String.length s.
Proof. induction s as [|a s IH]; simpl; congruence. Qed.

Lemma bytes_app s t : bytes (s +:+ t) = bytes s ++ bytes t.
Proof. induction s as [|a s IH]; [done|].
  change (byte_of a :: bytes (s +:+ t) = byte_of a :: bytes s ++ bytes t). by rewrite IH.
Qed.

Lemma bytes_inj s t : bytes s = bytes t -> s = t.
Proof. intros H. by rewrite <- (of_bytes_bytes s), <- (of_bytes_bytes t), H. Qed.

(** ** Prefixes, suffixes and substrings *)

Definition HasPrefix (s p : string) : bool := String.prefix p s.

Fixpoint str_take (n : nat) (s : string) : string :=
  match n, s with
  | S n, String a t => String a (str_take n t)
  | _, _ => EmptyString
  end.

Fixpoint str_drop (n : nat) (s : string) : string :=
  match n, s with
  | S n, String _ t => str_drop n t
  | O, _ => s
  | _, EmptyString => EmptyString
  end.

Definition HasSuffix (s suf : string) : bool :=
  (String.length suf <=? String.length s)%nat
  && (str_drop (String.length s - String.length suf) s =s suf).

Definition TrimPrefix (s p : string) : string :=
  if HasPrefix s p then str_drop (String.length p) s else s.

Definition TrimSuffix (s suf : string) : string :=
  if HasSuffix s suf then str_take (String.length s - String.length suf) s else s.

Fixpoint Contains (s sub : string) : bool :=
  HasPrefix s sub || match s with EmptyString => false | String _ t => Contains t sub end.

(** [strings.Split(s, sep)] for a one-byte separator: always at least one piece. *)
Fixpoint Split (s : string) (sep : ascii) : list string :=
  match s with
  | EmptyString => [EmptyString]
  | String a t =>
      if Ascii.eqb a sep then EmptyString :: Split t sep
      else match Split t sep with
           | p :: ps => String a p :: ps
           | [] => [String a EmptyString]
           end
  end.

(** [strings.SplitN(s, sep, 2)]: the piece before the first separator and, when
    there is one, everything after it. *)
Fixpoint SplitN2 (s : string) (sep : ascii) : string * option string :=
  match s with
  | EmptyString => (EmptyString, None)
  | String a t =>
      if Ascii.eqb a sep then (EmptyString, Some t)
      else let (p, rest) := SplitN2 t sep in (String a p, rest)
  end.

(** [strings.TrimRight(s, cutset)] for an ASCII cut set. *)
Fixpoint TrimRight (s : string) (cut : ascii -> bool) : string :=
  match s with
  | EmptyString => EmptyString
  | String a t =>
      match TrimRight t cut with
      | EmptyString => if cut a then EmptyString else String a EmptyString
      | t' => String a t'
      end
  end.

(** ** UTF-8 *)

Definition RuneError : Z := 65533.
Definition cont (b : Z) : bool := (128 <=? b) && (b <=? 191).
Definition between (lo hi b : Z) : bool := (lo <=? b) && (b <=? hi).

(** One element per step of [for _, r := range s]: the rune, the bytes it was
    read from, and whether the encoding was well formed (a malformed byte reads
    as U+FFFD and advances by one). *)
Fixpoint runes_of (l : list Z) : list (Z * list Z * bool) :=
  match l with
  | [] => []
  | b0 :: l1 =>
      let bad (_ : unit) := (RuneError, [b0], false) :: runes_of l1 in
      if b0 <? 128 then (b0, [b0], true) :: runes_of l1
      else match l1 with
      | [] => bad tt
      | b1 :: l2 =>
          if between 194 223 b0 then
            if cont b1 then ((b0 - 192) * 64 + (b1 - 128), [b0; b1], true) :: runes_of l2 else bad tt
          else match l2 with
          | [] => bad tt
          | b2 :: l3 =>
              if between 224 239 b0 then
                let lo := if b0 =? 224 then 160 else 128 in
                let hi := if b0 =? 237 then 159 else 191 in
                if between lo hi b1 && cont b2
                then ((b0 - 224) * 4096 + (b1 - 128) * 64 + (b2 - 128), [b0; b1; b2], true) :: runes_of l3
                else bad tt
              else match l3 with
              | [] => bad tt
              | b3 :: l4 =>
                  if between 240 244 b0 then
                    let lo := if b0 =? 240 then 144 else 128 in
                    let hi := if b0 =? 244 then 143 else 191 in
                    if between lo hi b1 && cont b2 && cont b3
                    then ((b0 - 240) * 262144 + (b1 - 128) * 4096 + (b2 - 128) * 64 + (b3 - 128),
                          [b0; b1; b2; b3], true) :: runes_of l4
                    else bad tt
                  else bad tt
              end
          end
      end
  end.

Definition rune (x : Z * list Z * bool) : Z := x.1.1.
Definition runes (s : string) : list Z := map rune (runes_of (bytes s)).
Definition Valid (l : list Z) : bool := forallb snd (runes_of l).
Definition ValidString (s : string) : bool := Valid (bytes s).
Definition RuneCount (s : string) : Z := Z.of_nat (length (runes s)).

Definition IsControl (r : Z) : bool := between 0 31 r || between 127 159 r.
Definition ContainsControl (s : string) : bool := existsb IsControl (runes s).
Definition IsSpace (r : Z) : bool :=
  between 9 13 r || (r =? 32) || (r =? 133) || (r =? 160) || (r =? 5760) || between 8192 8202 r
  || (r =? 8232) || (r =? 8233) || (r =? 8239) || (r =? 8287) || (r =? 12288).

(** [strings.TrimSpace]: drop the leading and the trailing space runes. *)
Fixpoint drop_space (l : list (Z * list Z * bool)) : list (Z * list Z * bool) :=
  match l with
  | [] => []
  | x :: t => if IsSpace (rune x) then drop_space t else l
  end.

Definition TrimSpace (s : string) : string :=
  of_bytes (concat (map (fun x => x.1.2)
    (rev (drop_space (rev (drop_space (runes_of (bytes s)))))))).

(** [strings.ToUpper] on ASCII letters; other bytes are kept. The only non-ASCII
    runes whose upper case is ASCII are U+0131 (I) and U+017F (S); the one use in
    the modelled code compares the result with names that contain neither letter. *)
Definition upper_byte (a : ascii) : ascii :=
  if between 97 122 (byte_of a) then of_byte (byte_of a - 32) else a.
Fixpoint ToUpperASCII (s : string) : string :=
  match s with
  | EmptyString => EmptyString
  | String a t => String (upper_byte a) (ToUpperASCII t)
  end.

(** ** Order

    [s < t] on strings and [strings.Compare] are byte-wise lexicographic. *)

Definition str_lt (s t : string) : bool := String.ltb s t.
Definition str_le (s t : string) : bool := String.leb s t.
Definition Compare (s t : string) : Z :=
  match String.compare s t with Lt => -1 | Eq => 0 | Gt => 1 end.

(** ** Hexadecimal *)

Definition hex_value (b : Z) : option Z :=
  if between 48 57 b then Some (b - 48)
  else if between 97 102 b then Some (b - 87)
  else if between 65 70 b then Some (b - 55)
  else None.

(** [hex.DecodeString]: both letter cases are accepted. *)
Fixpoint hex_decode (l : list Z) : option (list Z) :=
  match l with
  | [] => Some []
  | h :: lo :: t =>
      match hex_value h, hex_value lo, hex_decode t with
      | Some a, Some b, Some r => Some (a * 16 + b :: r)
      | _, _, _ => None
      end
  | _ => None
  end.
Definition DecodeHex (s : string) : option (list Z) := hex_decode (bytes s).

Definition hex_digit (v : Z) : Z := if v <? 10 then v + 48 else v + 87.
(** [hex.EncodeToString]: lower case. *)
Definition EncodeHex (l : list Z) : string :=
  of_bytes (concat (map (fun b => [hex_digit (b / 16); hex_digit (b mod 16)]) l)).

(** [slices.Contains] on strings. *)
Definition str_in (x : string) (l : list string) : bool := existsb (String.eqb x) l.

Lemma str_in_spec x l : str_in x l = true <-> x ∈ l.
Proof.
  unfold str_in. rewrite existsb_exists, list_elem_of_In. split.
  - intros (y & Hy & E). apply String.eqb_eq in E. by subst.
  - intros H. exists x. by rewrite String.eqb_refl.
Qed.

(** ** The order on strings is a strict total order *)

Lemma compare_refl s : String.compare s s = Eq.
Proof. induction s as [|c s IH]; cbn; [done|]. unfold Ascii.compare. by rewrite N.compare_refl. Qed.

Lemma compare_trans s : forall t u c, String.compare s t = c -> String.compare t u = c -> String.compare s u = c.
Proof.
  induction s as [|a s IH]; intros [|b t] [|d u] c; cbn; try congruence.
  unfold Ascii.compare.
  destruct (N.compare_spec (N_of_ascii a) (N_of_ascii b)) as [E|E|E],
    (N.compare_spec (N_of_ascii b) (N_of_ascii d)) as [F|F|F],
    (N.compare_spec (N_of_ascii a) (N_of_ascii d)) as [G|G|G];
    try (lia || congruence); apply IH.
Qed.

Lemma str_lt_spec s t : str_lt s t = true <-> String.compare s t = Lt.
Proof. unfold str_lt, String.ltb. by destruct (String.compare s t). Qed.

Lemma str_lt_irrefl s : str_lt s s = false.
Proof. unfold str_lt, String.ltb. by rewrite compare_refl. Qed.

Lemma str_lt_trans s t u : str_lt s t = true -> str_lt t u = true -> str_lt s u = true.
Proof. rewrite !str_lt_spec. apply compare_trans. Qed.

Lemma str_lt_total s t : s <> t -> str_lt s t = false -> str_lt t s = true.
Proof.
  intros Hn. unfold str_lt, String.ltb. rewrite (String.compare_antisym t s).
  destruct (String.compare s t) eqn:E; try done. by apply String.compare_eq_iff in E.
Qed.

Lemma Compare_range s t : Compare s t = -1 \/ Compare s t = 0 \/ Compare s t = 1.
Proof. unfold Compare. destruct (String.compare s t); auto. Qed.

Lemma Compare_eq s t : Compare s t = 0 <-> s = t.
Proof.
  unfold Compare. split; [|intros ->; by rewrite compare_refl].
  destruct (String.compare s t) eqn:E; [intros _; by apply String.compare_eq_iff in E|done..].
Qed.

Lemma Compare_antisym s t : Compare t s = - Compare s t.
Proof. unfold Compare. rewrite (String.compare_antisym t s). by destruct (String.compare s t). Qed.

(** ** Prefixes and suffixes as concatenations *)

Lemma HasPrefix_spec s p : HasPrefix s p = true <-> exists t, s = p +:+ t.
Proof.
  unfold HasPrefix. revert s. induction p as [|a p IH]; intros s.
  - split; [intros _; by exists s|by destruct s].
  - destruct s as [|b s]; cbn [String.prefix]; [split; [done|by intros [t [=]]]|].
    destruct (ascii_dec a b) as [->|Hn].
    + rewrite IH. split; intros [t Ht]; exists t; [by rewrite Ht|by injection Ht].
    + split; [done|]. intros [t [= ? _]]. congruence.
Qed.

Lemma str_take_drop n s : str_take n s +:+ str_drop n s = s.
Proof.
  revert s. induction n as [|n IH]; intros [|a s]; cbn [str_take str_drop]; try done.
  change (String a (str_take n s +:+ str_drop n s) = String a s). by rewrite IH.
Qed.

Lemma HasSuffix_take s suf : HasSuffix s suf = true ->
  s = str_take (String.length s - String.length suf) s +:+ suf.
Proof.
  unfold HasSuffix. intros H. apply andb_true_iff in H as [_ H]. apply String.eqb_eq in H.
  pose proof (str_take_drop (String.length s - String.length suf) s) as E. by rewrite H in E.
Qed.

Lemma TrimSuffix_spec s suf : TrimSuffix s suf = s \/ s = TrimSuffix s suf +:+ suf.
Proof.
  unfold TrimSuffix. destruct (HasSuffix s suf) eqn:H; [right|by left]. by apply HasSuffix_take.
Qed.

Lemma str_app_assoc s t u : (s +:+ t) +:+ u = s +:+ (t +:+ u).
Proof. induction s as [|a s IH]; [done|]. change (String a ((s +:+ t) +:+ u) = String a (s +:+ (t +:+ u))). by rewrite IH. Qed.

(** Dropping a one-byte suffix keeps a prefix, unless the prefix is the whole string. *)
Lemma trimmed_prefix s p c : HasPrefix s p = true ->
  HasPrefix (TrimSuffix s (String c "")) p = true \/ s = p.
Proof.
  intros H. pose proof (TrimSuffix_spec s (String c "")) as [->|E]; [by left|].
  apply HasPrefix_spec in H as [t Ht]. generalize dependent (TrimSuffix s (String c "")). intros u E.
  destruct t as [|b t]; [right|left].
  { rewrite Ht. clear. induction p as [|a p IH]; [done|]. change (String a (p +:+ "") = String a p). by rewrite IH. }
  apply HasPrefix_spec. assert (exists v d, String b t = v +:+ String d "") as (v & d & Hv).
  { clear. revert b. induction t as [|a t IH]; intros b; [by exists "", b|].
    destruct (IH a) as (v & d & ->). by exists (String b v), d. }
  exists v. subst s. rewrite Hv, <- str_app_assoc in E. apply (f_equal bytes) in E. rewrite !bytes_app in E.
  apply app_inj_tail in E as [E _]. apply bytes_inj. by rewrite bytes_app, E.
Qed.
