(* ===== verification/GoNumber.v ===== *)
(** * Decimal integers

    [strconv.FormatInt(n, 10)] and [strconv.ParseInt(s, 10, 64)], the decimal
    value of a run of digits, and the fact that a test of the runes of a string
    against a set of ASCII characters is the same test on its bytes. *)

From S2P Require Import Prelude GoText.

Definition is_digit (b : Z) : bool := between 48 57 b.

(** The value of a list of digit bytes. *)
Definition dec (l : list Z) : Z := fold_left (fun n b => n * 10 + (b - 48)) l 0.

(** The digits of a nonnegative number, pushed in front of [acc]. *)
Fixpoint format_loop (fuel : nat) (n : Z) (acc : list Z) : list Z :=
  match fuel with
  | O => acc
  | S fuel =>
      let acc := (48 + n mod 10) :: acc in
      if n <? 10 then acc else format_loop fuel (n / 10) acc
  end.

(** Twenty digits hold every 64-bit number. *)
Definition FormatInt (n : Z) : string :=
  if n <? 0 then of_bytes (45 :: format_loop 20 (- n) []) else of_bytes (format_loop 20 n []).

(** [None] is a syntax error or a value outside int64. *)
Definition ParseInt (s : string) : option Z :=
  let '(negative, digits) := match bytes s with
    | 43 :: t => (false, t) | 45 :: t => (true, t) | l => (false, l) end in
  if match digits with [] => true | _ => negb (forallb is_digit digits) end then None
  else
    let n := if negative then - dec digits else dec digits in
    if (int64_min <=? n) && (n <=? int64_max) then Some n else None.

(** ** Digits *)

Lemma is_digit_spec b : is_digit b = true <-> 48 <= b <= 57.
Proof. unfold is_digit, between. go_bool. lia. Qed.

Lemma dec_snoc l b : dec (l ++ [b]) = dec l * 10 + (b - 48).
Proof. unfold dec. by rewrite fold_left_app. Qed.

Lemma dec_app l1 l2 : dec (l1 ++ l2) = dec l1 * 10 ^ llen l2 + dec l2.
Proof.
  unfold llen. induction l2 as [|b l2 IH] using rev_ind; [rewrite app_nil_r; cbn; lia|].
  rewrite app_assoc, !dec_snoc, IH, length_app. cbn [length].
  replace (Z.of_nat (length l2 + 1)) with (Z.of_nat (length l2) + 1) by lia.
  rewrite Z.pow_add_r, Z.pow_1_r by lia. lia.
Qed.

Lemma dec_bound l : Forall (fun b => 48 <= b <= 57) l -> 0 <= dec l < 10 ^ llen l.
Proof.
  unfold llen. induction l as [|b l IH] using rev_ind; [cbn; lia|]. intros [Hl [Hb _]%Forall_cons]%Forall_app. cbn in Hb.
  specialize (IH Hl). rewrite dec_snoc, length_app. cbn [length].
  replace (Z.of_nat (length l + 1)) with (Z.of_nat (length l) + 1) by lia.
  rewrite Z.pow_add_r, Z.pow_1_r by lia. lia.
Qed.

Lemma forallb_digits l : forallb is_digit l = true <-> Forall (fun b => 48 <= b <= 57) l.
Proof.
  rewrite forallb_forall, Forall_forall. split; intros H b Hb; specialize (H b).
  - apply is_digit_spec, H. by apply list_elem_of_In.
  - apply is_digit_spec, H. by apply list_elem_of_In in Hb.
Qed.

Lemma format_loop_spec fuel : forall n acc, 0 <= n < 10 ^ Z.of_nat fuel ->
  exists l, format_loop fuel n acc = l ++ acc /\ dec l = n /\ Forall (fun b => 48 <= b <= 57) l /\
    (fuel <> O -> l <> []) /\ (0 < n -> 10 ^ (llen l - 1) <= n).
Proof.
  induction fuel as [|fuel IH]; intros n acc Hn; cbn [format_loop].
  { exists []. split_and!; [done|cbn in *; lia|constructor|done|cbn in *; lia]. }
  pose proof (Z.mod_pos_bound n 10 ltac:(lia)). pose proof (Z.div_mod n 10 ltac:(lia)).
  destruct (n <? 10) eqn:E; go_bool.
  - exists [48 + n mod 10]. split_and!; [done| |apply Forall_singleton; lia|done|].
    2:{ change (10 ^ (llen [48 + n mod 10] - 1)) with 1. lia. }
    unfold dec. cbn. rewrite Z.mod_small; lia.
  - assert (0 <= n / 10 < 10 ^ Z.of_nat fuel) as Hd.
    { rewrite Nat2Z.inj_succ, Z.pow_succ_r in Hn by lia. split; [apply Z.div_pos; lia|].
      apply Z.div_lt_upper_bound; lia. }
    destruct (IH (n / 10) ((48 + n mod 10) :: acc) Hd) as (l & -> & Hl & Hf & _ & Hlen).
    exists (l ++ [48 + n mod 10]). rewrite <- app_assoc. split_and!; [done| | |by destruct l|].
    + rewrite dec_snoc, Hl. lia.
    + apply Forall_app. split; [done|]. apply Forall_singleton. lia.
    + intros _. assert (0 < n / 10) as Hpos by (apply Z.div_str_pos; lia). specialize (Hlen Hpos).
      assert (1 <= llen l).
      { destruct l; [cbn in Hl; lia|]. unfold llen. cbn [length]. lia. }
      unfold llen in *. rewrite length_app. cbn [length].
      replace (Z.of_nat (length l + 1) - 1) with (Z.of_nat (length l) - 1 + 1) by lia.
      rewrite Z.pow_add_r, Z.pow_1_r by lia. lia.
Qed.

Lemma bytes_of_bytes l : Forall (fun b => 0 <= b < 256) l -> bytes (of_bytes l) = l.
Proof.
  induction 1 as [|b l Hb _ IH]; [done|]. cbn [of_bytes bytes]. rewrite IH. f_equal.
  unfold byte_of, of_byte. rewrite N_ascii_embedding; lia.
Qed.

(** The digits FormatInt writes for a nonnegative number. *)
Lemma FormatInt_digits n : 0 <= n <= int64_max ->
  exists l, bytes (FormatInt n) = l /\ dec l = n /\ Forall (fun b => 48 <= b <= 57) l /\ l <> [] /\
    (0 < n -> 10 ^ (llen l - 1) <= n).
Proof.
  intros H. unfold FormatInt. destruct (n <? 0) eqn:E; go_bool; [lia|].
  destruct (format_loop_spec 20 n []) as (l & -> & Hd & Hf & Hn & Hl); [unfold int64_max in H; cbn; lia|].
  rewrite app_nil_r. exists l. split_and!; [|done|done|by apply Hn|done].
  apply bytes_of_bytes. eapply Forall_impl; [done|]. cbn. lia.
Qed.

Lemma ParseInt_digits s : bytes s <> [] -> Forall (fun b => 48 <= b <= 57) (bytes s) -> dec (bytes s) <= int64_max ->
  ParseInt s = Some (dec (bytes s)).
Proof.
  intros Hn Hf Hd. unfold ParseInt. pose proof (dec_bound _ Hf) as Hb.
  destruct (bytes s) as [|b l] eqn:E; [done|].
  assert (match b :: l with 43 :: t => (false, t) | 45 :: t => (true, t) | l => (false, l) end = (false, b :: l)) as ->.
  { apply Forall_cons in Hf as [Hb' _]. destruct b as [|p|p]; try lia.
    do 6 (try destruct p as [p|p|]); try reflexivity; lia. }
  rewrite (proj2 (forallb_digits _) Hf). cbn [negb].
  assert ((int64_min <=? dec (b :: l)) && (dec (b :: l) <=? int64_max) = true) as ->; [|done].
  apply andb_true_iff. rewrite !Z.leb_le. unfold int64_min. split; [lia|done].
Qed.

(** ** Runes of ASCII text *)

(** A byte that is not ASCII starts a rune that is not ASCII either. *)
Lemma runes_of_high b l : 128 <= b -> exists x t, runes_of (b :: l) = x :: t /\ 128 <= rune x.
Proof.
  intros Hb. cbn [runes_of]. destruct (b <? 128) eqn:E; go_bool; [lia|].
  assert (forall t : list (Z * list Z * bool), exists x t', (RuneError, [b], false) :: t = x :: t' /\ 128 <= rune x) as Hbad.
  { intros t. eexists _, _. split; [done|]. cbn. unfold RuneError. lia. }
  destruct l as [|b1 l]; [apply Hbad|].
  destruct (between 194 223 b) eqn:E2.
  { unfold cont. destruct ((128 <=? b1) && _) eqn:E3; [|apply Hbad]. eexists _, _. split; [done|].
    unfold between in E2. go_bool. cbn. lia. }
  destruct l as [|b2 l]; [apply Hbad|].
  destruct (between 224 239 b) eqn:E4.
  { destruct (between _ _ b1 && cont b2) eqn:E5; [|apply Hbad]. eexists _, _. split; [done|].
    unfold between, cont in *. go_bool. cbn. destruct (b =? 224) eqn:?; go_bool; lia. }
  destruct l as [|b3 l]; [apply Hbad|].
  destruct (between 240 244 b) eqn:E6; [|apply Hbad].
  destruct (_ && cont b3) eqn:E7; [|apply Hbad]. eexists _, _. split; [done|].
  unfold between, cont in *. go_bool. cbn. destruct (b =? 240) eqn:?; go_bool; lia.
Qed.

(** A set of ASCII characters can be tested on runes or on bytes. *)
Lemma forallb_runes (P : Z -> bool) s : (forall r, 128 <= r -> P r = false) ->
  forallb P (runes s) = forallb P (bytes s).
Proof.
  intros HP. unfold runes. generalize (bytes s). intros l. induction l as [|b l IH]; [done|].
  destruct (Z.lt_ge_cases b 128) as [Hb|Hb].
  - cbn [runes_of]. assert (b <? 128 = true) as -> by by apply Z.ltb_lt. cbn. by rewrite IH.
  - destruct (runes_of_high b l Hb) as (x & t & -> & Hx). cbn. by rewrite (HP _ Hb), (HP _ Hx).
Qed.

Lemma digit_runes s : forallb (between 48 57) (runes s) = forallb is_digit (bytes s).
Proof. apply forallb_runes. intros r Hr. apply not_true_iff_false. rewrite (is_digit_spec r). lia. Qed.
