(* ===== verification/AlertModel.v ===== *)
(** * The alert-evaluation data model

    The structs of internal/model that alert evaluation reads and writes
    (alert.go, alert_evaluation.go, alert_evaluation_state.go,
    accelerator_alert.go, metric_definition.go), field for field. A pointer that
    may be nil is an [option]; a [time.Time] is an instant; the string-typed
    enumerations stay strings, because the code compares strings and a state
    read back from the database may hold any of them. *)

From S2P Require Import Prelude GoFloat GoText.

Definition AlertPhaseNormal : string := "normal".
Definition AlertPhasePending : string := "pending".
Definition AlertPhaseFiring : string := "firing".
Definition AlertPhaseRecovering : string := "recovering".
Definition EvaluationOK : string := "ok".
Definition EvaluationNoData : string := "no_data".
Definition EvaluationError : string := "error".
Definition EvaluationDisabled : string := "disabled".
Definition EvaluationOutOfScope : string := "out_of_scope".
Definition EvaluationKeep : string := "keep".
Definition EvaluationNotify : string := "notify".

Definition MetricTrafficUsagePercent : string := "traffic_usage_percent".
Definition MetricHeartbeatAgeSeconds : string := "heartbeat_age_seconds".
Definition AlertSeverityCritical : string := "critical".
Definition AlertSeverityWarning : string := "warning".
Definition AlertSeverityInfo : string := "info".
Definition AlertStatusTriggered : string := "triggered".
Definition AlertStatusAcknowledged : string := "acknowledged".
Definition AlertStatusResolved : string := "resolved".

Definition MetricGPUMemoryPercent : string := "gpu_memory_percent".
Definition MetricGPUPowerLimitPercent : string := "gpu_power_limit_percent".
Definition AcceleratorAnyDevice : string := "*".
Definition AcceleratorDeviceUnavailable : string := "device_unavailable".
Definition MaximumAgentClockSkew : Duration := 2 * Minute.
Definition MaximumAgentReportInterval : Duration := 24 * Hour.

Definition AcceleratorMetricKeys : list string :=
  ["gpu_utilization_percent"; "gpu_memory_used_bytes"; "gpu_memory_total_bytes";
   "gpu_temperature_celsius"; "gpu_power_watts"; "gpu_power_limit_watts"].

(** model.AlertRuleScope *)
Record AlertRuleScope := mkAlertRuleScope {
  sc_DeviceID : string;
  sc_Kind : string;
  sc_NodeIDs : list string;
  sc_GroupIDs : list string }.


(** model.AlertRule *)
Record AlertRule := mkAlertRule {
  ar_ID : string;
  ar_Name : string;
  ar_Description : string;
  ar_Metric : string;
  ar_Operator : string;
  ar_Threshold : float64;
  ar_Duration : Z;
  ar_Severity : string;
  ar_Enabled : bool;
  ar_CreatedAt : Time;
  ar_UpdatedAt : Time }.


(** model.AlertEvaluationRule; the embedded AlertRule is the coercion field. *)
Record AlertEvaluationRule := mkAlertEvaluationRule {
  er_AlertRule :> AlertRule;
  er_Revision : Z;
  er_NumericPolicyLocked : bool;
  er_DeletedAt : option Time;
  er_Scope : AlertRuleScope;
  er_WindowSeconds : Z;
  er_Aggregation : string;
  er_RecoveryThreshold : option float64;
  er_RecoveryDuration : Z;
  er_NoDataPolicy : string;
  er_NoDataDelaySeconds : Z;
  er_ErrorPolicy : string;
  er_ErrorDelaySeconds : Z }.


(** model.AlertEvaluationEvent *)
Record AlertEvaluationEvent := mkAlertEvaluationEvent {
  he_DeviceID : string;
  he_DeviceName : string;
  he_ID : string;
  he_RuleID : string;
  he_NodeID : string;
  he_RuleRevision : Z;
  he_EpochID : string;
  he_Kind : string;
  he_Reason : string;
  he_OccurredAt : Time;
  he_NotifiedAt : option Time;
  he_ClosedAt : option Time;
  he_SourceKey : string }.

Definition set_he_NotifiedAt (v : option Time) (s : AlertEvaluationEvent) : AlertEvaluationEvent :=
  mkAlertEvaluationEvent (he_DeviceID s) (he_DeviceName s) (he_ID s) (he_RuleID s) (he_NodeID s)
    (he_RuleRevision s) (he_EpochID s) (he_Kind s) (he_Reason s) (he_OccurredAt s) v (he_ClosedAt s)
    (he_SourceKey s).
Definition set_he_ClosedAt (v : option Time) (s : AlertEvaluationEvent) : AlertEvaluationEvent :=
  mkAlertEvaluationEvent (he_DeviceID s) (he_DeviceName s) (he_ID s) (he_RuleID s) (he_NodeID s)
    (he_RuleRevision s) (he_EpochID s) (he_Kind s) (he_Reason s) (he_OccurredAt s) (he_NotifiedAt s)
    v (he_SourceKey s).

(** model.AlertEvaluationObservation *)
Record AlertEvaluationObservation := mkAlertEvaluationObservation {
  ob_ObservedAt : Time;
  ob_RunID : string;
  ob_EvidenceID : string;
  ob_SourceAt : Time;
  ob_Cadence : Duration;
  ob_Status : string;
  ob_Reason : string;
  ob_Value : option float64 }.

Definition set_ob_Status (v : string) (s : AlertEvaluationObservation) : AlertEvaluationObservation :=
  mkAlertEvaluationObservation (ob_ObservedAt s) (ob_RunID s) (ob_EvidenceID s) (ob_SourceAt s)
    (ob_Cadence s) v (ob_Reason s) (ob_Value s).
Definition set_ob_Reason (v : string) (s : AlertEvaluationObservation) : AlertEvaluationObservation :=
  mkAlertEvaluationObservation (ob_ObservedAt s) (ob_RunID s) (ob_EvidenceID s) (ob_SourceAt s)
    (ob_Cadence s) (ob_Status s) v (ob_Value s).
Definition set_ob_Value (v : option float64) (s : AlertEvaluationObservation) : AlertEvaluationObservation :=
  mkAlertEvaluationObservation (ob_ObservedAt s) (ob_RunID s) (ob_EvidenceID s) (ob_SourceAt s)
    (ob_Cadence s) (ob_Status s) (ob_Reason s) v.

(** model.AlertEvaluationHealth *)
Record AlertEvaluationHealth := mkAlertEvaluationHealth {
  hl_EpochID : string;
  hl_Status : string;
  hl_StartedAt : option Time;
  hl_StatusSince : option Time;
  hl_LastObservedAt : option Time;
  hl_ElapsedMS : Z;
  hl_SeenMask : Z;
  hl_NotifiedMask : Z;
  hl_Suspended : bool }.

Definition set_hl_Status (v : string) (s : AlertEvaluationHealth) : AlertEvaluationHealth :=
  mkAlertEvaluationHealth (hl_EpochID s) v (hl_StartedAt s) (hl_StatusSince s) (hl_LastObservedAt s)
    (hl_ElapsedMS s) (hl_SeenMask s) (hl_NotifiedMask s) (hl_Suspended s).
Definition set_hl_ElapsedMS (v : Z) (s : AlertEvaluationHealth) : AlertEvaluationHealth :=
  mkAlertEvaluationHealth (hl_EpochID s) (hl_Status s) (hl_StartedAt s) (hl_StatusSince s)
    (hl_LastObservedAt s) v (hl_SeenMask s) (hl_NotifiedMask s) (hl_Suspended s).
Definition set_hl_StatusSince (v : option Time) (s : AlertEvaluationHealth) : AlertEvaluationHealth :=
  mkAlertEvaluationHealth (hl_EpochID s) (hl_Status s) (hl_StartedAt s) v (hl_LastObservedAt s)
    (hl_ElapsedMS s) (hl_SeenMask s) (hl_NotifiedMask s) (hl_Suspended s).
Definition set_hl_LastObservedAt (v : option Time) (s : AlertEvaluationHealth) : AlertEvaluationHealth :=
  mkAlertEvaluationHealth (hl_EpochID s) (hl_Status s) (hl_StartedAt s) (hl_StatusSince s) v
    (hl_ElapsedMS s) (hl_SeenMask s) (hl_NotifiedMask s) (hl_Suspended s).
Definition set_hl_SeenMask (v : Z) (s : AlertEvaluationHealth) : AlertEvaluationHealth :=
  mkAlertEvaluationHealth (hl_EpochID s) (hl_Status s) (hl_StartedAt s) (hl_StatusSince s)
    (hl_LastObservedAt s) (hl_ElapsedMS s) v (hl_NotifiedMask s) (hl_Suspended s).
Definition set_hl_NotifiedMask (v : Z) (s : AlertEvaluationHealth) : AlertEvaluationHealth :=
  mkAlertEvaluationHealth (hl_EpochID s) (hl_Status s) (hl_StartedAt s) (hl_StatusSince s)
    (hl_LastObservedAt s) (hl_ElapsedMS s) (hl_SeenMask s) v (hl_Suspended s).
Definition set_hl_Suspended (v : bool) (s : AlertEvaluationHealth) : AlertEvaluationHealth :=
  mkAlertEvaluationHealth (hl_EpochID s) (hl_Status s) (hl_StartedAt s) (hl_StatusSince s)
    (hl_LastObservedAt s) (hl_ElapsedMS s) (hl_SeenMask s) (hl_NotifiedMask s) v.

(** model.AlertEvaluationState *)
Record AlertEvaluationState := mkAlertEvaluationState {
  st_DeviceID : string;
  st_DeviceName : string;
  st_RuleID : string;
  st_NodeID : string;
  st_RuleRevision : Z;
  st_Version : Z;
  st_Phase : string;
  st_Status : string;
  st_Reason : string;
  st_TriggerElapsedMS : Z;
  st_RecoveryElapsedMS : Z;
  st_PendingSince : option Time;
  st_RecoverySince : option Time;
  st_LastEvaluatedAt : option Time;
  st_LastGoodAt : option Time;
  st_LastEvidenceAt : option Time;
  st_LastEvidenceObservedAt : option Time;
  st_EvidenceID : string;
  st_RunID : string;
  st_ActiveEventID : string;
  st_ActiveEventStatus : string;
  st_Health : AlertEvaluationHealth;
  st_NextDueAt : Time;
  st_UpdatedAt : Time }.

Definition set_st_DeviceID (v : string) (s : AlertEvaluationState) : AlertEvaluationState :=
  mkAlertEvaluationState v (st_DeviceName s) (st_RuleID s) (st_NodeID s) (st_RuleRevision s)
    (st_Version s) (st_Phase s) (st_Status s) (st_Reason s) (st_TriggerElapsedMS s)
    (st_RecoveryElapsedMS s) (st_PendingSince s) (st_RecoverySince s) (st_LastEvaluatedAt s)
    (st_LastGoodAt s) (st_LastEvidenceAt s) (st_LastEvidenceObservedAt s) (st_EvidenceID s)
    (st_RunID s) (st_ActiveEventID s) (st_ActiveEventStatus s) (st_Health s) (st_NextDueAt s)
    (st_UpdatedAt s).
Definition set_st_DeviceName (v : string) (s : AlertEvaluationState) : AlertEvaluationState :=
  mkAlertEvaluationState (st_DeviceID s) v (st_RuleID s) (st_NodeID s) (st_RuleRevision s)
    (st_Version s) (st_Phase s) (st_Status s) (st_Reason s) (st_TriggerElapsedMS s)
    (st_RecoveryElapsedMS s) (st_PendingSince s) (st_RecoverySince s) (st_LastEvaluatedAt s)
    (st_LastGoodAt s) (st_LastEvidenceAt s) (st_LastEvidenceObservedAt s) (st_EvidenceID s)
    (st_RunID s) (st_ActiveEventID s) (st_ActiveEventStatus s) (st_Health s) (st_NextDueAt s)
    (st_UpdatedAt s).
Definition set_st_RuleID (v : string) (s : AlertEvaluationState) : AlertEvaluationState :=
  mkAlertEvaluationState (st_DeviceID s) (st_DeviceName s) v (st_NodeID s) (st_RuleRevision s)
    (st_Version s) (st_Phase s) (st_Status s) (st_Reason s) (st_TriggerElapsedMS s)
    (st_RecoveryElapsedMS s) (st_PendingSince s) (st_RecoverySince s) (st_LastEvaluatedAt s)
    (st_LastGoodAt s) (st_LastEvidenceAt s) (st_LastEvidenceObservedAt s) (st_EvidenceID s)
    (st_RunID s) (st_ActiveEventID s) (st_ActiveEventStatus s) (st_Health s) (st_NextDueAt s)
    (st_UpdatedAt s).
Definition set_st_NodeID (v : string) (s : AlertEvaluationState) : AlertEvaluationState :=
  mkAlertEvaluationState (st_DeviceID s) (st_DeviceName s) (st_RuleID s) v (st_RuleRevision s)
    (st_Version s) (st_Phase s) (st_Status s) (st_Reason s) (st_TriggerElapsedMS s)
    (st_RecoveryElapsedMS s) (st_PendingSince s) (st_RecoverySince s) (st_LastEvaluatedAt s)
    (st_LastGoodAt s) (st_LastEvidenceAt s) (st_LastEvidenceObservedAt s) (st_EvidenceID s)
    (st_RunID s) (st_ActiveEventID s) (st_ActiveEventStatus s) (st_Health s) (st_NextDueAt s)
    (st_UpdatedAt s).
Definition set_st_RuleRevision (v : Z) (s : AlertEvaluationState) : AlertEvaluationState :=
  mkAlertEvaluationState (st_DeviceID s) (st_DeviceName s) (st_RuleID s) (st_NodeID s) v (st_Version
    s) (st_Phase s) (st_Status s) (st_Reason s) (st_TriggerElapsedMS s) (st_RecoveryElapsedMS s)
    (st_PendingSince s) (st_RecoverySince s) (st_LastEvaluatedAt s) (st_LastGoodAt s)
    (st_LastEvidenceAt s) (st_LastEvidenceObservedAt s) (st_EvidenceID s) (st_RunID s)
    (st_ActiveEventID s) (st_ActiveEventStatus s) (st_Health s) (st_NextDueAt s) (st_UpdatedAt s).
Definition set_st_Version (v : Z) (s : AlertEvaluationState) : AlertEvaluationState :=
  mkAlertEvaluationState (st_DeviceID s) (st_DeviceName s) (st_RuleID s) (st_NodeID s)
    (st_RuleRevision s) v (st_Phase s) (st_Status s) (st_Reason s) (st_TriggerElapsedMS s)
    (st_RecoveryElapsedMS s) (st_PendingSince s) (st_RecoverySince s) (st_LastEvaluatedAt s)
    (st_LastGoodAt s) (st_LastEvidenceAt s) (st_LastEvidenceObservedAt s) (st_EvidenceID s)
    (st_RunID s) (st_ActiveEventID s) (st_ActiveEventStatus s) (st_Health s) (st_NextDueAt s)
    (st_UpdatedAt s).
Definition set_st_Phase (v : string) (s : AlertEvaluationState) : AlertEvaluationState :=
  mkAlertEvaluationState (st_DeviceID s) (st_DeviceName s) (st_RuleID s) (st_NodeID s)
    (st_RuleRevision s) (st_Version s) v (st_Status s) (st_Reason s) (st_TriggerElapsedMS s)
    (st_RecoveryElapsedMS s) (st_PendingSince s) (st_RecoverySince s) (st_LastEvaluatedAt s)
    (st_LastGoodAt s) (st_LastEvidenceAt s) (st_LastEvidenceObservedAt s) (st_EvidenceID s)
    (st_RunID s) (st_ActiveEventID s) (st_ActiveEventStatus s) (st_Health s) (st_NextDueAt s)
    (st_UpdatedAt s).
Definition set_st_Status (v : string) (s : AlertEvaluationState) : AlertEvaluationState :=
  mkAlertEvaluationState (st_DeviceID s) (st_DeviceName s) (st_RuleID s) (st_NodeID s)
    (st_RuleRevision s) (st_Version s) (st_Phase s) v (st_Reason s) (st_TriggerElapsedMS s)
    (st_RecoveryElapsedMS s) (st_PendingSince s) (st_RecoverySince s) (st_LastEvaluatedAt s)
    (st_LastGoodAt s) (st_LastEvidenceAt s) (st_LastEvidenceObservedAt s) (st_EvidenceID s)
    (st_RunID s) (st_ActiveEventID s) (st_ActiveEventStatus s) (st_Health s) (st_NextDueAt s)
    (st_UpdatedAt s).
Definition set_st_Reason (v : string) (s : AlertEvaluationState) : AlertEvaluationState :=
  mkAlertEvaluationState (st_DeviceID s) (st_DeviceName s) (st_RuleID s) (st_NodeID s)
    (st_RuleRevision s) (st_Version s) (st_Phase s) (st_Status s) v (st_TriggerElapsedMS s)
    (st_RecoveryElapsedMS s) (st_PendingSince s) (st_RecoverySince s) (st_LastEvaluatedAt s)
    (st_LastGoodAt s) (st_LastEvidenceAt s) (st_LastEvidenceObservedAt s) (st_EvidenceID s)
    (st_RunID s) (st_ActiveEventID s) (st_ActiveEventStatus s) (st_Health s) (st_NextDueAt s)
    (st_UpdatedAt s).
Definition set_st_TriggerElapsedMS (v : Z) (s : AlertEvaluationState) : AlertEvaluationState :=
  mkAlertEvaluationState (st_DeviceID s) (st_DeviceName s) (st_RuleID s) (st_NodeID s)
    (st_RuleRevision s) (st_Version s) (st_Phase s) (st_Status s) (st_Reason s) v
    (st_RecoveryElapsedMS s) (st_PendingSince s) (st_RecoverySince s) (st_LastEvaluatedAt s)
    (st_LastGoodAt s) (st_LastEvidenceAt s) (st_LastEvidenceObservedAt s) (st_EvidenceID s)
    (st_RunID s) (st_ActiveEventID s) (st_ActiveEventStatus s) (st_Health s) (st_NextDueAt s)
    (st_UpdatedAt s).
Definition set_st_RecoveryElapsedMS (v : Z) (s : AlertEvaluationState) : AlertEvaluationState :=
  mkAlertEvaluationState (st_DeviceID s) (st_DeviceName s) (st_RuleID s) (st_NodeID s)
    (st_RuleRevision s) (st_Version s) (st_Phase s) (st_Status s) (st_Reason s) (st_TriggerElapsedMS
    s) v (st_PendingSince s) (st_RecoverySince s) (st_LastEvaluatedAt s) (st_LastGoodAt s)
    (st_LastEvidenceAt s) (st_LastEvidenceObservedAt s) (st_EvidenceID s) (st_RunID s)
    (st_ActiveEventID s) (st_ActiveEventStatus s) (st_Health s) (st_NextDueAt s) (st_UpdatedAt s).
Definition set_st_PendingSince (v : option Time) (s : AlertEvaluationState) : AlertEvaluationState :=
  mkAlertEvaluationState (st_DeviceID s) (st_DeviceName s) (st_RuleID s) (st_NodeID s)
    (st_RuleRevision s) (st_Version s) (st_Phase s) (st_Status s) (st_Reason s) (st_TriggerElapsedMS
    s) (st_RecoveryElapsedMS s) v (st_RecoverySince s) (st_LastEvaluatedAt s) (st_LastGoodAt s)
    (st_LastEvidenceAt s) (st_LastEvidenceObservedAt s) (st_EvidenceID s) (st_RunID s)
    (st_ActiveEventID s) (st_ActiveEventStatus s) (st_Health s) (st_NextDueAt s) (st_UpdatedAt s).
Definition set_st_RecoverySince (v : option Time) (s : AlertEvaluationState) : AlertEvaluationState :=
  mkAlertEvaluationState (st_DeviceID s) (st_DeviceName s) (st_RuleID s) (st_NodeID s)
    (st_RuleRevision s) (st_Version s) (st_Phase s) (st_Status s) (st_Reason s) (st_TriggerElapsedMS
    s) (st_RecoveryElapsedMS s) (st_PendingSince s) v (st_LastEvaluatedAt s) (st_LastGoodAt s)
    (st_LastEvidenceAt s) (st_LastEvidenceObservedAt s) (st_EvidenceID s) (st_RunID s)
    (st_ActiveEventID s) (st_ActiveEventStatus s) (st_Health s) (st_NextDueAt s) (st_UpdatedAt s).
Definition set_st_LastEvaluatedAt (v : option Time) (s : AlertEvaluationState) : AlertEvaluationState :=
  mkAlertEvaluationState (st_DeviceID s) (st_DeviceName s) (st_RuleID s) (st_NodeID s)
    (st_RuleRevision s) (st_Version s) (st_Phase s) (st_Status s) (st_Reason s) (st_TriggerElapsedMS
    s) (st_RecoveryElapsedMS s) (st_PendingSince s) (st_RecoverySince s) v (st_LastGoodAt s)
    (st_LastEvidenceAt s) (st_LastEvidenceObservedAt s) (st_EvidenceID s) (st_RunID s)
    (st_ActiveEventID s) (st_ActiveEventStatus s) (st_Health s) (st_NextDueAt s) (st_UpdatedAt s).
Definition set_st_LastGoodAt (v : option Time) (s : AlertEvaluationState) : AlertEvaluationState :=
  mkAlertEvaluationState (st_DeviceID s) (st_DeviceName s) (st_RuleID s) (st_NodeID s)
    (st_RuleRevision s) (st_Version s) (st_Phase s) (st_Status s) (st_Reason s) (st_TriggerElapsedMS
    s) (st_RecoveryElapsedMS s) (st_PendingSince s) (st_RecoverySince s) (st_LastEvaluatedAt s) v
    (st_LastEvidenceAt s) (st_LastEvidenceObservedAt s) (st_EvidenceID s) (st_RunID s)
    (st_ActiveEventID s) (st_ActiveEventStatus s) (st_Health s) (st_NextDueAt s) (st_UpdatedAt s).
Definition set_st_LastEvidenceAt (v : option Time) (s : AlertEvaluationState) : AlertEvaluationState :=
  mkAlertEvaluationState (st_DeviceID s) (st_DeviceName s) (st_RuleID s) (st_NodeID s)
    (st_RuleRevision s) (st_Version s) (st_Phase s) (st_Status s) (st_Reason s) (st_TriggerElapsedMS
    s) (st_RecoveryElapsedMS s) (st_PendingSince s) (st_RecoverySince s) (st_LastEvaluatedAt s)
    (st_LastGoodAt s) v (st_LastEvidenceObservedAt s) (st_EvidenceID s) (st_RunID s)
    (st_ActiveEventID s) (st_ActiveEventStatus s) (st_Health s) (st_NextDueAt s) (st_UpdatedAt s).
Definition set_st_LastEvidenceObservedAt (v : option Time) (s : AlertEvaluationState) : AlertEvaluationState :=
  mkAlertEvaluationState (st_DeviceID s) (st_DeviceName s) (st_RuleID s) (st_NodeID s)
    (st_RuleRevision s) (st_Version s) (st_Phase s) (st_Status s) (st_Reason s) (st_TriggerElapsedMS
    s) (st_RecoveryElapsedMS s) (st_PendingSince s) (st_RecoverySince s) (st_LastEvaluatedAt s)
    (st_LastGoodAt s) (st_LastEvidenceAt s) v (st_EvidenceID s) (st_RunID s) (st_ActiveEventID s)
    (st_ActiveEventStatus s) (st_Health s) (st_NextDueAt s) (st_UpdatedAt s).
Definition set_st_EvidenceID (v : string) (s : AlertEvaluationState) : AlertEvaluationState :=
  mkAlertEvaluationState (st_DeviceID s) (st_DeviceName s) (st_RuleID s) (st_NodeID s)
    (st_RuleRevision s) (st_Version s) (st_Phase s) (st_Status s) (st_Reason s) (st_TriggerElapsedMS
    s) (st_RecoveryElapsedMS s) (st_PendingSince s) (st_RecoverySince s) (st_LastEvaluatedAt s)
    (st_LastGoodAt s) (st_LastEvidenceAt s) (st_LastEvidenceObservedAt s) v (st_RunID s)
    (st_ActiveEventID s) (st_ActiveEventStatus s) (st_Health s) (st_NextDueAt s) (st_UpdatedAt s).
Definition set_st_RunID (v : string) (s : AlertEvaluationState) : AlertEvaluationState :=
  mkAlertEvaluationState (st_DeviceID s) (st_DeviceName s) (st_RuleID s) (st_NodeID s)
    (st_RuleRevision s) (st_Version s) (st_Phase s) (st_Status s) (st_Reason s) (st_TriggerElapsedMS
    s) (st_RecoveryElapsedMS s) (st_PendingSince s) (st_RecoverySince s) (st_LastEvaluatedAt s)
    (st_LastGoodAt s) (st_LastEvidenceAt s) (st_LastEvidenceObservedAt s) (st_EvidenceID s) v
    (st_ActiveEventID s) (st_ActiveEventStatus s) (st_Health s) (st_NextDueAt s) (st_UpdatedAt s).
Definition set_st_ActiveEventID (v : string) (s : AlertEvaluationState) : AlertEvaluationState :=
  mkAlertEvaluationState (st_DeviceID s) (st_DeviceName s) (st_RuleID s) (st_NodeID s)
    (st_RuleRevision s) (st_Version s) (st_Phase s) (st_Status s) (st_Reason s) (st_TriggerElapsedMS
    s) (st_RecoveryElapsedMS s) (st_PendingSince s) (st_RecoverySince s) (st_LastEvaluatedAt s)
    (st_LastGoodAt s) (st_LastEvidenceAt s) (st_LastEvidenceObservedAt s) (st_EvidenceID s)
    (st_RunID s) v (st_ActiveEventStatus s) (st_Health s) (st_NextDueAt s) (st_UpdatedAt s).
Definition set_st_ActiveEventStatus (v : string) (s : AlertEvaluationState) : AlertEvaluationState :=
  mkAlertEvaluationState (st_DeviceID s) (st_DeviceName s) (st_RuleID s) (st_NodeID s)
    (st_RuleRevision s) (st_Version s) (st_Phase s) (st_Status s) (st_Reason s) (st_TriggerElapsedMS
    s) (st_RecoveryElapsedMS s) (st_PendingSince s) (st_RecoverySince s) (st_LastEvaluatedAt s)
    (st_LastGoodAt s) (st_LastEvidenceAt s) (st_LastEvidenceObservedAt s) (st_EvidenceID s)
    (st_RunID s) (st_ActiveEventID s) v (st_Health s) (st_NextDueAt s) (st_UpdatedAt s).
Definition set_st_Health (v : AlertEvaluationHealth) (s : AlertEvaluationState) : AlertEvaluationState :=
  mkAlertEvaluationState (st_DeviceID s) (st_DeviceName s) (st_RuleID s) (st_NodeID s)
    (st_RuleRevision s) (st_Version s) (st_Phase s) (st_Status s) (st_Reason s) (st_TriggerElapsedMS
    s) (st_RecoveryElapsedMS s) (st_PendingSince s) (st_RecoverySince s) (st_LastEvaluatedAt s)
    (st_LastGoodAt s) (st_LastEvidenceAt s) (st_LastEvidenceObservedAt s) (st_EvidenceID s)
    (st_RunID s) (st_ActiveEventID s) (st_ActiveEventStatus s) v (st_NextDueAt s) (st_UpdatedAt s).
Definition set_st_NextDueAt (v : Time) (s : AlertEvaluationState) : AlertEvaluationState :=
  mkAlertEvaluationState (st_DeviceID s) (st_DeviceName s) (st_RuleID s) (st_NodeID s)
    (st_RuleRevision s) (st_Version s) (st_Phase s) (st_Status s) (st_Reason s) (st_TriggerElapsedMS
    s) (st_RecoveryElapsedMS s) (st_PendingSince s) (st_RecoverySince s) (st_LastEvaluatedAt s)
    (st_LastGoodAt s) (st_LastEvidenceAt s) (st_LastEvidenceObservedAt s) (st_EvidenceID s)
    (st_RunID s) (st_ActiveEventID s) (st_ActiveEventStatus s) (st_Health s) v (st_UpdatedAt s).
Definition set_st_UpdatedAt (v : Time) (s : AlertEvaluationState) : AlertEvaluationState :=
  mkAlertEvaluationState (st_DeviceID s) (st_DeviceName s) (st_RuleID s) (st_NodeID s)
    (st_RuleRevision s) (st_Version s) (st_Phase s) (st_Status s) (st_Reason s) (st_TriggerElapsedMS
    s) (st_RecoveryElapsedMS s) (st_PendingSince s) (st_RecoverySince s) (st_LastEvaluatedAt s)
    (st_LastGoodAt s) (st_LastEvidenceAt s) (st_LastEvidenceObservedAt s) (st_EvidenceID s)
    (st_RunID s) (st_ActiveEventID s) (st_ActiveEventStatus s) (st_Health s) (st_NextDueAt s) v.

(** model.AlertEvent *)
Record AlertEvent := mkAlertEvent {
  ev_DeviceID : string;
  ev_DeviceName : string;
  ev_ResolutionReason : string;
  ev_ID : string;
  ev_RuleID : string;
  ev_NodeID : string;
  ev_Message : string;
  ev_Value : float64;
  ev_Status : string;
  ev_TriggeredAt : Time;
  ev_AcknowledgedAt : option Time;
  ev_ResolvedAt : option Time;
  ev_RuleName : string;
  ev_NodeName : string;
  ev_Metric : string;
  ev_Severity : string;
  ev_RuleNameSnapshot : string;
  ev_NodeNameSnapshot : string }.

Definition set_ev_DeviceName (v : string) (s : AlertEvent) : AlertEvent :=
  mkAlertEvent (ev_DeviceID s) v (ev_ResolutionReason s) (ev_ID s) (ev_RuleID s) (ev_NodeID s)
    (ev_Message s) (ev_Value s) (ev_Status s) (ev_TriggeredAt s) (ev_AcknowledgedAt s)
    (ev_ResolvedAt s) (ev_RuleName s) (ev_NodeName s) (ev_Metric s) (ev_Severity s)
    (ev_RuleNameSnapshot s) (ev_NodeNameSnapshot s).
Definition set_ev_Message (v : string) (s : AlertEvent) : AlertEvent :=
  mkAlertEvent (ev_DeviceID s) (ev_DeviceName s) (ev_ResolutionReason s) (ev_ID s) (ev_RuleID s)
    (ev_NodeID s) v (ev_Value s) (ev_Status s) (ev_TriggeredAt s) (ev_AcknowledgedAt s)
    (ev_ResolvedAt s) (ev_RuleName s) (ev_NodeName s) (ev_Metric s) (ev_Severity s)
    (ev_RuleNameSnapshot s) (ev_NodeNameSnapshot s).
Definition set_ev_Status (v : string) (s : AlertEvent) : AlertEvent :=
  mkAlertEvent (ev_DeviceID s) (ev_DeviceName s) (ev_ResolutionReason s) (ev_ID s) (ev_RuleID s)
    (ev_NodeID s) (ev_Message s) (ev_Value s) v (ev_TriggeredAt s) (ev_AcknowledgedAt s)
    (ev_ResolvedAt s) (ev_RuleName s) (ev_NodeName s) (ev_Metric s) (ev_Severity s)
    (ev_RuleNameSnapshot s) (ev_NodeNameSnapshot s).
Definition set_ev_ResolvedAt (v : option Time) (s : AlertEvent) : AlertEvent :=
  mkAlertEvent (ev_DeviceID s) (ev_DeviceName s) (ev_ResolutionReason s) (ev_ID s) (ev_RuleID s)
    (ev_NodeID s) (ev_Message s) (ev_Value s) (ev_Status s) (ev_TriggeredAt s) (ev_AcknowledgedAt s)
    v (ev_RuleName s) (ev_NodeName s) (ev_Metric s) (ev_Severity s) (ev_RuleNameSnapshot s)
    (ev_NodeNameSnapshot s).
Definition set_ev_ResolutionReason (v : string) (s : AlertEvent) : AlertEvent :=
  mkAlertEvent (ev_DeviceID s) (ev_DeviceName s) v (ev_ID s) (ev_RuleID s) (ev_NodeID s) (ev_Message
    s) (ev_Value s) (ev_Status s) (ev_TriggeredAt s) (ev_AcknowledgedAt s) (ev_ResolvedAt s)
    (ev_RuleName s) (ev_NodeName s) (ev_Metric s) (ev_Severity s) (ev_RuleNameSnapshot s)
    (ev_NodeNameSnapshot s).
Definition set_ev_RuleName (v : string) (s : AlertEvent) : AlertEvent :=
  mkAlertEvent (ev_DeviceID s) (ev_DeviceName s) (ev_ResolutionReason s) (ev_ID s) (ev_RuleID s)
    (ev_NodeID s) (ev_Message s) (ev_Value s) (ev_Status s) (ev_TriggeredAt s) (ev_AcknowledgedAt s)
    (ev_ResolvedAt s) v (ev_NodeName s) (ev_Metric s) (ev_Severity s) (ev_RuleNameSnapshot s)
    (ev_NodeNameSnapshot s).
Definition set_ev_NodeName (v : string) (s : AlertEvent) : AlertEvent :=
  mkAlertEvent (ev_DeviceID s) (ev_DeviceName s) (ev_ResolutionReason s) (ev_ID s) (ev_RuleID s)
    (ev_NodeID s) (ev_Message s) (ev_Value s) (ev_Status s) (ev_TriggeredAt s) (ev_AcknowledgedAt s)
    (ev_ResolvedAt s) (ev_RuleName s) v (ev_Metric s) (ev_Severity s) (ev_RuleNameSnapshot s)
    (ev_NodeNameSnapshot s).
Definition set_ev_Metric (v : string) (s : AlertEvent) : AlertEvent :=
  mkAlertEvent (ev_DeviceID s) (ev_DeviceName s) (ev_ResolutionReason s) (ev_ID s) (ev_RuleID s)
    (ev_NodeID s) (ev_Message s) (ev_Value s) (ev_Status s) (ev_TriggeredAt s) (ev_AcknowledgedAt s)
    (ev_ResolvedAt s) (ev_RuleName s) (ev_NodeName s) v (ev_Severity s) (ev_RuleNameSnapshot s)
    (ev_NodeNameSnapshot s).
Definition set_ev_Severity (v : string) (s : AlertEvent) : AlertEvent :=
  mkAlertEvent (ev_DeviceID s) (ev_DeviceName s) (ev_ResolutionReason s) (ev_ID s) (ev_RuleID s)
    (ev_NodeID s) (ev_Message s) (ev_Value s) (ev_Status s) (ev_TriggeredAt s) (ev_AcknowledgedAt s)
    (ev_ResolvedAt s) (ev_RuleName s) (ev_NodeName s) (ev_Metric s) v (ev_RuleNameSnapshot s)
    (ev_NodeNameSnapshot s).

(** The fields of model.Node that identify a node. *)
Record Node := mkNode {
  nd_ID : string;
  nd_Name : string;
  nd_Alias : string;
  nd_GroupID : string }.


(** model.MetricDefinition *)
Record MetricDefinition := mkMetricDefinition {
  md_Key : string;
  md_Label : string;
  md_Description : string;
  md_Source : string;
  md_Kind : string;
  md_Unit : string;
  md_Aggregations : list string;
  md_DefaultAggregation : string;
  md_Public : bool;
  md_Enabled : bool;
  md_RetentionDays : Z;
  md_Revision : Z;
  md_Minimum : option float64;
  md_Maximum : option float64;
  md_Tags : list string;
  md_RetentionOverride : option Z;
  md_CreatedAt : Time;
  md_UpdatedAt : Time }.


(** model.IsAcceleratorAlertMetric *)
Definition IsAcceleratorAlertMetric (k : string) : bool :=
  str_in k AcceleratorMetricKeys || (k =s MetricGPUMemoryPercent) || (k =s MetricGPUPowerLimitPercent).

(** model.AcceleratorAlertInputs *)
Definition AcceleratorAlertInputs (k : string) : list string :=
  if k =s MetricGPUMemoryPercent then ["gpu_memory_used_bytes"; "gpu_memory_total_bytes"]
  else if k =s MetricGPUPowerLimitPercent then ["gpu_power_watts"; "gpu_power_limit_watts"]
  else [k].

(** model.AcceleratorAlertDefinition *)
Definition AcceleratorAlertDefinition (k : string) : option MetricDefinition :=
  if (k <>s MetricGPUMemoryPercent) && (k <>s MetricGPUPowerLimitPercent) then None
  else
    let memory := k =s MetricGPUMemoryPercent in
    Some (mkMetricDefinition k (if memory then "GPU memory usage" else "GPU power limit usage")
      "" "derived" "gauge" "percent" ["last"; "avg"; "min"; "max"] "last" false true 0 0
      (Some (f_of_Z 0)) (if memory then Some (f_of_Z 100) else None) [] None 0 0).

(** model.ValidAcceleratorDeviceID: 16 bytes in lower-case hexadecimal. *)
Definition ValidAcceleratorDeviceID (value : string) : bool :=
  match DecodeHex value with
  | Some raw => (length raw =? 16)%nat && (EncodeHex raw =s value)
  | None => false
  end.

(** The zero values the code starts from. *)
Definition zero_health : AlertEvaluationHealth :=
  mkAlertEvaluationHealth "" "" None None None 0 0 0 false.
Definition zero_state : AlertEvaluationState :=
  mkAlertEvaluationState "" "" "" "" 0 0 "" "" "" 0 0 None None None None None None "" "" "" ""
    zero_health 0 0.
