(* ===== verification/AlertPolicy.v ===== *)
(** * Alert rules: validation and comparison

    internal/alerteval: budgets.go, policy.go and comparison.go. A rule names a
    metric, an operator and a threshold, an optional recovery threshold and the
    confirmation delays; [ValidateRule] is what the API and the evaluator accept,
    [Triggered] and [Recovered] decide a value against it. *)

From S2P Require Import Prelude GoFloat GoText AlertModel.

(** ** budgets.go *)

Definition MaximumScopeNodes : Z := 1000.
Definition MaximumScopeGroups : Z := 128.
Definition MaximumWindowSeconds : Z := 86400.
Definition MinimumWindowSeconds : Z := 10.
Definition MaximumDelaySeconds : Z := 86400.
Definition DefaultNoDataDelaySeconds : Z := 300.
Definition DefaultErrorDelaySeconds : Z := 60.
Definition EvaluationInterval : Duration := 30 * Second.
Definition MaximumPollGap : Duration := 2 * EvaluationInterval.
Definition BatchSize : Z := 256.
Definition MaximumWindowSamples : Z := 100000.

Inductive EvalError :=
| ErrInvalidPolicy
| ErrInvalidObservation
| ErrCapacity
| ErrConflict
| ErrUnavailable
| ErrIncompleteWindow
| NilDereference. (** a runtime panic; the evaluator is shown never to reach it *)

(** ** comparison.go *)

Definition CanonicalOperator (operator : string) : string :=
  if str_in operator ["gt"; ">"] then "gt"
  else if str_in operator ["gte"; ">="] then "gte"
  else if str_in operator ["lt"; "<"] then "lt"
  else if str_in operator ["lte"; "<="] then "lte"
  else if str_in operator ["eq"; "=="; "="] then "eq"
  else if str_in operator ["ne"; "!="] then "ne"
  else "".

Definition Triggered (value : float64) (rule : AlertEvaluationRule) : bool :=
  let op := CanonicalOperator (ar_Operator rule) in
  let threshold := ar_Threshold rule in
  if op =s "gt" then (value > threshold)%f64
  else if op =s "gte" then (value >= threshold)%f64
  else if op =s "lt" then (value < threshold)%f64
  else if op =s "lte" then (value <= threshold)%f64
  else if op =s "eq" then (value == threshold)%f64
  else if op =s "ne" then (value != threshold)%f64
  else false.

Definition Recovered (value : float64) (rule : AlertEvaluationRule) : bool :=
  let op := CanonicalOperator (ar_Operator rule) in
  let threshold := match er_RecoveryThreshold rule with Some r => r | None => ar_Threshold rule end in
  if op =s "gt" then (value <= threshold)%f64
  else if op =s "gte" then (value < threshold)%f64
  else if op =s "lt" then (value >= threshold)%f64
  else if op =s "lte" then (value > threshold)%f64
  else if op =s "eq" then (value != ar_Threshold rule)%f64
  else if op =s "ne" then (value == ar_Threshold rule)%f64
  else false.

(** ** policy.go *)

Definition validText (value : string) (limit : Z) : bool :=
  (len value <=? limit) && ValidString value && negb (ContainsControl value).

Definition DefaultRule : AlertEvaluationRule :=
  mkAlertEvaluationRule
    (mkAlertRule "" "" "" "" "gt" (S754_zero false) 0 AlertSeverityWarning true 0 0)
    1 false None (mkAlertRuleScope "" "all" [] []) 0 "last" None 0
    EvaluationKeep DefaultNoDataDelaySeconds EvaluationKeep DefaultErrorDelaySeconds.

(** The [seen] map of the loop is the list of the identifiers before this one. *)
Fixpoint validTargets_loop (seen ids : list string) : bool :=
  match ids with
  | [] => true
  | id :: rest =>
      if (id =s "") || negb (validText id 128) || str_in id seen then false
      else validTargets_loop (id :: seen) rest
  end.

Definition validTargets (ids : list string) (maximum : Z) : bool :=
  if (Z.of_nat (length ids) =? 0) || (maximum <? Z.of_nat (length ids)) then false
  else validTargets_loop [] ids.

Definition validScope (scope : AlertRuleScope) : bool :=
  if sc_Kind scope =s "all" then
    (length (sc_NodeIDs scope) =? 0)%nat && (length (sc_GroupIDs scope) =? 0)%nat
  else if sc_Kind scope =s "nodes" then
    (length (sc_GroupIDs scope) =? 0)%nat && validTargets (sc_NodeIDs scope) MaximumScopeNodes
  else if sc_Kind scope =s "groups" then
    (length (sc_NodeIDs scope) =? 0)%nat && validTargets (sc_GroupIDs scope) MaximumScopeGroups
  else false.

Definition validComparison (rule : AlertEvaluationRule) : bool :=
  let op := CanonicalOperator (ar_Operator rule) in
  if (op =s "") || negb (is_finite (ar_Threshold rule)) then false
  else match er_RecoveryThreshold rule with
  | None => true
  | Some recovery =>
      if negb (is_finite recovery) then false
      else if (op =s "gt") || (op =s "gte") then (recovery <= ar_Threshold rule)%f64
      else if (op =s "lt") || (op =s "lte") then (recovery >= ar_Threshold rule)%f64
      else (recovery == ar_Threshold rule)%f64
  end.

Definition validDelays (rule : AlertEvaluationRule) : bool :=
  let window := er_WindowSeconds rule in
  if negb (window =? 0) && ((window <? MinimumWindowSeconds) || (MaximumWindowSeconds <? window))
  then false
  else
    forallb (fun delay => negb ((delay <? 0) || (MaximumDelaySeconds <? delay)))
      [ar_Duration rule; er_RecoveryDuration rule; er_NoDataDelaySeconds rule; er_ErrorDelaySeconds rule]
    && forallb (fun policy => negb ((policy <>s EvaluationKeep) && (policy <>s EvaluationNotify)))
      [er_NoDataPolicy rule; er_ErrorPolicy rule].

Definition numericThresholds (rule : AlertEvaluationRule) : list float64 :=
  ar_Threshold rule :: match er_RecoveryThreshold rule with Some r => [r] | None => [] end.

Definition validateAcceleratorScope (rule : AlertEvaluationRule) : result EvalError unit :=
  let scope := er_Scope rule in
  if negb (IsAcceleratorAlertMetric (ar_Metric rule)) then
    if sc_DeviceID scope <>s "" then Err ErrInvalidPolicy else Ok tt
  else if (sc_Kind scope <>s "nodes") || negb (length (sc_NodeIDs scope) =? 1)%nat
       || ((sc_DeviceID scope <>s AcceleratorAnyDevice)
           && negb (ValidAcceleratorDeviceID (sc_DeviceID scope)))
  then Err ErrInvalidPolicy
  else Ok tt.

(** [threshold] lies outside the definition's declared range. *)
Definition outside (definition : MetricDefinition) (threshold : float64) : bool :=
  match md_Minimum definition with Some m => (threshold < m)%f64 | None => false end
  || match md_Maximum definition with Some m => (threshold > m)%f64 | None => false end.

Definition ValidateRule (rule : AlertEvaluationRule) (definition : option MetricDefinition)
  : result EvalError unit :=
  let* _ := validateAcceleratorScope rule in
  let definition :=
    match definition with Some d => Some d | None => AcceleratorAlertDefinition (ar_Metric rule) end in
  if negb (validText (ar_Name rule) 128) || (TrimSpace (ar_Name rule) =s "")
     || negb (validText (ar_Description rule) 2048) then Err ErrInvalidPolicy
  else if negb (validScope (er_Scope rule)) || negb (validComparison rule) || negb (validDelays rule)
  then Err ErrInvalidPolicy
  else if negb (str_in (ar_Severity rule) [AlertSeverityCritical; AlertSeverityWarning; AlertSeverityInfo])
  then Err ErrInvalidPolicy
  else if (ar_Metric rule =s MetricHeartbeatAgeSeconds) || (ar_Metric rule =s MetricTrafficUsagePercent) then
    if negb (er_WindowSeconds rule =? 0) || (er_Aggregation rule <>s "last")
       || (ar_Threshold rule < S754_zero false)%f64 then Err ErrInvalidPolicy
    else Ok tt
  else match definition with
  | None => Err ErrInvalidPolicy
  | Some d =>
      if (md_Key d <>s ar_Metric rule) || negb (md_Enabled d)
         || negb (str_in (er_Aggregation rule) (md_Aggregations d)) then Err ErrInvalidPolicy
      else if (er_WindowSeconds rule =? 0) && (er_Aggregation rule <>s "last") then Err ErrInvalidPolicy
      else if existsb (outside d) (numericThresholds rule) then Err ErrInvalidPolicy
      else Ok tt
  end.

(** ** Lemmas *)

Lemma validDelays_spec rule : validDelays rule = true ->
  (er_WindowSeconds rule = 0 \/ MinimumWindowSeconds <= er_WindowSeconds rule <= MaximumWindowSeconds) /\
  0 <= ar_Duration rule <= MaximumDelaySeconds /\
  0 <= er_RecoveryDuration rule <= MaximumDelaySeconds /\
  0 <= er_NoDataDelaySeconds rule <= MaximumDelaySeconds /\
  0 <= er_ErrorDelaySeconds rule <= MaximumDelaySeconds /\
  (er_NoDataPolicy rule = EvaluationKeep \/ er_NoDataPolicy rule = EvaluationNotify) /\
  (er_ErrorPolicy rule = EvaluationKeep \/ er_ErrorPolicy rule = EvaluationNotify).
Proof.
  unfold validDelays. destruct (negb _ && _) eqn:W; [done|]. simpl. intros H. go_bool.
  split; [lia|]. destruct H as [(?&?&?&?&_) (H1&H2&_)].
  split_and!; try lia; tauto.
Qed.

Lemma validTargets_loop_spec seen ids : validTargets_loop seen ids = true ->
  NoDup ids /\ (forall id, id ∈ ids -> id ∉ seen) /\
  Forall (fun id => id <> "" /\ validText id 128 = true) ids.
Proof.
  revert seen. induction ids as [|id ids IH]; intros seen H; simpl in H.
  - split_and!; [constructor|by intros ? ?%elem_of_nil|constructor].
  - destruct (_ || _) eqn:E; [done|]. go_bool. destruct E as [[E1 E2] E3].
    destruct (IH _ H) as (Hn & Hs & Hf).
    assert (id ∉ seen) by (rewrite <- str_in_spec; congruence).
    split_and!.
    + constructor; [|done]. intros Hin. apply (Hs id Hin). left.
    + intros x [->|Hx]%elem_of_cons; [done|]. intros Hin. apply (Hs x Hx). by right.
    + by constructor.
Qed.

Lemma validTargets_spec ids maximum : validTargets ids maximum = true ->
  ids <> [] /\ Z.of_nat (length ids) <= maximum /\ NoDup ids /\
  Forall (fun id => id <> "" /\ validText id 128 = true) ids.
Proof.
  unfold validTargets. destruct (_ || _) eqn:E; [done|]. go_bool. intros H.
  destruct (validTargets_loop_spec [] ids H) as (? & _ & ?). split_and!; try done; [|lia].
  intros ->. by destruct E.
Qed.

(** [by_operator H]: one goal per operator, with the string tests evaluated. *)
Ltac by_operator op :=
  destruct (str_in op ["gt"; ">"]); [|destruct (str_in op ["gte"; ">="]);
  [|destruct (str_in op ["lt"; "<"]); [|destruct (str_in op ["lte"; "<="]);
  [|destruct (str_in op ["eq"; "=="; "="]); [|destruct (str_in op ["ne"; "!="])]]]]]; simpl in *.

(** [float_order]: comparisons of floats that are not NaN, as facts on keys. *)
Ltac float_order :=
  repeat match goal with
  | H : negb _ = true |- _ => apply negb_true_iff in H
  | H : negb _ = false |- _ => apply negb_false_iff in H
  | H : is_finite _ = true |- _ => apply is_finite_not_nan in H
  | H : SFltb _ _ = true |- _ => apply SFltb_key in H; [|done..]
  | H : SFleb _ _ = true |- _ => apply SFleb_key in H; [|done..]
  | H : SFeqb _ _ = true |- _ => apply SFeqb_key in H; [|done..]
  | H : SFltb _ _ = false |- _ => apply not_true_iff_false in H; rewrite SFltb_key in H by done
  | H : SFleb _ _ = false |- _ => apply not_true_iff_false in H; rewrite SFleb_key in H by done
  | H : SFeqb _ _ = false |- _ => apply not_true_iff_false in H; rewrite SFeqb_key in H by done
  end; unfold lex_lt in *.

Lemma trigger_recover_exclusive rule v : validComparison rule = true -> IsNaN v = false ->
  ~ (Triggered v rule = true /\ Recovered v rule = true).
Proof.
  unfold validComparison, Triggered, Recovered, CanonicalOperator. intros H Hv [HT HR].
  by_operator (ar_Operator rule); try done;
    destruct (negb (is_finite (ar_Threshold rule))) eqn:Ft; try done;
    destruct (er_RecoveryThreshold rule) as [r|];
    try (destruct (negb (is_finite r)) eqn:Fr; [done|]); float_order; lia || congruence.
Qed.

Lemma recovered_negb_triggered rule v : validComparison rule = true ->
  er_RecoveryThreshold rule = None -> IsNaN v = false -> Recovered v rule = negb (Triggered v rule).
Proof.
  unfold validComparison, Triggered, Recovered, CanonicalOperator. intros H Hr Hv. rewrite Hr in *.
  by_operator (ar_Operator rule); try done;
    destruct (negb (is_finite (ar_Threshold rule))) eqn:Ft; try done;
    apply negb_false_iff, is_finite_not_nan in Ft;
    rewrite ?SFltb_not_leb, ?negb_involutive by done; done.
Qed.

Lemma ValidateRule_inv rule definition : ValidateRule rule definition = Ok tt ->
  validScope (er_Scope rule) = true /\ validComparison rule = true /\ validDelays rule = true.
Proof.
  unfold ValidateRule. intros (_ & _ & H)%bind_ok.
  destruct (_ || _ || _); [done|].
  destruct (negb (validScope _) || _ || _) eqn:E; [done|]. go_bool. tauto.
Qed.

(** A threshold the validation let through is inside the metric's range. *)
Lemma ValidateRule_thresholds rule d t : ValidateRule rule (Some d) = Ok tt ->
  ar_Metric rule <> MetricHeartbeatAgeSeconds -> ar_Metric rule <> MetricTrafficUsagePercent ->
  t ∈ numericThresholds rule -> outside d t = false.
Proof.
  unfold ValidateRule. intros (_ & _ & H)%bind_ok Hh Ht Hin.
  apply String.eqb_neq in Hh, Ht. rewrite Hh, Ht in H. cbn beta iota zeta delta [orb] in H.
  repeat (match type of H with (if ?b then _ else _) = _ => destruct b eqn:? end; [done|]).
  destruct (outside d t) eqn:Ho; [|done]. exfalso.
  match goal with E : existsb _ _ = false |- _ => apply not_true_iff_false in E; apply E end.
  apply existsb_exists. exists t. by rewrite <- list_elem_of_In.
Qed.

(** ** Properties *)

Definition example_definition : MetricDefinition :=
  mkMetricDefinition "cpu_percent" "CPU" "" "agent" "gauge" "percent" ["last"; "avg"; "max"] "last"
    true true 30 1 (Some (f_of_Z 0)) (Some (f_of_Z 100)) [] None 0 0.
Definition example_rule : AlertEvaluationRule :=
  mkAlertEvaluationRule
    (mkAlertRule "rule-1" "High CPU" "" "cpu_percent" ">=" (f_of_Z 90) 60 AlertSeverityCritical true 0 0)
    3 false None (mkAlertRuleScope "" "nodes" ["n1"; "n2"] []) 0 "last" (Some (f_of_Z 80)) 120
    EvaluationNotify 300 EvaluationKeep 60.

(** Hysteresis: for a rule that passes validation, no finite value both
    triggers and recovers it, for any of the six operators; and without a
    separate recovery threshold every finite value does exactly one of the two. *)
Theorem validated_rule_hysteresis rule definition v :
  ValidateRule rule definition = Ok tt -> is_finite v = true ->
  ~ (Triggered v rule = true /\ Recovered v rule = true) /\
  (er_RecoveryThreshold rule = None -> Recovered v rule = negb (Triggered v rule)).
Proof.
  intros (_ & Hc & _)%ValidateRule_inv Hv%is_finite_not_nan.
  eauto using trigger_recover_exclusive, recovered_negb_triggered.
Qed.

Lemma validated_rule_hysteresis_witness :
  ValidateRule example_rule (Some example_definition) = Ok tt /\
  ~ (Triggered (f_of_Z 85) example_rule = true /\ Recovered (f_of_Z 85) example_rule = true).
Proof.
  assert (ValidateRule example_rule (Some example_definition) = Ok tt) as H by (vm_compute; reflexivity).
  split; [exact H|].
  apply (validated_rule_hysteresis example_rule (Some example_definition) (f_of_Z 85) H); reflexivity.
Defined.

(** What validation guarantees to the evaluator: every delay is between 0
    and a day, a window is absent or between 10 seconds and a day, an explicit
    scope is a nonempty duplicate-free list within its cap, and every threshold
    lies inside the metric's declared range. *)
Theorem validated_rule_bounds rule d :
  ValidateRule rule (Some d) = Ok tt ->
  ar_Metric rule <> MetricHeartbeatAgeSeconds -> ar_Metric rule <> MetricTrafficUsagePercent ->
  Forall (fun delay => 0 <= delay <= 86400)
    [ar_Duration rule; er_RecoveryDuration rule; er_NoDataDelaySeconds rule; er_ErrorDelaySeconds rule] /\
  (er_WindowSeconds rule = 0 \/ 10 <= er_WindowSeconds rule <= 86400) /\
  (sc_Kind (er_Scope rule) = "nodes" ->
     sc_NodeIDs (er_Scope rule) <> [] /\ NoDup (sc_NodeIDs (er_Scope rule)) /\
     (length (sc_NodeIDs (er_Scope rule)) <= 1000)%nat) /\
  (sc_Kind (er_Scope rule) = "groups" ->
     sc_GroupIDs (er_Scope rule) <> [] /\ NoDup (sc_GroupIDs (er_Scope rule)) /\
     (length (sc_GroupIDs (er_Scope rule)) <= 128)%nat) /\
  Forall (fun t => outside d t = false) (numericThresholds rule).
Proof.
  intros H Hh Ht. pose proof H as (Hs & _ & Hd)%ValidateRule_inv.
  pose proof (validDelays_spec rule Hd) as (Hw & H1 & H2 & H3 & H4 & _).
  unfold MaximumDelaySeconds, MinimumWindowSeconds, MaximumWindowSeconds in *.
  unfold validScope in Hs.
  split_and!; [by repeat constructor; lia|lia|..].
  - intros E. rewrite E in Hs. simpl in Hs. apply andb_true_iff in Hs as [_ Hs].
    apply validTargets_spec in Hs as (? & ? & ? & _). unfold MaximumScopeNodes in *. split_and!; [done..|lia].
  - intros E. rewrite E in Hs. simpl in Hs. apply andb_true_iff in Hs as [_ Hs].
    apply validTargets_spec in Hs as (? & ? & ? & _). unfold MaximumScopeGroups in *. split_and!; [done..|lia].
  - apply Forall_forall. intros t Hin. by eapply ValidateRule_thresholds.
Qed.

Lemma validated_rule_bounds_witness :
  ValidateRule example_rule (Some example_definition) = Ok tt /\
  Forall (fun t => outside example_definition t = false) (numericThresholds example_rule).
Proof.
  assert (ValidateRule example_rule (Some example_definition) = Ok tt) as H by (vm_compute; reflexivity).
  split; [exact H|].
  apply (validated_rule_bounds example_rule example_definition H); vm_compute; discriminate.
Defined.
