(* ===== verification/AlertWindow.v ===== *)
(** * Evidence windows

    internal/alerteval: window.go and window_aggregate.go. An alert over a
    window aggregates the samples of one metric between [From] and [To], and
    only when the samples prove that the window was covered: a sample at or
    before the left edge, one exactly at the right edge, and no gap above the
    allowed maximum in between. Nothing is interpolated. *)

From S2P Require Import Prelude GoFloat GoText AlertModel AlertPolicy.

Record EvidencePoint := mkPoint { pt_At : Time; pt_Value : float64; pt_ID : string }.

Record EvidenceWindow := mkWindow {
  ew_From : Time;
  ew_To : Time;
  ew_Cadence : Duration;
  ew_Aggregation : string;
  ew_Points : list EvidencePoint }.

(** ** sort.Search

    The binary search of the standard library: [h] is the midpoint, the loop
    ends when the interval is empty. [n] rounds are enough, since every round
    shrinks the interval. *)
Fixpoint search_loop (fuel i j : nat) (f : nat -> bool) : nat :=
  match fuel with
  | O => i
  | S fuel =>
      if (i <? j)%nat then
        let h := ((i + j) / 2)%nat in
        if negb (f h) then search_loop fuel (h + 1) j f else search_loop fuel i h f
      else i
  end.
Definition sort_search (n : nat) (f : nat -> bool) : nat := search_loop n 0 n f.

(** ** slices.SortStableFunc by At

    A stable sort has one result; insertion from the right computes it. *)
Fixpoint insert_point (p : EvidencePoint) (l : list EvidencePoint) : list EvidencePoint :=
  match l with
  | [] => [p]
  | q :: t => if pt_At p <=? pt_At q then p :: l else q :: insert_point p t
  end.
Definition sort_points (l : list EvidencePoint) : list EvidencePoint := foldr insert_point [] l.

(** ** window.go *)

Definition validEvidencePoint (point : EvidencePoint) : bool :=
  (pt_ID point <>s "") && negb (IsZero (pt_At point)) && is_finite (pt_Value point).

Definition validateEvidenceWindow (window : EvidenceWindow) : result EvalError unit :=
  if MaximumWindowSamples <? Z.of_nat (length (ew_Points window)) then Err ErrCapacity
  else if IsZero (ew_From window) || negb (After (ew_To window) (ew_From window))
       || (MaximumWindowSeconds * Second <? Sub (ew_To window) (ew_From window))
  then Err ErrInvalidPolicy
  else if (ew_Cadence window <=? 0) || (MaximumWindowSeconds * Second <? ew_Cadence window)
  then Err ErrInvalidPolicy
  else if negb (str_in (ew_Aggregation window) ["last"; "avg"; "min"; "max"; "sum"; "rate"])
  then Err ErrInvalidPolicy
  else Ok tt.

(** The loop of distinctWindowPoints: [seen] maps an identifier to the value it
    was first read with, [kept] is what has been kept, last first. *)
Fixpoint distinct_loop (seen : gmap string float64) (kept : list EvidencePoint)
    (points : list EvidencePoint) : result EvalError (list EvidencePoint) :=
  match points with
  | [] => Ok (rev kept)
  | point :: rest =>
      match seen !! pt_ID point with
      | Some previous =>
          if (previous != pt_Value point)%f64 then Err ErrInvalidObservation
          else distinct_loop seen kept rest
      | None =>
          if match kept with last :: _ => TimeEqual (pt_At last) (pt_At point) | [] => false end
          then Err ErrInvalidObservation
          else distinct_loop (<[pt_ID point := pt_Value point]> seen) (point :: kept) rest
      end
  end.

Definition distinctWindowPoints (input : list EvidencePoint) : result EvalError (list EvidencePoint) :=
  if negb (forallb validEvidencePoint input) then Err ErrInvalidObservation
  else distinct_loop ∅ [] (sort_points input).

(** The gap test between each sample and the one before it. *)
Fixpoint gaps_ok (maximumGap : Duration) (previous : EvidencePoint) (rest : list EvidencePoint)
  : result EvalError unit :=
  match rest with
  | [] => Ok tt
  | current :: rest =>
      let gap := Sub (pt_At current) (pt_At previous) in
      if gap <=? 0 then Err ErrInvalidObservation
      else if maximumGap <? gap then Err ErrIncompleteWindow
      else gaps_ok maximumGap current rest
  end.

(** [points[index].At.After(t)]; sort.Search only asks about valid indices. *)
Definition at_after (points : list EvidencePoint) (t : Time) (index : nat) : bool :=
  match points !! index with Some p => After (pt_At p) t | None => true end.

Definition coveredWindowPoints (window : EvidenceWindow) (points : list EvidencePoint)
  : result EvalError (list EvidencePoint) :=
  let start := Z.of_nat (sort_search (length points) (at_after points (ew_From window))) - 1 in
  let stop := Z.of_nat (sort_search (length points) (at_after points (ew_To window))) in
  if (start <? 0) || (stop - start <? 2) then Err ErrIncompleteWindow
  else
    let selected := take (Z.to_nat (stop - start)) (drop (Z.to_nat start) points) in
    match selected, last selected with
    | first :: rest, Some final =>
        if negb (TimeEqual (pt_At final) (ew_To window)) then Err ErrIncompleteWindow
        else
          let maximumGap := Z.max (wrap64 (2 * ew_Cadence window)) (30 * Second) in
          let* _ := gaps_ok maximumGap first rest in Ok selected
    | _, _ => Err ErrIncompleteWindow
    end.

(** ** window_aggregate.go *)

(** One round of the loop of windowGauge over points[1:]; [index] counts from 0. *)
Definition gauge_step (aggregation : string) (index : Z) (value pointValue : float64) : float64 :=
  if aggregation =s "last" then pointValue
  else if aggregation =s "min" then f_min value pointValue
  else if aggregation =s "max" then f_max value pointValue
  else if aggregation =s "avg" then
    let count := f_of_Z (index + 2) in
    (value * ((count - f_of_Z 1) / count) + pointValue / count)%f64
  else if aggregation =s "sum" then (value + pointValue)%f64
  else value.

Fixpoint gauge_loop (aggregation : string) (index : Z) (value : float64) (points : list EvidencePoint)
  : float64 :=
  match points with
  | [] => value
  | point :: rest =>
      gauge_loop aggregation (index + 1) (gauge_step aggregation index value (pt_Value point)) rest
  end.

(** windowGauge; the callers pass at least one point. *)
Definition windowGauge (aggregation : string) (points : list EvidencePoint) : result EvalError float64 :=
  match points with
  | [] => Err ErrIncompleteWindow
  | first :: rest =>
      let value := gauge_loop aggregation 0 (pt_Value first) rest in
      if negb (is_finite value) then Err ErrInvalidObservation else Ok value
  end.

Definition rate_step (from : Time) (span rate : float64) (previous current : EvidencePoint) : float64 :=
  let delta := (pt_Value current - pt_Value previous)%f64 in
  let delta := if (delta < S754_zero false)%f64 then pt_Value current else delta in
  let start := if Before (pt_At previous) from then from else pt_At previous in
  let overlap := Seconds (Sub (pt_At current) start) in
  let interval := Seconds (Sub (pt_At current) (pt_At previous)) in
  (rate + (delta * (overlap / interval)) / span)%f64.

Fixpoint rate_loop (from : Time) (span rate : float64) (previous : EvidencePoint)
    (rest : list EvidencePoint) : float64 :=
  match rest with
  | [] => rate
  | current :: rest => rate_loop from span (rate_step from span rate previous current) current rest
  end.

Definition windowCounterRate (window : EvidenceWindow) (points : list EvidencePoint)
  : result EvalError float64 :=
  if existsb (fun point => (pt_Value point < S754_zero false)%f64) points then Err ErrInvalidObservation
  else
    let span := Seconds (Sub (ew_To window) (ew_From window)) in
    let rate := match points with
                | [] => S754_zero false
                | first :: rest => rate_loop (ew_From window) span (S754_zero false) first rest
                end in
    if negb (is_finite rate) then Err ErrInvalidObservation else Ok rate.

Definition AggregateWindow (window : EvidenceWindow) : result EvalError float64 :=
  let* _ := validateEvidenceWindow window in
  let* points := distinctWindowPoints (ew_Points window) in
  let* points := coveredWindowPoints window points in
  if ew_Aggregation window =s "rate" then windowCounterRate window points
  else
    let points := match points with
                  | first :: rest => if Before (pt_At first) (ew_From window) then rest else points
                  | [] => []
                  end in
    if (length points <? 2)%nat then Err ErrIncompleteWindow
    else windowGauge (ew_Aggregation window) points.

(** ** The binary search finds the boundary *)

Section search.
Variables (n : nat) (f : nat -> bool).
Hypothesis f_mono : forall a b, (a <= b < n)%nat -> f a = true -> f b = true.

Lemma search_loop_spec fuel i j :
  (j - i <= fuel)%nat -> (i <= j <= n)%nat ->
  (forall k, (k < i)%nat -> f k = false) -> (forall k, (j <= k < n)%nat -> f k = true) ->
  let r := search_loop fuel i j f in
  (r <= n)%nat /\ (forall k, (k < r)%nat -> f k = false) /\ (forall k, (r <= k < n)%nat -> f k = true).
Proof using f_mono.
  revert i j. induction fuel as [|fuel IH]; intros i j Hf Hij Hlo Hhi; cbn [search_loop].
  - assert (i = j) by lia. subst. split_and!; [lia|done|done].
  - destruct (Nat.ltb_spec i j).
    + pose proof (Nat.div_mod_eq (i + j) 2). pose proof (Nat.mod_upper_bound (i + j) 2 ltac:(lia)).
      set (h := ((i + j) / 2)%nat) in *. destruct (f h) eqn:E; cbn [negb]; apply IH; try done; try lia.
      * intros k Hk. apply (f_mono h k); [lia|done].
      * intros k Hk. destruct (f k) eqn:Ek; [|done].
        rewrite (f_mono k h) in E; [done|lia|done].
    + split_and!; [lia|done|]. intros k Hk. apply Hhi. lia.
Qed.

Lemma sort_search_spec :
  let r := sort_search n f in
  (r <= n)%nat /\ (forall k, (k < r)%nat -> f k = false) /\ (forall k, (r <= k < n)%nat -> f k = true).
Proof using f_mono. apply search_loop_spec; lia. Qed.
End search.

(** ** Sorting *)

Definition le_at (p q : EvidencePoint) : Prop := pt_At p <= pt_At q.
Definition lt_at (p q : EvidencePoint) : Prop := pt_At p < pt_At q.

Lemma insert_point_perm p l : insert_point p l ≡ₚ p :: l.
Proof.
  induction l as [|q l IH]; simpl; [done|]. destruct (_ <=? _); [done|]. rewrite IH. apply perm_swap.
Qed.

Lemma sort_points_perm l : sort_points l ≡ₚ l.
Proof. induction l as [|p l IH]; simpl; [done|]. by rewrite insert_point_perm, IH. Qed.

Lemma insert_point_sorted p l : StronglySorted le_at l -> StronglySorted le_at (insert_point p l).
Proof.
  induction 1 as [|q l Hs IH Hq]; simpl; [repeat constructor|].
  destruct (Z.leb_spec (pt_At p) (pt_At q)).
  - constructor; [by constructor|]. constructor; [done|].
    eapply Forall_impl; [exact Hq|]. unfold le_at. intros; lia.
  - constructor; [done|]. rewrite insert_point_perm. constructor; [unfold le_at; lia|done].
Qed.

Lemma sort_points_sorted l : StronglySorted le_at (sort_points l).
Proof. induction l; simpl; [constructor|by apply insert_point_sorted]. Qed.

(** What the deduplication keeps is strictly increasing in time. *)
Lemma distinct_loop_sorted seen kept points r :
  distinct_loop seen kept points = Ok r -> StronglySorted le_at points ->
  StronglySorted lt_at (rev kept) ->
  (forall p q, p ∈ kept -> q ∈ points -> le_at p q) ->
  StronglySorted (flip lt_at) kept ->
  StronglySorted lt_at r /\ (forall p, p ∈ r -> p ∈ kept \/ p ∈ points).
Proof.
  revert seen kept. induction points as [|p points IH]; intros seen kept H Hs Hk Hle Hd; simpl in H.
  { simplify_eq. split; [done|]. intros p Hp. left. by apply elem_of_rev. }
  apply StronglySorted_inv in Hs as [Hs Hp]. rewrite Forall_forall in Hp.
  destruct (seen !! pt_ID p) eqn:Es.
  - destruct (negb _); [done|].
    destruct (IH _ _ H) as [H1 H2]; try done; [set_solver|]. split; [done|]. set_solver.
  - destruct (match kept with [] => _ | _ => _ end) eqn:El; [done|].
    assert (forall q, q ∈ kept -> lt_at q p) as Hlt.
    { intros q Hq. destruct kept as [|k kept]; [by apply elem_of_nil in Hq|].
      apply StronglySorted_inv in Hd as [_ Hd]. rewrite Forall_forall in Hd.
      unfold TimeEqual in El. apply Z.eqb_neq in El.
      assert (lt_at k p) by (pose proof (Hle k p ltac:(left) ltac:(left)); unfold le_at, lt_at in *; lia).
      apply elem_of_cons in Hq as [->|Hq]; [done|]. specialize (Hd q Hq). unfold flip, lt_at in *. lia. }
    destruct (IH _ _ H) as [H1 H2]; try done.
    + simpl. apply StronglySorted_app_2; [|done|by repeat constructor].
      intros x y Hx Hy. rewrite list_elem_of_singleton in Hy. subst. apply Hlt.
      by apply elem_of_rev.
    + intros a b [->|Ha]%elem_of_cons Hb; [by apply Hp|]. apply Hle; [done|by right].
    + constructor; [done|]. apply Forall_forall. exact Hlt.
    + split; [done|]. set_solver.
Qed.

Lemma distinct_sorted input points : distinctWindowPoints input = Ok points ->
  StronglySorted lt_at points /\ (forall p, p ∈ points -> p ∈ input) /\
  Forall (fun p => validEvidencePoint p = true) points.
Proof.
  unfold distinctWindowPoints. destruct (negb _) eqn:V; [done|]. apply negb_false_iff in V.
  intros H. apply distinct_loop_sorted in H as [Hs Hin]; try (by constructor || set_solver).
  - assert (forall p, p ∈ points -> p ∈ input) as Hsub.
    { intros p Hp. destruct (Hin p Hp) as [?|Hp2]; [set_solver|]. by rewrite sort_points_perm in Hp2. }
    split_and!; [done..|]. apply Forall_forall. intros p Hp.
    rewrite forallb_forall in V. by apply V, list_elem_of_In, Hsub.
  - apply sort_points_sorted.
Qed.

(** ** Coverage *)

Section covered.
Variables (points : list EvidencePoint).
Hypothesis Hsorted : StronglySorted lt_at points.

Lemma lookup_lt_at i j p q : (i < j)%nat -> points !! i = Some p -> points !! j = Some q -> lt_at p q.
Proof using Hsorted.
  intros Hij Hp Hq. apply (StronglySorted_app_1_elem_of lt_at (take j points) (drop j points)).
  - by rewrite take_drop.
  - eapply list_elem_of_lookup_2. rewrite lookup_take_lt by done. exact Hp.
  - eapply (list_elem_of_lookup_2 _ 0%nat). rewrite lookup_drop, Nat.add_0_r. exact Hq.
Qed.

Lemma at_after_mono t a b : (a <= b < length points)%nat ->
  at_after points t a = true -> at_after points t b = true.
Proof using Hsorted.
  unfold at_after, After. intros Hab Ha.
  destruct (lookup_lt_is_Some_2 points b ltac:(lia)) as [q Hq]. rewrite Hq.
  destruct (lookup_lt_is_Some_2 points a ltac:(lia)) as [p Hp]. rewrite Hp in Ha.
  destruct (decide (a = b)) as [->|]; [congruence|].
  pose proof (lookup_lt_at a b p q ltac:(lia) Hp Hq). unfold lt_at in *. go_bool. lia.
Qed.

(** The boundary index splits the samples at the instant [t]. *)
Lemma search_after t :
  let r := sort_search (length points) (at_after points t) in
  (r <= length points)%nat /\
  (forall k p, points !! k = Some p -> if (k <? r)%nat then pt_At p <= t else t < pt_At p).
Proof using Hsorted.
  intros r. destruct (sort_search_spec (length points) (at_after points t) (at_after_mono t)) as (H1 & H2 & H3).
  fold r in H1, H2, H3. split; [done|]. intros k p Hp. pose proof (lookup_lt_Some _ _ _ Hp).
  unfold at_after, After in *. destruct (Nat.ltb_spec k r) as [Hk|Hk].
  - specialize (H2 k Hk). rewrite Hp in H2. go_bool. lia.
  - specialize (H3 k ltac:(lia)). rewrite Hp in H3. by go_bool.
Qed.
End covered.

Lemma gaps_ok_spec g first rest : gaps_ok g first rest = Ok tt ->
  forall i p q, (first :: rest) !! i = Some p -> (first :: rest) !! S i = Some q ->
  0 < Sub (pt_At q) (pt_At p) <= g.
Proof.
  revert first. induction rest as [|c rest IH]; intros first H i p q Hp Hq; [done|].
  simpl in H. destruct (Z.leb_spec (Sub (pt_At c) (pt_At first)) 0); [done|].
  destruct (Z.ltb_spec g (Sub (pt_At c) (pt_At first))); [done|].
  destruct i as [|i]; simpl in *; [simplify_eq; lia|]. by apply (IH c H i).
Qed.

Lemma covered_spec window points selected : StronglySorted lt_at points ->
  coveredWindowPoints window points = Ok selected ->
  exists first rest final, selected = first :: rest /\ first ∈ points /\
    pt_At first <= ew_From window /\
    Forall (fun p => ew_From window < pt_At p <= ew_To window) rest /\
    (forall p, p ∈ rest -> p ∈ points) /\
    (forall p, p ∈ points -> ew_From window < pt_At p <= ew_To window -> p ∈ rest) /\
    last selected = Some final /\ pt_At final = ew_To window /\
    gaps_ok (Z.max (wrap64 (2 * ew_Cadence window)) (30 * Second)) first rest = Ok tt.
Proof.
  intros Hs. unfold coveredWindowPoints.
  destruct (search_after points Hs (ew_From window)) as [Hsn Hstart].
  destruct (search_after points Hs (ew_To window)) as [Hen Hend].
  set (s := sort_search _ _) in *. set (e := sort_search (length points) (at_after points (ew_To window))) in *.
  destruct (_ || _) eqn:B; [done|]. go_bool. destruct B as [B1 B2].
  set (sel := take _ _). destruct sel as [|first rest] eqn:Es; [done|].
  destruct (last (first :: rest)) as [final|] eqn:El; [|done].
  destruct (negb _) eqn:Ef; [done|]. apply negb_false_iff, Z.eqb_eq in Ef.
  intros ([] & Hg & [= <-])%bind_ok.
  assert (forall i, sel !! i = if (i <? e - (s - 1))%nat then points !! (s - 1 + i)%nat else None) as Hsel.
  { intros i. unfold sel. replace (Z.to_nat (Z.of_nat e - (Z.of_nat s - 1))) with (e - (s - 1))%nat by lia.
    replace (Z.to_nat (Z.of_nat s - 1)) with (s - 1)%nat by lia.
    destruct (Nat.ltb_spec i (e - (s - 1))); [by rewrite lookup_take_lt, lookup_drop|by rewrite lookup_take_ge]. }
  exists first, rest, final.
  assert (points !! (s - 1)%nat = Some first) as Hfirst.
  { specialize (Hsel 0%nat). rewrite Es in Hsel. simpl in Hsel. rewrite Nat.add_0_r in Hsel.
    by destruct (0 <? e - (s - 1))%nat. }
  assert (forall i p, rest !! i = Some p <-> (s + i < e)%nat /\ points !! (s + i)%nat = Some p) as Hrest.
  { intros i p. specialize (Hsel (S i)). rewrite Es in Hsel. change ((first :: rest) !! S i) with (rest !! i) in Hsel.
    replace (s - 1 + S i)%nat with (s + i)%nat in Hsel by lia. rewrite Hsel.
    destruct (Nat.ltb_spec (S i) (e - (s - 1))); split; [intros; split; [lia|done]|by intros [_ ?]|done|lia]. }
  pose proof (Hstart _ _ Hfirst) as Hf1.
  replace (s - 1 <? s)%nat with true in Hf1 by (symmetry; apply Nat.ltb_lt; lia).
  split_and!; try done; [by eapply list_elem_of_lookup_2|..].
  - apply Forall_lookup. intros i p [Hi Hp]%Hrest.
    pose proof (Hstart _ _ Hp) as H1. pose proof (Hend _ _ Hp) as H2.
    destruct (Nat.ltb_spec (s + i) s); [lia|]. destruct (Nat.ltb_spec (s + i) e); lia.
  - intros p [i [_ Hi]%Hrest]%list_elem_of_lookup_1. by eapply list_elem_of_lookup_2.
  - intros p [k Hk]%list_elem_of_lookup_1 [Hlo Hhi].
    pose proof (Hstart _ _ Hk) as H1. pose proof (Hend _ _ Hk) as H2.
    destruct (Nat.ltb_spec k s); [lia|]. destruct (Nat.ltb_spec k e); [|lia].
    apply (list_elem_of_lookup_2 _ (k - s)%nat). apply Hrest.
    replace (s + (k - s))%nat with k by lia. done.
Qed.

(** ** Aggregates *)

Definition finite_point (p : EvidencePoint) : Prop := is_finite (pt_Value p) = true.

Lemma gauge_last idx v points :
  gauge_loop "last" idx v points = match last points with Some p => pt_Value p | None => v end.
Proof.
  revert idx v. induction points as [|p t IH]; intros idx v; [done|].
  cbn [gauge_loop]. rewrite IH. destruct t as [|q t]; [done|].
  change (last (p :: q :: t)) with (last (q :: t)).
  destruct (last (q :: t)) eqn:E; [done|]. by apply last_None in E.
Qed.

Lemma gauge_min idx v points : Forall finite_point points -> is_finite v = true ->
  let r := gauge_loop "min" idx v points in
  (r <= v)%f64 = true /\ Forall (fun p => (r <= pt_Value p)%f64 = true) points /\
  (r = v \/ exists p, p ∈ points /\ r = pt_Value p).
Proof.
  intros H. revert idx v. induction H as [|p points Hp Hf IH]; intros idx v Hv; simpl.
  - split_and!; [by apply SFleb_refl, is_finite_not_nan|done|by left].
  - unfold finite_point in Hp. unfold gauge_step. simpl.
    destruct (f_min_spec v (pt_Value p)) as (H1 & H2 & H3); [by apply is_finite_not_nan..|].
    assert (is_finite (f_min v (pt_Value p)) = true) as Hm by (destruct H3 as [->| ->]; done).
    destruct (IH (idx + 1) _ Hm) as (I1 & I2 & I3).
    split_and!; [by eapply SFleb_trans|by constructor; [eapply SFleb_trans|]|].
    destruct I3 as [I3|(q & Hq & I3)]; [|by right; exists q; split; [right|]].
    rewrite I3. destruct H3 as [->| ->]; [by left|right]. exists p. split; [left|done].
Qed.

Lemma gauge_max idx v points : Forall finite_point points -> is_finite v = true ->
  let r := gauge_loop "max" idx v points in
  (v <= r)%f64 = true /\ Forall (fun p => (pt_Value p <= r)%f64 = true) points /\
  (r = v \/ exists p, p ∈ points /\ r = pt_Value p).
Proof.
  intros H. revert idx v. induction H as [|p points Hp Hf IH]; intros idx v Hv; simpl.
  - split_and!; [by apply SFleb_refl, is_finite_not_nan|done|by left].
  - unfold finite_point in Hp. unfold gauge_step. simpl.
    destruct (f_max_spec v (pt_Value p)) as (H1 & H2 & H3); [by apply is_finite_not_nan..|].
    assert (is_finite (f_max v (pt_Value p)) = true) as Hm by (destruct H3 as [->| ->]; done).
    destruct (IH (idx + 1) _ Hm) as (I1 & I2 & I3).
    split_and!; [by eapply SFleb_trans|by constructor; [eapply SFleb_trans|]|].
    destruct I3 as [I3|(q & Hq & I3)]; [|by right; exists q; split; [right|]].
    rewrite I3. destruct H3 as [->| ->]; [by left|right]. exists p. split; [left|done].
Qed.

(** Every term of a counter rate is nonnegative: a decrease counts as a reset,
    and the overlap is a nonnegative share of a nonnegative interval. *)
Lemma rate_loop_nn from span rate first rest :
  nn rate = true -> Signbit span = false ->
  Forall (fun p => nn (pt_Value p) = true) rest ->
  (forall i p q, (first :: rest) !! i = Some p -> (first :: rest) !! S i = Some q -> lt_at p q) ->
  Forall (fun p => from <= pt_At p) rest ->
  nn (rate_loop from span rate first rest) = true.
Proof.
  revert rate first. induction rest as [|c rest IH]; intros rate first Hr Hspan Hv Hlt Hfrom; simpl; [done|].
  apply Forall_cons in Hv as [Hc Hv]. apply Forall_cons in Hfrom as [Hfc Hfrom].
  pose proof (Hlt 0%nat first c eq_refl eq_refl) as Hfc'. unfold lt_at in Hfc'.
  apply IH; try done; [|by intros i p q Hp Hq; apply (Hlt (S i))].
  unfold rate_step, Before. apply nn_add; [done|]. apply nn_div; [|done]. apply nn_mul.
  - destruct (_ < _)%f64 eqn:E; [done|]. unfold nn. by rewrite E.
  - apply Signbit_nn, f_div_pos; apply Seconds_pos, Sub_nonneg; [|lia]. go_case; lia.
Qed.

Lemma AggregateWindow_inv window v : AggregateWindow window = Ok v ->
  exists points selected,
    validateEvidenceWindow window = Ok tt /\
    distinctWindowPoints (ew_Points window) = Ok points /\ StronglySorted lt_at points /\
    coveredWindowPoints window points = Ok selected /\
    Forall finite_point selected /\
    (if ew_Aggregation window =s "rate" then windowCounterRate window selected = Ok v
     else exists used, used = match selected with
                | first :: rest => if Before (pt_At first) (ew_From window) then rest else selected
                | [] => [] end
       /\ windowGauge (ew_Aggregation window) used = Ok v).
Proof.
  unfold AggregateWindow. intros ([] & H1 & H)%bind_ok.
  apply bind_ok in H as (points & H2 & H). apply bind_ok in H as (selected & H3 & H).
  destruct (distinct_sorted _ _ H2) as (Hs & _ & Hv).
  exists points, selected. split_and!; try done.
  - destruct (covered_spec _ _ _ Hs H3) as (first & rest & _ & -> & Hf & _ & _ & Hr & _).
    rewrite Forall_forall in Hv. apply Forall_forall. intros p Hp.
    assert (p ∈ points) as Hin by (apply elem_of_cons in Hp as [->|?]; auto).
    apply Hv in Hin. unfold validEvidencePoint in Hin. unfold finite_point. go_bool. tauto.
  - destruct (_ =s "rate"); [done|]. destruct (_ <? 2)%nat; [done|]. eauto.
Qed.

Lemma windowGauge_inv agg points v : windowGauge agg points = Ok v ->
  exists first rest, points = first :: rest /\ v = gauge_loop agg 0 (pt_Value first) rest.
Proof. unfold windowGauge. destruct points; [done|]. go_case; [done|]. naive_solver. Qed.

(** ** Redelivered samples *)

(** Inserting one more sample keeps a second copy of [p] behind the first. *)
Lemma insert_point_dup x a p b : Forall (le_at p) b ->
  exists a' b', insert_point x (a ++ p :: b) = a' ++ p :: b' /\ insert_point x (a ++ b) = a' ++ b' /\
    (forall y, y ∈ a -> y ∈ a') /\ (x = p -> p ∈ a') /\ Forall (le_at p) b'.
Proof.
  intros Hb. induction a as [|q a IH]; simpl.
  - destruct (Z.leb_spec (pt_At x) (pt_At p)).
    + exists [x], b. split_and!; try done; [|set_solver..].
      destruct b as [|c b]; [done|]. simpl. apply Forall_cons in Hb as [Hc _]. unfold le_at in Hc.
      destruct (Z.leb_spec (pt_At x) (pt_At c)); [done|lia].
    + exists [], (insert_point x b). split_and!; try done; [intros ->; lia|].
      rewrite insert_point_perm. constructor; [unfold le_at; lia|done].
  - destruct (Z.leb_spec (pt_At x) (pt_At q)).
    + exists (x :: q :: a), b. split_and!; try done; set_solver.
    + destruct IH as (a' & b' & -> & -> & H1 & H2 & H3). exists (q :: a'), b'.
      split_and!; try done; set_solver.
Qed.

Lemma sort_points_dup l1 p l2 :
  exists a b, sort_points (l1 ++ p :: l2) = a ++ p :: b /\ sort_points (l1 ++ l2) = a ++ b /\
    (p ∈ l1 -> p ∈ a) /\ Forall (le_at p) b.
Proof.
  induction l1 as [|x l1 (a & b & H1 & H2 & H3 & H4)]; simpl.
  - pose proof (sort_points_sorted l2) as Hs. induction Hs as [|q l Hl IH Hq]; simpl.
    + exists [], []. split_and!; try done; set_solver.
    + destruct (Z.leb_spec (pt_At p) (pt_At q)).
      * exists [], (q :: l). split_and!; [done..|set_solver|]. constructor; [done|].
        eapply Forall_impl; [exact Hq|]. unfold le_at. lia.
      * destruct IH as (a & b & -> & -> & H1 & H2). exists (q :: a), b. split_and!; try done; set_solver.
  - fold (sort_points (l1 ++ p :: l2)) (sort_points (l1 ++ l2)). rewrite H1, H2.
    destruct (insert_point_dup x a p b H4) as (a' & b' & -> & -> & I1 & I2 & I3).
    exists a', b'. split_and!; try done. intros [->|Hp]%elem_of_cons; auto.
Qed.

Lemma distinct_loop_dup a p b seen kept : finite_point p ->
  (p ∈ a \/ exists v, seen !! pt_ID p = Some v /\ (v == pt_Value p)%f64 = true) ->
  distinct_loop seen kept (a ++ p :: b) = distinct_loop seen kept (a ++ b).
Proof.
  intros Hp. revert seen kept. induction a as [|q a IH]; intros seen kept H; simpl.
  - destruct H as [H|(v & -> & ->)]; [by apply elem_of_nil in H|done].
  - destruct (seen !! pt_ID q) as [prev|] eqn:E.
    + destruct (negb _) eqn:N; [done|]. apply negb_false_iff in N. apply IH.
      destruct H as [[->|H]%elem_of_cons|H]; eauto.
    + destruct (match kept with [] => _ | _ => _ end); [done|]. apply IH.
      destruct H as [[->|H]%elem_of_cons|(v & H & Hv)]; [right|by left|right].
      * exists (pt_Value q). rewrite lookup_insert_eq. split; [done|].
        by apply SFeqb_key; [apply is_finite_not_nan..|].
      * exists v. rewrite lookup_insert_ne by congruence. done.
Qed.

Lemma distinct_redelivery l1 p l2 : p ∈ l1 ->
  distinctWindowPoints (l1 ++ p :: l2) = distinctWindowPoints (l1 ++ l2).
Proof.
  intros Hp. unfold distinctWindowPoints.
  assert (forallb validEvidencePoint (l1 ++ p :: l2) = forallb validEvidencePoint (l1 ++ l2)) as E.
  { rewrite !forallb_app. simpl. destruct (forallb validEvidencePoint l1) eqn:E; [|done].
    rewrite forallb_forall in E. by rewrite (E p (proj1 (list_elem_of_In _ _) Hp)). }
  rewrite E. destruct (negb _) eqn:V; [done|]. apply negb_false_iff in V. rewrite forallb_forall in V.
  destruct (sort_points_dup l1 p l2) as (a & b & -> & -> & Ha & _).
  apply distinct_loop_dup; [|by left; apply Ha].
  assert (validEvidencePoint p = true) as Hv by (apply V, in_app_iff; left; by apply list_elem_of_In).
  unfold validEvidencePoint in Hv. unfold finite_point. go_bool. tauto.
Qed.

(** ** Properties *)

Definition example_points : list EvidencePoint :=
  [mkPoint (1000 * Second) (f_of_Z 5) "a"; mkPoint (1020 * Second) (f_of_Z 7) "c";
   mkPoint (1010 * Second) (f_of_Z 6) "b"; mkPoint (1030 * Second) (f_of_Z 17) "d";
   mkPoint (1040 * Second) (f_of_Z 9) "e"].
Definition example_window (aggregation : string) : EvidenceWindow :=
  mkWindow (1005 * Second) (1030 * Second) (10 * Second) aggregation example_points.

(** Coverage: when an aggregate is computed, the samples used are a
    boundary sample at or before [From] followed by exactly the distinct samples
    in (From, To] (none is dropped, found by binary search), the last one is
    exactly at [To], and consecutive samples are never further apart than
    max(2 * cadence, 30 s). Otherwise the code returns an error. *)
Theorem aggregate_needs_coverage window v :
  AggregateWindow window = Ok v ->
  exists points first rest final,
    distinctWindowPoints (ew_Points window) = Ok points /\
    coveredWindowPoints window points = Ok (first :: rest) /\
    pt_At first <= ew_From window /\
    (forall p, p ∈ rest <-> p ∈ points /\ ew_From window < pt_At p <= ew_To window) /\
    last (first :: rest) = Some final /\ pt_At final = ew_To window /\
    (forall i p q, (first :: rest) !! i = Some p -> (first :: rest) !! S i = Some q ->
       0 < Sub (pt_At q) (pt_At p) <= Z.max (2 * ew_Cadence window) (30 * Second)).
Proof.
  intros (points & selected & Hw & Hd & Hs & Hc & _ & _)%AggregateWindow_inv.
  destruct (covered_spec _ _ _ Hs Hc) as (first & rest & final & -> & _ & Hf & Hr & Hsub & Hall & Hl & Ht & Hg).
  exists points, first, rest, final. split_and!; try done.
  - intros p. rewrite Forall_forall in Hr. split; [eauto|]. intros [? ?]. eauto.
  - intros i p q Hp Hq. pose proof (gaps_ok_spec _ _ _ Hg i p q Hp Hq) as Hgap.
    unfold validateEvidenceWindow, MaximumWindowSeconds, Second in Hw. go_inv Hw. go_bool.
    rewrite wrap64_id in Hgap; [done|]. unfold in_int64, int64_min, int64_max. lia.
Qed.

Lemma aggregate_needs_coverage_witness :
  exists v points first rest final, AggregateWindow (example_window "avg") = Ok v /\
    coveredWindowPoints (example_window "avg") points = Ok (first :: rest) /\
    last (first :: rest) = Some final /\ pt_At final = 1030 * Second.
Proof.
  destruct (AggregateWindow (example_window "avg")) as [v|] eqn:E; [|vm_compute in E; discriminate E].
  destruct (aggregate_needs_coverage (example_window "avg") v E)
    as (points & first & rest & final & _ & H2 & _ & _ & H5 & H6 & _).
  exists v, points, first, rest, final. auto.
Defined.

(** What the gauge aggregates mean: "last" is the value of the sample at
    [To]; "min" ("max") is the value of one of the samples used and is below
    (above) all of them; the result is always a finite number. *)
Theorem gauge_aggregates window v :
  AggregateWindow window = Ok v -> ew_Aggregation window <> "rate" ->
  exists points selected used final,
    distinctWindowPoints (ew_Points window) = Ok points /\
    coveredWindowPoints window points = Ok selected /\
    (forall p, p ∈ used <-> p ∈ selected /\ ew_From window <= pt_At p) /\
    last used = Some final /\ pt_At final = ew_To window /\ is_finite v = true /\
    (ew_Aggregation window = "last" -> v = pt_Value final) /\
    (ew_Aggregation window = "min" ->
       (exists p, p ∈ used /\ v = pt_Value p) /\ Forall (fun p => (v <= pt_Value p)%f64 = true) used) /\
    (ew_Aggregation window = "max" ->
       (exists p, p ∈ used /\ v = pt_Value p) /\ Forall (fun p => (pt_Value p <= v)%f64 = true) used).
Proof.
  intros (points & selected & _ & Hd & Hs & Hc & Hfin & Hv)%AggregateWindow_inv Hrate.
  apply String.eqb_neq in Hrate. rewrite Hrate in Hv. destruct Hv as (used & Hu & Hg).
  destruct (covered_spec _ _ _ Hs Hc) as (first & rest & final & -> & _ & Hf & Hr & _ & _ & Hl & Ht & _).
  rewrite Forall_forall in Hr.
  pose proof (windowGauge_inv _ _ _ Hg) as (u & us & -> & ->). rewrite Hu in *.
  assert (forall p, p ∈ u :: us <-> p ∈ first :: rest /\ ew_From window <= pt_At p) as Hused.
  { intros p. rewrite Hu. unfold Before. destruct (Z.ltb_spec (pt_At first) (ew_From window)).
    - split; [|intros [[->|?]%elem_of_cons ?]; [lia|done]].
      intros Hp. split; [by right|]. apply Hr in Hp. lia.
    - split; [|by intros [? _]]. intros Hp. split; [done|].
      apply elem_of_cons in Hp as [->|Hp]; [done|apply Hr in Hp; lia]. }
  assert (last (u :: us) = Some final) as Hlast.
  { rewrite Hu. unfold Before in *. destruct (Z.ltb_spec (pt_At first) (ew_From window)); [|done].
    rewrite <- Hl, <- Hu. by destruct rest. }
  assert (Forall finite_point (u :: us)) as Hfu.
  { rewrite Forall_forall in Hfin. apply Forall_forall. intros p [Hp _]%Hused. auto. }
  apply Forall_cons in Hfu as [Hu1 Hus].
  exists points, (first :: rest), (u :: us), final. rewrite <- Hu in Hg. unfold windowGauge in Hg.
  split_and!; try done.
  - by destruct (is_finite _).
  - intros ->. rewrite gauge_last. destruct us as [|u' us]; [by injection Hlast as ->|].
    change (last (u :: u' :: us)) with (last (u' :: us)) in Hlast. by rewrite Hlast.
  - intros ->. destruct (gauge_min 0 (pt_Value u) us Hus Hu1) as (H1 & H2 & H3). split; [|by constructor].
    destruct H3 as [H3|(p & ? & H3)]; [exists u|exists p]; (split; [set_solver|done]).
  - intros ->. destruct (gauge_max 0 (pt_Value u) us Hus Hu1) as (H1 & H2 & H3). split; [|by constructor].
    destruct H3 as [H3|(p & ? & H3)]; [exists u|exists p]; (split; [set_solver|done]).
Qed.

Lemma gauge_aggregates_witness :
  exists v used, AggregateWindow (example_window "max") = Ok v /\
    (exists p, p ∈ used /\ v = pt_Value p) /\ Forall (fun p => (pt_Value p <= v)%f64 = true) used.
Proof.
  destruct (AggregateWindow (example_window "max")) as [v|] eqn:E; [|vm_compute in E; discriminate E].
  destruct (gauge_aggregates (example_window "max") v E) as (points & selected & used & final & H);
    [discriminate|].
  exists v, used. split; [reflexivity|]. apply H. reflexivity.
Defined.

(** A counter rate is a finite nonnegative number, whatever resets the
    counter went through: a decrease is read as a restart from zero, so no
    interval contributes a negative amount. *)
Theorem counter_rate_nonnegative window v :
  AggregateWindow window = Ok v -> ew_Aggregation window = "rate" ->
  is_finite v = true /\ (S754_zero false <= v)%f64 = true.
Proof.
  intros (points & selected & Hw & _ & Hs & Hc & _ & Hv)%AggregateWindow_inv Hrate.
  rewrite Hrate in Hv. simpl in Hv. unfold windowCounterRate in Hv.
  destruct (existsb _ _) eqn:Hneg; [done|].
  destruct (covered_spec _ _ _ Hs Hc) as (first & rest & final & -> & _ & Hf & Hr & _ & _ & _ & _ & Hg).
  destruct (negb _) eqn:Hfin; [done|]. apply negb_false_iff in Hfin. simplify_eq.
  split; [done|]. apply nn_nonneg; [by apply is_finite_not_nan|].
  apply rate_loop_nn; [done|apply Seconds_pos, Sub_nonneg|..].
  - unfold validateEvidenceWindow, After in Hw. go_inv Hw. go_bool. lia.
  - apply Forall_forall. intros p Hp. apply not_true_iff_false in Hneg. unfold nn.
    destruct (_ < _)%f64 eqn:E; [|done]. exfalso. apply Hneg, existsb_exists. exists p.
    split; [|done]. apply list_elem_of_In. by right.
  - intros i p q Hp Hq. pose proof (gaps_ok_spec _ _ _ Hg i p q Hp Hq).
    unfold lt_at, Sub, sat64, int64_min, int64_max in *. lia.
  - eapply Forall_impl; [exact Hr|]. simpl. lia.
Qed.

Lemma counter_rate_nonnegative_witness :
  exists v, AggregateWindow (example_window "rate") = Ok v /\ is_finite v = true.
Proof.
  destruct (AggregateWindow (example_window "rate")) as [v|] eqn:E; [|vm_compute in E; discriminate E].
  exists v. split; [reflexivity|]. apply (counter_rate_nonnegative (example_window "rate") v E). reflexivity.
Defined.

(** Delivering a sample a second time never changes an aggregate: as long
    as the window stays within the sample cap, a repeated point (same identifier,
    instant and value, at any later place of the input) is ignored. *)
Theorem redelivery_is_ignored from to cadence aggregation l1 p l2 :
  p ∈ l1 -> Z.of_nat (length (l1 ++ p :: l2)) <= 100000 ->
  AggregateWindow (mkWindow from to cadence aggregation (l1 ++ p :: l2)) =
  AggregateWindow (mkWindow from to cadence aggregation (l1 ++ l2)).
Proof.
  intros Hp Hlen. unfold AggregateWindow, validateEvidenceWindow. cbn [ew_Points].
  rewrite (distinct_redelivery l1 p l2 Hp). unfold MaximumWindowSamples.
  destruct (Z.ltb_spec 100000 (Z.of_nat (length (l1 ++ p :: l2)))) as [|_]; [lia|].
  destruct (Z.ltb_spec 100000 (Z.of_nat (length (l1 ++ l2)))) as [H|_]; [|done].
  rewrite length_app in *. cbn [length] in Hlen. lia.
Qed.

Lemma redelivery_is_ignored_witness :
  AggregateWindow (mkWindow (1005 * Second) (1030 * Second) (10 * Second) "sum"
    (example_points ++ [mkPoint (1010 * Second) (f_of_Z 6) "b"])) =
  AggregateWindow (mkWindow (1005 * Second) (1030 * Second) (10 * Second) "sum" (example_points ++ [])).
Proof.
  apply redelivery_is_ignored; [|vm_compute; discriminate]. unfold example_points. do 2 right. left.
Defined.
