(* ===== verification/AlertEngine.v ===== *)
(** * The alert state machine

    internal/alerteval: engine.go, evidence.go, threshold.go, health.go and
    accelerator.go. [Step] takes the persisted state of one (rule, node, device)
    triple and one observation to the next state and the actions to commit:
    opening or resolving an incident after the configured confirmation time, and
    opening, notifying and closing an evaluation-health epoch when evidence is
    missing or broken.

    Random identifiers come from uuid.NewRandom: [fresh] is what that call
    returns in this step (a step makes at most one), [None] its error. The
    name-based uuid.NewSHA1 is the function [sha1_uuid]. *)

From S2P Require Import Prelude GoFloat GoText AlertModel AlertPolicy.

Definition ActionThresholdTrigger : string := "threshold_trigger".
Definition ActionThresholdRecovery : string := "threshold_recovery".
Definition ActionHealth : string := "evaluation_health".
Definition ActionDeviceUnavailable : string := "device_unavailable".

Record StepInput := mkStepInput {
  si_DeviceID : string;
  si_DeviceName : string;
  si_Rule : AlertEvaluationRule;
  si_Node : Node;
  si_Previous : AlertEvaluationState;
  si_Observation : AlertEvaluationObservation;
  si_Incident : option AlertEvent;
  si_IncidentChecked : bool }.

Record Action := mkAction {
  ac_PreviousStatus : string;
  ac_Kind : string;
  ac_Notify : bool;
  ac_Event : option AlertEvent;
  ac_Health : option AlertEvaluationEvent }.

Record StepResult := mkStepResult {
  sr_State : AlertEvaluationState;
  sr_Actions : list Action }.

Definition set_sr_State (s : AlertEvaluationState) (r : StepResult) : StepResult :=
  mkStepResult s (sr_Actions r).
Definition append_action (a : Action) (r : StepResult) : StepResult :=
  mkStepResult (sr_State r) (sr_Actions r ++ [a]).

(** The cap on every confirmation timer: int64(MaximumDelaySeconds)*1000. *)
Definition MaximumDelayMS : Z := MaximumDelaySeconds * 1000.

(** ** evidence.go *)

Definition newEvidence (previous : AlertEvaluationState) (observation : AlertEvaluationObservation) : bool :=
  (ob_EvidenceID observation <>s st_EvidenceID previous)
  && match st_LastEvidenceAt previous with
     | None => true
     | Some last => negb (Before (ob_SourceAt observation) last)
     end.

Definition evidenceElapsed (previous : AlertEvaluationState) (observation : AlertEvaluationObservation)
  : Duration * bool :=
  match st_LastEvidenceAt previous, st_LastEvidenceObservedAt previous with
  | Some lastEvidence, Some lastObserved =>
      if st_RunID previous <>s ob_RunID observation then (0, true)
      else if match st_LastEvaluatedAt previous with
              | Some t => MaximumPollGap <? Sub (ob_ObservedAt observation) t
              | None => false
              end then (0, false)
      else
        let sourceElapsed := Sub (ob_SourceAt observation) lastEvidence in
        let maximumGap := Z.max (wrap64 (2 * ob_Cadence observation)) (30 * Second) in
        if (sourceElapsed <? 0) || (maximumGap <? sourceElapsed) then (0, false)
        else
          let wallElapsed := Sub (ob_ObservedAt observation) lastObserved in
          (Z.max (Z.min sourceElapsed wallElapsed) 0, true)
  | _, _ => (0, true)
  end.

Definition applyEvidence (state : AlertEvaluationState) (observation : AlertEvaluationObservation)
  : AlertEvaluationState :=
  state |> set_st_Status EvaluationOK |> set_st_Reason ""
    |> set_st_EvidenceID (ob_EvidenceID observation) |> set_st_RunID (ob_RunID observation)
    |> set_st_LastEvidenceAt (Some (ob_SourceAt observation))
    |> set_st_LastEvidenceObservedAt (Some (ob_ObservedAt observation))
    |> set_st_LastGoodAt (Some (ob_ObservedAt observation)).

Definition resetConfirmation (state : AlertEvaluationState) : AlertEvaluationState :=
  let state := state |> set_st_TriggerElapsedMS 0 |> set_st_RecoveryElapsedMS 0
    |> set_st_PendingSince None |> set_st_RecoverySince None in
  if st_ActiveEventID state =s "" then set_st_Phase AlertPhaseNormal state
  else set_st_Phase AlertPhaseFiring state.

(** ** health.go *)

Definition noDataMask : Z := 1.
Definition errorMask : Z := 2.

Section uuids.
Variable sha1_uuid : string -> string.

Definition healthEvent (state : AlertEvaluationState) (kind reason : string) (at_ : Time)
  : AlertEvaluationEvent :=
  let k := "alert-evaluation:" +:+ hl_EpochID (st_Health state) +:+ ":" +:+ kind in
  mkAlertEvaluationEvent (st_DeviceID state) (st_DeviceName state) (sha1_uuid k) (st_RuleID state)
    (st_NodeID state) (st_RuleRevision state) (hl_EpochID (st_Health state)) kind reason at_ None None k.

Definition creditHealthDelay (state : AlertEvaluationState) (observation : AlertEvaluationObservation)
  : AlertEvaluationState :=
  let health := st_Health state in
  let now := ob_ObservedAt observation in
  let health :=
    if (hl_Status health <>s ob_Status observation) || hl_Suspended health then
      health |> set_hl_Status (ob_Status observation) |> set_hl_ElapsedMS 0 |> set_hl_StatusSince (Some now)
    else match hl_LastObservedAt health with
    | Some last =>
        if st_RunID state =s ob_RunID observation then
          let delta := Sub now last in
          if (0 <=? delta) && (delta <=? MaximumPollGap) then
            set_hl_ElapsedMS (Z.min (wrap64 (hl_ElapsedMS health + Milliseconds delta)) MaximumDelayMS) health
          else set_hl_ElapsedMS 0 health
        else health
    | None => health
    end in
  state |> set_st_Health (health |> set_hl_LastObservedAt (Some now) |> set_hl_Suspended false).

Definition healthPolicy (rule : AlertEvaluationRule) (status : string) : Z * string * Z :=
  if status =s EvaluationNoData then (noDataMask, er_NoDataPolicy rule, er_NoDataDelaySeconds rule)
  else (errorMask, er_ErrorPolicy rule, er_ErrorDelaySeconds rule).

Definition unhealthyStep (fresh : option string) (rule : AlertEvaluationRule) (r : StepResult)
    (observation : AlertEvaluationObservation) : result EvalError StepResult :=
  let state := resetConfirmation (sr_State r)
    |> set_st_Status (ob_Status observation) |> set_st_Reason (ob_Reason observation) in
  let* state :=
    if hl_EpochID (st_Health state) =s "" then
      match fresh with
      | None => Err ErrUnavailable
      | Some id => Ok (set_st_Health
          (mkAlertEvaluationHealth id "" (Some (ob_ObservedAt observation)) None None 0 0 0 false) state)
      end
    else Ok state in
  let state := creditHealthDelay state observation in
  let health := st_Health state in
  let '(mask, policy, delay) := healthPolicy rule (ob_Status observation) in
  let first := Z.land (hl_SeenMask health) mask =? 0 in
  let health := set_hl_SeenMask (Z.lor (hl_SeenMask health) mask) health in
  let notify := (policy =s EvaluationNotify) && (wrap64 (delay * 1000) <=? hl_ElapsedMS health)
                && (Z.land (hl_NotifiedMask health) mask =? 0) in
  let health := if notify then set_hl_NotifiedMask (Z.lor (hl_NotifiedMask health) mask) health else health in
  let state := set_st_Health health state in
  let r := set_sr_State state r in
  let r :=
    if first || notify then
      let event := healthEvent state (ob_Status observation) (ob_Reason observation) (ob_ObservedAt observation) in
      let event := if notify then set_he_NotifiedAt (Some (ob_ObservedAt observation)) event else event in
      append_action (mkAction "" ActionHealth notify None (Some event)) r
    else r in
  Ok (set_sr_State (set_st_RunID (ob_RunID observation) (sr_State r)) r).

Definition finishHealth (r : StepResult) (observation : AlertEvaluationObservation) : StepResult :=
  let state := sr_State r in
  if hl_EpochID (st_Health state) =s "" then r
  else
    let now := ob_ObservedAt observation in
    let event := healthEvent state "recovered" "fresh_evidence" now in
    let notify := negb (hl_NotifiedMask (st_Health state) =? 0) in
    let event := if notify then set_he_NotifiedAt (Some now) event else event in
    let event := set_he_ClosedAt (Some now) event in
    append_action (mkAction "" ActionHealth notify None (Some event)) r
      |> set_sr_State (set_st_Health zero_health state).
End uuids.

(** ** threshold.go *)

Definition deviceSuffix (name : string) : string := " · " +:+ name.

Definition triggerThreshold (fresh : option string) (input : StepInput) (r : StepResult)
    (observation : AlertEvaluationObservation) (value : float64) : result EvalError StepResult :=
  match fresh with
  | None => Err ErrUnavailable
  | Some id =>
      let rule := si_Rule input in
      let message := ar_Name rule +:+ ": " +:+ ar_Metric rule +:+ " on " +:+ nd_Name (si_Node input)
                     +:+ " exceeds its alert condition" in
      let message := if si_DeviceID input <>s "" then message +:+ deviceSuffix (si_DeviceName input)
                     else message in
      let event := mkAlertEvent (si_DeviceID input) (si_DeviceName input) "" id (ar_ID rule)
        (nd_ID (si_Node input)) message value AlertStatusTriggered (ob_ObservedAt observation)
        None None (ar_Name rule) (nd_Name (si_Node input)) (ar_Metric rule) (ar_Severity rule) "" "" in
      let state := sr_State r |> set_st_ActiveEventID (ev_ID event)
        |> set_st_ActiveEventStatus (ev_Status event) |> set_st_Phase AlertPhaseFiring in
      Ok (append_action (mkAction "" ActionThresholdTrigger true (Some event) None) (set_sr_State state r))
  end.

Definition advanceRecovery (rule : AlertEvaluationRule) (observation : AlertEvaluationObservation)
    (value : float64) (elapsed : Duration) (r : StepResult) : StepResult :=
  let state := sr_State r in
  if negb (Recovered value rule) then
    set_sr_State (state |> set_st_Phase AlertPhaseFiring |> set_st_RecoveryElapsedMS 0
                        |> set_st_RecoverySince None) r
  else
    let state :=
      if st_Phase state <>s AlertPhaseRecovering then
        state |> set_st_Phase AlertPhaseRecovering
              |> set_st_RecoverySince (Some (ob_ObservedAt observation)) |> set_st_RecoveryElapsedMS 0
      else set_st_RecoveryElapsedMS
             (Z.min (wrap64 (st_RecoveryElapsedMS state + Milliseconds elapsed)) MaximumDelayMS) state in
    if (st_RecoveryElapsedMS state <? wrap64 (er_RecoveryDuration rule * 1000))
       || (st_ActiveEventStatus state =s AlertStatusAcknowledged)
    then set_sr_State state r
    else
      let event := mkAlertEvent (st_DeviceID state) "" "" (st_ActiveEventID state) (st_RuleID state)
        (st_NodeID state) (ar_Name rule +:+ ": alert condition recovered") value AlertStatusResolved 0
        None (Some (ob_ObservedAt observation)) (ar_Name rule) "" (ar_Metric rule) (ar_Severity rule) "" "" in
      append_action (mkAction "" ActionThresholdRecovery true (Some event) None) r
        |> set_sr_State (resetConfirmation
             (state |> set_st_ActiveEventID "" |> set_st_ActiveEventStatus "")).

(** The device name is added to every incident event of the step: the loop
    goes through the pointers the actions hold. *)
Definition name_device (input : StepInput) (a : Action) : Action :=
  match ac_Event a with
  | Some event =>
      if si_DeviceID input <>s "" then
        mkAction (ac_PreviousStatus a) (ac_Kind a) (ac_Notify a)
          (Some (event |> set_ev_DeviceName (si_DeviceName input)
                       |> set_ev_Message (ev_Message event +:+ deviceSuffix (si_DeviceName input))))
          (ac_Health a)
      else a
  | None => a
  end.

Definition advanceThreshold (fresh : option string) (input : StepInput)
    (observation : AlertEvaluationObservation) (value : float64) (elapsed : Duration) (r : StepResult)
  : result EvalError StepResult :=
  let state := sr_State r in
  if st_ActiveEventID state <>s "" then
    let r := advanceRecovery (si_Rule input) observation value elapsed r in
    Ok (mkStepResult (sr_State r) (map (name_device input) (sr_Actions r)))
  else if negb (Triggered value (si_Rule input)) then
    Ok (set_sr_State (resetConfirmation state) r)
  else
    let state :=
      if st_Phase state <>s AlertPhasePending then
        state |> set_st_Phase AlertPhasePending
              |> set_st_PendingSince (Some (ob_ObservedAt observation)) |> set_st_TriggerElapsedMS 0
      else set_st_TriggerElapsedMS
             (Z.min (wrap64 (st_TriggerElapsedMS state + Milliseconds elapsed)) MaximumDelayMS) state in
    let r := set_sr_State state r in
    if st_TriggerElapsedMS state <? wrap64 (ar_Duration (si_Rule input) * 1000) then Ok r
    else triggerThreshold fresh input r observation value.

(** ** accelerator.go *)

Definition unavailableDevice (input : StepInput) (r : StepResult) : result EvalError StepResult :=
  let rule := si_Rule input in
  let state := sr_State r |> set_st_Status EvaluationOutOfScope |> set_st_Reason AcceleratorDeviceUnavailable in
  let state := set_st_Health (set_hl_Suspended true (st_Health state)) state in
  if st_ActiveEventID state <>s "" then
    match si_Incident input with
    | None => Err ErrInvalidObservation
    | Some incident =>
        if (ev_ID incident <>s st_ActiveEventID state) || (ev_DeviceID incident <>s si_DeviceID input)
        then Err ErrInvalidObservation
        else
          let event := incident |> set_ev_Status AlertStatusResolved
            |> set_ev_ResolvedAt (Some (ob_ObservedAt (si_Observation input)))
            |> set_ev_ResolutionReason AcceleratorDeviceUnavailable
            |> set_ev_RuleName (ar_Name rule) |> set_ev_NodeName (nd_Name (si_Node input))
            |> set_ev_Metric (ar_Metric rule) |> set_ev_Severity (ar_Severity rule)
            |> set_ev_Message (ar_Name rule +:+ ": GPU device unavailable" +:+ deviceSuffix (si_DeviceName input)) in
          let r := append_action
            (mkAction (st_ActiveEventStatus state) ActionDeviceUnavailable true (Some event) None) r in
          Ok (set_sr_State (resetConfirmation
            (state |> set_st_ActiveEventID "" |> set_st_ActiveEventStatus "")) r)
    end
  else Ok (set_sr_State (resetConfirmation state) r).

(** ** engine.go *)

Definition validateObservation (input : StepInput) : result EvalError unit :=
  let observation := si_Observation input in
  let rule := si_Rule input in
  let status := ob_Status observation in
  let accelerator := IsAcceleratorAlertMetric (ar_Metric rule) in
  if (status <>s EvaluationDisabled) && (status <>s EvaluationOutOfScope)
     && (if accelerator then
           negb (ValidAcceleratorDeviceID (si_DeviceID input))
           || ((sc_DeviceID (er_Scope rule) <>s AcceleratorAnyDevice)
               && (sc_DeviceID (er_Scope rule) <>s si_DeviceID input))
         else si_DeviceID input <>s "")
  then Err ErrInvalidObservation
  else if (ob_Reason observation =s AcceleratorDeviceUnavailable)
          && (negb accelerator || negb (ValidAcceleratorDeviceID (si_DeviceID input)))
  then Err ErrInvalidObservation
  else if (ar_ID rule =s "") || (nd_ID (si_Node input) =s "") || (er_Revision rule <? 1)
          || IsZero (ob_ObservedAt observation) || (ob_RunID observation =s "")
  then Err ErrInvalidObservation
  else if negb (str_in status [EvaluationOK; EvaluationNoData; EvaluationError; EvaluationDisabled; EvaluationOutOfScope])
  then Err ErrInvalidObservation
  else if status =s EvaluationOK then
    if match ob_Value observation with None => true | Some v => negb (is_finite v) end
       || (ob_EvidenceID observation =s "") || (256 <? len (ob_EvidenceID observation))
       || IsZero (ob_SourceAt observation)
    then Err ErrInvalidObservation
    else if After (ob_SourceAt observation) (Add (ob_ObservedAt observation) MaximumAgentClockSkew)
            || (ob_Cadence observation <=? 0) || (MaximumAgentReportInterval <? ob_Cadence observation)
    then Err ErrInvalidObservation
    else Ok tt
  else match ob_Value observation with Some _ => Err ErrInvalidObservation | None => Ok tt end.

Definition initialStep (input : StepInput) : StepResult :=
  let observation := si_Observation input in
  let rule := si_Rule input in
  let state := si_Previous input in
  let state := if st_Phase state =s "" then set_st_Phase AlertPhaseNormal state else state in
  let state := if negb (st_RuleRevision state =? 0) && negb (st_RuleRevision state =? er_Revision rule)
               then resetConfirmation state else state in
  let state := state |> set_st_RuleID (ar_ID rule) |> set_st_NodeID (nd_ID (si_Node input))
    |> set_st_RuleRevision (er_Revision rule)
    |> set_st_DeviceID (si_DeviceID input) |> set_st_DeviceName (si_DeviceName input) in
  let state := set_st_Version (wrap64 (st_Version state + 1)) state
    |> set_st_Status (ob_Status observation) |> set_st_Reason (ob_Reason observation)
    |> set_st_LastEvaluatedAt (Some (ob_ObservedAt observation))
    |> set_st_UpdatedAt (ob_ObservedAt observation)
    |> set_st_NextDueAt (Add (ob_ObservedAt observation) EvaluationInterval) in
  let state :=
    if si_IncidentChecked input then
      let cleared := state |> set_st_ActiveEventID "" |> set_st_ActiveEventStatus "" in
      match si_Incident input with
      | Some incident =>
          if (ev_Status incident =s AlertStatusTriggered) || (ev_Status incident =s AlertStatusAcknowledged)
          then cleared |> set_st_ActiveEventID (ev_ID incident) |> set_st_ActiveEventStatus (ev_Status incident)
          else cleared
      | None => cleared
      end
    else state in
  mkStepResult state [].

(** A wall clock that went back since the previous evaluation. *)
Definition clockRollback (input : StepInput) : bool :=
  match st_LastEvaluatedAt (si_Previous input) with
  | Some last => Before (ob_ObservedAt (si_Observation input)) last
  | None => false
  end.

Definition stepObservation (input : StepInput) (r : StepResult) : AlertEvaluationObservation * StepResult :=
  let observation := si_Observation input in
  let rule := si_Rule input in
  let observation :=
    if negb (ar_Enabled rule) || match er_DeletedAt rule with Some _ => true | None => false end then
      observation |> set_ob_Status EvaluationDisabled |> set_ob_Reason "rule_disabled" |> set_ob_Value None
    else observation in
  if clockRollback input then
    let state := resetConfirmation (sr_State r) in
    (observation |> set_ob_Status EvaluationError |> set_ob_Reason "clock_rollback" |> set_ob_Value None,
     set_sr_State (set_st_Health (set_hl_ElapsedMS 0 (st_Health state)) state) r)
  else (observation, r).

(** The rest of Step once the effective observation is known. *)
Definition dispatch (sha1_uuid : string -> string) (fresh : option string) (input : StepInput)
    (observation : AlertEvaluationObservation) (r : StepResult) : result EvalError StepResult :=
  if (ob_Status observation =s EvaluationOutOfScope)
     && (ob_Reason observation =s AcceleratorDeviceUnavailable) && (si_DeviceID input <>s "")
  then unavailableDevice input r
  else if (ob_Status observation =s EvaluationDisabled) || (ob_Status observation =s EvaluationOutOfScope) then
    let state := resetConfirmation (sr_State r |> set_st_Status (ob_Status observation)
                                               |> set_st_Reason (ob_Reason observation)) in
    Ok (set_sr_State (set_st_Health (set_hl_Suspended true (st_Health state)) state) r)
  else if ob_Status observation <>s EvaluationOK then
    unhealthyStep sha1_uuid fresh (si_Rule input) r observation
  else if negb (newEvidence (si_Previous input) observation) then
    if hl_EpochID (st_Health (sr_State r)) <>s "" then
      unhealthyStep sha1_uuid fresh (si_Rule input) r
        (observation |> set_ob_Status EvaluationNoData |> set_ob_Reason "no_new_evidence" |> set_ob_Value None)
    else Ok (set_sr_State (set_st_Reason "no_new_evidence" (sr_State r)) r)
  else
    let '(elapsed, continuous) := evidenceElapsed (si_Previous input) observation in
    let r := if continuous then r else set_sr_State (resetConfirmation (sr_State r)) r in
    let r := finishHealth sha1_uuid r observation in
    let r := set_sr_State (applyEvidence (sr_State r) observation) r in
    match ob_Value observation with
    | None => Err NilDereference
    | Some value => advanceThreshold fresh input observation value elapsed r
    end.

Definition Step (sha1_uuid : string -> string) (fresh : option string) (input : StepInput)
  : result EvalError StepResult :=
  let* _ := validateObservation input in
  let '(observation, r) := stepObservation input (initialStep input) in
  dispatch sha1_uuid fresh input observation r.
