(* ===== verification/AlertInvariant.v ===== *)
(** * Correctness of the alert state machine

    Properties of [AlertEngine.Step], per step and along every sequence of
    steps from the blank state: the confirmation timers stay in range and never
    run ahead of the wall clock, so an incident opens or closes only after its
    configured confirmation time; incidents are opened only when none is active
    and closed under the identifier they were opened with; each kind of health
    problem is notified at most once per epoch. *)

From S2P Require Import Prelude GoFloat GoText AlertModel AlertPolicy AlertEngine.

(** ** What each part of a step does to the confirmation fields *)

(** The confirmation fields after a reset, with the rest of the incident and
    evidence bookkeeping unchanged from [s]. *)
Record reset_from (s s' : AlertEvaluationState) : Prop := {
  rf_phase : st_Phase s' = if st_ActiveEventID s' =s "" then AlertPhaseNormal else AlertPhaseFiring;
  rf_trigger : st_TriggerElapsedMS s' = 0;
  rf_recovery : st_RecoveryElapsedMS s' = 0;
  rf_pending : st_PendingSince s' = None;
  rf_recovering : st_RecoverySince s' = None;
  rf_evaluated : st_LastEvaluatedAt s' = st_LastEvaluatedAt s;
  rf_observed : st_LastEvidenceObservedAt s' = st_LastEvidenceObservedAt s }.

Lemma resetConfirmation_reset s : reset_from s (resetConfirmation s).
Proof. unfold resetConfirmation. go_case; constructor; cbn in *; try done; by rewrite Heqb. Qed.

Lemma reset_from_health s s' h : reset_from s s' -> reset_from s (set_st_Health h s').
Proof. intros []. by constructor. Qed.

Lemma resetConfirmation_active s : st_ActiveEventID (resetConfirmation s) = st_ActiveEventID s.
Proof. unfold resetConfirmation. by go_case. Qed.

Lemma resetConfirmation_health s : st_Health (resetConfirmation s) = st_Health s.
Proof. unfold resetConfirmation. by go_case. Qed.

Definition health_bounded (h : AlertEvaluationHealth) : Prop := 0 <= hl_ElapsedMS h <= MaximumDelayMS.

(** A timer that adds the milliseconds of a nonnegative duration, with the cap,
    never overflows and stays in range. *)
Lemma timer_add x d : 0 <= x <= MaximumDelayMS -> 0 <= d <= int64_max ->
  wrap64 (x + Milliseconds d) = x + Milliseconds d /\
  0 <= Z.min (wrap64 (x + Milliseconds d)) MaximumDelayMS <= MaximumDelayMS.
Proof.
  intros Hx Hd. pose proof (milliseconds_nonneg d ltac:(lia)).
  assert (Milliseconds d <= 2 ^ 53) by (apply milliseconds_bound; unfold Millisecond, int64_max in *; lia).
  rewrite wrap64_id; [lia|]. unfold in_int64, int64_min, int64_max, MaximumDelayMS, MaximumDelaySeconds in *. lia.
Qed.

Lemma creditHealthDelay_spec s ob : health_bounded (st_Health s) ->
  let s' := creditHealthDelay s ob in
  health_bounded (st_Health s') /\
  hl_EpochID (st_Health s') = hl_EpochID (st_Health s) /\
  hl_NotifiedMask (st_Health s') = hl_NotifiedMask (st_Health s) /\
  s' = set_st_Health (st_Health s') s.
Proof.
  intros Hb. unfold creditHealthDelay, health_bounded in *.
  assert (0 <= MaximumDelayMS) by (unfold MaximumDelayMS, MaximumDelaySeconds; lia).
  destruct (_ || _); [cbn; split_and!; (done || lia)|].
  destruct (hl_LastObservedAt _); [|cbn; split_and!; (done || lia)].
  destruct (_ =s _); [|cbn; split_and!; (done || lia)].
  destruct (_ && _) eqn:E; [|cbn; split_and!; (done || lia)]. go_bool.
  pose proof (timer_add (hl_ElapsedMS (st_Health s)) (Sub (ob_ObservedAt ob) z) Hb) as [_ ?].
  { split; [lia|]. pose proof (sat64_range (ob_ObservedAt ob - z)). unfold Sub, in_int64 in *. lia. }
  cbn. split_and!; (done || lia).
Qed.

Lemma creditHealthDelay_frame s ob :
  creditHealthDelay s ob = set_st_Health (st_Health (creditHealthDelay s ob)) s.
Proof. reflexivity. Qed.

(** Opening an epoch only touches the health record. *)
Lemma open_epoch_spec fresh ob (s s' : AlertEvaluationState) :
  (if hl_EpochID (st_Health s) =s "" then
     match fresh with
     | None => Err ErrUnavailable
     | Some id => Ok (set_st_Health
         (mkAlertEvaluationHealth id "" (Some (ob_ObservedAt ob)) None None 0 0 0 false) s)
     end
   else Ok s) = Ok s' ->
  s' = set_st_Health (st_Health s') s /\
  (health_bounded (st_Health s) -> health_bounded (st_Health s')).
Proof.
  destruct (_ =s "").
  - destruct fresh; [|done]. intros [= <-]. split; [done|]. intros _.
    unfold health_bounded, MaximumDelayMS, MaximumDelaySeconds. cbn. lia.
  - intros [= <-]. split; [by destruct s|done].
Qed.

Lemma unhealthyStep_spec sha fresh rule r ob r' : unhealthyStep sha fresh rule r ob = Ok r' ->
  reset_from (sr_State r) (sr_State r') /\
  st_ActiveEventID (sr_State r') = st_ActiveEventID (sr_State r) /\
  (health_bounded (st_Health (sr_State r)) -> health_bounded (st_Health (sr_State r'))) /\
  (forall a, a ∈ sr_Actions r' -> a ∈ sr_Actions r \/ ac_Kind a = ActionHealth /\ ac_Event a = None).
Proof.
  unfold unhealthyStep. intros (s1 & Hs & H)%bind_ok.
  pose proof (resetConfirmation_reset (sr_State r)) as [].
  pose proof (resetConfirmation_active (sr_State r)) as Ha.
  pose proof (resetConfirmation_health (sr_State r)) as Hh.
  destruct r as [s acts]. cbn [sr_State sr_Actions] in *.
  generalize dependent (resetConfirmation s). intros s0 **.
  apply open_epoch_spec in Hs as [E1 Hb1].
  destruct (healthPolicy rule (ob_Status ob)) as [[mask policy] delay].
  pose proof (creditHealthDelay_frame s1 ob) as E2.
  assert (health_bounded (st_Health s1) -> health_bounded (st_Health (creditHealthDelay s1 ob))) as Hb2
    by (intros Hb; by apply creditHealthDelay_spec).
  generalize dependent (creditHealthDelay s1 ob). intros c H E2 Hb2.
  generalize dependent (st_Health c). intros hc **. generalize dependent (st_Health s1). intros h1 **.
  subst c s1. set (notify := _ && _ && _) in H. set (first := _ =? 0) in H. clearbody notify first.
  destruct (first || notify), notify; injection H as <-; cbn in *;
    (split; [constructor; cbn; congruence|split; [congruence|split; [rewrite <- Hh; tauto|]]]);
    intros a Ha'; first [apply elem_of_app in Ha' as [Ha'|Ha'%list_elem_of_singleton];
      [by left|by right; subst] | by left].
Qed.

(** ** The invariant *)

(** [since] was set [elapsed_ms] of confirmed time ago at most: the timer never
    runs ahead of the wall clock between [since] and the last evidence. *)
Definition backed (since observed : option Time) (elapsed_ms : Z) : Prop :=
  exists p o, since = Some p /\ observed = Some o /\ elapsed_ms * Millisecond <= o - p.

Record timers_ok (s : AlertEvaluationState) : Prop := {
  tm_trigger : 0 <= st_TriggerElapsedMS s <= MaximumDelayMS;
  tm_recovery : 0 <= st_RecoveryElapsedMS s <= MaximumDelayMS;
  tm_health : health_bounded (st_Health s);
  tm_pending : st_Phase s = AlertPhasePending ->
    backed (st_PendingSince s) (st_LastEvidenceObservedAt s) (st_TriggerElapsedMS s);
  tm_recovering : st_Phase s = AlertPhaseRecovering ->
    backed (st_RecoverySince s) (st_LastEvidenceObservedAt s) (st_RecoveryElapsedMS s) }.

(** A confirmation timer is running. *)
Definition confirming (s : AlertEvaluationState) : Prop :=
  st_Phase s = AlertPhasePending \/ st_Phase s = AlertPhaseRecovering.

(** While a timer runs, the last evidence was seen no later than the last
    evaluation (a clock that goes back stops the timers). *)
Definition evidence_before (s : AlertEvaluationState) : Prop :=
  confirming s ->
  forall o, st_LastEvidenceObservedAt s = Some o -> exists l, st_LastEvaluatedAt s = Some l /\ o <= l.

Lemma MaximumDelayMS_nonneg : 0 <= MaximumDelayMS.
Proof. unfold MaximumDelayMS, MaximumDelaySeconds. lia. Qed.
#[export] Hint Resolve MaximumDelayMS_nonneg : go.

Lemma reset_not_confirming s s' : reset_from s s' -> ~ confirming s'.
Proof. intros [Hp _ _ _ _ _ _] [H|H]; rewrite Hp in H; by destruct (_ =s _). Qed.

Lemma reset_timers s s' : reset_from s s' -> health_bounded (st_Health s') -> timers_ok s'.
Proof.
  intros [] Hh. pose proof MaximumDelayMS_nonneg. constructor; try lia; try done;
    rewrite rf_phase0; by destruct (_ =s _).
Qed.

(** Two states that agree on the confirmation fields. *)
Definition same_timers (s s' : AlertEvaluationState) : Prop :=
  st_Phase s' = st_Phase s /\ st_TriggerElapsedMS s' = st_TriggerElapsedMS s /\
  st_RecoveryElapsedMS s' = st_RecoveryElapsedMS s /\ st_PendingSince s' = st_PendingSince s /\
  st_RecoverySince s' = st_RecoverySince s /\
  st_LastEvidenceObservedAt s' = st_LastEvidenceObservedAt s.

Lemma same_timers_ok s s' : same_timers s s' -> health_bounded (st_Health s') -> timers_ok s -> timers_ok s'.
Proof. intros (E1 & E2 & E3 & E4 & E5 & E6) Hh []. constructor; rewrite ?E1, ?E2, ?E3, ?E4, ?E5, ?E6; done. Qed.

(** initialStep: the timers survive, or the rule changed and they are reset. *)
Lemma initialStep_spec input :
  let s := si_Previous input in
  let s0 := sr_State (initialStep input) in
  sr_Actions (initialStep input) = [] /\
  st_LastEvaluatedAt s0 = Some (ob_ObservedAt (si_Observation input)) /\
  st_LastEvidenceObservedAt s0 = st_LastEvidenceObservedAt s /\
  st_Health s0 = st_Health s /\
  (timers_ok s -> timers_ok s0) /\ (confirming s0 -> st_Phase s0 = st_Phase s) /\
  (si_IncidentChecked input = false -> st_ActiveEventID s0 = st_ActiveEventID s).
Proof.
  unfold initialStep. cbn [sr_State sr_Actions]. set (s := si_Previous input).
  set (s1 := if st_Phase s =s "" then set_st_Phase AlertPhaseNormal s else s).
  assert (st_LastEvidenceObservedAt s1 = st_LastEvidenceObservedAt s /\ st_Health s1 = st_Health s /\
          (timers_ok s -> timers_ok s1) /\ (confirming s1 -> st_Phase s1 = st_Phase s) /\
          st_ActiveEventID s1 = st_ActiveEventID s) as (O1 & H1 & T1 & C1 & A1).
  { unfold s1. destruct (_ =s ""); [|done]. split_and!; try done; [|by intros [|]]. intros []. by constructor. }
  clearbody s1.
  set (s2 := if negb (st_RuleRevision s1 =? 0) && _ then resetConfirmation s1 else s1).
  assert (st_LastEvidenceObservedAt s2 = st_LastEvidenceObservedAt s /\ st_Health s2 = st_Health s /\
          (timers_ok s -> timers_ok s2) /\ (confirming s2 -> st_Phase s2 = st_Phase s) /\
          st_ActiveEventID s2 = st_ActiveEventID s) as (O2 & H2 & T2 & C2 & A2).
  { unfold s2. destruct (_ && _); [|done].
    pose proof (resetConfirmation_reset s1) as Hr. rewrite resetConfirmation_active, resetConfirmation_health.
    split_and!; try congruence; [by rewrite (rf_observed _ _ Hr)| |by intros ?%(reset_not_confirming _ _ Hr)].
    intros Hs. eapply reset_timers; [done|]. rewrite resetConfirmation_health. by apply T1. }
  clearbody s2.
  destruct (si_IncidentChecked input); [destruct (si_Incident input) as [inc|]; [destruct (_ || _)|]|];
    cbn; (split_and!; [done|done|done|done| |done|done]); intros Hs; (eapply same_timers_ok; [|by cbn; rewrite H2; apply Hs|by apply T2]); done.
Qed.

(** ** The three ways a step can end *)

Definition health_actions (acts : list Action) : Prop :=
  Forall (fun a => ac_Kind a = ActionHealth /\ ac_Event a = None) acts.

(** The state handed to advanceThreshold. *)
Definition evidence_state (input : StepInput) (s0 : AlertEvaluationState) (continuous : bool)
    (h : AlertEvaluationHealth) : AlertEvaluationState :=
  applyEvidence (set_st_Health h (if continuous then s0 else resetConfirmation s0)) (si_Observation input).

(** The accelerator of a live rule is gone: its incident, acknowledged or not, is resolved. *)
Record device_lost (input : StepInput) (s0 : AlertEvaluationState) (r : StepResult) : Prop := {
  dl_status : ob_Status (si_Observation input) = EvaluationOutOfScope;
  dl_reason : ob_Reason (si_Observation input) = AcceleratorDeviceUnavailable;
  dl_device : si_DeviceID input <> "";
  dl_clock : clockRollback input = false;
  dl_rule : ar_Enabled (si_Rule input) = true /\ er_DeletedAt (si_Rule input) = None;
  dl_active : st_ActiveEventID s0 <> "";
  dl_closed : st_ActiveEventID (sr_State r) = "";
  dl_actions : exists e, sr_Actions r = [mkAction (st_ActiveEventStatus s0) ActionDeviceUnavailable true (Some e) None] /\
    ev_ID e = st_ActiveEventID s0 /\ ev_DeviceID e = si_DeviceID input /\ ev_Status e = AlertStatusResolved }.

Inductive outcome (fresh : option string) (input : StepInput) (s0 : AlertEvaluationState) (r : StepResult)
  : Prop :=
| OutcomeReset s1 :
    reset_from s1 (sr_State r) ->
    st_LastEvaluatedAt s1 = Some (ob_ObservedAt (si_Observation input)) ->
    st_LastEvidenceObservedAt s1 = st_LastEvidenceObservedAt (si_Previous input) ->
    (health_bounded (st_Health (si_Previous input)) -> health_bounded (st_Health (sr_State r))) ->
    health_actions (sr_Actions r) /\ st_ActiveEventID (sr_State r) = st_ActiveEventID s0 \/ device_lost input s0 r ->
    outcome fresh input s0 r
| OutcomeStale :
    clockRollback input = false -> sr_Actions r = [] ->
    sr_State r = set_st_Reason "no_new_evidence" s0 ->
    outcome fresh input s0 r
| OutcomeEvidence v elapsed continuous h acts :
    clockRollback input = false ->
    ob_Status (si_Observation input) = EvaluationOK ->
    ob_Value (si_Observation input) = Some v -> is_finite v = true ->
    newEvidence (si_Previous input) (si_Observation input) = true ->
    evidenceElapsed (si_Previous input) (si_Observation input) = (elapsed, continuous) ->
    (h = zero_health \/ h = st_Health s0) -> health_actions acts ->
    advanceThreshold fresh input (si_Observation input) v elapsed
      (mkStepResult (evidence_state input s0 continuous h) acts) = Ok r ->
    outcome fresh input s0 r.

(** The effective observation is the one given: the rule is live and the clock did not go
    back. *)
Definition effective (input : StepInput) (ob : AlertEvaluationObservation) : Prop :=
  ob = si_Observation input /\ clockRollback input = false /\
  ar_Enabled (si_Rule input) = true /\ er_DeletedAt (si_Rule input) = None.

Lemma unavailableDevice_outcome fresh input s0 ob r : unavailableDevice input (mkStepResult s0 []) = Ok r ->
  effective input ob -> ob_Status ob = EvaluationOutOfScope -> ob_Reason ob = AcceleratorDeviceUnavailable -> si_DeviceID input <> "" ->
  st_LastEvaluatedAt s0 = Some (ob_ObservedAt (si_Observation input)) ->
  st_LastEvidenceObservedAt s0 = st_LastEvidenceObservedAt (si_Previous input) ->
  (health_bounded (st_Health (si_Previous input)) -> health_bounded (st_Health s0)) ->
  outcome fresh input s0 r.
Proof.
  unfold unavailableDevice. cbn [sr_State]. intros H (-> & Hroll & Hlive) Hst Hre Hdev He Ho Hh.
  set (s1 := set_st_Health _ _) in H.
  assert (st_LastEvaluatedAt s1 = st_LastEvaluatedAt s0 /\ st_LastEvidenceObservedAt s1 = st_LastEvidenceObservedAt s0
    /\ (health_bounded (st_Health s0) -> health_bounded (st_Health s1)) /\ st_ActiveEventID s1 = st_ActiveEventID s0
    /\ st_ActiveEventStatus s1 = st_ActiveEventStatus s0)
    as (E1 & E2 & E3 & E4 & E5) by done.
  clearbody s1. rewrite E4, E5 in H. destruct (st_ActiveEventID s0 <>s "") eqn:Hact.
  - destruct (si_Incident input) as [inc|]; [|done]. destruct (_ || _) eqn:Hid; [done|]. injection H as <-.
    go_bool. destruct Hid as [Hid Hinc].
    set (s2 := set_st_ActiveEventStatus "" _).
    pose proof (resetConfirmation_reset s2) as Hr.
    apply (OutcomeReset _ _ _ _ s2); try done; cbn [sr_State sr_Actions set_sr_State append_action].
    + by etransitivity.
    + by etransitivity.
    + intros Hb. rewrite resetConfirmation_health. auto.
    + right. split; try done; cbn [sr_State sr_Actions set_sr_State append_action]; by eexists.
  - injection H as <-. pose proof (resetConfirmation_reset s1) as Hr.
    apply (OutcomeReset _ _ _ _ s1); try done; try congruence; cbn [sr_State sr_Actions set_sr_State].
    + intros Hb. rewrite resetConfirmation_health. auto.
    + left. split; [constructor|]. by rewrite resetConfirmation_active.
Qed.

Lemma unhealthy_outcome sha fresh fresh' rule input s0 ob r :
  unhealthyStep sha fresh rule (mkStepResult s0 []) ob = Ok r ->
  st_LastEvaluatedAt s0 = Some (ob_ObservedAt (si_Observation input)) ->
  st_LastEvidenceObservedAt s0 = st_LastEvidenceObservedAt (si_Previous input) ->
  (health_bounded (st_Health (si_Previous input)) -> health_bounded (st_Health s0)) ->
  outcome fresh' input s0 r.
Proof.
  intros (Hr & Ha & Hb & Hk)%unhealthyStep_spec He Ho Hh.
  apply (OutcomeReset _ _ _ _ s0); auto. left. split; [|done].
  apply Forall_forall. intros a Hin. by destruct (Hk a Hin) as [?%elem_of_nil|].
Qed.

Lemma finishHealth_spec sha s ob :
  exists h acts, finishHealth sha (mkStepResult s []) ob = mkStepResult (set_st_Health h s) acts /\
    (h = zero_health \/ h = st_Health s) /\ health_actions acts.
Proof.
  unfold finishHealth. cbn [sr_State]. destruct (_ =s "").
  - exists (st_Health s), []. split_and!; [by destruct s|by right|constructor].
  - eexists zero_health, _. split_and!; [reflexivity|by left|by repeat constructor].
Qed.

Lemma validate_ok_value input : validateObservation input = Ok tt ->
  ob_Status (si_Observation input) = EvaluationOK ->
  exists v, ob_Value (si_Observation input) = Some v /\ is_finite v = true.
Proof.
  unfold validateObservation. intros H Hs. rewrite Hs in H.
  repeat (match type of H with (if ?b then Err _ else _) = _ => destruct b eqn:?; [done|] end).
  rewrite String.eqb_refl in H. destruct (_ || _ || _ || _) eqn:E in H; [done|].
  go_bool. destruct (ob_Value _) as [v|]; [|by destruct E as [[[? ?] ?] ?]].
  exists v. split; [done|]. destruct E as [[[E _] _] _]. by apply negb_false_iff in E.
Qed.

(** The facts about the state a step starts its work from. *)
Record started (input : StepInput) (s0 : AlertEvaluationState) : Prop := {
  sd_evaluated : st_LastEvaluatedAt s0 = Some (ob_ObservedAt (si_Observation input));
  sd_observed : st_LastEvidenceObservedAt s0 = st_LastEvidenceObservedAt (si_Previous input);
  sd_health : health_bounded (st_Health (si_Previous input)) -> health_bounded (st_Health s0) }.

Lemma suspend_outcome fresh input s0 s1 s2 : started input s0 ->
  reset_from s1 s2 -> st_LastEvaluatedAt s1 = st_LastEvaluatedAt s0 ->
  st_LastEvidenceObservedAt s1 = st_LastEvidenceObservedAt s0 ->
  st_Health s2 = st_Health s0 -> st_ActiveEventID s2 = st_ActiveEventID s0 ->
  outcome fresh input s0 (mkStepResult (set_st_Health (set_hl_Suspended true (st_Health s2)) s2) []).
Proof.
  intros [He Ho Hh] Hr E1 E2 E3 E4.
  apply (OutcomeReset _ _ _ _ s1); cbn [sr_State sr_Actions].
  - by apply reset_from_health.
  - congruence.
  - congruence.
  - unfold health_bounded in *. cbn. by rewrite E3.
  - left. split; [constructor|done].
Qed.

Lemma suspended_state_outcome fresh input s0 status reason r : started input s0 ->
  Ok (E := EvalError) (set_sr_State
    (set_st_Health (set_hl_Suspended true (st_Health (resetConfirmation (s0 |> set_st_Status status |> set_st_Reason reason))))
       (resetConfirmation (s0 |> set_st_Status status |> set_st_Reason reason))) (mkStepResult s0 [])) = Ok r ->
  outcome fresh input s0 r.
Proof.
  intros Hs H. set (s1 := set_st_Reason _ _) in H.
  assert (st_LastEvaluatedAt s1 = st_LastEvaluatedAt s0) as E1 by reflexivity.
  assert (st_LastEvidenceObservedAt s1 = st_LastEvidenceObservedAt s0) as E2 by reflexivity.
  assert (st_Health s1 = st_Health s0) as E3 by reflexivity.
  assert (st_ActiveEventID s1 = st_ActiveEventID s0) as E4 by reflexivity.
  clearbody s1. pose proof (resetConfirmation_reset s1) as Hr. pose proof (resetConfirmation_health s1) as Hh.
  pose proof (resetConfirmation_active s1) as Ha. generalize dependent (resetConfirmation s1). intros s2 H Hr Hh Ha.
  injection H as <-. apply (suspend_outcome _ _ _ s1); congruence.
Qed.

(** Closing the health epoch and recording the evidence, before the thresholds. *)
Lemma evidence_prelude sha ob s0 (continuous : bool) :
  let r1 := if continuous then mkStepResult s0 [] else set_sr_State (resetConfirmation s0) (mkStepResult s0 []) in
  let r2 := finishHealth sha r1 ob in
  exists h acts, set_sr_State (applyEvidence (sr_State r2) ob) r2 =
    mkStepResult (applyEvidence (set_st_Health h (if continuous then s0 else resetConfirmation s0)) ob) acts /\
    (h = zero_health \/ h = st_Health s0) /\ health_actions acts.
Proof.
  intros r1 r2.
  assert (r1 = mkStepResult (if continuous then s0 else resetConfirmation s0) []) as E1 by by destruct continuous.
  pose proof (resetConfirmation_health s0) as Hh.
  unfold r2. rewrite E1. clear r1 r2 E1. generalize dependent (resetConfirmation s0). intros s1 Hh.
  assert (st_Health (if continuous then s0 else s1) = st_Health s0) as E by by destruct continuous.
  generalize dependent (if continuous then s0 else s1). intros s2 E.
  destruct (finishHealth_spec sha s2 ob) as (h & acts & -> & Hh2 & Hacts).
  exists h, acts. split_and!; [done|by rewrite <- E|done].
Qed.

Lemma dispatch_outcome sha fresh input ob s0 r :
  dispatch sha fresh input ob (mkStepResult s0 []) = Ok r -> started input s0 ->
  (ob_Status ob = EvaluationOK \/ ob_Status ob = EvaluationOutOfScope -> effective input ob) ->
  (ob_Status (si_Observation input) = EvaluationOK ->
     exists v, ob_Value (si_Observation input) = Some v /\ is_finite v = true) ->
  outcome fresh input s0 r.
Proof.
  unfold dispatch. intros H Hs Hob Hval. pose proof Hs as [He Ho Hh].
  destruct (_ && _) eqn:Hlost in H.
  { go_bool. destruct Hlost as [[Hst Hre] Hdev]. eapply unavailableDevice_outcome; eauto. }
  destruct (_ || _) in H; [by eapply suspended_state_outcome|].
  destruct (ob_Status ob <>s EvaluationOK) eqn:Hst; [by eapply unhealthy_outcome|].
  apply negb_false_iff, String.eqb_eq in Hst. destruct (Hob (or_introl Hst)) as (-> & Hroll & _).
  destruct (Hval Hst) as (v & Hv & Hfin).
  destruct (newEvidence _ _) eqn:Hnew; cbn [negb] in H.
  - destruct (evidenceElapsed _ _) as [elapsed continuous] eqn:Hel. rewrite Hv in H. cbn [sr_State] in H.
    destruct (evidence_prelude sha (si_Observation input) s0 continuous) as (h & acts & E & Hh2 & Hacts).
    cbn [sr_State] in E. rewrite E in H.
    by apply (OutcomeEvidence _ _ _ _ v elapsed continuous h acts).
  - destruct (_ <>s "") in H; [by eapply unhealthy_outcome|]. injection H as <-. 
    destruct (clockRollback input) eqn:?; [done|]. by apply OutcomeStale.
Qed.

Lemma initial_started input : started input (sr_State (initialStep input)).
Proof.
  destruct (initialStep_spec input) as (_ & He & Ho & Hh & _ & _ & _).
  constructor; [done..|by rewrite Hh].
Qed.

Lemma Step_outcome sha fresh input r : Step sha fresh input = Ok r ->
  exists s0, (clockRollback input = false -> s0 = sr_State (initialStep input)) /\
    st_ActiveEventID s0 = st_ActiveEventID (sr_State (initialStep input)) /\ outcome fresh input s0 r.
Proof.
  unfold Step. intros ([] & Hv & H)%bind_ok.
  pose proof (initial_started input) as Hs.
  assert (initialStep input = mkStepResult (sr_State (initialStep input)) []) as Hinit.
  { destruct (initialStep_spec input) as (Ia & _). destruct (initialStep input). cbn in *. congruence. }
  generalize dependent (sr_State (initialStep input)). intros s0 Hs Hinit. rewrite Hinit in H. clear Hinit.
  unfold stepObservation in H. set (ob1 := if negb (ar_Enabled _) || _ then _ else _) in H.
  assert (ob_Status ob1 = EvaluationOK \/ ob_Status ob1 = EvaluationOutOfScope -> ob1 = si_Observation input /\
    ar_Enabled (si_Rule input) = true /\ er_DeletedAt (si_Rule input) = None) as Hob1.
  { unfold ob1. destruct (ar_Enabled _); [|by intros [|]]. destruct (er_DeletedAt _); [by intros [|]|done]. }
  clearbody ob1. cbn [sr_State] in H. pose proof (validate_ok_value input Hv) as Hval.
  destruct (clockRollback input) eqn:Hroll.
  - exists (set_st_Health (set_hl_ElapsedMS 0 (st_Health (resetConfirmation s0))) (resetConfirmation s0)).
    split; [done|]. split; [apply resetConfirmation_active|]. eapply dispatch_outcome; [exact H| |by intros [|]|done].
    pose proof (resetConfirmation_reset s0) as Hr. pose proof (resetConfirmation_active s0) as Ha.
    generalize dependent (resetConfirmation s0). intros s1 H Hr Ha. destruct Hs, Hr.
    constructor; cbn; try congruence.
    intros _. unfold health_bounded. cbn. auto with go.
  - exists s0. split_and!; [done..|]. eapply dispatch_outcome; [exact H|done| |done]. intros Hst%Hob1. unfold effective. naive_solver.
Qed.

(** ** Evidence advances the timers by at most the wall clock *)

(** [s] holds new evidence seen at [now]; crediting [elapsed] to the running
    timer keeps it behind the wall clock. *)
Record advanced (s : AlertEvaluationState) (now : Time) (elapsed : Duration) : Prop := {
  ad_trigger : 0 <= st_TriggerElapsedMS s <= MaximumDelayMS;
  ad_recovery : 0 <= st_RecoveryElapsedMS s <= MaximumDelayMS;
  ad_health : health_bounded (st_Health s);
  ad_elapsed : 0 <= elapsed <= int64_max;
  ad_observed : st_LastEvidenceObservedAt s = Some now;
  ad_pending : st_Phase s = AlertPhasePending ->
    backed (st_PendingSince s) (Some now) (st_TriggerElapsedMS s + Milliseconds elapsed);
  ad_recovering : st_Phase s = AlertPhaseRecovering ->
    backed (st_RecoverySince s) (Some now) (st_RecoveryElapsedMS s + Milliseconds elapsed) }.

Lemma backed_advance since o now ms elapsed : backed since (Some o) ms ->
  0 <= elapsed <= now - o -> backed since (Some now) (ms + Milliseconds elapsed).
Proof.
  intros (p & o' & -> & [= <-] & H) He. exists p, now. split_and!; [done..|].
  pose proof (milliseconds_le elapsed ltac:(lia)). unfold Millisecond in *. lia.
Qed.

Lemma evidenceElapsed_spec prev ob elapsed continuous :
  evidenceElapsed prev ob = (elapsed, continuous) -> 0 <= elapsed <= int64_max /\
  (forall o, st_LastEvidenceObservedAt prev = Some o -> o <= ob_ObservedAt ob -> elapsed <= ob_ObservedAt ob - o).
Proof.
  unfold evidenceElapsed. intros H. unfold int64_max.
  destruct (st_LastEvidenceAt prev) as [e|]; [|simplify_eq; split; intros; lia].
  destruct (st_LastEvidenceObservedAt prev) as [o|]; [|simplify_eq; split; intros; [lia|done]].
  destruct (_ <>s _); [simplify_eq; split; intros; simplify_eq; lia|].
  destruct (match st_LastEvaluatedAt prev with Some _ => _ | None => _ end); [simplify_eq; split; intros; simplify_eq; lia|].
  destruct (_ || _); [simplify_eq; split; intros; simplify_eq; lia|]. injection H as <- <-.
  pose proof (sat64_range (ob_SourceAt ob - e)). pose proof (sat64_range (ob_ObservedAt ob - o)).
  unfold in_int64, int64_max, Sub in *. split; [lia|]. intros ? [= <-] Hle.
  pose proof (Sub_le (ob_ObservedAt ob) o Hle). unfold Sub in *. lia.
Qed.

Lemma no_rollback_le input l : clockRollback input = false ->
  st_LastEvaluatedAt (si_Previous input) = Some l -> l <= ob_ObservedAt (si_Observation input).
Proof. unfold clockRollback, Before. intros H E. rewrite E in H. go_bool. lia. Qed.

Lemma evidence_advanced input s0 elapsed continuous h :
  timers_ok s0 -> st_LastEvidenceObservedAt s0 = st_LastEvidenceObservedAt (si_Previous input) ->
  (confirming s0 -> st_Phase s0 = st_Phase (si_Previous input)) ->
  evidence_before (si_Previous input) -> clockRollback input = false ->
  (h = zero_health \/ h = st_Health s0) ->
  evidenceElapsed (si_Previous input) (si_Observation input) = (elapsed, continuous) ->
  advanced (evidence_state input s0 continuous h) (ob_ObservedAt (si_Observation input)) elapsed.
Proof.
  intros Ht Ho Hph Hb Hroll Hh Hel. pose proof (evidenceElapsed_spec _ _ _ _ Hel) as [Hrange Hle].
  assert (health_bounded h) as Hhb.
  { destruct Hh as [->| ->]; [|apply Ht]. unfold health_bounded. cbn. auto with go. }
  unfold evidence_state. set (s1 := if continuous then s0 else _).
  assert (timers_ok s1) as Ht1.
  { unfold s1. destruct continuous; [done|]. eapply reset_timers; [apply resetConfirmation_reset|].
    rewrite resetConfirmation_health. apply Ht. }
  assert (st_LastEvidenceObservedAt s1 = st_LastEvidenceObservedAt (si_Previous input)) as Ho1.
  { unfold s1. destruct continuous; [done|]. by rewrite (rf_observed _ _ (resetConfirmation_reset s0)). }
  assert (confirming s1 -> confirming (si_Previous input)) as Hcf.
  { unfold s1. destruct continuous.
    - intros Hc. pose proof (Hph Hc) as E. unfold confirming in *. by rewrite <- E.
    - by intros ?%(reset_not_confirming _ _ (resetConfirmation_reset s0)). }
  clearbody s1. destruct Ht1. rewrite Ho1 in *.
  constructor; cbn; try done; intros Hp.
  - specialize (tm_pending0 Hp). pose proof tm_pending0 as (p & o & _ & Eo & _).
    destruct (Hb (Hcf ltac:(unfold confirming; auto)) o Eo) as (l & El & Hol). pose proof (no_rollback_le _ _ Hroll El).
    rewrite Eo in tm_pending0. eapply backed_advance; [done|]. specialize (Hle o Eo). lia.
  - specialize (tm_recovering0 Hp). pose proof tm_recovering0 as (p & o & _ & Eo & _).
    destruct (Hb (Hcf ltac:(unfold confirming; auto)) o Eo) as (l & El & Hol). pose proof (no_rollback_le _ _ Hroll El).
    rewrite Eo in tm_recovering0. eapply backed_advance; [done|]. specialize (Hle o Eo). lia.
Qed.

(** ** The incident actions of a step *)

Inductive incident_step (fresh : option string) (input : StepInput) (v : float64) (s : AlertEvaluationState)
    (acts : list Action) (r : StepResult) : Prop :=
| IncidentNone :
    sr_Actions r = acts \/ sr_Actions r = map (name_device input) acts ->
    st_ActiveEventID (sr_State r) = st_ActiveEventID s -> incident_step fresh input v s acts r
| IncidentOpen id e p :
    st_ActiveEventID s = "" -> fresh = Some id -> Triggered v (si_Rule input) = true ->
    sr_Actions r = acts ++ [mkAction "" ActionThresholdTrigger true (Some e) None] ->
    ev_ID e = id -> ev_Status e = AlertStatusTriggered -> ev_Value e = v ->
    st_ActiveEventID (sr_State r) = id -> st_PendingSince (sr_State r) = Some p ->
    wrap64 (ar_Duration (si_Rule input) * 1000) * Millisecond <= ob_ObservedAt (si_Observation input) - p ->
    incident_step fresh input v s acts r
| IncidentClose e p :
    st_ActiveEventID s <> "" -> st_ActiveEventStatus s <> AlertStatusAcknowledged ->
    Recovered v (si_Rule input) = true ->
    sr_Actions r = map (name_device input) acts ++
      [name_device input (mkAction "" ActionThresholdRecovery true (Some e) None)] ->
    ev_ID e = st_ActiveEventID s -> ev_Status e = AlertStatusResolved ->
    st_ActiveEventID (sr_State r) = "" ->
    (st_RecoverySince s = Some p \/ p = ob_ObservedAt (si_Observation input)) ->
    wrap64 (er_RecoveryDuration (si_Rule input) * 1000) * Millisecond
      <= ob_ObservedAt (si_Observation input) - p ->
    incident_step fresh input v s acts r.


(** What a threshold step keeps: valid timers and the evidence bookkeeping. *)
Definition threshold_frame (s : AlertEvaluationState) (s' : AlertEvaluationState) : Prop :=
  timers_ok s' /\ st_LastEvaluatedAt s' = st_LastEvaluatedAt s /\
  st_LastEvidenceObservedAt s' = st_LastEvidenceObservedAt s.

Lemma reset_frame s s1 : health_bounded (st_Health s1) -> st_LastEvaluatedAt s1 = st_LastEvaluatedAt s ->
  st_LastEvidenceObservedAt s1 = st_LastEvidenceObservedAt s -> threshold_frame s (resetConfirmation s1).
Proof.
  intros Hh E1 E2. pose proof (resetConfirmation_reset s1) as Hr. unfold threshold_frame.
  rewrite (rf_evaluated _ _ Hr), (rf_observed _ _ Hr). split_and!; [|done..].
  eapply reset_timers; [done|]. by rewrite resetConfirmation_health.
Qed.

Lemma backed_now now : backed (Some now) (Some now) 0.
Proof. exists now, now. split_and!; [done..|]. unfold Millisecond. lia. Qed.

Lemma backed_le since o x y : backed since o x -> y <= x -> backed since o y.
Proof. intros (p & q & -> & -> & H) Hy. exists p, q. split_and!; [done..|]. unfold Millisecond in *. lia. Qed.

(** The recovery timer started at [now], or credited with [elapsed]. *)
Definition start_recovery (s : AlertEvaluationState) (now : Time) (elapsed : Duration) : AlertEvaluationState :=
  if st_Phase s <>s AlertPhaseRecovering then
    s |> set_st_Phase AlertPhaseRecovering |> set_st_RecoverySince (Some now) |> set_st_RecoveryElapsedMS 0
  else set_st_RecoveryElapsedMS
    (Z.min (wrap64 (st_RecoveryElapsedMS s + Milliseconds elapsed)) MaximumDelayMS) s.

Lemma start_recovery_spec s now elapsed : advanced s now elapsed ->
  let s' := start_recovery s now elapsed in
  threshold_frame s s' /\ st_Phase s' = AlertPhaseRecovering /\
  (st_RecoverySince s' = st_RecoverySince s \/ st_RecoverySince s' = Some now) /\
  st_ActiveEventID s' = st_ActiveEventID s /\ st_ActiveEventStatus s' = st_ActiveEventStatus s.
Proof.
  intros []. pose proof MaximumDelayMS_nonneg. unfold start_recovery, threshold_frame.
  destruct (_ <>s _) eqn:E; go_bool.
  - cbn. split_and!; try done; [|by right]. constructor; cbn; try done; try lia.
    intros _. rewrite ad_observed0. apply backed_now.
  - destruct (timer_add (st_RecoveryElapsedMS s) elapsed ad_recovery0 ad_elapsed0) as [Hw Hr].
    cbn. split_and!; try done; [|by left]. constructor; cbn; try done.
    + rewrite E. done.
    + intros _. rewrite ad_observed0. eapply backed_le; [by apply ad_recovering0|]. rewrite Hw. lia.
Qed.

Definition start_pending (s : AlertEvaluationState) (now : Time) (elapsed : Duration) : AlertEvaluationState :=
  if st_Phase s <>s AlertPhasePending then
    s |> set_st_Phase AlertPhasePending |> set_st_PendingSince (Some now) |> set_st_TriggerElapsedMS 0
  else set_st_TriggerElapsedMS
    (Z.min (wrap64 (st_TriggerElapsedMS s + Milliseconds elapsed)) MaximumDelayMS) s.

Lemma start_pending_spec s now elapsed : advanced s now elapsed ->
  let s' := start_pending s now elapsed in
  threshold_frame s s' /\ st_Phase s' = AlertPhasePending /\ st_ActiveEventID s' = st_ActiveEventID s.
Proof.
  intros []. pose proof MaximumDelayMS_nonneg. unfold start_pending, threshold_frame.
  destruct (_ <>s _) eqn:E; go_bool.
  - cbn. split_and!; try done. constructor; cbn; try done; try lia.
    intros _. rewrite ad_observed0. apply backed_now.
  - destruct (timer_add (st_TriggerElapsedMS s) elapsed ad_trigger0 ad_elapsed0) as [Hw Hr].
    cbn. split_and!; try done. constructor; cbn; try done.
    + intros _. rewrite ad_observed0. eapply backed_le; [by apply ad_pending0|]. rewrite Hw. lia.
    + rewrite E. done.
Qed.

(** advanceRecovery restarts, continues, or completes the recovery timer. *)
Lemma advanceRecovery_spec fresh input v elapsed s acts :
  let ob := si_Observation input in
  let r := advanceRecovery (si_Rule input) ob v elapsed (mkStepResult s acts) in
  advanced s (ob_ObservedAt ob) elapsed -> st_ActiveEventID s <> "" ->
  threshold_frame s (sr_State r) /\
  incident_step fresh input v s acts (mkStepResult (sr_State r) (map (name_device input) (sr_Actions r))).
Proof.
  intros ob r Had Hact. subst r. unfold advanceRecovery. cbn [sr_State].
  destruct (Recovered v (si_Rule input)) eqn:Hrec; cbn [negb]; cycle 1.
  { destruct Had. pose proof MaximumDelayMS_nonneg. cbn. split.
    - unfold threshold_frame. cbn. split_and!; try done.
    - by apply IncidentNone; [right|]. }
  fold (start_recovery s (ob_ObservedAt ob) elapsed).
  pose proof (start_recovery_spec _ _ _ Had) as (Hf & Hp & Hsince & Ha & Has).
  generalize dependent (start_recovery s (ob_ObservedAt ob) elapsed). intros s1 **.
  destruct (_ || _) eqn:Hdone; [cbn; split; [done|by apply IncidentNone; [right|]]|].
  go_bool. destruct Hdone as [Hdone Hack]. cbn [sr_State sr_Actions set_sr_State append_action].
  destruct Hf as (Ht & E1 & E2). destruct (tm_recovering _ Ht Hp) as (p & o & Ep & Eo & Hpo).
  split; [apply reset_frame; try done; apply Ht|].
  rewrite map_app. eapply (IncidentClose _ _ _ _ _ _ _ p); cbn [sr_State sr_Actions map ev_ID ev_Status]; try done.
  - by rewrite <- Has.
  - destruct Hsince as [Es|Es]; [left; congruence|right; fold ob; congruence].
  - rewrite E2, (ad_observed _ _ _ Had) in Eo. injection Eo as <-. fold ob. unfold Millisecond in *. lia.
Qed.

(** One piece of new evidence: the timers stay valid, and an incident is opened
    or closed only when the confirmation time has passed. *)
Lemma advanceThreshold_spec fresh input v elapsed s acts r :
  let ob := si_Observation input in
  advanceThreshold fresh input ob v elapsed (mkStepResult s acts) = Ok r ->
  advanced s (ob_ObservedAt ob) elapsed ->
  threshold_frame s (sr_State r) /\ incident_step fresh input v s acts r.
Proof.
  intros ob H Had. unfold advanceThreshold in H. cbn [sr_State] in H.
  destruct (_ <>s "") eqn:Hact; go_bool.
  { injection H as <-. cbn [sr_State]. by apply advanceRecovery_spec. }
  destruct (Triggered v (si_Rule input)) eqn:Htrig; cbn [negb] in H; cycle 1.
  { injection H as <-. cbn [sr_State set_sr_State sr_Actions]. split; [apply reset_frame; try done; apply Had|].
    apply IncidentNone; [by left|]. apply resetConfirmation_active. }
  fold (start_pending s (ob_ObservedAt ob) elapsed) in H.
  pose proof (start_pending_spec _ _ _ Had) as (Hf & Hp & Ha).
  generalize dependent (start_pending s (ob_ObservedAt ob) elapsed). intros s1 **.
  destruct (_ <? _) eqn:Hdone; [injection H as <-; split; [done|by apply IncidentNone; [left|]]|].
  unfold triggerThreshold in H. destruct fresh as [id|]; [|done]. injection H as <-. go_bool.
  destruct Hf as (Ht & E1 & E2). destruct (tm_pending _ Ht Hp) as (p & o & Ep & Eo & Hpo).
  split.
  - unfold threshold_frame. destruct Ht. cbn. by split_and!.
  - eapply (IncidentOpen _ _ _ _ _ _ id _ p); cbn; try done.
    rewrite E2, (ad_observed _ _ _ Had) in Eo. injection Eo as <-. fold ob. unfold Millisecond in *. lia.
Qed.

(** ** The invariant along every sequence of steps *)

(** The states an evaluation can persist: the blank one, and what a step makes
    of a state already reached, for whatever rule, observation and incident. *)
Inductive reach (sha : string -> string) : AlertEvaluationState -> Prop :=
| ReachZero : reach sha zero_state
| ReachStep fresh input r :
    reach sha (si_Previous input) -> Step sha fresh input = Ok r -> reach sha (sr_State r).

Lemma zero_timers : timers_ok zero_state.
Proof. pose proof MaximumDelayMS_nonneg. constructor; cbn; (done || lia). Qed.

(** What one step keeps of the invariant. *)
Lemma Step_preserves sha fresh input r : Step sha fresh input = Ok r ->
  timers_ok (si_Previous input) -> evidence_before (si_Previous input) ->
  timers_ok (sr_State r) /\ evidence_before (sr_State r) /\
  st_LastEvaluatedAt (sr_State r) = Some (ob_ObservedAt (si_Observation input)).
Proof.
  intros (s0 & Hs0 & _ & Hout)%Step_outcome Ht Hb.
  destruct (initialStep_spec input) as (_ & He & Ho & _ & Hinit & Hph & _).
  destruct Hout as [s1 Hr E1 E2 Hh _ | Hroll _ Est | v elapsed cont h acts Hroll _ _ _ _ Hel Hh _ Hadv].
  - split_and!; [by eapply reset_timers, Hh, Ht|by intros ?%(reset_not_confirming _ _ Hr)|].
    destruct Hr; congruence.
  - rewrite Est, (Hs0 Hroll). specialize (Hinit Ht).
    generalize dependent (sr_State (initialStep input)). intros s1 **.
    split_and!; [by eapply same_timers_ok; [| |exact Hinit]; [|apply Hinit]| |done].
    intros Hc o Eo. change (confirming s1) in Hc. change (st_LastEvidenceObservedAt s1 = Some o) in Eo.
    pose proof (Hph Hc) as E. rewrite Ho in Eo. unfold confirming in Hc. rewrite E in Hc.
    destruct (Hb Hc o Eo) as (l & El & Hle). pose proof (no_rollback_le _ _ Hroll El).
    exists (ob_ObservedAt (si_Observation input)). split; [done|lia].
  - specialize (Hs0 Hroll). specialize (Hinit Ht).
    generalize dependent (sr_State (initialStep input)). intros s1 **. subst s1.
    pose proof (evidence_advanced input s0 elapsed cont h Hinit Ho Hph Hb Hroll Hh Hel) as Had.
    destruct (advanceThreshold_spec _ _ _ _ _ _ _ Hadv Had) as ((Hok & Ee & Eo) & _).
    assert (st_LastEvaluatedAt (sr_State r) = Some (ob_ObservedAt (si_Observation input))) as E.
    { rewrite Ee. unfold evidence_state. cbn. destruct cont; [done|].
      by rewrite (rf_evaluated _ _ (resetConfirmation_reset s0)). }
    split_and!; [done| |done]. intros _ o Eo'. rewrite Eo, (ad_observed _ _ _ Had) in Eo'. injection Eo' as <-.
    by eexists.
Qed.

Lemma reach_invariant sha s : reach sha s -> timers_ok s /\ evidence_before s.
Proof.
  induction 1 as [|fresh input r _ [Ht Hb] H]; [split; [apply zero_timers|by intros [|]]|].
  by destruct (Step_preserves _ _ _ _ H Ht Hb) as (? & ? & _).
Qed.

(** What a step does to incidents: nothing, it resolves the one of a lost accelerator, or
    new evidence went through advanceThreshold. *)
Lemma step_incidents sha fresh input r :
  let s0 := sr_State (initialStep input) in
  reach sha (si_Previous input) -> Step sha fresh input = Ok r ->
  health_actions (sr_Actions r) /\ st_ActiveEventID (sr_State r) = st_ActiveEventID s0 \/ device_lost input s0 r \/
  exists v elapsed continuous h acts,
    let s := evidence_state input s0 continuous h in
    ob_Status (si_Observation input) = EvaluationOK /\ ob_Value (si_Observation input) = Some v /\
    newEvidence (si_Previous input) (si_Observation input) = true /\
    health_actions acts /\ advanced s (ob_ObservedAt (si_Observation input)) elapsed /\
    incident_step fresh input v s acts r.
Proof.
  intros s1 [Ht Hb]%reach_invariant (s0 & Hs0 & Hact & Hout)%Step_outcome. fold s1 in Hs0, Hact.
  destruct (initialStep_spec input) as (_ & _ & Ho & _ & Hinit & Hph & _). fold s1 in Ho, Hinit, Hph.
  destruct Hout as [s2 _ _ _ _ [[Hacts Ha]|Hlost] | _ Hacts Hst | v elapsed cont h acts Hroll Hst Hv _ Hnew Hel Hh Hacts Hadv].
  - left. split; [done|congruence].
  - right; left. by rewrite <- (Hs0 (dl_clock _ _ _ Hlost)).
  - left. rewrite Hacts, Hst. split; [constructor|done].
  - right; right. specialize (Hs0 Hroll). specialize (Hinit Ht). clearbody s1. subst s1.
    pose proof (evidence_advanced input s0 elapsed cont h Hinit Ho Hph Hb Hroll Hh Hel) as Had.
    destruct (advanceThreshold_spec _ _ _ _ _ _ _ Hadv Had) as (_ & Hinc).
    exists v, elapsed, cont, h, acts. by split_and!.
Qed.

Lemma evidence_state_active input s0 continuous h :
  st_ActiveEventID (evidence_state input s0 continuous h) = st_ActiveEventID s0 /\
  st_ActiveEventStatus (evidence_state input s0 continuous h) = st_ActiveEventStatus s0.
Proof.
  unfold evidence_state, applyEvidence. cbn. destruct continuous; [done|].
  unfold resetConfirmation. by destruct (_ =s "").
Qed.


Lemma health_action_kind acts a : health_actions acts -> a ∈ acts -> ac_Kind a = ActionHealth.
Proof. unfold health_actions. rewrite Forall_forall. intros H Hin. by apply H. Qed.

Lemma named_kind input a : ac_Kind (name_device input a) = ac_Kind a.
Proof. unfold name_device. destruct (ac_Event a); [|done]. by destruct (_ <>s _). Qed.

Lemma named_health input acts : health_actions acts -> map (name_device input) acts = acts.
Proof. induction 1 as [|a l [_ Ha] _ IH]; [done|]. cbn. rewrite IH. unfold name_device. by rewrite Ha. Qed.

Lemma unchanged_actions input acts acts' : health_actions acts -> acts' = acts \/ acts' = map (name_device input) acts -> acts' = acts.
Proof. intros Hacts [->| ->]; [done|by apply named_health]. Qed.




(** The seconds of a validated delay, as the engine compares them. *)
Lemma delay_units d : 0 <= d <= MaximumDelaySeconds -> wrap64 (d * 1000) * Millisecond = d * Second.
Proof.
  intros H. rewrite wrap64_id; [unfold Millisecond, Second; lia|].
  unfold in_int64, int64_min, int64_max, MaximumDelaySeconds in *. lia.
Qed.

(** ** Properties *)

(** C3. Timers: in every state that steps can reach from the blank one, whatever
    the observations, rule edits, clock jumps and incident changes, each
    confirmation timer lies between 0 and its cap, and a timer that is running
    never exceeds the wall-clock time from the moment its condition was first
    seen to the last evidence. *)
Theorem timers_never_run_ahead sha s : reach sha s ->
  0 <= st_TriggerElapsedMS s <= MaximumDelaySeconds * 1000 /\
  0 <= st_RecoveryElapsedMS s <= MaximumDelaySeconds * 1000 /\
  0 <= hl_ElapsedMS (st_Health s) <= MaximumDelaySeconds * 1000 /\
  (st_Phase s = AlertPhasePending -> exists since seen,
     st_PendingSince s = Some since /\ st_LastEvidenceObservedAt s = Some seen /\
     st_TriggerElapsedMS s * Millisecond <= seen - since) /\
  (st_Phase s = AlertPhaseRecovering -> exists since seen,
     st_RecoverySince s = Some since /\ st_LastEvidenceObservedAt s = Some seen /\
     st_RecoveryElapsedMS s * Millisecond <= seen - since).
Proof. by intros [[] _]%reach_invariant. Qed.

(** C1. No premature incident: a step opens an incident only when the state, after
    reconciling with the stored incident, has none active; on new healthy
    evidence whose value triggers the rule; and when the condition has been
    pending for at least the rule's duration of wall-clock time. The incident
    becomes the active one, and it is the only one opened. *)
Theorem incident_opens_after_confirmation sha fresh input r a :
  reach sha (si_Previous input) -> Step sha fresh input = Ok r ->
  a ∈ sr_Actions r -> ac_Kind a = ActionThresholdTrigger ->
  0 <= ar_Duration (si_Rule input) <= MaximumDelaySeconds ->
  st_ActiveEventID (sr_State (initialStep input)) = "" /\
  exists v e since,
    ob_Status (si_Observation input) = EvaluationOK /\
    newEvidence (si_Previous input) (si_Observation input) = true /\
    ob_Value (si_Observation input) = Some v /\ Triggered v (si_Rule input) = true /\
    ac_Event a = Some e /\ fresh = Some (ev_ID e) /\ ev_Status e = AlertStatusTriggered /\ ev_Value e = v /\
    st_ActiveEventID (sr_State r) = ev_ID e /\ st_PendingSince (sr_State r) = Some since /\
    ar_Duration (si_Rule input) * Second <= ob_ObservedAt (si_Observation input) - since /\
    filter (fun b => ac_Kind b = ActionThresholdTrigger) (sr_Actions r) = [a].
Proof.
  intros Hr Hstep Hin Hk Hd.
  destruct (step_incidents _ _ _ _ Hr Hstep)
    as [[Hacts _]|[Hlost|(v & elapsed & cont & h & acts & Hst & Hv & Hnew & Hacts & _ & Hinc)]].
  { by rewrite (health_action_kind _ _ Hacts Hin) in Hk. }
  { destruct (dl_actions _ _ _ Hlost) as (e & E & _). rewrite E in Hin. apply list_elem_of_singleton in Hin. by subst a. }
  destruct (evidence_state_active input (sr_State (initialStep input)) cont h) as [Ea _].
  assert (filter (fun b => ac_Kind b = ActionThresholdTrigger) acts = []) as Hnone.
  { clear -Hacts. induction Hacts as [|b l [Hb _] _ IH]; [done|]. rewrite filter_cons_False; [done|]. by rewrite Hb. }
  destruct Hinc as [Hkinds _ | id e p Hact Hf Htr Hacts' Hid Hes Hev Hnewid Hp Hwait | e p _ _ _ Hacts' _ _ _ _ _].
  - rewrite (unchanged_actions _ _ _ Hacts Hkinds) in Hin. by rewrite (health_action_kind _ _ Hacts Hin) in Hk.
  - rewrite Hacts' in Hin. apply elem_of_app in Hin as [Hb|Hb%list_elem_of_singleton].
    { rewrite (health_action_kind _ _ Hacts Hb) in Hk. done. }
    split; [by rewrite <- Ea|]. exists v, e, p. subst a. split_and!; try done; try congruence.
    + by rewrite <- (delay_units _ Hd).
    + rewrite Hacts', filter_app, Hnone. done.
  - rewrite Hacts' in Hin. apply elem_of_app in Hin as [Hb|Hb%list_elem_of_singleton].
    + rewrite (named_health _ _ Hacts) in Hb. by rewrite (health_action_kind _ _ Hacts Hb) in Hk.
    + subst a. rewrite named_kind in Hk. done.
Qed.





(** ** A concrete run *)

Definition sample_node : Node := mkNode "n1" "web-1" "" "".
Definition sample_input (s : AlertEvaluationState) (seconds value : Z) (evidence : string) : StepInput :=
  mkStepInput "" "" example_rule sample_node s
    (mkAlertEvaluationObservation (seconds * Second) "run-1" evidence (seconds * Second) (10 * Second)
       EvaluationOK "" (Some (f_of_Z value))) None false.

(** The state after a step, or the same state when the step is refused. *)
Definition after (input : StepInput) : AlertEvaluationState :=
  match Step id (Some "event-1") input with Ok r => sr_State r | Err _ => si_Previous input end.

Lemma reach_after input : reach id (si_Previous input) -> reach id (after input).
Proof. intros H. unfold after. destruct (Step _ _ _) eqn:E; [by eapply ReachStep|done]. Qed.

Definition sample_1 := after (sample_input zero_state 1000 95 "e1").
Definition sample_2 := after (sample_input sample_1 1030 97 "e2").

Lemma sample_reach_2 : reach id sample_2.
Proof. repeat apply reach_after; apply ReachZero. Qed.

Definition result_or (r0 : StepResult) (r : result EvalError StepResult) : StepResult :=
  match r with Ok r => r | Err _ => r0 end.

Lemma timers_never_run_ahead_witness :
  st_Phase sample_2 = AlertPhasePending /\ st_TriggerElapsedMS sample_2 = 30000 /\
  exists since seen, st_PendingSince sample_2 = Some since /\ st_LastEvidenceObservedAt sample_2 = Some seen /\
     st_TriggerElapsedMS sample_2 * Millisecond <= seen - since.
Proof.
  split; [vm_compute; reflexivity|]. split; [vm_compute; reflexivity|].
  apply (timers_never_run_ahead id sample_2 sample_reach_2). vm_compute. reflexivity.
Defined.

Definition sample_open : StepResult :=
  result_or (mkStepResult zero_state []) (Step id (Some "event-1") (sample_input sample_2 1060 99 "e3")).
Definition sample_open_action : Action := nth 0 (sr_Actions sample_open) (mkAction "" "" false None None).

Lemma incident_opens_after_confirmation_witness :
  Step id (Some "event-1") (sample_input sample_2 1060 99 "e3") = Ok sample_open /\
  filter (fun b => ac_Kind b = ActionThresholdTrigger) (sr_Actions sample_open) = [sample_open_action].
Proof.
  assert (Step id (Some "event-1") (sample_input sample_2 1060 99 "e3") = Ok sample_open) as H by (vm_compute; reflexivity).
  split; [exact H|].
  destruct (incident_opens_after_confirmation id (Some "event-1") (sample_input sample_2 1060 99 "e3") sample_open
    sample_open_action) as (_ & v & e & since & Hrest).
  - exact sample_reach_2.
  - exact H.
  - assert (sr_Actions sample_open = [sample_open_action]) as -> by (vm_compute; reflexivity).
    apply list_elem_of_singleton. reflexivity.
  - vm_compute. reflexivity.
  - vm_compute. split; discriminate.
  - apply Hrest.
Defined.


