(* ===== verification/AlertHealth.v ===== *)
(** * Evaluation health and totality of the alert step

    The health half of [AlertEngine.Step]: an epoch opens with the first missing
    or broken evidence, is notified at most once per kind of problem, and closes
    on fresh evidence; and the step is total: it returns an error only for an
    invalid observation, an unusable incident, or a failed random read. *)

From S2P Require Import Prelude GoFloat GoText AlertModel AlertPolicy AlertEngine AlertInvariant.

(** The bit of the seen and notified masks that stands for an unhealthy status. *)
Definition mask_of (status : string) : Z := if status =s EvaluationNoData then noDataMask else errorMask.

Definition quiet (a : Action) : Prop := ac_Health a = None.
Definition closing (a : Action) : Prop := forall e, ac_Health a = Some e -> he_Kind e = "recovered".

(** What one step does to the health record, and which health events it emits. *)
Inductive health_change (h h' : AlertEvaluationHealth) (acts : list Action) : Prop :=
| HealthKept :
    hl_EpochID h' = hl_EpochID h -> hl_NotifiedMask h' = hl_NotifiedMask h ->
    Forall quiet acts -> health_change h h' acts
| HealthClosed :
    hl_EpochID h' = "" -> Forall closing acts -> health_change h h' acts
| HealthOpen (status : string) (notify : bool) (base : Z) :
    (hl_EpochID h <> "" -> hl_EpochID h' = hl_EpochID h /\ base = hl_NotifiedMask h) ->
    hl_NotifiedMask h' = (if notify then Z.lor base (mask_of status) else base) ->
    (notify = true -> Z.land base (mask_of status) = 0) ->
    Forall (fun a => ac_Notify a = notify /\
      exists e, ac_Health a = Some e /\ he_Kind e = status /\ he_EpochID e = hl_EpochID h') acts ->
    health_change h h' acts.

Lemma creditHealthDelay_mask s ob :
  hl_EpochID (st_Health (creditHealthDelay s ob)) = hl_EpochID (st_Health s) /\
  hl_NotifiedMask (st_Health (creditHealthDelay s ob)) = hl_NotifiedMask (st_Health s).
Proof.
  unfold creditHealthDelay. generalize (st_Health s). intros h.
  destruct (_ || _); [done|]. destruct (hl_LastObservedAt h); [|done].
  destruct (_ =s _); [|done]. by destruct (_ && _).
Qed.

Lemma healthPolicy_mask rule status : (healthPolicy rule status).1.1 = mask_of status.
Proof. unfold healthPolicy, mask_of. by destruct (_ =s _). Qed.

(** A new epoch starts with nothing notified. *)
Lemma open_epoch_mask fresh ob (s s' : AlertEvaluationState) :
  (if hl_EpochID (st_Health s) =s "" then
     match fresh with
     | None => Err ErrUnavailable
     | Some id => Ok (set_st_Health
         (mkAlertEvaluationHealth id "" (Some (ob_ObservedAt ob)) None None 0 0 0 false) s)
     end
   else Ok s) = Ok s' ->
  hl_EpochID (st_Health s) <> "" -> st_Health s' = st_Health s.
Proof. intros H Hn. apply String.eqb_neq in Hn. rewrite Hn in H. by injection H as <-. Qed.

Lemma unhealthyStep_health sha fresh rule s ob r :
  unhealthyStep sha fresh rule (mkStepResult s []) ob = Ok r ->
  health_change (st_Health s) (st_Health (sr_State r)) (sr_Actions r).
Proof.
  unfold unhealthyStep. intros (s1 & Hs & H)%bind_ok. cbn [sr_State] in Hs.
  pose proof (open_epoch_mask _ _ _ _ Hs) as Hs'. clear Hs. rename Hs' into Hs. cbn in Hs.
  rewrite resetConfirmation_health in Hs.
  pose proof (creditHealthDelay_mask s1 ob) as [E1 E2].
  generalize dependent (creditHealthDelay s1 ob). intros c H E1 E2.
  pose proof (healthPolicy_mask rule (ob_Status ob)) as Hm.
  destruct (healthPolicy rule (ob_Status ob)) as [[mask policy] delay]. cbn in Hm. subst mask.
  generalize dependent (st_Health c). intros h **.
  set (notify := _ && _ && _) in H.
  assert (notify = true -> Z.land (hl_NotifiedMask h) (mask_of (ob_Status ob)) = 0) as Hbit.
  { unfold notify. intros Hn. apply andb_true_iff in Hn as [_ Hn]. by apply Z.eqb_eq in Hn. }
  clearbody notify. set (first := _ =? 0) in H. clearbody first.
  apply (HealthOpen _ _ _ (ob_Status ob) notify (hl_NotifiedMask h));
    (destruct (first || notify), notify; injection H as <-; cbn); try done; try (by intros Hn; rewrite E1, E2, Hs);
    apply Forall_singleton; (split; [done|by eexists]).
Qed.

(** advanceThreshold leaves the health record alone and adds only incident actions. *)
Lemma advanceRecovery_health rule ob v elapsed s acts :
  let r := advanceRecovery rule ob v elapsed (mkStepResult s acts) in
  st_Health (sr_State r) = st_Health s /\ (sr_Actions r = acts \/ exists a, quiet a /\ sr_Actions r = acts ++ [a]).
Proof.
  unfold advanceRecovery. cbn [sr_State]. destruct (negb _); [by split; [|left]|].
  fold (start_recovery s (ob_ObservedAt ob) elapsed).
  assert (st_Health (start_recovery s (ob_ObservedAt ob) elapsed) = st_Health s) as E
    by (unfold start_recovery; by destruct (_ <>s _)).
  generalize dependent (start_recovery s (ob_ObservedAt ob) elapsed). intros s1 E.
  destruct (_ || _); [by split; [|left]|]. cbn [sr_State sr_Actions set_sr_State append_action].
  rewrite resetConfirmation_health. split; [done|right]. eexists. by split; [|reflexivity].
Qed.

Lemma advanceThreshold_health fresh input ob v elapsed s acts r (P : Action -> Prop) :
  advanceThreshold fresh input ob v elapsed (mkStepResult s acts) = Ok r ->
  (forall a, P a -> P (name_device input a)) -> (forall a, quiet a -> P a) -> Forall P acts ->
  st_Health (sr_State r) = st_Health s /\ Forall P (sr_Actions r).
Proof.
  unfold advanceThreshold. cbn [sr_State]. intros H Hname Hquiet HP. destruct (_ <>s "").
  { injection H as <-. cbn [sr_State sr_Actions].
    destruct (advanceRecovery_health (si_Rule input) ob v elapsed s acts) as [E Hacts].
    split; [done|]. apply Forall_fmap. destruct Hacts as [->|(a & Ha & ->)].
    - eapply Forall_impl; [done|]. auto.
    - apply Forall_app. split; [eapply Forall_impl; [done|]; auto|]. apply Forall_singleton. cbn. auto. }
  destruct (negb _).
  { injection H as <-. cbn [sr_State sr_Actions set_sr_State]. by rewrite resetConfirmation_health. }
  fold (start_pending s (ob_ObservedAt ob) elapsed) in H.
  assert (st_Health (start_pending s (ob_ObservedAt ob) elapsed) = st_Health s) as E
    by (unfold start_pending; by destruct (_ <>s _)).
  generalize dependent (start_pending s (ob_ObservedAt ob) elapsed). intros s1 H E.
  destruct (_ <? _); [by injection H as <-|]. unfold triggerThreshold in H. destruct fresh; [|done].
  injection H as <-. cbn. split; [done|]. apply Forall_app. split; [done|]. apply Forall_singleton. by apply Hquiet.
Qed.

Lemma quiet_named input a : quiet a -> quiet (name_device input a).
Proof. unfold quiet, name_device. destruct (ac_Event a); [|done]. by destruct (_ <>s _). Qed.

Lemma closing_named input a : closing a -> closing (name_device input a).
Proof. unfold closing, name_device. destruct (ac_Event a); [|done]. by destruct (_ <>s _). Qed.

Lemma unavailableDevice_health input s r : unavailableDevice input (mkStepResult s []) = Ok r ->
  hl_EpochID (st_Health (sr_State r)) = hl_EpochID (st_Health s) /\
  hl_NotifiedMask (st_Health (sr_State r)) = hl_NotifiedMask (st_Health s) /\ Forall quiet (sr_Actions r).
Proof.
  unfold unavailableDevice. intros H. destruct (_ <>s "").
  - destruct (si_Incident input); [|done]. destruct (_ || _); [done|]. injection H as <-.
    cbn [sr_State sr_Actions set_sr_State append_action]. rewrite resetConfirmation_health.
    by split_and!; [| |apply Forall_singleton].
  - injection H as <-. cbn [sr_State sr_Actions set_sr_State]. rewrite resetConfirmation_health. by split_and!.
Qed.

Lemma finishHealth_health sha s ob :
  exists h acts, finishHealth sha (mkStepResult s []) ob = mkStepResult (set_st_Health h s) acts /\
    ((h = st_Health s /\ acts = []) \/ (h = zero_health /\ Forall closing acts)).
Proof.
  unfold finishHealth. cbn [sr_State]. destruct (_ =s "").
  - exists (st_Health s), []. split; [by destruct s|by left].
  - eexists zero_health, _. split; [reflexivity|right]. split; [done|].
    apply Forall_singleton. intros e [= <-]. by destruct (negb _).
Qed.

(** The evidence branch of a step: health, then thresholds. *)
Lemma evidence_health sha fresh input ob v elapsed s1 r :
  (let r := finishHealth sha (mkStepResult s1 []) ob in
   advanceThreshold fresh input ob v elapsed (set_sr_State (applyEvidence (sr_State r) ob) r)) = Ok r ->
  health_change (st_Health s1) (st_Health (sr_State r)) (sr_Actions r).
Proof.
  destruct (finishHealth_health sha s1 ob) as (h & acts & -> & Hcase).
  unfold set_sr_State. cbn [sr_State sr_Actions]. set (s2 := applyEvidence _ ob).
  assert (st_Health s2 = h) as E by done. clearbody s2. intros H.
  destruct Hcase as [[-> ->]|[-> Hc]].
  - destruct (advanceThreshold_health _ _ _ _ _ _ _ _ quiet H) as [E' Hq]; [apply quiet_named|done|constructor|].
    apply HealthKept; [congruence..|done].
  - destruct (advanceThreshold_health _ _ _ _ _ _ _ _ closing H) as [E' Hq];
      [apply closing_named|unfold quiet, closing; congruence|done|].
    apply HealthClosed; [|done]. by rewrite E', E.
Qed.

Lemma suspended_health s0 s2 (r : StepResult) : st_Health s2 = st_Health s0 ->
  Ok (E := EvalError) (set_sr_State (set_st_Health (set_hl_Suspended true (st_Health s2)) s2) (mkStepResult s0 [])) = Ok r ->
  health_change (st_Health s0) (st_Health (sr_State r)) (sr_Actions r).
Proof. intros E [= <-]. apply HealthKept; cbn; [by rewrite E..|done]. Qed.

Lemma dispatch_health sha fresh input ob s0 r :
  dispatch sha fresh input ob (mkStepResult s0 []) = Ok r ->
  health_change (st_Health s0) (st_Health (sr_State r)) (sr_Actions r).
Proof.
  unfold dispatch. intros H. cbn [sr_State] in H.
  destruct (_ && _) in H.
  { destruct (unavailableDevice_health _ _ _ H) as (E1 & E2 & Hq). by apply HealthKept. }
  destruct (_ || _) in H; [eapply suspended_health, H; by rewrite resetConfirmation_health|].
  destruct (_ <>s EvaluationOK) in H; [by eapply unhealthyStep_health|].
  destruct (negb _) in H.
  { destruct (_ <>s "") in H; [by eapply unhealthyStep_health|]. injection H as <-. by apply HealthKept. }
  destruct (evidenceElapsed _ _) as [elapsed cont]. destruct (ob_Value ob) as [v|]; [|done].
  destruct cont; [by eapply evidence_health|].
  rewrite <- (resetConfirmation_health s0). by eapply evidence_health.
Qed.

Lemma Step_health sha fresh input r : Step sha fresh input = Ok r ->
  exists h, hl_EpochID h = hl_EpochID (st_Health (si_Previous input)) /\
    hl_NotifiedMask h = hl_NotifiedMask (st_Health (si_Previous input)) /\
    health_change h (st_Health (sr_State r)) (sr_Actions r).
Proof.
  unfold Step. intros ([] & _ & H)%bind_ok.
  destruct (initialStep_spec input) as (Ha & _ & _ & Hh & _).
  generalize dependent (initialStep input). intros [s0 acts] H Ha Hh. cbn in Ha, Hh. subst acts.
  unfold stepObservation in H. cbn [sr_State] in H. destruct (clockRollback input).
  - eapply dispatch_health in H. eexists. split_and!; [| |exact H]; cbn; rewrite resetConfirmation_health; congruence.
  - eapply dispatch_health in H. eexists. split_and!; [| |exact H]; congruence.
Qed.

(** The step notified health problem [kind] of epoch [epoch]. *)
Definition notifies (kind epoch : string) (r : StepResult) : Prop :=
  exists a e, a ∈ sr_Actions r /\ ac_Notify a = true /\ ac_Health a = Some e /\
    he_Kind e = kind /\ he_EpochID e = epoch.

(** Steps from one state to another that stay in one health epoch. *)
Inductive within_epoch (sha : string -> string) (epoch : string) (s : AlertEvaluationState)
  : AlertEvaluationState -> Prop :=
| WithinHere : hl_EpochID (st_Health s) = epoch -> within_epoch sha epoch s s
| WithinStep fresh input r :
    within_epoch sha epoch s (si_Previous input) -> Step sha fresh input = Ok r ->
    hl_EpochID (st_Health (sr_State r)) = epoch -> within_epoch sha epoch s (sr_State r).

Lemma mask_of_pos kind : mask_of kind = 1 \/ mask_of kind = 2.
Proof. unfold mask_of. destruct (_ =s _); auto. Qed.

Lemma lor_keeps a b m : Z.land a m <> 0 -> Z.land (Z.lor a b) m <> 0.
Proof. rewrite Z.land_lor_distr_l. intros H E. apply Z.lor_eq_0_iff in E. tauto. Qed.

Lemma lor_sets a kind : Z.land (Z.lor a (mask_of kind)) (mask_of kind) <> 0.
Proof.
  rewrite Z.land_lor_distr_l, Z.land_diag. intros E. apply Z.lor_eq_0_iff in E as [_ E].
  destruct (mask_of_pos kind); lia.
Qed.

(** Within an epoch a notified bit stays set, and a notification needs it clear. *)
Lemma step_mask sha fresh input r kind epoch : Step sha fresh input = Ok r -> epoch <> "" ->
  hl_EpochID (st_Health (si_Previous input)) = epoch ->
  Z.land (hl_NotifiedMask (st_Health (si_Previous input))) (mask_of kind) <> 0 ->
  (hl_EpochID (st_Health (sr_State r)) = epoch ->
     Z.land (hl_NotifiedMask (st_Health (sr_State r))) (mask_of kind) <> 0) /\
  (kind <> "recovered" -> ~ notifies kind epoch r).
Proof.
  intros (h & E1 & E2 & Hc)%Step_health Hne He Hbit. rewrite <- E2 in Hbit. rewrite <- E1 in He.
  destruct Hc as [K1 K2 Hq | K1 Hq | status notify base Hb Hm Hz Hall].
  - split; [by rewrite K2|]. intros _ (a & e & Hin & _ & Hh & _). rewrite Forall_forall in Hq.
    specialize (Hq a Hin). unfold quiet in Hq. congruence.
  - split; [congruence|]. intros Hk (a & e & Hin & _ & Hh & Hk' & _). rewrite Forall_forall in Hq.
    specialize (Hq a Hin e Hh). congruence.
  - destruct Hb as [Hb1 ->]; [congruence|]. split.
    + intros _. rewrite Hm. destruct notify; [by apply lor_keeps|done].
    + intros _ (a & e & Hin & Hn & Hh & Hk & _). rewrite Forall_forall in Hall.
      destruct (Hall a Hin) as (En & e' & Hh' & Hk' & _). rewrite Hh in Hh'. injection Hh' as <-.
      apply Hbit. rewrite <- Hk, Hk'. apply Hz. congruence.
Qed.

Lemma step_sets_mask sha fresh input r kind epoch : Step sha fresh input = Ok r ->
  kind <> "recovered" -> notifies kind epoch r ->
  Z.land (hl_NotifiedMask (st_Health (sr_State r))) (mask_of kind) <> 0.
Proof.
  intros (h & _ & _ & Hc)%Step_health Hk (a & e & Hin & Hn & Hh & Ek & _).
  destruct Hc as [_ _ Hq | _ Hq | status notify base _ Hm _ Hall].
  - rewrite Forall_forall in Hq. specialize (Hq a Hin). unfold quiet in Hq. congruence.
  - rewrite Forall_forall in Hq. specialize (Hq a Hin e Hh). congruence.
  - rewrite Forall_forall in Hall. destruct (Hall a Hin) as (En & e' & Hh' & Hk' & _).
    rewrite Hh in Hh'. injection Hh' as <-. rewrite Hm, <- En, Hn, <- Ek, Hk'. apply lor_sets.
Qed.

(** One notification per problem and epoch: after a step that notified a health
    problem, no later step of the same health epoch notifies the same kind of
    problem again, however the status flips between missing and broken evidence
    in between. *)
Theorem health_notified_once sha fresh1 in1 r1 fresh2 in2 r2 kind epoch :
  epoch <> "" -> kind <> "recovered" ->
  Step sha fresh1 in1 = Ok r1 -> notifies kind epoch r1 ->
  within_epoch sha epoch (sr_State r1) (si_Previous in2) ->
  Step sha fresh2 in2 = Ok r2 -> ~ notifies kind epoch r2.
Proof.
  intros Hne Hk H1 Hn1 Hw H2.
  pose proof (step_sets_mask _ _ _ _ _ _ H1 Hk Hn1) as Hbit.
  assert (hl_EpochID (st_Health (si_Previous in2)) = epoch /\
    Z.land (hl_NotifiedMask (st_Health (si_Previous in2))) (mask_of kind) <> 0) as [He Hb].
  { clear H2. induction Hw as [|fresh input r Hw [IH1 IH2] H He]; [done|].
    split; [done|]. by apply (step_mask _ _ _ _ _ _ H Hne IH1 IH2). }
  by apply (step_mask _ _ _ _ _ _ H2 Hne He Hb).
Qed.

(** ** Totality *)

Lemma unhealthyStep_error sha fresh rule r ob e :
  unhealthyStep sha fresh rule r ob = Err e -> e = ErrUnavailable /\ fresh = None.
Proof.
  unfold unhealthyStep. destruct (_ =s ""); [destruct fresh|]; cbn [bind].
  2: by intros [= <-].
  all: destruct (healthPolicy rule (ob_Status ob)) as [[??]?]; intros H; discriminate H.
Qed.

Lemma advanceThreshold_error fresh input ob v elapsed r e :
  advanceThreshold fresh input ob v elapsed r = Err e -> e = ErrUnavailable /\ fresh = None.
Proof.
  unfold advanceThreshold. destruct (_ <>s ""); [done|]. destruct (negb _); [done|].
  generalize (if st_Phase (sr_State r) <>s AlertPhasePending then
    set_st_TriggerElapsedMS 0 (set_st_PendingSince (Some (ob_ObservedAt ob)) (set_st_Phase AlertPhasePending (sr_State r)))
    else set_st_TriggerElapsedMS (Z.min (wrap64 (st_TriggerElapsedMS (sr_State r) + Milliseconds elapsed)) MaximumDelayMS) (sr_State r)).
  intros s. destruct (_ <? _); [done|]. unfold triggerThreshold. destruct fresh; [done|]. by intros [= <-].
Qed.

(** The active incident cannot be resolved for a device that is gone. *)
Definition incident_unusable (input : StepInput) (active : string) : Prop :=
  active <> "" /\ forall incident, si_Incident input = Some incident ->
    ev_ID incident <> active \/ ev_DeviceID incident <> si_DeviceID input.

Lemma unavailableDevice_error input s e : unavailableDevice input (mkStepResult s []) = Err e ->
  e = ErrInvalidObservation /\ incident_unusable input (st_ActiveEventID s).
Proof.
  unfold unavailableDevice. cbn [sr_State]. set (s1 := set_st_Health _ _).
  change (st_ActiveEventID s1) with (st_ActiveEventID s). clearbody s1.
  destruct (_ <>s "") eqn:Ha; [|done]. go_bool. destruct (si_Incident input) as [inc|] eqn:Ei.
  - destruct (_ || _) eqn:E; [|done]. intros [= <-]. split; [done|]. split; [done|]. intros inc' E'. rewrite Ei in E'. injection E' as <-.
    go_bool. tauto.
  - intros [= <-]. split; [done|]. split; [done|]. intros inc' E'. by rewrite Ei in E'.
Qed.

Lemma dispatch_error sha fresh input ob s e :
  dispatch sha fresh input ob (mkStepResult s []) = Err e ->
  (ob_Status ob = EvaluationOK -> ob_Value ob <> None) ->
  (e = ErrUnavailable /\ fresh = None) \/
  (e = ErrInvalidObservation /\ ob_Status ob = EvaluationOutOfScope /\
   ob_Reason ob = AcceleratorDeviceUnavailable /\ incident_unusable input (st_ActiveEventID s)).
Proof.
  unfold dispatch. intros H Hv. destruct (_ && _) eqn:Ed in H.
  { go_bool. destruct Ed as [[? ?] ?]. right. apply unavailableDevice_error in H. tauto. }
  destruct (_ || _) in H; [done|].
  destruct (_ <>s EvaluationOK) eqn:Hst in H; [left; by eapply unhealthyStep_error|].
  destruct (negb _) in H.
  { destruct (_ <>s "") in H; [left; by eapply unhealthyStep_error|done]. }
  go_bool. specialize (Hv Hst). destruct (evidenceElapsed _ _) as [elapsed cont].
  destruct (ob_Value ob) as [v|]; [|done]. left. by eapply advanceThreshold_error.
Qed.

(** The step is total: on every input it returns a result, except when the
    observation is invalid, when the random identifier cannot be generated, or
    when a vanished device still has an active incident and the caller supplied
    no matching event. In particular the observation's value pointer is never
    dereferenced when it is nil. *)
Theorem step_errors sha fresh input e :
  Step sha fresh input = Err e ->
  validateObservation input = Err e \/
  (e = ErrUnavailable /\ fresh = None) \/
  (e = ErrInvalidObservation /\ ob_Reason (si_Observation input) = AcceleratorDeviceUnavailable /\
   incident_unusable input (st_ActiveEventID (sr_State (initialStep input)))).
Proof.
  unfold Step. destruct (validateObservation input) as [[]|e'] eqn:Hval; cbn [bind]; [|by intros [= <-]; left].
  intros H. right. destruct (initialStep_spec input) as (Ha & _).
  generalize dependent (initialStep input). intros [s0 acts] H Ha. cbn in Ha. subst acts.
  unfold stepObservation in H. set (ob1 := if negb (ar_Enabled _) || _ then _ else _) in H.
  assert (ob1 = si_Observation input \/ ob_Status ob1 = EvaluationDisabled) as Hob1.
  { unfold ob1. destruct (_ || _); auto. }
  clearbody ob1. destruct (clockRollback input).
  - apply dispatch_error in H as [H|(_ & H & _)]; [by left|done..].
  - apply dispatch_error in H as [H|(-> & Hst & Hreason & Hu)]; [by left| |].
    + right. destruct Hob1 as [->|Hd]; [done|]. by rewrite Hd in Hst.
    + intros Hok. destruct Hob1 as [->|Hd]; [|by rewrite Hd in Hok].
      destruct (validate_ok_value _ Hval Hok) as (v & -> & _). done.
Qed.

(** ** A concrete run *)

Definition missing_input (s : AlertEvaluationState) (seconds : Z) : StepInput :=
  mkStepInput "" "" example_rule sample_node s
    (mkAlertEvaluationObservation (seconds * Second) "run-1" "" 0 0 EvaluationNoData "no_sample" None) None false.

Fixpoint missing_run (n : nat) (seconds : Z) (s : AlertEvaluationState) : AlertEvaluationState :=
  match n with O => s | S n => missing_run n (seconds + 30) (after (missing_input s seconds)) end.

(** Ten missing polls, thirty seconds apart: the next one crosses the 300 s delay. *)
Definition missing_10 : AlertEvaluationState := missing_run 10 1000 zero_state.
Definition missing_11 : StepResult :=
  result_or (mkStepResult zero_state []) (Step id None (missing_input missing_10 1300)).
Definition missing_12 : StepResult :=
  result_or (mkStepResult zero_state []) (Step id None (missing_input (sr_State missing_11) 1330)).

Lemma health_notified_once_witness :
  notifies EvaluationNoData "event-1" missing_11 /\ ~ notifies EvaluationNoData "event-1" missing_12.
Proof.
  assert (notifies EvaluationNoData "event-1" missing_11) as Hn.
  { eexists (nth 0 (sr_Actions missing_11) (mkAction "" "" false None None)), _.
    split; [|split; [vm_compute; reflexivity|split; [vm_compute; reflexivity|split; vm_compute; reflexivity]]].
    vm_compute. apply list_elem_of_singleton. reflexivity. }
  split; [exact Hn|].
  apply (health_notified_once id None (missing_input missing_10 1300) missing_11
           None (missing_input (sr_State missing_11) 1330) missing_12 EvaluationNoData "event-1").
  - discriminate.
  - discriminate.
  - vm_compute. reflexivity.
  - exact Hn.
  - unfold missing_input. cbn [si_Previous]. apply WithinHere. vm_compute. reflexivity.
  - vm_compute. reflexivity.
Defined.

Lemma step_errors_witness :
  Step id None (missing_input zero_state 1000) = Err ErrUnavailable /\
  validateObservation (missing_input zero_state 1000) = Ok tt /\
  (validateObservation (missing_input zero_state 1000) = Err ErrUnavailable \/
   (ErrUnavailable = ErrUnavailable /\ None = @None string) \/
   (ErrUnavailable = ErrInvalidObservation /\
    ob_Reason (si_Observation (missing_input zero_state 1000)) = AcceleratorDeviceUnavailable /\
    incident_unusable (missing_input zero_state 1000)
      (st_ActiveEventID (sr_State (initialStep (missing_input zero_state 1000)))))).
Proof.
  split; [vm_compute; reflexivity|]. split; [vm_compute; reflexivity|].
  apply (step_errors id None (missing_input zero_state 1000) ErrUnavailable). vm_compute. reflexivity.
Defined.
