(* ===== verification/AlertScheduler.v ===== *)
(** * The alert round scheduler

    internal/alerteval/scheduler.go. A round asks its source for due (rule, node,
    device) triples in pages, each page strictly after the previous one in a
    fixed order, and evaluates every page on a bounded pool of workers until the
    source is exhausted or the round's context ends.

    The source is code behind the RoundSource interface: [due n q] is what the
    round's [n]-th call of Due returns and [evaluate p] how Evaluate ends for a
    pair. The context is seen through [expired n] (ctx.Err() is set before the
    [n]-th page) and [sent n] (how many jobs of that page were handed to a worker
    before ctx.Done() was selected). *)

From S2P Require Import Prelude GoFloat GoText AlertModel AlertPolicy.

Definition DefaultWorkers : Z := 4.
Definition MaximumWorkers : Z := 8.

Record DuePair := mkDuePair {
  dp_RuleID : string; dp_NodeID : string; dp_DeviceID : string; dp_DueAt : Time }.

Record DueQuery := mkDueQuery {
  dq_At : Time; dq_After : option DuePair; dq_Limit : Z }.

Record RoundResult := mkRoundResult {
  rr_Completed : Z; rr_Failed : Z; rr_Admitted : Z; rr_Deferred : Z;
  rr_BacklogComplete : bool; rr_OldestDueAge : Duration; rr_Degraded : bool }.

Definition zero_round : RoundResult := mkRoundResult 0 0 0 0 false 0 false.

#[export] Instance DuePair_eq_dec : EqDecision DuePair.
Proof. solve_decision. Defined.

Record Scheduler := mkScheduler { sch_workers : Z; sch_running : bool }.

(** NewScheduler; [has_source] is source != nil. *)
Definition NewScheduler (has_source : bool) (workers : Z) : result EvalError Scheduler :=
  let workers := if workers =? 0 then DefaultWorkers else workers in
  if negb has_source || (workers <? 1) || (MaximumWorkers <? workers) then Err ErrInvalidPolicy
  else Ok (mkScheduler workers false).

Definition duePairBefore (a b : DuePair) : bool :=
  if negb (TimeEqual (dp_DueAt a) (dp_DueAt b)) then Before (dp_DueAt a) (dp_DueAt b)
  else if dp_RuleID a <>s dp_RuleID b then str_lt (dp_RuleID a) (dp_RuleID b)
  else if dp_NodeID a <>s dp_NodeID b then str_lt (dp_NodeID a) (dp_NodeID b)
  else str_lt (dp_DeviceID a) (dp_DeviceID b).

Fixpoint validate_pairs (query : DueQuery) (previous : option DuePair) (pairs : list DuePair)
  : result EvalError unit :=
  match pairs with
  | [] => Ok tt
  | next :: rest =>
      if (dp_RuleID next =s "") || (dp_NodeID next =s "") || After (dp_DueAt next) (dq_At query)
      then Err ErrInvalidObservation
      else if match previous with Some p => negb (duePairBefore p next) | None => false end
      then Err ErrInvalidObservation
      else validate_pairs query (Some next) rest
  end.

Definition validateDueBatch (pairs : list DuePair) (query : DueQuery) : result EvalError unit :=
  if dq_Limit query <? llen pairs then Err ErrCapacity
  else validate_pairs query (dq_After query) pairs.

(** How Evaluate ends: err == nil, errors.Is(err, ErrConflict), any other error. *)
Inductive evaluation := Evaluated | Conflicted | EvaluationFailed.
#[export] Instance evaluation_eq_dec : EqDecision evaluation.
Proof. solve_decision. Defined.

(** Errors of a round. *)
Inductive RoundError (E : Type) :=
| RoundConflict                      (** a round is already running *)
| RoundSourceError (e : E)           (** Due failed *)
| RoundInvalid (e : EvalError)       (** validateDueBatch refused a page *)
| RoundContext.                      (** ctx.Err() *)
Arguments RoundConflict {E}. Arguments RoundSourceError {E}. Arguments RoundInvalid {E}. Arguments RoundContext {E}.

Section round.
Context {E : Type}.
Variable due : nat -> DueQuery -> result E (list DuePair).
Variable evaluate : DuePair -> evaluation.

Definition count (what : evaluation) (pairs : list DuePair) : Z :=
  llen (filter (fun p => evaluate p = what) pairs).

Variable expired : nat -> bool.
Variable sent : nat -> nat.

(** evaluateBatch when the first [k] pairs reach a worker: the counters it adds. *)
Definition evaluateBatch (k : nat) (pairs : list DuePair) (r : RoundResult) : RoundResult :=
  let admitted := firstn k pairs in
  mkRoundResult (rr_Completed r + count Evaluated admitted) (rr_Failed r + count EvaluationFailed admitted)
    (rr_Admitted r + llen admitted) (rr_Deferred r) (rr_BacklogComplete r) (rr_OldestDueAge r) (rr_Degraded r).

(** The page loop of Round. [evaluated] lists the pairs handed to workers so
    far; [None] is a loop that needs more iterations than [fuel]. *)
Fixpoint round_loop (fuel n : nat) (query : DueQuery) (r : RoundResult) (evaluated : list DuePair)
  : option (RoundResult * list DuePair * option (RoundError E)) :=
  match fuel with
  | O => None
  | S fuel =>
      if expired n then Some (r, evaluated, Some RoundContext)
      else match due n query with
      | Err e => Some (r, evaluated, Some (RoundSourceError e))
      | Ok [] => Some (r, evaluated, None)
      | Ok (first :: rest) =>
          let pairs := first :: rest in
          match validateDueBatch pairs query with
          | Err e => Some (r, evaluated, Some (RoundInvalid e))
          | Ok _ =>
              let r := if rr_Admitted r =? 0 then
                  let age := Sub (dq_At query) (dp_DueAt first) in
                  mkRoundResult (rr_Completed r) (rr_Failed r) (rr_Admitted r) (rr_Deferred r)
                    (rr_BacklogComplete r) age (MaximumPollGap <? age)
                else r in
              round_loop fuel (S n) (mkDueQuery (dq_At query) (Some (List.last pairs first)) (dq_Limit query))
                (evaluateBatch (sent n) pairs r) (evaluated ++ firstn (sent n) pairs)
          end
      end
  end.

(** Round: the running flag is taken, and given back on every way out. *)
Definition Round (fuel : nat) (s : Scheduler) (at_ : Time)
  : option (RoundResult * list DuePair * option (RoundError E)) * Scheduler :=
  if sch_running s then (Some (zero_round, [], Some RoundConflict), s)
  else (round_loop fuel 0 (mkDueQuery at_ None BatchSize) zero_round [], mkScheduler (sch_workers s) false).
End round.

(** ** The worker pool

    evaluateBatch as it runs: the sender hands pairs to idle workers over an
    unbuffered channel, stops at the end of the page or when ctx.Done() is
    selected, closes the channel and waits; each busy worker finishes its pair
    at any moment and adds to the shared counters. *)
Record Batch := mkBatch {
  ba_pending : list DuePair; ba_closed : bool; ba_busy : list DuePair;
  ba_Admitted : Z; ba_completed : Z; ba_failed : Z }.

Section workers.
Variable evaluate : DuePair -> evaluation.
Variable workers : nat.

Inductive batch_step : Batch -> Batch -> Prop :=
| BatchSend p rest busy a c f : (length busy < workers)%nat ->
    batch_step (mkBatch (p :: rest) false busy a c f) (mkBatch rest false (p :: busy) (a + 1) c f)
| BatchCancel p rest busy a c f :
    batch_step (mkBatch (p :: rest) false busy a c f) (mkBatch (p :: rest) true busy a c f)
| BatchClose busy a c f :
    batch_step (mkBatch [] false busy a c f) (mkBatch [] true busy a c f)
| BatchFinish pending closed l1 p l2 a c f :
    batch_step (mkBatch pending closed (l1 ++ p :: l2) a c f)
      (mkBatch pending closed (l1 ++ l2) a
         (match evaluate p with Evaluated => c + 1 | _ => c end)
         (match evaluate p with EvaluationFailed => f + 1 | _ => f end)).

(** workers.Wait() returns: the channel is closed and no worker is busy. *)
Definition batch_done (b : Batch) : Prop := ba_closed b = true /\ ba_busy b = [].
Definition batch_start (pairs : list DuePair) : Batch := mkBatch pairs false [] 0 0 0.
End workers.

(** ** The order of pairs *)

Definition dp_before (a b : DuePair) : Prop := duePairBefore a b = true.

Lemma dp_before_spec a b : dp_before a b <->
  dp_DueAt a < dp_DueAt b \/ (dp_DueAt a = dp_DueAt b /\
  (str_lt (dp_RuleID a) (dp_RuleID b) = true \/ (dp_RuleID a = dp_RuleID b /\
  (str_lt (dp_NodeID a) (dp_NodeID b) = true \/ (dp_NodeID a = dp_NodeID b /\
   str_lt (dp_DeviceID a) (dp_DeviceID b) = true))))).
Proof.
  unfold dp_before, duePairBefore, TimeEqual, Before.
  destruct (dp_DueAt a =? dp_DueAt b) eqn:Et; cbn [negb]; go_bool; [|split; [lia|]; intros [|[? _]]; lia].
  destruct (dp_RuleID a =s dp_RuleID b) eqn:Er; cbn [negb]; go_bool.
  2:{ split; [intros; right; auto|]. intros [|[_ [?|[? _]]]]; [lia|done..]. }
  destruct (dp_NodeID a =s dp_NodeID b) eqn:En; cbn [negb]; go_bool.
  2:{ split; [intros; right; auto 6|]. rewrite Er, str_lt_irrefl. intros [|[_ [?|[_ [?|[? _]]]]]]; [lia|done..]. }
  rewrite Er, En, !str_lt_irrefl. split; [auto 10|]. intros [|[_ [?|[_ [?|[_ ?]]]]]]; [lia|done..].
Qed.

#[export] Instance dp_before_strict : StrictOrder dp_before.
Proof.
  split.
  - intros a. unfold complement. rewrite dp_before_spec, !str_lt_irrefl. intuition (lia || congruence).
  - intros a b c. rewrite !dp_before_spec.
    intros [H|[E1 [H|[E2 [H|[E3 H]]]]]] [G|[F1 [G|[F2 [G|[F3 G]]]]]];
      try (left; lia); right; (split; [lia|]);
      try (left; rewrite ?E2, <- ?F2 in *; by eauto using str_lt_trans);
      right; (split; [congruence|]);
      try (left; rewrite ?E3, <- ?F3 in *; by eauto using str_lt_trans);
      right; (split; [congruence|]); by eauto using str_lt_trans.
Qed.

(** ** Pages *)

Definition pair_ok (at_ : Time) (p : DuePair) : Prop :=
  dp_RuleID p <> "" /\ dp_NodeID p <> "" /\ dp_DueAt p <= at_.

Lemma validate_pairs_spec query pairs : forall previous,
  validate_pairs query previous pairs = Ok tt <->
  Forall (pair_ok (dq_At query)) pairs /\ Sorted dp_before (option_list previous ++ pairs).
Proof.
  induction pairs as [|p rest IH]; intros previous.
  { cbn. rewrite app_nil_r. split; [|done]. intros _. split; [done|]. destruct previous; repeat constructor. }
  cbn [validate_pairs]. rewrite Forall_cons.
  destruct (_ || _ || _) eqn:E; unfold After in E; go_bool.
  { split; [done|]. unfold pair_ok. intros [[(? & ? & ?) _] _]. destruct E as [[?|?]|?]; done || lia. }
  destruct E as [[E1 E2] E3]. assert (pair_ok (dq_At query) p) as Hp by by split_and!.
  destruct previous as [q|]; cbn [option_list app].
  - destruct (duePairBefore q p) eqn:Hq; cbn [negb].
    + rewrite IH. cbn. split; intros H; split_and!; try tauto; [|by destruct H as [_ [H _]%Sorted_inv]].
      destruct H as [_ H]. constructor; [done|by constructor].
    + split; [done|]. intros [_ [_ H]%Sorted_inv]. apply HdRel_inv in H. unfold dp_before in H. congruence.
  - rewrite IH. cbn. tauto.
Qed.

(** What a round has done after some pages: the pairs evaluated so far are
    strictly increasing and not after the cursor, and the counters count them. *)
Record round_inv (evaluate : DuePair -> evaluation) (query : DueQuery) (r : RoundResult)
    (evaluated : list DuePair) : Prop := {
  ri_sorted : StronglySorted dp_before evaluated;
  ri_cursor : Forall (fun p => exists c, dq_After query = Some c /\ (dp_before p c \/ p = c)) evaluated;
  ri_ok : Forall (pair_ok (dq_At query)) evaluated;
  ri_admitted : rr_Admitted r = llen evaluated;
  ri_completed : rr_Completed r = count evaluate Evaluated evaluated;
  ri_failed : rr_Failed r = count evaluate EvaluationFailed evaluated }.

Lemma count_app evaluate what l1 l2 : count evaluate what (l1 ++ l2) = count evaluate what l1 + count evaluate what l2.
Proof. unfold count, llen. rewrite filter_app, length_app. lia. Qed.

Lemma elem_of_last (l : list DuePair) d : l <> [] -> List.last l d ∈ l.
Proof.
  intros Hn. assert (forall x, x = List.last l d -> x ∈ l) as H; [|by apply H]. intros x Hx.
  rewrite (app_removelast_last d Hn). apply elem_of_app. right. by apply list_elem_of_singleton.
Qed.

Lemma sorted_before_last l x d : StronglySorted dp_before l -> x ∈ l ->
  dp_before x (List.last l d) \/ x = List.last l d.
Proof.
  induction l as [|y l IH]; [by intros _ ?%elem_of_nil|].
  intros [Hs Hall]%StronglySorted_inv [->|Hx]%elem_of_cons.
  - destruct l as [|z l]; [by right|]. left. rewrite Forall_forall in Hall. apply Hall.
    change (List.last (y :: z :: l) d) with (List.last (z :: l) d). by apply elem_of_last.
  - destruct l as [|z l]; [by apply elem_of_nil in Hx|]. by apply IH.
Qed.

Lemma StronglySorted_app_iff l1 l2 : StronglySorted dp_before l1 -> StronglySorted dp_before l2 ->
  (forall x y, x ∈ l1 -> y ∈ l2 -> dp_before x y) -> StronglySorted dp_before (l1 ++ l2).
Proof.
  induction l1 as [|x l1 IH]; [done|]. intros [H1 Hx]%StronglySorted_inv H2 H. cbn. constructor.
  - apply IH; [done..|]. intros; apply H; [by right|done].
  - apply Forall_app. split; [done|]. apply Forall_forall. intros y Hy. apply H; [by left|done].
Qed.

Lemma sorted_nodup l : StronglySorted dp_before l -> NoDup l.
Proof.
  induction 1 as [|x l _ IH Hx]; constructor; [|done]. intros Hin. rewrite Forall_forall in Hx.
  by apply (irreflexivity dp_before x), Hx.
Qed.

Lemma StronglySorted_firstn k l : StronglySorted dp_before l -> StronglySorted dp_before (firstn k l).
Proof.
  revert k. induction l as [|x l IH]; intros [|k] H; cbn; try constructor; apply StronglySorted_inv in H as [H Hx].
  - by apply IH.
  - by apply Forall_take.
Qed.

Lemma validateDueBatch_spec pairs query : validateDueBatch pairs query = Ok tt ->
  llen pairs <= dq_Limit query /\ Forall (pair_ok (dq_At query)) pairs /\
  StronglySorted dp_before (option_list (dq_After query) ++ pairs).
Proof.
  unfold validateDueBatch. destruct (_ <? _) eqn:E; [done|]. intros [H1 H2]%validate_pairs_spec. go_bool.
  split_and!; [done..|]. apply Sorted_StronglySorted, H2. intros a b c. apply dp_before_strict.
Qed.

Lemma page_after query pairs first p : StronglySorted dp_before (option_list (dq_After query) ++ first :: pairs) ->
  forall c, dq_After query = Some c -> p ∈ first :: pairs -> dp_before c p.
Proof.
  intros Hs c Ec Hp. rewrite Ec in Hs. cbn in Hs. apply StronglySorted_inv in Hs as [_ Hs].
  rewrite Forall_forall in Hs. auto.
Qed.

Lemma page_sorted query pairs : StronglySorted dp_before (option_list (dq_After query) ++ pairs) ->
  StronglySorted dp_before pairs.
Proof. destruct (dq_After query); cbn; [|done]. by intros [? _]%StronglySorted_inv. Qed.

(** One page keeps the round's invariant. *)
Lemma round_inv_page evaluate query r evaluated first rest k r' :
  round_inv evaluate query r evaluated ->
  validateDueBatch (first :: rest) query = Ok tt ->
  rr_Admitted r' = rr_Admitted r -> rr_Completed r' = rr_Completed r -> rr_Failed r' = rr_Failed r ->
  round_inv evaluate
    (mkDueQuery (dq_At query) (Some (List.last (first :: rest) first)) (dq_Limit query))
    (evaluateBatch evaluate k (first :: rest) r') (evaluated ++ firstn k (first :: rest)).
Proof.
  intros [Hs Hc Hok Ha Hcm Hf] (_ & Hpairs & Hpage)%validateDueBatch_spec E1 E2 E3.
  pose proof (page_after query rest first) as Hafter. specialize (Hafter) with (1 := Hpage).
  pose proof (page_sorted _ _ Hpage) as Hsort.
  assert (first ∈ first :: rest) as Hfirst by by left.
  rewrite Forall_forall in Hc, Hok, Hpairs.
  assert (forall p, p ∈ firstn k (first :: rest) -> p ∈ first :: rest) as Hsub.
  { intros p Hp. rewrite <- (firstn_skipn k (first :: rest)). apply elem_of_app. by left. }
  constructor; cbn [dq_At dq_After dq_Limit evaluateBatch rr_Admitted rr_Completed rr_Failed].
  - apply StronglySorted_app_iff; [done|by apply StronglySorted_firstn|]. intros x y Hx Hy.
    destruct (Hc x Hx) as (c & Ec & [Hxc|Hxc]); [|subst x; by apply (Hafter _ c Ec), Hsub].
    transitivity c; [done|]. by apply (Hafter _ c Ec), Hsub.
  - apply Forall_app. split; apply Forall_forall; intros p Hp; eexists; (split; [done|]).
    + left. destruct (Hc p Hp) as (c & Ec & Hpc).
      assert (dp_before c (List.last (first :: rest) first)) as Hcl by by apply (Hafter _ c Ec), elem_of_last.
      destruct Hpc as [Hpc| ->]; [by transitivity c|done].
    + apply sorted_before_last; [done|by apply Hsub].
  - apply Forall_app. split; apply Forall_forall; [done|]. intros p Hp. by apply Hpairs, Hsub.
  - rewrite llen_app. congruence.
  - rewrite count_app. congruence.
  - rewrite count_app. congruence.
Qed.

Lemma round_loop_inv {E} due evaluate expired sent fuel : forall n query r evaluated r' evaluated' (err : option (RoundError E)),
  round_inv evaluate query r evaluated ->
  round_loop due evaluate expired sent fuel n query r evaluated = Some (r', evaluated', err) ->
  exists query', dq_At query' = dq_At query /\ round_inv evaluate query' r' evaluated'.
Proof.
  induction fuel as [|fuel IH]; [done|]. intros n query r evaluated r' evaluated' err Hinv. cbn [round_loop].
  destruct (expired n); [intros [= <- <- <-]; by eexists|].
  destruct (due n query) as [[|first rest]|e]; [intros [= <- <- <-]; by eexists| |intros [= <- <- <-]; by eexists].
  destruct (validateDueBatch (first :: rest) query) as [[]|e] eqn:Hv; [|intros [= <- <- <-]; by eexists].
  intros H. eapply IH in H as (query' & Eq & Hinv'); [by exists query'|].
  eapply round_inv_page; [exact Hinv|done|..]; by destruct (_ =? 0).
Qed.

(** ** Termination *)

#[export] Instance dp_before_dec a b : Decision (dp_before a b).
Proof. unfold dp_before. apply _. Defined.

(** The pairs of a finite store that still lie after the cursor. *)
Definition remaining (store : list DuePair) (query : DueQuery) : nat :=
  match dq_After query with
  | None => S (length store)
  | Some c => length (filter (dp_before c) store)
  end.

Lemma filter_length_lt c d (store : list DuePair) : dp_before c d -> d ∈ store ->
  (length (filter (dp_before d) store) < length (filter (dp_before c) store))%nat.
Proof.
  intros Hcd. induction store as [|p store IH]; [by intros ?%elem_of_nil|].
  assert (length (filter (dp_before d) store) <= length (filter (dp_before c) store))%nat as Hle.
  { clear IH. induction store as [|q store IH]; [done|]. rewrite !filter_cons.
    destruct (decide (dp_before d q)); [|case_decide; cbn; lia].
    rewrite decide_True by by transitivity d. cbn. lia. }
  intros [<-|Hd]%elem_of_cons; rewrite !filter_cons.
  - rewrite (decide_False (P := dp_before d d)) by apply dp_before_strict. rewrite decide_True by done. cbn. lia.
  - specialize (IH Hd). destruct (decide (dp_before d p)); [|case_decide; cbn; lia].
    rewrite decide_True by by transitivity d. cbn. lia.
Qed.

Lemma page_progress store query first rest : (forall p, p ∈ first :: rest -> p ∈ store) ->
  validateDueBatch (first :: rest) query = Ok tt ->
  (remaining store (mkDueQuery (dq_At query) (Some (List.last (first :: rest) first)) (dq_Limit query))
   < remaining store query)%nat.
Proof.
  intros Hin (_ & _ & Hs)%validateDueBatch_spec. unfold remaining. cbn [dq_After].
  assert (List.last (first :: rest) first ∈ first :: rest) as Hl by by apply elem_of_last.
  destruct (dq_After query) as [c|] eqn:Ec.
  - apply filter_length_lt; [|by apply Hin]. eapply page_after; [by rewrite Ec|done|done].
  - pose proof (length_filter (dp_before (List.last (first :: rest) first)) store). lia.
Qed.

Lemma round_loop_terminates {E} (due : nat -> DueQuery -> result E (list DuePair)) evaluate expired sent store fuel :
  (forall n q pairs, due n q = Ok pairs -> forall p, p ∈ pairs -> p ∈ store) ->
  forall n query r evaluated, (remaining store query < fuel)%nat ->
  exists out, round_loop due evaluate expired sent fuel n query r evaluated = Some out.
Proof.
  intros Hstore. induction fuel as [|fuel IH]; intros n query r evaluated Hf; [lia|]. cbn [round_loop].
  destruct (expired n); [by eexists|]. destruct (due n query) as [[|first rest]|e] eqn:Hd; [by eexists| |by eexists].
  destruct (validateDueBatch (first :: rest) query) as [[]|e] eqn:Hv; [|by eexists].
  apply IH. pose proof (page_progress store query first rest (Hstore _ _ _ Hd) Hv). lia.
Qed.

(** C4. Each due pair is evaluated at most once per round: whatever pages the
    source returns, the pairs handed to workers in one round are strictly
    increasing in the (due time, rule, node, device) order, hence distinct, and
    none is due later than the round's instant; the reported counters are
    exactly the numbers of pairs handed out, completed and failed. *)
Theorem round_evaluates_once {E} due evaluate expired sent fuel s at_ r evaluated (err : option (RoundError E)) s' :
  Round due evaluate expired sent fuel s at_ = (Some (r, evaluated, err), s') ->
  StronglySorted dp_before evaluated /\ NoDup evaluated /\
  Forall (fun p => dp_DueAt p <= at_) evaluated /\
  rr_Admitted r = llen evaluated /\ rr_Completed r = count evaluate Evaluated evaluated /\
  rr_Failed r = count evaluate EvaluationFailed evaluated /\
  rr_Completed r + rr_Failed r <= rr_Admitted r.
Proof.
  unfold Round. destruct (sch_running s); [intros [= <- <- <- <-]; by split_and!; try constructor|]. intros [= H _].
  apply round_loop_inv in H as (query' & Eq & [Hs _ Hok Ha Hc Hf]); [|by constructor; try constructor].
  split_and!; try done.
  - by apply sorted_nodup.
  - eapply Forall_impl; [done|]. unfold pair_ok. cbn in Eq. rewrite Eq. tauto.
  - rewrite Ha, Hc, Hf. clear. unfold count, llen. induction evaluated as [|p l IH]; [done|].
    rewrite !filter_cons. destruct (evaluate p); repeat case_decide; cbn [length]; (done || lia).
Qed.

(** C36. A round terminates without relying on its timeout: when every page is drawn
    from a finite set of stored pairs, at most one iteration per stored pair and
    two more are made, whatever the source returns and however evaluation goes. *)
Theorem round_terminates {E} (due : nat -> DueQuery -> result E (list DuePair)) evaluate expired sent store s at_ :
  (forall n q pairs, due n q = Ok pairs -> forall p, p ∈ pairs -> p ∈ store) ->
  exists out s', Round due evaluate expired sent (2 + length store) s at_ = (Some out, s') /\
    (sch_running s = false -> sch_running s' = false).
Proof.
  intros Hstore. unfold Round. destruct (sch_running s); [by eexists _, _|].
  destruct (round_loop_terminates due evaluate expired sent store (2 + length store) Hstore 0
    (mkDueQuery at_ None BatchSize) zero_round []) as [out Hout]; [cbn; lia|].
  exists out. eexists. by rewrite Hout.
Qed.

(** ** Worker pool: every interleaving gives the counters of evaluateBatch *)

Record batch_inv (evaluate : DuePair -> evaluation) (workers : nat) (pairs : list DuePair) (b : Batch) : Prop := {
  bi_split : exists sent finished, pairs = sent ++ ba_pending b /\ ba_Admitted b = llen sent /\
    sent ≡ₚ ba_busy b ++ finished /\
    ba_completed b = count evaluate Evaluated finished /\
    ba_failed b = count evaluate EvaluationFailed finished;
  bi_bound : (length (ba_busy b) <= workers)%nat }.

Lemma count_perm evaluate what l1 l2 : l1 ≡ₚ l2 -> count evaluate what l1 = count evaluate what l2.
Proof. intros H. unfold count, llen. by rewrite H. Qed.

Lemma count_cons evaluate what p l :
  count evaluate what (p :: l) = (if decide (evaluate p = what) then 1 else 0) + count evaluate what l.
Proof. unfold count, llen. rewrite filter_cons. case_decide; cbn [length]; lia. Qed.

Lemma batch_step_inv evaluate workers pairs b b' : batch_step evaluate workers b b' ->
  batch_inv evaluate workers pairs b -> batch_inv evaluate workers pairs b'.
Proof.
  intros Hstep [(sent & fin & Hp & Ha & Hperm & Hc & Hf) Hb].
  destruct Hstep as [p rest busy a c f Hw | p rest busy a c f | busy a c f | pending closed l1 p l2 a c f]; cbn in *.
  - split; [|cbn; lia]. exists (sent ++ [p]), fin. cbn. split_and!; try done.
    + by rewrite <- app_assoc.
    + rewrite llen_app, Ha. done.
    + rewrite Hperm. solve_Permutation.
  - split; [|done]. by exists sent, fin.
  - split; [|done]. by exists sent, fin.
  - split; [|cbn; rewrite length_app in *; cbn in *; lia]. exists sent, (p :: fin). cbn. split_and!; try done.
    + rewrite Hperm. solve_Permutation.
    + rewrite count_cons, Hc. destruct (evaluate p); case_decide; (done || lia).
    + rewrite count_cons, Hf. destruct (evaluate p); case_decide; (done || lia).
Qed.

Definition batch_measure (b : Batch) : nat :=
  2 * length (ba_pending b) + length (ba_busy b) + (if ba_closed b then 0 else 1).

Lemma batch_step_measure evaluate workers b b' : batch_step evaluate workers b b' ->
  (batch_measure b' < batch_measure b)%nat.
Proof. destruct 1; unfold batch_measure; cbn; rewrite ?length_app; cbn; lia. Qed.

(** The concurrent batch refines evaluateBatch: in every interleaving of the
    sender, the cancellation and the workers, at most [workers] pairs are being
    evaluated at once; a pool that is not done can move and the number of moves
    is bounded; and when it is done, the counters are those of evaluateBatch for
    some number of pairs sent. *)
Theorem batch_refines evaluate workers pairs b :
  (1 <= workers)%nat -> rtc (batch_step evaluate workers) (batch_start pairs) b ->
  (length (ba_busy b) <= workers)%nat /\
  (batch_measure b <= batch_measure (batch_start pairs))%nat /\
  (batch_done b \/ exists b', batch_step evaluate workers b b' /\ (batch_measure b' < batch_measure b)%nat) /\
  (batch_done b -> exists k,
     let r := evaluateBatch evaluate k pairs zero_round in
     ba_Admitted b = rr_Admitted r /\ ba_completed b = rr_Completed r /\ ba_failed b = rr_Failed r).
Proof.
  intros Hw Hrun.
  assert (batch_inv evaluate workers pairs b /\ (batch_measure b <= batch_measure (batch_start pairs))%nat) as [Hinv Hm].
  { assert (batch_inv evaluate workers pairs (batch_start pairs)) as H0 by (split; [by exists [], []|cbn; lia]).
    revert H0. induction Hrun as [|x y z Hstep _ IH]; [done|]. intros Hx.
    pose proof (batch_step_measure _ _ _ _ Hstep). destruct IH; [by eapply batch_step_inv|]. split; [done|lia]. }
  destruct Hinv as [(sent & fin & Hp & Ha & Hperm & Hc & Hf) Hb]. split_and!; [done..| |].
  - destruct b as [pending closed [|p busy] a c f].
    + destruct closed; [by left|]. right. destruct pending as [|q rest]; eexists.
      * split; [constructor|cbn; lia].
      * split; [by constructor|unfold batch_measure; cbn; lia].
    + right. eexists. split; [apply (BatchFinish _ _ pending closed [] p busy)|unfold batch_measure; cbn; lia].
  - intros [_ Hbusy]. exists (length sent). cbn. rewrite Hp, firstn_app, firstn_all, Nat.sub_diag. cbn.
    rewrite app_nil_r, Hbusy in *. cbn in Hperm. rewrite Ha, Hc, Hf, !(count_perm _ _ _ _ Hperm). done.
Qed.

(** ** Concrete rounds *)

Definition sample_pair (n : Z) (rule : string) : DuePair := mkDuePair rule "n1" "" n.
Definition sample_store : list DuePair := [sample_pair 5 "a"; sample_pair 5 "b"; sample_pair 9 "a"].
(** A source that pages through [sample_store] two pairs at a time. *)
Definition sample_due (_ : nat) (q : DueQuery) : result unit (list DuePair) :=
  Ok (firstn 2 (List.filter (fun p => match dq_After q with Some c => duePairBefore c p | None => true end)
                       sample_store)).
Definition sample_evaluate (p : DuePair) : evaluation :=
  if dp_RuleID p =s "b" then EvaluationFailed else Evaluated.

Definition sample_round := Round sample_due sample_evaluate (fun _ => false) (fun _ => 256%nat).

Lemma round_evaluates_once_witness :
  sample_round 5 (mkScheduler 4 false) 100 =
    (Some (mkRoundResult 2 1 3 0 false 95 false, sample_store, None), mkScheduler 4 false) /\
  NoDup sample_store.
Proof.
  assert (sample_round 5 (mkScheduler 4 false) 100 =
    (Some (mkRoundResult 2 1 3 0 false 95 false, sample_store, None), mkScheduler 4 false)) as H
    by (vm_compute; reflexivity).
  split; [exact H|]. exact (proj1 (proj2 (round_evaluates_once _ _ _ _ _ _ _ _ _ _ _ H))).
Defined.

Lemma sample_due_store n q pairs : sample_due n q = Ok pairs -> forall p, p ∈ pairs -> p ∈ sample_store.
Proof.
  intros H. apply (f_equal (fun r => match r with Ok l => l | Err _ => [] end)) in H. unfold sample_due in H.
  subst pairs. intros p (i & Hi%list_elem_of_lookup_2 & _)%elem_of_take. rewrite list_elem_of_In in *.
  by apply List.filter_In in Hi as [? _].
Qed.

Lemma round_terminates_witness :
  exists out s', sample_round 5 (mkScheduler 4 false) 100 = (Some out, s') /\
    (sch_running (mkScheduler 4 false) = false -> sch_running s' = false).
Proof.
  apply (round_terminates sample_due sample_evaluate (fun _ => false) (fun _ => 256%nat) sample_store).
  exact sample_due_store.
Defined.

Lemma batch_refines_witness :
  exists b, batch_done b /\ ba_completed b = 1 /\
    (batch_done b -> exists k, let r := evaluateBatch sample_evaluate k [sample_pair 5 "a"] zero_round in
       ba_Admitted b = rr_Admitted r /\ ba_completed b = rr_Completed r /\ ba_failed b = rr_Failed r).
Proof.
  exists (mkBatch [] true [] 1 1 0). split; [split; reflexivity|]. split; [reflexivity|].
  apply (batch_refines sample_evaluate 1 [sample_pair 5 "a"]); [lia|].
  eapply rtc_l; [apply BatchSend; cbn; lia|]. eapply rtc_l; [apply BatchClose|].
  eapply rtc_l; [apply (BatchFinish _ _ [] true [] (sample_pair 5 "a") [])|]. apply rtc_refl.
Defined.
