(* ===== verification/IngressClass.v ===== *)
(** * Ingress request classes

    internal/ingress/class.go: the fixed admission classes and the function that
    assigns one to a request by method and path. Each class has its own token
    buckets and in-flight budget (see IngressLimiter), so a request that lands in
    the wrong class spends someone else's budget. *)

From S2P Require Import Prelude GoText.

(** Class is a uint8; [OtherClass] stands for the values outside the enumeration. *)
Inductive Class :=
| PublicStatic | PublicSnapshot | PublicHistory | AuthKDF | AgentRead | AgentWrite
| AdminRead | AdminWrite | AdminExpensive | OtherClass (n : Z).

#[export] Instance Class_eq_dec : EqDecision Class.
Proof. solve_decision. Defined.

Definition ClassValid (class : Class) : bool := match class with OtherClass _ => false | _ => true end.

Definition ClassString (class : Class) : string :=
  match class with
  | PublicStatic => "public_static" | PublicSnapshot => "public_snapshot" | PublicHistory => "public_history"
  | AuthKDF => "auth_kdf" | AgentRead => "agent_read" | AgentWrite => "agent_write"
  | AdminRead => "admin_read" | AdminWrite => "admin_write" | AdminExpensive => "admin_expensive"
  | OtherClass _ => "unknown"
  end.

Definition Classes : list Class :=
  [PublicStatic; PublicSnapshot; PublicHistory; AuthKDF; AgentRead; AgentWrite; AdminRead; AdminWrite; AdminExpensive].

Definition apiPrefix : string := "/api/v1/".

Definition expensiveAdminFragments : list string :=
  ["/backups/uploads"; "/runtime/captures"; "/runtime/summary"; "/diagnostics/jobs"; "/themes/upload";
   "/export"; "/download"; "/geoip"].
Definition expensiveAdminWriteFragments : list string :=
  ["/theme-markets"; "/metric-erasure/jobs"; "/operations/tasks"; "/operations/transfers"].

Definition readMethod (method : string) : bool := (method =s "GET") || (method =s "HEAD").

Definition authKDFPath (target : string) : bool :=
  str_in target ["/api/v1/auth/login"; "/api/v1/auth/bootstrap"; "/api/v1/auth/reauthenticate";
                 "/api/v1/admin/users/me/password"].

Definition containsFragment (target : string) (fragments : list string) : bool :=
  existsb (Contains target) fragments.

Definition adminClass (method target : string) : Class :=
  if containsFragment target expensiveAdminFragments then AdminExpensive
  else if readMethod method then AdminRead
  else if containsFragment target expensiveAdminWriteFragments then AdminExpensive
  else AdminWrite.

Definition publicSnapshotClass (method target : string) : Class :=
  if readMethod method then PublicSnapshot else adminClass method target.

Definition publicStaticClass (method target : string) : Class :=
  if readMethod method then PublicStatic else adminClass method target.

Definition privateNodePath (target : string) : bool :=
  if str_in target ["/api/v1/nodes/manage"; "/api/v1/nodes/report"; "/api/v1/nodes/sort"] then true
  else HasSuffix target "/install" || Contains target "/token/".

Definition publicSnapshotPath (target : string) : bool :=
  if (target =s "/api/v1/network/quality") || HasPrefix target "/api/v1/network/quality/" then true
  else if (target =s "/api/v1/nodes") || HasPrefix target "/api/v1/nodes/" then negb (privateNodePath target)
  else false.

Definition publicWritePath (target : string) : bool := target =s "/api/v1/public/interactions".

Definition publicStaticPath (target : string) : bool :=
  str_in target ["/api/v1/settings/site"; "/api/v1/groups"; "/api/v1/themes/active"; "/api/v1/auth/state";
                 "/api/v1/auth/oidc/providers"; "/api/v1/auth/oidc/callback"].

Definition publicMetricClass (method target : string) : Class :=
  if (target =s "/api/v1/metrics/query") && (method =s "POST") then PublicHistory
  else publicStaticClass method target.

Definition publicMetricPath (target : string) : bool :=
  str_in target ["/api/v1/metrics/catalog"; "/api/v1/metrics/query"; "/api/v1/metrics/dashboards/default";
                 "/api/v1/metrics/annotations"]
  || HasPrefix target "/api/v1/metrics/snapshots/".

Definition websocketPath (target : string) : bool := str_in target ["/api/v1/agents/ws"; "/api/v1/ws/metrics"].

Definition Classify (method path : string) : Class * bool :=
  if negb (HasPrefix path apiPrefix) then (PublicStatic, false)
  else
    let target := TrimSuffix path "/" in
    if authKDFPath target then (AuthKDF, true)
    else if str_in target ["/api/v1/nodes/report"; "/api/v1/network/results"] then (AgentWrite, true)
    else if target =s "/api/v1/network/assignments" then (AgentRead, true)
    else if websocketPath target then (PublicStatic, false)
    else if publicWritePath target then (PublicStatic, true)
    else if HasPrefix target "/api/v1/admin/" then (adminClass method target, true)
    else if HasPrefix target "/api/v1/network/tasks" then (adminClass method target, true)
    else if publicMetricPath target then (publicMetricClass method target, true)
    else if HasSuffix target "/history" then (PublicHistory, true)
    else if publicStaticPath target then (publicStaticClass method target, true)
    else if publicSnapshotPath target then (publicSnapshotClass method target, true)
    else (adminClass method target, true).

(** ** Properties *)

Definition admin_budget (c : Class) : bool :=
  match c with AdminRead | AdminWrite | AdminExpensive => true | _ => false end.

Lemma adminClass_budget method target : admin_budget (adminClass method target) = true.
Proof. unfold adminClass. by repeat case_match. Qed.

(** A path under a prefix is none of the listed strings that lack it. *)
Lemma not_listed s p l : HasPrefix s p = true -> forallb (fun x => negb (HasPrefix x p)) l = true ->
  str_in s l = false.
Proof.
  intros Hp Hl. destruct (str_in s l) eqn:E; [|done]. apply str_in_spec in E.
  rewrite forallb_forall in Hl. specialize (Hl s ltac:(by apply list_elem_of_In)). by rewrite Hp in Hl.
Qed.

Lemma not_equal s p x : HasPrefix s p = true -> HasPrefix x p = false -> (s =s x) = false.
Proof. intros Hs Hx. apply String.eqb_neq. intros ->. congruence. Qed.

(** The management surface never spends a public budget: every request whose
    path lies under /api/v1/admin/, with any method and with or without a
    trailing slash, is admitted under one of the three admin classes, or under
    the password-hashing class. *)
Theorem admin_paths_use_admin_budget method path :
  HasPrefix path "/api/v1/admin/" = true ->
  exists c, Classify method path = (c, true) /\
    (admin_budget c = true \/ (c = AuthKDF /\ authKDFPath (TrimSuffix path "/") = true)).
Proof.
  intros Hp. unfold Classify.
  assert (HasPrefix path apiPrefix = true) as ->.
  { apply HasPrefix_spec in Hp as [t ->]. apply HasPrefix_spec. exists ("admin/" +:+ t). reflexivity. }
  cbn [negb]. destruct (authKDFPath _) eqn:Hk; [by eexists; split; [|right]|].
  destruct (trimmed_prefix path "/api/v1/admin/" "/" Hp) as [Ht| ->].
  2:{ exists (adminClass method "/api/v1/admin"). split; [reflexivity|]. left. apply adminClass_budget. }
  unfold websocketPath, publicWritePath. rewrite !(not_listed _ _ _ Ht) by reflexivity.
  rewrite !(not_equal _ _ _ Ht) by reflexivity.
  rewrite Ht. eexists. split; [reflexivity|]. left. apply adminClass_budget.
Qed.

Lemma admin_paths_use_admin_budget_witness :
  exists c, Classify "DELETE" "/api/v1/admin/nodes/n1/history" = (c, true) /\
    (admin_budget c = true \/ (c = AuthKDF /\
      authKDFPath (TrimSuffix "/api/v1/admin/nodes/n1/history" "/") = true)).
Proof. apply (admin_paths_use_admin_budget "DELETE"). reflexivity. Defined.

(** Anonymous writes stay out of the public budgets: a request with a method
    other than GET and HEAD is never admitted as a public snapshot, is admitted
    as public static only on the one anonymous write endpoint, and as public
    history only on the series query endpoint or on a path ending in /history. *)
Theorem writes_leave_public_budgets method path c :
  readMethod method = false -> Classify method path = (c, true) ->
  c <> PublicSnapshot /\
  (c = PublicStatic -> TrimSuffix path "/" = "/api/v1/public/interactions") /\
  (c = PublicHistory -> TrimSuffix path "/" = "/api/v1/metrics/query" \/ HasSuffix (TrimSuffix path "/") "/history" = true).
Proof.
  intros Hr. unfold Classify. destruct (HasPrefix path apiPrefix); [|done]. cbn [negb].
  generalize (TrimSuffix path "/"). intros target.
  assert (forall c, (adminClass method target, true) = (c, true) -> c <> PublicSnapshot /\ c <> PublicStatic /\ c <> PublicHistory)
    as Hadmin.
  { intros c' [= <-]. pose proof (adminClass_budget method target). by destruct (adminClass method target). }
  unfold publicWritePath, publicMetricClass, publicStaticClass, publicSnapshotClass. rewrite Hr.
  repeat match goal with
  | |- context [if ?b then _ else _] => destruct b eqn:?
  end; intros H; try (by apply Hadmin in H as (? & ? & ?)); injection H as <-; split_and!; try done;
    go_bool; try tauto; intros _; by left.
Qed.

Lemma writes_leave_public_budgets_witness :
  Classify "POST" "/api/v1/public/interactions" = (PublicStatic, true) /\ PublicStatic <> PublicSnapshot.
Proof.
  assert (Classify "POST" "/api/v1/public/interactions" = (PublicStatic, true)) as H by reflexivity.
  split; [exact H|]. exact (proj1 (writes_leave_public_budgets "POST" _ _ eq_refl H)).
Defined.

(** An API path that no rule of Classify knows is admitted under the public
    history budget as soon as it ends in /history, with any method. *)
Lemma unknown_history_is_public method : Classify method "/api/v1/unknown/history" = (PublicHistory, true).
Proof. reflexivity. Qed.
