(* ===== verification/IngressLimiter.v ===== *)
(** * Ingress admission control

    internal/ingress: capacity.go, bucket.go, limiter.go, rejection.go and
    view.go. A limiter keeps, per class, a global token bucket and an in-flight
    count, and per (class, client identity) a bucket and an in-flight count in a
    bounded table. Admit takes a lease or rejects; Release gives it back once.

    Every operation holds the limiter's mutex from start to end, so a sequence
    of whole operations is every interleaving. The clock's reading is an
    argument of the operations that read it; Go's map iteration order, which the
    language leaves open, is the argument [order] of pruneLocked. Arrays indexed
    by class are functions on [Class]. *)

From S2P Require Import Prelude GoFloat GoText IngressClass.

(** ** capacity.go *)

Definition maximumRatePerSecond : Z := 100000.
Definition maximumBurst : Z := 2 ^ 20.
Definition maximumInFlight : Z := 4096.
Definition minimumIdentityEntries : Z := 16.
Definition maximumIdentityEntries : Z := 65536.
Definition minimumIdentityTTL : Duration := Second.
Definition maximumIdentityTTL : Duration := Hour.
Definition defaultIdentityEntries : Z := 4096.
Definition defaultIdentityTTL : Duration := 10 * Minute.

Record Rate := mkRate { ra_PerSecond : float64; ra_Burst : Z }.
Record Policy := mkPolicy {
  po_GlobalRate : Rate; po_IdentityRate : Rate; po_GlobalInFlight : Z; po_IdentityInFlight : Z }.
Record Capacity := mkCapacity {
  cp_Policies : Class -> Policy; cp_IdentityEntries : Z; cp_IdentityTTL : Duration }.

Definition policy (globalRate globalBurst identityRate identityBurst globalInFlight identityInFlight : Z) : Policy :=
  mkPolicy (mkRate (f_of_Z globalRate) globalBurst) (mkRate (f_of_Z identityRate) identityBurst)
    globalInFlight identityInFlight.

Definition DefaultCapacity : Capacity :=
  mkCapacity (fun class => match class with
    | PublicStatic => policy 400 800 40 80 512 16
    | PublicSnapshot => policy 200 400 20 40 256 8
    | PublicHistory => policy 20 40 4 8 32 2
    | AuthKDF => policy 8 16 1 4 8 1
    | AgentRead => policy 500 1000 20 40 256 4
    | AgentWrite => policy 200 400 10 20 128 1
    | AdminRead => policy 50 100 10 20 64 4
    | AdminWrite => policy 20 40 5 10 32 2
    | AdminExpensive => policy 4 8 1 2 4 1
    | OtherClass _ => policy 0 0 0 0 0 0
    end) defaultIdentityEntries defaultIdentityTTL.

(** The errors of Validate, by the check that failed. *)
Inductive CapacityError :=
| RateOutOfRange (class : Class) (scope : string)
| BurstOutOfRange (class : Class) (scope : string)
| IdentityRateExceedsGlobal (class : Class)
| IdentityBurstExceedsGlobal (class : Class)
| GlobalInFlightOutOfRange (class : Class)
| IdentityInFlightOutOfRange (class : Class)
| IdentityEntriesOutOfRange
| IdentityTTLOutOfRange.

Definition validateRate (class : Class) (rate : Rate) (scope : string) : result CapacityError unit :=
  if IsNaN (ra_PerSecond rate) || IsInf (ra_PerSecond rate)
     || (ra_PerSecond rate <= f_of_Z 0)%f64 || (ra_PerSecond rate > f_of_Z maximumRatePerSecond)%f64
  then Err (RateOutOfRange class scope)
  else if (ra_Burst rate <? 1) || (maximumBurst <? ra_Burst rate) then Err (BurstOutOfRange class scope)
  else Ok tt.

Definition validatePolicy (class : Class) (p : Policy) : result CapacityError unit :=
  let* _ := validateRate class (po_GlobalRate p) "global" in
  let* _ := validateRate class (po_IdentityRate p) "identity" in
  if (ra_PerSecond (po_IdentityRate p) > ra_PerSecond (po_GlobalRate p))%f64 then Err (IdentityRateExceedsGlobal class)
  else if ra_Burst (po_GlobalRate p) <? ra_Burst (po_IdentityRate p) then Err (IdentityBurstExceedsGlobal class)
  else if (po_GlobalInFlight p <? 1) || (maximumInFlight <? po_GlobalInFlight p) then Err (GlobalInFlightOutOfRange class)
  else if (po_IdentityInFlight p <? 1) || (po_GlobalInFlight p <? po_IdentityInFlight p)
  then Err (IdentityInFlightOutOfRange class)
  else Ok tt.

Fixpoint validateClasses (capacity : Capacity) (classes : list Class) : result CapacityError unit :=
  match classes with
  | [] => Ok tt
  | class :: rest => let* _ := validatePolicy class (cp_Policies capacity class) in validateClasses capacity rest
  end.

Definition Validate (capacity : Capacity) : result CapacityError unit :=
  let* _ := validateClasses capacity Classes in
  if (cp_IdentityEntries capacity <? minimumIdentityEntries) || (maximumIdentityEntries <? cp_IdentityEntries capacity)
  then Err IdentityEntriesOutOfRange
  else if (cp_IdentityTTL capacity <? minimumIdentityTTL) || (maximumIdentityTTL <? cp_IdentityTTL capacity)
  then Err IdentityTTLOutOfRange
  else Ok tt.

(** ** rejection.go *)

Definition maximumRetryAfter : Z := 60.
Inductive Reason := ReasonClassRate | ReasonIdentityRate | ReasonClassBusy | ReasonIdentityBusy | ReasonTableFull.
#[export] Instance Reason_eq_dec : EqDecision Reason.
Proof. solve_decision. Defined.

Definition ReasonString (reason : Reason) : string :=
  match reason with
  | ReasonClassRate => "class_rate" | ReasonIdentityRate => "identity_rate" | ReasonClassBusy => "class_busy"
  | ReasonIdentityBusy => "identity_busy" | ReasonTableFull => "table_full"
  end.
Definition Reasons : list Reason :=
  [ReasonClassRate; ReasonIdentityRate; ReasonClassBusy; ReasonIdentityBusy; ReasonTableFull].

Record Rejection := mkRejection { rj_Reason : Reason; rj_Status : Z; rj_RetryAfter : Z }.

Definition clampRetryAfter (seconds : Z) : Z := Z.min (Z.max seconds 1) maximumRetryAfter.
Definition newRejection (reason : Reason) (status retryAfter : Z) : Rejection :=
  mkRejection reason status (clampRetryAfter retryAfter).

Definition classBusyRetryAfter : Z := 1.
Definition identityBusyRetryAfter : Z := 1.
Definition tableFullRetryAfter : Z := 5.
Definition StatusTooManyRequests : Z := 429.
Definition StatusServiceUnavailable : Z := 503.

(** ** bucket.go *)

Record bucket := mkBucket { bk_tokens : float64; bk_updated : Time }.

Definition newBucket (rate : Rate) (now : Time) : bucket := mkBucket (f_of_Z (ra_Burst rate)) now.

Definition refill (value : bucket) (rate : Rate) (now : Time) : bucket :=
  let elapsed := Seconds (Sub now (bk_updated value)) in
  if (elapsed <= f_of_Z 0)%f64 then value
  else mkBucket (f_min (f_of_Z (ra_Burst rate)) (bk_tokens value + elapsed * ra_PerSecond rate)%f64) now.

(** [out_of_range] is what int() gives on a float outside the range of int. *)
Definition retryAfter (out_of_range : float64 -> Z) (value : bucket) (rate : Rate) : Z :=
  let missing := (f_one - bk_tokens value)%f64 in
  if (missing <= f_of_Z 0)%f64 then 1
  else
    let seconds := f_to_int out_of_range (f_ceil (missing / ra_PerSecond rate)%f64) in
    if seconds <? 1 then 1 else Z.min seconds maximumRetryAfter.

(** ** limiter.go *)

Definition pruneBatch : Z := 512.

Abbreviation identityKey := (Class * string)%type (only parsing).

#[export] Instance Class_countable : Countable Class.
Proof.
  apply (inj_countable'
    (fun c => match c with
      | PublicStatic => inl 0 | PublicSnapshot => inl 1 | PublicHistory => inl 2 | AuthKDF => inl 3
      | AgentRead => inl 4 | AgentWrite => inl 5 | AdminRead => inl 6 | AdminWrite => inl 7
      | AdminExpensive => inl 8 | OtherClass n => inr n end)
    (fun x => match x with
      | inl 0 => PublicStatic | inl 1 => PublicSnapshot | inl 2 => PublicHistory | inl 3 => AuthKDF
      | inl 4 => AgentRead | inl 5 => AgentWrite | inl 6 => AdminRead | inl 7 => AdminWrite
      | inl _ => AdminExpensive | inr n => OtherClass n end)).
  by intros [].
Defined.

Record identityState := mkIdentityState { is_bucket : bucket; is_inFlight : Z; is_seen : Time }.

Record Limiter := mkLimiter {
  lm_capacity : Capacity;
  lm_global : Class -> bucket;
  lm_globalInFlight : Class -> Z;
  lm_identities : gmap identityKey identityState;
  lm_admitted : Class -> Z;
  lm_rejected : Class -> Z;
  lm_rejectedReasons : Class -> Reason -> Z }.

(** a[i] = v for an array indexed by class or reason. *)
Definition update {I A} `{EqDecision I} (a : I -> A) (i : I) (v : A) : I -> A :=
  fun j => if decide (j = i) then v else a j.

(** counter++ on a uint64. *)
Definition incr64 (n : Z) : Z := (n + 1) mod 2 ^ 64.

Definition set_lm_identities (m : gmap identityKey identityState) (l : Limiter) : Limiter :=
  mkLimiter (lm_capacity l) (lm_global l) (lm_globalInFlight l) m (lm_admitted l) (lm_rejected l) (lm_rejectedReasons l).
Definition set_lm_global (class : Class) (b : bucket) (l : Limiter) : Limiter :=
  mkLimiter (lm_capacity l) (update (lm_global l) class b) (lm_globalInFlight l) (lm_identities l)
    (lm_admitted l) (lm_rejected l) (lm_rejectedReasons l).
Definition set_lm_globalInFlight (class : Class) (n : Z) (l : Limiter) : Limiter :=
  mkLimiter (lm_capacity l) (lm_global l) (update (lm_globalInFlight l) class n) (lm_identities l)
    (lm_admitted l) (lm_rejected l) (lm_rejectedReasons l).

Definition newLimiter (capacity : Capacity) (now : Time) : Limiter :=
  mkLimiter capacity (fun class => newBucket (po_GlobalRate (cp_Policies capacity class)) now)
    (fun _ => 0) ∅ (fun _ => 0) (fun _ => 0) (fun _ _ => 0).

Definition New (capacity : Capacity) (now : Time) : result CapacityError Limiter :=
  let* _ := Validate capacity in Ok (newLimiter capacity now).

(** The range over the identity table, in the order the runtime picks; entries
    are dropped in place and the loop stops after a batch of them. *)
Fixpoint prune_loop (deadline : Time) (order : list identityKey) (scanned : Z)
    (m : gmap identityKey identityState) : gmap identityKey identityState :=
  match order with
  | [] => m
  | key :: rest =>
      match m !! key with
      | None => prune_loop deadline rest scanned m
      | Some state =>
          if (0 <? is_inFlight state) || After (is_seen state) deadline
          then prune_loop deadline rest scanned m
          else
            let m := delete key m in
            let scanned := scanned + 1 in
            if pruneBatch <=? scanned then m else prune_loop deadline rest scanned m
      end
  end.

Definition pruneLocked (order : list identityKey) (now : Time) (l : Limiter) : Limiter :=
  let deadline := Add now (- cp_IdentityTTL (lm_capacity l)) in
  set_lm_identities (prune_loop deadline order 0 (lm_identities l)) l.

(** identityLocked: the entry of [key], created if the table has room; the
    entry is then the one stored in the table. *)
Definition identityLocked (key : identityKey) (p : Policy) (now : Time) (l : Limiter)
  : option identityState * Limiter :=
  match lm_identities l !! key with
  | Some state => (Some state, l)
  | None =>
      if cp_IdentityEntries (lm_capacity l) <=? Z.of_nat (size (lm_identities l)) then (None, l)
      else
        let state := mkIdentityState (newBucket (po_IdentityRate p) now) 0 now in
        (Some state, set_lm_identities (<[key := state]> (lm_identities l)) l)
  end.

Definition admitLocked (out_of_range : float64 -> Z) (key : identityKey) (now : Time) (l : Limiter)
  : option Rejection * Limiter :=
  let class := key.1 in
  let p := cp_Policies (lm_capacity l) class in
  if po_GlobalInFlight p <=? lm_globalInFlight l class then
    (Some (newRejection ReasonClassBusy StatusServiceUnavailable classBusyRetryAfter), l)
  else
    match identityLocked key p now l with
    | (None, l) => (Some (newRejection ReasonTableFull StatusTooManyRequests tableFullRetryAfter), l)
    | (Some state, l) =>
        if po_IdentityInFlight p <=? is_inFlight state then
          (Some (newRejection ReasonIdentityBusy StatusTooManyRequests identityBusyRetryAfter), l)
        else
          let global := refill (lm_global l class) (po_GlobalRate p) now in
          let own := refill (is_bucket state) (po_IdentityRate p) now in
          let state := mkIdentityState own (is_inFlight state) (is_seen state) in
          let l := set_lm_global class global l |> set_lm_identities (<[key := state]> (lm_identities l)) in
          if (bk_tokens global < f_one)%f64 then
            (Some (newRejection ReasonClassRate StatusTooManyRequests
                     (retryAfter out_of_range global (po_GlobalRate p))), l)
          else if (bk_tokens own < f_one)%f64 then
            (Some (newRejection ReasonIdentityRate StatusTooManyRequests
                     (retryAfter out_of_range own (po_IdentityRate p))), l)
          else
            let spend b := mkBucket (bk_tokens b - f_one)%f64 (bk_updated b) in
            let state := mkIdentityState (spend own) (is_inFlight state + 1) now in
            (None, set_lm_global class (spend global) l
                     |> set_lm_identities (<[key := state]> (lm_identities l))
                     |> set_lm_globalInFlight class (lm_globalInFlight l class + 1))
    end.

(** Admit: the lease is the key it was taken for; [None] without a rejection is
    the empty lease of an invalid class. *)
Definition Admit (out_of_range : float64 -> Z) (order : list identityKey) (now : Time)
    (class : Class) (identity : string) (l : Limiter) : option identityKey * option Rejection * Limiter :=
  if negb (ClassValid class) then (None, None, l)
  else
    let key := (class, identity) in
    match admitLocked out_of_range key now (pruneLocked order now l) with
    | (Some rejection, l) =>
        (None, Some rejection,
         mkLimiter (lm_capacity l) (lm_global l) (lm_globalInFlight l) (lm_identities l) (lm_admitted l)
           (update (lm_rejected l) class (incr64 (lm_rejected l class)))
           (update (lm_rejectedReasons l) class
              (update (lm_rejectedReasons l class) (rj_Reason rejection)
                 (incr64 (lm_rejectedReasons l class (rj_Reason rejection))))))
    | (None, l) =>
        (Some key, None,
         mkLimiter (lm_capacity l) (lm_global l) (lm_globalInFlight l) (lm_identities l)
           (update (lm_admitted l) class (incr64 (lm_admitted l class))) (lm_rejected l) (lm_rejectedReasons l))
    end.

(** The body of Release that once.Do runs. *)
Definition releaseLocked (key : identityKey) (now : Time) (l : Limiter) : Limiter :=
  let l := match lm_identities l !! key with
    | Some state => set_lm_identities
        (<[key := mkIdentityState (is_bucket state) (Z.max (is_inFlight state - 1) 0) now]> (lm_identities l)) l
    | None => l
    end in
  set_lm_globalInFlight key.1 (Z.max (lm_globalInFlight l key.1 - 1) 0) l.

(** Release on a lease whose once flag is [done]. *)
Definition Release (key : identityKey) (done : bool) (now : Time) (l : Limiter) : Limiter * bool :=
  if done then (l, true) else (releaseLocked key now l, true).

(** ** view.go *)

Record Limits := mkLimits {
  li_GlobalRatePerSecond : float64; li_GlobalBurst : Z; li_GlobalInFlight : Z;
  li_IdentityRatePerSecond : float64; li_IdentityBurst : Z; li_IdentityInFlight : Z }.
Record ReasonCount := mkReasonCount { rc_Reason : string; rc_Count : Z }.
Record ClassView := mkClassView {
  cv_Class : string; cv_Admitted : Z; cv_Rejected : Z; cv_Reasons : list ReasonCount; cv_InFlight : Z;
  cv_IdentityEntries : Z; cv_Limits : Limits }.
Record SnapshotView := mkSnapshotView {
  sn_IdentityEntries : Z; sn_IdentityEntriesLimit : Z; sn_IdentityTTLSeconds : float64; sn_Classes : list ClassView }.

Definition classView (l : Limiter) (class : Class) (entries : Z) : ClassView :=
  let p := cp_Policies (lm_capacity l) class in
  mkClassView (ClassString class) (lm_admitted l class) (lm_rejected l class)
    (map (fun reason => mkReasonCount (ReasonString reason) (lm_rejectedReasons l class reason)) Reasons)
    (lm_globalInFlight l class) entries
    (mkLimits (ra_PerSecond (po_GlobalRate p)) (ra_Burst (po_GlobalRate p)) (po_GlobalInFlight p)
       (ra_PerSecond (po_IdentityRate p)) (ra_Burst (po_IdentityRate p)) (po_IdentityInFlight p)).

Definition Snapshot (l : Limiter) : SnapshotView :=
  let keys := (map_to_list (lm_identities l)).*1 in
  let entries class := llen (filter (fun key : identityKey => key.1 = class) keys) in
  mkSnapshotView (Z.of_nat (size (lm_identities l))) (cp_IdentityEntries (lm_capacity l))
    (Seconds (cp_IdentityTTL (lm_capacity l)))
    (map (fun class => classView l class (entries class)) Classes).
