(* ===== verification/IngressInvariant.v ===== *)
(** * Correctness of ingress admission

    The limiter along every sequence of Admit and Release calls: in-flight
    counts equal the leases that are out, no budget and no table bound is ever
    exceeded, pruning never forgets an identity that holds a lease, releasing
    twice changes nothing, and at one instant a class or an identity is never
    admitted more often than its burst. *)

From S2P Require Import Prelude GoFloat GoText IngressClass IngressLimiter.

(** ** The limiter and the leases it has handed out *)

(** A lease and whether its once has run. *)
Abbreviation lease := ((Class * string) * bool)%type (only parsing).

Record System := mkSystem { sy_limiter : Limiter; sy_leases : list lease }.

Section system.
Variable out_of_range : float64 -> Z.

(** One call at the instant [now]. *)
Inductive system_step (now : Time) : System -> System -> Prop :=
| SysAdmit s order class identity granted rejection l :
    Admit out_of_range order now class identity (sy_limiter s) = (granted, rejection, l) ->
    system_step now s (mkSystem l (sy_leases s ++ match granted with Some key => [(key, false)] | None => [] end))
| SysRelease s i key done l done' :
    sy_leases s !! i = Some (key, done) -> Release key done now (sy_limiter s) = (l, done') ->
    system_step now s (mkSystem l (<[i := (key, done')]> (sy_leases s))).

Definition any_step (s s' : System) : Prop := exists now, system_step now s s'.
End system.

Definition system_start (capacity : Capacity) (now : Time) : System := mkSystem (newLimiter capacity now) [].

(** Leases of a class, or of an identity, that are still out. *)
Definition held_class (class : Class) (leases : list lease) : Z :=
  llen (filter (fun x : lease => x.2 = false /\ x.1.1 = class) leases).
Definition held (key : Class * string) (leases : list lease) : Z :=
  llen (filter (fun x : lease => x.2 = false /\ x.1 = key) leases).

Definition inflight (m : gmap (Class * string) identityState) (key : Class * string) : Z :=
  match m !! key with Some state => is_inFlight state | None => 0 end.

Record limiter_ok (l : Limiter) (leases : list lease) : Prop := {
  ok_global : forall class, lm_globalInFlight l class = held_class class leases;
  ok_identity : forall key, inflight (lm_identities l) key = held key leases;
  ok_global_limit : forall class, ClassValid class = true ->
    lm_globalInFlight l class <= po_GlobalInFlight (cp_Policies (lm_capacity l) class);
  ok_identity_limit : forall key, ClassValid key.1 = true ->
    inflight (lm_identities l) key <= po_IdentityInFlight (cp_Policies (lm_capacity l) key.1);
  ok_size : Z.of_nat (size (lm_identities l)) <= cp_IdentityEntries (lm_capacity l);
  ok_keys : forall key state, lm_identities l !! key = Some state -> ClassValid key.1 = true }.

(** ** Counting leases *)

Lemma held_le_class key leases : held key leases <= held_class key.1 leases.
Proof.
  unfold held, held_class, llen. induction leases as [|x l IH]; [done|]. rewrite !filter_cons.
  destruct (decide (x.2 = false /\ x.1 = key)) as [[E1 E2]|]; [|case_decide; cbn [length]; lia].
  rewrite decide_True by (split; congruence). cbn [length]. lia.
Qed.

(** ** Pruning *)

(** What pruning may do to one entry: keep it, or drop it when it holds nothing. *)
Definition pruned (deadline : Time) (m m' : gmap (Class * string) identityState) : Prop :=
  forall key, m' !! key = m !! key \/
    (m' !! key = None /\ exists state, m !! key = Some state /\ is_inFlight state <= 0 /\ is_seen state <= deadline).

Lemma prune_loop_spec deadline order : forall scanned m, pruned deadline m (prune_loop deadline order scanned m).
Proof.
  induction order as [|key rest IH]; intros scanned m; cbn [prune_loop]; [by left|].
  destruct (m !! key) as [state|] eqn:Hk; [|apply IH]. destruct (_ || _) eqn:E; [apply IH|].
  unfold After in E. go_bool. destruct E as [E1 E2].
  assert (forall m', pruned deadline (delete key m) m' -> pruned deadline m m') as Htrans.
  { intros m' Hm k. destruct (decide (k = key)) as [->|Hn].
    - right. split; [|by eexists]. destruct (Hm key) as [H|[H _]]; [|done]. by rewrite H, lookup_delete_eq.
    - specialize (Hm k). by rewrite lookup_delete_ne in Hm. }
  destruct (_ <=? _); apply Htrans; [by left|apply IH].
Qed.

Lemma pruned_subseteq deadline m m' : pruned deadline m m' -> m' ⊆ m.
Proof.
  intros H. apply map_subseteq_spec. intros k x Hx. destruct (H k) as [E|[E _]]; congruence.
Qed.

Lemma pruned_inflight deadline m m' key : pruned deadline m m' -> 0 <= inflight m key ->
  inflight m' key = inflight m key.
Proof.
  intros H Hk. unfold inflight in *. destruct (H key) as [->|(E & state & Es & Hs & _)]; [done|].
  rewrite E, Es in *. lia.
Qed.

(** ** One admission *)

(** The state changes a rejected admission may make: buckets are refilled and the
    identity may be entered, but no in-flight count moves. *)
Record unmoved (l l' : Limiter) : Prop := {
  um_capacity : lm_capacity l' = lm_capacity l;
  um_global : lm_globalInFlight l' = lm_globalInFlight l;
  um_identity : forall k, inflight (lm_identities l') k = inflight (lm_identities l) k }.

(** The table stays within its bound and holds valid keys only. *)
Definition table_ok (l : Limiter) : Prop :=
  Z.of_nat (size (lm_identities l)) <= cp_IdentityEntries (lm_capacity l) /\
  forall k state, lm_identities l !! k = Some state -> ClassValid k.1 = true.

Lemma size_insert_present (m : gmap (Class * string) identityState) key state state' :
  m !! key = Some state -> size (<[key := state']> m) = size m.
Proof. intros H. apply map_size_insert_Some. by eexists. Qed.

Lemma table_insert l l' key state state' : table_ok l -> lm_identities l !! key = Some state ->
  lm_capacity l' = lm_capacity l -> lm_identities l' = <[key := state']> (lm_identities l) -> table_ok l'.
Proof.
  intros [Hs Hk] Hl Hc Hm. unfold table_ok. rewrite Hc, Hm, (size_insert_present _ _ _ _ Hl). split; [done|].
  intros k x. destruct (decide (k = key)) as [->|Hn]; [intros _; by eapply Hk|].
  rewrite lookup_insert_ne by done. apply Hk.
Qed.

Lemma identityLocked_spec key p now l state l' : identityLocked key p now l = (state, l') ->
  table_ok l -> ClassValid key.1 = true ->
  unmoved l l' /\ table_ok l' /\
  match state with
  | Some st => lm_identities l' !! key = Some st /\ is_inFlight st = inflight (lm_identities l) key
  | None => l' = l /\ lm_identities l !! key = None /\ cp_IdentityEntries (lm_capacity l) <= Z.of_nat (size (lm_identities l))
  end.
Proof.
  unfold identityLocked, inflight. intros H [Hs Hk] Hv. destruct (lm_identities l !! key) as [st|] eqn:E.
  { injection H as <- <-. done. }
  destruct (_ <=? _) eqn:Hfull; injection H as <- <-; go_bool; [done|]. cbn.
  split_and!; [|split|by rewrite lookup_insert_eq|done].
  - constructor; cbn; [done..|]. intros k. unfold inflight. destruct (decide (k = key)) as [->|Hn].
    + by rewrite lookup_insert_eq, E.
    + by rewrite lookup_insert_ne.
  - cbn. rewrite map_size_insert_None by done. lia.
  - cbn. intros k x. destruct (decide (k = key)) as [->|Hn]; [done|]. rewrite lookup_insert_ne by done. apply Hk.
Qed.

Lemma inflight_insert m key state k :
  inflight (<[key := state]> m) k = if decide (k = key) then is_inFlight state else inflight m k.
Proof.
  unfold inflight. destruct (decide (k = key)) as [->|Hn]; [by rewrite lookup_insert_eq|by rewrite lookup_insert_ne].
Qed.

(** admitLocked: a rejection moves nothing; an admission had room in the class
    and in the identity, and takes one place in each. *)
Lemma admitLocked_spec oor key now l rejection l' :
  admitLocked oor key now l = (rejection, l') -> table_ok l -> ClassValid key.1 = true ->
  table_ok l' /\ lm_capacity l' = lm_capacity l /\
  match rejection with
  | Some _ => unmoved l l'
  | None =>
      let p := cp_Policies (lm_capacity l) key.1 in
      lm_globalInFlight l key.1 < po_GlobalInFlight p /\
      inflight (lm_identities l) key < po_IdentityInFlight p /\
      lm_globalInFlight l' = update (lm_globalInFlight l) key.1 (lm_globalInFlight l key.1 + 1) /\
      (forall k, inflight (lm_identities l') k = inflight (lm_identities l) k + if decide (k = key) then 1 else 0)
  end.
Proof.
  unfold admitLocked. intros H Ht Hv.
  destruct (po_GlobalInFlight _ <=? _) eqn:Hg; [by injection H as <- <-|].
  destruct (identityLocked key _ now l) as [state l1] eqn:Hid.
  pose proof (identityLocked_spec _ _ _ _ _ _ Hid Ht Hv) as ([Hc Hgl Hi] & Ht1 & Hst).
  destruct state as [st|]; [|injection H as <- <-; destruct Hst as [-> _]; done].
  destruct Hst as [Hlook Hst]. go_bool.
  destruct (po_IdentityInFlight _ <=? _) eqn:Hb; [by injection H as <- <-|]. go_bool.
  set (global := refill _ _ _) in H. set (own := refill _ _ _) in H. clearbody global own.
  set (l2 := set_lm_identities _ _) in H.
  assert (table_ok l2) as Ht2 by (eapply table_insert; [exact Ht1|exact Hlook|reflexivity|reflexivity]).
  assert (forall k, inflight (lm_identities l2) k = inflight (lm_identities l) k) as Hi2.
  { intros k. unfold l2. cbn. rewrite inflight_insert. case_decide; [subst; by cbn|apply Hi]. }
  assert (unmoved l l2) as Hu2 by (constructor; [by cbn; rewrite Hc|by cbn; rewrite Hgl|done]).
  assert (lm_identities l2 !! key = Some (mkIdentityState own (is_inFlight st) (is_seen st))) as Hl2
    by (unfold l2; cbn; by rewrite lookup_insert_eq).
  clearbody l2. destruct Hu2 as [Hc2 Hg2 _].
  destruct (bk_tokens global < f_one)%f64; [by injection H as <- <-|].
  destruct (bk_tokens own < f_one)%f64; [by injection H as <- <-|]. injection H as <- <-.
  split; [by eapply table_insert; [exact Ht2|exact Hl2|..]|]. split; [done|]. cbn.
  split_and!; [done|lia|by rewrite Hg2|]. intros k. rewrite inflight_insert. case_decide; [subst; cbn; lia|].
  rewrite Hi2. lia.
Qed.

(** ** The invariant *)

Lemma held_nonneg key leases : 0 <= held key leases.
Proof. apply llen_nonneg. Qed.

Lemma prune_ok order now l leases : limiter_ok l leases -> limiter_ok (pruneLocked order now l) leases.
Proof.
  intros [Hg Hi Hgl Hil Hs Hk]. unfold pruneLocked.
  set (m := prune_loop _ _ _ _). assert (pruned (Add now (- cp_IdentityTTL (lm_capacity l))) (lm_identities l) m) as Hp
    by apply prune_loop_spec. clearbody m.
  assert (forall key, inflight m key = inflight (lm_identities l) key) as E.
  { intros key. eapply pruned_inflight; [done|]. rewrite Hi. apply held_nonneg. }
  pose proof (pruned_subseteq _ _ _ Hp) as Hsub.
  constructor; cbn; try done.
  - intros key. by rewrite E.
  - intros key Hv. rewrite E. by apply Hil.
  - pose proof (map_subseteq_size _ _ Hsub). lia.
  - intros key state Hl. eapply Hk, lookup_weaken; done.
Qed.

Lemma ok_table l leases : limiter_ok l leases -> table_ok l.
Proof. intros [_ _ _ _ Hs Hk]. by split. Qed.

(** What a successful or refused Admit leaves, apart from the counters. *)
Lemma Admit_ok oor order now class identity l leases granted rejection l' :
  Admit oor order now class identity l = (granted, rejection, l') -> limiter_ok l leases ->
  limiter_ok l' (leases ++ match granted with Some key => [(key, false)] | None => [] end) /\
  lm_capacity l' = lm_capacity l.
Proof.
  unfold Admit. intros H Hok. destruct (ClassValid class) eqn:Hv; cbn [negb] in H.
  2:{ injection H as <- <- <-. by rewrite app_nil_r. }
  apply (prune_ok order now) in Hok. assert (lm_capacity (pruneLocked order now l) = lm_capacity l) as Hc0 by done.
  generalize dependent (pruneLocked order now l). intros l0 H Hok Hc0.
  destruct (admitLocked oor (class, identity) now l0) as [rej l1] eqn:Ha.
  pose proof (admitLocked_spec _ _ _ _ _ _ Ha (ok_table _ _ Hok) Hv) as ([Hs Hk] & Hc & Hcase).
  destruct Hok as [Hg Hi Hgl Hil _ _]. destruct rej as [r|]; injection H as <- <- <-; (split; [|by cbn; rewrite Hc]).
  - destruct Hcase as [_ Hug Hui]. rewrite app_nil_r. constructor; cbn; try done.
    + by rewrite Hug.
    + intros key. by rewrite Hui.
    + intros c. rewrite Hug, Hc. apply Hgl.
    + intros key. rewrite Hui, Hc. apply Hil.
  - cbn in Hcase. destruct Hcase as (Hlt & Hilt & Hgn & Hin). constructor; cbn; try done.
    + intros c. unfold held_class. rewrite llen_filter_app, llen_filter_one, Hgn. unfold update, indicator. cbn.
      repeat case_decide; try (subst; rewrite Hg; unfold held_class; lia); naive_solver.
    + intros key. unfold held. rewrite llen_filter_app, llen_filter_one, Hin, Hi. unfold indicator, held. cbn.
      repeat case_decide; naive_solver.
    + intros c Hvc. rewrite Hgn, Hc. unfold update. case_decide; [subst; lia|by apply Hgl].
    + intros key Hvk. rewrite Hin, Hc. case_decide; [subst; cbn; lia|]. rewrite Z.add_0_r. by apply Hil.
Qed.

Lemma Release_ok key now l leases i : limiter_ok l leases -> leases !! i = Some (key, false) ->
  limiter_ok (releaseLocked key now l) (<[i := (key, true)]> leases).
Proof.
  intros [Hg Hi Hgl Hil Hs Hk] Hlk. unfold releaseLocked.
  set (l1 := match lm_identities l !! key with Some _ => _ | None => _ end).
  pose proof (Hi key) as Hkey. pose proof (held_le_class key leases) as Hle.
  assert (1 <= held key leases) as H1.
  { pose proof (llen_filter_insert (fun x : lease => x.2 = false /\ x.1 = key) leases i (key, false) (key, true) Hlk) as E.
    unfold indicator in E. cbn in E. rewrite decide_True, decide_False in E by naive_solver.
    pose proof (held_nonneg key (<[i:=(key, true)]> leases)). unfold held in *. lia. }
  unfold inflight in Hkey. destruct (lm_identities l !! key) as [state|] eqn:Hst; [|lia].
  assert (lm_capacity l1 = lm_capacity l /\ lm_globalInFlight l1 = lm_globalInFlight l) as [E1 E2] by done.
  assert (table_ok l1) as [Hs1 Hk1] by (eapply table_insert; [split; [exact Hs|exact Hk]|exact Hst|done|done]).
  assert (forall k, inflight (lm_identities l1) k = held k (<[i:=(key, true)]> leases)) as Hi1.
  { intros k. unfold l1. cbn. rewrite inflight_insert. unfold held. rewrite (llen_filter_insert _ _ _ _ _ Hlk).
    unfold indicator. cbn. rewrite (decide_False (P := true = false /\ key = k)) by naive_solver.
    case_decide; [subst; rewrite decide_True by done; cbn; unfold held in *; lia|].
    rewrite decide_False by naive_solver. rewrite Hi. unfold held. lia. }
  clearbody l1. constructor; cbn; try done; rewrite ?E1, ?E2.
  - intros c. unfold held_class. rewrite (llen_filter_insert _ _ _ _ _ Hlk). unfold indicator, update. cbn.
    rewrite (decide_False (P := true = false /\ key.1 = c)) by naive_solver.
    case_decide; [subst; rewrite decide_True by done; rewrite Hg; unfold held_class in *; lia|].
    rewrite decide_False by naive_solver. rewrite Hg. unfold held_class. lia.
  - intros c Hc. unfold update. case_decide; [|by apply Hgl]. subst. specialize (Hgl _ Hc). rewrite Hg in *. lia.
  - intros k Hv. specialize (Hil k Hv). rewrite Hi1. etransitivity; [|exact Hil]. rewrite Hi. unfold held.
    rewrite (llen_filter_insert _ _ _ _ _ Hlk). unfold indicator. cbn.
    rewrite (decide_False (P := true = false /\ key = k)) by naive_solver. case_decide; lia.
Qed.

Lemma Validate_classes capacity c : Validate capacity = Ok tt -> ClassValid c = true ->
  validatePolicy c (cp_Policies capacity c) = Ok tt.
Proof.
  unfold Validate. intros ([] & Hcl & _)%bind_ok Hc.
  assert (c ∈ Classes) as Hin by (destruct c; set_solver). revert Hin Hcl. generalize Classes. intros cs.
  induction cs as [|c' cs IH]; [by intros ?%elem_of_nil|].
  intros [<-|Hin]%elem_of_cons ([] & Hp & Hrest)%bind_ok; [done|by apply IH].
Qed.

Lemma start_ok capacity now : Validate capacity = Ok tt -> limiter_ok (newLimiter capacity now) [].
Proof.
  intros Hv.
  assert (forall c, ClassValid c = true -> 1 <= po_GlobalInFlight (cp_Policies capacity c) /\
                                           1 <= po_IdentityInFlight (cp_Policies capacity c)) as Hpol.
  { intros c Hc. pose proof (Validate_classes _ _ Hv Hc) as Hp. unfold validatePolicy in Hp.
    apply bind_ok in Hp as ([] & _ & Hp). apply bind_ok in Hp as ([] & _ & Hp).
    repeat (destruct (_ : bool) eqn:? in Hp; [done|]). go_bool. lia. }
  apply bind_ok in Hv as ([] & _ & H). destruct (_ || _) eqn:He in H; [done|]. go_bool. destruct He as [He _].
  constructor; cbn; try done.
  - intros c Hc. apply Hpol in Hc. lia.
  - intros key Hc. apply Hpol in Hc. unfold inflight. rewrite lookup_empty. lia.
  - rewrite map_size_empty. unfold minimumIdentityEntries in He. lia.
Qed.

Lemma system_invariant oor capacity now s : Validate capacity = Ok tt ->
  rtc (any_step oor) (system_start capacity now) s ->
  limiter_ok (sy_limiter s) (sy_leases s) /\ lm_capacity (sy_limiter s) = capacity.
Proof.
  intros Hv. revert s. refine (rtc_ind_r _ _ _ _); [split; [by apply start_ok|done]|].
  intros s1 s2 _ [t Hstep] [IH Hc].
  destruct Hstep as [s' order class identity granted rejection l Ha | s' i key d l d' Hl Hr].
  - destruct (Admit_ok _ _ _ _ _ _ _ _ _ _ Ha IH) as [? E]. split; [done|]. cbn. congruence.
  - unfold Release in Hr. destruct d; injection Hr as <- <-; cbn.
    + by rewrite list_insert_id.
    + split; [by apply Release_ok|]. unfold releaseLocked. cbn. by destruct (lm_identities _ !! key).
Qed.

(** ** Properties *)

(** C37. In-flight accounting: after any sequence of Admit and Release calls on a
    limiter with a valid capacity (double releases, rejected calls, pruning in
    any order included), each class's in-flight count is exactly the number of
    its leases still out and never exceeds the class budget; every identity's
    count is the number of its own leases and never exceeds the identity budget;
    and the identity table never exceeds its bound. *)
Theorem inflight_accounting oor capacity t0 s :
  Validate capacity = Ok tt -> rtc (any_step oor) (system_start capacity t0) s ->
  (forall class, ClassValid class = true ->
     lm_globalInFlight (sy_limiter s) class = held_class class (sy_leases s) /\
     held_class class (sy_leases s) <= po_GlobalInFlight (cp_Policies capacity class)) /\
  (forall key, ClassValid key.1 = true ->
     inflight (lm_identities (sy_limiter s)) key = held key (sy_leases s) /\
     held key (sy_leases s) <= po_IdentityInFlight (cp_Policies capacity key.1)) /\
  Z.of_nat (size (lm_identities (sy_limiter s))) <= cp_IdentityEntries capacity.
Proof.
  intros Hv Hrun. destruct (system_invariant _ _ _ _ Hv Hrun) as [[Hg Hi Hgl Hil Hs _] Hc]. rewrite Hc in *.
  split_and!; [|..|done].
  - intros class Hcl. rewrite <- Hg. split; [done|by apply Hgl].
  - intros key Hk. rewrite <- Hi. split; [done|by apply Hil].
Qed.

(** A lease is never forgotten: while an identity holds a lease, its table entry
    survives every pruning (in whatever order the table is walked), so the
    clamps at zero in Release never act: releasing an outstanding lease lowers
    the identity's and the class's count by exactly one. *)
Theorem release_returns_exactly_one oor capacity t0 s i key now :
  Validate capacity = Ok tt -> rtc (any_step oor) (system_start capacity t0) s ->
  sy_leases s !! i = Some (key, false) ->
  let l := sy_limiter s in
  let l' := releaseLocked key now l in
  (forall order t, exists state, lm_identities (pruneLocked order t l) !! key = Some state) /\
  inflight (lm_identities l') key = inflight (lm_identities l) key - 1 /\
  lm_globalInFlight l' key.1 = lm_globalInFlight l key.1 - 1 /\
  Release key true now l' = (l', true).
Proof.
  intros Hv Hrun Hl l l'. destruct (system_invariant _ _ _ _ Hv Hrun) as [Hok _].
  pose proof (Release_ok key now _ _ i Hok Hl) as [Hg' Hi' _ _ _ _].
  assert (1 <= inflight (lm_identities l) key) as H1.
  { unfold l. rewrite (ok_identity _ _ Hok). pose proof (held_nonneg key (<[i:=(key,true)]> (sy_leases s))) as Hn.
    unfold held in *. rewrite (llen_filter_insert _ _ _ _ _ Hl) in Hn. unfold indicator in Hn. cbn in Hn.
    rewrite decide_True, decide_False in Hn by naive_solver. lia. }
  split_and!; [| | |done].
  - intros order t. pose proof (ok_identity _ _ (prune_ok order t _ _ Hok) key) as E.
    rewrite <- (ok_identity _ _ Hok) in E. fold l in E. rewrite <- E in H1. unfold inflight in H1.
    destruct (lm_identities (pruneLocked order t l) !! key) as [state|]; [by exists state|lia].
  - unfold l', l. rewrite Hi', (ok_identity _ _ Hok). unfold held. rewrite (llen_filter_insert _ _ _ _ _ Hl).
    unfold indicator. cbn. rewrite decide_True, decide_False by naive_solver. lia.
  - unfold l', l. rewrite Hg', (ok_global _ _ Hok). unfold held_class. rewrite (llen_filter_insert _ _ _ _ _ Hl).
    unfold indicator. cbn. rewrite decide_True, decide_False by naive_solver. lia.
Qed.

(** ** Bursts *)

(** Leases issued to a class, or to an identity, released or not. *)
Definition issued_class (class : Class) (leases : list lease) : Z :=
  llen (filter (fun x : lease => x.1.1 = class) leases).
Definition issued (key : Class * string) (leases : list lease) : Z :=
  llen (filter (fun x : lease => x.1 = key) leases).

(** A bucket at instant [t] that has spent exactly [n] of its [burst] tokens. *)
Record spent (t : Time) (burst n : Z) (b : bucket) : Prop := {
  sp_updated : bk_updated b = t;
  sp_valid : valid (bk_tokens b) = true;
  sp_finite : is_finite (bk_tokens b) = true;
  sp_units : units (bk_tokens b) = (burst - n) * unit1;
  sp_range : 0 <= n <= burst }.

Lemma spent_new rate t : 1 <= ra_Burst rate <= maximumBurst -> spent t (ra_Burst rate) 0 (newBucket rate t).
Proof.
  intros H. destruct (f_of_Z_units (ra_Burst rate)) as (Hv & Hf & Hu); [unfold maximumBurst in H; lia|].
  constructor; cbn; [done..| |lia]. rewrite Hu. lia.
Qed.

Lemma refill_same_instant t burst n b rate : spent t burst n b -> refill b rate t = b.
Proof.
  intros [Hu _ _ _ _]. unfold refill, Sub. rewrite Hu, Z.sub_diag.
  assert ((Seconds (sat64 0) <= f_of_Z 0)%f64 = true) as -> by (vm_compute; reflexivity). done.
Qed.

Lemma unit1_pos : 0 < unit1.
Proof. unfold unit1. lia. Qed.

Lemma spent_spend t burst n b : burst <= maximumBurst -> spent t burst n b ->
  (bk_tokens b < f_one)%f64 = false -> spent t burst (n + 1) (mkBucket (bk_tokens b - f_one)%f64 (bk_updated b)).
Proof.
  intros Hb [Hu Hv Hf Hun Hr] Hlt. pose proof unit1_pos as H1.
  destruct (f_of_Z_units 1) as (Ov & Of & Ou); [lia|]. fold f_one in *.
  rewrite (SFltb_units _ _ Hv Ov Hf Of), Hun, Ou in Hlt. go_bool.
  assert (n < burst) by nia.
  destruct (sub_one_exact (bk_tokens b) Hv Hf) as (Sv & Sf & Su).
  { rewrite Hun. unfold maximumBurst in Hb. split; [nia|]. apply Z.mul_le_mono_nonneg_r; lia. }
  constructor; cbn [bk_tokens bk_updated]; [done..| |lia]. rewrite Su, Hun. lia.
Qed.

(** Every bucket of the limiter, after steps at the single instant [t]. *)
Record burst_ok (t : Time) (l : Limiter) (leases : list lease) : Prop := {
  bo_class : forall c, ClassValid c = true ->
    spent t (ra_Burst (po_GlobalRate (cp_Policies (lm_capacity l) c))) (issued_class c leases) (lm_global l c);
  bo_present : forall key state, lm_identities l !! key = Some state -> is_seen state = t /\
    spent t (ra_Burst (po_IdentityRate (cp_Policies (lm_capacity l) key.1))) (issued key leases) (is_bucket state);
  bo_absent : forall key, lm_identities l !! key = None -> issued key leases = 0 }.

(** The bursts and the lifetime a valid capacity has. *)
Definition bursts_valid (capacity : Capacity) : Prop :=
  0 < cp_IdentityTTL capacity /\ forall c, ClassValid c = true ->
    1 <= ra_Burst (po_GlobalRate (cp_Policies capacity c)) <= maximumBurst /\
    1 <= ra_Burst (po_IdentityRate (cp_Policies capacity c)) <= maximumBurst.

Lemma validateRate_burst class rate scope : validateRate class rate scope = Ok tt -> 1 <= ra_Burst rate <= maximumBurst.
Proof. unfold validateRate. destruct (_ || _); [done|]. destruct (_ || _) eqn:E; [done|]. go_bool. lia. Qed.

Lemma Validate_bursts capacity : Validate capacity = Ok tt -> bursts_valid capacity.
Proof.
  intros Hv. split.
  - unfold Validate in Hv. apply bind_ok in Hv as ([] & _ & H). destruct (_ || _) in H; [done|].
    destruct (_ || _) eqn:E in H; [done|]. go_bool. unfold minimumIdentityTTL, Second in E. lia.
  - intros c Hc. pose proof (Validate_classes _ _ Hv Hc) as H. unfold validatePolicy in H.
    apply bind_ok in H as ([] & H1 & H). apply bind_ok in H as ([] & H2 & _).
    split; by eapply validateRate_burst.
Qed.

Lemma prune_burst order t l leases : 0 < cp_IdentityTTL (lm_capacity l) -> burst_ok t l leases ->
  lm_identities (pruneLocked order t l) = lm_identities l.
Proof.
  intros Httl [_ Hp _]. unfold pruneLocked. cbn.
  pose proof (prune_loop_spec (Add t (- cp_IdentityTTL (lm_capacity l))) order 0 (lm_identities l)) as H.
  apply map_eq. intros key. destruct (H key) as [->|(_ & state & Hs & _ & Hd)]; [done|].
  destruct (Hp key state Hs) as [Hseen _]. unfold Add in Hd. lia.
Qed.

Lemma issued_snoc key key' leases : issued key (leases ++ [(key', false)]) = issued key leases + if decide (key' = key) then 1 else 0.
Proof. unfold issued. rewrite llen_filter_app, llen_filter_one. done. Qed.

Lemma issued_class_snoc c key leases :
  issued_class c (leases ++ [(key, false)]) = issued_class c leases + if decide (key.1 = c) then 1 else 0.
Proof. unfold issued_class. rewrite llen_filter_app, llen_filter_one. done. Qed.

Lemma identityLocked_burst key t l leases state l' :
  identityLocked key (cp_Policies (lm_capacity l) key.1) t l = (state, l') ->
  bursts_valid (lm_capacity l) -> ClassValid key.1 = true -> burst_ok t l leases ->
  burst_ok t l' leases /\ lm_capacity l' = lm_capacity l /\ lm_global l' = lm_global l /\
  match state with Some st => lm_identities l' !! key = Some st | None => True end.
Proof.
  unfold identityLocked. intros H [_ Hb] Hv [Hc Hp Ha]. destruct (lm_identities l !! key) as [st|] eqn:E.
  { injection H as <- <-. done. }
  destruct (_ <=? _); injection H as <- <-; [done|]. cbn.
  split_and!; [|done..|by rewrite lookup_insert_eq].
  constructor; cbn; [done|..]; intros k; (destruct (decide (k = key)) as [->|Hn];
    [rewrite lookup_insert_eq|rewrite lookup_insert_ne by done; auto]); [|done].
  intros st [= <-]. split; [done|]. rewrite (Ha _ E). apply spent_new, Hb, Hv.
Qed.

Lemma burst_unchanged t l leases key state global own inflight seen : burst_ok t l leases ->
  lm_identities l !! key = Some state -> global = lm_global l key.1 -> own = is_bucket state -> seen = is_seen state ->
  burst_ok t (set_lm_global key.1 global l |>
    set_lm_identities (<[key := mkIdentityState own inflight seen]> (lm_identities l))) leases.
Proof.
  intros [Hc Hp Ha] Hk -> -> ->. constructor; cbn.
  - intros c Hv. unfold update. case_decide; [subst|]; by apply Hc.
  - intros k st. destruct (decide (k = key)) as [->|Hn]; [|rewrite lookup_insert_ne by done; apply Hp].
    rewrite lookup_insert_eq. intros [= <-]. cbn. by apply Hp.
  - intros k. destruct (decide (k = key)) as [->|Hn]; [by rewrite lookup_insert_eq|].
    rewrite lookup_insert_ne by done. apply Ha.
Qed.

Lemma admitLocked_burst oor key t l leases rejection l' :
  admitLocked oor key t l = (rejection, l') ->
  bursts_valid (lm_capacity l) -> ClassValid key.1 = true -> burst_ok t l leases ->
  burst_ok t l' (leases ++ match rejection with None => [(key, false)] | Some _ => [] end).
Proof.
  unfold admitLocked. intros H Hb Hv Hok.
  destruct (po_GlobalInFlight _ <=? _) eqn:Hg; [injection H as <- <-; by rewrite app_nil_r|].
  destruct (identityLocked key _ t l) as [state l1] eqn:Hid.
  pose proof (identityLocked_burst _ _ _ _ _ _ Hid Hb Hv Hok) as (Hok1 & Hc1 & Hg1 & Hst).
  destruct state as [st|]; [|injection H as <- <-; by rewrite app_nil_r].
  destruct (po_IdentityInFlight _ <=? _); [injection H as <- <-; by rewrite app_nil_r|].
  destruct Hb as [_ Hb]. destruct (Hb _ Hv) as [[_ Hgb] [_ Hib]].
  pose proof (bo_class _ _ _ Hok1 _ Hv) as Hsc. pose proof (bo_present _ _ _ Hok1 _ _ Hst) as [Hseen Hsi].
  rewrite Hc1 in Hsc, Hsi.
  rewrite (refill_same_instant _ _ _ _ _ Hsc), (refill_same_instant _ _ _ _ _ Hsi) in H.
  destruct (_ < f_one)%f64 eqn:Ht1 in H.
  { injection H as <- <-. rewrite app_nil_r. by eapply burst_unchanged. }
  destruct (_ < f_one)%f64 eqn:Ht2 in H.
  { injection H as <- <-. rewrite app_nil_r. by eapply burst_unchanged. }
  injection H as <- <-. destruct Hok1 as [Hcl Hpr Hab]. constructor.
  - intros c Hvc. specialize (Hcl c Hvc). cbn. rewrite issued_class_snoc. unfold update.
    destruct (decide (c = key.1)) as [->|Hn].
    + rewrite decide_True by done. rewrite Hc1. by apply spent_spend.
    + rewrite !decide_False by congruence. by rewrite Z.add_0_r.
  - intros k x Hx. cbn in Hx. rewrite issued_snoc. cbn [lm_capacity set_lm_globalInFlight set_lm_identities set_lm_global].
    destruct (decide (k = key)) as [->|Hn].
    + rewrite lookup_insert_eq in Hx. injection Hx as <-. split; [done|].
      rewrite decide_True by done. rewrite Hc1. by apply spent_spend.
    + rewrite !lookup_insert_ne in Hx by done. rewrite decide_False by congruence. rewrite Z.add_0_r. by apply Hpr.
  - intros k Hx. cbn in Hx. rewrite issued_snoc. destruct (decide (k = key)) as [->|Hn].
    + by rewrite lookup_insert_eq in Hx.
    + rewrite !lookup_insert_ne in Hx by done. rewrite decide_False by congruence. rewrite Z.add_0_r. by apply Hab.
Qed.

Lemma issued_release leases i key done done' : leases !! i = Some (key, done) ->
  (forall k, issued k (<[i := (key, done')]> leases) = issued k leases) /\
  (forall c, issued_class c (<[i := (key, done')]> leases) = issued_class c leases).
Proof.
  intros H. split; intros x; unfold issued, issued_class; rewrite (llen_filter_insert _ _ _ _ _ H);
    unfold indicator; cbn; lia.
Qed.

Lemma step_burst oor t s s' : system_step oor t s s' -> bursts_valid (lm_capacity (sy_limiter s)) ->
  burst_ok t (sy_limiter s) (sy_leases s) ->
  burst_ok t (sy_limiter s') (sy_leases s').
Proof.
  intros Hstep Hb Hok. destruct Hstep as [s order class identity granted rejection l Ha | s i key d l d' Hl Hr]; cbn.
  - unfold Admit in Ha. destruct (ClassValid class) eqn:Hv; cbn [negb] in Ha.
    2:{ injection Ha as <- <- <-. by rewrite app_nil_r. }
    assert (burst_ok t (pruneLocked order t (sy_limiter s)) (sy_leases s)) as Hok1.
    { destruct Hok as [Hc Hp Hab]. pose proof (prune_burst order t _ _ (proj1 Hb) (Build_burst_ok _ _ _ Hc Hp Hab)) as E.
      constructor; rewrite ?E; done. }
    assert (bursts_valid (lm_capacity (pruneLocked order t (sy_limiter s)))) as Hb1 by done.
    generalize dependent (pruneLocked order t (sy_limiter s)). intros l0 Ha Hok1 Hb1.
    destruct (admitLocked oor (class, identity) t l0) as [rej l1] eqn:E.
    pose proof (admitLocked_burst _ _ _ _ _ _ _ E Hb1 Hv Hok1) as [Hc Hp Hab].
    destruct rej; injection Ha as <- <- <-; by constructor.
  - unfold Release in Hr. destruct (issued_release _ _ _ _ d' Hl) as [E1 E2].
    destruct Hok as [Hc Hp Hab]. destruct d; injection Hr as <- <-.
    { constructor; intros; rewrite ?E1, ?E2; auto. }
    unfold releaseLocked. destruct (lm_identities (sy_limiter s) !! key) as [st|] eqn:Hst;
      (constructor; cbn; [intros; rewrite E2; auto|..]); try (by intros; rewrite E1; auto); intros k;
      rewrite E1; (destruct (decide (k = key)) as [->|Hn]; [rewrite lookup_insert_eq|rewrite lookup_insert_ne by done; auto]); [|done].
    intros x [= <-]. cbn. split; [done|]. by apply Hp.
Qed.

Lemma admitLocked_capacity oor key now l rejection l' : admitLocked oor key now l = (rejection, l') ->
  lm_capacity l' = lm_capacity l.
Proof.
  unfold admitLocked. destruct (_ <=? _); [by intros [= <- <-]|].
  destruct (identityLocked key _ now l) as [state l1] eqn:Hid.
  assert (lm_capacity l1 = lm_capacity l) as E.
  { unfold identityLocked in Hid. destruct (_ !! key); [by injection Hid as <- <-|].
    destruct (_ <=? _); by injection Hid as <- <-. }
  destruct state as [st|]; [|by intros [= <- <-]]. destruct (_ <=? _); [by intros [= <- <-]|].
  destruct (_ < _)%f64; [by intros [= <- <-]|]. destruct (_ < _)%f64; by intros [= <- <-].
Qed.

Lemma step_capacity oor t s s' : system_step oor t s s' -> lm_capacity (sy_limiter s') = lm_capacity (sy_limiter s).
Proof.
  destruct 1 as [s order class identity granted rejection l Ha | s i key d l d' Hl Hr]; cbn.
  - unfold Admit in Ha. destruct (negb _); [by injection Ha as <- <- <-|].
    destruct (admitLocked oor (class, identity) t _) as [rej l1] eqn:E. apply admitLocked_capacity in E.
    destruct rej; by injection Ha as <- <- <-.
  - unfold Release, releaseLocked in Hr. destruct d; injection Hr as <- <-; [done|].
    destruct (_ !! key); reflexivity.
Qed.

(** Bursts are respected exactly: from a fresh limiter, calls made at a single
    clock reading admit each class at most its burst number of times and each
    identity at most its identity burst, whatever mix of admissions, rejections,
    releases and prunings occurs. The float64 token counts are exact here: every
    admission takes exactly one token. *)
Theorem burst_bound oor capacity t s :
  Validate capacity = Ok tt -> rtc (system_step oor t) (system_start capacity t) s ->
  (forall class, ClassValid class = true ->
     issued_class class (sy_leases s) <= ra_Burst (po_GlobalRate (cp_Policies capacity class))) /\
  (forall key, ClassValid key.1 = true ->
     issued key (sy_leases s) <= ra_Burst (po_IdentityRate (cp_Policies capacity key.1))).
Proof.
  intros Hv%Validate_bursts Hrun.
  assert (lm_capacity (sy_limiter s) = capacity /\ burst_ok t (sy_limiter s) (sy_leases s)) as [Hc [Hcl Hp Ha]].
  { revert s Hrun. refine (rtc_ind_r _ _ _ _).
    - split; [done|]. constructor; cbn; [|done..]. intros c Hc. apply spent_new. by apply Hv.
    - intros s1 s2 _ Hstep [E Hok]. rewrite (step_capacity _ _ _ _ Hstep).
      split; [done|]. eapply step_burst; [done|by rewrite E|done]. }
  rewrite Hc in *. split.
  - intros class Hcv. apply (Hcl _ Hcv).
  - intros key Hk. destruct (lm_identities (sy_limiter s) !! key) as [st|] eqn:E.
    + apply (Hp _ _ E).
    + rewrite (Ha _ E). destruct Hv as [_ Hv]. specialize (Hv _ Hk). lia.
Qed.

Lemma newRejection_bounded reason status n : 1 <= rj_RetryAfter (newRejection reason status n) <= 60.
Proof. cbn. unfold clampRetryAfter, maximumRetryAfter. lia. Qed.

(** A branch of Admit that rejects: its status, bounds and reason. *)
Ltac rejects H := injection H as <- <- <-; right; eexists;
  split; [reflexivity|]; split; [reflexivity|]; split; [apply newRejection_bounded|];
  split; [reflexivity|]; cbn [rj_Reason newRejection]; go_bool; done.

(** The decision of Admit: a call for a valid class either grants a lease for
    exactly the class and identity asked for, or rejects with a bounded
    Retry-After and a status that tells a saturated class (503) from everything
    else (429); a busy or full rejection is only given when that limit is
    reached after pruning. *)
Theorem admit_decides oor order now class identity l granted rejection l' :
  ClassValid class = true ->
  Admit oor order now class identity l = (granted, rejection, l') ->
  (granted = Some (class, identity) /\ rejection = None) \/
  (exists r, granted = None /\ rejection = Some r /\ 1 <= rj_RetryAfter r <= 60 /\
     rj_Status r = (if decide (rj_Reason r = ReasonClassBusy) then 503 else 429) /\
     let pruned := pruneLocked order now l in
     let p := cp_Policies (lm_capacity l) class in
     match rj_Reason r with
     | ReasonClassBusy => po_GlobalInFlight p <= lm_globalInFlight l class
     | ReasonTableFull => lm_identities pruned !! (class, identity) = None /\
         cp_IdentityEntries (lm_capacity l) <= Z.of_nat (size (lm_identities pruned))
     | ReasonIdentityBusy => po_IdentityInFlight p <= inflight (lm_identities pruned) (class, identity)
     | ReasonClassRate => (bk_tokens (refill (lm_global l class) (po_GlobalRate p) now) < f_one)%f64 = true
     | ReasonIdentityRate =>
         let own := match lm_identities pruned !! (class, identity) with
           | Some state => is_bucket state | None => newBucket (po_IdentityRate p) now end in
         (bk_tokens (refill own (po_IdentityRate p) now) < f_one)%f64 = true
     end).
Proof.
  unfold Admit. intros Hv H. rewrite Hv in H. cbn [negb] in H.
  assert (lm_globalInFlight (pruneLocked order now l) = lm_globalInFlight l /\ lm_global (pruneLocked order now l) = lm_global l
    /\ lm_capacity (pruneLocked order now l) = lm_capacity l) as (E1 & E2 & E3) by done.
  generalize dependent (pruneLocked order now l). intros l0 **. rewrite <- E1, <- E2, <- E3. clear E1 E2 E3.
  unfold admitLocked in H. cbn [fst] in H.
  set (p := cp_Policies (lm_capacity l0) class) in *. clearbody p.
  destruct (po_GlobalInFlight p <=? _) eqn:E1.
  { rejects H. }
  unfold identityLocked in H. unfold inflight.
  destruct (lm_identities l0 !! (class, identity)) as [st|] eqn:Est.
  2: destruct (_ <=? Z.of_nat _) eqn:E2; [rejects H|].
  all: cbn [is_inFlight is_bucket] in H; destruct (po_IdentityInFlight p <=? _) eqn:E3; [rejects H|].
  all: cbn [lm_global set_lm_identities] in H;
    destruct (bk_tokens (refill (lm_global l0 class) _ _) < f_one)%f64 eqn:E4; [rejects H|].
  all: match type of H with context [if (?a < f_one)%f64 then _ else _] => destruct (a < f_one)%f64 eqn:E5 end;
    [rejects H|].
  all: injection H as <- <- <-; by left.
Qed.

(** The entries of the table, split by class. *)
Lemma entries_by_class (keys : list (Class * string)) : (forall key, key ∈ keys -> ClassValid key.1 = true) ->
  foldr Z.add 0 (map (fun class => llen (filter (fun key : Class * string => key.1 = class) keys)) Classes) = llen keys.
Proof.
  induction keys as [|key keys IH]; intros Hv; [done|].
  assert (forall class, llen (filter (fun k : Class * string => k.1 = class) (key :: keys)) =
    llen (filter (fun k : Class * string => k.1 = class) keys) + if decide (key.1 = class) then 1 else 0) as E.
  { intros class. unfold llen. rewrite filter_cons. case_decide; cbn [length]; lia. }
  specialize (Hv key (list_elem_of_here _ _)) as Hk. cbn [map Classes foldr] in *. rewrite !E.
  assert (llen (key :: keys) = 1 + llen keys) as -> by (unfold llen; cbn [length]; lia).
  rewrite <- IH by (intros; apply Hv; by right).
  destruct key as [[] v]; [..|done]; cbn [fst]; repeat match goal with
    | |- context [decide ?P] => first [rewrite (decide_True (P := P)) by reflexivity
                                      | rewrite (decide_False (P := P)) by discriminate]
    end; lia.
Qed.

(** The operations view is consistent: in every reachable state the per-class
    identity counts of Snapshot add up to the table size it reports, which is
    within the reported limit, and each class shows exactly its outstanding
    leases, never above the limit shown next to it. *)
Theorem snapshot_consistent oor capacity t0 s :
  Validate capacity = Ok tt -> rtc (any_step oor) (system_start capacity t0) s ->
  let view := Snapshot (sy_limiter s) in
  foldr Z.add 0 (map cv_IdentityEntries (sn_Classes view)) = sn_IdentityEntries view /\
  sn_IdentityEntries view <= sn_IdentityEntriesLimit view /\
  map cv_InFlight (sn_Classes view) = map (fun class => held_class class (sy_leases s)) Classes /\
  Forall (fun cv => cv_InFlight cv <= li_GlobalInFlight (cv_Limits cv)) (sn_Classes view).
Proof.
  intros Hv Hrun. destruct (system_invariant _ _ _ _ Hv Hrun) as [[Hg _ Hgl _ Hs Hk] Hc].
  unfold Snapshot. cbn [sn_Classes sn_IdentityEntries sn_IdentityEntriesLimit].
  set (keys := (map_to_list (lm_identities (sy_limiter s))).*1).
  rewrite map_map. cbn [cv_IdentityEntries classView]. split_and!.
  - rewrite entries_by_class.
    + unfold llen, keys. by rewrite length_fmap, length_map_to_list.
    + intros key Hin. unfold keys in Hin. apply list_elem_of_fmap in Hin as ([k x] & -> & Hin).
      apply elem_of_map_to_list in Hin. by eapply Hk.
  - done.
  - rewrite map_map. apply map_ext. intros c. cbn. apply Hg.
  - apply Forall_fmap, Forall_forall. intros c Hin. cbn. apply Hgl.
    clear -Hin. unfold Classes in Hin. set_solver.
Qed.

(** The built-in capacity is accepted: New does not fail on DefaultCapacity, so
    the limiter starts with every bucket full and every bound in force. *)
Theorem default_capacity_accepted now : exists l, New DefaultCapacity now = Ok l /\
  forall class, ClassValid class = true ->
    units (bk_tokens (lm_global l class)) = ra_Burst (po_GlobalRate (cp_Policies DefaultCapacity class)) * unit1.
Proof.
  exists (newLimiter DefaultCapacity now). split; [reflexivity|]. intros class Hc. cbn [newLimiter lm_global newBucket bk_tokens].
  apply f_of_Z_units. destruct class; [..|done]; cbn; lia.
Qed.

(** ** A concrete run *)

Definition no_int (x : float64) : Z := 0.
Definition admit_kdf (s : System) : System :=
  let '(granted, _, l) := Admit no_int [] 5 AuthKDF "10.0.0.1" (sy_limiter s) in
  mkSystem l (sy_leases s ++ match granted with Some key => [(key, false)] | None => [] end).

Lemma admit_kdf_step s : system_step no_int 5 s (admit_kdf s).
Proof.
  unfold admit_kdf. destruct (Admit _ _ _ _ _ _) as [[granted rejection] l] eqn:E. by eapply SysAdmit.
Qed.

(** One login attempt is in flight; a second one is refused. *)
Definition one_login : System := admit_kdf (system_start DefaultCapacity 5).
Definition two_logins : System := admit_kdf one_login.

Lemma two_logins_run : rtc (system_step no_int 5) (system_start DefaultCapacity 5) two_logins.
Proof. eapply rtc_l; [apply admit_kdf_step|]. eapply rtc_l; [apply admit_kdf_step|]. apply rtc_refl. Qed.

Lemma two_logins_any : rtc (any_step no_int) (system_start DefaultCapacity 5) two_logins.
Proof.
  eapply rtc_l; [eexists; apply admit_kdf_step|]. eapply rtc_l; [eexists; apply admit_kdf_step|]. apply rtc_refl.
Qed.

Lemma inflight_accounting_witness :
  sy_leases two_logins = [((AuthKDF, "10.0.0.1"), false)] /\
  held_class AuthKDF (sy_leases two_logins) <= 8 /\
  Z.of_nat (size (lm_identities (sy_limiter two_logins))) <= 4096.
Proof.
  destruct (inflight_accounting no_int DefaultCapacity 5 two_logins eq_refl two_logins_any) as (Hc & _ & Hs).
  split; [vm_compute; reflexivity|]. split; [apply (Hc AuthKDF eq_refl)|exact Hs].
Defined.

Lemma release_returns_exactly_one_witness :
  inflight (lm_identities (releaseLocked (AuthKDF, "10.0.0.1") 9 (sy_limiter two_logins))) (AuthKDF, "10.0.0.1") =
  inflight (lm_identities (sy_limiter two_logins)) (AuthKDF, "10.0.0.1") - 1.
Proof.
  apply (release_returns_exactly_one no_int DefaultCapacity 5 two_logins 0%nat (AuthKDF, "10.0.0.1") 9 eq_refl two_logins_any).
  vm_compute. reflexivity.
Defined.

Lemma burst_bound_witness :
  issued (AuthKDF, "10.0.0.1") (sy_leases two_logins) = 1 /\
  issued (AuthKDF, "10.0.0.1") (sy_leases two_logins) <= 4.
Proof.
  split; [vm_compute; reflexivity|].
  apply (burst_bound no_int DefaultCapacity 5 two_logins eq_refl two_logins_run). reflexivity.
Defined.

Lemma admit_decides_witness :
  let l := sy_limiter one_login in
  exists r l', Admit no_int [] 5 AuthKDF "10.0.0.1" l = (None, Some r, l') /\
    rj_Reason r = ReasonIdentityBusy /\ 1 <= rj_RetryAfter r <= 60.
Proof.
  intros l. destruct (Admit no_int [] 5 AuthKDF "10.0.0.1" l) as [[granted rejection] l'] eqn:H.
  destruct (admit_decides no_int [] 5 AuthKDF "10.0.0.1" l granted rejection l' eq_refl H)
    as [[E _]|(r & E1 & E2 & Hr & _)].
  - exfalso. revert H. rewrite E. intros H%(f_equal (fun x => x.1.1)). vm_compute in H. discriminate H.
  - exists r, l'. subst granted rejection. split; [reflexivity|]. split; [|exact Hr].
    apply (f_equal (fun x => x.1.2)) in H. vm_compute in H. injection H as <-. reflexivity.
Defined.

Lemma snapshot_consistent_witness :
  foldr Z.add 0 (map cv_IdentityEntries (sn_Classes (Snapshot (sy_limiter two_logins)))) =
  sn_IdentityEntries (Snapshot (sy_limiter two_logins)).
Proof. exact (proj1 (snapshot_consistent no_int DefaultCapacity 5 two_logins eq_refl two_logins_any)). Defined.
