(* ===== verification/ReleaseVersion.v ===== *)
(** * Agent release versions

    internal/agentrollout/protocol/version.go: parsing and precedence of the
    versions of agent releases, the rule that decides whether an update is an
    upgrade, and the CI tag derived from a version. The order is shown to be a
    total preorder that only build metadata and the optional v cannot tell apart. *)

From S2P Require Import Prelude GoText GoNumber.

Definition MaximumIdentifierBytes : Z := 128.

Record releaseVersion := mkReleaseVersion { rv_core : list string; rv_pre : list string }.

Definition versionCharacter (c : Z) : bool :=
  between 48 57 c || between 97 122 c || between 65 90 c || (c =? 45).

Definition versionNumber (value : string) : bool :=
  if value =s "" then false else forallb (between 48 57) (runes value).

(** value[0] *)
Definition byte0 (value : string) : Z := match bytes value with b :: _ => b | [] => 0 end.

Definition canonicalNumber (value : string) : bool :=
  versionNumber value && ((len value =? 1) || negb (byte0 value =? 48)).

Definition versionCore (value : string) : option (list string) :=
  let core := Split value "." in
  if negb (llen core =? 3) then None
  else if forallb canonicalNumber core then Some core else None.

Definition validVersionIdentifiers (parts : list string) (prerelease : bool) : bool :=
  forallb (fun part =>
    negb (part =s "") && forallb versionCharacter (runes part)
    && negb (prerelease && versionNumber part && (1 <? len part) && (byte0 part =? 48))) parts.

Definition parseVersion (value : string) : option releaseVersion :=
  let value := TrimPrefix value "v" in
  if (value =s "") || (MaximumIdentifierBytes <? len value) then None
  else
    let pieces := Split value "+" in
    if 2 <? llen pieces then None
    else if match pieces with [_; build] => negb (validVersionIdentifiers (Split build ".") false) | _ => false end then None
    else
      let '(first, second) := SplitN2 (nth 0 pieces "") "-" in
      match versionCore first with
      | None => None
      | Some core =>
          match second with
          | None => Some (mkReleaseVersion core [])
          | Some rest =>
              let pre := Split rest "." in
              if negb (validVersionIdentifiers pre true) then None else Some (mkReleaseVersion core pre)
          end
      end.

Definition compareLength (left right : Z) : Z :=
  if right <? left then 1 else if left <? right then -1 else 0.

Definition compareNumber (left right : string) : Z :=
  if len right <? len left then 1 else if len left <? len right then -1 else Compare left right.

Definition compareVersionLabel (left right : string) : Z :=
  let numericLeft := versionNumber left in
  let numericRight := versionNumber right in
  if numericLeft && numericRight then compareNumber left right
  else if numericLeft then -1
  else if numericRight then 1
  else Compare left right.

(** The index loop of comparePrerelease over the common positions, and the
    comparison of the two lengths after it. *)
Fixpoint prerelease_loop (left right : list string) (lengths : Z) : Z :=
  match left, right with
  | x :: ls, y :: rs => if x <>s y then compareVersionLabel x y else prerelease_loop ls rs lengths
  | _, _ => lengths
  end.

Definition comparePrerelease (left right : list string) : Z :=
  if llen left =? 0 then (if llen right =? 0 then 0 else 1)
  else if llen right =? 0 then -1
  else prerelease_loop left right (compareLength (llen left) (llen right)).

(** The loop over left.core with right.core[index]; [None] is an index panic. *)
Fixpoint core_loop (left right : list string) : option Z :=
  match left with
  | [] => Some 0
  | x :: ls =>
      match right with
      | [] => None
      | y :: rs => let order := compareNumber x y in if negb (order =? 0) then Some order else core_loop ls rs
      end
  end.

(** [None] is a panic; the second component is the ok result. *)
Definition CompareVersions (target current : string) : option (Z * bool) :=
  match parseVersion target with
  | None => Some (0, false)
  | Some l =>
      match parseVersion current with
      | None => Some (0, false)
      | Some r =>
          match core_loop (rv_core l) (rv_core r) with
          | None => None
          | Some order =>
              if negb (order =? 0) then Some (order, true)
              else Some (comparePrerelease (rv_pre l) (rv_pre r), true)
          end
      end
  end.

Definition ReleaseTag (version : string) : option string :=
  match parseVersion version with
  | None => None
  | Some _ => Some ("v" +:+ TrimPrefix version "v")
  end.

Definition SameReleaseVersion (left right : string) : bool :=
  match parseVersion left, parseVersion right with
  | Some _, Some _ => TrimPrefix left "v" =s TrimPrefix right "v"
  | _, _ => false
  end.

(** ** Comparison functions that order their arguments *)

Record orders {A} (f : A -> A -> Z) : Prop := {
  or_anti : forall x y, f y x = - f x y;
  or_trans : forall x y z, f x y <= 0 -> f y z <= 0 ->
    f x z <= 0 /\ (f x y < 0 \/ f y z < 0 -> f x z < 0) }.

(** The lexicographic combination of two comparisons. *)
Definition lexico {A} (f g : A -> A -> Z) (x y : A) : Z := if f x y =? 0 then g x y else f x y.

Lemma orders_lexico {A} (f g : A -> A -> Z) : orders f -> orders g -> orders (lexico f g).
Proof.
  intros [Fa Ft] [Ga Gt]. unfold lexico. split.
  - intros x y. specialize (Fa x y). specialize (Ga x y). repeat case_match; go_bool; lia.
  - intros x y z. pose proof (Ft x y z). pose proof (Ft z y x). pose proof (Gt x y z).
    pose proof (Fa x y). pose proof (Fa y z). pose proof (Fa x z).
    repeat case_match; go_bool; intros; lia.
Qed.

Lemma orders_ext {A} (f g : A -> A -> Z) : (forall x y, f x y = g x y) -> orders f -> orders g.
Proof. intros E [Ha Ht]. split; intros *; rewrite <- !E; auto. Qed.

Lemma orders_on {A B} (h : A -> B) f : orders f -> orders (fun x y => f (h x) (h y)).
Proof. intros [Ha Ht]. split; intros; auto. Qed.

Lemma orders_length : orders compareLength.
Proof. unfold compareLength. split; intros; repeat case_match; go_bool; lia. Qed.

Lemma orders_Compare : orders Compare.
Proof.
  split; [intros; apply Compare_antisym|]. intros x y z H1 H2.
  assert (forall a b, Compare a b <= 0 -> a = b \/ String.compare a b = Lt) as Hle.
  { intros a b. unfold Compare. destruct (String.compare a b) eqn:E; [|by right|lia].
    intros _. left. by apply String.compare_eq_iff. }
  destruct (Hle _ _ H1) as [->|E1]; [split; [done|]; pose proof (proj2 (Compare_eq y y) eq_refl); lia|].
  destruct (Hle _ _ H2) as [->|E2]; [unfold Compare; rewrite E1; lia|].
  unfold Compare. rewrite (compare_trans _ _ _ _ E1 E2). lia.
Qed.

Lemma compareNumber_lexico x y :
  compareNumber x y = lexico (fun x y => compareLength (len x) (len y)) Compare x y.
Proof. unfold compareNumber, lexico, compareLength. repeat case_match; go_bool; lia. Qed.

Lemma orders_number : orders compareNumber.
Proof.
  eapply orders_ext; [intros; symmetry; apply compareNumber_lexico|].
  apply orders_lexico; [apply (orders_on len), orders_length|apply orders_Compare].
Qed.

Lemma orders_label : orders compareVersionLabel.
Proof.
  pose proof orders_number as [Na Nt]. pose proof orders_Compare as [Ca Ct]. unfold compareVersionLabel. split.
  - intros x y. specialize (Na x y). specialize (Ca x y). destruct (versionNumber x), (versionNumber y); cbn; lia.
  - intros x y z. specialize (Nt x y z). specialize (Ct x y z).
    destruct (versionNumber x), (versionNumber y), (versionNumber z); cbn; intros; lia.
Qed.

Lemma compareNumber_eq x y : compareNumber x y = 0 <-> x = y.
Proof.
  unfold compareNumber. split.
  - repeat case_match; try lia. by intros ?%Compare_eq.
  - intros ->. rewrite !Z.ltb_irrefl. by apply Compare_eq.
Qed.

Lemma compareVersionLabel_eq x y : compareVersionLabel x y = 0 <-> x = y.
Proof.
  unfold compareVersionLabel. split.
  - destruct (versionNumber x), (versionNumber y); cbn; [by intros ?%compareNumber_eq|lia..|by intros ?%Compare_eq].
  - intros ->. destruct (versionNumber y); cbn; [by apply compareNumber_eq|by apply Compare_eq].
Qed.

(** ** The order on parsed versions *)

(** comparePrerelease on nonempty lists, by recursion. *)
Definition prerelease (l r : list string) : Z := prerelease_loop l r (compareLength (llen l) (llen r)).

Lemma prerelease_cons x l y r :
  prerelease (x :: l) (y :: r) = if x =s y then prerelease l r else compareVersionLabel x y.
Proof.
  unfold prerelease. cbn [prerelease_loop]. destruct (x =s y); cbn [negb]; [|done]. f_equal.
  unfold compareLength, llen. cbn [length]. repeat case_match; go_bool; lia.
Qed.

Lemma orders_prerelease : orders prerelease.
Proof.
  pose proof orders_label as [La Lt]. split.
  - induction x as [|a x IH]; intros [|b y]; try reflexivity. rewrite !prerelease_cons, (String.eqb_sym b a).
    destruct (a =s b); [apply IH|apply La].
  - assert (forall a l, prerelease [] (a :: l) = -1) as Hl by done.
    assert (forall a l, prerelease (a :: l) [] = 1) as Hr by done.
    induction x as [|a x IH]; intros [|b y] [|c z]; rewrite ?Hl, ?Hr;
      try (intros; change (prerelease [] []) with 0 in *; lia).
    rewrite !prerelease_cons. specialize (IH y z). specialize (Lt a b c).
    pose proof (compareVersionLabel_eq a b) as Eab. pose proof (compareVersionLabel_eq b c) as Ebc.
    pose proof (La b c) as Ac.
    destruct (a =s b) eqn:E1, (b =s c) eqn:E2, (a =s c) eqn:E3; go_bool; try congruence; subst; try done.
    + intros. assert (compareVersionLabel b c <> 0) by tauto. lia.
    + intros. assert (compareVersionLabel a c <> 0) by tauto. lia.
    + intros. assert (compareVersionLabel c b <> 0) by tauto. lia.
Qed.

Lemma comparePrerelease_lexico l r : comparePrerelease l r =
  lexico (fun l r => compareLength (Z.b2z (bool_decide (l = []))) (Z.b2z (bool_decide (r = [])))) prerelease l r.
Proof.
  unfold comparePrerelease, lexico, prerelease, compareLength, llen.
  destruct l as [|a l], r as [|b r]; try reflexivity.
Qed.

Lemma orders_comparePrerelease : orders comparePrerelease.
Proof.
  eapply orders_ext; [intros; symmetry; apply comparePrerelease_lexico|].
  apply orders_lexico; [apply (orders_on (fun l : list string => Z.b2z (bool_decide (l = [])))), orders_length|].
  apply orders_prerelease.
Qed.

Definition core3 (v : releaseVersion) (i : nat) : string := nth i (rv_core v) "".

(** The order CompareVersions computes, on parsed versions. *)
Definition version_order : releaseVersion -> releaseVersion -> Z :=
  lexico (fun v w => compareNumber (core3 v 0) (core3 w 0))
    (lexico (fun v w => compareNumber (core3 v 1) (core3 w 1))
      (lexico (fun v w => compareNumber (core3 v 2) (core3 w 2))
        (fun v w => comparePrerelease (rv_pre v) (rv_pre w)))).

Lemma orders_version : orders version_order.
Proof.
  repeat apply orders_lexico; try (apply (orders_on (fun v => core3 v _)), orders_number).
  apply (orders_on rv_pre), orders_comparePrerelease.
Qed.

Lemma parseVersion_core s v : parseVersion s = Some v -> length (rv_core v) = 3%nat.
Proof.
  unfold parseVersion. destruct (_ || _); [done|]. destruct (_ <? _); [done|].
  match goal with |- (if ?b then _ else _) = _ -> _ => destruct b end; [done|].
  destruct (SplitN2 _ _) as [first second].
  destruct (versionCore first) as [core|] eqn:Hc; [|done]. unfold versionCore in Hc.
  destruct (negb (_ =? 3)) eqn:E in Hc; [done|]. destruct (forallb _ _) in Hc; [|done]. injection Hc as <-.
  apply negb_false_iff, Z.eqb_eq in E. unfold llen in E.
  destruct second; [destruct (negb _); [done|]|]; intros [= <-]; cbn; lia.
Qed.

Lemma CompareVersions_spec a b v w : parseVersion a = Some v -> parseVersion b = Some w ->
  CompareVersions a b = Some (version_order v w, true).
Proof.
  intros Ha Hb. unfold CompareVersions. rewrite Ha, Hb. unfold version_order, lexico, core3.
  apply parseVersion_core in Ha, Hb.
  destruct (rv_core v) as [|a1 [|a2 [|a3 [|]]]]; try done. destruct (rv_core w) as [|b1 [|b2 [|b3 [|]]]]; try done.
  cbn [core_loop nth].
  destruct (compareNumber a1 b1 =? 0) eqn:E1; cbn [negb]; [|by rewrite E1].
  destruct (compareNumber a2 b2 =? 0) eqn:E2; cbn [negb]; [|by rewrite E2].
  destruct (compareNumber a3 b3 =? 0) eqn:E3; cbn [negb]; [done|by rewrite E3].
Qed.

Lemma prerelease_eq l : forall r, prerelease l r = 0 <-> l = r.
Proof.
  induction l as [|x l IH]; intros [|y r]; try done. rewrite prerelease_cons. destruct (x =s y) eqn:E; go_bool.
  - subst. rewrite IH. split; congruence.
  - rewrite compareVersionLabel_eq. split; congruence.
Qed.

Lemma comparePrerelease_eq l r : comparePrerelease l r = 0 <-> l = r.
Proof.
  rewrite comparePrerelease_lexico. unfold lexico.
  destruct l as [|x l], r as [|y r]; try done. apply prerelease_eq.
Qed.

Lemma lexico_zero {A} (f g : A -> A -> Z) x y : lexico f g x y = 0 <-> f x y = 0 /\ g x y = 0.
Proof. unfold lexico. destruct (f x y =? 0) eqn:E; go_bool; lia. Qed.

Lemma version_order_eq a b v w : parseVersion a = Some v -> parseVersion b = Some w ->
  version_order v w = 0 <-> v = w.
Proof.
  intros Ha%parseVersion_core Hb%parseVersion_core. unfold version_order.
  rewrite !lexico_zero, !compareNumber_eq, comparePrerelease_eq. destruct v as [vc vp], w as [wc wp]. unfold core3. cbn in *.
  destruct vc as [|a1 [|a2 [|a3 [|]]]]; try done. destruct wc as [|b1 [|b2 [|b3 [|]]]]; try done. cbn.
  split; [by intros (-> & -> & -> & ->)|by intros [= -> -> -> ->]].
Qed.

(** ** Numbers *)

Lemma Compare_digits x : forall y, len x = len y ->
  Forall (fun b => 48 <= b <= 57) (bytes x) -> Forall (fun b => 48 <= b <= 57) (bytes y) ->
  Compare x y = compareLength (dec (bytes x)) (dec (bytes y)).
Proof.
  induction x as [|a x IH]; intros [|b y] Hl Hx Hy; try done.
  cbn [bytes] in *. apply Forall_cons in Hx as [Ha Hx]. apply Forall_cons in Hy as [Hb Hy].
  assert (len x = len y) as Hl' by (unfold len in *; cbn in Hl; lia).
  specialize (IH y Hl' Hx Hy). pose proof (dec_bound _ Hx) as Bx. pose proof (dec_bound _ Hy) as By.
  change (byte_of a :: bytes x) with ([byte_of a] ++ bytes x). change (byte_of b :: bytes y) with ([byte_of b] ++ bytes y).
  rewrite !dec_app. unfold llen in *. rewrite !length_bytes in *. unfold len in Hl'. rewrite Hl' in *.
  unfold Compare in *. cbn [String.compare]. unfold Ascii.compare.
  assert (dec [byte_of a] = byte_of a - 48 /\ dec [byte_of b] = byte_of b - 48) as [-> ->] by (unfold dec; cbn; lia).
  set (p := 10 ^ _) in *. unfold byte_of in *.
  destruct (N.compare_spec (N_of_ascii a) (N_of_ascii b)) as [E|E|E].
  - rewrite IH, E. unfold compareLength. repeat case_match; go_bool; lia.
  - unfold compareLength. repeat case_match; go_bool; nia.
  - unfold compareLength. repeat case_match; go_bool; nia.
Qed.

Lemma canonical_digits x : canonicalNumber x = true ->
  Forall (fun b => 48 <= b <= 57) (bytes x) /\ 1 <= len x /\ (1 < len x -> 10 ^ (len x - 1) <= dec (bytes x)).
Proof.
  unfold canonicalNumber, versionNumber. intros H. apply andb_true_iff in H as [H1 H2].
  destruct (x =s "") eqn:E; [done|]. rewrite digit_runes in H1. apply forallb_digits in H1. split; [done|].
  destruct x as [|a x]; [done|]. split; [unfold len; cbn; lia|]. intros Hl. go_bool. destruct H2 as [H2|H2]; [lia|].
  unfold byte0 in H2. cbn [bytes] in *. apply Forall_cons in H1 as [Ha Hx].
  change (byte_of a :: bytes x) with ([byte_of a] ++ bytes x). rewrite dec_app. pose proof (dec_bound _ Hx).
  assert (llen (bytes x) = len (String a x) - 1) as <- by (unfold llen, len; rewrite length_bytes; cbn; lia).
  assert (dec [byte_of a] = byte_of a - 48) as -> by (unfold dec; cbn; lia). nia.
Qed.

(** ** Properties *)

(** C40. Precedence is a total preorder: CompareVersions never indexes out of range,
    succeeds exactly when both versions are well formed, is antisymmetric, and
    is transitive (strictly when either step is strict); two versions compare
    equal exactly when their numbers and prerelease labels are the same. *)
Theorem compare_versions_order :
  (forall a b, exists o, CompareVersions a b = Some (o, bool_decide (is_Some (parseVersion a)) && bool_decide (is_Some (parseVersion b))) /\
     CompareVersions b a = Some (- o, bool_decide (is_Some (parseVersion a)) && bool_decide (is_Some (parseVersion b)))) /\
  (forall a b c o1 o2, CompareVersions a b = Some (o1, true) -> CompareVersions b c = Some (o2, true) ->
     o1 <= 0 -> o2 <= 0 -> exists o3, CompareVersions a c = Some (o3, true) /\ o3 <= 0 /\ (o1 < 0 \/ o2 < 0 -> o3 < 0)) /\
  (forall a b v w, parseVersion a = Some v -> parseVersion b = Some w ->
     (CompareVersions a b = Some (0, true) <-> v = w)).
Proof.
  pose proof orders_version as [Va Vt]. split_and!.
  - intros a b. destruct (parseVersion a) as [v|] eqn:Ha, (parseVersion b) as [w|] eqn:Hb.
    + exists (version_order v w). rewrite (CompareVersions_spec _ _ _ _ Ha Hb), (CompareVersions_spec _ _ _ _ Hb Ha), (Va v w).
      by rewrite !bool_decide_true by by eexists.
    + exists 0. unfold CompareVersions. rewrite Ha, Hb. rewrite (bool_decide_false (is_Some None)) by by intros [].
      by rewrite andb_false_r.
    + exists 0. unfold CompareVersions. rewrite Ha, Hb. by rewrite (bool_decide_false (is_Some None)) by by intros [].
    + exists 0. unfold CompareVersions. rewrite Ha, Hb. by rewrite (bool_decide_false (is_Some None)) by by intros [].
  - intros a b c o1 o2 H1 H2 L1 L2.
    assert (exists v w u, parseVersion a = Some v /\ parseVersion b = Some w /\ parseVersion c = Some u) as (v & w & u & Ha & Hb & Hc).
    { unfold CompareVersions in H1, H2. destruct (parseVersion a), (parseVersion b), (parseVersion c); try done. by eexists _, _, _. }
    rewrite (CompareVersions_spec _ _ _ _ Ha Hb) in H1. rewrite (CompareVersions_spec _ _ _ _ Hb Hc) in H2.
    injection H1 as <-. injection H2 as <-. exists (version_order v u).
    split; [by apply CompareVersions_spec|]. by apply (Vt v w u).
  - intros a b v w Ha Hb. rewrite (CompareVersions_spec _ _ _ _ Ha Hb), <- (version_order_eq _ _ _ _ Ha Hb).
    split; [by intros [= ->]|by intros ->].
Qed.

(** The digit comparison is numeric: on the numbers a version may contain,
    compareNumber (which only looks at lengths and bytes, so it cannot overflow)
    is the comparison of the numbers they denote, of whatever size. *)
Theorem compare_number_numeric x y : canonicalNumber x = true -> canonicalNumber y = true ->
  compareNumber x y = compareLength (dec (bytes x)) (dec (bytes y)).
Proof.
  intros Hx Hy. apply canonical_digits in Hx as (Dx & Lx & Gx), Hy as (Dy & Ly & Gy).
  pose proof (dec_bound _ Dx) as Bx. pose proof (dec_bound _ Dy) as By.
  assert (forall s, llen (bytes s) = len s) as El by (intros; unfold llen, len; by rewrite length_bytes).
  rewrite El in Bx, By. unfold compareNumber.
  destruct (len y <? len x) eqn:E1; go_bool.
  { assert (10 ^ len y <= 10 ^ (len x - 1)) by (apply Z.pow_le_mono_r; lia).
    unfold compareLength. repeat case_match; go_bool; lia. }
  destruct (len x <? len y) eqn:E2; go_bool.
  { assert (10 ^ len x <= 10 ^ (len y - 1)) by (apply Z.pow_le_mono_r; lia).
    unfold compareLength. repeat case_match; go_bool; lia. }
  apply Compare_digits; [lia|done..].
Qed.

Lemma compare_number_numeric_witness :
  compareNumber "18446744073709551616" "9" = compareLength 18446744073709551616 9.
Proof. apply (compare_number_numeric "18446744073709551616" "9"); reflexivity. Defined.

(** Tags: ReleaseTag of a well-formed version is the version with exactly one
    leading v; it denotes the same release, is a fixed point, and two versions
    are the same release exactly when they have the same tag. *)
Theorem release_tag_canonical v t : ReleaseTag v = Some t ->
  HasPrefix t "v" = true /\ parseVersion t = parseVersion v /\ ReleaseTag t = Some t /\
  SameReleaseVersion t v = true /\ CompareVersions t v = Some (0, true) /\
  (forall w, SameReleaseVersion v w = true <-> ReleaseTag w = Some t).
Proof.
  unfold ReleaseTag. destruct (parseVersion v) as [pv|] eqn:Hp; [|done]. intros [= <-].
  assert (forall x, TrimPrefix ("v" +:+ x) "v" = x) as Htrim by (intros x; unfold TrimPrefix; cbn; by destruct x).
  assert (parseVersion ("v" +:+ TrimPrefix v "v") = Some pv) as Hpt.
  { rewrite <- Hp. unfold parseVersion. by rewrite Htrim. }
  split_and!.
  - cbn. by destruct (TrimPrefix v "v").
  - done.
  - by rewrite Hpt, Htrim.
  - unfold SameReleaseVersion. rewrite Hpt, Hp, Htrim. by apply String.eqb_eq.
  - rewrite (CompareVersions_spec _ _ _ _ Hpt Hp). by rewrite (proj2 (version_order_eq _ _ _ _ Hpt Hp) eq_refl).
  - intros w. unfold SameReleaseVersion. rewrite Hp. destruct (parseVersion w); [|done].
    rewrite String.eqb_eq. split; [by intros ->|]. intros H. apply (f_equal (fun o => TrimPrefix (default "" o) "v")) in H. cbn [default from_option] in H.
    unfold id in H. by rewrite !Htrim in H.
Qed.

Lemma release_tag_canonical_witness :
  ReleaseTag "1.2.3-rc.1+b5" = Some "v1.2.3-rc.1+b5" /\
  CompareVersions "v1.2.3-rc.1+b5" "1.2.3-rc.1+b5" = Some (0, true).
Proof.
  assert (ReleaseTag "1.2.3-rc.1+b5" = Some "v1.2.3-rc.1+b5") as H by (vm_compute; reflexivity).
  split; [exact H|]. apply (release_tag_canonical _ _ H).
Defined.
