(* ===== verification/GoDate.v ===== *)
(** * Civil dates

    The part of Go's time package that calendar code uses: dates in the
    proleptic Gregorian calendar, [time.Date] with its normalisation of months
    and days, [AddDate] on days, and parsing and formatting with the layout
    2006-01-02. A date at UTC midnight is its day number, day 0 being
    1 January of year 1. *)

From S2P Require Import Prelude GoText GoNumber.

Abbreviation Days := Z (only parsing).

Definition isLeap (year : Z) : bool :=
  (year mod 4 =? 0) && (negb (year mod 100 =? 0) || (year mod 400 =? 0)).

Definition days_before_year (year : Z) : Days :=
  let y := year - 1 in 365 * y + y / 4 - y / 100 + y / 400.

(** Days in a month 1..12. *)
Definition month_days (leap : bool) (month : Z) : Z :=
  if month =? 2 then (if leap then 29 else 28)
  else if (month =? 4) || (month =? 6) || (month =? 9) || (month =? 11) then 30 else 31.

(** Days of the year before a month 1..13. *)
Definition days_before_month (leap : bool) (month : Z) : Z :=
  let common := nth (Z.to_nat month) [0; 0; 31; 59; 90; 120; 151; 181; 212; 243; 273; 304; 334; 365] 0 in
  if leap && (2 <? month) then common + 1 else common.

(** time.Date(year, month, day, 0, 0, 0, 0, time.UTC). *)
Definition Date (year month day : Z) : Days :=
  let m := month - 1 in
  let year := year + m / 12 in
  let month := m mod 12 + 1 in
  days_before_year year + days_before_month (isLeap year) month + (day - 1).

(** The year of a day number, by cycles of 400, 100, 4 and 1 years. *)
Definition Year (n : Days) : Z :=
  let n400 := n / 146097 in let r := n mod 146097 in
  let n100 := Z.min (r / 36524) 3 in let r := r - 36524 * n100 in
  let n4 := r / 1461 in let r := r - 1461 * n4 in
  let n1 := Z.min (r / 365) 3 in
  400 * n400 + 100 * n100 + 4 * n4 + n1 + 1.

Definition YearDay (n : Days) : Z := n - days_before_year (Year n).

Fixpoint month_search (leap : bool) (yday : Z) (months : list Z) : Z :=
  match months with
  | [] => 12
  | m :: rest => if yday <? days_before_month leap (m + 1) then m else month_search leap yday rest
  end.

Definition Month (n : Days) : Z :=
  month_search (isLeap (Year n)) (YearDay n) [1; 2; 3; 4; 5; 6; 7; 8; 9; 10; 11].
Definition Day (n : Days) : Z := YearDay n - days_before_month (isLeap (Year n)) (Month n) + 1.

(** date.AddDate(0, 0, days). *)
Definition AddDays (n : Days) (days : Z) : Days := n + days.

(** ** Layout 2006-01-02 *)

Definition digit (n : Z) : Z := 48 + n mod 10.
Definition pad2 (n : Z) : list Z := [digit (n / 10); digit n].
Definition pad4 (n : Z) : list Z := [digit (n / 1000); digit (n / 100); digit (n / 10); digit n].

(** The year is padded to four digits; longer and negative years are written out. *)
Definition year_digits (year : Z) : list Z :=
  let magnitude n := if n <=? 9999 then pad4 n else bytes (FormatInt n) in
  if year <? 0 then 45 :: magnitude (- year) else magnitude year.

(** date.Format(time.DateOnly). *)
Definition FormatDateOnly (n : Days) : string :=
  of_bytes (year_digits (Year n) ++ [45] ++ pad2 (Month n) ++ [45] ++ pad2 (Day n)).

(** time.Parse(time.DateOnly, value): exactly four, two and two digits, a month
    of the year and a day of that month. *)
Definition ParseDateOnly (value : string) : option Days :=
  match bytes value with
  | [a; b; c; d; s1; e; f; s2; g; h] =>
      if forallb is_digit [a; b; c; d; e; f; g; h] && (s1 =? 45) && (s2 =? 45) then
        let year := dec [a; b; c; d] in
        let month := dec [e; f] in
        let day := dec [g; h] in
        if (1 <=? month) && (month <=? 12) && (1 <=? day) && (day <=? month_days (isLeap year) month)
        then Some (Date year month day) else None
      else None
  | _ => None
  end.

(** ** Years *)

Lemma isLeap_spec year : isLeap year = true <-> year mod 4 = 0 /\ (year mod 100 <> 0 \/ year mod 400 = 0).
Proof. unfold isLeap. go_bool. tauto. Qed.

Lemma year_length year :
  days_before_year (year + 1) - days_before_year year = if isLeap year then 366 else 365.
Proof.
  destruct (isLeap year) eqn:E; [apply isLeap_spec in E|assert (~ (year mod 4 = 0 /\ (year mod 100 <> 0 \/ year mod 400 = 0)))
    by (rewrite <- isLeap_spec; congruence)]; unfold days_before_year; Z.to_euclidean_division_equations; lia.
Qed.

Lemma year_mono y z : y < z -> days_before_year y + 365 <= days_before_year z.
Proof. unfold days_before_year. intros. Z.to_euclidean_division_equations. lia. Qed.

Lemma Year_bounds n : days_before_year (Year n) <= n < days_before_year (Year n + 1).
Proof.
  unfold Year. set (r := n mod 146097). set (n400 := n / 146097).
  assert (n = 146097 * n400 + r /\ 0 <= r < 146097) as [Hn Hr].
  { pose proof (Z.div_mod n 146097 ltac:(lia)). pose proof (Z.mod_pos_bound n 146097 ltac:(lia)). lia. }
  clearbody r n400. subst n. unfold days_before_year.
  replace (400 * n400 + 100 * Z.min (r / 36524) 3 + 4 * ((r - 36524 * Z.min (r / 36524) 3) / 1461) +
     Z.min ((r - 36524 * Z.min (r / 36524) 3 - 1461 * ((r - 36524 * Z.min (r / 36524) 3) / 1461)) / 365) 3 + 1)
    with (400 * n400 + (100 * Z.min (r / 36524) 3 + 4 * ((r - 36524 * Z.min (r / 36524) 3) / 1461) +
     Z.min ((r - 36524 * Z.min (r / 36524) 3 - 1461 * ((r - 36524 * Z.min (r / 36524) 3) / 1461)) / 365) 3) + 1) by lia.
  set (n100 := Z.min (r / 36524) 3).
  assert (0 <= n100 <= 3 /\ 36524 * n100 <= r /\ r - 36524 * n100 <= 36524 /\ (n100 < 3 -> r - 36524 * n100 < 36524)) as (H1 & H2 & H3 & H4).
  { unfold n100. Z.to_euclidean_division_equations. lia. }
  clearbody n100. set (r1 := r - 36524 * n100) in *. set (n4 := r1 / 1461).
  assert (0 <= n4 <= 24 /\ 0 <= r1 - 1461 * n4 < 1461) as [H5 H6].
  { unfold n4. Z.to_euclidean_division_equations. lia. }
  assert (n4 = 24 -> r1 - 1461 * n4 <= 1460 /\ (n100 < 3 -> r1 - 1461 * n4 < 1460)) as H7 by lia.
  clearbody n4. set (r2 := r1 - 1461 * n4) in *. set (n1 := Z.min (r2 / 365) 3).
  assert (0 <= n1 <= 3 /\ 0 <= r2 - 365 * n1 /\ r2 - 365 * n1 <= 365 /\ (n1 < 3 -> r2 - 365 * n1 < 365)) as (H8 & H9 & H10 & H11).
  { unfold n1. Z.to_euclidean_division_equations. lia. }
  clearbody n1. Z.to_euclidean_division_equations. lia.
Qed.

Lemma Year_unique n y : days_before_year y <= n < days_before_year (y + 1) -> Year n = y.
Proof.
  intros H. pose proof (Year_bounds n) as Hn.
  destruct (Z.lt_trichotomy (Year n) y) as [Hlt|[E|Hlt]]; [|done|].
  - pose proof (year_mono (Year n) y Hlt). assert (Year n + 1 <= y) by lia.
    destruct (Z.eq_dec (Year n + 1) y) as [E|]; [rewrite E in Hn; lia|]. pose proof (year_mono (Year n + 1) y ltac:(lia)). lia.
  - pose proof (year_mono y (Year n) Hlt). destruct (Z.eq_dec (y + 1) (Year n)) as [E|]; [rewrite E in H; lia|].
    pose proof (year_mono (y + 1) (Year n) ltac:(lia)). lia.
Qed.

(** ** Months *)

Ltac month_cases m H := assert (m = 1 \/ m = 2 \/ m = 3 \/ m = 4 \/ m = 5 \/ m = 6 \/ m = 7 \/ m = 8 \/ m = 9
  \/ m = 10 \/ m = 11 \/ m = 12) as H by lia.

Lemma month_length leap m : 1 <= m <= 12 ->
  days_before_month leap (m + 1) = days_before_month leap m + month_days leap m /\ 28 <= month_days leap m <= 31 /\
  0 <= days_before_month leap m.
Proof.
  intros Hm. month_cases m H. destruct leap; destruct_or! H; subst m; vm_compute; repeat split; congruence.
Qed.

Lemma month_end leap : days_before_month leap 13 = if leap then 366 else 365.
Proof. by destruct leap. Qed.

Lemma month_mono leap m k : 1 <= m -> m < k <= 13 -> days_before_month leap m + 28 <= days_before_month leap k.
Proof.
  intros Hm Hk. assert (forall j, 0 <= j -> m + 1 + j <= 13 -> days_before_month leap m + 28 <= days_before_month leap (m + 1 + j)) as H.
  { intros j Hj. pattern j. apply natlike_ind; [|clear j Hj; intros j Hj IH Hb|done].
    - intros Hb. rewrite Z.add_0_r. destruct (month_length leap m); lia.
    - replace (m + 1 + Z.succ j) with (m + 1 + j + 1) by lia. destruct (month_length leap (m + 1 + j)); [lia|].
      specialize (IH ltac:(lia)). lia. }
  replace k with (m + 1 + (k - m - 1)) by lia. apply H; lia.
Qed.

Definition in_month (leap : bool) (yday m : Z) : Prop :=
  1 <= m <= 12 /\ days_before_month leap m <= yday < days_before_month leap (m + 1).

Lemma month_search_step leap yday m rest : 1 <= m <= 12 -> days_before_month leap m <= yday ->
  (days_before_month leap (m + 1) <= yday -> in_month leap yday (month_search leap yday rest)) ->
  in_month leap yday (month_search leap yday (m :: rest)).
Proof. intros Hm Hd Hrest. cbn [month_search]. destruct (_ <? _) eqn:E; go_bool; [by split|auto]. Qed.

Lemma month_search_spec leap yday : 0 <= yday < days_before_month leap 13 ->
  in_month leap yday (month_search leap yday [1; 2; 3; 4; 5; 6; 7; 8; 9; 10; 11]).
Proof.
  intros [H0 H13]. assert (days_before_month leap 1 <= yday) as H by by destruct leap. revert H.
  do 11 (intros H; apply month_search_step; [lia|exact H|clear H]). intros H. by split.
Qed.

Lemma month_unique leap yday m : 1 <= m <= 12 -> days_before_month leap m <= yday < days_before_month leap (m + 1) ->
  month_search leap yday [1; 2; 3; 4; 5; 6; 7; 8; 9; 10; 11] = m.
Proof.
  intros Hm Hy. assert (0 <= yday < days_before_month leap 13) as Hr.
  { destruct (month_length leap m Hm) as (_ & _ & H0). destruct (Z.eq_dec m 12) as [->|]; [change (12 + 1) with 13 in *; lia|].
    pose proof (month_mono leap (m + 1) 13 ltac:(lia) ltac:(lia)). lia. }
  destruct (month_search_spec leap yday Hr) as [Hs Hb]. set (k := month_search _ _ _) in *. clearbody k.
  destruct (Z.lt_trichotomy k m) as [Hlt|[E|Hlt]]; [|done|].
  - destruct (Z.eq_dec (k + 1) m) as [E|]; [rewrite E in Hb; lia|]. pose proof (month_mono leap (k + 1) m ltac:(lia) ltac:(lia)). lia.
  - destruct (Z.eq_dec (m + 1) k) as [E|]; [rewrite E in Hy; lia|]. pose proof (month_mono leap (m + 1) k ltac:(lia) ltac:(lia)). lia.
Qed.

(** ** Dates and day numbers correspond *)

Definition valid_civil (year month day : Z) : Prop :=
  1 <= month <= 12 /\ 1 <= day <= month_days (isLeap year) month.

Lemma Date_valid year month day : 1 <= month <= 12 ->
  Date year month day = days_before_year year + days_before_month (isLeap year) month + (day - 1).
Proof.
  intros H. unfold Date. rewrite Z.mod_small, Z.div_small by lia. by rewrite Z.add_0_r, Z.sub_add.
Qed.

Lemma civil_of_Date year month day : valid_civil year month day ->
  Year (Date year month day) = year /\ Month (Date year month day) = month /\ Day (Date year month day) = day.
Proof.
  intros [Hm Hd]. rewrite (Date_valid _ _ _ Hm). set (n := _ + _ + _).
  destruct (month_length (isLeap year) month Hm) as (Hl & _ & H0).
  assert (days_before_month (isLeap year) (month + 1) <= days_before_month (isLeap year) 13) as H13.
  { destruct (Z.eq_dec month 12) as [->|]; [done|]. pose proof (month_mono (isLeap year) (month + 1) 13 ltac:(lia) ltac:(lia)). lia. }
  assert (Year n = year) as Ey.
  { apply Year_unique. pose proof (year_length year). rewrite month_end in H13. unfold n. destruct (isLeap year); lia. }
  assert (YearDay n = days_before_month (isLeap year) month + (day - 1)) as Eyd by (unfold YearDay; rewrite Ey; unfold n; lia).
  assert (Month n = month) as Em by (unfold Month; rewrite Ey, Eyd; apply month_unique; lia).
  split_and!; [done..|]. unfold Day. rewrite Em, Ey, Eyd. lia.
Qed.

Lemma Date_of_civil n : Date (Year n) (Month n) (Day n) = n /\ valid_civil (Year n) (Month n) (Day n).
Proof.
  pose proof (Year_bounds n) as Hy. pose proof (year_length (Year n)) as Hl.
  assert (0 <= YearDay n < days_before_month (isLeap (Year n)) 13) as Hyd
    by (rewrite month_end; unfold YearDay; destruct (isLeap (Year n)); lia).
  destruct (month_search_spec _ _ Hyd) as [Hm Hb]. fold (Month n) in Hm, Hb.
  destruct (month_length (isLeap (Year n)) (Month n) Hm) as (Hml & _ & _).
  unfold valid_civil. rewrite (Date_valid _ _ _ Hm). unfold Day, YearDay in *. lia.
Qed.

(** ** Parsing and formatting *)

Lemma digit_range n : 48 <= digit n <= 57.
Proof. unfold digit. pose proof (Z.mod_pos_bound n 10 ltac:(lia)). lia. Qed.

Lemma dec_pad4 n : 0 <= n <= 9999 -> dec (pad4 n) = n.
Proof. intros H. unfold dec, pad4, digit. cbn [fold_left]. Z.to_euclidean_division_equations. lia. Qed.

Lemma dec_pad2 n : 0 <= n <= 99 -> dec (pad2 n) = n.
Proof. intros H. unfold dec, pad2, digit. cbn [fold_left]. Z.to_euclidean_division_equations. lia. Qed.

Lemma pad4_dec a b c d : Forall (fun x => 48 <= x <= 57) [a; b; c; d] -> pad4 (dec [a; b; c; d]) = [a; b; c; d].
Proof.
  intros H. rewrite !Forall_cons in H. unfold dec, pad4, digit. cbn [fold_left].
  repeat f_equal; Z.to_euclidean_division_equations; lia.
Qed.

Lemma pad2_dec a b : Forall (fun x => 48 <= x <= 57) [a; b] -> pad2 (dec [a; b]) = [a; b].
Proof.
  intros H. rewrite !Forall_cons in H. unfold dec, pad2, digit. cbn [fold_left].
  repeat f_equal; Z.to_euclidean_division_equations; lia.
Qed.

Lemma month_days_bound leap m : 28 <= month_days leap m <= 31.
Proof. unfold month_days. repeat case_match; lia. Qed.

(** The shape of a string that parses. *)
Lemma ParseDateOnly_inv s n : ParseDateOnly s = Some n ->
  exists y m d, bytes s = pad4 y ++ [45] ++ pad2 m ++ [45] ++ pad2 d /\ 0 <= y <= 9999 /\
    valid_civil y m d /\ n = Date y m d.
Proof.
  unfold ParseDateOnly. destruct (bytes s) as [|a [|b [|c [|d [|s1 [|e [|f [|s2 [|g [|h [|]]]]]]]]]]]; try done.
  match goal with |- (if ?b then _ else _) = _ -> _ => destruct b eqn:E end; [|done].
  match goal with |- (if ?b then _ else _) = _ -> _ => destruct b eqn:E2 end; [|done]. intros Hn.
  apply andb_true_iff in E as [E E4]. apply andb_true_iff in E as [E E3]. apply forallb_digits in E.
  assert (Forall (fun x => 48 <= x <= 57) [a; b; c; d] /\ Forall (fun x => 48 <= x <= 57) [e; f] /\
          Forall (fun x => 48 <= x <= 57) [g; h]) as (H1 & H2 & H3) by (rewrite !Forall_cons in *; tauto).
  exists (dec [a; b; c; d]), (dec [e; f]), (dec [g; h]).
  rewrite (pad4_dec _ _ _ _ H1), (pad2_dec _ _ H2), (pad2_dec _ _ H3). go_bool. subst.
  pose proof (dec_bound _ H1) as B. cbn [llen length] in B. unfold valid_civil. cbn [app]. split_and!; try done; try lia; [|congruence].
  change (10 ^ llen [a; b; c; d]) with 10000 in B. lia.
Qed.

Lemma ParseDateOnly_pad y m d : 0 <= y <= 9999 -> valid_civil y m d ->
  ParseDateOnly (of_bytes (pad4 y ++ [45] ++ pad2 m ++ [45] ++ pad2 d)) = Some (Date y m d).
Proof.
  intros Hy Hv. pose proof Hv as [Hm Hd]. pose proof (month_days_bound (isLeap y) m).
  unfold ParseDateOnly. rewrite bytes_of_bytes.
  2:{ pose proof digit_range. unfold pad4, pad2. cbn [app]. repeat constructor; try lia;
      match goal with |- context [digit ?x] => specialize (H0 x); lia end. }
  unfold pad4, pad2. cbn [app].
  assert (forall l, Forall (fun x => 48 <= x <= 57) l -> forallb is_digit l = true) as Hdig by (intros; by apply forallb_digits).
  rewrite Hdig by (repeat constructor; apply digit_range). cbn [andb Z.eqb Pos.eqb].
  change (dec [digit (y / 1000); digit (y / 100); digit (y / 10); digit y]) with (dec (pad4 y)).
  change (dec [digit (m / 10); digit m]) with (dec (pad2 m)). change (dec [digit (d / 10); digit d]) with (dec (pad2 d)).
  rewrite dec_pad4, !dec_pad2 by lia.
  assert ((1 <=? m) && (m <=? 12) && (1 <=? d) && (d <=? month_days (isLeap y) m) = true) as -> by (rewrite !andb_true_iff, !Z.leb_le; lia).
  done.
Qed.

Lemma year_digits_pad y : 0 <= y <= 9999 -> year_digits y = pad4 y.
Proof.
  intros H. unfold year_digits. destruct (y <? 0) eqn:E1; go_bool; [lia|]. destruct (y <=? 9999) eqn:E2; go_bool; [done|lia].
Qed.

(** Formatting and parsing are inverse on the years the layout can write. *)
Lemma parse_format n : 0 <= Year n <= 9999 -> ParseDateOnly (FormatDateOnly n) = Some n.
Proof.
  intros Hy. destruct (Date_of_civil n) as [E Hv]. unfold FormatDateOnly.
  rewrite (year_digits_pad _ Hy), (ParseDateOnly_pad _ _ _ Hy Hv). by rewrite E.
Qed.

Lemma format_parse s n : ParseDateOnly s = Some n -> FormatDateOnly n = s /\ 0 <= Year n <= 9999.
Proof.
  intros (y & m & d & Hb & Hy & Hv & ->)%ParseDateOnly_inv. destruct (civil_of_Date _ _ _ Hv) as (Ey & Em & Ed).
  unfold FormatDateOnly. rewrite Ey, Em, Ed, (year_digits_pad _ Hy), <- Hb, of_bytes_bytes. done.
Qed.

(** A year the layout cannot write makes a longer text, which does not parse. *)
Lemma long_year y : -10 ^ 18 <= y <= 10 ^ 18 -> ~ (0 <= y <= 9999) -> (5 <= length (year_digits y))%nat.
Proof.
  assert (forall n, 9999 < n <= 10 ^ 18 -> (5 <= length (bytes (FormatInt n)))%nat) as H.
  { intros n Hn. destruct (FormatInt_digits n) as (l & -> & Hd & Hf & _); [unfold int64_max; lia|].
    pose proof (dec_bound l Hf) as B. rewrite Hd in B. assert (0 <= llen l) by (unfold llen; lia).
    assert (4 < llen l) by (apply (Z.pow_lt_mono_r_iff 10); [lia..|change (10 ^ 4) with 10000; lia]).
    unfold llen in *. lia. }
  intros Hr Hy. unfold year_digits. destruct (y <? 0) eqn:E; go_bool; [cbn [length]|].
  - destruct (_ <=? 9999) eqn:E2; go_bool; [cbn; lia|]. specialize (H (- y) ltac:(lia)). lia.
  - destruct (y <=? 9999) eqn:E2; go_bool; [lia|]. apply H. lia.
Qed.

(** The range of years any instant of the program lies in. *)
Definition year_in_range (n : Days) : Prop := -10 ^ 18 <= Year n <= 10 ^ 18.

Lemma parse_format_inv n t : year_in_range n -> ParseDateOnly (FormatDateOnly n) = Some t -> t = n /\ 0 <= Year n <= 9999.
Proof.
  intros Hr H. destruct (decide (0 <= Year n <= 9999)) as [Hy|Hy].
  { rewrite (parse_format _ Hy) in H. by injection H as <-. }
  exfalso. pose proof (long_year _ Hr Hy) as Hl. apply ParseDateOnly_inv in H as (y & m & d & Hb & _).
  apply (f_equal length) in Hb. rewrite length_bytes in Hb. unfold FormatDateOnly in Hb.
  assert (forall l, String.length (of_bytes l) = length l) as Hlen by (induction l as [|x l IH]; [done|]; cbn; by rewrite IH).
  rewrite Hlen, !length_app in Hb. cbn in Hb. lia.
Qed.

(** ** The order of dates is the order of their strings *)

Lemma Date_order y m d y' m' d' : valid_civil y m d -> valid_civil y' m' d' ->
  Date y m d < Date y' m' d' <-> y < y' \/ (y = y' /\ (m < m' \/ (m = m' /\ d < d'))).
Proof.
  assert (forall y m d y' m' d', valid_civil y m d -> valid_civil y' m' d' ->
    y < y' \/ (y = y' /\ (m < m' \/ (m = m' /\ d < d'))) -> Date y m d < Date y' m' d') as H.
  { clear. intros y m d y' m' d' [Hm Hd] [Hm' Hd']. rewrite (Date_valid _ _ _ Hm), (Date_valid _ _ _ Hm').
    destruct (month_length (isLeap y) m Hm) as (Hl & _ & _). destruct (month_length (isLeap y') m' Hm') as (_ & _ & H0).
    intros [Hy|[<- [Hlt|[<- Hlt]]]]; [| |lia].
    - assert (days_before_month (isLeap y) (m + 1) <= days_before_month (isLeap y) 13) as H13.
      { destruct (Z.eq_dec m 12) as [->|]; [done|]. pose proof (month_mono (isLeap y) (m + 1) 13 ltac:(lia) ltac:(lia)). lia. }
      rewrite month_end in H13. pose proof (year_length y).
      assert (days_before_year (y + 1) <= days_before_year y').
      { destruct (Z.eq_dec (y + 1) y') as [->|]; [lia|]. pose proof (year_mono (y + 1) y' ltac:(lia)). lia. }
      destruct (isLeap y); lia.
    - destruct (Z.eq_dec (m + 1) m') as [<-|]; [lia|]. pose proof (month_mono (isLeap y) (m + 1) m' ltac:(lia) ltac:(lia)). lia. }
  intros Hv Hv'. split; [|by apply H]. intros Hlt.
  destruct (Z.lt_trichotomy y y') as [|[E1|]]; [by left| |pose proof (H _ _ _ _ _ _ Hv' Hv ltac:(lia)); lia].
  destruct (Z.lt_trichotomy m m') as [|[E2|]]; [lia| |pose proof (H _ _ _ _ _ _ Hv' Hv ltac:(lia)); lia].
  destruct (Z.lt_trichotomy d d') as [|[E3|]]; [lia|subst; lia|pose proof (H _ _ _ _ _ _ Hv' Hv ltac:(lia)); lia].
Qed.

Fixpoint bytes_lt (l r : list Z) : bool :=
  match l, r with
  | [], [] => false
  | [], _ :: _ => true
  | _ :: _, [] => false
  | a :: l, b :: r => (a <? b) || ((a =? b) && bytes_lt l r)
  end.

Lemma str_lt_bytes s : forall t, str_lt s t = bytes_lt (bytes s) (bytes t).
Proof.
  induction s as [|a s IH]; intros [|b t]; try done. specialize (IH t).
  unfold str_lt, String.ltb in *. cbn [String.compare bytes bytes_lt]. unfold Ascii.compare, byte_of in *.
  destruct (N.compare_spec (N_of_ascii a) (N_of_ascii b)) as [E|E|E].
  - rewrite IH, E, Z.ltb_irrefl, Z.eqb_refl. done.
  - assert (Z.of_N (N_of_ascii a) <? Z.of_N (N_of_ascii b) = true) as -> by (apply Z.ltb_lt; lia). done.
  - assert (Z.of_N (N_of_ascii a) <? Z.of_N (N_of_ascii b) = false) as -> by (apply Z.ltb_ge; lia).
    assert (Z.of_N (N_of_ascii a) =? Z.of_N (N_of_ascii b) = false) as -> by (apply Z.eqb_neq; lia). done.
Qed.

(** A field of digits of equal width followed by anything. *)
Lemma bytes_lt_app l l' r r' : length l = length l' ->
  bytes_lt (l ++ r) (l' ++ r') = bytes_lt l l' || (bool_decide (l = l') && bytes_lt r r').
Proof.
  revert l'. induction l as [|a l IH]; intros [|a' l'] Hl; try done. cbn in Hl. cbn [app bytes_lt].
  rewrite IH by lia. destruct (a <? a') eqn:E1; [done|]. cbn [orb]. destruct (a =? a') eqn:E2; go_bool.
  - subst a'. cbn [andb]. f_equal. f_equal. apply bool_decide_ext. split; congruence.
  - cbn. rewrite bool_decide_false by congruence. done.
Qed.

Lemma bytes_lt_pad2 m m' : 0 <= m <= 99 -> 0 <= m' <= 99 -> bytes_lt (pad2 m) (pad2 m') = (m <? m').
Proof.
  intros H H'. unfold pad2, digit. cbn [bytes_lt]. rewrite andb_false_r, orb_false_r.
  apply eq_true_iff_eq. rewrite orb_true_iff, andb_true_iff, !Z.ltb_lt, Z.eqb_eq.
  Z.to_euclidean_division_equations. lia.
Qed.

Lemma bytes_lt_pad4 y y' : 0 <= y <= 9999 -> 0 <= y' <= 9999 -> bytes_lt (pad4 y) (pad4 y') = (y <? y').
Proof.
  intros H H'. change (pad4 y) with (map digit [y / 1000; y / 100] ++ pad2 y).
  change (pad4 y') with (map digit [y' / 1000; y' / 100] ++ pad2 y'). rewrite bytes_lt_app by done.
  unfold pad2, digit. cbn [map bytes_lt]. rewrite !andb_false_r, !orb_false_r.
  apply eq_true_iff_eq. rewrite !orb_true_iff, !andb_true_iff, orb_true_iff, andb_true_iff, !Z.ltb_lt, !Z.eqb_eq, bool_decide_eq_true.
  assert ((forall a b a' b' : Z, [48 + a; 48 + b] = [48 + a'; 48 + b'] <-> a = a' /\ b = b')) as Hl.
  { intros. split; [intros E; injection E; lia|by intros [-> ->]]. }
  rewrite Hl. Z.to_euclidean_division_equations. lia.
Qed.

Lemma pad_inj4 y y' : 0 <= y <= 9999 -> 0 <= y' <= 9999 -> pad4 y = pad4 y' <-> y = y'.
Proof. intros H H'. split; [|by intros ->]. intros E%(f_equal dec). by rewrite !dec_pad4 in E by done. Qed.
Lemma pad_inj2 y y' : 0 <= y <= 99 -> 0 <= y' <= 99 -> pad2 y = pad2 y' <-> y = y'.
Proof. intros H H'. split; [|by intros ->]. intros E%(f_equal dec). by rewrite !dec_pad2 in E by done. Qed.

Lemma date_string_order s t m n : ParseDateOnly s = Some m -> ParseDateOnly t = Some n ->
  str_lt s t = (m <? n).
Proof.
  intros (y & mo & d & Hb & Hy & Hv & ->)%ParseDateOnly_inv (y' & mo' & d' & Hb' & Hy' & Hv' & ->)%ParseDateOnly_inv.
  pose proof Hv as [Hm Hd]. pose proof Hv' as [Hm' Hd'].
  pose proof (month_days_bound (isLeap y) mo). pose proof (month_days_bound (isLeap y') mo').
  rewrite str_lt_bytes, Hb, Hb'. rewrite !bytes_lt_app by done.
  rewrite bytes_lt_pad4, !bytes_lt_pad2 by lia.
  rewrite (bool_decide_ext _ _ (pad_inj4 y y' Hy Hy')), (bool_decide_ext _ _ (pad_inj2 mo mo' ltac:(lia) ltac:(lia))).
  apply eq_true_iff_eq. rewrite Z.ltb_lt, (Date_order _ _ _ _ _ _ Hv Hv').
  cbn [bytes_lt]. rewrite !Z.ltb_irrefl, ?Z.eqb_refl, ?(bool_decide_true ([45] = [45])) by done.
  cbn. rewrite !orb_true_iff, !andb_true_iff, !orb_true_iff, !andb_true_iff, !bool_decide_eq_true, !Z.ltb_lt. tauto.
Qed.

(** str_le on well-formed dates. *)
Lemma date_string_le s t m n : ParseDateOnly s = Some m -> ParseDateOnly t = Some n ->
  str_le s t = (m <=? n).
Proof.
  intros Hs Ht. rewrite Z.leb_antisym, <- (date_string_order _ _ _ _ Ht Hs). unfold str_le, str_lt, String.leb, String.ltb.
  rewrite (String.compare_antisym t s). by destruct (String.compare s t).
Qed.
