(* ===== verification/NodeCalendar.v ===== *)
(** * Contract calendar of a node

    internal/nodelifecycle/calendar.go: the expiry date of a node's contract and
    how it advances by days, months or years with a remembered anchor day. Dates
    are stored as yyyy-mm-dd strings and compared as strings. The time zone
    database is behind [load_location]: the offset from UTC, in seconds, that a
    zone has at an instant, or [None] when the zone is unknown. *)

From S2P Require Import Prelude GoText GoNumber GoDate.

Inductive LifecycleError := ErrInvalid | ErrAdvanceLimit.

Definition MaximumAdvanceIntervals : Z := 120.

Record CalendarAnchor := mkCalendarAnchor { an_Month : Z; an_Day : Z; an_EndOfMonth : bool }.
Record CalendarPeriod := mkCalendarPeriod {
  pe_ExpiresOn : string; pe_Unit : string; pe_Count : Z; pe_Anchor : CalendarAnchor }.
Record Advancement := mkAdvancement { ad_ExpiresOn : string; ad_Intervals : Z }.

Definition ParseDate (value : string) : result LifecycleError Days :=
  match ParseDateOnly value with
  | None => Err ErrInvalid
  | Some date =>
      if negb (len value =? 10) || (FormatDateOnly date <>s value) || (Year date <? 1) then Err ErrInvalid
      else Ok date
  end.

Definition daysInMonth (year month : Z) : Z := Day (Date year (month + 1) 0).

Definition AnchorForDate (value : string) : result LifecycleError CalendarAnchor :=
  let* date := ParseDate value in
  Ok (mkCalendarAnchor (Month date) (Day date) (Day date =? daysInMonth (Year date) (Month date))).

Definition validPeriod (period : CalendarPeriod) : bool :=
  (1 <=? pe_Count period) && (pe_Count period <=? MaximumAdvanceIntervals)
  && (1 <=? an_Day (pe_Anchor period)) && (an_Day (pe_Anchor period) <=? 31)
  && (1 <=? an_Month (pe_Anchor period)) && (an_Month (pe_Anchor period) <=? 12).

Definition anchoredDate (year month : Z) (anchor : CalendarAnchor) : Days :=
  let day := Z.min (an_Day anchor) (daysInMonth year month) in
  let day := if an_EndOfMonth anchor then daysInMonth year month else day in
  Date year month day.

Definition AdvanceCalendar (period : CalendarPeriod) : result LifecycleError string :=
  let* date := ParseDate (pe_ExpiresOn period) in
  if negb (validPeriod period) then Err ErrInvalid
  else
    let* next :=
      if pe_Unit period =s "day" then Ok (AddDays date (pe_Count period))
      else if pe_Unit period =s "month" then
        let month := Date (Year date) (Month date + pe_Count period) 1 in
        Ok (anchoredDate (Year month) (Month month) (pe_Anchor period))
      else if pe_Unit period =s "year" then
        Ok (anchoredDate (Year date + pe_Count period) (an_Month (pe_Anchor period)) (pe_Anchor period))
      else Err ErrInvalid in
    if (9999 <? Year next) || negb (date <? next) then Err ErrInvalid
    else Ok (FormatDateOnly next).

Definition set_pe_ExpiresOn (v : string) (p : CalendarPeriod) : CalendarPeriod :=
  mkCalendarPeriod v (pe_Unit p) (pe_Count p) (pe_Anchor p).

(** The loop of AdvanceUntilFuture; [None] is a loop that did not end in [fuel]
    turns. *)
Fixpoint advance_loop (fuel : nat) (period : CalendarPeriod) (today : string) (r : Advancement)
  : option (result LifecycleError Advancement) :=
  match fuel with
  | O => None
  | S fuel =>
      if str_le (ad_ExpiresOn r) today then
        if MaximumAdvanceIntervals <=? ad_Intervals r then Some (Err ErrAdvanceLimit)
        else
          let period := set_pe_ExpiresOn (ad_ExpiresOn r) period in
          match AdvanceCalendar period with
          | Err e => Some (Err e)
          | Ok next => advance_loop fuel period today (mkAdvancement next (ad_Intervals r + 1))
          end
      else Some (Ok r)
  end.

Definition AdvanceUntilFuture (fuel : nat) (period : CalendarPeriod) (today : string)
  : option (result LifecycleError Advancement) :=
  match ParseDate today with
  | Err e => Some (Err e)
  | Ok _ =>
      match ParseDate (pe_ExpiresOn period) with
      | Err e => Some (Err e)
      | Ok _ => advance_loop fuel period today (mkAdvancement (pe_ExpiresOn period) 0)
      end
  end.

(** date.Unix(): day 0 is 719162 days before 1970. *)
Definition DayUnix (n : Days) : Z := (n - 719162) * 86400.

(** now.In(location) has the date of the instant shifted by the zone's offset. *)
Definition local_day (now : Time) (offset : Z) : Days := (now + offset * Second) / (86400 * Second).

Definition LifecycleStatus (load_location : string -> option (Time -> Z)) (expiresOn : string) (now : Time) (zone : string)
  : result LifecycleError (string * option Z) :=
  match load_location zone with
  | None => Err ErrInvalid
  | Some location =>
      if expiresOn =s "" then Ok ("untracked", None)
      else
        let* date := ParseDate expiresOn in
        let local := local_day now (location now) in
        let today := Date (Year local) (Month local) (Day local) in
        let remaining := Z.quot (DayUnix date - DayUnix today) 86400 in
        let status := "scheduled" in
        let status := if remaining =? 0 then "due_today" else status in
        let status := if remaining <? 0 then "expired" else status in
        Ok (status, Some remaining)
  end.

(** ** Lemmas *)

Lemma ParseDate_spec value date : ParseDate value = Ok date <->
  ParseDateOnly value = Some date /\ 1 <= Year date.
Proof.
  unfold ParseDate. destruct (ParseDateOnly value) as [d|] eqn:E; [|by split; [|intros [? _]]].
  destruct (format_parse _ _ E) as [Hf _].
  assert (len value = 10) as Hl.
  { destruct (ParseDateOnly_inv _ _ E) as (y & m & dd & Hb & _). unfold len. rewrite <- length_bytes, Hb. done. }
  rewrite Hl, Hf, String.eqb_refl. cbn [negb orb]. rewrite Z.eqb_refl. cbn [negb orb].
  destruct (Year d <? 1) eqn:Hy; go_bool; split.
  - done.
  - intros [[= ->] ?]. lia.
  - by intros [= <-].
  - by intros [[= ->] _].
Qed.

Lemma ParseDate_format n : 1 <= Year n <= 9999 -> ParseDate (FormatDateOnly n) = Ok n.
Proof. intros H. apply ParseDate_spec. split; [apply parse_format; lia|lia]. Qed.

Lemma daysInMonth_spec year month : 1 <= month <= 12 -> daysInMonth year month = month_days (isLeap year) month.
Proof.
  intros Hm. unfold daysInMonth. pose proof (month_days_bound (isLeap year) month) as Hb.
  assert (Date year (month + 1) 0 = Date year month (month_days (isLeap year) month)) as ->.
  { rewrite (Date_valid year month) by done. destruct (month_length (isLeap year) month Hm) as (Hl & _ & _).
    destruct (Z.eq_dec month 12) as [->|].
    - unfold Date. change (12 + 1 - 1) with 12. change (12 / 12) with 1. change (12 mod 12 + 1) with 1.
      pose proof (year_length year) as Hy. change (12 + 1) with 13 in Hl. rewrite month_end in Hl.
      assert (days_before_month (isLeap (year + 1)) 1 = 0) as -> by by destruct (isLeap (year + 1)). lia.
    - rewrite Date_valid by lia. lia. }
  apply civil_of_Date. split; [done|lia].
Qed.

Lemma anchored_valid year month anchor : 1 <= month <= 12 -> 1 <= an_Day anchor ->
  let day := if an_EndOfMonth anchor then month_days (isLeap year) month
             else Z.min (an_Day anchor) (month_days (isLeap year) month) in
  anchoredDate year month anchor = Date year month day /\ valid_civil year month day.
Proof.
  intros Hm Ha. unfold anchoredDate. rewrite daysInMonth_spec by done.
  pose proof (month_days_bound (isLeap year) month). split; [done|]. split; [done|]. destruct (an_EndOfMonth anchor); lia.
Qed.

Lemma validPeriod_spec p : validPeriod p = true <->
  1 <= pe_Count p <= 120 /\ 1 <= an_Day (pe_Anchor p) <= 31 /\ 1 <= an_Month (pe_Anchor p) <= 12.
Proof. unfold validPeriod, MaximumAdvanceIntervals. rewrite !andb_true_iff, !Z.leb_le. lia. Qed.

(** The month that is [k] months after a given one. *)
Lemma month_shift year month k : 1 <= month <= 12 -> 0 <= k ->
  let n := Date year (month + k) 1 in
  12 * Year n + Month n = 12 * year + month + k /\ 1 <= Month n <= 12.
Proof.
  intros Hm Hk n. set (m := month + k - 1). set (y := year + m / 12). set (mo := m mod 12 + 1).
  pose proof (Z.mod_pos_bound m 12 ltac:(lia)). pose proof (Z.div_mod m 12 ltac:(lia)).
  assert (n = Date y mo 1) as ->.
  { rewrite Date_valid by lia. unfold n, Date. fold m. fold y. fold mo. done. }
  pose proof (month_days_bound (isLeap y) mo).
  destruct (civil_of_Date y mo 1) as (-> & -> & _); [split; lia|]. unfold y, mo. lia.
Qed.

(** ** Advancing *)

(** The date AdvanceCalendar aims at, by unit. *)
Definition target (unit_ : string) (count : Z) (anchor : CalendarAnchor) (date next : Days) : Prop :=
  let anchored := Day next = if an_EndOfMonth anchor then daysInMonth (Year next) (Month next)
                             else Z.min (an_Day anchor) (daysInMonth (Year next) (Month next)) in
  (unit_ = "day" /\ next = date + count) \/
  (unit_ = "month" /\ 12 * Year next + Month next = 12 * Year date + Month date + count /\ anchored) \/
  (unit_ = "year" /\ Year next = Year date + count /\ Month next = an_Month anchor /\ anchored).

Lemma anchored_fields year month anchor : 1 <= month <= 12 -> 1 <= an_Day anchor ->
  let next := anchoredDate year month anchor in
  Year next = year /\ Month next = month /\
  Day next = if an_EndOfMonth anchor then daysInMonth year month else Z.min (an_Day anchor) (daysInMonth year month).
Proof.
  intros Hm Ha next. destruct (anchored_valid year month anchor Hm Ha) as [E Hv].
  destruct (civil_of_Date _ _ _ Hv) as (Ey & Em & Ed). unfold next. rewrite E, daysInMonth_spec by done. done.
Qed.

(** A later month, in whatever year, is a later date. *)
Lemma later_month date next : 12 * Year date + Month date < 12 * Year next + Month next -> date < next.
Proof.
  intros H. destruct (Date_of_civil date) as [E Hv]. destruct (Date_of_civil next) as [E' Hv'].
  rewrite <- E, <- E'. apply Date_order; [done..|]. destruct Hv as [Hm _], Hv' as [Hm' _]. lia.
Qed.

(** The three units always reach a later date; only the year 9999 can be in the way. *)
Lemma AdvanceCalendar_reaches p date : ParseDate (pe_ExpiresOn p) = Ok date -> validPeriod p = true ->
  (pe_Unit p = "day" \/ pe_Unit p = "month" \/ pe_Unit p = "year") ->
  exists next, target (pe_Unit p) (pe_Count p) (pe_Anchor p) date next /\ date < next /\
    Year date <= Year next <= Year date + 120 /\
    AdvanceCalendar p = if 9999 <? Year next then Err ErrInvalid else Ok (FormatDateOnly next).
Proof.
  intros Hp Hv Hu. pose proof (proj1 (validPeriod_spec p) Hv) as (Hc & Hd & Hm).
  unfold AdvanceCalendar. rewrite Hp. cbn [bind]. rewrite Hv. cbn [negb].
  destruct (Date_of_civil date) as [_ [Hmd _]].
  assert (forall next, date < next -> (if (9999 <? Year next) || negb (date <? next) then Err ErrInvalid else Ok (FormatDateOnly next))
    = if 9999 <? Year next then Err (A := string) ErrInvalid else Ok (FormatDateOnly next)) as Hfin.
  { intros next Hn. rewrite (proj2 (Z.ltb_lt _ _) Hn). by rewrite orb_false_r. }
  destruct Hu as [Hu|[Hu|Hu]]; rewrite Hu; cbn [String.eqb Ascii.eqb Bool.eqb bind].
  - exists (AddDays date (pe_Count p)). unfold AddDays. split_and!; [by left|lia|..|apply Hfin; lia].
    + pose proof (Year_bounds date). pose proof (Year_bounds (date + pe_Count p)).
      destruct (Z.le_gt_cases (Year date) (Year (date + pe_Count p))) as [|Hgt]; [done|].
      pose proof (year_mono _ _ Hgt). destruct (Z.eq_dec (Year (date + pe_Count p) + 1) (Year date)) as [E|]; [rewrite E in *; lia|].
      pose proof (year_mono (Year (date + pe_Count p) + 1) (Year date) ltac:(lia)). lia.
    + pose proof (Year_bounds date). pose proof (Year_bounds (date + pe_Count p)).
      destruct (Z.le_gt_cases (Year (date + pe_Count p)) (Year date + 1)) as [|Hgt]; [lia|].
      pose proof (year_mono _ _ Hgt). lia.
  - destruct (month_shift (Year date) (Month date) (pe_Count p) Hmd ltac:(lia)) as [Hs Hmo].
    set (month := Date (Year date) (Month date + pe_Count p) 1) in *.
    destruct (anchored_fields (Year month) (Month month) (pe_Anchor p) Hmo ltac:(lia)) as (Ey & Em & Ed).
    set (next := anchoredDate _ _ _) in *. exists next.
    assert (12 * Year next + Month next = 12 * Year date + Month date + pe_Count p) as Hsum by (rewrite Ey, Em; lia).
    assert (date < next) by (apply later_month; lia).
    destruct (Date_of_civil next) as [_ [Hmn _]].
    split_and!; [right; left; split_and!; [done..|]; by rewrite Ed, Ey, Em|done|lia|lia|by apply Hfin].
  - destruct (anchored_fields (Year date + pe_Count p) (an_Month (pe_Anchor p)) (pe_Anchor p) Hm ltac:(lia)) as (Ey & Em & Ed).
    set (next := anchoredDate _ _ _) in *. exists next.
    assert (date < next) by (apply later_month; destruct (Date_of_civil next) as [_ [Hmn _]]; lia).
    split_and!; [right; right; split_and!; [done..|]; by rewrite Ed, Ey, Em|done|lia|lia|by apply Hfin].
Qed.

Lemma AdvanceCalendar_ok_inv p s : AdvanceCalendar p = Ok s ->
  exists date, ParseDate (pe_ExpiresOn p) = Ok date /\ validPeriod p = true /\
    (pe_Unit p = "day" \/ pe_Unit p = "month" \/ pe_Unit p = "year").
Proof.
  unfold AdvanceCalendar. intros (date & Hd & H)%bind_ok. exists date.
  destruct (validPeriod p) eqn:Hv; [|done]. cbn [negb] in H. apply bind_ok in H as (next & Hn & _).
  split_and!; [done..|]. destruct (pe_Unit p =s "day") eqn:E1; go_bool; [auto|].
  destruct (pe_Unit p =s "month") eqn:E2; go_bool; [auto|]. destruct (pe_Unit p =s "year") eqn:E3; go_bool; [auto|done].
Qed.

Lemma AdvanceCalendar_ok p s : AdvanceCalendar p = Ok s ->
  exists date next, ParseDate (pe_ExpiresOn p) = Ok date /\ ParseDate s = Ok next /\ date < next /\ Year next <= 9999 /\
    target (pe_Unit p) (pe_Count p) (pe_Anchor p) date next.
Proof.
  intros H. destruct (AdvanceCalendar_ok_inv p s H) as (date & Hd & Hv & Hu).
  destruct (AdvanceCalendar_reaches p date Hd Hv Hu) as (next & Ht & Hlt & Hy & E). rewrite E in H.
  destruct (9999 <? Year next) eqn:E9; [done|]. injection H as <-. go_bool.
  exists date, next. split_and!; try done. apply ParseDate_format.
  apply ParseDate_spec in Hd as [_ Hd]. lia.
Qed.

(** ** Properties *)

(** One advance: AdvanceCalendar returns a well-formed date strictly after the
    current one (as a date and as a string), at most year 9999, that lies exactly
    Count days later, or in the month exactly Count months later, or in the
    anchor month Count years later; in the last two cases on the anchor day, cut
    to the length of the month, or on the last day when the contract is anchored
    at the end of the month, so the day does not drift after a short month. *)
Theorem advance_calendar_target p s : AdvanceCalendar p = Ok s ->
  exists date next, ParseDate (pe_ExpiresOn p) = Ok date /\ ParseDate s = Ok next /\
    date < next /\ str_lt (pe_ExpiresOn p) s = true /\ Year next <= 9999 /\
    target (pe_Unit p) (pe_Count p) (pe_Anchor p) date next.
Proof.
  intros (date & next & Hd & Hs & Hlt & Hy & Ht)%AdvanceCalendar_ok. exists date, next. split_and!; try done.
  apply ParseDate_spec in Hd as [Hd _], Hs as [Hs _]. rewrite (date_string_order _ _ _ _ Hd Hs). by apply Z.ltb_lt.
Qed.

Definition sample_period : CalendarPeriod :=
  mkCalendarPeriod "2024-01-31" "month" 1 (mkCalendarAnchor 1 31 true).

Lemma advance_calendar_target_witness :
  AdvanceCalendar sample_period = Ok "2024-02-29" /\
  exists date next, ParseDate "2024-01-31" = Ok date /\ ParseDate "2024-02-29" = Ok next /\
    date < next /\ str_lt "2024-01-31" "2024-02-29" = true /\ Year next <= 9999 /\
    target "month" 1 (mkCalendarAnchor 1 31 true) date next.
Proof.
  assert (AdvanceCalendar sample_period = Ok "2024-02-29") as H by (vm_compute; reflexivity).
  split; [exact H|]. exact (advance_calendar_target sample_period "2024-02-29" H).
Defined.

(** Advancing cannot get stuck: a well-formed date, a valid period and one of
    the three units always advance, unless the calendar would pass year 9999. *)
Theorem advance_calendar_total p date : ParseDate (pe_ExpiresOn p) = Ok date -> validPeriod p = true ->
  (pe_Unit p = "day" \/ pe_Unit p = "month" \/ pe_Unit p = "year") -> Year date <= 9879 ->
  exists s, AdvanceCalendar p = Ok s.
Proof.
  intros Hd Hv Hu Hy. destruct (AdvanceCalendar_reaches p date Hd Hv Hu) as (next & _ & _ & Hr & ->).
  destruct (9999 <? Year next) eqn:E; go_bool; [lia|by eexists].
Qed.

Lemma advance_calendar_total_witness : exists s, AdvanceCalendar sample_period = Ok s.
Proof.
  apply (advance_calendar_total sample_period (Date 2024 1 31)).
  - vm_compute. reflexivity.
  - reflexivity.
  - right. left. reflexivity.
  - vm_compute. discriminate.
Defined.

(** ** Advancing until the future *)

(** AdvanceCalendar [k] times over, each time from the date it returned. *)
Fixpoint advance_times (k : nat) (p : CalendarPeriod) : result LifecycleError string :=
  match k with
  | O => Ok (pe_ExpiresOn p)
  | S k => let* s := AdvanceCalendar p in advance_times k (set_pe_ExpiresOn s p)
  end.

Lemma advance_times_snoc k : forall p s, advance_times k p = Ok s ->
  advance_times (S k) p = AdvanceCalendar (set_pe_ExpiresOn s p).
Proof.
  induction k as [|k IH]; intros p s; cbn [advance_times].
  - intros [= <-]. destruct p. cbn. by destruct (AdvanceCalendar _).
  - intros (s1 & H1 & H)%bind_ok. rewrite H1. cbn [bind]. apply (IH (set_pe_ExpiresOn s1 p)) in H. exact H.
Qed.

Lemma ParseDate_err s e : ParseDate s = Err e -> e = ErrInvalid.
Proof. unfold ParseDate. destruct (ParseDateOnly s); [|congruence]. destruct (_ || _ || _); congruence. Qed.

Lemma AdvanceCalendar_err p e : AdvanceCalendar p = Err e -> e = ErrInvalid.
Proof.
  unfold AdvanceCalendar. destruct (ParseDate (pe_ExpiresOn p)) as [date|e'] eqn:E; cbn [bind].
  2:{ intros [= <-]. by eapply ParseDate_err. }
  destruct (negb (validPeriod p)); [congruence|].
  destruct (if pe_Unit p =s "day" then _ else _) as [next|e'] eqn:En; cbn [bind].
  - destruct (_ || _); congruence.
  - intros [= <-]. destruct (_ =s "day"); [done|]. destruct (_ =s "month"); [done|]. destruct (_ =s "year"); congruence.
Qed.

(** The loop from a state it can be in: the current date was reached in
    [Intervals] advances, every one of them from a date not after today. *)
Lemma advance_loop_spec fuel today p0 t limit : limit = Z.to_nat MaximumAdvanceIntervals ->
  ParseDate today = Ok t -> forall p r n,
  (Z.to_nat (121 - ad_Intervals r) < fuel)%nat -> 0 <= ad_Intervals r <= 120 ->
  advance_times (Z.to_nat (ad_Intervals r)) p0 = Ok (ad_ExpiresOn r) -> ParseDate (ad_ExpiresOn r) = Ok n ->
  (forall j, (j < Z.to_nat (ad_Intervals r))%nat -> exists s, advance_times j p0 = Ok s /\ str_le s today = true) ->
  set_pe_ExpiresOn "" p = set_pe_ExpiresOn "" p0 ->
  exists out, advance_loop fuel p today r = Some out /\
    match out with
    | Ok r' => exists n', ParseDate (ad_ExpiresOn r') = Ok n' /\ t < n' /\ 0 <= ad_Intervals r' <= 120 /\
        advance_times (Z.to_nat (ad_Intervals r')) p0 = Ok (ad_ExpiresOn r') /\
        (forall j, (j < Z.to_nat (ad_Intervals r'))%nat -> exists s, advance_times j p0 = Ok s /\ str_le s today = true)
    | Err ErrAdvanceLimit => exists s, advance_times limit p0 = Ok s /\ str_le s today = true
    | Err ErrInvalid => exists k s, (k < limit)%nat /\ advance_times k p0 = Ok s /\ advance_times (S k) p0 = Err ErrInvalid
    end.
Proof.
  intros Hlim Ht. induction fuel as [|fuel IH]; intros p r n Hfuel Hi Htimes Hparse Hbefore Hp; [lia|]. cbn [advance_loop].
  pose proof (proj1 (ParseDate_spec _ _) Hparse) as [Hn _]. pose proof (proj1 (ParseDate_spec _ _) Ht) as [Ht' _].
  destruct (str_le (ad_ExpiresOn r) today) eqn:Hle.
  2:{ eexists. split; [done|]. exists n. rewrite (date_string_le _ _ _ _ Hn Ht') in Hle. go_bool. split_and!; try done; lia. }
  unfold MaximumAdvanceIntervals in *. destruct (120 <=? ad_Intervals r) eqn:Hmax; go_bool.
  { eexists. split; [done|]. cbv match. assert (ad_Intervals r = 120) as E by lia. rewrite E in Htimes.
    exists (ad_ExpiresOn r). by rewrite Hlim. }
  assert (set_pe_ExpiresOn (ad_ExpiresOn r) p = set_pe_ExpiresOn (ad_ExpiresOn r) p0) as Ep.
  { unfold set_pe_ExpiresOn in *. injection Hp as E1 E2 E3. by rewrite E1, E2, E3. }
  generalize dependent (set_pe_ExpiresOn (ad_ExpiresOn r) p). intros p' Ep.
  pose proof (advance_times_snoc _ _ _ Htimes) as Hnext. rewrite <- Ep in Hnext.
  destruct (AdvanceCalendar p') as [next|e] eqn:Ha.
  - destruct (AdvanceCalendar_ok _ _ Ha) as (date & nx & _ & Hpn & _).
    apply (IH p' (mkAdvancement next (ad_Intervals r + 1)) nx); cbn [ad_ExpiresOn ad_Intervals]; try done; try lia.
    + by rewrite Z2Nat.inj_add, Nat.add_1_r by lia.
    + intros j Hj. destruct (decide (j = Z.to_nat (ad_Intervals r))) as [->|]; [by eexists|]. apply Hbefore. lia.
    + rewrite Ep. by destruct p0.
  - eexists. split; [done|]. assert (e = ErrInvalid) as -> by by eapply AdvanceCalendar_err.
    cbv match. exists (Z.to_nat (ad_Intervals r)), (ad_ExpiresOn r). split_and!; [lia|done|done].
Qed.

(** Catching up after downtime: 122 turns always suffice, and when
    AdvanceUntilFuture succeeds its date is the first of the contract's due dates
    that lies after today, reached in at most 120 advances; it fails only if the
    120th date is still not in the future or some advance is impossible. *)
Theorem advance_until_future p today t : ParseDate today = Ok t ->
  exists out, AdvanceUntilFuture 122 p today = Some out /\
  match out with
  | Ok r => exists n, ParseDate (ad_ExpiresOn r) = Ok n /\ t < n /\ 0 <= ad_Intervals r <= 120 /\
      advance_times (Z.to_nat (ad_Intervals r)) p = Ok (ad_ExpiresOn r) /\
      (forall j, (j < Z.to_nat (ad_Intervals r))%nat -> exists s, advance_times j p = Ok s /\ str_le s today = true)
  | Err ErrAdvanceLimit => exists s, advance_times 120 p = Ok s /\ str_le s today = true
  | Err ErrInvalid => ParseDate (pe_ExpiresOn p) = Err ErrInvalid \/
      exists k s, (k < 120)%nat /\ advance_times k p = Ok s /\ advance_times (S k) p = Err ErrInvalid
  end.
Proof.
  intros Ht. unfold AdvanceUntilFuture. rewrite Ht.
  destruct (ParseDate (pe_ExpiresOn p)) as [n|e] eqn:Hp.
  - destruct (advance_loop_spec 122 today p t 120 eq_refl Ht p (mkAdvancement (pe_ExpiresOn p) 0) n) as (out & -> & Hout);
      cbn [ad_Intervals ad_ExpiresOn]; try done; try lia.
    exists out. split; [done|]. destruct out as [r|[]]; auto.
  - eexists. split; [done|]. assert (e = ErrInvalid) as -> by by eapply ParseDate_err.
    by left.
Qed.

Lemma advance_until_future_witness :
  AdvanceUntilFuture 122 sample_period "2024-05-30" = Some (Ok (mkAdvancement "2024-05-31" 4)) /\
  exists out, AdvanceUntilFuture 122 sample_period "2024-05-30" = Some out /\
  match out with
  | Ok r => exists n, ParseDate (ad_ExpiresOn r) = Ok n /\ Date 2024 5 30 < n /\ 0 <= ad_Intervals r <= 120 /\
      advance_times (Z.to_nat (ad_Intervals r)) sample_period = Ok (ad_ExpiresOn r) /\
      (forall j, (j < Z.to_nat (ad_Intervals r))%nat ->
         exists s, advance_times j sample_period = Ok s /\ str_le s "2024-05-30" = true)
  | Err ErrAdvanceLimit => exists s, advance_times 120 sample_period = Ok s /\ str_le s "2024-05-30" = true
  | Err ErrInvalid => ParseDate (pe_ExpiresOn sample_period) = Err ErrInvalid \/
      exists k s, (k < 120)%nat /\ advance_times k sample_period = Ok s /\ advance_times (S k) sample_period = Err ErrInvalid
  end.
Proof.
  split; [vm_compute; reflexivity|].
  apply (advance_until_future sample_period "2024-05-30" (Date 2024 5 30)). vm_compute. reflexivity.
Defined.

(** Contract status: for a tracked node and a known zone, the days remaining are
    the exact difference between the expiry date and the local date in that zone
    (daylight saving cannot change it), and the status says expired, due today
    or scheduled according to its sign. *)
Theorem lifecycle_status_days load_location expiresOn date now zone location :
  load_location zone = Some location -> expiresOn <> "" -> ParseDate expiresOn = Ok date ->
  let remaining := date - local_day now (location now) in
  LifecycleStatus load_location expiresOn now zone =
    Ok (if remaining <? 0 then "expired" else if remaining =? 0 then "due_today" else "scheduled", Some remaining).
Proof.
  intros Hz Hn Hd remaining. unfold LifecycleStatus. rewrite Hz. apply String.eqb_neq in Hn. rewrite Hn, Hd. cbn [bind].
  destruct (Date_of_civil (local_day now (location now))) as [-> _].
  assert (Z.quot (DayUnix date - DayUnix (local_day now (location now))) 86400 = remaining) as ->; [|done].
  unfold DayUnix, remaining. rewrite <- Z.mul_sub_distr_r, Z.quot_mul by lia. lia.
Qed.

Definition sample_zone (zone : string) : option (Time -> Z) :=
  if zone =s "UTC" then Some (fun _ => 0) else None.

Lemma lifecycle_status_days_witness :
  LifecycleStatus sample_zone "2024-02-29" (Date 2024 2 28 * 86400 * Second) "UTC" = Ok ("scheduled", Some 1).
Proof.
  rewrite (lifecycle_status_days sample_zone "2024-02-29" (Date 2024 2 29) (Date 2024 2 28 * 86400 * Second) "UTC" (fun _ => 0)).
  - vm_compute. reflexivity.
  - reflexivity.
  - discriminate.
  - vm_compute. reflexivity.
Defined.
