(* ===== verification/NodePrice.v ===== *)
(** * Contract prices

    internal/nodelifecycle/price.go: prices are int64 micro-units, written and
    read as exact decimals with at most six fraction digits, without floats. *)

From S2P Require Import Prelude GoText GoNumber NodeCalendar.

Definition PriceScale : Z := 1000000.

Definition decimalDigits (value : string) : bool := forallb (between 48 57) (runes value).

(** strings.Repeat("0", n) *)
Fixpoint zeros (n : nat) : string := match n with O => "" | S n => String "0" (zeros n) end.

Definition parseFraction (parts : list string) : result LifecycleError Z :=
  match parts with
  | [_; fraction] =>
      if (fraction =s "") || (6 <? len fraction) || negb (decimalDigits fraction) then Err ErrInvalid
      else match ParseInt (fraction +:+ zeros (Z.to_nat (6 - len fraction))) with
           | None => Err ErrInvalid
           | Some n => Ok n
           end
  | _ => Ok 0
  end.

Definition ParsePrice (value : string) : result LifecycleError Z :=
  let parts := Split value "." in
  let first := nth 0 parts "" in
  if (2 <? llen parts) || (first =s "") || negb (decimalDigits first) then Err ErrInvalid
  else match ParseInt first with
  | None => Err ErrInvalid
  | Some integer =>
      if Z.quot int64_max PriceScale <? integer then Err ErrInvalid
      else
        let* fraction := parseFraction parts in
        let r := wrap64 (integer * PriceScale) in
        if wrap64 (int64_max - fraction) <? r then Err ErrInvalid
        else Ok (wrap64 (r + fraction))
  end.

Definition FormatPrice (micros : Z) : result LifecycleError string :=
  if micros <? 0 then Err ErrInvalid
  else
    let integer := FormatInt (Z.quot micros PriceScale) in
    let fraction := Z.rem micros PriceScale in
    if fraction =? 0 then Ok integer
    else
      let padded := str_drop 1 (FormatInt (PriceScale + fraction)) in
      Ok (integer +:+ "." +:+ TrimRight padded (fun c => Ascii.eqb c "0")).

(** ** Splitting at the point *)

Lemma Split_no_sep s c : (forall a, byte_of a ∈ bytes s -> a <> c) -> Split s c = [s].
Proof.
  induction s as [|a s IH]; intros H; [done|]. cbn [Split].
  destruct (Ascii.eqb_spec a c) as [->|Hn]; [exfalso; apply (H c); [by left|done]|].
  rewrite IH; [done|]. intros b Hb. apply H. by right.
Qed.

Lemma Split_app s c t : (forall a, byte_of a ∈ bytes s -> a <> c) -> Split (s +:+ String c t) c = s :: Split t c.
Proof.
  induction s as [|a s IH]; intros H.
  { change ("" +:+ String c t) with (String c t). cbn [Split]. by rewrite Ascii.eqb_refl. }
  change (String a s +:+ String c t) with (String a (s +:+ String c t)). cbn [Split].
  destruct (Ascii.eqb_spec a c) as [->|Hn]; [exfalso; apply (H c); [by left|done]|].
  rewrite IH; [done|]. intros b Hb. apply H. by right.
Qed.

Lemma digits_no_point s : Forall (fun b => 48 <= b <= 57) (bytes s) -> forall a, byte_of a ∈ bytes s -> a <> "."%char.
Proof. rewrite Forall_forall. intros H a Ha ->. specialize (H _ Ha). vm_compute in H. by destruct H. Qed.

Lemma decimalDigits_spec s : decimalDigits s = true <-> Forall (fun b => 48 <= b <= 57) (bytes s).
Proof. unfold decimalDigits. rewrite digit_runes. apply forallb_digits. Qed.

(** ** Trailing zeros *)

Lemma bytes_zeros n : bytes (zeros n) = replicate n 48.
Proof. induction n as [|n IH]; [done|]. cbn [zeros bytes replicate]. by rewrite IH. Qed.

Lemma trim_zeros s : exists k, bytes s = bytes (TrimRight s (fun c => Ascii.eqb c "0")) ++ replicate k 48.
Proof.
  induction s as [|a s [k IH]]; [by exists O|]. cbn [TrimRight bytes].
  destruct (TrimRight s _) as [|b t] eqn:E.
  - cbn [bytes app] in IH. destruct (Ascii.eqb_spec a "0") as [->|Hn].
    + exists (S k). cbn [bytes app replicate]. by rewrite IH.
    + exists k. cbn [bytes app]. by rewrite IH.
  - exists k. rewrite IH. done.
Qed.

Lemma dec_zeros k : dec (replicate k 48) = 0.
Proof.
  induction k as [|k IH]; [done|]. rewrite replicate_S_end, dec_snoc, IH. lia.
Qed.

(** The six digits of a fraction: FormatInt(PriceScale+fraction)[1:]. *)
Lemma padded_digits fraction : 0 <= fraction < PriceScale ->
  let padded := bytes (str_drop 1 (FormatInt (PriceScale + fraction))) in
  length padded = 6%nat /\ dec padded = fraction /\ Forall (fun b => 48 <= b <= 57) padded.
Proof.
  intros H padded. unfold PriceScale in *.
  destruct (FormatInt_digits (1000000 + fraction)) as (l & Hb & Hd & Hf & Hn & Hlen); [unfold int64_max; lia|].
  unfold padded. generalize dependent (FormatInt (1000000 + fraction)). intros s _ Hb.
  specialize (Hlen ltac:(lia)). pose proof (dec_bound l Hf) as B. rewrite Hd in B.
  assert (0 <= llen l) by (unfold llen; lia).
  assert (6 < llen l) by (apply (Z.pow_lt_mono_r_iff 10); [lia..|change (10 ^ 6) with 1000000; lia]).
  assert (llen l - 1 < 7) by (apply (Z.pow_lt_mono_r_iff 10); [lia..|change (10 ^ 7) with 10000000; lia]).
  destruct s as [|a s]; cbn [bytes] in Hb; [by subst|].
  assert (str_drop 1 (String a s) = s) as -> by by destruct s. subst l.
  apply Forall_cons in Hf as [Ha Hf]. unfold llen in *. cbn [length] in *.
  assert (length (bytes s) = 6%nat) as Hl by lia. split_and!; [done| |done].
  change (byte_of a :: bytes s) with ([byte_of a] ++ bytes s) in Hd. rewrite dec_app in Hd. unfold llen in Hd.
  pose proof (dec_bound _ Hf) as Bs. unfold llen in Bs. rewrite Hl in *. change (Z.of_nat 6) with 6 in *.
  assert (dec [byte_of a] = byte_of a - 48) as E by (unfold dec; cbn; lia). rewrite E in Hd. lia.
Qed.

Lemma FormatInt_parse n : 0 <= n <= int64_max ->
  ParseInt (FormatInt n) = Some n /\ decimalDigits (FormatInt n) = true /\ (FormatInt n =s "") = false.
Proof.
  intros H. destruct (FormatInt_digits n H) as (l & Hb & Hd & Hf & Hn & _).
  split_and!.
  - rewrite ParseInt_digits; rewrite Hb; [by rewrite Hd|done|done|rewrite Hd; lia].
  - apply decimalDigits_spec. by rewrite Hb.
  - apply String.eqb_neq. intros E. rewrite E in Hb. by subst.
Qed.

(** A fraction field and the six digits it stands for. *)
Lemma parseFraction_padded first f fraction : 0 < fraction < PriceScale ->
  f = TrimRight (str_drop 1 (FormatInt (PriceScale + fraction))) (fun c => Ascii.eqb c "0") ->
  Forall (fun b => 48 <= b <= 57) (bytes f) /\ parseFraction [first; f] = Ok fraction.
Proof.
  intros Hfr ->. destruct (padded_digits fraction ltac:(lia)) as (Hl & Hd & Hf).
  set (padded := str_drop 1 _) in *. clearbody padded. destruct (trim_zeros padded) as [k Hk].
  set (f := TrimRight _ _) in *. clearbody f. rewrite Hk in Hf. apply Forall_app in Hf as [Hf _]. split; [done|].
  assert (length (bytes f) + k = 6)%nat as Hlen by (rewrite Hk, length_app, length_replicate in Hl; lia).
  assert (bytes f <> []) as Hne.
  { intros E. rewrite Hk, E in Hd. cbn [app] in Hd. rewrite dec_zeros in Hd. lia. }
  assert (len f = Z.of_nat (length (bytes f))) as El by (unfold len; by rewrite length_bytes).
  unfold parseFraction. rewrite El.
  assert ((f =s "") = false) as -> by (apply String.eqb_neq; by intros ->).
  assert (6 <? Z.of_nat (length (bytes f)) = false) as -> by (apply Z.ltb_ge; lia).
  rewrite (proj2 (decimalDigits_spec f) Hf). cbn [orb negb].
  replace (Z.to_nat (6 - Z.of_nat (length (bytes f)))) with k by lia.
  assert (bytes (f +:+ zeros k) = bytes padded) as Eb by (by rewrite bytes_app, bytes_zeros, Hk).
  rewrite ParseInt_digits; rewrite Eb; [by rewrite Hd|..].
  - rewrite Hk. intros [? _]%app_nil. done.
  - rewrite Hk. apply Forall_app. split; [done|]. apply Forall_replicate. lia.
  - rewrite Hd. unfold int64_max, PriceScale in *. lia.
Qed.

Lemma parts_ok first rest : (llen (first :: rest) <= 2) -> first <> "" -> decimalDigits first = true ->
  (2 <? llen (first :: rest)) || (first =s "") || negb (decimalDigits first) = false.
Proof. intros H1 ->%String.eqb_neq ->. rewrite orb_false_r, orb_false_r. apply Z.ltb_ge. lia. Qed.

(** Prices survive a round trip: every nonnegative int64 amount of micro-units
    is formatted to a decimal that parses back to exactly the same amount. *)
Theorem price_roundtrip micros : 0 <= micros <= int64_max ->
  exists s, FormatPrice micros = Ok s /\ ParsePrice s = Ok micros.
Proof.
  intros H. unfold FormatPrice. destruct (micros <? 0) eqn:E; go_bool; [lia|]. clear E.
  pose proof (Z.quot_rem' micros PriceScale) as Hqr. pose proof (Z.rem_bound_pos micros PriceScale ltac:(lia) ltac:(unfold PriceScale; lia)) as Hr.
  set (q := Z.quot micros PriceScale) in *. set (r := Z.rem micros PriceScale) in *. clearbody q r.
  assert (0 <= q <= Z.quot int64_max PriceScale) as Hq by (change (Z.quot int64_max PriceScale) with 9223372036854;
    unfold int64_max, PriceScale in *; lia).
  change (Z.quot int64_max PriceScale) with 9223372036854 in Hq.
  destruct (FormatInt_parse q) as (Hp & Hdig & Hne); [unfold int64_max; lia|].
  assert (forall a, byte_of a ∈ bytes (FormatInt q) -> a <> "."%char) as Hnp by (by apply digits_no_point, decimalDigits_spec).
  assert (forall fr, 0 <= fr < PriceScale -> wrap64 (q * PriceScale) = q * PriceScale /\
     wrap64 (int64_max - fr) = int64_max - fr) as Hw.
  { intros fr Hfr. unfold PriceScale, int64_max in *. split; apply wrap64_id; unfold in_int64, int64_min, int64_max; lia. }
  destruct (r =? 0) eqn:Er; go_bool.
  - eexists. split; [done|]. unfold ParsePrice. rewrite (Split_no_sep _ _ Hnp). cbn [nth].
    rewrite parts_ok; [|unfold llen; cbn [length]; lia|done|done]. rewrite Hp. change (Z.quot int64_max PriceScale) with 9223372036854.
    destruct (9223372036854 <? q) eqn:E1; go_bool; [lia|]. cbn [parseFraction bind].
    destruct (Hw 0) as [-> ->]; [unfold PriceScale; lia|]. destruct (_ <? _) eqn:E2; go_bool; [unfold PriceScale in *; lia|].
    rewrite wrap64_id; [f_equal; lia|]. unfold in_int64, int64_min, int64_max, PriceScale in *; lia.
  - destruct (parseFraction_padded (FormatInt q) _ r ltac:(lia) eq_refl) as [Hdf Hpf].
    set (f := TrimRight _ _) in *. clearbody f. eexists. split; [done|]. unfold ParsePrice.
    change ("." +:+ f) with (String "." f). rewrite (Split_app _ _ _ Hnp), (Split_no_sep _ _ (digits_no_point _ Hdf)). cbn [nth].
    rewrite parts_ok; [|unfold llen; cbn [length]; lia|done|done]. rewrite Hp. change (Z.quot int64_max PriceScale) with 9223372036854.
    destruct (9223372036854 <? q) eqn:E1; go_bool; [lia|]. rewrite Hpf. cbn [bind].
    destruct (Hw r) as [-> ->]; [lia|]. destruct (_ <? _) eqn:E2; go_bool; [unfold PriceScale in *; lia|].
    rewrite wrap64_id; [f_equal; lia|]. unfold in_int64, int64_min, int64_max, PriceScale in *; lia.
Qed.

Lemma price_roundtrip_witness : exists s, FormatPrice 9223372036854775807 = Ok s /\ ParsePrice s = Ok 9223372036854775807.
Proof. apply (price_roundtrip 9223372036854775807). unfold int64_max. lia. Defined.

Lemma digits_ParseInt s n : ParseInt s = Some n -> bytes s <> [] -> Forall (fun b => 48 <= b <= 57) (bytes s) ->
  n = dec (bytes s) /\ n <= int64_max.
Proof.
  intros H Hn Hf. pose proof (dec_bound _ Hf) as B.
  destruct (Z.le_gt_cases (dec (bytes s)) int64_max) as [Hle|Hgt].
  { rewrite (ParseInt_digits _ Hn Hf Hle) in H. injection H as <-. done. }
  exfalso. revert H. unfold ParseInt. destruct (bytes s) as [|b l]; [done|].
  assert (match b :: l with 43 :: t => (false, t) | 45 :: t => (true, t) | l => (false, l) end = (false, b :: l)) as ->.
  { apply Forall_cons in Hf as [Hb' _]. destruct b as [|p|p]; try lia.
    do 6 (try destruct p as [p|p|]); try reflexivity; lia. }
  rewrite (proj2 (forallb_digits _) Hf). cbn [negb]. destruct (_ && _) eqn:E; [|done]. go_bool. lia.
Qed.

Lemma parseFraction_spec parts n : parseFraction parts = Ok n ->
  (length parts <> 2%nat /\ n = 0) \/
  exists first f, parts = [first; f] /\ Forall (fun b => 48 <= b <= 57) (bytes f) /\ 1 <= len f <= 6 /\
    n = dec (bytes f) * 10 ^ (6 - len f) /\ 0 <= n < PriceScale.
Proof.
  unfold parseFraction. destruct parts as [|first [|f [|]]]; try (by intros [= <-]; left; split).
  destruct (_ || _) eqn:E; [done|]. apply orb_false_iff in E as [E E3]. apply orb_false_iff in E as [E1 E2].
  apply negb_false_iff, decimalDigits_spec in E3. go_bool.
  assert (1 <= len f) as Hl by (destruct f; [done|unfold len; cbn; lia]).
  destruct (ParseInt _) as [k|] eqn:Hp; [|done]. intros [= <-]. right. exists first, f.
  set (pad := Z.to_nat (6 - len f)) in *.
  assert (bytes (f +:+ zeros pad) = bytes f ++ replicate pad 48) as Eb by (by rewrite bytes_app, bytes_zeros).
  apply digits_ParseInt in Hp as [-> _].
  - rewrite Eb, dec_app, dec_zeros, Z.add_0_r. unfold llen. rewrite length_replicate.
    replace (Z.of_nat pad) with (6 - len f) by lia. split_and!; try done.
    + pose proof (dec_bound _ E3) as B. assert (0 < 10 ^ (6 - len f)) by lia. nia.
    + pose proof (dec_bound _ E3) as B. assert (llen (bytes f) = len f) as El by (unfold llen, len; by rewrite length_bytes).
      rewrite El in B. assert (10 ^ len f * 10 ^ (6 - len f) = PriceScale) by (rewrite <- Z.pow_add_r by lia; by replace (len f + (6 - len f)) with 6 by lia).
      assert (0 < 10 ^ (6 - len f)) by lia. nia.
  - rewrite Eb. destruct f; [done|]. done.
  - rewrite Eb. apply Forall_app. split; [done|]. apply Forall_replicate. lia.
Qed.

(** Parsing is exact and never wraps: whatever ParsePrice accepts, its result is
    the decimal value of the text in micro-units, within 0 and the largest int64. *)
Theorem parse_price_exact s m : ParsePrice s = Ok m ->
  0 <= m <= int64_max /\
  exists i f, (Split s "." = [i] /\ f = "" \/ Split s "." = [i; f]) /\ len f <= 6 /\
    Forall (fun b => 48 <= b <= 57) (bytes i) /\ Forall (fun b => 48 <= b <= 57) (bytes f) /\
    m = dec (bytes i) * PriceScale + dec (bytes f) * 10 ^ (6 - len f).
Proof.
  unfold ParsePrice. destruct (Split s ".") as [|i rest] eqn:Hs; cbn [nth]; [done|].
  destruct (_ || _) eqn:E; [done|]. apply orb_false_iff in E as [E E3]. apply orb_false_iff in E as [E1 E2].
  apply negb_false_iff, decimalDigits_spec in E3. apply Z.ltb_ge in E1. apply String.eqb_neq in E2.
  destruct (ParseInt i) as [integer|] eqn:Hp; [|done].
  apply digits_ParseInt in Hp as [-> _]; [|by destruct i|done]. pose proof (dec_bound _ E3) as B.
  change (Z.quot int64_max PriceScale) with 9223372036854.
  destruct (9223372036854 <? dec (bytes i)) eqn:Eq; [done|]. apply Z.ltb_ge in Eq.
  intros (fraction & Hfr & H)%bind_ok.
  assert (0 <= fraction < PriceScale /\ exists f, (i :: rest = [i] /\ f = "" \/ i :: rest = [i; f]) /\ len f <= 6 /\
    Forall (fun b => 48 <= b <= 57) (bytes f) /\ fraction = dec (bytes f) * 10 ^ (6 - len f)) as (Hr & f & Hf & Hl & Hd & Ev).
  { apply parseFraction_spec in Hfr as [[Hn ->]|(first & f & Ep & Hd & Hl & Ev & Hr)].
    - split; [unfold PriceScale; lia|]. exists "". destruct rest as [|? [|]]; [|done|unfold llen in E1; cbn [length] in E1; lia].
      split_and!; [by left|unfold len; cbn; lia|constructor|reflexivity].
    - split; [done|]. injection Ep as <- ->. exists f. split_and!; [by right|lia|done|done]. }
  unfold PriceScale in *. rewrite !(wrap64_id (_ * _)), (wrap64_id (int64_max - _)) in H
    by (unfold in_int64, int64_min, int64_max; lia).
  destruct (_ <? _) eqn:E4 in H; [done|]. apply Z.ltb_ge in E4.
  rewrite wrap64_id in H by (unfold in_int64, int64_min, int64_max in *; lia). injection H as <-.
  split; [lia|]. exists i, f. split_and!; try done. by rewrite Ev.
Qed.

Lemma parse_price_exact_witness : ParsePrice "12.5" = Ok 12500000 /\ 0 <= 12500000 <= int64_max.
Proof.
  assert (ParsePrice "12.5" = Ok 12500000) as H by (vm_compute; reflexivity).
  split; [exact H|]. exact (proj1 (parse_price_exact "12.5" 12500000 H)).
Defined.
