(* ===== verification/NodeLifecycle.v ===== *)
(** * Node lifecycle service

    internal/nodelifecycle: validation.go, node.go, events.go, scheduler.go and
    public.go, with the types of internal/model/node_lifecycle.go. A node's
    contract (dates, price, visibility) is edited by administrators; a scheduler
    emits reminder events, each at most once per contract period, and advances
    the date of contracts that renew by calendar.

    SQL rows are the maps and lists of [Store]; a transaction that returns an
    error leaves the store as it was. Database failures are not modelled. The
    audit trail is a list. uuid.NewSHA1 is [sha1_uuid], the result of
    uuid.NewString the argument [fresh], and the time zone database
    [load_location] as in NodeCalendar. *)

From S2P Require Import Prelude GoText GoNumber GoDate NodeCalendar.

(** ** Data *)

Record LifecycleSettings := mkLifecycleSettings {
  ls_Timezone : string; ls_LeadDays : list Z; ls_PostDays : list Z;
  ls_PublicCountry : bool; ls_PublicExpiry : bool; ls_PublicPrice : bool }.

Record LifecycleWrite := mkLifecycleWrite {
  lw_Provider : string; lw_Plan : string; lw_PriceMicros : option Z; lw_Currency : string;
  lw_IntervalUnit : string; lw_IntervalCount : Z; lw_ExpiresOn : string; lw_RenewalMode : string;
  lw_PrivateNotes : string; lw_ExpiryVisibility : string; lw_PriceVisibility : string;
  lw_ConfirmAutoAdvance : bool }.

Definition set_lw_ExpiresOn (v : string) (w : LifecycleWrite) : LifecycleWrite :=
  mkLifecycleWrite (lw_Provider w) (lw_Plan w) (lw_PriceMicros w) (lw_Currency w) (lw_IntervalUnit w)
    (lw_IntervalCount w) v (lw_RenewalMode w) (lw_PrivateNotes w) (lw_ExpiryVisibility w) (lw_PriceVisibility w)
    (lw_ConfirmAutoAdvance w).
Definition set_lw_ConfirmAutoAdvance (v : bool) (w : LifecycleWrite) : LifecycleWrite :=
  mkLifecycleWrite (lw_Provider w) (lw_Plan w) (lw_PriceMicros w) (lw_Currency w) (lw_IntervalUnit w)
    (lw_IntervalCount w) (lw_ExpiresOn w) (lw_RenewalMode w) (lw_PrivateNotes w) (lw_ExpiryVisibility w)
    (lw_PriceVisibility w) v.

(** storedLifecycle: the embedded NodeLifecycle with its LifecycleWrite, and the
    private columns. Status and DaysRemaining are computed, not stored. *)
Record storedLifecycle := mkStoredLifecycle {
  sl_Write :> LifecycleWrite; sl_NodeID : string; sl_AnchorMonth : Z; sl_AnchorDay : Z;
  sl_AnchorEndOfMonth : bool; sl_UpdatedAt : Time; sl_periodKey : string; sl_name : string }.

Record LifecyclePublic := mkLifecyclePublic {
  lp_ExpiresOn : string; lp_Status : string; lp_DaysRemaining : option Z; lp_PriceMicros : option Z;
  lp_Currency : string; lp_IntervalUnit : string; lp_IntervalCount : Z }.

Inductive ServiceError := Calendar (e : LifecycleError) | ErrForbidden | ErrNotFound.

Definition lift {A} (r : result LifecycleError A) : result ServiceError A :=
  match r with Ok a => Ok a | Err e => Err (Calendar e) end.

(** ** validation.go *)

Definition validText (value : string) (maximum : Z) : bool :=
  (len value <=? maximum) && ValidString value && negb (existsb (Z.eqb 0) (runes value)).

Definition validVisibility (value : string) : bool := str_in value ["inherit"; "public"; "private"].

Definition validateMetadata (input : LifecycleWrite) : result LifecycleError unit :=
  if negb (validText (lw_Provider input) 100) || negb (validText (lw_Plan input) 100)
     || negb (validText (lw_PrivateNotes input) 2048) then Err ErrInvalid
  else if ContainsControl (lw_Provider input +:+ lw_Plan input) then Err ErrInvalid
  else Ok tt.

Definition validCurrency (value : string) : bool :=
  (len value =? 3) && forallb (between 65 90) (runes value).

Definition validatePrice (input : LifecycleWrite) : result LifecycleError unit :=
  if match lw_PriceMicros input with Some p => p <? 0 | None => false end then Err ErrInvalid
  else if (lw_Currency input <>s "") && negb (validCurrency (lw_Currency input)) then Err ErrInvalid
  else if match lw_PriceMicros input with Some _ => lw_Currency input =s "" | None => false end then Err ErrInvalid
  else Ok tt.

Definition validateInterval (input : LifecycleWrite) : result LifecycleError unit :=
  if (lw_IntervalUnit input <>s "day") && (lw_IntervalUnit input <>s "month") && (lw_IntervalUnit input <>s "year")
  then Err ErrInvalid
  else if (lw_IntervalCount input <? 1) || (120 <? lw_IntervalCount input) then Err ErrInvalid
  else Ok tt.

Definition validateRenewal (input : LifecycleWrite) : result LifecycleError unit :=
  let* _ := if lw_ExpiresOn input <>s "" then (let* _ := ParseDate (lw_ExpiresOn input) in Ok tt) else Ok tt in
  if (lw_RenewalMode input <>s "manual") && (lw_RenewalMode input <>s "calendar_auto_advance") then Err ErrInvalid
  else if (lw_RenewalMode input =s "calendar_auto_advance") && (lw_ExpiresOn input =s "") then Err ErrInvalid
  else if negb (validVisibility (lw_ExpiryVisibility input)) || negb (validVisibility (lw_PriceVisibility input))
  then Err ErrInvalid
  else Ok tt.

Definition ValidateWrite (input : LifecycleWrite) : result LifecycleError unit :=
  let* _ := validateMetadata input in
  let* _ := validatePrice input in
  let* _ := validateInterval input in
  validateRenewal input.

Definition DefaultSettings : LifecycleSettings :=
  mkLifecycleSettings "UTC" [0; 1; 3; 7; 14; 30] [1; 7] false false false.

(** slices.IsSorted *)
Fixpoint IsSorted (l : list Z) : bool :=
  match l with
  | a :: ((b :: _) as t) => (a <=? b) && IsSorted t
  | _ => true
  end.

Fixpoint stages_loop (previous : option Z) (stages : list Z) (post : bool) : bool :=
  match stages with
  | [] => true
  | stage :: rest =>
      if (stage <? 0) || (365 <? stage) || (post && (stage =? 0))
         || match previous with Some p => stage =? p | None => false end then false
      else stages_loop (Some stage) rest post
  end.

Definition validStages (stages : list Z) (post : bool) : bool :=
  if (366 <? llen stages) || negb (IsSorted stages) then false else stages_loop None stages post.

Section service.
Variable load_location : string -> option (Time -> Z).
Variable sha1_uuid : string -> string.

Definition ValidateSettings (input : LifecycleSettings) : result LifecycleError unit :=
  if (ls_Timezone input =s "") || (ls_Timezone input =s "Local") || (100 <? len (ls_Timezone input)) then Err ErrInvalid
  else match load_location (ls_Timezone input) with
  | None => Err ErrInvalid
  | Some _ => if negb (validStages (ls_LeadDays input) false) || negb (validStages (ls_PostDays input) true)
              then Err ErrInvalid else Ok tt
  end.

(** ** node.go *)

Definition renewedPeriod (previous next : storedLifecycle) : bool :=
  (lw_ExpiresOn previous <>s "") && (lw_ExpiresOn next <>s "") && (lw_ExpiresOn previous <>s lw_ExpiresOn next).

Definition prepareChange (fresh : string) (previous : storedLifecycle) (input : LifecycleWrite)
  : result LifecycleError storedLifecycle :=
  if (lw_RenewalMode input =s "calendar_auto_advance") && (lw_RenewalMode previous <>s "calendar_auto_advance")
     && negb (lw_ConfirmAutoAdvance input) then Err ErrInvalid
  else
    let write := set_lw_ConfirmAutoAdvance false input in
    if lw_ExpiresOn previous <>s lw_ExpiresOn input then
      let* anchor :=
        if lw_ExpiresOn input <>s "" then AnchorForDate (lw_ExpiresOn input) else Ok (mkCalendarAnchor 0 0 false) in
      Ok (mkStoredLifecycle write (sl_NodeID previous) (an_Month anchor) (an_Day anchor) (an_EndOfMonth anchor)
            (sl_UpdatedAt previous) fresh (sl_name previous))
    else
      Ok (mkStoredLifecycle write (sl_NodeID previous) (sl_AnchorMonth previous) (sl_AnchorDay previous)
            (sl_AnchorEndOfMonth previous) (sl_UpdatedAt previous) (sl_periodKey previous) (sl_name previous)).

(** ** events.go *)

Record eventRow := mkEventRow {
  er_id : string; er_node_id : string; er_node_name : string; er_kind : string; er_period_key : string;
  er_stage : Z; er_old_expires_on : string; er_new_expires_on : string; er_skipped_intervals : Z; er_actor : string;
  er_created_at : Time }.

(** The columns of the table's unique constraint. *)
Definition event_key (e : eventRow) : string * string * string * Z :=
  (er_node_id e, er_period_key e, er_kind e, er_stage e).

Record lifecycleEvent := mkLifecycleEvent {
  le_node : storedLifecycle; le_kind : string; le_oldDate : string; le_newDate : string; le_actor : string;
  le_stage : Z; le_intervals : Z }.

Record Request := mkRequest {
  rq_SourceKey : string; rq_SourceKind : string; rq_SourceID : string; rq_EventKind : string; rq_Subject : string;
  rq_Text : string; rq_UseSubscriptions : bool; rq_Data : list (string * string) }.

Record auditRow := mkAuditRow { au_actor : string; au_action : string; au_resource : string; au_at : Time }.

(** The tables the service uses: names of nodes and whether they are public,
    lifecycle rows, events, settings, audit. *)
Record Store := mkStore {
  so_nodes : gmap string (string * bool);
  so_lifecycle : gmap string storedLifecycle;
  so_events : list eventRow;
  so_settings : LifecycleSettings;
  so_audit : list auditRow }.

Definition set_so_lifecycle (m : gmap string storedLifecycle) (s : Store) : Store :=
  mkStore (so_nodes s) m (so_events s) (so_settings s) (so_audit s).
Definition set_so_events (l : list eventRow) (s : Store) : Store :=
  mkStore (so_nodes s) (so_lifecycle s) l (so_settings s) (so_audit s).
Definition audit (actor action id : string) (now : Time) (s : Store) : Store :=
  mkStore (so_nodes s) (so_lifecycle s) (so_events s) (so_settings s) (so_audit s ++ [mkAuditRow actor action id now]).

Definition eventMessage (input : lifecycleEvent) : string :=
  let name := sl_name (le_node input) in
  if le_kind input =s "node.renewed" then
    if le_actor input =s "scheduler" then
      name +:+ ": Date advanced from " +:+ le_oldDate input +:+ " to " +:+ le_newDate input +:+ " ("
        +:+ FormatInt (le_intervals input) +:+ " intervals). No payment was performed."
    else name +:+ ": Tracked expiry changed from " +:+ le_oldDate input +:+ " to " +:+ le_newDate input +:+ "."
  else if le_kind input =s "node.expired" then
    name +:+ ": Expiry " +:+ lw_ExpiresOn (le_node input) +:+ " passed " +:+ FormatInt (le_stage input)
      +:+ " days ago. Monitoring continues."
  else name +:+ ": Tracked expiry " +:+ lw_ExpiresOn (le_node input) +:+ " is in " +:+ FormatInt (le_stage input)
      +:+ " calendar days.".

(** INSERT ... ON CONFLICT(node_id,period_key,kind,stage) DO NOTHING: no request
    when the row was already there. *)
Definition event (now : Time) (input : lifecycleEvent) (s : Store) : option Request * Store :=
  let node := le_node input in
  let key := "node_lifecycle:" +:+ sl_NodeID node +:+ ":" +:+ sl_periodKey node +:+ ":" +:+ le_kind input
             +:+ ":" +:+ FormatInt (le_stage input) in
  let id := sha1_uuid key in
  let row := mkEventRow id (sl_NodeID node) (sl_name node) (le_kind input) (sl_periodKey node) (le_stage input)
    (le_oldDate input) (le_newDate input) (le_intervals input) (le_actor input) now in
  if existsb (fun e => bool_decide (event_key e = event_key row)) (so_events s) then (None, s)
  else
    let message := eventMessage input in
    (Some (mkRequest key "node_lifecycle" id (le_kind input) "Node lifecycle update" message true
       [("event.kind", le_kind input); ("event.message", message); ("node.id", sl_NodeID node);
        ("node.name", sl_name node)]),
     set_so_events (so_events s ++ [row]) s).

(** ** Transactions *)

(** authorize: [session] is the row of the user and live session it looks up
    (role and reauthenticated_until), [None] when there is none. *)
Definition authorize (session : option (string * option Time)) (now : Time) (owner recent : bool)
  : result ServiceError unit :=
  match session with
  | None => Err ErrForbidden
  | Some (role, until) =>
      if (role <>s "owner") && (owner || (role <>s "admin")) then Err ErrForbidden
      else if recent && match until with Some t => negb (Before now t) | None => true end then Err ErrForbidden
      else Ok tt
  end.

Definition default_lifecycle (id name : string) : storedLifecycle :=
  mkStoredLifecycle (mkLifecycleWrite "" "" None "" "month" 1 "" "manual" "" "inherit" "inherit" false)
    id 0 0 false 0 "" name.

(** tx.node *)
Definition load_node (id : string) (s : Store) : result ServiceError storedLifecycle :=
  match so_nodes s !! id with
  | None => Err ErrNotFound
  | Some (name, _) =>
      match so_lifecycle s !! id with
      | None => Ok (default_lifecycle id name)
      | Some v => Ok (mkStoredLifecycle (sl_Write v) id (sl_AnchorMonth v) (sl_AnchorDay v)
                        (sl_AnchorEndOfMonth v) (sl_UpdatedAt v) (sl_periodKey v) name)
      end
  end.

Definition persistNode (now : Time) (value : storedLifecycle) (s : Store) : Store :=
  set_so_lifecycle (<[sl_NodeID value := mkStoredLifecycle (sl_Write value) (sl_NodeID value) (sl_AnchorMonth value)
    (sl_AnchorDay value) (sl_AnchorEndOfMonth value) now (sl_periodKey value) (sl_name value)]> (so_lifecycle s)) s.

Definition scanSettings (s : Store) : result ServiceError LifecycleSettings :=
  let* _ := lift (ValidateSettings (so_settings s)) in Ok (so_settings s).

(** Node: the record and the computed status and days remaining. *)
Definition NodeView (session : option (string * option Time)) (now : Time) (id : string) (s : Store)
  : result ServiceError (storedLifecycle * string * option Z) :=
  let* _ := authorize session now false false in
  let* value := load_node id s in
  let* settings := scanSettings s in
  let* status := lift (LifecycleStatus load_location (lw_ExpiresOn value) now (ls_Timezone settings)) in
  Ok (value, status.1, status.2).

(** The transaction of SaveNode; the store after it is the old one on an error. *)
Definition SaveNode (session : option (string * option Time)) (user fresh : string) (now : Time) (id : string)
    (input : LifecycleWrite) (s : Store) : result ServiceError (option Request * Store) :=
  let* _ := lift (ValidateWrite input) in
  let* _ := authorize session now false false in
  let* previous := load_node id s in
  let* next := lift (prepareChange fresh previous input) in
  let s := persistNode now next s in
  let s := audit user "lifecycle.node.update" id now s in
  if renewedPeriod previous next then
    Ok (event now (mkLifecycleEvent next "node.renewed" (lw_ExpiresOn previous) (lw_ExpiresOn next) user 0 0) s)
  else Ok (None, s).

(** ** scheduler.go *)

Definition remind (now : Time) (id : string) (s : Store) : result ServiceError (option Request * Store) :=
  match load_node id s with
  | Err ErrNotFound => Ok (None, s)
  | Err e => Err e
  | Ok node =>
      let* settings := scanSettings s in
      let* status := lift (LifecycleStatus load_location (lw_ExpiresOn node) now (ls_Timezone settings)) in
      match status.2 with
      | None => Ok (None, s)
      | Some remaining =>
          let '(kind, stage, selected) :=
            if remaining <? 0 then ("node.expired", - remaining, bool_decide (- remaining ∈ ls_PostDays settings))
            else ("node.expiring", remaining, bool_decide (remaining ∈ ls_LeadDays settings)) in
          if negb selected then Ok (None, s)
          else
            match event now (mkLifecycleEvent node kind "" (lw_ExpiresOn node) "scheduler" stage 0) s with
            | (None, s) => Ok (None, s)
            | (Some request, s) => Ok (Some request, audit "scheduler" "lifecycle.reminder" id now s)
            end
      end
  end.

(** advanceNode. AdvanceUntilFuture always ends within the fuel given. *)
Definition advanceNode (node : storedLifecycle) (now : Time) (timezone : string) : result LifecycleError Advancement :=
  match load_location timezone with
  | None => Err ErrInvalid
  | Some zone =>
      let period := mkCalendarPeriod (lw_ExpiresOn node) (lw_IntervalUnit node) (lw_IntervalCount node)
        (mkCalendarAnchor (sl_AnchorMonth node) (sl_AnchorDay node) (sl_AnchorEndOfMonth node)) in
      default (Err ErrAdvanceLimit) (AdvanceUntilFuture 122 period (FormatDateOnly (local_day now (zone now))))
  end.

Definition advance (now : Time) (id : string) (s : Store) : result ServiceError (option Request * Store) :=
  match load_node id s with
  | Err ErrNotFound => Ok (None, s)
  | Err e => Err e
  | Ok node =>
      if (lw_ExpiresOn node =s "") || (lw_RenewalMode node <>s "calendar_auto_advance") then Ok (None, s)
      else
        let* settings := scanSettings s in
        let* advanced := lift (advanceNode node now (ls_Timezone settings)) in
        if ad_Intervals advanced =? 0 then Ok (None, s)
        else
          let oldDate := lw_ExpiresOn node in
          let key := sha1_uuid (sl_periodKey node +:+ ":" +:+ ad_ExpiresOn advanced) in
          let node := mkStoredLifecycle (set_lw_ExpiresOn (ad_ExpiresOn advanced) (sl_Write node)) (sl_NodeID node)
            (sl_AnchorMonth node) (sl_AnchorDay node) (sl_AnchorEndOfMonth node) (sl_UpdatedAt node) key (sl_name node) in
          let s := persistNode now node s in
          let s := audit "scheduler" "lifecycle.date.advance" id now s in
          Ok (event now (mkLifecycleEvent node "node.renewed" oldDate (lw_ExpiresOn node) "scheduler" 0
                           (ad_Intervals advanced)) s)
  end.

(** ** public.go *)

Definition visible (override : string) (global : bool) : bool :=
  (override =s "public") || ((override =s "inherit") && global).

Definition projectLifecycle (value : storedLifecycle) (settings : LifecycleSettings) (now : Time)
  : result LifecycleError (option LifecyclePublic) :=
  let expiry := visible (lw_ExpiryVisibility value) (ls_PublicExpiry settings) in
  let price := visible (lw_PriceVisibility value) (ls_PublicPrice settings) in
  if negb expiry && negb price then Ok None
  else
    let* shown :=
      if expiry then
        let* status := LifecycleStatus load_location (lw_ExpiresOn value) now (ls_Timezone settings) in
        Ok (lw_ExpiresOn value, status.1, status.2)
      else Ok ("", "", None) in
    let '(expiresOn, status, days) := shown in
    Ok (Some (if price then
      mkLifecyclePublic expiresOn status days (lw_PriceMicros value) (lw_Currency value) (lw_IntervalUnit value)
        (lw_IntervalCount value)
    else mkLifecyclePublic expiresOn status days None "" "" 0)).

Definition PublicLifecycle (id : string) (now : Time) (s : Store) : result ServiceError (option LifecyclePublic) :=
  match so_nodes s !! id with
  | None => Ok None
  | Some (_, public) =>
      if negb public then Ok None
      else match so_lifecycle s !! id with
      | None => Ok None
      | Some value => let* settings := scanSettings s in lift (projectLifecycle value settings now)
      end
  end.

(** ** Runs of the service *)

(** Requests queued, in order, and the store. *)
Inductive service_step : Store -> option Request -> Store -> Prop :=
| StepSave s session user fresh now id input r s' :
    SaveNode session user fresh now id input s = Ok (r, s') -> service_step s r s'
| StepRemind s now id r s' : remind now id s = Ok (r, s') -> service_step s r s'
| StepAdvance s now id r s' : advance now id s = Ok (r, s') -> service_step s r s'.

Inductive service_run : Store -> list Request -> Store -> Prop :=
| RunStart s : so_events s = [] -> so_lifecycle s = ∅ -> service_run s [] s
| RunStep s0 s requests r s' : service_run s0 requests s -> service_step s r s' ->
    service_run s0 (requests ++ option_list r) s'.
End service.

(** ** Lemmas *)

Section proofs.
Variable load_location : string -> option (Time -> Z).
Variable sha1_uuid : string -> string.

(** event either finds its key taken, or adds one row and asks for one message. *)
Lemma event_spec now input s r s' : event sha1_uuid now input s = (r, s') ->
  so_lifecycle s' = so_lifecycle s /\ so_nodes s' = so_nodes s /\ so_settings s' = so_settings s /\
  ((r = None /\ so_events s' = so_events s) \/
   exists q row, r = Some q /\ so_events s' = so_events s ++ [row] /\ event_key row ∉ map event_key (so_events s) /\
     rq_SourceID q = er_id row).
Proof.
  unfold event. destruct (existsb _ _) eqn:E; intros [= <- <-]; cbn.
  { split_and!; [done..|]. by left. }
  split_and!; [done..|]. right. eexists _, _. split_and!; [done..| |done]. intros Hin.
  apply list_elem_of_fmap in Hin as (e & He & Hin). apply not_true_iff_false in E. apply E, existsb_exists.
  exists e. split; [by apply list_elem_of_In|]. by apply bool_decide_true.
Qed.

(** Any step of the service touches the event table through one event at most. *)
Lemma step_events s r s' : service_step load_location sha1_uuid s r s' ->
  (r = None /\ so_events s' = so_events s) \/
  exists q row, r = Some q /\ so_events s' = so_events s ++ [row] /\ event_key row ∉ map event_key (so_events s) /\
    rq_SourceID q = er_id row.
Proof.
  destruct 1 as [s session user fresh now id input r s' H | s now id r s' H | s now id r s' H].
  - unfold SaveNode in H. apply bind_ok in H as (_ & _ & H). apply bind_ok in H as (_ & _ & H).
    apply bind_ok in H as (previous & _ & H). apply bind_ok in H as (next & _ & H).
    destruct (renewedPeriod _ _) in H; [|injection H as <- <-; by left].
    destruct (event sha1_uuid now _ _) as [q s1] eqn:E. injection H as <- <-.
    by apply event_spec in E as (_ & _ & _ & E).
  - unfold remind in H. destruct (load_node id s) as [node|[e| |]]; [|done|done|injection H as <- <-; by left].
    apply bind_ok in H as (settings & _ & H). apply bind_ok in H as (status & _ & H).
    destruct status.2 as [remaining|]; [|injection H as <- <-; by left].
    destruct (if remaining <? 0 then _ else _) as [[kind stage] selected].
    destruct (negb selected); [injection H as <- <-; by left|].
    destruct (event sha1_uuid now _ s) as [[q|] s1] eqn:E; injection H as <- <-;
      by apply event_spec in E as (_ & _ & _ & E).
  - unfold advance in H. destruct (load_node id s) as [node|[e| |]]; [|done|done|injection H as <- <-; by left].
    destruct (_ || _); [injection H as <- <-; by left|].
    apply bind_ok in H as (settings & _ & H). apply bind_ok in H as (advanced & _ & H).
    destruct (_ =? 0); [injection H as <- <-; by left|].
    destruct (event sha1_uuid now _ _) as [q s1] eqn:E. injection H as <- <-.
    by apply event_spec in E as (_ & _ & _ & E).
Qed.

(** Each lifecycle event is sent once: along every run of saves, reminders and
    advances from empty tables, no two event rows share node, period, kind and
    stage, and the messages asked for are exactly one per row, in order, with the
    row's identifier; so ticking the scheduler again never repeats a reminder. *)
Theorem lifecycle_events_once s0 requests s : service_run load_location sha1_uuid s0 requests s ->
  NoDup (map event_key (so_events s)) /\ map rq_SourceID requests = map er_id (so_events s).
Proof.
  induction 1 as [s E _|s0 s requests r s' _ [IH1 IH2] Hstep]; [rewrite E; split; [constructor|done]|].
  destruct (step_events _ _ _ Hstep) as [[-> ->]|(q & row & -> & -> & Hnew & Hid)].
  - by rewrite app_nil_r.
  - rewrite !map_app, IH2. cbn. rewrite Hid. split; [|done].
    apply NoDup_app. split_and!; [done| |apply NoDup_singleton].
    intros k Hk ->%list_elem_of_singleton. done.
Qed.

(** ** Contracts stay advanceable *)

Definition period_of (v : storedLifecycle) : CalendarPeriod :=
  mkCalendarPeriod (lw_ExpiresOn v) (lw_IntervalUnit v) (lw_IntervalCount v)
    (mkCalendarAnchor (sl_AnchorMonth v) (sl_AnchorDay v) (sl_AnchorEndOfMonth v)).

(** A tracked contract the calendar can advance. *)
Record advanceable (v : storedLifecycle) : Prop := {
  av_date : lw_ExpiresOn v <> "" -> exists d, ParseDate (lw_ExpiresOn v) = Ok d;
  av_period : lw_ExpiresOn v <> "" -> validPeriod (period_of v) = true;
  av_unit : lw_IntervalUnit v = "day" \/ lw_IntervalUnit v = "month" \/ lw_IntervalUnit v = "year" }.

Lemma ValidateWrite_inv input : ValidateWrite input = Ok tt ->
  (lw_IntervalUnit input = "day" \/ lw_IntervalUnit input = "month" \/ lw_IntervalUnit input = "year") /\
  1 <= lw_IntervalCount input <= 120 /\ (lw_ExpiresOn input <> "" -> exists d, ParseDate (lw_ExpiresOn input) = Ok d).
Proof.
  unfold ValidateWrite. intros (_ & _ & H)%bind_ok. apply bind_ok in H as (_ & _ & H). apply bind_ok in H as ([] & Hi & Hr).
  unfold validateInterval in Hi. destruct (_ && _) eqn:Eu in Hi; [done|]. destruct (_ || _) eqn:Ec in Hi; [done|]. go_bool.
  split_and!; [tauto|lia|lia|]. intros Hne. unfold validateRenewal in Hr. apply bind_ok in Hr as (u & Hd & _).
  apply String.eqb_neq in Hne. rewrite Hne in Hd. cbn [negb] in Hd. apply bind_ok in Hd as (d & Hd & _). by exists d.
Qed.

Lemma AnchorForDate_range s a : AnchorForDate s = Ok a -> 1 <= an_Month a <= 12 /\ 1 <= an_Day a <= 31.
Proof.
  unfold AnchorForDate. intros (d & _ & H)%bind_ok. injection H as <-. cbn [an_Month an_Day].
  destruct (Date_of_civil d) as [_ [Hm Hd]]. pose proof (month_days_bound (isLeap (Year d)) (Month d)). lia.
Qed.

Lemma prepareChange_advanceable fresh previous input next : advanceable previous -> ValidateWrite input = Ok tt ->
  prepareChange fresh previous input = Ok next -> advanceable next /\ sl_NodeID next = sl_NodeID previous.
Proof.
  intros [Pd Pp Pu] (Hu & Hc & Hd)%ValidateWrite_inv. unfold prepareChange.
  destruct (_ && _ && _); [done|]. destruct (lw_ExpiresOn previous <>s lw_ExpiresOn input) eqn:E; go_bool.
  - intros (anchor & Ha & H)%bind_ok. injection H as <-. split; [|done]. constructor; cbn; [done| |done].
    intros Hne. pose proof (proj2 (String.eqb_neq _ _) Hne) as Hneb. rewrite Hneb in Ha. cbn [negb] in Ha.
    apply AnchorForDate_range in Ha as [Hm Hday]. apply validPeriod_spec. cbn. lia.
  - intros [= <-]. split; [|done]. constructor; cbn; [done| |done]. intros Hne.
    specialize (Pp ltac:(congruence)). apply validPeriod_spec in Pp. apply validPeriod_spec. cbn in *. lia.
Qed.

Lemma load_node_advanceable id s v : (forall k w, so_lifecycle s !! k = Some w -> advanceable w) ->
  load_node id s = Ok v -> advanceable v /\ sl_NodeID v = id.
Proof.
  intros Hall. unfold load_node. destruct (so_nodes s !! id) as [[name public]|]; [|done].
  destruct (so_lifecycle s !! id) as [w|] eqn:E; intros [= <-].
  - destruct (Hall _ _ E). by repeat split.
  - split; [|done]. constructor; cbn; [done..|tauto].
Qed.

Lemma persist_advanceable now v s k w : advanceable v -> (forall k w, so_lifecycle s !! k = Some w -> advanceable w) ->
  so_lifecycle (persistNode now v s) !! k = Some w -> advanceable w.
Proof.
  intros Hv Hall. unfold persistNode. cbn. destruct (decide (k = sl_NodeID v)) as [->|Hn].
  - rewrite lookup_insert_eq. intros [= <-]. destruct Hv. by constructor.
  - rewrite lookup_insert_ne by done. apply Hall.
Qed.

Lemma AdvanceUntilFuture_ok p today r : AdvanceUntilFuture 122 p today = Some (Ok r) ->
  exists t n, ParseDate today = Ok t /\ ParseDate (ad_ExpiresOn r) = Ok n /\ t < n /\ 0 <= ad_Intervals r <= 120 /\
    (ad_Intervals r = 0 -> ad_ExpiresOn r = pe_ExpiresOn p).
Proof.
  unfold AdvanceUntilFuture. destruct (ParseDate today) as [t|] eqn:Ht; [|done].
  destruct (ParseDate (pe_ExpiresOn p)) as [n0|] eqn:Hp; [|done]. intros H.
  destruct (advance_loop_spec 122 today p t _ eq_refl Ht p (mkAdvancement (pe_ExpiresOn p) 0) n0) as (out & Eo & Hout);
    cbn [ad_Intervals ad_ExpiresOn]; try done; try lia.
  rewrite H in Eo. injection Eo as <-. destruct Hout as (n & Hn & Hlt & Hi & Htimes & _).
  exists t, n. split_and!; try done; try lia. intros E. rewrite E in Htimes. by injection Htimes.
Qed.

Lemma advanceNode_ok node now zone r : advanceNode load_location node now zone = Ok r ->
  (forall location, load_location zone = Some location -> year_in_range (local_day now (location now))) ->
  exists location n, load_location zone = Some location /\ ParseDate (ad_ExpiresOn r) = Ok n /\
    ParseDate (FormatDateOnly (local_day now (location now))) = Ok (local_day now (location now)) /\
    local_day now (location now) < n /\ 0 <= ad_Intervals r <= 120 /\
    (ad_Intervals r = 0 -> ad_ExpiresOn r = lw_ExpiresOn node).
Proof.
  unfold advanceNode. destruct (load_location zone) as [location|] eqn:Hz; [|done]. intros H Hrange.
  specialize (Hrange _ eq_refl).
  destruct (AdvanceUntilFuture 122 _ _) as [out|] eqn:E; cbn [default from_option] in H; [|done]. unfold id in H. subst out.
  apply AdvanceUntilFuture_ok in E as (t & n & Ht & Hn & Hlt & Hi & H0).
  assert (t = local_day now (location now)) as ->.
  { apply ParseDate_spec in Ht as [Ht _]. by apply (parse_format_inv _ _ Hrange) in Ht as [-> _]. }
  exists location, n. split_and!; try done; lia.
Qed.

(** A contract whose date is after the local day does not advance. *)
Lemma advanceNode_future (node : storedLifecycle) now zone location n : load_location zone = Some location ->
  ParseDate (FormatDateOnly (local_day now (location now))) = Ok (local_day now (location now)) ->
  ParseDate (lw_ExpiresOn node) = Ok n -> local_day now (location now) < n ->
  advanceNode load_location node now zone = Ok (mkAdvancement (lw_ExpiresOn node) 0).
Proof.
  intros Hz Ht Hn Hlt. unfold advanceNode. rewrite Hz. unfold AdvanceUntilFuture. rewrite Ht. cbn [pe_ExpiresOn]. rewrite Hn.
  remember 121%nat as k. cbn [advance_loop ad_ExpiresOn].
  apply ParseDate_spec in Ht as [Ht _], Hn as [Hn _]. rewrite (date_string_le _ _ _ _ Hn Ht).
  destruct (_ <=? _) eqn:E; go_bool; [lia|done].
Qed.

Lemma step_advanceable s r s' : service_step load_location sha1_uuid s r s' ->
  (forall k w, so_lifecycle s !! k = Some w -> advanceable w) ->
  forall k w, so_lifecycle s' !! k = Some w -> advanceable w.
Proof.
  destruct 1 as [s session user fresh now id input r s' H | s now id r s' H | s now id r s' H]; intros Hall.
  - unfold SaveNode in H. apply bind_ok in H as (u & Hw & H). destruct (ValidateWrite input) as [[]|] eqn:Hval; [|done].
    apply bind_ok in H as (_ & _ & H). apply bind_ok in H as (previous & Hp & H). apply bind_ok in H as (next & Hn & H).
    destruct (load_node_advanceable _ _ _ Hall Hp) as [Hprev _].
    destruct (prepareChange fresh previous input) as [nx|] eqn:Hpc; [|done]. injection Hn as ->.
    destruct (prepareChange_advanceable _ _ _ _ Hprev Hval Hpc) as [Hnext _].
    assert (so_lifecycle s' = so_lifecycle (persistNode now next s)) as ->.
    { destruct (renewedPeriod _ _) in H; [|by injection H as <- <-].
      destruct (event sha1_uuid now _ _) as [q s1] eqn:E. injection H as <- <-. by apply event_spec in E as (-> & _). }
    intros k w. by apply persist_advanceable.
  - unfold remind in H. destruct (load_node id s) as [node|[e| |]]; [|done|done|by injection H as <- <-].
    apply bind_ok in H as (settings & _ & H). apply bind_ok in H as (status & _ & H).
    destruct status.2 as [remaining|]; [|by injection H as <- <-].
    destruct (if remaining <? 0 then _ else _) as [[kind stage] selected].
    destruct (negb selected); [by injection H as <- <-|].
    destruct (event sha1_uuid now _ s) as [[q|] s1] eqn:E; injection H as <- <-; apply event_spec in E as (El & _);
      cbn; by rewrite El.
  - unfold advance in H. destruct (load_node id s) as [node|[e| |]] eqn:Hl; [|done|done|by injection H as <- <-].
    destruct (_ || _) eqn:Econd; [by injection H as <- <-|].
    apply bind_ok in H as (settings & _ & H). apply bind_ok in H as (adv & Ha & H).
    destruct (_ =? 0); [by injection H as <- <-|].
    destruct (load_node_advanceable _ _ _ Hall Hl) as [[Nd Np Nu] _].
    destruct (event sha1_uuid now _ _) as [q s1] eqn:E. injection H as <- <-. apply event_spec in E as (-> & _).
    intros k w. apply persist_advanceable; [|done].
    assert (exists n, ParseDate (ad_ExpiresOn adv) = Ok n) as [n Hn].
    { unfold advanceNode in Ha. destruct (load_location _); [|done].
      destruct (AdvanceUntilFuture 122 _ _) as [[r|]|] eqn:E; try done. cbn in Ha. injection Ha as <-.
      apply AdvanceUntilFuture_ok in E as (t & n & _ & Hn & _). by exists n. }
    apply orb_false_iff in Econd as [Ene _]. apply String.eqb_neq in Ene. specialize (Np Ene).
    constructor; cbn; [by exists n| |done]. intros _. apply validPeriod_spec in Np. by apply validPeriod_spec.
Qed.

Lemma run_advanceable s0 requests s : service_run load_location sha1_uuid s0 requests s ->
  forall k w, so_lifecycle s !! k = Some w -> advanceable w.
Proof.
  induction 1 as [s _ E|s0 s requests r s' _ IH Hstep]; [intros k w; by rewrite E, lookup_empty|].
  by eapply step_advanceable.
Qed.

(** No contract gets stuck: every contract with a date that saves, reminders and
    advances can produce has a well-formed date, a valid interval and an anchor in
    range, so AdvanceCalendar succeeds on it unless the year would pass 9999. *)
Theorem contracts_stay_advanceable s0 requests s id (v : storedLifecycle) d :
  service_run load_location sha1_uuid s0 requests s -> so_lifecycle s !! id = Some v ->
  ParseDate (lw_ExpiresOn v) = Ok d -> Year d <= 9879 ->
  exists next n, AdvanceCalendar (period_of v) = Ok next /\ ParseDate next = Ok n /\ d < n.
Proof.
  intros Hrun Hv Hd Hy. destruct (run_advanceable _ _ _ Hrun _ _ Hv) as [_ Hp Hu].
  assert (lw_ExpiresOn v <> "") as Hne by (intros E; by rewrite E in Hd).
  destruct (AdvanceCalendar_reaches (period_of v) d Hd (Hp Hne) Hu) as (next & _ & Hlt & Hr & E).
  rewrite E. destruct (9999 <? Year next) eqn:E9; go_bool; [lia|]. exists (FormatDateOnly next), next.
  split_and!; [done| |done]. apply ParseDate_format. apply ParseDate_spec in Hd as [_ Hd]. lia.
Qed.

(** Automatic advance reaches the future and stops there: for a contract that
    renews by calendar, a successful advance leaves a date after the local day in
    the configured zone, with mode, interval and anchor unchanged, and running it
    again at the same instant changes nothing and sends nothing. *)
Theorem advance_is_idempotent now id s (node : storedLifecycle) r s' :
  load_node id s = Ok node -> lw_RenewalMode node = "calendar_auto_advance" -> lw_ExpiresOn node <> "" ->
  (forall location, load_location (ls_Timezone (so_settings s)) = Some location ->
     year_in_range (local_day now (location now))) ->
  advance load_location sha1_uuid now id s = Ok (r, s') ->
  exists node' location n, load_node id s' = Ok node' /\
    load_location (ls_Timezone (so_settings s)) = Some location /\
    ParseDate (lw_ExpiresOn node') = Ok n /\ local_day now (location now) < n /\
    sl_Write node' = set_lw_ExpiresOn (lw_ExpiresOn node') (sl_Write node) /\
    (sl_AnchorMonth node' = sl_AnchorMonth node /\ sl_AnchorDay node' = sl_AnchorDay node /\
     sl_AnchorEndOfMonth node' = sl_AnchorEndOfMonth node) /\
    advance load_location sha1_uuid now id s' = Ok (None, s').
Proof.
  intros Hl Hmode Hne Hrange H. unfold advance in H. rewrite Hl in H.
  assert ((lw_ExpiresOn node =s "") || (lw_RenewalMode node <>s "calendar_auto_advance") = false) as Hc.
  { rewrite Hmode, String.eqb_refl, orb_false_r. by apply String.eqb_neq. }
  rewrite Hc in H. apply bind_ok in H as (settings & Hs & H). apply bind_ok in H as (adv & Ha & H).
  assert (settings = so_settings s) as -> by (unfold scanSettings in Hs; apply bind_ok in Hs as (? & _ & [= <-]); done).
  destruct (advanceNode load_location node now _) as [a|] eqn:Han; [|done]. injection Ha as ->.
  destruct (advanceNode_ok _ _ _ _ Han Hrange) as (location & n & Hz & Hn & Ht & Hlt & Hi & H0).
  (* what a second run sees *)
  assert (forall node' s1, load_node id s1 = Ok node' -> lw_RenewalMode node' = "calendar_auto_advance" ->
    lw_ExpiresOn node' = ad_ExpiresOn adv -> so_settings s1 = so_settings s ->
    advance load_location sha1_uuid now id s1 = Ok (None, s1)) as Hagain.
  { intros node' s1 Hl1 Hm1 He1 Hset1. unfold advance. rewrite Hl1, Hm1, He1, String.eqb_refl.
    assert ((ad_ExpiresOn adv =s "") = false) as -> by (apply String.eqb_neq; intros E; by rewrite E in Hn). cbn [negb orb].
    unfold scanSettings in *. rewrite Hset1. destruct (lift (ValidateSettings load_location (so_settings s))); [|done]. cbn [bind].
    erewrite advanceNode_future; [|done|done|by rewrite He1|done]. done. }
  destruct (ad_Intervals adv =? 0) eqn:E0; go_bool.
  - injection H as <- <-. exists node, location, n. specialize (H0 E0).
    split_and!; try done; try (by rewrite <- H0); [by destruct node as [[]]|]. by eapply Hagain.
  - set (node' := mkStoredLifecycle _ _ _ _ _ _ _ _) in H.
    destruct (event sha1_uuid now _ _) as [q s1] eqn:E. injection H as <- <-.
    apply event_spec in E as (El & En & Es & _).
    assert (sl_NodeID node = id /\ is_Some (so_nodes s !! id)) as [Hid [[name public] Hname]].
    { unfold load_node in Hl. destruct (so_nodes s !! id) as [[? ?]|]; [|done]. destruct (so_lifecycle s !! id); by injection Hl as <-. }
    assert (load_node id s1 = Ok (mkStoredLifecycle (sl_Write node') id (sl_AnchorMonth node) (sl_AnchorDay node)
              (sl_AnchorEndOfMonth node) now (sl_periodKey node') name)) as Hl1.
    { unfold load_node. rewrite En, El. cbn. rewrite Hname, Hid, lookup_insert_eq. done. }
    eexists _, location, n. split_and!; [exact Hl1|done..|]. eapply Hagain; [exact Hl1|done|done|done].
Qed.
End proofs.

(** Privacy of the public view: nothing is shown for a node that is not public;
    the expiry fields are empty unless expiry is public for the node (its own
    setting, or the site's when it inherits), the price fields likewise, and a
    private setting hides them whatever the site's default is. *)
Theorem public_view_private load_location id now s view : PublicLifecycle load_location id now s = Ok (Some view) ->
  exists name (v : storedLifecycle), so_nodes s !! id = Some (name, true) /\ so_lifecycle s !! id = Some v /\
    (visible (lw_ExpiryVisibility v) (ls_PublicExpiry (so_settings s)) = false ->
       lp_ExpiresOn view = "" /\ lp_Status view = "" /\ lp_DaysRemaining view = None) /\
    (visible (lw_PriceVisibility v) (ls_PublicPrice (so_settings s)) = false ->
       lp_PriceMicros view = None /\ lp_Currency view = "" /\ lp_IntervalUnit view = "" /\ lp_IntervalCount view = 0) /\
    (lw_ExpiryVisibility v <> "private" \/ lw_PriceVisibility v <> "private").
Proof.
  unfold PublicLifecycle. destruct (so_nodes s !! id) as [[name public]|]; [|done]. destruct public; [|done]. cbn [negb].
  destruct (so_lifecycle s !! id) as [v|]; [|done]. intros (settings & Hs & H)%bind_ok.
  assert (settings = so_settings s) as -> by (unfold scanSettings in Hs; apply bind_ok in Hs as (? & _ & [= <-]); done).
  exists name, v. split; [done|]. split; [done|]. unfold projectLifecycle in H.
  assert (forall g, visible "private" g = false) as Hpriv by done.
  destruct (visible (lw_ExpiryVisibility v) _) eqn:Ee, (visible (lw_PriceVisibility v) _) eqn:Ep; cbn [negb andb] in H; [..|done].
  all: split_and!; try done.
  all: try (left; intros E; rewrite E, Hpriv in Ee; done). all: try (right; intros E; rewrite E, Hpriv in Ep; done).
  - destruct (LifecycleStatus _ _ _ _) as [st|]; [|done]. cbn in H. by injection H as <-.
  - cbn in H. by injection H as <-.
Qed.

(** ** A concrete service *)

Definition sample_store : Store :=
  mkStore {[ "n1" := ("web-1", true) ]} ∅ [] (mkLifecycleSettings "UTC" [0; 1] [1] false true false) [].
Definition sample_write : LifecycleWrite :=
  mkLifecycleWrite "host" "small" (Some 5000000) "EUR" "month" 1 "2024-01-31" "calendar_auto_advance" ""
    "inherit" "private" true.
Definition at_day (d : Days) : Time := d * 86400 * Second.

Definition run_or (s : Store) (r : result ServiceError (option Request * Store)) : Store :=
  match r with Ok (_, s') => s' | Err _ => s end.

Definition saved : Store :=
  run_or sample_store (SaveNode id (Some ("admin", None)) "u1" "p1" (at_day (Date 2024 1 1)) "n1" sample_write sample_store).
Definition reminded : Store := run_or saved (remind sample_zone id (at_day (Date 2024 1 30)) "n1" saved).
Definition renewed : Store := run_or reminded (advance sample_zone id (at_day (Date 2024 2 10)) "n1" reminded).

Lemma step_or s r : (exists q s', r = Ok (q, s') /\ service_step sample_zone id s q s') ->
  forall s0 requests, service_run sample_zone id s0 requests s ->
  exists requests', service_run sample_zone id s0 requests' (run_or s r).
Proof. intros (q & s' & -> & Hstep) s0 requests Hrun. eexists. by eapply RunStep. Qed.

Lemma renewed_run : exists requests, service_run sample_zone id sample_store requests renewed.
Proof.
  assert (service_run sample_zone id sample_store [] sample_store) as H0 by by apply RunStart.
  destruct (step_or sample_store (SaveNode id (Some ("admin", None)) "u1" "p1" (at_day (Date 2024 1 1)) "n1" sample_write sample_store)) with (2 := H0) as [r1 H1].
  { destruct (SaveNode _ _ _ _ _ _ _ _) as [[q s']|] eqn:E; [|vm_compute in E; discriminate E].
    eexists _, _. split; [done|]. by eapply StepSave. }
  destruct (step_or saved (remind sample_zone id (at_day (Date 2024 1 30)) "n1" saved)) with (2 := H1) as [r2 H2].
  { destruct (remind _ _ _ _ _) as [[q s']|] eqn:E; [|vm_compute in E; discriminate E].
    eexists _, _. split; [done|]. by eapply StepRemind. }
  destruct (step_or reminded (advance sample_zone id (at_day (Date 2024 2 10)) "n1" reminded)) with (2 := H2) as [r3 H3].
  { destruct (advance _ _ _ _ _) as [[q s']|] eqn:E; [|vm_compute in E; discriminate E].
    eexists _, _. split; [done|]. by eapply StepAdvance. }
  by exists r3.
Qed.

Lemma lifecycle_events_once_witness :
  map er_kind (so_events renewed) = ["node.expiring"; "node.renewed"] /\ NoDup (map event_key (so_events renewed)).
Proof.
  split; [vm_compute; reflexivity|]. destruct renewed_run as [requests H].
  exact (proj1 (lifecycle_events_once sample_zone id sample_store requests renewed H)).
Defined.

Definition renewed_row : storedLifecycle := default (default_lifecycle "" "") (so_lifecycle renewed !! "n1").

Lemma contracts_stay_advanceable_witness :
  lw_ExpiresOn renewed_row = "2024-02-29" /\
  exists next n, AdvanceCalendar (period_of renewed_row) = Ok next /\ ParseDate next = Ok n /\ Date 2024 2 29 < n.
Proof.
  split; [vm_compute; reflexivity|]. destruct renewed_run as [requests H].
  apply (contracts_stay_advanceable sample_zone id sample_store requests renewed "n1" renewed_row (Date 2024 2 29) H).
  - vm_compute. reflexivity.
  - vm_compute. reflexivity.
  - vm_compute. discriminate.
Defined.

Lemma advance_is_idempotent_witness :
  advance sample_zone id (at_day (Date 2024 2 10)) "n1" renewed = Ok (None, renewed).
Proof.
  destruct (advance sample_zone id (at_day (Date 2024 2 10)) "n1" reminded) as [[r s']|e] eqn:H;
    [|vm_compute in H; discriminate H].
  assert (s' = renewed) as E by (unfold renewed; rewrite H; reflexivity).
  destruct (load_node "n1" reminded) as [node|e] eqn:Hl; [|vm_compute in Hl; discriminate Hl].
  destruct (advance_is_idempotent sample_zone id (at_day (Date 2024 2 10)) "n1" reminded node r s')
    as (node' & location & n & _ & _ & _ & _ & _ & _ & Hagain).
  - exact Hl.
  - vm_compute in Hl. injection Hl as <-. reflexivity.
  - vm_compute in Hl. injection Hl as <-. discriminate.
  - intros location Hz. vm_compute in Hz. injection Hz as <-. vm_compute. split; discriminate.
  - exact H.
  - rewrite E in Hagain. exact Hagain.
Defined.

Lemma public_view_private_witness :
  exists view, PublicLifecycle sample_zone "n1" (at_day (Date 2024 1 30)) saved = Ok (Some view) /\
    lp_DaysRemaining view = Some 1 /\ lp_PriceMicros view = None.
Proof.
  destruct (PublicLifecycle sample_zone "n1" (at_day (Date 2024 1 30)) saved) as [[view|]|e] eqn:H;
    [|vm_compute in H; discriminate H..].
  exists view. split; [reflexivity|]. split; [vm_compute in H; injection H as <-; reflexivity|].
  destruct (public_view_private sample_zone "n1" (at_day (Date 2024 1 30)) saved view H) as (name & v & _ & Hv & _ & Hp & _).
  apply Hp. vm_compute in Hv. injection Hv as <-. reflexivity.
Defined.
