(* ===== verification/GoSha256.v ===== *)
(** * SHA-256, base64 and JSON strings

    The standard-library encoders the operations protocol hashes with:
    [sha256.Sum256] on bytes, the base64 form [encoding/json] gives a byte slice,
    and its string escapes. All of them run, so a digest is a concrete value. *)

From S2P Require Import Prelude GoText GoNumber.

(** ** SHA-256: 32-bit words with wrap-around *)

Definition w32 (z : Z) : Z := Z.land z (2 ^ 32 - 1).
Definition rotr (n x : Z) : Z := Z.lor (Z.shiftr x n) (w32 (Z.shiftl x (32 - n))).
Definition not32 (x : Z) : Z := Z.lxor x (2 ^ 32 - 1).
Definition Ch (x y z : Z) : Z := Z.lxor (Z.land x y) (Z.land (not32 x) z).
Definition Maj (x y z : Z) : Z := Z.lxor (Z.lxor (Z.land x y) (Z.land x z)) (Z.land y z).
Definition Sigma0 (x : Z) : Z := Z.lxor (Z.lxor (rotr 2 x) (rotr 13 x)) (rotr 22 x).
Definition Sigma1 (x : Z) : Z := Z.lxor (Z.lxor (rotr 6 x) (rotr 11 x)) (rotr 25 x).
Definition sigma0 (x : Z) : Z := Z.lxor (Z.lxor (rotr 7 x) (rotr 18 x)) (Z.shiftr x 3).
Definition sigma1 (x : Z) : Z := Z.lxor (Z.lxor (rotr 17 x) (rotr 19 x)) (Z.shiftr x 10).

(** The constants: the first 32 fractional bits of the cube roots of the first 64
    primes, and for the initial state of the square roots of the first eight. *)
Definition is_prime (n : nat) : bool :=
  forallb (fun d => negb (Nat.modulo n d =? 0)%nat) (seq 2 (n - 2)).
Definition primes : list Z := Eval vm_compute in map Z.of_nat (List.filter is_prime (seq 2 310)).

(** The largest [r] below [2 ^ 40] with [r ^ k <= n]. *)
Definition root (k n : Z) : Z :=
  fold_left (fun r b => let r' := r + 2 ^ Z.of_nat b in if r' ^ k <=? n then r' else r) (rev (seq 0 40)) 0.

Definition K256 : list Z := Eval vm_compute in map (fun p => root 3 (p * 2 ^ 96) mod 2 ^ 32) primes.
Definition H256 : list Z := Eval vm_compute in map (fun p => root 2 (p * 2 ^ 64) mod 2 ^ 32) (firstn 8 primes).

Record digest := mkDigest { hA : Z; hB : Z; hC : Z; hD : Z; hE : Z; hF : Z; hG : Z; hH : Z }.

Definition init256 : digest :=
  let at_ n := nth n H256 0 in
  mkDigest (at_ 0%nat) (at_ 1%nat) (at_ 2%nat) (at_ 3%nat) (at_ 4%nat) (at_ 5%nat) (at_ 6%nat) (at_ 7%nat).

(** The message schedule, most recent word first. *)
Definition schedule_step (w : list Z) : list Z :=
  let at_ n := nth n w 0 in
  w32 (sigma1 (at_ 1%nat) + at_ 6%nat + sigma0 (at_ 14%nat) + at_ 15%nat) :: w.
Definition schedule (block : list Z) : list Z := rev (Nat.iter 48 schedule_step (rev block)).

Definition round256 (s : digest) (kw : Z * Z) : digest :=
  let t1 := hH s + Sigma1 (hE s) + Ch (hE s) (hF s) (hG s) + kw.1 + kw.2 in
  let t2 := Sigma0 (hA s) + Maj (hA s) (hB s) (hC s) in
  mkDigest (w32 (t1 + t2)) (hA s) (hB s) (hC s) (w32 (hD s + t1)) (hE s) (hF s) (hG s).

Definition compress (h : digest) (block : list Z) : digest :=
  let s := fold_left round256 (zip K256 (schedule block)) h in
  mkDigest (w32 (hA h + hA s)) (w32 (hB h + hB s)) (w32 (hC h + hC s)) (w32 (hD h + hD s))
           (w32 (hE h + hE s)) (w32 (hF h + hF s)) (w32 (hG h + hG s)) (w32 (hH h + hH s)).

(** Big-endian words of [n] bytes. *)
Fixpoint be_bytes (n : nat) (v : Z) : list Z :=
  match n with
  | O => []
  | S n => Z.land (Z.shiftr v (8 * Z.of_nat n)) 255 :: be_bytes n v
  end.
Definition be_value (l : list Z) : Z := fold_left (fun v b => v * 256 + b) l 0.

Fixpoint words (l : list Z) : list Z :=
  match l with
  | a :: b :: c :: d :: t => be_value [a; b; c; d] :: words t
  | _ => []
  end.

Definition padding (n : Z) : list Z :=
  128 :: repeat 0 (Z.to_nat ((55 - n) mod 64)) ++ be_bytes 8 (8 * n).

Fixpoint blocks (fuel : nat) (w : list Z) : list (list Z) :=
  match fuel, w with
  | S fuel, _ :: _ => take 16 w :: blocks fuel (drop 16 w)
  | _, _ => []
  end.

Definition Sum256 (l : list Z) : list Z :=
  let w := words (l ++ padding (llen l)) in
  let h := fold_left compress (blocks (length w) w) init256 in
  concat (map (be_bytes 4) [hA h; hB h; hC h; hD h; hE h; hF h; hG h; hH h]).

Lemma length_be_bytes n v : length (be_bytes n v) = n.
Proof. induction n; cbn [be_bytes length]; congruence. Qed.

Lemma be_bytes_range n v : Forall (fun b => 0 <= b < 256) (be_bytes n v).
Proof.
  induction n; constructor; [|done].
  change 255 with (Z.ones 8). rewrite Z.land_ones by lia. apply Z.mod_pos_bound. lia.
Qed.

Lemma length_Sum256 l : length (Sum256 l) = 32%nat.
Proof. unfold Sum256. cbn [map concat]. rewrite !length_app, !length_be_bytes. done. Qed.

Lemma Sum256_range l : Forall (fun b => 0 <= b < 256) (Sum256 l).
Proof. unfold Sum256. cbn [map concat]. rewrite !Forall_app. repeat split; auto using be_bytes_range. Qed.

(** The FIPS 180 test vectors for one and for two blocks. *)
Example sum256_abc : EncodeHex (Sum256 (bytes "abc")) =
  "ba7816bf8f01cfea414140de5dae2223b00361a396177a9cb410ff61f20015ad".
Proof. vm_compute. reflexivity. Qed.
Example sum256_two_blocks :
  EncodeHex (Sum256 (bytes "abcdbcdecdefdefgefghfghighijhijkijkljklmklmnlmnomnopnopq")) =
  "248d6a61d20638b8e5c026930c3e6039a33ce45964ff2167f6ecedd419db06c1".
Proof. vm_compute. reflexivity. Qed.

(** ** base64 (standard alphabet, padded) *)

Definition base64_digit (v : Z) : Z :=
  if v <? 26 then 65 + v else if v <? 52 then 71 + v else if v <? 62 then v - 4
  else if v =? 62 then 43 else 47.

Fixpoint base64 (l : list Z) : list Z :=
  match l with
  | [] => []
  | [a] => [base64_digit (a / 4); base64_digit (a mod 4 * 16); 61; 61]
  | [a; b] => [base64_digit (a / 4); base64_digit (a mod 4 * 16 + b / 16); base64_digit (b mod 16 * 4); 61]
  | a :: b :: c :: t =>
      base64_digit (a / 4) :: base64_digit (a mod 4 * 16 + b / 16)
      :: base64_digit (b mod 16 * 4 + c / 64) :: base64_digit (c mod 64) :: base64 t
  end.

Example base64_vectors :
  map (fun s => of_bytes (base64 (bytes s))) ["f"; "fo"; "foo"; "foobar"] = ["Zg=="; "Zm8="; "Zm9v"; "Zm9vYmFy"].
Proof. vm_compute. reflexivity. Qed.

(** ** JSON strings, numbers and byte slices *)

Definition hex4 (r : Z) : list Z :=
  map hex_digit [r / 4096 mod 16; r / 256 mod 16; r / 16 mod 16; r mod 16].

(** [json.Marshal] escapes quotes, backslashes, control characters, the three
    HTML characters and the two line separators; malformed bytes become U+FFFD. *)
Definition json_rune (x : Z * list Z * bool) : list Z :=
  let r := rune x in
  if negb x.2 then 92 :: 117 :: hex4 RuneError
  else if (r =? 34) || (r =? 92) then [92; r]
  else if r =? 8 then [92; 98] else if r =? 12 then [92; 102]
  else if r =? 10 then [92; 110] else if r =? 13 then [92; 114] else if r =? 9 then [92; 116]
  else if (r <? 32) || (r =? 38) || (r =? 60) || (r =? 62) || (r =? 8232) || (r =? 8233)
  then 92 :: 117 :: hex4 r
  else x.1.2.

Definition json_string (s : string) : list Z :=
  34 :: concat (map json_rune (runes_of (bytes s))) ++ [34].
Definition json_int (v : Z) : list Z := bytes (FormatInt v).
Definition json_bool (b : bool) : list Z := bytes (if b then "true" else "false").
(** A nil byte slice is [null]; any other one is its base64 form in quotes. *)
Definition json_bytes (b : option (list Z)) : list Z :=
  match b with
  | None => bytes "null"
  | Some l => 34 :: base64 l ++ [34]
  end.

(** One object member, and an object of the members that are present. *)
Definition member (key : string) (present : bool) (value : list Z) : list (list Z) :=
  if present then [json_string key ++ 58 :: value] else [].
Fixpoint separated (l : list (list Z)) : list Z :=
  match l with
  | [] => []
  | [x] => x
  | x :: t => x ++ 44 :: separated t
  end.
Definition json_object (members : list (list (list Z))) : list Z :=
  123 :: separated (concat members) ++ [125].

Example json_object_sample :
  of_bytes (json_object [member "a" true (json_int (-5)); member "b" false (json_int 0);
    member "c" true (json_string "x<y"); member "d" true (json_bytes (Some [1; 2]))])
  = "{" +:+ of_bytes (json_string "a") +:+ ":-5," +:+ of_bytes (json_string "c") +:+ ":"
    +:+ of_bytes (json_string "x<y") +:+ "," +:+ of_bytes (json_string "d") +:+ ":"
    +:+ of_bytes (34 :: bytes "AQI=" ++ [34]) +:+ "}".
Proof. vm_compute. reflexivity. Qed.

(** ** Hexadecimal round trip *)

Lemma hex_digit_value v : 0 <= v < 16 -> hex_value (hex_digit v) = Some v /\ 0 <= hex_digit v < 256.
Proof.
  intros H. assert (v ∈ [0; 1; 2; 3; 4; 5; 6; 7; 8; 9; 10; 11; 12; 13; 14; 15]) as Hv by (rewrite !elem_of_cons; lia).
  rewrite !elem_of_cons in Hv. destruct_or? Hv; subst; try (split; [reflexivity|cbn; lia]).
  by apply not_elem_of_nil in Hv.
Qed.

Lemma DecodeHex_EncodeHex l : Forall (fun b => 0 <= b < 256) l -> DecodeHex (EncodeHex l) = Some l.
Proof.
  intros Hl. unfold DecodeHex, EncodeHex.
  assert (forall b, 0 <= b < 256 -> 0 <= b / 16 < 16 /\ 0 <= b mod 16 < 16) as Hb.
  { intros b Hb. pose proof (Z.mod_pos_bound b 16). split; [|lia]. split; [apply Z.div_pos; lia|].
    apply Z.div_lt_upper_bound; lia. }
  rewrite bytes_of_bytes.
  - induction Hl as [|b l Hb' _ IH]; [done|]. cbn [map concat app hex_decode].
    destruct (Hb b Hb') as [Hq Hr].
    rewrite (proj1 (hex_digit_value _ Hq)), (proj1 (hex_digit_value _ Hr)), IH. f_equal. f_equal.
    pose proof (Z.div_mod b 16). lia.
  - induction Hl as [|b l Hb' _ IH]; cbn [map concat app]; [constructor|].
    destruct (Hb b Hb') as [Hq Hr]. constructor; [by apply hex_digit_value|].
    constructor; [by apply hex_digit_value|done].
Qed.

Lemma EncodeHex_inj l m : Forall (fun b => 0 <= b < 256) l -> Forall (fun b => 0 <= b < 256) m ->
  EncodeHex l = EncodeHex m -> l = m.
Proof.
  intros Hl%DecodeHex_EncodeHex Hm%DecodeHex_EncodeHex H. rewrite H, Hm in Hl. by injection Hl.
Qed.

(** ** Big-endian words: the two directions are inverse *)

Lemma be_value_acc l : forall v, fold_left (fun v b => v * 256 + b) l v = v * 256 ^ llen l + be_value l.
Proof.
  unfold be_value, llen. induction l as [|b l IH]; intros v; cbn [fold_left length].
  - change (v = v * 1 + 0). lia.
  - rewrite IH, (IH (0 * 256 + b)), Nat2Z.inj_succ, Z.pow_succ_r by lia. lia.
Qed.

Lemma be_value_cons b l : be_value (b :: l) = b * 256 ^ llen l + be_value l.
Proof. unfold be_value at 1. cbn [fold_left]. rewrite be_value_acc. lia. Qed.

Lemma be_value_range l : Forall (fun b => 0 <= b < 256) l -> 0 <= be_value l < 256 ^ llen l.
Proof.
  induction 1 as [|b l Hb _ IH]; [change (0 <= 0 < 1); lia|]. pose proof (llen_nonneg l).
  rewrite be_value_cons, llen_cons, Z.pow_add_r by lia. change (256 ^ 1) with 256. nia.
Qed.

Lemma be_bytes_value_high l : Forall (fun b => 0 <= b < 256) l ->
  forall k, be_bytes (length l) (k * 256 ^ llen l + be_value l) = l.
Proof.
  induction 1 as [|b l Hb Hl IH]; intros k; [done|]. pose proof (llen_nonneg l).
  pose proof (be_value_range l Hl). cbn [length be_bytes].
  replace (k * 256 ^ llen (b :: l) + be_value (b :: l)) with ((k * 256 + b) * 256 ^ llen l + be_value l).
  2:{ rewrite be_value_cons, llen_cons, Z.pow_add_r by lia. change (256 ^ 1) with 256. lia. }
  f_equal; [|apply IH].
  rewrite Z.shiftr_div_pow2 by lia. change 255 with (Z.ones 8). rewrite Z.land_ones by lia.
  replace (2 ^ (8 * Z.of_nat (length l))) with (256 ^ llen l).
  2:{ rewrite Z.pow_mul_r by lia. done. }
  rewrite Z.div_add_l, (Z.div_small (be_value l)) by lia. change (2 ^ 8) with 256.
  rewrite Z.add_0_r, Z.add_comm, Z.mod_add by lia. apply Z.mod_small. lia.
Qed.

Lemma be_bytes_value l : Forall (fun b => 0 <= b < 256) l -> be_bytes (length l) (be_value l) = l.
Proof. intros H. by apply (be_bytes_value_high l H 0). Qed.

Lemma be_value_bytes n v : be_value (be_bytes n v) = v mod 256 ^ Z.of_nat n.
Proof.
  induction n as [|n IH]; [cbn; by rewrite Z.mod_1_r|].
  cbn [be_bytes]. rewrite be_value_cons, IH. unfold llen. rewrite length_be_bytes.
  change 255 with (Z.ones 8). rewrite Z.shiftr_div_pow2, Z.land_ones by lia.
  replace (2 ^ (8 * Z.of_nat n)) with (256 ^ Z.of_nat n) by (rewrite Z.pow_mul_r by lia; done).
  pose proof (Z.pow_pos_nonneg 256 (Z.of_nat n)).
  rewrite Nat2Z.inj_succ, Z.pow_succ_r, (Z.mul_comm 256 (256 ^ _)) by lia. change (2 ^ 8) with 256.
  rewrite Z.rem_mul_r by lia. lia.
Qed.
