(* ===== verification/OpsPolicy.v ===== *)
(** * Remote operations: what the two policies authorize

    [internal/remoteoperations/protocol/policy.go], [retention.go] and [files.go]:
    the policy an owner stores and the policy a machine keeps locally, their
    validation, the authorization of a command, of a shell and of a file, and the
    validation of a relative path. *)

From S2P Require Import Prelude GoText.

Definition MaximumCommandBytes : Z := 64 * 1024.
Definition MaximumOutputBytes : Z := 1024 * 1024.
Definition MaximumTimeoutSeconds : Z := 3600.
Definition PolicyMaximumTargets : Z := 200.
Definition MaximumConcurrency : Z := 4.
Definition MaximumFileBytes : Z := 2 * 1024 * 1024 * 1024.
Definition MaximumPathBytes : Z := 4096.
Definition MaximumPathComponents : Z := 64.

Inductive opsError := ErrBusy | ErrInvalid | ErrForbidden | ErrConflict | ErrNotFound | ErrUnavailable.

#[global] Instance opsError_eq_dec : EqDecision opsError.
Proof. solve_decision. Defined.

(** A function that returns only an [error]: [Ok tt] is [nil]. *)
Definition check := result opsError unit.
Definition nil_err : check := Ok tt.

Record Root := mkRoot {
  Root_Name : string;
  Root_ID : string;
  Root_Read : bool;
  Root_Write : bool;
  Root_MaximumBytes : Z;
  Root_Overwrite : bool;
  Root_Executable : bool }.

Record RetentionPolicy := mkRetentionPolicy {
  TaskDays : Z;
  OutputDays : Z;
  ArtifactHours : Z;
  QueueHours : Z;
  UploadHours : Z }.

Record Policy := mkPolicy {
  Retention : option RetentionPolicy;
  SupportedShells : list string;
  Enabled : bool;
  Kinds : list string;
  MaximumTargets : Z;
  MaximumActiveTasks : Z;
  Concurrency : Z;
  TimeoutSeconds : Z;
  OutputBytes : Z;
  AllowRoot : bool;
  RequireScan : bool;
  Roots : list Root }.

Record Limits := mkLimits {
  Limits_Kind : string;
  Limits_Targets : Z;
  Limits_TimeoutSeconds : Z;
  Limits_OutputBytes : Z;
  Limits_RunAsRoot : bool }.

(** ** Retention *)

Definition RetentionLimits (policy : Policy) : RetentionPolicy :=
  let value := match Retention policy with
               | None => mkRetentionPolicy 0 0 0 0 0
               | Some r => r
               end in
  let taskDays := if TaskDays value =? 0 then 30 else TaskDays value in
  let outputDays := if OutputDays value =? 0 then Z.min 7 taskDays else OutputDays value in
  let artifactHours := if ArtifactHours value =? 0 then 24 else ArtifactHours value in
  let queueHours := if QueueHours value =? 0 then 24 else QueueHours value in
  let uploadHours := if UploadHours value =? 0 then 6 else UploadHours value in
  mkRetentionPolicy taskDays outputDays artifactHours queueHours uploadHours.

Definition validateRetention (policy : Policy) : check :=
  let value := RetentionLimits policy in
  let limits := [(TaskDays value, 90); (OutputDays value, Z.min 30 (TaskDays value));
                 (ArtifactHours value, 24); (QueueHours value, 24); (UploadHours value, 6)] in
  if existsb (fun limit => (limit.1 <? 1) || (limit.1 >? limit.2)) limits then Err ErrInvalid else nil_err.

(** ** Identifiers *)

Definition id_rune (r : Z) : bool :=
  between 97 122 r || between 65 90 r || between 48 57 r || (r =? 45) || (r =? 95).

Definition ValidID (value : string) : bool :=
  if (value =s "") || (len value >? 128) then false
  else forallb id_rune (runes value).

(** ** Policy validation *)

(** The shells before [index] are [seen]. *)
Fixpoint validate_shells (seen shells : list string) : check :=
  match shells with
  | [] => nil_err
  | shell :: rest =>
      if (shell <>s "sh") && (shell <>s "powershell") || str_in shell seen then Err ErrInvalid
      else validate_shells (seen ++ [shell]) rest
  end.

Fixpoint validate_kinds (seen : gset string) (kinds : list string) : check :=
  match kinds with
  | [] => nil_err
  | kind :: rest =>
      if negb (str_in kind ["snippet"; "shell"; "deploy"; "collect"]) || bool_decide (kind ∈ seen)
      then Err ErrInvalid
      else validate_kinds ({[kind]} ∪ seen) rest
  end.

Fixpoint validate_roots_loop (seen : gset string) (roots : list Root) : check :=
  match roots with
  | [] => nil_err
  | root :: rest =>
      if negb (ValidString (Root_Name root)) || (RuneCount (Root_Name root) >? 80)
         || ContainsControl (Root_Name root) then Err ErrInvalid
      else if negb (ValidID (Root_ID root)) || bool_decide (Root_ID root ∈ seen)
         || (Root_MaximumBytes root <? 1) || (Root_MaximumBytes root >? MaximumFileBytes) then Err ErrInvalid
      else validate_roots_loop ({[Root_ID root]} ∪ seen) rest
  end.
Definition validateRoots (roots : list Root) : check := validate_roots_loop ∅ roots.

Definition Policy_Validate (policy : Policy) : check :=
  let* _ := validateRetention policy in
  if llen (SupportedShells policy) >? 2 then Err ErrInvalid else
  let* _ := validate_shells [] (SupportedShells policy) in
  if (MaximumTargets policy <? 1) || (MaximumTargets policy >? PolicyMaximumTargets)
     || (MaximumActiveTasks policy <? 1) || (MaximumActiveTasks policy >? 1000) then Err ErrInvalid else
  if (Concurrency policy <? 1) || (Concurrency policy >? MaximumConcurrency)
     || (TimeoutSeconds policy <? 1) || (TimeoutSeconds policy >? MaximumTimeoutSeconds) then Err ErrInvalid else
  if (OutputBytes policy <? 1) || (OutputBytes policy >? MaximumOutputBytes)
     || (llen (Kinds policy) >? 4) || (llen (Roots policy) >? 64) then Err ErrInvalid else
  let* _ := validate_kinds ∅ (Kinds policy) in
  validateRoots (Roots policy).

(** ** Authorization of a command *)

Definition Authorize (owner loc : Policy) (request : Limits) : check :=
  if negb (is_ok (Policy_Validate owner)) || negb (is_ok (Policy_Validate loc)) then Err ErrForbidden else
  if negb (Enabled owner) || negb (Enabled loc) || negb (str_in (Limits_Kind request) (Kinds owner))
     || negb (str_in (Limits_Kind request) (Kinds loc)) then Err ErrForbidden else
  if (Limits_Targets request <? 1)
     || (Limits_Targets request >? Z.min (MaximumTargets owner) (MaximumTargets loc)) then Err ErrForbidden else
  if (Limits_TimeoutSeconds request <? 1)
     || (Limits_TimeoutSeconds request >? Z.min (TimeoutSeconds owner) (TimeoutSeconds loc)) then Err ErrForbidden else
  if (Limits_OutputBytes request <? 1)
     || (Limits_OutputBytes request >? Z.min (OutputBytes owner) (OutputBytes loc)) then Err ErrForbidden else
  if Limits_RunAsRoot request && (negb (AllowRoot owner) || negb (AllowRoot loc)) then Err ErrForbidden else
  nil_err.

Definition AuthorizeShell (owner loc : Policy) (shell : string) : check :=
  if negb (str_in shell (SupportedShells loc)) then Err ErrForbidden else
  if (llen (SupportedShells owner) >? 0) && negb (str_in shell (SupportedShells owner)) then Err ErrForbidden else
  nil_err.

Definition ValidateCommand (content : list Z) : check :=
  if (llen content =? 0) || (llen content >? MaximumCommandBytes) || negb (Valid content)
     || existsb (Z.eqb 0) (map rune (runes_of content)) then Err ErrInvalid
  else nil_err.

(** ** Relative paths *)

Definition device_names : list string :=
  ["CON"; "PRN"; "AUX"; "NUL"; "COM1"; "COM2"; "COM3"; "COM4"; "COM5"; "COM6"; "COM7"; "COM8"; "COM9";
   "LPT1"; "LPT2"; "LPT3"; "LPT4"; "LPT5"; "LPT6"; "LPT7"; "LPT8"; "LPT9"].

Definition invalidComponent (part : string) : bool :=
  if existsb (fun r => (r <? 32) || (r =? 127)) (runes part) then true
  else let name := ToUpperASCII (SplitN2 part "."%char).1 in
       str_in name device_names.

Definition slash : ascii := "/"%char.
Definition trailing (a : ascii) : bool := (Ascii.eqb a " "%char) || (Ascii.eqb a "."%char).

Definition bad_part (part : string) : bool :=
  (part =s "") || (part =s ".") || (part =s "..") || (len part >? 255) || (TrimRight part trailing <>s part).

Fixpoint validate_parts (parts : list string) : check :=
  match parts with
  | [] => nil_err
  | part :: rest =>
      if bad_part part then Err ErrInvalid
      else if invalidComponent part then Err ErrInvalid
      else validate_parts rest
  end.

(** [strings.ContainsAny] of a set of ASCII bytes. *)
Definition path_reserved (b : Z) : bool := (b =? 92) || (b =? 58) || (b =? 0).

Definition ValidateRelativePath (value : string) : check :=
  if (value =s "") || (len value >? MaximumPathBytes) || negb (ValidString value)
     || existsb path_reserved (bytes value) || HasPrefix value "/" then Err ErrInvalid else
  let parts := Split value slash in
  if llen parts >? MaximumPathComponents then Err ErrInvalid else
  validate_parts parts.

(** ** Files *)

Record FileSpec := mkFileSpec {
  RootID : string;
  RelativePath : string;
  Size : Z;
  Digest : string;
  Mode : Z;
  Overwrite : bool;
  ArtifactID : string }.

Record FileRequest := mkFileRequest { Direction : string; File : FileSpec }.

Definition ValidateFile (file : FileSpec) : check :=
  if negb (ValidID (RootID file)) || negb (is_ok (ValidateRelativePath (RelativePath file)))
     || (Size file <? 0) || (Size file >? MaximumFileBytes)
     || (negb (Mode file =? 384) && negb (Mode file =? 448)) then Err ErrInvalid else
  match DecodeHex (Digest file) with
  | None => Err ErrInvalid
  | Some digest =>
      if negb (llen digest =? 32) || (EncodeHex digest <>s Digest file) then Err ErrInvalid else nil_err
  end.

Fixpoint find_root (roots : list Root) (id : string) : option Root :=
  match roots with
  | [] => None
  | root :: rest => if Root_ID root =s id then Some root else find_root rest id
  end.
Definition operationRoot (policy : Policy) (id : string) : option Root := find_root (Roots policy) id.

(** The body of the loop of [AuthorizeFile] for one of the two policies. *)
Definition authorize_file_in (policy : Policy) (request : FileRequest) : check :=
  if negb (Enabled policy) || negb (is_ok (Policy_Validate policy))
     || negb (str_in (Direction request) (Kinds policy)) then Err ErrForbidden else
  match operationRoot policy (RootID (File request)) with
  | None => Err ErrForbidden
  | Some root =>
      if Size (File request) >? Root_MaximumBytes root then Err ErrForbidden else
      if (Direction request =s "deploy")
         && (negb (Root_Write root) || Overwrite (File request) && negb (Root_Overwrite root)
             || (Mode (File request) =? 448) && negb (Root_Executable root)) then Err ErrForbidden else
      if (Direction request =s "collect") && negb (Root_Read root) then Err ErrForbidden else
      nil_err
  end.

Definition AuthorizeFile (owner loc : Policy) (request : FileRequest) : check :=
  if negb (is_ok (ValidateFile (File request)))
     || ((Direction request <>s "deploy") && (Direction request <>s "collect")) then Err ErrForbidden else
  let* _ := authorize_file_in owner request in
  authorize_file_in loc request.

(** ** The abstract contract: what one policy grants on its own *)

Definition grants (policy : Policy) (request : Limits) : Prop :=
  Policy_Validate policy = nil_err /\ Enabled policy = true /\ Limits_Kind request ∈ Kinds policy
  /\ 1 <= Limits_Targets request <= MaximumTargets policy
  /\ 1 <= Limits_TimeoutSeconds request <= TimeoutSeconds policy
  /\ 1 <= Limits_OutputBytes request <= OutputBytes policy
  /\ (Limits_RunAsRoot request = true -> AllowRoot policy = true).

Lemma is_ok_check (c : check) : is_ok c = true <-> c = nil_err.
Proof. destruct c as [[]|e]; split; done. Qed.

Lemma Authorize_spec owner loc request :
  Authorize owner loc request = nil_err <-> grants owner request /\ grants loc request.
Proof.
  unfold grants. rewrite <- !is_ok_check, <- !str_in_spec. unfold Authorize.
  destruct (is_ok (Policy_Validate owner)), (is_ok (Policy_Validate loc)), (Enabled owner), (Enabled loc),
    (str_in (Limits_Kind request) (Kinds owner)), (str_in (Limits_Kind request) (Kinds loc));
    cbn [negb orb is_ok nil_err]; try (split; [done|intuition congruence]).
  repeat case_match; go_bool; split; intros; try done; try (exfalso; intuition (congruence || lia)).
  repeat split; try done; try lia; intros; destruct (Limits_RunAsRoot request), (AllowRoot owner), (AllowRoot loc); intuition congruence.
Qed.

Lemma Authorize_forbidden owner loc request :
  Authorize owner loc request = nil_err \/ Authorize owner loc request = Err ErrForbidden.
Proof. unfold Authorize. repeat case_match; auto. Qed.

Lemma validate_kinds_known seen kinds : validate_kinds seen kinds = nil_err ->
  forall kind, kind ∈ kinds -> kind ∈ ["snippet"; "shell"; "deploy"; "collect"].
Proof.
  revert seen. induction kinds as [|k kinds IH]; intros seen H kind Hk; [by apply not_elem_of_nil in Hk|].
  cbn [validate_kinds] in H. destruct (negb _ || _) eqn:E; [done|].
  apply orb_false_iff in E as [E _]. apply negb_false_iff, str_in_spec in E.
  apply elem_of_cons in Hk as [->|Hk]; eauto.
Qed.

(** The hard limits every valid policy respects. *)
Lemma Policy_Validate_bounds policy : Policy_Validate policy = nil_err ->
  1 <= MaximumTargets policy <= PolicyMaximumTargets /\ 1 <= TimeoutSeconds policy <= MaximumTimeoutSeconds
  /\ 1 <= OutputBytes policy <= MaximumOutputBytes /\ 1 <= Concurrency policy <= MaximumConcurrency
  /\ (forall kind, kind ∈ Kinds policy -> kind ∈ ["snippet"; "shell"; "deploy"; "collect"]).
Proof.
  unfold Policy_Validate. intros H. apply bind_ok in H as (? & _ & H).
  destruct (_ >? 2); [done|]. apply bind_ok in H as (? & _ & H).
  repeat (match type of H with (if ?b then _ else _) = _ => destruct b eqn:?; [done|] end).
  apply bind_ok in H as ([] & Hk & _). pose proof (validate_kinds_known _ _ Hk). go_bool. split_and!; lia || done.
Qed.

(** A request is authorized by the pair of policies exactly when each of the two
    policies grants it on its own, so neither side can widen the other; the order of
    the two does not matter, every refusal is [ErrForbidden], and whatever the stored
    values are, an authorized request stays within the protocol's hard limits. *)
Theorem authorize_is_intersection owner loc request :
  (Authorize owner loc request = nil_err
     <-> Authorize owner owner request = nil_err /\ Authorize loc loc request = nil_err)
  /\ Authorize owner loc request = Authorize loc owner request
  /\ (Authorize owner loc request <> nil_err -> Authorize owner loc request = Err ErrForbidden)
  /\ (Authorize owner loc request = nil_err ->
        Limits_Kind request ∈ ["snippet"; "shell"; "deploy"; "collect"]
        /\ 1 <= Limits_Targets request <= 200 /\ 1 <= Limits_TimeoutSeconds request <= 3600
        /\ 1 <= Limits_OutputBytes request <= 1048576).
Proof.
  split_and!.
  - rewrite !Authorize_spec. tauto.
  - pose proof (Authorize_spec owner loc request). pose proof (Authorize_spec loc owner request).
    destruct (Authorize_forbidden owner loc request), (Authorize_forbidden loc owner request); intuition congruence.
  - destruct (Authorize_forbidden owner loc request); tauto.
  - rewrite Authorize_spec. intros [(Hv & _ & Hk & ? & ? & ? & _) _].
    apply Policy_Validate_bounds in Hv as (? & ? & ? & _ & Hs).
    unfold PolicyMaximumTargets, MaximumTimeoutSeconds, MaximumOutputBytes in *. split_and!; eauto; lia.
Qed.

(** ** Paths: what a validated path can name *)

(** The directory reached from [dir] (innermost component first) by following the
    components in order, with the usual meaning of the empty component, [.] and [..]. *)
Fixpoint walk (dir : list string) (parts : list string) : list string :=
  match parts with
  | [] => dir
  | part :: rest =>
      if (part =s "") || (part =s ".") then walk dir rest
      else if part =s ".." then walk (tail dir) rest
      else walk (part :: dir) rest
  end.

Fixpoint joined (parts : list string) : string :=
  match parts with
  | [] => ""
  | [part] => part
  | part :: rest => part +:+ String slash (joined rest)
  end.

Lemma Split_nonempty s c : Split s c <> [].
Proof. destruct s as [|a s]; cbn [Split]; [done|]. destruct (Ascii.eqb a c); [done|]. by destruct (Split s c). Qed.

Lemma joined_Split s : joined (Split s slash) = s.
Proof.
  induction s as [|a s IH]; [done|]. cbn [Split]. pose proof (Split_nonempty s slash) as Hn.
  destruct (Ascii.eqb a slash) eqn:E.
  - apply Ascii.eqb_eq in E as ->. destruct (Split s slash) as [|p ps]; [done|]. cbn [joined] in *. by rewrite IH.
  - destruct (Split s slash) as [|p ps]; [done|]. destruct ps; cbn [joined] in *; by rewrite <- IH.
Qed.

(** The bytes of the components are bytes of the path, and none is the separator. *)
Lemma Split_bytes s c part : part ∈ Split s c -> forall b, b ∈ bytes part -> b ∈ bytes s /\ b <> byte_of c.
Proof.
  revert part. induction s as [|a s IH]; intros part Hp b Hb.
  { apply list_elem_of_singleton in Hp as ->. by apply not_elem_of_nil in Hb. }
  cbn [Split bytes] in *. destruct (Ascii.eqb a c) eqn:E.
  { apply elem_of_cons in Hp as [->|Hp]; [by apply not_elem_of_nil in Hb|].
    destruct (IH _ Hp _ Hb). split; [by right|done]. }
  pose proof (Split_nonempty s c). destruct (Split s c) as [|p ps]; [done|].
  apply elem_of_cons in Hp as [->|Hp].
  - cbn [bytes] in Hb. apply elem_of_cons in Hb as [->|Hb].
    + split; [by left|]. intros Heq. apply Ascii.eqb_neq in E. apply E. by rewrite <- (of_byte_of a), <- (of_byte_of c), Heq.
    + destruct (IH p (list_elem_of_here _ _) b Hb). split; [by right|done].
  - destruct (IH part (list_elem_of_further _ _ _ Hp) b Hb). split; [by right|done].
Qed.

Lemma TrimRight_id s cut : TrimRight s cut = s -> forall t a, s = t +:+ String a "" -> cut a = false.
Proof.
  induction s as [|b s IH]; intros H t a Hs; [by destruct t|].
  cbn [TrimRight] in H. destruct t as [|d t].
  - injection Hs as -> ->. cbn [TrimRight] in H. by destruct (cut a).
  - injection Hs as -> Hs. apply (IH) with (t := t); [|done].
    destruct (TrimRight s cut) as [|x y] eqn:E; [|by injection H].
    exfalso. destruct (cut d); [done|]. injection H as H. rewrite <- H in Hs. by destruct t.
Qed.

Lemma validate_parts_forall parts : validate_parts parts = nil_err <->
  Forall (fun part => bad_part part = false /\ invalidComponent part = false) parts.
Proof.
  induction parts as [|p ps IH]; cbn [validate_parts]; [by split|]. rewrite Forall_cons, <- IH.
  unfold nil_err. destruct (bad_part p), (invalidComponent p); intuition congruence.
Qed.

Lemma walk_confined parts : Forall (fun part => bad_part part = false) parts ->
  forall dir, walk dir parts = rev parts ++ dir.
Proof.
  induction 1 as [|p ps Hp _ IH]; intros dir; [done|]. cbn [walk rev].
  unfold bad_part in Hp. destruct (p =s ""), (p =s "."), (p =s ".."); try done.
  cbn [orb]. by rewrite IH, <- app_assoc.
Qed.

(** An ASCII byte of a string is one of its runes. *)
Lemma ascii_byte_is_rune l : forall b, b ∈ l -> 0 <= b < 128 -> b ∈ map rune (runes_of l).
Proof.
  assert (forall n l, (length l <= n)%nat -> forall b, b ∈ l -> 0 <= b < 128 -> b ∈ map rune (runes_of l)) as H;
    [|by eapply H].
  clear l. induction n as [|n IH]; intros l Hn b Hb Hr; [destruct l; [by apply not_elem_of_nil in Hb|cbn in Hn; lia]|].
  destruct l as [|b0 l1]; [by apply not_elem_of_nil in Hb|]. cbn [runes_of length] in *.
  assert (b = b0 \/ b ∈ l1) as Hb1 by by apply elem_of_cons in Hb.
  destruct (b0 <? 128) eqn:E0; go_bool.
  { cbn [map]. destruct Hb1 as [->|Hb1]; [by left|]. right. apply IH; [lia|done|done]. }
  assert (forall x, b ∈ map rune (x :: runes_of l1)) as Hbad.
  { intros x. right. apply IH; [lia| |done]. destruct Hb1; [lia|done]. }
  destruct Hb1 as [?|Hb1]; [lia|]. unfold cont, between in *.
  repeat case_match; try apply Hbad; cbn [map length] in *; right; (apply IH; [lia| |done]); go_bool;
    rewrite ?elem_of_cons in Hb1; destruct_or? Hb1; try done; try lia.
Qed.

(** What a component of an accepted path is. *)
Record safe_component (part : string) : Prop := {
  sc_named : part <> "" /\ part <> "." /\ part <> "..";
  sc_length : 1 <= len part <= 255;
  sc_bytes : Forall (fun b => b <> 47 /\ b <> 92 /\ b <> 58 /\ 32 <= b /\ b <> 127) (bytes part);
  sc_trailing : forall stem a, part = stem +:+ String a "" -> a <> " "%char /\ a <> "."%char;
  sc_device : ToUpperASCII (SplitN2 part "."%char).1 ∉ device_names }.

Lemma component_safe value part : existsb path_reserved (bytes value) = false ->
  part ∈ Split value slash -> bad_part part = false -> invalidComponent part = false -> safe_component part.
Proof.
  intros Hr Hp Hb Hi. unfold bad_part in Hb.
  repeat (apply orb_false_iff in Hb as [Hb ?]). go_bool.
  unfold invalidComponent in Hi. destruct (existsb _ (runes part)) eqn:Ec; [done|]. split.
  - by split_and!.
  - split; [|lia]. unfold len. destruct part; [done|]. cbn [String.length]. lia.
  - apply Forall_forall. intros b Hin. destruct (Split_bytes _ _ _ Hp _ Hin) as [Hv Hs].
    assert (path_reserved b = false) as Hpr.
    { destruct (path_reserved b) eqn:E; [|done]. rewrite <- Hr. symmetry. apply existsb_exists.
      exists b. by rewrite <- list_elem_of_In. }
    unfold path_reserved in Hpr. change (byte_of slash) with 47 in Hs.
    assert (0 <= b) by (clear -Hin; induction part as [|a p IH]; [by apply not_elem_of_nil in Hin|];
      apply elem_of_cons in Hin as [->|?]; [pose proof (byte_of_range a); lia|auto]).
    destruct (Z.lt_ge_cases b 128); [|go_bool; lia].
    assert (((b <? 32) || (b =? 127)) = false) as Hc.
    { destruct ((b <? 32) || (b =? 127)) eqn:E; [|done]. rewrite <- Ec. symmetry. apply existsb_exists.
      exists b. rewrite <- list_elem_of_In. split; [|done]. by apply ascii_byte_is_rune. }
    go_bool. lia.
  - intros stem a Ha. pose proof (TrimRight_id part trailing ltac:(done) stem a Ha) as Ht.
    unfold trailing in Ht. apply orb_false_iff in Ht as [?%Ascii.eqb_neq ?%Ascii.eqb_neq]. done.
  - intros Hd%str_in_spec. congruence.
Qed.

(** A relative path that passes validation, followed component by component from
    any directory, ends strictly below that directory at exactly the components it
    spells: it never climbs, stays or restarts. It has at most 64 components, each
    1 to 255 bytes long with no separator, backslash, colon, NUL or control byte, no
    trailing space or dot, and no reserved device name in any letter case, and
    joining the components with the separator gives back the path. *)
Theorem relative_path_confined value (Hvalid : ValidateRelativePath value = nil_err) :
  (forall dir, walk dir (Split value slash) = rev (Split value slash) ++ dir)
  /\ 1 <= llen (Split value slash) <= 64
  /\ Forall safe_component (Split value slash)
  /\ joined (Split value slash) = value.
Proof.
  unfold ValidateRelativePath in Hvalid. destruct (_ || HasPrefix value "/") eqn:E; [done|].
  apply orb_false_iff in E as [E _]. apply orb_false_iff in E as [_ Hr].
  destruct (llen _ >? _) eqn:El; [done|]. apply validate_parts_forall in Hvalid. split_and!.
  - apply walk_confined. eapply Forall_impl; [done|]. by intros ? [? ?].
  - unfold llen. pose proof (Split_nonempty value slash). destruct (Split value slash); [done|]. cbn [length]. lia.
  - unfold MaximumPathComponents in El. go_bool. lia.
  - rewrite Forall_forall in Hvalid |- *. intros part Hp. destruct (Hvalid part Hp). by eapply component_safe.
  - apply joined_Split.
Qed.

Lemma relative_path_confined_witness :
  ValidateRelativePath "etc/beat.d/agent.conf" = nil_err
  /\ walk ["srv"] (Split "etc/beat.d/agent.conf" slash) = ["agent.conf"; "beat.d"; "etc"; "srv"]
  /\ Forall safe_component (Split "etc/beat.d/agent.conf" slash).
Proof.
  assert (ValidateRelativePath "etc/beat.d/agent.conf" = nil_err) as H by (vm_compute; reflexivity).
  destruct (relative_path_confined "etc/beat.d/agent.conf" H) as (Hw & _ & Hf & _).
  split; [exact H|]. split; [rewrite (Hw ["srv"]); vm_compute; reflexivity|exact Hf].
Defined.

(** ** Files: the root that grants a request is the only one with its name *)

Lemma validate_roots_distinct seen roots : validate_roots_loop seen roots = nil_err ->
  Forall (fun root => Root_ID root ∉ seen /\ 1 <= Root_MaximumBytes root <= MaximumFileBytes) roots
  /\ NoDup (map Root_ID roots).
Proof.
  revert seen. induction roots as [|root roots IH]; intros seen H; [split; constructor|].
  cbn [validate_roots_loop] in H. destruct (_ || ContainsControl _); [done|].
  destruct (_ || (Root_MaximumBytes root >? _)) eqn:E; [done|]. apply IH in H as [Hf Hn].
  apply orb_false_iff in E as [E ?]. apply orb_false_iff in E as [E ?]. apply orb_false_iff in E as [_ E].
  apply bool_decide_eq_false in E. split.
  - constructor; [go_bool; split; [done|lia]|]. eapply Forall_impl; [exact Hf|]. intros x [Hx ?]. set_solver.
  - cbn [map]. constructor; [|done]. intros Hin. apply list_elem_of_fmap in Hin as (x & Hx & Hin).
    rewrite Forall_forall in Hf. destruct (Hf _ Hin) as [Hn' _]. apply Hn'. rewrite <- Hx. set_solver.
Qed.

Lemma find_root_elem roots id root : find_root roots id = Some root -> root ∈ roots /\ Root_ID root = id.
Proof.
  induction roots as [|r roots IH]; cbn [find_root]; [done|]. destruct (Root_ID r =s id) eqn:E.
  - intros [= ->]. go_bool. split; [by left|done].
  - intros H. destruct (IH H). split; [by right|done].
Qed.

Lemma same_root_id roots r1 r2 : NoDup (map Root_ID roots) -> r1 ∈ roots -> r2 ∈ roots ->
  Root_ID r1 = Root_ID r2 -> r1 = r2.
Proof.
  induction roots as [|r roots IH]; intros Hn H1 H2 He; [by apply not_elem_of_nil in H1|].
  cbn [map] in Hn. apply NoDup_cons in Hn as [Hr Hn].
  apply elem_of_cons in H1 as [->|H1], H2 as [->|H2]; try done.
  - exfalso. apply Hr. rewrite He. by apply list_elem_of_fmap_2.
  - exfalso. apply Hr. rewrite <- He. by apply list_elem_of_fmap_2.
  - by apply IH.
Qed.

Lemma Policy_Validate_roots policy : Policy_Validate policy = nil_err -> validateRoots (Roots policy) = nil_err.
Proof.
  unfold Policy_Validate. intros H. apply bind_ok in H as (? & _ & H).
  destruct (_ >? 2); [done|]. apply bind_ok in H as (? & _ & H).
  repeat (match type of H with (if ?b then _ else _) = _ => destruct b eqn:?; [done|] end).
  by apply bind_ok in H as ([] & _ & H).
Qed.

(** One policy permits the transfer of a file: through exactly one of its roots. *)
Definition permits (policy : Policy) (request : FileRequest) : Prop :=
  Enabled policy = true /\ Direction request ∈ Kinds policy /\
  exists root, root ∈ Roots policy
    /\ (forall other, other ∈ Roots policy -> Root_ID other = RootID (File request) <-> other = root)
    /\ Size (File request) <= Root_MaximumBytes root <= MaximumFileBytes
    /\ (Direction request = "deploy" -> Root_Write root = true
          /\ (Overwrite (File request) = true -> Root_Overwrite root = true)
          /\ (Mode (File request) = 448 -> Root_Executable root = true))
    /\ (Direction request = "collect" -> Root_Read root = true).

Lemma authorize_file_in_permits policy request :
  authorize_file_in policy request = nil_err -> permits policy request.
Proof.
  unfold authorize_file_in. intros H. destruct (_ || negb (str_in _ _)) eqn:E; [done|].
  apply orb_false_iff in E as [E Hk]. apply orb_false_iff in E as [He Hv].
  apply negb_false_iff in He, Hv, Hk. apply is_ok_check, Policy_Validate_roots, validate_roots_distinct in Hv as [Hf Hn].
  destruct (operationRoot _ _) as [root|] eqn:Er; [|done]. apply find_root_elem in Er as [Hin Hid].
  split_and!; [done|by apply str_in_spec|]. exists root. rewrite Forall_forall in Hf. destruct (Hf _ Hin) as [_ Hmax].
  repeat (match type of H with (if ?b then _ else _) = _ => destruct b eqn:?; [done|] end).
  split_and!; [done| |go_bool; lia|lia| |].
  - intros other Ho. split; [|by intros ->]. intros Hoid. eapply same_root_id; eauto. congruence.
  - intros Hd. rewrite Hd in *. cbn [String.eqb Ascii.eqb Bool.eqb andb] in *. go_bool.
    destruct (Root_Write root), (Overwrite (File request)), (Root_Overwrite root), (Root_Executable root); intuition congruence.
  - intros Hd. rewrite Hd in *. by destruct (Root_Read root).
Qed.

(** A file transfer is authorized only when both the owner's and the machine's
    policy permit it: each enables the direction and has exactly one root of the
    requested name, which bounds the size and allows the write, overwrite, execute
    bit or read the transfer needs. The path then names something strictly below the
    root's directory, the size is between 0 and 2 GiB, the mode is 0600 or 0700, and
    the digest is the canonical lower-case form of 32 bytes. *)
Theorem authorized_file_permitted owner loc request (Hok : AuthorizeFile owner loc request = nil_err) :
  permits owner request /\ permits loc request
  /\ (Direction request = "deploy" \/ Direction request = "collect")
  /\ 0 <= Size (File request) <= 2147483648
  /\ (Mode (File request) = 384 \/ Mode (File request) = 448)
  /\ (exists digest, length digest = 32%nat /\ EncodeHex digest = Digest (File request))
  /\ (forall dir, walk dir (Split (RelativePath (File request)) slash)
                  = rev (Split (RelativePath (File request)) slash) ++ dir).
Proof.
  unfold AuthorizeFile in Hok. destruct (_ || _) eqn:E; [done|]. apply orb_false_iff in E as [Hf Hd].
  apply bind_ok in Hok as ([] & Ho & Hl). apply negb_false_iff, is_ok_check in Hf. unfold ValidateFile in Hf.
  destruct (_ || (negb (Mode _ =? 384) && _)) eqn:E; [done|].
  repeat (apply orb_false_iff in E as [E ?]). destruct (DecodeHex _) as [digest|]; [|done].
  destruct (_ || _) eqn:Eh in Hf; [done|]. apply negb_false_iff in E.
  match goal with H : negb (is_ok (ValidateRelativePath _)) = false |- _ =>
    apply negb_false_iff, is_ok_check in H; rename H into Hp end.
  go_bool. unfold MaximumFileBytes in *. split_and!; try lia; try by apply authorize_file_in_permits.
  - destruct Hd as [?|?]; auto.
  - destruct Eh as [El Eh]. exists digest. unfold llen in El. split; [lia|done].
  - intros dir. apply walk_confined. unfold ValidateRelativePath in Hp.
    destruct (_ || HasPrefix _ _); [done|]. destruct (_ >? _); [done|].
    apply validate_parts_forall in Hp. eapply Forall_impl; [done|]. by intros ? [? ?].
Qed.

Definition sample_root : Root := mkRoot "config" "etc" true true 4096 true false.
Definition sample_policy : Policy :=
  mkPolicy None ["sh"] true ["shell"; "deploy"] 10 5 2 60 65536 false true [sample_root].
Definition sample_request : FileRequest :=
  mkFileRequest "deploy" (mkFileSpec "etc" "beat.d/agent.conf" 3
    "ba7816bf8f01cfea414140de5dae2223b00361a396177a9cb410ff61f20015ad" 384 true "a1").

Lemma authorized_file_permitted_witness :
  AuthorizeFile sample_policy sample_policy sample_request = nil_err
  /\ permits sample_policy sample_request.
Proof.
  assert (AuthorizeFile sample_policy sample_policy sample_request = nil_err) as H by (vm_compute; reflexivity).
  split; [exact H|]. exact (proj1 (authorized_file_permitted sample_policy sample_policy sample_request H)).
Defined.
