(* ===== verification/OpsAttempt.v ===== *)
(** * Remote operations: the attempt state machine

    [internal/remoteoperations/protocol/attempt.go]: one leased execution of an
    operation on one node. The agent proves its nonce, starts the attempt before the
    lease ends, sends heartbeats and completes it with a result; the server may
    cancel it, expire the lease or mark a silent attempt unknown. *)

From S2P Require Import Prelude GoText GoNumber GoSha256 OpsPolicy.

Definition LeaseDuration : Duration := 30 * Second.
Definition HeartbeatGrace : Duration := 30 * Second.

(** [StartedAt] and [CompletedAt] are [*time.Time]: [None] is [nil]. *)
Record Attempt := mkAttempt {
  Attempt_ID : string;
  Attempt_NodeID : string;
  Attempt_State : string;
  NonceHash : list Z;
  LeaseExpiresAt : Time;
  StartedAt : option Time;
  HeartbeatAt : Time;
  CompletedAt : option Time;
  ResultDigest : string }.

Record AttemptProof := mkProof { Proof_NodeID : string; Proof_Nonce : string; Proof_Now : Time }.

(** [Stdout] and [Stderr] are byte slices: [None] is the nil slice, which JSON
    writes differently from an empty one. *)
Record Result := mkResult {
  Reason : string;
  Signal : Z;
  Result_StartedAt : Z;
  FinishedAt : Z;
  StdoutBytes : Z;
  StderrBytes : Z;
  StdoutSHA256 : string;
  StderrSHA256 : string;
  Result_State : string;
  ExitCode : Z;
  Stdout : option (list Z);
  Stderr : option (list Z);
  Truncated : bool }.

Definition content (b : option (list Z)) : list Z := default [] b.

(** Field assignments of the code. *)
Definition set_State (s : string) (a : Attempt) : Attempt :=
  mkAttempt (Attempt_ID a) (Attempt_NodeID a) s (NonceHash a) (LeaseExpiresAt a) (StartedAt a) (HeartbeatAt a)
    (CompletedAt a) (ResultDigest a).
Definition set_StartedAt (t : option Time) (a : Attempt) : Attempt :=
  mkAttempt (Attempt_ID a) (Attempt_NodeID a) (Attempt_State a) (NonceHash a) (LeaseExpiresAt a) t (HeartbeatAt a)
    (CompletedAt a) (ResultDigest a).
Definition set_HeartbeatAt (t : Time) (a : Attempt) : Attempt :=
  mkAttempt (Attempt_ID a) (Attempt_NodeID a) (Attempt_State a) (NonceHash a) (LeaseExpiresAt a) (StartedAt a) t
    (CompletedAt a) (ResultDigest a).
Definition set_Completed (digest : string) (t : option Time) (a : Attempt) : Attempt :=
  mkAttempt (Attempt_ID a) (Attempt_NodeID a) (Attempt_State a) (NonceHash a) (LeaseExpiresAt a) (StartedAt a)
    (HeartbeatAt a) t digest.

Definition isSome {A} (o : option A) : bool := match o with Some _ => true | None => false end.

(** ** Operations *)

Definition ConstantTimeCompare (x y : list Z) : Z := if bool_decide (x = y) then 1 else 0.

Definition Authenticate (attempt : Attempt) (proof : AttemptProof) : check :=
  if negb (len (Proof_Nonce proof) =? 64) || (Proof_NodeID proof =s "")
     || (Attempt_NodeID attempt <>s Proof_NodeID proof) then Err ErrForbidden else
  match DecodeHex (Proof_Nonce proof) with
  | None => Err ErrForbidden
  | Some nonce =>
      if negb (ConstantTimeCompare (Sum256 nonce) (NonceHash attempt) =? 1) then Err ErrForbidden
      else nil_err
  end.

Definition Attempt_Start (attempt : Attempt) (proof : AttemptProof) : Attempt * check :=
  match Authenticate attempt proof with
  | Err err => (attempt, Err err)
  | Ok _ =>
      if isSome (StartedAt attempt) then (attempt, nil_err) else
      if (Attempt_State attempt <>s "leased") || negb (Before (Proof_Now proof) (LeaseExpiresAt attempt))
      then (attempt, Err ErrConflict) else
      (attempt |> set_State "running" |> set_StartedAt (Some (Proof_Now proof))
               |> set_HeartbeatAt (Proof_Now proof), nil_err)
  end.

Definition Heartbeat (attempt : Attempt) (proof : AttemptProof) : Attempt * result opsError bool :=
  match Authenticate attempt proof with
  | Err err => (attempt, Err err)
  | Ok _ =>
      if negb (isSome (StartedAt attempt)) || isSome (CompletedAt attempt) then (attempt, Err ErrConflict) else
      let attempt := set_HeartbeatAt (Proof_Now proof) attempt in
      let attempt := if Attempt_State attempt =s "unknown" then set_State "running" attempt else attempt in
      (attempt, Ok (Attempt_State attempt =s "cancel_requested"))
  end.

Definition Cancel (attempt : Attempt) : Attempt :=
  if isSome (CompletedAt attempt) then attempt else
  if negb (isSome (StartedAt attempt)) then set_State "canceled" attempt else
  set_State "cancel_requested" attempt.

Definition Reconcile (attempt : Attempt) (now : Time) : Attempt :=
  if isSome (CompletedAt attempt) then attempt else
  if (Attempt_State attempt =s "leased") && negb (Before now (LeaseExpiresAt attempt))
  then set_State "expired" attempt else
  if (Attempt_State attempt =s "running") && (Sub now (HeartbeatAt attempt) >? HeartbeatGrace)
  then set_State "unknown" attempt else
  attempt.

(** ** Results *)

Definition validOutputDigest (body : option (list Z)) (digest : string) : bool :=
  if digest =s "" then true else digest =s EncodeHex (Sum256 (content body)).

Definition result_reasons : list string :=
  ["completed"; "exit_nonzero"; "timeout"; "canceled"; "output_limit"; "interrupted"; "local_policy";
   "sandbox_unavailable"; "storage_failure"; "start_failed"; "file_integrity"; "source_changed"; "transfer_conflict"].

Definition result_states : list string :=
  ["succeeded"; "failed"; "timed_out"; "canceled"; "output_limit"; "interrupted"].

Definition validateMetadata (r : Result) : check :=
  if (Signal r <? 0) || (Signal r >? 128) || (Result_StartedAt r <? 0) || (FinishedAt r <? Result_StartedAt r)
  then Err ErrInvalid else
  if negb (StdoutBytes r =? 0) && negb (StdoutBytes r =? llen (content (Stdout r)))
     || negb (StderrBytes r =? 0) && negb (StderrBytes r =? llen (content (Stderr r))) then Err ErrInvalid else
  if (Reason r <>s "") && negb (str_in (Reason r) result_reasons) then Err ErrInvalid else
  if negb (validOutputDigest (Stdout r) (StdoutSHA256 r)) || negb (validOutputDigest (Stderr r) (StderrSHA256 r))
  then Err ErrInvalid else nil_err.

Definition Result_Validate (r : Result) (limit : Z) : check :=
  let* _ := validateMetadata r in
  if (limit <? 1) || (limit >? MaximumOutputBytes) || (llen (content (Stdout r)) >? limit)
     || (llen (content (Stderr r)) >? limit - llen (content (Stdout r))) then Err ErrInvalid else
  if negb (str_in (Result_State r) result_states) then Err ErrInvalid else
  if (Result_State r =s "succeeded") && (negb (ExitCode r =? 0) || Truncated r) then Err ErrInvalid else
  nil_err.

(** [json.Marshal(result)] with the field tags of the struct; it cannot fail on it. *)
Definition Marshal (r : Result) : list Z :=
  let text key v := member key (v <>s "") (json_string v) in
  let number key v := member key (negb (v =? 0)) (json_int v) in
  json_object
    [text "reason" (Reason r); number "signal" (Signal r); number "started_at" (Result_StartedAt r);
     number "finished_at" (FinishedAt r); number "stdout_bytes" (StdoutBytes r);
     number "stderr_bytes" (StderrBytes r); text "stdout_sha256" (StdoutSHA256 r);
     text "stderr_sha256" (StderrSHA256 r); member "state" true (json_string (Result_State r));
     member "exit_code" true (json_int (ExitCode r)); member "stdout" true (json_bytes (Stdout r));
     member "stderr" true (json_bytes (Stderr r)); member "truncated" true (json_bool (Truncated r))].

Definition fingerprint (r : Result) : string := EncodeHex (Sum256 (Marshal r)).

Definition Complete (attempt : Attempt) (proof : AttemptProof) (r : Result) : Attempt * check :=
  match Authenticate attempt proof with
  | Err err => (attempt, Err err)
  | Ok _ =>
      match Result_Validate r MaximumOutputBytes with
      | Err err => (attempt, Err err)
      | Ok _ =>
          if negb (isSome (StartedAt attempt)) then (attempt, Err ErrConflict) else
          if isSome (CompletedAt attempt)
          then (attempt, if ResultDigest attempt =s fingerprint r then nil_err else Err ErrConflict)
          else (attempt |> set_State (Result_State r) |> set_Completed (fingerprint r) (Some (Proof_Now proof)), nil_err)
      end
  end.

(** ** Runs

    The operations the service applies to one attempt, in any order, from any caller:
    a failed call changes nothing, so its error is not part of the state. *)

Inductive op :=
| OpStart (proof : AttemptProof)
| OpHeartbeat (proof : AttemptProof)
| OpCancel
| OpReconcile (now : Time)
| OpComplete (proof : AttemptProof) (r : Result).

Definition step (a : Attempt) (o : op) : Attempt :=
  match o with
  | OpStart proof => (Attempt_Start a proof).1
  | OpHeartbeat proof => (Heartbeat a proof).1
  | OpCancel => Cancel a
  | OpReconcile now => Reconcile a now
  | OpComplete proof r => (Complete a proof r).1
  end.

Definition run (a : Attempt) (ops : list op) : Attempt := fold_left step ops a.

(** The attempt a lease creates. *)
Definition leased (id node : string) (nonceHash : list Z) (expires created : Time) : Attempt :=
  mkAttempt id node "leased" nonceHash expires None created None "".

(** ** What each operation can change *)

Inductive transition (a : Attempt) : Attempt -> Prop :=
| t_none : transition a a
| t_start t : StartedAt a = None -> Attempt_State a = "leased" -> t < LeaseExpiresAt a ->
    transition a (a |> set_State "running" |> set_StartedAt (Some t) |> set_HeartbeatAt t)
| t_beat t s : StartedAt a <> None -> CompletedAt a = None ->
    (s = Attempt_State a \/ (s = "running" /\ Attempt_State a = "unknown")) ->
    transition a (a |> set_HeartbeatAt t |> set_State s)
| t_cancel_early : StartedAt a = None -> CompletedAt a = None -> transition a (set_State "canceled" a)
| t_cancel : StartedAt a <> None -> CompletedAt a = None -> transition a (set_State "cancel_requested" a)
| t_expire : CompletedAt a = None -> Attempt_State a = "leased" -> transition a (set_State "expired" a)
| t_silent : CompletedAt a = None -> Attempt_State a = "running" -> transition a (set_State "unknown" a)
| t_complete t r : StartedAt a <> None -> CompletedAt a = None -> Result_State r ∈ result_states ->
    transition a (a |> set_State (Result_State r) |> set_Completed (fingerprint r) (Some t)).

Lemma isSome_spec {A} (o : option A) : isSome o = true <-> o <> None.
Proof. destruct o; cbn; split; congruence. Qed.
Lemma isSome_false {A} (o : option A) : isSome o = false <-> o = None.
Proof. destruct o; cbn; split; congruence. Qed.

Lemma Result_Validate_state r limit : Result_Validate r limit = nil_err -> Result_State r ∈ result_states.
Proof.
  unfold Result_Validate. intros H. apply bind_ok in H as (? & _ & H).
  destruct (_ || _) in H; [done|]. destruct (negb (str_in _ _)) eqn:E; [done|].
  by apply negb_false_iff, str_in_spec in E.
Qed.

(** Every operation is one of the transitions: the code's guards are its rules. *)
Lemma step_transition a o : transition a (step a o).
Proof.
  destruct o as [p|p| |now|p r]; cbn [step].
  - unfold Attempt_Start. destruct (Authenticate a p); [|constructor].
    destruct (isSome (StartedAt a)) eqn:E; [constructor|]. destruct (_ || _) eqn:G; [constructor|].
    apply isSome_false in E. unfold Before in G. go_bool. constructor; tauto.
  - unfold Heartbeat. destruct (Authenticate a p); [|constructor].
    destruct (_ || _) eqn:G; [constructor|]. apply orb_false_iff in G as [G%negb_false_iff%isSome_spec H%isSome_false].
    cbn [fst]. destruct (_ =s "unknown") eqn:E.
    + go_bool. apply (t_beat a (Proof_Now p) "running"); auto.
    + replace (set_HeartbeatAt (Proof_Now p) a)
        with (a |> set_HeartbeatAt (Proof_Now p) |> set_State (Attempt_State a)) by done. constructor; auto.
  - unfold Cancel. destruct (isSome (CompletedAt a)) eqn:E; [constructor|]. apply isSome_false in E.
    destruct (isSome (StartedAt a)) eqn:F; cbn [negb]; constructor; try done; [by apply isSome_spec|by apply isSome_false].
  - unfold Reconcile. destruct (isSome (CompletedAt a)) eqn:E; [constructor|]. apply isSome_false in E.
    destruct (_ && _) eqn:F; [go_bool; constructor; tauto|]. clear F.
    destruct (_ && _) eqn:F; [go_bool; constructor; tauto|constructor].
  - unfold Complete. destruct (Authenticate a p); [|constructor].
    destruct (Result_Validate r MaximumOutputBytes) as [[]|] eqn:V; [|constructor]. apply Result_Validate_state in V.
    destruct (isSome (StartedAt a)) eqn:E; cbn [negb]; [|constructor]. apply isSome_spec in E.
    destruct (isSome (CompletedAt a)) eqn:F; [constructor|]. apply isSome_false in F. by constructor.
Qed.

(** A property every transition keeps holds after every run. *)
Lemma run_keeps (P : Attempt -> Prop) : (forall a b, P a -> transition a b -> P b) ->
  forall ops a, P a -> P (run a ops).
Proof. intros HP ops. induction ops as [|o ops IH]; intros a Ha; [done|]. apply IH. eapply HP; [done|apply step_transition]. Qed.

(** ** The life of an attempt *)

Record attempt_ok (id node : string) (hash : list Z) (expires : Time) (a : Attempt) : Prop := {
  ok_identity : Attempt_ID a = id /\ Attempt_NodeID a = node /\ NonceHash a = hash /\ LeaseExpiresAt a = expires;
  ok_started : forall t, StartedAt a = Some t -> t < expires;
  ok_waiting : StartedAt a = None -> CompletedAt a = None /\ Attempt_State a ∈ ["leased"; "canceled"; "expired"];
  ok_running : StartedAt a <> None -> CompletedAt a = None ->
    Attempt_State a ∈ ["running"; "unknown"; "cancel_requested"];
  ok_open : CompletedAt a = None -> ResultDigest a = "";
  ok_completed : CompletedAt a <> None -> Attempt_State a ∈ result_states
    /\ exists r, ResultDigest a = fingerprint r /\ Attempt_State a = Result_State r }.

Lemma attempt_ok_transition id node hash expires a b :
  attempt_ok id node hash expires a -> transition a b -> attempt_ok id node hash expires b.
Proof.
  intros Hok Ht. destruct Hok as [(H1 & H2 & H3 & H4) Hs Hw Hr Ho Hc].
  assert (forall x l, str_in x l = true -> x ∈ l) as Hin by (intros; by apply str_in_spec).
  assert (StartedAt a <> None -> Attempt_State a <> "leased") as Hl.
  { intros E F. destruct (CompletedAt a) eqn:G.
    - destruct (Hc ltac:(done)) as [K _]. rewrite F in K. by apply str_in_spec in K.
    - specialize (Hr E eq_refl). rewrite F in Hr. by apply str_in_spec in Hr. }
  destruct Ht as [|t E F G|t s E F G|E F|E F|E F|E F|t r E F G];
    (split; cbn [Attempt_ID Attempt_NodeID Attempt_State NonceHash LeaseExpiresAt StartedAt HeartbeatAt CompletedAt
       ResultDigest set_State set_StartedAt set_HeartbeatAt set_Completed]);
    try done; try (by rewrite ?E, ?F); try (intros; split_and!; by auto); try (intros; by auto); try (by intros []).
  - intros u [= <-]. by rewrite <- H4.
  - intros Hn. destruct (Hw E) as [Hn' _]. congruence.
  - intros Hn K. destruct G as [->|[-> _]]; [by apply Hr|by apply Hin].
  - intros Hn. by destruct (Hl Hn).
  - intros Hn. destruct (Hw Hn) as [_ K]. rewrite F in K. by apply str_in_spec in K.
  - intros _. split; [done|]. by exists r.
Qed.

Lemma leased_ok id node hash expires created :
  attempt_ok id node hash expires (leased id node hash expires created).
Proof.
  unfold leased. split; cbn [Attempt_ID Attempt_NodeID Attempt_State NonceHash LeaseExpiresAt StartedAt CompletedAt ResultDigest];
    try congruence; auto. intros _. split; [done|]. by apply str_in_spec.
Qed.

(** From its lease on, whatever sequence of starts, heartbeats, cancellations,
    reconciliations and completions is applied to an attempt by anyone, its identity,
    nonce hash and lease never change; it is started only at a time before the lease
    ends; without a start it is leased, canceled or expired and never completed; once
    started and open it is running, unknown or asked to cancel and holds no result; and
    a completed attempt has one of the result states, with the digest of a result that
    has this state. *)
Theorem attempt_lifecycle id node hash expires created ops :
  attempt_ok id node hash expires (run (leased id node hash expires created) ops).
Proof. apply (run_keeps (attempt_ok id node hash expires)); eauto using attempt_ok_transition, leased_ok. Qed.

(** ** Starting and completing happen once *)

Lemma Complete_completed a proof r : CompletedAt a <> None -> (Complete a proof r).1 = a.
Proof.
  intros H%isSome_spec. unfold Complete. destruct (Authenticate a proof), (Result_Validate r MaximumOutputBytes); try done.
  destruct (negb _); [done|]. by rewrite H.
Qed.

Lemma step_completed a o : CompletedAt a <> None -> StartedAt a <> None -> step a o = a.
Proof.
  intros Hc Hs. destruct o as [p|p| |now|p r]; cbn [step].
  - unfold Attempt_Start. apply isSome_spec in Hs. rewrite Hs. by destruct (Authenticate a p).
  - unfold Heartbeat. apply isSome_spec in Hc. rewrite Hc, orb_true_r. by destruct (Authenticate a p).
  - unfold Cancel. apply isSome_spec in Hc. by rewrite Hc.
  - unfold Reconcile. apply isSome_spec in Hc. by rewrite Hc.
  - by apply Complete_completed.
Qed.

Lemma run_completed a ops : CompletedAt a <> None -> StartedAt a <> None -> run a ops = a.
Proof.
  intros Hc Hs. induction ops as [|o ops IH]; [done|]. cbn [run fold_left]. by rewrite step_completed.
Qed.

Lemma started_kept t a b : StartedAt a = Some t -> transition a b -> StartedAt b = Some t.
Proof. intros H Ht. destruct Ht; cbn; congruence. Qed.

Lemma refused_kept a b : (StartedAt a = None /\ Attempt_State a <> "leased") -> transition a b ->
  StartedAt b = None /\ Attempt_State b <> "leased".
Proof. intros [H K] Ht. destruct Ht; cbn; split; congruence. Qed.

Lemma cancel_kept a b :
  StartedAt a <> None -> (CompletedAt a = None -> Attempt_State a = "cancel_requested") -> transition a b ->
  StartedAt b <> None /\ (CompletedAt b = None -> Attempt_State b = "cancel_requested").
Proof.
  intros H K Ht. destruct Ht as [|t E F G|t s E F G|E F|E F|E F|E F|t r E F G]; cbn; split; try done; auto;
    try (intros; specialize (K ltac:(done)); congruence).
  intros _. destruct G as [->|[_ G]]; [auto|]. rewrite (K F) in G. done.
Qed.

(** Execution is authorized at most once and ended at most once: the start time of
    a started attempt never changes again; an attempt that left its lease unstarted
    (canceled or expired) is never started by any later sequence of calls; a
    cancellation asked of a started attempt stays asked until the attempt completes;
    and on a completed attempt no call changes anything at all. *)
Theorem attempt_started_and_completed_once id node hash expires created before ops :
  let a := run (leased id node hash expires created) before in
  (forall t, StartedAt a = Some t -> StartedAt (run a ops) = Some t)
  /\ (Attempt_State a = "canceled" \/ Attempt_State a = "expired" ->
        StartedAt a = None -> StartedAt (run a ops) = None /\ CompletedAt (run a ops) = None)
  /\ (Attempt_State a = "cancel_requested" -> CompletedAt (run a ops) = None ->
        Attempt_State (run a ops) = "cancel_requested")
  /\ (CompletedAt a <> None -> run a ops = a).
Proof.
  intros a. assert (attempt_ok id node hash expires a) as Hok.
  { apply (run_keeps (attempt_ok id node hash expires)); eauto using attempt_ok_transition, leased_ok. }
  assert (CompletedAt a <> None -> StartedAt a <> None) as Hcs.
  { intros Hc Hs. by destruct (ok_waiting _ _ _ _ _ Hok Hs). }
  split_and!.
  - intros t. apply (run_keeps (fun a => StartedAt a = Some t)). intros; by eapply started_kept.
  - intros Hst Hs. assert (StartedAt (run a ops) = None) as E.
    { apply (run_keeps (fun a => StartedAt a = None /\ Attempt_State a <> "leased") refused_kept).
      split; [done|]. destruct Hst as [-> | ->]; done. }
    split; [done|]. eapply ok_waiting; [|done].
    apply (run_keeps (attempt_ok id node hash expires)); eauto using attempt_ok_transition.
  - intros Hst. apply (run_keeps (fun a => StartedAt a <> None /\ (CompletedAt a = None -> Attempt_State a = "cancel_requested"))).
    + intros x y [H K] Ht. by eapply cancel_kept.
    + split; [|done]. intros Hs. destruct (ok_waiting _ _ _ _ _ Hok Hs) as [_ K]. rewrite Hst in K.
      by apply str_in_spec in K.
  - intros Hc. apply run_completed; auto.
Qed.

(** ** Replayed completions *)

Lemma fingerprint_eq r s : fingerprint r = fingerprint s <-> Sum256 (Marshal r) = Sum256 (Marshal s).
Proof.
  unfold fingerprint. split; [|by intros ->]. apply EncodeHex_inj; apply Sum256_range.
Qed.

Lemma Complete_ok a proof r b : Complete a proof r = (b, nil_err) ->
  StartedAt b <> None /\ CompletedAt b <> None /\ ResultDigest b = fingerprint r.
Proof.
  unfold Complete. destruct (Authenticate a proof); [|done]. destruct (Result_Validate r _); [|done].
  destruct (isSome (StartedAt a)) eqn:E; [|done]. apply isSome_spec in E. cbn [negb].
  destruct (isSome (CompletedAt a)) eqn:F.
  - destruct (_ =s _) eqn:G; [|done]. intros [= <-]. go_bool. apply isSome_spec in F. done.
  - intros [= <-]. done.
Qed.

(** A completion can be retried safely: once a completion returned success, then
    after any further calls the same attempt still holds that result's fingerprint, and
    a later completion changes nothing and succeeds exactly when it is authenticated,
    carries a valid result, and its result encodes to JSON with the same SHA-256; an
    authenticated, valid but different result is refused as a conflict. *)
Theorem completion_idempotent a proof r done_ (Hdone : Complete a proof r = (done_, nil_err)) ops proof' r' :
  let b := run done_ ops in
  ResultDigest b = fingerprint r
  /\ (Complete b proof' r').1 = b
  /\ ((Complete b proof' r').2 = nil_err <->
        Authenticate b proof' = nil_err /\ Result_Validate r' MaximumOutputBytes = nil_err
        /\ Sum256 (Marshal r') = Sum256 (Marshal r))
  /\ (Authenticate b proof' = nil_err -> Result_Validate r' MaximumOutputBytes = nil_err ->
        Sum256 (Marshal r') <> Sum256 (Marshal r) -> (Complete b proof' r').2 = Err ErrConflict).
Proof.
  apply Complete_ok in Hdone as (Hs & Hc & Hd). intros b. subst b. rewrite run_completed by done.
  rewrite <- fingerprint_eq. unfold Complete.
  apply isSome_spec in Hs, Hc. rewrite Hs, Hc, Hd. unfold nil_err. cbn [negb].
  destruct (Authenticate done_ proof') as [[]|e]; cbn [fst snd]; [|intuition congruence].
  destruct (Result_Validate r' MaximumOutputBytes) as [[]|e]; cbn [fst snd]; [|intuition congruence].
  destruct (fingerprint r =s fingerprint r') eqn:E; go_bool; intuition congruence.
Qed.

Definition sample_nonce : string := "000102030405060708090a0b0c0d0e0f101112131415161718191a1b1c1d1e1f".
Definition sample_attempt : Attempt :=
  leased "a1" "n1" (Sum256 (default [] (DecodeHex sample_nonce))) (100 * Second) (70 * Second).
Definition sample_proof (now : Time) : AttemptProof := mkProof "n1" sample_nonce now.
Definition sample_result (state : string) : Result :=
  mkResult "" 0 71000 75000 2 0 "" "" state 0 (Some (bytes "ok")) None false.
Definition sample_started : Attempt := run sample_attempt [OpStart (sample_proof (71 * Second))].

Lemma completion_idempotent_witness :
  Complete sample_started (sample_proof (75 * Second)) (sample_result "succeeded")
    = ((Complete sample_started (sample_proof (75 * Second)) (sample_result "succeeded")).1, nil_err)
  /\ (Complete (run (Complete sample_started (sample_proof (75 * Second)) (sample_result "succeeded")).1 [OpCancel])
        (sample_proof (80 * Second)) (sample_result "failed")).2 = Err ErrConflict.
Proof.
  assert (Complete sample_started (sample_proof (75 * Second)) (sample_result "succeeded")
    = ((Complete sample_started (sample_proof (75 * Second)) (sample_result "succeeded")).1, nil_err)) as H
    by (vm_compute; reflexivity).
  split; [exact H|].
  apply (completion_idempotent _ _ _ _ H [OpCancel] (sample_proof (80 * Second)) (sample_result "failed")).
  - vm_compute. reflexivity.
  - vm_compute. reflexivity.
  - vm_compute. discriminate.
Defined.
