(* ===== verification/FanoutFrame.v ===== *)
(** * Metrics stream: WebSocket frames

    [internal/metricsfanout/frame.go] and the frame handling of [reader.go]: reading a
    masked client frame from the connection, writing an unmasked server frame,
    reassembling fragmented messages under a size bound, and what the read loop does
    with each frame. *)

From S2P Require Import Prelude GoText GoSha256.

Definition MaximumInboundBytes : Z := Z.shiftl 4 10.
Definition maximumControlBytes : Z := 125.

(** How the connection ended: at end of file (also in the middle of a read, which
    [io.ReadFull] reports as an unexpected end), at the read deadline, or otherwise. *)
Inductive netError := NetEOF | NetTimeout | NetOther.
Inductive frameError := errNetwork (e : netError) | errProtocol | errFrameTooLarge.

Record frame := mkFrame { opcode : Z; final : bool; payload : list Z }.

(** The reader: the bytes that will still arrive, and how the stream ends after them. *)
Record reader := mkReader { input : list Z; ending : netError }.

(** [io.ReadFull] into a buffer of [n] bytes. *)
Definition ReadFull (r : reader) (n : nat) : result frameError (list Z * reader) :=
  if (length (input r) <? n)%nat then Err (errNetwork (ending r))
  else Ok (take n (input r), mkReader (drop n (input r)) (ending r)).

Definition validOpcode (value : Z) : bool :=
  (value =? 0) || (value =? 1) || (value =? 2) || (value =? 8) || (value =? 9) || (value =? 10).

Definition validFrameHeader (h0 h1 : Z) : bool :=
  (Z.land h0 112 =? 0) && negb (Z.land h1 128 =? 0) && validOpcode (Z.land h0 15).

Definition frameLength (r : reader) (indicator : Z) : result frameError (Z * reader) :=
  if indicator <? 126 then Ok (indicator, r)
  else if indicator =? 126 then
    let* (data, r) := ReadFull r 2 in
    let value := be_value data in
    if value <? 126 then Err errProtocol else Ok (value, r)
  else
    let* (data, r) := ReadFull r 8 in
    let value := be_value data in
    if (value <=? 65535) || negb (Z.shiftr value 63 =? 0) then Err errProtocol else Ok (value, r).

Definition validateFrameSize (opcode : Z) (final : bool) (size : Z) : result frameError unit :=
  if (opcode >=? 8) && (negb final || (size >? maximumControlBytes)) then Err errProtocol
  else if size >? MaximumInboundBytes then Err errFrameTooLarge
  else Ok tt.

(** [payload[i] ^= mask[i % 4]], from index [i] on. *)
Fixpoint unmask (mask : list Z) (i : nat) (data : list Z) : list Z :=
  match data with
  | [] => []
  | b :: rest => Z.lxor b (nth (i mod 4) mask 0) :: unmask mask (S i) rest
  end.

Definition readFrame (r : reader) : result frameError (frame * reader) :=
  let* (header, r) := ReadFull r 2 in
  let h0 := nth 0 header 0 in
  let h1 := nth 1 header 0 in
  let op := Z.land h0 15 in
  let fin := negb (Z.land h0 128 =? 0) in
  if negb (validFrameHeader h0 h1) then Err errProtocol else
  let* (size, r) := frameLength r (Z.land h1 127) in
  let* _ := validateFrameSize op fin size in
  let* (mask, r) := ReadFull r 4 in
  let* (data, r) := ReadFull r (Z.to_nat size) in
  Ok (mkFrame op fin (unmask mask 0 data), r).

Definition serverFrame (opcode : Z) (payload : list Z) : list Z :=
  let header := if llen payload >? 65535 then 10 else if llen payload >=? 126 then 4 else 2 in
  Z.lor 128 opcode ::
  (if header =? 2 then [llen payload]
   else if header =? 4 then 126 :: be_bytes 2 (llen payload)
   else 127 :: be_bytes 8 (llen payload)) ++ payload.

Definition validClose (payload : list Z) : bool :=
  if llen payload =? 0 then true
  else if llen payload =? 1 then false
  else
    let code := be_value (take 2 payload) in
    let valid := (code >=? 3000) && (code <=? 4999)
      || (code >=? 1000) && (code <=? 1014) && negb (code =? 1004) && negb (code =? 1005) && negb (code =? 1006) in
    valid && Valid (drop 2 payload).

(** ** Fragments *)

Record fragments := mkFragments { fr_opcode : Z; fr_data : list Z }.

(** The state the call leaves behind, and its error. *)
Definition accept (state : fragments) (value : frame) : fragments * result frameError unit :=
  if (opcode value =? 0) && (fr_opcode state =? 0) then (state, Err errProtocol) else
  if negb (opcode value =? 0) && negb (fr_opcode state =? 0) then (state, Err errProtocol) else
  let state := if opcode value =? 0 then state else mkFragments (opcode value) (fr_data state) in
  if llen (fr_data state) + llen (payload value) >? MaximumInboundBytes then (state, Err errFrameTooLarge) else
  let state := mkFragments (fr_opcode state) (fr_data state ++ payload value) in
  if negb (final value) then (state, Ok tt) else
  if (fr_opcode state =? 1) && negb (Valid (fr_data state)) then (state, Err errProtocol) else
  (mkFragments 0 [], Ok tt).

(** ** The read loop, one frame at a time

    What the loop does with the connection: queue a pong, ask the writer to close with
    a code and payload, or drop the connection. *)

Inductive fanReason := ReasonPeer | ReasonProtocol | ReasonFrameRate | ReasonOversize | ReasonTimeout.

Inductive effect :=
| Pong (payload : list Z)
| PeerClosed
| RequestClose (payload : list Z) (reason : fanReason)
| Terminate (reason : fanReason).

(** [requestClose(code, nil, reason)] sends the two bytes of the code. *)
Definition close_code (code : Z) : list Z := be_bytes 2 code.

Definition readFailure (err : frameError) : list effect :=
  match err with
  | errFrameTooLarge => [RequestClose (close_code 1009) ReasonOversize]
  | errProtocol => [RequestClose (close_code 1002) ReasonProtocol]
  | errNetwork NetTimeout => [Terminate ReasonTimeout]
  | errNetwork _ => [Terminate ReasonPeer]
  end.

(** The branch the pong's [select] takes: any branch that is ready, or the default. *)
Inductive pongChoice := PongQueued | PongDone | PongFull.

(** [None]: the loop returned; [Some state]: it goes on to the next frame.
    [budget] is whether the frame budget had a token for this frame. *)
Definition handleFrame (state : fragments) (budget : bool) (pong : pongChoice) (value : frame)
    : option fragments * list effect :=
  if negb budget then (None, [RequestClose (close_code 1008) ReasonFrameRate])
  else if opcode value =? 8 then
    (None, if negb (validClose (payload value)) then [RequestClose (close_code 1002) ReasonProtocol]
           else [PeerClosed; RequestClose (payload value) ReasonPeer])
  else if opcode value =? 9 then
    match pong with
    | PongQueued => (Some state, [Pong (payload value)])
    | PongDone => (None, [])
    | PongFull => (None, [RequestClose (close_code 1008) ReasonFrameRate])
    end
  else if opcode value =? 10 then (Some state, [])
  else match accept state value with
       | (state, Ok _) => (Some state, [])
       | (_, Err err) => (None, readFailure err)
       end.

(** The loop over the frames that arrive; [env i] gives for iteration [i] whether the
    frame budget has a token and which branch the pong select takes. Every frame
    consumes at least two bytes, so as many rounds as there are bytes, and one more
    that finds the end of the stream, are enough. *)
Fixpoint readLoop (fuel : nat) (env : nat -> bool * pongChoice) (i : nat) (state : fragments) (r : reader)
    : list effect :=
  match fuel with
  | O => []
  | S fuel =>
      match readFrame r with
      | Err err => readFailure err
      | Ok (value, r) =>
          match handleFrame state (env i).1 (env i).2 value with
          | (None, effects) => effects
          | (Some state, effects) => effects ++ readLoop fuel env (S i) state r
          end
      end
  end.

(** ** The wire format of a client frame (RFC 6455, shortest length form, masked) *)

Definition is_byte (b : Z) : Prop := 0 <= b < 256.

Definition length_field (n : Z) : list Z :=
  if n <? 126 then [128 + n] else if n <=? 65535 then 254 :: be_bytes 2 n else 255 :: be_bytes 8 n.

Definition clientFrame (f : frame) (mask : list Z) : list Z :=
  (if final f then 128 else 0) + opcode f :: length_field (llen (payload f)) ++ mask ++ unmask mask 0 (payload f).

(** What the server is willing to take from a client. *)
Record acceptable (f : frame) : Prop := {
  acc_opcode : validOpcode (opcode f) = true;
  acc_size : llen (payload f) <= 4096;
  acc_control : 8 <= opcode f -> final f = true /\ llen (payload f) <= 125 }.

Lemma ReadFull_ok r n data r' : ReadFull r n = Ok (data, r') <->
  input r = data ++ input r' /\ length data = n /\ ending r' = ending r.
Proof.
  unfold ReadFull. destruct (length (input r) <? n)%nat eqn:E.
  - apply Nat.ltb_lt in E. split; [done|]. intros (H & H' & _). rewrite H, length_app in E. lia.
  - apply Nat.ltb_ge in E. split.
    + intros [= <- <-]. cbn [input ending]. rewrite take_drop, length_take. split_and!; [done|lia|done].
    + destruct r as [i e], r' as [i' e']. cbn [input ending] in *. intros (-> & <- & ->).
      by rewrite take_app_length, drop_app_length.
Qed.

Lemma length_unmask mask i data : length (unmask mask i data) = length data.
Proof. revert i. induction data as [|b data IH]; intros i; cbn [unmask length]; congruence. Qed.

Lemma unmask_unmask mask i data : unmask mask i (unmask mask i data) = data.
Proof.
  revert i. induction data as [|b data IH]; intros i; cbn [unmask]; [done|].
  by rewrite IH, Z.lxor_assoc, Z.lxor_nilpotent, Z.lxor_0_r.
Qed.

(** A fact about one byte, checked on all 256 of them. *)
Lemma byte_fact (P : Z -> bool) : forallb P (map Z.of_nat (seq 0 256)) = true -> forall b, is_byte b -> P b = true.
Proof.
  intros H b Hb. rewrite forallb_forall in H. apply H. apply in_map_iff. exists (Z.to_nat b).
  unfold is_byte in Hb. split; [lia|]. apply in_seq. lia.
Qed.

Definition header_fact (h : Z) : bool :=
  (if Z.land h 112 =? 0
   then h =? (if negb (Z.land h 128 =? 0) then 128 else 0) + Z.land h 15 else true)
  && (if Z.land h 128 =? 0 then true else h =? 128 + Z.land h 127)
  && (0 <=? Z.land h 15) && (Z.land h 15 <? 16) && (0 <=? Z.land h 127) && (Z.land h 127 <? 128).

Lemma header_facts h : is_byte h -> header_fact h = true.
Proof. apply byte_fact. vm_compute. reflexivity. Qed.

(** A valid opcode with its final bit is read back from the first byte. *)
Definition first_fact (op : Z) (fin : bool) : bool :=
  let h := (if fin then 128 else 0) + op in
  (Z.land h 112 =? 0) && (Z.land h 15 =? op) && Bool.eqb (negb (Z.land h 128 =? 0)) fin.
Lemma first_facts op fin : validOpcode op = true -> first_fact op fin = true.
Proof. unfold validOpcode. intros H. go_bool. destruct fin; destruct_or? H; subst; reflexivity. Qed.

Definition second_fact (h : Z) : bool :=
  if h <? 128 then negb (Z.land (128 + h) 128 =? 0) && (Z.land (128 + h) 127 =? h) else true.
Lemma second_facts h : 0 <= h < 128 -> negb (Z.land (128 + h) 128 =? 0) = true /\ Z.land (128 + h) 127 = h.
Proof.
  intros H. assert (second_fact h = true) as F.
  { revert h H. intros h H. apply byte_fact; [vm_compute; reflexivity|unfold is_byte; lia]. }
  unfold second_fact in F. destruct (h <? 128) eqn:E; [|go_bool; lia]. by apply andb_true_iff in F as [? ?%Z.eqb_eq].
Qed.

(** ** Lengths *)

Lemma frameLength_ok r h1 size r' : Forall is_byte (input r) -> is_byte h1 -> Z.land h1 128 <> 0 ->
  frameLength r (Z.land h1 127) = Ok (size, r') ->
  h1 :: input r = length_field size ++ input r' /\ ending r' = ending r /\ 0 <= size.
Proof.
  intros Hr Hh Hm H. pose proof (header_facts h1 Hh) as F. unfold header_fact in F.
  apply Z.eqb_neq in Hm. rewrite Hm in F. go_bool. destruct F as (((([_ Fh] & _) & _) & F1) & F2).
  unfold frameLength in H. destruct (Z.land h1 127 <? 126) eqn:E1.
  { injection H as <- <-. unfold length_field. rewrite E1. split_and!; [cbn; congruence|done|lia]. }
  assert (forall k data r2, ReadFull r k = Ok (data, r2) -> Forall is_byte data) as Hb.
  { intros k data r2 (Hd & _ & _)%ReadFull_ok. rewrite Hd in Hr. by apply Forall_app in Hr as [? _]. }
  destruct (Z.land h1 127 =? 126) eqn:E2; apply bind_ok in H as ([data r2] & Hread & H).
  - pose proof (Hb _ _ _ Hread) as Hd. apply ReadFull_ok in Hread as (Hi & Hl & He).
    cbn beta iota zeta in H. destruct (be_value data <? 126) eqn:E3; [done|]. injection H as <- <-. go_bool.
    pose proof (be_value_range data Hd) as Hv. unfold llen in Hv. rewrite Hl in Hv. change (256 ^ Z.of_nat 2) with 65536 in Hv.
    unfold length_field. rewrite (proj2 (Z.ltb_ge _ _) E3), (proj2 (Z.leb_le (be_value data) 65535)) by lia.
    rewrite <- Hl, be_bytes_value by done. split_and!; [|done|lia]. cbn [app]. rewrite Hi. f_equal. lia.
  - pose proof (Hb _ _ _ Hread) as Hd. apply ReadFull_ok in Hread as (Hi & Hl & He).
    cbn beta iota zeta in H. destruct (_ || _) eqn:E3 in H; [done|]. injection H as <- <-. go_bool. destruct E3 as [E3 E4].
    unfold length_field. rewrite (proj2 (Z.ltb_ge (be_value data) 126)), (proj2 (Z.leb_gt (be_value data) 65535)) by lia.
    rewrite <- Hl, be_bytes_value by done. split_and!; [|done|lia]. cbn [app]. rewrite Hi. f_equal. lia.
Qed.

Lemma frameLength_field r h1 tail size r' : 0 <= size <= 65535 -> h1 :: tail = length_field size ->
  input r = tail ++ input r' -> ending r' = ending r ->
  frameLength r (Z.land h1 127) = Ok (size, r') /\ negb (Z.land h1 128 =? 0) = true.
Proof.
  intros Hs Hf Hi He. unfold length_field in Hf. destruct (size <? 126) eqn:E1; go_bool.
  - injection Hf as -> ->. destruct (second_facts size) as [Hm Hl]; [lia|]. rewrite Hl.
    split; [|by apply negb_true_iff, Z.eqb_neq in Hm]. unfold frameLength. rewrite (proj2 (Z.ltb_lt _ _)) by lia.
    destruct r, r'; cbn in *; by subst.
  - destruct (size <=? 65535) eqn:E2; go_bool; [|lia]. injection Hf as -> ->. split; [|done].
    change (Z.land 254 127) with 126. unfold frameLength. cbn [Z.ltb Z.eqb Z.compare Pos.compare Pos.compare_cont Pos.eqb].
    assert (ReadFull r 2 = Ok (be_bytes 2 size, r')) as ->.
    { apply ReadFull_ok. by rewrite length_be_bytes. }
    cbn [bind]. rewrite be_value_bytes, Z.mod_small by (change (256 ^ Z.of_nat 2) with 65536; lia).
    by rewrite (proj2 (Z.ltb_ge _ _)) by lia.
Qed.

Lemma unmask_bytes mask i data : Forall is_byte mask -> Forall is_byte data -> Forall is_byte (unmask mask i data).
Proof.
  intros Hm Hd. revert i. induction Hd as [|b data Hb _ IH]; intros i; cbn [unmask]; constructor; [|done].
  assert (is_byte (nth (i mod 4) mask 0)) as Hn.
  { destruct (nth_in_or_default (i mod 4) mask 0) as [Hin| ->]; [|unfold is_byte; lia].
    rewrite Forall_forall in Hm. apply Hm. by apply list_elem_of_In. }
  unfold is_byte in *. assert (Z.lxor b (nth (i mod 4) mask 0) = Z.land (Z.lxor b (nth (i mod 4) mask 0)) (Z.ones 8)) as ->.
  2:{ rewrite Z.land_ones by lia. apply Z.mod_pos_bound. lia. }
  apply Z.bits_inj'. intros k Hk. rewrite Z.land_spec, Z.lxor_spec, Z.testbit_ones_nonneg by lia.
  destruct (k <? 8) eqn:E; [by rewrite andb_true_r|]. go_bool. rewrite andb_false_r.
  assert (forall x, 0 <= x < 256 -> Z.testbit x k = false) as Ht; [|by rewrite !Ht].
  intros x Hx. rewrite <- (Z.mod_small x (2 ^ 8)) by (change (2 ^ 8) with 256; lia). by apply Z.mod_pow2_bits_high; lia.
Qed.

Lemma readFrame_sound r f r' : Forall is_byte (input r) -> readFrame r = Ok (f, r') ->
  ending r' = ending r /\ acceptable f /\ Forall is_byte (payload f)
  /\ exists mask, length mask = 4%nat /\ Forall is_byte mask /\ input r = clientFrame f mask ++ input r'.
Proof.
  intros Hr H. unfold readFrame in H. apply bind_ok in H as ([header r1] & H1 & H).
  apply ReadFull_ok in H1 as (Hi1 & Hl1 & He1). destruct header as [|h0 [|h1 [|]]]; try done.
  cbn [nth] in H. destruct (validFrameHeader h0 h1) eqn:Ev; [|done]. cbn [negb] in H.
  rewrite Hi1 in Hr. apply Forall_app in Hr as [Hh Hr1].
  inversion Hh as [|? ? Hb0 Hh']; subst. inversion Hh' as [|? ? Hb1 _]; subst.
  unfold validFrameHeader in Ev. apply andb_true_iff in Ev as [Ev Hop]. apply andb_true_iff in Ev as [E112 E128].
  apply negb_true_iff, Z.eqb_neq in E128.
  apply bind_ok in H as ([size r2] & H2 & H). cbn beta iota in H.
  apply frameLength_ok in H2 as (Hi2 & He2 & Hs); [|done..].
  apply bind_ok in H as ([] & Hv & H). apply bind_ok in H as ([mask r3] & H3 & H). cbn beta iota in H.
  apply bind_ok in H as ([data r4] & H4 & H). injection H as <- <-.
  apply ReadFull_ok in H3 as (Hi3 & Hl3 & He3). apply ReadFull_ok in H4 as (Hi4 & Hl4 & He4).
  assert (Forall is_byte (input r2)) as Hr2.
  { assert (Forall is_byte (h1 :: input r1)) as K by by constructor. rewrite Hi2 in K. by apply Forall_app in K as [_ ?]. }
  rewrite Hi3, Hi4 in Hr2. rewrite !Forall_app in Hr2. destruct Hr2 as (Hbm & Hbd & _).
  assert (llen (unmask mask 0 data) = size) as Hsize by (unfold llen; rewrite length_unmask; lia).
  unfold validateFrameSize, maximumControlBytes in Hv. change MaximumInboundBytes with 4096 in Hv.
  destruct (_ && _) eqn:Ec in Hv; [done|]. destruct (size >? 4096) eqn:Es; [done|].
  split_and!; [congruence| |by apply unmask_bytes|].
  - split; cbn [opcode final payload]; [done|rewrite Hsize; go_bool; lia|].
    intros H8. rewrite Hsize. assert (Z.land h0 15 >=? 8 = true) as H8' by (go_bool; lia).
    rewrite H8' in Ec. destruct (negb (Z.land h0 128 =? 0)); [|done]. cbn in Ec. split; [done|]. go_bool. lia.
  - exists mask. split_and!; [done..|]. unfold clientFrame. cbn [opcode final payload].
    rewrite Hsize, unmask_unmask. pose proof (header_facts h0 Hb0) as F. unfold header_fact in F. rewrite E112 in F.
    repeat (apply andb_true_iff in F as [F _]). apply Z.eqb_eq in F. rewrite <- F.
    rewrite Hi1. cbn [app]. by rewrite Hi2, Hi3, Hi4, <- !app_assoc.
Qed.

Lemma readFrame_complete r f mask r' : acceptable f -> length mask = 4%nat ->
  ending r' = ending r -> input r = clientFrame f mask ++ input r' -> readFrame r = Ok (f, r').
Proof.
  intros [Hop Hsize Hctl] Hm He Hi. destruct f as [op fin data]. cbn [opcode final payload] in *.
  unfold clientFrame in Hi. cbn [opcode final payload] in Hi.
  destruct (length_field (llen data)) as [|h1 tail] eqn:Ef.
  { unfold length_field in Ef. by repeat case_match. }
  set (h0 := (if fin then 128 else 0) + op) in *. unfold readFrame.
  set (r4 := mkReader (unmask mask 0 data ++ input r') (ending r)).
  set (r2 := mkReader (mask ++ input r4) (ending r)). set (r1 := mkReader (tail ++ input r2) (ending r)).
  assert (ReadFull r 2 = Ok ([h0; h1], r1)) as ->.
  { apply ReadFull_ok. split_and!; [|done|done]. rewrite Hi. cbn [app r1 r2 r4 input]. by rewrite <- !app_assoc. }
  cbn [bind nth]. pose proof (llen_nonneg data) as Hn.
  destruct (frameLength_field r1 h1 tail (llen data) r2) as [-> Hbit]; [lia|done|done|done|].
  pose proof (first_facts op fin Hop) as F. unfold first_fact in F. fold h0 in F.
  apply andb_true_iff in F as [F Ffin]. apply andb_true_iff in F as [F112 Fop].
  apply Z.eqb_eq in Fop. apply Bool.eqb_prop in Ffin. rewrite Ffin, Fop.
  unfold validFrameHeader. rewrite F112, Hbit, Fop, Hop. cbn [andb negb bind].
  assert (validateFrameSize op fin (llen data) = Ok tt) as ->.
  { unfold validateFrameSize, maximumControlBytes. change MaximumInboundBytes with 4096.
    destruct (op >=? 8) eqn:E8.
    - destruct Hctl as [-> Hc]; [go_bool; lia|]. cbn [negb orb andb].
      destruct (llen data >? 125) eqn:X; [go_bool; lia|]. destruct (llen data >? 4096) eqn:Y; [go_bool; lia|done].
    - cbn [andb]. destruct (llen data >? 4096) eqn:Y; [go_bool; lia|done]. }
  cbn [bind]. assert (ReadFull r2 4 = Ok (mask, r4)) as -> by by apply ReadFull_ok.
  cbn [bind]. assert (ReadFull r4 (Z.to_nat (llen data)) = Ok (unmask mask 0 data, r')) as ->.
  { apply ReadFull_ok. split_and!; [done| |done]. rewrite length_unmask. unfold llen. lia. }
  cbn [bind]. by rewrite unmask_unmask.
Qed.

(** C39. The server reads exactly the frames the protocol allows. Reading succeeds with
    frame [f], leaving [r'], if and only if the bytes received are [f] in its masked
    wire form with the shortest length field, followed by the rest; and [f] then has
    a known opcode and at most 4096 payload bytes, and is final and at most 125 bytes
    long when it is a control frame. *)
Theorem read_frame_exact r f r' (Hbytes : Forall is_byte (input r)) :
  readFrame r = Ok (f, r') <->
  acceptable f /\ ending r' = ending r /\
  exists mask, length mask = 4%nat /\ Forall is_byte mask /\ input r = clientFrame f mask ++ input r'.
Proof.
  split.
  - intros H. destruct (readFrame_sound r f r' Hbytes H) as (? & ? & ? & ?). done.
  - intros (Hf & He & mask & Hl & _ & Hi). by eapply readFrame_complete.
Qed.

Definition sample_reader : reader :=
  mkReader [129; 133; 55; 250; 33; 61; 127; 159; 77; 81; 88; 137; 128] NetEOF.

Lemma read_frame_exact_witness :
  Forall is_byte (input sample_reader)
  /\ readFrame sample_reader = Ok (mkFrame 1 true (bytes "Hello"), mkReader [137; 128] NetEOF)
  /\ acceptable (mkFrame 1 true (bytes "Hello")).
Proof.
  assert (Forall is_byte (input sample_reader)) as Hb by (unfold is_byte; repeat constructor; vm_compute; discriminate).
  assert (readFrame sample_reader = Ok (mkFrame 1 true (bytes "Hello"), mkReader [137; 128] NetEOF)) as Hr
    by (vm_compute; reflexivity).
  split; [exact Hb|]. split; [exact Hr|].
  exact (proj1 (proj1 (read_frame_exact sample_reader _ _ Hb) Hr)).
Defined.

(** ** Server frames *)

Lemma server_frame_header op data : 0 <= op < 16 -> llen data < 2 ^ 63 ->
  exists h1 rest, serverFrame op data = 128 + op :: h1 :: rest /\ Z.land h1 128 = 0
    /\ forall e, frameLength (mkReader rest e) (Z.land h1 127) = Ok (llen data, mkReader data e).
Proof.
  intros Hop Hlen. pose proof (llen_nonneg data) as Hn.
  assert (Z.lor 128 op = 128 + op) as Hor.
  { assert (Z.land 128 op = 0) as Hz.
    { apply Z.bits_inj'. intros k Hk. rewrite Z.land_spec, Z.bits_0. change 128 with (2 ^ 7).
      rewrite Z.pow2_bits_eqb by lia. destruct (7 =? k) eqn:E; [|done]. apply Z.eqb_eq in E as <-.
      rewrite <- (Z.mod_small op (2 ^ 4)) by (change (2 ^ 4) with 16; lia). by rewrite Z.mod_pow2_bits_high by lia. }
    pose proof (Z.add_lor_land 128 op). lia. }
  unfold serverFrame. rewrite Hor. destruct (llen data >? 65535) eqn:E1; go_bool.
  - exists 127, (be_bytes 8 (llen data) ++ data). split_and!; [done|done|]. intros e.
    change (Z.land 127 127) with 127. unfold frameLength.
    cbn [Z.ltb Z.eqb Z.compare Pos.compare Pos.compare_cont Pos.eqb].
    assert (ReadFull (mkReader (be_bytes 8 (llen data) ++ data) e) 8 = Ok (be_bytes 8 (llen data), mkReader data e)) as ->.
    { apply ReadFull_ok. by rewrite length_be_bytes. }
    cbn [bind]. rewrite be_value_bytes, Z.mod_small by (change (256 ^ Z.of_nat 8) with (2 ^ 64); lia).
    rewrite Z.shiftr_div_pow2, Z.div_small by lia. rewrite (proj2 (Z.leb_gt _ _)) by lia. done.
  - destruct (llen data >=? 126) eqn:E2; go_bool.
    + exists 126, (be_bytes 2 (llen data) ++ data). split_and!; [done|done|]. intros e.
      change (Z.land 126 127) with 126. unfold frameLength.
      cbn [Z.ltb Z.eqb Z.compare Pos.compare Pos.compare_cont Pos.eqb].
      assert (ReadFull (mkReader (be_bytes 2 (llen data) ++ data) e) 2 = Ok (be_bytes 2 (llen data), mkReader data e)) as ->.
      { apply ReadFull_ok. by rewrite length_be_bytes. }
      cbn [bind]. rewrite be_value_bytes, Z.mod_small by (change (256 ^ Z.of_nat 2) with 65536; lia).
      by rewrite (proj2 (Z.ltb_ge _ _)) by lia.
    + assert (~ 126 <= llen data) as E3 by lia.
      exists (llen data), data. split_and!; [done| |].
      * assert (forallb (fun h => if h <? 126 then Z.land h 128 =? 0 else true) (map Z.of_nat (seq 0 256)) = true)
          as K by (vm_compute; reflexivity).
        pose proof (byte_fact _ K (llen data)) as F. cbn beta in F. rewrite (proj2 (Z.ltb_lt _ _)) in F by lia.
        apply Z.eqb_eq, F. unfold is_byte. lia.
      * intros e. destruct (second_facts (llen data)) as [_ Hl]; [lia|].
        assert (Z.land (llen data) 127 = llen data) as ->.
        { change 127 with (Z.ones 7). rewrite Z.land_ones by lia. apply Z.mod_small. change (2 ^ 7) with 128. lia. }
        unfold frameLength. by rewrite (proj2 (Z.ltb_lt _ _)) by lia.
Qed.

(** ** Reassembly *)

(** A message cut into pieces: the first frame carries the opcode, the others are
    continuations, the last one is final. *)
Fixpoint fragmented (op : Z) (parts : list (list Z)) : list frame :=
  match parts with
  | [] => []
  | [part] => [mkFrame op true part]
  | part :: rest => mkFrame op false part :: fragmented 0 rest
  end.

Fixpoint accept_all (state : fragments) (frames : list frame) : fragments * result frameError unit :=
  match frames with
  | [] => (state, Ok tt)
  | f :: rest => match accept state f with
                 | (state, Ok _) => accept_all state rest
                 | (state, Err err) => (state, Err err)
                 end
  end.

Definition text_ok (op : Z) (data : list Z) : bool := negb ((op =? 1) && negb (Valid data)).

(** One frame of a message whose opcode is [op], after [data] was collected. *)
Lemma accept_piece state op f : op <> 0 ->
  (fr_opcode state = op /\ opcode f = 0 \/ state = mkFragments 0 [] /\ opcode f = op) ->
  accept state f =
    let data := fr_data state ++ payload f in
    if llen data >? 4096 then (mkFragments op (fr_data state), Err errFrameTooLarge)
    else if negb (final f) then (mkFragments op data, Ok tt)
    else if text_ok op data then (mkFragments 0 [], Ok tt) else (mkFragments op data, Err errProtocol).
Proof.
  intros Hop H. unfold accept, text_ok. change MaximumInboundBytes with 4096.
  apply Z.eqb_neq in Hop as Hb. cbn zeta. rewrite llen_app.
  destruct H as [[Hs ->] | [-> ->]].
  - destruct state as [o data]. cbn [fr_opcode fr_data] in *. subst o. rewrite Hb. cbn [Z.eqb andb negb fr_opcode fr_data].
    destruct (_ >? 4096); [done|]. destruct (final f); [|done]. cbn [negb]. by destruct (_ && _).
  - cbn [fr_opcode fr_data]. rewrite Hb. cbn [Z.eqb andb negb fr_opcode fr_data].
    destruct (_ >? 4096); [done|]. destruct (final f); [|done]. cbn [negb]. by destruct (_ && _).
Qed.

Lemma accept_all_pieces op : op <> 0 -> forall parts state first,
  (fr_opcode state = op /\ first = 0 \/ state = mkFragments 0 [] /\ first = op) -> parts <> [] ->
  is_ok (accept_all state (fragmented first parts)).2 =
    (llen (fr_data state ++ concat parts) <=? 4096) && text_ok op (fr_data state ++ concat parts)
  /\ (is_ok (accept_all state (fragmented first parts)).2 = true ->
        (accept_all state (fragmented first parts)).1 = mkFragments 0 []).
Proof.
  intros Hop parts. induction parts as [|p [|q parts] IH]; intros state first Hs Hn; [done|..].
  - cbn [fragmented accept_all concat]. rewrite (accept_piece state op) by done. cbn [payload final negb]. cbn zeta.
    rewrite app_nil_r. rewrite Z.leb_antisym, Z.gtb_ltb.
    destruct (4096 <? _); cbn [negb andb]; [done|]. by destruct (text_ok _ _).
  - change (fragmented first (p :: q :: parts)) with (mkFrame first false p :: fragmented 0 (q :: parts)).
    cbn [accept_all]. rewrite (accept_piece state op) by done. cbn [payload final negb]. cbn zeta.
    destruct (llen (fr_data state ++ p) >? 4096) eqn:E.
    + cbn [is_ok snd fst]. split; [|done]. symmetry. apply andb_false_iff. left. apply Z.leb_gt.
      change (concat (p :: q :: parts)) with (p ++ concat (q :: parts)). rewrite app_assoc, llen_app.
      pose proof (llen_nonneg (concat (q :: parts))). apply Z.gtb_lt in E. lia.
    + change (concat (p :: q :: parts)) with (p ++ concat (q :: parts)). rewrite app_assoc.
      apply (IH (mkFragments op (fr_data state ++ p)) 0); [by left|done].
Qed.

(** However a client cuts a text or binary message into fragments, the server
    accepts it exactly when it is at most 4096 bytes in total and, for text, valid
    UTF-8 as a whole (a code point may straddle fragments); the collector is then empty
    again. Whatever frames arrive, in order or not, it never holds more than 4096 bytes. *)
Theorem reassembly_exact op parts (Hop : op = 1 \/ op = 2) (Hparts : parts <> []) :
  ((accept_all (mkFragments 0 []) (fragmented op parts)) = (mkFragments 0 [], Ok tt)
     <-> llen (concat parts) <= 4096 /\ (op = 1 -> Valid (concat parts) = true))
  /\ (forall state frames, llen (fr_data state) <= 4096 ->
        llen (fr_data (accept_all state frames).1) <= 4096).
Proof.
  split.
  - destruct (accept_all_pieces op ltac:(lia) parts (mkFragments 0 []) op ltac:(by right) Hparts) as [Hok Hst].
    cbn [fr_data app] in *. destruct (accept_all _ _) as [st [[]|e]]; cbn [is_ok fst snd] in *.
    + rewrite (Hst eq_refl). symmetry in Hok. apply andb_true_iff in Hok as [Hl%Z.leb_le Ht].
      unfold text_ok in Ht. apply negb_true_iff, andb_false_iff in Ht. split; [|done]. intros _. split; [done|].
      intros ->. destruct Ht as [?|Ht%negb_false_iff]; done.
    + split; [done|]. intros [Hl Hv]. exfalso. symmetry in Hok. apply andb_false_iff in Hok as [Hk|Ht]; [go_bool; lia|].
      unfold text_ok in Ht. apply negb_false_iff, andb_true_iff in Ht as [H1%Z.eqb_eq Ht%negb_true_iff].
      by rewrite Hv in Ht.
  - intros state frames. revert state. induction frames as [|f frames IH]; intros state Hs; [done|]. cbn [accept_all].
    assert (llen (fr_data (accept state f).1) <= 4096) as Ha.
    { unfold accept. change MaximumInboundBytes with 4096.
      destruct (_ && _); [done|]. destruct (_ && _); [done|].
      set (st := if opcode f =? 0 then state else _).
      assert (llen (fr_data st) <= 4096) by (unfold st; by destruct (opcode f =? 0)). clearbody st.
      destruct (_ >? 4096) eqn:E; [done|]. apply Z.gtb_ltb in E || rewrite Z.gtb_ltb in E. apply Z.ltb_ge in E.
      rewrite <- llen_app in E. destruct (final f); cbn [negb]; [|done]. destruct (_ && _); done. }
    destruct (accept state f) as [st [[]|e]]; cbn [fst] in *; [by apply IH|done].
Qed.

Lemma reassembly_exact_witness :
  accept_all (mkFragments 0 []) (fragmented 1 [[226; 130]; [172]]) = (mkFragments 0 [], Ok tt).
Proof.
  apply (proj1 (reassembly_exact 1 [[226; 130]; [172]] (or_introl eq_refl) ltac:(discriminate))).
  split; [vm_compute; discriminate|intros _; vm_compute; reflexivity].
Defined.

(** ** The read loop *)

Lemma readFrame_consumes r f r' : readFrame r = Ok (f, r') -> (length (input r') + 2 <= length (input r))%nat.
Proof.
  unfold readFrame. intros H. apply bind_ok in H as ([h r1] & H1 & H). cbn beta iota in H.
  apply ReadFull_ok in H1 as (Hi1 & Hl1 & _). destruct (negb (validFrameHeader _ _)); [done|].
  apply bind_ok in H as ([size r2] & H2 & H). cbn beta iota in H.
  assert (length (input r2) <= length (input r1))%nat as L2.
  { unfold frameLength in H2. destruct (_ <? 126); [by simplify_eq|].
    destruct (_ =? 126); apply bind_ok in H2 as ([d r3] & Hr & H2); cbn beta iota zeta in H2;
      apply ReadFull_ok in Hr as (Hi & _ & _); rewrite Hi, length_app;
      (destruct (_ <? 126) in H2 || destruct (_ || _) in H2); simplify_eq; lia. }
  apply bind_ok in H as ([] & _ & H). apply bind_ok in H as ([m r3] & H3 & H). cbn beta iota in H.
  apply bind_ok in H as ([d r4] & H4 & H). apply ReadFull_ok in H3 as (Hi3 & _ & _), H4 as (Hi4 & _ & _).
  injection H as <- <-. rewrite Hi1, length_app. rewrite Hi3, Hi4, !length_app in L2. lia.
Qed.

Lemma readLoop_fuel env : forall fuel i state r, (length (input r) < fuel)%nat ->
  readLoop fuel env i state r = readLoop (S (length (input r))) env i state r.
Proof.
  intros fuel. induction fuel as [fuel IH] using lt_wf_ind. intros i state r Hf.
  destruct fuel as [|fuel]; [lia|]. cbn [readLoop]. destruct (readFrame r) as [[f r']|e] eqn:E; [|done].
  apply readFrame_consumes in E. destruct (handleFrame _ _ _ _) as [[st|] eff]; [|done].
  f_equal. rewrite (IH fuel) by lia. destruct (Nat.eq_dec (length (input r)) fuel) as [->|Hn]; [by rewrite (IH fuel) by lia|].
  symmetry. apply (IH (length (input r))); lia.
Qed.

(** What the loop's effects look like: pongs of control size, then at most one ending. *)
Definition ending_effects (l : list effect) : Prop :=
  l = [] \/ (exists reason, l = [Terminate reason])
  \/ (exists code reason, l = [RequestClose (close_code code) reason] /\ code ∈ [1002; 1008; 1009])
  \/ (exists body, l = [PeerClosed; RequestClose body ReasonPeer] /\ validClose body = true /\ llen body <= 125).

Lemma readFailure_ends e : ending_effects (readFailure e).
Proof.
  destruct e as [[]| |]; cbn [readFailure]; unfold ending_effects;
    try (right; left; by eexists); right; right; left; eexists _, _; (split; [done|]); rewrite !elem_of_cons; lia.
Qed.

Lemma handleFrame_effects state budget pong f : acceptable f ->
  match handleFrame state budget pong f with
  | (None, l) => ending_effects l
  | (Some _, l) => l = [] \/ exists body, l = [Pong body] /\ llen body <= 125
  end.
Proof.
  intros [_ _ Hc]. unfold handleFrame.
  assert (forall code reason, code ∈ [1002; 1008; 1009] -> ending_effects [RequestClose (close_code code) reason]) as Hr.
  { intros code reason H. right. right. left. by exists code, reason. }
  assert (1008 ∈ [1002; 1008; 1009] /\ 1002 ∈ [1002; 1008; 1009]) as [H8 H2] by (rewrite !elem_of_cons; lia).
  destruct budget; cbn [negb]; [|by apply Hr].
  destruct (opcode f =? 8) eqn:E8.
  { go_bool. destruct Hc as [_ Hl]; [lia|]. destruct (validClose _) eqn:Ev; cbn [negb]; [|by apply Hr].
    right. right. right. by exists (payload f). }
  destruct (opcode f =? 9) eqn:E9.
  { apply Z.eqb_eq in E9. destruct Hc as [_ Hl]; [lia|]. destruct pong; [|by left|by apply Hr]. right. by exists (payload f). }
  destruct (opcode f =? 10); [by left|]. destruct (accept state f) as [st [[]|e]]; [by left|apply readFailure_ends].
Qed.

(** The read loop of a connection terminates on every byte stream: one round per
    received byte and one more always suffice, and more change nothing. It answers pings
    with pongs of at most 125 bytes and then ends in exactly one way: silently because
    the connection was already gone, by dropping it, by closing with code 1002, 1008 or
    1009, or by echoing the peer's valid close frame; nothing is sent after that. *)
Theorem read_loop_ends env state r (Hbytes : Forall is_byte (input r)) :
  exists pongs last,
    (forall fuel, (length (input r) < fuel)%nat -> readLoop fuel env 0 state r = map Pong pongs ++ last)
    /\ Forall (fun body => llen body <= 125) pongs /\ ending_effects last.
Proof.
  assert (forall n r i state, length (input r) = n -> Forall is_byte (input r) -> exists pongs last,
    readLoop (S n) env i state r = map Pong pongs ++ last
    /\ Forall (fun body => llen body <= 125) pongs /\ ending_effects last) as H.
  { clear. intros n. induction n as [n IH] using lt_wf_ind. intros r i state Hn Hb. cbn [readLoop].
    destruct (readFrame r) as [[f r']|e] eqn:E.
    2:{ exists [], (readFailure e). split_and!; [done|constructor|apply readFailure_ends]. }
    pose proof (readFrame_consumes _ _ _ E) as Hl. destruct (readFrame_sound r f r' Hb E) as (_ & Ha & _ & m & _ & _ & Hi).
    pose proof (handleFrame_effects state (env i).1 (env i).2 f Ha) as Hh.
    destruct (handleFrame _ _ _ _) as [[st|] eff]; [|by exists [], eff].
    assert (Forall is_byte (input r')) as Hb' by (rewrite Hi in Hb; by apply Forall_app in Hb as [_ ?]).
    destruct (IH (length (input r')) ltac:(lia) r' (S i) st eq_refl Hb') as (pongs & last & Hr & Hp & Hd).
    rewrite (readLoop_fuel env n) by lia. rewrite Hr. destruct Hh as [->|(body & -> & Hbody)].
    - by exists pongs, last.
    - exists (body :: pongs), last. split_and!; [done|by constructor|done]. }
  destruct (H _ r 0%nat state eq_refl Hbytes) as (pongs & last & Hr & Hp & Hd). exists pongs, last.
  split_and!; [|done|done]. intros fuel Hf. by rewrite readLoop_fuel.
Qed.

Lemma read_loop_ends_witness :
  exists pongs last,
    readLoop 14 (fun _ => (true, PongQueued)) 0 (mkFragments 0 []) sample_reader = map Pong pongs ++ last
    /\ ending_effects last.
Proof.
  destruct (read_loop_ends (fun _ => (true, PongQueued)) (mkFragments 0 []) sample_reader
    ltac:(unfold is_byte; repeat constructor; vm_compute; discriminate)) as (pongs & last & H & _ & He).
  exists pongs, last. split; [apply H; vm_compute; repeat constructor|exact He].
Defined.
