(* ===== verification/FanoutService.v ===== *)
(** * Metrics stream: admission, the shared snapshot and its producer

    [internal/metricsfanout]: [admission.go] (handshake budgets and connection slots),
    [service.go] (the latest snapshot, its age, statistics, closing), [producer.go]
    (building and publishing generations) and the queue of [client.go].

    Every operation below holds the service's mutex from its first to its last access,
    so sequences of operations are all the interleavings there are. The clock readings
    [mono] ([clockNow], monotonic) and [wall] ([config.Now]) are arguments. The map of
    clients is keyed by an identifier of the connection, the map of addresses by the
    canonical address. *)

From S2P Require Import Prelude GoFloat GoText FanoutFrame.

(** 64-bit unsigned counters. *)
Definition u64 (z : Z) : Z := z mod 2 ^ 64.

(** ** types.go *)

Definition Cadence : Duration := 5 * Second.
Definition StaleWindow : Duration := 30 * Second.
Definition WriteTimeout : Duration := 5 * Second.
Definition MaximumSnapshotBytes : Z := Z.shiftl 8 20.
Definition GlobalConnections : Z := 1024.
Definition PerIPConnections : Z := 16.
Definition MaximumTrackedIPs : Z := 4096.
Definition GlobalHandshakeBurst : Z := 64.
Definition GlobalHandshakesPerSecond : Z := 32.
Definition PerIPHandshakeBurst : Z := 8.
Definition PerIPHandshakesPerSecond : Z := 1.
Definition ipRetention : Duration := 5 * Minute.

Inductive Reason :=
| ReasonNone | ReasonBuilder | ReasonEncoding | ReasonSnapshot | ReasonOversize | ReasonPanic | ReasonClosed
| ReasonOrigin | ReasonHandshake | ReasonInvalidIP | ReasonGlobalLimit | ReasonIPLimit | ReasonRate
| ReasonIPCapacity | ReasonCoalesced | ReasonStale.

#[export] Instance fanout_Reason_eq_dec : EqDecision Reason.
Proof. solve_decision. Defined.

Inductive EventKind := EventBuild | EventUpgrade | EventConnection | EventDrop | EventLag.
Record Event := mkEvent { ev_Kind : EventKind; ev_Reason : Reason; ev_Count : Z; ev_Duration : Duration }.

Record SnapshotInfo := mkSnapshotInfo {
  sn_Generation : Z; sn_Timestamp : Time; sn_Age : Duration; sn_Stale : bool; sn_Available : bool }.

Record Stats := mkStats {
  LastAttempt : Time; LastSuccess : Time; LastFailure : Time;
  Failure : Reason; ConsecutiveFailures : Z;
  Builds : Z; Failures : Z; SkippedCadences : Z; Dropped : Z;
  BuildDuration : Duration; SchedulerLag : Duration }.

(** ** service.go: the state *)

Record bucket := mkBucket { tokens : float64; bk_at : Time }.
Record ipEntry := mkIpEntry { en_bucket : bucket; en_reserved : Z; en_touched : Time }.

Record generation := mkGeneration {
  number : Z; ge_at : Time; storedAt : Time; initialAge : Duration; ge_payload : list Z; ge_frame : list Z }.

Record limits := mkLimits {
  li_global : Z; li_perIP : Z; li_tracked : Z;
  globalBurst : float64; globalRate : float64; ipBurst : float64; ipRate : float64 }.

(** The part of a connection the service touches: its queue of one generation. *)
Record client := mkClient { pending : option generation; admitted : bool }.

Record Service := mkService {
  sv_limits : limits;
  clients : gmap Z client;
  ips : gmap string ipEntry;
  global : bucket;
  reserved : Z;
  latest : option generation;
  stats : Stats;
  running : bool;
  closing : bool;
  canceled : bool;  (* s.ctx.Err() != nil *)
  observerFailed : bool;
  wallFloor : Time }.

Definition set_clients c (s : Service) := mkService (sv_limits s) c (ips s) (global s) (reserved s) (latest s) (stats s) (running s) (closing s) (canceled s) (observerFailed s) (wallFloor s).
Definition set_ips i (s : Service) := mkService (sv_limits s) (clients s) i (global s) (reserved s) (latest s) (stats s) (running s) (closing s) (canceled s) (observerFailed s) (wallFloor s).
Definition set_global b (s : Service) := mkService (sv_limits s) (clients s) (ips s) b (reserved s) (latest s) (stats s) (running s) (closing s) (canceled s) (observerFailed s) (wallFloor s).
Definition set_reserved r (s : Service) := mkService (sv_limits s) (clients s) (ips s) (global s) r (latest s) (stats s) (running s) (closing s) (canceled s) (observerFailed s) (wallFloor s).
Definition set_latest l (s : Service) := mkService (sv_limits s) (clients s) (ips s) (global s) (reserved s) l (stats s) (running s) (closing s) (canceled s) (observerFailed s) (wallFloor s).
Definition set_stats t (s : Service) := mkService (sv_limits s) (clients s) (ips s) (global s) (reserved s) (latest s) t (running s) (closing s) (canceled s) (observerFailed s) (wallFloor s).
Definition set_running r (s : Service) := mkService (sv_limits s) (clients s) (ips s) (global s) (reserved s) (latest s) (stats s) r (closing s) (canceled s) (observerFailed s) (wallFloor s).
Definition set_closing c (s : Service) := mkService (sv_limits s) (clients s) (ips s) (global s) (reserved s) (latest s) (stats s) (running s) c c (observerFailed s) (wallFloor s).
Definition set_observerFailed (s : Service) := mkService (sv_limits s) (clients s) (ips s) (global s) (reserved s) (latest s) (stats s) (running s) (closing s) true true (wallFloor s).
Definition set_wallFloor t (s : Service) := mkService (sv_limits s) (clients s) (ips s) (global s) (reserved s) (latest s) (stats s) (running s) (closing s) (canceled s) (observerFailed s) t.

Definition default_limits : limits :=
  mkLimits GlobalConnections PerIPConnections MaximumTrackedIPs (f_of_Z GlobalHandshakeBurst)
    (f_of_Z GlobalHandshakesPerSecond) (f_of_Z PerIPHandshakeBurst) (f_of_Z PerIPHandshakesPerSecond).

Definition zero_stats : Stats := mkStats 0 0 0 ReasonNone 0 0 0 0 0 0 0.

(** [New] on a configuration whose three callbacks are set. *)
Definition New (mono wall : Time) : Service :=
  mkService default_limits ∅ ∅ (mkBucket (globalBurst default_limits) mono) 0 None zero_stats
    false false false false wall.

(** ** admission.go *)

Definition take_token (b : bucket) (now : Time) (burst rate : float64) : bool * bucket :=
  let elapsed := Seconds (Sub now (bk_at b)) in
  let b := if (f_of_Z 0 < elapsed)%f64
           then let t := (tokens b + elapsed * rate)%f64 in mkBucket (if (burst < t)%f64 then burst else t) now
           else b in
  if (tokens b < f_one)%f64 then (false, b) else (true, mkBucket (tokens b - f_one)%f64 (bk_at b)).

Definition pruneIPs (now : Time) (m : gmap string ipEntry) : gmap string ipEntry :=
  filter (fun kv => negb ((en_reserved kv.2 =? 0) && (Sub now (en_touched kv.2) >=? ipRetention)) = true) m.

(** The entry of an address, made when it has none and the table has room; without
    room, the pruned state. *)
Definition entryFor (ip : string) (mono : Time) (s : Service) : result Service (Service * ipEntry) :=
  match ips s !! ip with
  | Some entry => Ok (s, entry)
  | None =>
      let s := set_ips (pruneIPs mono (ips s)) s in
      if Z.of_nat (size (ips s)) >=? li_tracked (sv_limits s) then Err s
      else let entry := mkIpEntry (mkBucket (ipBurst (sv_limits s)) mono) 0 0 in
           Ok (set_ips (<[ip := entry]> (ips s)) s, entry)
  end.

Section admission.
(** [canonicalIP]: [netip]'s parser followed by unmapping and dropping the zone. *)
Variable canonicalIP : string -> option string.

Definition reserve (value : string) (mono : Time) (s : Service) : Service * result Reason string :=
  if closing s || canceled s then (s, Err ReasonClosed) else
  let lim := sv_limits s in
  let (ok, b) := take_token (global s) mono (globalBurst lim) (globalRate lim) in
  let s := set_global b s in
  if negb ok then (s, Err ReasonRate) else
  match canonicalIP value with
  | None => (s, Err ReasonInvalidIP)
  | Some ip =>
      match entryFor ip mono s with
      | Err s => (s, Err ReasonIPCapacity)
      | Ok (s, entry) =>
          let (ok, b) := take_token (en_bucket entry) mono (ipBurst lim) (ipRate lim) in
          let entry := mkIpEntry b (en_reserved entry) mono in
          let s := set_ips (<[ip := entry]> (ips s)) s in
          if negb ok then (s, Err ReasonRate) else
          if reserved s >=? li_global lim then (s, Err ReasonGlobalLimit) else
          if en_reserved entry >=? li_perIP lim then (s, Err ReasonIPLimit) else
          let entry := mkIpEntry b (en_reserved entry + 1) mono in
          (s |> set_ips (<[ip := entry]> (ips s)) |> set_reserved (reserved s + 1), Ok ip)
      end
  end.
End admission.

(** [admission.release] of a ticket for [ip]; [released] is the ticket's flag. A nil
    entry would make the code panic: that outcome is [None]. *)
Definition release (ip : string) (released : bool) (mono : Time) (s : Service) : option (Service * bool) :=
  if released then Some (s, true) else
  let s := set_reserved (reserved s - 1) s in
  match ips s !! ip with
  | None => None
  | Some entry => Some (set_ips (<[ip := mkIpEntry (en_bucket entry) (en_reserved entry - 1) mono]> (ips s)) s, true)
  end.

(** ** service.go *)

Definition effectiveNowLocked (wall : Time) (s : Service) : Service * Time :=
  let s := if After wall (wallFloor s) then set_wallFloor wall s else s in
  (s, wallFloor s).

Definition ageLocked (mono wall : Time) (value : generation) (s : Service) : Service * Duration :=
  let (s, now) := effectiveNowLocked wall s in
  let age := Sub now (ge_at value) in
  let monotonic := wrap64 (Sub mono (storedAt value) + initialAge value) in
  let age := if monotonic >? age then monotonic else age in
  (s, if age <? 0 then 0 else age).

Definition snapshotInfo (mono wall : Time) (s : Service) : Service * SnapshotInfo :=
  match latest s with
  | None => (s, mkSnapshotInfo 0 0 0 false false)
  | Some value =>
      let (s, age) := ageLocked mono wall value s in
      (s, mkSnapshotInfo (number value) (ge_at value) age
            ((age >? StaleWindow) || (ConsecutiveFailures (stats s) >? 0)) (age <=? StaleWindow))
  end.

Definition Latest (mono wall : Time) (s : Service) : Service * SnapshotInfo * option (list Z) :=
  let (s, info) := snapshotInfo mono wall s in
  if negb (sn_Available info) then (s, info, None)
  else (s, info, ge_payload <$> latest s).

(** The public statistics: the counters, and the figures read at the call. *)
Record StatsView := mkStatsView {
  Running : bool; Closed : bool; ObserverFailed : bool;
  Connections : Z; Reserved : Z; TrackedIPs : Z; Generation : SnapshotInfo; counters : Stats }.

Definition ServiceStats (mono wall : Time) (s : Service) : Service * StatsView :=
  let connections := Z.of_nat (size (filter (fun kv : Z * client => admitted kv.2 = true) (clients s))) in
  let (s', info) := snapshotInfo mono wall s in
  (s', mkStatsView (running s) (closing s) (observerFailed s) connections (reserved s) (Z.of_nat (size (ips s))) info (stats s)).

(** [emit]: the observer is a function that may panic ([true]); a panic is recovered,
    disables the observer and cancels the service. [log] collects delivered events. *)
Definition emit (observer : option (Event -> bool)) (event : Event) (sl : Service * list Event) : Service * list Event :=
  let (s, log) := sl in
  match observer with
  | None => (s, log)
  | Some panics =>
      if observerFailed s then (s, log)
      else (if panics event then set_observerFailed s else s, log ++ [event])
  end.

(** The state part of [Close]; a second call does nothing ([sync.Once]). *)
Definition Close (s : Service) : Service := set_closing true s.

(** ** client.go *)

(** [enqueue]: the queue holds one generation. The new one always ends up queued: a
    queued older one is dropped here, or, when [drained], the writer goroutine took it
    between the two [select]s. The result says whether one was dropped. *)
Definition enqueue (drained : bool) (value : generation) (c : client) : client * bool :=
  match pending c with
  | None => (mkClient (Some value) (admitted c), false)
  | Some _ => (mkClient (Some value) (admitted c), negb drained)
  end.

Definition attach (id : Z) (mono wall : Time) (s : Service) : Service * bool :=
  if closing s || canceled s then (s, false) else
  let c := mkClient None false in
  match latest s with
  | None => (set_clients (<[id := c]> (clients s)) s, true)
  | Some value =>
      let (s, age) := ageLocked mono wall value s in
      let c := if age <=? StaleWindow then (enqueue false value c).1 else c in
      (set_clients (<[id := c]> (clients s)) s, true)
  end.

Definition detach (id : Z) (s : Service) : Service := set_clients (delete id (clients s)) s.

(** [writeGeneration] after its generation was taken from the queue: a stale one is
    dropped; otherwise the frame goes out with a deadline that ends when it turns stale. *)
Definition writeGeneration (mono wall : Time) (value : generation) (s : Service)
    : Service * option (list Z * Duration) :=
  let (s, age) := ageLocked mono wall value s in
  if age >=? StaleWindow then
    let t := stats s in
    (set_stats (mkStats (LastAttempt t) (LastSuccess t) (LastFailure t) (Failure t) (ConsecutiveFailures t)
                 (Builds t) (Failures t) (SkippedCadences t) (u64 (Dropped t + 1)) (BuildDuration t) (SchedulerLag t)) s, None)
  else
    let remaining := StaleWindow - age in
    let timeout := if remaining <? WriteTimeout then remaining else WriteTimeout in
    (s, Some (ge_frame value, timeout)).

(** ** producer.go *)

Inductive RunError := ErrClosed | ErrRunning | ErrBuilderPanic | ErrObserverPanic.

Definition beginRun (s : Service) : Service * result RunError unit :=
  if closing s || canceled s then (s, Err ErrClosed)
  else if running s then (s, Err ErrRunning)
  else (set_running true s, Ok tt).

Definition endRun (s : Service) : Service := set_running false s.

(** [wall] and [later] are the two readings of the clock, in this order. *)
Definition validTimestamp (at_ wall later : Time) (s : Service) : Service * bool :=
  let (s, now) := effectiveNowLocked wall s in
  if IsZero at_ || After at_ (Add later Second) || (Sub now at_ >? StaleWindow) then (s, false)
  else (s, match latest s with None => true | Some l => After at_ (ge_at l) end).

(** What one call of the configured builder did: it panicked, failed (or its context
    ended), or returned a snapshot, whose value may be nil and is then encoded; [late]
    says whether the context had ended after encoding. *)
Inductive Encoded := EncodePanic | EncodeError | Encode (body : list Z).
Inductive BuildOutcome :=
| BuildPanic
| BuildFailed
| BuildSnapshot (at_ : Time) (value_nil : bool) (json : Encoded) (late : bool).

(** The text frame is built once; the payload is its tail. *)
Definition newGeneration (at_ : Time) (body : list Z) : generation :=
  let frame := serverFrame 1 body in
  mkGeneration 0 at_ 0 0 (drop (length frame - length body) frame) frame.

Definition construct (outcome : BuildOutcome) (wall later : Time) (s : Service)
    : Service * option generation * Reason * option RunError :=
  match outcome with
  | BuildPanic => (s, None, ReasonPanic, Some ErrBuilderPanic)
  | BuildFailed => (s, None, ReasonBuilder, None)
  | BuildSnapshot at_ value_nil json late =>
      let (s, ok) := validTimestamp at_ wall later s in
      if negb ok || value_nil then (s, None, ReasonSnapshot, None) else
      match json with
      | EncodePanic => (s, None, ReasonPanic, Some ErrBuilderPanic)
      | EncodeError => (s, None, ReasonEncoding, None)
      | Encode body =>
          if late then (s, None, ReasonBuilder, None) else
          if llen body >? MaximumSnapshotBytes then (s, None, ReasonOversize, None) else
          if bool_decide (body = bytes "null") then (s, None, ReasonSnapshot, None) else
          (s, Some (newGeneration at_ body), ReasonNone, None)
      end
  end.

Definition recordBuild (start end_ : Time) (duration : Duration) (reason : Reason) (s : Service) : Service :=
  let t := stats s in
  let slow := duration >=? Cadence in
  let skipped := if slow then u64 (SkippedCadences t + Z.quot duration Cadence) else SkippedCadences t in
  let lag := if slow then duration - Cadence else 0 in
  set_stats
    (if decide (reason = ReasonNone)
     then mkStats start end_ (LastFailure t) ReasonNone 0 (u64 (Builds t + 1)) (Failures t) skipped (Dropped t) duration lag
     else mkStats start (LastSuccess t) end_ reason (u64 (ConsecutiveFailures t + 1)) (u64 (Builds t + 1))
            (u64 (Failures t + 1)) skipped (Dropped t) duration lag) s.

(** [drained id]: the writer of client [id] emptied its queue during [enqueue]. *)
Definition publish (observer : option (Event -> bool)) (drained : Z -> bool) (value : generation) (mono wall : Time)
    (sl : Service * list Event) : Service * list Event :=
  let (s, log) := sl in
  if closing s || canceled s then (s, log) else
  let (s, now) := effectiveNowLocked wall s in
  let age := Sub now (ge_at value) in
  let value := mkGeneration (match latest s with None => 1 | Some l => u64 (number l + 1) end)
                 (ge_at value) mono (if age <? 0 then 0 else age) (ge_payload value) (ge_frame value) in
  let dropped := Z.of_nat (size (filter (fun kv : Z * client => (enqueue (drained kv.1) value kv.2).2 = true) (clients s))) in
  let s := s |> set_latest (Some value) |> set_clients (map_imap (fun id c => Some (enqueue (drained id) value c).1) (clients s)) in
  let t := stats s in
  let s := set_stats (mkStats (LastAttempt t) (LastSuccess t) (LastFailure t) (Failure t) (ConsecutiveFailures t)
             (Builds t) (Failures t) (SkippedCadences t) (u64 (Dropped t + dropped)) (BuildDuration t) (SchedulerLag t)) s in
  if dropped >? 0 then emit observer (mkEvent EventDrop ReasonCoalesced dropped 0) (s, log) else (s, log).

(** [build], from the clock readings at its start and end; [parent_done] says whether
    the producer's context had ended before, and after, the builder ran. *)
Record BuildClock := mkBuildClock {
  wall_start : Time; mono_start : Time; wall_check : Time; wall_later : Time; wall_end : Time; mono_end : Time;
  mono_publish : Time; wall_publish : Time; parent_before : bool; parent_after : bool }.

Definition build (observer : option (Event -> bool)) (drained : Z -> bool) (clock : BuildClock) (outcome : BuildOutcome)
    (sl : Service * list Event) : Service * list Event * option RunError :=
  if parent_before clock then (sl, None) else
  let (s, log) := sl in
  let '(s, value, reason, err) := construct outcome (wall_check clock) (wall_later clock) s in
  if parent_after clock then ((s, log), None) else
  let duration := Sub (mono_end clock) (mono_start clock) in
  let duration := if duration <? 0 then 0 else duration in
  let s := recordBuild (wall_start clock) (wall_end clock) duration reason s in
  let sl := match reason, value with
            | ReasonNone, Some value => publish observer drained value (mono_publish clock) (wall_publish clock) (s, log)
            | _, _ => (s, log)
            end in
  let sl := emit observer (mkEvent EventBuild reason 1 duration) sl in
  let sl := if duration >=? Cadence
            then emit observer (mkEvent EventLag ReasonNone (Z.quot duration Cadence) (duration - Cadence)) sl else sl in
  (sl, if observerFailed sl.1 then Some ErrObserverPanic else err).

(** ** Run

    What the producer's [select] received: the end of its context, the end of the
    ticker, or a tick, with what the build it may start will meet and the clock after
    it. [None]: the received events are used up and the producer is still waiting. *)

Inductive Received :=
| ContextDone
| TicksClosed
| Tick (tick : Time) (clock : BuildClock) (drained : Z -> bool) (outcome : BuildOutcome) (after : Time).

Fixpoint run_loop (observer : option (Event -> bool)) (lastEnd : Time) (received : list Received)
    (sl : Service * list Event) : Service * list Event * option (option RunError) :=
  match received with
  | [] => (sl, None)
  | ContextDone :: _ => (sl, Some (if observerFailed sl.1 then Some ErrObserverPanic else None))
  | TicksClosed :: _ => (sl, Some (Some ErrClosed))
  | Tick tick clock drained outcome after :: rest =>
      if negb (After tick lastEnd) then run_loop observer lastEnd rest sl else
      let (sl, err) := build observer drained clock outcome sl in
      match err with
      | Some err => (sl, Some (Some err))
      | None => run_loop observer after rest sl
      end
  end.

Definition Run (observer : option (Event -> bool)) (first : BuildClock * (Z -> bool) * BuildOutcome * Time)
    (received : list Received) (sl : Service * list Event) : Service * list Event * option (option RunError) :=
  let (s, log) := sl in
  match beginRun s with
  | (s, Err err) => ((s, log), Some (Some err))
  | (s, Ok _) =>
      let '(clock, drained, outcome, after) := first in
      let (sl, err) := build observer drained clock outcome (s, log) in
      let '(sl, out) := match err with
                        | Some err => (sl, Some (Some err))
                        | None => run_loop observer after received sl
                        end in
      match out with
      | None => (sl, None)
      | Some _ => ((endRun sl.1, sl.2), out)
      end
  end.
