(* ===== verification/FanoutInvariant.v ===== *)
(** * Correctness of the metrics stream

    Along every interleaving of handshakes, disconnections, builds, publications,
    deliveries and closing: connection slots equal the tickets that are out and stay
    within their limits, releasing never meets a missing address entry, published
    generations are numbered and ordered without gaps, a connection is only ever handed
    published generations and never a stale one. *)

From S2P Require Import Prelude GoFloat GoText FanoutFrame FanoutService.

(** ** Slots *)

Abbreviation ticket := (string * bool)%type (only parsing).

Definition outstanding (tickets : list ticket) : Z := llen (filter (fun t : ticket => t.2 = false) tickets).
Definition outstanding_at (ip : string) (tickets : list ticket) : Z :=
  llen (filter (fun t : ticket => t.2 = false /\ t.1 = ip) tickets).
Definition slots (m : gmap string ipEntry) (ip : string) : Z :=
  match m !! ip with Some entry => en_reserved entry | None => 0 end.

Record slots_ok (s : Service) (tickets : list ticket) : Prop := {
  so_limits : sv_limits s = default_limits;
  so_total : reserved s = outstanding tickets;
  so_each : forall ip, slots (ips s) ip = outstanding_at ip tickets;
  so_global : reserved s <= GlobalConnections;
  so_perIP : forall ip, slots (ips s) ip <= PerIPConnections;
  so_tracked : Z.of_nat (size (ips s)) <= MaximumTrackedIPs }.

Lemma outstanding_at_nonneg ip tickets : 0 <= outstanding_at ip tickets.
Proof. apply llen_nonneg. Qed.

Lemma slots_insert m ip entry ip' :
  slots (<[ip := entry]> m) ip' = if decide (ip = ip') then en_reserved entry else slots m ip'.
Proof. unfold slots. destruct (decide (ip = ip')) as [->|Hn]; by simplify_map_eq. Qed.

(** Pruning forgets only addresses that hold no slot. *)
Lemma slots_prune now m ip : slots (pruneIPs now m) ip = slots m ip.
Proof.
  unfold slots, pruneIPs. rewrite map_lookup_filter. destruct (m !! ip) as [entry|]; [|done]. cbn.
  destruct (en_reserved entry =? 0) eqn:E; cbn; [|by rewrite option_guard_True].
  apply Z.eqb_eq in E. case_guard; cbn; done.
Qed.

Lemma prune_lookup now m ip : m !! ip = None -> pruneIPs now m !! ip = None.
Proof. intros H. unfold pruneIPs. rewrite map_lookup_filter, H. done. Qed.

Lemma prune_size now m : (size (pruneIPs now m) <= size m)%nat.
Proof. unfold pruneIPs. rewrite <- !size_dom. apply subseteq_size, dom_filter_subseteq. Qed.

(** An insertion that keeps the address's count, within the table bound. *)
Lemma slots_ok_touch s tickets ip entry b :
  slots_ok s tickets -> en_reserved entry = slots (ips s) ip ->
  Z.of_nat (size (<[ip := entry]> (ips s))) <= MaximumTrackedIPs ->
  slots_ok (s |> set_global b |> set_ips (<[ip := entry]> (ips s))) tickets.
Proof.
  intros [Hl Ht He Hg Hp Hs] Hr Hsz. split; cbn; try done.
  - intros ip'. rewrite slots_insert. case_decide; [subst|]; by rewrite ?Hr.
  - intros ip'. rewrite slots_insert. case_decide; [subst; rewrite Hr|]; done.
Qed.

Lemma slots_ok_prune s tickets now : slots_ok s tickets -> slots_ok (set_ips (pruneIPs now (ips s)) s) tickets.
Proof.
  intros [Hl Ht He Hg Hp Hs]. split; cbn; try done.
  - intros ip. by rewrite slots_prune.
  - intros ip. by rewrite slots_prune.
  - pose proof (prune_size now (ips s)). lia.
Qed.

Lemma slots_ok_global s tickets b : slots_ok s tickets -> slots_ok (set_global b s) tickets.
Proof. intros []. by split. Qed.

Lemma slots_ok_ticket s tickets ip entry :
  slots_ok s tickets -> ips s !! ip <> None -> en_reserved entry = slots (ips s) ip + 1 ->
  reserved s < GlobalConnections -> slots (ips s) ip < PerIPConnections ->
  slots_ok (s |> set_ips (<[ip := entry]> (ips s)) |> set_reserved (reserved s + 1)) (tickets ++ [(ip, false)]).
Proof.
  intros [Hl Ht He Hg Hp Hs] Hin Hr Hlt Hlt'. split; cbn [sv_limits ips reserved set_ips set_reserved].
  - done.
  - rewrite Ht. unfold outstanding. rewrite llen_filter_app, llen_filter_one. unfold indicator. by rewrite decide_True.
  - intros ip'. rewrite slots_insert. unfold outstanding_at. rewrite llen_filter_app, llen_filter_one. unfold indicator.
    cbn [fst snd]. destruct (decide (ip = ip')) as [->|Hn].
    + rewrite decide_True by done. rewrite Hr, He. done.
    + rewrite decide_False by naive_solver. rewrite He. unfold outstanding_at. lia.
  - lia.
  - intros ip'. rewrite slots_insert. case_decide; [lia|done].
  - destruct (ips s !! ip) as [e|] eqn:E; [|done]. by rewrite map_size_insert_Some by by eexists.
Qed.

Lemma entryFor_slots ip mono s tickets : slots_ok s tickets ->
  match entryFor ip mono s with
  | Ok (s', entry) => slots_ok s' tickets /\ ips s' !! ip = Some entry
  | Err s' => slots_ok s' tickets
  end.
Proof.
  intros Hok. unfold entryFor. destruct (ips s !! ip) as [entry|] eqn:E; [done|].
  apply (slots_ok_prune _ _ mono) in Hok. set (s2 := set_ips _ s) in *. cbn zeta.
  destruct (_ >=? _) eqn:Es; [done|]. set (entry := mkIpEntry _ 0 0). split; [|cbn; by rewrite lookup_insert_eq].
  assert (ips s2 !! ip = None) as Hn by (cbn; by apply prune_lookup).
  replace (set_ips (<[ip := entry]> (ips s2)) s2) with (s2 |> set_global (global s2) |> set_ips (<[ip := entry]> (ips s2))) by done.
  apply slots_ok_touch; [done|unfold slots; by rewrite Hn|].
  rewrite map_size_insert_None by done. rewrite (so_limits _ _ Hok) in Es. change (li_tracked default_limits) with 4096 in Es.
  unfold MaximumTrackedIPs. rewrite Z.geb_leb in Es. apply Z.leb_gt in Es. lia.
Qed.

Lemma reserve_slots canonicalIP value mono s tickets s' out :
  slots_ok s tickets -> reserve canonicalIP value mono s = (s', out) ->
  slots_ok s' (tickets ++ match out with Ok ip => [(ip, false)] | Err _ => [] end).
Proof.
  intros Hok H. unfold reserve in H. rewrite (so_limits _ _ Hok) in H.
  destruct (closing s || canceled s); [simplify_eq; by rewrite app_nil_r|].
  destruct (take_token _ _ _ _) as [ok b]. apply (slots_ok_global _ _ b) in Hok. set (s1 := set_global b s) in *.
  destruct (negb ok); [simplify_eq; by rewrite app_nil_r|].
  destruct (canonicalIP value) as [ip|]; [|simplify_eq; by rewrite app_nil_r].
  pose proof (entryFor_slots ip mono s1 tickets Hok) as Hent.
  destruct (entryFor ip mono s1) as [[s2 entry]|s2]; [destruct Hent as [Hok2 Hin]|simplify_eq; by rewrite app_nil_r].
  destruct (take_token (en_bucket entry) _ _ _) as [ok2 b2].
  set (entry2 := mkIpEntry b2 (en_reserved entry) mono) in *. set (s3 := set_ips (<[ip := entry2]> (ips s2)) s2) in *.
  assert (slots_ok s3 tickets) as Hok3.
  { replace s3 with (s2 |> set_global (global s2) |> set_ips (<[ip := entry2]> (ips s2))) by done.
    apply slots_ok_touch; [done|unfold slots; by rewrite Hin|].
    rewrite map_size_insert_Some by by eexists. apply (so_tracked _ _ Hok2). }
  destruct (negb ok2); [simplify_eq; by rewrite app_nil_r|].
  destruct (reserved s3 >=? _) eqn:Eg; [simplify_eq; by rewrite app_nil_r|].
  destruct (en_reserved entry2 >=? _) eqn:Ep; [simplify_eq; by rewrite app_nil_r|].
  rewrite Z.geb_leb in Eg, Ep. apply Z.leb_gt in Eg, Ep. injection H as <- <-.
  assert (slots (ips s3) ip = en_reserved entry2) as Hsl by (unfold slots; cbn; by rewrite lookup_insert_eq).
  apply (slots_ok_ticket s3 tickets ip (mkIpEntry b2 (en_reserved entry2 + 1) mono)); [done|cbn; by rewrite lookup_insert_eq| | |].
  - by rewrite Hsl.
  - exact Eg.
  - rewrite Hsl. exact Ep.
Qed.

(** An unreleased ticket's address has an entry, so [release] is defined on it. *)
Lemma release_slots s tickets i ip released mono :
  slots_ok s tickets -> tickets !! i = Some (ip, released) ->
  exists s', release ip released mono s = Some (s', true) /\ slots_ok s' (<[i := (ip, true)]> tickets).
Proof.
  intros Hok Hi. unfold release. destruct released.
  { exists s. split; [done|]. by rewrite list_insert_id. }
  pose proof Hok as [Hl Ht He Hg Hp Hs]. cbn [ips set_reserved].
  pose proof (llen_filter_insert (fun t : ticket => t.2 = false /\ t.1 = ip) tickets i _ (ip, true) Hi) as Hc.
  unfold indicator in Hc. rewrite decide_True, decide_False in Hc by naive_solver.
  pose proof (outstanding_at_nonneg ip (<[i := (ip, true)]> tickets)) as Hn.
  assert (0 < slots (ips s) ip) as Hpos by (rewrite He; unfold outstanding_at in *; lia).
  unfold slots in Hpos. destruct (ips s !! ip) as [entry|] eqn:E; [|lia].
  eexists. split; [done|]. split; cbn [sv_limits ips reserved set_ips set_reserved].
  - done.
  - rewrite Ht. unfold outstanding. rewrite (llen_filter_insert _ _ _ _ _ Hi). unfold indicator. cbn.
    rewrite decide_True, decide_False by done. lia.
  - intros ip'. rewrite slots_insert. cbn [en_reserved]. unfold outstanding_at in *.
    rewrite (llen_filter_insert _ _ _ _ _ Hi). unfold indicator. cbn [fst snd].
    rewrite (decide_False (P := true = false /\ ip = ip')) by naive_solver.
    specialize (He ip'). unfold slots in He. destruct (decide (ip = ip')) as [->|Hne].
    + rewrite E in He. rewrite decide_True by done. lia.
    + rewrite decide_False by naive_solver. unfold slots. lia.
  - lia.
  - intros ip'. rewrite slots_insert. cbn [en_reserved]. case_decide; [|done]. subst.
    specialize (Hp ip'). unfold slots in Hp. rewrite E in Hp. lia.
  - by rewrite map_size_insert_Some by by eexists.
Qed.

(** ** The whole stream

    The service, the tickets it has handed out, the generation the producer has built
    and not yet published, and two histories: the generations published so far and the
    ones each connection's writer has taken from its queue. *)

Record Stream := mkStream {
  service : Service;
  tickets : list ticket;
  held : option generation;
  published : list generation;
  delivered : list (Z * generation) }.

Section stream.
Context (canonicalIP : string -> option string) (observer : option (Event -> bool)).

(** One critical section of one goroutine. A connection's identifier is new when it is
    attached; the producer publishes what it built last, once. *)
Inductive stream_step : Stream -> Stream -> Prop :=
| StReserve x value mono s out :
    reserve canonicalIP value mono (service x) = (s, out) ->
    stream_step x (mkStream s (tickets x ++ match out with Ok ip => [(ip, false)] | Err _ => [] end)
                     (held x) (published x) (delivered x))
| StRelease x i ip released mono s flag :
    tickets x !! i = Some (ip, released) -> release ip released mono (service x) = Some (s, flag) ->
    stream_step x (mkStream s (<[i := (ip, flag)]> (tickets x)) (held x) (published x) (delivered x))
| StAttach x id mono wall s ok :
    clients (service x) !! id = None -> (forall g, (id, g) ∉ delivered x) ->
    attach id mono wall (service x) = (s, ok) ->
    stream_step x (mkStream s (tickets x) (held x) (published x) (delivered x))
| StDetach x id :
    stream_step x (mkStream (detach id (service x)) (tickets x) (held x) (published x) (delivered x))
| StTake x id c g :
    clients (service x) !! id = Some c -> pending c = Some g ->
    stream_step x (mkStream (set_clients (<[id := mkClient None (admitted c)]> (clients (service x))) (service x))
                     (tickets x) (held x) (published x) (delivered x ++ [(id, g)]))
| StAdmitted x id c :
    clients (service x) !! id = Some c ->
    stream_step x (mkStream (set_clients (<[id := mkClient (pending c) true]> (clients (service x))) (service x))
                     (tickets x) (held x) (published x) (delivered x))
| StConstruct x outcome wall later s value reason err :
    construct outcome wall later (service x) = (s, value, reason, err) ->
    stream_step x (mkStream s (tickets x) value (published x) (delivered x))
| StRecord x start end_ duration reason :
    stream_step x (mkStream (recordBuild start end_ duration reason (service x)) (tickets x) (held x)
                     (published x) (delivered x))
| StPublish x drained value mono wall log s log' :
    held x = Some value -> publish observer drained value mono wall (service x, log) = (s, log') ->
    stream_step x (mkStream s (tickets x) None
                     (if closing (service x) || canceled (service x) then published x
                      else published x ++ match latest s with Some g => [g] | None => [] end) (delivered x))
| StEmit x event log :
    stream_step x (mkStream (emit observer event (service x, log)).1 (tickets x) (held x) (published x) (delivered x))
| StInfo x mono wall :
    stream_step x (mkStream (snapshotInfo mono wall (service x)).1 (tickets x) (held x) (published x) (delivered x))
| StWrite x mono wall g :
    stream_step x (mkStream (writeGeneration mono wall g (service x)).1 (tickets x) (held x) (published x) (delivered x))
| StClose x :
    stream_step x (mkStream (Close (service x)) (tickets x) (held x) (published x) (delivered x))
| StBegin x :
    stream_step x (mkStream (beginRun (service x)).1 (tickets x) (held x) (published x) (delivered x))
| StEnd x :
    stream_step x (mkStream (endRun (service x)) (tickets x) (held x) (published x) (delivered x)).

Definition stream_start (mono wall : Time) : Stream := mkStream (New mono wall) [] None [] [].

(** ** What the other operations leave alone *)

(** Same slots, and same slots, snapshot and connections. *)
Definition same_slots (s s' : Service) : Prop :=
  sv_limits s' = sv_limits s /\ ips s' = ips s /\ reserved s' = reserved s.
Definition same_state (s s' : Service) : Prop :=
  same_slots s s' /\ latest s' = latest s /\ clients s' = clients s.

Lemma same_state_refl s : same_state s s.
Proof. done. Qed.

Lemma same_state_trans s1 s2 s3 : same_state s1 s2 -> same_state s2 s3 -> same_state s1 s3.
Proof. unfold same_state, same_slots. intuition congruence. Qed.

Lemma effectiveNow_same wall s : same_state s (effectiveNowLocked wall s).1.
Proof. unfold effectiveNowLocked. by destruct (After _ _). Qed.

Lemma age_same mono wall g s : same_state s (ageLocked mono wall g s).1.
Proof.
  unfold ageLocked. pose proof (effectiveNow_same wall s). by destruct (effectiveNowLocked wall s).
Qed.

Lemma snapshotInfo_same mono wall s : same_state s (snapshotInfo mono wall s).1.
Proof.
  unfold snapshotInfo. destruct (latest s) as [g|]; [|done].
  pose proof (age_same mono wall g s). by destruct (ageLocked mono wall g s).
Qed.

Lemma writeGeneration_same mono wall g s : same_state s (writeGeneration mono wall g s).1.
Proof.
  unfold writeGeneration. pose proof (age_same mono wall g s) as H.
  destruct (ageLocked mono wall g s) as [s' age]. by destruct (age >=? StaleWindow).
Qed.

Lemma validTimestamp_same at_ wall later s : same_state s (validTimestamp at_ wall later s).1.
Proof.
  unfold validTimestamp. pose proof (effectiveNow_same wall s) as H.
  destruct (effectiveNowLocked wall s) as [s' now]. by destruct (_ || _).
Qed.

Lemma emit_same event s log : same_state s (emit observer event (s, log)).1.
Proof. unfold emit. destruct observer; [|done]. destruct (observerFailed s); [done|]. by destruct (b event). Qed.

Lemma recordBuild_same start end_ duration reason s : same_state s (recordBuild start end_ duration reason s).
Proof. unfold recordBuild. by destruct (decide _). Qed.

Lemma beginRun_same s : same_state s (beginRun s).1.
Proof. unfold beginRun. destruct (_ || _); [done|]. by destruct (running s). Qed.

Lemma slots_ok_same s s' ts : same_slots s s' -> slots_ok s ts -> slots_ok s' ts.
Proof. intros (H1 & H2 & H3) []. split; congruence || (intros; rewrite ?H1, ?H2, ?H3; auto). Qed.

(** A valid timestamp is later than the latest generation's. *)
Lemma validTimestamp_after at_ wall later s : (validTimestamp at_ wall later s).2 = true ->
  forall l, latest s = Some l -> ge_at l < at_.
Proof.
  unfold validTimestamp. pose proof (effectiveNow_same wall s) as (_ & Hl & _).
  destruct (effectiveNowLocked wall s) as [s' now]. cbn [fst] in Hl. destruct (_ || _); [done|]. cbn [snd].
  rewrite Hl. intros H l E. rewrite E in H. by apply Z.ltb_lt in H.
Qed.

Lemma serverFrame_suffix op body : exists header, serverFrame op body = header ++ body.
Proof. unfold serverFrame. by eexists (_ :: _). Qed.

(** What is true of a generation that [construct] returns. *)
Definition well_built (g : generation) : Prop :=
  ge_frame g = serverFrame 1 (ge_payload g) /\ llen (ge_payload g) <= MaximumSnapshotBytes
  /\ ge_payload g <> bytes "null".

Lemma newGeneration_ok at_ body : llen body <= MaximumSnapshotBytes -> body <> bytes "null" ->
  well_built (newGeneration at_ body).
Proof.
  intros Hl Hn. destruct (serverFrame_suffix 1 body) as [h Hh].
  assert (drop (length (serverFrame 1 body) - length body) (serverFrame 1 body) = body) as Hd.
  { rewrite Hh, length_app, Nat.add_sub. by rewrite drop_app_length. }
  unfold well_built, newGeneration. cbn zeta. cbn [ge_frame ge_payload]. by rewrite Hd.
Qed.

Lemma construct_ok outcome wall later s s' value reason err :
  construct outcome wall later s = (s', value, reason, err) ->
  same_state s s' /\ (reason = ReasonNone <-> value <> None)
  /\ forall g, value = Some g -> well_built g /\ err = None /\ forall l, latest s = Some l -> ge_at l < ge_at g.
Proof.
  unfold construct. destruct outcome as [| |at_ vn json late]; [intros [= <- <- <- <-]; done..|].
  pose proof (validTimestamp_same at_ wall later s) as Hs. pose proof (validTimestamp_after at_ wall later s) as Ha.
  destruct (validTimestamp at_ wall later s) as [s1 ok]. cbn [fst snd] in *.
  destruct ok; cbn [negb orb]; [|intros [= <- <- <- <-]; done].
  destruct vn; [intros [= <- <- <- <-]; done|].
  destruct json as [| |body]; [intros [= <- <- <- <-]; done..|].
  destruct late; [intros [= <- <- <- <-]; done|].
  destruct (_ >? _) eqn:El; [intros [= <- <- <- <-]; done|].
  case_bool_decide as Hn; [intros [= <- <- <- <-]; done|].
  intros [= <- <- <- <-]. split; [done|]. split; [done|]. intros g [= <-]. change (ge_at (newGeneration at_ body)) with at_.
  split; [|split; [done|by apply Ha]]. apply newGeneration_ok; [|done]. rewrite Z.gtb_ltb in El. by apply Z.ltb_ge in El.
Qed.
End stream.

(** ** Publications *)

Definition earlier (g h : generation) : Prop := ge_at g < ge_at h.
Definition deliveries (id : Z) (l : list (Z * generation)) : list generation :=
  (filter (fun d : Z * generation => d.1 = id) l).*2.

Record pub_ok (s : Service) (held : option generation) (published : list generation)
    (delivered : list (Z * generation)) : Prop := {
  po_latest : latest s = last published;
  po_sorted : StronglySorted earlier published;
  po_number : forall i g, published !! i = Some g -> number g = u64 (Z.of_nat i + 1);
  po_built : Forall well_built published;
  po_held : forall g, held = Some g -> well_built g /\ forall l, latest s = Some l -> earlier l g;
  po_pending : forall id c g, clients s !! id = Some c -> pending c = Some g ->
    g ∈ published /\ forall h, (id, h) ∈ delivered -> earlier h g;
  po_delivered : forall id g, (id, g) ∈ delivered -> g ∈ published;
  po_each : forall id, StronglySorted earlier (deliveries id delivered) }.

Lemma pub_ok_same s s' held published delivered :
  latest s' = latest s -> clients s' = clients s ->
  pub_ok s held published delivered -> pub_ok s' held published delivered.
Proof. intros H1 H2 []. split; try done; rewrite ?H1, ?H2; done. Qed.

Lemma sorted_snoc l g : StronglySorted earlier l -> (forall h, h ∈ l -> earlier h g) -> StronglySorted earlier (l ++ [g]).
Proof.
  induction 1 as [|x l Hl IH Hx]; intros Hg; [repeat constructor|]. cbn. constructor.
  - apply IH. intros h Hh. apply Hg. by right.
  - apply Forall_app. split; [done|]. apply Forall_singleton, Hg. by left.
Qed.

Lemma sorted_last l g h : StronglySorted earlier l -> last l = Some g -> h ∈ l -> h = g \/ earlier h g.
Proof.
  induction 1 as [|x l Hl IH Hx]; intros Hg Hh; [done|]. destruct l as [|y l].
  - injection Hg as <-. apply list_elem_of_singleton in Hh. by left.
  - change (last (y :: l) = Some g) in Hg. apply elem_of_cons in Hh as [->|Hh]; [|by apply IH].
    right. rewrite Forall_forall in Hx. apply Hx. by eapply last_Some_elem_of.
Qed.

Lemma deliveries_app id l m : deliveries id (l ++ m) = deliveries id l ++ deliveries id m.
Proof. unfold deliveries. by rewrite filter_app, fmap_app. Qed.

Lemma elem_of_deliveries id l g : g ∈ deliveries id l <-> (id, g) ∈ l.
Proof.
  unfold deliveries. rewrite list_elem_of_fmap. split.
  - intros ([i h] & -> & Hf). apply list_elem_of_filter in Hf as [E Hf]. cbn in *. by subst.
  - intros H. exists (id, g). split; [done|]. by apply list_elem_of_filter.
Qed.

(** The new generation: everything of the built one, numbered and stamped. *)
Lemma publish_ok observer drained value mono wall s log s' log' :
  publish observer drained value mono wall (s, log) = (s', log') ->
  if closing s || canceled s then s' = s
  else same_slots s s' /\ exists g, latest s' = Some g /\ ge_at g = ge_at value
    /\ ge_payload g = ge_payload value /\ ge_frame g = ge_frame value
    /\ number g = match latest s with None => 1 | Some l => u64 (number l + 1) end
    /\ clients s' = (fun c => mkClient (Some g) (admitted c)) <$> clients s.
Proof.
  unfold publish. destruct (closing s || canceled s); [by intros [= <- <-]|].
  pose proof (effectiveNow_same wall s) as (Hs & Hl & Hc).
  destruct (effectiveNowLocked wall s) as [s1 now]. cbn [fst] in *.
  set (g := mkGeneration _ _ _ _ _ _). set (s2 := set_stats _ _). intros H.
  assert (same_state s2 s') as (Hs' & Hl' & Hc').
  { destruct (_ >? 0); [|by injection H as <- <-].
    match type of H with emit ?o ?e (?a, ?l) = _ => pose proof (emit_same o e a l) as K end. by rewrite H in K. }
  split; [unfold same_slots in *; cbn in Hs'; intuition congruence|].
  exists g. rewrite Hl', Hc'. split_and!; try done; [cbn; by rewrite Hl|].
  cbn [clients set_stats set_clients s2]. apply map_eq. intros id. rewrite map_lookup_imap, lookup_fmap. cbn [clients set_latest].
  rewrite Hc. destruct (clients s !! id) as [c|]; [|done]. cbn. unfold enqueue. by destruct (pending c).
Qed.

Lemma pub_ok_publish observer drained value mono wall s log s' log' published delivered :
  pub_ok s (Some value) published delivered ->
  publish observer drained value mono wall (s, log) = (s', log') ->
  pub_ok s' None (if closing s || canceled s then published
                  else published ++ match latest s' with Some g => [g] | None => [] end) delivered.
Proof.
  intros Hok H. apply publish_ok in H. destruct (closing s || canceled s).
  { subst s'. destruct Hok. by split. }
  destruct H as (_ & g & Hl & Hat & Hpay & Hfr & Hnum & Hcl). rewrite Hl. destruct Hok as [Hlat Hso Hno Hbu Hhe Hpe Hde Hea].
  destruct (Hhe value eq_refl) as [Hb Hnew].
  assert (forall h, h ∈ published -> earlier h g) as Hall.
  { intros h Hh. unfold earlier. rewrite Hat. destruct (last published) as [l|] eqn:E.
    2:{ apply last_None in E. subst. by apply not_elem_of_nil in Hh. }
    specialize (Hnew l Hlat). destruct (sorted_last _ _ _ Hso E Hh) as [->|Hlt]; unfold earlier in *; lia. }
  split.
  - by rewrite last_snoc.
  - by apply sorted_snoc.
  - intros i h Hi. apply lookup_app_Some in Hi as [Hi|[Hge Hi]]; [by apply Hno|].
    apply list_lookup_singleton_Some in Hi as [Hi <-]. assert (i = length published) as -> by lia.
    rewrite Hnum, Hlat. destruct (last published) as [l|] eqn:E.
    + rewrite last_lookup in E. destruct published as [|x published]; [done|]. cbn [length pred] in *.
      rewrite (Hno _ _ E). unfold u64. rewrite Zplus_mod_idemp_l. f_equal. lia.
    + apply last_None in E. by subst.
  - apply Forall_app. split; [done|]. apply Forall_singleton. unfold well_built in *. by rewrite Hpay, Hfr.
  - done.
  - intros id c h Hc Hp. rewrite Hcl, lookup_fmap in Hc. destruct (clients s !! id) as [c0|]; [|done].
    injection Hc as <-. injection Hp as <-. split; [apply elem_of_app; right; by apply list_elem_of_singleton|].
    intros h Hh. apply Hall. by eapply Hde.
  - intros id h Hh. apply elem_of_app. left. by eapply Hde.
  - done.
Qed.

(** A connection that attaches gets the latest generation, unless it is stale. *)
Lemma attach_ok id mono wall s s' ok : attach id mono wall s = (s', ok) ->
  same_slots s s' /\ latest s' = latest s /\
  (clients s' = clients s \/ exists c, clients s' = <[id := c]> (clients s) /\ forall g, pending c = Some g -> latest s = Some g).
Proof.
  unfold attach. destruct (closing s || canceled s); [intros [= <- <-]; split_and!; [done|done|by left]|].
  destruct (latest s) as [l|] eqn:El.
  2:{ intros [= <- <-]. split_and!; [done|done|]. right. by eexists. }
  pose proof (age_same mono wall l s) as (Hs & Hl & Hc). destruct (ageLocked mono wall l s) as [s1 age]. cbn [fst] in *.
  intros [= <- <-]. split_and!; [done|cbn; congruence|]. right. eexists. split; [cbn; by rewrite Hc|].
  intros g. destruct (age <=? StaleWindow); [|done]. cbn. congruence.
Qed.

Lemma pub_ok_clients s s' held published delivered id c :
  pub_ok s held published delivered -> latest s' = latest s -> clients s' = <[id := c]> (clients s) ->
  (forall g, pending c = Some g -> g ∈ published /\ forall h, (id, h) ∈ delivered -> earlier h g) ->
  pub_ok s' held published delivered.
Proof.
  intros [] Hl Hc Hp. split; try done; rewrite ?Hl; try done. rewrite Hc. intros i d g Hi Hg.
  destruct (decide (id = i)) as [->|Hn]; [rewrite lookup_insert_eq in Hi; injection Hi as <-; auto|].
  rewrite lookup_insert_ne in Hi by done. eauto.
Qed.

Lemma pub_ok_take s held published delivered id c g :
  pub_ok s held published delivered -> clients s !! id = Some c -> pending c = Some g ->
  pub_ok (set_clients (<[id := mkClient None (admitted c)]> (clients s)) s) held published (delivered ++ [(id, g)]).
Proof.
  intros Hok Hc Hg. pose proof (po_pending _ _ _ _ Hok id c g Hc Hg) as [Hin Hnew]. destruct Hok as [? ? ? ? ? Hpe Hde Hea].
  split; try done.
  - cbn. intros i d h Hi Hh. destruct (decide (id = i)) as [->|Hn].
    { rewrite lookup_insert_eq in Hi. by injection Hi as <-. }
    rewrite lookup_insert_ne in Hi by done. destruct (Hpe _ _ _ Hi Hh) as [? Hlt]. split; [done|].
    intros k Hk. apply elem_of_app in Hk as [Hk|Hk]; [auto|]. apply list_elem_of_singleton in Hk. congruence.
  - intros i h Hh. apply elem_of_app in Hh as [Hh|Hh]; [eauto|]. apply list_elem_of_singleton in Hh. by simplify_eq.
  - intros i. rewrite deliveries_app. destruct (decide (i = id)) as [->|Hn].
    + assert (deliveries id [(id, g)] = [g]) as -> by (unfold deliveries; rewrite filter_cons_True by done; done).
      apply sorted_snoc; [done|]. intros h Hh%elem_of_deliveries. auto.
    + assert (deliveries i [(id, g)] = []) as -> by (unfold deliveries; rewrite filter_cons_False by done; done).
      by rewrite app_nil_r.
Qed.

(** ** Every step keeps both invariants *)

Section correctness.
Context (canonicalIP : string -> option string) (observer : option (Event -> bool)).

Definition stream_ok (x : Stream) : Prop :=
  slots_ok (service x) (tickets x) /\ pub_ok (service x) (held x) (published x) (delivered x).

Lemma stream_ok_same x s : same_state (service x) s -> stream_ok x ->
  stream_ok (mkStream s (tickets x) (held x) (published x) (delivered x)).
Proof.
  intros (Hs & Hl & Hc) [H1 H2]. split; [by eapply slots_ok_same|by eapply pub_ok_same].
Qed.

Lemma reserve_keeps value mono s s' out : reserve canonicalIP value mono s = (s', out) ->
  latest s' = latest s /\ clients s' = clients s.
Proof.
  unfold reserve, entryFor. intros H. repeat (case_match; simplify_eq/=; try done).
Qed.

Lemma release_keeps ip released mono s s' flag : release ip released mono s = Some (s', flag) ->
  latest s' = latest s /\ clients s' = clients s.
Proof. unfold release. intros H. by repeat (case_match; simplify_eq/=). Qed.

Lemma stream_ok_step x y : stream_step canonicalIP observer x y -> stream_ok x -> stream_ok y.
Proof.
  intros Hstep Hok. pose proof Hok as [Hs Hp].
  destruct Hstep as [x value mono s out H|x i ip released mono s flag Hi H|x id mono wall s ok Hnew Hfresh H|x id
    |x id c g Hc Hg|x id c Hc|x outcome wall later s value reason err H|x start end_ duration reason
    |x drained value mono wall log s log' Hh H|x event log|x mono wall|x mono wall g|x|x|x].
  - split; [by eapply reserve_slots|]. apply reserve_keeps in H as [Hl Hc]. by eapply pub_ok_same.
  - destruct (release_slots _ _ _ _ _ mono Hs Hi) as (s1 & E & Hs1). rewrite E in H. injection H as <- <-.
    split; [done|]. apply release_keeps in E as [Hl Hc]. by eapply pub_ok_same.
  - apply attach_ok in H as (Hsl & Hl & Hc). split; [by apply (slots_ok_same (service x))|]. cbn [service held published delivered].
    destruct Hc as [Hc|(c & Hc & Hpend)]; [by eapply pub_ok_same|]. eapply pub_ok_clients; [done..|].
    intros g Hg. split.
    + apply Hpend in Hg. rewrite (po_latest _ _ _ _ Hp) in Hg. by apply last_Some_elem_of.
    + intros h Hh. by destruct (Hfresh h).
  - split; [by apply (slots_ok_same (service x))|]. destruct Hp as [? ? ? ? ? Hpe ? ?]. split; try done. cbn. intros i c g Hi.
    apply lookup_delete_Some in Hi as [_ Hi]. by apply Hpe.
  - split; [by apply (slots_ok_same (service x))|]. by apply pub_ok_take.
  - split; [by apply (slots_ok_same (service x))|]. eapply pub_ok_clients; [exact Hp|done|done|]. cbn. intros g Hg.
    by eapply (po_pending _ _ _ _ Hp).
  - apply construct_ok in H as ((Hsl & Hl & Hc) & _ & Hv). split; [by apply (slots_ok_same (service x))|].
    destruct Hp as [? ? ? ? ? Hpe ? ?]. split; try done; cbn [service held published delivered]; rewrite ?Hl, ?Hc; try done.
    intros g Hg. destruct (Hv g Hg) as (? & _ & ?). done.
  - apply (stream_ok_same x); [apply recordBuild_same|done].
  - rewrite Hh in Hp. split; [|by eapply pub_ok_publish]. cbn [service tickets]. apply publish_ok in H.
    destruct (_ || _); [by subst|]. destruct H as [Hsl _]. by apply (slots_ok_same (service x)).
  - apply (stream_ok_same x); [apply emit_same|done].
  - apply (stream_ok_same x); [apply snapshotInfo_same|done].
  - apply (stream_ok_same x); [apply writeGeneration_same|done].
  - by apply (stream_ok_same x).
  - apply (stream_ok_same x); [apply beginRun_same|done].
  - by apply (stream_ok_same x).
Qed.

Lemma stream_ok_start mono wall : stream_ok (stream_start mono wall).
Proof.
  split.
  - by split.
  - split; cbn [stream_start service held published delivered New latest clients]; try done.
    + constructor.
    + intros id g Hg. by apply not_elem_of_nil in Hg.
    + intros id. constructor.
Qed.

Lemma stream_ok_run mono wall x : rtc (stream_step canonicalIP observer) (stream_start mono wall) x -> stream_ok x.
Proof.
  intros H. assert (stream_ok (stream_start mono wall)) as H0 by apply stream_ok_start. revert H0.
  induction H as [x|x y z Hxy _ IH]; [done|]. intros H0. apply IH. by eapply stream_ok_step.
Qed.

(** Connection slots are exact. After any interleaving of handshakes, releases and
    everything else, the number of reserved slots is the number of tickets not yet
    released, in total and for every address; at most 1024 are reserved in all and 16
    for one address, and at most 4096 addresses are tracked. Releasing a ticket, once or
    again, never meets a missing address entry (which would panic), whatever was pruned
    in between, and frees exactly one slot the first time and none later. *)
Theorem connection_slots_exact mono wall x (Hrun : rtc (stream_step canonicalIP observer) (stream_start mono wall) x) :
  reserved (service x) = outstanding (tickets x)
  /\ (forall ip, slots (ips (service x)) ip = outstanding_at ip (tickets x))
  /\ reserved (service x) <= 1024 /\ (forall ip, slots (ips (service x)) ip <= 16)
  /\ Z.of_nat (size (ips (service x))) <= 4096
  /\ (forall i ip released now, tickets x !! i = Some (ip, released) ->
        exists s, release ip released now (service x) = Some (s, true)
          /\ reserved s = reserved (service x) - (if released then 0 else 1)).
Proof.
  apply stream_ok_run in Hrun as [Hs _]. split_and!; try apply Hs.
  intros i ip released now Hi. destruct (release_slots _ _ _ _ _ now Hs Hi) as (s & E & Hs').
  exists s. split; [done|]. rewrite (so_total _ _ Hs'), (so_total _ _ Hs). unfold outstanding.
  rewrite (llen_filter_insert _ _ _ _ _ Hi). unfold indicator. cbn [fst snd].
  rewrite (decide_False (P := true = false)) by done. destruct released; [rewrite decide_False by done|rewrite decide_True by done]; lia.
Qed.

(** C38. Generations are published in order. After any interleaving, the published
    generations are numbered 1, 2, 3, ... (modulo 2^64) with strictly increasing
    timestamps and the latest one is the last; each carries its payload, at most 8 MiB,
    as one text frame; a connection's queue holds only published generations, newer than
    all it was handed before, so each connection is handed a strictly increasing
    subsequence of what was published. *)
Theorem generations_in_order mono wall x (Hrun : rtc (stream_step canonicalIP observer) (stream_start mono wall) x) :
  latest (service x) = last (published x)
  /\ StronglySorted earlier (published x)
  /\ (forall i g, published x !! i = Some g -> number g = u64 (Z.of_nat i + 1)
        /\ ge_frame g = serverFrame 1 (ge_payload g) /\ llen (ge_payload g) <= 8388608)
  /\ (forall id c g, clients (service x) !! id = Some c -> pending c = Some g ->
        g ∈ published x /\ forall h, h ∈ deliveries id (delivered x) -> earlier h g)
  /\ (forall id, StronglySorted earlier (deliveries id (delivered x))
        /\ forall g, g ∈ deliveries id (delivered x) -> g ∈ published x).
Proof.
  apply stream_ok_run in Hrun as [_ []]. split_and!; try done.
  - intros i g Hi. rewrite Forall_forall in po_built0. destruct (po_built0 g) as (? & ? & _); [by eapply list_elem_of_lookup_2|].
    split_and!; [auto|done|done].
  - intros id c g Hc Hg. destruct (po_pending0 id c g Hc Hg) as [? Hl]. split; [done|].
    intros h Hh. by apply Hl, elem_of_deliveries.
  - intros id. split; [done|]. intros g Hg%elem_of_deliveries. eauto.
Qed.
End correctness.

(** ** A concrete run: one client connects, two snapshots are published *)

Definition sample_ip (value : string) : option string := if value =s "" then None else Some value.
Definition t0 : Time := 1000000000 * Second.

Definition after_reserve : Service * result Reason string := reserve sample_ip "10.0.0.7" t0 (New t0 t0).
Definition after_attach : Service := (attach 1 t0 t0 after_reserve.1).1.
Definition built (at_ wall : Time) (s : Service) : Service * option generation :=
  (construct (BuildSnapshot at_ false (Encode (bytes "{}")) false) wall wall s).1.1.
Definition publish_sample (now : Time) (s : Service * option generation) : Service :=
  match s.2 with
  | Some g => (publish None (fun _ => false) g now now (s.1, [])).1
  | None => s.1
  end.
Definition first_published : Service := publish_sample (t0 + Second) (built (t0 + 1) (t0 + Second) after_attach).

Lemma sample_run : exists x, rtc (stream_step sample_ip None) (stream_start t0 t0) x
  /\ service x = first_published /\ tickets x = [("10.0.0.7", false)]
  /\ published x = match latest first_published with Some g => [g] | None => [] end.
Proof.
  eexists (mkStream first_published [("10.0.0.7", false)] None _ []). split; [|split; [reflexivity|split; reflexivity]].
  eapply rtc_l.
  { apply (StReserve _ _ _ "10.0.0.7" t0 after_reserve.1 (Ok "10.0.0.7")). vm_compute. reflexivity. }
  eapply rtc_l.
  { eapply (StAttach _ _ _ 1 t0 t0 after_attach true); [reflexivity|cbn; intros g; apply not_elem_of_nil|].
    vm_compute. reflexivity. }
  eapply rtc_l.
  { eapply (StConstruct _ _ _ (BuildSnapshot (t0 + 1) false (Encode (bytes "{}")) false) (t0 + Second) (t0 + Second)
      (built (t0 + 1) (t0 + Second) after_attach).1 (built (t0 + 1) (t0 + Second) after_attach).2 ReasonNone None).
    vm_compute. reflexivity. }
  eapply rtc_l; [|apply rtc_refl].
  refine (StPublish _ _ _ (fun _ => false) (newGeneration (t0 + 1) (bytes "{}")) (t0 + Second) (t0 + Second) [] first_published [] _ _).
  - vm_compute. reflexivity.
  - vm_compute. reflexivity.
Qed.

Lemma connection_slots_exact_witness :
  exists x, rtc (stream_step sample_ip None) (stream_start t0 t0) x
    /\ reserved (service x) = 1 /\ reserved (service x) = outstanding (tickets x).
Proof.
  destruct sample_run as (x & Hrun & Hs & _ & _). exists x. split; [exact Hrun|].
  split; [rewrite Hs; vm_compute; reflexivity|].
  exact (proj1 (connection_slots_exact sample_ip None t0 t0 x Hrun)).
Defined.

Lemma generations_in_order_witness :
  exists x, rtc (stream_step sample_ip None) (stream_start t0 t0) x
    /\ length (published x) = 1%nat /\ latest (service x) = last (published x).
Proof.
  destruct sample_run as (x & Hrun & Hs & _ & Hp). exists x. split; [exact Hrun|].
  split; [rewrite Hp; vm_compute; reflexivity|].
  exact (proj1 (generations_in_order sample_ip None t0 t0 x Hrun)).
Defined.

(** ** Freshness *)

(** The age the service computes bounds both clocks' view of it from above. *)
Lemma age_spec mono wall g s :
  in_int64 (mono - storedAt g) -> in_int64 (mono - storedAt g + initialAge g) ->
  let age := (ageLocked mono wall g s).2 in
  0 <= age /\ mono - storedAt g + initialAge g <= age
  /\ (age <= StaleWindow -> wall - ge_at g <= age /\ wallFloor s - ge_at g <= age).
Proof.
  intros H1 H2. unfold ageLocked, effectiveNowLocked.
  set (s1 := if After wall (wallFloor s) then set_wallFloor wall s else s).
  assert (wallFloor s1 = Z.max wall (wallFloor s)) as Hf.
  { unfold s1, After. destruct (wallFloor s <? wall) eqn:E; cbn; go_bool; lia. }
  cbn [snd]. rewrite Hf.
  assert (Sub mono (storedAt g) = mono - storedAt g) as -> by by apply sat64_id. rewrite wrap64_id by done.
  set (m := mono - storedAt g + initialAge g). set (a := Sub _ _).
  assert (a <= StaleWindow -> Z.max wall (wallFloor s) - ge_at g <= a) as Ha.
  { unfold a, Sub, sat64, int64_min, int64_max, StaleWindow, Second. lia. }
  clearbody a m. clear - Ha. cbn zeta.
  destruct (m >? a) eqn:E; rewrite Z.gtb_ltb in E; [apply Z.ltb_lt in E|apply Z.ltb_ge in E];
    (destruct (_ <? 0) eqn:F; [apply Z.ltb_lt in F|apply Z.ltb_ge in F]); split_and!; try lia; intros; (split; lia).
Qed.

(** No stale snapshot leaves the server. A payload returned by [Latest], and a frame
    handed to a connection's writer, is at most (for the frame: less than) 30 seconds old
    by every clock: by the monotonic time since it was stored plus its age at that
    moment, by the wall clock now, and by the highest wall clock ever seen, even if the
    wall clock was set back in between. The write deadline is positive, at most 5
    seconds, and ends no later than the moment the snapshot turns stale. *)
Theorem only_fresh_served mono wall s g
  (Hlatest : latest s = Some g)
  (Hrange : in_int64 (mono - storedAt g)) (Hrange' : in_int64 (mono - storedAt g + initialAge g)) :
  (forall s' info body, Latest mono wall s = (s', info, Some body) ->
     body = ge_payload g /\ sn_Age info <= 30 * Second
     /\ mono - storedAt g + initialAge g <= 30 * Second
     /\ wall - ge_at g <= 30 * Second /\ wallFloor s - ge_at g <= 30 * Second)
  /\ (forall s' frame timeout, writeGeneration mono wall g s = (s', Some (frame, timeout)) ->
     frame = ge_frame g /\ 0 < timeout <= 5 * Second
     /\ mono - storedAt g + initialAge g + timeout <= 30 * Second
     /\ wall - ge_at g + timeout <= 30 * Second /\ wallFloor s - ge_at g + timeout <= 30 * Second).
Proof.
  pose proof (age_spec mono wall g s Hrange Hrange') as Hage. cbn zeta in Hage.
  pose proof (age_same mono wall g s) as (_ & Hl & _). unfold Latest, snapshotInfo, writeGeneration. rewrite Hlatest.
  destruct (ageLocked mono wall g s) as [s1 age]. cbn [fst snd] in *. destruct Hage as (H0 & Hm & Hw).
  change StaleWindow with (30 * Second) in *. change WriteTimeout with (5 * Second). split.
  - intros s' info body. cbn [sn_Available]. destruct (age <=? _) eqn:E; [|done]. cbn [negb].
    rewrite Hl, Hlatest. intros [= <- <- <-]. apply Z.leb_le in E. destruct (Hw E). cbn [sn_Age]. split_and!; lia || done.
  - intros s' frame timeout. rewrite Z.geb_leb. destruct (_ <=? age) eqn:E; [done|]. apply Z.leb_gt in E.
    intros [= <- <- <-]. destruct (Hw ltac:(lia)). unfold Second in *.
    destruct (_ <? _) eqn:F; [apply Z.ltb_lt in F|apply Z.ltb_ge in F]; split_and!; lia || done.
Qed.

Lemma only_fresh_served_witness :
  (Latest (t0 + 20 * Second) (t0 + 20 * Second) first_published).2 = Some (bytes "{}")
  /\ wallFloor first_published - (t0 + 1) <= 30 * Second.
Proof.
  assert (exists g, latest first_published = Some g /\ ge_at g = t0 + 1 /\ storedAt g = t0 + Second /\ initialAge g = Second - 1) as (g & Hg & Ha & Hs & Hi)
    by (eexists; vm_compute; split_and!; reflexivity).
  assert ((Latest (t0 + 20 * Second) (t0 + 20 * Second) first_published).2 = Some (bytes "{}")) as Hl by (vm_compute; reflexivity).
  split; [exact Hl|].
  destruct (only_fresh_served (t0 + 20 * Second) (t0 + 20 * Second) first_published g Hg) as [H _].
  - rewrite Hs. unfold in_int64, int64_min, int64_max, t0, Second. lia.
  - rewrite Hs, Hi. unfold in_int64, int64_min, int64_max, t0, Second. lia.
  - destruct (Latest (t0 + 20 * Second) (t0 + 20 * Second) first_published) as [[s' info] body].
    cbn [snd] in Hl. subst body. destruct (H _ _ _ eq_refl) as (_ & _ & _ & _ & Hf). rewrite Ha in Hf. exact Hf.
Defined.
