(* ===== verification/UpdateModel.v ===== *)
(** * Agent updates: assignments, images and the journal

    [internal/agentupdate] ([types.go], [config.go], [verify.go], [image.go],
    [journal.go], [health.go]) and [internal/agentrollout/protocol] ([manifest.go],
    [signature.go], [types.go]): what an update assignment and its manifest must satisfy,
    when a file is the image it should be, and when a journal on disk can be trusted. *)

From S2P Require Import Prelude GoText ReleaseVersion GoSha256.

(** ** protocol/types.go *)

Definition ManifestVersion : Z := 1.
Definition AssignmentUpgrade : string := "upgrade".
Definition AssignmentRollback : string := "rollback".

Record Artifact := mkArtifact {
  Ar_ID : string; Ar_OS : string; Ar_Arch : string; Ar_Kind : string; Ar_Filename : string;
  Ar_Entrypoint : string; Ar_Size : Z; Ar_SHA256 : string; Ar_SBOMDigest : string;
  Ar_ProvenanceDigest : string; Ar_Support : string }.

#[export] Instance Artifact_eq_dec : EqDecision Artifact.
Proof. solve_decision. Defined.

Record KeyTransition := mkKeyTransition {
  Kt_ID : string; Kt_PublicKey : list Z; Kt_NotBefore : Time; Kt_ExpiresAt : Time; Kt_Signature : list Z }.

Record Manifest := mkManifest {
  Ma_SchemaVersion : Z; Ma_Version : string; Ma_Commit : string; Ma_Channel : string;
  Ma_BuiltAt : Time; Ma_ExpiresAt : Time; Ma_MinimumServerSchema : Z;
  Ma_MinimumProtocol : Z; Ma_MaximumProtocol : Z; Ma_ReleaseNotesDigest : string;
  Ma_SigningKeyID : string; Ma_Revoked : bool; Ma_Artifacts : list Artifact; Ma_NextKey : option KeyTransition }.

Record SignedManifest := mkSignedManifest { Payload : list Z; Signature : list Z; SigstoreBundle : list Z }.

Record Assignment := mkAssignment {
  As_ServerSchema : Z; As_Action : string; As_ID : string; As_RolloutID : string; As_NodeID : string;
  As_Nonce : string; As_ExpiresAt : Time; As_Artifact : Artifact; As_Manifest : SignedManifest }.

(** ** protocol/manifest.go *)

Definition MaximumArtifactBytes : Z := Z.shiftl 512 20.
Definition maximumArtifacts : Z := 32.

Definition letter_or_digit (b : Z) : bool := between 97 122 b || between 65 90 b || between 48 57 b.
(** [^[a-zA-Z0-9][a-zA-Z0-9._+-]{0,127}$] *)
Definition safeIdentifier (value : string) : bool :=
  match bytes value with
  | [] => false
  | b :: rest => letter_or_digit b && (llen rest <=? 127)
      && forallb (fun b => letter_or_digit b || (b =? 46) || (b =? 95) || (b =? 43) || (b =? 45)) rest
  end.
Definition lower_hex (b : Z) : bool := between 97 102 b || between 48 57 b.
(** [^[a-f0-9]{40}([a-f0-9]{24})?$] and [^[a-f0-9]{64}$] *)
Definition commitDigest (value : string) : bool :=
  ((len value =? 40) || (len value =? 64)) && forallb lower_hex (bytes value).
Definition lowerDigest (value : string) : bool := (len value =? 64) && forallb lower_hex (bytes value).

Definition ValidSHA256 (value : string) : bool := lowerDigest value.
Definition ValidSigningKeyID (value : string) : bool := safeIdentifier value.

(** [filepath.Base(value) == value] holds for a nonempty name without a slash, and for
    ["/"], which the next test of [SafeFilename] refuses. *)
Definition base_is_self (value : string) : bool :=
  negb (existsb (Z.eqb 47) (bytes value)) || (value =s "/").
Definition SafeFilename (value : string) : bool :=
  (value <>s "") && (len value <=? MaximumIdentifierBytes) && base_is_self value
  && negb (existsb (fun b => (b =? 47) || (b =? 92) || (b =? 0) || (b =? 13) || (b =? 10)) (bytes value))
  && (value <>s ".") && (value <>s "..").

Definition validArtifactPayload (a : Artifact) : bool :=
  safeIdentifier (Ar_ID a) && (Ar_Size a >? 0) && (Ar_Size a <=? MaximumArtifactBytes)
  && lowerDigest (Ar_SHA256 a) && lowerDigest (Ar_SBOMDigest a) && lowerDigest (Ar_ProvenanceDigest a).

Definition validArtifactPlatform (a : Artifact) : bool :=
  str_in (Ar_OS a) ["linux"; "windows"; "darwin"; "freebsd"]
  && str_in (Ar_Arch a) ["amd64"; "arm64"; "386"; "arm"; "loong64"]
  && str_in (Ar_Kind a) ["binary"; "archive"; "external_manager"]
  && str_in (Ar_Support a) ["supported"; "preview"; "build-only"; "unsupported"].

Inductive updateError :=
| ErrManifest | ErrSignature | ErrDisabled | ErrManualOnly | ErrExternalManager | ErrConfiguration
| ErrAssignment | ErrAssignmentEntrypoint | ErrAssignmentProtocol | ErrAssignmentArtifact
| ErrVersion | ErrBusy | ErrStorage | ErrUnsafePath | ErrCrossDevice | ErrIntegrity | ErrFormat
| ErrDownload | ErrJournal | ErrConflict | ErrHealth | ErrManager
(** errors of the standard library that the code passes on or tests for *)
| DeadlineExceeded | OtherError.

#[export] Instance updateError_eq_dec : EqDecision updateError.
Proof. solve_decision. Defined.

Abbreviation checked := (result updateError unit) (only parsing).

Definition ValidateArtifact (a : Artifact) : checked :=
  if negb (validArtifactPayload a) || negb (validArtifactPlatform a) || negb (SafeFilename (Ar_Filename a))
     || negb (SafeFilename (Ar_Entrypoint a)) then Err ErrManifest else Ok tt.

Fixpoint artifacts_loop (ids platforms : gset string) (artifacts : list Artifact) : checked :=
  match artifacts with
  | [] => Ok tt
  | a :: rest =>
      let platform := Ar_OS a +:+ "/" +:+ Ar_Arch a +:+ "/" +:+ Ar_Kind a in
      let* _ := ValidateArtifact a in
      if bool_decide (Ar_ID a ∈ ids) || bool_decide (platform ∈ platforms) then Err ErrManifest
      else artifacts_loop ({[Ar_ID a]} ∪ ids) ({[platform]} ∪ platforms) rest
  end.
Definition validateManifestArtifacts (artifacts : list Artifact) : checked :=
  if (llen artifacts =? 0) || (llen artifacts >? maximumArtifacts) then Err ErrManifest
  else artifacts_loop ∅ ∅ artifacts.

Definition validManifestIdentity (m : Manifest) : bool :=
  bool_decide (is_Some (parseVersion (Ma_Version m))) && (Ma_SchemaVersion m =? ManifestVersion)
  && safeIdentifier (Ma_SigningKeyID m) && commitDigest (Ma_Commit m) && lowerDigest (Ma_ReleaseNotesDigest m)
  && ((Ma_Channel m =s "stable") || (Ma_Channel m =s "preview")).

Definition validManifestDates (m : Manifest) (now : Time) : bool :=
  negb (IsZero (Ma_BuiltAt m)) && negb (After (Ma_BuiltAt m) (Add now Minute)) && After (Ma_ExpiresAt m) now
  && After (Ma_ExpiresAt m) (Ma_BuiltAt m) && negb (Ma_Revoked m).

Definition ValidateManifest (m : Manifest) (now : Time) : checked :=
  if negb (validManifestIdentity m) || negb (validManifestDates m now) then Err ErrManifest
  else if (Ma_MinimumServerSchema m <? 1) || (Ma_MinimumProtocol m <? 1)
       || (Ma_MaximumProtocol m <? Ma_MinimumProtocol m) then Err ErrManifest
  else validateManifestArtifacts (Ma_Artifacts m).

(** ** agentupdate/types.go and config.go *)

Record Image := mkImage { Im_Version : string; Im_Size : Z; Im_SHA256 : string }.

Record SigningTrust := mkSigningTrust {
  Tr_KeyID : string; Tr_PublicKey : list Z; Tr_NotBefore : Time; Tr_ExpiresAt : Time; Tr_Revoked : bool }.

(** [Manager] is the kind of the configured service manager, [None] when there is none;
    [Fetcher] is the server a configured fetcher reports as trusted; [Entrypoint] is the
    last element of the path [Executable]. The clock is an argument of the operations. *)
Record Config := mkConfig {
  Enabled : bool; Container : bool; Executable : string; Entrypoint : string; NodeID : string; ServerURL : string;
  Installed : Image; Keys : list SigningTrust; Manager : option string; Fetcher : option string; OS : string;
  Arch : string; AgentProtocol : Z; DownloadTimeout : Duration; StartupTimeout : Duration;
  ObservationWindow : Duration; MaximumObservationGap : Duration }.

Definition ChunkBytes : Z := Z.shiftl 4 20.
Definition MaximumAssignmentLifetime : Duration := 24 * Hour.

Definition validImage (image : Image) : bool :=
  match CompareVersions (Im_Version image) (Im_Version image) with
  | Some (_, valid) => valid
  | None => false
  end && (Im_Size image >? 0) && (Im_Size image <=? MaximumArtifactBytes) && ValidSHA256 (Im_SHA256 image).

Definition managementGate (config : Config) : checked :=
  if Container config then Err ErrExternalManager else
  if (OS config <>s "linux") || (Arch config <>s "amd64") && (Arch config <>s "arm64") then Err ErrManualOnly else
  match Manager config with
  | None => Err ErrManualOnly
  | Some kind => if kind <>s "systemd" then Err ErrManualOnly else
                 if negb (validImage (Installed config)) then Err ErrManualOnly else Ok tt
  end.

(** [New]: what is left at zero gets its default. *)
Definition or_default {A} (zero : A -> bool) (value fallback : A) : A := if zero value then fallback else value.
Definition withDefaults (runtimeOS runtimeArch : string) (config : Config) : Config :=
  let unset := fun d => d =? 0 in
  mkConfig (Enabled config) (Container config) (Executable config) (Entrypoint config) (NodeID config)
    (ServerURL config) (Installed config) (Keys config) (Manager config) (Fetcher config)
    (or_default (String.eqb "") (OS config) runtimeOS) (or_default (String.eqb "") (Arch config) runtimeArch)
    (AgentProtocol config) (or_default unset (DownloadTimeout config) (10 * Minute))
    (or_default unset (StartupTimeout config) (2 * Minute)) (or_default unset (ObservationWindow config) Minute)
    (or_default unset (MaximumObservationGap config) (30 * Second)).

Definition validateTimeouts (config : Config) : checked :=
  if (DownloadTimeout config <? Second) || (DownloadTimeout config >? Hour) then Err ErrConfiguration else
  if (StartupTimeout config <? Second) || (StartupTimeout config >? 10 * Minute) then Err ErrConfiguration else
  if (ObservationWindow config <? Second) || (ObservationWindow config >? Hour) then Err ErrConfiguration else
  if (MaximumObservationGap config <? Second) || (MaximumObservationGap config >? 5 * Minute) then Err ErrConfiguration
  else Ok tt.

Definition sameImage (a b : Image) : bool :=
  SameReleaseVersion (Im_Version a) (Im_Version b) && (Im_Size a =? Im_Size b) && (Im_SHA256 a =s Im_SHA256 b).

(** ** image.go: an executable of the right architecture *)

Definition le_value (l : list Z) : Z := be_value (rev l).
Definition slice (l : list Z) (from to : nat) : list Z := take (to - from) (drop from l).
(** [io.ReaderAt.ReadAt] of [n] bytes: an error unless all of them are there. *)
Definition ReadAt (file : list Z) (n : nat) (offset : Z) : option (list Z) :=
  let chunk := take n (drop (Z.to_nat offset) file) in
  if (length chunk =? n)%nat then Some chunk else None.

Definition validELFVersion (header : list Z) : bool :=
  (le_value (slice header 20 24) =? 1) && (le_value (slice header 52 54) =? 64)
  && ((nth 7 header 0 =? 0) || (nth 7 header 0 =? 3)).
Definition validELFHeader (header : list Z) : bool :=
  bool_decide (take 4 header = [127; 69; 76; 70]) && (nth 4 header 0 =? 2) && (nth 5 header 0 =? 1)
  && (nth 6 header 0 =? 1) && validELFVersion header.
Definition validELFMachine (arch : string) (machine : Z) : bool :=
  (arch =s "amd64") && (machine =? 62) || (arch =s "arm64") && (machine =? 183).
Definition validProgramTable (entry count width offset size : Z) : bool :=
  negb (entry =? 0) && (count >? 0) && (count <=? 256) && (width =? 56) && (offset <=? size).

Definition u64_max : Z := 2 ^ 64 - 1.
Definition validELFProgram (program : list Z) (size entry : Z) : result updateError bool :=
  let offset := le_value (slice program 8 16) in
  let address := le_value (slice program 16 24) in
  let fileSize := le_value (slice program 32 40) in
  let memorySize := le_value (slice program 40 48) in
  if (offset >? size) || (fileSize >? size - offset) || (memorySize <? fileSize) || (address >? u64_max - memorySize)
  then Err ErrFormat else
  let load := le_value (slice program 0 4) =? 1 in
  let execute := negb (Z.land (le_value (slice program 4 8)) 1 =? 0) in
  Ok (load && execute && (entry >=? address) && (entry - address <? memorySize)).

(** The loop over the program headers, from index [i] on. *)
Fixpoint programs_loop (file : list Z) (size entry offset : Z) (i : Z) (count : nat) (executable : bool) : checked :=
  match count with
  | O => if executable then Ok tt else Err ErrFormat
  | S count =>
      match ReadAt file 56 (offset + i * 56) with
      | None => Err ErrFormat
      | Some program =>
          let* contains := validELFProgram program size entry in
          programs_loop file size entry offset (i + 1) count (executable || contains)
      end
  end.

Definition verifyELFPrograms (file : list Z) (size : Z) (header : list Z) : checked :=
  let entry := le_value (slice header 24 32) in
  let offset := le_value (slice header 32 40) in
  let count := le_value (slice header 56 58) in
  let width := le_value (slice header 54 56) in
  if negb (validProgramTable entry count width offset size) then Err ErrFormat else
  if count * width >? size - offset then Err ErrFormat else
  programs_loop file size entry offset 0 (Z.to_nat count) false.

Definition verifyELF (file : list Z) (size : Z) (arch : string) : checked :=
  match ReadAt file 64 0 with
  | None => Err ErrFormat
  | Some header =>
      if negb (validELFHeader header) then Err ErrFormat else
      let kind := le_value (slice header 16 18) in
      let machine := le_value (slice header 18 20) in
      if negb (kind =? 2) && negb (kind =? 3) then Err ErrFormat else
      if negb (validELFMachine arch machine) then Err ErrFormat else
      verifyELFPrograms file size header
  end.

(** The verdict of [verifyImage] on the content of a regular file that can be read. *)
Definition verifyImage (arch : string) (content : list Z) (image : Image) : checked :=
  if negb (llen content =? Im_Size image) then Err ErrIntegrity else
  if EncodeHex (Sum256 content) <>s Im_SHA256 image then Err ErrIntegrity else
  verifyELF content (Im_Size image) arch.

(** ** journal.go *)

Definition journalVersion : Z := 1.
Definition maximumLocalFailures : Z := 100000.

Record journal := mkJournal {
  HealthProcess : string; Restarts : Z; Restarted : bool; Version : Z; J_ServerURL : string; J_Executable : string;
  J_Assignment : Assignment; Previous : Image; TargetVersion : string; VerifiedAt : Time; Phase : string;
  J_Reason : string; Downloaded : Z; PublishedAt : Time; FirstHealthyAt : Time; LastHealthyAt : Time; Deadline : Time }.

Definition set_HealthProcess x j := mkJournal x (Restarts j) (Restarted j) (Version j) (J_ServerURL j) (J_Executable j) (J_Assignment j) (Previous j) (TargetVersion j) (VerifiedAt j) (Phase j) (J_Reason j) (Downloaded j) (PublishedAt j) (FirstHealthyAt j) (LastHealthyAt j) (Deadline j).
Definition set_Restarts x j := mkJournal (HealthProcess j) x (Restarted j) (Version j) (J_ServerURL j) (J_Executable j) (J_Assignment j) (Previous j) (TargetVersion j) (VerifiedAt j) (Phase j) (J_Reason j) (Downloaded j) (PublishedAt j) (FirstHealthyAt j) (LastHealthyAt j) (Deadline j).
Definition set_Restarted x j := mkJournal (HealthProcess j) (Restarts j) x (Version j) (J_ServerURL j) (J_Executable j) (J_Assignment j) (Previous j) (TargetVersion j) (VerifiedAt j) (Phase j) (J_Reason j) (Downloaded j) (PublishedAt j) (FirstHealthyAt j) (LastHealthyAt j) (Deadline j).
Definition set_Phase x j := mkJournal (HealthProcess j) (Restarts j) (Restarted j) (Version j) (J_ServerURL j) (J_Executable j) (J_Assignment j) (Previous j) (TargetVersion j) (VerifiedAt j) x (J_Reason j) (Downloaded j) (PublishedAt j) (FirstHealthyAt j) (LastHealthyAt j) (Deadline j).
Definition set_Reason x j := mkJournal (HealthProcess j) (Restarts j) (Restarted j) (Version j) (J_ServerURL j) (J_Executable j) (J_Assignment j) (Previous j) (TargetVersion j) (VerifiedAt j) (Phase j) x (Downloaded j) (PublishedAt j) (FirstHealthyAt j) (LastHealthyAt j) (Deadline j).
Definition set_Downloaded x j := mkJournal (HealthProcess j) (Restarts j) (Restarted j) (Version j) (J_ServerURL j) (J_Executable j) (J_Assignment j) (Previous j) (TargetVersion j) (VerifiedAt j) (Phase j) (J_Reason j) x (PublishedAt j) (FirstHealthyAt j) (LastHealthyAt j) (Deadline j).
Definition set_Published x d j := mkJournal (HealthProcess j) (Restarts j) (Restarted j) (Version j) (J_ServerURL j) (J_Executable j) (J_Assignment j) (Previous j) (TargetVersion j) (VerifiedAt j) (Phase j) (J_Reason j) (Downloaded j) x (FirstHealthyAt j) (LastHealthyAt j) d.
Definition set_FirstHealthyAt x j := mkJournal (HealthProcess j) (Restarts j) (Restarted j) (Version j) (J_ServerURL j) (J_Executable j) (J_Assignment j) (Previous j) (TargetVersion j) (VerifiedAt j) (Phase j) (J_Reason j) (Downloaded j) (PublishedAt j) x (LastHealthyAt j) (Deadline j).
Definition set_LastHealthyAt x j := mkJournal (HealthProcess j) (Restarts j) (Restarted j) (Version j) (J_ServerURL j) (J_Executable j) (J_Assignment j) (Previous j) (TargetVersion j) (VerifiedAt j) (Phase j) (J_Reason j) (Downloaded j) (PublishedAt j) (FirstHealthyAt j) x (Deadline j).

Definition imageFor (value : journal) : Image :=
  mkImage (TargetVersion value) (Ar_Size (As_Artifact (J_Assignment value))) (Ar_SHA256 (As_Artifact (J_Assignment value))).

Definition validRestartJournal (value : journal) : bool :=
  (Restarts value >=? 0) && (Restarts value <=? maximumLocalFailures)
  && ((HealthProcess value =s "") || ValidSigningKeyID (HealthProcess value)).

Definition phases : list string :=
  ["downloading"; "prepared"; "published"; "observing"; "healthy"; "rollback_prepared"; "rolled_back"; "canceled"].

Definition validJournal (value : journal) : bool :=
  if negb (Version value =? journalVersion) || negb (validImage (Previous value)) || IsZero (VerifiedAt value) then false
  else if negb (validRestartJournal value) then false
  else if (Downloaded value <? 0) || (Downloaded value >? Ar_Size (As_Artifact (J_Assignment value))) then false
  else str_in (Phase value) phases.

Definition validAssignmentIdentity (a : Assignment) (nodeID : string) (now : Time) : bool :=
  ((As_Action a =s AssignmentUpgrade) || (As_Action a =s AssignmentRollback)) && (As_NodeID a =s nodeID)
  && ValidSigningKeyID (As_ID a) && ValidSigningKeyID (As_RolloutID a) && ValidSHA256 (As_Nonce a)
  && After (As_ExpiresAt a) now && negb (After (As_ExpiresAt a) (Add now MaximumAssignmentLifetime)).

Definition validDirection (action target current : string) : bool :=
  match CompareVersions target current with
  | Some (order, valid) =>
      valid && ((action =s AssignmentUpgrade) && (order >? 0) || (action =s AssignmentRollback) && (order <? 0))
  | None => false
  end.

Definition validJournalHealth (value : journal) : bool :=
  if IsZero (FirstHealthyAt value)
  then IsZero (LastHealthyAt value) && (Phase value <>s "observing") && (Phase value <>s "healthy")
  else negb (Before (FirstHealthyAt value) (PublishedAt value)) && negb (Before (LastHealthyAt value) (FirstHealthyAt value))
       && Before (LastHealthyAt value) (Deadline value).

Definition validJournalTimes (now : Time) (value : journal) : bool :=
  if IsZero (PublishedAt value)
  then IsZero (Deadline value) && ((Phase value =s "downloading") || (Phase value =s "prepared") || (Phase value =s "canceled"))
  else if Before (PublishedAt value) (VerifiedAt value) || After (PublishedAt value) now then false
  else let duration := Sub (Deadline value) (PublishedAt value) in
       if (duration <? 2 * Second) || (duration >? 70 * Minute) then false else validJournalHealth value.

(** [now] and [later] are the two readings of the clock, in this order. *)
Definition validJournalBinding (config : Config) (now later : Time) (value : journal) : bool :=
  if negb (validAssignmentIdentity (J_Assignment value) (NodeID config) (VerifiedAt value)) || After (VerifiedAt value) now
  then false else
  if negb (validDirection (As_Action (J_Assignment value)) (TargetVersion value) (Im_Version (Previous value))) then false else
  if negb (sameImage (Installed config) (Previous value)) && negb (sameImage (Installed config) (imageFor value)) then false else
  validJournalTimes later value.

Definition validJournalManifest (value : journal) (m : Manifest) : bool :=
  (Ma_Version m =s TargetVersion value) && (As_ServerSchema (J_Assignment value) >=? Ma_MinimumServerSchema m).

Fixpoint manifest_contains (candidates : list Artifact) (artifact : Artifact) : checked :=
  match candidates with
  | [] => Err ErrAssignmentArtifact
  | c :: rest => if Ar_ID c =s Ar_ID artifact then (if decide (c = artifact) then Ok tt else Err ErrAssignment)
                 else manifest_contains rest artifact
  end.

Definition compatibleArtifact (config : Config) (m : Manifest) (artifact : Artifact) : checked :=
  if (Ar_OS artifact <>s OS config) || (Ar_Arch artifact <>s Arch config) || (Ar_Kind artifact <>s "binary") then Err ErrManualOnly else
  if (Ar_Support artifact <>s "supported") && (Ar_Support artifact <>s "preview") then Err ErrManualOnly else
  if Ar_Entrypoint artifact <>s Entrypoint config then Err ErrAssignmentEntrypoint else
  if (Ma_MinimumProtocol m >? AgentProtocol config) || (Ma_MaximumProtocol m <? AgentProtocol config)
  then Err ErrAssignmentProtocol else manifest_contains (Ma_Artifacts m) artifact.

Definition sameAssignment (a b : Assignment) : bool :=
  (As_ServerSchema a =? As_ServerSchema b) && (As_Action a =s As_Action b) && TimeEqual (As_ExpiresAt a) (As_ExpiresAt b)
  && bool_decide (Signature (As_Manifest a) = Signature (As_Manifest b)) && (As_ID a =s As_ID b)
  && (As_RolloutID a =s As_RolloutID b) && (As_NodeID a =s As_NodeID b) && (As_Nonce a =s As_Nonce b)
  && bool_decide (As_Artifact a = As_Artifact b)
  && (EncodeHex (Sum256 (Payload (As_Manifest a))) =s EncodeHex (Sum256 (Payload (As_Manifest b)))).

Definition terminalPhase (phase : string) : bool :=
  (phase =s "healthy") || (phase =s "rolled_back") || (phase =s "canceled").
Definition prepublication (phase : string) : bool := (phase =s "downloading") || (phase =s "prepared").
Definition awaitingHealth (phase : string) : bool := (phase =s "published") || (phase =s "observing").

(** [net/url]'s value, as far as the code reads it. *)
Record URL := mkURL {
  Scheme : string; Host : string; Hostname : string; HasUser : bool; RawQuery : string; Fragment : string;
  URLPath : string; RawPath : string }.

(** What the updater uses of the standard library beyond text and hashing: [net/url]
    ([urlParse] and the printed form [urlString]), [strings.ToLower], [encoding/json]
    ([decodeJSON]: the strict decoding of a manifest that is its own canonical encoding;
    [transitionBytes]: the encoding of a key transition without its signature) and
    [crypto/ed25519]. Nothing is assumed of them. *)
Class Externals := {
  urlParse : string -> option URL;
  urlString : URL -> string;
  toLower : string -> string;
  decodeJSON : list Z -> option Manifest;
  transitionBytes : KeyTransition -> option (list Z);
  ed25519Verify : list Z -> list Z -> list Z -> bool }.

Section trust.
Context `{Externals}.

(** ** config.go: the server *)

Definition trustedServer (raw : string) : option URL :=
  match urlParse raw with
  | None => None
  | Some parsed =>
      if (Scheme parsed <>s "https") || (Host parsed =s "") || (Hostname parsed =s "") || HasUser parsed
         || (RawQuery parsed <>s "") || (Fragment parsed <>s "") then None else
      if existsb (fun b => (b =? 92) || (b =? 0)) (bytes (URLPath parsed)) || (RawPath parsed <>s "") then None else
      Some (mkURL (Scheme parsed) (toLower (Host parsed)) (Hostname parsed) (HasUser parsed) (RawQuery parsed)
              (Fragment parsed) (TrimRight (URLPath parsed) (Ascii.eqb "/"%char)) (RawPath parsed))
  end.

(** ** protocol/manifest.go and signature.go: signatures *)

Definition MaximumManifestBytes : Z := Z.shiftl 1 20.
Definition PublicKeySize : Z := 32.

Definition DecodeManifest (payload : list Z) : result updateError Manifest :=
  if (llen payload =? 0) || (llen payload >? MaximumManifestBytes) then Err ErrManifest else
  match decodeJSON payload with None => Err ErrManifest | Some m => Ok m end.

Definition VerifyTransition (current : list Z) (next : option KeyTransition) (now : Time) : checked :=
  match next with
  | None => Ok tt
  | Some next =>
      if negb (safeIdentifier (Kt_ID next)) || negb (llen (Kt_PublicKey next) =? PublicKeySize)
         || negb (After (Kt_ExpiresAt next) (Kt_NotBefore next)) || negb (After (Kt_ExpiresAt next) now)
      then Err ErrManifest else
      match transitionBytes next with
      | None => Err ErrSignature
      | Some payload =>
          if negb (llen current =? PublicKeySize) || negb (ed25519Verify current payload (Kt_Signature next))
          then Err ErrSignature else Ok tt
      end
  end.

Definition verifyPinnedSignature (signed : SignedManifest) (trust : SigningTrust) (now : Time) : checked :=
  if Tr_Revoked trust || Before now (Tr_NotBefore trust) || negb (Before now (Tr_ExpiresAt trust))
     || negb (llen (Tr_PublicKey trust) =? PublicKeySize) then Err ErrSignature else
  if negb (ed25519Verify (Tr_PublicKey trust) (Payload signed) (Signature signed)) then Err ErrSignature else Ok tt.

Definition VerifyManifestSignature (signed : SignedManifest) (trust : SigningTrust) (now : Time)
    : result updateError Manifest :=
  let* m := DecodeManifest (Payload signed) in
  let* _ := ValidateManifest m now in
  if Ma_SigningKeyID m <>s Tr_KeyID trust then Err ErrSignature else
  let* _ := verifyPinnedSignature signed trust now in
  let* _ := VerifyTransition (Tr_PublicKey trust) (Ma_NextKey m) now in
  Ok m.

(** ** verify.go *)

(** [signingTrust]: the key with this identifier, when there is exactly one. *)
Definition signingTrust (keys : list SigningTrust) (id : string) : option SigningTrust :=
  match List.filter (fun key => Tr_KeyID key =s id) keys with
  | [key] => Some key
  | _ => None
  end.

(** The steps [validateJournal], [verify] and [proofImage] share: decode, find the key,
    verify at the given time. *)
Definition trustedManifest (keys : list SigningTrust) (signed : SignedManifest) (at_ : Time) : result updateError Manifest :=
  let* decoded := DecodeManifest (Payload signed) in
  match signingTrust keys (Ma_SigningKeyID decoded) with
  | None => Err ErrSignature
  | Some trust => VerifyManifestSignature signed trust at_
  end.

Definition validateJournal (config : Config) (now later : Time) (value : journal) : checked :=
  if (J_Executable value <>s Executable config) || negb (validJournalBinding config now later value) then Err ErrJournal else
  match trustedServer (ServerURL config) with
  | None => Err ErrConfiguration
  | Some expected =>
      match trustedServer (J_ServerURL value) with
      | None => Err ErrJournal
      | Some actual =>
          if urlString actual <>s urlString expected then Err ErrJournal else
          let* m := trustedManifest (Keys config) (As_Manifest (J_Assignment value)) (VerifiedAt value) in
          if negb (validJournalManifest value m) then Err ErrJournal
          else compatibleArtifact config m (As_Artifact (J_Assignment value))
      end
  end.

(** [verify]: the manifest of an acceptable assignment. The stored assignment drops
    the Sigstore bundle. *)
Definition verify (config : Config) (a : Assignment) (at_ : Time) : result updateError (Assignment * Manifest) :=
  if negb (validAssignmentIdentity a (NodeID config) at_) then Err ErrAssignment else
  let* m := trustedManifest (Keys config) (As_Manifest a) at_ in
  if As_ServerSchema a <? Ma_MinimumServerSchema m then Err ErrAssignment else
  let* _ := compatibleArtifact config m (As_Artifact a) in
  if negb (validDirection (As_Action a) (Ma_Version m) (Im_Version (Installed config))) then Err ErrVersion else
  Ok (mkAssignment (As_ServerSchema a) (As_Action a) (As_ID a) (As_RolloutID a) (As_NodeID a) (As_Nonce a)
        (As_ExpiresAt a) (As_Artifact a) (mkSignedManifest (Payload (As_Manifest a)) (Signature (As_Manifest a)) []), m).

(** ** config.go: [New]

    [validExecutablePath] is not modelled: [cleanAbsolute] says whether the path is
    absolute and clean, its last element is [Entrypoint]. *)
Definition validateConfig (cleanAbsolute : bool) (config : Config) : checked :=
  if negb (cleanAbsolute && SafeFilename (Entrypoint config)) then Err ErrConfiguration else
  if negb (ValidSigningKeyID (NodeID config)) || (AgentProtocol config <? 1) then Err ErrConfiguration else
  match trustedServer (ServerURL config) with
  | None => Err ErrConfiguration
  | Some server =>
      match Fetcher config with
      | None => validateTimeouts config
      | Some address =>
          match trustedServer address with
          | None => Err ErrConfiguration
          | Some origin => if urlString origin <>s urlString server then Err ErrConfiguration else validateTimeouts config
          end
      end
  end.

Definition NewUpdater (cleanAbsolute : bool) (runtimeOS runtimeArch : string) (config : Config) : result updateError Config :=
  let config := withDefaults runtimeOS runtimeArch config in
  let* _ := validateConfig cleanAbsolute config in Ok config.
End trust.

(** ** health.go *)

Record HealthEvidence := mkHealthEvidence {
  ProcessID : string; He_Version : string; ConfigParsed : bool; IdentityLoaded : bool;
  ServerAuthenticated : bool; ValidSample : bool; He_At : Time }.

Definition validHealthEvidence (evidence : HealthEvidence) (version : string) : bool :=
  ValidSigningKeyID (ProcessID evidence) && SameReleaseVersion (He_Version evidence) version && ConfigParsed evidence
  && IdentityLoaded evidence && ServerAuthenticated evidence && ValidSample evidence.

Definition trackHealthProcess (value : journal) (processID : string) (automaticCounted : bool) : journal :=
  if HealthProcess value <>s processID then
    let value := if (HealthProcess value <>s "") && negb automaticCounted
                 then set_Restarts (Restarts value + 1) value else value in
    value |> set_HealthProcess processID |> set_FirstHealthyAt 0
  else value.

Definition validObserverAnchor (config : Config) (value : journal) : bool :=
  sameImage (Installed config) (imageFor value) && (awaitingHealth (Phase value) || (Phase value =s "healthy")).
