(* ===== verification/UpdateDisk.v ===== *)
(** * Agent updates: the updater on a disk that can fail

    [internal/agentupdate]: [files.go], [prepare.go], [download.go], [update.go],
    [rollback.go], [recovery.go], [health.go] and [restart_counts.go]. Every file
    operation is one step of a monad over the disk, and at every step the machine may
    do what is asked, report an error, or stop: an update that is interrupted anywhere
    is a value of the model. A step that writes leaves arbitrary bytes behind when it
    fails or is interrupted; a rename or a removal happens entirely or not at all.

    A private JSON file holds the value that was encoded into it. A state directory
    that does not exist is one without files. The in-process mutex and the lock file
    admit one operation at a time: an operation they refuse does nothing. Cancellation
    of a context is one of the errors a step can report, and the fault hook of the tests
    is not set. Where the code skips a second reading of the clock because of the first
    test of a condition, the model makes the reading and ignores it. *)

From S2P Require Import Prelude GoText GoSha256 ReleaseVersion UpdateModel.

(** ** The disk *)

Record file := mkFile { content : list Z; mode : Z }.

(** A file written by [writePrivate]: its value, and whether its temporary is there. *)
Record private (A : Type) := mkPrivate { saved : option A; temporary : bool }.
Arguments mkPrivate {A} saved temporary.
Arguments saved {A} p.
Arguments temporary {A} p.

Record InstallationProof := mkProof { Pr_Manifest : SignedManifest; Pr_ArtifactID : string; Pr_VerifiedAt : Time }.
Record installedReceipt := mkReceipt { Re_Current : InstallationProof; Re_Previous : option InstallationProof }.

(** The executable, the four working files of the state directory ([download.part],
    [previous.bin], [rollback.part], [previous.next]) and its three JSON files
    ([journal.json], [assignment.json], [installed.json]). *)
Record Disk := mkDisk {
  entry : file;
  downloadFile : option file;
  previousFile : option file;
  rollbackFile : option file;
  nextFile : option file;
  journalFile : private journal;
  pendingFile : private Assignment;
  receiptFile : private installedReceipt }.

Inductive name := Download | PreviousBin | Rollback | Next.

Definition get (n : name) (d : Disk) : option file :=
  match n with
  | Download => downloadFile d | PreviousBin => previousFile d | Rollback => rollbackFile d | Next => nextFile d
  end.
Definition put (n : name) (f : option file) (d : Disk) : Disk :=
  let pick m old := match n, m with
                    | Download, Download | PreviousBin, PreviousBin | Rollback, Rollback | Next, Next => f
                    | _, _ => old end in
  mkDisk (entry d) (pick Download (downloadFile d)) (pick PreviousBin (previousFile d)) (pick Rollback (rollbackFile d))
    (pick Next (nextFile d)) (journalFile d) (pendingFile d) (receiptFile d).
Definition set_entry (f : file) (d : Disk) : Disk :=
  mkDisk f (downloadFile d) (previousFile d) (rollbackFile d) (nextFile d) (journalFile d) (pendingFile d) (receiptFile d).

(** A JSON file of the state directory: how to read and replace it. *)
Record slot (A : Type) := mkSlot { s_get : Disk -> private A; s_set : private A -> Disk -> Disk }.
Arguments mkSlot {A} s_get s_set.
Arguments s_get {A} s.
Arguments s_set {A} s.

Definition journalSlot : slot journal := mkSlot journalFile (fun x d =>
  mkDisk (entry d) (downloadFile d) (previousFile d) (rollbackFile d) (nextFile d) x (pendingFile d) (receiptFile d)).
Definition pendingSlot : slot Assignment := mkSlot pendingFile (fun x d =>
  mkDisk (entry d) (downloadFile d) (previousFile d) (rollbackFile d) (nextFile d) (journalFile d) x (receiptFile d)).
Definition receiptSlot : slot installedReceipt := mkSlot receiptFile (fun x d =>
  mkDisk (entry d) (downloadFile d) (previousFile d) (rollbackFile d) (nextFile d) (journalFile d) (pendingFile d) x).

(** ** The monad

    [value] is the journal in memory, which the code changes through its pointer;
    [at_step] counts disk steps and [at_clock] clock readings; [asked] counts the service
    restarts that were requested. *)

Record world := mkWorld { disk : Disk; value : journal; at_step : nat; at_clock : nat; asked : nat }.

Inductive choice := Good | Bad (e : updateError) (left_ : list Z) | Stop (left_ : list Z).

Inductive outcome (A : Type) := Ret (a : A) | Fail (e : updateError) | Crashed.
Arguments Ret {A} a.
Arguments Fail {A} e.
Arguments Crashed {A}.

Definition M (A : Type) : Type := world -> outcome A * world.

Definition ret {A} (a : A) : M A := fun w => (Ret a, w).
Definition fail {A} (e : updateError) : M A := fun w => (Fail e, w).
Definition andThen {A B} (m : M A) (k : A -> M B) : M B := fun w =>
  match m w with
  | (Ret a, w) => k a w
  | (Fail e, w) => (Fail e, w)
  | (Crashed, w) => (Crashed, w)
  end.
(** The error of a call that is inspected instead of returned. *)
Definition attempt {A} (m : M A) : M (result updateError A) := fun w =>
  match m w with
  | (Ret a, w) => (Ret (Ok a), w)
  | (Fail e, w) => (Ret (Err e), w)
  | (Crashed, w) => (Crashed, w)
  end.

Notation "x <~ m ;; k" := (andThen m (fun x => k)) (at level 100, m at next level, k at level 200, right associativity) : go_scope.
Notation "m >>> k" := (andThen m (fun _ => k)) (at level 100, k at level 200, right associativity) : go_scope.

Definition onDisk {A} (f : Disk -> A) : M A := fun w => (Ret (f (disk w)), w).
Definition current : M journal := fun w => (Ret (value w), w).
Definition assign (f : journal -> journal) : M unit := fun w =>
  (Ret tt, mkWorld (disk w) (f (value w)) (at_step w) (at_clock w) (asked w)).
Definition lift {A} (c : result updateError A) : M A := match c with Ok a => ret a | Err e => fail e end.

(** A server's answer to a request for a range of the artifact. *)
Record FetchResponse := mkFetchResponse { Body : option (list Z); Fe_Offset : Z; Fe_Length : Z; Fe_Total : Z }.

Section updater.
Context `{Externals}.
(** The configuration of the process, what happens at each disk step, the clock, and
    what the server answers to a request at an offset for a length; [available] is the
    space that is left. *)
Context (config : Config) (oracle : nat -> choice) (clock : nat -> Time) (available : Z).
Context (fetch : Z -> Z -> result updateError FetchResponse).

Definition Now : M Time := fun w =>
  (Ret (clock (at_clock w)), mkWorld (disk w) (value w) (at_step w) (S (at_clock w)) (asked w)).

(** One disk step: [change] when it succeeds, [partial] when it does not. *)
Definition effect (change : Disk -> Disk) (partial : list Z -> Disk -> Disk) : M unit := fun w =>
  let w' d := mkWorld d (value w) (S (at_step w)) (at_clock w) (asked w) in
  match oracle (at_step w) with
  | Good => (Ret tt, w' (change (disk w)))
  | Bad e left_ => (Fail e, w' (partial left_ (disk w)))
  | Stop left_ => (Crashed, w' (partial left_ (disk w)))
  end.
Definition io : M unit := effect (fun d => d) (fun _ d => d).
Definition change (f : Disk -> Disk) : M unit := effect f (fun _ d => d).

(** ** files.go *)

(** [openInstallation]: the directories are opened, checked and locked. *)
Definition openInstallation : M unit := io.

Section private_files.
Context {A : Type} (s : slot A).

Definition set_temporary (t : bool) (d : Disk) : Disk := s_set s (mkPrivate (saved (s_get s d)) t) d.
Definition set_saved (v : A) (d : Disk) : Disk := s_set s (mkPrivate (Some v) false) d.
Definition forget (d : Disk) : Disk := s_set s (mkPrivate None (temporary (s_get s d))) d.

(** Exclusive creation of the temporary; write, sync and close; rename; sync. *)
Definition writePrivate (v : A) : M unit :=
  exists_ <~ onDisk (fun d => temporary (s_get s d)) ;;
  (if exists_ then fail ErrStorage else change (set_temporary true)) >>>
  written <~ attempt io ;;
  match written with
  | Err e => attempt (change (set_temporary false)) >>> fail e
  | Ok _ =>
      renamed <~ attempt (change (set_saved v)) ;;
      match renamed with
      | Err e => attempt (change (set_temporary false)) >>> fail e
      | Ok _ => io
      end
  end.

Definition readPrivate : M (option A) := io >>> onDisk (fun d => saved (s_get s d)).

(** [safeRemove] of the temporary, and of the file. *)
Definition removeTemporary : M unit :=
  io >>> exists_ <~ onDisk (fun d => temporary (s_get s d)) ;;
  if exists_ then io >>> change (set_temporary false) else ret tt.
Definition removeSaved : M unit :=
  io >>> f <~ onDisk (fun d => saved (s_get s d)) ;;
  match f with None => ret tt | Some _ => io >>> change forget end.
End private_files.

Definition saveJournal : M unit := v <~ current ;; writePrivate journalSlot v.
Definition cleanupJournalTemporary : M unit := removeTemporary journalSlot.

(** [None] when there is no journal; otherwise the journal is in memory. *)
Definition readJournal : M (option journal) :=
  j <~ readPrivate journalSlot ;;
  match j with
  | None => ret None
  | Some v => if negb (validJournal v) then fail ErrJournal else assign (fun _ => v) >>> ret (Some v)
  end.
Definition checkJournal : M unit :=
  now <~ Now ;; later <~ Now ;; v <~ current ;; lift (validateJournal config now later v).

Definition safeRemove (n : name) : M unit :=
  io >>> f <~ onDisk (get n) ;;
  match f with None => ret tt | Some _ => io >>> change (put n None) end.

Definition removeStaging : M unit := safeRemove Download >>> safeRemove Rollback >>> safeRemove Next >>> io.

(** [privateCopy] of at most [limit] bytes into a new file. *)
Definition privateCopy (source : file) (limit : Z) (n : name) : M unit :=
  f <~ onDisk (get n) ;;
  (match f with Some _ => fail ErrStorage | None => change (put n (Some (mkFile [] 384))) end) >>>
  effect (put n (Some (mkFile (take (Z.to_nat limit) (content source)) 384)))
         (fun left_ => put n (Some (mkFile left_ 384))) >>> io.

(** [verifyImage] of an open file: reading it can fail. *)
Definition verifyFile (f : file) (image : Image) : M unit :=
  io >>> lift (verifyImage (Arch config) (content f) image).

Definition openFile (n : name) : M file :=
  io >>> f <~ onDisk (get n) ;; match f with None => fail ErrStorage | Some f => ret f end.

Definition set_mode (m : Z) (n : name) (d : Disk) : Disk :=
  match get n d with Some f => put n (Some (mkFile (content f) m)) d | None => d end.

Definition makeExecutable (n : name) (image : Image) : M unit :=
  f <~ openFile n ;; verifyFile f image >>> change (set_mode 448 n) >>> io.

(** ** update.go: what is at the entry point *)

Definition verifyCurrent (image : Image) : M unit :=
  io >>> f <~ onDisk entry ;;
  if negb (Z.land (mode f) 320 =? 320) then fail ErrManualOnly else
  verified <~ attempt (verifyFile f image) ;;
  match verified with Ok _ => ret tt | Err _ => fail ErrConflict end.

Inductive which := Target | Old.

Definition currentState : M which :=
  io >>> f <~ onDisk entry ;; v <~ current ;;
  target <~ attempt (verifyFile f (imageFor v)) ;;
  match target with
  | Ok _ => ret Target
  | Err _ =>
      old <~ attempt (verifyFile f (Previous v)) ;;
      match old with Ok _ => ret Old | Err _ => fail ErrConflict end
  end.

Definition rename_entry (n : name) (d : Disk) : Disk :=
  match get n d with Some f => put n None (set_entry f d) | None => d end.

Definition replaceEntrypoint (source : name) (expected : Image) : M unit :=
  verifyCurrent expected >>> f <~ onDisk (get source) ;;
  match f with
  | None => fail ErrStorage
  | Some _ => change (rename_entry source) >>> io
  end.

(** ** Restarting the service *)

Definition restart : M unit := fun w =>
  let w' n := mkWorld (disk w) (value w) (S (at_step w)) (at_clock w) n in
  match oracle (at_step w) with
  | Good => (Ret tt, w' (S (asked w)))
  | Bad _ _ => (Fail ErrManager, w' (asked w))
  | Stop _ => (Crashed, w' (S (asked w)))
  end.

Definition restartJournal : M unit :=
  v <~ current ;;
  if Restarted v then ret tt else
  assign (fun v => set_Restarts (Restarts v + 1) v) >>> saveJournal >>> restart >>>
  assign (set_Restarted true) >>> saveJournal.

(** ** prepare.go *)

Definition rename_previous (d : Disk) : Disk :=
  match get Next d with Some f => put Next None (put PreviousBin (Some f) d) | None => d end.

Definition replacePrevious (source : file) (image : Image) : M unit :=
  safeRemove Next >>> privateCopy source (Im_Size image + 1) Next >>>
  f <~ openFile Next ;; verifyFile f image >>> change rename_previous >>> io.

Definition prepare : M unit :=
  v <~ current ;; io >>> f <~ onDisk entry ;;
  verified <~ attempt (verifyFile f (Previous v)) ;;
  match verified with
  | Err _ => fail ErrConflict
  | Ok _ =>
      replacePrevious f (Previous v) >>> makeExecutable Download (imageFor v) >>>
      assign (set_Phase "prepared") >>> saveJournal
  end.

(** ** download.go *)

Definition append (chunk : list Z) (d : Disk) : Disk :=
  match get Download d with
  | Some f => put Download (Some (mkFile (content f ++ chunk) (mode f))) d
  | None => d
  end.

(** [downloadChunk]: the bytes of a body that is too short, or whose copy fails, stay in
    the file; one byte more than asked for is an error after the copy. *)
Definition downloadChunk (offset length total : Z) : M unit :=
  response <~ lift (fetch offset length) ;;
  match Body response with
  | None => fail ErrDownload
  | Some body =>
      if negb (Fe_Offset response =? offset) || negb (Fe_Length response =? length) || negb (Fe_Total response =? total)
      then fail ErrDownload else
      let part := take (Z.to_nat length) body in
      copied <~ attempt (effect (append part) append) ;;
      match copied with
      | Err _ => fail ErrDownload
      | Ok _ => if negb (llen body =? length) then fail ErrDownload else ret tt
      end
  end.

(** Each round transfers at least one byte, so one round per missing byte is enough;
    the case of no rounds left is not reached. *)
Fixpoint transfer_loop (fuel : nat) (expires : Time) : M unit :=
  v <~ current ;;
  let size := Ar_Size (As_Artifact (J_Assignment v)) in
  if Downloaded v >=? size then ret tt else
  match fuel with
  | O => fail ErrDownload
  | S fuel =>
      io >>> now <~ Now ;; later <~ Now ;;
      if negb (Before now (As_ExpiresAt (J_Assignment v))) || negb (Before later expires) then fail ErrAssignment else
      let length := Z.min ChunkBytes (size - Downloaded v) in
      downloadChunk (Downloaded v) length size >>> io >>>
      assign (set_Downloaded (Downloaded v + length)) >>> saveJournal >>> transfer_loop fuel expires
  end.

Definition transferChunks : M unit :=
  v <~ current ;;
  m <~ lift (DecodeManifest (Payload (As_Manifest (J_Assignment v)))) ;;
  transfer_loop (Z.to_nat (Ar_Size (As_Artifact (J_Assignment v)) - Downloaded v)) (Ma_ExpiresAt m).

Definition create_download (d : Disk) : Disk :=
  match get Download d with Some _ => d | None => put Download (Some (mkFile [] 384)) d end.
Definition truncate (n : Z) (d : Disk) : Disk :=
  match get Download d with
  | Some f => put Download (Some (mkFile (take (Z.to_nat n) (content f)) (mode f))) d
  | None => d
  end.

(** The hash that the code feeds with the bytes it keeps and the bytes it appends is
    the hash of the file. *)
Definition download : M unit :=
  match Fetcher config with
  | None => fail ErrConfiguration
  | Some _ =>
      change create_download >>> f <~ openFile Download ;; v <~ current ;;
      if llen (content f) <? Downloaded v then fail ErrJournal else
      change (truncate (Downloaded v)) >>> io >>> transferChunks >>>
      f <~ openFile Download ;; v <~ current ;;
      if EncodeHex (Sum256 (content f)) <>s Ar_SHA256 (As_Artifact (J_Assignment v)) then fail ErrIntegrity else
      verifyFile f (imageFor v)
  end.

Definition maximumJournalBytes : Z := Z.shiftl 2 20.
Definition checkSpace : M unit :=
  io >>> v <~ current ;;
  let required := Ar_Size (As_Artifact (J_Assignment v)) - Downloaded v + Im_Size (Previous v) + maximumJournalBytes in
  if available <? required mod 2 ^ 64 then fail ErrStorage else ret tt.

Definition downloadAndPrepare : M unit :=
  v <~ current ;; verifyCurrent (Previous v) >>> checkSpace >>> download >>> prepare.

(** ** update.go: publishing *)

Definition verifyCandidate : M unit :=
  f <~ openFile Download ;; v <~ current ;; verifyFile f (imageFor v).

Definition publish : M unit :=
  v <~ current ;; verifyCurrent (Previous v) >>> verifyCandidate >>>
  (if IsZero (PublishedAt v)
   then now <~ Now ;; assign (set_Published now (Add now (StartupTimeout config + ObservationWindow config)))
   else ret tt) >>>
  saveJournal >>> replaceEntrypoint Download (Previous v) >>>
  assign (set_Phase "published") >>> saveJournal.

(** ** rollback.go *)

Definition stageRollback : M unit :=
  previous <~ openFile PreviousBin ;; v <~ current ;;
  verifyFile previous (Previous v) >>> safeRemove Rollback >>>
  privateCopy previous (Im_Size (Previous v) + 1) Rollback >>> makeExecutable Rollback (Previous v).

Definition finishPrevious (reason : string) : M unit :=
  v <~ current ;;
  if Phase v =s "rollback_prepared" then
    assign (fun v => v |> set_Phase "rolled_back" |> set_Reason reason) >>> io >>> saveJournal >>> restartJournal
  else if Phase v =s "rolled_back" then restartJournal
  else assign (fun v => v |> set_Phase "canceled" |> set_Reason reason) >>> saveJournal.

Definition rollbackLocked (reason : string) : M unit :=
  state <~ currentState ;;
  match state with
  | Old => finishPrevious reason
  | Target =>
      stageRollback >>>
      assign (fun v => v |> set_Phase "rollback_prepared" |> set_Reason reason |> set_Restarted false) >>>
      saveJournal >>> v <~ current ;; replaceEntrypoint Rollback (imageFor v) >>>
      assign (set_Phase "rolled_back") >>> saveJournal >>> restartJournal
  end.

Definition UpdaterRollback : M unit :=
  lift (managementGate config) >>> openInstallation >>> j <~ readJournal ;;
  match j with
  | None => ret tt
  | Some _ => checkJournal >>> rollbackLocked "rollback_requested"
  end.

(** ** update.go: applying an assignment *)

Definition applyLocked : M unit :=
  v <~ current ;;
  if awaitingHealth (Phase v) then verifyCurrent (imageFor v) else
  (if Phase v =s "downloading" then downloadAndPrepare else ret tt) >>>
  v <~ current ;;
  if Phase v <>s "prepared" then fail ErrBusy else
  now <~ Now ;;
  lift (verify config (J_Assignment v) now) >>> publish >>>
  restarted <~ attempt restartJournal ;;
  match restarted with
  | Ok _ => ret tt
  | Err e => attempt (rollbackLocked "restart_failed") >>> fail e
  end.

(** [begin]: go on with the stored update, or start a new one after a finished one. *)
Definition newJournal (a : Assignment) (m : Manifest) (verifiedAt : Time) : journal :=
  mkJournal "" 0 false journalVersion (ServerURL config) (Executable config) a (Installed config) (Ma_Version m)
    verifiedAt "downloading" "" 0 0 0 0 0.

Definition begin (a : Assignment) (m : Manifest) (verifiedAt : Time) : M unit :=
  cleanupJournalTemporary >>> j <~ readJournal ;;
  fresh <~ match j with
           | None => ret true
           | Some existing =>
               checkJournal >>>
               if negb (terminalPhase (Phase existing)) && negb (sameAssignment (J_Assignment existing) a) then fail ErrBusy
               else ret (terminalPhase (Phase existing))
           end ;;
  if fresh then removeStaging >>> assign (fun _ => newJournal a m verifiedAt) >>> saveJournal else ret tt.

Definition Apply (a : Assignment) : M unit :=
  if negb (Enabled config) then fail ErrDisabled else
  lift (managementGate config) >>> at_ <~ Now ;;
  verified <~ lift (verify config a at_) ;;
  openInstallation >>> begin verified.1 verified.2 at_ >>> applyLocked.

(** ** recovery.go *)

Definition reconcilePhase (state : which) : M unit :=
  v <~ current ;;
  if str_in (Phase v) ["downloading"; "canceled"; "rolled_back"] then
    match state with Old => ret tt | Target => fail ErrConflict end
  else if Phase v =s "prepared" then
    match state with
    | Target => assign (set_Phase "published") >>> io >>> saveJournal
    | Old => ret tt
    end
  else if Phase v =s "rollback_prepared" then rollbackLocked (J_Reason v)
  else if str_in (Phase v) ["published"; "observing"; "healthy"] then
    match state with Target => ret tt | Old => fail ErrConflict end
  else ret tt.

Definition recoverLocked : M unit :=
  state <~ currentState ;; reconcilePhase state >>>
  v <~ current ;;
  if awaitingHealth (Phase v) then
    now <~ Now ;;
    if negb (Before now (Deadline v)) then rollbackLocked "watchdog_timeout" else restartJournal
  else if Phase v =s "rolled_back" then restartJournal
  else ret tt.

Definition Recover : M unit :=
  lift (managementGate config) >>> openInstallation >>> cleanupJournalTemporary >>> j <~ readJournal ;;
  match j with
  | None => ret tt
  | Some _ => checkJournal >>> recoverLocked
  end.

Definition UpdaterCancel : M unit :=
  lift (managementGate config) >>> openInstallation >>> j <~ readJournal ;;
  match j with
  | None => ret tt
  | Some v =>
      checkJournal >>>
      if negb (prepublication (Phase v)) then fail ErrBusy else
      verifyCurrent (Previous v) >>> removeStaging >>>
      assign (fun v => v |> set_Phase "canceled" |> set_Reason "canceled") >>> saveJournal
  end.

(** ** health.go *)

(** [observeManagerRestarts]: [counted] is the service manager's count of automatic
    restarts, [None] when the manager does not keep one. *)
Definition observeManagerRestarts (counted : option Z) : M bool :=
  match counted with
  | None => ret false
  | Some count =>
      asked_ <~ attempt io ;;
      if negb (is_ok asked_) then fail ErrManager else
      if (count <? 0) || (count >=? maximumLocalFailures) then fail ErrManager else
      v <~ current ;;
      if count + 1 <=? Restarts v then ret false
      else assign (set_Restarts (count + 1)) >>> ret true
  end.

Definition observeCompleted (evidence : HealthEvidence) (countersChanged : bool) : M unit :=
  v <~ current ;; now <~ Now ;;
  if negb (validHealthEvidence evidence (TargetVersion v)) || Before (He_At evidence) (LastHealthyAt v)
     || After (He_At evidence) (Add now Second) then fail ErrHealth else
  if ProcessID evidence =s HealthProcess v then (if countersChanged then saveJournal else ret tt) else
  assign (set_HealthProcess (ProcessID evidence)) >>>
  (if countersChanged then ret tt else assign (fun v => set_Restarts (Restarts v + 1) v)) >>> saveJournal.

(** The journal after one piece of accepted evidence. *)
Definition recordHealth (evidence : HealthEvidence) (counted : bool) (v : journal) : journal :=
  let v := trackHealthProcess v (ProcessID evidence) counted in
  let v := if IsZero (FirstHealthyAt v) || (Sub (He_At evidence) (LastHealthyAt v) >? MaximumObservationGap config)
           then set_FirstHealthyAt (He_At evidence) v else v in
  let v := v |> set_LastHealthyAt (He_At evidence) |> set_Phase "observing" in
  if Sub (He_At evidence) (FirstHealthyAt v) >=? ObservationWindow config then set_Phase "healthy" v else v.

Definition observeHealth (evidence : HealthEvidence) (counted : bool) : M unit :=
  now <~ Now ;; v <~ current ;;
  if negb (Before now (Deadline v)) then rollbackLocked "watchdog_timeout" else
  if Before (He_At evidence) (PublishedAt v) || After (He_At evidence) (Add now Second)
     || Before (He_At evidence) (LastHealthyAt v) then fail ErrHealth else
  if negb (validHealthEvidence evidence (TargetVersion v)) then rollbackLocked "watchdog_failed" else
  assign (recordHealth evidence counted) >>> saveJournal.

Definition Observe (evidence : HealthEvidence) (counted : option Z) : M unit :=
  lift (managementGate config) >>> openInstallation >>> j <~ readJournal ;;
  match j with
  | None => ret tt
  | Some v =>
      checkJournal >>>
      if negb (validObserverAnchor config v) then fail ErrHealth else
      verifyCurrent (imageFor v) >>> changed <~ observeManagerRestarts counted ;;
      v <~ current ;;
      if Phase v =s "healthy" then observeCompleted evidence changed else observeHealth evidence changed
  end.
End updater.
