(* ===== verification/UpdateSupervisor.v ===== *)
(** * Agent updates: pending assignments, installation receipts and the supervisor

    [internal/agentupdate]: [local_state.go], [failed_assignment.go], [receipt.go],
    [status.go] and [supervisor.go], on the disk of [UpdateDisk]. What the supervisor
    sends to the server is a parameter ([send]: the error of the request, if any). *)

From S2P Require Import Prelude GoText GoSha256 ReleaseVersion UpdateModel UpdateDisk.

Record Observation := mkObservation {
  Ob_AssignmentID : string; Ob_Nonce : string; Ob_Version : string; Ob_ReportAt : Time; Ob_Restarts : Z; Ob_Outcome : string }.

(** [errors.Is] of an error against one of the package's values: the three refined
    assignment errors wrap [ErrAssignment]. *)
Definition errors_Is (e target : updateError) : bool :=
  bool_decide (e = target)
  || bool_decide (target = ErrAssignment)
     && (bool_decide (e = ErrAssignmentEntrypoint) || bool_decide (e = ErrAssignmentProtocol) || bool_decide (e = ErrAssignmentArtifact)).

(** status.go *)
Definition ErrorCode (e : updateError) : string :=
  if errors_Is e ErrDisabled then "disabled" else
  if errors_Is e ErrExternalManager then "external_manager" else
  if errors_Is e ErrManualOnly || errors_Is e ErrConfiguration || errors_Is e ErrUnsafePath then "manual_only" else
  if errors_Is e ErrBusy then "busy" else
  if errors_Is e ErrSignature then "trust_rejected" else
  if errors_Is e ErrConflict then "conflict" else "update_failed".

Definition activeJournal (value : option journal) : bool :=
  match value with None => false | Some v => negb (terminalPhase (Phase v)) end.

Section supervisor.
Context `{Externals} (config : Config) (oracle : nat -> choice) (clock : nat -> Time) (available : Z).
Context (fetch : Z -> Z -> result updateError FetchResponse).

(** ** local_state.go *)

Definition admitEnqueue (a : Assignment) : M unit :=
  if negb (Enabled config) then fail ErrDisabled else
  lift (managementGate config) >>> now <~ Now clock ;;
  lift (verify config a now) >>> ret tt.

Definition Enqueue (a : Assignment) : M unit :=
  admitEnqueue a >>> openInstallation oracle >>> current <~ readJournal oracle ;;
  if activeJournal current then fail ErrBusy else
  removeTemporary oracle pendingSlot >>> writePrivate oracle pendingSlot a.

Definition Pending : M (option Assignment) :=
  openInstallation oracle >>> stored <~ readPrivate oracle pendingSlot ;;
  match stored with
  | None => ret None
  | Some a =>
      current <~ readJournal oracle ;;
      match current with
      | Some v => if sameAssignment (J_Assignment v) a && negb (prepublication (Phase v)) then ret None else ret (Some a)
      | None => ret (Some a)
      end
  end.

Definition ObservationOf (at_ : Time) : M (option Observation) :=
  openInstallation oracle >>> stored <~ readJournal oracle ;;
  match stored with
  | None => ret None
  | Some v =>
      checkJournal config clock >>>
      let observation version outcome :=
        Some (mkObservation (As_ID (J_Assignment v)) (As_Nonce (J_Assignment v)) version at_ (Restarts v) outcome) in
      if Phase v =s "healthy" then ret (observation (TargetVersion v) "healthy")
      else if Phase v =s "rolled_back" then ret (observation (Im_Version (Previous v)) "rolled_back")
      else ret None
  end.

(** ** failed_assignment.go *)

Definition fatalTransfer (e : updateError) (a : Assignment) : M bool :=
  now <~ Now clock ;;
  ret (errors_Is e ErrIntegrity || errors_Is e ErrFormat || errors_Is e DeadlineExceeded
       || negb (Before now (As_ExpiresAt a))).

Definition discardPending (a : Assignment) : M unit :=
  openInstallation oracle >>> stored <~ readPrivate oracle pendingSlot ;;
  match stored with
  | None => ret tt
  | Some current =>
      if negb (sameAssignment current a) then fail ErrBusy else removeSaved oracle pendingSlot >>> io oracle
  end.

(** What the supervisor's step leaves for its caller: the error it returns, if any, and
    the observation it sent to the server, if any. *)
Record report := mkReport { rp_error : option updateError; rp_sent : option Observation }.

(** The memory before a journal is read. *)
Definition zeroJournal : journal :=
  mkJournal "" 0 false 0 "" "" (mkAssignment 0 "" "" "" "" "" 0 (mkArtifact "" "" "" "" "" "" 0 "" "" "" "") (mkSignedManifest [] [] []))
    (mkImage "" 0 "") "" 0 "" "" 0 0 0 0 0.

(** [httpFetcher]: the configured fetcher is the HTTP one, so there is a client to report
    with; what becomes of the request only adds to the error that is returned anyway. *)
Context (httpFetcher : bool).

Definition applyPending (a : Assignment) : M report :=
  applied <~ attempt (Apply config oracle clock available fetch a) ;;
  match applied with
  | Ok _ => ret (mkReport None None)
  | Err applyErr =>
      fatal <~ fatalTransfer applyErr a ;;
      if negb fatal then ret (mkReport (Some applyErr) None) else
      assign (fun _ => zeroJournal) >>> canceled <~ attempt (UpdaterCancel config oracle clock) ;; v <~ current ;;
      if match canceled with Err e => negb (errors_Is e ErrBusy) | Ok _ => false end then ret (mkReport (Some applyErr) None) else
      discarded <~ attempt (discardPending a) ;;
      if negb (is_ok discarded) || negb httpFetcher then ret (mkReport (Some applyErr) None) else
      now <~ Now clock ;;
      let version := if Phase v =s "canceled" then Im_Version (Previous v) else Im_Version (Installed config) in
      ret (mkReport (Some applyErr) (Some (mkObservation (As_ID a) (As_Nonce a) version now 0 "failed")))
  end.
End supervisor.

(** ** receipt.go *)

Definition set_Installed (image : Image) (c : Config) : Config :=
  mkConfig (Enabled c) (Container c) (Executable c) (Entrypoint c) (NodeID c) (ServerURL c) image (Keys c) (Manager c)
    (Fetcher c) (OS c) (Arch c) (AgentProtocol c) (DownloadTimeout c) (StartupTimeout c) (ObservationWindow c)
    (MaximumObservationGap c).

Section receipts.
Context `{Externals} (config : Config) (oracle : nat -> choice) (clock : nat -> Time).

(** The loop over the artifacts: the first one with the identifier decides. *)
Fixpoint proof_artifact (m : Manifest) (artifacts : list Artifact) (id : string) : result updateError Image :=
  match artifacts with
  | [] => Err ErrAssignment
  | a :: rest =>
      if Ar_ID a <>s id then proof_artifact m rest id else
      let* _ := compatibleArtifact config m a in Ok (mkImage (Ma_Version m) (Ar_Size a) (Ar_SHA256 a))
  end.

Definition proofImage (proof : InstallationProof) (now : Time) : result updateError Image :=
  if IsZero (Pr_VerifiedAt proof) || After (Pr_VerifiedAt proof) now then Err ErrJournal else
  let* m := trustedManifest (Keys config) (Pr_Manifest proof) (Pr_VerifiedAt proof) in
  proof_artifact m (Ma_Artifacts m) (Pr_ArtifactID proof).

Definition saveInstalled (receipt : installedReceipt) : M unit :=
  removeTemporary oracle receiptSlot >>> writePrivate oracle receiptSlot receipt.

Definition bootstrapGate : checked :=
  if Container config then Err ErrExternalManager else
  if (OS config <>s "linux") || (Arch config <>s "amd64") && (Arch config <>s "arm64") then Err ErrManualOnly else Ok tt.

Definition Bootstrap (signed : SignedManifest) (artifactID : string) : M Image :=
  lift bootstrapGate >>> at_ <~ Now clock ;;
  let proof := mkProof signed artifactID at_ in
  now <~ Now clock ;; image <~ lift (proofImage proof now) ;;
  openInstallation oracle >>> verifyCurrent config oracle image >>> existing <~ readPrivate oracle receiptSlot ;;
  match existing with
  | Some receipt =>
      now <~ Now clock ;;
      match proofImage (Re_Current receipt) now with
      | Ok previous => if sameImage previous image then ret image else fail ErrConflict
      | Err _ => fail ErrConflict
      end
  | None =>
      saveInstalled (mkReceipt (mkProof (mkSignedManifest (Payload signed) (Signature signed) []) artifactID at_) None) >>>
      ret image
  end.
End receipts.

Section resolve.
Context `{Externals} (config : Config) (oracle : nat -> choice) (clock : nat -> Time).

Definition restoreReceipt (v : journal) (receipt : installedReceipt) : M Image :=
  if sameImage (Installed config) (Previous v) then ret (Previous v) else
  match Re_Previous receipt with
  | None => fail ErrJournal
  | Some proof =>
      now <~ Now clock ;;
      match proofImage config proof now with
      | Ok previous => if negb (sameImage previous (Previous v)) then fail ErrJournal else
                       saveInstalled oracle (mkReceipt proof None) >>> ret (Previous v)
      | Err _ => fail ErrJournal
      end
  end.

Definition resolveJournalImage (v : journal) (receipt : installedReceipt) : M Image :=
  state <~ currentState config oracle ;;
  match state with
  | Old => restoreReceipt v receipt
  | Target =>
      let target := imageFor v in
      if (Phase v <>s "healthy") || sameImage (Installed config) target then ret target else
      let proof := mkProof (As_Manifest (J_Assignment v)) (Ar_ID (As_Artifact (J_Assignment v))) (VerifiedAt v) in
      saveInstalled oracle (mkReceipt proof (Some (Re_Current receipt))) >>> ret target
  end.
End resolve.

Section steps.
Context `{Externals} (config : Config) (oracle : nat -> choice) (clock : nat -> Time) (available : Z).
Context (fetch : Z -> Z -> result updateError FetchResponse) (httpFetcher : bool).

(** [ResolveInstalled]: the image at the entry point, and the proof that is kept for it. *)
Definition ResolveInstalled : M Image :=
  openInstallation oracle >>> read <~ attempt (readPrivate oracle receiptSlot) ;;
  match read with
  | Err _ | Ok None => fail ErrManualOnly
  | Ok (Some receipt) =>
      now <~ Now clock ;; anchor <~ lift (proofImage config (Re_Current receipt) now) ;;
      let config := set_Installed anchor config in
      stored <~ readJournal oracle ;;
      match stored with
      | Some v => checkJournal config clock >>> resolveJournalImage config oracle clock v receipt
      | None => verifyCurrent config oracle anchor >>> ret anchor
      end
  end.

(** ** supervisor.go *)

Definition readyForAssignment (config : Config) (phase : string) : bool :=
  Enabled config && (terminalPhase phase || prepublication phase || (phase =s "idle")).

(** [reportRollback]: [lastReported] is the assignment whose rollback was reported last,
    [accepted] whether the server accepts the request. The new [lastReported], and the
    observation that was sent. *)
Definition reportRollback (config : Config) (lastReported : string) (accepted : result updateError unit)
    : M (string * report) :=
  now <~ Now clock ;; observed <~ attempt (ObservationOf config oracle clock now) ;;
  match observed with
  | Err e => ret (lastReported, mkReport (Some e) None)
  | Ok None => ret (lastReported, mkReport None None)
  | Ok (Some observation) =>
      if (Ob_AssignmentID observation =s lastReported) || negb httpFetcher then ret (lastReported, mkReport None None) else
      match accepted with
      | Err e => ret (lastReported, mkReport (Some e) (Some observation))
      | Ok _ => ret (Ob_AssignmentID observation, mkReport None (Some observation))
      end
  end.

(** One step of the supervisor, with the updater that [Build] makes: the configuration
    with the image that [ResolveInstalled] finds. *)
Definition step (lastReported : string) (accepted : result updateError unit) : M (string * list report) :=
  image <~ ResolveInstalled ;;
  let config := set_Installed image config in
  assign (fun _ => zeroJournal) >>> Recover config oracle clock >>> v <~ current ;;
  let phase := if Phase v =s "" then "idle" else Phase v in
  reported <~ (if phase =s "rolled_back" then reportRollback config lastReported accepted
               else ret (lastReported, mkReport None None)) ;;
  let (lastReported, first) := reported in
  match rp_error first with
  | Some e => ret (lastReported, [first])
  | None =>
      if negb (readyForAssignment config phase) then ret (lastReported, [first]) else
      pending <~ attempt (Pending oracle) ;;
      match pending with
      | Err e => ret (lastReported, [first; mkReport (Some e) None])
      | Ok None => ret (lastReported, [first])
      | Ok (Some a) =>
          second <~ applyPending config oracle clock available fetch httpFetcher a ;; ret (lastReported, [first; second])
      end
  end.
End steps.
