(* ===== verification/UpdateLogic.v ===== *)
(** * Agent updates: what an update keeps true of the disk, and how to prove it

    The promise of [internal/agentupdate]: whatever is interrupted, the executable is a
    known image that can be started, and after a publication the previous image is there
    to go back to. [disk_ok] states it of a disk, by the phase of the journal that is
    stored. [wp] is the weakest precondition of an operation for a postcondition, where
    the disk satisfies [disk_ok] whenever the operation returns, fails or is stopped. *)

From S2P Require Import Prelude GoText GoSha256 ReleaseVersion UpdateModel UpdateDisk.

(** ** What [verify] and [validateJournal] establish *)

Section verified.
Context `{Externals}.

Lemma manifest_contains_elem l a : manifest_contains l a = Ok tt -> a ∈ l.
Proof.
  induction l as [|c l IH]; cbn; [done|]. destruct (Ar_ID c =s Ar_ID a).
  - case_decide; [subst; by constructor|done].
  - intros Ha. constructor. by apply IH.
Qed.

Lemma compatible_contains config m a : compatibleArtifact config m a = Ok tt -> a ∈ Ma_Artifacts m.
Proof. unfold compatibleArtifact. intros Hc. repeat (go_case_in Hc; [done|]). by apply manifest_contains_elem. Qed.

(** The Sigstore bundle plays no part. *)
Lemma trustedManifest_bundle keys p sig b b' t :
  trustedManifest keys (mkSignedManifest p sig b) t = trustedManifest keys (mkSignedManifest p sig b') t.
Proof. done. Qed.

Lemma verify_ok config a t a' m : verify config a t = Ok (a', m) ->
  validAssignmentIdentity a (NodeID config) t = true /\ trustedManifest (Keys config) (As_Manifest a) t = Ok m /\
  compatibleArtifact config m (As_Artifact a) = Ok tt /\ As_Artifact a' = As_Artifact a /\
  As_ExpiresAt a' = As_ExpiresAt a /\ trustedManifest (Keys config) (As_Manifest a') t = Ok m /\
  Payload (As_Manifest a') = Payload (As_Manifest a).
Proof.
  unfold verify. intros Hv. go_case_in Hv; [done|]. go_bool. destruct (trustedManifest _ _ _) as [m'|] eqn:Em; [|done]. cbn [bind] in Hv.
  go_case_in Hv; [done|]. destruct (compatibleArtifact _ _ _) as [[]|] eqn:Ec; [|done]. cbn [bind] in Hv. go_case_in Hv; [done|].
  simplify_eq. done.
Qed.

Lemma verify_stripped config a t a' m t' : verify config a t = Ok (a', m) -> verify config a' t' = verify config a t'.
Proof.
  unfold verify at 1. intros Hv. go_case_in Hv; [done|]. destruct (trustedManifest _ _ _) as [m'|]; [|done]. cbn [bind] in Hv.
  go_case_in Hv; [done|]. destruct (compatibleArtifact _ _ _) as [[]|]; [|done]. cbn [bind] in Hv. go_case_in Hv; [done|].
  simplify_eq. by destruct a as [? ? ? ? ? ? ? ? []].
Qed.

(** What a trusted manifest promises of its artifacts and dates. *)
Lemma trustedManifest_ok keys s t m : trustedManifest keys s t = Ok m ->
  DecodeManifest (Payload s) = Ok m /\ ValidateManifest m t = Ok tt.
Proof.
  unfold trustedManifest. destruct (DecodeManifest (Payload s)) as [m'|] eqn:Em; [|done]. cbn [bind].
  destruct (signingTrust keys (Ma_SigningKeyID m')) as [trust|]; [|done]. unfold VerifyManifestSignature. rewrite Em. cbn [bind].
  destruct (ValidateManifest m' t) as [[]|] eqn:Ev; [|done]. cbn [bind]. intros Hm. repeat (go_case_in Hm; [done|]).
  destruct (verifyPinnedSignature _ _ _) as [[]|]; [|done]. cbn [bind] in Hm. destruct (VerifyTransition _ _ _) as [[]|]; [|done].
  cbn [bind] in Hm. by simplify_eq.
Qed.

Lemma artifacts_loop_valid l ids platforms : artifacts_loop ids platforms l = Ok tt -> forall a, a ∈ l -> ValidateArtifact a = Ok tt.
Proof.
  revert ids platforms. induction l as [|c l IH]; intros ids platforms Hl a Ha; [by apply elem_of_nil in Ha|].
  cbn [artifacts_loop] in Hl. destruct (ValidateArtifact c) as [[]|] eqn:Ec; [|done]. cbn [bind] in Hl. go_case_in Hl; [done|].
  apply elem_of_cons in Ha as [->|Ha]; [done|]. by eapply IH.
Qed.

Lemma valid_artifact_size m t a : ValidateManifest m t = Ok tt -> a ∈ Ma_Artifacts m -> 0 < Ar_Size a <= MaximumArtifactBytes.
Proof.
  unfold ValidateManifest, validateManifestArtifacts. intros Hv Ha. repeat (go_case_in Hv; [done|]).
  pose proof (artifacts_loop_valid _ _ _ Hv a Ha) as Hok. unfold ValidateArtifact in Hok. go_case_in Hok; [done|].
  unfold validArtifactPayload in *. go_bool. tauto.
Qed.

Lemma valid_manifest_unexpired m t : ValidateManifest m t = Ok tt -> t < Ma_ExpiresAt m.
Proof.
  unfold ValidateManifest. intros Hv. go_case_in Hv; [done|]. unfold validManifestDates, After in *. go_bool. tauto.
Qed.

Lemma verify_unexpired config a t a' m : verify config a t = Ok (a', m) -> t < As_ExpiresAt a.
Proof. intros [Hi _]%verify_ok. unfold validAssignmentIdentity, After in Hi. go_bool. tauto. Qed.
End verified.

Section invariant.
Context `{Externals} (arch : string) (keys : list SigningTrust).

(** The bytes of [f] are the image [i], an executable for the architecture. *)
Definition runs (f : file) (i : Image) : Prop := verifyImage arch (content f) i = Ok tt.
#[global] Instance runs_dec f i : Decision (runs f i).
Proof.
  unfold runs. destruct (verifyImage arch (content f) i) as [[]|e]; [by left|by right].
Defined.

Definition startable (f : file) : Prop := Z.land (mode f) 320 = 320.

(** The target of the update is an artifact of a manifest that a configured key signed. *)
Definition authentic (v : journal) : Prop :=
  exists at_ m, trustedManifest keys (As_Manifest (J_Assignment v)) at_ = Ok m /\
    As_Artifact (J_Assignment v) ∈ Ma_Artifacts m /\ Ma_Version m = TargetVersion v.

Lemma verify_authentic config a t a' m : Keys config = keys ->
  verify config a t = Ok (a', m) -> authentic (newJournal config a' m t).
Proof.
  intros Hk (_ & _ & Hc & Ha & _ & Hm & _)%verify_ok. exists t, m. rewrite <- Hk. split; [done|]. split; [|done].
  cbn. rewrite Ha. by eapply compatible_contains.
Qed.

Definition kept (v : journal) (d : Disk) : Prop := exists f, previousFile d = Some f /\ runs f (Previous v).

Definition one_of_two (v : journal) (d : Disk) : Prop := runs (entry d) (Previous v) \/ runs (entry d) (imageFor v).

(** The executable is the previous image. *)
Definition old_phase (phase : string) : bool := str_in phase ["downloading"; "canceled"; "rolled_back"].
(** The entry point is about to be replaced. *)
Definition switching (phase : string) : bool := str_in phase ["prepared"; "rollback_prepared"].

Definition agrees (v : journal) (d : Disk) : Prop :=
  authentic v /\
  (old_phase (Phase v) = true -> runs (entry d) (Previous v)) /\
  (old_phase (Phase v) = false -> kept v d /\ one_of_two v d) /\
  (old_phase (Phase v) = false -> switching (Phase v) = false -> runs (entry d) (imageFor v)) /\
  (Phase v = "prepared" -> forall f, downloadFile d = Some f -> startable f).

Definition disk_ok (d : Disk) : Prop :=
  startable (entry d) /\ forall v, saved (journalFile d) = Some v -> agrees v d.

(** [agrees] reads the update and its phase in the journal, and three files. *)
Lemma agrees_ext v v' d d' :
  J_Assignment v' = J_Assignment v -> Previous v' = Previous v -> TargetVersion v' = TargetVersion v ->
  Phase v' = Phase v -> entry d' = entry d -> previousFile d' = previousFile d -> downloadFile d' = downloadFile d ->
  agrees v d -> agrees v' d'.
Proof.
  unfold agrees, authentic, kept, one_of_two, imageFor.
  intros -> -> -> -> -> -> ->. done.
Qed.

Lemma disk_ok_ext d d' :
  entry d' = entry d -> previousFile d' = previousFile d -> downloadFile d' = downloadFile d ->
  saved (journalFile d') = saved (journalFile d) -> disk_ok d -> disk_ok d'.
Proof.
  intros He Hp Hd Hj [Hs Hv]. split; [by rewrite He|]. intros v Hv'. rewrite Hj in Hv'.
  by eapply agrees_ext; [..|apply Hv].
Qed.

(** The same update at another moment. *)
Definition same_update (v v' : journal) : Prop :=
  J_Assignment v' = J_Assignment v /\ Previous v' = Previous v /\ TargetVersion v' = TargetVersion v.

Lemma authentic_same v v' : same_update v v' -> authentic v -> authentic v'.
Proof. unfold authentic. intros (-> & _ & ->). done. Qed.

Lemma agrees_same v v' d : same_update v v' -> Phase v' = Phase v -> agrees v d -> agrees v' d.
Proof. intros (? & ? & ?) ?. by apply agrees_ext. Qed.

(** [agrees] by kind of phase. *)
Lemma agrees_old v d : authentic v -> old_phase (Phase v) = true -> runs (entry d) (Previous v) -> agrees v d.
Proof.
  intros Ha Hp Hr. repeat split; try done; try congruence. intros E. by rewrite E in Hp.
Qed.

Lemma agrees_prepared v d : authentic v -> Phase v = "prepared" -> kept v d -> one_of_two v d ->
  (forall f, downloadFile d = Some f -> startable f) -> agrees v d.
Proof. intros Ha Hp Hk Ho Hd. unfold agrees. rewrite Hp. done. Qed.

Lemma agrees_rolling v d : authentic v -> Phase v = "rollback_prepared" -> kept v d -> one_of_two v d -> agrees v d.
Proof. intros Ha Hp Hk Ho. unfold agrees. rewrite Hp. done. Qed.

Lemma agrees_new v d : authentic v -> old_phase (Phase v) = false -> switching (Phase v) = false ->
  kept v d -> runs (entry d) (imageFor v) -> agrees v d.
Proof.
  intros Ha Hp Hs Hk Hr. repeat split; try done; [congruence|by right|]. intros E. by rewrite E in Hs.
Qed.

(** ** Files that the promise does not mention *)

Lemma put_none_same n d : get n d = None -> put n None d = d.
Proof. destruct n, d; cbn; by intros ->. Qed.

Lemma get_put n f d : get n (put n f d) = f.
Proof. by destruct n. Qed.

Lemma entry_put n f d : entry (put n f d) = entry d.
Proof. done. Qed.

Lemma journal_put n f d : journalFile (put n f d) = journalFile d.
Proof. done. Qed.

Lemma ok_put_staging n f d : n = Rollback \/ n = Next -> disk_ok d -> disk_ok (put n f d).
Proof. intros [-> | ->]; by apply disk_ok_ext. Qed.

Lemma ok_put_download f d :
  (forall f', f = Some f' -> startable f') \/ (forall v, saved (journalFile d) = Some v -> Phase v <> "prepared") ->
  disk_ok d -> disk_ok (put Download f d).
Proof.
  intros Hf [Hs Hv]. split; [done|]. intros v E. destruct (Hv v E) as (A & B & C & D & F).
  repeat split; try done; [by apply C.. |]. intros Hp. destruct Hf as [Hf|Hf]; [done|]. by edestruct Hf.
Qed.

Lemma ok_put_previous f d :
  (forall v, saved (journalFile d) = Some v -> old_phase (Phase v) = true) -> disk_ok d -> disk_ok (put PreviousBin f d).
Proof.
  intros Hf [Hs Hv]. split; [done|]. intros v E. destruct (Hv v E) as (A & B & _).
  apply agrees_old; [done|by apply Hf|]. apply B. by apply Hf.
Qed.

Lemma ok_set_saved v d : startable (entry d) -> agrees v d -> disk_ok (set_saved journalSlot v d).
Proof. intros Hs Hv. split; [done|]. intros v' [= <-]. by eapply agrees_ext; [..|exact Hv]. Qed.

(** ** The JSON files

    What [writePrivate] needs of a slot: reading gives what was set, the last setting
    counts, and the temporary file is no part of the promise. *)
Class LawfulSlot {A} (s : slot A) : Prop := {
  get_set x d : s_get s (s_set s x d) = x;
  set_set x y d : s_set s y (s_set s x d) = s_set s y d;
  temporary_ok t d : disk_ok d -> disk_ok (set_temporary s t d) }.

#[export] Instance journalSlot_lawful : LawfulSlot journalSlot.
Proof. split; [done..|]. intros t d. by apply disk_ok_ext. Qed.
#[export] Instance pendingSlot_lawful : LawfulSlot pendingSlot.
Proof. split; [done..|]. intros t d. by apply disk_ok_ext. Qed.
#[export] Instance receiptSlot_lawful : LawfulSlot receiptSlot.
Proof. split; [done..|]. intros t d. by apply disk_ok_ext. Qed.

(** What a verified image weighs. *)
Lemma runs_size f i : runs f i -> llen (content f) = Im_Size i.
Proof. unfold runs, verifyImage. go_case; [done|]. intros _. go_bool. done. Qed.

Lemma runs_content f g i : content f = content g -> runs f i -> runs g i.
Proof. unfold runs. by intros ->. Qed.

Lemma runs_copy f i m : runs f i -> runs (mkFile (take (Z.to_nat (Im_Size i + 1)) (content f)) m) i.
Proof.
  intros Hr. apply (runs_content f); [|done]. cbn [content]. apply runs_size in Hr. unfold llen in Hr.
  symmetry. apply take_ge. lia.
Qed.

Lemma runs_hash f i : runs f i -> EncodeHex (Sum256 (content f)) = Im_SHA256 i.
Proof. unfold runs, verifyImage. go_case; [done|]. go_case; [done|]. intros _. by go_bool. Qed.

(** One file is not two images with different digests. *)
Lemma runs_digest f i j : runs f i -> runs f j -> Im_SHA256 i = Im_SHA256 j.
Proof.
  intros Hi%runs_hash Hj%runs_hash. congruence.
Qed.
End invariant.

(** ** The update in memory *)

Section memory.
Context `{Externals} (oracle : nat -> choice).

(** An operation that leaves the update in memory the same one, however it ends. *)
Definition keeps {A} (m : M A) : Prop := forall w, same_update (value w) (value (m w).2).

Lemma keeps_bind {A B} (m : M A) (k : A -> M B) : keeps m -> (forall a, keeps (k a)) -> keeps (andThen m k).
Proof.
  intros Hm Hk w. unfold andThen. specialize (Hm w). destruct (m w) as [[a|e|] w']; [|done..].
  specialize (Hk a w'). unfold same_update in *. cbn in Hm. intuition congruence.
Qed.

Lemma keeps_attempt {A} (m : M A) : keeps m -> keeps (attempt m).
Proof. intros Hm w. unfold attempt. specialize (Hm w). by destruct (m w) as [[a|e|] w']. Qed.

Lemma keeps_effect f p : keeps (effect oracle f p).
Proof. intros w. unfold effect. by destruct (oracle (at_step w)). Qed.

Lemma keeps_restart : keeps (restart oracle).
Proof. intros w. unfold restart. by destruct (oracle (at_step w)). Qed.

Lemma keeps_write {A} (s : slot A) x : keeps (writePrivate oracle s x).
Proof.
  unfold writePrivate. apply keeps_bind; [done|]. intros b.
  assert (forall e, keeps (attempt (change oracle (set_temporary s false)) >>> @fail unit e)) as Hu.
  { intros e. apply keeps_bind; [apply keeps_attempt, keeps_effect|done]. }
  apply keeps_bind; [destruct b; [done|apply keeps_effect]|]. intros _.
  apply keeps_bind; [apply keeps_attempt, keeps_effect|]. intros [u|e]; [|apply Hu].
  apply keeps_bind; [apply keeps_attempt, keeps_effect|]. intros [u'|e]; [apply keeps_effect|apply Hu].
Qed.

Lemma keeps_restartJournal : keeps (restartJournal oracle).
Proof.
  assert (keeps (saveJournal oracle)) as Hs by (apply keeps_bind; [done|intros v; apply keeps_write]).
  unfold restartJournal. apply keeps_bind; [done|]. intros v. destruct (Restarted v); [done|].
  apply keeps_bind; [done|]. intros _. apply keeps_bind; [done|]. intros _. apply keeps_bind; [apply keeps_restart|].
  intros _. apply keeps_bind; [done|]. by intros _.
Qed.

End memory.

(** ** Weakest preconditions

    [faulty] says that the machine may fail; when it does not hold, the oracle answers
    [Good] every time and an operation must return. *)

Section logic.
Context `{Externals} (arch : string) (keys : list SigningTrust).
Context (oracle : nat -> choice) (clock : nat -> Time).
Context (faulty : Prop) (reliable : faulty \/ forall k, oracle k = Good).

Abbreviation ok := (disk_ok arch keys).
Abbreviation post A := (A -> Disk -> journal -> nat -> Prop) (only parsing).

Definition wp {A} (m : M A) (Q : post A) (d : Disk) (v : journal) (n : nat) : Prop :=
  ok d -> forall w, disk w = d -> value w = v -> asked w = n ->
  match m w with
  | (Ret a, w') => ok (disk w') /\ Q a (disk w') (value w') (asked w')
  | (Fail _, w') | (Crashed, w') => faulty /\ ok (disk w')
  end.

Lemma wp_ok {A} (m : M A) Q d v n : (ok d -> wp m Q d v n) -> wp m Q d v n.
Proof. intros Hm Hd. by apply Hm. Qed.

Lemma wp_mono {A} (m : M A) (Q R : post A) d v n :
  wp m Q d v n -> (forall a d' v' n', ok d' -> Q a d' v' n' -> R a d' v' n') -> wp m R d v n.
Proof.
  intros Hm Hi Hd w E1 E2 E3. specialize (Hm Hd w E1 E2 E3). destruct (m w) as [[a|e|] w']; [|done..].
  destruct Hm. auto.
Qed.

Lemma wp_ret {A} (a : A) Q d v n : Q a d v n -> wp (ret a) Q d v n.
Proof. intros HQ Hd w <- <- <-. done. Qed.

Lemma wp_fail {A} e Q d v n : faulty -> wp (@fail A e) Q d v n.
Proof. intros Hf Hd w <- <- <-. done. Qed.

Lemma wp_bind {A B} (m : M A) (k : A -> M B) Q d v n :
  wp m (fun a => wp (k a) Q) d v n -> wp (andThen m k) Q d v n.
Proof.
  intros Hm Hd w E1 E2 E3. specialize (Hm Hd w E1 E2 E3). unfold andThen. destruct (m w) as [[a|e|] w']; [|done..].
  destruct Hm as [Ho Hm]. by apply (Hm Ho w').
Qed.

(** A failure that is inspected leaves nothing known but the promise. *)
Lemma wp_attempt {A} (m : M A) Q d v n :
  wp m (fun a => Q (Ok a)) d v n -> (forall e d' v' n', faulty -> ok d' -> Q (Err e) d' v' n') ->
  wp (attempt m) Q d v n.
Proof.
  intros Hm He Hd w E1 E2 E3. specialize (Hm Hd w E1 E2 E3). unfold attempt.
  destruct (m w) as [[a|e|] w']; [done| |done]. destruct Hm. auto.
Qed.

Lemma wp_onDisk {A} (f : Disk -> A) Q d v n : Q (f d) d v n -> wp (onDisk f) Q d v n.
Proof. intros HQ Hd w <- <- <-. done. Qed.

Lemma wp_current Q d v n : Q v d v n -> wp current Q d v n.
Proof. intros HQ Hd w <- <- <-. done. Qed.

Lemma wp_assign f Q d v n : Q tt d (f v) n -> wp (assign f) Q d v n.
Proof. intros HQ Hd w <- <- <-. done. Qed.

Lemma wp_lift {A} (c : result updateError A) (Q : post A) d v n :
  faulty \/ is_ok c = true -> (forall a, c = Ok a -> Q a d v n) -> wp (lift c) Q d v n.
Proof.
  intros Hf HQ. destruct c as [a|e]; [by apply wp_ret, HQ|]. apply wp_fail. by destruct Hf.
Qed.

Lemma wp_now (Q : post Time) d v n : (forall k, Q (clock k) d v n) -> wp (Now clock) Q d v n.
Proof. intros HQ Hd w <- <- <-. by split; [|apply HQ]. Qed.

Lemma wp_effect f p (Q : post unit) d v n :
  (ok d -> ok (f d) /\ forall l, ok (p l d)) -> Q tt (f d) v n -> wp (effect oracle f p) Q d v n.
Proof.
  intros Hok HQ Hd w <- <- <-. destruct (Hok Hd) as [Hf Hp]. unfold effect.
  destruct (oracle (at_step w)) as [|e l|l] eqn:E; cbn; [done|..];
    (split; [|apply Hp]; destruct reliable as [|Hg]; [done|by rewrite Hg in E]).
Qed.

Lemma wp_io (Q : post unit) d v n : Q tt d v n -> wp (io oracle) Q d v n.
Proof. intros HQ. by apply wp_effect. Qed.

Lemma wp_change f (Q : post unit) d v n :
  (ok d -> ok (f d)) -> Q tt (f d) v n -> wp (change oracle f) Q d v n.
Proof. intros Hf HQ. apply wp_effect; [|done]. auto. Qed.

Lemma wp_attempt_effect f p (Q : post (result updateError unit)) d v n :
  (ok d -> ok (f d) /\ forall l, ok (p l d)) -> Q (Ok tt) (f d) v n ->
  (forall e l, faulty -> Q (Err e) (p l d) v n) -> wp (attempt (effect oracle f p)) Q d v n.
Proof.
  intros Hok HQ He Hd w <- <- <-. destruct (Hok Hd) as [Hf Hp]. unfold attempt, effect.
  assert (oracle (at_step w) = Good \/ faulty) as Hor by (destruct reliable; auto).
  destruct (oracle (at_step w)) as [|e l|l] eqn:E; cbn; [done|..]; destruct Hor as [|Hfa]; try done.
  split; [done|]. by apply He.
Qed.

Lemma wp_restart (Q : post unit) d v n : Q tt d v (S n) -> wp (restart oracle) Q d v n.
Proof.
  intros HQ Hd w <- <- <-. unfold restart.
  destruct (oracle (at_step w)) as [|e l|l] eqn:E; cbn; [done|..];
    (split; [|done]; destruct reliable as [|Hg]; [done|by rewrite Hg in E]).
Qed.

Lemma wp_attempt_keeps {A} (m : M A) Q d v n :
  keeps m -> wp m (fun a => Q (Ok a)) d v n ->
  (forall e d' v' n', faulty -> ok d' -> same_update v v' -> Q (Err e) d' v' n') -> wp (attempt m) Q d v n.
Proof.
  intros Hk Hm He Hd w E1 E2 E3. specialize (Hm Hd w E1 E2 E3). specialize (Hk w). unfold attempt.
  destruct (m w) as [[a|e|] w']; [done| |done]. destruct Hm. split; [done|]. apply He; [done..|]. by subst v.
Qed.

(** When the machine may fail, an operation that keeps the promise needs no more. *)
Lemma wp_safe {A} (m : M A) d v k c n : wp m (fun _ _ _ _ => True) d v n -> ok d ->
  ok (disk (m (mkWorld d v k c n)).2).
Proof.
  intros Hm Hd. specialize (Hm Hd (mkWorld d v k c n) eq_refl eq_refl eq_refl).
  destruct (m _) as [[a|e|] w']; by destruct Hm.
Qed.

Lemma wp_returns {A} (m : M A) Q d v k c n : ~ faulty -> wp m Q d v n -> ok d ->
  exists a w', m (mkWorld d v k c n) = (Ret a, w') /\ ok (disk w') /\ Q a (disk w') (value w') (asked w').
Proof.
  intros Hf Hm Hd. specialize (Hm Hd (mkWorld d v k c n) eq_refl eq_refl eq_refl).
  destruct (m _) as [[a|e|] w']; [|by destruct Hm..]. destruct Hm. eauto.
Qed.
End logic.
