(* ===== verification/UpdateCrash.v ===== *)
(** * Agent updates: what each operation does to the disk

    The weakest preconditions of the updater's operations ([UpdateDisk]), each proved
    once for a machine that may fail and for one that does not: a hypothesis
    [faulty \/ P] is what a machine that does not fail needs for the operation to
    return. *)

From S2P Require Import Prelude GoText GoSha256 ReleaseVersion UpdateModel UpdateDisk UpdateLogic.

Local Arguments Sum256 : simpl never.
Local Arguments EncodeHex : simpl never.

Section operations.
Context `{Externals} (config : Config) (oracle : nat -> choice).
Context (faulty : Prop) (reliable : faulty \/ forall k, oracle k = Good).

Abbreviation arch := (Arch config).
Abbreviation keys := (Keys config).
Abbreviation ok := (disk_ok arch keys).
Abbreviation wp := (wp arch keys faulty).
Abbreviation agrees := (agrees arch keys).
Abbreviation runs := (runs arch).
Abbreviation kept := (kept arch).
Abbreviation post A := (A -> Disk -> journal -> nat -> Prop) (only parsing).

(** One step of the operation at the head of the goal. *)
Local Ltac wp_step :=
  lazymatch goal with
  | |- UpdateLogic.wp _ _ _ ?m _ _ _ _ =>
      lazymatch m with
      | andThen _ _ => apply wp_bind
      | ret _ => apply wp_ret
      | onDisk _ => apply wp_onDisk
      | current => apply wp_current
      | assign _ => apply wp_assign
      | io _ => apply (wp_io arch keys oracle faulty reliable)
      | Now _ => apply wp_now; intros ?
      end
  end.
Local Ltac wp_steps := repeat wp_step; cbn beta iota.
Local Ltac wp_change_ok := apply (wp_change arch keys oracle faulty reliable).

(** ** Reading *)

Lemma wp_verifyFile f i (Q : post unit) d v n :
  faulty \/ runs f i -> (runs f i -> Q tt d v n) -> wp (verifyFile config oracle f i) Q d v n.
Proof.
  intros Hf HQ. unfold verifyFile. wp_steps. apply wp_lift.
  - destruct Hf as [|Hf]; [by left|right]. unfold UpdateLogic.runs in Hf. by rewrite Hf.
  - intros [] E. by apply HQ.
Qed.

Lemma wp_attempt_verifyFile f i (Q : post (result updateError unit)) d v n :
  (runs f i -> Q (Ok tt) d v n) -> (forall e, faulty \/ ~ runs f i -> Q (Err e) d v n) ->
  wp (attempt (verifyFile config oracle f i)) Q d v n.
Proof.
  intros H1 H2 Hd w <- <- <-. unfold attempt, verifyFile, andThen, io, effect.
  destruct (oracle (at_step w)) as [|e l|l] eqn:E; cbn.
  - unfold lift. destruct (verifyImage arch (content f) i) as [[]|e] eqn:Hv; cbn.
    + split; [done|]. by apply H1.
    + split; [done|]. apply H2. right. unfold UpdateLogic.runs. by rewrite Hv.
  - split; [done|]. apply H2. left. destruct reliable as [|Hg]; [done|by rewrite Hg in E].
  - split; [|done]. destruct reliable as [|Hg]; [done|by rewrite Hg in E].
Qed.

Lemma wp_verifyCurrent i (Q : post unit) d v n :
  faulty \/ runs (entry d) i -> (runs (entry d) i -> Q tt d v n) -> wp (verifyCurrent config oracle i) Q d v n.
Proof.
  intros Hf HQ. apply wp_ok. intros [Hs _]. unfold verifyCurrent. wp_steps.
  unfold startable in Hs. rewrite Hs. cbn. apply wp_bind, wp_attempt_verifyFile.
  - intros Hr. by apply wp_ret, HQ.
  - intros e He. apply wp_fail. tauto.
Qed.

Lemma wp_openFile x (Q : post file) d v n :
  faulty \/ is_Some (get x d) -> (forall f, get x d = Some f -> Q f d v n) -> wp (openFile oracle x) Q d v n.
Proof.
  intros Hf HQ. unfold openFile. wp_steps. destruct (get x d) as [f|] eqn:E; [by apply wp_ret, HQ|].
  apply wp_fail. destruct Hf as [|[f Hf]]; [done|congruence].
Qed.

Lemma wp_currentState (Q : post which) d v n :
  faulty \/ one_of_two arch v d ->
  (runs (entry d) (imageFor v) -> Q Target d v n) ->
  (runs (entry d) (Previous v) -> faulty \/ ~ runs (entry d) (imageFor v) -> Q Old d v n) ->
  wp (currentState config oracle) Q d v n.
Proof.
  intros Hf HT HO. unfold currentState. wp_steps. apply wp_attempt_verifyFile.
  - intros Hr. by apply wp_ret, HT.
  - intros e He. apply wp_bind, wp_attempt_verifyFile.
    + intros Hr. by apply wp_ret, HO.
    + intros e' He'. apply wp_fail. unfold one_of_two in Hf. tauto.
Qed.

Lemma wp_readJournal (Q : post (option journal)) d v n :
  (forall x, saved (journalFile d) = Some x -> faulty \/ validJournal x = true) ->
  (saved (journalFile d) = None -> Q None d v n) ->
  (forall x, saved (journalFile d) = Some x -> validJournal x = true -> Q (Some x) d x n) ->
  wp (readJournal oracle) Q d v n.
Proof.
  intros Hf HN HS. unfold readJournal, readPrivate. wp_steps. destruct (saved (s_get journalSlot d)) as [x|] eqn:E.
  - destruct (validJournal x) eqn:Hx; cbn [negb].
    + wp_steps. by apply HS.
    + apply wp_fail. destruct (Hf x E); [done|congruence].
  - apply wp_ret. by apply HN.
Qed.

(** ** Writing *)

Lemma wp_writePrivate {A} (s : slot A) `{!LawfulSlot arch keys s} x (Q : post unit) d v n :
  (ok d -> ok (set_saved s x d)) -> faulty \/ temporary (s_get s d) = false ->
  Q tt (set_saved s x d) v n -> wp (writePrivate oracle s x) Q d v n.
Proof.
  intros Hx Hf HQ. apply wp_ok. intros Hd. unfold writePrivate.
  assert (set_saved s x (set_temporary s true d) = set_saved s x d) as Hst.
  { unfold set_saved, set_temporary. by rewrite (set_set arch keys). }
  assert (forall e v n d', faulty -> wp (attempt (change oracle (set_temporary s false)) >>> @fail unit e) Q d' v n) as Hundo.
  { intros e v' n' d' Hfa. apply wp_bind. apply (wp_attempt_effect arch keys oracle faulty reliable).
    - intros Hd'. split; [by apply temporary_ok|done].
    - by apply wp_fail.
    - intros. by apply wp_fail. }
  wp_steps. destruct (temporary (s_get s d)) eqn:E; [apply wp_fail; by destruct Hf|].
  wp_change_ok; [by apply temporary_ok|]. wp_step. apply (wp_attempt_effect arch keys oracle faulty reliable); [done| |auto].
  wp_step. apply (wp_attempt_effect arch keys oracle faulty reliable); [| |auto].
  - intros Ht. split; [|done]. rewrite Hst. auto.
  - rewrite Hst. by wp_steps.
Qed.

Lemma wp_saveJournal (Q : post unit) d v n :
  agrees v d -> faulty \/ temporary (journalFile d) = false -> Q tt (set_saved journalSlot v d) v n ->
  wp (saveJournal oracle) Q d v n.
Proof.
  intros Ha Hf HQ. unfold saveJournal. wp_steps. apply wp_writePrivate; [exact _| |done..].
  intros [Hs _]. by apply ok_set_saved.
Qed.

Lemma wp_removeTemporary {A} (s : slot A) `{!LawfulSlot arch keys s} (Q : post unit) d v n :
  (temporary (s_get s d) = false -> Q tt d v n) -> Q tt (set_temporary s false d) v n -> wp (removeTemporary oracle s) Q d v n.
Proof.
  intros H1 H2. unfold removeTemporary. wp_steps. destruct (temporary (s_get s d)).
  - wp_steps. wp_change_ok; [by apply temporary_ok|done].
  - apply wp_ret. auto.
Qed.

Lemma wp_safeRemove x (Q : post unit) d v n :
  x <> PreviousBin -> Q tt (put x None d) v n -> wp (safeRemove oracle x) Q d v n.
Proof.
  intros Hx HQ. unfold safeRemove. wp_steps. destruct (get x d) as [f|] eqn:E.
  - wp_steps. wp_change_ok; [|done]. destruct x; [|done|apply ok_put_staging; auto..].
    apply ok_put_download. left. done.
  - apply wp_ret. by rewrite put_none_same in HQ.
Qed.

(** The three staging files are gone. *)
Definition unstaged (d : Disk) : Disk := put Next None (put Rollback None (put Download None d)).

Lemma wp_removeStaging (Q : post unit) d v n : Q tt (unstaged d) v n -> wp (removeStaging oracle) Q d v n.
Proof. intros HQ. unfold removeStaging. repeat (wp_step; apply wp_safeRemove; [done|]). by wp_steps. Qed.

Lemma wp_privateCopy f limit x (Q : post unit) d v n :
  x = Rollback \/ x = Next -> faulty \/ get x d = None ->
  Q tt (put x (Some (mkFile (take (Z.to_nat limit) (content f)) 384)) d) v n ->
  wp (privateCopy oracle f limit x) Q d v n.
Proof.
  intros Hx Hf HQ. unfold privateCopy. wp_steps. destruct (get x d) as [g|] eqn:E.
  { apply wp_fail. by destruct Hf. }
  assert (forall g h d, put x h (put x g d) = put x h d) as Hput by (by destruct Hx as [-> | ->]).
  wp_change_ok; [by apply ok_put_staging|]. wp_step. apply (wp_effect arch keys oracle faulty reliable).
  - intros Hd. split; [|intros l]; by apply ok_put_staging.
  - rewrite Hput. by wp_steps.
Qed.

Lemma wp_makeExecutable x i (Q : post unit) d v n :
  x = Download \/ x = Rollback -> faulty \/ (exists f, get x d = Some f /\ runs f i) ->
  (forall f, get x d = Some f -> runs f i -> Q tt (put x (Some (mkFile (content f) 448)) d) v n) ->
  wp (makeExecutable config oracle x i) Q d v n.
Proof.
  intros Hx Hf HQ. unfold makeExecutable. wp_step. apply wp_openFile.
  { destruct Hf as [|(f & Hf & _)]; [by left|right]. eauto. }
  intros f E. wp_step. apply wp_verifyFile.
  { destruct Hf as [|(g & Hf & Hr)]; [by left|right]. by simplify_eq. }
  intros Hr. wp_step. unfold set_mode. wp_change_ok; rewrite E.
  - destruct Hx as [-> | ->]; [|apply ok_put_staging; auto]. apply ok_put_download. left. by intros g [= <-].
  - wp_steps. auto.
Qed.

(** ** Staging a rollback, and replacing the entry point *)

Lemma wp_stageRollback (Q : post unit) d v n :
  faulty \/ kept v d ->
  (forall c, kept v d -> runs (mkFile c 448) (Previous v) -> Q tt (put Rollback (Some (mkFile c 448)) d) v n) ->
  wp (stageRollback config oracle) Q d v n.
Proof.
  intros Hf HQ. unfold stageRollback. wp_step. apply wp_openFile.
  { destruct Hf as [|(f & Hf & _)]; [by left|right; eauto]. }
  intros f E. wp_steps. apply wp_verifyFile.
  { destruct Hf as [|(g & Hf & Hr)]; [by left|right]. cbn in E. by simplify_eq. }
  intros Hr. wp_step. apply wp_safeRemove; [done|]. wp_step. apply wp_privateCopy; [auto|by right|].
  apply wp_makeExecutable; [auto|right; eexists; split; [done|by apply runs_copy]|].
  intros g [= <-] Hg. apply HQ; [by exists f|]. by apply runs_copy.
Qed.

Lemma wp_replaceEntrypoint x f i (Q : post unit) d v n :
  get x d = Some f -> faulty \/ runs (entry d) i -> (ok d -> ok (rename_entry x d)) ->
  Q tt (rename_entry x d) v n -> wp (replaceEntrypoint config oracle x i) Q d v n.
Proof.
  intros Hx Hf Ho HQ. unfold replaceEntrypoint. wp_step. apply wp_verifyCurrent; [done|]. intros Hr.
  wp_steps. rewrite Hx. wp_step. wp_change_ok; [done|]. by wp_steps.
Qed.

(** ** Restarting *)

Definition restarted (v : journal) : journal := set_Restarted true (set_Restarts (Restarts v + 1) v).

Lemma wp_restartJournal (Q : post unit) d v n :
  agrees v d -> faulty \/ temporary (journalFile d) = false ->
  (Restarted v = true -> Q tt d v n) ->
  (Restarted v = false -> Q tt (set_saved journalSlot (restarted v) d) (restarted v) (S n)) ->
  wp (restartJournal oracle) Q d v n.
Proof.
  intros Ha Ht H1 H2. unfold restartJournal. wp_steps. destruct (Restarted v) eqn:E; [by wp_steps; apply H1|].
  wp_steps. apply wp_saveJournal; [by apply (agrees_same _ _ v)|done|].
  wp_step. apply (wp_restart arch keys oracle faulty reliable). wp_steps.
  apply wp_saveJournal; [|by right|by apply H2]. by eapply agrees_ext; [..|exact Ha].
Qed.

(** ** Rolling back

    What is known after a rollback on a machine that does not fail: the previous image is
    at the entry point and the journal that says so is stored. *)
Record back (v : journal) (d : Disk) (n : nat) (v' : journal) (d' : Disk) (n' : nat) : Prop := mkBack {
  back_same : same_update v v';
  back_runs : runs (entry d') (Previous v);
  back_saved : saved (journalFile d') = Some v';
  back_clean : temporary (journalFile d') = false;
  back_phase :
    Phase v' = "rolled_back" /\ Restarted v' = true /\ (n' = S n \/ Restarted v = true)
    \/ Phase v' = "canceled" /\ runs (entry d) (Previous v) /\ ~ runs (entry d) (imageFor v)
       /\ Phase v <> "rollback_prepared" /\ Phase v <> "rolled_back" }.

Local Ltac settle := split; unfold same_update; cbn; auto 8.

Lemma wp_finishPrevious reason (Q : post unit) d v n :
  authentic keys v -> runs (entry d) (Previous v) ->
  faulty \/ temporary (journalFile d) = false /\ saved (journalFile d) = Some v -> faulty \/ ~ runs (entry d) (imageFor v) ->
  (forall d' v' n', agrees v' d' -> same_update v v' -> Deadline v' = Deadline v -> faulty \/ back v d n v' d' n' -> Q tt d' v' n') ->
  wp (finishPrevious oracle reason) Q d v n.
Proof.
  intros Ha Hr Hf Hn HQ. unfold finishPrevious. wp_steps.
  assert (faulty \/ temporary (journalFile d) = false) as Ht by tauto.
  destruct (Phase v =s "rollback_prepared") eqn:E1; [|destruct (Phase v =s "rolled_back") eqn:E2]; go_bool.
  - wp_steps. assert (agrees (set_Reason reason (set_Phase "rolled_back" v)) d) as Hag by by apply agrees_old.
    apply wp_saveJournal; [done|done|]. apply wp_restartJournal; [by eapply agrees_ext; [..|exact Hag]|by right|..];
      intros Hre; (apply HQ; [by eapply agrees_ext; [..|exact Hag]|done|done|]); right; settle.
  - assert (agrees v d) as Hag by (apply agrees_old; [done|by rewrite E2|done]).
    apply wp_restartJournal; [done|done|..];
      intros Hre; (apply HQ; [by eapply agrees_ext; [..|exact Hag]|done|done|]); destruct Hf as [|[Hc Hs]]; auto; right; settle.
  - wp_steps. assert (agrees (set_Reason reason (set_Phase "canceled" v)) d) as Hag by by apply agrees_old.
    apply wp_saveJournal; [done|done|]. apply HQ; [by eapply agrees_ext; [..|exact Hag]|done|done|].
    destruct Hn as [|Hn]; [by left|right]. settle.
Qed.

Lemma wp_rollbackLocked reason (Q : post unit) d v n :
  authentic keys v ->
  faulty \/ (temporary (journalFile d) = false /\ saved (journalFile d) = Some v) /\ one_of_two arch v d
            /\ (runs (entry d) (imageFor v) -> kept v d) ->
  (forall d' v' n', agrees v' d' -> same_update v v' -> Deadline v' = Deadline v -> faulty \/ back v d n v' d' n' -> Q tt d' v' n') ->
  wp (rollbackLocked config oracle reason) Q d v n.
Proof.
  intros Ha Hf HQ. unfold rollbackLocked. wp_step. apply wp_currentState; [tauto| |].
  - intros Hr. wp_step. apply wp_stageRollback; [tauto|]. intros c Hk Hc. wp_steps. cbn beta.
    set (v1 := set_Restarted false _). set (d1 := put Rollback _ d).
    assert (agrees v1 d1) as Hv1 by (apply agrees_rolling; [done|done|done|by right]).
    apply wp_saveJournal; [done|by destruct Hf as [|[[]]]; auto|]. wp_steps.
    apply (wp_replaceEntrypoint _ (mkFile c 448)); [done|by right| |].
    + intros Hd. split; [done|]. intros x [= <-]. apply agrees_rolling; [done|done|done|by left].
    + wp_steps. assert (agrees (set_Phase "rolled_back" v1) (rename_entry Rollback (set_saved journalSlot v1 d1))) as Hag
        by by apply agrees_old.
      apply wp_saveJournal; [done|by right|]. apply wp_restartJournal; [by eapply agrees_ext; [..|exact Hag]|by right|done|].
      intros _. apply HQ; [by eapply agrees_ext; [..|exact Hag]|done|done|]. right. settle.
  - intros Hr Hn. apply wp_finishPrevious; [done|done|tauto|done|done].
Qed.

Context (clock : nat -> Time).

Lemma wp_checkJournal (Q : post unit) d v n :
  faulty \/ (forall j k, validateJournal config (clock j) (clock k) v = Ok tt) -> Q tt d v n ->
  wp (checkJournal config clock) Q d v n.
Proof.
  intros Hf HQ. unfold checkJournal. wp_steps. apply wp_lift; [|by intros [] _].
  destruct Hf as [|Hf]; [by left|right]. by rewrite Hf.
Qed.

(** ** Recovering

    What is known after a recovery on a machine that does not fail: no replacement of
    the entry point is half done, the stored journal describes the disk, a restart that
    is due was requested, and an update that still awaits its health is not overdue. *)
Record recovered (v : journal) (d : Disk) (v' : journal) (d' : Disk) : Prop := mkRecovered {
  rec_same : same_update v v';
  rec_saved : saved (journalFile d') = Some v';
  rec_settled : switching (Phase v') = true -> Phase v' = "prepared" /\ runs (entry d') (Previous v) /\ ~ runs (entry d') (imageFor v);
  rec_restarted : awaitingHealth (Phase v') = true \/ Phase v' = "rolled_back" -> Restarted v' = true;
  rec_deadline : awaitingHealth (Phase v') = true -> exists k, clock k < Deadline v;
  rec_phase : Phase v' = Phase v /\ entry d' = entry d \/ Phase v' = "rolled_back"
    \/ Phase v = "prepared" /\ Phase v' = "published" /\ runs (entry d) (imageFor v) }.

(** The file at the entry point, which is the previous image in this phase, passes for the
    target too: the two images are the same bytes. *)
Definition confusing (v : journal) (d : Disk) : Prop := old_phase (Phase v) = true /\ runs (entry d) (imageFor v).

Lemma same_update_trans u v w : same_update u v -> same_update v w -> same_update u w.
Proof. unfold same_update. intuition congruence. Qed.

Lemma agrees_awaiting v d : awaitingHealth (Phase v) = true -> agrees v d ->
  kept v d /\ one_of_two arch v d /\ runs (entry d) (imageFor v).
Proof.
  unfold awaitingHealth. intros Ew (_ & _ & Hk & Hn & _). go_bool.
  destruct Ew as [Ew|Ew]; rewrite Ew in Hk, Hn; (destruct Hk; [done|]); auto.
Qed.

(** The end of [recoverLocked], in a phase without a half-done replacement. *)
Definition between (v0 : journal) (d0 : Disk) (v : journal) (d : Disk) : Prop :=
  temporary (journalFile d) = false /\ saved (journalFile d) = Some v /\
  (switching (Phase v) = true -> Phase v = "prepared" /\ runs (entry d) (Previous v0) /\ ~ runs (entry d) (imageFor v0)) /\
  (Phase v = Phase v0 /\ entry d = entry d0 \/ Phase v = "rolled_back"
   \/ Phase v0 = "prepared" /\ Phase v = "published" /\ runs (entry d0) (imageFor v0)).

Lemma recovered_same v0 d0 v d x d' :
  between v0 d0 v d -> same_update v0 v -> Deadline v = Deadline v0 ->
  same_update v x -> Phase x = Phase v -> saved (journalFile d') = Some x -> entry d' = entry d ->
  (awaitingHealth (Phase v) = true \/ Phase v = "rolled_back" -> Restarted x = true) ->
  (awaitingHealth (Phase v) = true -> exists k, clock k < Deadline v) -> recovered v0 d0 x d'.
Proof.
  intros (_ & _ & Hsw & Hp) H0 Hd Hx Hph Hs He Hr Hdead.
  split; rewrite ?Hph, ?He, <- ?Hd; try done. by eapply same_update_trans.
Qed.

Lemma wp_finish_recovery (Q : post unit) v0 d0 d v n :
  agrees v d -> same_update v0 v -> Deadline v = Deadline v0 -> faulty \/ between v0 d0 v d ->
  (forall d' v' n', faulty \/ recovered v0 d0 v' d' -> Q tt d' v' n') ->
  wp (v <~ current ;;
      if awaitingHealth (Phase v) then
        now <~ Now clock ;;
        if negb (Before now (Deadline v)) then rollbackLocked config oracle "watchdog_timeout" else restartJournal oracle
      else if Phase v =s "rolled_back" then restartJournal oracle
      else ret tt) Q d v n.
Proof.
  intros Hag Hsame Hdl Hf HQ. wp_steps.
  assert (faulty \/ temporary (journalFile d) = false) as Ht by (destruct Hf as [|[]]; auto).
  assert (forall x d' n', (between v0 d0 v d -> recovered v0 d0 x d') -> Q tt d' x n') as Hgo.
  { intros x d' n' Hx. apply HQ. destruct Hf; auto. }
  destruct (awaitingHealth (Phase v)) eqn:Ew; [wp_steps; destruct (negb _) eqn:Eb|].
  - destruct (agrees_awaiting _ _ Ew Hag) as (Hk & Ho & Hn).
    apply wp_rollbackLocked; [apply Hag|destruct Hf as [|(? & ? & _)]; auto 8|].
    intros d' v' n' _ _ _ [|[Bs Br Bv Bt Bp]]; [apply HQ; by left|]. apply Hgo. intros _.
    destruct Bp as [(Bp & Bre & _)|(_ & _ & Hold & _)]; [|tauto].
    split; rewrite ?Bp; try done; [by eapply same_update_trans|by right; left].
  - unfold Before in Eb. go_bool. apply wp_restartJournal; [done|done|..]; intros Hr; apply Hgo; intros Hb;
      eapply recovered_same; eauto; try done; apply Hb.
  - destruct (Phase v =s "rolled_back") eqn:Er; go_bool.
    + apply wp_restartJournal; [done|done|..]; intros Hr; apply Hgo; intros Hb; eapply recovered_same; eauto; try done;
        try apply Hb; congruence.
    + apply wp_ret, Hgo. intros Hb. eapply recovered_same; eauto; try done; try apply Hb; try congruence. intros [|]; congruence.
Qed.

Lemma agrees_one_of_two v d : agrees v d -> one_of_two arch v d.
Proof. intros (_ & Ho & Hk & _). destruct (old_phase (Phase v)); [left; auto|]. by apply Hk. Qed.

(** The phases by the groups that [reconcilePhase] handles. *)
Lemma old_phase_in phase : old_phase phase = str_in phase ["downloading"; "canceled"; "rolled_back"].
Proof. done. Qed.

Lemma old_not_switching phase : old_phase phase = true -> switching phase = false.
Proof.
  unfold old_phase, str_in. cbn [existsb]. intros E. go_bool. destruct E as [->|[->|[->|E]]]; done.
Qed.

Lemma wp_reconcilePhase state (Q : post unit) d v n :
  saved (journalFile d) = Some v -> agrees v d ->
  (state = Target /\ runs (entry d) (imageFor v)
   \/ state = Old /\ runs (entry d) (Previous v) /\ (faulty \/ ~ runs (entry d) (imageFor v))) ->
  faulty \/ temporary (journalFile d) = false /\ ~ confusing v d /\ str_in (Phase v) phases = true ->
  (forall d' v' n', agrees v' d' -> same_update v v' -> Deadline v' = Deadline v -> faulty \/ between v d v' d' -> Q tt d' v' n') ->
  wp (reconcilePhase config oracle state) Q d v n.
Proof.
  intros Hs Hag Hst Hf HQ. unfold reconcilePhase. wp_steps.
  assert (forall n', (between v d v d) -> Q tt d v n') as Hsame by (intros n' Hb; apply HQ; auto; by unfold same_update).
  assert (forall n', (switching (Phase v) = true -> Phase v = "prepared" /\ runs (entry d) (Previous v) /\ (faulty \/ ~ runs (entry d) (imageFor v))) ->
    Q tt d v n') as Hstay.
  { intros n' Hsw. apply HQ; [done|by unfold same_update|done|]. destruct Hf as [|(Ht & _)]; [by left|]. destruct (switching (Phase v)) eqn:Ew.
    - destruct (Hsw eq_refl) as (Hp & Hr & [|Hn]); [by left|right]. unfold between. auto 12.
    - right. unfold between. rewrite Ew. split; [done|]. split; [done|]. split; [done|]. auto. }
  rewrite <- old_phase_in. destruct (old_phase (Phase v)) eqn:E1.
  { assert (switching (Phase v) = false) as Hsw.
    { by apply old_not_switching. }
    destruct state; [|apply wp_ret, Hstay; congruence]. apply wp_fail. destruct Hf as [|(_ & Hd & _)]; [done|].
    destruct Hst as [[_ Hr]|[? _]]; [|done]. by destruct Hd. }
  destruct (Phase v =s "prepared") eqn:E2; go_bool.
  { destruct state.
    - destruct Hst as [[_ Hr]|[? _]]; [|done]. destruct Hag as (Ha & _ & Hk & _). destruct (Hk E1) as [Hk' _].
      wp_steps. apply wp_saveJournal; [by apply agrees_new|by destruct Hf as [|[]]; [left|right]|].
      apply HQ; [by apply agrees_new|by unfold same_update|done|]. right.
      unfold between. cbn. split; [done|]. split; [done|]. split; [done|]. auto.
    - destruct Hst as [[? _]|(_ & Hr & Hn)]; [done|]. apply wp_ret, Hstay. done. }
  destruct (Phase v =s "rollback_prepared") eqn:E3; go_bool.
  { apply wp_rollbackLocked; [apply Hag| |].
    - destruct Hf as [|(Ht & _)]; [by left|right]. split; [done|]. split; [by apply agrees_one_of_two|].
      intros _. destruct Hag as (_ & _ & Hk & _). by apply Hk.
    - intros d' v' n' Ha' Hsa Hdl Hb. apply HQ; [done..|]. destruct Hb as [|[_ _ Bv Bt Bp]]; [by left|right].
      destruct Bp as [(Bp & _)|(_ & _ & _ & ? & _)]; [|done]. unfold between. rewrite Bp. split; [done|]. split; [done|]. split; [done|]. auto. }
  assert (switching (Phase v) = false) as Hsw.
  { unfold switching, str_in. cbn. apply String.eqb_neq in E2, E3. by rewrite E2, E3. }
  destruct (str_in (Phase v) ["published"; "observing"; "healthy"]) eqn:E4.
  2: { apply wp_ret, Hstay. congruence. }
  destruct state; [apply wp_ret, Hstay; congruence|]. apply wp_fail. destruct Hst as [[? _]|(_ & _ & [|Hn])]; [done..|].
  destruct Hn. destruct Hag as (_ & _ & _ & Hn & _). by apply Hn.
Qed.

Lemma wp_recoverLocked (Q : post unit) d v n :
  saved (journalFile d) = Some v -> agrees v d ->
  faulty \/ temporary (journalFile d) = false /\ ~ confusing v d /\ str_in (Phase v) phases = true ->
  (forall d' v' n', faulty \/ recovered v d v' d' -> Q tt d' v' n') -> wp (recoverLocked config oracle clock) Q d v n.
Proof.
  intros Hs Hag Hf HQ. unfold recoverLocked. wp_step. apply wp_currentState; [right; by apply agrees_one_of_two|..].
  - intros Hr. wp_step. apply wp_reconcilePhase; [done|done|auto|done|]. intros d' v' n' Ha' Hsa Hdl Hb.
    by apply (wp_finish_recovery _ v d).
  - intros Hr Hn. wp_step. apply wp_reconcilePhase; [done|done|auto|done|]. intros d' v' n' Ha' Hsa Hdl Hb.
    by apply (wp_finish_recovery _ v d).
Qed.

Lemma ok_saved v d : ok d -> saved (journalFile d) = Some v -> agrees v d.
Proof. intros [_ Hv]. apply Hv. Qed.

Lemma validJournal_phase v : validJournal v = true -> str_in (Phase v) phases = true.
Proof. unfold validJournal. intros Hv. by repeat (go_case_in Hv; [done|]). Qed.

(** The shape of [Recover]; the other operations on a stored journal have it too. *)
Definition trusted (v : journal) : Prop :=
  validJournal v = true /\ forall j k, validateJournal config (clock j) (clock k) v = Ok tt.

Lemma wp_stored (k : journal -> M unit) (Q : post unit) d v n :
  faulty \/ (forall x, saved (journalFile d) = Some x -> trusted x) ->
  (saved (journalFile d) = None -> Q tt d v n) ->
  (forall x, saved (journalFile d) = Some x -> agrees x d -> str_in (Phase x) phases = true -> wp (k x) Q d x n) ->
  wp (j <~ readJournal oracle ;; match j with None => ret tt | Some x => checkJournal config clock >>> k x end) Q d v n.
Proof.
  intros Hf HN HS. wp_step. apply wp_readJournal.
  - intros x Hx. destruct Hf as [|Hf]; [by left|right]. by apply Hf.
  - intros E. apply wp_ret. auto.
  - intros x Hx Hv. apply wp_ok. intros Hok. wp_step. apply wp_checkJournal.
    + destruct Hf as [|Hf]; [by left|right]. by apply Hf.
    + apply HS; [done|by apply ok_saved|by apply validJournal_phase].
Qed.

Lemma wp_gate (m : M unit) (Q : post unit) d v n :
  faulty \/ managementGate config = Ok tt -> wp m Q d v n ->
  wp (lift (managementGate config) >>> openInstallation oracle >>> m) Q d v n.
Proof.
  intros Hf Hm. wp_step. apply wp_lift; [by destruct Hf as [|Hg]; [left|right; rewrite Hg]|]. intros _ _.
  unfold openInstallation. wp_step. wp_step. done.
Qed.

Lemma wp_Recover (Q : post unit) d v n :
  faulty \/ managementGate config = Ok tt /\ (forall x, saved (journalFile d) = Some x -> trusted x /\ ~ confusing x d) ->
  (saved (journalFile d) = None -> forall d' v' n', Q tt d' v' n') ->
  (forall x d' v' n', saved (journalFile d) = Some x -> faulty \/ recovered x d v' d' -> Q tt d' v' n') ->
  wp (Recover config oracle clock) Q d v n.
Proof.
  intros Hf HN HS. unfold Recover. apply wp_gate; [by destruct Hf as [|[]]; [left|right]|]. wp_step.
  assert (forall d1, saved (journalFile d1) = saved (journalFile d) -> entry d1 = entry d ->
    temporary (journalFile d1) = false ->
    wp (j <~ readJournal oracle ;;
        match j with None => ret tt | Some _ => checkJournal config clock >>> recoverLocked config oracle clock end) Q d1 v n) as Hgo.
  { intros d1 Hs1 He1 Ht1. apply (wp_stored (fun _ => recoverLocked config oracle clock)); rewrite Hs1.
    - destruct Hf as [|[_ Hf]]; [by left|right]. intros x Hx. by apply Hf.
    - auto.
    - intros x Hx Hag Hph. apply wp_recoverLocked; [by rewrite Hs1|done| |].
      + destruct Hf as [|[_ Hf]]; [by left|right]. split; [done|]. split; [|done]. unfold confusing. rewrite He1. by apply Hf.
      + intros d' v' n' [|[R1 R2 R3 R4 R5 R6]]; apply (HS x); auto. right. split; try done. by rewrite <- He1. }
  apply wp_removeTemporary; [exact _| |]; intros; by apply Hgo.
Qed.

(** ** The other operations *)

Lemma wp_UpdaterRollback (Q : post unit) d v n :
  faulty \/ managementGate config = Ok tt /\ temporary (journalFile d) = false
            /\ (forall x, saved (journalFile d) = Some x -> trusted x /\ ~ confusing x d) ->
  (saved (journalFile d) = None -> Q tt d v n) ->
  (forall x d' v' n', saved (journalFile d) = Some x -> faulty \/ back x d n v' d' n' -> Q tt d' v' n') ->
  wp (UpdaterRollback config oracle clock) Q d v n.
Proof.
  intros Hf HN HS. unfold UpdaterRollback. apply wp_gate; [by destruct Hf as [|[]]; [left|right]|].
  apply (wp_stored (fun _ => rollbackLocked config oracle "rollback_requested")); [|done|].
  { destruct Hf as [|(_ & _ & Hf)]; [by left|right]. intros x Hx. by apply Hf. }
  intros x Hx Hag Hph. apply wp_rollbackLocked; [apply Hag| |].
  - destruct Hf as [|(_ & Ht & Hf)]; [by left|right].
    split; [done|]. split; [by apply agrees_one_of_two|]. intros Hr. destruct Hag as (_ & Ho & Hk & _).
    destruct (old_phase (Phase x)) eqn:Eo; [|by apply Hk]. exfalso. by apply (Hf x Hx).
  - intros d' v' n' _ _ _ Hb. by apply (HS x).
Qed.

Lemma wp_UpdaterCancel (Q : post unit) d v n : faulty -> (forall d' v' n', Q tt d' v' n') -> wp (UpdaterCancel config oracle clock) Q d v n.
Proof.
  intros Hf HQ. unfold UpdaterCancel. apply wp_gate; [by left|].
  apply (wp_stored (fun x => if negb (prepublication (Phase x)) then fail ErrBusy else
      verifyCurrent config oracle (Previous x) >>> removeStaging oracle >>>
      assign (fun v => v |> set_Phase "canceled" |> set_Reason "canceled") >>> saveJournal oracle)); [by left|done|].
  intros x Hx Hag _. destruct (negb _); [by apply wp_fail|]. wp_step. apply wp_verifyCurrent; [by left|]. intros Hr.
  wp_step. apply wp_removeStaging. wp_steps. apply wp_saveJournal; [|by left|done]. apply agrees_old; [apply Hag|done|done].
Qed.

(** What the health of a published update may change keeps the promise. *)
Lemma agrees_observed v v' d :
  awaitingHealth (Phase v) = true \/ Phase v = "healthy" -> awaitingHealth (Phase v') = true \/ Phase v' = "healthy" ->
  same_update v v' -> agrees v d -> agrees v' d.
Proof.
  assert (forall x, awaitingHealth (Phase x) = true \/ Phase x = "healthy" ->
    old_phase (Phase x) = false /\ switching (Phase x) = false) as Hph.
  { intros x. unfold awaitingHealth. intros Hx. go_bool. destruct Hx as [[Hx|Hx]|Hx]; by rewrite Hx. }
  intros [O S]%Hph [O' S']%Hph Hsame (Ha & _ & Hk & Hn & _). destruct (Hk O) as [Hk' _]. specialize (Hn O S).
  destruct Hsame as (A1 & A2 & A3). apply agrees_new; [|done|done|..].
  - by apply (authentic_same keys v).
  - unfold UpdateLogic.kept. by rewrite A2.
  - unfold imageFor. by rewrite A1, A3.
Qed.

Lemma wp_observeManagerRestarts counted (Q : post bool) d v n :
  faulty -> (forall b r, Q b d (set_Restarts r v) n) -> wp (observeManagerRestarts oracle counted) Q d v n.
Proof.
  intros Hf HQ. assert (forall b, Q b d v n) as HQ'. { intros b. specialize (HQ b (Restarts v)). by destruct v. }
  unfold observeManagerRestarts. destruct counted as [c|]; [|apply wp_ret; apply HQ'].
  wp_step. apply (wp_attempt_effect arch keys oracle faulty reliable); [done| |intros; by apply wp_fail].
  cbn [is_ok negb]. destruct (_ || _); [by apply wp_fail|]. wp_steps. destruct (c + 1 <=? Restarts v); wp_steps; [apply HQ'|apply HQ].
Qed.

Lemma recordHealth_phase evidence counted v :
  awaitingHealth (Phase (recordHealth config evidence counted v)) = true \/ Phase (recordHealth config evidence counted v) = "healthy".
Proof. unfold recordHealth. cbv zeta. go_case; [by right|by left]. Qed.

Lemma recordHealth_same evidence counted v : same_update v (recordHealth config evidence counted v).
Proof.
  unfold recordHealth, trackHealthProcess. cbv zeta. unfold same_update. repeat (go_case; cbn; try done).
Qed.

Lemma wp_Observe evidence counted (Q : post unit) d v n :
  faulty -> (forall d' v' n', Q tt d' v' n') -> wp (Observe config oracle clock evidence counted) Q d v n.
Proof.
  intros Hf HQ. unfold Observe. apply wp_gate; [by left|].
  apply (wp_stored (fun x => if negb (validObserverAnchor config x) then fail ErrHealth else
      verifyCurrent config oracle (imageFor x) >>> changed <~ observeManagerRestarts oracle counted ;;
      v <~ current ;;
      if Phase v =s "healthy" then observeCompleted oracle clock evidence changed else observeHealth config oracle clock evidence changed));
    [by left|done|].
  intros x Hx Hag _. destruct (validObserverAnchor config x) eqn:Ea; cbn [negb]; [|by apply wp_fail].
  assert (awaitingHealth (Phase x) = true \/ Phase x = "healthy") as Hph.
  { unfold validObserverAnchor in Ea. go_bool. by destruct Ea as [_ ?]. }
  wp_step. apply wp_verifyCurrent; [by left|]. intros _. wp_step. apply wp_observeManagerRestarts; [done|]. intros b r.
  assert (agrees (set_Restarts r x) d) as Hag' by by apply (agrees_same _ _ x).
  wp_steps. destruct (Phase (set_Restarts r x) =s "healthy") eqn:Eh; cbn in Eh; go_bool.
  - unfold observeCompleted. wp_steps. destruct (_ || _); [by apply wp_fail|]. destruct (_ =s _).
    + destruct b; [|by wp_steps]. apply wp_saveJournal; [done|by left|done].
    + wp_step. wp_step. wp_step. destruct b; wp_steps; (apply wp_saveJournal; [by apply (agrees_same _ _ x)|by left|done]).
  - unfold observeHealth. wp_steps. destruct (negb _); [apply wp_rollbackLocked; [apply Hag'|by left|done]|].
    destruct (_ || _); [by apply wp_fail|]. destruct (negb _); [apply wp_rollbackLocked; [apply Hag'|by left|done]|].
    wp_steps. apply wp_saveJournal; [|by left|done]. eapply agrees_observed; [exact Hph|apply recordHealth_phase| |exact Hag].
    pose proof (recordHealth_same evidence b (set_Restarts r x)). done.
Qed.

(** ** Downloading

    [loading]: the stored journal is the one in memory, in phase [downloading], and the
    previous image is at the entry point. [payload] is the artifact an honest server
    serves; [filled]: the download file holds its first bytes, as many as the journal
    says. *)
Context (available : Z) (fetch : Z -> Z -> result updateError FetchResponse) (payload : list Z).

Abbreviation size v := (Ar_Size (As_Artifact (J_Assignment v))).

Definition honest (v : journal) : Prop :=
  llen payload = size v /\ forall offset length, 0 <= offset -> 0 < length -> offset + length <= size v ->
    fetch offset length
    = Ok (mkFetchResponse (Some (take (Z.to_nat length) (drop (Z.to_nat offset) payload))) offset length (size v)).

Record loading (v : journal) (d : Disk) : Prop := mkLoading {
  loading_authentic : authentic keys v;
  loading_phase : Phase v = "downloading";
  loading_runs : runs (entry d) (Previous v);
  loading_saved : saved (journalFile d) = Some v }.

Definition filled (v : journal) (d : Disk) : Prop :=
  temporary (journalFile d) = false /\ 0 <= Downloaded v <= size v
  /\ exists m, get Download d = Some (mkFile (take (Z.to_nat (Downloaded v)) payload) m).

Lemma loading_agrees v d : loading v d -> agrees v d.
Proof. intros [Ha Hp Hr _]. apply agrees_old; [done|by rewrite Hp|done]. Qed.

Lemma loading_put v x f d : loading v d -> loading v (put x f d).
Proof. by intros []. Qed.

Lemma loading_ok_download v f d : loading v d -> ok d -> ok (put Download f d).
Proof.
  intros [_ Hp _ Hs]. apply ok_put_download. right. rewrite Hs. intros x [= <-]. by rewrite Hp.
Qed.

Lemma loading_ok_append v l d : loading v d -> ok d -> ok (append l d).
Proof. intros Hl Hd. unfold append. destruct (get Download d); [by eapply loading_ok_download|done]. Qed.

Lemma loading_append v l d : loading v d -> loading v (append l d).
Proof. intros Hl. unfold append. destruct (get Download d); [by apply loading_put|done]. Qed.

Lemma wp_downloadChunk offset length (Q : post unit) d v n :
  loading v d -> faulty \/ honest v /\ 0 <= offset /\ 0 < length /\ offset + length <= size v ->
  (forall part, faulty \/ part = take (Z.to_nat length) (drop (Z.to_nat offset) payload) -> Q tt (append part d) v n) ->
  wp (downloadChunk oracle fetch offset length (size v)) Q d v n.
Proof.
  intros Hl Hf HQ. unfold downloadChunk. wp_step. apply wp_lift.
  { destruct Hf as [|([_ Hh] & ? & ? & ?)]; [by left|right]. by rewrite Hh. }
  intros r Hr.
  assert (faulty \/ r = mkFetchResponse (Some (take (Z.to_nat length) (drop (Z.to_nat offset) payload))) offset length (size v)
          /\ llen (take (Z.to_nat length) (drop (Z.to_nat offset) payload)) = length) as Hr'.
  { destruct Hf as [|([Hs Hh] & ? & ? & ?)]; [by left|right]. rewrite Hh in Hr by done. simplify_eq. split; [done|].
    unfold llen in *. rewrite length_take, length_drop. lia. }
  destruct (Body r) as [body|] eqn:Eb; [|apply wp_fail; destruct Hr' as [|[-> _]]; done].
  destruct (_ || _) eqn:Ec.
  { apply wp_fail. destruct Hr' as [|[-> _]]; [done|]. cbn in Ec. by rewrite !Z.eqb_refl in Ec. }
  wp_step. apply (wp_attempt_effect arch keys oracle faulty reliable).
  - intros Hd. split; [|intros l]; by eapply loading_ok_append.
  - destruct (negb (llen body =? length)) eqn:El.
    + apply wp_fail. destruct Hr' as [|[-> Hlen]]; [done|]. cbn in Eb. simplify_eq. by rewrite Hlen, Z.eqb_refl in El.
    + apply wp_ret, HQ. destruct Hr' as [|[-> Hlen]]; [by left|right]. cbn in Eb. simplify_eq. by rewrite take_take, Nat.min_id.
  - intros e l Hfa. by apply wp_fail.
Qed.

Lemma wp_transfer_loop expires fuel (Q : post unit) d v n :
  loading v d ->
  faulty \/ honest v /\ filled v d /\ size v - Downloaded v <= Z.of_nat fuel
            /\ (forall k, clock k < As_ExpiresAt (J_Assignment v) /\ clock k < expires) ->
  (forall d' k, loading (set_Downloaded k v) d' -> faulty \/ filled (set_Downloaded k v) d' /\ k = size v
     -> previousFile d' = previousFile d -> Q tt d' (set_Downloaded k v) n) ->
  wp (transfer_loop oracle clock fetch fuel expires) Q d v n.
Proof.
  revert d v. induction fuel as [|fuel IH]; intros d v Hl Hf HQ; cbn [transfer_loop]; wp_steps.
  all: destruct (Downloaded v >=? size v) eqn:E; go_bool.
  1, 3: apply wp_ret; replace v with (set_Downloaded (Downloaded v) v) by (by destruct v); apply HQ;
    [by destruct v|destruct Hf as [|(_ & Hfi & _)]; [by left|right]|done]; pose proof Hfi as (_ & ? & _);
    (split; [by destruct v|lia]).
  { apply wp_fail. destruct Hf as [|(_ & _ & ? & _)]; [done|lia]. }
  wp_steps. destruct (_ || _) eqn:Et.
  { apply wp_fail. destruct Hf as [|(_ & _ & _ & Hc)]; [done|]. exfalso. unfold Before in Et. go_bool.
    pose proof (Hc k). pose proof (Hc k0). lia. }
  set (length := Z.min ChunkBytes (size v - Downloaded v)).
  assert (0 < ChunkBytes) as Hcb by done.
  wp_step. apply wp_downloadChunk; [done| |].
  { destruct Hf as [|(Hh & (_ & ? & _) & _)]; [by left|right]. unfold length. split; [done|lia]. }
  intros part Hpart. wp_steps.
  assert (loading (set_Downloaded (Downloaded v + length) v) (set_saved journalSlot (set_Downloaded (Downloaded v + length) v) (append part d))) as Hl'.
  { apply (loading_append _ part) in Hl as [? ? ? _]. by split. }
  apply wp_saveJournal; [by eapply agrees_ext; [..|apply loading_agrees; exact Hl']| |].
  { destruct Hf as [|(_ & (Ht & _) & _)]; [by left|right]. unfold append. by destruct (get Download d). }
  apply IH; [done| |].
  - destruct Hf as [|(Hh & (Ht & Hr & m & Hm) & Hfu & Hc)]; [by left|]. destruct Hpart as [|Hpart]; [by left|right].
    pose proof Hh as [Hs _]. split; [exact Hh|]. split; [|split; [cbn; lia|done]]. split; [done|]. split; [cbn; lia|].
    exists m. unfold append. rewrite Hm. cbn. do 2 f_equal. rewrite Hpart, Z2Nat.inj_add by lia.
    by rewrite take_take_drop.
  - intros d' k' Hl'' Hf' Hp. apply (HQ d' k'); [done..|]. rewrite Hp. unfold append. by destruct (get Download d).
Qed.

(** The download that a machine that does not fail completes: a fetcher is configured,
    the server is honest, nothing expires meanwhile, and the bytes already fetched, if
    any, are the artifact's. *)
Record smooth (v : journal) (d : Disk) : Prop := mkSmooth {
  smooth_fetcher : is_Some (Fetcher config);
  smooth_honest : honest v;
  smooth_verified : verifyImage arch payload (imageFor v) = Ok tt;
  smooth_manifest : exists m, DecodeManifest (Payload (As_Manifest (J_Assignment v))) = Ok m /\
    forall k, clock k < As_ExpiresAt (J_Assignment v) /\ clock k < Ma_ExpiresAt m;
  smooth_clean : temporary (journalFile d) = false;
  smooth_range : 0 <= Downloaded v <= size v;
  smooth_prefix : Downloaded v = 0 \/ exists f, get Download d = Some f /\
    Downloaded v <= llen (content f) /\ take (Z.to_nat (Downloaded v)) (content f) = take (Z.to_nat (Downloaded v)) payload }.

Lemma create_prefix v d : smooth v d -> exists f, get Download (create_download d) = Some f /\
  Downloaded v <= llen (content f) /\ take (Z.to_nat (Downloaded v)) (content f) = take (Z.to_nat (Downloaded v)) payload.
Proof.
  intros Hs. unfold create_download. destruct (smooth_prefix _ _ Hs) as [Hz|(f & Hf & Hp)].
  - destruct (get Download d) as [f|] eqn:E; [exists f|eexists]; (split; [done|]); rewrite Hz; (split; [|done]);
      apply llen_nonneg.
  - exists f. by rewrite Hf.
Qed.

Lemma loading_create v d : loading v d -> loading v (create_download d).
Proof. intros Hl. unfold create_download. destruct (get Download d); [done|by apply loading_put]. Qed.

Lemma previous_create d : previousFile (create_download d) = previousFile d.
Proof. unfold create_download. by destruct (get Download d). Qed.

Lemma wp_download (Q : post unit) d v n :
  loading v d -> faulty \/ smooth v d ->
  (forall d' k, loading (set_Downloaded k v) d' -> previousFile d' = previousFile d ->
     faulty \/ (temporary (journalFile d') = false /\ k = size v /\ exists m, get Download d' = Some (mkFile payload m)) ->
     Q tt d' (set_Downloaded k v) n) ->
  wp (download config oracle clock fetch) Q d v n.
Proof.
  intros Hl Hf HQ. unfold download. destruct (Fetcher config) as [a|] eqn:Ef.
  2: { apply wp_fail. destruct Hf as [|Hf]; [done|]. apply smooth_fetcher in Hf. rewrite Ef in Hf. by destruct Hf. }
  pose proof (loading_create _ _ Hl) as Hlc.
  wp_step. wp_change_ok. { intros Hd. unfold create_download. destruct (get Download d); [done|by eapply loading_ok_download]. }
  wp_step. apply wp_openFile.
  { destruct Hf as [|Hf]; [by left|right]. destruct (create_prefix _ _ Hf) as (f & -> & _). eauto. }
  intros f Hfile. wp_steps. destruct (llen (content f) <? Downloaded v) eqn:Esz.
  { apply wp_fail. destruct Hf as [|Hf]; [done|]. exfalso. destruct (create_prefix _ _ Hf) as (g & Hg & ? & _). simplify_eq. go_bool. lia. }
  wp_step. unfold truncate. wp_change_ok.
  { rewrite Hfile. by eapply loading_ok_download. }
  rewrite Hfile. wp_steps. unfold transferChunks. wp_steps. apply wp_lift.
  { destruct Hf as [|Hf]; [by left|right]. destruct (smooth_manifest _ _ Hf) as (m & -> & _). done. }
  intros m Hm. apply wp_transfer_loop; [by apply loading_put| |].
  { destruct Hf as [|Hf]; [by left|right]. pose proof (smooth_range _ _ Hf). split; [by apply (smooth_honest _ _ Hf)|].
    destruct (smooth_manifest _ _ Hf) as (m' & Hm' & Hc). rewrite Hm in Hm'. simplify_eq. split; [|split; [lia|done]].
    destruct (create_prefix _ _ Hf) as (g & Hg & _ & Hp). simplify_eq. split.
    - rewrite journal_put. pose proof (smooth_clean _ _ Hf). unfold create_download. by destruct (get Download d).
    - split; [done|]. exists (mode f). by rewrite get_put, Hp. }
  intros d' k Hl' Hf' Hp. wp_step. apply wp_openFile.
  { destruct Hf' as [|[(_ & _ & m' & Hm') _]]; [by left|right; eauto]. }
  assert (faulty \/ temporary (journalFile d') = false /\ k = size v /\ exists m, get Download d' = Some (mkFile payload m)) as Hdone.
  { destruct Hf' as [|[(Ht & _ & m' & Hm') ->]]; [by left|]. destruct Hf as [|Hf]; [by left|right]. split; [done|]. split; [done|].
    exists m'. rewrite Hm'. do 2 f_equal. apply take_ge. cbn. destruct (smooth_honest _ _ Hf) as [Hs _].
    unfold llen in Hs. lia. }
  intros g Hg. wp_steps.
  assert (faulty \/ runs g (imageFor v)) as Hrun.
  { destruct Hf as [|Hf]; [by left|]. destruct Hdone as [|(_ & _ & m' & Hm')]; [by left|right]. simplify_eq.
    by apply (smooth_verified _ _ Hf). }
  destruct (_ <>s _) eqn:Eh.
  { apply wp_fail. destruct Hrun as [|Hrun]; [done|]. exfalso. apply runs_hash in Hrun.
    rewrite Hrun in Eh. go_bool. done. }
  apply wp_verifyFile; [done|]. intros _. apply HQ; [done| |done].
  rewrite Hp. cbn. apply previous_create.
Qed.

(** ** Preparing *)

Lemma wp_replacePrevious f i (Q : post unit) d v n :
  loading v d -> runs f i ->
  (forall g, runs g i -> Q tt (put Next None (put PreviousBin (Some g) d)) v n) ->
  wp (replacePrevious config oracle f i) Q d v n.
Proof.
  intros Hl Hr HQ. unfold replacePrevious. wp_step. apply wp_safeRemove; [done|].
  wp_step. apply wp_privateCopy; [auto|by right|]. wp_step. apply wp_openFile; [right; by eexists|].
  intros g [= <-]. wp_step. apply wp_verifyFile; [right; by apply runs_copy|]. intros Hg. wp_step. wp_change_ok.
  - intros Hd. unfold rename_previous. rewrite get_put. apply ok_put_staging; [auto|]. apply ok_put_previous; [|done].
    cbn. intros x. rewrite (loading_saved _ _ Hl). intros [= <-]. by rewrite (loading_phase _ _ Hl).
  - wp_steps. by apply HQ.
Qed.

(** [ready]: the stored journal is the one in memory, in phase [prepared]. *)
Record ready (v : journal) (d : Disk) : Prop := mkReady {
  ready_authentic : authentic keys v;
  ready_phase : Phase v = "prepared";
  ready_saved : saved (journalFile d) = Some v;
  ready_kept : kept v d;
  ready_startable : forall f, downloadFile d = Some f -> startable f }.

Lemma wp_prepare (Q : post unit) d v n :
  loading v d ->
  faulty \/ temporary (journalFile d) = false /\ (exists f, get Download d = Some f /\ runs f (imageFor v)) ->
  (forall d' c, ready (set_Phase "prepared" v) d' -> runs (entry d') (Previous v) -> get Download d' = Some (mkFile c 448) ->
     runs (mkFile c 448) (imageFor v) -> temporary (journalFile d') = false ->
     (exists f, get Download d = Some f /\ content f = c) -> Q tt d' (set_Phase "prepared" v) n) ->
  wp (prepare config oracle) Q d v n.
Proof.
  intros Hl Hf HQ. unfold prepare. wp_steps. apply wp_attempt_verifyFile.
  2: { intros e He. apply wp_fail. destruct He as [|He]; [done|]. destruct He. by apply loading_runs. }
  intros Hr. wp_step. apply wp_replacePrevious; [done|done|]. intros g Hg. wp_step.
  apply wp_makeExecutable; [auto|by destruct Hf as [|[_ Hf]]; [left|right]|]. intros f Efile Hrf. wp_steps.
  change (get Download d = Some f) in Efile.
  set (d1 := put Download _ _). assert (agrees (set_Phase "prepared" v) d1) as Ha.
  { apply agrees_prepared; [by apply (loading_authentic _ _ Hl)|done|by exists g|by left|]. by intros x [= <-]. }
  apply wp_saveJournal; [done|by destruct Hf as [|[]]; [left|right]|].
  apply (HQ _ (content f)); [|done|done|done|done|by exists f]. destruct Hl. split; [done|done|done|by exists g|by intros x [= <-]].
Qed.

Lemma wp_downloadAndPrepare (Q : post unit) d v n :
  loading v d ->
  faulty \/ smooth v d /\ size v - Downloaded v + Im_Size (Previous v) + maximumJournalBytes <= available
     /\ 0 <= size v - Downloaded v + Im_Size (Previous v) + maximumJournalBytes < 2 ^ 64 ->
  (forall d' k c, let v' := set_Phase "prepared" (set_Downloaded k v) in
     ready v' d' -> runs (entry d') (Previous v) -> get Download d' = Some (mkFile c 448) ->
     runs (mkFile c 448) (imageFor v) -> temporary (journalFile d') = false -> faulty \/ c = payload -> Q tt d' v' n) ->
  wp (downloadAndPrepare config oracle clock available fetch) Q d v n.
Proof.
  intros Hl Hf HQ. unfold downloadAndPrepare. wp_steps. apply wp_verifyCurrent; [right; by apply loading_runs|].
  intros _. wp_step. unfold checkSpace. wp_steps. destruct (available <? _) eqn:Esp.
  { apply wp_fail. destruct Hf as [|(_ & ? & ?)]; [done|]. exfalso. go_bool. rewrite Z.mod_small in Esp by done. lia. }
  wp_steps. apply wp_download; [done|by destruct Hf as [|[]]; [left|right]|]. intros d' k Hl' _ Hf'.
  apply wp_prepare; [done| |].
  { destruct Hf as [|[Hf _]]; [by left|]. destruct Hf' as [|(Ht & _ & m & Hm)]; [by left|right]. split; [done|].
    eexists. split; [done|]. by apply (smooth_verified _ _ Hf). }
  intros d'' c Hre Hru Hdl Hrc Ht (f & Hfile & Hc). apply (HQ d'' k c); [done..|].
  destruct Hf' as [|(_ & _ & m & Hm)]; [by left|right]. by simplify_eq.
Qed.

(** ** Publishing *)

Definition published (now : Time) (v : journal) : journal :=
  set_Phase "published"
    (if IsZero (PublishedAt v) then set_Published now (Add now (StartupTimeout config + ObservationWindow config)) v else v).

Lemma wp_publish (Q : post unit) d v n :
  ready v d ->
  faulty \/ runs (entry d) (Previous v) /\ temporary (journalFile d) = false /\
     (exists f, get Download d = Some f /\ runs f (imageFor v)) ->
  (forall f k d', let v' := published (clock k) v in
     get Download d = Some f -> entry d' = f -> agrees v' d' -> kept v' d' -> saved (journalFile d') = Some v' ->
     temporary (journalFile d') = false -> Q tt d' v' n) ->
  wp (publish config oracle clock) Q d v n.
Proof.
  intros Hre Hf HQ. destruct Hre as [Ha Hp Hs Hk Hst]. unfold publish. wp_steps. apply wp_verifyCurrent; [tauto|].
  intros Hr. wp_step. unfold verifyCandidate. wp_step. apply wp_openFile.
  { destruct Hf as [|(_ & _ & f & Hf & _)]; [by left|right; eauto]. }
  intros f Efile. wp_steps. apply wp_verifyFile.
  { destruct Hf as [|(_ & _ & g & Hg & Hf)]; [by left|right]. by simplify_eq. }
  intros Hrf. wp_step.
  set (step := if IsZero (PublishedAt v) then _ else _).
  assert (forall Q', (forall k, Q' tt d (if IsZero (PublishedAt v)
            then set_Published (clock k) (Add (clock k) (StartupTimeout config + ObservationWindow config)) v else v) n)
          -> wp step Q' d v n) as Hstep.
  { intros Q' HQ'. unfold step. destruct (IsZero (PublishedAt v)); wp_steps; [apply HQ'|apply (HQ' 0%nat)]. }
  apply Hstep. intros k. set (v1 := if IsZero _ then _ else _).
  assert (same_update v v1 /\ Phase v1 = "prepared") as [(A1 & A2 & A3) Hp1] by (unfold v1; by destruct (IsZero (PublishedAt v))).
  assert (imageFor v1 = imageFor v) as Hi by (unfold imageFor; by rewrite A1, A3).
  assert (authentic keys v1) as Ha1 by by apply (authentic_same keys v).
  wp_step. apply wp_saveJournal; [|by destruct Hf as [|(_ & ? & _)]; [left|right]|].
  { apply agrees_prepared; [done|done|unfold UpdateLogic.kept; by rewrite A2|left; by rewrite A2|done]. }
  wp_step. apply (wp_replaceEntrypoint _ f); [done|by right| |].
  { intros Hd. unfold rename_entry. rewrite (Efile : get Download (set_saved journalSlot v1 d) = Some f).
    split; [by apply Hst|]. intros x [= <-]. apply agrees_prepared; [done|done|unfold UpdateLogic.kept; by rewrite A2|right; by rewrite Hi|done]. }
  wp_steps. unfold rename_entry. rewrite (Efile : get Download (set_saved journalSlot v1 d) = Some f).
  assert (kept (set_Phase "published" v1) (put Download None (set_entry f (set_saved journalSlot v1 d)))) as Hk1
    by (unfold UpdateLogic.kept; cbn; by rewrite A2).
  assert (agrees (set_Phase "published" v1) (put Download None (set_entry f (set_saved journalSlot v1 d)))) as Hag.
  { apply agrees_new; [done..|]. change (imageFor (set_Phase "published" v1)) with (imageFor v1). by rewrite Hi. }
  apply wp_saveJournal; [done|by right|]. by apply (HQ f k).
Qed.

(** ** Applying an assignment *)

(** What is known after an update on a machine that does not fail: the artifact is at the
    entry point, its journal is stored, the previous image is kept, and one restart of
    the service was requested. *)
Record upgraded (v : journal) (n : nat) (v' : journal) (d' : Disk) (n' : nat) : Prop := mkUpgraded {
  up_same : same_update v v';
  up_phase : Phase v' = "published";
  up_restarted : Restarted v' = true;
  up_entry : content (entry d') = payload;
  up_runs : runs (entry d') (imageFor v);
  up_kept : kept v d';
  up_saved : saved (journalFile d') = Some v';
  up_asked : n' = S n }.

Record can_apply (v : journal) (d : Disk) : Prop := mkCanApply {
  can_phase : Phase v = "downloading";
  can_smooth : smooth v d;
  can_space : size v - Downloaded v + Im_Size (Previous v) + maximumJournalBytes <= available
     /\ 0 <= size v - Downloaded v + Im_Size (Previous v) + maximumJournalBytes < 2 ^ 64;
  can_verify : forall k, is_ok (verify config (J_Assignment v) (clock k)) = true;
  can_restart : Restarted v = false }.

(** From [prepared] on. [c] is the content of the download file when it is known. *)
Lemma wp_publish_and_restart (Q : post unit) d v n :
  ready v d -> let c := content (default (mkFile [] 0) (get Download d)) in
  faulty \/ (forall k, is_ok (verify config (J_Assignment v) (clock k)) = true) /\ runs (entry d) (Previous v) /\
     temporary (journalFile d) = false /\ Restarted v = false /\ (exists f, get Download d = Some f /\ runs f (imageFor v)) ->
  (forall d' v' n', faulty \/ c = payload -> faulty \/ (c = payload -> upgraded v n v' d' n') -> Q tt d' v' n') ->
  faulty \/ c = payload ->
  wp (now <~ Now clock ;; lift (verify config (J_Assignment v) now) >>> publish config oracle clock >>>
      restarted <~ attempt (restartJournal oracle) ;;
      match restarted with
      | Ok _ => ret tt
      | Err e => attempt (rollbackLocked config oracle "restart_failed") >>> fail e
      end) Q d v n.
Proof.
  intros Hre c Hf HQ Hc. wp_steps. apply wp_lift. { destruct Hf as [|[Hf _]]; [by left|right; apply Hf]. }
  intros _ _. wp_step. apply wp_publish; [done|tauto|]. intros f k' d' v' Hfile He Hag Hk Hs Ht. wp_step.
  assert (same_update v v' /\ Restarted v' = Restarted v) as [Hsame Hrs].
  { unfold v', published. by destruct (IsZero (PublishedAt v)). }
  apply wp_attempt_keeps; [apply keeps_restartJournal| |].
  - apply wp_restartJournal; [done|by right|..]; intros Hr; apply wp_ret; apply HQ; auto.
    { left. destruct Hf as [|(_ & _ & _ & Hf & _)]; [done|congruence]. }
    right. intros Hcp. pose proof Hsame as (A1 & A2 & A3). split; try done.
    + cbn. rewrite He, <- Hcp. unfold c. by rewrite Hfile.
    + destruct Hag as (_ & _ & _ & Hn & _). cbn. replace (imageFor v) with (imageFor v') by (unfold imageFor; by rewrite A1, A3).
      by apply Hn.
    + unfold UpdateLogic.kept in *. by rewrite A2 in Hk.
  - intros e d'' v'' n'' Hfa Hok Hsame'. wp_step. apply wp_attempt; [|intros; by apply wp_fail].
    apply wp_rollbackLocked; [|by left|intros; by apply wp_fail]. apply (authentic_same keys v'); [done|]. apply Hag.
Qed.

Lemma wp_applyLocked (Q : post unit) d v n :
  saved (journalFile d) = Some v -> faulty \/ can_apply v d ->
  (forall d' v' n', faulty \/ upgraded v n v' d' n' -> Q tt d' v' n') ->
  wp (applyLocked config oracle clock available fetch) Q d v n.
Proof.
  intros Hs Hf HQ. apply wp_ok. intros [_ Hok]. specialize (Hok v Hs). unfold applyLocked. wp_steps.
  destruct (awaitingHealth (Phase v)) eqn:Ew.
  { destruct Hf as [Hf|[Hf]]; [|by rewrite Hf in Ew]. apply wp_verifyCurrent; [by left|]. auto. }
  destruct (Phase v =s "downloading") eqn:Ed; go_bool.
  - wp_step. apply wp_downloadAndPrepare.
    { destruct Hok as (? & Hr & _). split; [done|done| |done]. apply Hr. by rewrite Ed. }
    { destruct Hf as [|[]]; auto. }
    intros d' k c v' Hre Hru Hdl Hrc Ht Hc. wp_steps. cbn [Phase set_Phase]. cbn [String.eqb Ascii.eqb Bool.eqb negb].
    apply wp_publish_and_restart; rewrite ?Hdl; cbn [default content]; [done| | |done].
    + destruct Hf as [|[_ _ _ Hver Hres]]; [by left|right]. split; [apply Hver|]. eauto 8.
    + intros d2 v2 n2 _ Hup. apply HQ. destruct Hup as [|Hup]; [by left|]. destruct Hc as [|Hc]; [by left|right]. by destruct (Hup Hc).
  - destruct Hf as [Hf|[Hf]]; [|by rewrite Hf in Ed]. wp_steps. destruct (Phase v <>s "prepared") eqn:Ep; [by apply wp_fail|].
    go_bool. apply wp_publish_and_restart; [|by left| |by left].
    + destruct Hok as (? & _ & Hk & _ & Hst). split; try done; [|by apply Hst]. apply Hk. by rewrite Ep.
    + intros d' v' n' _ _. apply HQ. by left.
Qed.

(** A journal that a new assignment may follow. *)
Definition finished (d : Disk) : Prop :=
  forall x, saved (journalFile d) = Some x -> validJournal x = true /\ terminalPhase (Phase x) = true /\
    forall j k, validateJournal config (clock j) (clock k) x = Ok tt.

Lemma wp_begin a m at_ (Q : post unit) d v n :
  authentic keys (newJournal config a m at_) -> runs (entry d) (Installed config) -> faulty \/ finished d ->
  (forall d' v', saved (journalFile d') = Some v' ->
     faulty \/ v' = newJournal config a m at_ /\ temporary (journalFile d') = false -> Q tt d' v' n) ->
  wp (begin config oracle clock a m at_) Q d v n.
Proof.
  intros Ha Hr Hf HQ.
  assert (forall d' v', saved (journalFile d') = saved (journalFile d) -> entry d' = entry d ->
    faulty \/ temporary (journalFile d') = false ->
    wp (removeStaging oracle >>> assign (fun _ => newJournal config a m at_) >>> saveJournal oracle) Q d' v' n) as Hnew.
  { intros d' v' Hs He Ht. wp_step. apply wp_removeStaging. wp_steps. apply wp_saveJournal.
    - apply agrees_old; [done|done|]. cbn. by rewrite He.
    - by destruct Ht; [left|right].
    - apply HQ; [done|]. by right. }
  unfold begin. wp_step.
  assert (forall d', saved (journalFile d') = saved (journalFile d) -> entry d' = entry d ->
    temporary (journalFile d') = false ->
    wp (j <~ readJournal oracle ;;
        fresh <~ match j with
                 | None => ret true
                 | Some existing =>
                     checkJournal config clock >>>
                     if negb (terminalPhase (Phase existing)) && negb (sameAssignment (J_Assignment existing) a) then fail ErrBusy
                     else ret (terminalPhase (Phase existing))
                 end ;;
        if fresh then removeStaging oracle >>> assign (fun _ => newJournal config a m at_) >>> saveJournal oracle else ret tt)
       Q d' v n) as Hrest.
  { intros d' Hs He Ht. wp_step. apply wp_readJournal.
    - intros x Hx. rewrite Hs in Hx. destruct Hf as [|Hf]; [by left|right]. by apply Hf.
    - intros E. do 2 wp_step. apply Hnew; auto.
    - intros x Hx Hvx. rewrite Hs in Hx. wp_step. wp_step. apply wp_checkJournal.
      { destruct Hf as [|Hf]; [by left|right]. by apply Hf. }
      destruct (terminalPhase (Phase x)) eqn:Et; cbn [negb andb].
      + wp_step. apply Hnew; auto.
      + destruct Hf as [Hf|Hf]; [|destruct (Hf x Hx); intuition congruence].
        destruct (sameAssignment _ _); cbn [negb]; [|by apply wp_fail]. wp_steps. apply HQ; [by rewrite Hs|by left]. }
  apply wp_removeTemporary; [exact _| |]; intros; by apply Hrest.
Qed.

Lemma wp_Apply a (Q : post unit) d v n :
  runs (entry d) (Installed config) ->
  faulty \/ Enabled config = true /\ managementGate config = Ok tt /\ finished d /\
    (forall k, exists a' m, verify config a (clock k) = Ok (a', m) /\
      forall d', temporary (journalFile d') = false -> can_apply (newJournal config a' m (clock k)) d') ->
  (forall d' v' n', faulty \/ (exists k a' m, verify config a (clock k) = Ok (a', m) /\
       upgraded (newJournal config a' m (clock k)) n v' d' n') -> Q tt d' v' n') ->
  wp (Apply config oracle clock available fetch a) Q d v n.
Proof.
  intros Hr Hf HQ. unfold Apply. destruct (Enabled config); cbn [negb]; [|apply wp_fail; by destruct Hf as [|[]]].
  wp_step. apply wp_lift. { destruct Hf as [|(_ & -> & _)]; [by left|by right]. }
  intros _ _. wp_steps. apply wp_lift. { destruct Hf as [|(_ & _ & _ & Hf)]; [by left|right]. by destruct (Hf k) as (? & ? & -> & _). }
  intros [a' m] Hv. wp_step. unfold openInstallation. wp_steps. cbn [fst snd].
  apply wp_begin; [by eapply verify_authentic|done|by destruct Hf as [|(_ & _ & ? & _)]; [left|right]|].
  intros d' v' Hs Hv'. apply wp_applyLocked; [done| |].
  - destruct Hf as [|(_ & _ & _ & Hf)]; [by left|]. destruct Hv' as [|[-> Ht]]; [by left|right].
    destruct (Hf k) as (a2 & m2 & Hv2 & Hc). rewrite Hv in Hv2. simplify_eq. auto.
  - intros d2 v2 n2 Hup. apply HQ. destruct Hup as [|Hup]; [by left|]. destruct Hv' as [|[-> _]]; [by left|right]. eauto.
Qed.

End operations.
