(* ===== verification/UpdateSample.v ===== *)
(** * Agent updates: a concrete installation

    Two small executables, a signed manifest for the second, an honest server and a
    configuration, on which the updater is run. *)

From S2P Require Import Prelude GoText GoSha256 ReleaseVersion UpdateModel UpdateDisk UpdateSupervisor UpdateLogic.

(** An ELF executable with one loadable segment; [tag] is a byte of the padding. *)
Definition le (n : nat) (v : Z) : list Z := rev (be_bytes n v).
Definition elf (tag : Z) : list Z :=
  [127; 69; 76; 70; 2; 1; 1; 0] ++ le 7 0 ++ [tag] ++ le 2 2 ++ le 2 62 ++ le 4 1 ++ le 8 64 ++ le 8 64 ++ le 8 0
  ++ le 4 0 ++ le 2 64 ++ le 2 56 ++ le 2 1 ++ le 2 0 ++ le 2 0 ++ le 2 0
  ++ le 4 1 ++ le 4 5 ++ le 8 0 ++ le 8 0 ++ le 8 0 ++ le 8 120 ++ le 8 120 ++ le 8 0.

Definition elf_image (version : string) (tag : Z) : Image := mkImage version 120 (EncodeHex (Sum256 (elf tag))).

Example elf_accepted : verifyImage "amd64" (elf 1) (elf_image "1.0.0" 1) = Ok tt.
Proof. vm_compute. reflexivity. Qed.
Example elf_of_another_machine : verifyImage "arm64" (elf 1) (elf_image "1.0.0" 1) = Err ErrFormat.
Proof. vm_compute. reflexivity. Qed.
Example elf_changed : verifyImage "amd64" (elf 2) (elf_image "1.0.0" 1) = Err ErrIntegrity.
Proof. vm_compute. reflexivity. Qed.

Definition digest_text : string := EncodeHex (repeat 0 32).
Definition sample_now : Time := 10 ^ 18.
Definition sample_artifact : Artifact :=
  mkArtifact "agent" "linux" "amd64" "binary" "agent" "agent" 120 (EncodeHex (Sum256 (elf 2))) digest_text digest_text "supported".
Definition sample_manifest : Manifest :=
  mkManifest 1 "2.0.0" (EncodeHex (repeat 0 20)) "stable" (sample_now - Hour) (sample_now + Hour) 1 1 9 digest_text "key" false
    [sample_artifact] None.
Definition sample_key : SigningTrust := mkSigningTrust "key" (repeat 7 32) 1 (sample_now + Hour) false.
Definition sample_signed : SignedManifest := mkSignedManifest [1; 2; 3] [7; 1; 2; 3] [].
Definition sample_assignment : Assignment :=
  mkAssignment 1 "upgrade" "assignment" "rollout" "node" digest_text (sample_now + Hour) sample_artifact sample_signed.

(** One payload has a meaning, and a signature is the key's first byte and the payload. *)
Definition sample_externals : Externals := {|
  urlParse := fun s => Some (mkURL "https" s s false "" "" "/" "");
  urlString := fun u => Scheme u +:+ "://" +:+ Host u +:+ URLPath u;
  toLower := fun s => s;
  decodeJSON := fun l => if decide (l = [1; 2; 3]) then Some sample_manifest else None;
  transitionBytes := fun _ => None;
  ed25519Verify := fun key payload signature => bool_decide (signature = take 1 key ++ payload) |}.
#[local] Existing Instance sample_externals.

Definition sample_config (installed : Image) : Config :=
  mkConfig true false "/opt/agent" "agent" "node" "server" installed [sample_key] (Some "systemd") (Some "server") "linux"
    "amd64" 3 (10 * Minute) (2 * Minute) Minute (30 * Second).

Definition sample_old : Config := sample_config (elf_image "1.0.0" 1).
Definition sample_new : Config := sample_config (elf_image "2.0.0" 2).

Definition sample_disk : Disk :=
  mkDisk (mkFile (elf 1) 493) None None None None (mkPrivate None false) (mkPrivate None false) (mkPrivate None false).

Definition sample_clock (t : Time) (k : nat) : Time := t.
Definition sample_fetch (offset length : Z) : result updateError FetchResponse :=
  Ok (mkFetchResponse (Some (take (Z.to_nat length) (drop (Z.to_nat offset) (elf 2)))) offset length 120).
Definition sample_space : Z := Z.shiftl 1 30.

(** A machine that does not fail, and one that is switched off at its [n]th step. *)
Definition reliable_machine (k : nat) : choice := Good.
Definition stops_at (n k : nat) : choice := if (n <=? k)%nat then Stop [] else Good.

Definition sample_apply (oracle : nat -> choice) (d : Disk) : outcome unit * world :=
  Apply sample_old oracle (sample_clock sample_now) sample_space sample_fetch sample_assignment (mkWorld d zeroJournal 0 0 0).

(** The update runs to its end; and a machine that stops at any of its steps leaves one
    of the two executables. *)
Example sample_update :
  let (o, w) := sample_apply reliable_machine sample_disk in
  o = Ret tt /\ content (entry (disk w)) = elf 2 /\ option_map Phase (saved (journalFile (disk w))) = Some "published" /\ asked w = 1%nat.
Proof. vm_compute. auto. Qed.

Example sample_steps : at_step (sample_apply reliable_machine sample_disk).2 = 70%nat.
Proof. vm_compute. reflexivity. Qed.
