(* ===== verification/UpdateSafety.v ===== *)
(** * Agent updates: the theorems

    Over the specifications of [UpdateCrash]: what no sequence of operations and crashes
    can break, what a recovery and an update achieve on a machine that does not fail, and
    what the receipts prove of the image that is running. *)

From S2P Require Import Prelude GoText GoSha256 ReleaseVersion UpdateModel UpdateDisk UpdateSupervisor UpdateLogic UpdateCrash UpdateSample.

Local Arguments Sum256 : simpl never.
Local Arguments EncodeHex : simpl never.

(** ** Sequences of operations

    [perform] is one operation of the updater or of its local state; a [transition] is an
    operation run to its end, to an error or to a crash, with any configuration for the
    same architecture and keys, any clock, server and machine. [Apply] is started by a
    process whose configuration names the image at the entry point. *)

Inductive operation :=
| ApplyOp (a : Assignment) | RecoverOp | CancelOp | RollbackOp
| ObserveOp (evidence : HealthEvidence) (counted : option Z)
| EnqueueOp (a : Assignment) | DiscardOp (a : Assignment) | ResolveOp | BootstrapOp (signed : SignedManifest) (artifactID : string).

Section perform.
Context `{Externals} (config : Config) (oracle : nat -> choice) (clock : nat -> Time) (available : Z).
Context (fetch : Z -> Z -> result updateError FetchResponse).

Definition perform (o : operation) : M unit :=
  match o with
  | ApplyOp a => Apply config oracle clock available fetch a
  | RecoverOp => Recover config oracle clock
  | CancelOp => UpdaterCancel config oracle clock
  | RollbackOp => UpdaterRollback config oracle clock
  | ObserveOp evidence counted => Observe config oracle clock evidence counted
  | EnqueueOp a => Enqueue config oracle clock a
  | DiscardOp a => discardPending oracle a
  | ResolveOp => ResolveInstalled config oracle clock >>> ret tt
  | BootstrapOp signed id => Bootstrap config oracle clock signed id >>> ret tt
  end.
End perform.

Definition after `{Externals} config oracle clock available fetch (o : operation) (d : Disk) (v : journal) : Disk :=
  disk (perform config oracle clock available fetch o (mkWorld d v 0 0 0)).2.

Inductive transition `{Externals} (arch : string) (keys : list SigningTrust) (d : Disk) : Disk -> Prop :=
| transition_op config oracle clock available fetch o v :
    Arch config = arch -> Keys config = keys ->
    (forall a, o = ApplyOp a -> runs arch (entry d) (Installed config)) ->
    transition arch keys d (after config oracle clock available fetch o d v).

(** ** The operations that do not concern the journal *)

Section local.
Context `{Externals} (config : Config) (oracle : nat -> choice) (clock : nat -> Time).
Abbreviation wp := (wp (Arch config) (Keys config) True).
Abbreviation ok := (disk_ok (Arch config) (Keys config)).
Abbreviation any := (or_introl I).
Abbreviation post A := (A -> Disk -> journal -> nat -> Prop) (only parsing).

Lemma ok_pending x d : ok d -> ok (s_set pendingSlot x d).
Proof. by apply disk_ok_ext. Qed.
Lemma ok_receipt x d : ok d -> ok (s_set receiptSlot x d).
Proof. by apply disk_ok_ext. Qed.

Local Ltac wp_step :=
  lazymatch goal with
  | |- UpdateLogic.wp _ _ _ ?m _ _ _ _ =>
      lazymatch m with
      | andThen _ _ => apply wp_bind
      | ret _ => apply wp_ret
      | onDisk _ => apply wp_onDisk
      | current => apply wp_current
      | assign _ => apply wp_assign
      | io _ => apply (wp_io _ _ oracle True any)
      | openInstallation _ => unfold openInstallation; apply (wp_io _ _ oracle True any)
      | Now _ => apply wp_now; intros ?
      | lift _ => apply wp_lift; [exact any|intros ? ?]
      | fail _ => apply wp_fail; exact I
      | readJournal _ => apply wp_readJournal; [exact any|intros; left; exact I|intros ?|intros ? ? ?]
      | checkJournal _ _ => apply wp_checkJournal; [exact any|]
      end
  end.
Local Ltac wp_steps := repeat wp_step; cbn beta iota.

Lemma wp_discardPending a (Q : post unit) d v n : (forall d' v' n', Q tt d' v' n') -> wp (discardPending oracle a) Q d v n.
Proof.
  intros HQ. unfold discardPending, readPrivate. wp_steps. destruct (saved _); [|by wp_steps]. destruct (negb _); [by wp_steps|].
  unfold removeSaved. wp_steps. destruct (saved _); wp_steps; [|done].
  apply (wp_change _ _ oracle True any); [by apply ok_pending|]. by wp_steps.
Qed.

(** [safeRemove] of the temporary, then [writePrivate]. *)
Lemma wp_rewrite {A} (s : slot A) `{L : !LawfulSlot (Arch config) (Keys config) s} x (Q : post unit) d v n :
  (forall y d', ok d' -> ok (s_set s y d')) -> (forall y, Q tt (s_set s y d) v n) ->
  wp (removeTemporary oracle s >>> writePrivate oracle s x) Q d v n.
Proof.
  intros Hok HQ. wp_step. apply (wp_removeTemporary config oracle True any s); intros;
    apply (wp_writePrivate config oracle True any s); unfold set_saved; auto.
  unfold set_temporary. rewrite (set_set (Arch config) (Keys config)). apply HQ.
Qed.

Lemma wp_Enqueue a (Q : post unit) d v n : (forall d' v' n', Q tt d' v' n') -> wp (Enqueue config oracle clock a) Q d v n.
Proof.
  intros HQ. unfold Enqueue, admitEnqueue. wp_step. destruct (negb _); wp_steps.
  all: destruct (activeJournal _); [by wp_steps|].
  all: apply wp_rewrite; [exact _|intros; by apply ok_pending|done].
Qed.

(** ** Receipts *)

(** The image is an artifact of a manifest that a configured key signed. *)
Definition signed (i : Image) : Prop :=
  exists s t m a, trustedManifest (Keys config) s t = Ok m /\ a ∈ Ma_Artifacts m /\
    Ar_Size a = Im_Size i /\ Ar_SHA256 a = Im_SHA256 i.

Lemma signed_same i j : sameImage i j = true -> signed i -> signed j.
Proof.
  unfold sameImage. intros Hs (s & t & m & a & Hm & Ha & H1 & H2). go_bool. exists s, t, m, a. intuition congruence.
Qed.

Lemma proof_artifact_signed m l id i : proof_artifact config m l id = Ok i ->
  exists a, a ∈ l /\ Ar_Size a = Im_Size i /\ Ar_SHA256 a = Im_SHA256 i.
Proof.
  induction l as [|c l IH]; cbn [proof_artifact]; [done|]. destruct (negb _).
  - intros (a & Ha & Hs)%IH. exists a. split; [by constructor|done].
  - destruct (compatibleArtifact config m c) as [[]|]; [|done]. cbn [bind]. intros [= <-]. exists c. split; [constructor|done].
Qed.

Lemma proofImage_signed proof now i : proofImage config proof now = Ok i -> signed i.
Proof.
  unfold proofImage. intros Hp. go_case_in Hp; [done|]. destruct (trustedManifest _ _ _) as [m|] eqn:Em; [|done].
  cbn [bind] in Hp. apply proof_artifact_signed in Hp as (a & Ha & Hs). by exists (Pr_Manifest proof), (Pr_VerifiedAt proof), m, a.
Qed.

Lemma authentic_signed v : authentic (Keys config) v -> signed (imageFor v).
Proof. intros (t & m & Hm & Ha & _). by exists (As_Manifest (J_Assignment v)), t, m, (As_Artifact (J_Assignment v)). Qed.

Lemma wp_saveInstalled receipt (Q : post unit) d v n :
  (forall x, Q tt (s_set receiptSlot x d) v n) -> wp (saveInstalled oracle receipt) Q d v n.
Proof.
  intros HQ. unfold saveInstalled. apply wp_rewrite; [exact _|intros; by apply ok_receipt|done].
Qed.

Lemma wp_Bootstrap s id (Q : post Image) d v n :
  (forall i d' v' n', runs (Arch config) (entry d') i -> signed i -> Q i d' v' n') -> wp (Bootstrap config oracle clock s id) Q d v n.
Proof.
  intros HQ. unfold Bootstrap. wp_steps. match goal with E : proofImage _ _ _ = Ok _ |- _ => apply proofImage_signed in E; rename E into Hs end.
  apply (wp_verifyCurrent config oracle True any); [exact any|]. intros Hr. unfold readPrivate. wp_steps.
  destruct (saved _) as [receipt|].
  - wp_steps. destruct (proofImage _ _ _); [|by wp_steps]. destruct (sameImage _ _); wp_steps. by apply HQ.
  - wp_step. apply wp_saveInstalled. intros x. wp_steps. by apply HQ.
Qed.

Lemma wp_ResolveInstalled (Q : post Image) d v n :
  (forall i d' v' n', runs (Arch config) (entry d') i -> signed i -> Q i d' v' n') ->
  wp (ResolveInstalled config oracle clock) Q d v n.
Proof.
  intros HQ. unfold ResolveInstalled. wp_steps. apply wp_attempt; [|intros; by wp_steps].
  unfold readPrivate. wp_steps. destruct (saved (s_get receiptSlot d)) as [receipt|]; [|by wp_steps]. wp_steps.
  match goal with E : proofImage _ _ _ = Ok _ |- _ => apply proofImage_signed in E; rename E into Hs end.
  - apply (wp_verifyCurrent (set_Installed _ config) oracle True any); [exact any|]. intros Hr. wp_steps. by apply HQ.
  - match goal with E : proofImage _ _ _ = Ok _ |- _ => apply proofImage_signed in E; rename E into Hs end.
    match goal with E : saved (journalFile d) = Some ?x |- _ => rename E into Hx end.
    apply wp_ok. intros Hok. pose proof (ok_saved config _ _ Hok Hx) as Hag.
    apply (wp_checkJournal (set_Installed _ config) True clock); [exact any|]. unfold resolveJournalImage. wp_step.
    apply (wp_currentState (set_Installed _ config) oracle True any); [exact any| |].
    + intros Hr. assert (signed (imageFor x)) as Hsx by (apply authentic_signed, Hag).
      destruct (_ || _); wp_steps; [by apply HQ|]. apply wp_saveInstalled. intros y. wp_steps. by apply HQ.
    + intros Hr _. unfold restoreReceipt. destruct (sameImage _ _) eqn:Es; [wp_steps; apply HQ; [done|by eapply signed_same]|].
      destruct (Re_Previous receipt) as [proof|]; wp_steps. destruct (proofImage _ _ _) as [p|] eqn:Ep; [|by wp_steps].
      apply proofImage_signed in Ep. destruct (sameImage p _) eqn:Es2; cbn [negb]; [|by wp_steps].
      wp_step. apply wp_saveInstalled. intros y. wp_steps. apply HQ; [done|by eapply signed_same].
Qed.

(** ** A journal that is refused *)

(** The operations that validate the stored journal. *)
Definition validates (o : operation) : bool :=
  match o with
  | ApplyOp _ | RecoverOp | CancelOp | RollbackOp | ObserveOp _ _ | ResolveOp => true
  | EnqueueOp _ | DiscardOp _ | BootstrapOp _ _ => false
  end.

Section refused.
Context (x : journal) (refused : forall c t u, validateJournal c t u x <> Ok tt).

Lemma wp_refused c (Q : post unit) d n : wp (checkJournal c clock) Q d x n.
Proof. unfold checkJournal. wp_steps. exfalso. match goal with E : validateJournal _ _ _ _ = Ok ?a |- _ => destruct a; by eapply refused end. Qed.

(** The shape the operations share, and [begin]. *)
Lemma wp_refused_stored {A} c (m : M A) (k : journal -> M A) (Q : post A) d v n : saved (journalFile d) = Some x ->
  wp (j <~ readJournal oracle ;; match j with None => m | Some y => checkJournal c clock >>> k y end) Q d v n.
Proof. intros Hx. do 2 wp_step; [congruence|]. simplify_eq. cbn beta iota. wp_step. apply wp_refused. Qed.

Lemma wp_refused_begin a m t (Q : post unit) d v n : saved (journalFile d) = Some x -> wp (begin config oracle clock a m t) Q d v n.
Proof.
  intros Hx. unfold begin. wp_step.
  apply (wp_removeTemporary config oracle True any journalSlot); intros; (do 2 wp_step; [cbn in *; congruence|]; cbn in *; simplify_eq; do 2 wp_step; apply wp_refused).
Qed.

Lemma wp_validates available fetch o (Q : post unit) d v n : validates o = true -> saved (journalFile d) = Some x ->
  wp (perform config oracle clock available fetch o) Q d v n.
Proof.
  intros Ho Hx. destruct o as [a| | | |evidence counted|a|a| |s id]; try done; cbn [perform].
  - unfold Apply. destruct (negb _); [by wp_steps|]. wp_steps. by apply wp_refused_begin.
  - unfold Recover. wp_steps. apply (wp_removeTemporary config oracle True any journalSlot); intros; by apply (wp_refused_stored config _ (fun _ => _)).
  - unfold UpdaterCancel. do 4 wp_step. by apply wp_refused_stored.
  - unfold UpdaterRollback. do 4 wp_step. by apply (wp_refused_stored config _ (fun _ => _)).
  - unfold Observe. do 4 wp_step. by apply wp_refused_stored.
  - unfold ResolveInstalled. do 4 wp_step. apply wp_attempt; [|intros; by wp_steps]. unfold readPrivate.
    do 3 wp_step. destruct (saved (s_get receiptSlot d)); [|by wp_steps]. cbv zeta. do 4 wp_step. by apply wp_refused_stored.
Qed.
End refused.
End local.

(** ** No sequence of operations breaks the agent *)

Section safety.
Context `{Externals}.

Lemma perform_keeps config oracle clock available fetch o d v :
  disk_ok (Arch config) (Keys config) d ->
  (forall a, o = ApplyOp a -> runs (Arch config) (entry d) (Installed config)) ->
  disk_ok (Arch config) (Keys config) (after config oracle clock available fetch o d v).
Proof.
  intros Hd Ha. unfold after. apply (wp_safe (Arch config) (Keys config) True); [|done].
  destruct o as [a| | | |evidence counted|a|a| |s id]; cbn [perform].
  - apply (wp_Apply config oracle True (or_introl I) clock available fetch []); [by apply (Ha a)|by left|done].
  - apply (wp_Recover config oracle True (or_introl I) clock); [by left|done..].
  - apply (wp_UpdaterCancel config oracle True (or_introl I) clock); done.
  - apply (wp_UpdaterRollback config oracle True (or_introl I) clock); [by left|done..].
  - apply (wp_Observe config oracle True (or_introl I) clock); done.
  - by apply wp_Enqueue.
  - by apply wp_discardPending.
  - apply wp_bind, wp_ResolveInstalled. intros. by apply wp_ret.
  - apply wp_bind, wp_Bootstrap. intros. by apply wp_ret.
Qed.

Lemma transitions_keep arch keys d d' :
  rtc (transition arch keys) d d' -> disk_ok arch keys d -> disk_ok arch keys d'.
Proof.
  induction 1 as [|d1 d2 d3 Ht _ IH]; [done|]. intros Hd. apply IH. destruct Ht as [config oracle clock available fetch o v <- <- Ha].
  by apply perform_keeps.
Qed.


(** ** Recovery *)


Section recovery.
Context (config : Config) (oracle : nat -> choice) (clock : nat -> Time) (now : Time) (d : Disk) (v v0 : journal).
Context (gate : managementGate config = Ok tt) (good : forall k, oracle k = Good) (later : forall k, now <= clock k).
Context (sound : disk_ok (Arch config) (Keys config) d) (stored : saved (journalFile d) = Some v).
Context (valid : validJournal v = true) (accepted : validateJournal config now now v = Ok tt).




End recovery.

(** ** What a recovery achieves *)

Section recovery_theorems.
Context (config : Config) (oracle : nat -> choice) (clock : nat -> Time) (now : Time) (d0 d : Disk) (v v0 : journal).

Lemma reached_ok : startable (entry d0) -> saved (journalFile d0) = None -> rtc (transition (Arch config) (Keys config)) d0 d ->
  disk_ok (Arch config) (Keys config) d.
Proof. intros Hs Hn Ht. eapply transitions_keep; [exact Ht|]. split; [done|]. by rewrite Hn. Qed.


End recovery_theorems.

(** ** What an update achieves *)


Section installing.
Context (config : Config) (clock : nat -> Time) (available : Z) (fetch : Z -> Z -> result updateError FetchResponse).
Context (payload : list Z) (a : Assignment).



End installing.

(** ** What a receipt proves *)

(** Whatever fails or is interrupted, an image that [ResolveInstalled] returns is the
    file at the entry point, byte for byte by its digest, and an artifact of a manifest
    signed by a configured key: the configuration of the next update starts from it. *)
Theorem resolve_installed_sound config oracle clock d0 d v0 image w :
  startable (entry d0) -> saved (journalFile d0) = None -> rtc (transition (Arch config) (Keys config)) d0 d ->
  ResolveInstalled config oracle clock (mkWorld d v0 0 0 0) = (Ret image, w) ->
  runs (Arch config) (entry (disk w)) image /\ signed config image.
Proof.
  intros Hs Hn Ht E. pose proof (reached_ok config d0 d Hs Hn Ht) as Hok.
  assert (wp (Arch config) (Keys config) True (ResolveInstalled config oracle clock)
    (fun i d' _ _ => runs (Arch config) (entry d') i /\ signed config i) d v0 0) as Hw by (apply wp_ResolveInstalled; auto).
  specialize (Hw Hok (mkWorld d v0 0 0 0) eq_refl eq_refl eq_refl). rewrite E in Hw. by destruct Hw.
Qed.
(** ** Health evidence

    [observeHealth] accepts evidence up to a second ahead of the clock. *)

Lemma recorded_health config evidence counted v :
  0 < PublishedAt v -> PublishedAt v <= He_At evidence -> LastHealthyAt v <= He_At evidence -> validJournalHealth v = true ->
  PublishedAt (recordHealth config evidence counted v) = PublishedAt v /\
  validJournalHealth (recordHealth config evidence counted v) = Before (He_At evidence) (Deadline v).
Proof.
  intros Hp He Hl Hv. unfold recordHealth.
  set (u := trackHealthProcess v (ProcessID evidence) counted).
  assert (PublishedAt u = PublishedAt v /\ LastHealthyAt u = LastHealthyAt v /\ Deadline u = Deadline v
    /\ (FirstHealthyAt u = 0 \/ FirstHealthyAt u = FirstHealthyAt v)) as (U1 & U2 & U3 & U4).
  { unfold u, trackHealthProcess. cbv zeta. repeat (go_case; cbn; auto). }
  cbv zeta. set (x := if IsZero (FirstHealthyAt u) || _ then set_FirstHealthyAt (He_At evidence) u else u).
  assert (PublishedAt x = PublishedAt v /\ Deadline x = Deadline v /\ PublishedAt v <= FirstHealthyAt x <= He_At evidence) as (X1 & X2 & X3).
  { unfold x. destruct (IsZero (FirstHealthyAt u)) eqn:Ez; cbn [orb]; [cbn; rewrite U1, U3; lia|].
    destruct (_ >? _); [cbn; rewrite U1, U3; lia|]. rewrite U1, U3. split; [done|]. split; [done|].
    unfold IsZero in Ez. go_bool. destruct U4 as [|U4]; [lia|]. rewrite U4 in *. unfold validJournalHealth, IsZero, Before in Hv.
    destruct (FirstHealthyAt v =? 0) eqn:Ez'; go_bool; lia. }
  assert (forall p, validJournalHealth (set_Phase p (set_LastHealthyAt (He_At evidence) x)) = Before (He_At evidence) (Deadline v)) as Hgen.
  { intros p. unfold validJournalHealth, IsZero, Before. cbn. rewrite X1, X2.
    destruct (FirstHealthyAt x =? 0) eqn:Ez; [go_bool; lia|].
    destruct (Z.ltb_spec (FirstHealthyAt x) (PublishedAt v)); [lia|]. destruct (Z.ltb_spec (He_At evidence) (FirstHealthyAt x)); [lia|done]. }
  destruct (_ >=? _); (split; [exact X1|]); [apply (Hgen "healthy")|apply Hgen].
Qed.

Lemma unhealthy_refused x : 0 < PublishedAt x -> validJournalHealth x = false -> forall c t u, validateJournal c t u x <> Ok tt.
Proof.
  intros Hp Hh c t u. assert (validJournalBinding c t u x = false) as E.
  { unfold validJournalBinding, validJournalTimes, IsZero. rewrite Hh. destruct (Z.eqb_spec (PublishedAt x) 0); [lia|].
    cbv zeta. by repeat go_case. }
  unfold validateJournal. by rewrite E, orb_true_r.
Qed.

(** C34. Of an update that was published and whose recorded health is valid, the journal
    that one more piece of evidence leaves, dated no earlier than the publication and the
    last evidence, is valid ([validJournalHealth]) exactly when the evidence is dated
    before the deadline. Evidence up to a second ahead of the clock is accepted, so that it
    can be dated at or after the deadline: with the journal it then leaves, on any disk
    that keeps the promise of the updater ([disk_ok]), the operations that validate the
    journal ([Apply], [Recover], [Cancel], [Rollback], [Observe] and [ResolveInstalled])
    do not succeed any more, whatever their configuration, the clock and the machine. *)
Theorem recorded_health_valid config evidence counted v :
  0 < PublishedAt v -> PublishedAt v <= He_At evidence -> LastHealthyAt v <= He_At evidence -> validJournalHealth v = true ->
  validJournalHealth (recordHealth config evidence counted v) = Before (He_At evidence) (Deadline v) /\
  (Deadline v <= He_At evidence -> forall later oracle clock available fetch o d v0,
     validates o = true -> disk_ok (Arch later) (Keys later) d -> saved (journalFile d) = Some (recordHealth config evidence counted v) ->
     (perform later oracle clock available fetch o (mkWorld d v0 0 0 0)).1 <> Ret tt).
Proof.
  intros Hp He Hl Hv. destruct (recorded_health config evidence counted v Hp He Hl Hv) as [Hpub Hh]. split; [done|].
  intros Hlate later oracle clock available fetch o d v0 Ho Hd Hs. set (x := recordHealth config evidence counted v) in *.
  assert (forall c t u, validateJournal c t u x <> Ok tt) as Href.
  { apply unhealthy_refused; [lia|]. rewrite Hh. apply Z.ltb_ge. lia. }
  pose proof (wp_validates later oracle clock x Href available fetch o (fun _ _ _ _ => False) d v0 0 Ho Hs Hd (mkWorld d v0 0 0 0) eq_refl eq_refl eq_refl) as Hw.
  destruct (perform _ _ _ _ _ _ _) as [[[]|e|] w]; [by destruct Hw|done|done].
Qed.
End safety.

(** ** The theorems on the sample installation

    The update of [UpdateSample] is switched off at its 58th disk step: the new executable
    is at the entry point, and the journal that will say so is half written. *)

Section sample.
#[local] Existing Instance sample_externals.

Definition sample_off : Disk :=
  after sample_old (stops_at 58) (sample_clock sample_now) sample_space sample_fetch (ApplyOp sample_assignment) sample_disk zeroJournal.
Definition sample_journal : journal := default zeroJournal (saved (journalFile sample_off)).



Example sample_off_state :
  Phase sample_journal = "prepared" /\ content (entry sample_off) = elf 2 /\ temporary (journalFile sample_off) = true.
Proof. vm_compute. auto. Qed.








(** A receipt for the installed agent is written, and the image is resolved from it. *)
Definition sample_receipted : Disk :=
  after sample_new reliable_machine (sample_clock sample_now) sample_space sample_fetch (BootstrapOp sample_signed "agent")
    (set_entry (mkFile (elf 2) 493) sample_disk) zeroJournal.

Lemma resolve_installed_sound_witness :
  runs "amd64" (entry sample_receipted) (elf_image "2.0.0" 2) /\ signed sample_new (elf_image "2.0.0" 2).
Proof.
  destruct (ResolveInstalled sample_new reliable_machine (sample_clock sample_now) (mkWorld sample_receipted zeroJournal 0 0 0)) as [o w] eqn:E.
  assert (o = Ret (elf_image "2.0.0" 2) /\ entry (disk w) = entry sample_receipted) as [-> <-].
  { split; [change o with (o, w).1|change w with (o, w).2]; rewrite <- E; vm_compute; reflexivity. }
  apply (resolve_installed_sound sample_new reliable_machine (sample_clock sample_now) (set_entry (mkFile (elf 2) 493) sample_disk)
    sample_receipted zeroJournal); [vm_compute; reflexivity|reflexivity| |exact E].
  apply rtc_once. apply transition_op; [reflexivity|reflexivity|discriminate].
Defined.

(** Evidence half a second ahead of the clock, which reads half a second before the
    deadline. *)
Definition sample_evidence : HealthEvidence :=
  mkHealthEvidence "process" "2.0.0" true true true true (sample_now + 3 * Minute).

(** The whole operations: [Observe] accepts the evidence, and [Recover] then refuses the
    journal, before and after the deadline. *)
Definition sample_updated : Disk :=
  after sample_old reliable_machine (sample_clock sample_now) sample_space sample_fetch (ApplyOp sample_assignment) sample_disk zeroJournal.
Definition sample_observing : Disk :=
  after sample_new reliable_machine (sample_clock (sample_now + 3 * Minute - Second / 2)) sample_space sample_fetch
    (ObserveOp sample_evidence None) sample_updated zeroJournal.
Definition sample_stuck (t : Time) : outcome unit :=
  (perform sample_new reliable_machine (sample_clock t) sample_space sample_fetch RecoverOp (mkWorld sample_observing zeroJournal 0 0 0)).1.

Example early_evidence_blocks_updater :
  (Observe sample_new reliable_machine (sample_clock (sample_now + 3 * Minute - Second / 2)) sample_evidence None
     (mkWorld sample_updated zeroJournal 0 0 0)).1 = Ret tt
  /\ sample_stuck (sample_now + 3 * Minute - Second / 2) = Fail ErrJournal /\ sample_stuck (sample_now + Hour) = Fail ErrJournal.
Proof. vm_compute. auto. Qed.

Lemma sample_observing_ok : disk_ok (Arch sample_new) (Keys sample_new) sample_observing.
Proof.
  unfold sample_observing. apply perform_keeps; [|intros a Ha; discriminate Ha]. unfold sample_updated.
  assert (Arch sample_new = Arch sample_old /\ Keys sample_new = Keys sample_old) as [-> ->] by (vm_compute; auto). apply perform_keeps.
  - split; [vm_compute; reflexivity|intros v Hv; discriminate Hv].
  - intros a _. vm_compute. reflexivity.
Qed.

Definition sample_before : journal := default zeroJournal (saved (journalFile sample_updated)).
Lemma sample_recorded : saved (journalFile sample_observing) = Some (recordHealth sample_new sample_evidence false sample_before).
Proof. vm_compute. reflexivity. Qed.

Lemma recorded_health_valid_witness : Deadline sample_before <= He_At sample_evidence /\ forall t, sample_stuck t <> Ret tt.
Proof.
  assert (Deadline sample_before <= He_At sample_evidence) as E by (vm_compute; discriminate). split; [exact E|]. intros t.
  destruct (recorded_health_valid sample_new sample_evidence false sample_before) as [_ Hlate];
    [vm_compute; reflexivity|vm_compute; discriminate|vm_compute; discriminate|vm_compute; reflexivity|].
  unfold sample_stuck. apply (Hlate E); [reflexivity|exact sample_observing_ok|exact sample_recorded].
Defined.
End sample.
