(* ===== verification/MetricCatalog.v ===== *)
(** * The metric catalog

    [internal/metriccatalog]: [catalog.go], [validation.go], [accelerator.go] and
    [public_interaction.go], with [model/metric_definition.go]: the definitions a metric
    can have, the built-in ones, and what an administrator's policy may change. *)

From S2P Require Import Prelude GoFloat GoText AlertModel.

(** ** catalog.go *)

Definition MaximumNameBytes : Z := 100.
Definition MaximumLabelBytes : Z := 128.
Definition MaximumDescriptionBytes : Z := 2048.
Definition MinimumRetentionDays : Z := 1.
Definition MaximumRetentionDays : Z := 3650.
Definition DefaultRetentionDays : Z := 30.
Definition CustomMetricPrefix : string := "custom_".

Inductive catalogError := ErrInvalidDefinition.

Definition validCharacter (r : Z) : bool :=
  between 97 122 r || between 65 90 r || between 48 57 r || (r =? 95) || (r =? 46) || (r =? 45).
Definition validName (name : string) : bool :=
  (name <>s "") && (len name <=? MaximumNameBytes) && forallb validCharacter (runes name).
Definition ValidKey (key : string) : bool :=
  if HasPrefix key CustomMetricPrefix then validName (TrimPrefix key CustomMetricPrefix) else validName key.

(** ** validation.go *)

Definition validUnit (unit_ : string) : bool :=
  str_in unit_ ["percent"; "bytes"; "bytes_per_second"; "seconds"; "milliseconds"; "celsius"; "watts"; "count"; "cores"; "number"].
Definition validCatalogText (value : string) (maximum : Z) : bool :=
  (len value <=? maximum) && ValidString value && negb (existsb (Z.eqb 0) (runes value)).

Definition validateMetricIdentity (d : MetricDefinition) : bool :=
  ValidKey (md_Key d) && str_in (md_Source d) ["builtin"; "derived"; "custom"]
  && str_in (md_Kind d) ["gauge"; "counter"] && validUnit (md_Unit d).

Definition validateMetricPresentation (d : MetricDefinition) : bool :=
  validCatalogText (md_Label d) MaximumLabelBytes && (TrimSpace (md_Label d) <>s "")
  && validCatalogText (md_Description d) MaximumDescriptionBytes
  && (md_RetentionDays d >=? MinimumRetentionDays) && (md_RetentionDays d <=? MaximumRetentionDays) && (md_Revision d >=? 1).

Definition validDefinitionDomain (d : MetricDefinition) : bool :=
  let bounded (b : option float64) := match b with Some x => negb (IsNaN x || IsInf x) | None => true end in
  bounded (md_Minimum d) && bounded (md_Maximum d)
  && match md_Minimum d, md_Maximum d with Some lo, Some hi => (lo <= hi)%f64 | _, _ => true end.

Definition aggregations : list string := ["avg"; "min"; "max"; "sum"; "last"; "rate"].

Fixpoint aggregations_loop (kind : string) (seen : gset string) (l : list string) : bool :=
  match l with
  | [] => true
  | a :: rest =>
      negb (bool_decide (a ∈ seen)) && str_in a aggregations && negb ((a =s "rate") && (kind <>s "counter"))
      && aggregations_loop kind ({[a]} ∪ seen) rest
  end.
Definition validateAggregations (d : MetricDefinition) : bool :=
  negb (llen (md_Aggregations d) =? 0) && (llen (md_Aggregations d) <=? 6)
  && str_in (md_DefaultAggregation d) (md_Aggregations d) && aggregations_loop (md_Kind d) ∅ (md_Aggregations d).

(** ** diagnostics.go and model/diagnostic_metric.go *)

Definition DiagnosticMTRTags : list string := ["node"; "job"; "hop"; "stat"].
Definition DiagnosticIperfTags : list string := ["node"; "job"; "direction"; "protocol"; "role"].
Definition PublicInteractionTags : list string := ["event"; "surface"].
Definition PublicInteractionRejectedTags : list string := ["reason"].
Definition PublicInteractionTotalMetric : string := "public_interaction_total".
Definition PublicInteractionRejectedMetric : string := "public_interaction_rejected_total".

Record diagnosticSeed := mkDiagnosticSeed { ds_key : string; ds_label : string; ds_unit : string; ds_aggregation : string; ds_maximum : Z }.

Definition diagnosticMTRSeeds : list diagnosticSeed :=
  [mkDiagnosticSeed "diagnostic_mtr_latency_ms" "MTR hop latency" "milliseconds" "avg" (10 * 60 * 1000);
   mkDiagnosticSeed "diagnostic_mtr_loss_percent" "MTR hop loss" "percent" "last" 100;
   mkDiagnosticSeed "diagnostic_mtr_sent_packets" "MTR hop packets sent" "count" "last" 100000;
   mkDiagnosticSeed "diagnostic_mtr_received_packets" "MTR hop packets received" "count" "last" 100000].
Definition diagnosticIperfSeeds : list diagnosticSeed :=
  [mkDiagnosticSeed "diagnostic_iperf_bytes_per_second" "iPerf3 throughput" "bytes_per_second" "avg" (Z.shiftl 1 40);
   mkDiagnosticSeed "diagnostic_iperf_bytes" "iPerf3 transferred bytes" "bytes" "sum" (Z.shiftl 1 44);
   mkDiagnosticSeed "diagnostic_iperf_retransmits" "iPerf3 retransmits" "count" "last" 1000000;
   mkDiagnosticSeed "diagnostic_iperf_jitter_ms" "iPerf3 jitter" "milliseconds" "avg" (10 * 60 * 1000);
   mkDiagnosticSeed "diagnostic_iperf_loss_percent" "iPerf3 loss" "percent" "last" 100].

Definition IsMTRDiagnosticMetric (key : string) : bool := str_in key (map ds_key diagnosticMTRSeeds).
Definition IsIperfDiagnosticMetric (key : string) : bool := str_in key (map ds_key diagnosticIperfSeeds).
Definition ValidAcceleratorMetric (key : string) : bool := str_in key AcceleratorMetricKeys.

Definition validMetricTags (d : MetricDefinition) : bool :=
  let builtin tags := (md_Source d =s "builtin") && bool_decide (md_Tags d = tags) in
  if ValidAcceleratorMetric (md_Key d) then builtin ["node"; "device"; "vendor"]
  else if IsMTRDiagnosticMetric (md_Key d) then builtin DiagnosticMTRTags
  else if IsIperfDiagnosticMetric (md_Key d) then builtin DiagnosticIperfTags
  else if md_Key d =s PublicInteractionTotalMetric then builtin PublicInteractionTags
  else if md_Key d =s PublicInteractionRejectedMetric then builtin PublicInteractionRejectedTags
  else bool_decide (md_Tags d = ["node"]).

Definition ValidateDefinition (d : MetricDefinition) : result catalogError unit :=
  if validateMetricIdentity d && validateMetricPresentation d && validDefinitionDomain d && validMetricTags d
     && validateAggregations d then Ok tt else Err ErrInvalidDefinition.

Definition sameBound (a b : option float64) : bool :=
  match a, b with Some x, Some y => SFeqb x y | None, None => true | _, _ => false end.
Definition SameSemantics (a b : MetricDefinition) : bool :=
  (md_Key a =s md_Key b) && (md_Source a =s md_Source b) && (md_Kind a =s md_Kind b) && (md_Unit a =s md_Unit b)
  && bool_decide (md_Aggregations a = md_Aggregations b) && bool_decide (md_Tags a = md_Tags b)
  && sameBound (md_Minimum a) (md_Minimum b) && sameBound (md_Maximum a) (md_Maximum b).

Record MetricPolicyUpdate := mkPolicyUpdate {
  mp_Revision : Z; mp_Label : string; mp_Description : string; mp_DefaultAggregation : string; mp_Public : bool;
  mp_Enabled : bool; mp_RetentionDays : option Z }.

Definition ApplyPolicy (d : MetricDefinition) (p : MetricPolicyUpdate) : result catalogError MetricDefinition :=
  let d := mkMetricDefinition (md_Key d) (mp_Label p) (mp_Description p) (md_Source d) (md_Kind d) (md_Unit d)
             (md_Aggregations d) (mp_DefaultAggregation p) (mp_Public p) (mp_Enabled p)
             (match mp_RetentionDays p with Some days => days | None => DefaultRetentionDays end) (md_Revision d)
             (md_Minimum d) (md_Maximum d) (md_Tags d) (mp_RetentionDays p) (md_CreatedAt d) (md_UpdatedAt d) in
  if mp_Revision p <? 1 then Err ErrInvalidDefinition else
  let* _ := ValidateDefinition d in Ok d.

(** ** catalog.go: the definitions that are built in, and custom ones *)

Record metricSeed := mkSeed { se_key : string; se_label : string; se_unit : string }.

Definition builtinSeeds : list metricSeed :=
  [mkSeed "cpu" "CPU usage" "percent"; mkSeed "cpu_used" "CPU used" "cores"; mkSeed "cpu_total" "CPU capacity" "cores";
   mkSeed "memory" "Memory usage" "percent"; mkSeed "memory_used" "Memory used" "bytes"; mkSeed "memory_total" "Memory capacity" "bytes";
   mkSeed "disk" "Disk usage" "percent"; mkSeed "disk_used" "Disk used" "bytes"; mkSeed "disk_total" "Disk capacity" "bytes";
   mkSeed "disk_read" "Disk read" "bytes_per_second"; mkSeed "disk_write" "Disk write" "bytes_per_second";
   mkSeed "net_recv" "Network received" "bytes_per_second"; mkSeed "net_sent" "Network sent" "bytes_per_second";
   mkSeed "net_recv_total" "Network received total" "bytes"; mkSeed "net_sent_total" "Network sent total" "bytes";
   mkSeed "swap" "Swap usage" "percent"; mkSeed "swap_used" "Swap used" "bytes"; mkSeed "swap_total" "Swap capacity" "bytes";
   mkSeed "load1" "Load average (1 minute)" "number"; mkSeed "load5" "Load average (5 minutes)" "number";
   mkSeed "load15" "Load average (15 minutes)" "number"; mkSeed "uptime" "Uptime" "seconds"; mkSeed "processes" "Processes" "count";
   mkSeed "tcp_connections" "TCP connections" "count"; mkSeed "udp_connections" "UDP connections" "count";
   mkSeed "net_recv_delta" "Received traffic" "bytes"; mkSeed "net_sent_delta" "Sent traffic" "bytes"].

Definition numberBound (n : Z) : option float64 := Some (f_of_Z n).

Definition builtinDefinition (seed : metricSeed) : MetricDefinition :=
  let counter := str_in (se_key seed) ["net_recv_total"; "net_sent_total"] in
  let delta := str_in (se_key seed) ["net_recv_delta"; "net_sent_delta"] in
  mkMetricDefinition (se_key seed) (se_label seed) "" (if delta then "derived" else "builtin")
    (if counter then "counter" else "gauge") (se_unit seed)
    (if counter then ["min"; "max"; "last"; "rate"] else if delta then ["sum"; "min"; "max"; "last"] else ["avg"; "min"; "max"; "last"])
    (if counter then "last" else if delta then "sum" else "avg") true true DefaultRetentionDays 1 (numberBound 0)
    (if se_unit seed =s "percent" then numberBound 100 else None) ["node"] None 0 0.

Definition with_domain (lo hi : option float64) (tags : list string) (d : MetricDefinition) : MetricDefinition :=
  mkMetricDefinition (md_Key d) (md_Label d) (md_Description d) (md_Source d) (md_Kind d) (md_Unit d) (md_Aggregations d)
    (md_DefaultAggregation d) (md_Public d) (md_Enabled d) (md_RetentionDays d) (md_Revision d) lo hi tags
    (md_RetentionOverride d) (md_CreatedAt d) (md_UpdatedAt d).

Definition Accelerators : list MetricDefinition :=
  map (fun seed =>
         let d := builtinDefinition seed in
         let lo := if se_unit seed =s "celsius" then numberBound (-100) else md_Minimum d in
         let hi := if se_unit seed =s "bytes" then numberBound (Z.shiftl 1 50)
                   else if se_unit seed =s "celsius" then numberBound 250
                   else if se_unit seed =s "watts" then numberBound 1000000 else md_Maximum d in
         with_domain lo hi ["node"; "device"; "vendor"] d)
    [mkSeed "gpu_utilization_percent" "GPU utilization" "percent"; mkSeed "gpu_memory_used_bytes" "GPU memory used" "bytes";
     mkSeed "gpu_memory_total_bytes" "GPU memory capacity" "bytes"; mkSeed "gpu_temperature_celsius" "GPU temperature" "celsius";
     mkSeed "gpu_power_watts" "GPU power" "watts"; mkSeed "gpu_power_limit_watts" "GPU power limit" "watts"].

Definition diagnosticDefinition (tags : list string) (seed : diagnosticSeed) : MetricDefinition :=
  mkMetricDefinition (ds_key seed) (ds_label seed) "" "builtin" (if ds_unit seed =s "bytes" then "counter" else "gauge") (ds_unit seed)
    (if ds_unit seed =s "percent" then ["avg"; "min"; "max"; "last"] else ["avg"; "min"; "max"; "sum"; "last"])
    (ds_aggregation seed) false true DefaultRetentionDays 1 (numberBound 0) (numberBound (ds_maximum seed)) tags None 0 0.
Definition Diagnostics : list MetricDefinition :=
  map (diagnosticDefinition DiagnosticMTRTags) diagnosticMTRSeeds ++ map (diagnosticDefinition DiagnosticIperfTags) diagnosticIperfSeeds.

Definition PublicInteractions : list MetricDefinition :=
  map (fun seed => mkMetricDefinition seed.1.1 seed.1.2 "" "builtin" "counter" "count" ["min"; "max"; "last"; "sum"; "rate"] "sum"
                     false true DefaultRetentionDays 1 (numberBound 0) None seed.2 None 0 0)
    [(PublicInteractionTotalMetric, "Public interactions", PublicInteractionTags);
     (PublicInteractionRejectedMetric, "Rejected public interactions", PublicInteractionRejectedTags)].

Definition Builtins : list MetricDefinition :=
  map builtinDefinition builtinSeeds ++ Accelerators ++ Diagnostics ++ PublicInteractions.

Fixpoint find_key (key : string) (l : list MetricDefinition) : option MetricDefinition :=
  match l with [] => None | d :: rest => if md_Key d =s key then Some d else find_key key rest end.
Definition DefaultAggregationForKey (key : string) : string :=
  match find_key key Builtins with Some d => md_DefaultAggregation d | None => "avg" end.

Definition Custom (name description : string) : result catalogError MetricDefinition :=
  if negb (validName name) then Err ErrInvalidDefinition else
  let d := mkMetricDefinition (CustomMetricPrefix +:+ name) name description "custom" "gauge" "number"
             ["avg"; "min"; "max"; "sum"; "last"] "avg" true true DefaultRetentionDays 1 None None ["node"] None 0 0 in
  let* _ := ValidateDefinition d in Ok d.

(** ** What holds of definitions *)

(** The built-in catalog is well formed, and its keys are distinct, so the index that
    [DefaultAggregationForKey] builds has one entry for each. *)
Lemma builtins_valid : forallb (fun d => is_ok (ValidateDefinition d)) Builtins = true.
Proof. vm_compute. reflexivity. Qed.

Fixpoint distinct_keys (l : list string) : bool :=
  match l with [] => true | k :: rest => negb (str_in k rest) && distinct_keys rest end.
Lemma builtins_distinct : distinct_keys (map md_Key Builtins) = true.
Proof. vm_compute. reflexivity. Qed.

(** Diagnostics and visitor counters are never public. *)
Lemma private_builtins : forallb (fun d => negb (md_Public d)) (Diagnostics ++ PublicInteractions) = true.
Proof. vm_compute. reflexivity. Qed.

Lemma ValidateDefinition_ok d : ValidateDefinition d = Ok tt <->
  validateMetricIdentity d = true /\ validateMetricPresentation d = true /\ validDefinitionDomain d = true
  /\ validMetricTags d = true /\ validateAggregations d = true.
Proof.
  unfold ValidateDefinition. destruct (validateMetricIdentity d), (validateMetricPresentation d), (validDefinitionDomain d),
    (validMetricTags d), (validateAggregations d); cbn [andb]; intuition discriminate.
Qed.

Lemma SFeqb_refl x : IsNaN x = false -> SFeqb x x = true.
Proof. intros Hx. by rewrite SFeqb_key. Qed.

Lemma sameBound_refl b : match b with Some x => negb (IsNaN x || IsInf x) | None => true end = true -> sameBound b b = true.
Proof. destruct b as [x|]; cbn; [|done]. intros Hb. go_bool. apply SFeqb_refl. tauto. Qed.

Lemma SameSemantics_refl d : validDefinitionDomain d = true -> SameSemantics d d = true.
Proof.
  unfold validDefinitionDomain. intros [[Hlo Hhi]%andb_true_iff _]%andb_true_iff. unfold SameSemantics.
  rewrite !String.eqb_refl, !bool_decide_true by done. cbn [andb]. by rewrite !sameBound_refl.
Qed.

(** What an administrator's policy can change: applying a policy to a valid definition
    either fails, exactly when the revision is missing or the result is not a valid
    definition, or gives a valid definition that measures the same thing (key, source,
    kind, unit, aggregations, tags and value domain are kept) and carries the label,
    visibility, default aggregation and retention of the policy, 30 days by default. *)
Theorem policy_keeps_semantics d p : ValidateDefinition d = Ok tt ->
  match ApplyPolicy d p with
  | Ok d' => ValidateDefinition d' = Ok tt /\ SameSemantics d d' = true /\ 1 <= mp_Revision p /\ md_Label d' = mp_Label p /\
      md_Public d' = mp_Public p /\ md_Enabled d' = mp_Enabled p /\ md_DefaultAggregation d' = mp_DefaultAggregation p /\
      mp_DefaultAggregation p ∈ md_Aggregations d /\ md_RetentionDays d' = default 30 (mp_RetentionDays p) /\
      1 <= md_RetentionDays d' <= 3650 /\ md_Revision d' = md_Revision d
  | Err _ => mp_Revision p < 1 \/ validCatalogText (mp_Label p) MaximumLabelBytes = false \/ TrimSpace (mp_Label p) = "" \/
      validCatalogText (mp_Description p) MaximumDescriptionBytes = false \/ mp_DefaultAggregation p ∉ md_Aggregations d \/
      ~ (1 <= default 30 (mp_RetentionDays p) <= 3650)
  end.
Proof.
  intros Hd. apply ValidateDefinition_ok in Hd as (H1 & H2 & H3 & H4 & H5). unfold ApplyPolicy.
  set (d' := mkMetricDefinition _ _ _ _ _ _ _ _ _ _ _ _ _ _ _ _ _ _).
  destruct (mp_Revision p <? 1) eqn:Er; go_bool; [by left|].
  assert (str_in (mp_DefaultAggregation p) (md_Aggregations d) = true <-> mp_DefaultAggregation p ∈ md_Aggregations d) as Hin.
  { unfold str_in. rewrite existsb_exists. setoid_rewrite String.eqb_eq. split.
    - intros (x & Hx & ->). by apply list_elem_of_In.
    - intros Hx. eexists. split; [by apply list_elem_of_In|done]. }
  assert (md_RetentionDays d' = default 30 (mp_RetentionDays p)) as Hret by (unfold d'; cbn; by destruct (mp_RetentionDays p)).
  destruct (ValidateDefinition d') as [[]|] eqn:Ev; cbn [bind].
  - split; [done|]. apply ValidateDefinition_ok in Ev as (_ & P & _ & _ & A). split; [by apply SameSemantics_refl in H3|].
    unfold validateMetricPresentation, validateAggregations, MinimumRetentionDays, MaximumRetentionDays in P, A. go_bool.
    repeat split; try done; try lia. apply Hin, A.
  - destruct (decide (mp_DefaultAggregation p ∈ md_Aggregations d)) as [Ha|]; [|by auto 6].
    destruct (decide (1 <= default 30 (mp_RetentionDays p) <= 3650)) as [Hb|]; [|by auto 7].
    destruct (validCatalogText (mp_Label p) MaximumLabelBytes) eqn:E1; [|by auto].
    destruct (validCatalogText (mp_Description p) MaximumDescriptionBytes) eqn:E2; [|by auto 6].
    destruct (decide (TrimSpace (mp_Label p) = "")) as [|E3]; [by auto|]. exfalso.
    assert (ValidateDefinition d' = Ok tt); [|congruence]. apply ValidateDefinition_ok. split; [done|]. split; [|split; [done|split; [done|]]].
    + unfold validateMetricPresentation in *. rewrite Hret. change (md_Label d') with (mp_Label p).
      change (md_Description d') with (mp_Description p). change (md_Revision d') with (md_Revision d).
      rewrite E1, E2. unfold MinimumRetentionDays, MaximumRetentionDays. go_bool. tauto.
    + unfold validateAggregations in *. change (md_DefaultAggregation d') with (mp_DefaultAggregation p).
      change (md_Aggregations d') with (md_Aggregations d). apply Hin in Ha. rewrite Ha. go_bool. tauto.
Qed.

Definition sample_policy_update : MetricPolicyUpdate := mkPolicyUpdate 4 "Processor" "" "max" false true (Some 90).

Lemma policy_keeps_semantics_witness :
  exists d, ApplyPolicy (builtinDefinition (mkSeed "cpu" "CPU usage" "percent")) sample_policy_update = Ok d /\
    SameSemantics (builtinDefinition (mkSeed "cpu" "CPU usage" "percent")) d = true.
Proof.
  pose proof (policy_keeps_semantics (builtinDefinition (mkSeed "cpu" "CPU usage" "percent")) sample_policy_update eq_refl) as Hp.
  destruct (ApplyPolicy _ _) as [d|] eqn:E; [|vm_compute in E; discriminate]. exists d. split; [reflexivity|apply Hp].
Defined.
