(* ===== verification/MetricQuery.v ===== *)
(** * Metric queries

    [internal/metricquery]: requests and their validation, the plan of a query, the
    aggregation of samples into buckets, the admission of queries, and the service that
    puts them together. The catalog, the nodes and the storage are arguments of the
    service; the deadline of a context is an argument of the call. *)

From S2P Require Import Prelude GoFloat GoText GoNumber AlertModel MetricCatalog.

(** ** types.go *)

Definition MaximumSeries : Z := 8.
Definition MinimumPoints : Z := 2.
Definition MaximumPoints : Z := 600.
Definition MaximumRange : Duration := 31 * 24 * Hour.
Definition MaximumConcurrent : Z := 8.
Definition MaximumPerClient : Z := 2.
Definition MaximumReferenceBytes : Z := 32.
Definition MaximumNodeIDBytes : Z := 128.

(** The sentinel errors; [Cause] is an error of a reader that is none of them. *)
Inductive sentinel := ErrInvalid | ErrCapacity | ErrTimeout | ErrUnavailable | ErrArithmetic | DeadlineExceeded | Canceled | Cause.
#[export] Instance sentinel_eq_dec : EqDecision sentinel.
Proof. solve_decision. Defined.

(** An error is the list of the errors that [errors.Join] put together. *)
Abbreviation queryError := (list sentinel) (only parsing).
Definition is_error (e : queryError) (x : sentinel) : bool := bool_decide (x ∈ e).

Record SeriesRequest := mkSeriesRequest { sr_DeviceID : string; sr_RefID : string; sr_NodeID : string; sr_Metric : string; sr_Aggregation : string }.
Record Request := mkRequest { rq_From : Time; rq_To : Time; rq_MaxPoints : Z; rq_Series : list SeriesRequest }.
Record Point := mkPoint { pt_Timestamp : Z; pt_Value : option float64 }.
Record Series := mkSeries {
  ss_DeviceID : string; ss_RefID : string; ss_NodeID : string; ss_Metric : string; ss_Label : string; ss_Unit : string;
  ss_Aggregation : string; ss_AvailableFrom : option Time; ss_State : string; ss_Points : list Point }.
Record Response := mkResponse { rs_From : Time; rs_To : Time; rs_IntervalMS : Z; rs_Series : list Series }.
Record Scan := mkScan {
  sn_DeviceID : string; sn_Vendor : string; sn_NodeID : string; sn_Metric : string; sn_Aggregation : string; sn_From : Time;
  sn_To : Time; sn_Interval : Duration; sn_Buckets : Z }.
Record Values := mkValues { vl_AvailableFrom : option Time; vl_Points : list Point }.
Record Access := mkAccess { ac_PublicOnly : bool; ac_ClientKey : string }.

(** ** aggregate.go *)

Record bucketValue := mkBucket { bk_count : Z; bk_value : float64; bk_duration : float64 }.
Definition f_zero : float64 := S754_zero false.
Definition emptyBucket : bucketValue := mkBucket 0 f_zero f_zero.
Record observation := mkObs { obs_at : Time; obs_value : float64 }.
Record Buckets := mkBuckets { bs_plan : Scan; bs_values : list bucketValue; bs_previous : option observation; bs_err : option queryError }.

Definition NewBuckets (plan : Scan) : Buckets :=
  if (sn_Buckets plan <? 1) || (sn_Buckets plan >? MaximumPoints) || (sn_Interval plan <? Millisecond)
     || negb (After (sn_To plan) (sn_From plan)) || negb (str_in (sn_Aggregation plan) ["avg"; "min"; "max"; "sum"; "last"; "rate"])
  then mkBuckets plan [] None (Some [ErrInvalid])
  else mkBuckets plan (replicate (Z.to_nat (sn_Buckets plan)) emptyBucket) None None.

(** One sample into one bucket: the bucket, and whether its value is still finite. The
    code's [count] is an [int64] that at most a million samples increment. *)
Definition bucketAdd (aggregation : string) (sample : float64) (b : bucketValue) : bucketValue :=
  let count := bk_count b + 1 in
  if count =? 1 then mkBucket count sample (bk_duration b) else
  let value :=
    if aggregation =s "avg" then (bk_value b * (f_of_Z (count - 1) / f_of_Z count) + sample / f_of_Z count)%f64
    else if aggregation =s "min" then f_min (bk_value b) sample
    else if aggregation =s "max" then f_max (bk_value b) sample
    else if aggregation =s "sum" then (bk_value b + sample)%f64
    else if aggregation =s "last" then sample
    else bk_value b in
  mkBucket count value (bk_duration b).

Definition set_bucket (buckets : Buckets) (index : nat) (b : bucketValue) : Buckets :=
  mkBuckets (bs_plan buckets) (<[index := b]> (bs_values buckets)) (bs_previous buckets) (bs_err buckets).
Definition set_err (e : sentinel) (buckets : Buckets) : Buckets :=
  mkBuckets (bs_plan buckets) (bs_values buckets) (bs_previous buckets) (Some [e]).

(** The index of a sample at [t], which is not before the plan's start. *)
Definition bucketIndex (plan : Scan) (t : Time) : Z := Z.quot (Sub t (sn_From plan)) (sn_Interval plan).

(** The end of [add] and [addRate]: the bucket is stored, and an infinite value is an
    error. The first sample of a bucket is finite and not tested by [add]. *)
Definition store_bucket (buckets : Buckets) (index : nat) (b : bucketValue) (tested : bool) : Buckets :=
  let buckets := set_bucket buckets index b in
  if tested && negb (is_finite (bk_value b)) then set_err ErrArithmetic buckets else buckets.

Definition addRate (buckets : Buckets) (current : observation) : Buckets :=
  let plan := bs_plan buckets in
  let previous := bs_previous buckets in
  let buckets := mkBuckets plan (bs_values buckets) (Some current) (bs_err buckets) in
  if (obs_value current < f_zero)%f64 then set_err ErrArithmetic buckets else
  match previous with
  | None => buckets
  | Some previous =>
      if Before (obs_at current) (sn_From plan) then buckets else
      if negb (After (obs_at current) (obs_at previous)) then set_err ErrArithmetic buckets else
      let delta := (obs_value current - obs_value previous)%f64 in
      let delta := if (delta < f_zero)%f64 then obs_value current else delta in
      let index := bucketIndex plan (obs_at current) in
      match bs_values buckets !! Z.to_nat index with
      | None => set_err ErrInvalid buckets
      | Some b =>
          store_bucket buckets (Z.to_nat index)
            (mkBucket (bk_count b + 1) (bk_value b + delta)%f64
               (bk_duration b + Seconds (Sub (obs_at current) (obs_at previous)))%f64) true
      end
  end.

Definition Add (buckets : Buckets) (timestamp : Time) (value : float64) : Buckets :=
  match bs_err buckets with
  | Some _ => buckets
  | None =>
      let plan := bs_plan buckets in
      if negb (is_finite value) then set_err ErrArithmetic buckets else
      if negb (Before timestamp (sn_To plan)) then buckets else
      if sn_Aggregation plan =s "rate" then addRate buckets (mkObs timestamp value) else
      if Before timestamp (sn_From plan) then buckets else
      let index := Z.to_nat (bucketIndex plan timestamp) in
      match bs_values buckets !! index with
      | None => set_err ErrInvalid buckets
      | Some b =>
          let b' := bucketAdd (sn_Aggregation plan) value b in
          store_bucket buckets index b' (negb (bk_count b' =? 1))
      end
  end.

(** The instant of bucket [index]. *)
Definition bucketStart (plan : Scan) (index : nat) : Z :=
  UnixMilli (Prelude.Add (sn_From plan) (Z.of_nat index * sn_Interval plan)).

Definition bucketPoint (plan : Scan) (index : nat) (b : bucketValue) : option Point :=
  if bk_count b =? 0 then Some (mkPoint (bucketStart plan index) None) else
  let value := if sn_Aggregation plan =s "rate" then (bk_value b / bk_duration b)%f64 else bk_value b in
  if negb (is_finite value) then None else Some (mkPoint (bucketStart plan index) (Some value)).

Fixpoint points_loop (plan : Scan) (index : nat) (values : list bucketValue) : result queryError (list Point) :=
  match values with
  | [] => Ok []
  | b :: rest =>
      match bucketPoint plan index b with
      | None => Err [ErrArithmetic]
      | Some p => let* ps := points_loop plan (S index) rest in Ok (p :: ps)
      end
  end.
Definition Points (buckets : Buckets) : result queryError (list Point) :=
  match bs_err buckets with
  | Some e => Err e
  | None => points_loop (bs_plan buckets) 0 (bs_values buckets)
  end.

(** ** validation.go and accelerator.go *)

Definition validIdentifierCharacter (r : Z) : bool :=
  between 97 122 r || between 65 90 r || between 48 57 r || (r =? 95) || (r =? 45).
Definition validIdentifier (value : string) (maximum : Z) : bool :=
  (value <>s "") && (len value <=? maximum) && forallb validIdentifierCharacter (runes value).

Definition validSeriesDevice (selection : SeriesRequest) : bool :=
  if ValidAcceleratorMetric (sr_Metric selection) then ValidAcceleratorDeviceID (sr_DeviceID selection)
  else sr_DeviceID selection =s "".

Definition validateTimeRange (request : Request) : result queryError unit :=
  if Before (rq_From request) unixEpoch || After (rq_To request) (unixEpoch + int64_max) then Err [ErrInvalid] else
  let duration := Sub (rq_To request) (rq_From request) in
  if (duration <? Millisecond) || (duration >? MaximumRange) then Err [ErrInvalid] else
  if negb ((rq_From request mod Second) mod Millisecond =? 0) || negb ((rq_To request mod Second) mod Millisecond =? 0)
  then Err [ErrInvalid] else Ok tt.

Fixpoint series_loop (seen : gset string) (series : list SeriesRequest) : result queryError unit :=
  match series with
  | [] => Ok tt
  | s :: rest =>
      if negb (validIdentifier (sr_RefID s) MaximumReferenceBytes) || bool_decide (sr_RefID s ∈ seen) then Err [ErrInvalid] else
      if negb (validIdentifier (sr_NodeID s) MaximumNodeIDBytes) || negb (ValidKey (sr_Metric s)) then Err [ErrInvalid] else
      if negb (validSeriesDevice s) then Err [ErrInvalid] else
      if negb (str_in (sr_Aggregation s) ["" ; "avg"; "min"; "max"; "sum"; "last"; "rate"]) then Err [ErrInvalid] else
      series_loop ({[sr_RefID s]} ∪ seen) rest
  end.
Definition validateSeriesRequests (series : list SeriesRequest) : result queryError unit := series_loop ∅ series.

Definition ValidateRequest (request : Request) : result queryError (Duration * Z) :=
  let* _ := validateTimeRange request in
  if (rq_MaxPoints request <? MinimumPoints) || (rq_MaxPoints request >? MaximumPoints) then Err [ErrInvalid] else
  if (llen (rq_Series request) =? 0) || (llen (rq_Series request) >? MaximumSeries) then Err [ErrInvalid] else
  let* _ := validateSeriesRequests (rq_Series request) in
  let durationMS := Milliseconds (Sub (rq_To request) (rq_From request)) in
  let intervalMS := Z.quot (durationMS + rq_MaxPoints request - 1) (rq_MaxPoints request) in
  let count := Z.quot (durationMS + intervalMS - 1) intervalMS in
  Ok (intervalMS * Millisecond, count).

(** ** plan.go *)

Definition MinimumBucketInterval : Duration := Second.
Definition ceilSeconds (interval : Duration) : Duration :=
  if Z.rem interval Second =? 0 then interval else interval - Z.rem interval Second + Second.
Definition PlanBuckets (from to : Time) (maxPoints : Z) : option (Duration * Z) :=
  if negb (After to from) || (Sub to from >? MaximumRange) then None else
  if (maxPoints <? MinimumPoints) || (maxPoints >? MaximumPoints) then None else
  let interval := ceilSeconds (Z.quot (Sub to from + maxPoints - 1) maxPoints) in
  let interval := if interval <? MinimumBucketInterval then MinimumBucketInterval else interval in
  let buckets := Z.quot (Sub to from + interval - 1) interval in
  if (buckets <? 1) || (buckets >? maxPoints) then None else Some (interval, buckets).

(** ** admission.go *)

Record admission := mkAdmission { ad_active : Z; ad_clients : gmap string Z }.
Definition newAdmission : admission := mkAdmission 0 ∅.
Definition clientKey (client : string) : string := if client =s "" then "unknown" else client.
Definition held (a : admission) (client : string) : Z := default 0 (ad_clients a !! client).

(** [done]: the error of the context, when there is one. The key of the slot that was
    taken, for [release]. *)
Definition acquire (a : admission) (done : option sentinel) (client : string) : result queryError (admission * string) :=
  match done with
  | Some e => Err [e]
  | None =>
      if len client >? MaximumNodeIDBytes then Err [ErrInvalid] else
      let client := clientKey client in
      if (ad_active a >=? MaximumConcurrent) || (held a client >=? MaximumPerClient) then Err [ErrCapacity] else
      Ok (mkAdmission (ad_active a + 1) (<[client := held a client + 1]> (ad_clients a)), client)
  end.

Definition release (a : admission) (client : string) : admission :=
  let count := held a client - 1 in
  mkAdmission (ad_active a - 1) (if count =? 0 then delete client (ad_clients a) else <[client := count]> (ad_clients a)).

(** ** service.go *)

Record Device := mkDevice { dv_Ordinal : Z; dv_Vendor : string; dv_Model : string }.

Section service.
(** The readers: [Some] of what they find, [None] when there is nothing, or an error.
    [deviceReader] is [None] when the node reader does not know devices. *)
Context (catalogGet : string -> result queryError (option MetricDefinition)).
Context (GetNode GetPublicNode : string -> result queryError (option Node)).
Context (deviceReader : option (string -> string -> bool -> result queryError (option Device))).
Context (ReadMetricQuery : Scan -> result queryError Values).

Definition unavailable {A} (r : result queryError A) : result queryError A :=
  match r with Ok a => Ok a | Err e => Err (ErrUnavailable :: e) end.

Definition checkNode (nodeID : string) (publicOnly : bool) : result queryError unit :=
  let* node := unavailable (if publicOnly then GetPublicNode nodeID else GetNode nodeID) in
  match node with None => Err [ErrInvalid] | Some _ => Ok tt end.

Definition selectMetricAggregation (d : MetricDefinition) (requested : string) (publicOnly : bool) : result queryError string :=
  if negb (md_Enabled d) || publicOnly && negb (md_Public d) then Err [ErrInvalid] else
  let requested := if requested =s "" then md_DefaultAggregation d else requested in
  if negb (str_in requested (md_Aggregations d)) then Err [ErrInvalid] else Ok requested.

Definition prepareDevice (selection : SeriesRequest) (public : bool) : result queryError (string * string) :=
  if negb (ValidAcceleratorMetric (sr_Metric selection)) then Ok ("", "") else
  match deviceReader with
  | None => Err [ErrUnavailable]
  | Some read =>
      let* device := read (sr_NodeID selection) (sr_DeviceID selection) public in
      match device with
      | None => Err [ErrInvalid]
      | Some d => Ok (dv_Vendor d, "GPU " +:+ FormatInt (dv_Ordinal d) +:+ " · " +:+ dv_Model d)
      end
  end.

Record seriesPlan := mkSeriesPlan { sp_scan : Scan; sp_definition : MetricDefinition; sp_refID : string }.

Definition set_Label (label : string) (d : MetricDefinition) : MetricDefinition :=
  mkMetricDefinition (md_Key d) label (md_Description d) (md_Source d) (md_Kind d) (md_Unit d) (md_Aggregations d)
    (md_DefaultAggregation d) (md_Public d) (md_Enabled d) (md_RetentionDays d) (md_Revision d) (md_Minimum d) (md_Maximum d)
    (md_Tags d) (md_RetentionOverride d) (md_CreatedAt d) (md_UpdatedAt d).

(** The loop of [prepare]: [nodes] were checked and [definitions] were read before. *)
Fixpoint prepare_loop (request : Request) (access : Access) (interval : Duration) (count : Z) (nodes : gset string)
    (definitions : gmap string MetricDefinition) (series : list SeriesRequest) : result queryError (list seriesPlan) :=
  match series with
  | [] => Ok []
  | s :: rest =>
      let* _ := if bool_decide (sr_NodeID s ∈ nodes) then Ok tt else checkNode (sr_NodeID s) (ac_PublicOnly access) in
      let* definition :=
        match definitions !! sr_Metric s with
        | Some d => Ok d
        | None => let* found := unavailable (catalogGet (sr_Metric s)) in
                  match found with None => Err [ErrInvalid] | Some d => Ok d end
        end in
      let* aggregation := selectMetricAggregation definition (sr_Aggregation s) (ac_PublicOnly access) in
      let* device := prepareDevice s (ac_PublicOnly access) in
      let scan := mkScan (sr_DeviceID s) device.1 (sr_NodeID s) (sr_Metric s) aggregation (rq_From request) (rq_To request) interval count in
      let labelled := if device.2 =s "" then definition else set_Label (md_Label definition +:+ " · " +:+ device.2) definition in
      let* plans := prepare_loop request access interval count ({[sr_NodeID s]} ∪ nodes)
                      (<[sr_Metric s := definition]> definitions) rest in
      Ok (mkSeriesPlan scan labelled (sr_RefID s) :: plans)
  end.
Definition prepare (request : Request) (access : Access) (interval : Duration) (count : Z) : result queryError (list seriesPlan) :=
  prepare_loop request access interval count ∅ ∅ (rq_Series request).

Fixpoint valid_points (plan : Scan) (index : nat) (points : list Point) : bool :=
  match points with
  | [] => true
  | p :: rest => (pt_Timestamp p =? bucketStart plan index)
                 && match pt_Value p with Some x => is_finite x | None => true end && valid_points plan (S index) rest
  end.
Definition validReadValues (plan : Scan) (values : Values) : bool :=
  (llen (vl_Points values) =? sn_Buckets plan) && valid_points plan 0 (vl_Points values).

Definition read (plan : seriesPlan) : result queryError Series :=
  match ReadMetricQuery (sp_scan plan) with
  | Err e => if is_error e ErrCapacity || is_error e ErrArithmetic then Err e else Err (ErrUnavailable :: e)
  | Ok values =>
      if negb (validReadValues (sp_scan plan) values) then Err [ErrUnavailable] else
      let scan := sp_scan plan in
      let d := sp_definition plan in
      Ok (mkSeries (sn_DeviceID scan) (sp_refID plan) (sn_NodeID scan) (md_Key d) (md_Label d)
            (if sn_Aggregation scan =s "rate" then md_Unit d +:+ "_per_second" else md_Unit d) (sn_Aggregation scan)
            (vl_AvailableFrom values)
            (if existsb (fun p => bool_decide (is_Some (pt_Value p))) (vl_Points values) then "ok" else "empty")
            (vl_Points values))
  end.

Fixpoint read_all (plans : list seriesPlan) : result queryError (list Series) :=
  match plans with
  | [] => Ok []
  | plan :: rest => let* s := read plan in let* ss := read_all rest in Ok (s :: ss)
  end.

(** [timeoutError]; [expired]: the context's own deadline has passed. *)
Definition timeoutError {A} (expired : bool) (r : result queryError A) : result queryError A :=
  match r with
  | Ok a => Ok a
  | Err e => if is_error e ErrTimeout then Err e else
             if is_error e DeadlineExceeded || expired then Err [ErrTimeout] else Err e
  end.

(** [Query] from a service whose readers are set: the slot is taken, the query runs, and
    the slot is given back; the admission state is what other queries see meanwhile. *)
Definition queryWithin (request : Request) (access : Access) (interval : Duration) (count : Z) : result queryError Response :=
  let* plans := prepare request access interval count in
  let* series := read_all plans in
  Ok (mkResponse (rq_From request) (rq_To request) (Milliseconds interval) series).

Definition Query (a : admission) (done : option sentinel) (expired : bool) (request : Request) (access : Access)
    : result queryError Response * admission :=
  match ValidateRequest request with
  | Err e => (Err e, a)
  | Ok (interval, count) =>
      match acquire a done (ac_ClientKey access) with
      | Err e => (timeoutError expired (Err e), a)
      | Ok (a, key) => (timeoutError expired (queryWithin request access interval count), release a key)
      end
  end.

(** [ReadWithBudget]: a slot around [read], which is run with the slot taken. *)
Definition ReadWithBudget (a : admission) (done : option sentinel) (client : string) (read : result queryError unit)
    : result queryError unit * admission :=
  match acquire a done client with
  | Err e => (Err e, a)
  | Ok (a, key) => (read, release a key)
  end.

(** ** latest.go *)

Definition MaximumLatestSeries : Z := 200.
Record LatestSeriesRequest := mkLatestSeriesRequest { lr_RefID : string; lr_NodeID : string; lr_Metric : string }.
Abbreviation LatestRequest := (list LatestSeriesRequest) (only parsing).
Record LatestSeries := mkLatestSeries {
  ls_RefID : string; ls_NodeID : string; ls_Metric : string; ls_Label : string; ls_Unit : string; ls_State : string;
  ls_Value : option float64; ls_SampleAt : option Time }.
Record LatestScan := mkLatestScan { lc_NodeID : string; lc_Metric : string }.
Record LatestValue := mkLatestValue { lv_Found : bool; lv_SampleAt : Time; lv_Value : float64 }.
Record latestPlan := mkLatestPlan { lp_scan : LatestScan; lp_definition : MetricDefinition; lp_refID : string }.

Fixpoint latest_loop (seen : gset string) (series : LatestRequest) : result queryError unit :=
  match series with
  | [] => Ok tt
  | s :: rest =>
      if negb (validIdentifier (lr_RefID s) MaximumReferenceBytes) || bool_decide (lr_RefID s ∈ seen) then Err [ErrInvalid] else
      if negb (validIdentifier (lr_NodeID s) MaximumNodeIDBytes) || negb (ValidKey (lr_Metric s)) then Err [ErrInvalid] else
      latest_loop ({[lr_RefID s]} ∪ seen) rest
  end.
Definition ValidateLatestRequest (request : LatestRequest) : result queryError unit :=
  if (llen request =? 0) || (llen request >? MaximumLatestSeries) then Err [ErrInvalid] else latest_loop ∅ request.

Fixpoint prepareLatest_loop (access : Access) (nodes : gset string) (definitions : gmap string MetricDefinition)
    (series : LatestRequest) : result queryError (list latestPlan) :=
  match series with
  | [] => Ok []
  | s :: rest =>
      let* _ := if bool_decide (lr_NodeID s ∈ nodes) then Ok tt else checkNode (lr_NodeID s) (ac_PublicOnly access) in
      let* definition :=
        match definitions !! lr_Metric s with
        | Some d => Ok d
        | None => let* found := unavailable (catalogGet (lr_Metric s)) in
                  match found with
                  | None => Err [ErrInvalid]
                  | Some d => if negb (md_Enabled d) || ac_PublicOnly access && negb (md_Public d) then Err [ErrInvalid] else Ok d
                  end
        end in
      let* plans := prepareLatest_loop access ({[lr_NodeID s]} ∪ nodes) (<[lr_Metric s := definition]> definitions) rest in
      Ok (mkLatestPlan (mkLatestScan (lr_NodeID s) (lr_Metric s)) definition (lr_RefID s) :: plans)
  end.
Definition prepareLatest (request : LatestRequest) (access : Access) : result queryError (list latestPlan) :=
  prepareLatest_loop access ∅ ∅ request.

Definition readLatest (ReadMetricLatest : LatestScan -> result queryError LatestValue) (plan : latestPlan) : result queryError LatestSeries :=
  match ReadMetricLatest (lp_scan plan) with
  | Err e => if is_error e ErrCapacity || is_error e ErrArithmetic then Err e else Err (ErrUnavailable :: e)
  | Ok value =>
      let d := lp_definition plan in
      let series := mkLatestSeries (lp_refID plan) (lc_NodeID (lp_scan plan)) (md_Key d) (md_Label d) (md_Unit d) in
      if negb (lv_Found value) then Ok (series "empty" None None) else
      if negb (is_finite (lv_Value value)) || (lv_SampleAt value =? 0) then Err [ErrUnavailable] else
      Ok (series "ok" (Some (lv_Value value)) (Some (lv_SampleAt value)))
  end.

Fixpoint readLatest_all (ReadMetricLatest : LatestScan -> result queryError LatestValue) (plans : list latestPlan)
    : result queryError (list LatestSeries) :=
  match plans with
  | [] => Ok []
  | plan :: rest =>
      let* s := readLatest ReadMetricLatest plan in let* ss := readLatest_all ReadMetricLatest rest in Ok (s :: ss)
  end.

Definition latestWithin (ReadMetricLatest : LatestScan -> result queryError LatestValue) (request : LatestRequest) (access : Access)
    : result queryError (list LatestSeries) :=
  let* plans := prepareLatest request access in readLatest_all ReadMetricLatest plans.

(** [latest] is [None] when the reader of ranges reads no latest samples. *)
Definition Latest (latest : option (LatestScan -> result queryError LatestValue)) (a : admission) (done : option sentinel)
    (expired : bool) (request : LatestRequest) (access : Access) : result queryError (list LatestSeries) * admission :=
  match ValidateLatestRequest request, latest with
  | Err e, _ => (Err e, a)
  | Ok _, None => (Err [ErrUnavailable], a)
  | Ok _, Some ReadMetricLatest =>
      match acquire a done (ac_ClientKey access) with
      | Err e => (timeoutError expired (Err e), a)
      | Ok (a, key) => (timeoutError expired (latestWithin ReadMetricLatest request access), release a key)
      end
  end.
End service.
