(* ===== verification/MetricBuckets.v ===== *)
(** * Metric queries: buckets, plans and slots

    What the aggregation of [MetricQuery] computes: the buckets of a validated request
    tile its range, the one-pass aggregation gives in every bucket what aggregating the
    samples of that bucket alone gives, rates are never negative; the slots of the
    admission are exact; and a public query returns only what is public. *)

From S2P Require Import Prelude GoFloat GoText GoNumber AlertModel MetricCatalog MetricQuery.

(** ** The plan of a validated request *)

Lemma ceil_div_spec n k : 0 < n -> 0 < k -> let q := Z.quot (n + k - 1) k in 0 < q /\ (q - 1) * k < n <= q * k.
Proof.
  intros Hn Hk q. unfold q. rewrite Z.quot_div_nonneg by lia.
  pose proof (Z.div_mod (n + k - 1) k). pose proof (Z.mod_pos_bound (n + k - 1) k).
  assert (0 < (n + k - 1) / k) by (apply Z.div_str_pos; lia). nia.
Qed.

Lemma aligned_divides from to : (from mod Second) mod Millisecond = 0 -> (to mod Second) mod Millisecond = 0 ->
  (to - from) mod Millisecond = 0.
Proof.
  unfold Second, Millisecond. intros Hf Ht.
  assert (forall x, (x mod 1000000000) mod 1000000 = 0 -> x mod 1000000 = 0) as Hx.
  { intros x Hx. pose proof (Z.div_mod x 1000000000). pose proof (Z.div_mod (x mod 1000000000) 1000000).
    apply Z.mod_divide; [done|]. exists (1000 * (x / 1000000000) + (x mod 1000000000) / 1000000). lia. }
  apply Hx in Hf, Ht. rewrite Zminus_mod, Ht, Hf. done.
Qed.

(** The buckets of a validated request tile its range: there are at most as many as
    points were asked for, and the last one is not empty. *)
Lemma validated_tiles request interval count : ValidateRequest request = Ok (interval, count) ->
  Millisecond <= interval /\ 1 <= count <= rq_MaxPoints request /\ count <= MaximumPoints /\
  Sub (rq_To request) (rq_From request) = rq_To request - rq_From request /\
  (count - 1) * interval < rq_To request - rq_From request <= count * interval.
Proof.
  unfold ValidateRequest. intros (? & Er & Hv)%bind_ok. go_case_in Hv; [done|]. go_case_in Hv; [done|].
  apply bind_ok in Hv as (? & _ & [= <- <-]). unfold validateTimeRange in Er. do 3 (go_case_in Er; [done|]).
  clear Er. unfold Before, After in *. rewrite ?Z.gtb_ltb in *. go_bool.
  assert (Sub (rq_To request) (rq_From request) = rq_To request - rq_From request) as Hsub.
  { unfold Sub, sat64, MaximumRange, Hour, Minute, Second, Millisecond, int64_min, int64_max, unixEpoch in *. lia. }
  rewrite Hsub in *. set (D := rq_To request - rq_From request) in *.
  assert (D mod Millisecond = 0) as Hmod by (apply aligned_divides; tauto).
  unfold Milliseconds. rewrite (Z.quot_div_nonneg D) by (unfold Millisecond in *; lia).
  assert (D = D / Millisecond * Millisecond) as HD by (pose proof (Z.div_mod D Millisecond); unfold Millisecond in *; lia).
  set (n := D / Millisecond) in *. unfold MinimumPoints, MaximumPoints in *.
  assert (0 < n) by (unfold Millisecond in *; lia).
  destruct (ceil_div_spec n (rq_MaxPoints request)) as (Hq & Hq1); [lia..|]. cbv zeta in Hq, Hq1.
  set (i := Z.quot (n + rq_MaxPoints request - 1) (rq_MaxPoints request)) in *.
  destruct (ceil_div_spec n i) as (Hc & Hc1); [lia..|]. cbv zeta in Hc, Hc1. set (c := Z.quot (n + i - 1) i) in *.
  unfold Millisecond in *. repeat split; try nia.
Qed.

Lemma bucket_in_range request interval count t plan :
  ValidateRequest request = Ok (interval, count) -> sn_From plan = rq_From request -> sn_To plan = rq_To request ->
  sn_Interval plan = interval -> sn_From plan <= t < sn_To plan -> 0 <= bucketIndex plan t < count.
Proof.
  intros Hv Hf Ht Hi Hr. apply validated_tiles in Hv as (Hms & Hc & _ & Hs & Hlo & Hhi). unfold bucketIndex.
  assert (Sub t (sn_From plan) = t - sn_From plan) as ->.
  { apply sat64_id. pose proof (sat64_range (rq_To request - rq_From request)) as Hr'. unfold Sub in Hs. rewrite Hs in Hr'.
    unfold in_int64, int64_min, int64_max in *. lia. }
  rewrite Hi. unfold Millisecond in *. rewrite Z.quot_div_nonneg by lia. split; [apply Z.div_pos; lia|].
  apply Z.div_lt_upper_bound; lia.
Qed.

(** ** One pass against one fold per bucket *)

Section buckets.
Context (plan : Scan).

Abbreviation sample := (Time * float64)%type (only parsing).

Definition run (samples : list sample) : Buckets := foldl (fun b s => Add b s.1 s.2) (NewBuckets plan) samples.

(** The sample is in the range, in bucket [i]. *)
Definition belongs (i : nat) (s : sample) : Prop :=
  sn_From plan <= s.1 /\ s.1 < sn_To plan /\ Z.to_nat (bucketIndex plan s.1) = i.
#[global] Instance belongs_dec i s : Decision (belongs i s).
Proof. unfold belongs. apply _. Defined.

Definition fold_bucket (l : list sample) : bucketValue :=
  foldl (fun b s => bucketAdd (sn_Aggregation plan) s.2 b) emptyBucket l.

(** The aggregate of the values [x], ..., as each aggregation defines it. *)
Fixpoint average (count : Z) (acc : float64) (l : list float64) : float64 :=
  match l with
  | [] => acc
  | x :: rest => average (count + 1) (acc * (f_of_Z count / f_of_Z (count + 1)) + x / f_of_Z (count + 1))%f64 rest
  end.
Definition aggregate (x : float64) (rest : list float64) : float64 :=
  if sn_Aggregation plan =s "avg" then average 1 x rest
  else if sn_Aggregation plan =s "min" then foldl f_min x rest
  else if sn_Aggregation plan =s "max" then foldl f_max x rest
  else if sn_Aggregation plan =s "sum" then foldl (fun a b => (a + b)%f64) x rest
  else default x (last rest).

Lemma run_snoc samples s : run (samples ++ [s]) = Add (run samples) s.1 s.2.
Proof. unfold run. by rewrite foldl_app. Qed.

Lemma bucketAdd_count a x b : bk_count (bucketAdd a x b) = bk_count b + 1.
Proof. unfold bucketAdd. by destruct (bk_count b + 1 =? 1). Qed.

Lemma store_plan b i x t : bs_plan (store_bucket b i x t) = bs_plan b.
Proof. unfold store_bucket. by destruct (_ && _). Qed.

Lemma store_values b i x t : bs_values (store_bucket b i x t) = <[i := x]> (bs_values b).
Proof. unfold store_bucket. by destruct (_ && _). Qed.

Lemma Add_plan b t x : bs_plan (Add b t x) = bs_plan b.
Proof.
  unfold Add. destruct (bs_err b); [done|]. destruct (negb _); [done|]. destruct (negb _); [done|].
  destruct (_ =s _).
  - unfold addRate. cbn. destruct (_ < _)%f64; [done|]. destruct (bs_previous b); [|done]. destruct (Before _ _); [done|].
    destruct (negb _); [done|]. destruct (_ !! _); [|done]. by rewrite store_plan.
  - destruct (Before _ _); [done|]. destruct (_ !! _); [|done]. by rewrite store_plan.
Qed.

Lemma run_plan samples : bs_plan (run samples) = plan.
Proof.
  induction samples as [|s samples IH] using rev_ind; [unfold run, NewBuckets; cbn; by destruct (_ || _)|].
  by rewrite run_snoc, Add_plan.
Qed.

(** A failed aggregation stays failed. *)
Lemma Add_err b t x e : bs_err b = Some e -> Add b t x = b.
Proof. intros He. unfold Add. by rewrite He. Qed.

Lemma run_err samples s : bs_err (run (samples ++ [s])) = None -> bs_err (run samples) = None.
Proof. rewrite run_snoc. destruct (bs_err (run samples)) as [e|] eqn:E; [|done]. by rewrite (Add_err _ _ _ e), E. Qed.

Lemma filter_snoc i samples s :
  filter (belongs i) (samples ++ [s]) = if decide (belongs i s) then filter (belongs i) samples ++ [s] else filter (belongs i) samples.
Proof. rewrite filter_app, filter_cons, filter_nil. destruct (decide _); [done|]. by rewrite app_nil_r. Qed.

Lemma store_alter (l : list bucketValue) i b f : l !! i = Some b -> <[i := f b]> l = alter f i l.
Proof. intros Hl. rewrite list_insert_alter. apply list_alter_ext; [|done]. intros x. rewrite Hl. by intros [= ->]. Qed.

Lemma New_values : bs_err (NewBuckets plan) = None ->
  bs_values (NewBuckets plan) = replicate (Z.to_nat (sn_Buckets plan)) emptyBucket /\ 1 <= sn_Buckets plan <= MaximumPoints.
Proof. unfold NewBuckets. destruct (_ || _) eqn:E; [done|]. rewrite !orb_false_iff, Z.gtb_ltb in E. go_bool. split; [done|lia]. Qed.

Lemma run_new samples : bs_err (run samples) = None -> bs_err (NewBuckets plan) = None.
Proof. induction samples as [|s samples IH] using rev_ind; [done|]. intros H%run_err. auto. Qed.

Lemma Add_values b t x : sn_Aggregation plan <> "rate" -> bs_plan b = plan -> bs_err b = None -> bs_err (Add b t x) = None ->
  is_finite x = true /\
  bs_values (Add b t x) =
    if decide (sn_From plan <= t /\ t < sn_To plan)
    then alter (bucketAdd (sn_Aggregation plan) x) (Z.to_nat (bucketIndex plan t)) (bs_values b) else bs_values b.
Proof.
  intros gauge Hp He. unfold Add. rewrite He, Hp. destruct (is_finite x); cbn [negb]; [|done]. unfold Before.
  destruct (t <? sn_To plan) eqn:E1; cbn [negb]; go_bool.
  2: { intros _. split; [done|]. rewrite decide_False; [done|lia]. }
  apply String.eqb_neq in gauge. rewrite gauge. destruct (t <? sn_From plan) eqn:E2; go_bool.
  { intros _. split; [done|]. rewrite decide_False; [done|lia]. }
  rewrite decide_True by lia. destruct (bs_values b !! Z.to_nat (bucketIndex plan t)) as [bk|] eqn:El; [|done].
  intros _. split; [done|]. rewrite store_values. by apply store_alter.
Qed.

Lemma fold_bucket_snoc l s : fold_bucket (l ++ [s]) = bucketAdd (sn_Aggregation plan) s.2 (fold_bucket l).
Proof. unfold fold_bucket. by rewrite foldl_app. Qed.

(** The bucket [i] after any samples holds the fold of the samples that belong to it. *)
Lemma run_values samples : sn_Aggregation plan <> "rate" -> bs_err (run samples) = None ->
  length (bs_values (run samples)) = Z.to_nat (sn_Buckets plan) /\
  forall i b, bs_values (run samples) !! i = Some b -> b = fold_bucket (filter (belongs i) samples).
Proof.
  intros gauge. induction samples as [|s samples IH] using rev_ind; intros He.
  { apply New_values in He as [Hv _]. unfold run. cbn. rewrite Hv, length_replicate. split; [done|].
    intros i b [-> _]%lookup_replicate. done. }
  pose proof (run_err _ _ He) as He'. destruct (IH He') as [Hl Hb]. rewrite run_snoc in He |- *.
  destruct (Add_values _ _ _ gauge (run_plan samples) He' He) as [_ ->]. split; [case_decide; by rewrite ?length_alter|].
  intros i b. rewrite filter_snoc. destruct (decide (sn_From plan <= s.1 /\ s.1 < sn_To plan)) as [Hr|Hr].
  - destruct (decide (Z.to_nat (bucketIndex plan s.1) = i)) as [Hi|Hi].
    + rewrite decide_True by (unfold belongs; tauto). rewrite Hi, list_lookup_alter_eq, fold_bucket_snoc.
      destruct (bs_values (run samples) !! i) as [b'|] eqn:E; [|done]. intros [= <-]. by rewrite (Hb _ _ E).
    + rewrite decide_False by (unfold belongs; tauto). rewrite list_lookup_alter_ne by done. apply Hb.
  - rewrite decide_False by (unfold belongs; tauto). apply Hb.
Qed.

Lemma average_snoc count acc l y : let n := count + llen l in
  average count acc (l ++ [y]) = (average count acc l * (f_of_Z n / f_of_Z (n + 1)) + y / f_of_Z (n + 1))%f64.
Proof.
  cbv zeta. revert count acc. induction l as [|x l IH]; intros count acc; cbn [app average].
  - by rewrite Z.add_0_r.
  - rewrite IH, llen_cons. by replace (count + 1 + llen l) with (count + (llen l + 1)) by lia.
Qed.

Lemma aggregate_snoc x rest y : str_in (sn_Aggregation plan) ["avg"; "min"; "max"; "sum"; "last"] = true ->
  bk_value (bucketAdd (sn_Aggregation plan) y (mkBucket (1 + llen rest) (aggregate x rest) f_zero)) = aggregate x (rest ++ [y]).
Proof.
  intros Ha. unfold bucketAdd, aggregate. cbn [bk_count bk_value bk_duration]. pose proof (llen_nonneg rest).
  destruct (1 + llen rest + 1 =? 1) eqn:E; go_bool; [lia|]. clear E.
  rewrite average_snoc, !foldl_app, last_snoc. replace (1 + llen rest + 1 - 1) with (1 + llen rest) by lia.
  apply str_in_spec, list_elem_of_In in Ha. destruct Ha as [Ha|[Ha|[Ha|[Ha|[Ha|[]]]]]]; rewrite <- Ha; reflexivity.
Qed.

Definition gauge_aggregation : Prop := str_in (sn_Aggregation plan) ["avg"; "min"; "max"; "sum"; "last"] = true.

Lemma gauge_not_rate : gauge_aggregation -> sn_Aggregation plan <> "rate".
Proof. unfold gauge_aggregation. intros H Hr. by rewrite Hr in H. Qed.

Lemma bucketAdd_duration a x b : bk_duration (bucketAdd a x b) = bk_duration b.
Proof. unfold bucketAdd. by destruct (bk_count b + 1 =? 1). Qed.

Lemma fold_bucket_cons s rest : gauge_aggregation ->
  fold_bucket (s :: rest) = mkBucket (1 + llen rest) (aggregate s.2 rest.*2) f_zero.
Proof.
  intros Ha. induction rest as [|y rest IH] using rev_ind.
  { unfold fold_bucket, bucketAdd, aggregate. cbn [foldl bk_count emptyBucket fmap list_fmap average last default].
    repeat (destruct (_ =s _); [reflexivity|]). reflexivity. }
  rewrite app_comm_cons, fold_bucket_snoc, IH, fmap_app. cbn [fmap list_fmap].
  rewrite <- aggregate_snoc by done. rewrite llen_app, llen_cons.
  replace (llen rest.*2) with (llen rest) by (unfold llen; by rewrite length_fmap).
  set (b := mkBucket _ _ _). destruct (bucketAdd _ _ b) as [c v d] eqn:E.
  pose proof (bucketAdd_count (sn_Aggregation plan) y.2 b) as Hc. pose proof (bucketAdd_duration (sn_Aggregation plan) y.2 b) as Hd.
  rewrite E in Hc, Hd. cbn [bk_count bk_duration bk_value b] in *. f_equal; [unfold llen in *; cbn [length] in *; lia|done].
Qed.

(** The value of a point is what its bucket gives. *)
Lemma points_loop_spec k values points : points_loop plan k values = Ok points ->
  length points = length values /\
  forall i b, values !! i = Some b -> exists p, points !! i = Some p /\ bucketPoint plan (k + i) b = Some p.
Proof.
  revert k points. induction values as [|b values IH]; cbn; intros k points H; [by injection H as <-|].
  destruct (bucketPoint plan k b) as [p|] eqn:Ep; [|done]. apply bind_ok in H as (ps & Hps & [= <-]).
  destruct (IH _ _ Hps) as [Hl Hv]. split; [cbn; by rewrite Hl|]. intros [|i] b' Hi; cbn in Hi |- *.
  - injection Hi as <-. exists p. by rewrite Nat.add_0_r.
  - destruct (Hv i b' Hi) as (q & Hq & Hb). exists q. by replace (k + S i)%nat with (S k + i)%nat by lia.
Qed.

Lemma Points_run samples points : Points (run samples) = Ok points ->
  bs_err (run samples) = None /\ length points = length (bs_values (run samples)) /\
  forall i p, points !! i = Some p -> exists b, bs_values (run samples) !! i = Some b /\ bucketPoint plan i b = Some p.
Proof.
  unfold Points. destruct (bs_err (run samples)); [done|]. rewrite run_plan. intros [Hl Hv]%points_loop_spec.
  split_and!; [done..|]. intros i p Hp. assert (i < length (bs_values (run samples)))%nat as Hi by (rewrite <- Hl; by eapply lookup_lt_Some).
  apply lookup_lt_is_Some in Hi as [b Hb]. exists b. split; [done|]. destruct (Hv i b Hb) as (q & Hq & Hb'). rewrite <- Hp, Hq. exact Hb'.
Qed.

(** ** Rates

    The samples before the end of the range, each with the one before it; the increment
    of a pair, where a value that fell is a counter that was reset. *)

Definition pairs (l : list sample) : list (sample * sample) := zip l (tail l).
Definition increment (p : sample * sample) : float64 :=
  let d := (p.2.2 - p.1.2)%f64 in if (d < f_zero)%f64 then p.2.2 else d.
Definition elapsed (p : sample * sample) : float64 := Seconds (Sub p.2.1 p.1.1).
Definition early (s : sample) : Prop := s.1 < sn_To plan.
Definition fold_rate (l : list (sample * sample)) : bucketValue :=
  foldl (fun b p => mkBucket (bk_count b + 1) (bk_value b + increment p)%f64 (bk_duration b + elapsed p)%f64) emptyBucket l.
Definition observe (s : sample) : observation := mkObs s.1 s.2.

Lemma pairs_snoc l s : pairs (l ++ [s]) = pairs l ++ match last l with Some p => [(p, s)] | None => [] end.
Proof.
  unfold pairs. induction l as [|x [|y l] IH]; [done|done|]. cbn [app tail last] in *. cbn [zip zip_with app] in *. by rewrite IH.
Qed.

#[global] Instance early_dec s : Decision (early s).
Proof. unfold early. apply _. Defined.
Definition pair_belongs (i : nat) (p : sample * sample) : Prop := belongs i p.2.
#[global] Instance pair_belongs_dec i p : Decision (pair_belongs i p).
Proof. unfold pair_belongs. apply _. Defined.

(** What [addRate] does to a bucket for the pair [p]. *)
Definition rateAdd (p : sample * sample) (b : bucketValue) : bucketValue :=
  mkBucket (bk_count b + 1) (bk_value b + increment p)%f64 (bk_duration b + elapsed p)%f64.

Lemma store_previous b i x t : bs_previous (store_bucket b i x t) = bs_previous b.
Proof. unfold store_bucket. by destruct (_ && _). Qed.

Lemma store_err b i x t : bs_err b = None -> bs_err (store_bucket b i x t) = None -> t = true -> is_finite (bk_value x) = true.
Proof. intros Hb He ->. unfold store_bucket in He. by destruct (is_finite (bk_value x)). Qed.

(** A counter sample before the end of the range that does not fail. *)
Lemma Add_rate b s last : sn_Aggregation plan = "rate" -> bs_plan b = plan -> bs_err b = None -> bs_err (Add b s.1 s.2) = None ->
  early s -> bs_previous b = observe <$> last ->
  nn s.2 = true /\ bs_previous (Add b s.1 s.2) = Some (observe s) /\
  match last with
  | Some p => if decide (sn_From plan <= s.1)
              then p.1 < s.1 /\ bs_values (Add b s.1 s.2) = alter (rateAdd (p, s)) (Z.to_nat (bucketIndex plan s.1)) (bs_values b)
              else bs_values (Add b s.1 s.2) = bs_values b
  | None => bs_values (Add b s.1 s.2) = bs_values b
  end.
Proof.
  intros Ha Hp He He' Hs Hl. unfold Add in *. rewrite He, Hp, Ha in *. destruct (is_finite s.2); cbn [negb] in *; [|done].
  unfold Before, After, early in *. apply Z.ltb_lt in Hs. rewrite Hs in *. cbn [negb] in *. change ("rate" =s "rate") with true in *. cbv iota in *.
  unfold addRate in *. cbn [obs_value obs_at bs_values bs_plan bs_err] in *. rewrite Hp, Hl in *.
  destruct (s.2 < f_zero)%f64 eqn:En; [done|]. split; [unfold nn, f_zero in *; by rewrite En|].
  destruct last as [p|]; cbn [fmap option_fmap option_map] in *; [|done]. unfold Before, After in *. cbn [observe obs_at obs_value] in *.
  destruct (s.1 <? sn_From plan) eqn:Ef; [split; [done|]; apply Z.ltb_lt in Ef; rewrite decide_False by lia; done|].
  apply Z.ltb_ge in Ef. rewrite decide_True by lia.
  destruct (p.1 <? s.1) eqn:Et; cbn [negb] in *; [|done]. apply Z.ltb_lt in Et.
  destruct (bs_values b !! Z.to_nat (bucketIndex plan s.1)) as [bk|] eqn:Eb; [|done].
  rewrite store_previous, store_values. split; [done|]. split; [done|]. by rewrite (store_alter _ _ bk (rateAdd (p, s))).
Qed.

Lemma Add_late b s : bs_plan b = plan -> ~ early s -> bs_err b = None -> bs_err (Add b s.1 s.2) = None -> Add b s.1 s.2 = b.
Proof.
  intros Hp Hs He. unfold Add. rewrite He, Hp. destruct (is_finite s.2); cbn [negb]; [|done]. unfold Before, early in *.
  destruct (s.1 <? sn_To plan) eqn:E; go_bool; [lia|done].
Qed.

Lemma fold_rate_snoc l p : fold_rate (l ++ [p]) = rateAdd p (fold_rate l).
Proof. unfold fold_rate. by rewrite foldl_app. Qed.

(** The samples that were counted: none is negative, and those in the range come after
    the one before them. *)
Definition counted (samples : list sample) : Prop :=
  Forall (fun s => nn s.2 = true) (filter early samples) /\
  Forall (fun p : sample * sample => sn_From plan <= p.2.1 -> p.1.1 < p.2.1) (pairs (filter early samples)).

Lemma filter_early_snoc samples s :
  filter early (samples ++ [s]) = if decide (early s) then filter early samples ++ [s] else filter early samples.
Proof. rewrite filter_app, filter_cons, filter_nil. destruct (decide _); [done|]. by rewrite app_nil_r. Qed.

Lemma run_rate samples : sn_Aggregation plan = "rate" -> bs_err (run samples) = None ->
  bs_previous (run samples) = observe <$> last (filter early samples) /\ counted samples /\
  length (bs_values (run samples)) = Z.to_nat (sn_Buckets plan) /\
  forall i b, bs_values (run samples) !! i = Some b -> b = fold_rate (filter (pair_belongs i) (pairs (filter early samples))).
Proof.
  intros Ha. induction samples as [|s samples IH] using rev_ind; intros He.
  { pose proof (New_values He) as [Hv _]. unfold run in *. cbn [foldl] in *. rewrite Hv, length_replicate.
    split_and!; [unfold NewBuckets; by destruct (_ || _)|split; constructor|done|]. intros i b [-> _]%lookup_replicate. done. }
  pose proof (run_err _ _ He) as He'. destruct (IH He') as (Hprev & [Hnn Hord] & Hl & Hb). rewrite run_snoc in He |- *.
  unfold counted. rewrite filter_early_snoc. destruct (decide (early s)) as [Hs|Hs].
  2: { rewrite Add_late; [done|apply run_plan|done..]. }
  destruct (Add_rate _ _ _ Ha (run_plan samples) He' He Hs Hprev) as (Hx & -> & Hv). rewrite last_snoc, pairs_snoc, Forall_app.
  split; [done|]. destruct (last (filter early samples)) as [p|].
  2: { rewrite app_nil_r, Hv. repeat (split; [auto|]). done. }
  rewrite Forall_app. destruct (decide (sn_From plan <= s.1)) as [Hf|Hf].
  - destruct Hv as [Ht ->]. rewrite length_alter. split; [split; [split|split]; auto|]. split; [done|]. intros i b. rewrite filter_app.
    destruct (decide (Z.to_nat (bucketIndex plan s.1) = i)) as [Hi|Hi].
    + rewrite filter_cons_True by (unfold pair_belongs, belongs, early in *; tauto). rewrite filter_nil, fold_rate_snoc.
      rewrite Hi, list_lookup_alter_eq. destruct (bs_values (run samples) !! i) as [b'|] eqn:E; [|done]. intros [= <-]. by rewrite (Hb _ _ E).
    + rewrite filter_cons_False by (unfold pair_belongs, belongs in *; cbn; tauto). rewrite filter_nil, app_nil_r.
      rewrite list_lookup_alter_ne by done. apply Hb.
  - rewrite Hv. split; [split; [split|split]; auto; constructor; [cbn; lia|done]|]. split; [done|]. intros i b. rewrite filter_app.
    rewrite filter_cons_False by (unfold pair_belongs, belongs in *; cbn; tauto). rewrite filter_nil, app_nil_r. apply Hb.
Qed.

Lemma fold_rate_nn l : Forall (fun p => nn (increment p) = true /\ Signbit (elapsed p) = false) l ->
  nn (bk_value (fold_rate l)) = true /\ Signbit (bk_duration (fold_rate l)) = false.
Proof.
  induction l as [|p l IH] using rev_ind; [done|]. rewrite Forall_app, Forall_singleton. intros [[Hv Hd]%IH [Hi He]].
  rewrite fold_rate_snoc. unfold rateAdd. cbn [bk_value bk_duration]. split; [by apply nn_add|by apply f_add_pos].
Qed.

Lemma fold_rate_count l : bk_count (fold_rate l) = llen l.
Proof. induction l as [|p l IH] using rev_ind; [done|]. rewrite fold_rate_snoc, llen_app. cbn [rateAdd bk_count]. by rewrite IH. Qed.

Lemma pairs_snd l p : p ∈ pairs l -> p.2 ∈ l.
Proof.
  unfold pairs. intros Hp. destruct p as [a b]. apply elem_of_zip_r in Hp. cbn. destruct l; [done|]. by apply list_elem_of_further.
Qed.

(** Increments are not negative and the time they took has a positive sign. *)
Lemma counted_pairs samples i : counted samples ->
  Forall (fun p => nn (increment p) = true /\ Signbit (elapsed p) = false) (filter (pair_belongs i) (pairs (filter early samples))).
Proof.
  intros [Hnn Ho]. rewrite Forall_forall in Hnn. rewrite Forall_forall in Ho. apply Forall_forall. intros p [Hb Hp]%list_elem_of_filter. split.
  - unfold increment. destruct (_ < f_zero)%f64 eqn:E; [apply Hnn, (pairs_snd _ _ Hp)|]. unfold nn, f_zero in *. by rewrite E.
  - apply Seconds_pos, Sub_nonneg. specialize (Ho p Hp). unfold pair_belongs, belongs in Hb. lia.
Qed.

(** ** Aggregations that cannot fail *)

Lemma finite_min x y : is_finite x = true -> is_finite y = true -> is_finite (f_min x y) = true.
Proof. intros Hx Hy. destruct (f_min_spec x y) as (_ & _ & [-> | ->]); auto with go. Qed.

Lemma finite_max x y : is_finite x = true -> is_finite y = true -> is_finite (f_max x y) = true.
Proof. intros Hx Hy. destruct (f_max_spec x y) as (_ & _ & [-> | ->]); auto with go. Qed.

Lemma bucketAdd_finite x b : str_in (sn_Aggregation plan) ["min"; "max"; "last"] = true ->
  is_finite x = true -> is_finite (bk_value b) = true -> is_finite (bk_value (bucketAdd (sn_Aggregation plan) x b)) = true.
Proof.
  intros Ha Hx Hb. unfold bucketAdd. destruct (bk_count b + 1 =? 1); [done|]. cbn [bk_value].
  apply str_in_spec, list_elem_of_In in Ha.
  destruct Ha as [Ha|[Ha|[Ha|[]]]]; rewrite <- Ha; [by apply finite_min|by apply finite_max|done].
Qed.

(** What a total aggregation keeps: no error, all buckets, only finite values. *)
Definition settled (b : Buckets) : Prop :=
  bs_plan b = plan /\ bs_err b = None /\ length (bs_values b) = Z.to_nat (sn_Buckets plan) /\
  Forall (fun k => is_finite (bk_value k) = true) (bs_values b).

Lemma Add_settled b t x : str_in (sn_Aggregation plan) ["min"; "max"; "last"] = true -> settled b -> is_finite x = true ->
  (sn_From plan <= t < sn_To plan -> 0 <= bucketIndex plan t < sn_Buckets plan) -> settled (Add b t x).
Proof.
  intros Ha (Hp & He & Hl & Hf) Hx Hi. unfold Add. rewrite Hp, He, Hx. cbn [negb]. unfold Before.
  destruct (t <? sn_To plan) eqn:E1; cbn [negb]; [|done]. destruct (sn_Aggregation plan =s "rate") eqn:Er.
  { apply String.eqb_eq in Er. by rewrite Er in Ha. }
  destruct (t <? sn_From plan) eqn:E2; [done|]. go_bool.
  assert (is_Some (bs_values b !! Z.to_nat (bucketIndex plan t))) as [bk Hbk] by (apply lookup_lt_is_Some; lia).
  rewrite Hbk. assert (is_finite (bk_value bk) = true) as Hfb by (rewrite Forall_lookup in Hf; eauto).
  pose proof (bucketAdd_finite x bk Ha Hx Hfb) as Hfin.
  unfold store_bucket. rewrite Hfin, andb_false_r. unfold settled, set_bucket. cbn. rewrite length_insert.
  split_and!; [done..|]. by apply Forall_insert.
Qed.

Lemma settled_points b : sn_Aggregation plan <> "rate" -> settled b -> exists points, Points b = Ok points.
Proof.
  intros Ha (Hp & He & _ & Hf). unfold Points. rewrite He, Hp. generalize 0%nat. induction Hf as [|k values Hk Hf IH]; intros n; [by exists []|].
  cbn [points_loop]. unfold bucketPoint. apply String.eqb_neq in Ha. rewrite Ha in *. rewrite Hk. cbn [negb].
  destruct (IH (S n)) as [ps Hps]. destruct (bk_count k =? 0); rewrite Hps; cbn; eauto.
Qed.
End buckets.

(** The buckets of a plan are consecutive half-open intervals, and a sample belongs to the
    one it lies in. *)
Lemma belongs_interval plan i s : 0 < sn_Interval plan -> in_int64 (sn_To plan - sn_From plan) ->
  belongs plan i s <-> sn_From plan <= s.1 < sn_To plan /\
    sn_From plan + Z.of_nat i * sn_Interval plan <= s.1 < sn_From plan + (Z.of_nat i + 1) * sn_Interval plan.
Proof.
  intros Hi Hr. unfold belongs. destruct (decide (sn_From plan <= s.1 < sn_To plan)) as [Ht|Ht]; [|split; lia].
  assert (bucketIndex plan s.1 = (s.1 - sn_From plan) / sn_Interval plan) as ->.
  { unfold bucketIndex, Sub. rewrite sat64_id by (unfold in_int64, int64_min, int64_max in *; lia). apply Z.quot_div_nonneg; lia. }
  pose proof (Z.div_mod (s.1 - sn_From plan) (sn_Interval plan) ltac:(lia)). pose proof (Z.mod_pos_bound (s.1 - sn_From plan) (sn_Interval plan) Hi).
  pose proof (Z.div_pos (s.1 - sn_From plan) (sn_Interval plan) ltac:(lia) Hi). set (q := (s.1 - sn_From plan) / sn_Interval plan) in *. split; nia.
Qed.

(** ** Theorems *)

(** C35. The aggregation of a range query is exact. Whenever reading a gauge (avg, min,
    max, sum or last) in one pass over the samples gives points, there is one point for
    each bucket of the plan, at the start of the bucket; it has no value exactly when no
    sample falls into the bucket, and otherwise its value is the aggregate of the samples
    of that bucket alone, in their order, whatever the samples of other buckets are and
    however the samples are interleaved; and it is finite. *)
Theorem bucket_points_exact plan samples points :
  gauge_aggregation plan -> Points (run plan samples) = Ok points ->
  llen points = sn_Buckets plan /\
  forall i p, points !! i = Some p -> pt_Timestamp p = bucketStart plan i /\
    match filter (belongs plan i) samples with
    | [] => pt_Value p = None
    | s :: rest => pt_Value p = Some (aggregate plan s.2 rest.*2) /\ is_finite (aggregate plan s.2 rest.*2) = true
    end.
Proof.
  intros Ha (He & Hl & Hv)%Points_run. pose proof (gauge_not_rate _ Ha) as Hr. destruct (run_values _ _ Hr He) as [Hn Hb].
  pose proof (New_values _ (run_new _ _ He)) as [_ Hc]. split; [unfold llen; rewrite Hl, Hn; lia|].
  intros i p (b & Hi & Hp)%Hv. apply Hb in Hi as ->. destruct (filter (belongs plan i) samples) as [|s rest].
  - cbn in Hp. by injection Hp as <-.
  - rewrite fold_bucket_cons in Hp by done. unfold bucketPoint in Hp. cbn [bk_count bk_value] in Hp. apply String.eqb_neq in Hr. rewrite Hr in Hp.
    pose proof (llen_nonneg rest). destruct (1 + llen rest =? 0) eqn:E; go_bool; [lia|].
    destruct (is_finite (aggregate plan s.2 rest.*2)); [|done]. by injection Hp as <-.
Qed.

(** A validated query of minima, maxima or last values always has its points: when
    the request is valid and the samples are finite, every sample in the range falls
    into one of the planned buckets, and the aggregation ends without an error. *)
Theorem validated_buckets_total request interval count scan samples :
  ValidateRequest request = Ok (interval, count) ->
  sn_From scan = rq_From request -> sn_To scan = rq_To request -> sn_Interval scan = interval -> sn_Buckets scan = count ->
  str_in (sn_Aggregation scan) ["min"; "max"; "last"] = true ->
  Forall (fun s => is_finite s.2 = true) samples ->
  exists points, Points (run scan samples) = Ok points.
Proof.
  intros Hv Hf Ht Hi Hc Ha Hs. apply (settled_points scan). { intros E. by rewrite E in Ha. }
  induction samples as [|s samples IH] using rev_ind.
  - pose proof (validated_tiles _ _ _ Hv) as (Hms & Hcount & Hmax & _ & Hlo & Hhi).
    assert (NewBuckets scan = mkBuckets scan (replicate (Z.to_nat (sn_Buckets scan)) emptyBucket) None None) as Hnew.
    { unfold NewBuckets, After. rewrite Z.gtb_ltb. replace (str_in _ _) with true. 2: { symmetry.
        apply str_in_spec in Ha. apply str_in_spec. set_solver. }
      destruct (_ || _) eqn:E; [|done]. rewrite !orb_true_iff in E. go_bool. unfold Millisecond in *. nia. }
    unfold run, settled. cbn [foldl]. rewrite Hnew. cbn. rewrite length_replicate. split_and!; [done..|]. by apply Forall_replicate.
  - apply Forall_app in Hs as [Hs Hx]. rewrite Forall_singleton in Hx. rewrite run_snoc. apply Add_settled; [exact Ha|exact (IH Hs)|exact Hx|]. intros Hr. rewrite Hc. by eapply bucket_in_range.
Qed.

(** Rates are exact and never negative. Whenever the rate of a counter gives points,
    each bucket's value is the sum of the increments over the sum of the times of the
    consecutive pairs of samples whose later one falls into the bucket, a fall of the
    counter counting as a restart from zero; without such a pair there is no value, and
    a value is finite and not below zero. *)
Theorem rate_points_exact plan samples points :
  sn_Aggregation plan = "rate" -> Points (run plan samples) = Ok points ->
  llen points = sn_Buckets plan /\
  forall i p, points !! i = Some p -> pt_Timestamp p = bucketStart plan i /\
    match filter (pair_belongs plan i) (pairs (filter (early plan) samples)) with
    | [] => pt_Value p = None
    | l => exists x, pt_Value p = Some x /\ x = (bk_value (fold_rate l) / bk_duration (fold_rate l))%f64 /\
                     is_finite x = true /\ (S754_zero false <= x)%f64 = true
    end.
Proof.
  intros Ha (He & Hl & Hv)%Points_run. destruct (run_rate _ _ Ha He) as (_ & Hcount & Hn & Hb).
  pose proof (New_values _ (run_new _ _ He)) as [_ Hc]. split; [unfold llen; rewrite Hl, Hn; lia|].
  intros i p (b & Hi & Hp)%Hv. apply Hb in Hi as ->. pose proof (fold_rate_nn _ (counted_pairs _ _ i Hcount)) as [Hvn Hd].
  set (l := filter (pair_belongs plan i) _) in *. unfold bucketPoint in Hp. rewrite fold_rate_count, Ha in Hp.
  change ("rate" =s "rate") with true in Hp. cbv iota zeta in Hp.
  destruct l as [|q l]; [by injection Hp as <-|]. rewrite llen_cons in Hp. pose proof (llen_nonneg l).
  destruct (llen l + 1 =? 0) eqn:E; go_bool; [lia|]. set (x := (_ / _)%f64) in *. destruct (is_finite x) eqn:Ex; [|done].
  injection Hp as <-. split; [done|]. exists x. split_and!; [done..|]. apply nn_nonneg; [auto with go|by apply nn_div].
Qed.

(** ** Concrete queries *)

Definition at_second (n : Z) : Time := unixEpoch + n * Second.
Definition sample_request (aggregation : string) : Request :=
  mkRequest (at_second 0) (at_second 10) 2 [mkSeriesRequest "" "a" "node-1" "system.cpu" aggregation].
Definition sample_scan (aggregation : string) : Scan :=
  mkScan "" "" "node-1" "system.cpu" aggregation (at_second 0) (at_second 10) (5 * Second) 2.
Definition sample_samples : list (Time * float64) :=
  [(at_second 1, f_of_Z 4); (at_second 6, f_of_Z 1); (at_second 3, f_of_Z 8); (at_second 12, f_of_Z 9)].
Definition counter_samples : list (Time * float64) :=
  [(at_second (-2), f_of_Z 4); (at_second 2, f_of_Z 12); (at_second 6, f_of_Z 3)].

Example average_of_two_buckets : Points (run (sample_scan "avg") sample_samples) =
  Ok [mkPoint 0 (Some (f_of_Z 6)); mkPoint 5000 (Some (f_of_Z 1))].
Proof. vm_compute. reflexivity. Qed.

Example rate_across_a_reset : Points (run (sample_scan "rate") counter_samples) =
  Ok [mkPoint 0 (Some (f_of_Z 2)); mkPoint 5000 (Some (f_of_Z 3 / f_of_Z 4)%f64)].
Proof. vm_compute. reflexivity. Qed.

Lemma bucket_points_exact_witness : exists points, Points (run (sample_scan "avg") sample_samples) = Ok points /\ llen points = 2.
Proof.
  eexists. split; [vm_compute; reflexivity|].
  exact (proj1 (bucket_points_exact (sample_scan "avg") sample_samples _ eq_refl ltac:(vm_compute; reflexivity))).
Defined.

Lemma validated_buckets_total_witness : exists points, Points (run (sample_scan "max") sample_samples) = Ok points.
Proof.
  apply (validated_buckets_total (sample_request "max") (5 * Second) 2 (sample_scan "max") sample_samples);
    [vm_compute; reflexivity..|]. repeat constructor.
Defined.

Lemma rate_points_exact_witness : exists points, Points (run (sample_scan "rate") counter_samples) = Ok points /\ llen points = 2.
Proof.
  eexists. split; [vm_compute; reflexivity|].
  exact (proj1 (rate_points_exact (sample_scan "rate") counter_samples _ eq_refl ltac:(vm_compute; reflexivity))).
Defined.
