(* ===== verification/MetricService.v ===== *)
(** * Metric queries: slots and visibility

    The slots of the admission count exactly the queries in progress; a query and a
    latest-value read return only what the caller may see, and leave the admission as it
    was. *)

From S2P Require Import Prelude GoFloat GoText GoNumber AlertModel MetricCatalog MetricQuery MetricBuckets.

(** ** Slots

    The queries in progress hold leases, each under its client's key; [Take] is a call of
    [acquire] and [Give n] the end of the query of the [n]-th lease, whose release runs
    once. *)

Inductive slot_event := Take (done : option sentinel) (client : string) | Give (n : nat).

Definition slot_step (s : admission * list string) (e : slot_event) : admission * list string :=
  let '(a, leases) := s in
  match e with
  | Take done client => match acquire a done client with Ok (a', key) => (a', key :: leases) | Err _ => s end
  | Give n => match leases !! n with Some key => (release a key, delete n leases) | None => s end
  end.
Definition slots (events : list slot_event) : admission * list string := foldl slot_step (newAdmission, []) events.

Definition leased (client : string) (leases : list string) : Z := llen (filter (.= client) leases).

(** The admission state that counts the leases, and nothing else. *)
Definition counts (a : admission) (leases : list string) : Prop :=
  ad_active a = llen leases /\
  forall client, ad_clients a !! client = (if leased client leases =? 0 then None else Some (leased client leases)).

Lemma leased_nonneg client leases : 0 <= leased client leases.
Proof. apply llen_nonneg. Qed.

Lemma leased_cons client key leases : leased client (key :: leases) = leased client leases + (if decide (key = client) then 1 else 0).
Proof. unfold leased. rewrite filter_cons. case_decide; [by rewrite llen_cons|lia]. Qed.

Lemma leased_app client l1 l2 : leased client (l1 ++ l2) = leased client l1 + leased client l2.
Proof. unfold leased. by rewrite filter_app, llen_app. Qed.

Lemma leased_delete client leases n key : leases !! n = Some key ->
  leased client (delete n leases) = leased client leases - (if decide (key = client) then 1 else 0).
Proof.
  intros Hn. pose proof (f_equal (leased client) (take_drop_middle _ _ _ Hn)) as Hs.
  rewrite leased_app, leased_cons in Hs. rewrite delete_take_drop, leased_app. lia.
Qed.

Lemma counts_held a leases client : counts a leases -> held a client = leased client leases.
Proof. intros [_ Hc]. unfold held. rewrite Hc. destruct (_ =? 0) eqn:E; go_bool; [by rewrite E|done]. Qed.

Lemma leased_pos leases n key : leases !! n = Some key -> 0 < leased key leases.
Proof.
  intros Hn. pose proof (leased_delete key leases n key Hn) as Hd. rewrite decide_True in Hd by done.
  pose proof (leased_nonneg key (delete n leases)). lia.
Qed.

Lemma leased_zero client leases : leased client leases = 0 <-> client ∉ leases.
Proof.
  split.
  - intros Hz (n & Hn)%list_elem_of_lookup. pose proof (leased_pos _ _ _ Hn). lia.
  - induction leases as [|key leases IH]; [done|]. rewrite leased_cons. intros Hn. rewrite decide_False by set_solver. rewrite IH; [done|set_solver].
Qed.

Lemma acquire_ok a done client a' key : acquire a done client = Ok (a', key) ->
  done = None /\ len client <= MaximumNodeIDBytes /\ key = clientKey client /\ ad_active a < MaximumConcurrent /\
  held a key < MaximumPerClient /\ a' = mkAdmission (ad_active a + 1) (<[key := held a key + 1]> (ad_clients a)).
Proof.
  unfold acquire. destruct done; [done|]. destruct (len client >? _) eqn:El; [done|]. destruct (_ || _) eqn:E; [done|].
  rewrite orb_false_iff, !Z.geb_leb in E. rewrite Z.gtb_ltb in El. go_bool. intros [= <- <-]. tauto.
Qed.

Lemma acquire_counts a leases key : counts a leases ->
  counts (mkAdmission (ad_active a + 1) (<[key := held a key + 1]> (ad_clients a))) (key :: leases).
Proof.
  intros Hc. pose proof (counts_held _ _ key Hc) as Hh. destruct Hc as [Ha Hc]. split; cbn; [rewrite llen_cons; lia|].
  intros client. rewrite leased_cons. pose proof (leased_nonneg client leases). destruct (decide (key = client)) as [->|Hne].
  - rewrite lookup_insert_eq, Hh. destruct (_ =? 0) eqn:E; go_bool; [lia|done].
  - rewrite lookup_insert_ne by done. rewrite Hc, Z.add_0_r. done.
Qed.

Lemma release_counts a leases n key : counts a leases -> leases !! n = Some key -> counts (release a key) (delete n leases).
Proof.
  intros Hc Hn. pose proof (counts_held _ _ key Hc) as Hh. destruct Hc as [Ha Hc]. unfold release. split; cbn [ad_active ad_clients].
  - unfold llen. rewrite length_delete by eauto. pose proof (lookup_lt_Some _ _ _ Hn). unfold llen in Ha. lia.
  - intros client. rewrite (leased_delete _ _ _ _ Hn), Hh. destruct (decide (key = client)) as [->|Hne].
    + destruct (leased client leases - 1 =? 0) eqn:E; [by rewrite lookup_delete_eq|by rewrite lookup_insert_eq].
    + rewrite Z.sub_0_r, <- Hc. destruct (_ =? 0); [by rewrite lookup_delete_ne|by rewrite lookup_insert_ne].
Qed.

(** Slots count the leases, within the bounds. *)
Definition slots_ok (s : admission * list string) : Prop :=
  counts s.1 s.2 /\ llen s.2 <= MaximumConcurrent /\ forall client, leased client s.2 <= MaximumPerClient.

Lemma slot_step_ok s e : slots_ok s -> slots_ok (slot_step s e).
Proof.
  destruct s as [a leases]. intros (Hc & Hn & Hm). cbn in *. destruct e as [done client|n]; cbn.
  - destruct (acquire a done client) as [[a' key]|] eqn:E; [|done]. apply acquire_ok in E as (_ & _ & _ & Ha & Hh & ->).
    rewrite (counts_held _ _ _ Hc) in Hh. destruct Hc as [Hact Hc'] eqn:Ec. split; [by apply acquire_counts|]. cbn. rewrite llen_cons.
    split; [lia|]. intros c. rewrite leased_cons. specialize (Hm c). case_decide; [subst|]; lia.
  - destruct (leases !! n) as [key|] eqn:E; [|done]. split; [by eapply release_counts|]. cbn. split.
    + unfold llen in *. rewrite length_delete by eauto. lia.
    + intros c. rewrite (leased_delete _ _ _ _ E). specialize (Hm c). case_decide; lia.
Qed.

Lemma slots_reachable events : slots_ok (slots events).
Proof.
  unfold slots. assert (slots_ok (newAdmission, [])) as H0.
  { split; [split; [done|intros c; apply lookup_empty]|]. by split; [|intros c]. }
  revert H0. generalize (newAdmission, @nil string). induction events as [|e events IH]; intros s Hs; [done|]. cbn. by apply IH, slot_step_ok.
Qed.

(** Giving back the slot that was just taken. *)
Lemma acquire_release a leases done client a' key : counts a leases -> acquire a done client = Ok (a', key) -> release a' key = a.
Proof.
  intros Hc (_ & _ & _ & _ & _ & ->)%acquire_ok. pose proof (counts_held _ _ key Hc) as Hh. destruct a as [active clients], Hc as [Ha Hc].
  unfold release, held in *. cbn in *. rewrite lookup_insert_eq. cbn. replace (active + 1 - 1) with active by lia. f_equal.
  rewrite insert_insert_eq, delete_insert_eq. pose proof (leased_nonneg key leases). specialize (Hc key). rewrite Hh.
  replace (leased key leases + 1 - 1) with (leased key leases) by lia. destruct (leased key leases =? 0); [by apply delete_id|by apply insert_id].
Qed.

(** ** Visibility *)

Section visibility.
Context (catalogGet : string -> result (list sentinel) (option MetricDefinition)).
Context (GetNode GetPublicNode : string -> result (list sentinel) (option Node)).
Context (deviceReader : option (string -> string -> bool -> result (list sentinel) (option Device))).
Context (ReadMetricQuery : Scan -> result (list sentinel) Values).

(** The node is one the caller may see: for a public caller, a public node. *)
Definition visible_node (access : Access) (id : string) : Prop :=
  exists node, (if ac_PublicOnly access then GetPublicNode id else GetNode id) = Ok (Some node).

(** The catalog defines the metric, it is enabled, and public when the caller is. *)
Definition visible_metric (access : Access) (key : string) (d : MetricDefinition) : Prop :=
  catalogGet key = Ok (Some d) /\ md_Enabled d = true /\ (ac_PublicOnly access = true -> md_Public d = true).

Definition visible_device (access : Access) (metric node device : string) : Prop :=
  ValidAcceleratorMetric metric = true ->
  exists read d, deviceReader = Some read /\ read node device (ac_PublicOnly access) = Ok (Some d).

Lemma unavailable_ok {A} (r : result (list sentinel) A) a : unavailable r = Ok a -> r = Ok a.
Proof. by destruct r. Qed.

Lemma checkNode_ok id access u : checkNode GetNode GetPublicNode id (ac_PublicOnly access) = Ok u -> visible_node access id.
Proof. unfold checkNode. intros (node & Hn%unavailable_ok & H)%bind_ok. destruct node as [node|]; [|done]. by exists node. Qed.

Lemma selectMetricAggregation_ok d requested public a : selectMetricAggregation d requested public = Ok a ->
  md_Enabled d = true /\ (public = true -> md_Public d = true) /\ a ∈ md_Aggregations d /\
  a = (if requested =s "" then md_DefaultAggregation d else requested).
Proof.
  unfold selectMetricAggregation. destruct (_ || _) eqn:E; [done|]. destruct (str_in _ _) eqn:Ei; [|done]. intros [= <-].
  apply str_in_spec in Ei. destruct (md_Enabled d), public, (md_Public d); try done.
Qed.

Lemma prepareDevice_ok s access r : prepareDevice deviceReader s (ac_PublicOnly access) = Ok r ->
  visible_device access (sr_Metric s) (sr_NodeID s) (sr_DeviceID s).
Proof.
  unfold prepareDevice, visible_device. intros H Hm. rewrite Hm in H. cbn in H. destruct deviceReader as [read|]; [|done].
  apply bind_ok in H as ([d|] & Hr & H); [|done]. by exists read, d.
Qed.

(** What a plan promises about the selection it was made for. *)
Definition plan_visible (access : Access) (interval : Duration) (count : Z) (request : Request) (s : SeriesRequest) (p : seriesPlan) : Prop :=
  exists d, visible_node access (sr_NodeID s) /\ visible_metric access (sr_Metric s) d /\
    visible_device access (sr_Metric s) (sr_NodeID s) (sr_DeviceID s) /\
    sn_Aggregation (sp_scan p) ∈ md_Aggregations d /\
    sn_Aggregation (sp_scan p) = (if sr_Aggregation s =s "" then md_DefaultAggregation d else sr_Aggregation s) /\
    sn_NodeID (sp_scan p) = sr_NodeID s /\ sp_refID p = sr_RefID s /\ md_Key (sp_definition p) = md_Key d /\
    sn_From (sp_scan p) = rq_From request /\ sn_Interval (sp_scan p) = interval /\ sn_Buckets (sp_scan p) = count.

(** The memo tables hold only what was checked. *)
Lemma prepare_loop_visible request access interval count nodes definitions series plans :
  (forall n, n ∈ nodes -> visible_node access n) ->
  (forall m d, definitions !! m = Some d -> catalogGet m = Ok (Some d)) ->
  prepare_loop catalogGet GetNode GetPublicNode deviceReader request access interval count nodes definitions series = Ok plans ->
  Forall2 (plan_visible access interval count request) series plans.
Proof.
  revert nodes definitions plans. induction series as [|s series IH]; intros nodes definitions plans Hn Hd H; [by injection H as <-|].
  cbn [prepare_loop] in H. apply bind_ok in H as (u & Hnode & H). apply bind_ok in H as (d & Hdef & H).
  apply bind_ok in H as (a & Ha & H). apply bind_ok in H as (dev & Hdev & H). apply bind_ok in H as (ps & Hps & H). injection H as <-.
  assert (visible_node access (sr_NodeID s)) as Hv.
  { destruct (bool_decide (sr_NodeID s ∈ nodes)) eqn:E; [apply bool_decide_eq_true in E; auto|by eapply checkNode_ok]. }
  assert (catalogGet (sr_Metric s) = Ok (Some d)) as Hc.
  { destruct (definitions !! sr_Metric s) as [d'|] eqn:E; [injection Hdef as <-; auto|].
    apply bind_ok in Hdef as ([d'|] & Hg%unavailable_ok & Hdef); [|done]. by injection Hdef as <-. }
  apply selectMetricAggregation_ok in Ha as (He & Hp & Hin & Heq). apply prepareDevice_ok in Hdev. constructor.
  - exists d. unfold visible_metric. cbn [sp_definition]. destruct (dev.2 =s ""); split_and!; done.
  - apply (IH _ _ _) in Hps; [done|set_solver|]. intros m d'. rewrite lookup_insert_Some. naive_solver.
Qed.

Definition series_visible (access : Access) (interval : Duration) (count : Z) (request : Request) (s : SeriesRequest) (r : Series) : Prop :=
  exists d, visible_node access (sr_NodeID s) /\ visible_metric access (sr_Metric s) d /\
    visible_device access (sr_Metric s) (sr_NodeID s) (sr_DeviceID s) /\
    ss_RefID r = sr_RefID s /\ ss_NodeID r = sr_NodeID s /\ ss_Metric r = md_Key d /\ ss_Aggregation r ∈ md_Aggregations d /\
    ss_Aggregation r = (if sr_Aggregation s =s "" then md_DefaultAggregation d else sr_Aggregation s) /\
    llen (ss_Points r) = count /\
    forall i p, ss_Points r !! i = Some p ->
      pt_Timestamp p = UnixMilli (Prelude.Add (rq_From request) (Z.of_nat i * interval)) /\
      (forall x, pt_Value p = Some x -> is_finite x = true).

Lemma valid_points_spec plan k points i p : valid_points plan k points = true -> points !! i = Some p ->
  pt_Timestamp p = bucketStart plan (k + i) /\ forall x, pt_Value p = Some x -> is_finite x = true.
Proof.
  revert k i. induction points as [|q points IH]; intros k i H Hi; [done|]. cbn in H. go_bool. destruct H as [[Ht Hv] H].
  destruct i as [|i]; cbn in Hi.
  - injection Hi as <-. rewrite Nat.add_0_r. split; [done|]. intros x Hx. by rewrite Hx in Hv.
  - replace (k + S i)%nat with (S k + i)%nat by lia. by apply IH.
Qed.

Lemma read_visible access interval count request s p r :
  plan_visible access interval count request s p -> read ReadMetricQuery p = Ok r -> series_visible access interval count request s r.
Proof.
  intros (d & Hn & Hm & Hd & Ha & Hq & Hnode & Href & Hkey & Hfrom & Hint & Hcount). unfold read.
  destruct (ReadMetricQuery (sp_scan p)) as [values|e]; [|by destruct (_ || _)].
  destruct (validReadValues (sp_scan p) values) eqn:Ev; [|done]. intros [= <-]. unfold validReadValues in Ev. go_bool. destruct Ev as [Hl Hp].
  exists d. cbn. rewrite Href, Hnode, Hkey, <- Hcount. split_and!; try done. intros i q Hi.
  destruct (valid_points_spec _ _ _ _ _ Hp Hi) as [Ht Hx]. split; [|done]. rewrite Ht. unfold bucketStart. by rewrite Hfrom, Hint.
Qed.

Lemma read_all_visible access interval count request series plans rs :
  Forall2 (plan_visible access interval count request) series plans -> read_all ReadMetricQuery plans = Ok rs ->
  Forall2 (series_visible access interval count request) series rs.
Proof.
  intros H. revert rs. induction H as [|s p series plans Hp _ IH]; intros rs Hr; cbn in Hr; [by injection Hr as <-|].
  apply bind_ok in Hr as (r & Hr & Hrs). apply bind_ok in Hrs as (rs' & Hrs & [= <-]). constructor; [by eapply read_visible|by apply IH].
Qed.

Lemma timeoutError_ok {A} expired (r : result (list sentinel) A) a : timeoutError expired r = Ok a -> r = Ok a.
Proof. destruct r as [|e]; cbn; [done|]. by destruct (is_error e ErrTimeout), (is_error e DeadlineExceeded || expired). Qed.

(** ** The latest values *)

Definition latest_visible (access : Access) (s : LatestSeriesRequest) (r : LatestSeries) : Prop :=
  exists d, visible_node access (lr_NodeID s) /\ visible_metric access (lr_Metric s) d /\
    ls_RefID r = lr_RefID s /\ ls_NodeID r = lr_NodeID s /\ ls_Metric r = md_Key d /\
    (ls_State r = "ok" <-> is_Some (ls_Value r)) /\ forall x, ls_Value r = Some x -> is_finite x = true.

Definition latest_plan_visible (access : Access) (s : LatestSeriesRequest) (p : latestPlan) : Prop :=
  visible_node access (lr_NodeID s) /\ visible_metric access (lr_Metric s) (lp_definition p) /\
  lc_NodeID (lp_scan p) = lr_NodeID s /\ lp_refID p = lr_RefID s.

Lemma prepareLatest_loop_visible access nodes definitions series plans :
  (forall n, n ∈ nodes -> visible_node access n) ->
  (forall m d, definitions !! m = Some d -> visible_metric access m d) ->
  prepareLatest_loop catalogGet GetNode GetPublicNode access nodes definitions series = Ok plans ->
  Forall2 (latest_plan_visible access) series plans.
Proof.
  revert nodes definitions plans. induction series as [|s series IH]; intros nodes definitions plans Hn Hd H; [by injection H as <-|].
  cbn [prepareLatest_loop] in H. apply bind_ok in H as (u & Hnode & H). apply bind_ok in H as (d & Hdef & H).
  apply bind_ok in H as (ps & Hps & H). injection H as <-.
  assert (visible_node access (lr_NodeID s)) as Hv.
  { destruct (bool_decide (lr_NodeID s ∈ nodes)) eqn:E; [apply bool_decide_eq_true in E; auto|by eapply checkNode_ok]. }
  assert (visible_metric access (lr_Metric s) d) as Hc.
  { destruct (definitions !! lr_Metric s) as [d'|] eqn:E; [injection Hdef as <-; auto|].
    apply bind_ok in Hdef as ([d'|] & Hg%unavailable_ok & Hdef); [|done]. unfold visible_metric. rewrite Hg.
    destruct (md_Enabled d') eqn:He, (ac_PublicOnly access), (md_Public d') eqn:Hp; cbn in Hdef; try done; injection Hdef as <-; by split_and!. }
  constructor; [done|]. apply (IH _ _ _) in Hps; [done|set_solver|]. intros m d'. rewrite lookup_insert_Some. naive_solver.
Qed.

Lemma readLatest_all_visible reader access series plans rs :
  Forall2 (latest_plan_visible access) series plans -> readLatest_all reader plans = Ok rs -> Forall2 (latest_visible access) series rs.
Proof.
  intros H. revert rs. induction H as [|s p series plans (Hn & Hm & Hnode & Href) _ IH]; intros rs Hr; cbn in Hr; [by injection Hr as <-|].
  apply bind_ok in Hr as (r & Hr & Hrs). apply bind_ok in Hrs as (rs' & Hrs & [= <-]). constructor; [|by apply IH].
  unfold readLatest in Hr. destruct (reader (lp_scan p)) as [v|e]; [|by destruct (_ || _) in Hr].
  destruct (lv_Found v); cbn [negb] in Hr.
  - destruct (is_finite (lv_Value v)) eqn:Ef; cbn in Hr; [|done]. destruct (lv_SampleAt v =? 0); [done|]. injection Hr as <-.
    exists (lp_definition p). cbn. split_and!; try done. by intros x [= <-].
  - injection Hr as <-. exists (lp_definition p). cbn. split_and!; done || (split; [done|by intros []]).
Qed.
End visibility.

(** ** Theorems *)

(** The slots of metric queries are exact. Whatever queries came and went, in any
    order, the admission counts exactly the queries in progress: at most eight in all and
    two for a client, a client without a query takes no memory, and the next query of a
    client whose key is short enough gets a slot exactly when there are fewer than eight
    queries in progress and fewer than two of its own; otherwise it is told that the
    capacity is exceeded. *)
Theorem query_slots_exact events :
  let '(a, leases) := slots events in
  ad_active a = llen leases /\ llen leases <= 8 /\
  (forall client, held a client = leased client leases /\ leased client leases <= 2 /\
                  (ad_clients a !! client = None <-> client ∉ leases)) /\
  (forall client, len client <= MaximumNodeIDBytes ->
    if bool_decide (llen leases < 8 /\ leased (clientKey client) leases < 2)
    then is_ok (acquire a None client) = true else acquire a None client = Err [ErrCapacity]).
Proof.
  pose proof (slots_reachable events) as H. destruct (slots events) as [a leases]. destruct H as (Hc & Hn & Hm). cbn [fst snd] in *.
  split; [apply Hc|]. split; [done|]. split.
  - intros client. split; [by apply counts_held|]. split; [apply Hm|]. rewrite (proj2 Hc client).
    rewrite <- (leased_zero client leases). destruct (_ =? 0) eqn:E; go_bool; naive_solver.
  - intros client Hl. unfold acquire. rewrite (counts_held _ _ _ Hc), (proj1 Hc), Z.gtb_ltb, !Z.geb_leb.
    unfold MaximumConcurrent, MaximumPerClient. destruct (_ <? len client) eqn:E; go_bool; [lia|].
    case_bool_decide as Hb; destruct (_ || _) eqn:Eb; rewrite ?orb_true_iff, ?orb_false_iff in Eb; go_bool; try lia; done.
Qed.

(** A query shows only what its caller may see. When [Query] answers, the answer has
    one series for each requested one, in order; its node is one the caller's reader
    returned (a public node for a public caller), its metric is in the catalog, enabled,
    and public for a public caller, its aggregation is the requested one or the default
    and one the catalog allows, a device of an accelerator metric was visible too, and it
    has the planned number of points, at the starts of the buckets, all finite. Whether
    it answers or fails, the slot it took is given back. *)
Theorem query_visibility catalogGet GetNode GetPublicNode deviceReader ReadMetricQuery a leases done expired request access :
  counts a leases ->
  let '(r, a') := Query catalogGet GetNode GetPublicNode deviceReader ReadMetricQuery a done expired request access in
  a' = a /\
  forall response, r = Ok response ->
    exists interval count, ValidateRequest request = Ok (interval, count) /\
      rs_From response = rq_From request /\ rs_To response = rq_To request /\ rs_IntervalMS response = Milliseconds interval /\
      Forall2 (series_visible catalogGet GetNode GetPublicNode deviceReader access interval count request) (rq_Series request) (rs_Series response).
Proof.
  intros Hc. unfold Query. destruct (ValidateRequest request) as [[interval count]|] eqn:Ev; [|done].
  destruct (acquire a done (ac_ClientKey access)) as [[a' key]|e] eqn:Ea.
  2: { split; [done|]. intros response H%timeoutError_ok. done. }
  split; [by eapply acquire_release|]. intros response H%timeoutError_ok. unfold queryWithin in H.
  apply bind_ok in H as (plans & Hp & H). apply bind_ok in H as (rs & Hr & [= <-]). exists interval, count. cbn. split_and!; try done.
  eapply read_all_visible; [|done]. eapply prepare_loop_visible; [| |exact Hp]; [set_solver|]. intros m d. by rewrite lookup_empty.
Qed.

(** Latest values are bound by the same rules. When [Latest] answers, there is one
    series for each requested one, its node and metric are ones the caller may see, it
    is "ok" exactly when it has a value, and the value is finite; and the slot is given
    back, answer or not. *)
Theorem latest_visibility catalogGet GetNode GetPublicNode latest a leases done expired request access :
  counts a leases ->
  let '(r, a') := Latest catalogGet GetNode GetPublicNode latest a done expired request access in
  a' = a /\ forall series, r = Ok series -> Forall2 (latest_visible catalogGet GetNode GetPublicNode access) request series.
Proof.
  intros Hc. unfold Latest. destruct (ValidateLatestRequest request) as [u|]; [|done]. destruct latest as [reader|]; [|done].
  destruct (acquire a done (ac_ClientKey access)) as [[a' key]|e] eqn:Ea.
  2: { split; [done|]. intros series H%timeoutError_ok. done. }
  split; [by eapply acquire_release|]. intros series H%timeoutError_ok. unfold latestWithin in H.
  apply bind_ok in H as (plans & Hp & H). eapply readLatest_all_visible; [|done].
  eapply prepareLatest_loop_visible; [| |exact Hp]; [set_solver|]. intros m d. by rewrite lookup_empty.
Qed.

(** Whatever the aggregation returns passes the service's check of what it read. *)
Lemma aggregated_values_accepted plan samples points from :
  Points (run plan samples) = Ok points -> llen points = sn_Buckets plan -> validReadValues plan (mkValues from points) = true.
Proof.
  intros (_ & _ & Hv)%Points_run Hl. unfold validReadValues. cbn [vl_Points]. rewrite Hl, Z.eqb_refl. cbn.
  assert (forall k ps, (forall i p, ps !! i = Some p -> exists b, bucketPoint plan (k + i) b = Some p) -> valid_points plan k ps = true) as H.
  { intros k ps. revert k. induction ps as [|p ps IH]; intros k H; [done|]. cbn. rewrite IH, andb_true_r.
    - destruct (H 0%nat p eq_refl) as [b Hb]. rewrite Nat.add_0_r in Hb. unfold bucketPoint in Hb.
      destruct (bk_count b =? 0); [injection Hb as <-; cbn; by rewrite Z.eqb_refl|].
      destruct (negb (is_finite _)) eqn:E in Hb; [done|]. apply negb_false_iff in E. injection Hb as <-. cbn. by rewrite Z.eqb_refl, E.
    - intros i q Hi. destruct (H (S i) q Hi) as [b Hb]. exists b. by replace (S k + i)%nat with (k + S i)%nat by lia. }
  apply H. intros i p Hi. destruct (Hv i p Hi) as (b & _ & Hb). by exists b.
Qed.

(** ** Concrete services *)

Definition sample_definition : MetricDefinition := builtinDefinition (mkSeed "cpu" "CPU usage" "percent").
Definition sample_catalog (key : string) : result (list sentinel) (option MetricDefinition) :=
  Ok (if key =s "cpu" then Some sample_definition else None).
Definition sample_nodes (id : string) : result (list sentinel) (option Node) :=
  Ok (if id =s "node-1" then Some (mkNode "node-1" "one" "" "") else None).
Definition sample_store (scan : Scan) : result (list sentinel) Values :=
  let* points := Points (run scan sample_samples) in Ok (mkValues None points).
Definition sample_latest (scan : LatestScan) : result (list sentinel) LatestValue := Ok (mkLatestValue true (at_second 6) (f_of_Z 1)).
Definition sample_access : Access := mkAccess true "203.0.113.7".
Definition sample_selection (metric node : string) : SeriesRequest := mkSeriesRequest "" "a" node metric "avg".
Definition sample_query (metric node : string) : Request := mkRequest (at_second 0) (at_second 10) 2 [sample_selection metric node].

Example query_answers :
  match Query sample_catalog sample_nodes sample_nodes None sample_store newAdmission None false (sample_query "cpu" "node-1") sample_access with
  | (Ok response, a) => a = newAdmission /\
      map ss_Points (rs_Series response) = [[mkPoint 0 (Some (f_of_Z 6)); mkPoint 5000 (Some (f_of_Z 1))]]
  | _ => False
  end.
Proof. vm_compute. done. Qed.

Example query_refuses_hidden_node :
  (Query sample_catalog sample_nodes sample_nodes None sample_store newAdmission None false (sample_query "cpu" "node-2") sample_access).1
  = Err [ErrInvalid].
Proof. vm_compute. reflexivity. Qed.

Lemma query_visibility_witness : counts newAdmission [] /\
  match Query sample_catalog sample_nodes sample_nodes None sample_store newAdmission None false (sample_query "cpu" "node-1") sample_access with
  | (Ok response, a) => a = newAdmission /\ llen (rs_Series response) = 1
  | _ => False
  end.
Proof.
  assert (counts newAdmission []) as Hc by (split; [done|intros c; apply lookup_empty]). split; [exact Hc|].
  pose proof (query_visibility sample_catalog sample_nodes sample_nodes None sample_store newAdmission [] None false
    (sample_query "cpu" "node-1") sample_access Hc) as H.
  destruct (Query _ _ _ _ _ _ _ _ _ _) as [[response|e] a] eqn:E; [|exfalso; revert E; vm_compute; done].
  destruct H as [-> H]. split; [done|]. destruct (H _ eq_refl) as (i & c & _ & _ & _ & _ & Hf). apply Forall2_length in Hf. unfold llen. by rewrite <- Hf.
Defined.

Lemma latest_visibility_witness :
  match Latest sample_catalog sample_nodes sample_nodes (Some sample_latest) newAdmission None false
          [mkLatestSeriesRequest "a" "node-1" "cpu"] sample_access with
  | (Ok series, a) => a = newAdmission /\ llen series = 1
  | _ => False
  end.
Proof.
  assert (counts newAdmission []) as Hc by (split; [done|intros c; apply lookup_empty]).
  pose proof (latest_visibility sample_catalog sample_nodes sample_nodes (Some sample_latest) newAdmission [] None false
    [mkLatestSeriesRequest "a" "node-1" "cpu"] sample_access Hc) as H.
  destruct (Latest _ _ _ _ _ _ _ _ _) as [[series|e] a] eqn:E; [|exfalso; revert E; vm_compute; done].
  destruct H as [-> H]. split; [done|]. pose proof (Forall2_length _ _ _ (H _ eq_refl)) as Hf. unfold llen. by rewrite <- Hf.
Defined.
