(* ===== verification/GoTable.v ===== *)
(** * Tables and transactions

    What the components that keep their state in SQL share: a table is a finite map from
    its primary key to its rows, a statement a function on tables, and a transaction a
    function from a state that gives a value and the next state, or an error, after which
    the state is the one before. *)

From S2P Require Import Prelude GoText.

(** ** Statements *)

(** [UPDATE ... SET f WHERE c] over a whole table. *)
Definition update_where `{Countable K} {V} (c : K -> V -> bool) (f : V -> V) (m : gmap K V) : gmap K V :=
  map_imap (fun k v => Some (if c k v then f v else v)) m.
(** [DELETE ... WHERE c]. *)
Definition delete_where `{Countable K} {V} (c : K -> V -> bool) (m : gmap K V) : gmap K V :=
  filter (fun kv => c kv.1 kv.2 = false) m.
(** [SELECT ... WHERE c], in any order; [EXISTS] and [COUNT]. *)
Definition rows_where `{Countable K} {V} (c : K -> V -> bool) (m : gmap K V) : list (K * V) :=
  filter (fun kv => c kv.1 kv.2 = true) (map_to_list m).
Definition exists_where `{Countable K} {V} (c : K -> V -> bool) (m : gmap K V) : bool :=
  existsb (fun kv => c kv.1 kv.2) (map_to_list m).
Definition count_where `{Countable K} {V} (c : K -> V -> bool) (m : gmap K V) : Z := llen (rows_where c m).
(** [ORDER BY]: by an integer column, then by the key. *)
Definition by_key {V} (a b : Z * (string * V)) : Prop :=
  a.1 < b.1 \/ a.1 = b.1 /\ (str_lt b.2.1 a.2.1 = false).
#[export] Instance by_key_dec {V} : RelDecision (@by_key V).
Proof. intros a b. unfold by_key. apply _. Defined.
Definition ordered {V} (column : string -> V -> Z) (rows : list (string * V)) : list (string * V) :=
  (merge_sort by_key ((fun kv => (column kv.1 kv.2, kv)) <$> rows)).*2.

(** ** Transactions *)

Definition Tx (E W A : Type) : Type := W -> result E (A * W).

Section monad.
Context {E W : Type}.

Definition ret {A} (a : A) : Tx E W A := fun w => Ok (a, w).
Definition fail {A} (e : E) : Tx E W A := fun _ => Err e.
Definition andThen {A B} (m : Tx E W A) (k : A -> Tx E W B) : Tx E W B :=
  fun w => match m w with Ok (a, w) => k a w | Err e => Err e end.
Definition lift {A} (r : result E A) : Tx E W A := fun w => match r with Ok a => Ok (a, w) | Err e => Err e end.
Definition when (b : bool) (m : Tx E W unit) : Tx E W unit := if b then m else ret tt.
Fixpoint each {A} (f : A -> Tx E W unit) (l : list A) : Tx E W unit :=
  match l with [] => ret tt | a :: rest => andThen (f a) (fun _ => each f rest) end.

Lemma andThen_ok {A B} (m : Tx E W A) (k : A -> Tx E W B) w r :
  andThen m k w = Ok r -> exists a w1, m w = Ok (a, w1) /\ k a w1 = Ok r.
Proof. unfold andThen. destruct (m w) as [[a w1]|e]; [|done]. eauto. Qed.

Lemma ret_ok {A} (a b : A) w w1 : ret a w = Ok (b, w1) -> b = a /\ w1 = w.
Proof. unfold ret. naive_solver. Qed.

Lemma lift_ok {A} (r : result E A) w a w1 : lift r w = Ok (a, w1) -> r = Ok a /\ w1 = w.
Proof. unfold lift. destruct r; naive_solver. Qed.
End monad.

(** Reading and writing a state that is the tables themselves. *)
Section statements.
Context {E W : Type}.
Definition query {A} (f : W -> A) : Tx E W A := fun w => Ok (f w, w).
Definition exec (f : W -> W) : Tx E W unit := fun w => Ok (tt, f w).
Definition require {A} (o : option A) (e : E) : Tx E W A := match o with Some a => ret a | None => fail e end.

Lemma query_val {A} (f : W -> A) d a d' : query f d = Ok (a, d') -> a = f d /\ d' = d.
Proof. by intros [= <- <-]. Qed.
Lemma require_val {A} (o : option A) e d a d' : require o e d = Ok (a, d') -> o = Some a /\ d' = d.
Proof. destruct o; [by intros [-> ->]%ret_ok|done]. Qed.
Lemma exec_val f d a d' : exec f d = Ok (a, d') -> d' = f d.
Proof. by intros [= _ <-]. Qed.

(** A transaction that only reads, and one that keeps a property. *)
Definition reads {A} (m : Tx E W A) : Prop := forall d a d', m d = Ok (a, d') -> d' = d.
Definition preserves {A} (P : W -> Prop) (m : Tx E W A) : Prop := forall d a d', P d -> m d = Ok (a, d') -> P d'.

Lemma reads_then {A B} (m : Tx E W A) (k : A -> Tx E W B) : reads m -> (forall a, reads (k a)) -> reads (andThen m k).
Proof. intros Hm Hk d b d' (a & d1 & H1 & H2)%andThen_ok. apply Hm in H1 as ->. by eapply Hk. Qed.
Lemma reads_ret {A} (a : A) : reads (ret a).
Proof. by intros d b d' [_ ->]%ret_ok. Qed.
Lemma reads_fail {A} e : reads (fail e : Tx E W A).
Proof. done. Qed.
Lemma reads_query {A} (f : W -> A) : reads (query f).
Proof. by intros d b d' [= _ <-]. Qed.
Lemma reads_require {A} (o : option A) e : reads (require o e).
Proof. destruct o; [apply reads_ret|apply reads_fail]. Qed.
Lemma reads_lift {A} (r : result E A) : reads (lift r).
Proof. by intros d b d' [_ ->]%lift_ok. Qed.
Lemma reads_when b m : reads m -> reads (when b m).
Proof. destruct b; [done|]. intros _. apply reads_ret. Qed.
Lemma reads_each {A} (f : A -> Tx E W unit) l : (forall a, reads (f a)) -> reads (each f l).
Proof. intros Hf. induction l as [|a l IH]; cbn; [apply reads_ret|]. by apply reads_then. Qed.

Lemma preserves_then {A B} P (m : Tx E W A) (k : A -> Tx E W B) : preserves P m -> (forall a, preserves P (k a)) -> preserves P (andThen m k).
Proof. intros Hm Hk d b d' Hd (a & d1 & H1 & H2)%andThen_ok. eapply Hk; [|done]. by eapply Hm. Qed.
Lemma preserves_reads {A} P (m : Tx E W A) : reads m -> preserves P m.
Proof. intros Hm d a d' Hd H. by apply Hm in H as ->. Qed.
Lemma preserves_when P b m : preserves P m -> preserves P (when b m).
Proof. destruct b; [done|]. intros _. apply preserves_reads, reads_ret. Qed.
Lemma preserves_exec (P : W -> Prop) f : (forall d, P d -> P (f d)) -> preserves P (exec f).
Proof. intros Hf d a d' Hd [= _ <-]. auto. Qed.
Lemma preserves_each {A} P (f : A -> Tx E W unit) l : (forall a, preserves P (f a)) -> preserves P (each f l).
Proof. intros Hf. induction l as [|a l IH]; cbn; [apply preserves_reads, reads_ret|]. by apply preserves_then. Qed.
End statements.

(** Case analysis of the conditionals of a transaction. *)
Ltac cases :=
  repeat match goal with
  | |- reads (match ?x with _ => _ end) => destruct x
  | |- preserves _ (match ?x with _ => _ end) => destruct x
  end.

Notation "x <~ m ;; k" := (andThen m (fun x => k)) (at level 100, m at next level, k at level 200, right associativity) : go_scope.
Notation "m >>> k" := (andThen m (fun _ => k)) (at level 100, k at level 200, right associativity) : go_scope.

(** ** Facts about tables *)

Section tables.
Context `{Countable K} {V : Type}.
Implicit Types (m : gmap K V) (c : K -> V -> bool).

Lemma lookup_update_where c f m k : update_where c f m !! k = (fun v => if c k v then f v else v) <$> m !! k.
Proof. unfold update_where. rewrite map_lookup_imap. by destruct (m !! k). Qed.

Lemma lookup_delete_where c m k v : delete_where c m !! k = Some v <-> m !! k = Some v /\ c k v = false.
Proof. unfold delete_where. apply map_lookup_filter_Some. Qed.

Lemma elem_of_rows_where c m k v : (k, v) ∈ rows_where c m <-> m !! k = Some v /\ c k v = true.
Proof. unfold rows_where. rewrite list_elem_of_filter, elem_of_map_to_list. cbn. tauto. Qed.

Lemma exists_where_spec c m : exists_where c m = true <-> exists k v, m !! k = Some v /\ c k v = true.
Proof.
  unfold exists_where. rewrite existsb_exists. split.
  - intros ([k v] & Hin & Hc). exists k, v. by rewrite <- elem_of_map_to_list, list_elem_of_In.
  - intros (k & v & Hm & Hc). exists (k, v). by rewrite <- list_elem_of_In, elem_of_map_to_list.
Qed.

Lemma exists_where_false c m k v : exists_where c m = false -> m !! k = Some v -> c k v = false.
Proof. intros He Hm. apply not_true_iff_false. intros Hc. apply not_true_iff_false in He. apply He, exists_where_spec. eauto. Qed.

Definition selected_keys c m : gset K := dom (filter (fun kv => c kv.1 kv.2 = true) m).

Lemma elem_of_selected_keys c m k : k ∈ selected_keys c m <-> exists v, m !! k = Some v /\ c k v = true.
Proof. unfold selected_keys. rewrite elem_of_dom. unfold is_Some. by setoid_rewrite map_lookup_filter_Some. Qed.

Lemma count_where_size c m : count_where c m = Z.of_nat (size (selected_keys c m)).
Proof.
  unfold count_where, rows_where, selected_keys, llen. rewrite size_dom, <- length_map_to_list. f_equal. apply Permutation_length.
  apply NoDup_Permutation; [apply NoDup_filter, NoDup_map_to_list|apply NoDup_map_to_list|]. intros [k v].
  rewrite list_elem_of_filter, !elem_of_map_to_list, map_lookup_filter_Some. cbn. tauto.
Qed.

(** Rows that come from rows that counted are no more than these. *)
Lemma count_where_mono c m m' :
  (forall k v', m' !! k = Some v' -> c k v' = true -> exists v, m !! k = Some v /\ c k v = true) -> count_where c m' <= count_where c m.
Proof.
  intros Hm. rewrite !count_where_size. apply inj_le, subseteq_size. intros k (v' & Hv & Hc)%elem_of_selected_keys.
  apply elem_of_selected_keys. eauto.
Qed.

Lemma count_where_insert c m k v : count_where c (<[k := v]> m) <= count_where c m + 1.
Proof.
  rewrite !count_where_size. assert (selected_keys c (<[k := v]> m) ⊆ {[k]} ∪ selected_keys c m) as Hs.
  { intros j (v' & [[-> ->]|[Hne Hj]]%lookup_insert_Some & Hc)%elem_of_selected_keys; [set_solver|].
    apply elem_of_union_r, elem_of_selected_keys. eauto. }
  apply subseteq_size in Hs. pose proof (size_union_alt {[k]} (selected_keys c m)) as Hu. rewrite size_singleton in Hu.
  pose proof (subseteq_size (selected_keys c m ∖ {[k]}) (selected_keys c m) ltac:(set_solver)). lia.
Qed.
(** Rows that count after one of them was written. *)
Lemma count_where_more c m k v' : (forall v, m !! k = Some v -> c k v = false) -> c k v' = true -> count_where c (<[k := v']> m) = count_where c m + 1.
Proof.
  intros Hv Hc. rewrite !count_where_size. assert (selected_keys c (<[k := v']> m) = {[k]} ∪ selected_keys c m) as ->.
  { apply set_eq. intros j. rewrite elem_of_union, elem_of_singleton, !elem_of_selected_keys. split.
    - intros (v & [[-> ->]|[Hne Hj]]%lookup_insert_Some & Hx); [by left|right; eauto].
    - intros [->|(v & Hj & Hx)]; [exists v'; by rewrite lookup_insert_eq|]. destruct (decide (j = k)) as [->|Hne]; [rewrite (Hv _ Hj) in Hx; done|].
      exists v. by rewrite lookup_insert_ne. }
  rewrite size_union by (apply disjoint_singleton_l; rewrite elem_of_selected_keys; intros (v & Hk & Hx); rewrite (Hv _ Hk) in Hx; done).
  rewrite size_singleton. lia.
Qed.
Lemma count_where_same c m k v' : c k v' = match m !! k with Some v => c k v | None => false end -> count_where c (<[k := v']> m) = count_where c m.
Proof.
  intros Hc. apply Z.le_antisymm; apply count_where_mono; intros j v.
  - intros [[<- <-]|[Hne Hj]]%lookup_insert_Some Hx; [|eauto]. rewrite Hx in Hc. destruct (m !! k) as [w|]; [eauto|done].
  - intros Hj Hx. destruct (decide (j = k)) as [->|Hne]; [|exists v; by rewrite lookup_insert_ne]. exists v'. rewrite lookup_insert_eq, Hc, Hj. done.
Qed.

Lemma count_where_nonneg c m : 0 <= count_where c m.
Proof. rewrite count_where_size. lia. Qed.
Lemma count_where_zero c m : (forall k v, m !! k = Some v -> c k v = false) -> count_where c m = 0.
Proof.
  intros Hc. rewrite count_where_size. replace (selected_keys c m) with (∅ : gset K); [done|]. apply leibniz_equiv. intros k. split; [set_solver|].
  intros (v & Hv & Ht)%elem_of_selected_keys. by rewrite (Hc k v Hv) in Ht.
Qed.
Lemma count_where_some c m k v : m !! k = Some v -> c k v = true -> 0 < count_where c m.
Proof.
  intros Hk Hc. rewrite count_where_size. assert (k ∈ selected_keys c m) as Hin by (apply elem_of_selected_keys; eauto).
  destruct (decide (size (selected_keys c m) = 0%nat)) as [E|E]; [|lia]. apply size_empty_inv in E. set_solver.
Qed.
Lemma count_where_one c m k0 : (forall k v, m !! k = Some v -> c k v = true -> k = k0) -> count_where c m <= 1.
Proof.
  intros Hc. rewrite count_where_size. pose proof (subseteq_size (selected_keys c m) {[k0]}) as Hs. rewrite size_singleton in Hs.
  assert (selected_keys c m ⊆ {[k0]}) as Hsub; [|specialize (Hs Hsub); lia]. intros k (v & Hv & Ht)%elem_of_selected_keys. apply elem_of_singleton. by eapply Hc.
Qed.

(** The first of the rows selected. *)
Lemma head_rows_where c m k v : head (rows_where c m) = Some (k, v) -> m !! k = Some v /\ c k v = true.
Proof.
  destruct (rows_where c m) as [|x l] eqn:E; [done|]. intros [= ->]. apply elem_of_rows_where. rewrite E. by left.
Qed.
(** One row that an update by its key changes. *)
Lemma alter_inserted (f : V -> V) id m v : m !! id = Some v -> alter f id m = <[id := f v]> m.
Proof.
  intros Hv. apply map_eq. intros j. destruct (decide (j = id)) as [->|Hne]; [by rewrite lookup_alter_eq, lookup_insert_eq, Hv|by rewrite lookup_alter_ne, lookup_insert_ne].
Qed.
End tables.

Lemma NoDup_rows_where `{Countable K} {V} (c : K -> V -> bool) (m : gmap K V) : NoDup (rows_where c m).
Proof. apply NoDup_filter, NoDup_map_to_list. Qed.

Lemma ordered_Permutation {V} (column : string -> V -> Z) rows : ordered column rows ≡ₚ rows.
Proof.
  unfold ordered. rewrite merge_sort_Permutation, <- list_fmap_compose. rewrite (list_fmap_ext _ id); [by rewrite list_fmap_id|done].
Qed.

Lemma elem_of_ordered {V} (column : string -> V -> Z) rows kv : kv ∈ ordered column rows <-> kv ∈ rows.
Proof. by rewrite ordered_Permutation. Qed.
