(* ===== verification/NoticeTemplate.v ===== *)
(** * Notifications: templates

    [internal/notification/declarative_template.go], the template part of
    [presentation.go] and the escaping of [template.go]: a template is compiled to
    literals and variables, and rendered with the data of a message within a budget of
    bytes. Maps are finite maps; the members of a JSON object are a list of pairs in any
    order. *)

From S2P Require Import Prelude GoText GoNumber.

Inductive templateError := ErrTemplate.

(** ** declarative_template.go *)

(** [pt_Literal] or [pt_Variable] is empty in each part. *)
Record TemplatePart := mkPart { pt_Literal : string; pt_Variable : string }.

Definition messageVariables : list string :=
  ["event.kind"; "event.status"; "event.severity"; "event.message"; "event.occurred_at";
   "node.id"; "node.name"; "node.group_name"; "node.labels"; "rule.id"; "rule.name";
   "metric.name"; "metric.value"; "metric.formatted_value"; "site.title"; "site.public_base_url";
   "security.authentication_method"; "security.source_summary"; "security.location_summary"; "security.device_summary";
   "delivery.id"; "delivery.attempt"; "subject"; "text";
   "evaluation.status"; "evaluation.reason"; "evaluation.epoch"].

(** [secretNamePattern]: a letter, then at most 31 letters, digits and underscores. *)
Definition letter (b : Z) : bool := between 65 90 b || between 97 122 b.
Definition name_byte (b : Z) : bool := letter b || between 48 57 b || (b =? 95).
Definition secretName (s : string) : bool :=
  match bytes s with [] => false | b :: rest => letter b && (llen rest <=? 31) && forallb name_byte rest end.

Definition validTemplateVariable (name : string) (allowSecrets : bool) : bool :=
  str_in name messageVariables || allowSecrets && HasPrefix name "secret." && secretName (TrimPrefix name "secret.").

(** [strings.Index], with [None] for -1. *)
Fixpoint Index (s sub : string) : option nat :=
  if HasPrefix s sub then Some O else
  match s with EmptyString => None | String _ t => S <$> Index t sub end.

(** The loop, which every variable takes four bytes further at least. *)
Fixpoint compile_loop (fuel : nat) (template : string) (allowSecrets : bool) : result templateError (list TemplatePart) :=
  match fuel with
  | O => Err ErrTemplate
  | S fuel =>
      if template =s "" then Ok [] else
      match Index template "{{" with
      | None => if Contains template "}}" then Err ErrTemplate else Ok [mkPart template ""]
      | Some start =>
          let before := str_take start template in
          if (0 <? start)%nat && Contains before "}}" then Err ErrTemplate else
          let literal := if (0 <? start)%nat then [mkPart before ""] else [] in
          let after := str_drop (start + 2) template in
          match Index after "}}" with
          | None => Err ErrTemplate
          | Some stop =>
              let name := str_take stop after in
              if negb (validTemplateVariable name allowSecrets) then Err ErrTemplate else
              let* rest := compile_loop fuel (str_drop (stop + 2) after) allowSecrets in
              Ok (literal ++ mkPart "" name :: rest)
          end
      end
  end.

Definition CompileTemplate (template : string) (allowSecrets : bool) : result templateError (list TemplatePart) :=
  if negb (ValidString template) || (len template >? 32 * 1024) || existsb (Z.eqb 0) (runes template) then Err ErrTemplate else
  compile_loop (S (String.length template)) template allowSecrets.

Record TemplateValues := mkValues {
  tv_Data : gmap string string; tv_Secrets : gmap string string; tv_Maximum : Z; tv_Escape : option (string -> string) }.

(** The text a part stands for. *)
Definition part_value (v : TemplateValues) (p : TemplatePart) : result templateError string :=
  if pt_Variable p =s "" then Ok (pt_Literal p) else
  let* value := if HasPrefix (pt_Variable p) "secret." then
                  match tv_Secrets v !! TrimPrefix (pt_Variable p) "secret." with
                  | Some value => if value =s "" then Err ErrTemplate else Ok value
                  | None => Err ErrTemplate
                  end
                else Ok (default "" (tv_Data v !! pt_Variable p)) in
  Ok (match tv_Escape v with Some escape => escape value | None => value end).

Fixpoint render_loop (output : string) (parts : list TemplatePart) (v : TemplateValues) : result templateError string :=
  match parts with
  | [] => Ok output
  | p :: rest =>
      let* value := part_value v p in
      if len output + len value >? tv_Maximum v then Err ErrTemplate else render_loop (output +:+ value) rest v
  end.
Definition RenderDeclarative (parts : list TemplatePart) (v : TemplateValues) : result templateError string := render_loop "" parts v.

(** ** presentation.go and template.go *)

Definition renderMessagePart (template fallback : string) (v : TemplateValues) : result templateError string :=
  if template =s "" then
    let fallback := match tv_Escape v with Some escape => escape fallback | None => fallback end in
    if len fallback >? tv_Maximum v then Err ErrTemplate else Ok fallback
  else
    let* parts := CompileTemplate template false in
    RenderDeclarative parts v.

Definition markdown_reserved (b : Z) : bool :=
  existsb (Z.eqb b) [92; 95; 42; 91; 93; 40; 41; 126; 96; 62; 35; 43; 45; 61; 124; 123; 125; 46; 33].
(** The reserved characters are single bytes. [WriteRune] of an invalid byte writes the
    three bytes of U+FFFD. *)
Definition escape_rune (x : Z * list Z * bool) : list Z :=
  (if markdown_reserved (rune x) then [92] else []) ++ (if x.2 then x.1.2 else [239; 191; 189]).
Definition EscapeMarkdownV2 (value : string) : string := of_bytes (concat (map escape_rune (runes_of (bytes value)))).

(** [html.EscapeString]. *)
Definition escape_html_byte (b : Z) : list Z :=
  if b =? 38 then [38; 97; 109; 112; 59] else if b =? 39 then [38; 35; 51; 57; 59] else if b =? 60 then [38; 108; 116; 59] else
  if b =? 62 then [38; 103; 116; 59] else if b =? 34 then [38; 35; 51; 52; 59] else [b].
Definition EscapeString (value : string) : string := of_bytes (concat (map escape_html_byte (bytes value))).

Record Payload := mkPayload { py_Subject : string; py_Text : string; py_Data : gmap string string }.
Record Dispatch := mkDispatch {
  dp_DeliveryID : string; dp_ChannelType : string; dp_Attempt : Z; dp_TemplateSubject : string; dp_TemplateText : string;
  dp_Payload : Payload }.

Definition presentation_data (d : Dispatch) : gmap string string :=
  <["delivery.attempt" := FormatInt (dp_Attempt d)]> (<["delivery.id" := dp_DeliveryID d]>
    (<["text" := py_Text (dp_Payload d)]> (<["subject" := py_Subject (dp_Payload d)]> (py_Data (dp_Payload d))))).
Definition presentation_escape (channelType parseMode : string) : option (string -> string) :=
  if negb (channelType =s "telegram") then None else
  if parseMode =s "MarkdownV2" then Some EscapeMarkdownV2 else
  if parseMode =s "HTML" then Some EscapeString else None.
Definition has_newline (s : string) : bool := existsb (fun b => (b =? 13) || (b =? 10)) (bytes s).

Definition renderPresentation (d : Dispatch) (parseMode : string) : result templateError Payload :=
  let data := presentation_data d in
  let* subject := renderMessagePart (dp_TemplateSubject d) (py_Subject (dp_Payload d)) (mkValues data ∅ 200 None) in
  let* text := renderMessagePart (dp_TemplateText d) (py_Text (dp_Payload d))
                 (mkValues data ∅ (16 * 1024) (presentation_escape (dp_ChannelType d) parseMode)) in
  if has_newline subject then Err ErrTemplate else Ok (mkPayload subject text data).

Definition renderCustomValue (value : string) (v : TemplateValues) : result templateError string :=
  let* parts := CompileTemplate value true in
  RenderDeclarative parts v.

(** A decoded JSON value; [JScalar] is a number, a boolean or null. *)
Inductive json :=
  | JString (s : string)
  | JObject (members : list (string * json))
  | JArray (items : list json)
  | JScalar.

Definition maximumJSONNodes : Z := 512.
Definition maximumJSONDepth : Z := 8.

Definition with_maximum (n : Z) (v : TemplateValues) : TemplateValues := mkValues (tv_Data v) (tv_Secrets v) n (tv_Escape v).
Definition renderStringLeaf (value : string) (v : TemplateValues) (bytes : Z) : result templateError (string * Z) :=
  let* rendered := renderCustomValue value (with_maximum (Z.min (tv_Maximum v) bytes) v) in
  Ok (rendered, bytes - len rendered).

(** The members of an object and the items of an array: the remaining nodes and bytes are
    shared by the whole tree. *)
Section children.
Context (child : json -> Z -> Z -> result templateError (json * Z * Z)).
Fixpoint render_members (members : list (string * json)) (budget bytes : Z) : result templateError (list (string * json) * Z * Z) :=
  match members with
  | [] => Ok ([], budget, bytes)
  | (key, value) :: rest =>
      if Contains key "{{" || Contains key "}}" then Err ErrTemplate else
      let* item := child value budget bytes in
      let* items := render_members rest item.1.2 item.2 in
      Ok ((key, item.1.1) :: items.1.1, items.1.2, items.2)
  end.
Fixpoint render_items (items : list json) (budget bytes : Z) : result templateError (list json * Z * Z) :=
  match items with
  | [] => Ok ([], budget, bytes)
  | value :: rest =>
      let* item := child value budget bytes in
      let* items := render_items rest item.1.2 item.2 in
      Ok (item.1.1 :: items.1.1, items.1.2, items.2)
  end.
End children.

Fixpoint renderJSONLeaves (value : json) (v : TemplateValues) (depth budget bytes : Z) : result templateError (json * Z * Z) :=
  let budget := budget - 1 in
  if (budget <? 0) || (depth >? maximumJSONDepth) then Err ErrTemplate else
  match value with
  | JString s => let* x := renderStringLeaf s v bytes in Ok (JString x.1, budget, x.2)
  | JObject members =>
      let* x := render_members (fun c => renderJSONLeaves c v (depth + 1)) members budget bytes in Ok (JObject x.1.1, x.1.2, x.2)
  | JArray items =>
      let* x := render_items (fun c => renderJSONLeaves c v (depth + 1)) items budget bytes in Ok (JArray x.1.1, x.1.2, x.2)
  | JScalar => Ok (JScalar, budget, bytes)
  end.

(** ** Searching *)

Lemma str_cons_app a s r : String a s +:+ r = String a (s +:+ r).
Proof. done. Qed.
Lemma str_app_nil s : s +:+ "" = s.
Proof. induction s as [|a s IH]; [done|]. by rewrite str_cons_app, IH. Qed.
Lemma str_length_app s t : String.length (s +:+ t) = (String.length s + String.length t)%nat.
Proof. induction s as [|a s IH]; [done|]. rewrite str_cons_app. cbn. by rewrite IH. Qed.
Lemma str_nil_app r : "" +:+ r = r.
Proof. done. Qed.
Lemma length_str_take n s : (n <= String.length s)%nat -> String.length (str_take n s) = n.
Proof. revert s. induction n as [|n IH]; intros [|a s] H; cbn in *; [done..|lia|]. rewrite IH; lia. Qed.

Lemma take_app_length s r : str_take (String.length s) (s +:+ r) = s.
Proof. induction s as [|a s IH]; [by destruct r|]. rewrite str_cons_app. cbn. by rewrite IH. Qed.

Lemma drop_app_plus s r n : str_drop (String.length s + n) (s +:+ r) = str_drop n r.
Proof. by induction s as [|a s IH]. Qed.

Lemma HasPrefix_app p r : HasPrefix (p +:+ r) p = true.
Proof. unfold HasPrefix. induction p as [|a p IH]; [by destruct r|]. rewrite str_cons_app. cbn. destruct (ascii_dec a a); [done|congruence]. Qed.

Lemma HasPrefix_split s p : HasPrefix s p = true -> s = p +:+ str_drop (String.length p) s /\ (String.length p <= String.length s)%nat.
Proof.
  unfold HasPrefix. revert s. induction p as [|a p IH]; intros s H; [split; [done|cbn; lia]|]. destruct s as [|b s]; [done|].
  cbn in *. destruct (ascii_dec a b) as [->|]; [|done]. apply IH in H as [Hs Hl]. split; [by rewrite str_cons_app, <- Hs|lia].
Qed.

Lemma HasPrefix_long s r p : (String.length p <= String.length s)%nat -> HasPrefix (s +:+ r) p = HasPrefix s p.
Proof.
  unfold HasPrefix. revert s. induction p as [|a p IH]; intros [|b s] H; rewrite ?str_cons_app, ?str_nil_app; cbn in *; try done; try lia; [by destruct r|].
  destruct (ascii_dec a b); [|done]. apply IH. lia.
Qed.

Lemma Index_found s sub n : Index s sub = Some n ->
  s = str_take n s +:+ sub +:+ str_drop (n + String.length sub) s /\ (n + String.length sub <= String.length s)%nat.
Proof.
  revert n. induction s as [|a s IH]; intros n; cbn [Index]; destruct (HasPrefix _ sub) eqn:Hp; try done.
  - intros [= <-]. by apply HasPrefix_split in Hp.
  - intros [= <-]. by apply HasPrefix_split in Hp.
  - destruct (Index s sub) as [m|] eqn:E; [|done]. intros [= <-]. destruct (IH m eq_refl) as [Hs Hl]. cbn. split; [by rewrite str_cons_app, <- Hs|lia].
Qed.

(** What is found in a prefix is found in the whole, and the other way round. *)
Lemma Index_grow s r sub n : Index s sub = Some n -> Index (s +:+ r) sub = Some n.
Proof.
  revert n. induction s as [|a s IH]; intros n H; pose proof (Index_found _ _ _ H) as [_ Hl]; cbn [Index] in H.
  - destruct (HasPrefix "" sub) eqn:Hp; [|done]. injection H as <-. cbn in Hl. destruct sub; [|cbn in Hl; lia]. by destruct r.
  - rewrite str_cons_app. cbn [Index]. rewrite <- str_cons_app, (HasPrefix_long (String a s)) by lia.
    destruct (HasPrefix _ sub); [done|]. destruct (Index s sub) as [m|]; [|done]. injection H as <-. by rewrite (IH m eq_refl).
Qed.

Lemma Index_shrink s r sub n : Index (s +:+ r) sub = Some n -> (n + String.length sub <= String.length s)%nat -> Index s sub = Some n.
Proof.
  revert n. induction s as [|a s IH]; intros n H Hl.
  - cbn in Hl. destruct sub; [|cbn in Hl; lia]. by replace n with O by (cbn in Hl; lia).
  - rewrite str_cons_app in H. cbn [Index] in *. rewrite <- str_cons_app in H. destruct n as [|n].
    + destruct (HasPrefix (String a s +:+ r) sub) eqn:Hp; [|by destruct (Index _ _)]. by rewrite HasPrefix_long in Hp by lia; rewrite Hp.
    + cbn in Hl. destruct (HasPrefix (String a s +:+ r) sub) eqn:Hp; [done|]. rewrite HasPrefix_long in Hp by (cbn; lia). rewrite Hp.
      destruct (Index (s +:+ r) sub) as [m|] eqn:E; [|done]. injection H as <-. rewrite (IH m eq_refl) by lia. done.
Qed.

Lemma Contains_Index s sub : Contains s sub = bool_decide (is_Some (Index s sub)).
Proof.
  induction s as [|a s IH]; cbn [Contains Index]; destruct (HasPrefix _ sub); cbn; try done.
  rewrite IH. by destruct (Index s sub).
Qed.

(** ** Compiling *)

(** The template that parts are written as. *)
Definition part_source (p : TemplatePart) : string := if pt_Variable p =s "" then pt_Literal p else "{{" +:+ pt_Variable p +:+ "}}".
Fixpoint template_source (parts : list TemplatePart) : string :=
  match parts with [] => "" | p :: rest => part_source p +:+ template_source rest end.

(** Parts as a template has them: variables that exist, and between them literals without
    braces that would open or close a variable. *)
Definition variable_part (allow : bool) (p : TemplatePart) : Prop := pt_Literal p = "" /\ validTemplateVariable (pt_Variable p) allow = true.
Fixpoint canonical (allow : bool) (parts : list TemplatePart) : Prop :=
  match parts with
  | [] => True
  | p :: rest =>
      canonical allow rest /\
      (variable_part allow p \/
       pt_Variable p = "" /\ pt_Literal p <> "" /\ Contains (pt_Literal p) "}}" = false /\
       match rest with
       | [] => Contains (pt_Literal p) "{{" = false
       | q :: _ => variable_part allow q /\ Index (pt_Literal p +:+ "{{") "{{" = Some (String.length (pt_Literal p))
       end)
  end.

Definition template_text (t : string) : bool := ValidString t && (len t <=? 32 * 1024) && negb (existsb (Z.eqb 0) (runes t)).

Definition brace_free (s : string) : bool := forallb (fun b => negb (b =? 125)) (bytes s).

Lemma brace_free_Index s r : brace_free s = true -> Index (s +:+ "}}" +:+ r) "}}" = Some (String.length s).
Proof.
  unfold brace_free. induction s as [|a s IH]; [by destruct r|]. cbn [bytes forallb]. intros [Ha Hs]%andb_true_iff.
  rewrite str_cons_app. cbn [Index]. rewrite (IH Hs). unfold HasPrefix. cbn [String.prefix]. destruct (ascii_dec "}" a) as [<-|]; [by vm_compute in Ha|reflexivity].
Qed.

Lemma name_brace_free name allow : validTemplateVariable name allow = true -> brace_free name = true /\ name <> "".
Proof.
  unfold validTemplateVariable. intros [H|H]%orb_true_iff.
  - apply existsb_exists in H as (x & Hx & ->%String.eqb_eq). assert (forallb (fun x => brace_free x && negb (x =s "")) messageVariables = true) as F by done.
    rewrite forallb_forall in F. apply F, andb_true_iff in Hx as [H1 H2]. split; [done|by destruct x].
  - rewrite !andb_true_iff in H. destruct H as [[_ Hp] Hn]. unfold TrimPrefix in Hn. rewrite Hp in Hn. apply HasPrefix_split in Hp as [E Hl].
    split; [|intros ->; cbn in Hl; lia]. rewrite E. set (rest := str_drop _ _) in *. unfold brace_free. rewrite bytes_app, forallb_app.
    apply andb_true_iff. split; [done|]. unfold secretName in Hn. destruct (bytes rest) as [|b l]; [done|]. rewrite !andb_true_iff in Hn. destruct Hn as [[H1 _] H2].
    rewrite forallb_forall in H2. apply forallb_forall. intros x [<-|Hx%H2]; apply negb_true_iff, Z.eqb_neq; intros ->; done.
Qed.

Lemma compile_sound fuel t allow parts : compile_loop fuel t allow = Ok parts -> template_source parts = t /\ canonical allow parts.
Proof.
  revert t parts. induction fuel as [|fuel IH]; intros t parts; [done|]. cbn [compile_loop].
  destruct (t =s "") eqn:E0; [by intros [= <-]; apply String.eqb_eq in E0 as ->|]. apply String.eqb_neq in E0.
  destruct (Index t "{{") as [start|] eqn:Ei.
  2: { destruct (Contains t "}}") eqn:Ec; [done|]. intros [= <-]. cbn. split; [by rewrite str_app_nil|]. split; [done|]. right. by rewrite (Contains_Index t "{{"), Ei. }
  destruct (_ && _) eqn:Eb; [done|]. set (after := str_drop (start + 2) t). destruct (Index after "}}") as [stop|] eqn:Es; [|done].
  destruct (negb _) eqn:Ev; [done|]. apply negb_false_iff in Ev. destruct (compile_loop fuel _ allow) as [rest|] eqn:Er; [|done]. cbn [bind]. intros [= <-].
  apply IH in Er as [Hsrc Hcan]. destruct (Index_found _ _ _ Ei) as [Ht Hl]. destruct (Index_found _ _ _ Es) as [Ha _]. cbn [String.length] in *. fold after in Ht.
  set (name := str_take stop after) in *. destruct (name_brace_free _ _ Ev) as [_ Hne].
  assert (template_source (mkPart "" name :: rest) = "{{" +:+ after) as Htail.
  { cbn. unfold part_source. cbn. apply String.eqb_neq in Hne. rewrite Hne, Hsrc, !str_app_assoc. by rewrite <- Ha. }
  assert (canonical allow (mkPart "" name :: rest)) as Hvar by (split; [done|]; by left).
  destruct start as [|start]; cbn [Nat.ltb Nat.leb app andb] in *; [by rewrite Htail, Ht at 1|].
  set (before := str_take (S start) t) in *. assert (String.length before = S start) as Hb by (apply length_str_take; lia). split.
  - change (before +:+ template_source (mkPart "" name :: rest) = t). rewrite Htail. by symmetry.
  - split; [done|]. right. cbn [pt_Variable pt_Literal]. split; [done|]. split; [by destruct before|]. split; [done|]. split; [done|].
    rewrite Hb. apply (Index_shrink _ after); [|rewrite str_length_app, Hb; cbn; lia]. by rewrite str_app_assoc, <- Ht.
Qed.

(** One round of the loop, at a template that starts with a literal, maybe empty, and a variable. *)
Lemma compile_step fuel l name rest allow : Index (l +:+ "{{") "{{" = Some (String.length l) -> Contains l "}}" = false ->
  validTemplateVariable name allow = true ->
  compile_loop (S fuel) (l +:+ "{{" +:+ name +:+ "}}" +:+ rest) allow
  = let* r := compile_loop fuel rest allow in Ok ((if l =s "" then [] else [mkPart l ""]) ++ mkPart "" name :: r).
Proof.
  intros Hi Hc Hv. set (t := l +:+ _). assert (t =s "" = false) as E0 by by destruct l. cbn [compile_loop]. rewrite E0. clear E0.
  assert (Index t "{{" = Some (String.length l)) as Ei. { unfold t. rewrite <- str_app_assoc. by apply Index_grow. }
  rewrite Ei. unfold t. rewrite take_app_length, Hc, andb_false_r. replace (str_drop (String.length l + 2) _) with (name +:+ "}}" +:+ rest) by by rewrite drop_app_plus.
  destruct (name_brace_free _ _ Hv) as [Hb _]. rewrite (brace_free_Index _ _ Hb), take_app_length, Hv. cbn [negb].
  replace (str_drop (String.length name + 2) _) with rest by by rewrite drop_app_plus. by destruct l.
Qed.

Lemma variable_source allow p : variable_part allow p -> part_source p = "{{" +:+ pt_Variable p +:+ "}}" /\ p = mkPart "" (pt_Variable p).
Proof. destruct p as [l v]. intros [Hl Hv]. cbn in *. destruct (name_brace_free _ _ Hv) as [_ Hne]. unfold part_source. cbn. apply String.eqb_neq in Hne as ->. by subst. Qed.

Lemma compile_complete fuel parts allow : canonical allow parts -> (String.length (template_source parts) < fuel)%nat ->
  compile_loop fuel (template_source parts) allow = Ok parts.
Proof.
  revert parts. induction fuel as [|fuel IH]; intros parts Hcan Hf; [lia|]. destruct parts as [|p rest]; [done|]. destruct Hcan as [Hrest Hp].
  cbn [template_source] in *. rewrite str_length_app in Hf. destruct Hp as [Hp|(Hv & Hl & Hc & Hnext)].
  - destruct (variable_source _ _ Hp) as [Hs Ep]. rewrite Hs in *. rewrite !str_app_assoc, <- (str_nil_app ("{{" +:+ _)), compile_step; [|done..|apply Hp].
    rewrite IH; [by rewrite <- Ep|done|]. rewrite !str_length_app in Hf. cbn in Hf. lia.
  - assert (part_source p = pt_Literal p) as Hs by by unfold part_source; rewrite Hv. rewrite Hs in *. destruct p as [l v]. cbn [pt_Literal pt_Variable] in *. subst v.
    destruct rest as [|q rest].
    + cbn [template_source]. rewrite str_app_nil. cbn [compile_loop]. apply String.eqb_neq in Hl as ->. rewrite (Contains_Index l "{{") in Hnext. apply bool_decide_eq_false in Hnext.
      destruct (Index l "{{"); [by destruct Hnext|]. by rewrite Hc.
    + destruct Hnext as [Hq Hi]. destruct (variable_source _ _ Hq) as [Hqs Eq]. destruct Hrest as [Hrest _]. cbn [template_source] in *. rewrite Hqs in *.
      rewrite !str_app_assoc, compile_step; [|done..|apply Hq]. rewrite !str_length_app in Hf. cbn in Hf. rewrite IH; [|done|lia]. cbn [bind].
      apply String.eqb_neq in Hl as ->. by rewrite <- Eq.
Qed.

(** A template is parsed exactly. [CompileTemplate] answers with some parts if and only if
    the text is valid UTF-8 of at most 32 KiB without NUL, it is what these parts are
    written as, with double braces around the variables, and the parts are canonical:
    known variables, or secrets where they are allowed, separated by literals that hold
    no double braces of their own. *)
Theorem compile_exact t allow parts :
  CompileTemplate t allow = Ok parts <-> template_text t = true /\ template_source parts = t /\ canonical allow parts.
Proof.
  unfold CompileTemplate, template_text. rewrite Z.gtb_ltb, Z.leb_antisym.
  destruct (ValidString t), (32 * 1024 <? len t), (existsb _ _); cbn [negb andb orb]; try (split; [done|by intros [? _]]). split.
  - intros H. split; [done|]. by apply compile_sound in H.
  - intros (_ & <- & Hcan). apply compile_complete; [done|lia].
Qed.

(** ** Rendering *)

Lemma len_app s t : len (s +:+ t) = len s + len t.
Proof. unfold len. rewrite str_length_app. lia. Qed.
Lemma len_nonneg s : 0 <= len s.
Proof. unfold len. lia. Qed.

(** The texts of all parts, or the error of the first that has none. *)
Fixpoint part_values (v : TemplateValues) (parts : list TemplatePart) : result templateError string :=
  match parts with
  | [] => Ok ""
  | p :: rest => let* value := part_value v p in let* values := part_values v rest in Ok (value +:+ values)
  end.

Lemma render_loop_exact parts v output : (parts = [] \/ len output <= tv_Maximum v) ->
  render_loop output parts v =
    let* text := part_values v parts in
    if bool_decide (parts = []) || (len output + len text <=? tv_Maximum v) then Ok (output +:+ text) else Err ErrTemplate.
Proof.
  revert output. induction parts as [|p rest IH]; intros output Ho; cbn [render_loop part_values bind]; [by rewrite str_app_nil|].
  destruct Ho as [|Ho]; [done|]. destruct (part_value v p) as [value|[]]; cbn [bind]; [|done]. rewrite Z.gtb_ltb. pose proof (len_nonneg value).
  destruct (Z.ltb_spec (tv_Maximum v) (len output + len value)).
  - destruct (part_values v rest) as [text|[]]; cbn [bind]; [|done]. pose proof (len_nonneg text). rewrite len_app.
    rewrite bool_decide_eq_false_2 by done. cbn [orb]. rewrite (proj2 (Z.leb_gt _ _)) by lia. done.
  - rewrite IH by (right; rewrite len_app; lia). destruct (part_values v rest) as [text|[]] eqn:Et; cbn [bind]; [|done]. rewrite !len_app, str_app_assoc, Z.add_assoc.
    rewrite (bool_decide_eq_false_2 (p :: rest = [])) by done. cbn [orb]. destruct (bool_decide_reflect (rest = [])) as [->|]; [|done]. cbn [orb].
    cbn in Et. injection Et as <-. change (len "") with 0. rewrite (proj2 (Z.leb_le _ _)) by lia. done.
Qed.

(** Rendering is substitution within the budget: it gives the texts of the parts one
    after another exactly when every secret it needs is set and not empty and the whole
    fits the budget, which is not negative; otherwise it fails. *)
Theorem render_exact parts v : 0 <= tv_Maximum v ->
  RenderDeclarative parts v = let* text := part_values v parts in if len text <=? tv_Maximum v then Ok text else Err ErrTemplate.
Proof.
  intros Hm. unfold RenderDeclarative. rewrite render_loop_exact by by right. destruct parts as [|p rest]; cbn [bool_decide]; [|done].
  cbn. by rewrite (proj2 (Z.leb_le _ _)) by done.
Qed.

Definition with_secrets (s : gmap string string) (v : TemplateValues) : TemplateValues := mkValues (tv_Data v) s (tv_Maximum v) (tv_Escape v).

Lemma public_variables name : validTemplateVariable name false = true -> HasPrefix name "secret." = false.
Proof.
  unfold validTemplateVariable. rewrite andb_false_l, orb_false_r. intros H. apply existsb_exists in H as (x & Hx & ->%String.eqb_eq).
  assert (forallb (fun x => negb (HasPrefix x "secret.")) messageVariables = true) as F by done. rewrite forallb_forall in F. by apply F, negb_true_iff in Hx.
Qed.

Lemma public_part_value s v p rest : canonical false (p :: rest) -> part_value (with_secrets s v) p = part_value v p.
Proof.
  intros [_ Hp]. unfold part_value. destruct (pt_Variable p =s "") eqn:E; [done|]. apply String.eqb_neq in E.
  destruct Hp as [[_ Hv%public_variables]|[? _]]; [by rewrite Hv|done].
Qed.

Lemma render_public s v parts output : canonical false parts -> render_loop output parts (with_secrets s v) = render_loop output parts v.
Proof.
  revert output. induction parts as [|p rest IH]; intros output Hc; [done|]. cbn [render_loop]. rewrite (public_part_value s v p rest Hc).
  destruct (part_value v p); cbn [bind]; [|done]. destruct (_ >? _); [done|]. apply IH, Hc.
Qed.

(** The templates of a channel's messages cannot reach its secrets: what they render to
    does not depend on them. *)
Theorem message_template_public template fallback v secrets :
  renderMessagePart template fallback (with_secrets secrets v) = renderMessagePart template fallback v.
Proof.
  unfold renderMessagePart. destruct (template =s ""); [done|]. unfold CompileTemplate. destruct (_ || _); [done|].
  destruct (compile_loop _ _ _) as [parts|] eqn:E; cbn [bind]; [|done]. apply compile_sound in E as [_ Hc]. by apply render_public.
Qed.

Lemma message_part_bound template fallback v text : 0 <= tv_Maximum v -> renderMessagePart template fallback v = Ok text -> len text <= tv_Maximum v.
Proof.
  intros Hm. unfold renderMessagePart. destruct (template =s "").
  - rewrite Z.gtb_ltb. destruct (Z.ltb_spec (tv_Maximum v) (len match tv_Escape v with Some escape => escape fallback | None => fallback end)); [done|]. by intros [= <-].
  - destruct (CompileTemplate template false) as [parts|]; cbn [bind]; [|done]. unfold RenderDeclarative. rewrite render_loop_exact by by right.
    destruct (part_values v parts) as [text'|] eqn:Ev; cbn [bind]; [|done]. destruct (_ || _) eqn:E; [|done]. intros [= <-].
    apply orb_true_iff in E as [->%bool_decide_eq_true|E%Z.leb_le]; [by injection Ev as <-|done].
Qed.

(** What is sent fits: a rendered message has a subject of at most 200 bytes on one line
    and a text of at most 16 KiB, escaped or not. *)
Theorem presentation_bounds d mode p : renderPresentation d mode = Ok p ->
  len (py_Subject p) <= 200 /\ has_newline (py_Subject p) = false /\ len (py_Text p) <= 16 * 1024.
Proof.
  unfold renderPresentation. destruct (renderMessagePart (dp_TemplateSubject d) _ _) as [subject|] eqn:Es; cbn [bind]; [|done].
  destruct (renderMessagePart (dp_TemplateText d) _ _) as [text|] eqn:Et; cbn [bind]; [|done]. destruct (has_newline subject) eqn:En; [done|]. intros [= <-]. cbn.
  apply message_part_bound in Es; [|cbn; lia]. apply message_part_bound in Et; [|cbn; lia]. done.
Qed.

(** ** Bodies *)

Section json_induction.
Context (P : json -> Prop).
Context (Hs : forall s, P (JString s)) (Ho : forall l, Forall (fun kv => P kv.2) l -> P (JObject l)).
Context (Ha : forall l, Forall P l -> P (JArray l)) (Hz : P JScalar).
Fixpoint json_nested_ind (j : json) : P j :=
  match j with
  | JString s => Hs s
  | JObject l => Ho l ((fix go l := match l as l return Forall (fun kv => P kv.2) l with
                                    | [] => @List.Forall_nil _ _
                                    | kv :: r => @List.Forall_cons _ (fun kv => P kv.2) kv r (json_nested_ind kv.2) (go r)
                                    end) l)
  | JArray l => Ha l ((fix go l := match l as l return Forall P l with
                                   | [] => @List.Forall_nil _ _
                                   | x :: r => @List.Forall_cons _ P x r (json_nested_ind x) (go r)
                                   end) l)
  | JScalar => Hz
  end.
End json_induction.

Definition zsum (l : list Z) : Z := foldr Z.add 0 l.
(** The nodes of a value, and the bytes of its strings. *)
Fixpoint json_nodes (j : json) : Z :=
  match j with
  | JObject l => 1 + zsum (map (fun kv => json_nodes kv.2) l)
  | JArray l => 1 + zsum (map json_nodes l)
  | _ => 1
  end.
Fixpoint json_text (j : json) : Z :=
  match j with
  | JString s => len s
  | JObject l => zsum (map (fun kv => json_text kv.2) l)
  | JArray l => zsum (map json_text l)
  | JScalar => 0
  end.

(** A rendering that charges what it uses. *)
Definition charges (child : json -> Z -> Z -> result templateError (json * Z * Z)) (j : json) : Prop := forall budget bytes x, 0 <= bytes ->
  child j budget bytes = Ok x -> json_nodes j = budget - x.1.2 /\ json_text x.1.1 = bytes - x.2 /\ 0 <= x.1.2 /\ 0 <= x.2.

Lemma string_leaf_ok s v bytes x : 0 <= bytes -> 0 <= tv_Maximum v -> renderStringLeaf s v bytes = Ok x -> len x.1 = bytes - x.2 /\ 0 <= x.2.
Proof.
  intros Hb Hm. unfold renderStringLeaf, renderCustomValue. destruct (CompileTemplate s true) as [parts|]; cbn [bind]; [|done].
  unfold RenderDeclarative. rewrite render_loop_exact by (right; cbn; change (len "") with 0; lia).
  destruct (part_values _ parts) as [text|] eqn:Ev; cbn [bind]; [|done]. destruct (_ || _) eqn:E; cbn [bind]; [|done]. intros [= <-]. cbn [fst snd].
  rewrite str_nil_app. split; [lia|]. apply orb_true_iff in E as [->%bool_decide_eq_true|E%Z.leb_le]; [injection Ev as <-; change (len "") with 0; lia|]. cbn in E. change (len "") with 0 in E. lia.
Qed.

Lemma members_ok child l budget bytes x : Forall (fun kv => charges child kv.2) l -> 0 <= budget -> 0 <= bytes ->
  render_members child l budget bytes = Ok x ->
  zsum (map (fun kv => json_nodes kv.2) l) = budget - x.1.2 /\ zsum (map (fun kv => json_text kv.2) x.1.1) = bytes - x.2 /\ 0 <= x.1.2 /\ 0 <= x.2.
Proof.
  intros Hl. revert budget bytes x. induction Hl as [|[key value] l Hc _ IH]; intros budget bytes x Hbu Hby; cbn [render_members]; [intros [= <-]; cbn; lia|].
  destruct (_ || _); [done|]. destruct (child value budget bytes) as [c|] eqn:Ec; cbn [bind]; [|done]. destruct (Hc _ _ _ Hby Ec) as (H1 & H2 & H3 & H4).
  destruct (render_members child l c.1.2 c.2) as [y|] eqn:Ey; cbn [bind]; [|done]. intros [= <-]. destruct (IH _ _ _ H3 H4 Ey) as (G1 & G2 & G3 & G4).
  cbn in *. unfold zsum in *. lia.
Qed.

Lemma items_ok child l budget bytes x : Forall (charges child) l -> 0 <= budget -> 0 <= bytes ->
  render_items child l budget bytes = Ok x ->
  zsum (map json_nodes l) = budget - x.1.2 /\ zsum (map json_text x.1.1) = bytes - x.2 /\ 0 <= x.1.2 /\ 0 <= x.2.
Proof.
  intros Hl. revert budget bytes x. induction Hl as [|value l Hc _ IH]; intros budget bytes x Hbu Hby; cbn [render_items]; [intros [= <-]; cbn; lia|].
  destruct (child value budget bytes) as [c|] eqn:Ec; cbn [bind]; [|done]. destruct (Hc _ _ _ Hby Ec) as (H1 & H2 & H3 & H4).
  destruct (render_items child l c.1.2 c.2) as [y|] eqn:Ey; cbn [bind]; [|done]. intros [= <-]. destruct (IH _ _ _ H3 H4 Ey) as (G1 & G2 & G3 & G4).
  cbn in *. unfold zsum in *. lia.
Qed.

Lemma leaves_bounded v j : 0 <= tv_Maximum v -> forall depth, charges (fun c => renderJSONLeaves c v depth) j.
Proof.
  intros Hm. induction j as [s|l IH|l IH|] using json_nested_ind; intros depth budget bytes x Hb; cbn [renderJSONLeaves];
    (destruct (_ || _) eqn:E; [done|]; apply orb_false_iff in E as [E%Z.ltb_ge _]).
  - destruct (renderStringLeaf s v bytes) as [y|] eqn:Ex; cbn [bind]; [|done]. intros [= <-]. destruct (string_leaf_ok _ _ _ _ Hb Hm Ex). cbn. lia.
  - destruct (render_members _ l _ _) as [y|] eqn:Ex; cbn [bind]; [|done]. intros [= <-].
    apply members_ok in Ex; [cbn; unfold zsum in *; lia| |done..]. eapply Forall_impl; [exact IH|]. cbn. intros kv H. apply H.
  - destruct (render_items _ l _ _) as [y|] eqn:Ex; cbn [bind]; [|done]. intros [= <-].
    apply items_ok in Ex; [cbn; unfold zsum in *; lia| |done..]. eapply Forall_impl; [exact IH|]. cbn. intros c H. apply H.
  - intros [= <-]. cbn. lia.
Qed.

Definition maximumRequestBytes : Z := 64 * 1024.

(** The body of a custom request stays within its budgets: when it renders, the strings
    of the result have 64 KiB in all, and the template had at most 512 nodes. *)
Theorem custom_body_bounds body data secrets escape x :
  renderJSONLeaves body (mkValues data secrets maximumRequestBytes escape) 0 maximumJSONNodes maximumRequestBytes = Ok x ->
  json_text x.1.1 <= 64 * 1024 /\ json_nodes body <= 512.
Proof.
  intros H. apply leaves_bounded in H; [|cbn; unfold maximumRequestBytes; lia..]. unfold maximumRequestBytes, maximumJSONNodes in H. lia.
Qed.

(** ** The theorems on samples *)

Section sample.

Definition sample_values (maximum : Z) : TemplateValues :=
  mkValues {["node.name" := "web-01"]} {["token" := "s3cret"]} maximum None.
Definition sample_dispatch : Dispatch :=
  mkDispatch "delivery-1" "telegram" 2 "[Beat] {{node.name}}" "{{text}} (try {{delivery.attempt}})"
    (mkPayload "Alert" "load > 5" {["node.name" := "web-01"]}).

Example compile_sample :
  CompileTemplate "up: {{node.name}}!" false = Ok [mkPart "up: " ""; mkPart "" "node.name"; mkPart "!" ""] /\
  CompileTemplate "{{secret.token}}" false = Err ErrTemplate /\
  CompileTemplate "{{secret.token}}" true = Ok [mkPart "" "secret.token"] /\
  CompileTemplate "a }} b" true = Err ErrTemplate.
Proof. by vm_compute. Qed.

Lemma render_exact_witness :
  RenderDeclarative [mkPart "up: " ""; mkPart "" "node.name"] (sample_values 12) = Ok "up: web-01" /\
  RenderDeclarative [mkPart "up: " ""; mkPart "" "node.name"] (sample_values 9) = Err ErrTemplate.
Proof. split; (rewrite render_exact; [reflexivity|vm_compute; discriminate]). Defined.

Lemma presentation_bounds_witness : exists p, renderPresentation sample_dispatch "HTML" = Ok p /\ py_Text p = "load &gt; 5 (try 2)" /\ len (py_Subject p) <= 200.
Proof.
  exists (mkPayload "[Beat] web-01" "load &gt; 5 (try 2)" (presentation_data sample_dispatch)).
  assert (renderPresentation sample_dispatch "HTML" = Ok (mkPayload "[Beat] web-01" "load &gt; 5 (try 2)" (presentation_data sample_dispatch))) as E by reflexivity.
  split; [exact E|]. split; [reflexivity|]. exact (proj1 (presentation_bounds _ _ _ E)).
Defined.

Lemma custom_body_bounds_witness : exists x,
  renderJSONLeaves (JObject [("to", JString "{{secret.token}}"); ("tags", JArray [JString "x"; JScalar])]) (sample_values maximumRequestBytes) 0
    maximumJSONNodes maximumRequestBytes = Ok x /\ x.1.1 = JObject [("to", JString "s3cret"); ("tags", JArray [JString "x"; JScalar])] /\ json_text x.1.1 <= 64 * 1024.
Proof.
  exists (JObject [("to", JString "s3cret"); ("tags", JArray [JString "x"; JScalar])], 507, 65529). split; [reflexivity|]. split; [reflexivity|].
  apply (custom_body_bounds (JObject [("to", JString "{{secret.token}}"); ("tags", JArray [JString "x"; JScalar])])
           (tv_Data (sample_values 0)) (tv_Secrets (sample_values 0)) None (JObject [("to", JString "s3cret"); ("tags", JArray [JString "x"; JScalar])], 507, 65529)). reflexivity.
Defined.

End sample.
