(* ===== verification/NoticeModel.v ===== *)
(** * Notifications: tables, requests and receipts

    [internal/notificationqueue]: the rows of the notification tables
    ([store/sqlite_notifications.go]), the transactions over them, [request.go],
    [receipt.go], [authority.go] and [settings.go].

    A table is a finite map from its primary key to its rows. A transaction is a state
    monad over the tables that also draws from the clock and from the source of random
    bytes; an error of any statement, of the random source or of the commit rolls it back.
    Rows that a statement orders by a column with ties are taken in the order of their
    identifiers. [WithWrite] of the secret store only surrounds the transactions. *)

From S2P Require Import Prelude GoText GoNumber GoSha256 GoTable.

(** ** Errors *)

Inductive queueError :=
  | ErrSkipMutation | ErrInvalidRequest | ErrQueueUnavailable | ErrQueueCapacity | ErrNotFound | ErrConflict | ErrForbidden
  | ErrRecentAuth | ErrRateLimited | ErrLeaseLost | errChannelPaused | errTemplate | errProviderConfig.
#[export] Instance queueError_eq_dec : EqDecision queueError.
Proof. solve_decision. Defined.

(** ** Tables *)

Inductive deliveryState := Pending | Leased | Succeeded | Dead | Cancelled.
#[export] Instance deliveryState_eq_dec : EqDecision deliveryState.
Proof. solve_decision. Defined.

(** notification_deliveries *)
Record Delivery := mkDelivery {
  dl_message : string; dl_channel : string; dl_revision : Z; dl_state : deliveryState; dl_attempts : Z; dl_next : Z;
  dl_hash : option (list Z); dl_expires : option Z; dl_worker : string; dl_code : string; dl_stage : string; dl_class : string;
  dl_retry_of : option string; dl_created : Z; dl_updated : Z; dl_completed : option Z }.

Inductive outcome := InProgress | OutSucceeded | OutRetryable | OutPermanent | OutCancelled | OutLeaseExpired.
#[export] Instance outcome_eq_dec : EqDecision outcome.
Proof. solve_decision. Defined.

(** notification_delivery_attempts, by delivery and attempt number *)
Record AttemptRow := mkAttemptRow {
  at_started : Z; at_completed : option Z; at_duration : Z; at_outcome : outcome; at_code : string; at_stage : string; at_class : string }.

(** notification_messages *)
Record Message := mkMessage {
  ms_key : string; ms_kind : string; ms_source : string; ms_event : string; ms_payload : list Z; ms_routed : bool;
  ms_selected : Z; ms_created : Z; ms_retain : Z }.

(** alert_channels *)
Record Channel := mkChannel {
  ch_name : string; ch_type : string; ch_enabled : bool; ch_revision : Z; ch_kinds : list string; ch_deleted : option Time;
  ch_updated : Time }.

(** alert_channel_revisions, by channel and revision *)
Record Revision := mkRevision { rv_type : string; rv_secret : list Z; rv_subject : string; rv_text : string; rv_created : Z }.

(** notification_channel_health *)
Record Health := mkHealth {
  hl_revision : Z; hl_failures : Z; hl_open : bool; hl_until : option Z; hl_success : option Z; hl_failure : option Z;
  hl_code : string; hl_stage : string; hl_updated : Z }.

(** The row of notification_settings. *)
Record Settings := mkSettings { st_revision : Z; st_success_days : Z; st_dead_days : Z; st_workers : Z; st_policy : string }.

(** A row of admin_users joined with one of admin_sessions. *)
Record AdminRow := mkAdminRow {
  ad_username : string; ad_role : string; ad_enabled : bool; ad_prefix : string; ad_revoked : bool; ad_idle : Time;
  ad_absolute : Time; ad_recent : option Time }.

Record AuditRow := mkAuditRow { au_action : string; au_type : string; au_resource : string; au_actor : string; au_at : Time }.

Record Database := mkDatabase {
  db_messages : gmap string Message;
  db_deliveries : gmap string Delivery;
  db_attempts : gmap (string * Z) AttemptRow;
  db_channels : gmap string Channel;
  db_revisions : gmap (string * Z) Revision;
  db_health : gmap string Health;
  db_settings : Settings;
  db_budgets : gmap (string * string * Z) Z;
  db_admins : gmap (string * string) AdminRow;
  db_audit : list AuditRow }.

Definition set_messages v (d : Database) : Database :=
  mkDatabase v (db_deliveries d) (db_attempts d) (db_channels d) (db_revisions d) (db_health d) (db_settings d) (db_budgets d) (db_admins d) (db_audit d).
Definition set_deliveries v (d : Database) : Database :=
  mkDatabase (db_messages d) v (db_attempts d) (db_channels d) (db_revisions d) (db_health d) (db_settings d) (db_budgets d) (db_admins d) (db_audit d).
Definition set_attempts v (d : Database) : Database :=
  mkDatabase (db_messages d) (db_deliveries d) v (db_channels d) (db_revisions d) (db_health d) (db_settings d) (db_budgets d) (db_admins d) (db_audit d).
Definition set_channels v (d : Database) : Database :=
  mkDatabase (db_messages d) (db_deliveries d) (db_attempts d) v (db_revisions d) (db_health d) (db_settings d) (db_budgets d) (db_admins d) (db_audit d).
Definition set_revisions v (d : Database) : Database :=
  mkDatabase (db_messages d) (db_deliveries d) (db_attempts d) (db_channels d) v (db_health d) (db_settings d) (db_budgets d) (db_admins d) (db_audit d).
Definition set_health v (d : Database) : Database :=
  mkDatabase (db_messages d) (db_deliveries d) (db_attempts d) (db_channels d) (db_revisions d) v (db_settings d) (db_budgets d) (db_admins d) (db_audit d).
Definition set_settings v (d : Database) : Database :=
  mkDatabase (db_messages d) (db_deliveries d) (db_attempts d) (db_channels d) (db_revisions d) (db_health d) v (db_budgets d) (db_admins d) (db_audit d).
Definition set_budgets v (d : Database) : Database :=
  mkDatabase (db_messages d) (db_deliveries d) (db_attempts d) (db_channels d) (db_revisions d) (db_health d) (db_settings d) v (db_admins d) (db_audit d).
Definition set_audit v (d : Database) : Database :=
  mkDatabase (db_messages d) (db_deliveries d) (db_attempts d) (db_channels d) (db_revisions d) (db_health d) (db_settings d) (db_budgets d) (db_admins d) v.

(** ** Transactions *)

(** The tables, and how often the clock and the random source were read. *)
Record world := mkWorld { w_db : Database; w_ticks : nat; w_draws : nat }.
Definition tx (A : Type) : Type := Tx queueError world A.

Definition query {A} (f : Database -> A) : tx A := fun w => Ok (f (w_db w), w).
Definition exec (f : Database -> Database) : tx unit := fun w => Ok (tt, mkWorld (f (w_db w)) (w_ticks w) (w_draws w)).
(** [UPDATE] of the row with a key, when it satisfies [c]: the number of rows affected. *)
Definition update_delivery (id : string) (c : Delivery -> bool) (f : Delivery -> Delivery) : tx Z := fun w =>
  match db_deliveries (w_db w) !! id with
  | Some d => if c d then Ok (1, mkWorld (set_deliveries (<[id := f d]> (db_deliveries (w_db w))) (w_db w)) (w_ticks w) (w_draws w)) else Ok (0, w)
  | None => Ok (0, w)
  end.
Definition update_attempt (key : string * Z) (c : AttemptRow -> bool) (f : AttemptRow -> AttemptRow) : tx Z := fun w =>
  match db_attempts (w_db w) !! key with
  | Some a => if c a then Ok (1, mkWorld (set_attempts (<[key := f a]> (db_attempts (w_db w))) (w_db w)) (w_ticks w) (w_draws w)) else Ok (0, w)
  | None => Ok (0, w)
  end.
(** [exactlyOne], whose error the callers replace by [e]. *)
Definition exactlyOne (e : queueError) (m : tx Z) : tx unit := n <~ m ;; if n =? 1 then ret tt else fail e.
(** [INSERT]: a key that is taken is an error. *)
Definition insert_row `{Countable K} {V} (table : Database -> gmap K V) (set : gmap K V -> Database -> Database) (k : K) (v : V) : tx unit :=
  fun w => match table (w_db w) !! k with
           | Some _ => Err ErrQueueUnavailable
           | None => Ok (tt, mkWorld (set (<[k := v]> (table (w_db w))) (w_db w)) (w_ticks w) (w_draws w))
           end.

(** A transaction from its begin to its commit, which may fail. When [early] holds of the
    result, the code returns it before the commit, and the transaction is rolled back. *)
Definition transact_unless {A} (early : A -> bool) (commit : bool) (m : tx A) (d : Database) : result queueError A * Database :=
  match m (mkWorld d 0 0) with
  | Ok (a, w) => if early a then (Ok a, d) else if commit then (Ok a, w_db w) else (Err ErrQueueUnavailable, d)
  | Err e => (Err e, d)
  end.
Definition transact {A} : bool -> tx A -> Database -> result queueError A * Database := transact_unless (fun _ => false).

(** ** request.go *)

Record Request := mkRequest {
  rq_SourceKey : string; rq_SourceKind : string; rq_SourceID : string; rq_EventKind : string; rq_Subject : string;
  rq_Text : string; rq_Data : gmap string string; rq_ChannelIDs : list string; rq_UseSubscriptions : bool }.

Definition MaximumSubjectBytes : Z := 200.
Definition MaximumTextBytes : Z := 16 * 1024.
Definition MaximumPayloadBytes : Z := 64 * 1024.
Definition MaximumChannels : Z := 256.
Definition MaximumPendingDeliveries : Z := 100000.

Definition enabledEventKinds : list string :=
  ["alert.triggered"; "alert.acknowledged"; "alert.resolved"; "alert.no_data"; "alert.evaluation_error"; "alert.evaluation_recovered";
   "availability.offline"; "availability.recovered"; "traffic.quota"; "traffic.report"; "fleet.status_summary";
   "notification.delivery_failed"; "notification.test"; "operation.completed"; "operation.failed"; "node.expiring"; "node.expired";
   "node.renewed"; "security.login_succeeded"; "security.login_suspicious"].
Definition templateDataKeys : list string :=
  ["event.kind"; "event.status"; "event.severity"; "event.message"; "event.occurred_at"; "node.id"; "node.name"; "node.group_name";
   "node.labels"; "rule.id"; "rule.name"; "metric.name"; "metric.value"; "metric.formatted_value"; "site.title"; "site.public_base_url";
   "security.authentication_method"; "security.source_summary"; "security.location_summary"; "security.device_summary";
   "security.administrator"; "security.reason_summary"; "delivery.id"; "delivery.attempt"; "evaluation.status"; "evaluation.reason";
   "evaluation.epoch"; "fleet.schedule_name"; "fleet.period_key"; "fleet.cutoff"; "fleet.online_count"; "fleet.offline_count";
   "fleet.total_count"; "fleet.online_names"; "fleet.offline_names"; "fleet.group_names"].

Definition cleanScalar (value : string) : bool := ValidString value && negb (ContainsControl value).
Definition cleanText (value : string) : bool := ValidString value && negb (existsb (Z.eqb 0) (runes value)).
Definition scalar_within (limit : Z) (value : string) : bool := (value <>s "") && (len value <=? limit) && cleanScalar value.

(** [json.Marshal] of a map: the members in the order of their keys. *)
Definition sorted_items (m : gmap string string) : list (string * string) := ordered (fun _ _ => 0) (map_to_list m).
Definition json_map (m : gmap string string) : list Z :=
  json_object ((fun kv => member kv.1 true (json_string kv.2)) <$> sorted_items m).

Definition validateRequest (r : Request) : result queueError unit :=
  if negb (scalar_within 512 (rq_SourceKey r) && scalar_within 64 (rq_SourceKind r) && scalar_within 128 (rq_SourceID r))
  then Err ErrInvalidRequest else
  if negb (str_in (rq_EventKind r) enabledEventKinds) || (len (rq_Subject r) >? MaximumSubjectBytes) || negb (cleanScalar (rq_Subject r))
  then Err ErrInvalidRequest else
  if (len (rq_Text r) >? MaximumTextBytes) || negb (cleanText (rq_Text r)) then Err ErrInvalidRequest else
  if (llen (rq_ChannelIDs r) >? MaximumChannels) || (Z.of_nat (size (rq_Data r)) >? llen templateDataKeys) then Err ErrInvalidRequest else
  if rq_UseSubscriptions r && (llen (rq_ChannelIDs r) >? 0) then Err ErrInvalidRequest else
  if negb (forallb (scalar_within 128) (rq_ChannelIDs r)) then Err ErrInvalidRequest else
  if negb (forallb (fun kv => str_in kv.1 templateDataKeys && cleanText kv.2) (map_to_list (rq_Data r))) then Err ErrInvalidRequest else
  if llen (json_map (rq_Data r)) >? MaximumPayloadBytes - MaximumTextBytes - MaximumSubjectBytes then Err ErrInvalidRequest else Ok tt.

(** ** receipt.go *)

Record DeliveryRef := mkDeliveryRef { df_ID : string; df_ChannelID : string; df_Revision : Z; df_State : deliveryState; df_Attempts : Z }.
Record Counts := mkCounts { ct_Pending : Z; ct_Leased : Z; ct_Succeeded : Z; ct_Dead : Z; ct_Cancelled : Z }.
(** [Unset] is the empty string of a receipt that nothing was read into. *)
Inductive receiptStatus := Unset | NotRouted | InState (s : deliveryState).
Record Receipt := mkReceipt {
  rc_MessageID : string; rc_Routed : bool; rc_State : receiptStatus; rc_Counts : Counts; rc_Deliveries : list DeliveryRef;
  rc_Duplicate : bool; rc_Skipped : bool }.

Definition countDelivery (c : Counts) (s : deliveryState) : Counts :=
  match s with
  | Pending => mkCounts (ct_Pending c + 1) (ct_Leased c) (ct_Succeeded c) (ct_Dead c) (ct_Cancelled c)
  | Leased => mkCounts (ct_Pending c) (ct_Leased c + 1) (ct_Succeeded c) (ct_Dead c) (ct_Cancelled c)
  | Succeeded => mkCounts (ct_Pending c) (ct_Leased c) (ct_Succeeded c + 1) (ct_Dead c) (ct_Cancelled c)
  | Dead => mkCounts (ct_Pending c) (ct_Leased c) (ct_Succeeded c) (ct_Dead c + 1) (ct_Cancelled c)
  | Cancelled => mkCounts (ct_Pending c) (ct_Leased c) (ct_Succeeded c) (ct_Dead c) (ct_Cancelled c + 1)
  end.
Definition receiptState (routed : bool) (c : Counts) : receiptStatus :=
  if negb routed then NotRouted else
  if ct_Pending c >? 0 then InState Pending else
  if ct_Leased c >? 0 then InState Leased else
  if ct_Dead c >? 0 then InState Dead else
  if ct_Cancelled c >? 0 then InState Cancelled else InState Succeeded.

(** [SELECT ... WHERE source_key=?]. *)
Definition find_message (key : string) (d : Database) : option (string * Message) :=
  head (rows_where (fun _ m => ms_key m =s key) (db_messages d)).
(** The deliveries of a message that were not retried, by channel. *)
Definition has_retry (d : Database) (id : string) : bool :=
  exists_where (fun _ r => bool_decide (dl_retry_of r = Some id)) (db_deliveries d).
Definition channel_before (a b : string * Delivery) : Prop := str_lt (dl_channel b.2) (dl_channel a.2) = false.
#[export] Instance channel_before_dec : RelDecision channel_before.
Proof. intros a b. unfold channel_before. apply _. Defined.
Definition current_deliveries (message : string) (d : Database) : list (string * Delivery) :=
  merge_sort channel_before (rows_where (fun id r => (dl_message r =s message) && negb (has_retry d id)) (db_deliveries d)).

Definition sourceReceipt (key : string) (d : Database) : result queueError Receipt :=
  match find_message key d with
  | None => Err ErrNotFound
  | Some (id, m) =>
      let refs := (fun kv => mkDeliveryRef kv.1 (dl_channel kv.2) (dl_revision kv.2) (dl_state kv.2) (dl_attempts kv.2)) <$> current_deliveries id d in
      let counts := foldl (fun c r => countDelivery c (df_State r)) (mkCounts 0 0 0 0 0) refs in
      Ok (mkReceipt id (ms_routed m) (receiptState (ms_routed m) counts) counts refs false false)
  end.
Definition SourceReceipt := sourceReceipt.

Definition duplicate (r : Receipt) : Receipt :=
  mkReceipt (rc_MessageID r) (rc_Routed r) (rc_State r) (rc_Counts r) (rc_Deliveries r) true (rc_Skipped r).
Definition skippedReceipt : Receipt := mkReceipt "" false Unset (mkCounts 0 0 0 0 0) [] false true.
