(* ===== verification/NoticeQueue.v ===== *)
(** * Notifications: the operations of the queue

    [internal/notificationqueue]: [enqueue.go], [enqueue_batch.go],
    [enqueue_batch_write.go], [lease.go], [complete.go], [failure_reconciliation.go],
    [maintenance.go], [retention_chains.go], [delivery_operations.go],
    [test_delivery.go], [channel_operations.go], [channels.go], [settings.go],
    [restore.go], [lifecycle_mutation.go], [operation_mutation.go] and the state part of
    [worker.go]. Each operation is one transaction over the tables of [NoticeModel].

    The clock, the identifiers, tokens and jitter drawn from the random source, and the
    encryption of a payload are parameters. A mutation of the caller is its outcome: what
    it writes is in tables of its own. The flags for observers and the wake-up channel
    are not modelled. *)

From S2P Require Import Prelude GoText GoNumber GoSha256 GoTable NoticeModel NoticeTemplate.

Record Actor := mkActor { ar_UserID : string; ar_SessionID : string; ar_RequestID : string }.
Record authorityRule := mkRule { ru_actor : Actor; ru_owner : bool; ru_recent : bool }.
Record selectedChannel := mkSelected { sc_id : string; sc_revision : Z }.
Record deliveryLease := mkLease {
  le_ID : string; le_MessageID : string; le_ChannelID : string; le_ChannelType : string; le_EventKind : string; le_Revision : Z;
  le_Attempt : Z; le_Hash : list Z; le_ExpiresAt : Z }.
Record SendResult := mkSendResult {
  sr_Success : bool; sr_Retryable : bool; sr_RetryAfter : Duration; sr_Code : string; sr_Stage : string; sr_Class : string }.

Definition deliveryLeaseLifetime : Duration := 90 * Second.
Definition failureWindowSeconds : Z := 15 * 60.
Definition maximumPrunedDeliveries : Z := 128.
Definition MaximumBatchMessages : Z := 2.
Definition is_test (event : string) : bool := event =s "notification.test".
Definition is_failure (event : string) : bool := event =s "notification.delivery_failed".
Definition active (d : Delivery) : bool := match dl_state d with Pending | Leased => true | _ => false end.
Definition in_state (s : deliveryState) (d : Delivery) : bool := bool_decide (dl_state d = s).
Definition in_progress (a : AttemptRow) : bool := bool_decide (at_outcome a = InProgress).

Section queue.
Context (clk : nat -> Time).
Context (draw_id : nat -> option string) (draw_token : nat -> option (list Z)) (draw_below : nat -> Z -> option Z).
Context (seal : list Z -> string -> option (list Z)).

Definition now : tx Time := fun w => Ok (clk (w_ticks w), mkWorld (w_db w) (S (w_ticks w)) (w_draws w)).
Definition draw {A} (f : nat -> option A) : tx A := fun w =>
  match f (w_draws w) with Some a => Ok (a, mkWorld (w_db w) (w_ticks w) (S (w_draws w))) | None => Err ErrQueueUnavailable end.
Definition newID : tx string := draw draw_id.

(** ** authority.go *)

Definition authorize (rule : authorityRule) : tx AdminRow :=
  if (ar_UserID (ru_actor rule) =s "") || (ar_SessionID (ru_actor rule) =s "") then fail ErrForbidden else
  row <~ query (fun d => db_admins d !! (ar_UserID (ru_actor rule), ar_SessionID (ru_actor rule))) ;;
  match row with
  | None => fail ErrForbidden
  | Some row =>
      t <~ now ;;
      if negb (ad_enabled row) || ad_revoked row || negb (Before t (ad_idle row)) || negb (Before t (ad_absolute row))
         || ru_owner rule && (ad_role row <>s "owner") then fail ErrForbidden else
      if ru_recent rule && negb (match ad_recent row with Some r => Before t r | None => false end) then fail ErrRecentAuth else
      ret row
  end.

Definition audit (rule : authorityRule) (action type resource : string) : tx unit :=
  row <~ authorize rule ;;
  _ <~ newID ;;
  t <~ now ;;
  exec (fun d => set_audit (db_audit d ++ [mkAuditRow action type resource (ad_username row) t]) d).

(** ** enqueue.go *)

(** The channels of a request, in the order of their identifiers. *)
Definition subscribed (r : Request) (id : string) (c : Channel) : bool :=
  str_in id (rq_ChannelIDs r) || rq_UseSubscriptions r && str_in (rq_EventKind r) (ch_kinds c).
Definition selectChannels (r : Request) (exclude : string) (force : option selectedChannel) (d : Database)
    : result queueError (list selectedChannel) :=
  match force with
  | Some c => Ok [c]
  | None =>
      let rows := ordered (fun _ _ => 0) (rows_where (fun _ c => ch_enabled c && bool_decide (ch_deleted c = None)) (db_channels d)) in
      let selected := filter (fun kv => subscribed r kv.1 kv.2 && (kv.1 <>s exclude) = true) rows in
      if llen selected >? MaximumChannels then Err ErrQueueCapacity else
      Ok ((fun kv => mkSelected kv.1 (ch_revision kv.2)) <$> selected)
  end.

Definition active_count (d : Database) : Z := count_where (fun _ r => active r) (db_deliveries d).
Definition checkQueueCapacity (added : Z) : tx unit :=
  count <~ query active_count ;;
  if count + added >? MaximumPendingDeliveries then fail ErrQueueCapacity else ret tt.

Definition encryptMessage (r : Request) (id : string) : tx (list Z) :=
  let data := <["event.kind" := rq_EventKind r]> (rq_Data r) in
  let payload := json_object [member "subject" true (json_string (rq_Subject r)); member "text" true (json_string (rq_Text r));
                              member "data" true (json_map data)] in
  if llen payload >? MaximumPayloadBytes then fail ErrInvalidRequest else
  match seal payload id with Some sealed => ret sealed | None => fail ErrQueueUnavailable end.

Definition insertDelivery (message : string) (channel : selectedChannel) (retryOf : option string) : tx string :=
  id <~ newID ;;
  t <~ now ;;
  let ms := UnixMilli t in
  insert_row db_deliveries set_deliveries id
    (mkDelivery message (sc_id channel) (sc_revision channel) Pending 0 ms None None "" "" "" "" retryOf ms ms None) >>>
  ret id.

Definition enqueueTx (r : Request) (exclude : string) (force : option selectedChannel) : tx Receipt :=
  selected <~ query (selectChannels r exclude force) ;;
  channels <~ lift selected ;;
  checkQueueCapacity (llen channels) >>>
  id <~ newID ;;
  sealed <~ encryptMessage r id ;;
  retention <~ query (fun d => st_dead_days (db_settings d)) ;;
  t <~ now ;;
  insert_row db_messages set_messages id
    (mkMessage (rq_SourceKey r) (rq_SourceKind r) (rq_SourceID r) (rq_EventKind r) sealed (llen channels >? 0) (llen channels)
       (UnixMilli t) (UnixMilli (Prelude.Add t (retention * 24 * Hour)))) >>>
  each (fun c => insertDelivery id c None >>> ret tt) channels >>>
  receipt <~ query (sourceReceipt (rq_SourceKey r)) ;;
  lift receipt.

(** The receipt of the source, or [absent] when there is no message of it. *)
Definition unless_sent (key : string) (absent : tx Receipt) : tx Receipt :=
  existing <~ query (sourceReceipt key) ;;
  match existing with
  | Ok receipt => ret (duplicate receipt)
  | Err ErrNotFound => absent
  | Err e => fail e
  end.

Definition run_mutation (mutation : option (result queueError unit)) : tx unit :=
  match mutation with Some r => lift r | None => ret tt end.

Definition Enqueue (commit : bool) (r : Request) (mutation : option (result queueError unit)) (d : Database)
    : result queueError Receipt * Database :=
  match validateRequest r with
  | Err e => (Err e, d)
  | Ok _ =>
      let (outcome, d) := transact_unless rc_Duplicate commit (unless_sent (rq_SourceKey r) (run_mutation mutation >>> enqueueTx r "" None)) d in
      (match outcome with Err ErrSkipMutation => Ok skippedReceipt | o => o end, d)
  end.

(** ** enqueue_batch.go and enqueue_batch_write.go *)

Fixpoint batch_loop (keys : gset string) (requests : list Request) : result queueError unit :=
  match requests with
  | [] => Ok tt
  | r :: rest =>
      let* _ := validateRequest r in
      if bool_decide (rq_SourceKey r ∈ keys) then Err ErrInvalidRequest else batch_loop ({[rq_SourceKey r]} ∪ keys) rest
  end.
Definition validateNotificationBatch (requests : list Request) : result queueError unit :=
  if (llen requests <? 1) || (llen requests >? MaximumBatchMessages) then Err ErrInvalidRequest else batch_loop ∅ requests.

Definition existing_receipts (requests : list Request) (d : Database) : list (result queueError Receipt) :=
  map (fun r => sourceReceipt (rq_SourceKey r) d) requests.
Definition found (rs : list (result queueError Receipt)) : list Receipt :=
  omap (fun r => match r with Ok x => Some (duplicate x) | Err _ => None end) rs.

Fixpoint preflight_total (requests : list Request) (d : Database) : result queueError Z :=
  match requests with
  | [] => Ok 0
  | r :: rest => let* channels := selectChannels r "" None d in let* total := preflight_total rest d in Ok (llen channels + total)
  end.

Fixpoint persistNotificationBatch (requests : list Request) : tx (list Receipt) :=
  match requests with
  | [] => ret []
  | r :: rest => receipt <~ enqueueTx r "" None ;; receipts <~ persistNotificationBatch rest ;; ret (receipt :: receipts)
  end.

(** [ErrConflict] joined with the error of the mutation is [ErrConflict]. *)
Definition resolveMixedBatch (mutation : option (result queueError unit)) : tx (list Receipt) :=
  match mutation with Some (Err ErrSkipMutation) => fail ErrSkipMutation | _ => fail ErrConflict end.

Definition enqueueBatchTx (requests : list Request) (mutation : option (result queueError unit)) : tx (list Receipt) :=
  existing <~ query (existing_receipts requests) ;;
  let receipts := found existing in
  if llen receipts =? llen requests then ret receipts else
  if negb (llen receipts =? 0) then resolveMixedBatch mutation else
  total <~ query (preflight_total requests) ;;
  total <~ lift total ;;
  checkQueueCapacity total >>>
  run_mutation mutation >>>
  persistNotificationBatch requests.

Definition EnqueueBatch (commit : bool) (requests : list Request) (mutation : option (result queueError unit)) (d : Database)
    : result queueError (list Receipt) * Database :=
  match validateNotificationBatch requests with
  | Err e => (Err e, d)
  | Ok _ =>
      let (outcome, d) := transact_unless (existsb rc_Duplicate) commit (enqueueBatchTx requests mutation) d in
      (match outcome with Err ErrSkipMutation => Ok (map (fun _ => skippedReceipt) requests) | o => o end, d)
  end.

(** ** operation_completion.go, lifecycle_mutation.go and operation_mutation.go *)

Definition operation_request (r : Request) : bool :=
  (rq_SourceKind r =s "operation") && ((rq_EventKind r =s "operation.completed") || (rq_EventKind r =s "operation.failed")).
Definition lifecycle_request (r : Request) : bool :=
  (rq_SourceKind r =s "node_lifecycle")
  && ((rq_EventKind r =s "node.expiring") || (rq_EventKind r =s "node.expired") || (rq_EventKind r =s "node.renewed")).

Definition EnqueueOperation (commit : bool) (r : Request) (mutation : result queueError unit) (d : Database)
    : result queueError Receipt * Database :=
  if negb (operation_request r) then (Err ErrInvalidRequest, d) else
  match validateRequest r with
  | Err e => (Err e, d)
  | Ok _ => transact commit (lift mutation >>> unless_sent (rq_SourceKey r) (enqueueTx r "" None)) d
  end.

Definition persistEvent (accepted : Request -> bool) (r : Request) : tx Receipt :=
  if negb (accepted r) then fail ErrInvalidRequest else
  lift (validateRequest r) >>> unless_sent (rq_SourceKey r) (enqueueTx r "" None).

(** [apply]: the request the caller's mutation asks for; [complete]: its second callback. *)
Definition MutateLifecycle (commit : bool) (apply : result queueError (option Request)) (complete : result queueError unit) (d : Database)
    : result queueError Receipt * Database :=
  transact commit
    (request <~ lift apply ;;
     receipt <~ match request with Some r => persistEvent lifecycle_request r | None => ret skippedReceipt end ;;
     lift complete >>> ret receipt) d.

Definition MutateOperation (commit : bool) (mutation : result queueError (option Request)) (d : Database)
    : result queueError unit * Database :=
  transact commit
    (request <~ lift mutation ;;
     match request with Some r => persistEvent operation_request r >>> ret tt | None => ret tt end) d.

(** ** failure_reconciliation.go *)

Definition failure_key (channel code : string) (window : Z) : string :=
  "notification-failure:" +:+ channel +:+ ":" +:+ code +:+ ":" +:+ FormatInt window.
Definition failure_request (key channel : string) : Request :=
  mkRequest key "notification_delivery" channel "notification.delivery_failed" "[Beat] Notification delivery failed"
    "A notification channel could not deliver a message. Review its delivery history." ∅ [] true.

Definition failureMessage (channel code : string) (observedAt : option Time) : tx unit :=
  t <~ match observedAt with Some t => ret t | None => now end ;;
  let key := failure_key channel code (Z.quot (Unix t) failureWindowSeconds) in
  existing <~ query (sourceReceipt key) ;;
  match existing with
  | Ok _ => ret tt
  | Err ErrNotFound => enqueueTx (failure_request key channel) channel None >>> ret tt
  | Err e => fail e
  end.

(** Whether [m] ran, or the queue was full: a full queue is found before anything is
    written or drawn, after one reading of the clock. *)
Definition unless_full (m : tx unit) : tx bool := fun w =>
  match m w with
  | Ok (_, w) => Ok (true, w)
  | Err ErrQueueCapacity => Ok (false, mkWorld (w_db w) (S (w_ticks w)) (w_draws w))
  | Err e => Err e
  end.
Definition deferCapacityFailure (channel code : string) : tx unit := unless_full (failureMessage channel code None) >>> ret tt.

Definition failure_window (completed : Z) : Z := Z.quot completed (failureWindowSeconds * 1000).
Definition event_of (d : Database) (r : Delivery) : option string := ms_event <$> db_messages d !! dl_message r.
Definition missing_failure (d : Database) (r : Delivery) : bool :=
  in_state Dead r && match event_of d r with Some e => negb (is_failure e) | None => false end
  && match dl_completed r with
     | Some t => negb (exists_where (fun _ m => ms_key m =s failure_key (dl_channel r) (dl_code r) (failure_window t)) (db_messages d))
     | None => false
     end.
Definition missingFailureMessages (d : Database) : list (string * Delivery) :=
  take 64 (ordered (fun _ r => default 0 (dl_completed r)) (rows_where (fun _ r => missing_failure d r) (db_deliveries d))).

Fixpoint reconcile_loop (missing : list (string * Delivery)) : tx unit :=
  match missing with
  | [] => ret tt
  | (_, r) :: rest =>
      sent <~ unless_full (failureMessage (dl_channel r) (dl_code r) (Some (unixEpoch + default 0 (dl_completed r) * Millisecond))) ;;
      if sent then reconcile_loop rest else ret tt
  end.
Definition ReconcileFailures (commit : bool) (d : Database) : result queueError unit * Database :=
  transact commit (missing <~ query missingFailureMessages ;; reconcile_loop missing) d.

(** ** lease.go *)

Definition set_lease (state : deliveryState) (attempts next : Z) (hash : option (list Z)) (expires : option Z) (worker : string)
    (completed : option Z) (updated : Z) (code stage class : string) (d : Delivery) : Delivery :=
  mkDelivery (dl_message d) (dl_channel d) (dl_revision d) state attempts next hash expires worker code stage class (dl_retry_of d)
    (dl_created d) updated completed.
Definition finish_attempt (out : outcome) (t : Z) (code stage : string) (class : option string) (a : AttemptRow) : AttemptRow :=
  mkAttemptRow (at_started a) (Some t) (Z.max 0 (t - at_started a)) out code stage (default (at_class a) class).

Definition expireOneLease (id : string) (r : Delivery) (t : Z) : tx unit :=
  let final := dl_attempts r >=? 6 in
  _ <~ update_attempt (id, dl_attempts r) in_progress (finish_attempt OutLeaseExpired t "lease_expired" "recovery" None) ;;
  exactlyOne ErrQueueUnavailable
    (update_delivery id (fun d => in_state Leased d && match dl_expires d with Some e => e <=? t | None => false end)
       (fun d => set_lease (if final then Dead else Pending) (dl_attempts d) t None None "" (if final then Some t else None) t
                   "lease_expired" "recovery" (dl_class d) d)).

Definition lease_expired (t : Z) (d : Delivery) : bool :=
  in_state Leased d && match dl_expires d with Some e => e <=? t | None => false end.
Definition expired_leases (t : Z) (d : Database) : list (string * Delivery * string) :=
  omap (fun kv => (fun event => (kv, event)) <$> event_of d kv.2)
    (take 64 (ordered (fun _ r => default 0 (dl_expires r))
       (rows_where (fun _ r => lease_expired t r && bool_decide (is_Some (event_of d r))) (db_deliveries d)))).

Definition recover_one (t : Z) (row : string * Delivery * string) : tx unit :=
  let '(id, r, event) := row in
  expireOneLease id r t >>>
  when ((dl_attempts r >=? 6) && negb (is_failure event)) (deferCapacityFailure (dl_channel r) "lease_expired").
Definition recoverExpiredTx : tx unit :=
  t <~ now ;;
  rows <~ query (expired_leases (UnixMilli t)) ;;
  each (recover_one (UnixMilli t)) rows.

Definition claimCapacity (d : Database) : bool :=
  count_where (fun _ r => in_state Leased r) (db_deliveries d) <? st_workers (db_settings d).

(** The conditions under which the delivery [id] may be leased at [t]. *)
Definition circuit_allows (d : Database) (r : Delivery) (t : Z) : bool :=
  match db_health d !! dl_channel r with
  | Some h => negb (hl_revision h =? dl_revision r) || (default 0 (hl_until h) <=? t)
  | None => 0 <=? t
  end.
Definition earlier (d : Database) (id : string) (r : Delivery) : bool :=
  exists_where (fun id' r' => (dl_channel r' =s dl_channel r) && active r'
                              && ((dl_created r' <? dl_created r) || (dl_created r' =? dl_created r) && str_lt id' id)) (db_deliveries d).
Definition channel_busy (d : Database) (channel : string) : bool :=
  exists_where (fun _ r' => (dl_channel r' =s channel) && in_state Leased r') (db_deliveries d).
Definition claimable (d : Database) (t : Z) (id : string) (r : Delivery) : bool :=
  in_state Pending r && (dl_attempts r <? 6) && (dl_next r <=? t)
  && match db_channels d !! dl_channel r, event_of d r, db_revisions d !! (dl_channel r, dl_revision r) with
     | Some c, Some event, Some _ =>
         bool_decide (ch_deleted c = None) && (ch_enabled c || is_test event) && negb (channel_busy d (dl_channel r))
         && (is_test event || circuit_allows d r t && negb (earlier d id r))
     | _, _, _ => false
     end.
(** Tests first, then by age. *)
Definition priority (d : Database) (r : Delivery) : Z := if default false (is_test <$> event_of d r) then 0 else 1.
Definition lease_before (d : Database) (a b : string * Delivery) : Prop :=
  priority d a.2 < priority d b.2 \/ priority d a.2 = priority d b.2 /\ by_key (dl_created a.2, a) (dl_created b.2, b).
#[global] Instance lease_before_dec d : RelDecision (lease_before d).
Proof. intros a b. unfold lease_before. apply _. Defined.
Definition selectDueLease (t : Z) (d : Database) : option (string * Delivery) :=
  head (merge_sort (lease_before d) (rows_where (claimable d t) (db_deliveries d))).

Definition claimTx (worker : string) : tx (option deliveryLease) :=
  recoverExpiredTx >>>
  capacity <~ query claimCapacity ;;
  if negb capacity then ret None else
  t <~ now ;;
  selected <~ query (selectDueLease (UnixMilli t)) ;;
  match selected with
  | None => ret None
  | Some (id, r) =>
      types <~ query (fun d => (default "" (rv_type <$> db_revisions d !! (dl_channel r, dl_revision r)), default "" (event_of d r))) ;;
      token <~ draw draw_token ;;
      t <~ now ;;
      let hash := Sum256 token in
      let expires := UnixMilli (Prelude.Add t deliveryLeaseLifetime) in
      let attempt := dl_attempts r + 1 in
      t <~ now ;;
      exactlyOne ErrQueueUnavailable
        (update_delivery id (fun d => in_state Pending d && (dl_attempts d =? attempt - 1))
           (fun d => set_lease Leased attempt (dl_next d) (Some hash) (Some expires) worker (dl_completed d) (UnixMilli t)
                       (dl_code d) (dl_stage d) (dl_class d) d)) >>>
      t <~ now ;;
      insert_row db_attempts set_attempts (id, attempt) (mkAttemptRow (UnixMilli t) None 0 InProgress "" "" "") >>>
      ret (Some (mkLease id (dl_message r) (dl_channel r) types.1 types.2 (dl_revision r) attempt hash expires))
  end.
Definition claim (commit : bool) (worker : string) (d : Database) : result queueError (option deliveryLease) * Database :=
  transact commit (claimTx worker) d.

(** ** complete.go *)

Definition retry_delays : list Duration := [5 * Second; 30 * Second; 2 * Minute; 10 * Minute; 30 * Minute].
Definition retryDelay (attempt : Z) (retryAfter : Duration) : tx Duration :=
  if (attempt <? 1) || (attempt >? llen retry_delays) then fail ErrInvalidRequest else
  let delay := default 0 (retry_delays !! Z.to_nat (attempt - 1)) in
  let delay := if retryAfter >? delay then Z.min retryAfter Hour else delay in
  jitter <~ draw (fun n => draw_below n (Z.quot delay 10 + 1)) ;;
  ret (delay + jitter).

Definition update_health_row (channel : string) (revision : Z) (f : Health -> Health) : tx unit :=
  exec (fun d => set_health (update_where (fun c h => (c =s channel) && (hl_revision h =? revision)) f (db_health d)) d).
Definition updateHealth (lease : deliveryLease) (r : SendResult) : tx unit :=
  t <~ now ;;
  let ms := UnixMilli t in
  if sr_Success r then
    update_health_row (le_ChannelID lease) (le_Revision lease)
      (fun h => mkHealth (hl_revision h) 0 false None (Some ms) (hl_failure h) "" "" ms)
  else if sr_Retryable r then
    t <~ now ;;
    let until := UnixMilli (Prelude.Add t (5 * Minute)) in
    update_health_row (le_ChannelID lease) (le_Revision lease)
      (fun h => let open := hl_failures h + 1 >=? 5 in
                mkHealth (hl_revision h) (hl_failures h + 1) (if open then true else hl_open h) (if open then Some until else hl_until h)
                  (hl_success h) (Some ms) (sr_Code r) (sr_Stage r) ms)
  else
    update_health_row (le_ChannelID lease) (le_Revision lease)
      (fun h => mkHealth (hl_revision h) (hl_failures h) (hl_open h) (hl_until h) (hl_success h) (Some ms) (sr_Code r) (sr_Stage r) ms).

(** The state, the outcome and the time of the next attempt that a result leads to. *)
Definition completion_state (lease : deliveryLease) (r : SendResult) (t : Time) : tx (deliveryState * outcome * Time) :=
  if sr_Success r then ret (Succeeded, OutSucceeded, t) else
  if negb (sr_Retryable r) then ret (Dead, OutPermanent, t) else
  if le_Attempt lease <? 6 then
    delay <~ retryDelay (le_Attempt lease) (sr_RetryAfter r) ;; ret (Pending, OutRetryable, Prelude.Add t delay)
  else ret (Dead, OutRetryable, t).

Definition holds_lease (lease : deliveryLease) (t : Z) (d : Delivery) : bool :=
  in_state Leased d && bool_decide (dl_hash d = Some (le_Hash lease)) && match dl_expires d with Some e => e >? t | None => false end.

Definition completeTx (lease : deliveryLease) (r : SendResult) : tx deliveryState :=
  t <~ now ;;
  next <~ completion_state lease r t ;;
  let '(state, out, at_) := next in
  let ms := UnixMilli t in
  exactlyOne ErrLeaseLost
    (update_delivery (le_ID lease) (holds_lease lease ms)
       (fun d => set_lease state (dl_attempts d) (UnixMilli at_) None None "" (if decide (state = Pending) then None else Some ms) ms
                   (sr_Code r) (sr_Stage r) (sr_Class r) d)) >>>
  exactlyOne ErrQueueUnavailable
    (update_attempt (le_ID lease, le_Attempt lease) in_progress (finish_attempt out ms (sr_Code r) (sr_Stage r) (Some (sr_Class r)))) >>>
  updateHealth lease r >>>
  ret state.

Definition complete (commit : bool) (lease : deliveryLease) (r : SendResult) (d : Database) : result queueError unit * Database :=
  transact commit
    (state <~ completeTx lease r ;;
     when (bool_decide (state = Dead) && negb (is_failure (le_EventKind lease))) (deferCapacityFailure (le_ChannelID lease) (sr_Code r))) d.

(** ** worker.go *)

(** What the worker reads before it sends: the row must still hold the lease. *)
Definition readDispatch (lease : deliveryLease) (t : Z) (d : Database) : result queueError (Revision * Message) :=
  match db_deliveries d !! le_ID lease with
  | None => Err ErrLeaseLost
  | Some r =>
      match db_messages d !! dl_message r, db_channels d !! dl_channel r, db_revisions d !! (dl_channel r, dl_revision r) with
      | Some m, Some c, Some rev =>
          if negb (holds_lease lease t r) then Err ErrLeaseLost else
          if bool_decide (is_Some (ch_deleted c)) || negb (ch_enabled c) && negb (is_test (le_EventKind lease)) then Err errChannelPaused
          else Ok (rev, m)
      | _, _, _ => Err ErrLeaseLost
      end
  end.

(** The result a worker completes a lease with, or the error it stops with: [stopping]
    when the worker is being stopped, [sent] the result of the sender. *)
Definition process_result (read : result queueError (Revision * Message)) (stopping : bool) (sent : SendResult) : result queueError SendResult :=
  match read with
  | Ok _ => Ok sent
  | Err errChannelPaused => Ok (mkSendResult false true 0 "channel_disabled" "policy" "")
  | Err e => if stopping then Ok (mkSendResult false true 0 "request_cancelled" "request" "") else Err e
  end.

(** ** retention_chains.go and maintenance.go *)

Definition completed_before (d : Delivery) (cutoff : Z) : bool := match dl_completed d with Some t => t <? cutoff | None => false end.
Definition expired_root (success dead : Z) (d : Delivery) : bool :=
  bool_decide (dl_retry_of d = None)
  && ((in_state Succeeded d || in_state Cancelled d) && completed_before d success || in_state Dead d && completed_before d dead).
Definition child_of (d : Database) (id : string) : option string :=
  fst <$> head (rows_where (fun _ r => bool_decide (dl_retry_of r = Some id)) (db_deliveries d)).
Definition expiredDeliveryRoots (success dead limit : Z) (d : Database) : list (string * option string) :=
  (fun kv => (kv.1, child_of d kv.1)) <$>
    take (Z.to_nat limit) (ordered (fun _ r => default 0 (dl_completed r)) (rows_where (fun _ r => expired_root success dead r) (db_deliveries d))).

(** Deleting a delivery deletes its attempts. *)
Definition delete_delivery (id : string) (c : Delivery -> bool) : tx Z := fun w =>
  match db_deliveries (w_db w) !! id with
  | Some d => if c d then Ok (1, mkWorld (set_attempts (delete_where (fun k _ => k.1 =s id) (db_attempts (w_db w)))
                                            (set_deliveries (delete id (db_deliveries (w_db w))) (w_db w))) (w_ticks w) (w_draws w))
              else Ok (0, w)
  | None => Ok (0, w)
  end.
Definition set_retry_of (v : option string) (d : Delivery) : Delivery :=
  mkDelivery (dl_message d) (dl_channel d) (dl_revision d) (dl_state d) (dl_attempts d) (dl_next d) (dl_hash d) (dl_expires d) (dl_worker d)
    (dl_code d) (dl_stage d) (dl_class d) v (dl_created d) (dl_updated d) (dl_completed d).
Definition pruneDeliveryRoot (root : string * option string) : tx unit :=
  exactlyOne ErrQueueUnavailable (delete_delivery root.1 (fun d => bool_decide (dl_retry_of d = None))) >>>
  match root.2 with
  | None => ret tt
  | Some child => exactlyOne ErrQueueUnavailable (update_delivery child (fun d => bool_decide (dl_retry_of d = Some root.1)) (set_retry_of None))
  end.

(** Every round but the last deletes a delivery, so there are at most 129. *)
Fixpoint prune_rounds (fuel : nat) (success dead remaining : Z) : tx unit :=
  match fuel with
  | O => ret tt
  | S fuel =>
      if negb (remaining >? 0) then ret tt else
      roots <~ query (expiredDeliveryRoots success dead remaining) ;;
      match roots with
      | [] => ret tt
      | _ => each pruneDeliveryRoot roots >>> prune_rounds fuel success dead (remaining - llen roots)
      end
  end.
Definition pruneDeliveryChains (success dead : Z) : tx unit :=
  prune_rounds (S (Z.to_nat maximumPrunedDeliveries)) success dead maximumPrunedDeliveries.

Definition stale_message (d : Database) (t : Z) (id : string) (m : Message) : bool :=
  negb (exists_where (fun _ r => dl_message r =s id) (db_deliveries d))
  && negb (exists_where (fun _ r => in_state Dead r && match dl_completed r with
                                    | Some c => ms_key m =s failure_key (dl_channel r) (dl_code r) (failure_window c)
                                    | None => false
                                    end) (db_deliveries d))
  && (ms_routed m || (ms_retain m <? t)).
Definition prune_messages (t : Z) (d : Database) : Database :=
  let stale := (take 128 (ordered (fun _ m => ms_created m) (rows_where (stale_message d t) (db_messages d)))).*1 in
  set_messages (delete_where (fun id _ => str_in id stale) (db_messages d)) d.

Definition stale_revision (d : Database) (key : string * Z) : bool :=
  match db_channels d !! key.1 with
  | Some c => negb (key.2 =? ch_revision c)
              && negb (exists_where (fun _ r => (dl_channel r =s key.1) && (dl_revision r =? key.2)) (db_deliveries d))
  | None => false
  end.
Definition prune_revisions (d : Database) : Database :=
  let stale := (take 128 (rows_where (fun k _ => stale_revision d k) (db_revisions d))).*1 in
  set_revisions (delete_where (fun k _ => bool_decide (k ∈ stale)) (db_revisions d)) d.

Definition days (n : Z) : Duration := n * 24 * Hour.
Definition Prune (commit : bool) (d : Database) : result queueError unit * Database :=
  transact commit
    (settings <~ query db_settings ;;
     t <~ now ;;
     pruneDeliveryChains (UnixMilli (Prelude.Add t (- days (st_success_days settings)))) (UnixMilli (Prelude.Add t (- days (st_dead_days settings)))) >>>
     exec (prune_messages (UnixMilli t)) >>>
     exec prune_revisions >>>
     exec (fun d => set_budgets (delete_where (fun k _ => k.2 <? Unix (Prelude.Add t (- Hour))) (db_budgets d)) d)) d.

(** ** test_delivery.go *)

Definition currentChannel (id : string) (d : Database) : result queueError selectedChannel :=
  match db_channels d !! id with
  | Some c => if bool_decide (ch_deleted c = None) then (if ch_revision c <? 1 then Err ErrQueueUnavailable else Ok (mkSelected id (ch_revision c)))
              else Err ErrNotFound
  | None => Err ErrNotFound
  end.

Definition consumeBudget (kind scope : string) (seconds limit : Z) : tx unit :=
  t <~ now ;;
  let window := Z.quot (Unix t) seconds * seconds in
  count <~ query (fun d => db_budgets d !! (kind, scope, window)) ;;
  match count with
  | None => exec (fun d => set_budgets (<[(kind, scope, window) := 1]> (db_budgets d)) d)
  | Some n => if n <? limit then exec (fun d => set_budgets (<[(kind, scope, window) := n + 1]> (db_budgets d)) d) else fail ErrRateLimited
  end.

Definition testSourceKey (actor : Actor) (id : string) : tx string :=
  request <~ (if ar_RequestID actor =s "" then newID else ret (ar_RequestID actor)) ;;
  ret ("notification-test:" +:+ ar_UserID actor +:+ ":" +:+ id +:+ ":" +:+ request).

(** [occurred]: the time of the test in RFC 3339. *)
Definition TestChannel (commit : bool) (actor : Actor) (id occurred : string) (d : Database) : result queueError Receipt * Database :=
  let rule := mkRule actor false false in
  transact_unless rc_Duplicate commit
    (authorize rule >>>
     key <~ testSourceKey actor id ;;
     unless_sent key
       (channel <~ query (currentChannel id) ;;
        channel <~ lift channel ;;
        consumeBudget "test_channel" id 600 5 >>>
        consumeBudget "test_actor" (ar_UserID actor) 3600 30 >>>
        receipt <~ enqueueTx (mkRequest key "notification_test" id "notification.test" "[Beat] Test notification"
                                "This is a test notification from Beat." {["event.occurred_at" := occurred]} [] false) "" (Some channel) ;;
        audit rule "notification.channel.test" "notification_delivery" (default "" (df_ID <$> head (rc_Deliveries receipt))) >>>
        ret receipt)) d.

(** ** delivery_operations.go *)

Definition retrySource (id : string) (d : Database) : result queueError Delivery :=
  match db_deliveries d !! id with
  | None => Err ErrNotFound
  | Some r => if in_state Dead r then Ok r else Err ErrConflict
  end.
Definition retryChild (id : string) (d : Database) : option (string * Delivery) :=
  head (rows_where (fun _ r => bool_decide (dl_retry_of r = Some id)) (db_deliveries d)).

(** The delivery that retries, and whether it was there before. *)
Definition RetryDelivery (commit : bool) (actor : Actor) (id : string) (confirm : bool) (d : Database)
    : result queueError (DeliveryRef * bool) * Database :=
  if negb confirm then (Err ErrInvalidRequest, d) else
  let rule := mkRule actor true true in
  transact_unless snd commit
    (authorize rule >>>
     source <~ query (retrySource id) ;;
     source <~ lift source ;;
     existing <~ query (retryChild id) ;;
     match existing with
     | Some (child, r) => ret (mkDeliveryRef child (dl_channel r) (dl_revision r) (dl_state r) (dl_attempts r), true)
     | None =>
         channel <~ query (currentChannel (dl_channel source)) ;;
         channel <~ lift channel ;;
         checkQueueCapacity 1 >>>
         child <~ insertDelivery (dl_message source) channel (Some id) ;;
         audit rule "notification.delivery.retry" "notification_delivery" child >>>
         ret (mkDeliveryRef child (dl_channel source) (sc_revision channel) Pending 0, false)
     end) d.

Definition cancel_row (t : Z) (code : string) (d : Delivery) : Delivery :=
  set_lease Cancelled (dl_attempts d) (dl_next d) None None "" (Some t) t code "policy" (dl_class d) d.
Definition cancel_attempts (t : Z) (code : string) (c : string -> bool) (d : Database) : Database :=
  set_attempts (update_where (fun k a => in_progress a && c k.1) (finish_attempt OutCancelled t code "policy" None) (db_attempts d)) d.

Definition CancelDelivery (commit : bool) (actor : Actor) (id : string) (d : Database) : result queueError unit * Database :=
  let rule := mkRule actor true true in
  transact commit
    (authorize rule >>>
     row <~ query (fun d => db_deliveries d !! id) ;;
     match row with
     | None => fail ErrNotFound
     | Some r =>
         if negb (active r) then fail ErrConflict else
         t <~ now ;;
         let ms := UnixMilli t in
         exec (cancel_attempts ms "operator_cancelled" (String.eqb id)) >>>
         exactlyOne ErrConflict (update_delivery id active (cancel_row ms "operator_cancelled")) >>>
         audit rule "notification.delivery.cancel" "notification_delivery" id
     end) d.

(** ** channel_operations.go *)

Definition cancelChannelDeliveries (channel : string) : tx unit :=
  t <~ now ;;
  let ms := UnixMilli t in
  exec (fun d => cancel_attempts ms "channel_deleted"
                   (fun id => match db_deliveries d !! id with Some r => (dl_channel r =s channel) && in_state Leased r | None => false end) d) >>>
  exec (fun d => set_deliveries (update_where (fun _ r => (dl_channel r =s channel) && active r) (cancel_row ms "channel_deleted") (db_deliveries d)) d).

Definition changeChannelState (commit : bool) (actor : Actor) (id : string) (enabled deleted : bool) (d : Database) : result queueError unit * Database :=
  let rule := mkRule actor deleted deleted in
  transact commit
    (authorize rule >>>
     row <~ query (fun d => db_channels d !! id) ;;
     match row with
     | None => fail ErrNotFound
     | Some c =>
         if negb (bool_decide (ch_deleted c = None)) then fail ErrNotFound else
         t <~ now ;;
         (if deleted
          then t' <~ now ;; exec (fun d => set_channels (<[id := mkChannel (ch_name c) (ch_type c) false (ch_revision c) (ch_kinds c) (Some t) t']> (db_channels d)) d)
          else exec (fun d => set_channels (<[id := mkChannel (ch_name c) (ch_type c) enabled (ch_revision c) (ch_kinds c) (ch_deleted c) t]> (db_channels d)) d)) >>>
         when deleted (cancelChannelDeliveries id) >>>
         audit rule (if deleted then "notification.channel.delete" else "notification.channel.enable") "notification_channel" id
     end) d.
Definition SetEnabled (commit : bool) (actor : Actor) (id : string) (enabled : bool) := changeChannelState commit actor id enabled false.
Definition DeleteChannel (commit : bool) (actor : Actor) (id : string) := changeChannelState commit actor id false true.

(** ** channels.go and channel_preparation.go *)

Record ChannelWrite := mkChannelWrite {
  cw_Name : string; cw_Type : string; cw_Enabled : bool; cw_ExpectedRevision : Z; cw_Kinds : list string; cw_Subject : string; cw_Text : string }.
(** A prepared write: the channel, or a new one when [previous] is [None], its next
    revision, the revision of the settings it was checked against, and the secret part
    of its configuration. *)
Record preparedChannel := mkPrepared { pc_id : string; pc_previous : option string; pc_revision : Z; pc_policy : Z; pc_secret : list Z }.

Definition validateChannelWrite (previous : option string) (w : ChannelWrite) : result queueError unit :=
  if negb (scalar_within 200 (cw_Name w)) then Err ErrInvalidRequest else
  if bool_decide (is_Some previous) && (cw_ExpectedRevision w <? 1) then Err ErrConflict else
  if llen (cw_Kinds w) >? llen enabledEventKinds then Err ErrInvalidRequest else
  if negb (forallb (fun kind => str_in kind enabledEventKinds && negb (is_test kind)) (cw_Kinds w)) then Err ErrInvalidRequest else
  match CompileTemplate (cw_Subject w) false, CompileTemplate (cw_Text w) false with
  | Ok _, Ok _ => Ok tt
  | _, _ => Err errTemplate
  end.

Definition live_channels (d : Database) : Z := count_where (fun _ c => bool_decide (ch_deleted c = None)) (db_channels d).
Definition revalidatePreparedChannel (p : preparedChannel) (d : Database) : result queueError unit :=
  if negb (st_revision (db_settings d) =? pc_policy p) then Err ErrConflict else
  match pc_previous p with
  | None => if live_channels d >=? MaximumChannels then Err ErrQueueCapacity else Ok tt
  | Some _ =>
      match db_channels d !! pc_id p with
      | Some c => if negb (bool_decide (ch_deleted c = None)) then Err ErrNotFound else
                  if ch_revision c =? pc_revision p - 1 then Ok tt else Err ErrConflict
      | None => Err ErrNotFound
      end
  end.

Fixpoint uniqueStrings (last : option string) (l : list string) : list string :=
  match l with
  | [] => []
  | x :: rest => if bool_decide (last = Some x) then uniqueStrings last rest else x :: uniqueStrings (Some x) rest
  end.
Definition str_le (a b : string) : Prop := str_lt b a = false.
#[global] Instance str_le_dec : RelDecision str_le.
Proof. intros a b. unfold str_le. apply _. Defined.

Definition write_channel_row (p : preparedChannel) (w : ChannelWrite) (t : Time) : tx unit :=
  let row := mkChannel (cw_Name w) (cw_Type w) (cw_Enabled w) (pc_revision p) (uniqueStrings None (merge_sort str_le (cw_Kinds w))) None t in
  match pc_previous p with
  | None => insert_row db_channels set_channels (pc_id p) row
  | Some _ =>
      old <~ query (fun d => db_channels d !! pc_id p) ;;
      match old with
      | Some c => if (ch_revision c =? cw_ExpectedRevision w) && bool_decide (ch_deleted c = None)
                  then exec (fun d => set_channels (<[pc_id p := row]> (db_channels d)) d) else fail ErrQueueUnavailable
      | None => fail ErrQueueUnavailable
      end
  end.
Definition persistChannel (p : preparedChannel) (w : ChannelWrite) : tx unit :=
  t <~ now ;;
  write_channel_row p w t >>>
  _ <~ newID ;;
  match seal (pc_secret p) (pc_id p) with
  | None => fail ErrQueueUnavailable
  | Some sealed =>
      t' <~ now ;;
      insert_row db_revisions set_revisions (pc_id p, pc_revision p) (mkRevision (cw_Type w) sealed (cw_Subject w) (cw_Text w) (UnixMilli t')) >>>
      exec (fun d =>
        let row := match db_health d !! pc_id p with
                   | Some h => mkHealth (pc_revision p) 0 false None (hl_success h) (hl_failure h) "" "" (UnixMilli t)
                   | None => mkHealth (pc_revision p) 0 false None None None "" "" (UnixMilli t)
                   end in
        set_health (<[pc_id p := row]> (db_health d)) d)
  end.

(** [previous]: the channel that is changed; [prepared]: the outcome of [prepareChannel],
    which reads the database and checks the configuration before the transaction. *)
Definition writeChannel (commit : bool) (actor : Actor) (previous : option string) (prepared : result queueError preparedChannel) (w : ChannelWrite)
    (d : Database) : result queueError unit * Database :=
  match validateChannelWrite previous w, prepared with
  | Err e, _ => (Err e, d)
  | _, Err e => (Err e, d)
  | Ok _, Ok p =>
      let rule := mkRule actor true true in
      transact commit
        (authorize rule >>>
         valid <~ query (revalidatePreparedChannel p) ;;
         lift valid >>>
         persistChannel p w >>>
         audit rule "notification.channel.write" "notification_channel" (pc_id p)) d
  end.

(** ** settings.go *)

(** [policy]: the encoded egress policy, when [ValidateEgressPolicy] accepts it. *)
Definition UpdateSettings (commit : bool) (actor : Actor) (expected success dead workers : Z) (policy : option string) (d : Database)
    : result queueError Settings * Database :=
  if (expected <? 1) || (success <? 7) || (success >? 365) || (dead <? 30) || (dead >? 730) || (workers <? 1) || (workers >? 32)
  then (Err ErrInvalidRequest, d) else
  match policy with
  | None => (Err errProviderConfig, d)
  | Some policy =>
      let rule := mkRule actor true true in
      transact commit
        (authorize rule >>>
         settings <~ query db_settings ;;
         if negb (st_revision settings =? expected) then fail ErrConflict else
         exec (set_settings (mkSettings (st_revision settings + 1) success dead workers policy)) >>>
         audit rule "notification.settings.update" "notification_settings" "global" >>>
         query db_settings) d
  end.

(** ** restore.go *)

Definition restore_attempts (t : Z) (d : Database) : Database :=
  set_attempts (update_where (fun k a => in_progress a && match db_deliveries d !! k.1 with Some r => lease_expired t r | None => false end)
                  (finish_attempt OutLeaseExpired t "restore_recovery" "recovery" None) (db_attempts d)) d.
Definition restore_deliveries (t : Z) (d : Database) : Database :=
  set_deliveries (update_where (fun _ r => lease_expired t r)
    (fun r => let final := dl_attempts r >=? 6 in
              set_lease (if final then Dead else Pending) (dl_attempts r) t None None "" (if final then Some t else None) t
                "restore_recovery" "recovery" (dl_class r) r) (db_deliveries d)) d.
Definition ReconcileRestore (commit : bool) (t : Time) (d : Database) : result queueError unit * Database :=
  transact commit
    (exec (restore_attempts (UnixMilli t)) >>>
     exec (restore_deliveries (UnixMilli t)) >>>
     _ <~ newID ;;
     exec (fun d => set_audit (db_audit d ++ [mkAuditRow "notification.restore.reconcile" "notification_queue" "restore" "system" t]) d)) d.
End queue.
