(* ===== verification/NoticeInvariant.v ===== *)
(** * Notifications: what every operation keeps

    The invariant of the notification tables: leases and attempts agree, a channel has at
    most one delivery on the way, retries form chains, references point to rows, and the
    queue stays within its bounds. It is what the CHECK clauses, the unique indexes and
    the foreign keys of the schema ask for, and more; the operations keep it by themselves. *)

From S2P Require Import Prelude GoText GoNumber GoSha256 GoTable NoticeModel NoticeQueue.

(** ** Transactions *)

Lemma query_ok {A} (f : Database -> A) w a w1 : query f w = Ok (a, w1) -> a = f (w_db w) /\ w1 = w.
Proof. unfold query. naive_solver. Qed.

Lemma exec_ok f w u w1 : exec f w = Ok (u, w1) -> w_db w1 = f (w_db w).
Proof. unfold exec. by intros [= <- <-]. Qed.

Lemma now_ok clk w t w1 : now clk w = Ok (t, w1) -> w_db w1 = w_db w.
Proof. unfold now. by intros [= <- <-]. Qed.

Lemma now_clk clk w t w1 : now clk w = Ok (t, w1) -> t = clk (w_ticks w).
Proof. unfold now. by intros [= <- <-]. Qed.

Lemma draw_ok {A} (f : nat -> option A) w a w1 : draw f w = Ok (a, w1) -> w_db w1 = w_db w.
Proof. unfold draw. destruct (f _); [|done]. by intros [= <- <-]. Qed.

Lemma insert_row_ok `{Countable K} {V} (table : Database -> gmap K V) set k v w u w1 :
  insert_row table set k v w = Ok (u, w1) -> table (w_db w) !! k = None /\ w_db w1 = set (<[k := v]> (table (w_db w))) (w_db w).
Proof. unfold insert_row. destruct (table (w_db w) !! k); [done|]. by intros [= <- <-]. Qed.

Lemma update_delivery_ok id c f w n w1 : update_delivery id c f w = Ok (n, w1) ->
  n = 1 /\ (exists d, db_deliveries (w_db w) !! id = Some d /\ c d = true /\
                      w_db w1 = set_deliveries (<[id := f d]> (db_deliveries (w_db w))) (w_db w)) \/ n = 0 /\ w1 = w.
Proof.
  unfold update_delivery. destruct (db_deliveries (w_db w) !! id) as [d|] eqn:E; [|naive_solver].
  destruct (c d) eqn:Ec; intros [= <- <-]; [left; split; [done|]; by exists d|by right].
Qed.

Lemma update_attempt_ok key c f w n w1 : update_attempt key c f w = Ok (n, w1) ->
  n = 1 /\ (exists a, db_attempts (w_db w) !! key = Some a /\ c a = true /\
                      w_db w1 = set_attempts (<[key := f a]> (db_attempts (w_db w))) (w_db w)) \/ n = 0 /\ w1 = w /\
           (forall a, db_attempts (w_db w) !! key = Some a -> c a = false).
Proof.
  unfold update_attempt. destruct (db_attempts (w_db w) !! key) as [a|] eqn:E; [|naive_solver].
  destruct (c a) eqn:Ec; intros [= <- <-]; [left; split; [done|]; by exists a|right; naive_solver].
Qed.

Lemma exactlyOne_ok e m w u w1 : exactlyOne e m w = Ok (u, w1) -> m w = Ok (1, w1).
Proof.
  unfold exactlyOne. intros (n & w2 & Hm & Hn)%andThen_ok. destruct (n =? 1) eqn:E; [|done]. apply Z.eqb_eq in E as ->.
  by apply ret_ok in Hn as [_ ->].
Qed.

Lemma update_one_ok e id c f w u w1 : exactlyOne e (update_delivery id c f) w = Ok (u, w1) ->
  exists d, db_deliveries (w_db w) !! id = Some d /\ c d = true /\ w_db w1 = set_deliveries (<[id := f d]> (db_deliveries (w_db w))) (w_db w).
Proof. intros [[_ H]|[H _]]%exactlyOne_ok%update_delivery_ok; [done|lia]. Qed.

Lemma update_one_attempt_ok e key c f w u w1 : exactlyOne e (update_attempt key c f) w = Ok (u, w1) ->
  exists a, db_attempts (w_db w) !! key = Some a /\ c a = true /\ w_db w1 = set_attempts (<[key := f a]> (db_attempts (w_db w))) (w_db w).
Proof. intros [[_ H]|[H _]]%exactlyOne_ok%update_attempt_ok; [done|lia]. Qed.

(** A transaction that starts and ends in databases with a property. *)
Definition keeps {A} (P : Database -> Prop) (m : tx A) : Prop := forall w a w1, P (w_db w) -> m w = Ok (a, w1) -> P (w_db w1).

Lemma keeps_then {A B} P (m : tx A) (k : A -> tx B) : keeps P m -> (forall a, keeps P (k a)) -> keeps P (andThen m k).
Proof. intros Hm Hk w b w2 Hw (a & w1 & Ha & Hb)%andThen_ok. eapply Hk; [|done]. by eapply Hm. Qed.

Lemma keeps_ret {A} P (a : A) : keeps P (ret a).
Proof. intros w b w1 Hw [_ ->]%ret_ok. done. Qed.

Lemma keeps_fail {A} P e : keeps P (fail e : tx A).
Proof. done. Qed.

Lemma keeps_query {A} P (f : Database -> A) : keeps P (query f).
Proof. intros w a w1 Hw [_ ->]%query_ok. done. Qed.

Lemma keeps_lift {A} P (r : result queueError A) : keeps P (lift r).
Proof. intros w a w1 Hw [_ ->]%lift_ok. done. Qed.

Lemma keeps_now P clk : keeps P (now clk).
Proof. intros w t w1 Hw Hn%now_ok. by rewrite Hn. Qed.

Lemma keeps_draw {A} P (f : nat -> option A) : keeps P (draw f).
Proof. intros w t w1 Hw Hn%draw_ok. by rewrite Hn. Qed.

Lemma keeps_exec (P : Database -> Prop) f : (forall d, P d -> P (f d)) -> keeps P (exec f).
Proof. intros Hf w u w1 Hw He%exec_ok. rewrite He. auto. Qed.

Lemma keeps_each {A} P (f : A -> tx unit) l : (forall a, a ∈ l -> keeps P (f a)) -> keeps P (each f l).
Proof.
  induction l as [|a l IH]; intros Hf; cbn; [apply keeps_ret|]. apply keeps_then; [apply Hf; by constructor|].
  intros _. apply IH. intros b Hb. apply Hf. by constructor.
Qed.

Lemma keeps_when P b m : keeps P m -> keeps P (when b m).
Proof. intros Hm. destruct b; [done|apply keeps_ret]. Qed.

Lemma keeps_unless_full P m : keeps P m -> keeps P (unless_full m).
Proof.
  intros Hm w b w1 Hw. unfold unless_full. destruct (m w) as [[u w2]|[]] eqn:E; intros [= <- <-]; [eapply Hm; [exact Hw|exact E]|done].
Qed.

Lemma transact_keeps {A} (P : Database -> Prop) early commit (m : tx A) d : keeps P m -> P d -> P (transact_unless early commit m d).2.
Proof.
  intros Hm Hd. unfold transact_unless. destruct (m (mkWorld d 0 0)) as [[a w]|e] eqn:E; [|done]. destruct (early a); [done|].
  destruct commit; [|done]. cbn. eapply Hm; [|exact E]. done.
Qed.

Lemma commit_keeps {A} (P : Database -> Prop) commit (m : tx A) d : keeps P m -> P d -> P (transact commit m d).2.
Proof. apply transact_keeps. Qed.

#[export] Hint Resolve keeps_then keeps_ret keeps_fail keeps_query keeps_lift keeps_now keeps_draw keeps_when keeps_unless_full : notice.

(** ** The invariant *)

Abbreviation deliveries := (gmap string Delivery) (only parsing).

(** The columns of a delivery fit its state. *)
Definition delivery_ok (r : Delivery) : Prop :=
  match dl_state r with
  | Pending => 0 <= dl_attempts r < 6 /\ dl_hash r = None /\ dl_expires r = None /\ dl_completed r = None
  | Leased => 1 <= dl_attempts r <= 6 /\ is_Some (dl_hash r) /\ is_Some (dl_expires r) /\ dl_completed r = None
  | _ => 0 <= dl_attempts r <= 6 /\ dl_hash r = None /\ dl_expires r = None /\ is_Some (dl_completed r)
  end.
Definition deliveries_ok (ds : deliveries) : Prop := map_Forall (fun _ => delivery_ok) ds.

Definition single_flight (ds : deliveries) : Prop := forall id1 id2 r1 r2,
  ds !! id1 = Some r1 -> ds !! id2 = Some r2 -> dl_state r1 = Leased -> dl_state r2 = Leased -> dl_channel r1 = dl_channel r2 -> id1 = id2.

(** Exactly the attempt of the current lease is in progress. *)
Definition attempts_ok (ds : deliveries) (ats : gmap (string * Z) AttemptRow) : Prop :=
  (forall id n a, ats !! (id, n) = Some a -> exists r, ds !! id = Some r /\ 1 <= n <= dl_attempts r /\
      (at_outcome a = InProgress -> dl_state r = Leased /\ n = dl_attempts r)) /\
  (forall id r, ds !! id = Some r -> dl_state r = Leased -> exists a, ats !! (id, dl_attempts r) = Some a /\ at_outcome a = InProgress).

(** References point to rows, and nothing waits for a channel that is gone. *)
Definition refs_ok (ds : deliveries) (ms : gmap string Message) (chs : gmap string Channel) (rvs : gmap (string * Z) Revision) : Prop :=
  forall id r, ds !! id = Some r -> is_Some (ms !! dl_message r) /\ is_Some (rvs !! (dl_channel r, dl_revision r)) /\
    exists c, chs !! dl_channel r = Some c /\ (active r = true -> ch_deleted c = None).
Definition channels_ok (chs : gmap string Channel) (rvs : gmap (string * Z) Revision) : Prop :=
  forall id c, chs !! id = Some c -> is_Some (rvs !! (id, ch_revision c)).
Definition keys_ok (ms : gmap string Message) : Prop := forall id1 id2 m1 m2,
  ms !! id1 = Some m1 -> ms !! id2 = Some m2 -> ms_key m1 = ms_key m2 -> id1 = id2.

(** One original for a message and a channel, and chains of retries of dead deliveries. *)
Definition chains_ok (ds : deliveries) : Prop :=
  (forall id1 id2 r1 r2, ds !! id1 = Some r1 -> ds !! id2 = Some r2 -> dl_retry_of r1 = None -> dl_retry_of r2 = None ->
     dl_message r1 = dl_message r2 -> dl_channel r1 = dl_channel r2 -> id1 = id2) /\
  (forall id1 id2 r1 r2 p, ds !! id1 = Some r1 -> ds !! id2 = Some r2 -> dl_retry_of r1 = Some p -> dl_retry_of r2 = Some p -> id1 = id2) /\
  (forall id r p, ds !! id = Some r -> dl_retry_of r = Some p ->
     exists r', ds !! p = Some r' /\ dl_state r' = Dead /\ dl_message r' = dl_message r /\ dl_channel r' = dl_channel r).

Definition bounds_ok (ds : deliveries) (st : Settings) : Prop :=
  count_where (fun _ r => active r) ds <= MaximumPendingDeliveries /\ count_where (fun _ r => in_state Leased r) ds <= 32 /\ 1 <= st_workers st <= 32.

Definition wf (d : Database) : Prop :=
  deliveries_ok (db_deliveries d) /\ single_flight (db_deliveries d) /\ attempts_ok (db_deliveries d) (db_attempts d) /\
  refs_ok (db_deliveries d) (db_messages d) (db_channels d) (db_revisions d) /\ channels_ok (db_channels d) (db_revisions d) /\
  keys_ok (db_messages d) /\ chains_ok (db_deliveries d) /\ bounds_ok (db_deliveries d) (db_settings d).

(** ** Deliveries that change in place *)

(** A delivery keeps its identity; a dead one stays dead, and none becomes active again. *)
Definition row_step (r r' : Delivery) : Prop :=
  dl_message r' = dl_message r /\ dl_channel r' = dl_channel r /\ dl_revision r' = dl_revision r /\ dl_retry_of r' = dl_retry_of r /\
  (dl_state r = Dead -> dl_state r' = Dead) /\ (active r' = true -> active r = true).

Definition table_step (R : Delivery -> Delivery -> Prop) (ds ds' : deliveries) : Prop :=
  forall id, option_Forall2 R (ds !! id) (ds' !! id).

Lemma table_step_new R ds ds' id r' : table_step R ds ds' -> ds' !! id = Some r' -> exists r, ds !! id = Some r /\ R r r'.
Proof. intros Hs Hr. specialize (Hs id). rewrite Hr in Hs. inversion Hs; subst. eauto. Qed.

Lemma table_step_old R ds ds' id r : table_step R ds ds' -> ds !! id = Some r -> exists r', ds' !! id = Some r' /\ R r r'.
Proof. intros Hs Hr. specialize (Hs id). rewrite Hr in Hs. inversion Hs; subst. eauto. Qed.

Lemma table_step_insert (R : Delivery -> Delivery -> Prop) ds id r r' :
  (forall x, R x x) -> ds !! id = Some r -> R r r' -> table_step R ds (<[id := r']> ds).
Proof.
  intros Hrefl Hr HR j. destruct (decide (j = id)) as [->|Hne].
  - rewrite lookup_insert_eq, Hr. by constructor.
  - rewrite lookup_insert_ne by done. destruct (ds !! j); by constructor.
Qed.

Lemma table_step_update (R : Delivery -> Delivery -> Prop) ds c f :
  (forall x, R x x) -> (forall id r, ds !! id = Some r -> c id r = true -> R r (f r)) -> table_step R ds (update_where c f ds).
Proof.
  intros Hrefl HR id. rewrite lookup_update_where. destruct (ds !! id) as [r|] eqn:E; cbn; [|constructor].
  constructor. destruct (c id r) eqn:Ec; eauto.
Qed.

Lemma row_step_refl r : row_step r r.
Proof. by split_and!. Qed.

Section in_place.
Context (ds ds' : deliveries) (Hstep : table_step row_step ds ds').

Ltac back := repeat match goal with
  | H : ds' !! ?i = Some ?r |- _ => destruct (table_step_new _ _ _ _ _ Hstep H) as (? & ? & ?); clear H
  | H : row_step _ _ |- _ => destruct H as (? & ? & ? & ? & ? & ?)
  end.

Lemma step_refs ms chs rvs : refs_ok ds ms chs rvs -> refs_ok ds' ms chs rvs.
Proof.
  intros Hr id r' Hid. back. destruct (Hr _ _ H) as (Hm & Hv & c & Hc & Ha). rewrite H0, H1, H2. split_and!; try done.
  exists c. auto.
Qed.

Lemma step_chains : chains_ok ds -> chains_ok ds'.
Proof.
  intros (Ho & Hu & Hp). split_and!.
  - intros id1 id2 r1 r2 H1 H2 E1 E2 Em Ec. back. eapply (Ho id1 id2); [eassumption|eassumption|congruence..].
  - intros id1 id2 r1 r2 p H1 H2 E1 E2. back. eapply (Hu id1 id2 _ _ p); [eassumption|eassumption|congruence..].
  - intros id r' p Hid Hret. back. destruct (Hp id x p H) as (y & Hy & Hd & Hm & Hc); [congruence|].
    destruct (table_step_old _ _ _ _ _ Hstep Hy) as (y' & Hy' & (? & ? & ? & ? & ? & ?)). exists y'. split_and!; [done|auto|congruence..].
Qed.

Lemma step_active : count_where (fun _ r => active r) ds' <= count_where (fun _ r => active r) ds.
Proof. apply count_where_mono. intros id r' Hid Ha. back. eauto. Qed.
End in_place.

(** A step that leases nothing, too. *)
Definition row_release (r r' : Delivery) : Prop :=
  row_step r r' /\ dl_attempts r' = dl_attempts r /\ (dl_state r' = Leased -> r' = r).

Lemma row_release_refl r : row_release r r.
Proof. by split_and!; [apply row_step_refl|..]. Qed.

Lemma table_step_mono (R S : Delivery -> Delivery -> Prop) ds ds' : (forall r r', R r r' -> S r r') -> table_step R ds ds' -> table_step S ds ds'.
Proof. intros HRS Hs id. destruct (Hs id); constructor. auto. Qed.

Section release.
Context (ds ds' : deliveries) (Hstep : table_step row_release ds ds').

Lemma release_old_leased id r' : ds' !! id = Some r' -> dl_state r' = Leased -> ds !! id = Some r'.
Proof. intros H Hs. destruct (table_step_new _ _ _ _ _ Hstep H) as (r & Hr & _ & _ & Hl). by rewrite (Hl Hs). Qed.

Lemma release_single : single_flight ds -> single_flight ds'.
Proof. intros Hs id1 id2 r1 r2 H1 H2 L1 L2 Hc. apply (Hs id1 id2 r1 r2); auto using release_old_leased. Qed.

Lemma release_leased : count_where (fun _ r => in_state Leased r) ds' <= count_where (fun _ r => in_state Leased r) ds.
Proof.
  apply count_where_mono. intros id r' Hid Hl. unfold in_state in *. apply bool_decide_eq_true in Hl.
  exists r'. rewrite bool_decide_eq_true. auto using release_old_leased.
Qed.

Lemma release_bounds st : bounds_ok ds st -> bounds_ok ds' st.
Proof.
  intros (Ha & Hl & Hs). pose proof release_leased. pose proof (step_active ds ds' (table_step_mono _ _ _ _ (fun _ _ H => proj1 H) Hstep)).
  unfold bounds_ok. lia.
Qed.
End release.

(** Leases end and their attempts are finished. *)
Lemma release_wf d d' : wf d ->
  db_messages d' = db_messages d -> db_channels d' = db_channels d -> db_revisions d' = db_revisions d -> db_settings d' = db_settings d ->
  table_step row_release (db_deliveries d) (db_deliveries d') -> deliveries_ok (db_deliveries d') ->
  (forall key a', db_attempts d' !! key = Some a' -> exists a, db_attempts d !! key = Some a /\ (a' = a \/ at_outcome a' <> InProgress)) ->
  (forall id n a' r', db_attempts d' !! (id, n) = Some a' -> at_outcome a' = InProgress -> db_deliveries d' !! id = Some r' -> dl_state r' = Leased) ->
  (forall id r', db_deliveries d' !! id = Some r' -> dl_state r' = Leased -> db_attempts d' !! (id, dl_attempts r') = db_attempts d !! (id, dl_attempts r')) ->
  wf d'.
Proof.
  intros (Hok & Hsf & (Ha1 & Ha2) & Hrefs & Hch & Hk & Hcs & Hb) Em Ec Er Es Hstep Hok' H2 H3 H4.
  pose proof (table_step_mono _ _ _ _ (fun _ _ H => proj1 H) Hstep) as Hst. unfold wf. rewrite Em, Ec, Er, Es.
  refine (conj Hok' (conj _ (conj (conj _ _) (conj _ (conj Hch (conj Hk (conj _ _))))))).
  - by apply (release_single _ _ Hstep).
  - intros id n a' Hid. destruct (H2 _ _ Hid) as (a & Ha & Hcase). destruct (Ha1 id n a Ha) as (r & Hr & Hn & Hp).
    destruct (table_step_old _ _ _ _ _ Hstep Hr) as (r' & Hr' & _ & Hatt & Hl). exists r'. rewrite Hatt. split_and!; try done; try lia.
    intros Hprog. destruct Hcase as [->|Hne]; [|done]. split; [eauto|]. by apply Hp.
  - intros id r' Hid Hleased. rewrite (H4 id r' Hid Hleased). apply Ha2; [|done]. by apply (release_old_leased _ _ Hstep).
  - by apply (step_refs _ _ Hst).
  - by apply (step_chains _ _ Hst).
  - by apply (release_bounds _ _ Hstep).
Qed.

(** A pending delivery of an idle channel is leased. *)
Lemma lease_wf d id r r' a : wf d ->
  db_deliveries d !! id = Some r -> dl_state r = Pending -> dl_state r' = Leased -> row_step r r' -> dl_attempts r' = dl_attempts r + 1 ->
  is_Some (dl_hash r') -> is_Some (dl_expires r') -> dl_completed r' = None ->
  channel_busy d (dl_channel r) = false -> count_where (fun _ r => in_state Leased r) (db_deliveries d) < 32 -> at_outcome a = InProgress ->
  wf (set_attempts (<[(id, dl_attempts r + 1) := a]> (db_attempts d)) (set_deliveries (<[id := r']> (db_deliveries d)) d)).
Proof.
  intros (Hok & Hsf & (Ha1 & Ha2) & Hrefs & Hch & Hk & Hcs & Hb) Hr Hp Hl Hstep Hatt Hh He Hcomp Hbusy Hcount Ha.
  pose proof (table_step_insert _ _ _ _ r' row_step_refl Hr Hstep) as Hst. pose proof (Hok id r Hr) as Hrok. unfold delivery_ok in Hrok. rewrite Hp in Hrok.
  assert (Hidle : forall id2 r2, db_deliveries d !! id2 = Some r2 -> dl_state r2 = Leased -> dl_channel r2 <> dl_channel r).
  { intros id2 r2 H2 Hl2 Hc2. pose proof (exists_where_false _ _ _ _ Hbusy H2) as Hf. unfold in_state in Hf. cbn in Hf.
    rewrite Hc2, String.eqb_refl, bool_decide_eq_true_2 in Hf by done. done. }
  refine (conj _ (conj _ (conj (conj _ _) (conj _ (conj Hch (conj Hk (conj _ _))))))); cbn [db_deliveries db_attempts db_messages db_channels db_revisions db_settings set_attempts set_deliveries].
  - apply map_Forall_insert_2; [|done]. unfold delivery_ok. rewrite Hl, Hatt. split_and!; try done; lia.
  - intros id1 id2 r1 r2 H1 H2 L1 L2 Hc. destruct Hstep as (_ & Hchan & _).
    apply lookup_insert_Some in H1 as [[<- <-]|[Hne1 H1]], H2 as [[<- <-]|[Hne2 H2]]; [done|..].
    + exfalso. apply (Hidle id2 r2 H2 L2). congruence.
    + exfalso. apply (Hidle id1 r1 H1 L1). congruence.
    + by apply (Hsf id1 id2 r1 r2).
  - intros id1 n a1 H1. apply lookup_insert_Some in H1 as [[[= <- <-] <-]|[Hne H1]].
    + exists r'. rewrite lookup_insert_eq, Hatt. split_and!; try done; lia.
    + destruct (Ha1 _ _ _ H1) as (r1 & Hr1 & Hn & Hprog). destruct (decide (id1 = id)) as [->|Hid].
      * exists r'. rewrite lookup_insert_eq. replace r1 with r in * by congruence. split_and!; [done|lia|lia|]. intros [Hx _]%Hprog. congruence.
      * exists r1. by rewrite lookup_insert_ne.
  - intros id1 r1 H1 L1. apply lookup_insert_Some in H1 as [[<- <-]|[Hne H1]].
    + exists a. by rewrite Hatt, lookup_insert_eq.
    + rewrite lookup_insert_ne by congruence. by apply Ha2.
  - by apply (step_refs _ _ Hst).
  - by apply (step_chains _ _ Hst).
  - destruct Hb as (Hb1 & Hb2 & Hb3). pose proof (step_active _ _ Hst). split; [lia|]. split; [|done].
    pose proof (count_where_insert (fun _ r => in_state Leased r) (db_deliveries d) id r'). lia.
Qed.

(** The chain a new delivery joins or starts. *)
Definition joins_chain (ds : deliveries) (r : Delivery) : Prop :=
  match dl_retry_of r with
  | None => forall id2 r2, ds !! id2 = Some r2 -> dl_retry_of r2 = None -> dl_message r2 = dl_message r -> dl_channel r2 <> dl_channel r
  | Some p => (exists r', ds !! p = Some r' /\ dl_state r' = Dead /\ dl_message r' = dl_message r /\ dl_channel r' = dl_channel r) /\
              forall id2 r2, ds !! id2 = Some r2 -> dl_retry_of r2 <> Some p
  end.

Lemma insert_chains ds id r : chains_ok ds -> ds !! id = None -> joins_chain ds r -> chains_ok (<[id := r]> ds).
Proof.
  intros (Ho & Hu & Hp) Hid Hj. unfold joins_chain in Hj. refine (conj _ (conj _ _)).
  - intros id1 id2 r1 r2 H1 H2 E1 E2 Em Ec.
    apply lookup_insert_Some in H1 as [[<- <-]|[Hne1 H1]], H2 as [[<- <-]|[Hne2 H2]]; [done| | |by apply (Ho id1 id2 r1 r2)].
    + rewrite E1 in Hj. exfalso. by apply (Hj id2 r2).
    + rewrite E2 in Hj. exfalso. by apply (Hj id1 r1).
  - intros id1 id2 r1 r2 p H1 H2 E1 E2.
    apply lookup_insert_Some in H1 as [[<- <-]|[Hne1 H1]], H2 as [[<- <-]|[Hne2 H2]]; [done| | |by apply (Hu id1 id2 r1 r2 p)].
    + rewrite E1 in Hj. exfalso. by apply (proj2 Hj id2 r2).
    + rewrite E2 in Hj. exfalso. by apply (proj2 Hj id1 r1).
  - intros id1 r1 p H1 E1. assert (exists r', ds !! p = Some r' /\ dl_state r' = Dead /\ dl_message r' = dl_message r1 /\ dl_channel r' = dl_channel r1) as (r' & Hr' & Hrest).
    { apply lookup_insert_Some in H1 as [[<- <-]|[Hne1 H1]]; [rewrite E1 in Hj; apply Hj|by apply (Hp id1 r1 p)]. }
    exists r'. rewrite lookup_insert_ne by congruence. done.
Qed.

Definition fresh_row (r : Delivery) : Prop :=
  dl_state r = Pending /\ dl_attempts r = 0 /\ dl_hash r = None /\ dl_expires r = None /\ dl_completed r = None.

(** A delivery is added to the queue. *)
Lemma insert_wf d id r c : wf d -> db_deliveries d !! id = None -> fresh_row r ->
  is_Some (db_messages d !! dl_message r) -> is_Some (db_revisions d !! (dl_channel r, dl_revision r)) ->
  db_channels d !! dl_channel r = Some c -> ch_deleted c = None -> joins_chain (db_deliveries d) r ->
  active_count d + 1 <= MaximumPendingDeliveries -> wf (set_deliveries (<[id := r]> (db_deliveries d)) d).
Proof.
  intros (Hok & Hsf & (Ha1 & Ha2) & Hrefs & Hch & Hk & Hcs & Hb) Hid (Hs & Hatt & Hh & He & Hcomp) Hm Hrev Hc Hdel Hj Hcap.
  refine (conj _ (conj _ (conj (conj _ _) (conj _ (conj Hch (conj Hk (conj _ _))))))); cbn [db_deliveries db_attempts db_messages db_channels db_revisions db_settings set_deliveries].
  - apply map_Forall_insert_2; [|done]. unfold delivery_ok. rewrite Hs, Hatt. done.
  - intros id1 id2 r1 r2 [[<- <-]|[_ H1]]%lookup_insert_Some [[<- <-]|[_ H2]]%lookup_insert_Some L1 L2; [congruence..|by apply (Hsf id1 id2 r1 r2)].
  - intros id1 n a H1. destruct (Ha1 _ _ _ H1) as (r1 & Hr1 & Hrest). exists r1. rewrite lookup_insert_ne by congruence. done.
  - intros id1 r1 [[<- <-]|[_ H1]]%lookup_insert_Some L1; [congruence|by apply Ha2].
  - intros id1 r1 [[<- <-]|[_ H1]]%lookup_insert_Some; [eauto|by apply (Hrefs id1)].
  - by apply insert_chains.
  - destruct Hb as (Hb1 & Hb2 & Hb3). pose proof (count_where_insert (fun _ r => active r) (db_deliveries d) id r). unfold active_count in Hcap.
    refine (conj _ (conj _ Hb3)); [lia|]. etransitivity; [|exact Hb2]. apply count_where_mono.
    intros id1 r1 [[<- <-]|[_ H1]]%lookup_insert_Some Hl1; [|eauto]. unfold in_state in Hl1. rewrite Hs in Hl1. done.
Qed.

(** ** Enqueueing *)

(** A channel that can be sent to: it is not deleted and the revision is stored. *)
Definition live (d : Database) (c : selectedChannel) : Prop :=
  is_Some (db_revisions d !! (sc_id c, sc_revision c)) /\ exists ch, db_channels d !! sc_id c = Some ch /\ ch_deleted ch = None.

(** The deliveries of [message] that a request adds. *)
Definition new_row (message : string) (cs : list selectedChannel) (r : Delivery) : Prop :=
  fresh_row r /\ dl_message r = message /\ dl_retry_of r = None /\ exists c, c ∈ cs /\ dl_channel r = sc_id c /\ dl_revision r = sc_revision c.

Lemma selectChannels_ok r exclude d cs : wf d -> selectChannels r exclude None d = Ok cs ->
  NoDup (sc_id <$> cs) /\ Forall (live d) cs /\ llen cs <= MaximumChannels /\
  forall id, id ∈ sc_id <$> cs <->
    exists c, db_channels d !! id = Some c /\ ch_enabled c = true /\ ch_deleted c = None /\ subscribed r id c = true /\ id <> exclude.
Proof.
  intros (_ & _ & _ & _ & Hch & _). unfold selectChannels. set (rows := ordered _ _). set (selected := filter _ rows).
  destruct (llen selected >? MaximumChannels) eqn:El; [done|]. rewrite Z.gtb_ltb in El. apply Z.ltb_ge in El. intros [= <-].
  assert (Hrow : forall id c, (id, c) ∈ rows <-> db_channels d !! id = Some c /\ ch_enabled c = true /\ ch_deleted c = None).
  { intros id c. unfold rows. rewrite elem_of_ordered, elem_of_rows_where, andb_true_iff, bool_decide_eq_true. tauto. }
  assert (Hsel : forall id c, (id, c) ∈ selected <-> (id, c) ∈ rows /\ subscribed r id c = true /\ id <> exclude).
  { intros id c. unfold selected. rewrite list_elem_of_filter. cbn. rewrite andb_true_iff, negb_true_iff, String.eqb_neq. tauto. }
  refine (conj _ (conj _ (conj _ _))).
  - rewrite <- list_fmap_compose. change (sc_id ∘ _) with (@fst string Channel). apply NoDup_fmap_fst.
    + intros id c1 c2 H1 H2. apply Hsel, proj1, Hrow in H1, H2. destruct H1, H2. congruence.
    + apply NoDup_filter. unfold rows. rewrite ordered_Permutation. apply NoDup_rows_where.
  - apply Forall_fmap, Forall_forall. intros [id c] (Hr & _)%Hsel. apply Hrow in Hr as (Hc & He & Hd). cbn. unfold live. cbn. eauto.
  - unfold llen in *. by rewrite length_fmap.
  - intros id. rewrite <- list_fmap_compose, list_elem_of_fmap. split.
    + intros ([id' c] & -> & (Hr & Hs & Hx)%Hsel). apply Hrow in Hr as (Hc & He & Hd). cbn. eauto 10.
    + intros (c & Hc & He & Hd & Hs & Hx). exists (id, c). split; [done|]. apply Hsel. rewrite Hrow. done.
Qed.

Section enqueue.
Context (clk : nat -> Time) (draw_id : nat -> option string) (seal : list Z -> string -> option (list Z)).

Lemma insertDelivery_ok message c retry w id w1 : insertDelivery clk draw_id message c retry w = Ok (id, w1) ->
  db_deliveries (w_db w) !! id = None /\
  exists ms, w_db w1 = set_deliveries (<[id := mkDelivery message (sc_id c) (sc_revision c) Pending 0 ms None None "" "" "" "" retry ms ms None]>
                                         (db_deliveries (w_db w))) (w_db w).
Proof.
  unfold insertDelivery. intros (i & w2 & Hi%draw_ok & H)%andThen_ok. apply andThen_ok in H as (t & w3 & Ht%now_ok & H).
  apply andThen_ok in H as (u & w4 & [Hn Hw]%insert_row_ok & [-> ->]%ret_ok). rewrite Ht, Hi in *. split; [done|]. eauto.
Qed.

Lemma deliver_loop message cs w u w1 :
  each (fun c => insertDelivery clk draw_id message c None >>> ret tt) cs w = Ok (u, w1) ->
  wf (w_db w) -> is_Some (db_messages (w_db w) !! message) -> NoDup (sc_id <$> cs) -> Forall (live (w_db w)) cs ->
  (forall id r, db_deliveries (w_db w) !! id = Some r -> dl_message r = message -> dl_channel r ∉ sc_id <$> cs) ->
  active_count (w_db w) + llen cs <= MaximumPendingDeliveries ->
  wf (w_db w1) /\ exists ds, w_db w1 = set_deliveries ds (w_db w) /\ db_deliveries (w_db w) ⊆ ds /\
    (forall id r, ds !! id = Some r -> db_deliveries (w_db w) !! id = Some r \/ new_row message cs r) /\
    (forall c, c ∈ cs -> exists id r, ds !! id = Some r /\ dl_message r = message /\ dl_channel r = sc_id c /\ dl_state r = Pending).
Proof.
  revert w. induction cs as [|c cs IH]; intros w Hw Hwf Hm Hnd Hlive Hnew Hcap; cbn [each] in Hw.
  { apply ret_ok in Hw as [_ ->]. split; [done|]. exists (db_deliveries (w_db w)).
    split_and!; [by destruct (w_db w)|done|auto|]. intros c Hc. by apply elem_of_nil in Hc. }
  apply andThen_ok in Hw as (u' & w2 & Hi & Hw). apply andThen_ok in Hi as (id & w3 & Hi & [_ ->]%ret_ok).
  apply insertDelivery_ok in Hi as (Hid & ms & E3). set (row := mkDelivery _ _ _ _ _ _ _ _ _ _ _ _ _ _ _ _) in E3.
  apply NoDup_cons in Hnd as [Hc Hnd]. apply Forall_cons in Hlive as [(Hrev & ch & Hch & Hdel) Hlive]. rewrite llen_cons in Hcap.
  pose proof (llen_nonneg cs).
  assert (wf (w_db w3)) as Hwf3.
  { rewrite E3. apply (insert_wf _ _ _ ch); try done; [|lia]. intros id2 r2 Hr2 _ Hmsg Hcc. apply (Hnew id2 r2); [done..|].
    rewrite Hcc. by constructor. }
  assert (active_count (w_db w3) <= active_count (w_db w) + 1) as Hac by (rewrite E3; apply count_where_insert).
  destruct (IH w3 Hw Hwf3) as (Hwf1 & ds & Eds & Hsub & Hrows & Hall).
  - by rewrite E3.
  - done.
  - eapply Forall_impl; [exact Hlive|]. intros c' Hc'. unfold live in *. by rewrite E3.
  - intros id2 r2. rewrite E3. cbn. intros [[<- <-]|[Hne Hr2]]%lookup_insert_Some Hmsg; [done|]. specialize (Hnew id2 r2 Hr2 Hmsg). set_solver.
  - lia.
  - rewrite E3 in Hsub, Eds, Hrows. cbn in Hsub, Eds, Hrows.
    assert (ds !! id = Some row) as Hrow. { eapply lookup_weaken; [|exact Hsub]. apply lookup_insert_eq. }
    split; [done|]. exists ds. split; [exact Eds|]. split; [|split].
    + etransitivity; [|exact Hsub]. by apply insert_subseteq.
    + intros id2 r2 [[[<- <-]|[Hne Hr2]]%lookup_insert_Some|(Hf & Hmsg & Hret & c' & Hc' & Hch' & Hrev')]%Hrows; [right|by left|right].
      * unfold new_row, row. cbn. split_and!; try done. exists c. split; [by constructor|done].
      * split_and!; try done. exists c'. split; [by constructor|done].
    + intros c' [->|Hc']%elem_of_cons; [by exists id, row|by apply Hall].
Qed.

Lemma find_message_none key d : find_message key d = None -> forall id m, db_messages d !! id = Some m -> ms_key m <> key.
Proof.
  unfold find_message. intros Hn id m Hm Hk. assert ((id, m) ∈ rows_where (fun _ m => ms_key m =s key) (db_messages d)) as Hin.
  { apply elem_of_rows_where. by rewrite String.eqb_eq. }
  apply head_None in Hn. rewrite Hn in Hin. by apply elem_of_nil in Hin.
Qed.

Lemma find_message_some key d id m : find_message key d = Some (id, m) -> db_messages d !! id = Some m /\ ms_key m = key.
Proof. unfold find_message. intros Hf%head_Some_elem_of. apply elem_of_rows_where in Hf. by rewrite String.eqb_eq in Hf. Qed.

(** A message with a new key. *)
Lemma insert_message_wf d id m : wf d -> db_messages d !! id = None -> find_message (ms_key m) d = None ->
  wf (set_messages (<[id := m]> (db_messages d)) d).
Proof.
  intros (Hok & Hsf & Hat & Hrefs & Hch & Hk & Hcs & Hb) Hid Hf. pose proof (find_message_none _ _ Hf) as Hnew.
  refine (conj Hok (conj Hsf (conj Hat (conj _ (conj Hch (conj _ (conj Hcs Hb))))))); cbn.
  - intros id1 r1 H1. destruct (Hrefs id1 r1 H1) as ([x Hx] & Hrest). split; [|done]. apply lookup_insert_is_Some'. eauto.
  - intros id1 id2 m1 m2 [[<- <-]|[_ H1]]%lookup_insert_Some [[<- <-]|[_ H2]]%lookup_insert_Some E; [done|..|by apply (Hk id1 id2 m1 m2)].
    + by destruct (Hnew id2 m2).
    + by destruct (Hnew id1 m1).
Qed.

(** What an enqueued request changes: a message, and one pending delivery for each of the
    channels that it selects. *)
Definition enqueued (r : Request) (cs : list selectedChannel) (d d' : Database) : Prop :=
  exists id m ds, db_messages d !! id = None /\ ms_key m = rq_SourceKey r /\ ms_event m = rq_EventKind r /\ ms_routed m = (llen cs >? 0) /\
    d' = set_deliveries ds (set_messages (<[id := m]> (db_messages d)) d) /\ db_deliveries d ⊆ ds /\
    (forall id2 r2, ds !! id2 = Some r2 -> db_deliveries d !! id2 = Some r2 \/ new_row id cs r2) /\
    (forall c, c ∈ cs -> exists id2 r2, ds !! id2 = Some r2 /\ dl_message r2 = id /\ dl_channel r2 = sc_id c /\ dl_state r2 = Pending).

Definition force_live (d : Database) (force : option selectedChannel) : Prop := match force with Some c => live d c | None => True end.

Lemma enqueueTx_ok r exclude force w receipt w1 : enqueueTx clk draw_id seal r exclude force w = Ok (receipt, w1) ->
  wf (w_db w) -> find_message (rq_SourceKey r) (w_db w) = None -> force_live (w_db w) force ->
  wf (w_db w1) /\ sourceReceipt (rq_SourceKey r) (w_db w1) = Ok receipt /\
  exists cs, selectChannels r exclude force (w_db w) = Ok cs /\ enqueued r cs (w_db w) (w_db w1).
Proof.
  intros H Hwf Hfind Hforce. unfold enqueueTx in H. apply andThen_ok in H as (sel & w2 & [-> ->]%query_ok & H).
  apply andThen_ok in H as (cs & w3 & [Hsel ->]%lift_ok & H). apply andThen_ok in H as (u & w4 & Hcap & H).
  unfold checkQueueCapacity in Hcap. apply andThen_ok in Hcap as (count & w5 & [-> ->]%query_ok & Hcap).
  destruct (_ >? _) eqn:Ecap in Hcap; [done|]. apply ret_ok in Hcap as [_ ->]. rewrite Z.gtb_ltb in Ecap. apply Z.ltb_ge in Ecap.
  apply andThen_ok in H as (id & w6 & Hid%draw_ok & H). apply andThen_ok in H as (sealed & w7 & Hseal & H).
  assert (w7 = w6) as ->. { unfold encryptMessage in Hseal. destruct (_ >? _); [done|]. destruct (seal _ _); [|done]. by apply ret_ok in Hseal as [_ ->]. }
  apply andThen_ok in H as (ret_days & w8 & [-> ->]%query_ok & H). apply andThen_ok in H as (t & w9 & Ht%now_ok & H).
  apply andThen_ok in H as (u2 & w10 & [Hnone Hmsg]%insert_row_ok & H). apply andThen_ok in H as (u3 & w11 & Hloop & H).
  apply andThen_ok in H as (rc & w12 & [-> ->]%query_ok & [Hrc ->]%lift_ok). rewrite Ht, Hid in Hnone, Hmsg. set (m := mkMessage _ _ _ _ _ _ _ _ _) in Hmsg.
  assert (NoDup (sc_id <$> cs) /\ Forall (live (w_db w)) cs) as [Hnd Hlive].
  { destruct force as [c|]; [|by destruct (selectChannels_ok _ _ _ _ Hwf Hsel) as (? & ? & _)]. injection Hsel as <-. split; [apply NoDup_singleton|by constructor]. }
  apply deliver_loop in Hloop as (Hwf1 & ds & Eds & Hsub & Hrows & Hall).
  - split; [done|]. split; [done|]. exists cs. split; [done|]. exists id, m, ds. rewrite Eds, Hmsg in *. cbn in *. by split_and!.
  - rewrite Hmsg. by apply insert_message_wf.
  - rewrite Hmsg. cbn. rewrite lookup_insert_eq. by eexists.
  - done.
  - eapply Forall_impl; [exact Hlive|]. intros c Hc. unfold live in *. by rewrite Hmsg.
  - rewrite Hmsg. cbn. intros id2 r2 Hr2 Hm2. destruct Hwf as (_ & _ & _ & Hrefs & _). destruct (Hrefs id2 r2 Hr2) as ([x Hx] & _). congruence.
  - rewrite Hmsg. done.
Qed.

Lemma sourceReceipt_absent key d : sourceReceipt key d = Err ErrNotFound -> find_message key d = None.
Proof. unfold sourceReceipt. by destruct (find_message key d) as [[]|]. Qed.

(** Enqueueing, when the source has no message yet, keeps the invariant. *)
Lemma enqueue_keeps r exclude w receipt w1 : wf (w_db w) -> find_message (rq_SourceKey r) (w_db w) = None ->
  enqueueTx clk draw_id seal r exclude None w = Ok (receipt, w1) -> wf (w_db w1).
Proof. intros Hwf Hf H. by apply enqueueTx_ok in H as [H _]. Qed.

Lemma unless_sent_keeps (P : Database -> Prop) key m :
  (forall w a w1, P (w_db w) -> find_message key (w_db w) = None -> m w = Ok (a, w1) -> P (w_db w1)) -> keeps P (unless_sent key m).
Proof.
  intros Hm w a w1 Hw H. unfold unless_sent in H. apply andThen_ok in H as (x & w2 & [-> ->]%query_ok & H).
  destruct (sourceReceipt key (w_db w)) as [rc|[]] eqn:E; try done; [by apply ret_ok in H as [_ ->]|].
  apply sourceReceipt_absent in E. by eapply Hm.
Qed.

(** The messages of other sources stay absent. *)
Lemma enqueued_absent r cs d d' key : enqueued r cs d d' -> key <> rq_SourceKey r -> find_message key d = None -> find_message key d' = None.
Proof.
  intros (id & m & ds & _ & Hk & _ & _ & -> & _) Hne Hf. destruct (find_message key (set_deliveries ds _)) as [[i x]|] eqn:E; [|done]. exfalso.
  apply find_message_some in E as [E Hx]. cbn in E. apply lookup_insert_Some in E as [[<- <-]|[_ E]]; [congruence|].
  by apply (find_message_none _ _ Hf i x).
Qed.

Lemma persistBatch_keeps requests w rs w1 : wf (w_db w) -> NoDup (rq_SourceKey <$> requests) ->
  Forall (fun r => find_message (rq_SourceKey r) (w_db w) = None) requests ->
  persistNotificationBatch clk draw_id seal requests w = Ok (rs, w1) -> wf (w_db w1).
Proof.
  revert w rs. induction requests as [|r requests IH]; intros w rs Hwf Hnd Hab H; cbn in H; [by apply ret_ok in H as [_ ->]|].
  apply andThen_ok in H as (rc & w2 & He & H). apply andThen_ok in H as (rest & w3 & Hp & [_ ->]%ret_ok).
  apply NoDup_cons in Hnd as [Hr Hnd]. apply Forall_cons in Hab as [Hr0 Hab]. apply enqueueTx_ok in He as (Hwf2 & _ & cs & _ & Henq); [|done|done|exact I].
  apply (IH w2 rest); [done..| |done]. eapply Forall_impl; [apply Forall_and; split; [exact Hab|]|].
  - apply (Forall_forall (fun r' => rq_SourceKey r' <> rq_SourceKey r)). intros r' Hin Heq. apply Hr. rewrite <- Heq. by apply list_elem_of_fmap_2.
  - intros r' [Ha Hne]. by eapply enqueued_absent.
Qed.
End enqueue.

Lemma run_mutation_keeps P m : keeps P (run_mutation m).
Proof. destruct m; [apply keeps_lift|apply keeps_ret]. Qed.
#[export] Hint Resolve run_mutation_keeps : notice.

Lemma batch_keys_distinct keys requests : batch_loop keys requests = Ok tt ->
  NoDup (rq_SourceKey <$> requests) /\ Forall (fun r => rq_SourceKey r ∉ keys) requests.
Proof.
  revert keys. induction requests as [|r requests IH]; intros keys H; cbn in *; [split; constructor|]. apply bind_ok in H as (u & _ & H).
  case_bool_decide as Hk; [done|]. destruct (IH _ H) as [Hnd Hab]. split.
  - constructor; [|done]. intros (r' & Heq & Hr')%list_elem_of_fmap. rewrite Forall_forall in Hab. specialize (Hab r' Hr'). set_solver.
  - constructor; [done|]. eapply Forall_impl; [exact Hab|]. set_solver.
Qed.

Lemma found_none requests d : llen (found (existing_receipts requests d)) = 0 ->
  Forall (fun r => find_message (rq_SourceKey r) d = None) requests.
Proof.
  unfold found, existing_receipts. induction requests as [|r requests IH]; cbn; [constructor|].
  unfold sourceReceipt at 1. destruct (find_message (rq_SourceKey r) d) as [[i m]|] eqn:E; [|constructor; auto].
  intros Hl. rewrite llen_cons in Hl. pose proof (llen_nonneg (omap (fun r0 => match r0 with Ok x => Some (duplicate x) | Err _ => None end)
    (map (fun r0 => sourceReceipt (rq_SourceKey r0) d) requests))). lia.
Qed.

Section operations.
Context (clk : nat -> Time).
Context (draw_id : nat -> option string) (draw_token : nat -> option (list Z)) (draw_below : nat -> Z -> option Z).
Context (seal : list Z -> string -> option (list Z)).

Lemma persistEvent_keeps accepted r : keeps wf (persistEvent clk draw_id seal accepted r).
Proof.
  unfold persistEvent. destruct (negb _); [apply keeps_fail|]. apply keeps_then; [apply keeps_lift|]. intros _. apply unless_sent_keeps.
  intros w a w1 Hw Hf. by apply enqueue_keeps.
Qed.

Lemma Enqueue_wf commit r mutation d : wf d -> wf (Enqueue clk draw_id seal commit r mutation d).2.
Proof.
  intros Hd. unfold Enqueue. destruct (validateRequest r); [|done]. destruct (transact_unless _ _ _ _) as [o d'] eqn:E. cbn.
  replace d' with (transact_unless rc_Duplicate commit (unless_sent (rq_SourceKey r) (run_mutation mutation >>> enqueueTx clk draw_id seal r "" None)) d).2 by by rewrite E.
  apply transact_keeps; [|done]. apply unless_sent_keeps. intros w x w1 Hw Hf H. apply andThen_ok in H as (u & w2 & Hm & H).
  assert (w_db w2 = w_db w) as Hdb. { destruct mutation as [m|]; [by apply lift_ok in Hm as [_ ->]|by apply ret_ok in Hm as [_ ->]]. }
  apply enqueue_keeps in H; [done|by rewrite Hdb..].
Qed.

Lemma EnqueueBatch_wf commit requests mutation d : wf d -> wf (EnqueueBatch clk draw_id seal commit requests mutation d).2.
Proof.
  intros Hd. unfold EnqueueBatch. destruct (validateNotificationBatch requests) as [[]|] eqn:Ev; [|done].
  destruct (transact_unless _ _ _ _) as [o d'] eqn:E. cbn.
  replace d' with (transact_unless (existsb rc_Duplicate) commit (enqueueBatchTx clk draw_id seal requests mutation) d).2 by by rewrite E.
  clear E. apply transact_keeps; [|done]. intros w x w1 Hw H. unfold enqueueBatchTx in H.
  apply andThen_ok in H as (ex & w2 & [-> ->]%query_ok & H). destruct (_ =? llen requests); [by apply ret_ok in H as [_ ->]|].
  destruct (llen _ =? 0) eqn:El in H; cbn [negb] in H.
  2: { unfold resolveMixedBatch in H. by destruct mutation as [[|[]]|]. }
  apply Z.eqb_eq, found_none in El. apply andThen_ok in H as (tot & w3 & [-> ->]%query_ok & H). apply andThen_ok in H as (tot & w4 & [_ ->]%lift_ok & H).
  apply andThen_ok in H as (u & w5 & Hc & H). unfold checkQueueCapacity in Hc. apply andThen_ok in Hc as (n & w6 & [-> ->]%query_ok & Hc).
  destruct (_ >? _) in Hc; [done|]. apply ret_ok in Hc as [_ ->]. apply andThen_ok in H as (u2 & w7 & Hm & H).
  assert (w_db w7 = w_db w) as Hdb. { destruct mutation as [m|]; [by apply lift_ok in Hm as [_ ->]|by apply ret_ok in Hm as [_ ->]]. }
  unfold validateNotificationBatch in Ev. destruct (_ || _) in Ev; [done|]. apply batch_keys_distinct in Ev as [Hnd _].
  eapply persistBatch_keeps; [| |by rewrite Hdb|exact H]; [by rewrite Hdb|done].
Qed.

Lemma EnqueueOperation_wf commit r mutation d : wf d -> wf (EnqueueOperation clk draw_id seal commit r mutation d).2.
Proof.
  intros Hd. unfold EnqueueOperation. destruct (negb _); [done|]. destruct (validateRequest r); [|done]. apply commit_keeps; [|done].
  apply keeps_then; [apply keeps_lift|]. intros _. apply unless_sent_keeps. intros w x w1 Hw Hf. by apply enqueue_keeps.
Qed.

Lemma MutateLifecycle_wf commit apply complete d : wf d -> wf (MutateLifecycle clk draw_id seal commit apply complete d).2.
Proof.
  intros Hd. unfold MutateLifecycle. apply commit_keeps; [|done]. apply keeps_then; [apply keeps_lift|]. intros r. apply keeps_then; [destruct r; [apply persistEvent_keeps|apply keeps_ret]|].
  intros x. apply keeps_then; [apply keeps_lift|]. intros _. apply keeps_ret.
Qed.

Lemma MutateOperation_wf commit mutation d : wf d -> wf (MutateOperation clk draw_id seal commit mutation d).2.
Proof.
  intros Hd. unfold MutateOperation. apply commit_keeps; [|done]. apply keeps_then; [apply keeps_lift|]. intros [r|]; [|apply keeps_ret].
  apply keeps_then; [apply persistEvent_keeps|]. intros _. apply keeps_ret.
Qed.
End operations.
