(* ===== verification/NoticeSteps.v ===== *)
(** * Notifications: leases, completions, operators and maintenance

    The other operations of the queue keep the invariant of [NoticeInvariant], so every
    database that operations reach satisfies it. *)

From S2P Require Import Prelude GoText GoNumber GoSha256 GoTable NoticeModel NoticeQueue NoticeInvariant.

(** ** Deliveries whose lease ends *)

Definition row_ended (r r' : Delivery) : Prop :=
  row_step r r' /\ dl_attempts r' = dl_attempts r /\ dl_state r' <> Leased /\ delivery_ok r'.
Definition attempt_ended (a a' : AttemptRow) : Prop := at_outcome a' <> InProgress.

(** The deliveries of [ended] end their lease, if they have one, and their attempts. *)
Definition rows_end (ended : string -> bool) (d d' : Database) : Prop :=
  db_messages d' = db_messages d /\ db_channels d' = db_channels d /\ db_revisions d' = db_revisions d /\ db_settings d' = db_settings d /\
  (forall id, option_Forall2 (if ended id then row_ended else eq) (db_deliveries d !! id) (db_deliveries d' !! id)) /\
  (forall id n, option_Forall2 (if ended id then attempt_ended else eq) (db_attempts d !! (id, n)) (db_attempts d' !! (id, n))).

Lemma rows_end_wf ended d d' : wf d -> rows_end ended d d' -> wf d'.
Proof.
  intros Hwf (Em & Ec & Er & Es & Hd & Ha). pose proof Hwf as (Hok & _ & (Ha1 & _) & _).
  apply (release_wf d); try done.
  - intros id. specialize (Hd id). destruct (ended id); [|by destruct Hd as [? ? ->|]; constructor; apply row_release_refl].
    destruct Hd as [r r' (Hs & Hat & Hl & _)|]; constructor. by split_and!.
  - intros id r' Hr'. specialize (Hd id). rewrite Hr' in Hd. inversion Hd as [r ? HR Hr|]; subst. destruct (ended id); [by apply HR|].
    subst r'. by eapply Hok.
  - intros [id n] a' Ha'. specialize (Ha id n). rewrite Ha' in Ha. inversion Ha as [a ? HR Hr|]; subst. exists a. split; [done|].
    destruct (ended id); [by right|by left].
  - intros id n a' r' Ha' Hp Hr'. specialize (Ha id n). specialize (Hd id). rewrite Ha' in Ha. rewrite Hr' in Hd.
    inversion Ha as [a ? HRa Hra|]; inversion Hd as [r ? HRd Hrd|]; subst. destruct (ended id); [done|]. subst.
    destruct (Ha1 id n a') as (r & Hr & Hrange & Hl); [done|]. replace r' with r by congruence. by apply Hl.
  - intros id r' Hr' Hl. specialize (Hd id). specialize (Ha id (dl_attempts r')). rewrite Hr' in Hd. destruct (ended id).
    + inversion Hd as [r ? (_ & _ & Hn & _)|]; subst. done.
    + by destruct Ha as [? ? ->|].
Qed.

Lemma forall2_id {A} (o : option A) : option_Forall2 eq o o.
Proof. destruct o; by constructor. Qed.

(** One delivery and its current attempt. *)
Lemma row_ends_wf d d' id r r' a a' : wf d ->
  db_messages d' = db_messages d -> db_channels d' = db_channels d -> db_revisions d' = db_revisions d -> db_settings d' = db_settings d ->
  db_deliveries d' = <[id := r']> (db_deliveries d) -> db_attempts d' = <[(id, dl_attempts r) := a']> (db_attempts d) ->
  db_deliveries d !! id = Some r -> dl_state r = Leased -> db_attempts d !! (id, dl_attempts r) = Some a ->
  row_ended r r' -> at_outcome a' <> InProgress -> wf d'.
Proof.
  intros Hwf Em Ec Er Es Ed Ea Hr Hl Ha HR Hout. pose proof Hwf as (_ & _ & (Ha1 & _) & _).
  apply (rows_end_wf (String.eqb id) d); [done|]. split_and!; try done.
  - intros j. rewrite Ed. destruct (String.eqb_spec id j) as [<-|Hne]; [rewrite lookup_insert_eq, Hr; by constructor|].
    rewrite lookup_insert_ne by done. apply forall2_id.
  - intros j n. rewrite Ea. destruct (String.eqb_spec id j) as [<-|Hne]; [|rewrite lookup_insert_ne by congruence; apply forall2_id].
    destruct (decide (n = dl_attempts r)) as [->|Hn]; [rewrite lookup_insert_eq, Ha; by constructor|].
    rewrite lookup_insert_ne by congruence. destruct (db_attempts d !! (id, n)) as [b|] eqn:Eb; constructor. intros Hp.
    destruct (Ha1 id n b Eb) as (r2 & Hr2 & Hrange & Hx). destruct (Hx Hp) as [? Hn2]. congruence.
Qed.

(** ** lease.go: recovery *)

Section recover.
Context (clk : nat -> Time).
Context (draw_id : nat -> option string) (draw_token : nat -> option (list Z)) (draw_below : nat -> Z -> option Z).
Context (seal : list Z -> string -> option (list Z)).

Lemma failureMessage_keeps base channel code at_ :
  keeps (fun d => wf d /\ base ⊆ db_deliveries d) (failureMessage clk draw_id seal channel code at_).
Proof.
  intros w u w1 [Hwf Hb] H. unfold failureMessage in H. apply andThen_ok in H as (t & w2 & Ht & H).
  assert (w_db w2 = w_db w) as E2. { destruct at_; [by apply ret_ok in Ht as [_ ->]|by apply now_ok in Ht]. }
  apply andThen_ok in H as (ex & w3 & [-> ->]%query_ok & H). rewrite E2 in H.
  destruct (sourceReceipt _ (w_db w)) as [rc|[]] eqn:Es in H; try done; [apply ret_ok in H as [_ ->]; by rewrite E2|].
  apply andThen_ok in H as (rc & w4 & He & [_ ->]%ret_ok). apply sourceReceipt_absent in Es.
  apply enqueueTx_ok in He as (Hwf1 & _ & cs & _ & id & m & ds & _ & _ & _ & _ & Ed & Hsub & _); [|by rewrite E2|by rewrite E2|exact I].
  split; [done|]. rewrite Ed. cbn. rewrite E2 in Hsub. by etransitivity.
Qed.

Lemma deferFailure_keeps base channel code :
  keeps (fun d => wf d /\ base ⊆ db_deliveries d) (deferCapacityFailure clk draw_id seal channel code).
Proof. apply keeps_then; [apply keeps_unless_full, failureMessage_keeps|]. intros _. apply keeps_ret. Qed.

Lemma expireOneLease_ok id r t w u w1 : expireOneLease id r t w = Ok (u, w1) -> wf (w_db w) ->
  db_deliveries (w_db w) !! id = Some r -> dl_state r = Leased ->
  wf (w_db w1) /\ exists r', db_deliveries (w_db w1) = <[id := r']> (db_deliveries (w_db w)) /\
    dl_state r' = (if dl_attempts r >=? 6 then Dead else Pending).
Proof.
  intros H Hwf Hr Hl. unfold expireOneLease in H. apply andThen_ok in H as (n & w2 & Hat & H).
  pose proof Hwf as (Hok & _ & (_ & Ha2) & _). destruct (Ha2 id r Hr Hl) as (a & Ha & Hprog).
  apply update_attempt_ok in Hat as [(_ & a0 & Ha0 & _ & E2)|(_ & _ & Hno)].
  2: { specialize (Hno a Ha). unfold in_progress in Hno. by rewrite bool_decide_eq_true_2 in Hno. }
  apply update_one_ok in H as (r0 & Hr0 & _ & E1). rewrite E2 in Hr0, E1. cbn in Hr0, E1.
  replace r0 with r in * by congruence. replace a0 with a in * by congruence. set (r' := set_lease _ _ _ _ _ _ _ _ _ _ _ _) in E1.
  pose proof (Hok id r Hr) as Hrok. unfold delivery_ok in Hrok. rewrite Hl in Hrok.
  split; [|exists r'; by rewrite E1]. apply (row_ends_wf (w_db w) (w_db w1) id r r' a (finish_attempt OutLeaseExpired t "lease_expired" "recovery" None a));
    rewrite ?E1; try done. unfold row_ended, row_step, r', delivery_ok, active. cbn. rewrite Hl, Z.geb_leb. destruct (6 <=? dl_attempts r) eqn:E6; go_bool; cbn; split_and!; try done; try lia.
Qed.

Lemma recover_rows t rows w u w1 : each (recover_one clk draw_id seal t) rows w = Ok (u, w1) -> wf (w_db w) ->
  NoDup ((fun row : string * Delivery * string => row.1.1) <$> rows) ->
  Forall (fun row => db_deliveries (w_db w) !! row.1.1 = Some row.1.2 /\ dl_state row.1.2 = Leased) rows -> wf (w_db w1).
Proof.
  revert w. induction rows as [|[[id r] event] rows IH]; intros w H Hwf Hnd Hrows; cbn [each] in H; [by apply ret_ok in H as [_ ->]|].
  apply andThen_ok in H as (u2 & w2 & Hone & H). apply andThen_ok in Hone as (u3 & w3 & Hexp & Hdef). cbn in Hnd. apply NoDup_cons in Hnd as [Hnew Hnd].
  apply Forall_cons in Hrows as [[Hr Hl] Hrows]. cbn in Hr, Hl. apply expireOneLease_ok in Hexp as (Hwf3 & r' & E3 & _); [|done..].
  assert (wf (w_db w2) /\ db_deliveries (w_db w3) ⊆ db_deliveries (w_db w2)) as [Hwf2 Hsub].
  { revert Hdef. apply (keeps_when (fun d => wf d /\ db_deliveries (w_db w3) ⊆ db_deliveries d)); [apply deferFailure_keeps|done]. }
  apply (IH w2 H Hwf2 Hnd). apply Forall_forall. intros row Hin. rewrite Forall_forall in Hrows. destruct (Hrows row Hin) as [Hrow Hlr].
  split; [|done]. eapply lookup_weaken; [|exact Hsub]. rewrite E3. rewrite lookup_insert_ne; [done|]. intros ->. apply Hnew.
  by apply (list_elem_of_fmap_2 (fun row : string * Delivery * string => row.1.1)).
Qed.

Lemma expired_leases_spec t d : NoDup ((fun row : string * Delivery * string => row.1.1) <$> expired_leases t d) /\
  Forall (fun row => db_deliveries d !! row.1.1 = Some row.1.2 /\ dl_state row.1.2 = Leased) (expired_leases t d).
Proof.
  unfold expired_leases. set (rows := take 64 _).
  assert (NoDup rows /\ Forall (fun kv => db_deliveries d !! kv.1 = Some kv.2 /\ dl_state kv.2 = Leased) rows) as [Hnd Hall].
  { unfold rows. set (all := ordered _ _). assert (NoDup all) as Hn by (unfold all; rewrite ordered_Permutation; apply NoDup_rows_where).
    split; [by eapply sublist_NoDup; [|apply sublist_take]|]. apply Forall_forall. intros [id r] Hin. apply elem_of_take in Hin as (i & Hin & _).
    apply list_elem_of_lookup_2 in Hin. unfold all in Hin. rewrite elem_of_ordered, elem_of_rows_where in Hin. destruct Hin as [Hr Hc].
    split; [done|]. unfold lease_expired, in_state in Hc. cbn. go_bool. destruct Hc as [[Hl _] _]. by apply bool_decide_eq_true in Hl. }
  clearbody rows. induction rows as [|[id r] rows IH]; cbn; [split; constructor|].
  apply NoDup_cons in Hnd as [Hnew Hnd]. apply Forall_cons in Hall as [Hr Hall]. destruct (IH Hnd Hall) as [Hnd' Hall'].
  destruct (event_of d r) as [e|]; cbn; [|done]. split; constructor; [|done|done|done].
  intros (row & Heq & Hrow)%list_elem_of_fmap. apply list_elem_of_omap in Hrow as ([id2 r2] & Hin & Hsome). rewrite Forall_forall in Hall.
  destruct (Hall _ Hin) as [Hr2 _]. cbn in *. destruct (event_of d r2); [|done]. injection Hsome as <-. cbn in Heq. subst id2. apply Hnew.
  by replace r with r2 by (destruct Hr; congruence).
Qed.

Lemma recoverExpired_keeps : keeps wf (recoverExpiredTx clk draw_id seal).
Proof.
  intros w u w1 Hwf H. unfold recoverExpiredTx in H. apply andThen_ok in H as (t & w2 & Ht%now_ok & H).
  apply andThen_ok in H as (rows & w3 & [-> ->]%query_ok & H). destruct (expired_leases_spec (UnixMilli t) (w_db w2)) as [Hnd Hall].
  eapply recover_rows; [exact H|by rewrite Ht|done..].
Qed.

(** ** lease.go: claims *)

Lemma selectDueLease_ok t d id r : selectDueLease t d = Some (id, r) -> db_deliveries d !! id = Some r /\ claimable d t id r = true.
Proof.
  unfold selectDueLease. intros H%head_Some_elem_of. rewrite merge_sort_Permutation in H. by apply elem_of_rows_where in H.
Qed.

Lemma claimable_ok t d id r : claimable d t id r = true ->
  dl_state r = Pending /\ dl_attempts r < 6 /\ dl_next r <= t /\ channel_busy d (dl_channel r) = false /\
  exists c event, db_channels d !! dl_channel r = Some c /\ event_of d r = Some event /\ ch_deleted c = None /\
    (ch_enabled c = true \/ is_test event = true) /\ (is_test event = true \/ circuit_allows d r t = true /\ earlier d id r = false).
Proof.
  unfold claimable, in_state. destruct (db_channels d !! dl_channel r) as [c|] eqn:Ec; [|by rewrite andb_false_r].
  destruct (event_of d r) as [event|] eqn:Ee; [|by rewrite andb_false_r]. destruct (db_revisions d !! _) as [v|]; [|by rewrite andb_false_r].
  rewrite !andb_true_iff, !orb_true_iff, andb_true_iff, !negb_true_iff, !bool_decide_eq_true, Z.ltb_lt, Z.leb_le.
  intros (((Hp & Ha) & Hn) & (((Hd & He) & Hb) & Ho)). split_and!; try done. exists c, event. by split_and!.
Qed.

(** What a claim does: after recovering the leases that ran out, the delivery is leased. *)
Definition claimed (d1 d' : Database) (lease : deliveryLease) : Prop :=
  exists r t started token updated, db_deliveries d1 !! le_ID lease = Some r /\ claimable d1 t (le_ID lease) r = true /\
    lease = mkLease (le_ID lease) (dl_message r) (dl_channel r) (default "" (rv_type <$> db_revisions d1 !! (dl_channel r, dl_revision r)))
              (default "" (event_of d1 r)) (dl_revision r) (dl_attempts r + 1) (Sum256 token) (le_ExpiresAt lease) /\
    (exists n, le_ExpiresAt lease = UnixMilli (Prelude.Add (clk n) deliveryLeaseLifetime)) /\
    (exists worker, d' = set_attempts (<[(le_ID lease, dl_attempts r + 1) := mkAttemptRow started None 0 InProgress "" "" ""]> (db_attempts d1))
           (set_deliveries (<[le_ID lease := set_lease Leased (dl_attempts r + 1) (dl_next r) (Some (le_Hash lease)) (Some (le_ExpiresAt lease)) worker
                              (dl_completed r) updated (dl_code r) (dl_stage r) (dl_class r) r]> (db_deliveries d1)) d1)).

Lemma claimTx_ok worker w lease w1 : claimTx clk draw_id draw_token seal worker w = Ok (lease, w1) -> wf (w_db w) ->
  exists d1, wf d1 /\
    match lease with
    | None => w_db w1 = d1
    | Some lease => claimCapacity d1 = true /\ claimed d1 (w_db w1) lease
    end.
Proof.
  intros H Hwf. unfold claimTx in H. apply andThen_ok in H as (u & w2 & Hrec & H). apply recoverExpired_keeps in Hrec; [|done].
  exists (w_db w2). split; [done|]. apply andThen_ok in H as (cap & w3 & [-> ->]%query_ok & H).
  destruct (claimCapacity (w_db w2)) eqn:Ecap; cbn [negb] in H; [|by apply ret_ok in H as [-> ->]].
  apply andThen_ok in H as (t & w3 & Ht%now_ok & H). apply andThen_ok in H as (sel & w4 & [-> ->]%query_ok & H). rewrite Ht in H.
  destruct (selectDueLease (UnixMilli t) (w_db w2)) as [[id r]|] eqn:Es; [|apply ret_ok in H as [-> ->]; by rewrite Ht].
  apply selectDueLease_ok in Es as [Hr Hclaim]. apply andThen_ok in H as (types & w5 & [-> ->]%query_ok & H). rewrite Ht in H.
  apply andThen_ok in H as (token & w6 & Htok%draw_ok & H). apply andThen_ok in H as (t2 & w7 & Ht2 & H).
  pose proof (now_clk _ _ _ _ Ht2) as Hclk. apply now_ok in Ht2.
  apply andThen_ok in H as (t3 & w8 & Ht3%now_ok & H). apply andThen_ok in H as (u2 & w9 & Hupd & H).
  apply andThen_ok in H as (t4 & w10 & Ht4%now_ok & H). apply andThen_ok in H as (u3 & w11 & [Hnone Hins]%insert_row_ok & H).
  apply ret_ok in H as [-> ->]. apply update_one_ok in Hupd as (r0 & Hr0 & _ & Hup). rewrite Ht3, Ht2, Htok, Ht in Hr0, Hup.
  replace r0 with r in * by congruence. split; [done|]. rewrite Ht4, Hup in Hins. clear Hrec.
  exists r, (UnixMilli t), (UnixMilli t4), token, (UnixMilli t3). cbn [le_ID le_Hash le_ExpiresAt]. split_and!; try done.
  - rewrite Hclk. eauto.
  - exists worker. exact Hins.
Qed.

Lemma claim_keeps worker : keeps wf (claimTx clk draw_id draw_token seal worker).
Proof.
  intros w lease w1 Hwf H. destruct (claimTx_ok _ _ _ _ H Hwf) as (d1 & Hd1 & Hl). destruct lease as [lease|]; [|by rewrite Hl].
  destruct Hl as (Hcap & r & t & started & token & updated & Hr & Hc & _ & _ & worker' & E). rewrite E. apply claimable_ok in Hc as (Hp & Ha & _ & Hb & _).
  pose proof Hd1 as (Hok & _ & _ & _ & _ & _ & _ & Hbounds). pose proof (Hok _ _ Hr) as Hrok. unfold delivery_ok in Hrok. rewrite Hp in Hrok.
  apply (lease_wf d1 _ r); try done.
  - unfold row_step, active. cbn. rewrite Hp. by split_and!.
  - cbn. tauto.
  - unfold claimCapacity in Hcap. apply Z.ltb_lt in Hcap. destruct Hbounds as (_ & _ & Hw). lia.
Qed.

(** ** complete.go *)

(** The state a result leads to. *)
Definition next_state (attempt : Z) (r : SendResult) : deliveryState :=
  if sr_Success r then Succeeded else if sr_Retryable r && (attempt <? 6) then Pending else Dead.

Lemma completion_state_ok lease r t w state out at_ w1 : completion_state draw_below lease r t w = Ok (state, out, at_, w1) ->
  w_db w1 = w_db w /\ state = next_state (le_Attempt lease) r /\ out <> InProgress.
Proof.
  unfold completion_state, next_state. destruct (sr_Success r); [by intros [[= -> -> ->] ->]%ret_ok|].
  destruct (sr_Retryable r); cbn [negb andb]; [|by intros [[= -> -> ->] ->]%ret_ok].
  destruct (le_Attempt lease <? 6); [|by intros [[= -> -> ->] ->]%ret_ok]. intros (delay & w2 & Hd & [[= -> -> ->] ->]%ret_ok)%andThen_ok.
  unfold retryDelay in Hd. destruct (_ || _); [done|]. apply andThen_ok in Hd as (j & w3 & Hj%draw_ok & [_ ->]%ret_ok). done.
Qed.

Lemma updateHealth_ok lease r w u w1 : updateHealth clk lease r w = Ok (u, w1) -> exists h, w_db w1 = set_health h (w_db w).
Proof.
  unfold updateHealth. intros (t & w2 & Ht%now_ok & H)%andThen_ok. destruct (sr_Success r); [|destruct (sr_Retryable r)].
  - apply exec_ok in H. rewrite Ht in H. eauto.
  - apply andThen_ok in H as (t2 & w3 & Ht2%now_ok & H%exec_ok). rewrite Ht2, Ht in H. eauto.
  - apply exec_ok in H. rewrite Ht in H. eauto.
Qed.

(** A completed delivery: it held the lease, and its row and its attempt are finished. *)
Definition completed (lease : deliveryLease) (r : SendResult) (d d' : Database) : Prop :=
  exists n row a next out h, let t := UnixMilli (clk n) in
    db_deliveries d !! le_ID lease = Some row /\ holds_lease lease t row = true /\ le_Attempt lease = dl_attempts row /\
    db_attempts d !! (le_ID lease, le_Attempt lease) = Some a /\ at_outcome a = InProgress /\ out <> InProgress /\
    let state := next_state (le_Attempt lease) r in
    d' = set_health h (set_attempts (<[(le_ID lease, le_Attempt lease) := finish_attempt out t (sr_Code r) (sr_Stage r) (Some (sr_Class r)) a]> (db_attempts d))
      (set_deliveries (<[le_ID lease := set_lease state (dl_attempts row) next None None "" (if decide (state = Pending) then None else Some t) t
                           (sr_Code r) (sr_Stage r) (sr_Class r) row]> (db_deliveries d)) d)).

Lemma completeTx_ok lease r w state w1 : completeTx clk draw_below lease r w = Ok (state, w1) -> wf (w_db w) ->
  state = next_state (le_Attempt lease) r /\ completed lease r (w_db w) (w_db w1) /\ wf (w_db w1).
Proof.
  intros H Hwf. unfold completeTx in H. apply andThen_ok in H as (t & w2 & Ht & H). pose proof (now_clk _ _ _ _ Ht) as Hclk. apply now_ok in Ht. apply andThen_ok in H as ([[st out] at_] & w3 & Hst & H).
  apply completion_state_ok in Hst as (E3 & -> & Hout). apply andThen_ok in H as (u & w4 & Hup & H). apply andThen_ok in H as (u2 & w5 & Hat & H).
  apply andThen_ok in H as (u3 & w6 & Hh & [-> ->]%ret_ok). apply update_one_ok in Hup as (row & Hrow & Hholds & E4). rewrite E3, Ht in Hrow, E4.
  apply update_one_attempt_ok in Hat as (a & Ha & Hprog & E5). rewrite E4 in Ha, E5. cbn in Ha, E5. apply updateHealth_ok in Hh as [h E6].
  rewrite E5 in E6. cbn in E6. unfold in_progress in Hprog. apply bool_decide_eq_true in Hprog.
  pose proof Hwf as (Hok & _ & (Ha1 & _) & _). destruct (Ha1 _ _ _ Ha) as (row0 & Hrow0 & Hrange & Hcur). destruct (Hcur Hprog) as [Hl Hatt].
  replace row0 with row in * by congruence. split; [done|]. split.
  { exists (w_ticks w), row, a, (UnixMilli at_), out, h. rewrite <- Hclk. by split_and!. }
  rewrite E6. pose proof (Hok _ _ Hrow) as Hrok. unfold delivery_ok in Hrok. rewrite Hl in Hrok.
  eapply (row_ends_wf (w_db w) _ (le_ID lease) row _ a); cbn; try reflexivity; try done; [by rewrite Hatt|by rewrite <- Hatt| |done].
  unfold row_ended, row_step, delivery_ok, active, next_state in *. cbn. rewrite Hl, Hatt.
  destruct (sr_Success r); [split_and!; cbn; try done; lia|]. destruct (sr_Retryable r && (dl_attempts row <? 6)) eqn:Er; cbn.
  - apply andb_true_iff in Er as [_ Er%Z.ltb_lt]. split_and!; try done; lia.
  - split_and!; try done; lia.
Qed.

Lemma complete_keeps lease r : keeps wf
  (state <~ completeTx clk draw_below lease r ;;
   when (bool_decide (state = Dead) && negb (is_failure (le_EventKind lease))) (deferCapacityFailure clk draw_id seal (le_ChannelID lease) (sr_Code r))).
Proof.
  intros w u w1 Hwf (state & w2 & H & Hd)%andThen_ok. apply completeTx_ok in H as (_ & _ & Hwf2); [|done].
  revert Hd. destruct (_ && _); cbn [when]; [|by intros [_ ->]%ret_ok].
  intros Hd. by apply (deferFailure_keeps ∅) in Hd as [Hd _]; [|split; [done|apply map_empty_subseteq]].
Qed.

(** ** Operators *)

Lemma authorize_ok rule w row w1 : authorize clk rule w = Ok (row, w1) -> w_db w1 = w_db w.
Proof.
  unfold authorize. destruct (_ || _); [done|]. intros (x & w2 & [-> ->]%query_ok & H)%andThen_ok. destruct (db_admins _ !! _) as [a|]; [|done].
  apply andThen_ok in H as (t & w3 & Ht%now_ok & H). destruct (_ || _) in H; [done|]. destruct (_ && _) in H; [done|]. by apply ret_ok in H as [_ ->].
Qed.

Lemma audit_ok rule action type resource w u w1 : audit clk draw_id rule action type resource w = Ok (u, w1) -> exists v, w_db w1 = set_audit v (w_db w).
Proof.
  unfold audit. intros (row & w2 & Hr%authorize_ok & H)%andThen_ok. apply andThen_ok in H as (i & w3 & Hi%draw_ok & H).
  apply andThen_ok in H as (t & w4 & Ht%now_ok & H%exec_ok). rewrite Ht, Hi, Hr in H. eauto.
Qed.

Lemma currentChannel_live id d c : wf d -> currentChannel id d = Ok c -> sc_id c = id /\ live d c.
Proof.
  intros (_ & _ & _ & _ & Hch & _). unfold currentChannel. destruct (db_channels d !! id) as [ch|] eqn:E; [|done]. case_bool_decide as Hd; [|done].
  destruct (_ <? 1); [done|]. intros [= <-]. split; [done|]. split; [by apply Hch|by exists ch].
Qed.

Lemma RetryDelivery_wf commit actor id confirm d : wf d -> wf (RetryDelivery clk draw_id commit actor id confirm d).2.
Proof.
  intros Hd. unfold RetryDelivery. destruct (negb confirm); [done|]. apply transact_keeps; [|done]. clear d Hd. intros w x w1 Hwf H.
  apply andThen_ok in H as (row & w2 & E2%authorize_ok & H). apply andThen_ok in H as (src & w3 & [-> ->]%query_ok & H).
  apply andThen_ok in H as (src & w4 & [Hsrc ->]%lift_ok & H). apply andThen_ok in H as (ex & w5 & [-> ->]%query_ok & H). rewrite E2 in *.
  destruct (retryChild id (w_db w)) as [[child rc]|] eqn:Er; [apply ret_ok in H as [_ ->]; by rewrite E2|].
  apply andThen_ok in H as (ch & w6 & [-> ->]%query_ok & H). apply andThen_ok in H as (ch & w7 & [Hch ->]%lift_ok & H). rewrite E2 in Hch.
  apply andThen_ok in H as (u & w8 & Hcap & H). unfold checkQueueCapacity in Hcap. apply andThen_ok in Hcap as (n & w9 & [-> ->]%query_ok & Hcap). rewrite E2 in Hcap.
  destruct (_ >? _) eqn:Ec in Hcap; [done|]. apply ret_ok in Hcap as [_ ->]. rewrite Z.gtb_ltb in Ec. apply Z.ltb_ge in Ec.
  apply andThen_ok in H as (new & w10 & Hins & H). apply insertDelivery_ok in Hins as (Hnew & ms & E10). rewrite E2 in Hnew, E10.
  apply andThen_ok in H as (u2 & w11 & [v E11]%audit_ok & [_ ->]%ret_ok). rewrite E11, E10.
  unfold retrySource in Hsrc. destruct (db_deliveries (w_db w) !! id) as [r|] eqn:Eid; [|done]. destruct (in_state Dead r) eqn:Ed; [|done]. injection Hsrc as ->.
  unfold in_state in Ed. apply bool_decide_eq_true in Ed. destruct (currentChannel_live _ _ _ Hwf Hch) as [Hsc (Hrev & c & Hc & Hdel)].
  pose proof Hwf as (_ & _ & _ & Hrefs & _). destruct (Hrefs _ _ Eid) as (Hm & _).
  apply (insert_wf (w_db w) new _ c); try done. cbn. split.
  - exists src. by rewrite Hsc.
  - intros id2 r2 Hr2 Hret. unfold retryChild in Er. apply head_None in Er.
    assert ((id2, r2) ∈ rows_where (fun _ r => bool_decide (dl_retry_of r = Some id)) (db_deliveries (w_db w))) as Hin.
    { apply elem_of_rows_where. by rewrite bool_decide_eq_true. }
    rewrite Er in Hin. by apply elem_of_nil in Hin.
Qed.

Lemma cancel_row_ended t code r : delivery_ok r -> active r = true -> row_ended r (cancel_row t code r).
Proof. unfold row_ended, row_step, delivery_ok, active. cbn. destruct (dl_state r); try done; intros H _; split_and!; try done; lia. Qed.

Lemma finished_ended (c : bool) out t code stage class a : out <> InProgress -> (at_outcome a = InProgress -> c = true) ->
  attempt_ended a (if c then finish_attempt out t code stage class a else a).
Proof. intros Hout Hc. unfold attempt_ended. destruct c; [done|]. intros Hp. by specialize (Hc Hp). Qed.

Lemma CancelDelivery_wf commit actor id d : wf d -> wf (CancelDelivery clk draw_id commit actor id d).2.
Proof.
  intros Hd. unfold CancelDelivery. apply commit_keeps; [|done]. clear d Hd. intros w x w1 Hwf H.
  apply andThen_ok in H as (row & w2 & E2%authorize_ok & H). apply andThen_ok in H as (src & w3 & [-> ->]%query_ok & H). rewrite E2 in H.
  destruct (db_deliveries (w_db w) !! id) as [r|] eqn:Eid; [|done]. destruct (active r) eqn:Ea; cbn [negb] in H; [|done].
  apply andThen_ok in H as (t & w4 & Ht%now_ok & H). apply andThen_ok in H as (u & w5 & E5%exec_ok & H). apply andThen_ok in H as (u2 & w6 & Hup & H).
  apply audit_ok in H as [v E1]. apply update_one_ok in Hup as (r0 & Hr0 & _ & E6). rewrite E5, Ht, E2 in Hr0, E6. cbn in Hr0, E6.
  replace r0 with r in * by congruence. rewrite E1, E6. pose proof Hwf as (Hok & _ & (Ha1 & _) & _).
  apply (rows_end_wf (String.eqb id) (w_db w)); [done|]. split_and!; try done; cbn.
  - intros j. destruct (String.eqb_spec id j) as [<-|Hne]; [|rewrite lookup_insert_ne by done; apply forall2_id].
    rewrite lookup_insert_eq, Eid. constructor. apply cancel_row_ended; [by eapply Hok|done].
  - intros j n. rewrite lookup_update_where. destruct (db_attempts (w_db w) !! (j, n)) as [a|]; cbn; [|destruct (String.eqb id j); constructor].
    destruct (String.eqb_spec id j) as [<-|Hne].
    + constructor. apply finished_ended; [done|]. intros Hp. unfold in_progress. by rewrite bool_decide_eq_true_2.
    + rewrite andb_false_r. by constructor.
Qed.

Lemma consumeBudget_ok kind scope seconds limit w u w1 : consumeBudget clk kind scope seconds limit w = Ok (u, w1) ->
  exists b, w_db w1 = set_budgets b (w_db w).
Proof.
  unfold consumeBudget. intros (t & w2 & Ht%now_ok & H)%andThen_ok. apply andThen_ok in H as (n & w3 & [-> ->]%query_ok & H).
  destruct (db_budgets _ !! _) as [n|]; [destruct (n <? limit); [|done]|]; apply exec_ok in H; rewrite Ht in H; eauto.
Qed.

Lemma TestChannel_wf commit actor id occurred d : wf d -> wf (TestChannel clk draw_id seal commit actor id occurred d).2.
Proof.
  intros Hd. unfold TestChannel. apply transact_keeps; [|done]. clear d Hd. apply keeps_then.
  { intros w row w1 Hw E%authorize_ok. by rewrite E. }
  intros _. apply keeps_then. { unfold testSourceKey. apply keeps_then; [destruct (_ =s _); [apply keeps_draw|apply keeps_ret]|]. intros x. apply keeps_ret. }
  intros key. apply unless_sent_keeps. intros w x w1 Hwf Hf H.
  apply andThen_ok in H as (ch & w2 & [-> ->]%query_ok & H). apply andThen_ok in H as (ch & w3 & [Hch ->]%lift_ok & H).
  apply andThen_ok in H as (u & w4 & [b1 E4]%consumeBudget_ok & H). apply andThen_ok in H as (u2 & w5 & [b2 E5]%consumeBudget_ok & H).
  apply andThen_ok in H as (rc & w6 & He & H). apply andThen_ok in H as (u3 & w7 & [v E7]%audit_ok & [_ ->]%ret_ok). rewrite E4 in E5.
  destruct (currentChannel_live _ _ _ Hwf Hch) as [_ Hlive]. apply enqueueTx_ok in He as [Hwf6 _]; rewrite ?E5; [by rewrite E7|done|done|done].
Qed.

(** A channel that changes without losing a delivery that waits for it. *)
Lemma channel_wf d id c c' : wf d -> db_channels d !! id = Some c -> ch_revision c' = ch_revision c ->
  (ch_deleted c' = None \/ forall id2 r2, db_deliveries d !! id2 = Some r2 -> dl_channel r2 = id -> active r2 = false) ->
  wf (set_channels (<[id := c']> (db_channels d)) d).
Proof.
  intros (Hok & Hsf & Hat & Hrefs & Hch & Hk & Hcs & Hb) Hc Hrev Hdel.
  refine (conj Hok (conj Hsf (conj Hat (conj _ (conj _ (conj Hk (conj Hcs Hb))))))); cbn.
  - intros id1 r1 H1. destruct (Hrefs id1 r1 H1) as (Hm & Hv & c1 & Hc1 & Ha1). split_and!; [done..|].
    destruct (decide (dl_channel r1 = id)) as [Heq|Hne]; [|exists c1; by rewrite lookup_insert_ne].
    rewrite Heq, lookup_insert_eq. exists c'. split; [done|]. intros Ha. destruct Hdel as [|Hdel]; [done|]. rewrite (Hdel id1 r1 H1 Heq) in Ha. done.
  - intros id1 c1 [[<- <-]|[_ H1]]%lookup_insert_Some; [rewrite Hrev; by apply Hch|by apply Hch].
Qed.

Definition cancelled_rows (channel : string) (ds : gmap string Delivery) (id : string) : bool :=
  match ds !! id with Some r => (dl_channel r =s channel) && active r | None => false end.

Lemma cancelChannel_ok channel w u w1 : cancelChannelDeliveries clk channel w = Ok (u, w1) -> exists ds ats,
  w_db w1 = set_deliveries ds (set_attempts ats (w_db w)) /\
  (forall d, db_deliveries d = db_deliveries (w_db w) -> db_attempts d = db_attempts (w_db w) -> wf d ->
     wf (set_deliveries ds (set_attempts ats d)) /\ forall id r, ds !! id = Some r -> dl_channel r = channel -> active r = false).
Proof.
  unfold cancelChannelDeliveries. intros (t & w2 & Ht%now_ok & H)%andThen_ok. apply andThen_ok in H as (u2 & w3 & E3%exec_ok & E1%exec_ok).
  rewrite E3, Ht in E1. cbn in E1. do 2 eexists. split; [exact E1|]. intros d Ed Ea Hwf. rewrite <- Ed, <- Ea.
  pose proof Hwf as (Hok & _ & (Ha1 & _) & _). split.
  - apply (rows_end_wf (cancelled_rows channel (db_deliveries d)) d); [done|]. unfold cancelled_rows. split_and!; try done; cbn.
    + intros id. rewrite lookup_update_where. destruct (db_deliveries d !! id) as [r|] eqn:Er; cbn; [|constructor].
      destruct (_ && _) eqn:Ec; [|by constructor]. apply andb_true_iff in Ec as [_ Hact]. constructor. apply cancel_row_ended; [by eapply Hok|done].
    + intros id n. rewrite lookup_update_where. destruct (db_attempts d !! (id, n)) as [a|] eqn:Eat; cbn; [|destruct (match _ with _ => _ end); constructor].
      destruct (Ha1 _ _ _ Eat) as (r & Hr & _ & Hcur). rewrite Hr. unfold in_state, in_progress. destruct (dl_channel r =s channel) eqn:Ech; cbn.
      * destruct (active r) eqn:Eact.
        { constructor. apply finished_ended; [done|]. intros Hp. destruct (Hcur Hp) as [Hl _]. by rewrite !bool_decide_eq_true_2. }
        constructor. rewrite andb_comm. case_bool_decide as Hl; [|done]. unfold active in Eact. by rewrite Hl in Eact.
      * constructor. by rewrite andb_false_r.
  - intros id r. rewrite lookup_update_where. destruct (db_deliveries d !! id) as [r0|]; [|done]. cbn. intros [= <-].
    destruct (dl_channel r0 =s channel) eqn:Ech; cbn; [|intros Hc; apply String.eqb_neq in Ech; done].
    destruct (active r0) eqn:Eact; done.
Qed.

Lemma changeChannelState_wf commit actor id enabled deleted d : wf d -> wf (changeChannelState clk draw_id commit actor id enabled deleted d).2.
Proof.
  intros Hd. unfold changeChannelState. apply commit_keeps; [|done]. clear d Hd. intros w x w1 Hwf H.
  apply andThen_ok in H as (row & w2 & E2%authorize_ok & H). apply andThen_ok in H as (src & w3 & [-> ->]%query_ok & H). rewrite E2 in H.
  destruct (db_channels (w_db w) !! id) as [c|] eqn:Ec; [|done]. destruct (negb _) in H; [done|]. apply andThen_ok in H as (t & w4 & Ht%now_ok & H).
  apply andThen_ok in H as (u & w5 & Hset & H). apply andThen_ok in H as (u2 & w6 & Hcan & [v E1]%audit_ok). rewrite E1. destruct deleted.
  - apply andThen_ok in Hset as (t' & w7 & Ht'%now_ok & E5%exec_ok). rewrite Ht', Ht, E2 in E5.
    cbn [when] in Hcan. apply cancelChannel_ok in Hcan as (ds & ats & E6 & Hall). rewrite E5 in E6, Hall.
    destruct (Hall (w_db w) eq_refl eq_refl Hwf) as [Hwf' Hnone]. rewrite E6.
    apply (channel_wf _ id c (mkChannel (ch_name c) (ch_type c) false (ch_revision c) (ch_kinds c) (Some t) t') Hwf' Ec eq_refl). by right.
  - apply exec_ok in Hset. cbn [when] in Hcan. apply ret_ok in Hcan as [_ ->]. rewrite Hset, Ht, E2.
    destruct (ch_deleted c) as [del|] eqn:Edel.
    + apply (channel_wf _ id c); [done..|]. right. intros id2 r2 Hr2 Hch. destruct Hwf as (_ & _ & _ & Hrefs & _).
      destruct (Hrefs _ _ Hr2) as (_ & _ & c2 & Hc2 & Hact). destruct (active r2); [|done]. rewrite Hch in Hc2. specialize (Hact eq_refl). congruence.
    + apply (channel_wf _ id c); [done..|by left].
Qed.

Lemma writeChannel_wf commit actor previous prepared write d : wf d -> wf (writeChannel clk draw_id seal commit actor previous prepared write d).2.
Proof.
  intros Hd. unfold writeChannel. destruct (validateChannelWrite _ _); [|done]. destruct prepared as [p|]; [|done]. apply commit_keeps; [|done]. clear d Hd. intros w x w1 Hwf H.
  apply andThen_ok in H as (row & w2 & E2%authorize_ok & H). apply andThen_ok in H as (src & w3 & [-> ->]%query_ok & H).
  apply andThen_ok in H as (u & w4 & [_ ->]%lift_ok & H). apply andThen_ok in H as (u2 & w5 & Hp & [v E1]%audit_ok). rewrite E1.
  unfold persistChannel in Hp. apply andThen_ok in Hp as (t & w6 & Ht%now_ok & Hp). apply andThen_ok in Hp as (u3 & w7 & Hw & Hp).
  apply andThen_ok in Hp as (i & w8 & Hi%draw_ok & Hp). destruct (seal _ _) as [sealed|]; [|done].
  apply andThen_ok in Hp as (t2 & w9 & Ht2%now_ok & Hp). apply andThen_ok in Hp as (u4 & w10 & [_ E10]%insert_row_ok & E5%exec_ok).
  set (ch := mkChannel (cw_Name write) (cw_Type write) (cw_Enabled write) (pc_revision p) (uniqueStrings None (merge_sort str_le (cw_Kinds write))) None t) in *.
  assert (w_db w7 = set_channels (<[pc_id p := ch]> (db_channels (w_db w))) (w_db w)) as E7.
  { unfold write_channel_row in Hw. fold ch in Hw. destruct (pc_previous p).
    - apply andThen_ok in Hw as (old & wa & [-> ->]%query_ok & Hw). rewrite Ht, E2 in Hw. destruct (db_channels (w_db w) !! pc_id p) as [c|]; [|done].
      destruct (_ && _) in Hw; [|done]. apply exec_ok in Hw. by rewrite Ht, E2 in Hw.
    - apply insert_row_ok in Hw as [_ Hw]. by rewrite Ht, E2 in Hw. }
  rewrite Ht2, Hi, E7 in E10. rewrite E10 in E5. rewrite E5. destruct Hwf as (Hok & Hsf & Hat & Hrefs & Hch & Hk & Hcs & Hb).
  refine (conj Hok (conj Hsf (conj Hat (conj _ (conj _ (conj Hk (conj Hcs Hb))))))); cbn.
  - intros id1 r1 H1. destruct (Hrefs id1 r1 H1) as (Hm & Hv & c1 & Hc1 & Ha1). split_and!; [done|by apply lookup_insert_is_Some'; auto|].
    destruct (decide (dl_channel r1 = pc_id p)) as [Heq|Hne]; [rewrite Heq, lookup_insert_eq; by exists ch|exists c1; by rewrite lookup_insert_ne].
  - intros id1 c1 [[<- <-]|[_ H1]]%lookup_insert_Some; apply lookup_insert_is_Some'; [by left|right; by apply Hch].
Qed.

Lemma UpdateSettings_wf commit actor expected success dead workers policy d : wf d ->
  wf (UpdateSettings clk draw_id commit actor expected success dead workers policy d).2.
Proof.
  intros Hd. unfold UpdateSettings. destruct (_ || _) eqn:Eb; [done|]. destruct policy; [|done]. apply commit_keeps; [|done]. clear d Hd. intros w x w1 Hwf H.
  apply andThen_ok in H as (row & w2 & E2%authorize_ok & H). apply andThen_ok in H as (src & w3 & [-> ->]%query_ok & H). destruct (negb _) in H; [done|].
  apply andThen_ok in H as (u & w4 & E4%exec_ok & H). apply andThen_ok in H as (u2 & w5 & [v E5]%audit_ok & [_ ->]%query_ok). rewrite E5, E4, E2.
  rewrite !orb_false_iff, !Z.gtb_ltb in Eb. go_bool. destruct Hwf as (Hok & Hsf & Hat & Hrefs & Hch & Hk & Hcs & Hb1 & Hb2 & _).
  refine (conj Hok (conj Hsf (conj Hat (conj Hrefs (conj Hch (conj Hk (conj Hcs (conj Hb1 (conj Hb2 _))))))))). cbn. lia.
Qed.

Lemma ReconcileRestore_wf commit t d : wf d -> wf (ReconcileRestore draw_id commit t d).2.
Proof.
  intros Hd. unfold ReconcileRestore. apply commit_keeps; [|done]. clear d Hd. intros w x w1 Hwf H.
  apply andThen_ok in H as (u & w2 & E2%exec_ok & H). apply andThen_ok in H as (u2 & w3 & E3%exec_ok & H).
  apply andThen_ok in H as (i & w4 & Hi%draw_ok & E1%exec_ok). rewrite Hi, E3, E2 in E1. rewrite E1. clear - Hwf. set (d := w_db w) in *.
  pose proof Hwf as (Hok & _ & (Ha1 & _) & _). set (ms := UnixMilli t).
  apply (rows_end_wf (fun id => match db_deliveries d !! id with Some r => lease_expired ms r | None => false end) d); [done|]. split_and!; try done; cbn.
  - intros id. rewrite lookup_update_where. destruct (db_deliveries d !! id) as [r|] eqn:Er; cbn; [|constructor].
    destruct (lease_expired ms r) eqn:Ex; [|by constructor]. constructor. unfold lease_expired, in_state in Ex. apply andb_true_iff in Ex as [Hl _].
    apply bool_decide_eq_true in Hl. pose proof (Hok _ _ Er) as Hrok. unfold delivery_ok in Hrok. rewrite Hl in Hrok.
    unfold row_ended, row_step, delivery_ok, active. cbn. rewrite Hl, Z.geb_leb. destruct (6 <=? dl_attempts r) eqn:E6; go_bool; cbn; split_and!; try done; lia.
  - intros id n. rewrite lookup_update_where. destruct (db_attempts d !! (id, n)) as [a|] eqn:Ea; cbn;
      [|destruct (db_deliveries d !! id) as [r|]; [destruct (lease_expired ms r)|]; constructor].
    destruct (db_deliveries d !! id) as [r|]; [|rewrite andb_false_r; by constructor]. destruct (lease_expired ms r); [|rewrite andb_false_r; by constructor].
    constructor. apply finished_ended; [done|]. intros Hp. unfold in_progress. by rewrite bool_decide_eq_true_2.
Qed.

(** ** Maintenance *)

Lemma reconcile_keeps missing : keeps wf (reconcile_loop clk draw_id seal missing).
Proof.
  induction missing as [|[id r] missing IH]; cbn [reconcile_loop]; [apply keeps_ret|]. apply keeps_then.
  - apply keeps_unless_full. intros w u w1 Hw H. by apply (failureMessage_keeps ∅) in H as [H _]; [|split; [done|apply map_empty_subseteq]].
  - intros [|]; [done|apply keeps_ret].
Qed.

Lemma ReconcileFailures_wf commit d : wf d -> wf (ReconcileFailures clk draw_id seal commit d).2.
Proof.
  intros Hd. unfold ReconcileFailures. apply commit_keeps; [|done]. apply keeps_then; [apply keeps_query|]. intros l. apply reconcile_keeps.
Qed.
End recover.

Definition childless (ds : gmap string Delivery) (id : string) : Prop := forall id2 r2, ds !! id2 = Some r2 -> dl_retry_of r2 <> Some id.

(** The deliveries after a root was pruned and its retry was promoted. *)
Definition prune_table (id : string) (child : option string) (ds : gmap string Delivery) : gmap string Delivery :=
  match child with Some c => alter (set_retry_of None) c (delete id ds) | None => delete id ds end.

Lemma prune_table_lookup id child ds id2 r2 : prune_table id child ds !! id2 = Some r2 ->
  id2 <> id /\ exists r, ds !! id2 = Some r /\ (r2 = r /\ child <> Some id2 \/ child = Some id2 /\ r2 = set_retry_of None r).
Proof.
  unfold prune_table. destruct child as [c|].
  - destruct (decide (c = id2)) as [->|Hne].
    + rewrite lookup_alter_eq. destruct (delete id ds !! id2) as [r|] eqn:E; [|done]. intros [= <-].
      apply lookup_delete_Some in E as [Hne Hr]. split; [done|]. exists r. auto.
    + rewrite lookup_alter_ne by done. intros [Hne2 Hr]%lookup_delete_Some. split; [done|]. exists r2. split; [done|]. left. split; [done|congruence].
  - intros [Hne Hr]%lookup_delete_Some. split; [done|]. exists r2. split; [done|]. by left.
Qed.

Lemma prune_table_old id child ds id2 r : id2 <> id -> ds !! id2 = Some r ->
  exists r2, prune_table id child ds !! id2 = Some r2 /\ (r2 = r \/ r2 = set_retry_of None r).
Proof.
  intros Hne Hr. unfold prune_table. destruct child as [c|]; [|exists r; rewrite lookup_delete_ne by done; auto].
  destruct (decide (c = id2)) as [->|Hc]; [rewrite lookup_alter_eq|rewrite lookup_alter_ne by done]; rewrite lookup_delete_ne by done; rewrite Hr; cbn; eauto.
Qed.

(** The root of a chain is deleted and its retry becomes the root. *)
Lemma prune_chains ds id r child : chains_ok ds -> ds !! id = Some r -> dl_retry_of r = None ->
  match child with None => childless ds id | Some c => exists rc, ds !! c = Some rc /\ dl_retry_of rc = Some id end ->
  chains_ok (prune_table id child ds).
Proof.
  intros (Ho & Hu & Hp) Hr Hroot Hchild.
  assert (forall id2 r2, prune_table id child ds !! id2 = Some r2 -> dl_retry_of r2 <> Some id) as Hnone.
  { intros id2 r2 (Hne & r0 & Hr0 & [[-> Hc]|[-> ->]])%prune_table_lookup; [|done]. destruct child as [c|]; [|by apply (Hchild id2)].
    destruct Hchild as (rc & Hrc & Hret). intros Heq. apply Hc. f_equal. by apply (Hu c id2 rc r0 id). }
  refine (conj _ (conj _ _)).
  - intros id1 id2 r1 r2 (Hn1 & a1 & Ha1 & H1)%prune_table_lookup (Hn2 & a2 & Ha2 & H2)%prune_table_lookup E1 E2 Em Ec.
    assert (Hcross : forall i x c rc, ds !! i = Some x -> i <> id -> dl_retry_of x = None -> child = Some c -> ds !! c = Some rc ->
      dl_message x = dl_message rc -> dl_channel x = dl_channel rc -> False).
    { intros i x c rc Hx Hne Hxn -> Hrc Hm Hcc. destruct Hchild as (rc' & Hrc' & Hret). replace rc' with rc in * by congruence.
      destruct (Hp c rc id Hrc Hret) as (r' & Hr' & _ & Hm' & Hc'). replace r' with r in * by congruence.
      apply Hne. apply (Ho i id x r); congruence. }
    destruct H1 as [[-> Hc1]|[Heq1 ->]], H2 as [[-> Hc2]|[Heq2 ->]].
    + by apply (Ho id1 id2 a1 a2).
    + exfalso. by apply (Hcross id1 a1 id2 a2).
    + exfalso. by apply (Hcross id2 a2 id1 a1).
    + congruence.
  - intros id1 id2 r1 r2 p (Hn1 & a1 & Ha1 & H1)%prune_table_lookup (Hn2 & a2 & Ha2 & H2)%prune_table_lookup E1 E2.
    destruct H1 as [[-> _]|[_ ->]]; [|done]. destruct H2 as [[-> _]|[_ ->]]; [|done]. by apply (Hu id1 id2 a1 a2 p).
  - intros id1 r1 p H1 E1. pose proof (Hnone id1 r1 H1) as Hpne. apply prune_table_lookup in H1 as (Hn1 & a1 & Ha1 & [[-> _]|[_ ->]]); [|done].
    destruct (Hp id1 a1 p Ha1 E1) as (r' & Hr' & Hd & Hm & Hc). destruct (prune_table_old id child ds p r') as (r2 & Hr2 & [->| ->]); [congruence|done|by exists r'|].
    by exists (set_retry_of None r').
Qed.

Lemma prune_wf d id r child : wf d -> db_deliveries d !! id = Some r -> dl_retry_of r = None ->
  match child with None => childless (db_deliveries d) id | Some c => exists rc, db_deliveries d !! c = Some rc /\ dl_retry_of rc = Some id end ->
  wf (set_attempts (delete_where (fun k _ => k.1 =s id) (db_attempts d)) (set_deliveries (prune_table id child (db_deliveries d)) d)).
Proof.
  intros (Hok & Hsf & (Ha1 & Ha2) & Hrefs & Hch & Hk & Hcs & Hb) Hr Hroot Hchild.
  assert (Hback : forall id2 r2, prune_table id child (db_deliveries d) !! id2 = Some r2 -> id2 <> id /\ exists r0, db_deliveries d !! id2 = Some r0 /\
            (r2 = r0 \/ r2 = set_retry_of None r0)) by (intros id2 r2 (Hne & r0 & Hr0 & [[-> _]|[_ ->]])%prune_table_lookup; eauto).
  refine (conj _ (conj _ (conj (conj _ _) (conj _ (conj Hch (conj Hk (conj _ _))))))); cbn [db_deliveries db_attempts db_messages db_channels db_revisions db_settings set_attempts set_deliveries].
  - intros id2 r2 (_ & r0 & Hr0 & [-> | ->])%Hback; apply (Hok _ _ Hr0).
  - intros id1 id2 r1 r2 (_ & a1 & H1 & E1)%Hback (_ & a2 & H2 & E2)%Hback L1 L2 Hc. apply (Hsf id1 id2 a1 a2); destruct E1, E2; subst; done.
  - intros id2 n a [Ha Hne]%lookup_delete_where. cbn in Hne. apply String.eqb_neq in Hne. destruct (Ha1 _ _ _ Ha) as (r2 & Hr2 & Hn & Hcur).
    destruct (prune_table_old id child _ _ _ Hne Hr2) as (r3 & Hr3 & [-> | ->]); eexists; eauto.
  - intros id2 r2 (Hne & r0 & Hr0 & Hcase)%Hback Hl. destruct (Ha2 id2 r0 Hr0) as (a & Ha & Hp); [by destruct Hcase; subst|].
    exists a. split; [|done]. replace (dl_attempts r2) with (dl_attempts r0) by (by destruct Hcase; subst). apply lookup_delete_where. split; [done|].
    cbn. by apply String.eqb_neq.
  - intros id2 r2 (_ & r0 & Hr0 & [-> | ->])%Hback; apply (Hrefs _ _ Hr0).
  - by eapply prune_chains.
  - destruct Hb as (Hb1 & Hb2 & Hb3). refine (conj _ (conj _ Hb3)); (etransitivity; [|eassumption]); apply count_where_mono;
      intros id2 r2 (_ & r0 & Hr0 & [-> | ->])%Hback Hc; eauto.
Qed.

Lemma pruneRoot_ok root w u w1 : pruneDeliveryRoot root w = Ok (u, w1) -> wf (w_db w) ->
  (root.2 = None -> childless (db_deliveries (w_db w)) root.1) ->
  wf (w_db w1) /\ db_deliveries (w_db w1) = prune_table root.1 root.2 (db_deliveries (w_db w)) /\
  db_messages (w_db w1) = db_messages (w_db w).
Proof.
  destruct root as [id child]. unfold pruneDeliveryRoot. cbn [fst snd]. intros (u2 & w2 & Hdel%exactlyOne_ok & H)%andThen_ok Hwf Hno.
  unfold delete_delivery in Hdel. destruct (db_deliveries (w_db w) !! id) as [r|] eqn:Er; [|done]. case_bool_decide as Hroot; [|done]. injection Hdel as <-.
  destruct child as [c|].
  - apply update_one_ok in H as (rc & Hrc & Hret & E1). cbn in Hrc, E1. apply bool_decide_eq_true in Hret. apply lookup_delete_Some in Hrc as [Hne Hrc].
    assert (<[c := set_retry_of None rc]> (delete id (db_deliveries (w_db w))) = prune_table id (Some c) (db_deliveries (w_db w))) as Et.
    { apply map_eq. intros j. unfold prune_table. destruct (decide (c = j)) as [->|Hj]; [|by rewrite lookup_insert_ne, lookup_alter_ne].
      by rewrite lookup_insert_eq, lookup_alter_eq, lookup_delete_ne, Hrc. }
    rewrite Et in E1. rewrite E1. split; [|done]. apply (prune_wf (w_db w) id r (Some c)); eauto.
  - apply ret_ok in H as [_ ->]. split; [|done]. apply (prune_wf (w_db w) id r None); auto.
Qed.

Lemma childless_prune id child ds id2 : childless ds id2 -> childless (prune_table id child ds) id2.
Proof. intros Hc i r (_ & r0 & Hr0 & [[-> _]|[_ ->]])%prune_table_lookup; [by apply (Hc i)|done]. Qed.

Lemma prune_each roots w u w1 : each pruneDeliveryRoot roots w = Ok (u, w1) -> wf (w_db w) ->
  Forall (fun root => root.2 = None -> childless (db_deliveries (w_db w)) root.1) roots -> wf (w_db w1).
Proof.
  revert w. induction roots as [|root roots IH]; intros w H Hwf Hall; cbn [each] in H; [by apply ret_ok in H as [_ ->]|].
  apply andThen_ok in H as (u2 & w2 & Hone & H). apply Forall_cons in Hall as [Hroot Hall]. destruct (pruneRoot_ok _ _ _ _ Hone Hwf Hroot) as (Hwf2 & E2 & _).
  apply (IH w2 H Hwf2). rewrite E2. eapply Forall_impl; [exact Hall|]. intros r2 Hr2 Hn. by apply childless_prune, Hr2.
Qed.

Lemma roots_childless success dead limit d :
  Forall (fun root => root.2 = None -> childless (db_deliveries d) root.1) (expiredDeliveryRoots success dead limit d).
Proof.
  unfold expiredDeliveryRoots. apply Forall_fmap, Forall_forall. intros [id r] _. cbn. unfold child_of. intros Hn%fmap_None%head_None id2 r2 Hr2 Hret.
  assert ((id2, r2) ∈ rows_where (fun _ r => bool_decide (dl_retry_of r = Some id)) (db_deliveries d)) as Hin.
  { apply elem_of_rows_where. by rewrite bool_decide_eq_true. }
  rewrite Hn in Hin. by apply elem_of_nil in Hin.
Qed.

Lemma prune_rounds_keeps fuel success dead remaining : keeps wf (prune_rounds fuel success dead remaining).
Proof.
  revert remaining. induction fuel as [|fuel IH]; intros remaining; cbn [prune_rounds]; [apply keeps_ret|]. destruct (negb _); [apply keeps_ret|].
  intros w u w1 Hwf (roots & w2 & [-> ->]%query_ok & H)%andThen_ok. pose proof (roots_childless success dead remaining (w_db w)) as Hall.
  destruct (expiredDeliveryRoots success dead remaining (w_db w)) as [|root roots]; [by apply ret_ok in H as [_ ->]|].
  apply andThen_ok in H as (u2 & w2 & He & H). apply (IH (remaining - llen (root :: roots))) in H; [done|]. by eapply prune_each.
Qed.

(** The rounds end because a round that deletes nothing is the last, so more fuel than
    deliveries that may be deleted changes nothing. *)
Lemma prune_rounds_enough fuel success dead remaining w : (Z.to_nat remaining < fuel)%nat ->
  prune_rounds fuel success dead remaining w = prune_rounds (S fuel) success dead remaining w.
Proof.
  revert remaining w. induction fuel as [|fuel IH]; intros remaining w Hf; [lia|]. cbn [prune_rounds]. destruct (negb (remaining >? 0)) eqn:En; [done|].
  unfold andThen at 1 3, query. destruct (expiredDeliveryRoots success dead remaining (w_db w)) as [|root roots]; [done|].
  unfold andThen. destruct (each _ _ _) as [[u w2]|e]; [|done]. apply negb_false_iff in En. rewrite Z.gtb_ltb in En. apply Z.ltb_lt in En.
  apply (IH (remaining - llen (root :: roots)) w2). rewrite llen_cons. pose proof (llen_nonneg roots). lia.
Qed.

Lemma prune_messages_wf t d : wf d -> wf (prune_messages t d).
Proof.
  intros (Hok & Hsf & Hat & Hrefs & Hch & Hk & Hcs & Hb). unfold prune_messages. set (stale := (take 128 _).*1).
  assert (forall id m, id ∈ stale -> db_messages d !! id = Some m -> forall id2 r2, db_deliveries d !! id2 = Some r2 -> dl_message r2 <> id) as Hstale.
  { intros id m Hin Hm id2 r2 Hr2 Hmsg. unfold stale in Hin. apply list_elem_of_fmap in Hin as ([id' m'] & -> & Hin).
    apply elem_of_take in Hin as (i & Hin & _). apply list_elem_of_lookup_2 in Hin. rewrite elem_of_ordered, elem_of_rows_where in Hin.
    destruct Hin as [_ Hc]. unfold stale_message in Hc. rewrite !andb_true_iff, negb_true_iff in Hc. destruct Hc as [[Hc _] _].
    pose proof (exists_where_false _ _ _ _ Hc Hr2) as Hf. cbn in Hf. apply String.eqb_neq in Hf. done. }
  refine (conj Hok (conj Hsf (conj Hat (conj _ (conj Hch (conj _ (conj Hcs Hb))))))); cbn.
  - intros id r Hr. destruct (Hrefs id r Hr) as ([m Hm] & Hrest). split; [|done]. exists m. apply lookup_delete_where. split; [done|].
    apply not_true_iff_false. rewrite str_in_spec. intros Hin. by apply (Hstale _ _ Hin Hm id r).
  - intros id1 id2 m1 m2 [H1 _]%lookup_delete_where [H2 _]%lookup_delete_where. by apply Hk.
Qed.

Lemma prune_revisions_wf d : wf d -> wf (prune_revisions d).
Proof.
  intros (Hok & Hsf & Hat & Hrefs & Hch & Hk & Hcs & Hb). unfold prune_revisions. set (stale := (take 128 _).*1).
  assert (forall k, k ∈ stale -> stale_revision d k = true) as Hstale.
  { intros k Hin. unfold stale in Hin. apply list_elem_of_fmap in Hin as ([k' v] & -> & Hin). apply elem_of_take in Hin as (i & Hin & _).
    apply list_elem_of_lookup_2 in Hin. by apply elem_of_rows_where in Hin as [_ Hc]. }
  assert (forall k v, db_revisions d !! k = Some v -> stale_revision d k = false ->
            is_Some (delete_where (fun k _ => bool_decide (k ∈ stale)) (db_revisions d) !! k)) as Hkeep.
  { intros k v Hv Hs. exists v. apply lookup_delete_where. split; [done|]. apply bool_decide_eq_false. intros Hin%Hstale. congruence. }
  refine (conj Hok (conj Hsf (conj Hat (conj _ (conj _ (conj Hk (conj Hcs Hb))))))); cbn.
  - intros id r Hr. destruct (Hrefs id r Hr) as (Hm & [v Hv] & c & Hc & Hd). split_and!; [done| |eauto]. apply (Hkeep _ v Hv). unfold stale_revision. cbn. rewrite Hc.
    apply andb_false_iff. right. apply negb_false_iff, exists_where_spec. exists id, r. by rewrite String.eqb_refl, Z.eqb_refl.
  - intros id c Hc. destruct (Hch id c Hc) as [v Hv]. apply (Hkeep _ v Hv). unfold stale_revision. cbn. by rewrite Hc, Z.eqb_refl.
Qed.

Lemma Prune_wf clk commit d : wf d -> wf (Prune clk commit d).2.
Proof.
  intros Hd. unfold Prune. apply commit_keeps; [|done]. apply keeps_then; [apply keeps_query|]. intros st. apply keeps_then; [apply keeps_now|]. intros t.
  apply keeps_then; [apply prune_rounds_keeps|]. intros _. apply keeps_then; [apply keeps_exec; intros; by apply prune_messages_wf|]. intros _.
  apply keeps_then; [apply keeps_exec; intros; by apply prune_revisions_wf|]. intros _. by apply keeps_exec.
Qed.
