(* ===== verification/NoticeSafety.v ===== *)
(** * Notifications: theorems

    The invariant in every reachable database; claims, completions and enqueueing; and
    that a channel with work is served. *)

From S2P Require Import Prelude GoText GoNumber GoSha256 GoTable NoticeModel NoticeQueue NoticeInvariant NoticeSteps.

(** ** Runs *)

(** The sources an operation draws from. *)
Record sources := mkSources {
  so_clk : nat -> Time; so_id : nat -> option string; so_token : nat -> option (list Z); so_below : nat -> Z -> option Z;
  so_seal : list Z -> string -> option (list Z) }.

Inductive operation :=
  | OpEnqueue (r : Request) (mutation : option (result queueError unit))
  | OpEnqueueBatch (rs : list Request) (mutation : option (result queueError unit))
  | OpEnqueueOperation (r : Request) (mutation : result queueError unit)
  | OpMutateLifecycle (apply : result queueError (option Request)) (complete : result queueError unit)
  | OpMutateOperation (mutation : result queueError (option Request))
  | OpClaim (worker : string)
  | OpComplete (lease : deliveryLease) (r : SendResult)
  | OpReconcileFailures
  | OpPrune
  | OpRetry (actor : Actor) (id : string) (confirm : bool)
  | OpCancel (actor : Actor) (id : string)
  | OpTest (actor : Actor) (id occurred : string)
  | OpChannelState (actor : Actor) (id : string) (enabled deleted : bool)
  | OpWriteChannel (actor : Actor) (previous : option string) (prepared : result queueError preparedChannel) (w : ChannelWrite)
  | OpUpdateSettings (actor : Actor) (expected success dead workers : Z) (policy : option string)
  | OpRestore (t : Time).

Definition run_operation (s : sources) (commit : bool) (op : operation) (d : Database) : Database :=
  match op with
  | OpEnqueue r m => (Enqueue (so_clk s) (so_id s) (so_seal s) commit r m d).2
  | OpEnqueueBatch rs m => (EnqueueBatch (so_clk s) (so_id s) (so_seal s) commit rs m d).2
  | OpEnqueueOperation r m => (EnqueueOperation (so_clk s) (so_id s) (so_seal s) commit r m d).2
  | OpMutateLifecycle a c => (MutateLifecycle (so_clk s) (so_id s) (so_seal s) commit a c d).2
  | OpMutateOperation m => (MutateOperation (so_clk s) (so_id s) (so_seal s) commit m d).2
  | OpClaim worker => (claim (so_clk s) (so_id s) (so_token s) (so_seal s) commit worker d).2
  | OpComplete lease r => (complete (so_clk s) (so_id s) (so_below s) (so_seal s) commit lease r d).2
  | OpReconcileFailures => (ReconcileFailures (so_clk s) (so_id s) (so_seal s) commit d).2
  | OpPrune => (Prune (so_clk s) commit d).2
  | OpRetry actor id confirm => (RetryDelivery (so_clk s) (so_id s) commit actor id confirm d).2
  | OpCancel actor id => (CancelDelivery (so_clk s) (so_id s) commit actor id d).2
  | OpTest actor id occurred => (TestChannel (so_clk s) (so_id s) (so_seal s) commit actor id occurred d).2
  | OpChannelState actor id enabled deleted => (changeChannelState (so_clk s) (so_id s) commit actor id enabled deleted d).2
  | OpWriteChannel actor previous prepared w => (writeChannel (so_clk s) (so_id s) (so_seal s) commit actor previous prepared w d).2
  | OpUpdateSettings actor e su de wo po => (UpdateSettings (so_clk s) (so_id s) commit actor e su de wo po d).2
  | OpRestore t => (ReconcileRestore (so_id s) commit t d).2
  end.

(** A run: any operations, each with its own sources and with a commit that may fail. *)
Definition run (steps : list (sources * bool * operation)) (d : Database) : Database :=
  foldl (fun d step => run_operation step.1.1 step.1.2 step.2 d) d steps.

(** The tables as the migrations create them, with some administrators. *)
Definition empty_database (admins : gmap (string * string) AdminRow) : Database :=
  mkDatabase ∅ ∅ ∅ ∅ ∅ ∅ (mkSettings 1 30 90 8 "") ∅ admins [].

Lemma run_operation_wf s commit op d : wf d -> wf (run_operation s commit op d).
Proof.
  intros Hd. destruct op; cbn [run_operation].
  - by apply Enqueue_wf.
  - by apply EnqueueBatch_wf.
  - by apply EnqueueOperation_wf.
  - by apply MutateLifecycle_wf.
  - by apply MutateOperation_wf.
  - unfold claim. apply commit_keeps; [apply claim_keeps|done].
  - unfold complete. apply commit_keeps; [apply complete_keeps|done].
  - by apply ReconcileFailures_wf.
  - by apply Prune_wf.
  - by apply RetryDelivery_wf.
  - by apply CancelDelivery_wf.
  - by apply TestChannel_wf.
  - by apply changeChannelState_wf.
  - by apply writeChannel_wf.
  - by apply UpdateSettings_wf.
  - by apply ReconcileRestore_wf.
Qed.

Lemma run_wf steps d : wf d -> wf (run steps d).
Proof. revert d. induction steps as [|step steps IH]; intros d Hd; [done|]. by apply IH, run_operation_wf. Qed.

Lemma empty_wf admins : wf (empty_database admins).
Proof.
  refine (conj _ (conj _ (conj (conj _ _) (conj _ (conj _ (conj _ (conj (conj _ (conj _ _)) _))))))); cbn; try (intros *; rewrite ?lookup_empty; done).
Qed.

(** ** Theorems *)

(** C30. The notification tables stay consistent. Whatever operations run, in any order,
    with any clock, any identifiers and any failing commits: the lease, attempt and
    completion columns of every delivery fit its state and it is attempted at most six
    times; a channel has at most one delivery on the way; exactly the current attempt of
    a leased delivery is in progress; every reference points to a row and no delivery
    waits for a deleted channel; a source has one message, a message one original
    delivery per channel, and a dead delivery one retry; at most 100000 deliveries wait
    and at most 32 are on the way. *)
Theorem queue_invariant admins steps : wf (run steps (empty_database admins)).
Proof. apply run_wf, empty_wf. Qed.

(** ** Claims *)

Lemma transact_ok {A} early commit (m : tx A) d a d' : transact_unless early commit m d = (Ok a, d') ->
  exists w, m (mkWorld d 0 0) = Ok (a, w) /\ (d' = w_db w \/ early a = true /\ d' = d).
Proof.
  unfold transact_unless. destruct (m (mkWorld d 0 0)) as [[b w]|e]; [|done]. destruct (early b) eqn:E; [intros [= <- <-]; eauto 10|].
  destruct commit; [|done]. intros [= <- <-]. eauto.
Qed.

Lemma commit_ok {A} commit (m : tx A) d a d' : transact commit m d = (Ok a, d') -> exists w, m (mkWorld d 0 0) = Ok (a, w) /\ d' = w_db w.
Proof. intros (w & Hm & [->|[? _]])%transact_ok; [eauto|done]. Qed.

Lemma transact_err {A} early commit (m : tx A) d e d' : transact_unless early commit m d = (Err e, d') -> d' = d.
Proof.
  unfold transact_unless. destruct (m (mkWorld d 0 0)) as [[b w]|e']; [|by intros [= <- <-]]. destruct (early b); [done|]. destruct commit; [done|].
  by intros [= <- <-].
Qed.

(** No active delivery of the channel of [r] came before it. *)
Definition first_in_line (d : Database) (id : string) (r : Delivery) : Prop :=
  forall id2 r2, db_deliveries d !! id2 = Some r2 -> dl_channel r2 = dl_channel r -> active r2 = true -> id2 <> id ->
    dl_created r < dl_created r2 \/ dl_created r = dl_created r2 /\ str_lt id2 id = false.

Lemma earlier_first d id r : earlier d id r = false -> first_in_line d id r.
Proof.
  intros He id2 r2 Hr2 Hc Ha Hne. pose proof (exists_where_false _ _ _ _ He Hr2) as Hf. cbn in Hf.
  rewrite Hc, String.eqb_refl, Ha in Hf. cbn in Hf. apply orb_false_iff in Hf as [H1%Z.ltb_ge H2].
  destruct (dl_created r2 =? dl_created r) eqn:E; cbn in H2; go_bool; [right|left]; [done|lia].
Qed.

(** C31. A claim is exclusive, fair and bounded. When a worker gets a lease: the delivery is
    leased under the lease's token for 90 seconds from a reading of the clock, and this is
    its attempt number one to six; no other delivery of the channel is on the way, no more
    deliveries are on the way than the settings allow; the channel is not deleted, and
    unless the message is a test it is enabled and the delivery is the first in line of
    its channel. *)
Theorem claim_exclusive s commit worker d lease d' : wf d ->
  claim (so_clk s) (so_id s) (so_token s) (so_seal s) commit worker d = (Ok (Some lease), d') ->
  exists r c, db_deliveries d' !! le_ID lease = Some r /\ db_channels d' !! dl_channel r = Some c /\
    dl_state r = Leased /\ dl_hash r = Some (le_Hash lease) /\ dl_expires r = Some (le_ExpiresAt lease) /\
    (exists n, le_ExpiresAt lease = UnixMilli (so_clk s n + 90 * Second)) /\
    dl_attempts r = le_Attempt lease /\ 1 <= le_Attempt lease <= 6 /\ le_ChannelID lease = dl_channel r /\
    (forall id2 r2, db_deliveries d' !! id2 = Some r2 -> dl_state r2 = Leased -> dl_channel r2 = dl_channel r -> id2 = le_ID lease) /\
    count_where (fun _ r => in_state Leased r) (db_deliveries d') <= st_workers (db_settings d') /\
    ch_deleted c = None /\ (is_test (le_EventKind lease) = true \/ ch_enabled c = true /\ first_in_line d' (le_ID lease) r).
Proof.
  intros Hwf (w & H & ->)%commit_ok. destruct (claimTx_ok _ _ _ _ _ (mkWorld d 0 0) _ _ H Hwf) as (d1 & Hwf1 & Hcap & r & t & started & token & updated & Hr & Hclaim & Hlease & Hexp & wk & E).
  destruct (claimable_ok _ _ _ _ Hclaim) as (Hp & Ha & Hn & Hbusy & c & event & Hc & Hev & Hdel & Hen & Hfirst).
  pose proof Hwf1 as (Hok & _ & _ & _). pose proof (Hok _ _ Hr) as Hrok. unfold delivery_ok in Hrok. rewrite Hp in Hrok.
  assert (le_Attempt lease = dl_attempts r + 1 /\ le_ChannelID lease = dl_channel r /\ le_EventKind lease = event) as (Hatt & Hchan & Hkind).
  { rewrite Hlease. cbn. by rewrite Hev. }
  rewrite E. set (r' := set_lease _ _ _ _ _ _ _ _ _ _ _ r). exists r', c. cbn [db_deliveries db_channels db_settings set_attempts set_deliveries].
  rewrite lookup_insert_eq. split_and!; try done; try lia.
  - intros id2 r2 [[<- <-]|[Hne Hr2]]%lookup_insert_Some Hl2 Hc2; [done|]. exfalso. pose proof (exists_where_false _ _ _ _ Hbusy Hr2) as Hf. cbn in Hf.
    unfold in_state in Hf. rewrite Hc2, String.eqb_refl, bool_decide_eq_true_2 in Hf; done.
  - unfold claimCapacity in Hcap. apply Z.ltb_lt in Hcap. pose proof (count_where_insert (fun _ r => in_state Leased r) (db_deliveries d1) (le_ID lease) r'). lia.
  - rewrite Hkind. destruct Hfirst as [Ht|[_ He]]; [by left|]. destruct (is_test event) eqn:Et; [by left|right]. split; [by destruct Hen|].
    apply earlier_first in He. intros id2 r2. cbn. intros [[<- <-]|[Hne Hr2]]%lookup_insert_Some Hc2 Ha2 Hne2; [done|]. by apply (He id2 r2).
Qed.

(** ** Completions *)

Lemma holds_not_leased lease t r : dl_state r <> Leased -> holds_lease lease t r = false.
Proof. intros Hn. unfold holds_lease, in_state. by rewrite bool_decide_eq_false_2. Qed.

Lemma holds_lease_ok lease t r : holds_lease lease t r = true ->
  dl_state r = Leased /\ dl_hash r = Some (le_Hash lease) /\ exists e, dl_expires r = Some e /\ t < e.
Proof.
  unfold holds_lease, in_state. rewrite !andb_true_iff, !bool_decide_eq_true. intros [[Hl Hh] He]. destruct (dl_expires r) as [e|]; [|done].
  apply Z.gtb_lt in He. eauto 10.
Qed.

Lemma complete_ok s commit lease r d u d' : wf d ->
  complete (so_clk s) (so_id s) (so_below s) (so_seal s) commit lease r d = (Ok u, d') ->
  exists d1, completed (so_clk s) lease r d d1 /\ wf d' /\ db_deliveries d1 ⊆ db_deliveries d'.
Proof.
  intros Hwf H. assert (wf d') as Hwf'. { replace d' with (complete (so_clk s) (so_id s) (so_below s) (so_seal s) commit lease r d).2 by by rewrite H.
    unfold complete. apply commit_keeps; [apply complete_keeps|done]. }
  unfold complete in H. apply commit_ok in H as (w & H & ->). apply andThen_ok in H as (state & w2 & Hc & H).
  apply completeTx_ok in Hc as (_ & Hcomp & Hwf2); [|done]. exists (w_db w2). split_and!; [done..|].
  destruct (_ && _); cbn [when] in H; [|by apply ret_ok in H as [_ ->]].
  by apply (deferFailure_keeps _ _ _ (db_deliveries (w_db w2))) in H as [_ H].
Qed.

(** C32. Only the holder of a lease completes a delivery, and once. When a completion
    succeeds, the delivery was leased under the lease's token, which had not expired at a
    reading of the clock, in the attempt of the lease; the delivery succeeds, dies or
    waits for its next attempt as the result and the number of the attempt say, and the
    lease is gone: no completion with it succeeds again, and the worker's read before
    sending refuses it. When a completion fails, nothing changes. *)
Theorem complete_fenced s commit lease r d : wf d ->
  let (outcome, d') := complete (so_clk s) (so_id s) (so_below s) (so_seal s) commit lease r d in
  match outcome with
  | Err _ => d' = d
  | Ok _ =>
      (exists n row e, db_deliveries d !! le_ID lease = Some row /\ dl_state row = Leased /\ dl_hash row = Some (le_Hash lease) /\
         dl_expires row = Some e /\ UnixMilli (so_clk s n) < e /\ dl_attempts row = le_Attempt lease) /\
      (exists row', db_deliveries d' !! le_ID lease = Some row' /\ dl_state row' = next_state (le_Attempt lease) r /\ dl_hash row' = None) /\
      (forall s' commit' r' t, is_ok (complete (so_clk s') (so_id s') (so_below s') (so_seal s') commit' lease r' d').1 = false /\
                               readDispatch lease t d' = Err ErrLeaseLost)
  end.
Proof.
  intros Hwf. destruct (complete _ _ _ _ _ _ _ _) as [[u|e] d'] eqn:H; [|unfold complete, transact in H; by apply transact_err in H].
  destruct (complete_ok _ _ _ _ _ _ _ Hwf H) as (d1 & (n & row & a & next & out & h & Hrow & Hh & Hatt & _ & _ & _ & E1) & Hwf' & Hsub).
  cbv zeta in E1. set (row' := set_lease _ _ _ _ _ _ _ _ _ _ _ row) in E1.
  assert (db_deliveries d' !! le_ID lease = Some row') as Hrow'. { eapply lookup_weaken; [|exact Hsub]. rewrite E1. apply lookup_insert_eq. }
  assert (dl_state row' <> Leased) as Hnl. { unfold row', next_state. cbn. destruct (sr_Success r); [done|]. by destruct (_ && _). }
  destruct (holds_lease_ok _ _ _ Hh) as (Hl & Hhash & e & He & Hlt).
  split; [exists n, row, e; by split_and!|]. split; [by exists row'|]. intros s' commit' r' t'. split.
  - destruct (complete _ _ _ _ _ _ r' d') as [[u'|e'] d2] eqn:H2; [|done]. exfalso.
    destruct (complete_ok _ _ _ _ _ _ _ Hwf' H2) as (d3 & (t3 & row3 & a3 & next3 & out3 & h3 & Hrow3 & Hh3 & _) & _).
    replace row3 with row' in * by congruence. by rewrite (holds_not_leased _ _ _ Hnl) in Hh3.
  - unfold readDispatch. rewrite Hrow'. destruct (db_messages d' !! dl_message row'), (db_channels d' !! dl_channel row'), (db_revisions d' !! (dl_channel row', dl_revision row')); try done.
    by rewrite (holds_not_leased _ _ _ Hnl).
Qed.

(** ** Enqueueing *)

Lemma receipt_flags key d receipt : sourceReceipt key d = Ok receipt -> rc_Skipped receipt = false /\ rc_Duplicate receipt = false.
Proof. unfold sourceReceipt. destruct (find_message key d) as [[id m]|]; [|done]. by intros [= <-]. Qed.

Lemma receipt_found key d receipt : sourceReceipt key d = Ok receipt -> is_Some (find_message key d).
Proof. unfold sourceReceipt. by destruct (find_message key d) as [[id m]|]; [|done]. Qed.

(** A source whose message is stored is answered from it. *)
Lemma Enqueue_duplicate s commit r mutation d receipt : validateRequest r = Ok tt -> sourceReceipt (rq_SourceKey r) d = Ok receipt ->
  Enqueue (so_clk s) (so_id s) (so_seal s) commit r mutation d = (Ok (duplicate receipt), d).
Proof. intros Hv Hs. unfold Enqueue. rewrite Hv. unfold transact_unless, unless_sent, andThen, query. cbn [w_db]. by rewrite Hs. Qed.

(** A source is enqueued once, to exactly its channels. When [Enqueue] answers, either
    the caller's mutation asked to skip it, or the source was enqueued before, and nothing
    changes; or there was no message of the source, and now there is one, with one pending
    delivery for each enabled channel that is listed or subscribed, nothing else is
    changed, and every later call for the source answers that it is a duplicate and
    changes nothing. When it fails, nothing changes. *)
Theorem enqueue_once s commit r mutation d : wf d ->
  let (outcome, d') := Enqueue (so_clk s) (so_id s) (so_seal s) commit r mutation d in
  match outcome with
  | Err _ => d' = d
  | Ok receipt =>
      if rc_Skipped receipt then d' = d
      else if rc_Duplicate receipt then d' = d /\ is_Some (find_message (rq_SourceKey r) d)
      else find_message (rq_SourceKey r) d = None /\
           (exists cs, enqueued r cs d d' /\ NoDup (sc_id <$> cs) /\
              forall id, id ∈ sc_id <$> cs <->
                exists c, db_channels d !! id = Some c /\ ch_enabled c = true /\ ch_deleted c = None /\ subscribed r id c = true /\ id <> "") /\
           forall s' commit' mutation', Enqueue (so_clk s') (so_id s') (so_seal s') commit' r mutation' d' = (Ok (duplicate receipt), d')
  end.
Proof.
  intros Hwf. destruct (validateRequest r) as [[]|e] eqn:Ev; [|unfold Enqueue; by rewrite Ev].
  destruct (sourceReceipt (rq_SourceKey r) d) as [rc|e] eqn:Es.
  { rewrite (Enqueue_duplicate s commit r mutation d rc Ev Es). cbn. destruct (receipt_flags _ _ _ Es) as [-> _]. split; [done|]. by eapply receipt_found. }
  assert (find_message (rq_SourceKey r) d = None) as Hf. { unfold sourceReceipt in Es. by destruct (find_message _ d) as [[]|]. }
  unfold Enqueue. rewrite Ev. destruct (transact_unless _ _ _ _) as [[receipt|e'] d'] eqn:H.
  2: { apply transact_err in H as ->. by destruct e'. }
  apply transact_ok in H as (w & H & Hd'). unfold unless_sent in H. apply andThen_ok in H as (x & w2 & [-> ->]%query_ok & H).
  cbn [w_db] in H. rewrite Es in H. destruct e; try done. apply andThen_ok in H as (u & w3 & Hm & H).
  assert (w_db w3 = d) as E3. { destruct mutation as [m|]; [by apply lift_ok in Hm as [_ ->]|by apply ret_ok in Hm as [_ ->]]. }
  apply enqueueTx_ok in H as (Hwf1 & Hrc & cs & Hsel & Henq); [|by rewrite E3|by rewrite E3|exact I]. rewrite E3 in *.
  destruct (receipt_flags _ _ _ Hrc) as [Hsk Hdup]. destruct Hd' as [->|[? _]]; [|congruence]. rewrite Hsk, Hdup. split; [done|]. split.
  - exists cs. destruct (selectChannels_ok _ _ _ _ Hwf Hsel) as (Hnd & _ & _ & Hch). done.
  - intros s' commit' m'. pose proof (Enqueue_duplicate s' commit' r m' (w_db w) receipt Ev Hrc) as Hd. unfold Enqueue in Hd. by rewrite Ev in Hd.
Qed.

(** ** Progress *)

Definition before (a b : string * Delivery) : Prop :=
  dl_created a.2 < dl_created b.2 \/ dl_created a.2 = dl_created b.2 /\ str_lt a.1 b.1 = true.
#[global] Instance before_dec a b : Decision (before a b).
Proof. unfold before. apply _. Defined.

Lemma before_trans a b c : before a b -> before b c -> before a c.
Proof. unfold before. intros [?|[? ?]] [?|[? ?]]; [left; lia..|right; split; [lia|by eapply str_lt_trans]]. Qed.

Lemma earliest (l : list (string * Delivery)) : l <> [] -> exists x, x ∈ l /\ forall y, y ∈ l -> ~ before y x.
Proof.
  induction l as [|a l IH]; [done|]. intros _. destruct l as [|b l].
  { exists a. split; [by constructor|]. intros y Hy. apply list_elem_of_singleton in Hy as ->. intros [?|[_ Hl]]; [lia|by rewrite str_lt_irrefl in Hl]. }
  destruct IH as (x & Hx & Hmin); [done|]. destruct (decide (before a x)) as [Hb|Hb].
  - exists a. split; [by constructor|]. intros y [->|Hy]%elem_of_cons Hlt; [|by apply (Hmin y Hy), (before_trans _ a)].
    destruct Hlt as [?|[_ Hl]]; [lia|by rewrite str_lt_irrefl in Hl].
  - exists x. split; [by constructor|]. intros y [->|Hy]%elem_of_cons; [done|by apply Hmin].
Qed.

(** The first delivery in line of an open, idle channel can be claimed. *)
Lemma open_channel_claimable d t channel c : wf d -> db_channels d !! channel = Some c -> ch_enabled c = true -> channel_busy d channel = false ->
  0 <= t -> (forall h, db_health d !! channel = Some h -> default 0 (hl_until h) <= t) ->
  (exists id r, db_deliveries d !! id = Some r /\ dl_channel r = channel /\ dl_state r = Pending) ->
  (forall id r, db_deliveries d !! id = Some r -> dl_channel r = channel -> dl_state r = Pending -> first_in_line d id r -> dl_next r <= t) ->
  exists id r, db_deliveries d !! id = Some r /\ claimable d t id r = true.
Proof.
  intros (Hok & _ & _ & Hrefs & _) Hc He Hbusy Ht Hh (id0 & r0 & Hr0 & Hc0 & Hp0) Hdue.
  set (rows := rows_where (fun _ r => (dl_channel r =s channel) && active r) (db_deliveries d)).
  assert (Hrow : forall id r, (id, r) ∈ rows <-> db_deliveries d !! id = Some r /\ dl_channel r = channel /\ active r = true).
  { intros id r. unfold rows. rewrite elem_of_rows_where, andb_true_iff, String.eqb_eq. tauto. }
  destruct (earliest rows) as ([id r] & Hin & Hmin).
  { assert ((id0, r0) ∈ rows) as Hin by (apply Hrow; unfold active; by rewrite Hp0). intros E. rewrite E in Hin. by apply elem_of_nil in Hin. }
  apply Hrow in Hin as (Hr & Hch & Hact). exists id, r. split; [done|].
  assert (dl_state r = Pending) as Hp. { unfold active in Hact. destruct (dl_state r) eqn:Es; try done.
    pose proof (exists_where_false _ _ _ _ Hbusy Hr) as Hf. cbn in Hf. unfold in_state in Hf. by rewrite Hch, String.eqb_refl, Es in Hf. }
  destruct (Hrefs id r Hr) as ([m Hm] & [v Hv] & c' & Hc' & Hdel). rewrite Hch in Hc'. replace c' with c in * by congruence.
  pose proof (Hok id r Hr) as Hrok. unfold delivery_ok in Hrok. rewrite Hp in Hrok.
  assert (earlier d id r = false) as Hfirst.
  { apply not_true_iff_false. intros (id2 & r2 & Hr2 & Hb)%exists_where_spec. rewrite !andb_true_iff, orb_true_iff, andb_true_iff, String.eqb_eq, Z.ltb_lt, Z.eqb_eq in Hb.
    destruct Hb as [[Hch2 Ha2] Hb]. apply (Hmin (id2, r2)); [apply Hrow; split; [done|]; split; congruence|]. unfold before. cbn. tauto. }
  specialize (Hdue id r Hr Hch Hp (earlier_first _ _ _ Hfirst)).
  assert (circuit_allows d r t = true) as Hcirc.
  { unfold circuit_allows. rewrite Hch. destruct (db_health d !! channel) as [h|] eqn:Eh; [|by apply Z.leb_le]. apply orb_true_iff. right. apply Z.leb_le. by apply Hh. }
  unfold claimable, event_of. rewrite Hch in *. rewrite Hc, Hm, Hv, Hbusy, He, Hcirc, Hfirst. cbn. rewrite (bool_decide_eq_true_2 _ (Hdel Hact)).
  unfold in_state. rewrite (bool_decide_eq_true_2 _ Hp). cbn. rewrite orb_true_r, !andb_true_r. apply andb_true_iff. rewrite Z.ltb_lt, Z.leb_le. lia.
Qed.

Lemma expired_leases_none d t : (forall id r, db_deliveries d !! id = Some r -> lease_expired t r = false) -> expired_leases t d = [].
Proof.
  intros Hne. unfold expired_leases. replace (rows_where _ (db_deliveries d)) with (@nil (string * Delivery)); [done|]. symmetry.
  apply elem_of_nil_inv. intros [id r] [Hr [Hx _]%andb_true_iff]%elem_of_rows_where. by rewrite (Hne id r Hr) in Hx.
Qed.

Lemma selectDueLease_some d t id r : db_deliveries d !! id = Some r -> claimable d t id r = true ->
  exists id' r', selectDueLease t d = Some (id', r') /\ db_deliveries d !! id' = Some r' /\ claimable d t id' r' = true.
Proof.
  intros Hr Hc. unfold selectDueLease. pose proof (merge_sort_Permutation (lease_before d) (rows_where (claimable d t) (db_deliveries d))) as Hp.
  destruct (merge_sort _ _) as [|[id' r'] rest] eqn:E.
  - apply Permutation_nil in Hp. assert ((id, r) ∈ rows_where (claimable d t) (db_deliveries d)) as Hin by by apply elem_of_rows_where.
    rewrite Hp in Hin. by apply elem_of_nil in Hin.
  - exists id', r'. split; [done|]. apply elem_of_rows_where. rewrite <- Hp. by constructor.
Qed.

(** A channel that can be served now: enabled, idle, with a closed circuit, and with work
    whose turn has come. *)
Definition servable (d : Database) (t : Z) (channel : string) : Prop :=
  (exists c, db_channels d !! channel = Some c /\ ch_enabled c = true) /\ channel_busy d channel = false /\
  (forall h, db_health d !! channel = Some h -> default 0 (hl_until h) <= t) /\
  (exists id r, db_deliveries d !! id = Some r /\ dl_channel r = channel /\ dl_state r = Pending) /\
  (forall id r, db_deliveries d !! id = Some r -> dl_channel r = channel -> dl_state r = Pending -> first_in_line d id r -> dl_next r <= t).

(** C33. The queue makes progress. When no lease is overdue, a worker is free, the clock reads
    a time after 1970, a token can be drawn and the transaction commits, then a claim
    returns a lease as soon as one channel can be served: it is enabled, none of its
    deliveries is on the way, its circuit is not open, and the first of its waiting
    deliveries is due. *)
Theorem claim_progress s worker d channel : wf d ->
  (forall id r, db_deliveries d !! id = Some r -> lease_expired (UnixMilli (so_clk s 0)) r = false) ->
  claimCapacity d = true -> is_Some (so_token s 0) -> 0 <= UnixMilli (so_clk s 1) ->
  servable d (UnixMilli (so_clk s 1)) channel ->
  exists lease d', claim (so_clk s) (so_id s) (so_token s) (so_seal s) true worker d = (Ok (Some lease), d').
Proof.
  intros Hwf Hexp Hcap [token Htok] Ht ((c & Hc & He) & Hbusy & Hh & Hwork & Hdue).
  destruct (open_channel_claimable _ _ _ _ Hwf Hc He Hbusy Ht Hh Hwork Hdue) as (id0 & r0 & Hr0 & Hcl0).
  destruct (selectDueLease_some _ _ _ _ Hr0 Hcl0) as (id & r & Hsel & Hr & Hcl).
  destruct (claimable_ok _ _ _ _ Hcl) as (Hp & _). pose proof Hwf as (_ & _ & [Hatt _] & _).
  assert (db_attempts d !! (id, dl_attempts r + 1) = None) as Hfree.
  { destruct (db_attempts d !! (id, dl_attempts r + 1)) as [a|] eqn:Ea; [|done]. destruct (Hatt _ _ _ Ea) as (r' & Hr' & Hn & _).
    replace r' with r in * by congruence. lia. }
  unfold claim, transact, transact_unless, claimTx, recoverExpiredTx, andThen, now, query. cbn [w_ticks w_db w_draws].
  rewrite (expired_leases_none _ _ Hexp). cbn [each]. unfold ret at 1. cbn [w_ticks w_db w_draws]. rewrite Hcap. cbn [negb w_ticks w_db w_draws]. rewrite Hsel.
  unfold draw. cbn [w_draws]. rewrite Htok. unfold exactlyOne, andThen, update_delivery. cbn [w_db w_ticks w_draws]. rewrite Hr.
  unfold in_state. rewrite (bool_decide_eq_true_2 _ Hp). cbn [andb]. rewrite (proj2 (Z.eqb_eq (dl_attempts r) (dl_attempts r + 1 - 1))) by lia.
  unfold insert_row. cbn [w_db db_attempts set_deliveries w_ticks w_draws Z.eqb Pos.eqb ret]. rewrite Hfree. by eauto.
Qed.

(** ** The theorems on a sample queue *)

Section sample.

Definition sample_start : Time := unixEpoch + 1700000000 * Second.
Definition sample_sources (prefix : string) (at_second : Z) : sources :=
  mkSources (fun n => sample_start + at_second * Second + (Z.of_nat n - 1) * Millisecond)
    (fun n => Some (prefix +:+ String (Ascii.ascii_of_nat (48 + n)) "")) (fun n => Some [Z.of_nat n; 7]) (fun _ bound => Some (bound / 2))
    (fun plain _ => Some plain).
Definition sample_actor : Actor := mkActor "admin" "session" "request".
Definition sample_admins : gmap (string * string) AdminRow :=
  {[ ("admin", "session") := mkAdminRow "ada" "owner" true "ab" false (sample_start + 3600 * Second) (sample_start + 7200 * Second)
                               (Some (sample_start + 600 * Second)) ]}.
Definition sample_request (key : string) : Request :=
  mkRequest key "alert" "incident-1" "alert.triggered" "CPU high" "node-1 is above 90%" ∅ [] true.
Definition sample_setup : list (sources * bool * operation) :=
  [(sample_sources "a" 0, true, OpWriteChannel sample_actor None (Ok (mkPrepared "ops" None 1 1 [1; 2; 3]))
      (mkChannelWrite "Operations" "webhook" true 0 ["alert.triggered"] "" ""));
   (sample_sources "b" 1, true, OpEnqueue (sample_request "incident-1/open") None)].
Definition sample_queue : Database := run sample_setup (empty_database sample_admins).

Lemma sample_queue_wf : wf sample_queue.
Proof. apply run_wf, empty_wf. Qed.

Definition sample_claim : result queueError (option deliveryLease) * Database :=
  let s := sample_sources "c" 2 in claim (so_clk s) (so_id s) (so_token s) (so_seal s) true "worker-1" sample_queue.
Definition sample_leased : Database := sample_claim.2.
Definition sample_lease : deliveryLease :=
  match sample_claim.1 with Ok (Some lease) => lease | _ => mkLease "" "" "" "" "" 0 0 [] 0 end.

Lemma sample_claimed : sample_claim = (Ok (Some sample_lease), sample_leased).
Proof. assert (sample_claim.1 = Ok (Some sample_lease)) as H by by vm_compute. rewrite <- H. apply surjective_pairing. Qed.

Lemma sample_leased_wf : wf sample_leased.
Proof. exact (run_wf (sample_setup ++ [(sample_sources "c" 2, true, OpClaim "worker-1")]) _ (empty_wf sample_admins)). Qed.

Lemma claim_exclusive_witness : exists lease d' r, sample_claim = (Ok (Some lease), d') /\ db_deliveries d' !! le_ID lease = Some r /\ dl_state r = Leased.
Proof.
  destruct (claim_exclusive (sample_sources "c" 2) true "worker-1" sample_queue sample_lease sample_leased sample_queue_wf sample_claimed) as (r & c & Hr & _ & Hs & _).
  exists sample_lease, sample_leased, r. split; [exact sample_claimed|]. split; [exact Hr|exact Hs].
Defined.

Lemma complete_fenced_witness : let s := sample_sources "d" 3 in
  (complete (so_clk s) (so_id s) (so_below s) (so_seal s) true sample_lease (mkSendResult true false 0 "" "" "") sample_leased).1 = Ok tt /\
  let d' := (complete (so_clk s) (so_id s) (so_below s) (so_seal s) true sample_lease (mkSendResult true false 0 "" "" "") sample_leased).2 in
  exists row, db_deliveries d' !! le_ID sample_lease = Some row /\ dl_state row = Succeeded /\ dl_hash row = None.
Proof.
  cbv zeta. pose proof (complete_fenced (sample_sources "d" 3) true sample_lease (mkSendResult true false 0 "" "" "") sample_leased sample_leased_wf) as H.
  assert ((complete (so_clk (sample_sources "d" 3)) (so_id (sample_sources "d" 3)) (so_below (sample_sources "d" 3)) (so_seal (sample_sources "d" 3)) true
             sample_lease (mkSendResult true false 0 "" "" "") sample_leased).1 = Ok tt) as E by by vm_compute.
  split; [exact E|]. destruct (complete _ _ _ _ _ _ _ _) as [o d']. cbn in E. subst o. destruct H as (_ & Hrow & _). exact Hrow.
Defined.

Lemma enqueue_once_witness : let s := sample_sources "e" 4 in
  let result := Enqueue (so_clk s) (so_id s) (so_seal s) true (sample_request "incident-2/open") None sample_leased in
  exists receipt, result.1 = Ok receipt /\ rc_Duplicate receipt = false /\ find_message "incident-2/open" sample_leased = None /\
    forall mutation, Enqueue (so_clk s) (so_id s) (so_seal s) true (sample_request "incident-2/open") mutation result.2 = (Ok (duplicate receipt), result.2).
Proof.
  cbv zeta. pose proof (enqueue_once (sample_sources "e" 4) true (sample_request "incident-2/open") None sample_leased sample_leased_wf) as H.
  assert (match (Enqueue (so_clk (sample_sources "e" 4)) (so_id (sample_sources "e" 4)) (so_seal (sample_sources "e" 4)) true
                   (sample_request "incident-2/open") None sample_leased).1 with
          | Ok rc => negb (rc_Skipped rc) && negb (rc_Duplicate rc) | Err _ => false end = true) as E by by vm_compute.
  destruct (Enqueue _ _ _ _ _ None sample_leased) as [[rc|e] d'] eqn:HE; cbn [fst] in E; [|discriminate]. exists rc.
  apply andb_true_iff in E as [E1%negb_true_iff E2%negb_true_iff]. rewrite E1, E2 in H. destruct H as (Hf & _ & Hd).
  split; [reflexivity|]. split; [exact E2|]. split; [exact Hf|]. intros mutation. exact (Hd (sample_sources "e" 4) true mutation).
Defined.

Lemma sample_row id r : db_deliveries sample_queue !! id = Some r ->
  dl_state r = Pending /\ dl_channel r = "ops" /\ dl_next r = 1700000001000.
Proof.
  intros H%elem_of_map_to_list. assert (Forall (fun kv => dl_state kv.2 = Pending /\ dl_channel kv.2 = "ops" /\ dl_next kv.2 = 1700000001000) (map_to_list (db_deliveries sample_queue))) as F.
  { vm_compute. repeat constructor. }
  rewrite Forall_forall in F. exact (F _ H).
Qed.

Lemma claim_progress_witness : exists lease d',
  claim (so_clk (sample_sources "c" 2)) (so_id (sample_sources "c" 2)) (so_token (sample_sources "c" 2)) (so_seal (sample_sources "c" 2)) true "worker-2" sample_queue
  = (Ok (Some lease), d').
Proof.
  apply (claim_progress (sample_sources "c" 2) "worker-2" sample_queue "ops").
  - exact sample_queue_wf.
  - intros id r [Hp _]%sample_row. unfold lease_expired, in_state. by rewrite Hp.
  - by vm_compute.
  - by eexists.
  - by vm_compute.
  - split_and!.
    + exists (mkChannel "Operations" "webhook" true 1 ["alert.triggered"] None sample_start). split; by vm_compute.
    + by vm_compute.
    + assert (hl_until <$> db_health sample_queue !! "ops" = Some None) as E by by vm_compute. intros h Hh. rewrite Hh in E. injection E as E. rewrite E. by vm_compute.
    + assert (bool_decide (is_Some (db_deliveries sample_queue !! "b1")) = true) as [r E]%bool_decide_eq_true by by vm_compute.
      exists "b1", r. destruct (sample_row _ _ E) as (Hp & Hc & _). exact (conj E (conj Hc Hp)).
    + intros id r (_ & _ & Hn)%sample_row _ _ _. rewrite Hn. by vm_compute.
Defined.

(** The window of a failure notification is that of a second reading of the clock, and
    the maintenance looks for the window of the completion: one delivery that dies as a
    window ends is announced twice. *)
Definition dead_result : SendResult := mkSendResult false false 0 "rejected" "send" "4xx".
Definition failure_notices (d : Database) : Z := count_where (fun _ m => is_failure (ms_event m)) (db_messages d).
Definition sample_dying : list (sources * bool * operation) :=
  let s := sample_sources "c" 20 in
  let lease := match (claim (so_clk s) (so_id s) (so_token s) (so_seal s) true "worker-1" sample_queue).1 with Ok (Some l) => l | _ => sample_lease end in
  [(s, true, OpClaim "worker-1"); (sample_sources "d" 100, true, OpComplete lease dead_result)].

Example failure_announced_twice :
  count_where (fun _ r => in_state Dead r) (db_deliveries (run sample_dying sample_queue)) = 1 /\
  failure_notices (run sample_dying sample_queue) = 1 /\
  failure_notices (run [(sample_sources "e" 101, true, OpReconcileFailures)] (run sample_dying sample_queue)) = 2.
Proof. by vm_compute. Qed.

End sample.
