(* ===== verification/RolloutModel.v ===== *)
(** * Agent rollouts: tables, policies, releases and trust

    [internal/agentrollout]: the rows of the rollout tables
    ([store/agent_rollout_schema.go]), [limits.go], [transaction.go], [platform.go], the
    policies of [rollouts.go], [trust.go] and the reading of releases ([releases.go]).

    A transaction is a [Tx] over the tables; the instant [at] of a transaction and the
    name of its user are in its context. The clock, random identifiers and the verdict of
    the Sigstore verifier are arguments; JSON decoding and Ed25519 are the [Externals] of
    [UpdateModel]. Rows are written whole: the identifiers of events and audit rows are
    not kept, and neither is the copy of an observation in JSON. *)

From S2P Require Import Prelude GoText GoNumber ReleaseVersion GoSha256 GoTable UpdateModel.

(** ** Errors *)

Inductive rolloutError :=
  | ErrDisabled | ErrForbidden | ErrRecentAuth | ErrManifest | ErrSignature | ErrUnavailable | ErrConflict | ErrNotFound
  | ErrInvalid | ErrBusy.
#[export] Instance rolloutError_eq_dec : EqDecision rolloutError.
Proof. solve_decision. Defined.

(** The errors of [protocol] are the package's own. *)
Definition of_protocol {A} (r : result updateError A) : result rolloutError A :=
  match r with
  | Ok a => Ok a
  | Err UpdateModel.ErrManifest => Err ErrManifest
  | Err _ => Err ErrSignature
  end.

(** ** limits.go *)

Definition maximumTrustKeys : Z := 32.
Definition maximumIdentifierBytes : Z := 128.
Definition assignmentNonceBytes : Z := 32.
Definition maximumObservationCounter : Z := 1000000.
Definition requiredArtifactCopies : Z := 2.
Definition defaultCanaryCount : Z := 1.
Definition defaultWaveSize : Z := 10.
Definition defaultConcurrentAssignments : Z := 1.
Definition maximumConcurrentAssignments : Z := 100.
Definition defaultObservationSeconds : Z := 300.
Definition minimumObservationSeconds : Z := 30.
Definition maximumObservationSeconds : Z := 3600.
Definition defaultReportFreshnessSeconds : Z := 60.
Definition minimumReportFreshnessSeconds : Z := 5.
Definition maximumReportFreshnessSeconds : Z := 3600.
Definition defaultRolloutWindow : Duration := 7 * 24 * Hour.
Definition maximumRolloutWindow : Duration := 30 * 24 * Hour.
Definition recoveryBatchSize : Z := 1000.
Definition maximumTargets : Z := 1000.

(** ** rollouts.go: policies *)

Record Policy := mkPolicy {
  po_CanaryCount : Z; po_WaveSize : Z; po_MaxConcurrent : Z; po_ObservationSeconds : Z; po_ReportFreshnessSeconds : Z;
  po_MaxRestarts : Z; po_MaxProtocolErrors : Z; po_MaxMetricErrors : Z; po_MaxTaskFailures : Z; po_AllowPreview : bool;
  po_WindowStart : Time; po_WindowEnd : Time }.

Definition or_else (value fallback : Z) : Z := if value =? 0 then fallback else value.
Definition defaultPolicy (p : Policy) (now : Time) : Policy :=
  mkPolicy (or_else (po_CanaryCount p) defaultCanaryCount) (or_else (po_WaveSize p) defaultWaveSize)
    (or_else (po_MaxConcurrent p) defaultConcurrentAssignments) (or_else (po_ObservationSeconds p) defaultObservationSeconds)
    (or_else (po_ReportFreshnessSeconds p) defaultReportFreshnessSeconds) (po_MaxRestarts p) (po_MaxProtocolErrors p)
    (po_MaxMetricErrors p) (po_MaxTaskFailures p) (po_AllowPreview p)
    (if IsZero (po_WindowStart p) then now else po_WindowStart p)
    (if IsZero (po_WindowEnd p) then Prelude.Add now defaultRolloutWindow else po_WindowEnd p).
Definition validPolicyConcurrency (p : Policy) : bool :=
  (po_CanaryCount p >=? 1) && (po_CanaryCount p <=? maximumTargets) && (po_WaveSize p >=? 1) && (po_WaveSize p <=? maximumTargets)
  && (po_MaxConcurrent p >=? 1) && (po_MaxConcurrent p <=? maximumConcurrentAssignments).
Definition validPolicyHealth (p : Policy) : bool :=
  (po_ObservationSeconds p >=? minimumObservationSeconds) && (po_ObservationSeconds p <=? maximumObservationSeconds)
  && (po_ReportFreshnessSeconds p >=? minimumReportFreshnessSeconds) && (po_ReportFreshnessSeconds p <=? maximumReportFreshnessSeconds)
  && (po_MaxRestarts p >=? 0) && (po_MaxProtocolErrors p >=? 0) && (po_MaxMetricErrors p >=? 0) && (po_MaxTaskFailures p >=? 0).
Definition validPolicyWindow (p : Policy) (now : Time) : bool :=
  After (po_WindowEnd p) (po_WindowStart p) && After (po_WindowEnd p) now
  && (Sub (po_WindowEnd p) (po_WindowStart p) <=? maximumRolloutWindow).
Definition normalizePolicy (p : Policy) (now : Time) : result rolloutError Policy :=
  let p := defaultPolicy p now in
  if negb (validPolicyConcurrency p) || negb (validPolicyHealth p) || negb (validPolicyWindow p now) then Err ErrInvalid else Ok p.

Definition freshness (p : Policy) : Duration := po_ReportFreshnessSeconds p * Second.
Definition observation_time (p : Policy) : Duration := po_ObservationSeconds p * Second.

(** ** Tables *)

Inductive rolloutState := Paused | Active | Completed | Aborted.
#[export] Instance rolloutState_eq_dec : EqDecision rolloutState.
Proof. solve_decision. Defined.
Inductive targetState := TPending | THeld | TOffered | TObserving | THealthy | TFailed | TAborted.
#[export] Instance targetState_eq_dec : EqDecision targetState.
Proof. solve_decision. Defined.

(** agent_rollouts *)
Record Rollout := mkRollout {
  ro_Action : string; ro_ReleaseID : string; ro_Name : string; ro_State : rolloutState; ro_Reason : string; ro_Policy : Policy;
  ro_CurrentWave : Z; ro_TotalWaves : Z; ro_created : Time; ro_updated : Time }.
Definition set_state (s : rolloutState) (reason : string) (at_ : Time) (r : Rollout) : Rollout :=
  mkRollout (ro_Action r) (ro_ReleaseID r) (ro_Name r) s reason (ro_Policy r) (ro_CurrentWave r) (ro_TotalWaves r) (ro_created r) at_.
Definition set_wave (w : Z) (r : Rollout) : Rollout :=
  mkRollout (ro_Action r) (ro_ReleaseID r) (ro_Name r) (ro_State r) (ro_Reason r) (ro_Policy r) w (ro_TotalWaves r) (ro_created r) (ro_updated r).

(** agent_rollout_targets *)
Record Target := mkTarget {
  tg_rollout : string; tg_node : option string; tg_NodeID : string; tg_Name : string; tg_Version : string; tg_OS : string;
  tg_Arch : string; tg_Wave : Z; tg_State : targetState; tg_Reason : string; tg_attempt : string; tg_artifact : string;
  tg_nonce : option (list Z); tg_expires : option Time; tg_since : option Time; tg_report : option Time; tg_updated : Time }.
(** The columns that change after a target is created. *)
Definition set_target (state : targetState) (reason attempt artifact : string) (nonce : option (list Z)) (expires since report : option Time)
    (updated : Time) (t : Target) : Target :=
  mkTarget (tg_rollout t) (tg_node t) (tg_NodeID t) (tg_Name t) (tg_Version t) (tg_OS t) (tg_Arch t) (tg_Wave t) state reason attempt
    artifact nonce expires since report updated.
Definition set_node (n : option string) (t : Target) : Target :=
  mkTarget (tg_rollout t) n (tg_NodeID t) (tg_Name t) (tg_Version t) (tg_OS t) (tg_Arch t) (tg_Wave t) (tg_State t) (tg_Reason t)
    (tg_attempt t) (tg_artifact t) (tg_nonce t) (tg_expires t) (tg_since t) (tg_report t) (tg_updated t).

Inductive attemptState := AtOffered | AtObserving | AtHealthy | AtFailed | AtUnknown.
#[export] Instance attemptState_eq_dec : EqDecision attemptState.
Proof. solve_decision. Defined.
(** agent_rollout_attempts *)
Record Attempt := mkAttempt { am_target : string; am_nonce : list Z; am_state : attemptState; am_created : Time; am_ended : option Time }.

(** agent_releases *)
Record StoredRelease := mkStoredRelease {
  sr_version : string; sr_channel : string; sr_key : string; sr_signed : SignedManifest; sr_expires : Time; sr_trust : Z;
  sr_policy : string; sr_verified : bool; sr_revoked : option Time }.
(** agent_release_artifacts, by release and artifact *)
Record ArtifactRow := mkArtifactRow { af_digest : string; af_size : Z; af_ready : bool }.
(** agent_release_trust *)
Record TrustRow := mkTrustRow { tk_public : list Z; tk_revision : Z; tk_not_before : Time; tk_expires : Time; tk_revoked : option Time }.
(** nodes, as far as rollouts read them *)
Record NodeRow := mkNodeRow {
  nd_hash : list Z; nd_created : bool; nd_revoked : bool; nd_name : string; nd_group : string; nd_tags : list string; nd_version : string;
  nd_os : string; nd_arch : string; nd_seen : option Time }.
(** A row of admin_users joined with one of admin_sessions. *)
Record AdminRow := mkAdminRow {
  ad_username : string; ad_role : string; ad_enabled : bool; ad_revoked : bool; ad_idle : Time; ad_absolute : Time; ad_recent : option Time }.

Record EventRow := mkEventRow { ev_rollout : string; ev_target : string; ev_kind : string; ev_reason : string; ev_at : Time }.
Record AuditRow := mkAuditRow { au_action : string; au_kind : string; au_id : string; au_reason : string; au_count : Z; au_user : string; au_at : Time }.

Record Tables := mkTables {
  tb_rollouts : gmap string Rollout;
  tb_targets : gmap string Target;
  tb_attempts : gmap string Attempt;
  tb_releases : gmap string StoredRelease;
  tb_artifacts : gmap (string * string) ArtifactRow;
  tb_trust : gmap string TrustRow;
  tb_policies : gmap string (string * list Z);
  tb_policy : option string;
  tb_events : list EventRow;
  tb_audit : list AuditRow;
  (** the tables of other services: nodes, groups, nodes with unfinished operations, owners *)
  tb_nodes : gmap string NodeRow;
  tb_groups : gset string;
  tb_busy : gset string;
  tb_admins : gmap (string * string) AdminRow }.

Definition set_rollouts v (d : Tables) : Tables :=
  mkTables v (tb_targets d) (tb_attempts d) (tb_releases d) (tb_artifacts d) (tb_trust d) (tb_policies d) (tb_policy d) (tb_events d) (tb_audit d)
    (tb_nodes d) (tb_groups d) (tb_busy d) (tb_admins d).
Definition set_targets v (d : Tables) : Tables :=
  mkTables (tb_rollouts d) v (tb_attempts d) (tb_releases d) (tb_artifacts d) (tb_trust d) (tb_policies d) (tb_policy d) (tb_events d) (tb_audit d)
    (tb_nodes d) (tb_groups d) (tb_busy d) (tb_admins d).
Definition set_attempts v (d : Tables) : Tables :=
  mkTables (tb_rollouts d) (tb_targets d) v (tb_releases d) (tb_artifacts d) (tb_trust d) (tb_policies d) (tb_policy d) (tb_events d) (tb_audit d)
    (tb_nodes d) (tb_groups d) (tb_busy d) (tb_admins d).
Definition set_releases v (d : Tables) : Tables :=
  mkTables (tb_rollouts d) (tb_targets d) (tb_attempts d) v (tb_artifacts d) (tb_trust d) (tb_policies d) (tb_policy d) (tb_events d) (tb_audit d)
    (tb_nodes d) (tb_groups d) (tb_busy d) (tb_admins d).
Definition set_artifacts v (d : Tables) : Tables :=
  mkTables (tb_rollouts d) (tb_targets d) (tb_attempts d) (tb_releases d) v (tb_trust d) (tb_policies d) (tb_policy d) (tb_events d) (tb_audit d)
    (tb_nodes d) (tb_groups d) (tb_busy d) (tb_admins d).
Definition set_trust v (d : Tables) : Tables :=
  mkTables (tb_rollouts d) (tb_targets d) (tb_attempts d) (tb_releases d) (tb_artifacts d) v (tb_policies d) (tb_policy d) (tb_events d) (tb_audit d)
    (tb_nodes d) (tb_groups d) (tb_busy d) (tb_admins d).
Definition set_policies v w (d : Tables) : Tables :=
  mkTables (tb_rollouts d) (tb_targets d) (tb_attempts d) (tb_releases d) (tb_artifacts d) (tb_trust d) v w (tb_events d) (tb_audit d)
    (tb_nodes d) (tb_groups d) (tb_busy d) (tb_admins d).
Definition set_events v (d : Tables) : Tables :=
  mkTables (tb_rollouts d) (tb_targets d) (tb_attempts d) (tb_releases d) (tb_artifacts d) (tb_trust d) (tb_policies d) (tb_policy d) v (tb_audit d)
    (tb_nodes d) (tb_groups d) (tb_busy d) (tb_admins d).
Definition set_audit v (d : Tables) : Tables :=
  mkTables (tb_rollouts d) (tb_targets d) (tb_attempts d) (tb_releases d) (tb_artifacts d) (tb_trust d) (tb_policies d) (tb_policy d) (tb_events d) v
    (tb_nodes d) (tb_groups d) (tb_busy d) (tb_admins d).

Definition in_flight (t : Target) : bool := match tg_State t with TOffered | TObserving => true | _ => false end.
Definition waiting (t : Target) : bool := match tg_State t with TPending | THeld => true | _ => false end.
Definition terminalRolloutState (s : rolloutState) : bool := match s with Completed | Aborted => true | _ => false end.

(** ** transaction.go *)

Definition tx (A : Type) : Type := Tx rolloutError Tables A.
(** [tx.at] and [tx.username]. *)
Record context := mkContext { cx_at : Time; cx_user : string }.

(** The index [idx_agent_rollout_active_node]: a node has one target in flight. *)
Definition second_in_flight (id : string) (t : Target) (d : Tables) : bool :=
  in_flight t && bool_decide (is_Some (tg_node t))
  && exists_where (fun id' t' => (id' <>s id) && in_flight t' && bool_decide (tg_node t' = tg_node t)) (tb_targets d).
(** [UPDATE agent_rollout_targets ... WHERE id=?] of a row that satisfies [c]: whether a
    row was changed. *)
Definition update_target (id : string) (c : Target -> bool) (f : Target -> Target) : tx bool := fun d =>
  match tb_targets d !! id with
  | Some t => if c t then if second_in_flight id (f t) d then Err ErrUnavailable else Ok (true, set_targets (<[id := f t]> (tb_targets d)) d)
              else Ok (false, d)
  | None => Ok (false, d)
  end.
Definition requireOne (m : tx bool) : tx unit := n <~ m ;; if n then ret tt else fail ErrUnavailable.

Record Actor := mkActor { ac_UserID : string; ac_SessionID : string }.

(** The name of the user, or why the user may not act. *)
Definition authority (actor : Actor) (recent : bool) (at_ : Time) : tx string :=
  row <~ query (fun d => tb_admins d !! (ac_UserID actor, ac_SessionID actor)) ;;
  match row with
  | None => fail ErrForbidden
  | Some u =>
      if negb (ad_enabled u) || ad_revoked u || negb (After (ad_idle u) at_) || negb (After (ad_absolute u) at_) || (ad_role u <>s "owner")
      then fail ErrForbidden else
      if recent && negb (match ad_recent u with Some t => Before at_ t | None => false end) then fail ErrRecentAuth else ret (ad_username u)
  end.

Definition audit (cx : context) (action kind id reason : string) (count : Z) : tx unit :=
  exec (fun d => set_audit (tb_audit d ++ [mkAuditRow action kind id reason count (cx_user cx) (cx_at cx)]) d).
Definition event (cx : context) (action id reason : string) : tx unit :=
  exec (fun d => set_events (tb_events d ++ [mkEventRow id "" action reason (cx_at cx)]) d) >>>
  audit cx action "rollout" id reason 0.
Definition targetEvent (cx : context) (id kind reason : string) : tx unit :=
  t <~ query (fun d => tb_targets d !! id) ;;
  t <~ require t ErrUnavailable ;;
  exec (fun d => set_events (tb_events d ++ [mkEventRow (tg_rollout t) id kind reason (cx_at cx)]) d).

(** A transaction from its begin to its commit, which may fail. *)
Definition transact {A} (commit : bool) (m : tx A) (d : Tables) : result rolloutError A * Tables :=
  match m d with
  | Ok (a, d') => if commit then (Ok a, d') else (Err ErrUnavailable, d)
  | Err e => (Err e, d)
  end.

(** ** service.go and trust.go: what the service was started with *)

Record TrustedKey := mkTrustedKey { ky_ID : string; ky_PublicKey : list Z; ky_NotBefore : Time; ky_ExpiresAt : Time }.
(** [sv_policy]: the revision, root digest and document of the signature policy. *)
Record Service := mkService {
  sv_keys : gmap string TrustedKey; sv_policy : option (string * string * list Z); sv_pinnedOnly : bool; sv_sigstore : bool;
  sv_enabled : bool; sv_schema : Z; sv_protocol : Z }.

(** [mutate]: [t0] and [t1] are the readings of the clock, the operator must have
    authority at both. *)
Definition mutate {A} (s : Service) (commit : bool) (t0 t1 : Time) (actor : Actor) (action : context -> tx A) (d : Tables) : result rolloutError A * Tables :=
  if negb (sv_enabled s) then (Err ErrDisabled, d) else
  transact commit
    (user <~ authority actor true t0 ;;
     a <~ action (mkContext t0 user) ;;
     _ <~ authority actor true t1 ;;
     ret a) d.
(** [mutateSystem]. *)
Definition mutateSystem {A} (s : Service) (commit : bool) (t0 : Time) (action : context -> tx A) (d : Tables) : result rolloutError A * Tables :=
  if negb (sv_enabled s) then (Err ErrDisabled, d) else transact commit (action (mkContext t0 "system")) d.

(** ** trust.go and signature_policy.go *)

(** The row of a key, when it is valid at [at_]. *)
Definition keyAvailable (id : string) (at_ : Time) : tx unit :=
  row <~ query (fun d => tb_trust d !! id) ;;
  match row with
  | Some k => if negb (After (tk_not_before k) at_) && After (tk_expires k) at_ && bool_decide (tk_revoked k = None) then ret tt else fail ErrSignature
  | None => fail ErrSignature
  end.
Definition keyRevision (id : string) (at_ : Time) : tx Z :=
  keyAvailable id at_ >>>
  row <~ query (fun d => tb_trust d !! id) ;;
  k <~ require row ErrUnavailable ;;
  ret (tk_revision k).
Definition trustedRevision (s : Service) (id : string) (at_ : Time) : tx Z :=
  key <~ require (sv_keys s !! id) ErrSignature ;;
  revision <~ keyRevision id at_ ;;
  row <~ query (fun d => tb_trust d !! id) ;;
  k <~ require row ErrUnavailable ;;
  if bool_decide (tk_public k = ky_PublicKey key) then ret revision else fail ErrSignature.
Definition requireTrustRevision (s : Service) (id : string) (expected : Z) (at_ : Time) : tx unit :=
  current <~ trustedRevision s id at_ ;;
  if current =? expected then ret tt else fail ErrSignature.

Definition signaturePolicyRevision (s : Service) : tx string :=
  match sv_policy s with
  | None => fail ErrSignature
  | Some (revision, _, _) =>
      if negb (sv_pinnedOnly s) && negb (sv_sigstore s) then fail ErrSignature else
      stored <~ query tb_policy ;;
      if bool_decide (stored = Some revision) then ret revision else fail ErrSignature
  end.
Definition requireSignaturePolicyRevision (s : Service) (expected : string) : tx unit :=
  revision <~ signaturePolicyRevision s ;;
  if revision =s expected then ret tt else fail ErrSignature.

Definition compatibleManifest (s : Service) (m : Manifest) : bool :=
  (Ma_MinimumServerSchema m <=? sv_schema s) && (Ma_MinimumProtocol m <=? sv_protocol s) && (Ma_MaximumProtocol m >=? sv_protocol s).

(** [initializeTrust], when the service starts. *)
Definition registerTrustedKey (cx : context) (key : TrustedKey) : tx unit :=
  row <~ query (fun d => tb_trust d !! ky_ID key) ;;
  match row with
  | None =>
      exec (fun d => set_trust (<[ky_ID key := mkTrustRow (ky_PublicKey key) 1 (ky_NotBefore key) (ky_ExpiresAt key) None]> (tb_trust d)) d) >>>
      audit cx "release.trust.loaded" "release_key" (ky_ID key) "" 0
  | Some k => if bool_decide (tk_public k = ky_PublicKey key) then ret tt else fail ErrSignature
  end.
Definition activateSignaturePolicy (cx : context) (revision : string) : tx unit :=
  previous <~ query tb_policy ;;
  if bool_decide (previous = Some revision) then ret tt else
  exec (fun d => set_policies (tb_policies d) (Some revision) d) >>>
  exec (fun d => set_releases (update_where (fun _ _ => true)
    (fun r => mkStoredRelease (sr_version r) (sr_channel r) (sr_key r) (sr_signed r) (sr_expires r) (sr_trust r) (sr_policy r) false (sr_revoked r)) (tb_releases d)) d) >>>
  exec (fun d => set_rollouts (update_where (fun _ r => negb (terminalRolloutState (ro_State r))) (set_state Paused "trust_policy_changed" (cx_at cx)) (tb_rollouts d)) d) >>>
  audit cx "release.signature_policy.loaded" "release_signature_policy" revision "" 0.
Definition persistSignaturePolicy (cx : context) (policy : string * string * list Z) : tx unit :=
  let '(revision, root, document) := policy in
  stored <~ query (fun d => tb_policies d !! revision) ;;
  match stored with
  | Some (root', document') => if (root' =s root) && bool_decide (document' = document) then ret tt else fail ErrSignature
  | None => exec (fun d => set_policies (<[revision := (root, document)]> (tb_policies d)) (tb_policy d) d)
  end >>>
  activateSignaturePolicy cx revision.
Definition persistRuntimePolicy (s : Service) (cx : context) : tx unit :=
  policy <~ require (sv_policy s) ErrSignature ;;
  persistSignaturePolicy cx policy.
Definition initializeTrust (s : Service) (commit : bool) (t0 : Time) (d : Tables) : result rolloutError unit * Tables :=
  let cx := mkContext t0 "system" in
  transact commit (each (registerTrustedKey cx) (map_to_list (sv_keys s)).*2 >>> persistRuntimePolicy s cx) d.

(** ** releases.go: reading a release *)

Record Release := mkRelease { rl_ID : string; rl_Manifest : Manifest; rl_signed : SignedManifest }.
Definition releaseDigest (payload : list Z) : string := EncodeHex (Sum256 payload).

Section externals.
Context `{Externals}.

Definition matches (value : StoredRelease) (m : Manifest) (id : string) : bool :=
  (releaseDigest (Payload (sr_signed value)) =s id) && (Ma_Version m =s sr_version value) && (Ma_Channel m =s sr_channel value)
  && (Ma_SigningKeyID m =s sr_key value).
Definition verifyCachedSignature (s : Service) (signed : SignedManifest) (m : Manifest) (at_ : Time) : result rolloutError unit :=
  match sv_keys s !! Ma_SigningKeyID m with
  | None => Err ErrSignature
  | Some key => let* _ := of_protocol (VerifyManifestSignature signed (mkSigningTrust (ky_ID key) (ky_PublicKey key) (ky_NotBefore key) (ky_ExpiresAt key) false) at_) in Ok tt
  end.
Definition availableRelease (s : Service) (value : StoredRelease) (m : Manifest) (at_ : Time) : tx unit :=
  requireSignaturePolicyRevision s (sr_policy value) >>>
  revision <~ trustedRevision s (Ma_SigningKeyID m) at_ ;;
  if bool_decide (is_Some (sr_revoked value)) || negb (sr_verified value) || negb (sr_trust value =? revision) then fail ErrConflict else
  if negb (compatibleManifest s m) then fail ErrManifest else ret tt.
Definition loadRelease (id : string) : tx StoredRelease :=
  row <~ query (fun d => tb_releases d !! id) ;; require row ErrNotFound.
Definition releaseInTransaction (s : Service) (id : string) (at_ : Time) : tx Release :=
  value <~ loadRelease id ;;
  m <~ lift (of_protocol (DecodeManifest (Payload (sr_signed value)))) ;;
  if negb (matches value m id) then fail ErrManifest else
  lift (of_protocol (ValidateManifest m at_)) >>>
  lift (verifyCachedSignature s (sr_signed value) m at_) >>>
  availableRelease s value m at_ >>>
  ret (mkRelease id m (sr_signed value)).
End externals.

(** ** platform.go *)

Definition architectureAliases : list (string * string) :=
  [("amd64", "amd64"); ("x86_64", "amd64"); ("x64", "amd64"); ("arm64", "arm64"); ("aarch64", "arm64");
   ("386", "386"); ("i386", "386"); ("i486", "386"); ("i586", "386"); ("i686", "386"); ("x86", "386");
   ("arm", "arm"); ("armv6l", "arm"); ("armv7l", "arm"); ("loong64", "loong64"); ("loongarch64", "loong64")].
Definition alias (value : string) : string := default "" (snd <$> head (filter (fun kv => kv.1 = value) architectureAliases)).
Definition normalizeArchitecture `{Externals} (value : string) : string := alias (toLower (TrimSpace value)).
(** [EqualFold] of two strings one of which is empty. *)
Definition sameArchitecture `{Externals} (left right : string) : bool :=
  let left := normalizeArchitecture left in
  let right := normalizeArchitecture right in
  if (left =s "") || (right =s "") then (left =s "") && (right =s "") else left =s right.
