(* ===== verification/RolloutService.v ===== *)
(** * Agent rollouts: the service

    [internal/agentrollout]: [targets.go], [rollouts.go], [control.go], [eligibility.go],
    [lease.go], [observations.go], [recovery.go], [recovery_expiry.go] and
    [restore_verify.go]. An operation is given the readings of the clock it makes, in
    order, the random values it draws and whether its commits succeed; it returns its
    result and the tables. The directory of artifacts is a finite map from digests to
    contents. [ReconcileRestore] is modelled for a database that has the rollout tables. *)

From S2P Require Import Prelude GoText GoNumber ReleaseVersion GoSha256 GoTable UpdateModel RolloutModel.

(** ** targets.go *)

Record CreateInput := mkCreateInput {
  ci_Name : string; ci_ReleaseID : string; ci_NodeIDs : list string; ci_GroupIDs : list string; ci_Tags : list string; ci_Policy : Policy;
  ci_Action : string; ci_AcknowledgeRollback : bool }.

Definition identifier (id : string) : bool := (id <>s "") && (len id <=? maximumIdentifierBytes).
(** [exists_]: whether the table has the identifier. *)
Fixpoint requireTargets (exists_ : string -> bool) (seen : gset string) (ids : list string) : result rolloutError unit :=
  match ids with
  | [] => Ok tt
  | id :: rest =>
      if negb (identifier id) || bool_decide (id ∈ seen) then Err ErrInvalid else
      if negb (exists_ id) then Err ErrNotFound else requireTargets exists_ ({[id]} ∪ seen) rest
  end.
Definition selected_node (input : CreateInput) (id : string) (n : NodeRow) : bool :=
  str_in id (ci_NodeIDs input) || str_in (nd_group n) (ci_GroupIDs input) || existsb (fun tag => str_in tag (ci_Tags input)) (nd_tags n).
Definition snapshotTargets (input : CreateInput) : tx (list (string * NodeRow)) :=
  let count := llen (ci_NodeIDs input) + llen (ci_GroupIDs input) + llen (ci_Tags input) in
  if (count =? 0) || (count >? maximumTargets) then fail ErrInvalid else
  d <~ query id ;;
  lift (requireTargets (fun i => bool_decide (is_Some (tb_nodes d !! i))) ∅ (ci_NodeIDs input)) >>>
  lift (requireTargets (fun i => bool_decide (i ∈ tb_groups d)) ∅ (ci_GroupIDs input)) >>>
  if negb (forallb identifier (ci_Tags input)) then fail ErrInvalid else
  let rows := take (Z.to_nat (maximumTargets + 1)) (ordered (fun _ _ => 0) (rows_where (selected_node input) (tb_nodes d))) in
  if (llen rows =? 0) || (llen rows >? maximumTargets) then fail ErrInvalid else ret rows.
Definition rollout (id : string) : tx Rollout := r <~ query (fun d => tb_rollouts d !! id) ;; require r ErrNotFound.

(** ** rollouts.go *)

Definition wave_of (p : Policy) (index : Z) : Z :=
  if index >=? po_CanaryCount p then 1 + Z.quot (index - po_CanaryCount p) (po_WaveSize p) else 0.
Definition total_waves (p : Policy) (targets : Z) : Z :=
  if targets >? po_CanaryCount p then 1 + Z.quot (targets - po_CanaryCount p + po_WaveSize p - 1) (po_WaveSize p) else 1.
Definition insert_target (id : string) (t : Target) : tx unit := fun d =>
  match tb_targets d !! id with Some _ => Err ErrUnavailable | None => Ok (tt, set_targets (<[id := t]> (tb_targets d)) d) end.
(** [fresh]: the identifiers drawn. *)
Fixpoint insertTargets (fresh : nat -> string) (cx : context) (rid : string) (p : Policy) (index : nat) (targets : list (string * NodeRow)) : tx unit :=
  match targets with
  | [] => ret tt
  | (node, n) :: rest =>
      insert_target (fresh index)
        (mkTarget rid (Some node) node (nd_name n) (nd_version n) (nd_os n) (nd_arch n) (wave_of p (Z.of_nat index)) TPending "" "" "" None None None None (cx_at cx)) >>>
      insertTargets fresh cx rid p (S index) rest
  end.
Definition insert_rollout (id : string) (r : Rollout) : tx unit := fun d =>
  match tb_rollouts d !! id with Some _ => Err ErrUnavailable | None => Ok (tt, set_rollouts (<[id := r]> (tb_rollouts d)) d) end.
Definition rolloutCreateEvent (action : string) : string := if action =s AssignmentRollback then "rollout.rollback.create" else "rollout.create".

Section service.
Context `{Externals} (s : Service).

Definition createRollout (fresh : nat -> string) (cx : context) (id : string) (action : string) (p : Policy) (input : CreateInput) : tx Rollout :=
  release <~ releaseInTransaction s (ci_ReleaseID input) (cx_at cx) ;;
  if Ma_MinimumServerSchema (rl_Manifest release) >? sv_schema s then fail ErrManifest else
  targets <~ snapshotTargets input ;;
  let r := mkRollout action (ci_ReleaseID input) (ci_Name input) Paused "awaiting_promotion" p (-1) (total_waves p (llen targets)) (cx_at cx) (cx_at cx) in
  insert_rollout id r >>>
  insertTargets fresh cx id p 0 targets >>>
  count <~ query (fun d => count_where (fun _ t => tg_rollout t =s id) (tb_targets d)) ;;
  if negb (count =? llen targets) then fail ErrUnavailable else
  audit cx (rolloutCreateEvent action) "rollout" id "" (llen targets) >>>
  ret r.
Definition Create (commit : bool) (now t0 t1 : Time) (id : string) (fresh : nat -> string) (actor : Actor) (input : CreateInput) (d : Tables)
    : result rolloutError Rollout * Tables :=
  let action := if ci_Action input =s "" then AssignmentUpgrade else ci_Action input in
  if (action <>s AssignmentUpgrade) && (action <>s AssignmentRollback) || (action =s AssignmentRollback) && negb (ci_AcknowledgeRollback input)
  then (Err ErrInvalid, d) else
  if negb (identifier (ci_Name input)) then (Err ErrInvalid, d) else
  match normalizePolicy (ci_Policy input) now with
  | Err e => (Err e, d)
  | Ok p => mutate s commit t0 t1 actor (fun cx => createRollout fresh cx id action p input) d
  end.

(** ** control.go *)

Definition promotable (r : Rollout) : bool :=
  match ro_State r with Completed | Aborted => false | Paused => ro_Reason r =s "awaiting_promotion" | Active => true end.
Definition within (at_ : Time) (t : option Time) (limit : Duration) : bool := match t with Some t => Sub at_ t <=? limit | None => false end.
(** [node]: the row of the target's node; [expected]: the version of the release. *)
Definition validWaveHealth (t : Target) (node : option NodeRow) (expected : string) (p : Policy) (at_ : Time) : bool :=
  match node with Some n => SameReleaseVersion (nd_version n) expected && within at_ (nd_seen n) (freshness p) | None => false end
  && bool_decide (tg_State t = THealthy)
  && match tg_since t with Some since => Sub at_ since >=? observation_time p | None => false end
  && within at_ (tg_report t) (freshness p).
Definition wave_rows (id : string) (wave : Z) (d : Tables) : list (string * Target) :=
  rows_where (fun _ t => (tg_rollout t =s id) && (tg_Wave t =? wave)) (tb_targets d).
Definition node_of (d : Tables) (t : Target) : option NodeRow := n ← tg_node t; tb_nodes d !! n.
Definition waveHealthy (id : string) (r : Rollout) (at_ : Time) : tx unit :=
  d <~ query (fun d => d) ;;
  match tb_releases d !! ro_ReleaseID r with
  | None => fail ErrConflict
  | Some release =>
      let rows := wave_rows id (ro_CurrentWave r) d in
      if forallb (fun kv => validWaveHealth kv.2 (node_of d kv.2) (sr_version release) (ro_Policy r) at_) rows && (0 <? llen rows)
      then ret tt else fail ErrConflict
  end.

Definition update_rollout (id : string) (f : Rollout -> Rollout) : tx unit := exec (fun d => set_rollouts (alter f id (tb_rollouts d)) d).
Definition Promote (commit : bool) (t0 t1 : Time) (actor : Actor) (id : string) (d : Tables) : result rolloutError unit * Tables :=
  mutate s commit t0 t1 actor (fun cx =>
    r <~ rollout id ;;
    if negb (promotable r) then fail ErrConflict else
    _ <~ releaseInTransaction s (ro_ReleaseID r) (cx_at cx) ;;
    when (ro_CurrentWave r >=? 0) (waveHealthy id r (cx_at cx)) >>>
    let next := ro_CurrentWave r + 1 in
    (if next >=? ro_TotalWaves r
     then update_rollout id (set_state Completed "" (cx_at cx))
     else update_rollout id (fun r => set_wave next (set_state Active "" (cx_at cx) r))) >>>
    event cx "rollout.promote" id "") d.

Definition abort_targets (id : string) (at_ : Time) (d : Tables) : Tables :=
  set_targets (update_where (fun _ t => (tg_rollout t =s id) && waiting t)
    (fun t => set_target TAborted "operator_abort" (tg_attempt t) (tg_artifact t) (tg_nonce t) (tg_expires t) (tg_since t) (tg_report t) at_ t) (tb_targets d)) d.
Definition control (commit : bool) (t0 t1 : Time) (actor : Actor) (id : string) (state : rolloutState) (action reason : string) (d : Tables)
    : result rolloutError unit * Tables :=
  mutate s commit t0 t1 actor (fun cx =>
    r <~ rollout id ;;
    if terminalRolloutState (ro_State r) then fail ErrConflict else
    update_rollout id (set_state state reason (cx_at cx)) >>>
    when (bool_decide (state = Aborted)) (exec (abort_targets id (cx_at cx))) >>>
    event cx action id reason) d.
Definition Pause (commit : bool) (t0 t1 : Time) (actor : Actor) (id : string) := control commit t0 t1 actor id Paused "rollout.paused" "operator_pause".
Definition Abort (commit : bool) (t0 t1 : Time) (actor : Actor) (id : string) := control commit t0 t1 actor id Aborted "rollout.aborted" "operator_abort".

Definition Resume (commit : bool) (t0 t1 : Time) (actor : Actor) (id : string) (acknowledge : bool) (d : Tables) : result rolloutError unit * Tables :=
  mutate s commit t0 t1 actor (fun cx =>
    r <~ rollout id ;;
    if negb (bool_decide (ro_State r = Paused)) || (ro_CurrentWave r <? 0) then fail ErrConflict else
    if (ro_Reason r <>s "operator_pause") && negb acknowledge then fail ErrConflict else
    _ <~ releaseInTransaction s (ro_ReleaseID r) (cx_at cx) ;;
    update_rollout id (set_state Active "" (cx_at cx)) >>>
    event cx "rollout.resume" id "") d.

(** ** eligibility.go *)

Record AgentIdentity := mkIdentity { id_NodeID : string; id_Mode : string; id_Fingerprint : string }.
Record Capabilities := mkCapabilities {
  ca_CurrentVersion : string; ca_OS : string; ca_Arch : string; ca_Manager : string; ca_UpdateEnabled : bool; ca_AvailableBytes : Z;
  ca_ProtocolVersion : Z }.

Definition AgentCredentialFingerprint (hash : list Z) : string := if llen hash =? 32 then EncodeHex (Sum256 hash) else "".
Definition agent (identity : AgentIdentity) : tx NodeRow :=
  row <~ query (fun d => tb_nodes d !! id_NodeID identity) ;;
  match row with
  | Some n =>
      if negb (nd_created n) || negb (llen (nd_hash n) =? 32) || nd_revoked n || (id_Mode identity <>s "active")
         || (AgentCredentialFingerprint (nd_hash n) <>s id_Fingerprint identity) then fail ErrForbidden else ret n
  | None => fail ErrForbidden
  end.

Record leaseCandidate := mkCandidate {
  lc_id : string; lc_target : Target; lc_rollout : Rollout; lc_release : Release; lc_node : NodeRow; lc_artifact : Artifact }.

Definition platformArtifact (m : Manifest) (caps : Capabilities) : option Artifact :=
  head (filter (fun a => (Ar_OS a =s ca_OS caps) && (Ar_Arch a =s ca_Arch caps) && (Ar_Kind a <>s "external_manager") = true) (Ma_Artifacts m)).
Definition manager_of (os : string) : string :=
  if os =s "linux" then "systemd" else if os =s "windows" then "windows_service" else if os =s "darwin" then "launchd" else
  if os =s "freebsd" then "rc.d" else "".
Definition capabilityReason (n : NodeRow) (caps : Capabilities) : string :=
  if ca_Manager caps =s "external_manager" then "external_manager" else
  if (manager_of (ca_OS caps) <>s ca_Manager caps) || negb (ca_UpdateEnabled caps) then "manual_only" else
  if (ca_OS caps <>s nd_os n) || negb (sameArchitecture (ca_Arch caps) (nd_arch n)) then "platform_changed" else "".
Definition allowedDirection (action : string) (comparison : Z) : bool :=
  if action =s AssignmentRollback then comparison <? 0 else comparison >? 0.
Definition sourceVersionReason (t : Target) (r : Rollout) (m : Manifest) (n : NodeRow) (caps : Capabilities) (now : Time) : string :=
  if (tg_Version t =s "") || (ca_CurrentVersion caps =s "") then "unknown_version" else
  if negb (SameReleaseVersion (nd_version n) (tg_Version t)) || negb (SameReleaseVersion (ca_CurrentVersion caps) (nd_version n)) then "version_changed" else
  if negb (match CompareVersions (Ma_Version m) (nd_version n) with Some (c, valid) => valid && allowedDirection (ro_Action r) c | None => false end)
  then "downgrade_or_unknown_version" else
  if negb (within now (nd_seen n) (freshness (ro_Policy r))) then "stale_heartbeat" else "".
Definition artifactPolicyReason (a : Artifact) (p : Policy) (m : Manifest) (caps : Capabilities) : string :=
  if (ca_ProtocolVersion caps <? Ma_MinimumProtocol m) || (ca_ProtocolVersion caps >? Ma_MaximumProtocol m) then "protocol_incompatible" else
  if (Ar_Support a <>s "supported") && ((Ar_Support a <>s "preview") || negb (po_AllowPreview p)) then "platform_not_supported" else
  if ca_AvailableBytes caps <? Ar_Size a * requiredArtifactCopies then "insufficient_space" else "".
Definition in_window (p : Policy) (at_ : Time) : bool := negb (Before at_ (po_WindowStart p)) && Before at_ (po_WindowEnd p).
(** The artifact, or the reason to hold the target. *)
Definition eligible (t : Target) (r : Rollout) (m : Manifest) (n : NodeRow) (caps : Capabilities) (at_ : Time) (d : Tables) : Artifact + string :=
  match platformArtifact m caps with
  | None => inr "unsupported_platform"
  | Some a =>
      match filter (fun reason => reason <> "") [capabilityReason n caps; sourceVersionReason t r m n caps at_; artifactPolicyReason a (ro_Policy r) m caps] with
      | reason :: _ => inr reason
      | [] =>
          if negb (in_window (ro_Policy r) at_) then inr "maintenance_window" else
          if bool_decide (tg_NodeID t ∈ tb_busy d) then inr "remote_operations_active" else inl a
      end
  end.

(** ** lease.go *)

Definition assignmentLifetime : Duration := 15 * Minute.

(** [agentMutation]: [t0] and [t1] are the readings of the clock, the agent's credential
    must be valid at both. *)
Definition agentMutation {A} (commit : bool) (t0 : Time) (identity : AgentIdentity) (action : context -> NodeRow -> tx A) (d : Tables)
    : result rolloutError A * Tables :=
  if negb (sv_enabled s) then (Err ErrDisabled, d) else
  transact commit
    (n <~ agent identity ;;
     a <~ action (mkContext t0 "agent") n ;;
     _ <~ agent identity ;;
     ret a) d.

Definition hold (cx : context) (id : string) (reason : string) : tx unit :=
  changed <~ update_target id (fun t => waiting t && (negb (bool_decide (tg_State t = THeld)) || (tg_Reason t <>s reason)))
    (fun t => set_target THeld reason (tg_attempt t) (tg_artifact t) (tg_nonce t) (tg_expires t) (tg_since t) (tg_report t) (cx_at cx) t) ;;
  when changed (targetEvent cx id "assignment.held" reason).

Definition active_wave (d : Tables) (t : Target) : bool :=
  match tb_rollouts d !! tg_rollout t with Some r => bool_decide (ro_State r = Active) && (ro_CurrentWave r =? tg_Wave t) | None => false end.
Definition rollout_created (d : Tables) (t : Target) : Time := default 0 (ro_created <$> tb_rollouts d !! tg_rollout t).
Definition due_target (node : string) (d : Tables) : option (string * Target) :=
  head (ordered (fun _ t => rollout_created d t)
    (rows_where (fun _ t => bool_decide (tg_node t = Some node) && active_wave d t && waiting t) (tb_targets d))).

Definition flying (rid node : string) (d : Tables) : Z :=
  count_where (fun _ t => ((tg_rollout t =s rid) || bool_decide (tg_node t = Some node)) && in_flight t) (tb_targets d).
Definition flying_own (node : string) (d : Tables) : Z :=
  count_where (fun _ t => bool_decide (tg_node t = Some node) && in_flight t) (tb_targets d).
Definition assignmentCapacity (cx : context) (c : leaseCandidate) : tx bool :=
  row <~ query (fun d => tb_artifacts d !! (rl_ID (lc_release c), Ar_ID (lc_artifact c))) ;;
  row <~ require row ErrUnavailable ;;
  if negb (af_ready row) then hold cx (lc_id c) "artifact_missing" >>> ret false else
  counts <~ query (fun d => (flying (tg_rollout (lc_target c)) (tg_NodeID (lc_target c)) d, flying_own (tg_NodeID (lc_target c)) d)) ;;
  if counts.2 >? 0 then hold cx (lc_id c) "node_update_active" >>> ret false else
  if counts.1 >=? po_MaxConcurrent (ro_Policy (lc_rollout c)) then hold cx (lc_id c) "assignment_capacity" >>> ret false else
  ret true.
Definition candidate (cx : context) (identity : AgentIdentity) (n : NodeRow) (caps : Capabilities) : tx (option leaseCandidate) :=
  row <~ query (due_target (id_NodeID identity)) ;;
  match row with
  | None => ret None
  | Some (id, t) =>
      r <~ rollout (tg_rollout t) ;;
      release <~ releaseInTransaction s (ro_ReleaseID r) (cx_at cx) ;;
      verdict <~ query (eligible t r (rl_Manifest release) n caps (cx_at cx)) ;;
      match verdict with
      | inr reason => hold cx id reason >>> ret None
      | inl artifact =>
          let c := mkCandidate id t r release n artifact in
          ready <~ assignmentCapacity cx c ;;
          ret (if ready then Some c else None)
      end
  end.

Definition insert_attempt (id : string) (a : Attempt) : tx unit := fun d =>
  match tb_attempts d !! id with Some _ => Err ErrUnavailable | None => Ok (tt, set_attempts (<[id := a]> (tb_attempts d)) d) end.
Definition earlier_of (a b : Time) : Time := if Before b a then b else a.
Definition assignment_expiry (at_ : Time) (c : leaseCandidate) : Time :=
  earlier_of (earlier_of (Prelude.Add at_ (assignmentLifetime + observation_time (ro_Policy (lc_rollout c)))) (Ma_ExpiresAt (rl_Manifest (lc_release c))))
    (po_WindowEnd (ro_Policy (lc_rollout c))).
(** [id] and [nonce]: the identifier and the random bytes drawn. *)
Definition offer (cx : context) (id : string) (nonce : list Z) (c : leaseCandidate) : tx Assignment :=
  let text := EncodeHex nonce in
  let hash := Sum256 (bytes text) in
  let expiry := assignment_expiry (cx_at cx) c in
  insert_attempt id (mkAttempt (lc_id c) hash AtOffered (cx_at cx) None) >>>
  requireOne (update_target (lc_id c) waiting (set_target TOffered "" id (Ar_ID (lc_artifact c)) (Some hash) (Some expiry) None None (cx_at cx))) >>>
  targetEvent cx (lc_id c) "assignment.offered" "" >>>
  ret (mkAssignment 0 (ro_Action (lc_rollout c)) id (tg_rollout (lc_target c)) (tg_NodeID (lc_target c)) text expiry (lc_artifact c) (rl_signed (lc_release c))).

(** [checkArtifact]: the file of the artifact is there and has its digest. *)
Definition checkArtifact (files : gmap string (list Z)) (a : Artifact) : bool :=
  match files !! Ar_SHA256 a with
  | Some content => (llen content =? Ar_Size a) && (EncodeHex (Sum256 content) =s Ar_SHA256 a)
  | None => false
  end.
Definition artifact_lost (cx : context) (c : leaseCandidate) : tx unit :=
  exec (fun d => set_artifacts (alter (fun a => mkArtifactRow (af_digest a) (af_size a) false) (rl_ID (lc_release c), Ar_ID (lc_artifact c)) (tb_artifacts d)) d) >>>
  hold cx (lc_id c) "artifact_missing".
Definition lease_again (cx : context) (t2 : Time) (identity : AgentIdentity) (caps : Capabilities) (id : string) (nonce : list Z) (first : leaseCandidate) (n : NodeRow)
    : tx Assignment :=
  current <~ candidate cx identity n caps ;;
  match current with
  | None => fail ErrConflict
  | Some c =>
      if lc_id c <>s lc_id first then fail ErrConflict else
      a <~ offer cx id nonce c ;;
      _ <~ releaseInTransaction s (rl_ID (lc_release c)) t2 ;;
      ret (mkAssignment (sv_schema s) (As_Action a) (As_ID a) (As_RolloutID a) (As_NodeID a) (As_Nonce a) (As_ExpiresAt a) (As_Artifact a) (As_Manifest a))
  end.
(** The three transactions of a lease. *)
Definition lease_first (commit : bool) (t0 : Time) (identity : AgentIdentity) (caps : Capabilities) (d : Tables) : result rolloutError (option leaseCandidate) * Tables :=
  agentMutation commit t0 identity (fun cx n => candidate cx identity n caps) d.
Definition lease_missing (commit : bool) (t1 : Time) (identity : AgentIdentity) (c : leaseCandidate) (d : Tables) : result rolloutError unit * Tables :=
  agentMutation commit t1 identity (fun cx _ => artifact_lost cx c) d.
Definition lease_second (commit : bool) (t1 t2 : Time) (id : string) (nonce : list Z) (identity : AgentIdentity) (caps : Capabilities) (c : leaseCandidate) (d : Tables)
    : result rolloutError Assignment * Tables :=
  agentMutation commit t1 identity (fun cx n => lease_again cx t2 identity caps id nonce c n) d.
(** [t0]: the first transaction; [t1]: the second; [t2]: the last reading in it;
    [between]: what others do between the two. *)
Definition Lease (commit0 commit1 : bool) (t0 t1 t2 : Time) (id : string) (nonce : list Z) (files : gmap string (list Z)) (between : Tables -> Tables)
    (identity : AgentIdentity) (caps : Capabilities) (d : Tables) : result rolloutError (option Assignment) * Tables :=
  match lease_first commit0 t0 identity caps d with
  | (Err e, d) => (Err e, d)
  | (Ok None, d) => (Ok None, d)
  | (Ok (Some c), d) =>
      if negb (checkArtifact files (lc_artifact c)) then
        let (r, d) := lease_missing commit1 t1 identity c (between d) in
        (match r with Ok _ => Ok None | Err e => Err e end, d)
      else
        let (r, d) := lease_second commit1 t1 t2 id nonce identity caps c (between d) in
        (match r with Ok a => Ok (Some a) | Err e => Err e end, d)
  end.

(** ** observations.go *)

Record Observation := mkObservation {
  ob_AssignmentID : string; ob_Nonce : string; ob_Version : string; ob_ReportAt : Time; ob_Restarts : Z; ob_ProtocolErrors : Z;
  ob_MetricErrors : Z; ob_TaskFailures : Z; ob_Outcome : string }.

Definition validObservationIdentity (o : Observation) (now : Time) : bool :=
  identifier (ob_AssignmentID o) && (len (ob_Nonce o) =? 2 * assignmentNonceBytes) && (len (ob_Version o) <=? maximumIdentifierBytes)
  && negb (IsZero (ob_ReportAt o)) && negb (After (ob_ReportAt o) (Prelude.Add now Second)).
Definition validObservation (o : Observation) (now : Time) : bool :=
  validObservationIdentity o now
  && ((ob_Outcome o =s "healthy") || (ob_Outcome o =s "failed") || (ob_Outcome o =s "rolled_back"))
  && forallb (fun c => (0 <=? c) && (c <=? maximumObservationCounter)) [ob_Restarts o; ob_ProtocolErrors o; ob_MetricErrors o; ob_TaskFailures o].

Definition maximumRestartBudget : Z := 1000000.
Definition restartBudget (p : Policy) : Z := if po_MaxRestarts p >=? maximumRestartBudget then maximumRestartBudget else po_MaxRestarts p + 1.
Definition thresholdFailure (o : Observation) (p : Policy) (budget : Z) : string :=
  if ob_Outcome o =s "rolled_back" then "agent_rolled_back" else
  if ob_Outcome o =s "failed" then "agent_failed" else
  if ob_Restarts o >? restartBudget p + budget then "restart_threshold" else
  if ob_ProtocolErrors o >? wrap64 (po_MaxProtocolErrors p + budget) then "protocol_error_threshold" else
  if ob_MetricErrors o >? wrap64 (po_MaxMetricErrors p + budget) then "metric_error_threshold" else
  if ob_TaskFailures o >? wrap64 (po_MaxTaskFailures p + budget) then "task_failure_threshold" else "".
Definition toleratedTransientErrors : Z := 1.
Definition transientErrorBudget (st : targetState) : Z := match st with THealthy => toleratedTransientErrors | _ => 0 end.

Definition observed_row (node attempt : string) (d : Tables) : option (string * Target) :=
  head (rows_where (fun _ t => bool_decide (tg_node t = Some node) && (tg_attempt t =s attempt)) (tb_targets d)).
Definition settled (st : targetState) : bool := match st with THealthy | TFailed => true | _ => false end.
Definition observedTarget (cx : context) (node : string) (o : Observation) : tx (string * Target) :=
  row <~ query (observed_row node (ob_AssignmentID o)) ;;
  row <~ require row ErrNotFound ;;
  let t := row.2 in
  if negb (bool_decide (tg_nonce t = Some (Sum256 (bytes (ob_Nonce o)))))
     || negb (match tg_expires t with Some e => settled (tg_State t) || Before (cx_at cx) e | None => false end) then fail ErrForbidden else
  if match tg_report t with Some last => Before (ob_ReportAt o) last | None => false end then fail ErrConflict else
  ret row.

Definition reportReady (r : Rollout) (n : NodeRow) (o : Observation) (at_ : Time) : tx bool :=
  row <~ query (fun d => tb_releases d !! ro_ReleaseID r) ;;
  row <~ require row ErrUnavailable ;;
  match DecodeManifest (Payload (sr_signed row)) with
  | Err _ => fail ErrManifest
  | Ok m =>
      if releaseDigest (Payload (sr_signed row)) <>s ro_ReleaseID r then fail ErrManifest else
      ret (SameReleaseVersion (nd_version n) (Ma_Version m) && SameReleaseVersion (ob_Version o) (Ma_Version m)
           && match nd_seen n with Some seen => negb (Before seen (ob_ReportAt o)) | None => false end
           && (Sub at_ (ob_ReportAt o) <=? freshness (ro_Policy r)))
  end.
(** The state, the reason and the time since which the target is healthy. *)
Definition observationState (cx : context) (t : Target) (r : Rollout) (n : NodeRow) (o : Observation) : tx (targetState * string * option Time) :=
  if bool_decide (tg_State t = TFailed) then ret (TFailed, tg_Reason t, None) else
  let reason := thresholdFailure o (ro_Policy r) (transientErrorBudget (tg_State t)) in
  if reason <>s "" then ret (TFailed, reason, None) else
  ready <~ reportReady r n o (cx_at cx) ;;
  if negb ready then ret (TObserving, "waiting_for_valid_report", None) else
  let since := if match tg_report t with Some last => Sub (cx_at cx) last >? freshness (ro_Policy r) | None => false end then None else tg_since t in
  let since := default (cx_at cx) since in
  ret (if Sub (cx_at cx) since >=? observation_time (ro_Policy r) then THealthy else TObserving, "", Some since).

Definition attempt_state (st : targetState) : attemptState :=
  match st with TOffered => AtOffered | TObserving => AtObserving | THealthy => AtHealthy | TFailed => AtFailed | _ => AtUnknown end.
Definition updateAttemptState (cx : context) (previous st : targetState) (attempt : string) : tx unit :=
  exec (fun d => set_attempts (alter (fun a =>
    mkAttempt (am_target a) (am_nonce a) (attempt_state st) (am_created a)
      (if bool_decide (st = previous) then am_ended a else if settled st then Some (cx_at cx) else None)) attempt (tb_attempts d)) d).
Definition event_name (st : targetState) : string :=
  match st with THealthy => "assignment.healthy" | TFailed => "assignment.failed" | _ => "assignment.observing" end.
Definition transientEventRecorded (id : string) (d : Tables) : bool :=
  existsb (fun e => (ev_target e =s id) && (ev_kind e =s "assignment.healthy") && (ev_reason e =s "transient_error_tolerated")) (tb_events d).
Definition pause_failed (rid : string) (at_ : Time) (d : Tables) : Tables :=
  set_rollouts (alter (fun r => if terminalRolloutState (ro_State r) then r else set_state Paused "health_gate_failed" at_ r) rid (tb_rollouts d)) d.
Definition recordObservation (cx : context) (id : string) (t : Target) (r : Rollout) (n : NodeRow) (o : Observation) : tx unit :=
  x <~ observationState cx t r n o ;;
  let '(st, reason, since) := x in
  _ <~ update_target id (fun _ => true)
    (fun row => set_target st reason (tg_attempt row) (tg_artifact row) (tg_nonce row) (tg_expires t) since (Some (ob_ReportAt o)) (cx_at cx) row) ;;
  updateAttemptState cx (tg_State t) st (ob_AssignmentID o) >>>
  when (bool_decide (st = TFailed)) (exec (pause_failed (tg_rollout t) (cx_at cx))) >>>
  if negb (bool_decide (st = tg_State t)) then targetEvent cx id (event_name st) reason else
  if bool_decide (tg_State t = THealthy) && (thresholdFailure o (ro_Policy r) 0 <>s "") then
    recorded <~ query (transientEventRecorded id) ;;
    when (negb recorded) (targetEvent cx id "assignment.healthy" "transient_error_tolerated")
  else ret tt.
Definition Observe (commit : bool) (now t0 : Time) (identity : AgentIdentity) (o : Observation) (d : Tables) : result rolloutError unit * Tables :=
  if negb (validObservation o now) then (Err ErrInvalid, d) else
  agentMutation commit t0 identity (fun cx n =>
    row <~ observedTarget cx (id_NodeID identity) o ;;
    r <~ rollout (tg_rollout row.2) ;;
    recordObservation cx row.1 row.2 r n o) d.

(** ** recovery_expiry.go and recovery.go *)

Definition pauseAutomatically (cx : context) (id reason : string) : tx unit :=
  row <~ query (fun d => tb_rollouts d !! id) ;;
  match row with
  | Some r => if negb (terminalRolloutState (ro_State r)) && (ro_Reason r <>s reason)
              then update_rollout id (set_state Paused reason (cx_at cx)) >>> event cx "rollout.paused.automatic" id reason else ret tt
  | None => ret tt
  end.
Definition lease_over (at_ : Time) (t : Target) : bool := in_flight t && match tg_expires t with Some e => negb (After e at_) | None => false end.
Definition end_attempt (at_ : Time) (a : Attempt) : Attempt := mkAttempt (am_target a) (am_nonce a) AtUnknown (am_created a) (Some at_).
Definition expire_target (cx : context) (kv : string * Target) : tx unit :=
  exec (fun d => match tb_targets d !! kv.1 with Some t => set_attempts (alter (end_attempt (cx_at cx)) (tg_attempt t) (tb_attempts d)) d | None => d end) >>>
  _ <~ update_target kv.1 (fun _ => true) (fun t => set_target THeld "assignment_unknown" (tg_attempt t) (tg_artifact t) None None None (tg_report t) (cx_at cx) t) ;;
  targetEvent cx kv.1 "assignment.unknown" "lease_expired" >>>
  pauseAutomatically cx (tg_rollout kv.2) "assignment_unknown".
Definition expireAssignments (cx : context) : tx unit :=
  rows <~ query (fun d => take (Z.to_nat recoveryBatchSize) (rows_where (fun _ t => lease_over (cx_at cx) t) (tb_targets d))) ;;
  each (expire_target cx) rows.
(** The reason to pause a rollout because of its release. *)
Definition release_gone (at_ : Time) (d : Tables) (r : Rollout) : option string :=
  match tb_releases d !! ro_ReleaseID r with
  | Some rel =>
      if negb (terminalRolloutState (ro_State r)) && (negb (After (sr_expires rel) at_) || bool_decide (is_Some (sr_revoked rel)))
         && negb (str_in (ro_Reason r) ["release_revoked"; "release_expired"; "signing_key_revoked"])
      then Some (if bool_decide (is_Some (sr_revoked rel)) then "release_revoked" else "release_expired") else None
  | None => None
  end.
Definition expireReleases (cx : context) : tx unit :=
  items <~ query (fun d => take (Z.to_nat recoveryBatchSize) (omap (fun kv => (fun reason => (kv.1, reason)) <$> release_gone (cx_at cx) d kv.2) (map_to_list (tb_rollouts d)))) ;;
  each (fun item => pauseAutomatically cx item.1 item.2) items.
Definition Recover (commit : bool) (t0 : Time) (d : Tables) : result rolloutError unit * Tables :=
  if negb (sv_enabled s) then (Ok tt, d) else
  let cx := mkContext t0 "system" in
  transact commit (expireAssignments cx >>> expireReleases cx) d.

Definition restored (r : Rollout) : bool := bool_decide (ro_State r = Paused) && (ro_Reason r =s "restored").
Definition restored_target (d : Tables) (t : Target) : bool :=
  match tb_rollouts d !! tg_rollout t with Some r => restored r && (tg_Wave t >=? ro_CurrentWave r) | None => false end.
Definition verifyRestoredState (d : Tables) : bool :=
  negb (exists_where (fun _ r => sr_verified r) (tb_releases d))
  && negb (exists_where (fun _ a => af_ready a) (tb_artifacts d))
  && negb (exists_where (fun _ t => bool_decide (is_Some (tg_nonce t)) || bool_decide (is_Some (tg_expires t))) (tb_targets d))
  && negb (exists_where (fun _ a => (0 <? llen (am_nonce a)) || match am_state a with AtOffered | AtObserving => true | _ => false end) (tb_attempts d))
  && negb (exists_where (fun _ r => negb (terminalRolloutState (ro_State r)) && negb (restored r)) (tb_rollouts d))
  && negb (exists_where (fun _ t => restored_target d t && (negb (bool_decide (tg_State t = THeld)) || (tg_Reason t <>s "restored") || bool_decide (is_Some (tg_since t)))) (tb_targets d)).
Definition restorePause (cx : context) : tx unit :=
  let at_ := cx_at cx in
  exec (fun d => set_rollouts (update_where (fun _ r => negb (terminalRolloutState (ro_State r))) (set_state Paused "restored" at_) (tb_rollouts d)) d) >>>
  exec (fun d => set_attempts (update_where (fun _ a => match am_state a with AtOffered | AtObserving => true | _ => false end) (end_attempt at_) (tb_attempts d)) d) >>>
  exec (fun d => set_targets (update_where (fun _ t => restored_target d t)
    (fun t => set_target THeld "restored" (tg_attempt t) (tg_artifact t) (tg_nonce t) (tg_expires t) None (tg_report t) at_ t) (tb_targets d)) d) >>>
  exec (fun d => set_targets (update_where (fun _ _ => true)
    (fun t => set_target (tg_State t) (tg_Reason t) (tg_attempt t) (tg_artifact t) None None (tg_since t) (tg_report t) (tg_updated t) t) (tb_targets d)) d) >>>
  exec (fun d => set_attempts (update_where (fun _ _ => true) (fun a => mkAttempt (am_target a) [] (am_state a) (am_created a) (am_ended a)) (tb_attempts d)) d) >>>
  exec (fun d => set_releases (update_where (fun _ _ => true)
    (fun r => mkStoredRelease (sr_version r) (sr_channel r) (sr_key r) (sr_signed r) (sr_expires r) (sr_trust r) (sr_policy r) false (sr_revoked r)) (tb_releases d)) d) >>>
  exec (fun d => set_artifacts (update_where (fun _ _ => true) (fun a => mkArtifactRow (af_digest a) (af_size a) false) (tb_artifacts d)) d) >>>
  audit cx "rollout.restore.paused" "rollout" "restore" "verified_reimport_required" 0 >>>
  good <~ query verifyRestoredState ;;
  if good then ret tt else fail ErrUnavailable.
Definition ReconcileRestore (commit : bool) (now : Time) (d : Tables) : result rolloutError unit * Tables :=
  transact commit (restorePause (mkContext now "system")) d.
End service.
