(* ===== verification/RolloutRelease.v ===== *)
(** * Agent rollouts: releases, artifacts, downloads and deletion

    [internal/agentrollout]: [releases.go], the verification and revocation of
    [trust.go], [artifacts.go], [download.go], [deletion.go] and [retention.go]. *)

From S2P Require Import Prelude GoText GoNumber ReleaseVersion GoSha256 GoTable UpdateModel RolloutModel RolloutService.

Section service.
Context `{Externals} (s : Service).

(** ** trust.go: verification and revocation *)

(** [sigstore]: the verdict of the Sigstore verifier on the payload, the bundle and the
    tag of the release. *)
Definition MaximumBundleBytes : Z := Z.shiftl 4 20.
Definition verifySigstore (sigstore : list Z -> list Z -> string -> bool) (signed : SignedManifest) (m : Manifest) : result rolloutError unit :=
  if sv_pinnedOnly s then (if llen (SigstoreBundle signed) =? 0 then Ok tt else Err ErrSignature) else
  if negb (sv_sigstore s) || (llen (SigstoreBundle signed) =? 0) || (llen (SigstoreBundle signed) >? MaximumBundleBytes) then Err ErrSignature else
  match ReleaseTag (Ma_Version m) with
  | None => Err ErrManifest
  | Some tag => if sigstore (Payload signed) (SigstoreBundle signed) tag then Ok tt else Err ErrSignature
  end.
(** [t0] and [t1]: the two readings of the clock. *)
Definition verifySigned (sigstore : list Z -> list Z -> string -> bool) (t0 t1 : Time) (signed : SignedManifest) : result rolloutError Manifest :=
  let* m := of_protocol (DecodeManifest (Payload signed)) in
  if negb (compatibleManifest s m) then Err ErrManifest else
  let* _ := of_protocol (ValidateManifest m t0) in
  let* _ := verifyCachedSignature s signed m t1 in
  let* _ := verifySigstore sigstore signed m in
  Ok m.

Definition set_revoked (at_ : Time) (r : StoredRelease) : StoredRelease :=
  mkStoredRelease (sr_version r) (sr_channel r) (sr_key r) (sr_signed r) (sr_expires r) (sr_trust r) (sr_policy r) (sr_verified r) (Some at_).
(** Rollouts that are active and whose release satisfies [c] are paused. *)
Definition pause_releases (c : string -> StoredRelease -> bool) (reason : string) (at_ : Time) (d : Tables) : Tables :=
  set_rollouts (update_where (fun _ r => bool_decide (ro_State r = Active)
      && match tb_releases d !! ro_ReleaseID r with Some rel => c (ro_ReleaseID r) rel | None => false end)
    (set_state Paused reason at_) (tb_rollouts d)) d.
Definition RevokeKey (commit : bool) (t0 t1 : Time) (actor : Actor) (id : string) (d : Tables) : result rolloutError unit * Tables :=
  mutate s commit t0 t1 actor (fun cx =>
    row <~ query (fun d => tb_trust d !! id) ;;
    row <~ require row ErrUnavailable ;;
    exec (fun d => set_trust (<[id := mkTrustRow (tk_public row) (tk_revision row + 1) (tk_not_before row) (tk_expires row) (Some (cx_at cx))]> (tb_trust d)) d) >>>
    exec (fun d => set_releases (update_where (fun _ r => sr_key r =s id) (set_revoked (cx_at cx)) (tb_releases d)) d) >>>
    exec (pause_releases (fun _ rel => sr_key rel =s id) "signing_key_revoked" (cx_at cx)) >>>
    audit cx "release.key.revoked" "release_key" id "" 0) d.

(** ** releases.go: import and revocation *)

Definition same_version (m : Manifest) (d : Tables) : option string :=
  fst <$> head (rows_where (fun _ r => (sr_version r =s Ma_Version m) && (sr_channel r =s Ma_Channel m)) (tb_releases d)).
Fixpoint insert_artifacts (id : string) (artifacts : list Artifact) (m : gmap (string * string) ArtifactRow) : gmap (string * string) ArtifactRow :=
  match artifacts with
  | [] => m
  | a :: rest =>
      insert_artifacts id rest
        (match m !! (id, Ar_ID a) with Some _ => m | None => <[(id, Ar_ID a) := mkArtifactRow (Ar_SHA256 a) (Ar_Size a) false]> m end)
  end.
Definition persistArtifactMetadata (id : string) (artifacts : list Artifact) : tx unit :=
  exec (fun d => set_artifacts (insert_artifacts id artifacts (tb_artifacts d)) d) >>>
  count <~ query (fun d => count_where (fun k _ => k.1 =s id) (tb_artifacts d)) ;;
  if count =? llen artifacts then ret tt else fail ErrUnavailable.
Definition persistRelease (id : string) (m : Manifest) (signed : SignedManifest) (revision : Z) (policy : string) : tx unit :=
  previous <~ query (same_version m) ;;
  if match previous with Some p => p <>s id | None => false end then fail ErrConflict else
  row <~ query (fun d => tb_releases d !! id) ;;
  match row with
  | None =>
      exec (fun d => set_releases (<[id := mkStoredRelease (Ma_Version m) (Ma_Channel m) (Ma_SigningKeyID m) signed (Ma_ExpiresAt m) revision policy true None]> (tb_releases d)) d)
  | Some r =>
      if bool_decide (is_Some (sr_revoked r)) then fail ErrConflict else
      exec (fun d => set_releases (<[id := mkStoredRelease (sr_version r) (sr_channel r) (sr_key r)
        (mkSignedManifest (Payload (sr_signed r)) (Signature signed) (SigstoreBundle signed)) (sr_expires r) revision policy true None]> (tb_releases d)) d)
  end >>>
  persistArtifactMetadata id (Ma_Artifacts m).

Definition importTrustSnapshot (commit : bool) (t0 t1 : Time) (actor : Actor) (keyID : string) (d : Tables) : result rolloutError (Z * string) * Tables :=
  mutate s commit t0 t1 actor (fun cx =>
    revision <~ trustedRevision s keyID (cx_at cx) ;;
    policy <~ signaturePolicyRevision s ;;
    ret (revision, policy)) d.
Definition import_write (commit : bool) (t0 t1 t2 : Time) (actor : Actor) (m : Manifest) (signed : SignedManifest) (revision : Z) (policy : string) (d : Tables)
    : result rolloutError Release * Tables :=
  let id := releaseDigest (Payload signed) in
  mutate s commit t0 t2 actor (fun cx =>
    requireTrustRevision s (Ma_SigningKeyID m) revision (cx_at cx) >>>
    persistRelease id m signed revision policy >>>
    audit cx "release.import" "release" id "" (llen (Ma_Artifacts m)) >>>
    requireTrustRevision s (Ma_SigningKeyID m) revision t1 >>>
    requireSignaturePolicyRevision s policy >>>
    ret (mkRelease id m signed)) d.
(** [ts]: the seven readings of the clock; [between]: what others do between the two
    transactions. *)
Definition Import (commit0 commit1 : bool) (ts : nat -> Time) (sigstore : list Z -> list Z -> string -> bool) (between : Tables -> Tables) (actor : Actor)
    (signed : SignedManifest) (d : Tables) : result rolloutError Release * Tables :=
  if negb (sv_enabled s) then (Err ErrDisabled, d) else
  match of_protocol (DecodeManifest (Payload signed)) with
  | Err e => (Err e, d)
  | Ok preliminary =>
      match importTrustSnapshot commit0 (ts 0%nat) (ts 1%nat) actor (Ma_SigningKeyID preliminary) d with
      | (Err e, d) => (Err e, d)
      | (Ok (revision, policy), d) =>
          let d := between d in
          match verifySigned sigstore (ts 2%nat) (ts 3%nat) signed with
          | Err e => (Err e, d)
          | Ok m => import_write commit1 (ts 4%nat) (ts 5%nat) (ts 6%nat) actor m signed revision policy d
          end
      end
  end.
Definition RevokeRelease (commit : bool) (t0 t1 : Time) (actor : Actor) (id : string) (d : Tables) : result rolloutError unit * Tables :=
  mutate s commit t0 t1 actor (fun cx =>
    row <~ query (fun d => tb_releases d !! id) ;;
    _ <~ require row ErrUnavailable ;;
    exec (fun d => set_releases (alter (set_revoked (cx_at cx)) id (tb_releases d)) d) >>>
    exec (pause_releases (fun rid _ => rid =s id) "release_revoked" (cx_at cx)) >>>
    audit cx "release.revoke" "release" id "" 0) d.

(** ** artifacts.go *)

Definition findArtifact (m : Manifest) (id : string) : option Artifact := head (filter (fun a => Ar_ID a = id) (Ma_Artifacts m)).
Definition stageArtifact (a : Artifact) (body : list Z) : bool := (llen body =? Ar_Size a) && (EncodeHex (Sum256 body) =s Ar_SHA256 a).
(** A file that is there and intact is kept, one that is not is replaced. *)
Definition publishArtifact (a : Artifact) (body : list Z) (files : gmap string (list Z)) : gmap string (list Z) :=
  if checkArtifact files a then files else <[Ar_SHA256 a := body]> files.
Definition artifact_write (commit : bool) (t0 t1 : Time) (actor : Actor) (releaseID artifactID : string) (a : Artifact) (d : Tables) : result rolloutError unit * Tables :=
  mutate s commit t0 t1 actor (fun cx =>
    _ <~ releaseInTransaction s releaseID (cx_at cx) ;;
    row <~ query (fun d => tb_artifacts d !! (releaseID, artifactID)) ;;
    row <~ require row ErrUnavailable ;;
    if negb ((af_digest row =s Ar_SHA256 a) && (af_size row =? Ar_Size a)) then fail ErrUnavailable else
    exec (fun d => set_artifacts (<[(releaseID, artifactID) := mkArtifactRow (af_digest row) (af_size row) true]> (tb_artifacts d)) d) >>>
    audit cx "release.artifact.import" "release" releaseID "" 0) d.
(** [stored]: whether the file operations succeed; [between]: what others do between the
    two transactions. *)
Definition PutArtifact (commit0 commit1 stored : bool) (t0 t1 t2 t3 : Time) (between : Tables -> Tables) (actor : Actor) (releaseID artifactID : string)
    (body : option (list Z)) (files : gmap string (list Z)) (d : Tables) : result rolloutError unit * gmap string (list Z) * Tables :=
  let (r, d) := mutate s commit0 t0 t1 actor (fun cx =>
    release <~ releaseInTransaction s releaseID (cx_at cx) ;;
    require (findArtifact (rl_Manifest release) artifactID) ErrNotFound) d in
  match r, body with
  | Err e, _ => (Err e, files, d)
  | Ok _, None => (Err ErrInvalid, files, d)
  | Ok a, Some body =>
      if negb (stageArtifact a body) then (Err ErrManifest, files, d) else
      if negb stored then (Err ErrUnavailable, files, d) else
      let files := publishArtifact a body files in
      let (r, d) := artifact_write commit1 t2 t3 actor releaseID artifactID a (between d) in
      (r, files, d)
  end.

(** ** download.go *)

Record DownloadRequest := mkDownloadRequest { dr_Identity : AgentIdentity; dr_AssignmentID : string; dr_ArtifactID : string; dr_Nonce : string }.

Definition validDownloadRequest (r : DownloadRequest) : bool :=
  (len (dr_Nonce r) =? 2 * assignmentNonceBytes) && (len (dr_AssignmentID r) <=? maximumIdentifierBytes) && (len (dr_ArtifactID r) <=? maximumIdentifierBytes).
Definition downloadTarget (cx : context) (r : DownloadRequest) : tx Target :=
  row <~ query (observed_row (id_NodeID (dr_Identity r)) (dr_AssignmentID r)) ;;
  row <~ require row ErrNotFound ;;
  let t := row.2 in
  match tg_expires t with
  | None => fail ErrNotFound
  | Some expires =>
      if (tg_artifact t <>s dr_ArtifactID r) || negb (bool_decide (tg_State t = TOffered)) || negb (Before (cx_at cx) expires)
         || negb (bool_decide (tg_nonce t = Some (Sum256 (bytes (dr_Nonce r))))) then fail ErrForbidden else ret t
  end.
Definition downloadWindow (r : Rollout) (at_ : Time) : bool := bool_decide (ro_State r = Active) && in_window (ro_Policy r) at_.
Definition readyArtifact (releaseID : string) (a : Artifact) : tx unit :=
  row <~ query (fun d => tb_artifacts d !! (releaseID, Ar_ID a)) ;;
  match row with
  | Some row => if af_ready row && (af_digest row =s Ar_SHA256 a) && (af_size row =? Ar_Size a) then ret tt else fail ErrUnavailable
  | None => fail ErrUnavailable
  end.
Definition downloadAuthorization (commit : bool) (t0 : Time) (r : DownloadRequest) (d : Tables) : result rolloutError (Artifact * Time) * Tables :=
  if negb (validDownloadRequest r) then (Err ErrInvalid, d) else
  agentMutation s commit t0 (dr_Identity r) (fun cx n =>
    t <~ downloadTarget cx r ;;
    o <~ rollout (tg_rollout t) ;;
    if negb (downloadWindow o (cx_at cx)) then fail ErrConflict else
    release <~ releaseInTransaction s (ro_ReleaseID o) (cx_at cx) ;;
    a <~ require (findArtifact (rl_Manifest release) (dr_ArtifactID r)) ErrNotFound ;;
    if (Ar_OS a <>s nd_os n) || negb (sameArchitecture (Ar_Arch a) (nd_arch n)) then fail ErrForbidden else
    readyArtifact (rl_ID release) a >>>
    ret (a, default 0 (tg_expires t))) d.
Record Download := mkDownload { dw_request : DownloadRequest; dw_artifact : Artifact; dw_expires : Time; dw_file : list Z; dw_offset : Z }.
(** [full]: all transfers are taken; [d], [d1]: the tables at the two authorizations. *)
Definition OpenDownload (full commit0 commit1 : bool) (t0 t1 : Time) (r : DownloadRequest) (files : gmap string (list Z)) (d d1 : Tables)
    : result rolloutError Download :=
  if negb (sv_enabled s) then Err ErrDisabled else
  if full then Err ErrBusy else
  let* x := (downloadAuthorization commit0 t0 r d).1 in
  if negb (checkArtifact files x.1) then Err ErrUnavailable else
  let* _ := (downloadAuthorization commit1 t1 r d1).1 in
  Ok (mkDownload r x.1 x.2 (default [] (files !! Ar_SHA256 x.1)) 0).
(** [Read] of [n] bytes: [now] and [t0] are the readings of the clock, [unchanged] says
    whether the file has the size and the time it had. *)
Definition DownloadRead (commit unchanged : bool) (now t0 : Time) (n : nat) (w : Download) (d : Tables) : result rolloutError (list Z) * Download :=
  if negb (Before now (dw_expires w)) then (Err ErrForbidden, w) else
  match (downloadAuthorization commit t0 (dw_request w) d).1 with
  | Err e => (Err e, w)
  | Ok _ =>
      if negb unchanged then (Err ErrUnavailable, w) else
      let p := take n (drop (Z.to_nat (dw_offset w)) (dw_file w)) in
      (Ok p, mkDownload (dw_request w) (dw_artifact w) (dw_expires w) (dw_file w) (dw_offset w + llen p))
  end.

(** ** deletion.go *)

Definition deletableIdentifier (value : string) : bool := (value <>s "") && (len value <=? maximumIdentifierBytes).
Definition count_targets (id : string) (c : Target -> bool) (d : Tables) : Z := count_where (fun _ t => (tg_rollout t =s id) && c t) (tb_targets d).
Definition remove_rollout (id : string) (d : Tables) : Tables :=
  set_rollouts (delete id (tb_rollouts d))
    (set_targets (delete_where (fun _ t => tg_rollout t =s id) (tb_targets d))
      (set_attempts (delete_where (fun _ a => match tb_targets d !! am_target a with Some t => tg_rollout t =s id | None => false end) (tb_attempts d))
        (set_events (List.filter (fun e => ev_rollout e <>s id) (tb_events d)) d))).
Definition deleteRollout (id : string) : tx Z :=
  r <~ rollout id ;;
  if negb (terminalRolloutState (ro_State r)) then fail ErrConflict else
  inflight <~ query (count_targets id in_flight) ;;
  if inflight >? 0 then fail ErrConflict else
  targets <~ query (count_targets id (fun _ => true)) ;;
  exec (remove_rollout id) >>>
  ret targets.
Definition DeleteRollout (commit : bool) (t0 t1 : Time) (actor : Actor) (id : string) (d : Tables) : result rolloutError unit * Tables :=
  if negb (deletableIdentifier id) then (Err ErrInvalid, d) else
  mutate s commit t0 t1 actor (fun cx => targets <~ deleteRollout id ;; audit cx "rollout.delete" "rollout" id "" targets) d.

Definition release_digests (id : string) (d : Tables) : list string :=
  remove_dups ((fun kv => af_digest kv.2) <$> rows_where (fun k _ => k.1 =s id) (tb_artifacts d)).
Definition validArtifactDigest (value : string) : bool := (len value =? 64) && bool_decide (is_Some (DecodeHex value)).
Definition unreferencedArtifactDigests (digests : list string) (d : Tables) : list string :=
  List.filter (fun digest => validArtifactDigest digest && negb (exists_where (fun _ a => af_digest a =s digest) (tb_artifacts d))) digests.
(** The number of artifact rows and the digests no release refers to any more. *)
Definition deleteRelease (id : string) : tx (Z * list string) :=
  stored <~ loadRelease id ;;
  if negb (bool_decide (is_Some (sr_revoked stored))) then fail ErrConflict else
  rollouts <~ query (fun d => count_where (fun _ r => ro_ReleaseID r =s id) (tb_rollouts d)) ;;
  if rollouts >? 0 then fail ErrConflict else
  artifacts <~ query (fun d => count_where (fun k _ => k.1 =s id) (tb_artifacts d)) ;;
  digests <~ query (release_digests id) ;;
  exec (fun d => set_artifacts (delete_where (fun k _ => k.1 =s id) (tb_artifacts d)) d) >>>
  exec (fun d => set_releases (delete id (tb_releases d)) d) >>>
  orphans <~ query (unreferencedArtifactDigests digests) ;;
  ret (artifacts, orphans).
Definition removeArtifacts (digests : list string) (files : gmap string (list Z)) : gmap string (list Z) := foldr delete files digests.
Definition DeleteRelease (commit : bool) (t0 t1 : Time) (actor : Actor) (id : string) (files : gmap string (list Z)) (d : Tables)
    : result rolloutError unit * gmap string (list Z) * Tables :=
  if negb (deletableIdentifier id) then (Err ErrInvalid, files, d) else
  match mutate s commit t0 t1 actor (fun cx => x <~ deleteRelease id ;; audit cx "release.delete" "release" id "" x.1 >>> ret x) d with
  | (Err e, d) => (Err e, files, d)
  | (Ok x, d) => (Ok tt, removeArtifacts x.2 files, d)
  end.

(** ** retention.go *)

Definition retentionBatchSize : Z := 16.
Definition maximumRetentionDays : Z := 3650.
Record RetentionPolicy := mkRetentionPolicy { rp_RolloutDays : Z; rp_ReleaseDays : Z }.
Definition withinRetentionBounds (days : Z) : bool := (0 <=? days) && (days <=? maximumRetentionDays).
Definition RetentionValid (p : RetentionPolicy) : bool := withinRetentionBounds (rp_RolloutDays p) && withinRetentionBounds (rp_ReleaseDays p).
Definition RetentionEnabled (p : RetentionPolicy) : bool := (rp_RolloutDays p >? 0) || (rp_ReleaseDays p >? 0).

Definition expiredRollouts (cutoff : Time) (d : Tables) : list string :=
  (take (Z.to_nat retentionBatchSize) (ordered (fun _ r => ro_updated r)
    (rows_where (fun _ r => terminalRolloutState (ro_State r) && Before (ro_updated r) cutoff) (tb_rollouts d)))).*1.
(** [unless_conflict]: an object that is used again is left for the next time. *)
Definition unless_conflict {A} (m : tx A) : tx (option A) := fun d =>
  match m d with Ok (a, d) => Ok (Some a, d) | Err ErrConflict => Ok (None, d) | Err e => Err e end.
Fixpoint delete_rollouts (cx : context) (ids : list string) : tx Z :=
  match ids with
  | [] => ret 0
  | id :: rest =>
      x <~ unless_conflict (deleteRollout id) ;;
      match x with
      | None => delete_rollouts cx rest
      | Some targets => audit cx "rollout.delete" "rollout" id "retention" targets >>> n <~ delete_rollouts cx rest ;; ret (n + 1)
      end
  end.
(** A round deletes all it selected or is the last. [ts]: the readings of the clock and
    whether the commits succeed, round by round. The counts an error comes with are not
    kept. *)
Fixpoint pruneRollouts (fuel : nat) (ts : nat -> Time * bool) (round : nat) (cutoff : Time) (total : Z) (d : Tables) : result rolloutError Z * Tables :=
  match fuel with
  | O => (Ok total, d)
  | S fuel =>
      match expiredRollouts cutoff d with
      | [] => (Ok total, d)
      | ids =>
          match mutateSystem s (ts round).2 (ts round).1 (fun cx => delete_rollouts cx ids) d with
          | (Err e, d) => (Err e, d)
          | (Ok deleted, d) =>
              if deleted <? llen ids then (Ok (total + deleted), d) else pruneRollouts fuel ts (S round) cutoff (total + deleted) d
          end
      end
  end.

Definition expiredReleases (cutoff : Time) (d : Tables) : list string :=
  (take (Z.to_nat retentionBatchSize) (ordered (fun _ r => default 0 (sr_revoked r))
    (rows_where (fun id r => match sr_revoked r with Some t => Before t cutoff | None => false end
                             && negb (exists_where (fun _ o => ro_ReleaseID o =s id) (tb_rollouts d))) (tb_releases d)))).*1.
(** The orphans, the artifact rows and the releases deleted. *)
Fixpoint delete_releases (cx : context) (ids : list string) : tx (list string * Z * Z) :=
  match ids with
  | [] => ret ([], 0, 0)
  | id :: rest =>
      x <~ unless_conflict (deleteRelease id) ;;
      match x with
      | None => delete_releases cx rest
      | Some x => audit cx "release.delete" "release" id "retention" x.1 >>>
                  n <~ delete_releases cx rest ;; ret (x.2 ++ n.1.1, x.1 + n.1.2, n.2 + 1)
      end
  end.
(** After an error the files of the rounds before stay. *)
Fixpoint pruneReleases (fuel : nat) (ts : nat -> Time * bool) (round : nat) (cutoff : Time) (orphans : list string) (total : Z * Z) (files : gmap string (list Z)) (d : Tables)
    : result rolloutError (Z * Z) * gmap string (list Z) * Tables :=
  match fuel with
  | O => (Ok total, files, d)
  | S fuel =>
      match expiredReleases cutoff d with
      | [] => (Ok total, removeArtifacts orphans files, d)
      | ids =>
          match mutateSystem s (ts round).2 (ts round).1 (fun cx => delete_releases cx ids) d with
          | (Err e, d) => (Err e, files, d)
          | (Ok x, d) =>
              let orphans := orphans ++ x.1.1 in
              let total := (total.1 + x.2, total.2 + x.1.2) in
              if x.2 <? llen ids then (Ok total, removeArtifacts orphans files, d) else pruneReleases fuel ts (S round) cutoff orphans total files d
          end
      end
  end.
(** [AddDate] of days, where days have 24 hours. *)
Definition days (n : Z) : Duration := n * 24 * Hour.
Definition Prune (ts0 ts1 : nat -> Time * bool) (now : Time) (p : RetentionPolicy) (files : gmap string (list Z)) (d : Tables)
    : result rolloutError (Z * (Z * Z)) * gmap string (list Z) * Tables :=
  if negb (sv_enabled s) then (Err ErrDisabled, files, d) else
  if negb (RetentionValid p) then (Err ErrInvalid, files, d) else
  if negb (RetentionEnabled p) then (Ok (0, (0, 0)), files, d) else
  match (if rp_RolloutDays p >? 0 then pruneRollouts (S (size (tb_rollouts d))) ts0 0 (now - days (rp_RolloutDays p)) 0 d else (Ok 0, d)) with
  | (Err e, d) => (Err e, files, d)
  | (Ok rollouts, d) =>
      if rp_ReleaseDays p >? 0 then
        match pruneReleases (S (size (tb_releases d))) ts1 0 (now - days (rp_ReleaseDays p)) [] (0, 0) files d with
        | (Err e, files, d) => (Err e, files, d)
        | (Ok x, files, d) => (Ok (rollouts, x), files, d)
        end
      else (Ok (rollouts, (0, 0)), files, d)
  end.
End service.
