(* ===== verification/RolloutInvariant.v ===== *)
(** * Agent rollouts: what every operation keeps

    The invariant of the rollout tables: waves are never entered out of order and never
    empty, a target holds a nonce exactly while its lease stands, a node has one target
    in flight, and an attempt is open only while it is the current attempt of a target in
    flight. Then the operations one by one. *)

From S2P Require Import Prelude GoText GoNumber ReleaseVersion GoSha256 GoTable UpdateModel RolloutModel RolloutService RolloutRelease.

(** ** Transactions *)

Create HintDb rollout discriminated.

#[export] Hint Resolve reads_then reads_ret reads_fail reads_query reads_require reads_lift reads_when : rollout.
#[export] Hint Resolve preserves_then preserves_reads preserves_when preserves_exec preserves_each : rollout.

Ltac read_only := repeat first [apply reads_then; [|intros ?] | progress cases]; auto with rollout.

(** ** Operations that only read *)

Lemma rollout_val id d r d' : rollout id d = Ok (r, d') -> tb_rollouts d !! id = Some r /\ d' = d.
Proof. unfold rollout. intros (o & d1 & [-> ->]%query_val & [Ho ->]%require_val)%andThen_ok. done. Qed.
Lemma reads_rollout id : reads (rollout id).
Proof. by intros d r d' [_ ->]%rollout_val. Qed.
Lemma reads_authority actor recent t : reads (authority actor recent t).
Proof. unfold authority. read_only. Qed.
Lemma reads_agent identity : reads (agent identity).
Proof. unfold agent. read_only. Qed.
Lemma reads_keyAvailable id t : reads (keyAvailable id t).
Proof. unfold keyAvailable. read_only. Qed.
#[export] Hint Resolve reads_rollout reads_authority reads_agent reads_keyAvailable : rollout.
Lemma reads_trustedRevision s id t : reads (trustedRevision s id t).
Proof. unfold trustedRevision, keyRevision. read_only. Qed.
Lemma reads_signaturePolicyRevision s : reads (signaturePolicyRevision s).
Proof. unfold signaturePolicyRevision. destruct (sv_policy s) as [[[? ?] ?]|]; read_only. Qed.
#[export] Hint Resolve reads_trustedRevision reads_signaturePolicyRevision : rollout.
Lemma reads_requireTrustRevision s id n t : reads (requireTrustRevision s id n t).
Proof. unfold requireTrustRevision. read_only. Qed.
Lemma reads_requireSignaturePolicyRevision s p : reads (requireSignaturePolicyRevision s p).
Proof. unfold requireSignaturePolicyRevision. read_only. Qed.
#[export] Hint Resolve reads_requireTrustRevision reads_requireSignaturePolicyRevision : rollout.
Lemma reads_loadRelease id : reads (loadRelease id).
Proof. unfold loadRelease. read_only. Qed.
Lemma reads_releaseInTransaction `{Externals} s id t : reads (releaseInTransaction s id t).
Proof. unfold releaseInTransaction, availableRelease. pose proof (reads_loadRelease id). read_only. Qed.
Lemma reads_waveHealthy id r t : reads (waveHealthy id r t).
Proof. unfold waveHealthy. read_only. Qed.
Lemma reads_snapshotTargets input : reads (snapshotTargets input).
Proof. unfold snapshotTargets. read_only. Qed.
#[export] Hint Resolve reads_loadRelease reads_releaseInTransaction reads_waveHealthy reads_snapshotTargets : rollout.

(** ** The invariant *)

Abbreviation rollouts := (gmap string Rollout) (only parsing).
Abbreviation targets := (gmap string Target) (only parsing).
Abbreviation attempts := (gmap string Attempt) (only parsing).

(** A wave counter in range, started when active, at its end when completed; a release. *)
Definition rollout_ok {V} (releases : gmap string V) (r : Rollout) : Prop :=
  -1 <= ro_CurrentWave r < ro_TotalWaves r /\ (ro_State r = Active -> 0 <= ro_CurrentWave r) /\
  (ro_State r = Completed -> ro_CurrentWave r = ro_TotalWaves r - 1) /\ is_Some (releases !! ro_ReleaseID r) /\
  validPolicyConcurrency (ro_Policy r) = true /\ validPolicyHealth (ro_Policy r) = true /\
  (ro_Action r = AssignmentUpgrade \/ ro_Action r = AssignmentRollback).
Definition rollouts_ok {V} (releases : gmap string V) (rs : rollouts) : Prop := map_Forall (fun _ => rollout_ok releases) rs.

(** A nonce and an expiry come and go together, with an offer that was made; the node is
    the one the target was made for, while it exists. *)
Definition target_ok (t : Target) : Prop :=
  (is_Some (tg_nonce t) <-> is_Some (tg_expires t)) /\ (is_Some (tg_nonce t) -> in_flight t = true \/ settled (tg_State t) = true) /\
  (forall n, tg_node t = Some n -> n = tg_NodeID t).
(** Nothing was offered to the target. *)
Definition untouched (t : Target) : Prop := waiting t = true \/ tg_State t = TAborted.
Definition targets_ok (rs : rollouts) (ts : targets) : Prop := forall id t, ts !! id = Some t ->
  target_ok t /\ exists r, rs !! tg_rollout t = Some r /\ 0 <= tg_Wave t < ro_TotalWaves r /\ (ro_CurrentWave r < tg_Wave t -> untouched t).
Definition waves_ok (rs : rollouts) (ts : targets) : Prop := forall id r w, rs !! id = Some r -> 0 <= w < ro_TotalWaves r ->
  exists tid t, ts !! tid = Some t /\ tg_rollout t = id /\ tg_Wave t = w.
Definition one_in_flight (ts : targets) : Prop := forall id1 id2 t1 t2 n,
  ts !! id1 = Some t1 -> ts !! id2 = Some t2 -> in_flight t1 = true -> in_flight t2 = true -> tg_node t1 = Some n -> tg_node t2 = Some n -> id1 = id2.

Definition open (a : Attempt) : bool := match am_state a with AtOffered | AtObserving => true | _ => false end.
(** The attempt [k] is under way for the target. *)
Definition under_way (k : string) (t : Target) : Prop := tg_attempt t = k /\ in_flight t = true /\ is_Some (tg_nonce t).
Definition attempts_ok (ts : targets) (ats : attempts) : Prop :=
  (forall k a, ats !! k = Some a -> exists t, ts !! am_target a = Some t /\ (open a = true -> under_way k t)) /\
  (forall id t h, ts !! id = Some t -> tg_nonce t = Some h -> exists a, ats !! tg_attempt t = Some a /\ am_target a = id /\ am_nonce a = h).

Definition wf (d : Tables) : Prop :=
  rollouts_ok (tb_releases d) (tb_rollouts d) /\ targets_ok (tb_rollouts d) (tb_targets d) /\ waves_ok (tb_rollouts d) (tb_targets d) /\
  one_in_flight (tb_targets d) /\ attempts_ok (tb_targets d) (tb_attempts d).

(** What the invariant depends on, and the keys. *)
Definition core (d : Tables) := (tb_rollouts d, tb_targets d, tb_attempts d, tb_releases d, tb_trust d).
Definition logs {A} (m : tx A) : Prop := forall d a d', m d = Ok (a, d') -> core d' = core d.

Lemma wf_core d d' : core d' = core d -> wf d -> wf d'.
Proof. unfold core, wf. intros [= -> -> -> -> _]. done. Qed.

Lemma wf_releases f d : (forall k, is_Some (tb_releases d !! k) -> is_Some (f !! k)) -> wf d -> wf (set_releases f d).
Proof.
  intros Hf (Hr & Hrest). split; [|exact Hrest]. intros id r Hid. destruct (Hr id r Hid) as (? & ? & ? & ? & ?). repeat split; try done; try lia; naive_solver.
Qed.

(** *** Rollouts *)

Definition rollout_step {V} (releases : gmap string V) (r r' : Rollout) : Prop :=
  ro_TotalWaves r' = ro_TotalWaves r /\ ro_CurrentWave r <= ro_CurrentWave r' /\ rollout_ok releases r'.

Lemma wf_rollouts f rs' d : (forall id, rs' !! id = f id <$> tb_rollouts d !! id) ->
  (forall id r, tb_rollouts d !! id = Some r -> rollout_step (tb_releases d) r (f id r)) -> wf d -> wf (set_rollouts rs' d).
Proof.
  intros Hl Hf (Hr & Ht & Hw & Ho & Ha). refine (conj _ (conj _ (conj _ (conj Ho Ha)))); cbn.
  - intros id r' Hid. rewrite Hl in Hid. apply fmap_Some in Hid as (r & Hid & ->). by apply Hf.
  - intros id t Hid. destruct (Ht id t Hid) as (Hok & r & Hid' & Hwave & Hun). split; [done|]. exists (f (tg_rollout t) r). rewrite Hl, Hid'.
    destruct (Hf _ _ Hid') as (-> & Hcur & _). split_and!; [done|lia|lia|]. intros. apply Hun. lia.
  - intros id r' w Hid. rewrite Hl in Hid. apply fmap_Some in Hid as (r & Hid & ->). destruct (Hf _ _ Hid) as (-> & _ & _). eauto.
Qed.

Lemma lookup_alter_id `{Countable K} {V} (f : V -> V) k j (m : gmap K V) : alter f k m !! j = (if decide (j = k) then f else (fun v => v)) <$> m !! j.
Proof. destruct (decide (j = k)) as [->|Hne]; [apply lookup_alter_eq|]. rewrite lookup_alter_ne by done. by rewrite option_fmap_id. Qed.

Lemma rollout_step_refl {V} (rel : gmap string V) r : rollout_ok rel r -> rollout_step rel r r.
Proof. intros. split_and!; [done|lia|done]. Qed.

(** Pausing and aborting are always safe. *)
Lemma set_state_step {V} (rel : gmap string V) s reason t r : s = Paused \/ s = Aborted -> rollout_ok rel r -> rollout_step rel r (set_state s reason t r).
Proof. intros Hs (? & ? & ? & ? & ? & ?). refine (conj _ (conj _ (conj _ (conj _ (conj _ (conj _ _)))))); cbn; try done; try lia; destruct Hs as [-> | ->]; done. Qed.

Lemma wf_alter_rollout id g d : (forall r, tb_rollouts d !! id = Some r -> rollout_ok (tb_releases d) r -> rollout_step (tb_releases d) r (g r)) ->
  wf d -> wf (set_rollouts (alter g id (tb_rollouts d)) d).
Proof.
  intros Hg Hd. eapply (wf_rollouts (fun j => if decide (j = id) then g else (fun v => v))); [intros j; apply lookup_alter_id| |done]. intros j r Hj. pose proof Hd as (Hok & _). specialize (Hok j r Hj).
  case_decide as E; [subst; auto|]. by apply rollout_step_refl.
Qed.

Lemma wf_rollouts_where c s reason t d : s = Paused \/ s = Aborted -> wf d -> wf (set_rollouts (update_where c (set_state s reason t) (tb_rollouts d)) d).
Proof.
  intros Hs Hd. eapply (wf_rollouts (fun k v => if c k v then set_state s reason t v else v)); [intros id; apply (lookup_update_where c)| |done]. intros j r Hj. pose proof Hd as (Hok & _). specialize (Hok j r Hj).
  destruct (c j r); [by apply set_state_step|by apply rollout_step_refl].
Qed.

(** *** Targets *)

(** A target changes without a new offer: it stays where it is, loses what it loses. *)
Definition target_step (t t' : Target) : Prop :=
  tg_rollout t' = tg_rollout t /\ tg_Wave t' = tg_Wave t /\ target_ok t' /\ (untouched t -> untouched t') /\
  (in_flight t' = true -> in_flight t = true /\ (tg_node t' = tg_node t \/ tg_node t' = None)) /\
  (is_Some (tg_nonce t') -> tg_nonce t' = tg_nonce t /\ tg_attempt t' = tg_attempt t) /\
  (tg_State t' = TOffered -> tg_State t = TOffered /\ tg_attempt t' = tg_attempt t).

Lemma targets_map_ok rs ts f (ts' : targets) : (forall id, ts' !! id = f id <$> ts !! id) ->
  (forall id t, ts !! id = Some t -> target_step t (f id t)) ->
  targets_ok rs ts -> waves_ok rs ts -> one_in_flight ts -> targets_ok rs ts' /\ waves_ok rs ts' /\ one_in_flight ts'.
Proof.
  intros Hl Hf Ht Hw Ho. split_and!.
  - intros id t' Hid. rewrite Hl in Hid. apply fmap_Some in Hid as (t & Hid & ->). destruct (Ht id t Hid) as (Hok & r & Hr & Hwave & Hun).
    destruct (Hf _ _ Hid) as (-> & -> & Hok' & Hun' & _). split; [done|]. exists r. auto.
  - intros id r w Hid Hrange. destruct (Hw id r w Hid Hrange) as (tid & t & Htid & Hro & Hwave). exists tid, (f tid t). rewrite Hl, Htid.
    destruct (Hf _ _ Htid) as (-> & -> & _). done.
  - intros id1 id2 t1' t2' n H1 H2 Hf1 Hf2 Hn1 Hn2. rewrite Hl in H1, H2. apply fmap_Some in H1 as (t1 & H1 & ->). apply fmap_Some in H2 as (t2 & H2 & ->).
    destruct (Hf _ _ H1) as (_ & _ & _ & _ & Hb1 & _). destruct (Hf _ _ H2) as (_ & _ & _ & _ & Hb2 & _).
    destruct (Hb1 Hf1) as (? & [E1|E1]); [|congruence]. destruct (Hb2 Hf2) as (? & [E2|E2]); [|congruence].
    apply (Ho id1 id2 t1 t2 n); congruence.
Qed.

(** Targets under way stay so. *)
Lemma wf_targets f ts' d : (forall id, ts' !! id = f id <$> tb_targets d !! id) ->
  (forall id t, tb_targets d !! id = Some t -> target_step t (f id t)) ->
  (forall k a t, tb_attempts d !! k = Some a -> open a = true -> tb_targets d !! am_target a = Some t -> under_way k t -> under_way k (f (am_target a) t)) ->
  wf d -> wf (set_targets ts' d).
Proof.
  intros Hl Hf Hu (Hr & Ht & Hw & Ho & (Ha & Hb)). destruct (targets_map_ok _ _ _ _ Hl Hf Ht Hw Ho) as (Ht' & Hw' & Ho').
  refine (conj Hr (conj Ht' (conj Hw' (conj Ho' (conj _ _))))); cbn.
  - intros k a Hk. destruct (Ha k a Hk) as (t & Hta & Hopen). exists (f (am_target a) t). rewrite Hl, Hta. split; [done|]. intros Hop. eauto.
  - intros id t' h Hid Hn. rewrite Hl in Hid. apply fmap_Some in Hid as (t & Hid & ->). destruct (Hf _ _ Hid) as (_ & _ & _ & _ & _ & Hnon & _).
    destruct Hnon as (E1 & E2); [by rewrite Hn|]. rewrite E2. apply Hb; [done|]. congruence.
Qed.

(** The unique index, as a fact. *)
Lemma second_in_flight_ok ts id t d : ts = tb_targets d -> one_in_flight ts -> second_in_flight id t d = false -> one_in_flight (<[id := t]> ts).
Proof.
  intros -> Ho Hs. assert (forall id' t', tb_targets d !! id' = Some t' -> in_flight t = true -> in_flight t' = true -> is_Some (tg_node t) -> tg_node t' = tg_node t -> id' = id) as Hx.
  { intros id' t' Hid' Hf Hf' Hn He. destruct (decide (id' = id)); [done|]. unfold second_in_flight in Hs. rewrite Hf, bool_decide_true in Hs by done.
    cbn [andb] in Hs. pose proof (exists_where_false _ _ id' t' Hs Hid') as Hc. cbv beta in Hc. rewrite Hf', (bool_decide_true _ He), !andb_true_r in Hc.
    by apply negb_false_iff, String.eqb_eq in Hc. }
  intros id1 id2 t1 t2 n H1 H2 Hf1 Hf2 Hn1 Hn2.
  apply lookup_insert_Some in H1 as [[<- <-]|[Hne1 H1]]; apply lookup_insert_Some in H2 as [[<- <-]|[Hne2 H2]]; [done| | |by eapply Ho].
  - symmetry. eapply Hx; [exact H2|done|done|eauto|congruence].
  - eapply Hx; [exact H1|done|done|eauto|congruence].
Qed.

(** One target moves with its attempt: an offer, a report, the end of a lease. *)
Lemma wf_move id t t' k a' d : tb_targets d !! id = Some t ->
  tg_rollout t' = tg_rollout t -> tg_Wave t' = tg_Wave t -> target_ok t' ->
  (forall r, tb_rollouts d !! tg_rollout t = Some r -> ro_CurrentWave r < tg_Wave t -> untouched t -> untouched t') ->
  one_in_flight (<[id := t']> (tb_targets d)) ->
  am_target a' = id -> (forall a, tb_attempts d !! k = Some a -> am_target a = id) ->
  tg_attempt t = k \/ in_flight t = false -> (open a' = true -> under_way k t') ->
  (forall h, tg_nonce t' = Some h -> tg_attempt t' = k /\ am_nonce a' = h) ->
  wf d -> wf (set_attempts (<[k := a']> (tb_attempts d)) (set_targets (<[id := t']> (tb_targets d)) d)).
Proof.
  intros Hid Hro Hwa Hok Hun Hone Ham Hold Hcur Hopen Hnonce (Hr & Ht & Hw & Ho & (Ha & Hb)).
  refine (conj Hr (conj _ (conj _ (conj Hone (conj _ _))))); cbn.
  - intros j x [[<- <-]|[Hne Hj]]%lookup_insert_Some; [|exact (Ht j x Hj)]. destruct (Ht id t Hid) as (_ & r & Hr' & Hrange & Hu).
    split; [done|]. exists r. rewrite Hro, Hwa. split_and!; [done|lia|lia|]. eauto.
  - intros i r w Hi Hrange. destruct (Hw i r w Hi Hrange) as (tid & x & Hx & Hxr & Hxw). destruct (decide (tid = id)) as [->|Hne].
    + exists id, t'. rewrite lookup_insert_eq. assert (x = t) as -> by congruence. by rewrite Hro, Hwa.
    + exists tid, x. by rewrite lookup_insert_ne.
  - intros j a [[<- <-]|[Hne Hj]]%lookup_insert_Some; [exists t'; rewrite Ham, lookup_insert_eq; done|].
    destruct (Ha j a Hj) as (x & Hx & Hxo). destruct (decide (am_target a = id)) as [E|E]; [|exists x; by rewrite lookup_insert_ne].
    exists t'. rewrite E, lookup_insert_eq. split; [done|]. intros Hop. exfalso. assert (x = t) as -> by congruence.
    destruct (Hxo Hop) as (? & ? & _). destruct Hcur; congruence.
  - intros j x h [[<- <-]|[Hne Hj]]%lookup_insert_Some Hn.
    + destruct (Hnonce h Hn) as (-> & <-). exists a'. by rewrite lookup_insert_eq.
    + destruct (Hb j x h Hj Hn) as (a & Hx & Hxt & Hxn). exists a. rewrite lookup_insert_ne; [done|]. intros E. rewrite <- E in Hx. by rewrite (Hold a Hx) in Hxt.
Qed.

(** ** What most operations leave alone

    Relative to the tables [d0] an operation started with: no wave counter moved, no
    rollout became active or completed, nothing was offered, and no revoked key came back. *)

Definition calm_rollout (r0 r : Rollout) : Prop :=
  ro_CurrentWave r = ro_CurrentWave r0 /\ (ro_State r = Active -> ro_State r0 = Active) /\ (ro_State r = Completed -> ro_State r0 = Completed).
Definition dormant (r : Rollout) : Prop := ro_CurrentWave r = -1 /\ ro_State r <> Active /\ ro_State r <> Completed.
Definition calm_rollouts (rs0 rs : rollouts) : Prop := forall id r, rs !! id = Some r ->
  match rs0 !! id with Some r0 => calm_rollout r0 r | None => dormant r end.
Definition calm_targets (ts0 ts : targets) : Prop := forall id t, ts !! id = Some t -> tg_State t = TOffered ->
  exists t0, ts0 !! id = Some t0 /\ tg_State t0 = TOffered /\ tg_attempt t = tg_attempt t0.
(** No key that was revoked is trusted again. *)
Definition calm_trust (tr0 tr : gmap string TrustRow) : Prop := forall k row, tr0 !! k = Some row -> is_Some (tk_revoked row) ->
  exists row', tr !! k = Some row' /\ is_Some (tk_revoked row').
Definition calm (d0 d : Tables) : Prop :=
  calm_rollouts (tb_rollouts d0) (tb_rollouts d) /\ calm_targets (tb_targets d0) (tb_targets d) /\ calm_trust (tb_trust d0) (tb_trust d).
Definition inv (d0 d : Tables) : Prop := wf d /\ calm d0 d.

Lemma calm_refl d : calm d d.
Proof. split; [intros id r Hr; by rewrite Hr|split; [intros id t; eauto|intros k row; eauto]]. Qed.

Lemma calm_rollouts_map f rs0 rs (rs' : rollouts) : (forall id, rs' !! id = f id <$> rs !! id) ->
  (forall id r, rs !! id = Some r -> calm_rollout r (f id r)) -> calm_rollouts rs0 rs -> calm_rollouts rs0 rs'.
Proof.
  intros Hl Hf Hc id r' H1. rewrite Hl in H1. apply fmap_Some in H1 as (r & H1 & ->). specialize (Hc id r H1). destruct (Hf id r H1) as (? & ? & ?).
  destruct (rs0 !! id) as [r0|]; destruct Hc as (? & ? & ?); (split_and!; [congruence|auto|auto]).
Qed.

Lemma calm_targets_map f ts0 ts (ts' : targets) : (forall id, ts' !! id = f id <$> ts !! id) ->
  (forall id t, ts !! id = Some t -> target_step t (f id t)) -> calm_targets ts0 ts -> calm_targets ts0 ts'.
Proof.
  intros Hl Hf Hc id t' H1 Hs. rewrite Hl in H1. apply fmap_Some in H1 as (t & H1 & ->). destruct (Hf id t H1) as (_ & _ & _ & _ & _ & _ & Ho).
  destruct (Ho Hs) as (Ho1 & Ho2). destruct (Hc id t H1 Ho1) as (t0 & ? & ? & ?). exists t0. split_and!; [done|done|congruence].
Qed.

Lemma inv_core d0 d d' : core d' = core d -> inv d0 d -> inv d0 d'.
Proof. intros E [Hw Hc]. split; [by eapply wf_core|]. unfold core in E. injection E as E1 E2 _ _ E3. unfold calm. by rewrite E1, E2, E3. Qed.

Lemma inv_rollouts f d0 rs' d : (forall id, rs' !! id = f id <$> tb_rollouts d !! id) ->
  (forall id r, tb_rollouts d !! id = Some r -> rollout_ok (tb_releases d) r -> rollout_step (tb_releases d) r (f id r) /\ calm_rollout r (f id r)) ->
  inv d0 d -> inv d0 (set_rollouts rs' d).
Proof.
  intros Hl Hf [Hw [Hr Ht]]. pose proof Hw as (Hok & _). split; [eapply wf_rollouts; [exact Hl| |done]; intros; by eapply Hf; [|eapply Hok]|].
  split; [|exact Ht]. eapply calm_rollouts_map; [exact Hl| |done]. intros. by eapply Hf; [|eapply Hok].
Qed.

Lemma inv_targets f d0 ts' d : (forall id, ts' !! id = f id <$> tb_targets d !! id) ->
  (forall id t, tb_targets d !! id = Some t -> target_ok t -> target_step t (f id t)) ->
  (forall k a t, tb_attempts d !! k = Some a -> open a = true -> tb_targets d !! am_target a = Some t -> under_way k t -> under_way k (f (am_target a) t)) ->
  inv d0 d -> inv d0 (set_targets ts' d).
Proof.
  intros Hl Hf Hu [Hw [Hr Ht]]. pose proof Hw as (_ & Hok & _).
  assert (forall id t, tb_targets d !! id = Some t -> target_step t (f id t)) as Hf' by (intros; eapply Hf; [done|by eapply Hok]).
  split; [by eapply wf_targets|]. split; [exact Hr|]. destruct Ht as [Ht Htr]. split; [by eapply calm_targets_map|exact Htr].
Qed.

(** Rollouts that are stopped. *)
Lemma stop_step {V} (rel : gmap string V) s reason t r : s = Paused \/ s = Aborted -> rollout_ok rel r ->
  rollout_step rel r (set_state s reason t r) /\ calm_rollout r (set_state s reason t r).
Proof. intros Hs Hr. split; [by apply set_state_step|]. split; [done|]. cbn. split; by destruct Hs as [-> | ->]. Qed.

Lemma inv_stop_where c s reason t d0 d : s = Paused \/ s = Aborted -> inv d0 d -> inv d0 (set_rollouts (update_where c (set_state s reason t) (tb_rollouts d)) d).
Proof.
  intros Hs. eapply (inv_rollouts (fun k v => if c k v then set_state s reason t v else v)); [intros; apply (lookup_update_where c)|]. intros id r Hid Hok.
  destruct (c id r); [by apply stop_step|]. split; [by apply rollout_step_refl|done].
Qed.

Lemma inv_alter_rollout id g d0 d :
  (forall r, tb_rollouts d !! id = Some r -> rollout_ok (tb_releases d) r -> rollout_step (tb_releases d) r (g r) /\ calm_rollout r (g r)) ->
  inv d0 d -> inv d0 (set_rollouts (alter g id (tb_rollouts d)) d).
Proof.
  intros Hg. eapply (inv_rollouts (fun j => if decide (j = id) then g else (fun v => v))); [intros j; apply lookup_alter_id|]. intros j r Hj Hok.
  case_decide as E; [subst; auto|]. split; [by apply rollout_step_refl|done].
Qed.

(** *** The logs *)

Lemma logs_then {A B} (m : tx A) (k : A -> tx B) : logs m -> (forall a, logs (k a)) -> logs (andThen m k).
Proof. intros Hm Hk d b d' (a & d1 & H1%Hm & H2%Hk)%andThen_ok. congruence. Qed.
Lemma logs_reads {A} (m : tx A) : reads m -> logs m.
Proof. by intros Hm d a d' ->%Hm. Qed.
Lemma logs_audit cx action kind id reason n : logs (audit cx action kind id reason n).
Proof. by intros d a d' ->%exec_val. Qed.
Lemma logs_event cx action id reason : logs (event cx action id reason).
Proof. apply logs_then; [|intros; apply logs_audit]. by intros d a d' ->%exec_val. Qed.
Lemma logs_targetEvent cx id kind reason : logs (targetEvent cx id kind reason).
Proof. unfold targetEvent. repeat (apply logs_then; [apply logs_reads; auto with rollout|intros ?]). by intros d x d' ->%exec_val. Qed.
Lemma logs_when b m : logs m -> logs (when b m).
Proof. destruct b; [done|]. intros _. apply logs_reads, reads_ret. Qed.
Lemma preserves_logs {A} d0 (m : tx A) : logs m -> preserves (inv d0) m.
Proof. intros Hm d a d' Hd H%Hm. by eapply inv_core. Qed.
#[export] Hint Resolve logs_then logs_audit logs_event logs_targetEvent logs_when preserves_logs : rollout.

(** *** Single targets *)

Lemma update_target_val id c f d b d' : update_target id c f d = Ok (b, d') ->
  (b = true /\ exists t, tb_targets d !! id = Some t /\ c t = true /\ second_in_flight id (f t) d = false /\
                         d' = set_targets (<[id := f t]> (tb_targets d)) d) \/
  (b = false /\ d' = d /\ forall t, tb_targets d !! id = Some t -> c t = false).
Proof.
  unfold update_target. destruct (tb_targets d !! id) as [t|] eqn:E; [|intros [= <- <-]; right; naive_solver]. destruct (c t) eqn:Ec; [|intros [= <- <-]; right; naive_solver].
  destruct (second_in_flight id (f t) d) eqn:Es; [done|]. intros [= <- <-]. left. split; [done|]. by exists t.
Qed.

Lemma lookup_insert_map `{Countable K} {V} (f : V -> V) k v (m : gmap K V) j : m !! k = Some v ->
  <[k := f v]> m !! j = (if decide (j = k) then f else (fun v => v)) <$> m !! j.
Proof.
  intros Hk. case_decide as E; [subst; by rewrite lookup_insert_eq, Hk|]. rewrite lookup_insert_ne by done. by rewrite option_fmap_id.
Qed.

Lemma target_step_refl t : target_ok t -> target_step t t.
Proof. intros. unfold target_step. split_and!; tauto. Qed.

(** A target that waits and goes on waiting, or is aborted, for some reason. *)
Lemma waiting_step st reason at_ t : st = THeld \/ st = TAborted -> waiting t = true -> target_ok t ->
  target_step t (set_target st reason (tg_attempt t) (tg_artifact t) (tg_nonce t) (tg_expires t) (tg_since t) (tg_report t) at_ t).
Proof.
  intros Hst Hw (Hn & Hs & Hnode). assert (tg_nonce t = None) as E.
  { destruct (tg_nonce t) eqn:E; [|done]. destruct Hs as [Hs|Hs]; [done| |]; unfold waiting, in_flight, settled in *; destruct (tg_State t); done. }
  assert (tg_expires t = None) as E' by (destruct (tg_expires t); [|done]; destruct Hn as [_ Hn]; rewrite E in Hn; destruct Hn; done).
  unfold target_step, target_ok, untouched, in_flight, waiting. cbn. rewrite E, E'.
  destruct Hst as [-> | ->]; (split_and!; try done; try (left; done); try (right; done); intros [? [=]]).
Qed.

Lemma inv_set_target f id t d0 d : tb_targets d !! id = Some t -> (target_ok t -> target_step t (f t)) ->
  (forall k, under_way k t -> under_way k (f t)) -> inv d0 d -> inv d0 (set_targets (<[id := f t]> (tb_targets d)) d).
Proof.
  intros Hid Hf Hu. eapply (inv_targets (fun j => if decide (j = id) then f else (fun v => v))); [intros j; by apply lookup_insert_map| |].
  - intros j x Hj Hok. case_decide as E; [|by apply target_step_refl]. subst j. assert (x = t) as -> by congruence. auto.
  - intros k a x Hk Hop Hx Hux. case_decide as E; [|done]. rewrite E in Hx. assert (x = t) as -> by congruence. auto.
Qed.

Lemma waiting_not_under_way k t : waiting t = true -> under_way k t -> False.
Proof. intros Hw (_ & Hf & _). unfold waiting, in_flight in *. by destruct (tg_State t). Qed.

Lemma update_waiting_inv st reason at_ id c d0 : st = THeld \/ st = TAborted -> (forall t, c t = true -> waiting t = true) ->
  preserves (inv d0) (update_target id c (fun t => set_target st reason (tg_attempt t) (tg_artifact t) (tg_nonce t) (tg_expires t) (tg_since t) (tg_report t) at_ t)).
Proof.
  intros Hst Hc d b d' Hd [(-> & t & Hid & Ht & _ & ->)|(-> & -> & _)]%update_target_val; [|done].
  eapply (inv_set_target (fun t => set_target st reason (tg_attempt t) (tg_artifact t) (tg_nonce t) (tg_expires t) (tg_since t) (tg_report t) at_ t)); [done| | |done].
  - apply waiting_step; auto.
  - intros k []%waiting_not_under_way. auto.
Qed.

Lemma hold_inv cx id reason d0 : preserves (inv d0) (hold cx id reason).
Proof.
  unfold hold. apply preserves_then; [|intros; auto with rollout]. apply update_waiting_inv; [auto|]. by intros t [? _]%andb_prop.
Qed.
#[export] Hint Resolve hold_inv : rollout.

(** ** Operators *)

Lemma transact_preserves {A} (P : Tables -> Prop) commit (m : tx A) d : preserves P m -> P d -> P (transact commit m d).2.
Proof. intros Hm Hd. unfold transact. destruct (m d) as [[a d']|e] eqn:E; [|done]. destruct commit; [|done]. by eapply Hm. Qed.

Lemma mutate_preserves {A} (P : Tables -> Prop) s commit t0 t1 actor (action : context -> tx A) d :
  (forall cx, preserves P (action cx)) -> P d -> P (mutate s commit t0 t1 actor action d).2.
Proof.
  intros Ha Hd. unfold mutate. destruct (negb (sv_enabled s)); [done|]. apply transact_preserves; [|done].
  apply preserves_then; [auto with rollout|]. intros u. apply preserves_then; [apply Ha|]. intros a. auto with rollout.
Qed.

Lemma mutateSystem_preserves {A} (P : Tables -> Prop) s commit t0 (action : context -> tx A) d :
  (forall cx, preserves P (action cx)) -> P d -> P (mutateSystem s commit t0 action d).2.
Proof. intros Ha Hd. unfold mutateSystem. destruct (negb (sv_enabled s)); [done|]. by apply transact_preserves. Qed.

Lemma agentMutation_preserves {A} (P : Tables -> Prop) s commit t0 identity (action : context -> NodeRow -> tx A) d :
  (forall cx n, preserves P (action cx n)) -> P d -> P (agentMutation s commit t0 identity action d).2.
Proof.
  intros Ha Hd. unfold agentMutation. destruct (negb (sv_enabled s)); [done|]. apply transact_preserves; [|done].
  apply preserves_then; [auto with rollout|]. intros n. apply preserves_then; [apply Ha|]. intros a. auto with rollout.
Qed.

(** Descend into a transaction up to its statements. *)
Ltac statements := repeat first [apply hold_inv | apply preserves_then; [|intros ?] | progress cases | progress cbv zeta]; auto with rollout.

Lemma inv_abort_targets id at_ d0 d : inv d0 d -> inv d0 (abort_targets id at_ d).
Proof.
  unfold abort_targets. set (f t := set_target _ _ _ _ _ _ _ _ _ t).
  eapply (inv_targets (fun j t => if (tg_rollout t =s id) && waiting t then f t else t)); [intros; apply (lookup_update_where (fun _ t => (tg_rollout t =s id) && waiting t))| |].
  - intros j t Hj Hok. destruct (_ && _) eqn:E; [|by apply target_step_refl]. apply andb_prop in E as [_ E]. apply waiting_step; auto.
  - intros k a t Hk Hop Ht Hu. destruct (_ && _) eqn:E; [|done]. apply andb_prop in E as [_ E]. by destruct (waiting_not_under_way k t).
Qed.

Lemma control_inv s commit t0 t1 actor id st action reason d0 d : st = Paused \/ st = Aborted ->
  inv d0 d -> inv d0 (control s commit t0 t1 actor id st action reason d).2.
Proof.
  intros Hst. apply mutate_preserves. intros cx. statements.
  - apply preserves_exec. intros d1. apply inv_alter_rollout. intros r _. by apply stop_step.
  - apply preserves_when, preserves_exec. intros d1. apply inv_abort_targets.
Qed.
