(* ===== verification/RolloutSteps.v ===== *)
(** * Agent rollouts: the operations keep the invariant

    Every operation of the service, from its start to its commit, keeps the invariant of
    [RolloutInvariant]; all but promoting, resuming and leasing leave the waves where they
    are, wake no rollout and offer nothing. *)

From S2P Require Import Prelude GoText GoNumber ReleaseVersion GoSha256 GoTable UpdateModel RolloutModel RolloutService RolloutRelease RolloutInvariant.

(** ** Committed transactions *)

Lemma committed {A} commit (m : tx A) d r d' : RolloutModel.transact commit m d = (r, d') ->
  ((exists e, r = Err e) /\ d' = d) \/ exists a, r = Ok a /\ m d = Ok (a, d').
Proof. unfold RolloutModel.transact. destruct (m d) as [[a d1]|e]; [destruct commit|]; intros [= <- <-]; eauto. Qed.

Lemma mutate_val {A} s commit t0 t1 actor (action : context -> tx A) d r d' : mutate s commit t0 t1 actor action d = (r, d') ->
  ((exists e, r = Err e) /\ d' = d) \/
  exists a user, r = Ok a /\ authority actor true t0 d = Ok (user, d) /\ action (mkContext t0 user) d = Ok (a, d') /\ sv_enabled s = true.
Proof.
  unfold mutate. destruct (sv_enabled s); [|intros [= <- <-]; eauto]. cbn [negb]. intros [H|(a & -> & H)]%committed; [by left|]. right.
  apply andThen_ok in H as (user & d1 & H1 & H). pose proof (reads_authority _ _ _ _ _ _ H1) as ->. apply andThen_ok in H as (b & d1 & H2 & H).
  apply andThen_ok in H as (u & d2 & H3%reads_authority & [-> ->]%ret_ok). subst. eauto 10.
Qed.

Lemma agentMutation_val {A} s commit t0 identity (action : context -> NodeRow -> tx A) d r d' : agentMutation s commit t0 identity action d = (r, d') ->
  ((exists e, r = Err e) /\ d' = d) \/
  exists a n, r = Ok a /\ agent identity d = Ok (n, d) /\ action (mkContext t0 "agent") n d = Ok (a, d') /\ sv_enabled s = true.
Proof.
  unfold agentMutation. destruct (sv_enabled s); [|intros [= <- <-]; eauto]. cbn [negb]. intros [H|(a & -> & H)]%committed; [by left|]. right.
  apply andThen_ok in H as (n & d1 & H1 & H). pose proof (reads_agent _ _ _ _ H1) as ->. apply andThen_ok in H as (b & d1 & H2 & H).
  apply andThen_ok in H as (u & d2 & H3%reads_agent & [-> ->]%ret_ok). subst. eauto 10.
Qed.

(** ** control.go *)

(** The guard of a promotion, in the tables it starts from. *)
Definition may_promote `{Externals} (s : Service) (t0 : Time) (id : string) (r : Rollout) (d : Tables) : Prop :=
  promotable r = true /\ (exists release, releaseInTransaction s (ro_ReleaseID r) t0 d = Ok (release, d)) /\
  (0 <= ro_CurrentWave r -> waveHealthy id r t0 d = Ok (tt, d)).
Definition promoted (t0 : Time) (r : Rollout) : Rollout :=
  if ro_CurrentWave r + 1 >=? ro_TotalWaves r then set_state Completed "" t0 r else set_wave (ro_CurrentWave r + 1) (set_state Active "" t0 r).

Lemma Promote_val `{Externals} s commit t0 t1 actor id d res d' : Promote s commit t0 t1 actor id d = (res, d') ->
  ((exists e, res = Err e) /\ d' = d) \/
  exists r, tb_rollouts d !! id = Some r /\ (res = Ok tt /\ exists user, authority actor true t0 d = Ok (user, d)) /\ may_promote s t0 id r d /\
    core d' = core (set_rollouts (<[id := promoted t0 r]> (tb_rollouts d)) d).
Proof.
  intros [Hd|([] & user & -> & Hau & Hx & _)]%mutate_val; [by left|]. right. apply andThen_ok in Hx as (r & d1 & [Hr ->]%rollout_val & Hx).
  exists r. split; [done|]. split; [eauto|]. destruct (promotable r) eqn:Ep; [|done]. cbn [negb] in Hx.
  apply andThen_ok in Hx as (release & d1 & Hrel & Hx). pose proof (reads_releaseInTransaction _ _ _ _ _ _ Hrel) as ->.
  apply andThen_ok in Hx as ([] & d1 & Hh & Hx). assert (d1 = d) as ->.
  { destruct (ro_CurrentWave r >=? 0); cbn [when] in Hh; [by apply reads_waveHealthy in Hh|by apply ret_ok in Hh as [_ ->]]. }
  split.
  { split; [done|]. split; [eauto|]. intros Hc. by rewrite Z.geb_leb, (proj2 (Z.leb_le 0 _) Hc) in Hh. }
  apply andThen_ok in Hx as ([] & d1 & Hu & Hlog%logs_event). rewrite Hlog. unfold promoted.
  destruct (_ >=? _); apply exec_val in Hu as ->; unfold core; cbn; do 4 f_equal; apply map_eq; intros j; rewrite lookup_alter_id;
    (case_decide as E; [subst; by rewrite Hr, lookup_insert_eq|by rewrite lookup_insert_ne, option_fmap_id]).
Qed.

Lemma promoted_ok {V} (rel : gmap string V) t0 r : rollout_ok rel r -> rollout_step rel r (promoted t0 r).
Proof.
  intros (? & ? & ? & ? & ? & ?). unfold promoted, rollout_step, rollout_ok. rewrite Z.geb_leb.
  destruct (ro_TotalWaves r <=? ro_CurrentWave r + 1) eqn:E; cbn; [apply Z.leb_le in E|apply Z.leb_gt in E]; split_and!; try done; try lia; try tauto.
Qed.

Lemma Promote_wf `{Externals} s commit t0 t1 actor id d : wf d ->
  wf (Promote s commit t0 t1 actor id d).2 /\ calm_targets (tb_targets d) (tb_targets (Promote s commit t0 t1 actor id d).2).
Proof.
  intros Hd. destruct (Promote s commit t0 t1 actor id d) as [res d'] eqn:E. apply Promote_val in E as [[_ ->]|(r & Hr & _ & _ & E)]; cbn;
    [split; [done|apply calm_refl]|]. split.
  - eapply wf_core; [exact E|]. eapply (wf_rollouts (fun j => if decide (j = id) then promoted t0 else (fun v => v))); [intros j; by apply lookup_insert_map| |done].
    intros j r' Hj. pose proof Hd as (Hok & _). specialize (Hok _ _ Hj). case_decide; [by apply promoted_ok|by apply rollout_step_refl].
  - unfold core in E. injection E as _ E _ _ _. rewrite E. cbn. apply calm_refl.
Qed.

Lemma Resume_val `{Externals} s commit t0 t1 actor id ack d res d' : Resume s commit t0 t1 actor id ack d = (res, d') ->
  ((exists e, res = Err e) /\ d' = d) \/
  exists r, tb_rollouts d !! id = Some r /\ ro_State r = Paused /\ 0 <= ro_CurrentWave r /\ (ro_Reason r = "operator_pause" \/ ack = true) /\
    (exists release, releaseInTransaction s (ro_ReleaseID r) t0 d = Ok (release, d)) /\
    core d' = core (set_rollouts (<[id := set_state Active "" t0 r]> (tb_rollouts d)) d).
Proof.
  intros [Hd|(a & user & -> & _ & Hx & _)]%mutate_val; [by left|]. right. apply andThen_ok in Hx as (r & d1 & [Hr ->]%rollout_val & Hx).
  exists r. split; [done|]. destruct (negb (bool_decide (ro_State r = Paused)) || _) eqn:E1; [done|]. apply orb_false_iff in E1 as [E1 E2].
  destruct (_ && negb ack) eqn:E3; [done|]. apply negb_false_iff, bool_decide_eq_true in E1. apply Z.ltb_ge in E2.
  apply andThen_ok in Hx as (release & d1 & Hrel & Hx). pose proof (reads_releaseInTransaction _ _ _ _ _ _ Hrel) as ->.
  split_and!; [done|done| |eauto|].
  { apply andb_false_iff in E3 as [E3%negb_false_iff|E3%negb_false_iff]; [left; by apply String.eqb_eq|by right]. }
  apply andThen_ok in Hx as ([] & d1 & ->%exec_val & Hlog%logs_event). rewrite Hlog. unfold core; cbn. do 4 f_equal. apply map_eq. intros j.
  rewrite lookup_alter_id. case_decide as E; [subst; by rewrite Hr, lookup_insert_eq|by rewrite lookup_insert_ne, option_fmap_id].
Qed.

Lemma Resume_wf `{Externals} s commit t0 t1 actor id ack d : wf d -> wf (Resume s commit t0 t1 actor id ack d).2.
Proof.
  intros Hd. destruct (Resume s commit t0 t1 actor id ack d) as [res d'] eqn:E. apply Resume_val in E as [[_ ->]|(r & Hr & Hs & Hc & _ & _ & E)]; [done|]. cbn.
  eapply wf_core; [exact E|]. eapply (wf_rollouts (fun j => if decide (j = id) then set_state Active "" t0 else (fun v => v))); [intros j; by apply lookup_insert_map| |done].
  intros j r' Hj. pose proof Hd as (Hok & _). specialize (Hok _ _ Hj). case_decide as E'; [|by apply rollout_step_refl]. subst j. assert (r' = r) as -> by congruence.
  destruct Hok as (? & ? & ? & ? & ? & ?). unfold rollout_step, rollout_ok. cbn. split_and!; try done; try lia; try tauto.
Qed.

(** ** Create *)

Lemma wave_range p i n : 1 <= po_CanaryCount p -> 1 <= po_WaveSize p -> 0 <= i < n -> 0 <= wave_of p i < total_waves p n.
Proof.
  intros Hc Hs Hi. unfold wave_of, total_waves. rewrite Z.geb_leb, Z.gtb_ltb.
  destruct (po_CanaryCount p <=? i) eqn:E1; [apply Z.leb_le in E1|apply Z.leb_gt in E1].
  - rewrite (proj2 (Z.ltb_lt _ _)) by lia. rewrite !Z.quot_div_nonneg by lia.
    pose proof (Z.div_pos (i - po_CanaryCount p) (po_WaveSize p)).
    assert ((i - po_CanaryCount p) / po_WaveSize p + 1 <= (n - po_CanaryCount p + po_WaveSize p - 1) / po_WaveSize p); [|lia].
    rewrite <- Z.div_add by lia. apply Z.div_le_mono; lia.
  - destruct (po_CanaryCount p <? n) eqn:E2; [|lia]. apply Z.ltb_lt in E2. rewrite Z.quot_div_nonneg by lia.
    pose proof (Z.div_pos (n - po_CanaryCount p + po_WaveSize p - 1) (po_WaveSize p)). lia.
Qed.

(** The first target of a wave. *)
Definition wave_start (p : Policy) (w : Z) : Z := if w =? 0 then 0 else po_CanaryCount p + (w - 1) * po_WaveSize p.

Lemma wave_start_ok p w n : 1 <= po_CanaryCount p -> 1 <= po_WaveSize p -> 1 <= n -> 0 <= w < total_waves p n ->
  0 <= wave_start p w < n /\ wave_of p (wave_start p w) = w.
Proof.
  intros Hc Hs Hn Hw. unfold total_waves, wave_of, wave_start in *. rewrite Z.gtb_ltb in Hw. destruct (w =? 0) eqn:E0.
  - apply Z.eqb_eq in E0 as ->. rewrite Z.geb_leb, (proj2 (Z.leb_gt _ _)) by lia. lia.
  - apply Z.eqb_neq in E0. destruct (po_CanaryCount p <? n) eqn:E; [|lia]. apply Z.ltb_lt in E. rewrite Z.quot_div_nonneg in Hw by lia.
    rewrite Z.geb_leb, (proj2 (Z.leb_le _ _)) by nia. replace (_ + _ - _) with ((w - 1) * po_WaveSize p) by lia. rewrite Z.quot_mul by lia.
    assert (po_WaveSize p * ((n - po_CanaryCount p + po_WaveSize p - 1) / po_WaveSize p) <= n - po_CanaryCount p + po_WaveSize p - 1) by (apply Z.mul_div_le; lia).
    split; [nia|lia].
Qed.

Definition new_target (cx : context) (rid : string) (p : Policy) (index : nat) (x : string * NodeRow) : Target :=
  mkTarget rid (Some x.1) x.1 (nd_name x.2) (nd_version x.2) (nd_os x.2) (nd_arch x.2) (wave_of p (Z.of_nat index)) TPending "" "" "" None None None None (cx_at cx).

Lemma insertTargets_val fresh cx rid p i l d u d' : insertTargets fresh cx rid p i l d = Ok (u, d') ->
  (exists ts, d' = set_targets ts d) /\ tb_targets d ⊆ tb_targets d' /\
  (forall j x, l !! j = Some x -> tb_targets d' !! fresh (i + j)%nat = Some (new_target cx rid p (i + j) x)) /\
  (forall id t, tb_targets d' !! id = Some t -> tb_targets d !! id = Some t \/
     exists j x, l !! j = Some x /\ id = fresh (i + j)%nat /\ t = new_target cx rid p (i + j) x).
Proof.
  revert i d. induction l as [|[node n] l IH]; intros i d; cbn.
  { intros [_ ->]%ret_ok. split_and!; [exists (tb_targets d); by destruct d|done|done|]. by left. }
  intros (u1 & d1 & H1 & H2)%andThen_ok. unfold insert_target in H1. destruct (tb_targets d !! fresh i) eqn:E; [done|]. injection H1 as _ <-.
  apply IH in H2 as ((ts & Hd) & Hsub & Hnew & Hall). clear IH. cbn [tb_targets set_targets] in Hsub, Hall. split_and!.
  - rewrite Hd. exists ts. done.
  - etransitivity; [|exact Hsub]. by apply insert_subseteq.
  - intros [|j] x; cbn.
    + intros [= <-]. rewrite Nat.add_0_r. eapply lookup_weaken; [|exact Hsub]. by rewrite lookup_insert_eq.
    + rewrite Nat.add_succ_r, <- Nat.add_succ_l. apply Hnew.
  - intros id t Hid. apply Hall in Hid as [[[<- <-]|[_ Hid]]%lookup_insert_Some|(j & x & Hj & -> & ->)]; [right|by left|right].
    + exists O, (node, n). rewrite Nat.add_0_r. done.
    + exists (S j), x. by rewrite Nat.add_succ_r, <- Nat.add_succ_l.
Qed.

(** A rollout with its targets, added to tables that know nothing of it. *)
Lemma wf_create fresh cx rid p l r d ts : tb_rollouts d !! rid = None -> l <> [] -> validPolicyConcurrency p = true -> validPolicyHealth p = true ->
  ro_Policy r = p -> ro_CurrentWave r = -1 -> ro_State r = Paused -> (ro_Action r = AssignmentUpgrade \/ ro_Action r = AssignmentRollback) -> ro_TotalWaves r = total_waves p (llen l) -> is_Some (tb_releases d !! ro_ReleaseID r) ->
  tb_targets d ⊆ ts ->
  (forall j x, l !! j = Some x -> ts !! fresh j = Some (new_target cx rid p j x)) ->
  (forall id t, ts !! id = Some t -> tb_targets d !! id = Some t \/ exists j x, l !! j = Some x /\ id = fresh j /\ t = new_target cx rid p j x) ->
  wf d -> wf (set_targets ts (set_rollouts (<[rid := r]> (tb_rollouts d)) d)).
Proof.
  intros Hrid Hl Hpc Hph Hrp Hrc Hrs Hra Hrt Hrel Hsub Hnew Hall (Hr & Ht & Hw & Ho & (Ha & Hb)).
  assert (1 <= po_CanaryCount p /\ 1 <= po_WaveSize p) as [Hc1 Hc2].
  { unfold validPolicyConcurrency in Hpc. rewrite !andb_true_iff, !Z.geb_leb, !Z.leb_le in Hpc. lia. }
  assert (1 <= llen l) as Hlen by (destruct l; [done|unfold llen; cbn; lia]).
  assert (forall j x, l !! j = Some x -> 0 <= Z.of_nat j < llen l) as Hj by (intros j x Hx%lookup_lt_Some; unfold llen; lia).
  refine (conj _ (conj _ (conj _ (conj _ (conj _ _))))); cbn.
  - intros id x [[<- <-]|[_ Hid]]%lookup_insert_Some; [|exact (Hr id x Hid)]. unfold rollout_ok. rewrite Hrp, Hrs, Hrc, Hrt.
    pose proof (wave_range p 0 (llen l) Hc1 Hc2). split_and!; try done; lia.
  - intros id t [Hid|(j & x & Hx & -> & ->)]%Hall.
    + destruct (Ht id t Hid) as (Hok & r' & Hr' & Hrest). split; [done|]. exists r'. rewrite lookup_insert_ne by congruence. done.
    + split; [unfold target_ok; cbn; split; [split; intros [? [=]]|split; [intros [? [=]]|by intros n [= <-]]]|]. exists r. cbn. rewrite lookup_insert_eq, Hrt. split; [done|]. split; [eauto using wave_range|]. by left.
  - intros id x w [[<- <-]|[_ Hid]]%lookup_insert_Some Hwr.
    + rewrite Hrt in Hwr. destruct (wave_start_ok p w _ Hc1 Hc2 Hlen Hwr) as (Hst & Hwo).
      destruct (lookup_lt_is_Some_2 l (Z.to_nat (wave_start p w))) as [y Hy]; [unfold llen in Hst; lia|].
      exists (fresh (Z.to_nat (wave_start p w))), (new_target cx rid p (Z.to_nat (wave_start p w)) y). split_and!; [by apply Hnew|done|].
      cbn. by rewrite Z2Nat.id by lia.
    + destruct (Hw id x w Hid Hwr) as (tid & t & Hti & ? & ?). exists tid, t. split_and!; [by eapply lookup_weaken|done|done].
  - intros id1 id2 t1 t2 n [H1|(? & ? & _ & _ & ->)]%Hall; [|done]. intros [H2|(? & ? & _ & _ & ->)]%Hall; [|done]. by eapply Ho.
  - intros k a Hk. destruct (Ha k a Hk) as (t & Hta & Hop). exists t. split; [by eapply lookup_weaken|done].
  - intros id t h [Hid|(? & ? & _ & _ & ->)]%Hall; [|done]. by apply Hb.
Qed.

Lemma snapshot_nonempty input d l d' : snapshotTargets input d = Ok (l, d') -> l <> [].
Proof.
  unfold snapshotTargets. destruct (_ || _); [done|]. intros (x & d1 & _ & H)%andThen_ok. apply andThen_ok in H as (u1 & d2 & _ & H).
  apply andThen_ok in H as (u2 & d3 & _ & H). destruct (negb _); [done|]. destruct (_ || _) eqn:E; [done|]. apply ret_ok in H as [-> ->].
  intros E'. by rewrite E' in E.
Qed.

Lemma of_protocol_ok {A} (r : result updateError A) a : of_protocol r = Ok a -> r = Ok a.
Proof. destruct r as [?|[]]; cbn; congruence. Qed.

(** What a release that is read satisfies. *)
Lemma releaseInTransaction_val `{Externals} s id t d x d' : releaseInTransaction s id t d = Ok (x, d') -> d' = d /\
  exists v, tb_releases d !! id = Some v /\ rl_ID x = id /\ rl_signed x = sr_signed v /\ DecodeManifest (Payload (sr_signed v)) = Ok (rl_Manifest x) /\
    matches v (rl_Manifest x) id = true /\ ValidateManifest (rl_Manifest x) t = Ok tt /\ verifyCachedSignature s (sr_signed v) (rl_Manifest x) t = Ok tt /\
    sr_revoked v = None /\ sr_verified v = true /\ compatibleManifest s (rl_Manifest x) = true /\
    trustedRevision s (Ma_SigningKeyID (rl_Manifest x)) t d = Ok (sr_trust v, d).
Proof.
  intros Hx. pose proof (reads_releaseInTransaction _ _ _ _ _ _ Hx) as ->. split; [done|]. unfold releaseInTransaction, loadRelease in Hx.
  apply andThen_ok in Hx as (v & d1 & Hv & Hx). apply andThen_ok in Hv as (o & d2 & [-> ->]%query_val & [Hv ->]%require_val). exists v.
  apply andThen_ok in Hx as (m & d1 & [Hm%of_protocol_ok ->]%lift_ok & Hx). destruct (matches v m id) eqn:Ematch; [|done]. cbn [negb] in Hx.
  apply andThen_ok in Hx as ([] & d1 & [Hval%of_protocol_ok ->]%lift_ok & Hx). apply andThen_ok in Hx as ([] & d1 & [Hsig ->]%lift_ok & Hx).
  apply andThen_ok in Hx as (u3 & d1 & Ha & [-> _]%ret_ok). cbn. unfold availableRelease in Ha.
  apply andThen_ok in Ha as (u4 & d2 & ->%reads_requireSignaturePolicyRevision & Ha). apply andThen_ok in Ha as (rev & d3 & Hrev & Ha).
  pose proof (reads_trustedRevision _ _ _ _ _ _ Hrev) as ->. destruct (_ || _) eqn:E; [done|]. destruct (compatibleManifest s m); [|done].
  rewrite !orb_false_iff, !negb_false_iff, bool_decide_eq_false, Z.eqb_eq in E. destruct E as ((E1 & E2) & ->). apply eq_None_not_Some in E1. done.
Qed.

Lemma releaseInTransaction_exists `{Externals} s id t d x d' : releaseInTransaction s id t d = Ok (x, d') -> is_Some (tb_releases d !! id).
Proof. intros (_ & v & Hv & _)%releaseInTransaction_val. eauto. Qed.

Lemma normalizePolicy_valid p now p' : normalizePolicy p now = Ok p' -> validPolicyConcurrency p' = true /\ validPolicyHealth p' = true.
Proof.
  unfold normalizePolicy. destruct (_ || _) eqn:E; [done|]. apply orb_false_iff in E as [[E1%negb_false_iff E2%negb_false_iff]%orb_false_iff _].
  by intros [= <-].
Qed.

Lemma Create_val `{Externals} s commit now t0 t1 id fresh actor input d res d' : Create s commit now t0 t1 id fresh actor input d = (res, d') ->
  ((exists e, res = Err e) /\ d' = d) \/
  exists r l user ts, res = Ok r /\ snapshotTargets input d = Ok (l, d) /\ normalizePolicy (ci_Policy input) now = Ok (ro_Policy r) /\
    tb_rollouts d !! id = None /\ ro_CurrentWave r = -1 /\ ro_State r = Paused /\ (ro_Action r = AssignmentUpgrade \/ ro_Action r = AssignmentRollback) /\
    ro_TotalWaves r = total_waves (ro_Policy r) (llen l) /\
    ro_ReleaseID r = ci_ReleaseID input /\ is_Some (tb_releases d !! ci_ReleaseID input) /\
    core d' = core (set_targets ts (set_rollouts (<[id := r]> (tb_rollouts d)) d)) /\ tb_targets d ⊆ ts /\
    (forall j x, l !! j = Some x -> ts !! fresh j = Some (new_target (mkContext t0 user) id (ro_Policy r) j x)) /\
    (forall tid t, ts !! tid = Some t -> tb_targets d !! tid = Some t \/ exists j x, l !! j = Some x /\ tid = fresh j /\ t = new_target (mkContext t0 user) id (ro_Policy r) j x).
Proof.
  unfold Create. set (action := if ci_Action input =s "" then AssignmentUpgrade else ci_Action input). destruct (_ || _) eqn:Eact; [intros [= <- <-]; eauto|].
  assert (action = AssignmentUpgrade \/ action = AssignmentRollback) as Hact.
  { apply orb_false_iff in Eact as [[E%negb_false_iff%String.eqb_eq|E%negb_false_iff%String.eqb_eq]%andb_false_iff _]; auto. }
  clear Eact. destruct (negb (identifier _)); [intros [= <- <-]; eauto|].
  destruct (normalizePolicy _ _) as [p|e]; [|intros [= <- <-]; eauto]. intros [Hd|(r & user & -> & _ & Hx & _)]%mutate_val; [by left|]. right.
  apply andThen_ok in Hx as (release & d1 & Hrel & Hx). pose proof (reads_releaseInTransaction _ _ _ _ _ _ Hrel) as ->.
  apply releaseInTransaction_exists in Hrel. destruct (_ >? _); [done|]. apply andThen_ok in Hx as (l & d1 & Hl & Hx).
  pose proof (reads_snapshotTargets _ _ _ _ Hl) as ->. apply andThen_ok in Hx as (u & d1 & Hi & Hx). unfold insert_rollout in Hi.
  destruct (tb_rollouts d !! id) eqn:Eid; [done|]. injection Hi as _ <-. apply andThen_ok in Hx as (u2 & d1 & Ht & Hx).
  apply insertTargets_val in Ht as ((ts & Hd1) & Hsub & Hnew & Hall). apply andThen_ok in Hx as (count & d2 & [_ ->]%query_val & Hx).
  destruct (negb _); [done|]. apply andThen_ok in Hx as (u3 & d2 & Hlog%logs_audit & [-> ->]%ret_ok). cbn [tb_targets set_rollouts] in *.
  eexists _, l, user, (tb_targets d1). split_and!; try done. rewrite Hlog, Hd1. done.
Qed.

Lemma Create_inv `{Externals} s commit now t0 t1 id fresh actor input d : wf d -> inv d (Create s commit now t0 t1 id fresh actor input d).2.
Proof.
  intros Hd. destruct (Create s commit now t0 t1 id fresh actor input d) as [res d'] eqn:E. apply Create_val in E
    as [[_ ->]|(r & l & user & ts & -> & Hl & Hp & Hid & Hc & Hs & Hact & Ht & Hrid & Hrel & Hcore & Hsub & Hnew & Hall)]; [split; [done|apply calm_refl]|]. cbn.
  apply snapshot_nonempty in Hl. destruct (normalizePolicy_valid _ _ _ Hp) as [? ?]. split.
  - eapply wf_core; [exact Hcore|]. eapply (wf_create fresh); try done. by rewrite Hrid.
  - unfold core in Hcore. injection Hcore as E1 E2 _ _ E3. unfold calm. rewrite E1, E2, E3. cbn. split_and!; [| |apply calm_refl].
    + intros j r1 [[<- <-]|[_ Hj]]%lookup_insert_Some; [rewrite Hid; unfold dormant; by rewrite Hs|by rewrite Hj].
    + intros j t [Hj|(? & ? & _ & _ & ->)]%Hall Hof; [|done]. eauto.
Qed.

(** ** Leases *)

Lemma candidate_inv `{Externals} s cx identity n caps d0 : preserves (inv d0) (candidate s cx identity n caps).
Proof. unfold candidate, assignmentCapacity. statements. Qed.

(** What a candidate satisfies. *)
Definition leasable `{Externals} (s : Service) (at_ : Time) (node : string) (n : NodeRow) (caps : Capabilities) (c : leaseCandidate) (d : Tables) : Prop :=
  due_target node d = Some (lc_id c, lc_target c) /\ tb_rollouts d !! tg_rollout (lc_target c) = Some (lc_rollout c) /\
  releaseInTransaction s (ro_ReleaseID (lc_rollout c)) at_ d = Ok (lc_release c, d) /\
  eligible (lc_target c) (lc_rollout c) (rl_Manifest (lc_release c)) n caps at_ d = inl (lc_artifact c) /\
  (exists row, tb_artifacts d !! (rl_ID (lc_release c), Ar_ID (lc_artifact c)) = Some row /\ af_ready row = true) /\
  flying_own (tg_NodeID (lc_target c)) d = 0 /\
  flying (tg_rollout (lc_target c)) (tg_NodeID (lc_target c)) d < po_MaxConcurrent (ro_Policy (lc_rollout c)).

Lemma candidate_val `{Externals} s cx identity n caps d c d' : candidate s cx identity n caps d = Ok (Some c, d') ->
  d' = d /\ leasable s (cx_at cx) (id_NodeID identity) n caps c d.
Proof.
  unfold candidate, leasable. intros (row & d1 & [-> ->]%query_val & Hx)%andThen_ok. destruct (due_target _ _) as [[id t]|]; [|by apply ret_ok in Hx as [? _]].
  apply andThen_ok in Hx as (r & d1 & [Hr ->]%rollout_val & Hx). apply andThen_ok in Hx as (rel & d1 & Hrel & Hx). pose proof (reads_releaseInTransaction _ _ _ _ _ _ Hrel) as ->.
  apply andThen_ok in Hx as (v & d1 & [-> ->]%query_val & Hx). destruct (eligible _ _ _ _ _ _ _) as [a|reason] eqn:Ee.
  2:{ by apply andThen_ok in Hx as (? & ? & _ & [? _]%ret_ok). }
  apply andThen_ok in Hx as (ready & d1 & Hc & [Hr' ->]%ret_ok). destruct ready; [|done]. injection Hr' as ->. unfold assignmentCapacity in Hc.
  apply andThen_ok in Hc as (row & d2 & [-> ->]%query_val & Hc). apply andThen_ok in Hc as (row & d2 & [Hrow ->]%require_val & Hc). cbn in *.
  destruct (af_ready row) eqn:Era; cbn [negb] in Hc; [|by apply andThen_ok in Hc as (? & ? & _ & [? _]%ret_ok)]. apply andThen_ok in Hc as (n2 & d2 & [-> ->]%query_val & Hc).
  cbn in Hc. destruct (_ >? 0) eqn:E1; [by apply andThen_ok in Hc as (? & ? & _ & [? _]%ret_ok)|]. destruct (_ >=? _) eqn:E2; [by apply andThen_ok in Hc as (? & ? & _ & [? _]%ret_ok)|].
  rewrite Z.gtb_ltb in E1. rewrite Z.geb_leb in E2. apply Z.ltb_ge in E1. apply Z.leb_gt in E2.
  assert (0 <= flying_own (tg_NodeID t) d) by (unfold flying_own, count_where, llen; lia).
  apply ret_ok in Hc as [_ ->]. split_and!; try done; [eauto|lia].
Qed.

Definition offered_target (cx : context) (id : string) (hash : list Z) (c : leaseCandidate) : Target -> Target :=
  set_target TOffered "" id (Ar_ID (lc_artifact c)) (Some hash) (Some (assignment_expiry (cx_at cx) c)) None None (cx_at cx).
Definition offered_assignment (schema : Z) (at_ : Time) (id : string) (nonce : list Z) (c : leaseCandidate) : Assignment :=
  mkAssignment schema (ro_Action (lc_rollout c)) id (tg_rollout (lc_target c)) (tg_NodeID (lc_target c)) (EncodeHex nonce) (assignment_expiry at_ c)
    (lc_artifact c) (rl_signed (lc_release c)).

Lemma requireOne_val m d u d' : requireOne m d = Ok (u, d') -> m d = Ok (true, d').
Proof. unfold requireOne. intros (b & d1 & Hm & Hb)%andThen_ok. destruct b; [|done]. by apply ret_ok in Hb as [_ ->]. Qed.

Lemma offer_val cx id nonce c d a d' : offer cx id nonce c d = Ok (a, d') ->
  let hash := Sum256 (bytes (EncodeHex nonce)) in
  exists t, tb_targets d !! lc_id c = Some t /\ waiting t = true /\ tb_attempts d !! id = None /\
    second_in_flight (lc_id c) (offered_target cx id hash c t) d = false /\ a = offered_assignment 0 (cx_at cx) id nonce c /\
    core d' = core (set_attempts (<[id := mkAttempt (lc_id c) hash AtOffered (cx_at cx) None]> (tb_attempts d))
                     (set_targets (<[lc_id c := offered_target cx id hash c t]> (tb_targets d)) d)).
Proof.
  intros H hash. unfold offer in H. apply andThen_ok in H as (u & d1 & Ha & H). unfold insert_attempt in Ha. destruct (tb_attempts d !! id) eqn:E; [done|].
  injection Ha as _ <-. apply andThen_ok in H as (u1 & d1 & Ht%requireOne_val & H). apply update_target_val in Ht as [(_ & t & Hid & Hw & Hs & ->)|([=] & _)].
  apply andThen_ok in H as (u2 & d2 & Hlog%logs_targetEvent & [-> ->]%ret_ok). exists t. split_and!; done.
Qed.

Lemma due_target_val node d id t : due_target node d = Some (id, t) ->
  tb_targets d !! id = Some t /\ tg_node t = Some node /\ waiting t = true /\
  exists r, tb_rollouts d !! tg_rollout t = Some r /\ ro_State r = Active /\ ro_CurrentWave r = tg_Wave t.
Proof.
  unfold due_target. intros Hh%head_Some_elem_of. rewrite elem_of_ordered, elem_of_rows_where in Hh. destruct Hh as (Hid & Hc).
  rewrite !andb_true_iff, bool_decide_eq_true in Hc. destruct Hc as ((Hn & Ha) & Hw). unfold active_wave in Ha. split_and!; [done|done|done|].
  destruct (tb_rollouts d !! tg_rollout t) as [r|]; [|done]. rewrite andb_true_iff, bool_decide_eq_true, Z.eqb_eq in Ha. exists r. naive_solver.
Qed.

Lemma wf_target id t d : wf d -> tb_targets d !! id = Some t -> target_ok t.
Proof. intros (_ & Ht & _) Hid. by destruct (Ht id t Hid). Qed.

(** An offer to a candidate. *)
Lemma wf_offer cx id hash c t d : tb_targets d !! lc_id c = Some t -> waiting t = true -> active_wave d t = true -> tb_attempts d !! id = None ->
  second_in_flight (lc_id c) (offered_target cx id hash c t) d = false -> wf d ->
  wf (set_attempts (<[id := mkAttempt (lc_id c) hash AtOffered (cx_at cx) None]> (tb_attempts d))
       (set_targets (<[lc_id c := offered_target cx id hash c t]> (tb_targets d)) d)).
Proof.
  intros Hid Hw Ha Hk Hs Hd. eapply wf_move; try done.
  - destruct (wf_target _ _ _ Hd Hid) as (_ & _ & Hnode). refine (conj _ (conj _ Hnode)); cbn; [split; eauto|by left].
  - intros r Hr Hlt. unfold active_wave in Ha. rewrite Hr in Ha. apply andb_prop in Ha as [_ Ha%Z.eqb_eq]. lia.
  - pose proof Hd as (_ & _ & _ & Ho & _). by eapply second_in_flight_ok.
  - congruence.
  - right. unfold waiting, in_flight in *. by destruct (tg_State t).
  - intros h [= <-]. done.
Qed.

Lemma lease_second_val `{Externals} s commit t1 t2 id nonce identity caps first d res d' :
  lease_second s commit t1 t2 id nonce identity caps first d = (res, d') ->
  ((exists e, res = Err e) /\ d' = d) \/
  exists c n t, res = Ok (offered_assignment (sv_schema s) t1 id nonce c) /\ agent identity d = Ok (n, d) /\ leasable s t1 (id_NodeID identity) n caps c d /\
    lc_id c = lc_id first /\ (exists x, releaseInTransaction s (rl_ID (lc_release c)) t2 d' = Ok (x, d')) /\
    tb_targets d !! lc_id c = Some t /\ t = lc_target c /\ tb_attempts d !! id = None /\
    (let cx := mkContext t1 "agent" in let hash := Sum256 (bytes (EncodeHex nonce)) in
     second_in_flight (lc_id c) (offered_target cx id hash c t) d = false /\
     core d' = core (set_attempts (<[id := mkAttempt (lc_id c) hash AtOffered t1 None]> (tb_attempts d))
                     (set_targets (<[lc_id c := offered_target cx id hash c t]> (tb_targets d)) d))).
Proof.
  intros Hx. apply agentMutation_val in Hx as [Hd|(a & n & -> & Hag & Hx & _)]; [by left|]. right. unfold lease_again in Hx.
  apply andThen_ok in Hx as (current & d1 & Hc & Hx). destruct current as [c|]; [|done]. apply candidate_val in Hc as [-> Hc].
  destruct (lc_id c <>s lc_id first) eqn:Ei; [done|]. apply negb_false_iff, String.eqb_eq in Ei.
  apply andThen_ok in Hx as (a' & d1 & Ho & Hx). apply offer_val in Ho as (t & Ht & Hw & Hk & Hs & -> & Hcore).
  apply andThen_ok in Hx as (x & d2 & Hrel & [-> ->]%ret_ok). pose proof (reads_releaseInTransaction _ _ _ _ _ _ Hrel) as ->.
  exists c, n, t. pose proof Hc as (Hdue%due_target_val & _). split_and!; try done; [eauto|naive_solver].
Qed.

Lemma lease_first_inv `{Externals} s commit t0 identity caps d0 d : inv d0 d -> inv d0 (lease_first s commit t0 identity caps d).2.
Proof. apply agentMutation_preserves. intros cx n. apply candidate_inv. Qed.

Lemma lease_missing_inv `{Externals} s commit t1 identity c d0 d : inv d0 d -> inv d0 (lease_missing s commit t1 identity c d).2.
Proof. apply agentMutation_preserves. intros cx n. unfold artifact_lost. statements. Qed.

Lemma lease_second_wf `{Externals} s commit t1 t2 id nonce identity caps first d : wf d ->
  let d' := (lease_second s commit t1 t2 id nonce identity caps first d).2 in wf d' /\ calm_rollouts (tb_rollouts d) (tb_rollouts d').
Proof.
  intros Hd d'. subst d'. destruct (lease_second s commit t1 t2 id nonce identity caps first d) as [res d'] eqn:E.
  apply lease_second_val in E as [[_ ->]|(c & n & t & _ & _ & Hc & _ & _ & Ht & -> & Hk & Hs & Hcore)]; [split; [done|apply calm_refl]|]. cbn.
  destruct Hc as (Hdue%due_target_val & _). destruct Hdue as (_ & _ & Hw & r & Hr & Ha & Hcur). split.
  - eapply wf_core; [exact Hcore|]. apply wf_offer; try done. unfold active_wave. by rewrite Hr, bool_decide_true, Hcur, Z.eqb_refl.
  - unfold core in Hcore. injection Hcore as -> _ _ _ _. apply calm_refl.
Qed.

(** ** Reports *)

Definition observed (cx : context) (t : Target) (o : Observation) (st : targetState) (reason : string) (since : option Time) : Target :=
  set_target st reason (tg_attempt t) (tg_artifact t) (tg_nonce t) (tg_expires t) since (Some (ob_ReportAt o)) (cx_at cx) t.

Lemma observedTarget_val cx node o d row d' : observedTarget cx node o d = Ok (row, d') -> d' = d /\
  tb_targets d !! row.1 = Some row.2 /\ tg_node row.2 = Some node /\ tg_attempt row.2 = ob_AssignmentID o /\
  tg_nonce row.2 = Some (Sum256 (bytes (ob_Nonce o))) /\
  (exists e, tg_expires row.2 = Some e /\ (settled (tg_State row.2) = true \/ cx_at cx < e)) /\
  (forall last, tg_report row.2 = Some last -> last <= ob_ReportAt o).
Proof.
  unfold observedTarget. intros (x & d1 & [-> ->]%query_val & (y & d2 & [Hrow ->]%require_val & Hx)%andThen_ok)%andThen_ok.
  destruct (_ || _) eqn:E; [done|]. apply orb_false_iff in E as [E1%negb_false_iff%bool_decide_eq_true E2%negb_false_iff].
  match type of Hx with (if ?b then _ else _) _ = _ => destruct b eqn:E3 end; [done|]. apply ret_ok in Hx as [-> ->]. unfold observed_row in Hrow. apply head_Some_elem_of in Hrow.
  destruct y as [id t]. rewrite elem_of_rows_where, andb_true_iff, bool_decide_eq_true, String.eqb_eq in Hrow. cbn in *. split_and!; try tauto.
  - destruct (tg_expires t) as [e|]; [|done]. exists e. split; [done|]. apply orb_true_iff in E2 as [?|E2]; [by left|right]. unfold Before in E2. lia.
  - intros last Hl. rewrite Hl in E3. unfold Before in E3. lia.
Qed.

Lemma reads_reportReady `{Externals} r n o t : reads (reportReady r n o t).
Proof. unfold reportReady. read_only. Qed.

Lemma observationState_val `{Externals} cx t r n o d x d' : observationState cx t r n o d = Ok (x, d') ->
  d' = d /\ (x.1.1 = TObserving \/ x.1.1 = THealthy \/ x.1.1 = TFailed).
Proof.
  unfold observationState. case_bool_decide; [intros [-> ->]%ret_ok; tauto|]. destruct (_ <>s _); [intros [-> ->]%ret_ok; tauto|].
  intros (ready & d1 & Hr & Hx)%andThen_ok. apply reads_reportReady in Hr as ->.
  destruct (negb ready); apply ret_ok in Hx as [-> ->]; [tauto|]. cbn. destruct (_ >=? _); tauto.
Qed.

(** The effect of a report on its target, its attempt and its rollout. *)
Lemma recordObservation_val `{Externals} cx id t r n o d u d' : tb_targets d !! id = Some t -> tg_attempt t = ob_AssignmentID o ->
  recordObservation cx id t r n o d = Ok (u, d') ->
  exists st reason since, observationState cx t r n o d = Ok ((st, reason, since), d) /\ second_in_flight id (observed cx t o st reason since) d = false /\
    core d' = core (let d1 := set_attempts (alter (fun a => mkAttempt (am_target a) (am_nonce a) (attempt_state st) (am_created a)
                        (if bool_decide (st = tg_State t) then am_ended a else if settled st then Some (cx_at cx) else None)) (tg_attempt t) (tb_attempts d))
                      (set_targets (<[id := observed cx t o st reason since]> (tb_targets d)) d) in
                    if bool_decide (st = TFailed) then pause_failed (tg_rollout t) (cx_at cx) d1 else d1).
Proof.
  intros Hid Hat Hx. unfold recordObservation in Hx. apply andThen_ok in Hx as ([[st reason] since] & d1 & Hst & Hx).
  pose proof (observationState_val _ _ _ _ _ _ _ _ Hst) as [-> _]. exists st, reason, since. split; [done|].
  apply andThen_ok in Hx as (b & d1 & Hu & Hx). apply update_target_val in Hu as [(_ & t' & Hid' & _ & Hs & ->)|(_ & _ & Hno)]; [|by specialize (Hno t Hid)].
  assert (t' = t) as -> by congruence. split; [exact Hs|]. apply andThen_ok in Hx as (u1 & d1 & ->%exec_val & Hx).
  apply andThen_ok in Hx as (u2 & d1 & Hp & Hx). assert (core d' = core d1) as ->.
  { destruct (negb _); [by apply logs_targetEvent in Hx|]. destruct (_ && _); [|by apply ret_ok in Hx as [_ ->]].
    apply andThen_ok in Hx as (rec & d2 & [-> ->]%query_val & Hx). eapply logs_when; [|exact Hx]. apply logs_targetEvent. }
  rewrite <- Hat in Hp. destruct (bool_decide (st = TFailed)); cbn [when] in Hp; [by apply exec_val in Hp as ->|by apply ret_ok in Hp as [_ ->]].
Qed.

Lemma attempts_of_nonce id t h d : wf d -> tb_targets d !! id = Some t -> tg_nonce t = Some h ->
  exists a, tb_attempts d !! tg_attempt t = Some a /\ am_target a = id /\ am_nonce a = h.
Proof. intros (_ & _ & _ & _ & (_ & Hb)). apply Hb. Qed.

Lemma alter_insert `{Countable K} {V} (f : V -> V) k v (m : gmap K V) : m !! k = Some v -> alter f k m = <[k := f v]> m.
Proof.
  intros Hk. apply map_eq. intros j. rewrite lookup_alter_id. case_decide as E; [subst; by rewrite Hk, lookup_insert_eq|].
  by rewrite lookup_insert_ne, option_fmap_id.
Qed.

Lemma inv_pause_failed rid at_ d0 d : inv d0 d -> inv d0 (pause_failed rid at_ d).
Proof.
  apply inv_alter_rollout. intros r Hr Hok. destruct (terminalRolloutState (ro_State r)); [|by apply stop_step; [left|]].
  split; [by apply rollout_step_refl|done].
Qed.

Lemma calm_move ts0 ts id t' : tg_State t' <> TOffered -> calm_targets ts0 ts -> calm_targets ts0 (<[id := t']> ts).
Proof. intros Hn Hc j t [[<- <-]|[_ Hj]]%lookup_insert_Some Hs; [done|]. by apply Hc. Qed.

Lemma recordObservation_inv `{Externals} cx id t r n o d0 d u d' : tb_targets d !! id = Some t -> tg_attempt t = ob_AssignmentID o ->
  is_Some (tg_nonce t) -> recordObservation cx id t r n o d = Ok (u, d') -> inv d0 d -> inv d0 d'.
Proof.
  intros Hid Hat [h Hn] Hx [Hw (Hcr & Hct & Htr)]. apply recordObservation_val in Hx as (st & reason & since & Hst & Hs & Hcore); [|done|done].
  apply observationState_val in Hst as [_ Hst]. cbn in Hst. destruct (attempts_of_nonce id t h d Hw Hid Hn) as (a & Ha & Hat' & Han).
  eapply inv_core; [exact Hcore|]. cbv zeta. rewrite (alter_insert _ _ a) by done.
  destruct (wf_target id t d Hw Hid) as (Hne & Hfl & Hnode).
  match goal with |- inv d0 (if _ then _ else ?d1) => assert (inv d0 d1) as Hinv; [|destruct (bool_decide (st = TFailed)); [by apply inv_pause_failed|done]] end.
  split.
  - eapply wf_move; try done.
    + refine (conj _ (conj _ Hnode)); cbn; [done|]. intros _. destruct Hst as [->|[->| ->]]; auto.
    + intros _ _ _ Hun. exfalso. destruct Hfl as [Hf|Hf]; [by rewrite Hn| |]; destruct Hun as [Hu|Hu]; unfold waiting, in_flight, settled in *; by destruct (tg_State t).
    + destruct Hw as (_ & _ & _ & Ho & _). by eapply second_in_flight_ok.
    + intros a0 Ha0. congruence.
    + by left.
    + cbn. intros Hop. unfold under_way. cbn. rewrite Hn. split_and!; [done| |done]. destruct Hst as [->|[->| ->]]; done.
    + cbn. intros h' Hh'. split; [done|congruence].
  - split; [exact Hcr|]. split; [|exact Htr]. apply calm_move; [|exact Hct]. cbn. destruct Hst as [->|[->| ->]]; done.
Qed.

Lemma Observe_inv `{Externals} s commit now t0 identity o d0 d : inv d0 d -> inv d0 (Observe s commit now t0 identity o d).2.
Proof.
  unfold Observe. destruct (negb _); [done|]. apply agentMutation_preserves. intros cx n d1 u d2 Hd1.
  intros (row & d3 & (-> & Hid & _ & Hat & Hn & _)%observedTarget_val & Hx)%andThen_ok. apply andThen_ok in Hx as (r & d4 & [_ ->]%rollout_val & Hx).
  eapply recordObservation_inv; [exact Hid|exact Hat|by rewrite Hn|exact Hx|done].
Qed.

(** ** Recovery *)

Lemma pauseAutomatically_inv cx id reason d0 : preserves (inv d0) (pauseAutomatically cx id reason).
Proof.
  unfold pauseAutomatically. statements. apply preserves_exec. intros d. apply inv_alter_rollout. intros r0 _. apply stop_step. by left.
Qed.

Lemma pauseAutomatically_targets cx id reason d u d' : pauseAutomatically cx id reason d = Ok (u, d') -> tb_targets d' = tb_targets d.
Proof.
  unfold pauseAutomatically. intros (row & d1 & [-> ->]%query_val & Hx)%andThen_ok. destruct (tb_rollouts d !! id); [|by apply ret_ok in Hx as [_ ->]].
  destruct (_ && _); [|by apply ret_ok in Hx as [_ ->]]. apply andThen_ok in Hx as (u1 & d1 & ->%exec_val & Hlog%logs_event).
  unfold core in Hlog. by injection Hlog as _ -> _ _ _.
Qed.

Definition expired (cx : context) (t : Target) : Target :=
  set_target THeld "assignment_unknown" (tg_attempt t) (tg_artifact t) None None None (tg_report t) (cx_at cx) t.

Lemma expire_target_inv cx id t d0 d u d' : tb_targets d !! id = Some t -> lease_over (cx_at cx) t = true ->
  expire_target cx (id, t) d = Ok (u, d') -> inv d0 d -> inv d0 d' /\ tb_targets d' = <[id := expired cx t]> (tb_targets d).
Proof.
  intros Hid Hl Hx [Hw (Hcr & Hct & Htr)]. apply andb_prop in Hl as [Hfl Hex]. assert (is_Some (tg_nonce t)) as [h Hn].
  { destruct (wf_target id t d Hw Hid) as ((_ & Hne) & _). apply Hne. by destruct (tg_expires t). }
  destruct (attempts_of_nonce id t h d Hw Hid Hn) as (a & Ha & Hat & Han).
  unfold expire_target in Hx. apply andThen_ok in Hx as (u1 & d1 & ->%exec_val & Hx). cbn [fst snd] in Hx. rewrite Hid in Hx.
  apply andThen_ok in Hx as (b & d1 & Hu & Hx). apply update_target_val in Hu as [(_ & t' & Hid' & _ & Hs & ->)|(_ & _ & Hno)]; [|by specialize (Hno t Hid)].
  cbn [tb_targets set_attempts] in Hid'. assert (t' = t) as -> by congruence. clear Hid'.
  apply andThen_ok in Hx as (u2 & d1 & Hlog%logs_targetEvent & Hp). rewrite (alter_insert _ _ a) in Hlog by done. split.
  - eapply pauseAutomatically_inv; [|exact Hp]. eapply inv_core; [exact Hlog|]. split; [|split; [exact Hcr|split; [by apply calm_move|exact Htr]]].
    eapply (wf_move id t (expired cx t) (tg_attempt t) (end_attempt (cx_at cx) a)); try done.
    + destruct (wf_target id t d Hw Hid) as (_ & _ & Hnode). refine (conj _ (conj _ Hnode)); cbn; [|intros [? [=]]]. split; intros [? [=]].
    + intros _ _ _ _. by left.
    + destruct Hw as (_ & _ & _ & Ho & _). by eapply second_in_flight_ok.
    + intros a0 Ha0. congruence.
    + by left.
  - apply pauseAutomatically_targets in Hp. unfold core in Hlog. injection Hlog as _ E _ _ _. by rewrite Hp, E.
Qed.

Lemma expire_rows_inv cx rows d0 d u d' : NoDup rows.*1 -> (forall id t, (id, t) ∈ rows -> tb_targets d !! id = Some t /\ lease_over (cx_at cx) t = true) ->
  each (expire_target cx) rows d = Ok (u, d') -> inv d0 d -> inv d0 d'.
Proof.
  revert d. induction rows as [|[id t] rows IH]; intros d Hnd Hin; [by intros [_ ->]%ret_ok|]. cbn.
  intros (u1 & d1 & H1 & H2)%andThen_ok Hd. destruct (Hin id t) as [Hid Hl]; [by left|]. apply expire_target_inv with (d0 := d0) in H1 as [Hd1 Hts]; [|done..].
  apply NoDup_cons in Hnd as [Hni Hnd]. eapply (IH d1); [done| |exact H2|done]. intros id' t' Hin'. destruct (Hin id' t') as [Hid' Hl']; [by right|].
  split; [|done]. rewrite Hts, lookup_insert_ne; [done|]. intros <-. apply Hni. apply list_elem_of_fmap. by exists (id, t').
Qed.

Lemma elem_of_take_in {A} (x : A) n l : x ∈ take n l -> x ∈ l.
Proof. intros Hx. rewrite <- (take_drop n l). apply elem_of_app. by left. Qed.

Lemma NoDup_fst_rows `{Countable K} {V} (c : K -> V -> bool) (m : gmap K V) n : NoDup (take n (rows_where c m)).*1.
Proof.
  apply NoDup_fmap_2_strong; [|apply (sublist_NoDup _ (rows_where c m)); [apply NoDup_rows_where|apply sublist_take]].
  intros [k1 v1] [k2 v2] H1%elem_of_take_in H2%elem_of_take_in E. cbn in E. subst.
  apply elem_of_rows_where in H1 as [H1 _], H2 as [H2 _]. congruence.
Qed.

Lemma Recover_inv s commit t0 d0 d : inv d0 d -> inv d0 (Recover s commit t0 d).2.
Proof.
  unfold Recover. destruct (negb _); [done|]. apply transact_preserves. apply preserves_then.
  - intros d1 u d2 Hd1 (rows & d3 & [-> ->]%query_val & Hx)%andThen_ok. eapply expire_rows_inv; [apply NoDup_fst_rows| |exact Hx|done].
    intros id t Hin%elem_of_take_in. by apply elem_of_rows_where in Hin.
  - intros _. unfold expireReleases. statements. apply preserves_each. intros item. apply pauseAutomatically_inv.
Qed.

(** ** Restore *)

Lemma inv_releases rels d0 d : (forall k, is_Some (tb_releases d !! k) -> is_Some (rels !! k)) -> inv d0 d -> inv d0 (set_releases rels d).
Proof. intros Hf [Hw Hc]. split; [by apply wf_releases|exact Hc]. Qed.

Lemma inv_releases_where c f d0 d : inv d0 d -> inv d0 (set_releases (update_where c f (tb_releases d)) d).
Proof. apply inv_releases. intros k Hk. rewrite lookup_update_where. by apply fmap_is_Some. Qed.

(** Attempts change, or lose their nonce when no target has one. *)
Lemma inv_attempts f ats' d0 d : (forall k, ats' !! k = f <$> tb_attempts d !! k) ->
  (forall a, am_target (f a) = am_target a) -> (forall a, open (f a) = true -> open a = true) ->
  (forall a, am_nonce (f a) = am_nonce a) \/ (forall id t, tb_targets d !! id = Some t -> tg_nonce t = None) -> inv d0 d -> inv d0 (set_attempts ats' d).
Proof.
  intros Hl Ht Ho Hn [(Hr & Htg & Hw & Hone & (Ha & Hb)) Hc]. split; [|exact Hc]. refine (conj Hr (conj Htg (conj Hw (conj Hone (conj _ _))))); cbn.
  - intros k a Hk. rewrite Hl in Hk. apply fmap_Some in Hk as (b & Hk & ->). rewrite Ht. destruct (Ha k b Hk) as (t & ? & Hop). eauto.
  - intros id t h Hid Hnon. destruct Hn as [Hn|Hn]; [|by rewrite (Hn id t Hid) in Hnon]. destruct (Hb id t h Hid Hnon) as (a & Hk & Hta & Han).
    exists (f a). by rewrite Hl, Hk, Ht, Hn.
Qed.

(** The third and fourth statements of [restorePause] together. *)
Definition restored_row (d : Tables) (at_ : Time) (t : Target) : Target :=
  if restored_target d t then set_target THeld "restored" (tg_attempt t) (tg_artifact t) None None None (tg_report t) at_ t
  else set_target (tg_State t) (tg_Reason t) (tg_attempt t) (tg_artifact t) None None (tg_since t) (tg_report t) (tg_updated t) t.

Lemma restored_row_step d at_ t : target_ok t -> target_step t (restored_row d at_ t).
Proof.
  intros (_ & _ & Hnode). unfold restored_row, target_step, target_ok, untouched. destruct (restored_target d t); cbn; (split_and!; try done; try tauto; try (by left); try (intros [? [=]])).
Qed.

(** The tables after the four statements on rollouts, attempts and targets. *)
Definition quiesced (at_ : Time) (d : Tables) : Tables :=
  let d1 := set_rollouts (update_where (fun _ r => negb (terminalRolloutState (ro_State r))) (set_state Paused "restored" at_) (tb_rollouts d)) d in
  let d2 := set_attempts (update_where (fun _ a => open a) (end_attempt at_) (tb_attempts d1)) d1 in
  set_targets (map_imap (fun _ t => Some (restored_row d2 at_ t)) (tb_targets d2)) d2.

Lemma quiesced_inv at_ d0 d : inv d0 d -> inv d0 (quiesced at_ d).
Proof.
  intros Hd. unfold quiesced. apply (inv_stop_where (fun _ r => negb (terminalRolloutState (ro_State r))) Paused "restored" at_) in Hd; [|by left].
  set (d1 := set_rollouts _ d) in *. apply (inv_attempts (fun a => if open a then end_attempt at_ a else a) (update_where (fun _ a => open a) (end_attempt at_) (tb_attempts d1))) in Hd.
  - set (d2 := set_attempts _ d1) in *. eapply (inv_targets (fun _ => restored_row d2 at_)); [intros id; rewrite map_lookup_imap; by destruct (tb_targets d2 !! id)| | |done].
    + intros id t _ Hok. by apply restored_row_step.
    + intros k a t Hk Hop. exfalso. revert Hk. unfold d2. cbn. rewrite lookup_update_where. intros (b & _ & ->)%fmap_Some. destruct (open b) eqn:E; [done|congruence].
  - intros k. by rewrite lookup_update_where.
  - intros a. by destruct (open a).
  - intros a. destruct (open a) eqn:E; [done|congruence].
  - left. intros a. by destruct (open a).
Qed.

Definition restored_tables (at_ : Time) (d : Tables) : Tables :=
  let d := quiesced at_ d in
  let d := set_attempts (update_where (fun _ _ => true) (fun a => mkAttempt (am_target a) [] (am_state a) (am_created a) (am_ended a)) (tb_attempts d)) d in
  let d := set_releases (update_where (fun _ _ => true)
    (fun r => mkStoredRelease (sr_version r) (sr_channel r) (sr_key r) (sr_signed r) (sr_expires r) (sr_trust r) (sr_policy r) false (sr_revoked r)) (tb_releases d)) d in
  set_artifacts (update_where (fun _ _ => true) (fun a => mkArtifactRow (af_digest a) (af_size a) false) (tb_artifacts d)) d.

Lemma restored_tables_inv at_ d0 d : inv d0 d -> inv d0 (restored_tables at_ d).
Proof.
  intros Hd. unfold restored_tables. apply (inv_releases_where _ _ d0). apply (inv_attempts (fun a => mkAttempt (am_target a) [] (am_state a) (am_created a) (am_ended a)));
    [intros k; by rewrite lookup_update_where|done|done|right|by apply quiesced_inv].
  intros id t. unfold quiesced. cbn. rewrite map_lookup_imap. destruct (tb_targets d !! id); [|done]. intros [= <-]. unfold restored_row. by destruct (restored_target _ _).
Qed.

Lemma exec_then {A} f (k : unit -> tx A) d : andThen (exec f) k d = k tt (f d).
Proof. done. Qed.

Lemma restored_rows d at_ (ts : targets) :
  update_where (fun _ _ => true) (fun t => set_target (tg_State t) (tg_Reason t) (tg_attempt t) (tg_artifact t) None None (tg_since t) (tg_report t) (tg_updated t) t)
    (update_where (fun _ t => restored_target d t)
      (fun t => set_target THeld "restored" (tg_attempt t) (tg_artifact t) (tg_nonce t) (tg_expires t) None (tg_report t) at_ t) ts)
  = map_imap (fun _ t => Some (restored_row d at_ t)) ts.
Proof.
  apply map_eq. intros id. rewrite !lookup_update_where, map_lookup_imap. destruct (ts !! id) as [t|]; [|done]. cbn. unfold restored_row.
  by destruct (restored_target d t).
Qed.

(** What [restorePause] computes when it gets to its check. *)
Lemma restorePause_eq cx d : restorePause cx d =
  (audit cx "rollout.restore.paused" "rollout" "restore" "verified_reimport_required" 0 >>>
   good <~ query verifyRestoredState ;; if good then ret tt else fail ErrUnavailable) (restored_tables (cx_at cx) d).
Proof.
  unfold restorePause. cbv zeta. rewrite !exec_then. unfold restored_tables, quiesced. cbv zeta. set (d1 := set_rollouts _ d). set (d2 := set_attempts _ d1).
  rewrite <- (restored_rows d2). reflexivity.
Qed.

Lemma ReconcileRestore_inv commit now d0 d : inv d0 d -> inv d0 (ReconcileRestore commit now d).2.
Proof.
  apply transact_preserves. intros d1 u d' Hd Hx. rewrite restorePause_eq in Hx. apply (restored_tables_inv (cx_at (mkContext now "system"))) in Hd.
  eapply preserves_logs; [|exact Hd|exact Hx]. apply logs_then; [apply logs_audit|]. intros _. apply logs_reads. read_only.
Qed.

(** ** Releases and trust *)

Lemma inv_trust id row d0 d : (forall row0, tb_trust d !! id = Some row0 -> is_Some (tk_revoked row0) -> is_Some (tk_revoked row)) ->
  inv d0 d -> inv d0 (set_trust (<[id := row]> (tb_trust d)) d).
Proof.
  intros Hr [Hw (Hcr & Hct & Htr)]. split; [exact Hw|]. refine (conj Hcr (conj Hct _)). intros k row0 Hk Hrev. cbn.
  destruct (Htr k row0 Hk Hrev) as (row1 & Hk1 & Hrev1). destruct (decide (k = id)) as [->|Hne]; [|exists row1; by rewrite lookup_insert_ne].
  exists row. rewrite lookup_insert_eq. eauto.
Qed.

Lemma initializeTrust_inv s commit t0 d0 d : inv d0 d -> inv d0 (initializeTrust s commit t0 d).2.
Proof.
  apply transact_preserves. apply preserves_then.
  - apply preserves_each. intros key d1 u d2 Hd (row & d3 & [-> ->]%query_val & Hx)%andThen_ok. destruct (tb_trust d1 !! ky_ID key) as [k|] eqn:E.
    + eapply preserves_reads; [|exact Hd|exact Hx]. read_only.
    + apply andThen_ok in Hx as (u1 & d3 & ->%exec_val & Hx). eapply preserves_logs; [apply logs_audit| |exact Hx]. apply inv_trust; [|done]. by rewrite E.
  - intros _. unfold persistRuntimePolicy, persistSignaturePolicy, activateSignaturePolicy. statements;
      apply preserves_exec; intros d1; first [apply inv_releases_where | apply inv_stop_where; by left].
Qed.

Lemma inv_pause_releases c reason at_ d0 d : inv d0 d -> inv d0 (pause_releases c reason at_ d).
Proof. apply inv_stop_where. by left. Qed.

Lemma RevokeKey_inv s commit t0 t1 actor id d0 d : inv d0 d -> inv d0 (RevokeKey s commit t0 t1 actor id d).2.
Proof.
  apply mutate_preserves. intros cx. statements; apply preserves_exec; intros d1; [by apply inv_trust|apply inv_releases_where|apply inv_pause_releases].
Qed.

Lemma RevokeRelease_inv s commit t0 t1 actor id d0 d : inv d0 d -> inv d0 (RevokeRelease s commit t0 t1 actor id d).2.
Proof.
  apply mutate_preserves. intros cx. statements; apply preserves_exec; intros d1; [|apply inv_pause_releases].
  apply inv_releases. intros k Hk. rewrite lookup_alter_id. by apply fmap_is_Some.
Qed.

Lemma import_write_inv s commit t0 t1 t2 actor m signed revision policy d0 d :
  inv d0 d -> inv d0 (import_write s commit t0 t1 t2 actor m signed revision policy d).2.
Proof.
  apply mutate_preserves. intros cx. unfold persistRelease, persistArtifactMetadata. statements; apply preserves_exec; intros d1; apply inv_releases;
    intros k Hk; apply lookup_insert_is_Some'; by right.
Qed.

Lemma artifact_write_inv `{Externals} s commit t0 t1 actor rid aid a d0 d : inv d0 d -> inv d0 (artifact_write s commit t0 t1 actor rid aid a d).2.
Proof. apply mutate_preserves. intros cx. statements. Qed.

(** ** Deletion *)

Lemma wf_remove_rollout id d : wf d -> wf (remove_rollout id d).
Proof.
  intros (Hr & Ht & Hw & Ho & (Ha & Hb)). refine (conj _ (conj _ (conj _ (conj _ (conj _ _))))); cbn.
  - intros j r [_ Hj]%lookup_delete_Some. exact (Hr j r Hj).
  - intros j t [Hj Hne]%lookup_delete_where. destruct (Ht j t Hj) as (Hok & r & Hr' & Hrest). split; [done|]. exists r. split; [|done].
    rewrite lookup_delete_ne; [done|]. by apply String.eqb_neq in Hne.
  - intros j r w [Hne Hj]%lookup_delete_Some Hwr. destruct (Hw j r w Hj Hwr) as (tid & t & Hti & Hro & Hwa). exists tid, t. split_and!; [|done|done].
    apply lookup_delete_where. split; [done|]. apply String.eqb_neq. congruence.
  - intros id1 id2 t1 t2 n [H1 _]%lookup_delete_where [H2 _]%lookup_delete_where. by eapply Ho.
  - intros k a [Hk Hc]%lookup_delete_where. destruct (Ha k a Hk) as (t & Hta & Hop). exists t. split; [|done]. apply lookup_delete_where. by rewrite Hta in Hc.
  - intros j t h [Hj Hne]%lookup_delete_where Hn. destruct (Hb j t h Hj Hn) as (a & Hk & Hat & Han). exists a. split; [|done]. apply lookup_delete_where.
    by rewrite Hat, Hj.
Qed.

Lemma inv_remove_rollout id d0 d : inv d0 d -> inv d0 (remove_rollout id d).
Proof.
  intros [Hw (Hcr & Hct & Htr)]. split; [by apply wf_remove_rollout|]. split_and!; cbn; [| |exact Htr].
  - intros j r [_ Hj]%lookup_delete_Some. by apply Hcr.
  - intros j t [Hj _]%lookup_delete_where. by apply Hct.
Qed.

Lemma deleteRollout_inv id d0 : preserves (inv d0) (deleteRollout id).
Proof. unfold deleteRollout. statements. apply preserves_exec. intros d. apply inv_remove_rollout. Qed.

Lemma DeleteRollout_inv s commit t0 t1 actor id d0 d : inv d0 d -> inv d0 (DeleteRollout s commit t0 t1 actor id d).2.
Proof.
  unfold DeleteRollout. destruct (negb _); [done|]. apply mutate_preserves. intros cx. apply preserves_then; [apply deleteRollout_inv|]. auto with rollout.
Qed.

(** A release no rollout refers to. *)
Lemma count_where_none `{Countable K} {V} (c : K -> V -> bool) (m : gmap K V) k v : count_where c m <= 0 -> m !! k = Some v -> c k v = false.
Proof.
  intros Hc Hk. destruct (c k v) eqn:E; [|done]. exfalso. assert ((k, v) ∈ rows_where c m) as Hin by (by apply elem_of_rows_where).
  unfold count_where, llen in Hc. destruct (rows_where c m); [by apply not_elem_of_nil in Hin|cbn in Hc; lia].
Qed.

Lemma deleteRelease_inv id d0 : preserves (inv d0) (deleteRelease id).
Proof.
  intros d u d' Hd (v & d1 & ->%reads_loadRelease & Hx)%andThen_ok. destruct (negb _); [done|]. apply andThen_ok in Hx as (n & d1 & [-> ->]%query_val & Hx).
  rewrite Z.gtb_ltb in Hx. destruct (0 <? _) eqn:E; [done|]. apply Z.ltb_ge in E. apply andThen_ok in Hx as (n1 & d1 & [-> ->]%query_val & Hx).
  apply andThen_ok in Hx as (n2 & d1 & [-> ->]%query_val & Hx). apply andThen_ok in Hx as (u1 & d1 & ->%exec_val & Hx).
  apply andThen_ok in Hx as (u2 & d1 & ->%exec_val & Hx). apply andThen_ok in Hx as (n3 & d1 & [-> ->]%query_val & [-> ->]%ret_ok).
  destruct Hd as [(Hr & Hrest) Hc]. split; [|exact Hc]. split; [|exact Hrest]. intros j r Hj. destruct (Hr j r Hj) as (H1 & H2 & H3 & H4 & H5).
  refine (conj H1 (conj H2 (conj H3 (conj _ H5)))). cbn. rewrite lookup_delete_ne; [done|]. intros E'.
  pose proof (count_where_none _ _ j r E Hj) as Hx. cbn in Hx. by rewrite <- E', String.eqb_refl in Hx.
Qed.

Lemma DeleteRelease_inv s commit t0 t1 actor id files d0 d : inv d0 d -> inv d0 (DeleteRelease s commit t0 t1 actor id files d).2.
Proof.
  unfold DeleteRelease. destruct (negb _); [done|]. intros Hd.
  match goal with |- context [mutate ?s ?c ?t0 ?t1 ?a ?f ?d] => pose proof (mutate_preserves (inv d0) s c t0 t1 a f d) as Hm; destruct (mutate s c t0 t1 a f d) as [[x|e] d'] end;
    (cbn in *; apply Hm; [|done]; intros cx; apply preserves_then; [apply deleteRelease_inv|]; intros; auto with rollout).
Qed.

Lemma unless_conflict_preserves {A} P (m : tx A) : preserves P m -> preserves P (unless_conflict m).
Proof. intros Hm d a d' Hd. unfold unless_conflict. destruct (m d) as [[b d1]|[]] eqn:E; intros [= <- <-]; [by eapply Hm|done]. Qed.

Lemma delete_rollouts_inv cx ids d0 : preserves (inv d0) (delete_rollouts cx ids).
Proof.
  induction ids as [|id ids IH]; cbn; [auto with rollout|]. apply preserves_then; [apply unless_conflict_preserves, deleteRollout_inv|].
  intros [n|]; [|done]. apply preserves_then; [auto with rollout|]. intros _. apply preserves_then; [done|]. auto with rollout.
Qed.

Lemma delete_releases_inv cx ids d0 : preserves (inv d0) (delete_releases cx ids).
Proof.
  induction ids as [|id ids IH]; cbn; [auto with rollout|]. apply preserves_then; [apply unless_conflict_preserves, deleteRelease_inv|].
  intros [n|]; [|done]. apply preserves_then; [auto with rollout|]. intros _. apply preserves_then; [done|]. auto with rollout.
Qed.

(** ** The other services

    Nodes, groups, unfinished operations and owners change at any time; when a node is
    deleted its targets lose it ([ON DELETE SET NULL]). *)
Definition environment (nodes : gmap string NodeRow) (groups busy : gset string) (admins : gmap (string * string) AdminRow) (d : Tables) : Tables :=
  let lost t := match tg_node t with Some n => bool_decide (nodes !! n = None) | None => false end in
  mkTables (tb_rollouts d) (update_where (fun _ t => lost t) (set_node None) (tb_targets d)) (tb_attempts d) (tb_releases d) (tb_artifacts d) (tb_trust d)
    (tb_policies d) (tb_policy d) (tb_events d) (tb_audit d) nodes groups busy admins.

Lemma environment_inv nodes groups busy admins d0 d : inv d0 d -> inv d0 (environment nodes groups busy admins d).
Proof.
  intros Hd. set (lost t := match tg_node t with Some n => bool_decide (nodes !! n = None) | None => false end).
  eapply (inv_core _ (set_targets (update_where (fun _ t => lost t) (set_node None) (tb_targets d)) d)); [done|].
  eapply (inv_targets (fun _ t => if lost t then set_node None t else t)); [intros; by rewrite lookup_update_where| | |done].
  - intros id t _ Hok. destruct (lost t); [|by apply target_step_refl]. destruct Hok as (H1 & H2 & H3).
    unfold target_step, target_ok, untouched. cbn. split_and!; try done; try tauto.
  - intros k a t _ _ _ Hu. by destruct (lost t).
Qed.
