(* ===== verification/RolloutRun.v ===== *)
(** * Agent rollouts: runs of the service

    The transactions of the service as operations on the tables, and runs of them in any
    order. Every reachable state satisfies the invariant. *)

From S2P Require Import Prelude GoText GoNumber ReleaseVersion GoSha256 GoTable UpdateModel RolloutModel RolloutService RolloutRelease RolloutInvariant RolloutSteps.

Section runs.
Context `{Externals}.

(** ** Runs *)

(** The committed transactions of the service, with all they are given; whole operations
    where they are one transaction. [OpEnvironment]: the tables of others change. *)
Inductive operation :=
  | OpInitialize (t0 : Time)
  | OpCreate (now t0 t1 : Time) (id : string) (fresh : nat -> string) (actor : Actor) (input : CreateInput)
  | OpPromote (t0 t1 : Time) (actor : Actor) (id : string)
  | OpPause (t0 t1 : Time) (actor : Actor) (id : string)
  | OpAbort (t0 t1 : Time) (actor : Actor) (id : string)
  | OpResume (t0 t1 : Time) (actor : Actor) (id : string) (acknowledge : bool)
  | OpLeaseFirst (t0 : Time) (identity : AgentIdentity) (caps : Capabilities)
  | OpLeaseMissing (t1 : Time) (identity : AgentIdentity) (c : leaseCandidate)
  | OpLeaseSecond (t1 t2 : Time) (id : string) (nonce : list Z) (identity : AgentIdentity) (caps : Capabilities) (c : leaseCandidate)
  | OpObserve (now t0 : Time) (identity : AgentIdentity) (o : Observation)
  | OpRecover (t0 : Time)
  | OpRestore (now : Time)
  | OpImport (t0 t1 t2 : Time) (actor : Actor) (m : Manifest) (signed : SignedManifest) (revision : Z) (policy : string)
  | OpRevokeKey (t0 t1 : Time) (actor : Actor) (id : string)
  | OpRevokeRelease (t0 t1 : Time) (actor : Actor) (id : string)
  | OpArtifact (t0 t1 : Time) (actor : Actor) (releaseID artifactID : string) (a : Artifact)
  | OpDeleteRollout (t0 t1 : Time) (actor : Actor) (id : string)
  | OpDeleteRelease (t0 t1 : Time) (actor : Actor) (id : string)
  | OpPruneRollouts (t0 : Time) (ids : list string)
  | OpPruneReleases (t0 : Time) (ids : list string)
  | OpEnvironment (nodes : gmap string NodeRow) (groups busy : gset string) (admins : gmap (string * string) AdminRow).

Definition run_operation (s : Service) (commit : bool) (op : operation) (d : Tables) : Tables :=
  match op with
  | OpInitialize t0 => (initializeTrust s commit t0 d).2
  | OpCreate now t0 t1 id fresh actor input => (Create s commit now t0 t1 id fresh actor input d).2
  | OpPromote t0 t1 actor id => (Promote s commit t0 t1 actor id d).2
  | OpPause t0 t1 actor id => (Pause s commit t0 t1 actor id d).2
  | OpAbort t0 t1 actor id => (RolloutService.Abort s commit t0 t1 actor id d).2
  | OpResume t0 t1 actor id ack => (Resume s commit t0 t1 actor id ack d).2
  | OpLeaseFirst t0 identity caps => (lease_first s commit t0 identity caps d).2
  | OpLeaseMissing t1 identity c => (lease_missing s commit t1 identity c d).2
  | OpLeaseSecond t1 t2 id nonce identity caps c => (lease_second s commit t1 t2 id nonce identity caps c d).2
  | OpObserve now t0 identity o => (Observe s commit now t0 identity o d).2
  | OpRecover t0 => (Recover s commit t0 d).2
  | OpRestore now => (ReconcileRestore commit now d).2
  | OpImport t0 t1 t2 actor m signed revision policy => (import_write s commit t0 t1 t2 actor m signed revision policy d).2
  | OpRevokeKey t0 t1 actor id => (RevokeKey s commit t0 t1 actor id d).2
  | OpRevokeRelease t0 t1 actor id => (RevokeRelease s commit t0 t1 actor id d).2
  | OpArtifact t0 t1 actor rid aid a => (artifact_write s commit t0 t1 actor rid aid a d).2
  | OpDeleteRollout t0 t1 actor id => (DeleteRollout s commit t0 t1 actor id d).2
  | OpDeleteRelease t0 t1 actor id => (DeleteRelease s commit t0 t1 actor id ∅ d).2
  | OpPruneRollouts t0 ids => (mutateSystem s commit t0 (fun cx => delete_rollouts cx ids) d).2
  | OpPruneReleases t0 ids => (mutateSystem s commit t0 (fun cx => delete_releases cx ids) d).2
  | OpEnvironment nodes groups busy admins => environment nodes groups busy admins d
  end.

(** A run: any transactions in any order, each by a service started in its own way (the
    server may be started again with other keys), with commits that may fail. *)
Definition step : Type := Service * bool * operation.
Definition run (steps : list step) (d : Tables) : Tables := foldl (fun d x => run_operation x.1.1 x.1.2 x.2 d) d steps.

Definition empty_tables : Tables := mkTables ∅ ∅ ∅ ∅ ∅ ∅ ∅ None [] [] ∅ ∅ ∅ ∅.

(** Promoting, resuming and offering are the only operations that are not calm. *)
Definition calm_operation (op : operation) : bool :=
  match op with OpPromote _ _ _ _ | OpResume _ _ _ _ _ | OpLeaseSecond _ _ _ _ _ _ _ => false | _ => true end.

Lemma calm_operation_inv s commit op d : calm_operation op = true -> wf d -> inv d (run_operation s commit op d).
Proof.
  intros Hop Hd. assert (inv d d) as Hi by (split; [done|apply calm_refl]). destruct op; try done; cbn [run_operation].
  - by apply initializeTrust_inv.
  - by apply Create_inv.
  - apply control_inv; [by left|done].
  - apply control_inv; [by right|done].
  - by apply lease_first_inv.
  - by apply lease_missing_inv.
  - by apply Observe_inv.
  - by apply Recover_inv.
  - by apply ReconcileRestore_inv.
  - by apply import_write_inv.
  - by apply RevokeKey_inv.
  - by apply RevokeRelease_inv.
  - by apply artifact_write_inv.
  - by apply DeleteRollout_inv.
  - by apply DeleteRelease_inv.
  - apply mutateSystem_preserves; [|done]. intros cx. apply delete_rollouts_inv.
  - apply mutateSystem_preserves; [|done]. intros cx. apply delete_releases_inv.
  - by apply environment_inv.
Qed.

Lemma rollout_operation_wf s commit op d : wf d -> wf (run_operation s commit op d).
Proof.
  intros Hd. destruct (calm_operation op) eqn:E; [by apply calm_operation_inv|]. destruct op; try done; cbn [run_operation].
  - by apply Promote_wf.
  - by apply Resume_wf.
  - by apply lease_second_wf.
Qed.

Lemma rollout_run_wf steps d : wf d -> wf (run steps d).
Proof. revert d. induction steps as [|x steps IH]; intros d Hd; [done|]. by apply IH, rollout_operation_wf. Qed.

Lemma empty_tables_wf : wf empty_tables.
Proof. refine (conj _ (conj _ (conj _ (conj _ (conj _ _))))); cbn; intros *; rewrite ?lookup_empty; done. Qed.

Lemma rollout_run_snoc steps x d : run (steps ++ [x]) d = run_operation x.1.1 x.1.2 x.2 (run steps d).
Proof. unfold run. by rewrite foldl_app. Qed.
End runs.
