(* ===== verification/RolloutSample.v ===== *)
(** * Agent rollouts: a concrete rollout

    One release, two nodes in two waves, and a rollout from its creation to its end, with
    the manifest, the keys and the agent of [UpdateSample]. *)

From S2P Require Import Prelude GoText GoNumber ReleaseVersion GoSha256 GoTable UpdateModel UpdateDisk UpdateSupervisor UpdateLogic UpdateSample RolloutModel RolloutService RolloutRelease RolloutInvariant RolloutSteps RolloutRun.
#[local] Existing Instance sample_externals.

Definition sample_service : Service :=
  mkService {["key" := mkTrustedKey "key" (repeat 7 32) 1 (sample_now + Hour)]} (Some ("revision", "root", [])) true false true 1 3.
Definition sample_actor : Actor := mkActor "user" "session".
Definition sample_admins : gmap (string * string) AdminRow :=
  {[("user", "session") := mkAdminRow "root" "owner" true false (sample_now + Hour) (sample_now + Hour) (Some (sample_now + Hour))]}.
Definition sample_node (version : string) (hash : Z) (seen : Time) : NodeRow :=
  mkNodeRow (repeat hash 32) true false "a node" "" ["edge"] version "linux" "x86_64" (Some seen).
Definition sample_nodes (v1 v2 : string) (seen : Time) : gmap string NodeRow := {["node" := sample_node v1 1 seen; "other" := sample_node v2 2 seen]}.
Definition sample_identity (id : string) (hash : Z) : AgentIdentity := mkIdentity id "active" (EncodeHex (Sum256 (repeat hash 32))).
Definition sample_capabilities : Capabilities := mkCapabilities "1.0.0" "linux" "amd64" "systemd" true 1000 3.
Definition sample_policy : Policy := mkPolicy 0 0 0 30 0 0 0 0 0 false 0 0.
Definition sample_input : CreateInput := mkCreateInput "name" (releaseDigest [1; 2; 3]) [] [] ["edge"] sample_policy "" false.
Definition sample_fresh (k : nat) : string := if decide (k = 0%nat) then "target-0" else "target-1".
Definition sample_nonce : list Z := repeat 9 32.
Definition sample_candidate (tid : string) : leaseCandidate :=
  mkCandidate tid (mkTarget "rollout" None "" "" "" "" "" 0 TPending "" "" "" None None None None 0)
    (mkRollout "" "" "" Paused "" sample_policy 0 0 0 0) (mkRelease "" sample_manifest sample_signed) (sample_node "" 0 0) sample_artifact.
Definition sample_report (attempt : string) (at_ : Time) (outcome : string) : Observation := mkObservation attempt (EncodeHex sample_nonce) "2.0.0" at_ 1 0 0 0 outcome.

Definition seconds (n : Z) : Time := sample_now + n * Second.
Definition by_service (op : operation) : step := (sample_service, true, op).

(** The server starts, a release and its artifact are stored, a rollout is created. *)
Definition prepared_steps : list step := map by_service [
  OpEnvironment (sample_nodes "1.0.0" "1.0.0" (seconds 0)) ∅ ∅ sample_admins;
  OpInitialize (seconds 0);
  OpImport (seconds 0) (seconds 0) (seconds 0) sample_actor sample_manifest sample_signed 1 "revision";
  OpArtifact (seconds 1) (seconds 1) sample_actor (releaseDigest [1; 2; 3]) "agent" sample_artifact;
  OpCreate (seconds 2) (seconds 2) (seconds 2) "rollout" sample_fresh sample_actor sample_input].
(** The first wave is opened and its node gets an offer. *)
Definition offered_steps : list step := prepared_steps ++ map by_service [
  OpPromote (seconds 3) (seconds 3) sample_actor "rollout";
  OpLeaseFirst (seconds 4) (sample_identity "node" 1) sample_capabilities].
Definition sample_offer : operation := OpLeaseSecond (seconds 5) (seconds 5) "assignment" sample_nonce (sample_identity "node" 1) sample_capabilities (sample_candidate "target-0").
(** It updates, reports for the observation time and is healthy; the next wave is opened. *)
Definition healthy_steps : list step := offered_steps ++ map by_service [
  sample_offer;
  OpEnvironment (sample_nodes "2.0.0" "1.0.0" (seconds 20)) ∅ ∅ sample_admins;
  OpObserve (seconds 20) (seconds 20) (sample_identity "node" 1) (sample_report "assignment" (seconds 20) "healthy");
  OpEnvironment (sample_nodes "2.0.0" "1.0.0" (seconds 50)) ∅ ∅ sample_admins;
  OpObserve (seconds 50) (seconds 50) (sample_identity "node" 1) (sample_report "assignment" (seconds 50) "healthy")].
Definition second_wave_steps : list step := healthy_steps ++ map by_service [OpPromote (seconds 51) (seconds 51) sample_actor "rollout"].

Definition rollout_view (d : Tables) : option (rolloutState * Z * Z) := (fun r => (ro_State r, ro_CurrentWave r, ro_TotalWaves r)) <$> tb_rollouts d !! "rollout".
Definition target_view (d : Tables) (id : string) : option (targetState * Z) := (fun t => (tg_State t, tg_Wave t)) <$> tb_targets d !! id.

Example sample_prepared : let d := run prepared_steps empty_tables in
  rollout_view d = Some (Paused, -1, 2) /\ target_view d "target-0" = Some (TPending, 0) /\ target_view d "target-1" = Some (TPending, 1).
Proof. vm_compute. auto. Qed.
Example sample_offered : let d := run (offered_steps ++ [by_service sample_offer]) empty_tables in
  rollout_view d = Some (Active, 0, 2) /\ target_view d "target-0" = Some (TOffered, 0) /\ target_view d "target-1" = Some (TPending, 1).
Proof. vm_compute. auto. Qed.
Example sample_second_wave : let d := run second_wave_steps empty_tables in
  rollout_view d = Some (Active, 1, 2) /\ target_view d "target-0" = Some (THealthy, 0) /\ target_view d "target-1" = Some (TPending, 1).
Proof. vm_compute. auto. Qed.

(** The offer itself. *)
Definition sample_leased : result rolloutError Assignment * Tables :=
  lease_second sample_service true (seconds 5) (seconds 5) "assignment" sample_nonce (sample_identity "node" 1) sample_capabilities (sample_candidate "target-0")
    (run offered_steps empty_tables).
Definition sample_assigned : Assignment := match sample_leased.1 with Ok a => a | Err _ => sample_assignment end.

(** The download of its artifact. *)
Definition sample_files : gmap string (list Z) := {[EncodeHex (Sum256 (elf 2)) := elf 2]}.
Definition sample_request : DownloadRequest := mkDownloadRequest (sample_identity "node" 1) "assignment" "agent" (EncodeHex sample_nonce).
Definition sample_download : result rolloutError Download :=
  OpenDownload sample_service false true true (seconds 6) (seconds 7) sample_request sample_files sample_leased.2 sample_leased.2.
