(* ===== verification/RolloutSafety.v ===== *)
(** * Agent rollouts: theorems

    The invariant in every reachable state, and what the service promises: waves open one
    after another and only when the wave before is healthy, offers are made only to
    eligible nodes of the open wave, a failure stops a rollout, downloads are authorized,
    a restored database offers nothing, a revoked key stays revoked. *)

From S2P Require Import Prelude GoText GoNumber ReleaseVersion GoSha256 GoTable UpdateModel UpdateSample RolloutModel RolloutService RolloutRelease RolloutInvariant RolloutSteps RolloutRun RolloutSample.

Section theorems.
Context `{Externals}.

(** C26. The rollout tables stay consistent. Whatever transactions of the service run, in
    any order and interleaved in any way, with any clock, any keys, any identifiers and
    any failing commits, while nodes come and go: a rollout's current wave is in range,
    it is active only after its first promotion, completed only in its last wave, and its
    release, policy and action are valid; every wave has a target; nothing was offered to
    a target of a wave that is not yet open; a target holds a nonce exactly while it has
    an expiry, and only after an offer; a node has at most one update in flight; and an
    attempt is open only while it is the current attempt of a target in flight. *)
Theorem rollout_invariant steps : wf (run steps empty_tables).
Proof. apply rollout_run_wf, empty_tables_wf. Qed.

(** ** Waves *)

(** The actor is an enabled owner whose session is neither revoked nor over, and who has
    authenticated again recently. *)
Definition recent_owner (actor : Actor) (t : Time) (d : Tables) : Prop :=
  exists u, tb_admins d !! (ac_UserID actor, ac_SessionID actor) = Some u /\ ad_role u = "owner" /\ ad_enabled u = true /\ ad_revoked u = false /\
    t < ad_idle u /\ t < ad_absolute u /\ exists until, ad_recent u = Some until /\ t < until.
Lemma authority_owner actor t d x : authority actor true t d = Ok x -> recent_owner actor t d.
Proof.
  destruct x. unfold authority. intros (row & d1 & [-> ->]%query_val & Hx)%andThen_ok. destruct (tb_admins d !! _) as [u|] eqn:Eu; [|done].
  destruct (_ || _) eqn:E; [done|]. destruct (ad_recent u) as [until|] eqn:Hre; [|done]. cbn [andb] in Hx. destruct (Before t until) eqn:Er; [|done].
  unfold After, Before in *. go_bool. exists u. naive_solver.
Qed.

(** What one transaction does to the wave of a rollout. *)
Lemma wave_step s commit op d id r : wf d -> tb_rollouts (run_operation s commit op d) !! id = Some r ->
  dormant r \/ (exists r0, tb_rollouts d !! id = Some r0 /\ ro_CurrentWave r = ro_CurrentWave r0 /\ (ro_State r = Completed -> ro_State r0 = Completed)) \/
  exists t0 t1 actor r0, op = OpPromote t0 t1 actor id /\ tb_rollouts d !! id = Some r0 /\ ((Promote s commit t0 t1 actor id d).1 = Ok tt /\ recent_owner actor t0 d) /\
    may_promote s t0 id r0 d /\ r = promoted t0 r0.
Proof.
  intros Hd Hr. destruct (calm_operation op) eqn:E.
  { apply (calm_operation_inv s commit _ d) in E as (_ & [Hc _]); [|done]. specialize (Hc id r Hr). destruct (tb_rollouts d !! id) as [r0|]; [|by left].
    destruct Hc as (? & _ & ?). right; left. eauto. }
  destruct op as [| |t0 t1 actor pid| | |t0 t1 actor rid ack| | |t1 t2 aid nonce identity caps c| | | | | | | | | | | |]; try done; cbn [run_operation] in Hr.
  - destruct (Promote s commit t0 t1 actor pid d) as [res d'] eqn:Ep. cbn in Hr. pose proof Ep as Epr. apply Promote_val in Ep as [[_ ->]|(r0 & Hr0 & [-> [user Hau%authority_owner]] & Hm & Hcore)]; [right; left; eauto|].
    unfold core in Hcore. injection Hcore as Ec _ _ _ _. rewrite Ec in Hr. cbn in Hr. apply lookup_insert_Some in Hr as [[<- <-]|[_ Hr]]; right; [right; exists t0, t1, actor, r0; by rewrite Epr|left; eauto].
  - destruct (Resume s commit t0 t1 actor rid ack d) as [res d'] eqn:Ep. cbn in Hr. apply Resume_val in Ep as [[_ ->]|(r0 & Hr0 & Hs & _ & _ & _ & Hcore)]; right; left; [eauto|].
    unfold core in Hcore. injection Hcore as Ec _ _ _ _. rewrite Ec in Hr. cbn in Hr. apply lookup_insert_Some in Hr as [[<- <-]|[_ Hr]]; [exists r0; done|eauto].
  - destruct (lease_second_wf s commit t1 t2 aid nonce identity caps c d Hd) as [_ Hc]. specialize (Hc id r Hr).
    destruct (tb_rollouts d !! id) as [r0|]; [|by left]. destruct Hc as (? & _ & ?). right; left. eauto.
Qed.

Lemma waveHealthy_val id r t0 d d' : waveHealthy id r t0 d = Ok (tt, d') -> exists release, tb_releases d !! ro_ReleaseID r = Some release /\
  forall tid t, tb_targets d !! tid = Some t -> tg_rollout t = id -> tg_Wave t = ro_CurrentWave r ->
    validWaveHealth t (node_of d t) (sr_version release) (ro_Policy r) t0 = true.
Proof.
  unfold waveHealthy. intros (d1 & d2 & [-> ->]%query_val & Hx)%andThen_ok. destruct (tb_releases d !! ro_ReleaseID r) as [release|]; [|done].
  exists release. split; [done|]. destruct (_ && _) eqn:E; [|done]. apply andb_prop in E as [E _]. intros tid t Hid Hro Hw. rewrite forallb_forall in E.
  apply (E (tid, t)), list_elem_of_In, elem_of_rows_where. by rewrite Hro, Hw, String.eqb_refl, Z.eqb_refl.
Qed.

(** Somewhere in the run an owner promoted the rollout from wave [w], successfully, and
    every target of the wave was healthy then. *)
Definition promoted_healthy (steps : list step) (id : string) (w : Z) : Prop :=
  exists before s commit t0 t1 actor after r0 release,
    steps = before ++ (s, commit, OpPromote t0 t1 actor id) :: after /\
    (Promote s commit t0 t1 actor id (run before empty_tables)).1 = Ok tt /\ recent_owner actor t0 (run before empty_tables) /\
    tb_rollouts (run before empty_tables) !! id = Some r0 /\ ro_CurrentWave r0 = w /\ tb_releases (run before empty_tables) !! ro_ReleaseID r0 = Some release /\
    forall tid t, tb_targets (run before empty_tables) !! tid = Some t -> tg_rollout t = id -> tg_Wave t = w ->
      validWaveHealth t (node_of (run before empty_tables) t) (sr_version release) (ro_Policy r0) t0 = true.

Lemma promoted_healthy_snoc steps x id w : promoted_healthy steps id w -> promoted_healthy (steps ++ [x]) id w.
Proof.
  intros (before & s & commit & t0 & t1 & actor & after & r1 & release & -> & Hrest).
  exists before, s, commit, t0, t1, actor, (after ++ [x]), r1, release. split; [|done]. by rewrite <- app_assoc.
Qed.

(** C27. Waves open in order, and none before the wave before it is healthy. In every run,
    if the current wave of a rollout is past wave [w], or the rollout is completed in it,
    then a step of the run promoted the rollout, successfully, when [w] was its current
    wave. It was called by an enabled owner whose session was neither revoked nor over and
    who had authenticated again recently, and at that moment every target of [w] was
    healthy: its node still existed, ran the version of the release and had been seen
    within the report freshness, the target was in state healthy for the whole observation
    time, and its last report was fresh. *)
Theorem waves_open_in_order steps id r w : tb_rollouts (run steps empty_tables) !! id = Some r -> 0 <= w ->
  w < ro_CurrentWave r \/ ro_State r = Completed /\ w = ro_CurrentWave r -> promoted_healthy steps id w.
Proof.
  revert r. induction steps as [|[[s commit] op] steps IH] using rev_ind; intros r Hr Hw Hc; [cbn in Hr; by rewrite lookup_empty in Hr|].
  rewrite rollout_run_snoc in Hr. cbn [fst snd] in Hr. set (d := run steps empty_tables) in *.
  assert (wf d) as Hd by apply rollout_run_wf, empty_tables_wf.
  destruct (wave_step s commit op d id r Hd Hr) as [(Hn & Hn1 & Hn2)|[(r0 & Hr0 & Hcur & Hcomp)|(t0 & t1 & actor & r0 & -> & Hr0 & [Hok How] & (Hp & _ & Hh) & ->)]].
  - exfalso. destruct Hc as [Hc|[Hc _]]; [lia|done].
  - apply promoted_healthy_snoc. eapply IH; [exact Hr0|done|]. rewrite <- Hcur. naive_solver.
  - assert (w < ro_CurrentWave r0 \/ w = ro_CurrentWave r0) as [Hlt| ->].
    { revert Hc. unfold promoted. destruct (_ >=? _); cbn; intros [?|[? ?]]; try lia; try done. }
    + apply promoted_healthy_snoc. eapply IH; [exact Hr0|done|by left].
    + destruct (waveHealthy_val id r0 t0 d d (Hh Hw)) as (release & Hrel & Hall).
      exists steps, s, commit, t0, t1, actor, [], r0, release. done.
Qed.

(** ** Offers *)

(** What holds when a target gets an offer, in the tables before it. *)
Inductive offer_allowed (s : Service) (at_ : Time) (identity : AgentIdentity) (caps : Capabilities) (tid : string) (d : Tables) : Prop :=
  OfferAllowed (t : Target) (r : Rollout) (release : Release) (n : NodeRow) (a : Artifact)
    (row : tb_targets d !! tid = Some t)
    (own : tg_node t = Some (id_NodeID identity))
    (credential : agent identity d = Ok (n, d))
    (waits : waiting t = true)
    (parent : tb_rollouts d !! tg_rollout t = Some r)
    (active : ro_State r = Active)
    (wave : tg_Wave t = ro_CurrentWave r)
    (window : in_window (ro_Policy r) at_ = true)
    (trusted : releaseInTransaction s (ro_ReleaseID r) at_ d = Ok (release, d))
    (suitable : eligible t r (rl_Manifest release) n caps at_ d = inl a)
    (ready : exists row, tb_artifacts d !! (rl_ID release, Ar_ID a) = Some row /\ af_ready row = true)
    (alone : forall id' t', tb_targets d !! id' = Some t' -> tg_node t' = Some (id_NodeID identity) -> in_flight t' = false)
    (capacity : count_where (fun _ t' => (tg_rollout t' =s tg_rollout t) && in_flight t') (tb_targets d) < po_MaxConcurrent (ro_Policy r)).

Lemma eligible_window t r m n caps at_ d a : eligible t r m n caps at_ d = inl a -> in_window (ro_Policy r) at_ = true.
Proof. unfold eligible. destruct (platformArtifact m caps); [|done]. destruct (filter _ _); [|done]. by destruct (in_window _ _). Qed.

Lemma leasable_allowed s at_ identity n caps c d : wf d -> agent identity d = Ok (n, d) -> leasable s at_ (id_NodeID identity) n caps c d ->
  offer_allowed s at_ identity caps (lc_id c) d.
Proof.
  intros Hd Hag (Hdue%due_target_val & Hr & Hrel & He & Hready & Hown & Hfly). destruct Hdue as (Hid & Hn & Hw & r & Hr' & Ha & Hcur).
  assert (r = lc_rollout c) as -> by congruence. destruct (wf_target _ _ _ Hd Hid) as (_ & _ & Hnode). specialize (Hnode _ Hn). rewrite <- Hnode in *.
  refine (OfferAllowed _ _ _ _ _ _ (lc_target c) (lc_rollout c) (lc_release c) n (lc_artifact c) Hid Hn Hag Hw Hr Ha _ _ Hrel He Hready _ _).
  - done.
  - by eapply eligible_window.
  - intros id' t' Hid' Hn'. assert (flying_own (id_NodeID identity) d <= 0) as Hle by lia.
    pose proof (count_where_none _ _ id' t' Hle Hid') as Hc. cbn in Hc. by rewrite (bool_decide_true _ Hn') in Hc.
  - eapply Z.le_lt_trans; [|exact Hfly]. unfold flying, count_where, llen. apply inj_le, submseteq_length. apply NoDup_submseteq; [apply NoDup_rows_where|].
    intros [k v]. rewrite !elem_of_rows_where. intros [Hk Hc]. split; [done|]. apply andb_prop in Hc as [-> ->]. done.
Qed.

(** C28. Updates are offered only where they may be. If some transaction of the service
    leaves a target with an offer it did not have before, the transaction is the second
    one of a lease by the agent of that very node, and in the tables before it: the
    agent's credential was valid, the rollout was active, the target was in its current
    wave, waiting, and inside the maintenance window; the release was verified, not
    revoked, signed by a trusted key and compatible; the node was eligible on its platform
    and version, the artifact was there; no update was in flight on the node, and fewer
    than the permitted number in the rollout. *)
Theorem offers_gated s commit op d tid t : wf d -> tb_targets (run_operation s commit op d) !! tid = Some t -> tg_State t = TOffered ->
  (exists t0, tb_targets d !! tid = Some t0 /\ tg_State t0 = TOffered /\ tg_attempt t = tg_attempt t0) \/
  exists t1 t2 aid nonce identity caps first, op = OpLeaseSecond t1 t2 aid nonce identity caps first /\ tg_attempt t = aid /\
    offer_allowed s t1 identity caps tid d.
Proof.
  intros Hd Ht Hs. destruct (calm_operation op) eqn:E.
  { apply (calm_operation_inv s commit _ d) in E as (_ & (_ & Hc & _)); [|done]. left. by apply Hc. }
  destruct op as [| |t0 t1 actor pid| | |t0 t1 actor rid ack| | |t1 t2 aid nonce identity caps c| | | | | | | | | | | |]; try done; cbn [run_operation] in Ht.
  - left. destruct (Promote_wf s commit t0 t1 actor pid d Hd) as [_ Hc]. by apply Hc.
  - left. destruct (Resume s commit t0 t1 actor rid ack d) as [res d'] eqn:Ep. cbn in Ht. apply Resume_val in Ep as [[_ ->]|(r0 & _ & _ & _ & _ & _ & Hcore)]; [eauto|].
    unfold core in Hcore. injection Hcore as _ Ec _ _ _. rewrite Ec in Ht. eauto.
  - destruct (lease_second s commit t1 t2 aid nonce identity caps c d) as [res d'] eqn:Ep. cbn in Ht.
    apply lease_second_val in Ep as [[_ ->]|(c' & n & t0 & _ & Hag & Hl & _ & _ & Hid & -> & _ & _ & Hcore)]; [left; eauto|].
    unfold core in Hcore. injection Hcore as _ Ec _ _ _. rewrite Ec in Ht. cbn in Ht. apply lookup_insert_Some in Ht as [[<- <-]|[_ Ht]]; [right|left; eauto].
    exists t1, t2, aid, nonce, identity, caps, c. split_and!; [done|done|]. by eapply leasable_allowed.
Qed.

(** ** Reports *)

(** Whether the report is a failure of a target. *)
Definition failing (t : Target) (r : Rollout) (o : Observation) : bool :=
  bool_decide (tg_State t = TFailed) || (thresholdFailure o (ro_Policy r) (transientErrorBudget (tg_State t)) <>s "").

Lemma observationState_failing cx t r n o d x d' : observationState cx t r n o d = Ok (x, d') ->
  (x.1.1 = TFailed <-> failing t r o = true) /\
  (x.1.1 = THealthy -> reportReady r n o (cx_at cx) d = Ok (true, d) /\ exists since, x.2 = Some since /\ observation_time (ro_Policy r) <= Sub (cx_at cx) since).
Proof.
  unfold observationState, failing. case_bool_decide; [by intros [-> ->]%ret_ok|]. cbn [orb]. destruct (_ <>s _) eqn:E; [by intros [-> ->]%ret_ok|].
  intros (ready & d1 & Hr & Hx)%andThen_ok. pose proof (reads_reportReady _ _ _ _ _ _ _ Hr) as ->.
  destruct ready; cbn [negb] in Hx; apply ret_ok in Hx as [-> ->]; [|done]. cbn. rewrite Z.geb_leb.
  destruct (observation_time (ro_Policy r) <=? _) eqn:Es; (split; [done|]); [|done]. apply Z.leb_le in Es. intros _. split; [done|]. eexists. split; [reflexivity|exact Es].
Qed.

(** What a report does, whatever it says. A report that is accepted comes from the node
    of the target, with the secret nonce of its current assignment, in order. It leaves
    the target failed exactly when the agent reports a failure or a rollback, a counter is
    over the budget of the policy, or the target had failed before; then its rollout is
    no longer active, so nothing more is offered. It leaves the target healthy only after
    the observation time with the version of the release. *)
Theorem report_outcome s now t0 identity o d d' commit : Observe s commit now t0 identity o d = (Ok tt, d') ->
  exists tid t t' r n, tb_targets d !! tid = Some t /\ tb_targets d' !! tid = Some t' /\ tb_rollouts d !! tg_rollout t = Some r /\
    agent identity d = Ok (n, d) /\ tg_node t = Some (id_NodeID identity) /\ tg_attempt t = ob_AssignmentID o /\ tg_nonce t = Some (Sum256 (bytes (ob_Nonce o))) /\
    (forall last, tg_report t = Some last -> last <= ob_ReportAt o) /\ tg_report t' = Some (ob_ReportAt o) /\
    (tg_State t' = TFailed <-> failing t r o = true) /\
    (tg_State t' = TFailed -> exists r', tb_rollouts d' !! tg_rollout t' = Some r' /\ ro_State r' <> Active) /\
    (tg_State t' = THealthy -> reportReady r n o t0 d = Ok (true, d) /\ exists since, tg_since t' = Some since /\ observation_time (ro_Policy r) <= Sub t0 since).
Proof.
  unfold Observe. destruct (negb _); [done|]. intros [[[e [=]] _]|(u & n & _ & Hag & Hx & _)]%agentMutation_val.
  apply andThen_ok in Hx as ([tid t] & d1 & Hrow & Hx). apply observedTarget_val in Hrow as (-> & Hid & Hn & Hat & Hno & _ & Hlast). cbn [fst snd] in *.
  apply andThen_ok in Hx as (r & d1 & [Hr ->]%rollout_val & Hx). apply recordObservation_val in Hx as (st & reason & since & Hst & _ & Hcore); [|done|done].
  apply observationState_failing in Hst as [Hf Hh]. cbn [fst snd cx_at] in Hf, Hh, Hcore. cbv zeta in Hcore.
  set (t' := observed (mkContext t0 "agent") t o st reason since) in *. exists tid, t, t', r, n.
  assert (tb_targets d' !! tid = Some t') as Ht'.
  { unfold core in Hcore. injection Hcore as _ Ec _ _ _. rewrite Ec. destruct (bool_decide (st = TFailed)); cbn; apply lookup_insert_eq. }
  split_and!; try done; try (intros Hs; by apply Hh). intros Hs. cbn in Hs. subst st. rewrite bool_decide_true in Hcore by done.
  unfold core in Hcore. injection Hcore as Ec _ _ _ _. rewrite Ec. cbn. rewrite lookup_alter_eq, Hr. cbn. eexists. split; [done|].
  destruct (terminalRolloutState (ro_State r)) eqn:E; [|done]. by destruct (ro_State r).
Qed.

(** ** Downloads *)

Lemma downloadTarget_val cx r d t d' : downloadTarget cx r d = Ok (t, d') -> d' = d /\ exists tid, tb_targets d !! tid = Some t /\
  tg_node t = Some (id_NodeID (dr_Identity r)) /\ tg_attempt t = dr_AssignmentID r /\ tg_artifact t = dr_ArtifactID r /\ tg_State t = TOffered /\
  tg_nonce t = Some (Sum256 (bytes (dr_Nonce r))) /\ exists e, tg_expires t = Some e /\ cx_at cx < e.
Proof.
  unfold downloadTarget. intros (x & d1 & [-> ->]%query_val & (row & d2 & [Hrow ->]%require_val & Hx)%andThen_ok)%andThen_ok.
  destruct row as [tid t0]. cbn [fst snd] in Hx. apply head_Some_elem_of, elem_of_rows_where in Hrow as [Hid Hc].
  rewrite andb_true_iff, bool_decide_eq_true, String.eqb_eq in Hc. destruct (tg_expires t0) as [e|] eqn:Ee; [|done].
  destruct (_ || _) eqn:E; [done|]. apply ret_ok in Hx as [-> ->]. rewrite !orb_false_iff, !negb_false_iff, !bool_decide_eq_true, String.eqb_eq in E.
  destruct E as (((Ha & Hs) & Hb) & Hn). split; [done|]. exists tid. split_and!; try tauto. exists e. split; [done|]. unfold Before in Hb. lia.
Qed.

(** What holds while a download is served. *)
Inductive download_allowed (s : Service) (at_ : Time) (q : DownloadRequest) (a : Artifact) (d : Tables) : Prop :=
  DownloadAllowed (tid : string) (t : Target) (r : Rollout) (release : Release) (n : NodeRow)
    (credential : agent (dr_Identity q) d = Ok (n, d))
    (row : tb_targets d !! tid = Some t)
    (own : tg_node t = Some (id_NodeID (dr_Identity q)))
    (assigned : tg_attempt t = dr_AssignmentID q /\ tg_artifact t = Ar_ID a)
    (secret : tg_nonce t = Some (Sum256 (bytes (dr_Nonce q))))
    (offered : tg_State t = TOffered)
    (unexpired : exists e, tg_expires t = Some e /\ at_ < e)
    (parent : tb_rollouts d !! tg_rollout t = Some r)
    (active : ro_State r = Active /\ in_window (ro_Policy r) at_ = true)
    (trusted : releaseInTransaction s (ro_ReleaseID r) at_ d = Ok (release, d))
    (member : a ∈ Ma_Artifacts (rl_Manifest release))
    (platform : Ar_OS a = nd_os n /\ sameArchitecture (Ar_Arch a) (nd_arch n) = true)
    (ready : tb_artifacts d !! (rl_ID release, Ar_ID a) = Some (mkArtifactRow (Ar_SHA256 a) (Ar_Size a) true)).

Lemma downloadAuthorization_allowed s commit t0 q d a e d' : downloadAuthorization s commit t0 q d = (Ok (a, e), d') -> d' = d /\ download_allowed s t0 q a d.
Proof.
  unfold downloadAuthorization. destruct (negb _); [done|]. intros [[[x [=]] _]|(y & n & [= <-] & Hag & Hx & _)]%agentMutation_val.
  apply andThen_ok in Hx as (t & d1 & Ht & Hx). apply downloadTarget_val in Ht as (-> & tid & Hid & Hn & Hat & Har & Hs & Hno & Hex).
  apply andThen_ok in Hx as (r & d1 & [Hr ->]%rollout_val & Hx). destruct (downloadWindow r _) eqn:Ew; [|done]. cbn [negb] in Hx.
  apply andThen_ok in Hx as (release & d1 & Hrel & Hx). pose proof (reads_releaseInTransaction _ _ _ _ _ _ Hrel) as ->.
  apply andThen_ok in Hx as (a0 & d1 & [Ha ->]%require_val & Hx). destruct (_ || _) eqn:Ep; [done|].
  apply andThen_ok in Hx as (u & d1 & Hready & [[= -> _] ->]%ret_ok). unfold readyArtifact in Hready.
  apply andThen_ok in Hready as (row & d2 & [-> ->]%query_val & Hready). unfold findArtifact in Ha. apply head_Some_elem_of, list_elem_of_filter in Ha as [Hai Ham].
  apply orb_false_iff in Ep as [Ep1%negb_false_iff%String.eqb_eq Ep2%negb_false_iff]. unfold downloadWindow in Ew. rewrite andb_true_iff, bool_decide_eq_true in Ew.
  destruct (tb_artifacts d !! _) as [[dg sz rd]|] eqn:Ear; [|done]. cbn in Hready. destruct (_ && _) eqn:Eok; [|done]. apply ret_ok in Hready as [_ ->].
  rewrite !andb_true_iff, String.eqb_eq, Z.eqb_eq in Eok. destruct Eok as ((-> & ->) & ->). cbn in *. split; [done|].
  eapply (DownloadAllowed s t0 q a0 d tid t r release n); try done. split; [done|]. by rewrite Har.
Qed.

Lemma checkArtifact_val files a : checkArtifact files a = true -> exists content, files !! Ar_SHA256 a = Some content /\ llen content = Ar_Size a /\
  EncodeHex (Sum256 content) = Ar_SHA256 a.
Proof.
  unfold checkArtifact. destruct (files !! Ar_SHA256 a) as [content|]; [|done]. rewrite andb_true_iff, Z.eqb_eq, String.eqb_eq. intros [? ?]. eauto.
Qed.

(** What is downloaded, by whom and when. A download opens only for the agent an offer
    was made to, with the nonce of that offer, while the offer stands, the rollout is
    active and in its window, the release is trusted and the artifact of the offer belongs
    to it and to the agent's platform; all this at two instants around the check of the
    file, whose content then has the length and the SHA-256 the signed manifest gives it.
    Every later read is of that content, before the offer expires, and while the same
    conditions hold at that time. *)
Theorem download_authorized s full c0 c1 t0 t1 q files d d1 w : OpenDownload s full c0 c1 t0 t1 q files d d1 = Ok w ->
  download_allowed s t0 q (dw_artifact w) d /\ (exists a, download_allowed s t1 q a d1) /\
  llen (dw_file w) = Ar_Size (dw_artifact w) /\ EncodeHex (Sum256 (dw_file w)) = Ar_SHA256 (dw_artifact w) /\
  forall c unchanged now t n w1 d2 p w2, dw_request w1 = dw_request w -> dw_expires w1 = dw_expires w -> dw_file w1 = dw_file w ->
    DownloadRead s c unchanged now t n w1 d2 = (Ok p, w2) ->
    now < dw_expires w /\ (exists a, download_allowed s t q a d2) /\ p = take n (drop (Z.to_nat (dw_offset w1)) (dw_file w)).
Proof.
  unfold OpenDownload. destruct (negb (sv_enabled s)); [done|]. destruct full; [done|].
  destruct (downloadAuthorization s c0 t0 q d) as [[[a e]|] d'] eqn:E0; [|done]. cbn [fst]. apply downloadAuthorization_allowed in E0 as [_ H0]. cbn.
  destruct (checkArtifact files a) eqn:Ec; [|done]. cbn [negb]. apply checkArtifact_val in Ec as (content & Hf & Hlen & Hsha).
  destruct (downloadAuthorization s c1 t1 q d1) as [[[a1 e1]|] d1'] eqn:E1; [|done]. cbn. apply downloadAuthorization_allowed in E1 as [_ H1].
  intros [= <-]. cbn. rewrite Hf. cbn. split_and!; [done|eauto|done|done|]. intros c unchanged now t n w1 d2 p w2 Hq He Hfile Hr. unfold DownloadRead in Hr.
  rewrite Hq, He, Hfile in Hr. destruct (Before now e) eqn:Eb; [|done]. cbn [negb] in Hr.
  destruct (downloadAuthorization s c t q d2) as [[[a2 e2]|] d2'] eqn:E2; [|done]. cbn in Hr. apply downloadAuthorization_allowed in E2 as [_ H2].
  destruct unchanged; [|done]. injection Hr as <- _. unfold Before in Eb. split_and!; [lia|eauto|done].
Qed.

(** ** Restore *)

Lemma exists_where_none `{Countable K} {V} (c : K -> V -> bool) (m : gmap K V) : (forall k v, m !! k = Some v -> c k v = false) -> exists_where c m = false.
Proof. intros Hc. apply not_true_iff_false. intros (k & v & Hk & Ht)%exists_where_spec. by rewrite (Hc k v Hk) in Ht. Qed.

Lemma restored_rollout at_ d id r : tb_rollouts (restored_tables at_ d) !! id = Some r -> terminalRolloutState (ro_State r) = true \/ restored r = true.
Proof.
  unfold restored_tables, quiesced. cbn. rewrite lookup_update_where. intros (r0 & _ & ->)%fmap_Some. destruct (negb (terminalRolloutState (ro_State r0))) eqn:E; [by right|].
  left. by apply negb_false_iff.
Qed.

Lemma restored_target_row at_ d id t : tb_targets (restored_tables at_ d) !! id = Some t -> tg_nonce t = None /\ tg_expires t = None /\
  (restored_target (restored_tables at_ d) t = true -> tg_State t = THeld /\ tg_Reason t = "restored" /\ tg_since t = None).
Proof.
  unfold restored_tables at 1, quiesced. cbn. rewrite map_lookup_imap. destruct (tb_targets d !! id) as [t0|]; [|done]. intros [= <-].
  unfold restored_row. match goal with |- context [restored_target ?d2 t0] => destruct (restored_target d2 t0) eqn:E end; cbn; (split_and!; try done); cbv zeta.
  intros Ht. exfalso. apply not_true_iff_false in E. apply E. exact Ht.
Qed.

Lemma restored_verified at_ d : verifyRestoredState (restored_tables at_ d) = true.
Proof.
  unfold verifyRestoredState. rewrite !andb_true_iff, !negb_true_iff. split_and!; apply exists_where_none.
  - intros k v. unfold restored_tables. cbn. rewrite lookup_update_where. by intros (? & _ & ->)%fmap_Some.
  - intros k v. unfold restored_tables. cbn. rewrite lookup_update_where. by intros (? & _ & ->)%fmap_Some.
  - intros k t (-> & -> & _)%restored_target_row. done.
  - intros k a. unfold restored_tables, quiesced. cbn. rewrite !lookup_update_where. destruct (tb_attempts d !! k) as [a0|]; [|done]. intros [= <-]. cbn.
    destruct (open a0) eqn:E; [done|]. unfold open in E. cbn. by destruct (am_state a0).
  - intros k r [->| ->]%restored_rollout; [done|by rewrite andb_false_r].
  - intros k t (_ & _ & Hr)%restored_target_row. destruct (restored_target _ t); [|done]. destruct Hr as (-> & -> & ->); done.
Qed.

Lemma ReconcileRestore_ok now d : exists d', ReconcileRestore true now d = (Ok tt, d') /\ core d' = core (restored_tables now d).
Proof.
  unfold ReconcileRestore, RolloutModel.transact. rewrite restorePause_eq. unfold andThen, audit, exec, query, ret. cbn [cx_at].
  match goal with |- context [verifyRestoredState ?d1] => change (verifyRestoredState d1) with (verifyRestoredState (restored_tables now d)) end.
  rewrite restored_verified. eexists. split; [reflexivity|]. done.
Qed.

(** A restored database does nothing by itself. Whatever was in the database that is
    restored, the reconciliation succeeds (its own check of the result always passes),
    and in the result: no agent gets an offer, not even one prepared before the backup;
    no report is accepted; no download is authorized; no release counts as verified; and
    the rollouts that had not ended are paused until an owner acknowledges. *)
Theorem restore_quiesces now d : exists d', ReconcileRestore true now d = (Ok tt, d') /\
  (forall s c t0 identity caps x, (lease_first s c t0 identity caps d').1 <> Ok (Some x)) /\
  (forall s c t1 t2 aid nonce identity caps x a, (lease_second s c t1 t2 aid nonce identity caps x d').1 <> Ok a) /\
  (forall s c n t0 identity o, (Observe s c n t0 identity o d').1 <> Ok tt) /\
  (forall s c t0 r x, (downloadAuthorization s c t0 r d').1 <> Ok x) /\
  (forall s id t0 x, releaseInTransaction s id t0 d' <> Ok x) /\
  (forall id r, tb_rollouts d' !! id = Some r -> ro_State r = Completed \/ ro_State r = Aborted \/ ro_State r = Paused /\ ro_Reason r = "restored").
Proof.
  destruct (ReconcileRestore_ok now d) as (d' & Heq & Hcore). exists d'. split; [done|]. unfold core in Hcore. injection Hcore as Er Et _ Erel _.
  assert (forall id t, tb_targets d' !! id = Some t -> tg_nonce t = None) as Hno by (intros id t; rewrite Et; by intros (? & _)%restored_target_row).
  assert (forall s id t0 x, releaseInTransaction s id t0 d' <> Ok x) as Hrel.
  { intros s id t0 [x d1] (_ & v & Hv & _ & _ & _ & _ & _ & _ & _ & Hver & _)%releaseInTransaction_val. rewrite Erel in Hv. unfold restored_tables in Hv. cbn in Hv.
    rewrite lookup_update_where in Hv. apply fmap_Some in Hv as (? & _ & ->). done. }
  split_and!; [| | | |done|].
  - intros s c t0 identity caps x Hx. destruct (lease_first s c t0 identity caps d') as [res d1] eqn:E. cbn in Hx. subst res.
    apply agentMutation_val in E as [[[e [=]] _]|(y & n & [= <-] & _ & Hc & _)]. apply candidate_val in Hc as (_ & _ & _ & Hr & _). by eapply Hrel.
  - intros s c t1 t2 aid nonce identity caps x a Hx. destruct (lease_second s c t1 t2 aid nonce identity caps x d') as [res d1] eqn:E. cbn in Hx. subst res.
    apply lease_second_val in E as [[[e [=]] _]|(y & n & t & _ & _ & (_ & _ & Hr & _) & _)]. by eapply Hrel.
  - intros s c n t0 identity o Hx. destruct (Observe s c n t0 identity o d') as [res d1] eqn:E. cbn in Hx. subst res. unfold Observe in E. destruct (negb _); [done|].
    apply agentMutation_val in E as [[[e [=]] _]|(y & n1 & _ & _ & Hc & _)]. apply andThen_ok in Hc as (row & d2 & (_ & Hid & _ & _ & Hn & _)%observedTarget_val & _).
    by rewrite (Hno _ _ Hid) in Hn.
  - intros s c t0 r x Hx. unfold downloadAuthorization in Hx. destruct (negb _); [done|].
    match type of Hx with (agentMutation ?a ?b ?t ?i ?f ?d0).1 = _ => destruct (agentMutation a b t i f d0) as [res d1] eqn:E end. cbn in Hx. subst res.
    apply agentMutation_val in E as [[[e [=]] _]|(y & n1 & _ & _ & Hc & _)]. apply andThen_ok in Hc as (t & d2 & (_ & tid & Hid & _ & _ & _ & _ & Hn & _)%downloadTarget_val & _).
    by rewrite (Hno _ _ Hid) in Hn.
  - intros id r. rewrite Er. intros [Ht|Hr]%restored_rollout; [destruct (ro_State r); auto; done|]. right; right. unfold restored in Hr.
    by rewrite andb_true_iff, bool_decide_eq_true, String.eqb_eq in Hr.
Qed.

(** ** Keys *)

Lemma trust_step s commit op d : wf d -> calm_trust (tb_trust d) (tb_trust (run_operation s commit op d)).
Proof.
  intros Hd. destruct (calm_operation op) eqn:E; [by apply (calm_operation_inv s commit _ d) in E as (_ & (_ & _ & Hc))|].
  assert (calm_trust (tb_trust d) (tb_trust d)) as Hrefl by apply calm_refl.
  destruct op as [| |t0 t1 actor pid| | |t0 t1 actor rid ack| | |t1 t2 aid nonce identity caps c| | | | | | | | | | | |]; try done; cbn [run_operation].
  - destruct (Promote s commit t0 t1 actor pid d) as [res d'] eqn:Ep. apply Promote_val in Ep as [[_ ->]|(r0 & _ & _ & _ & Hcore)]; [done|].
    unfold core in Hcore. injection Hcore as _ _ _ _ Ec. cbn. by rewrite Ec.
  - destruct (Resume s commit t0 t1 actor rid ack d) as [res d'] eqn:Ep. apply Resume_val in Ep as [[_ ->]|(r0 & _ & _ & _ & _ & _ & Hcore)]; [done|].
    unfold core in Hcore. injection Hcore as _ _ _ _ Ec. cbn. by rewrite Ec.
  - destruct (lease_second s commit t1 t2 aid nonce identity caps c d) as [res d'] eqn:Ep.
    apply lease_second_val in Ep as [[_ ->]|(c' & n & t0 & _ & _ & _ & _ & _ & _ & _ & _ & _ & Hcore)]; [done|].
    unfold core in Hcore. injection Hcore as _ _ _ _ Ec. cbn. by rewrite Ec.
Qed.

Definition key_revoked (id : string) (d : Tables) : Prop := exists row, tb_trust d !! id = Some row /\ is_Some (tk_revoked row).

Lemma key_revoked_run id steps d : wf d -> key_revoked id d -> key_revoked id (run steps d).
Proof.
  revert d. induction steps as [|[[s commit] op] steps IH]; intros d Hd Hk; [done|]. cbn. apply IH; [by apply rollout_operation_wf|].
  destruct Hk as (row & Hk & Hr). by apply (trust_step s commit op d Hd id row).
Qed.

Lemma revoked_untrusted s id at_ d x : key_revoked id d -> trustedRevision s id at_ d <> Ok x.
Proof.
  intros (row & Hk & Hr) Hx. unfold trustedRevision, keyRevision, keyAvailable in Hx. destruct x as [rev d'].
  apply andThen_ok in Hx as (key & d1 & [_ ->]%require_val & Hx). apply andThen_ok in Hx as (rev' & d1 & Hx & _).
  apply andThen_ok in Hx as (u & d2 & Hx & _). apply andThen_ok in Hx as (o & d3 & [-> ->]%query_val & Hx). rewrite Hk in Hx.
  rewrite (bool_decide_false (tk_revoked row = None)), andb_false_r in Hx by (by destruct Hr as [? ->]). done.
Qed.

Lemma RevokeKey_val s commit t0 t1 actor id d u d' : RevokeKey s commit t0 t1 actor id d = (Ok u, d') -> key_revoked id d'.
Proof.
  intros [[[e [=]] _]|(a & user & _ & _ & Hx & _)]%mutate_val. apply andThen_ok in Hx as (o & d1 & [-> ->]%query_val & Hx).
  apply andThen_ok in Hx as (row & d1 & [Hrow ->]%require_val & Hx). apply andThen_ok in Hx as (u1 & d1 & ->%exec_val & Hx).
  apply andThen_ok in Hx as (u2 & d1 & ->%exec_val & Hx). apply andThen_ok in Hx as (u3 & d1 & ->%exec_val & Hlog%logs_audit).
  unfold core in Hlog. injection Hlog as _ _ _ _ Ec. unfold key_revoked. rewrite Ec. cbn. rewrite lookup_insert_eq. eauto.
Qed.

(** A revoked key stays revoked. Once an owner has revoked a signing key, no release
    signed with it is used again: whatever runs afterwards, restarts with the key still
    configured, imports and restores included, reading such a release fails, and with it
    everything that needs it: creating, promoting, resuming, leasing, downloading and
    storing artifacts. *)
Theorem revoked_key_final s commit t0 t1 actor id d d1 steps : wf d -> RevokeKey s commit t0 t1 actor id d = (Ok tt, d1) ->
  forall s' releaseID at_, ~ exists release d', releaseInTransaction s' releaseID at_ (run steps d1) = Ok (release, d') /\ Ma_SigningKeyID (rl_Manifest release) = id.
Proof.
  intros Hd Hrev s' rid at_ (release & d' & Hx & Hid). assert (wf d1) as Hd1.
  { change d1 with (snd (Ok (E := rolloutError) tt, d1)). rewrite <- Hrev. by apply (RevokeKey_inv s commit t0 t1 actor id d d); split; [|apply calm_refl]. }
  apply RevokeKey_val in Hrev. apply (key_revoked_run id steps d1 Hd1) in Hrev.
  apply releaseInTransaction_val in Hx as (_ & v & _ & _ & _ & _ & _ & _ & _ & _ & _ & _ & Ht). rewrite Hid in Ht. by eapply revoked_untrusted.
Qed.
End theorems.

(** ** The theorems at work *)

#[local] Existing Instance sample_externals.

(** The rollout of the sample in its second wave, which it reached by health. *)
Lemma waves_open_in_order_witness : rollout_view (run second_wave_steps empty_tables) = Some (Active, 1, 2) /\ promoted_healthy second_wave_steps "rollout" 0.
Proof.
  split; [vm_compute; reflexivity|].
  destruct (tb_rollouts (run second_wave_steps empty_tables) !! "rollout") as [r|] eqn:E; [|vm_compute in E; discriminate E].
  apply (waves_open_in_order second_wave_steps "rollout" r 0 E); [lia|left].
  assert (ro_CurrentWave <$> tb_rollouts (run second_wave_steps empty_tables) !! "rollout" = Some 1) as Hw by (vm_compute; reflexivity).
  rewrite E in Hw. injection Hw as ->. lia.
Defined.

Lemma offers_gated_witness : let d := run offered_steps empty_tables in
  target_view (run_operation sample_service true sample_offer d) "target-0" = Some (TOffered, 0) /\
  offer_allowed sample_service (seconds 5) (sample_identity "node" 1) sample_capabilities "target-0" d.
Proof.
  split; [vm_compute; reflexivity|].
  destruct (tb_targets (run_operation sample_service true sample_offer (run offered_steps empty_tables)) !! "target-0") as [t|] eqn:E; [|vm_compute in E; discriminate E].
  assert (tg_State <$> tb_targets (run_operation sample_service true sample_offer (run offered_steps empty_tables)) !! "target-0" = Some TOffered) as Hs by (vm_compute; reflexivity).
  rewrite E in Hs. injection Hs as Hs.
  destruct (offers_gated sample_service true sample_offer (run offered_steps empty_tables) "target-0" t (rollout_run_wf _ _ empty_tables_wf) E Hs)
    as [(t0 & Ht0 & Hs0 & _)|(t1 & t2 & aid & nonce & identity & caps & first & Hop & _ & Ho)].
  - exfalso. assert (tg_State <$> tb_targets (run offered_steps empty_tables) !! "target-0" = Some TPending) as Hp by (vm_compute; reflexivity).
    rewrite Ht0 in Hp. injection Hp as Hp. rewrite Hp in Hs0. discriminate Hs0.
  - unfold sample_offer in Hop. injection Hop as <- _ _ _ <- <- _. exact Ho.
Defined.

(** The report of a failure stops the rollout of the sample. *)
Definition sample_failed : result rolloutError unit * Tables :=
  Observe sample_service true (seconds 20) (seconds 20) (sample_identity "node" 1) (sample_report "assignment" (seconds 20) "failed") sample_leased.2.

Lemma report_outcome_witness : sample_failed.1 = Ok tt /\ exists tid t t' r, tb_targets sample_leased.2 !! tid = Some t /\ tb_targets sample_failed.2 !! tid = Some t' /\
  tb_rollouts sample_leased.2 !! tg_rollout t = Some r /\ (tg_State t' = TFailed <-> failing t r (sample_report "assignment" (seconds 20) "failed") = true).
Proof.
  assert (sample_failed.1 = Ok tt) as E by (vm_compute; reflexivity). split; [exact E|].
  pose proof (surjective_pairing sample_failed) as Es. rewrite E in Es. unfold sample_failed at 1 in Es.
  destruct (report_outcome sample_service (seconds 20) (seconds 20) (sample_identity "node" 1) (sample_report "assignment" (seconds 20) "failed") sample_leased.2 sample_failed.2 true Es)
    as (tid & t & t' & r & n & H1 & H2 & H3 & _ & _ & _ & _ & _ & _ & H4 & _). exists tid, t, t', r. exact (conj H1 (conj H2 (conj H3 H4))).
Defined.

Lemma download_authorized_witness : exists w, sample_download = Ok w /\ llen (dw_file w) = 120 /\
  download_allowed sample_service (seconds 6) sample_request (dw_artifact w) sample_leased.2.
Proof.
  destruct sample_download as [w|e] eqn:E; [|vm_compute in E; discriminate E]. exists w. split; [reflexivity|].
  assert (match sample_download with Ok w => llen (dw_file w) | Err _ => 0 end = 120) as Hl by (vm_compute; reflexivity). rewrite E in Hl. split; [exact Hl|]. unfold sample_download in E.
  exact (proj1 (download_authorized sample_service false true true (seconds 6) (seconds 7) sample_request sample_files sample_leased.2 sample_leased.2 w E)).
Defined.

Definition sample_revoked : result rolloutError unit * Tables := RevokeKey sample_service true (seconds 6) (seconds 6) sample_actor "key" (run offered_steps empty_tables).

Lemma revoked_key_final_witness : sample_revoked.1 = Ok tt /\ forall s' releaseID at_,
  ~ exists release d', releaseInTransaction s' releaseID at_ (run [by_service (OpInitialize (seconds 7))] sample_revoked.2) = Ok (release, d') /\ Ma_SigningKeyID (rl_Manifest release) = "key".
Proof.
  assert (sample_revoked.1 = Ok tt) as E by (vm_compute; reflexivity). split; [exact E|].
  pose proof (surjective_pairing sample_revoked) as Es. rewrite E in Es. unfold sample_revoked at 1 in Es.
  exact (revoked_key_final sample_service true (seconds 6) (seconds 6) sample_actor "key" (run offered_steps empty_tables) sample_revoked.2 [by_service (OpInitialize (seconds 7))]
    (rollout_run_wf _ _ empty_tables_wf) Es).
Defined.

(** ** Two boundary cases *)

(** An offer that was still open when its rollout was aborted, in a database that is
    restored: the target keeps its state without a nonce and without an expiry, no
    recovery ends it, and the rollout cannot be deleted. *)
Definition stuck_tables : Tables :=
  run (map by_service [OpAbort (seconds 6) (seconds 6) sample_actor "rollout"; OpRestore (seconds 7); OpRecover (sample_now + 365 * 24 * Hour)]) sample_leased.2.
Example restored_offer_is_stuck :
  ((fun t => (tg_State t, tg_nonce t, tg_expires t)) <$> tb_targets stuck_tables !! "target-0") = Some (TOffered, None, None) /\
  (DeleteRollout sample_service true (seconds 8) (seconds 8) sample_actor "rollout" stuck_tables).1 = Err ErrConflict.
Proof. vm_compute. auto. Qed.

(** A policy that allows the largest number of protocol errors: a healthy target with no
    errors at all fails it, since the transient budget is added without a bound. *)
Definition generous_policy : Policy := mkPolicy 1 10 1 300 60 0 (2 ^ 63 - 1) 0 0 false sample_now (sample_now + Hour).
Example largest_threshold_fails :
  normalizePolicy generous_policy sample_now = Ok generous_policy /\
  thresholdFailure (mkObservation "assignment" "" "2.0.0" sample_now 0 0 0 0 "healthy") generous_policy (transientErrorBudget THealthy) = "protocol_error_threshold" /\
  thresholdFailure (mkObservation "assignment" "" "2.0.0" sample_now 0 0 0 0 "healthy") generous_policy (transientErrorBudget TObserving) = "".
Proof. vm_compute. auto. Qed.
