(* ===== verification/RolloutAgent.v ===== *)
(** * Agent rollouts: the server's offers and the agent's checks

    The service offers an assignment after its own checks ([RolloutService]); the updater
    of the agent checks it again with its own keys, version and clock
    ([UpdateModel.verify]). The two agree. *)

From S2P Require Import Prelude GoText GoNumber ReleaseVersion GoSha256 GoTable UpdateModel UpdateDisk UpdateSupervisor UpdateLogic UpdateSample RolloutModel RolloutService RolloutRelease RolloutInvariant RolloutSteps RolloutRun RolloutSample.

(** ** Versions *)

Lemma same_version_parse a b : SameReleaseVersion a b = true -> parseVersion a = parseVersion b.
Proof.
  unfold SameReleaseVersion. destruct (parseVersion a) eqn:Ea; [|done]. destruct (parseVersion b) eqn:Eb; [|done]. intros E%String.eqb_eq.
  rewrite <- Ea, <- Eb. unfold parseVersion. by rewrite E.
Qed.

Lemma compare_same_version target a b : SameReleaseVersion a b = true -> CompareVersions target a = CompareVersions target b.
Proof. intros E%same_version_parse. unfold CompareVersions. by rewrite E. Qed.

(** ** Nonces *)

Lemma hex_digit_lower v : 0 <= v < 16 -> lower_hex (hex_digit v) = true /\ 0 <= hex_digit v < 256.
Proof. intros Hv. unfold lower_hex, hex_digit, between. destruct (v <? 10) eqn:E; (split; [apply orb_true_iff|lia]); [right|left]; lia. Qed.

Lemma nonce_valid nonce : length nonce = 32%nat -> Forall (fun b => 0 <= b < 256) nonce -> ValidSHA256 (EncodeHex nonce) = true.
Proof.
  intros Hl Hf. assert (Forall (fun b => 0 <= b < 256) (concat (map (fun b => [hex_digit (b / 16); hex_digit (b mod 16)]) nonce)) /\
    forallb lower_hex (concat (map (fun b => [hex_digit (b / 16); hex_digit (b mod 16)]) nonce)) = true /\
    length (concat (map (fun b => [hex_digit (b / 16); hex_digit (b mod 16)]) nonce)) = (2 * length nonce)%nat) as (H1 & H2 & H3).
  { clear Hl. induction Hf as [|b nonce Hb Hf IH]; [done|]. cbn. destruct IH as (I1 & I2 & I3).
    destruct (hex_digit_lower (b / 16)) as [E1 ?]; [split; [apply Z.div_pos|apply Z.div_lt_upper_bound]; lia|].
    destruct (hex_digit_lower (b mod 16)) as [E2 ?]; [apply Z.mod_pos_bound; lia|]. split; [constructor; [done|constructor; done]|]. split; [|cbn in *; lia].
    by rewrite E1, E2, I2. }
  unfold ValidSHA256, lowerDigest, EncodeHex, len. rewrite <- length_bytes, bytes_of_bytes by done. rewrite H2, H3, Hl. done.
Qed.

(** ** Artifacts *)

Lemma artifacts_loop_ids ids platforms l : artifacts_loop ids platforms l = Ok tt -> NoDup (map Ar_ID l) /\ forall a, a ∈ l -> Ar_ID a ∉ ids.
Proof.
  revert ids platforms. induction l as [|x l IH]; intros ids platforms; [intros _; split; [constructor|by intros b ?%not_elem_of_nil]|]. cbn.
  destruct (ValidateArtifact x) as [[]|]; [|done]. destruct (_ || _) eqn:E; [done|]. apply orb_false_iff in E as [E%bool_decide_eq_false _]. intros [Hnd Hin]%IH. split.
  - constructor; [|done]. intros (a & Ha & Hal)%list_elem_of_In%in_map_iff. apply list_elem_of_In in Hal. apply (Hin a Hal). rewrite Ha. set_solver.
  - intros a [->|Ha]%elem_of_cons; [done|]. specialize (Hin a Ha). set_solver.
Qed.

Lemma manifest_contains_member l a : NoDup (map Ar_ID l) -> a ∈ l -> manifest_contains l a = Ok tt.
Proof.
  induction l as [|x l IH]; intros Hnd; [by intros ?%not_elem_of_nil|]. cbn in *. apply NoDup_cons in Hnd as [Hni Hnd]. intros [->|Ha]%elem_of_cons.
  - by rewrite String.eqb_refl, decide_True.
  - rewrite (proj2 (String.eqb_neq _ _)); [by apply IH|]. intros E. apply Hni. rewrite E. apply list_elem_of_In, in_map, list_elem_of_In, Ha.
Qed.

Lemma ValidateManifest_unique m t : ValidateManifest m t = Ok tt -> NoDup (map Ar_ID (Ma_Artifacts m)).
Proof.
  unfold ValidateManifest. destruct (_ || _); [done|]. destruct (_ || _); [done|]. unfold validateManifestArtifacts. destruct (_ || _); [done|].
  by intros [? _]%artifacts_loop_ids.
Qed.

(** ** The signature at a later time *)

Section agent.
Context `{Externals}.

Lemma ValidateManifest_later m t now : ValidateManifest m t = Ok tt -> t <= now -> now < Ma_ExpiresAt m -> ValidateManifest m now = Ok tt.
Proof.
  unfold ValidateManifest, validManifestDates, Before, After, Add. intros Hv Ht Hn. destruct (validManifestIdentity m); [|done]. cbn [negb orb] in *.
  destruct (negb (IsZero (Ma_BuiltAt m))); [|done]. cbn [andb] in *. destruct (t + Minute <? Ma_BuiltAt m) eqn:E1; [done|]. apply Z.ltb_ge in E1.
  rewrite (proj2 (Z.ltb_ge (now + Minute) _)) by lia. rewrite (proj2 (Z.ltb_lt now _)) by lia. cbn [negb andb] in *.
  destruct (t <? Ma_ExpiresAt m); [exact Hv|done].
Qed.

(** The key of the server and the key of the agent are the same key. *)
Definition same_key (key : TrustedKey) (trust : SigningTrust) (now : Time) : Prop :=
  Tr_KeyID trust = ky_ID key /\ Tr_PublicKey trust = ky_PublicKey key /\ Tr_Revoked trust = false /\ Tr_NotBefore trust <= now < Tr_ExpiresAt trust.

Lemma signature_later s signed m key trust t now : verifyCachedSignature s signed m t = Ok tt -> sv_keys s !! Ma_SigningKeyID m = Some key ->
  DecodeManifest (Payload signed) = Ok m -> same_key key trust now -> t <= now -> now < Ma_ExpiresAt m ->
  (forall k, Ma_NextKey m = Some k -> now < Kt_ExpiresAt k) -> VerifyManifestSignature signed trust now = Ok m.
Proof.
  intros Hv Hk Hm (Hid & Hpk & Hrev & Hvalid) Ht Hn Hnext. unfold verifyCachedSignature in Hv. rewrite Hk in Hv.
  destruct (of_protocol _) as [m'|] eqn:Eo in Hv; [|done]. clear Hv. rename Eo into Hv. apply of_protocol_ok in Hv.
  unfold VerifyManifestSignature in *. rewrite Hm in *. cbn in *. destruct (ValidateManifest m t) as [[]|] eqn:Ev; [|done]. cbn in Hv.
  rewrite (ValidateManifest_later m t now Ev Ht Hn). cbn. rewrite Hid. destruct (Ma_SigningKeyID m =s ky_ID key); [|done]. cbn in *.
  unfold verifyPinnedSignature in *. cbn in *. rewrite Hrev, Hpk. unfold Before in *. rewrite (proj2 (Z.ltb_ge now _)), (proj2 (Z.ltb_lt now _)) by lia. cbn.
  destruct (_ || negb (llen _ =? _)) eqn:E1 in Hv; [done|]. apply orb_false_iff in E1 as [_ ->]. cbn in *. destruct (ed25519Verify _ _ _); [|done]. cbn in *.
  destruct (VerifyTransition (ky_PublicKey key) (Ma_NextKey m) t) as [[]|] eqn:Et; [|done].
  assert (VerifyTransition (ky_PublicKey key) (Ma_NextKey m) now = Ok tt) as ->; [|done]. unfold VerifyTransition in *.
  destruct (Ma_NextKey m) as [k|]; [|done]. unfold After in *. rewrite (proj2 (Z.ltb_lt now (Kt_ExpiresAt k))) by auto.
  destruct (t <? Kt_ExpiresAt k); [exact Et|]. cbn [negb] in Et. by rewrite orb_true_r in Et.
Qed.

(** ** What eligibility says *)

Lemma filter_nil_all (l : list string) : filter (fun reason => reason <> "") l = [] -> Forall (fun reason => reason = "") l.
Proof.
  induction l as [|x l IH]; [constructor|]. destruct (decide (x = "")) as [->|Hne]; [rewrite filter_cons_False by tauto; intros; constructor; auto|].
  by rewrite filter_cons_True.
Qed.

Lemma eligible_val t r m n caps at_ d a : eligible t r m n caps at_ d = inl a ->
  platformArtifact m caps = Some a /\ capabilityReason n caps = "" /\ sourceVersionReason t r m n caps at_ = "" /\ artifactPolicyReason a (ro_Policy r) m caps = "".
Proof.
  unfold eligible. destruct (platformArtifact m caps) as [x|]; [|done]. destruct (filter _ _) eqn:E; [|done]. destruct (negb _); [done|].
  case_bool_decide; [done|]. intros [= ->]. apply filter_nil_all in E. rewrite !Forall_cons in E. naive_solver.
Qed.

Lemma platformArtifact_val m caps a : platformArtifact m caps = Some a ->
  a ∈ Ma_Artifacts m /\ Ar_OS a = ca_OS caps /\ Ar_Arch a = ca_Arch caps /\ Ar_Kind a <> "external_manager".
Proof.
  unfold platformArtifact. intros [Hc Ha]%head_Some_elem_of%list_elem_of_filter. rewrite !andb_true_iff, negb_true_iff, !String.eqb_eq, String.eqb_neq in Hc. naive_solver.
Qed.

Lemma sourceVersionReason_val t r m n caps at_ : sourceVersionReason t r m n caps at_ = "" ->
  exists c, CompareVersions (Ma_Version m) (ca_CurrentVersion caps) = Some (c, true) /\ allowedDirection (ro_Action r) c = true.
Proof.
  unfold sourceVersionReason. destruct (_ || _); [done|]. destruct (_ || _) eqn:E; [done|]. apply orb_false_iff in E as [_ E%negb_false_iff].
  rewrite (compare_same_version _ _ _ E). destruct (CompareVersions _ _) as [[c valid]|]; [|done]. destruct (valid && _) eqn:Ev; [|done].
  apply andb_prop in Ev as [-> Ev]. eauto.
Qed.

Lemma artifactPolicyReason_val a p m caps : artifactPolicyReason a p m caps = "" ->
  Ma_MinimumProtocol m <= ca_ProtocolVersion caps <= Ma_MaximumProtocol m /\ (Ar_Support a = "supported" \/ Ar_Support a = "preview").
Proof.
  unfold artifactPolicyReason. rewrite Z.gtb_ltb. destruct (_ || _) eqn:E; [done|]. apply orb_false_iff in E as [E1%Z.ltb_ge E2%Z.ltb_ge].
  destruct (_ && _) eqn:Es; [done|]. intros _. split; [lia|]. apply andb_false_iff in Es as [Es|Es]; [left; by apply negb_false_iff, String.eqb_eq in Es|].
  apply orb_false_iff in Es as [Es _]. right. by apply negb_false_iff, String.eqb_eq in Es.
Qed.

Lemma allowed_direction action target current c : action = AssignmentUpgrade \/ action = AssignmentRollback ->
  CompareVersions target current = Some (c, true) -> allowedDirection action c = true -> validDirection action target current = true.
Proof. intros Ha Hc Hd. unfold validDirection. rewrite Hc. unfold allowedDirection in Hd. destruct Ha as [-> | ->]; cbn in *; by rewrite Hd, ?orb_true_r. Qed.

(** The agent runs what it reported when it asked. *)
Definition runs_as (config : Config) (identity : AgentIdentity) (caps : Capabilities) : Prop :=
  NodeID config = id_NodeID identity /\ Im_Version (Installed config) = ca_CurrentVersion caps /\ OS config = ca_OS caps /\ Arch config = ca_Arch caps /\
  AgentProtocol config = ca_ProtocolVersion caps.

(** The agent trusts the key the server trusts. *)
Definition trusts (s : Service) (config : Config) (signed : SignedManifest) (now : Time) : Prop := forall m key, DecodeManifest (Payload signed) = Ok m ->
  sv_keys s !! Ma_SigningKeyID m = Some key -> exists trust, signingTrust (Keys config) (Ma_SigningKeyID m) = Some trust /\ same_key key trust now.
(** A new key that the manifest announces has not expired. *)
Definition next_key_live (signed : SignedManifest) (now : Time) : Prop := forall m k, DecodeManifest (Payload signed) = Ok m ->
  Ma_NextKey m = Some k -> now < Kt_ExpiresAt k.

Lemma assignment_expiry_bounds at_ c : let e := assignment_expiry at_ c in
  e <= Prelude.Add at_ (assignmentLifetime + observation_time (ro_Policy (lc_rollout c))) /\ e <= Ma_ExpiresAt (rl_Manifest (lc_release c)) /\
  e <= po_WindowEnd (ro_Policy (lc_rollout c)).
Proof.
  assert (forall x y, earlier_of x y <= x /\ earlier_of x y <= y) as He by (intros x y; unfold earlier_of, Before; destruct (y <? x) eqn:E; [apply Z.ltb_lt in E|apply Z.ltb_ge in E]; lia).
  intros e. subst e. unfold assignment_expiry. set (x := Prelude.Add _ _). set (y := Ma_ExpiresAt _). set (z := po_WindowEnd _).
  pose proof (He x y). pose proof (He (earlier_of x y) z). lia.
Qed.

Lemma trustedRevision_key s id t d x : trustedRevision s id t d = Ok x -> is_Some (sv_keys s !! id).
Proof. destruct x. unfold trustedRevision. intros (key & d1 & [Hk _]%require_val & _)%andThen_ok. eauto. Qed.

Lemma artifact_accepted config identity caps m a p t : runs_as config identity caps -> ValidateManifest m t = Ok tt -> platformArtifact m caps = Some a ->
  artifactPolicyReason a p m caps = "" -> Ar_Kind a = "binary" -> Ar_Entrypoint a = Entrypoint config -> compatibleArtifact config m a = Ok tt.
Proof.
  intros (_ & _ & Hos & Harch & Hproto) Hval (Hmem & Hpos & Hparch & _)%platformArtifact_val (Hprange & Hsupp)%artifactPolicyReason_val Hkind Hentry.
  unfold compatibleArtifact. rewrite Hos, Harch, Hpos, Hparch, !String.eqb_refl, Hkind, Hentry, Hproto. cbn.
  rewrite (manifest_contains_member _ _ (ValidateManifest_unique _ _ Hval) Hmem). rewrite Z.gtb_ltb, (proj2 (Z.ltb_ge _ _)), (proj2 (Z.ltb_ge _ _)) by lia.
  rewrite String.eqb_refl. destruct Hsupp as [-> | ->]; done.
Qed.

Lemma identity_accepted schema node t1 now aid nonce c : validPolicyHealth (ro_Policy (lc_rollout c)) = true ->
  ro_Action (lc_rollout c) = AssignmentUpgrade \/ ro_Action (lc_rollout c) = AssignmentRollback -> tg_NodeID (lc_target c) = node ->
  ValidSigningKeyID aid = true -> ValidSigningKeyID (tg_rollout (lc_target c)) = true -> length nonce = 32%nat -> Forall (fun b => 0 <= b < 256) nonce ->
  t1 <= now < assignment_expiry t1 c -> validAssignmentIdentity (offered_assignment schema t1 aid nonce c) node now = true.
Proof.
  intros Hph Hact <- Haid Hrid Hlen Hbytes Hnow. destruct (assignment_expiry_bounds t1 c) as (Hx & _ & _).
  unfold validAssignmentIdentity, offered_assignment. cbn. rewrite Haid, Hrid, nonce_valid, String.eqb_refl by done.
  assert (observation_time (ro_Policy (lc_rollout c)) <= 3600 * Second) as Hobs.
  { unfold validPolicyHealth in Hph. rewrite !andb_true_iff, !Z.leb_le in Hph. unfold observation_time, maximumObservationSeconds, Second in *. lia. }
  unfold After. rewrite (proj2 (Z.ltb_lt now _)) by lia. rewrite (proj2 (Z.ltb_ge _ (assignment_expiry t1 c))).
  2:{ unfold Prelude.Add, assignmentLifetime, MaximumAssignmentLifetime, Hour, Minute, Second in *. lia. }
  destruct Hact as [-> | ->]; done.
Qed.

(** C29. What the server offers, the agent accepts, if both look at it in the same way: an
    agent that gets an assignment, from tables that keep the rollout invariant ([wf]),
    passes the checks of its updater on it (the identity and
    the lifetime of the assignment, the signature of the manifest, the artifact, its
    protocol, and the direction of the version change) when it runs the version, platform
    and protocol it reported; when it has the key the server verified the manifest with,
    not revoked and valid at that instant; when it looks at the assignment no earlier than
    the server made it and before it expires; when a next signing key that the manifest
    announces has not expired by then, which neither the manifest's own check nor the
    lifetime of the assignment bounds; when the artifact is a plain binary for the agent's
    entry point, which the server does not look at; and when the identifiers of the
    assignment and of its rollout are UUIDs and the nonce is 32 bytes. *)
Theorem offer_accepted_by_agent s commit t1 t2 aid nonce identity caps first d a d' config now :
  wf d -> lease_second s commit t1 t2 aid nonce identity caps first d = (Ok a, d') ->
  ValidSigningKeyID aid = true -> ValidSigningKeyID (As_RolloutID a) = true -> length nonce = 32%nat -> Forall (fun b => 0 <= b < 256) nonce ->
  runs_as config identity caps -> Ar_Kind (As_Artifact a) = "binary" -> Ar_Entrypoint (As_Artifact a) = Entrypoint config ->
  trusts s config (As_Manifest a) now -> next_key_live (As_Manifest a) now -> t1 <= now < As_ExpiresAt a ->
  exists accepted m, verify config a now = Ok (accepted, m) /\ sameAssignment a accepted = true /\ DecodeManifest (Payload (As_Manifest a)) = Ok m.
Proof.
  intros Hd Hl Haid Hrid Hlen Hbytes Hruns Hkind Hentry Htrust Hnext Hnow.
  apply lease_second_val in Hl as [[[e [=]] _]|(c & n & t & [= ->] & Hag & Hle & _ & _ & Hid & -> & _)].
  destruct Hle as (Hdue%due_target_val & Hr & Hrel & He & _). destruct Hdue as (_ & Htn & _). destruct (wf_target _ _ _ Hd Hid) as (_ & _ & Hown).
  apply releaseInTransaction_val in Hrel as (_ & v & _ & _ & Hsigned & Hm & _ & Hval & Hsig & _ & _ & Hcomp & Hrev%trustedRevision_key).
  set (m := rl_Manifest (lc_release c)) in *. rewrite <- Hsigned in Hm, Hsig. apply eligible_val in He as (Hp & _ & Hsrc & Hpol).
  apply sourceVersionReason_val in Hsrc as (o & Hcmp & Hdir). destruct (assignment_expiry_bounds t1 c) as (_ & Hx & _). fold m in Hx.
  pose proof Hd as (Hrok & _). destruct (Hrok _ _ Hr) as (_ & _ & _ & _ & _ & Hph & Hact). cbn in Hrid, Hkind, Hentry, Htrust, Hnext, Hnow.
  destruct Hrev as [key Hkey]. destruct (Htrust m key Hm Hkey) as (trust & Hst & Hsame). specialize (Hnext m).
  assert (trustedManifest (Keys config) (rl_signed (lc_release c)) now = Ok m) as Htm.
  { unfold trustedManifest. rewrite Hm. cbn. rewrite Hst. eapply signature_later; try done; [lia|lia|auto]. }
  pose proof Hruns as (Hnode & Hver & _). unfold verify. rewrite identity_accepted; try done; [|by rewrite Hnode, <- (Hown _ Htn)]. cbn. rewrite Htm. cbn.
  rewrite (artifact_accepted config identity caps m _ _ _ Hruns Hval Hp Hpol Hkind Hentry). rewrite (proj2 (Z.ltb_ge _ _)).
  2:{ unfold compatibleManifest in Hcomp. rewrite !andb_true_iff, Z.leb_le in Hcomp. tauto. }
  cbn. rewrite Hver, (allowed_direction _ _ _ _ Hact Hcmp Hdir). cbn. eexists _, m. split; [reflexivity|]. split; [|done].
  unfold sameAssignment, TimeEqual, offered_assignment. cbn [As_ServerSchema As_Action As_ID As_RolloutID As_NodeID As_Nonce As_ExpiresAt As_Artifact As_Manifest Payload Signature].
  rewrite !Z.eqb_refl, !String.eqb_refl, !bool_decide_true by done. done.
Qed.
End agent.

(** ** The sample offer and the sample agent *)

#[local] Existing Instance sample_externals.

Lemma offer_accepted_by_agent_witness : sample_leased.1 = Ok sample_assigned /\
  exists accepted m, verify sample_old sample_assigned (seconds 6) = Ok (accepted, m) /\ sameAssignment sample_assigned accepted = true.
Proof.
  assert (sample_leased.1 = Ok sample_assigned) as E by (vm_compute; reflexivity). split; [exact E|].
  assert (sample_leased = (Ok sample_assigned, sample_leased.2)) as Es by (rewrite <- E; apply surjective_pairing).
  destruct (offer_accepted_by_agent sample_service true (seconds 5) (seconds 5) "assignment" sample_nonce (sample_identity "node" 1) sample_capabilities (sample_candidate "target-0")
    (run offered_steps empty_tables) sample_assigned sample_leased.2 sample_old (seconds 6)) as (accepted & m & H1 & H2 & _);
    [exact (rollout_run_wf _ _ empty_tables_wf)|exact Es|vm_compute; reflexivity|vm_compute; reflexivity|reflexivity|repeat constructor; lia
    |vm_compute; auto|vm_compute; reflexivity|vm_compute; reflexivity| | |split; vm_compute; [discriminate|reflexivity]|exists accepted, m; exact (conj H1 H2)].
  all: assert (As_Manifest sample_assigned = sample_signed) as -> by (vm_compute; reflexivity); intros m key Hm Hk;
    assert (m = sample_manifest) as -> by (vm_compute in Hm; by injection Hm).
  2: { discriminate Hk. }
  exists sample_key. split; [vm_compute; reflexivity|].
  vm_compute in Hk. injection Hk as <-. vm_compute. split_and!; try reflexivity; discriminate.
Defined.

(** The assignment of the server drives the update of the agent: the new executable is
    installed. *)
Example sample_end_to_end :
  let (o, w) := Apply sample_old reliable_machine (sample_clock (seconds 6)) sample_space sample_fetch sample_assigned (mkWorld sample_disk zeroJournal 0 0 0) in
  o = Ret tt /\ content (entry (disk w)) = elf 2.
Proof. vm_compute. auto. Qed.

(** A valid manifest that lists an archive before the binary of a platform: the server
    offers the archive, which no agent accepts. *)
Definition archive_artifact : Artifact :=
  mkArtifact "archive" "linux" "amd64" "archive" "agent.tar.gz" "agent" 120 (EncodeHex (Sum256 (elf 3))) digest_text digest_text "supported".
Definition archive_manifest : Manifest :=
  mkManifest 1 "2.0.0" (EncodeHex (repeat 0 20)) "stable" (sample_now - Hour) (sample_now + Hour) 1 1 9 digest_text "key" false
    [archive_artifact; sample_artifact] None.
Example archive_offered_and_refused :
  ValidateManifest archive_manifest sample_now = Ok tt /\ platformArtifact archive_manifest sample_capabilities = Some archive_artifact /\
  compatibleArtifact sample_old archive_manifest archive_artifact = Err ErrManualOnly /\ compatibleArtifact sample_old archive_manifest sample_artifact = Ok tt.
Proof. vm_compute. auto. Qed.
