(* ===== verification/RolloutPrune.v ===== *)
(** * Agent rollouts: retention

    The loops of [Prune] come to an end, and no file that an artifact still needs is
    removed. *)

From S2P Require Import Prelude GoText GoNumber ReleaseVersion GoSha256 GoTable UpdateModel UpdateSample RolloutModel RolloutService RolloutRelease RolloutInvariant RolloutSteps RolloutRun RolloutSample.

(** ** Rounds *)

Lemma deleteRollout_val id d n d' : deleteRollout id d = Ok (n, d') -> is_Some (tb_rollouts d !! id) /\ tb_rollouts d' = delete id (tb_rollouts d) /\
  tb_releases d' = tb_releases d /\ tb_artifacts d' = tb_artifacts d.
Proof.
  unfold deleteRollout. intros (r & d1 & [Hr ->]%rollout_val & Hx)%andThen_ok. destruct (negb _); [done|].
  apply andThen_ok in Hx as (k & d1 & [-> ->]%query_val & Hx). destruct (_ >? _); [done|]. apply andThen_ok in Hx as (k2 & d1 & [-> ->]%query_val & Hx).
  apply andThen_ok in Hx as (u & d1 & ->%exec_val & [_ ->]%ret_ok). eauto.
Qed.

Lemma unless_conflict_val {A} (m : tx A) d o d' : unless_conflict m d = Ok (o, d') -> (o = None /\ d' = d) \/ exists a, o = Some a /\ m d = Ok (a, d').
Proof. unfold unless_conflict. destruct (m d) as [[a d1]|[]]; intros [= <- <-]; eauto. Qed.

(** Every rollout a round deletes is one less. *)
Lemma delete_rollouts_size cx ids d n d' : delete_rollouts cx ids d = Ok (n, d') -> 0 <= n /\ Z.of_nat (size (tb_rollouts d')) = Z.of_nat (size (tb_rollouts d)) - n /\
  tb_artifacts d' = tb_artifacts d.
Proof.
  revert d n. induction ids as [|id ids IH]; intros d n; cbn; [intros [-> ->]%ret_ok; split_and!; [lia|lia|done]|].
  intros (o & d1 & [[-> ->]|(k & -> & Hd)]%unless_conflict_val & Hx)%andThen_ok; [by apply IH|]. apply deleteRollout_val in Hd as ([r Hr] & Hd & _ & Ha).
  apply andThen_ok in Hx as (u & d2 & ->%exec_val & Hx). apply andThen_ok in Hx as (n' & d3 & Hn & [-> ->]%ret_ok). apply IH in Hn as (? & Hs & Ha').
  cbn in Hs, Ha'. rewrite Hd, map_size_delete_Some in Hs by eauto. assert (size (tb_rollouts d) <> 0%nat) by (intros E%map_size_empty_inv; by rewrite E, lookup_empty in Hr).
  split_and!; [lia|lia|congruence].
Qed.

Lemma mutateSystem_val {A} s commit t0 (action : context -> tx A) d r d' : mutateSystem s commit t0 action d = (r, d') ->
  ((exists e, r = Err e) /\ d' = d) \/ exists a, r = Ok a /\ action (mkContext t0 "system") d = Ok (a, d').
Proof. unfold mutateSystem. destruct (negb _); [intros [= <- <-]; eauto|]. apply committed. Qed.

(** More fuel than there are rollouts changes nothing. *)
Lemma pruneRollouts_fuel s ts cutoff fuel1 fuel2 round total d : (size (tb_rollouts d) < fuel1)%nat -> (size (tb_rollouts d) < fuel2)%nat ->
  pruneRollouts s fuel1 ts round cutoff total d = pruneRollouts s fuel2 ts round cutoff total d.
Proof.
  revert fuel2 round total d. induction fuel1 as [|fuel1 IH]; intros fuel2 round total d H1 H2; [lia|]. destruct fuel2 as [|fuel2]; [lia|]. cbn.
  destruct (expiredRollouts cutoff d) as [|id ids]; [done|]. destruct (mutateSystem s (ts round).2 (ts round).1 _ d) as [[deleted|e] d'] eqn:E; [|done].
  apply mutateSystem_val in E as [[[e [=]] _]|(n & [= <-] & Hn)]. apply (delete_rollouts_size _ (id :: ids)) in Hn as (? & Hs & _). destruct (deleted <? llen (id :: ids)) eqn:El; [done|].
  apply Z.ltb_ge in El. unfold llen in El. cbn in El. apply IH; lia.
Qed.

(** ** Files *)

(** No artifact refers to the digest. *)
Definition unreferenced (digest : string) (d : Tables) : Prop := forall k row, tb_artifacts d !! k = Some row -> af_digest row <> digest.

Lemma unreferencedArtifactDigests_ok digests d digest : digest ∈ unreferencedArtifactDigests digests d -> unreferenced digest d.
Proof.
  unfold unreferencedArtifactDigests. intros Hin%list_elem_of_In. apply filter_In in Hin as [_ Hc]. apply andb_prop in Hc as [_ Hc%negb_true_iff].
  intros k row Hk E. pose proof (exists_where_false _ _ k row Hc Hk) as Hx. cbn in Hx. by rewrite E, String.eqb_refl in Hx.
Qed.

Lemma deleteRelease_val id d x d' : deleteRelease id d = Ok (x, d') -> is_Some (tb_releases d !! id) /\ tb_releases d' = delete id (tb_releases d) /\
  tb_rollouts d' = tb_rollouts d /\ tb_artifacts d' ⊆ tb_artifacts d /\ forall digest, digest ∈ x.2 -> unreferenced digest d'.
Proof.
  unfold deleteRelease, loadRelease. intros (v & d1 & (o & d2 & [-> ->]%query_val & [Hv ->]%require_val)%andThen_ok & Hx)%andThen_ok. destruct (negb _); [done|].
  apply andThen_ok in Hx as (k & d1 & [-> ->]%query_val & Hx). destruct (_ >? _); [done|]. apply andThen_ok in Hx as (k2 & d1 & [-> ->]%query_val & Hx).
  apply andThen_ok in Hx as (k3 & d1 & [-> ->]%query_val & Hx). apply andThen_ok in Hx as (u & d1 & ->%exec_val & Hx).
  apply andThen_ok in Hx as (u2 & d1 & ->%exec_val & Hx). apply andThen_ok in Hx as (o & d1 & [-> ->]%query_val & [-> ->]%ret_ok). cbn.
  split_and!; [eauto|done|done|apply map_filter_subseteq|]. intros digest Hd. by eapply unreferencedArtifactDigests_ok.
Qed.

Lemma unreferenced_mono digest d d' : tb_artifacts d' ⊆ tb_artifacts d -> unreferenced digest d -> unreferenced digest d'.
Proof. intros Hs Hu k row Hk. eapply Hu. by eapply lookup_weaken. Qed.

Lemma delete_releases_val cx ids d x d' : delete_releases cx ids d = Ok (x, d') ->
  0 <= x.2 /\ Z.of_nat (size (tb_releases d')) = Z.of_nat (size (tb_releases d)) - x.2 /\ tb_rollouts d' = tb_rollouts d /\ tb_artifacts d' ⊆ tb_artifacts d /\
  forall digest, digest ∈ x.1.1 -> unreferenced digest d'.
Proof.
  revert d x. induction ids as [|id ids IH]; intros d x; cbn; [intros [-> ->]%ret_ok; cbn; split_and!; [lia|lia|done|done|by intros ? ?%not_elem_of_nil]|].
  intros (o & d1 & [[-> ->]|(k & -> & Hd)]%unless_conflict_val & Hx)%andThen_ok; [by apply IH|]. apply deleteRelease_val in Hd as ([r Hr] & Hd & Hro & Hs & Ho).
  apply andThen_ok in Hx as (u & d2 & ->%exec_val & Hx). apply andThen_ok in Hx as (n & d3 & Hn & [-> ->]%ret_ok). apply IH in Hn as (? & Hsz & Hro' & Ha & Hu). cbn in *.
  rewrite Hd, map_size_delete_Some in Hsz by eauto. assert (size (tb_releases d) <> 0%nat) by (intros E%map_size_empty_inv; by rewrite E, lookup_empty in Hr).
  split_and!; [lia|lia|congruence|by etransitivity|]. intros digest [Hdg|Hdg]%elem_of_app; [|by apply Hu]. eapply unreferenced_mono; [exact Ha|]. by apply Ho.
Qed.

Lemma removeArtifacts_other digests files digest : digest ∉ digests -> removeArtifacts digests files !! digest = files !! digest.
Proof.
  unfold removeArtifacts. induction digests as [|x l IH]; [done|]. intros [Hne Hni]%not_elem_of_cons. cbn. rewrite lookup_delete_ne by done. auto.
Qed.

Lemma removeArtifacts_kept orphans files d k row : (forall digest, digest ∈ orphans -> unreferenced digest d) -> tb_artifacts d !! k = Some row ->
  removeArtifacts orphans files !! af_digest row = files !! af_digest row.
Proof. intros Ho Hk. apply removeArtifacts_other. intros Hin. by apply (Ho _ Hin k row Hk). Qed.

Lemma pruneReleases_ok s ts cutoff fuel round orphans total files d r files' d' : (size (tb_releases d) < fuel)%nat ->
  (forall digest, digest ∈ orphans -> unreferenced digest d) -> pruneReleases s fuel ts round cutoff orphans total files d = (r, files', d') ->
  (forall fuel', (size (tb_releases d) < fuel')%nat -> pruneReleases s fuel' ts round cutoff orphans total files d = (r, files', d')) /\
  tb_rollouts d' = tb_rollouts d /\ tb_artifacts d' ⊆ tb_artifacts d /\
  forall k row, tb_artifacts d' !! k = Some row -> files' !! af_digest row = files !! af_digest row.
Proof.
  revert round orphans total d. induction fuel as [|fuel IH]; intros round orphans total d Hf Ho; [lia|]. cbn.
  destruct (expiredReleases cutoff d) as [|id ids] eqn:Ee.
  { intros [= <- <- <-]. split_and!; [intros [|fuel'] ?; [lia|]; cbn; by rewrite Ee|done|done|]. intros k row. by apply removeArtifacts_kept. }
  destruct (mutateSystem s (ts round).2 (ts round).1 _ d) as [[x|e] d1] eqn:E.
  2:{ intros [= <- <- <-]. apply mutateSystem_val in E as E'. destruct E' as [[_ ->]|(n & [=] & _)].
      split_and!; [intros [|fuel'] ?; [lia|]; cbn; by rewrite Ee, E|done|done|done]. }
  pose proof E as E'. apply mutateSystem_val in E' as [[[e [=]] _]|(n & [= <-] & Hn)]. apply (delete_releases_val _ (id :: ids)) in Hn as (? & Hs & Hro & Ha & Hu).
  assert (forall digest, digest ∈ orphans ++ x.1.1 -> unreferenced digest d1) as Ho1.
  { intros digest [Hd|Hd]%elem_of_app; [|by apply Hu]. eapply unreferenced_mono; [exact Ha|by apply Ho]. }
  destruct (x.2 <? llen (id :: ids)) eqn:El.
  { intros [= <- <- <-]. split_and!; [intros [|fuel'] ?; [lia|]; cbn; by rewrite Ee, E, El|done|done|]. intros k row. by apply removeArtifacts_kept. }
  intros Hx. apply IH in Hx as (Hfuel & Hro' & Ha' & Hfiles); [|apply Z.ltb_ge in El; unfold llen in El; cbn in El; lia|done]. split_and!; [|congruence|by etransitivity|done].
  intros [|fuel'] Hf'; [lia|]. cbn. rewrite Ee, E, El. apply Hfuel. apply Z.ltb_ge in El. unfold llen in El. cbn in El. lia.
Qed.

(** ** What is deleted *)

(** A row is kept as it is, or it is gone and satisfied [P]. *)
Definition kept_or `{Countable K} {V} (P : K -> V -> Prop) (m m' : gmap K V) : Prop := forall k v, m !! k = Some v -> m' !! k = Some v \/ m' !! k = None /\ P k v.

Lemma kept_refl `{Countable K} {V} (P : K -> V -> Prop) (m : gmap K V) : kept_or P m m.
Proof. intros k v Hk. by left. Qed.

Lemma kept_trans `{Countable K} {V} (P : K -> V -> Prop) (m1 m2 m3 : gmap K V) : m3 ⊆ m2 -> kept_or P m1 m2 -> kept_or P m2 m3 -> kept_or P m1 m3.
Proof.
  intros Hs H1 H2 k v Hk. destruct (H1 k v Hk) as [Hk2|[Hk2 HP]]; [by apply H2|]. right. split; [|done].
  destruct (m3 !! k) as [v3|] eqn:E; [|done]. by rewrite (lookup_weaken _ _ _ _ E Hs) in Hk2.
Qed.

Lemma kept_delete `{Countable K} {V} (P : K -> V -> Prop) (m : gmap K V) k : (forall v, m !! k = Some v -> P k v) -> kept_or P m (delete k m).
Proof. intros HP j v Hj. destruct (decide (j = k)) as [->|Hne]; [right; rewrite lookup_delete_eq; auto|left; by rewrite lookup_delete_ne]. Qed.

Lemma delete_rollouts_kept P cx ids d n d' : (forall id r, id ∈ ids -> tb_rollouts d !! id = Some r -> P id r) -> delete_rollouts cx ids d = Ok (n, d') ->
  tb_rollouts d' ⊆ tb_rollouts d /\ kept_or P (tb_rollouts d) (tb_rollouts d').
Proof.
  revert d n. induction ids as [|id ids IH]; intros d n HP; cbn; [intros [-> ->]%ret_ok; split; [done|apply kept_refl]|].
  intros (o & d1 & [[-> ->]|(k & -> & Hd)]%unless_conflict_val & Hx)%andThen_ok; [eapply IH; [|exact Hx]; intros; eapply HP; [by right|done]|].
  apply deleteRollout_val in Hd as (_ & Hd & _ & _). apply andThen_ok in Hx as (u & d2 & ->%exec_val & Hx). apply andThen_ok in Hx as (n' & d3 & Hn & [-> ->]%ret_ok).
  apply IH in Hn as [Hs Hk]; cbn in *; rewrite Hd in *.
  - split; [etransitivity; [exact Hs|apply delete_subseteq]|]. eapply kept_trans; [exact Hs|apply kept_delete|exact Hk]. intros r Hr. eapply HP; [by left|done].
  - intros j r Hj Hr. eapply HP; [by right|]. by apply lookup_delete_Some in Hr as [_ Hr].
Qed.

(** Rollouts that ended before the cutoff. *)
Definition expired_rollout (cutoff : Time) (_ : string) (r : Rollout) : Prop := terminalRolloutState (ro_State r) = true /\ ro_updated r < cutoff.

Lemma expiredRollouts_ok cutoff d id r : id ∈ expiredRollouts cutoff d -> tb_rollouts d !! id = Some r -> expired_rollout cutoff id r.
Proof.
  unfold expiredRollouts. intros (kv & -> & Hin%elem_of_take_in)%list_elem_of_fmap Hr. rewrite elem_of_ordered in Hin. destruct kv as [k v].
  apply elem_of_rows_where in Hin as [Hk Hc]. assert (v = r) as -> by (cbn in Hr; congruence). apply andb_prop in Hc as [? Hb]. unfold Before in Hb. split; [done|lia].
Qed.

Lemma pruneRollouts_kept s ts cutoff fuel round total d r d' : pruneRollouts s fuel ts round cutoff total d = (r, d') ->
  tb_rollouts d' ⊆ tb_rollouts d /\ kept_or (expired_rollout cutoff) (tb_rollouts d) (tb_rollouts d') /\ tb_artifacts d' = tb_artifacts d.
Proof.
  revert round total d. induction fuel as [|fuel IH]; intros round total d; cbn [pruneRollouts]; [intros [= _ <-]; split_and!; [done|apply kept_refl|done]|].
  destruct (expiredRollouts cutoff d) as [|id ids] eqn:Ee; [intros [= _ <-]; split_and!; [done|apply kept_refl|done]|].
  destruct (mutateSystem s (ts round).2 (ts round).1 _ d) as [[n|e] d1] eqn:E; (apply mutateSystem_val in E as [[He ->]|(n' & Hn' & Hn)]).
  - by destruct He.
  - injection Hn' as <-. assert (tb_artifacts d1 = tb_artifacts d) as Ha by (by apply delete_rollouts_size in Hn as (_ & _ & ?)).
    apply (delete_rollouts_kept (expired_rollout cutoff)) in Hn as [Hs Hk]; [|intros j x Hj; apply expiredRollouts_ok; by rewrite Ee].
    destruct (n <? _); [intros [= _ <-]; done|]. intros (Hs' & Hk' & Ha')%IH. split_and!; [by etransitivity|by eapply kept_trans|congruence].
  - intros [= _ <-]. split_and!; [done|apply kept_refl|done].
  - done.
Qed.

(** ** Theorems *)

(** Retention deletes only what is over. Whatever [Prune] returns, errors and failing
    commits included, every rollout that is gone had ended before the cutoff, the others
    are as they were, and for every artifact that a release still has, the file with its
    digest is as it was, also when another release that had the same file is gone. *)
Theorem prune_keeps_needed s ts0 ts1 now p files d r files' d' : Prune s ts0 ts1 now p files d = (r, files', d') ->
  kept_or (expired_rollout (now - days (rp_RolloutDays p))) (tb_rollouts d) (tb_rollouts d') /\ tb_artifacts d' ⊆ tb_artifacts d /\
  forall k row, tb_artifacts d' !! k = Some row -> files' !! af_digest row = files !! af_digest row.
Proof.
  unfold Prune. repeat (match goal with |- (if ?b then _ else _) = _ -> _ => destruct b; [intros [= _ <- <-]; split_and!; [apply kept_refl|done|done]|] end).
  destruct (if rp_RolloutDays p >? 0 then _ else _) as [r0 d0] eqn:E0. assert (kept_or (expired_rollout (now - days (rp_RolloutDays p))) (tb_rollouts d) (tb_rollouts d0) /\ tb_artifacts d0 = tb_artifacts d) as [Hk Ha].
  { destruct (rp_RolloutDays p >? 0); [by apply pruneRollouts_kept in E0 as (_ & ? & ?)|]. injection E0 as _ <-. split; [apply kept_refl|done]. }
  destruct r0 as [n|e]; [|intros [= _ <- <-]; rewrite Ha; done]. destruct (rp_ReleaseDays p >? 0); [|intros [= _ <- <-]; rewrite Ha; done].
  destruct (pruneReleases _ _ _ _ _ _ _ _ _) as [[r1 files1] d1] eqn:E1. apply pruneReleases_ok in E1 as (_ & Hro & Hs & Hf); [|lia|by intros ? ?%not_elem_of_nil].
  rewrite <- Ha. destruct r1; intros [= _ <- <-]; by rewrite Hro.
Qed.

(** Retention ends. Both loops of [Prune] return after at most one round per row of
    their table: with any more fuel than the number of rollouts, or of releases, their
    results are the same, whatever the clock and the commits do. *)
Theorem prune_terminates s ts round cutoff d fuel :
  (size (tb_rollouts d) < fuel)%nat -> (size (tb_releases d) < fuel)%nat ->
  (forall total, pruneRollouts s fuel ts round cutoff total d = pruneRollouts s (S (size (tb_rollouts d))) ts round cutoff total d) /\
  (forall total files, pruneReleases s fuel ts round cutoff [] total files d = pruneReleases s (S (size (tb_releases d))) ts round cutoff [] total files d).
Proof.
  intros H1 H2. split; [intros total; apply pruneRollouts_fuel; lia|]. intros total files.
  destruct (pruneReleases s (S (size (tb_releases d))) ts round cutoff [] total files d) as [[r files'] d'] eqn:E.
  apply pruneReleases_ok in E as (Hf & _); [by apply Hf|lia|by intros ? ?%not_elem_of_nil].
Qed.

(** ** The sample rollout, ended and pruned *)

#[local] Existing Instance sample_externals.

Definition ended_tables : Tables := run (map by_service [OpAbort (seconds 4) (seconds 4) sample_actor "rollout"]) (run prepared_steps empty_tables).
Definition sample_retention : RetentionPolicy := mkRetentionPolicy 30 30.
Definition sample_rounds (k : nat) : Time * bool := (sample_now + 60 * 24 * Hour, true).
Definition sample_pruned := Prune sample_service sample_rounds sample_rounds (sample_now + 60 * 24 * Hour) sample_retention sample_files ended_tables.

Lemma prune_keeps_needed_witness : sample_pruned.1.1 = Ok (1, (0, 0)) /\ tb_rollouts sample_pruned.2 !! "rollout" = None /\
  forall k row, tb_artifacts sample_pruned.2 !! k = Some row -> sample_pruned.1.2 !! af_digest row = sample_files !! af_digest row.
Proof.
  split; [vm_compute; reflexivity|]. split; [vm_compute; reflexivity|]. destruct sample_pruned as [[r files'] d'] eqn:E.
  exact (proj2 (proj2 (prune_keeps_needed sample_service sample_rounds sample_rounds (sample_now + 60 * 24 * Hour) sample_retention sample_files ended_tables r files' d' E))).
Defined.

Lemma prune_terminates_witness : size (tb_rollouts ended_tables) = 1%nat /\
  forall total, pruneRollouts sample_service 7 sample_rounds 0 (sample_now + 30 * 24 * Hour) total ended_tables
                = pruneRollouts sample_service (S (size (tb_rollouts ended_tables))) sample_rounds 0 (sample_now + 30 * 24 * Hour) total ended_tables.
Proof.
  assert (size (tb_rollouts ended_tables) = 1%nat) as E by (vm_compute; reflexivity). assert (size (tb_releases ended_tables) = 1%nat) as E' by (vm_compute; reflexivity).
  split; [exact E|]. refine (proj1 (prune_terminates sample_service sample_rounds 0 (sample_now + 30 * 24 * Hour) ended_tables 7 _ _)); [rewrite E; lia|rewrite E'; lia].
Defined.
