(* ===== verification/OpsModel.v ===== *)
(** * Remote operations: tables, transactions and authority

    [internal/remoteoperations]: the rows of the operation tables
    ([store/sqlite_operations.go]), the transactions of [service.go], capabilities,
    policies and the scope of a policy.

    A transaction is a [Tx] over the tables. The instant of a transaction and the name of
    the administrator are in its context; a failing begin, statement or commit is the
    argument [commit], after which nothing has changed. Columns in milliseconds are
    integers, as they are stored. A column that holds the JSON of a policy, of a snapshot
    or of a result holds the value; the JSON of a task, which is sealed, and the sealing
    are externals. Identifiers that the code draws with [uuid.NewString] are arguments of
    a type of non-empty strings. *)

From S2P Require Import Prelude GoText GoNumber GoSha256 GoTable OpsPolicy OpsAttempt.

(** ** Time and identifiers *)

(** [time.UnixMilli]. *)
Definition FromMilli (ms : Z) : Time := unixEpoch + ms * Millisecond.

Record uuid := mkUuid { uuid_text :> string; uuid_some : (uuid_text =s "") = false }.

(** ** protocol/types.go *)

(** [NodeIDs] and [GroupIDs] distinguish the nil slice, as their JSON does. *)
Record TaskInput := mkTaskInput {
  ti_File : option FileSpec; ti_ShellFamily : string; ti_SnippetID : string; ti_SnippetVersion : Z; ti_DedupeKey : string;
  ti_PolicyID : string; ti_Command : list Z; ti_NodeIDs : option (list string); ti_GroupIDs : option (list string); ti_Limits : Limits }.
Definition set_limits (l : Limits) (t : TaskInput) : TaskInput :=
  mkTaskInput (ti_File t) (ti_ShellFamily t) (ti_SnippetID t) (ti_SnippetVersion t) (ti_DedupeKey t) (ti_PolicyID t) (ti_Command t)
    (ti_NodeIDs t) (ti_GroupIDs t) l.
Definition set_targets_limit (n : Z) (l : Limits) : Limits :=
  mkLimits (Limits_Kind l) n (Limits_TimeoutSeconds l) (Limits_OutputBytes l) (Limits_RunAsRoot l).

(** A stored lease as the agent gets it. *)
Record Lease := mkLease { ls_AttemptID : string; ls_Nonce : string; ls_ExpiresAt : Z; ls_Payload : TaskInput }.
Record AttemptRequest := mkAttemptRequest { rq_Token : string; rq_ID : string; rq_Nonce : string }.

(** ** What is not in these packages *)

(** The AES-GCM of [secretbox] bound to its associated data, the keyed fingerprint, the
    JSON of a task and of a policy, and whether an agent token is well formed. Opening
    what was sealed gives it back; JSON gives a task back when its texts are UTF-8. *)
Definition task_texts (t : TaskInput) : list string :=
  [ti_ShellFamily t; ti_SnippetID t; ti_DedupeKey t; ti_PolicyID t; Limits_Kind (ti_Limits t)]
  ++ default [] (ti_NodeIDs t) ++ default [] (ti_GroupIDs t)
  ++ match ti_File t with Some f => [RootID f; RelativePath f; Digest f; ArtifactID f] | None => [] end.

(** [secretbox.ResourceAAD], less the domain and version that are the same everywhere. *)
Record ResourceAAD := mkAAD { Namespace : string; RowID : string; Field : string; Revision : string }.
Definition OperationSnippetAAD (id : string) (version : Z) (shell : string) : ResourceAAD :=
  mkAAD "operation_snippet" id "content" (FormatInt version +:+ ":" +:+ shell).
Definition OperationTaskAAD (id : string) : ResourceAAD := mkAAD "operation_task" id "payload" "".
Definition OperationOutputAAD (id field : string) : ResourceAAD := mkAAD "operation_attempt" id field "".
Definition OperationTransferAAD (id : string) : ResourceAAD := mkAAD "operation_transfer" id "path" "".

Class OpsExternals := {
  Seal : list Z -> ResourceAAD -> option (list Z);
  Open : list Z -> ResourceAAD -> option (list Z);
  OperationFingerprint : list Z -> option string;
  task_json : TaskInput -> list Z;
  task_of_json : list Z -> option TaskInput;
  policy_json : Policy -> list Z;
  well_formed_token : string -> bool;
  Open_Seal : forall plain aad sealed, Seal plain aad = Some sealed -> Open sealed aad = Some plain;
  task_of_task_json : forall t, forallb ValidString (task_texts t) = true -> task_of_json (task_json t) = Some t }.

(** ** Tables *)

(** admin_users and admin_sessions *)
Record User := mkUser { us_username : string; us_role : string; us_enabled : bool }.
Record Session := mkSession {
  se_user : string; se_prefix : string; se_reauthenticated : option Time; se_revoked : option Time; se_idle : Time; se_absolute : Time }.
(** nodes *)
Record Node := mkNode { nd_name : string; nd_group : option string; nd_hash : list Z; nd_created : option Time; nd_revoked : option Time }.

(** operation_policies *)
Record PolicyRow := mkPolicyRow { pl_name : string; pl_enabled : bool; pl_configuration : Policy; pl_version : Z; pl_creator : string; pl_updated : Z }.
(** operation_capabilities *)
Record CapabilityRow := mkCapabilityRow { cp_digest : string; cp_configuration : Policy; cp_seen : Z }.
(** operation_snippets; operation_snippet_versions, by snippet and version *)
Record Snippet := mkSnippet {
  sp_name : string; sp_description : string; sp_visibility : string; sp_owner : string; sp_current : Z; sp_deleted : option Z }.
Record SnippetVersionRow := mkSnippetVersionRow {
  sv_shell : string; sv_content : list Z; sv_fingerprint : string; sv_approved_by : option string; sv_approved : option Z }.

(** operation_tasks, with the policy snapshot it keeps *)
Record Snapshot := mkSnapshot { sn_policy : Policy; sn_shell : string; sn_root : bool; sn_restore_risk : bool }.
Record Task := mkTask {
  tk_dedupe : string; tk_fingerprint : string; tk_kind : string; tk_payload : list Z; tk_policy : string; tk_snapshot : Snapshot;
  tk_actor : string; tk_timeout : Z; tk_output : Z; tk_expires : Z; tk_cancel : bool; tk_created : Z; tk_updated : Z }.
Definition task_set (snapshot : Snapshot) (expires : Z) (cancel : bool) (updated : Z) (k : Task) : Task :=
  mkTask (tk_dedupe k) (tk_fingerprint k) (tk_kind k) (tk_payload k) (tk_policy k) snapshot (tk_actor k) (tk_timeout k) (tk_output k) expires
    cancel (tk_created k) updated.

(** operation_task_targets *)
Record Target := mkTarget {
  tg_task : string; tg_node : option string; tg_node_name : string; tg_state : string; tg_current : string; tg_retry_actor : string;
  tg_retry_reason : string; tg_updated : Z }.
Definition target_set (state current actor reason : string) (updated : Z) (t : Target) : Target :=
  mkTarget (tg_task t) (tg_node t) (tg_node_name t) state current actor reason updated.
Definition target_state (state : string) (updated : Z) (t : Target) : Target :=
  target_set state (tg_current t) (tg_retry_actor t) (tg_retry_reason t) updated t.
Definition target_detached (t : Target) : Target :=
  mkTarget (tg_task t) None (tg_node_name t) (tg_state t) (tg_current t) (tg_retry_actor t) (tg_retry_reason t) (tg_updated t).

(** operation_attempts; [am_result] is the metadata of the result, [am_restored] the mark
    that a restore leaves in the same column *)
Record AttemptRow := mkAttemptRow {
  am_target : string; am_number : Z; am_nonce : list Z; am_state : string; am_capability : string; am_lease : Z; am_started : option Z;
  am_heartbeat : option Z; am_completed : option Z; am_stdout : option (list Z); am_stderr : option (list Z); am_digest : string;
  am_result : option Result; am_restored : bool; am_retry_actor : string; am_retry_reason : string }.
Definition attempt_life (state : string) (started heartbeat completed : option Z) (a : AttemptRow) : AttemptRow :=
  mkAttemptRow (am_target a) (am_number a) (am_nonce a) state (am_capability a) (am_lease a) started heartbeat completed (am_stdout a)
    (am_stderr a) (am_digest a) (am_result a) (am_restored a) (am_retry_actor a) (am_retry_reason a).
Definition attempt_state (state : string) (a : AttemptRow) : AttemptRow :=
  attempt_life state (am_started a) (am_heartbeat a) (am_completed a) a.
Definition attempt_result (stdout stderr : option (list Z)) (digest : string) (result : option Result) (restored : bool) (a : AttemptRow) : AttemptRow :=
  mkAttemptRow (am_target a) (am_number a) (am_nonce a) (am_state a) (am_capability a) (am_lease a) (am_started a) (am_heartbeat a)
    (am_completed a) stdout stderr digest result restored (am_retry_actor a) (am_retry_reason a).
Definition attempt_reason (actor reason : string) (a : AttemptRow) : AttemptRow :=
  mkAttemptRow (am_target a) (am_number a) (am_nonce a) (am_state a) (am_capability a) (am_lease a) (am_started a) (am_heartbeat a)
    (am_completed a) (am_stdout a) (am_stderr a) (am_digest a) (am_result a) (am_restored a) actor reason.

(** operation_artifacts, operation_transfers and operation_transfer_targets *)
Record ArtifactRow := mkArtifactRow {
  ar_direction : string; ar_size : Z; ar_digest : string; ar_scan_status : string; ar_state : string; ar_actor : string; ar_scan_id : string;
  ar_scan_deadline : Z; ar_expires : Z }.
Record Transfer := mkTransfer {
  tf_policy : option string; tf_task : option string; tf_require_scan : bool; tf_direction : string; tf_path : list Z; tf_root : string;
  tf_size : Z; tf_digest : string; tf_mode : Z; tf_overwrite : bool; tf_artifact : option string; tf_state : string; tf_actor : string;
  tf_expires : Z; tf_updated : Z }.
Record TransferTarget := mkTransferTarget {
  tt_transfer : string; tt_node : option string; tt_node_name : string; tt_attempt : option string; tt_progress : Z; tt_state : string;
  tt_updated : Z }.

(** operation_artifact_chunks, by artifact and index *)
Record Chunk := mkChunk { ck_name : string; ck_key : string; ck_size : Z; ck_digest : string }.

(** admin_audit_events *)
Record Audit := mkAudit { au_actor : option string; au_username : string; au_action : string; au_id : string; au_outcome : string; au_at : Time }.

(** The tables of administrators, nodes and groups, which other services write. *)
Record Shared := mkShared {
  sh_users : gmap string User; sh_sessions : gmap string Session; sh_nodes : gmap string Node; sh_groups : gset string }.
Record Tables := mkTables {
  tb_shared : Shared;
  tb_policies : gmap string PolicyRow; tb_policy_nodes : gset (string * string); tb_policy_groups : gset (string * string);
  tb_capabilities : gmap string CapabilityRow;
  tb_snippets : gmap string Snippet; tb_versions : gmap (string * Z) SnippetVersionRow;
  tb_tasks : gmap string Task; tb_targets : gmap string Target; tb_attempts : gmap string AttemptRow;
  tb_artifacts : gmap string ArtifactRow; tb_transfers : gmap string Transfer; tb_transfer_targets : gmap string TransferTarget;
  tb_chunks : gmap (string * Z) Chunk; tb_audit : list Audit }.

Section setters.
Implicit Type d : Tables.
Definition set_shared x d := mkTables x (tb_policies d) (tb_policy_nodes d) (tb_policy_groups d) (tb_capabilities d) (tb_snippets d) (tb_versions d)
  (tb_tasks d) (tb_targets d) (tb_attempts d) (tb_artifacts d) (tb_transfers d) (tb_transfer_targets d) (tb_chunks d) (tb_audit d).
Definition set_policies x y z d := mkTables (tb_shared d) x y z (tb_capabilities d) (tb_snippets d) (tb_versions d)
  (tb_tasks d) (tb_targets d) (tb_attempts d) (tb_artifacts d) (tb_transfers d) (tb_transfer_targets d) (tb_chunks d) (tb_audit d).
Definition set_capabilities x d := mkTables (tb_shared d) (tb_policies d) (tb_policy_nodes d) (tb_policy_groups d) x (tb_snippets d) (tb_versions d)
  (tb_tasks d) (tb_targets d) (tb_attempts d) (tb_artifacts d) (tb_transfers d) (tb_transfer_targets d) (tb_chunks d) (tb_audit d).
Definition set_snippets x y d := mkTables (tb_shared d) (tb_policies d) (tb_policy_nodes d) (tb_policy_groups d) (tb_capabilities d) x y
  (tb_tasks d) (tb_targets d) (tb_attempts d) (tb_artifacts d) (tb_transfers d) (tb_transfer_targets d) (tb_chunks d) (tb_audit d).
Definition set_tasks x d := mkTables (tb_shared d) (tb_policies d) (tb_policy_nodes d) (tb_policy_groups d) (tb_capabilities d) (tb_snippets d)
  (tb_versions d) x (tb_targets d) (tb_attempts d) (tb_artifacts d) (tb_transfers d) (tb_transfer_targets d) (tb_chunks d) (tb_audit d).
Definition set_targets x d := mkTables (tb_shared d) (tb_policies d) (tb_policy_nodes d) (tb_policy_groups d) (tb_capabilities d) (tb_snippets d)
  (tb_versions d) (tb_tasks d) x (tb_attempts d) (tb_artifacts d) (tb_transfers d) (tb_transfer_targets d) (tb_chunks d) (tb_audit d).
Definition set_attempts x d := mkTables (tb_shared d) (tb_policies d) (tb_policy_nodes d) (tb_policy_groups d) (tb_capabilities d) (tb_snippets d)
  (tb_versions d) (tb_tasks d) (tb_targets d) x (tb_artifacts d) (tb_transfers d) (tb_transfer_targets d) (tb_chunks d) (tb_audit d).
Definition set_transfers x y z d := mkTables (tb_shared d) (tb_policies d) (tb_policy_nodes d) (tb_policy_groups d) (tb_capabilities d)
  (tb_snippets d) (tb_versions d) (tb_tasks d) (tb_targets d) (tb_attempts d) x y z (tb_chunks d) (tb_audit d).
Definition set_chunks x d := mkTables (tb_shared d) (tb_policies d) (tb_policy_nodes d) (tb_policy_groups d) (tb_capabilities d) (tb_snippets d)
  (tb_versions d) (tb_tasks d) (tb_targets d) (tb_attempts d) (tb_artifacts d) (tb_transfers d) (tb_transfer_targets d) x (tb_audit d).
Definition set_audit x d := mkTables (tb_shared d) (tb_policies d) (tb_policy_nodes d) (tb_policy_groups d) (tb_capabilities d) (tb_snippets d)
  (tb_versions d) (tb_tasks d) (tb_targets d) (tb_attempts d) (tb_artifacts d) (tb_transfers d) (tb_transfer_targets d) (tb_chunks d) x.
End setters.
Definition tb_nodes (d : Tables) : gmap string Node := sh_nodes (tb_shared d).

(** The states of a target that is not over, and of one an agent may be working on. *)
Definition activeStates : list string := ["queued"; "leased"; "running"; "unknown"; "cancel_requested"].
Definition busyStates : list string := ["leased"; "running"; "unknown"; "cancel_requested"].
Definition active (t : Target) : bool := str_in (tg_state t) activeStates.
Definition busy (t : Target) : bool := str_in (tg_state t) busyStates.

(** ** service.go *)

Definition tx (A : Type) : Type := Tx opsError Tables A.

(** [tx.now] and the administrator whose authority was checked, if any. *)
Record context := mkContext { cx_now : Time; cx_user : string }.
Definition ms (cx : context) : Z := UnixMilli (cx_now cx).

(** The spool: its size limit and whether it has a scanner. [sv_queue]: a queue that can
    take the notifications of operations. *)
Record Spool := mkSpool { sl_maximum : Z; sl_scanner : bool }.
Record Service := mkService { sv_enabled : bool; sv_spool : option Spool; sv_queue : bool }.
Record Actor := mkActor { ac_SessionID : string; ac_UserID : string }.

Definition atomicWrite {A} (commit : bool) (now : Time) (mutate : context -> tx A) (d : Tables) : result opsError A * Tables :=
  match mutate (mkContext now "") d with
  | Ok (a, d') => if commit then (Ok a, d') else (Err ErrUnavailable, d)
  | Err e => (Err e, d)
  end.
Definition write {A} (s : Service) (commit : bool) (now : Time) (mutate : context -> tx A) (d : Tables) : result opsError A * Tables :=
  if negb (sv_enabled s) then (Err ErrForbidden, d) else atomicWrite commit now mutate d.
(** operation_mutation.go: the transaction of the queue; [commit] also says whether the
    notification, when there is one, was enqueued. *)
Definition atomicMutation {A} (s : Service) (commit : bool) (now : Time) (mutate : context -> tx A) (d : Tables) : result opsError A * Tables :=
  if negb (sv_queue s) then (Err ErrUnavailable, d) else atomicWrite commit now mutate d.
Definition operationMutation {A} (s : Service) (commit : bool) (now : Time) (mutate : context -> tx A) (d : Tables) : result opsError A * Tables :=
  if negb (sv_enabled s) then (Err ErrForbidden, d) else atomicMutation s commit now mutate d.

Definition session_live (actor : Actor) (now : Time) (d : Tables) : option (User * Session) :=
  match sh_sessions (tb_shared d) !! ac_SessionID actor with
  | Some se =>
      match sh_users (tb_shared d) !! se_user se with
      | Some u =>
          if (se_user se =s ac_UserID actor) && us_enabled u && bool_decide (se_revoked se = None) && After (se_idle se) now && After (se_absolute se) now
          then Some (u, se) else None
      | None => None
      end
  | None => None
  end.
(** The context with the administrator's authority, or why there is none. *)
Definition authorize (cx : context) (actor : Actor) (owner recent : bool) : tx context :=
  row <~ query (session_live actor (cx_now cx)) ;;
  match row with
  | None => fail ErrForbidden
  | Some (u, se) =>
      if (us_role u <>s "owner") && (owner || (us_role u <>s "admin")) then fail ErrForbidden else
      if recent && negb (match se_reauthenticated se with Some t => Before (cx_now cx) t | None => false end) then fail ErrForbidden else
      ret (mkContext (cx_now cx) (us_username u))
  end.

Definition auditEvent (cx : context) (actorID action id outcome : string) : tx unit :=
  exec (fun d => set_audit (tb_audit d ++
    [mkAudit (if bool_decide (is_Some (sh_users (tb_shared d) !! actorID)) then Some actorID else None) (cx_user cx) action id outcome (cx_now cx)]) d).
Definition audit (cx : context) (actorID action id : string) : tx unit := auditEvent cx actorID action id "success".

Section service.
Context `{OpsExternals}.

Definition fingerprint (content : list Z) : tx string := require (OperationFingerprint content) ErrUnavailable.

(** ** capabilities.go *)

Definition CapabilityLifetime : Duration := 5 * Minute.

(** The node whose token this is. *)
Definition token_node (token : string) (d : Tables) : option string :=
  fst <$> head (rows_where (fun _ n => bool_decide (nd_hash n = Sum256 (bytes token)) && bool_decide (is_Some (nd_created n)) && bool_decide (nd_revoked n = None)) (tb_nodes d)).
Definition node (token : string) : tx string :=
  if negb (well_formed_token token) then fail ErrForbidden else
  id <~ query (token_node token) ;;
  require id ErrForbidden.

Definition Advertise (s : Service) (commit : bool) (now : Time) (token : string) (policy : Policy) (d : Tables) : result opsError string * Tables :=
  if negb (is_ok (Policy_Validate policy)) then (Err ErrInvalid, d) else
  let digest := EncodeHex (Sum256 (policy_json policy)) in
  write s commit now (fun cx =>
    id <~ node token ;;
    if llen (policy_json policy) >? 16384 then fail ErrUnavailable else
    exec (fun d => set_capabilities (<[id := mkCapabilityRow digest policy (ms cx)]> (tb_capabilities d)) d) >>>
    ret digest) d.

Definition capability (cx : context) (nodeID : string) : tx (Policy * string) :=
  row <~ query (fun d => tb_capabilities d !! nodeID) ;;
  match row with
  | None => fail ErrForbidden
  | Some c =>
      if (Sub (cx_now cx) (FromMilli (cp_seen c)) >? CapabilityLifetime) || negb (is_ok (Policy_Validate (cp_configuration c))) then fail ErrForbidden
      else ret (cp_configuration c, cp_digest c)
  end.

(** ** policy_store.go and policy_actions.go *)

Definition MaximumPolicies : Z := 200.
Record PolicyInput := mkPolicyInput {
  pi_ID : string; pi_Name : string; pi_Version : Z; pi_Policy : Policy; pi_NodeIDs : list string; pi_GroupIDs : list string }.

(** [one] of the inserts: a key that is there already, or a row it refers to that is
    not, fails. *)
Definition assign_nodes (id : string) (nodes : list string) : tx unit :=
  each (fun n d => if bool_decide ((id, n) ∈ tb_policy_nodes d) || negb (bool_decide (is_Some (tb_nodes d !! n))) then Err ErrUnavailable
                   else Ok (tt, set_policies (tb_policies d) ({[(id, n)]} ∪ tb_policy_nodes d) (tb_policy_groups d) d)) nodes.
Definition assign_groups (id : string) (groups : list string) : tx unit :=
  each (fun g d => if bool_decide ((id, g) ∈ tb_policy_groups d) || negb (bool_decide (g ∈ sh_groups (tb_shared d))) then Err ErrUnavailable
                   else Ok (tt, set_policies (tb_policies d) (tb_policy_nodes d) ({[(id, g)]} ∪ tb_policy_groups d) d)) groups.
Definition assignPolicy (input : PolicyInput) : tx unit :=
  exec (fun d => set_policies (tb_policies d) (filter (fun x => x.1 <> pi_ID input) (tb_policy_nodes d)) (tb_policy_groups d) d) >>>
  exec (fun d => set_policies (tb_policies d) (tb_policy_nodes d) (filter (fun x => x.1 <> pi_ID input) (tb_policy_groups d)) d) >>>
  assign_nodes (pi_ID input) (pi_NodeIDs input) >>>
  assign_groups (pi_ID input) (pi_GroupIDs input).

Definition savePolicy (cx : context) (actor : Actor) (input : PolicyInput) : tx unit :=
  row <~ query (fun d => tb_policies d !! pi_ID input) ;;
  let version := match row with Some r => pl_version r | None => 0 end in
  count <~ query (fun d => Z.of_nat (size (tb_policies d))) ;;
  if (version =? 0) && (count >=? MaximumPolicies) then fail ErrForbidden else
  if negb (version =? pi_Version input) then fail ErrConflict else
  if llen (policy_json (pi_Policy input)) >? 16384 then fail ErrUnavailable else
  exec (fun d => set_policies (<[pi_ID input := mkPolicyRow (pi_Name input) (Enabled (pi_Policy input)) (pi_Policy input) (version + 1)
      (match row with Some r => pl_creator r | None => ac_UserID actor end) (ms cx)]> (tb_policies d)) (tb_policy_nodes d) (tb_policy_groups d) d) >>>
  assignPolicy input >>>
  audit cx (ac_UserID actor) "operation.policy.updated" (pi_ID input).

Definition SavePolicy (s : Service) (commit : bool) (now : Time) (fresh : uuid) (actor : Actor) (input : PolicyInput) (d : Tables) : result opsError string * Tables :=
  if negb (is_ok (Policy_Validate (pi_Policy input))) || (pi_Name input =s "") || (len (pi_Name input) >? 200)
     || (llen (pi_NodeIDs input) + llen (pi_GroupIDs input) >? PolicyMaximumTargets) then (Err ErrInvalid, d) else
  let id := if pi_ID input =s "" then uuid_text fresh else pi_ID input in
  let input := mkPolicyInput id (pi_Name input) (pi_Version input) (pi_Policy input) (pi_NodeIDs input) (pi_GroupIDs input) in
  write s commit now (fun cx =>
    cx <~ authorize cx actor true true ;;
    savePolicy cx actor input >>>
    ret id) d.

Definition disabled_policy (p : Policy) : Policy :=
  mkPolicy (Retention p) (SupportedShells p) false (Kinds p) (MaximumTargets p) (MaximumActiveTasks p) (Concurrency p) (TimeoutSeconds p)
    (OutputBytes p) (AllowRoot p) (RequireScan p) (Roots p).
Definition DisablePolicy (s : Service) (commit : bool) (now : Time) (actor : Actor) (id : string) (d : Tables) : result opsError unit * Tables :=
  write s commit now (fun cx =>
    cx <~ authorize cx actor true true ;;
    row <~ query (fun d => tb_policies d !! id) ;;
    r <~ require row ErrNotFound ;;
    exec (fun d => set_policies (<[id := mkPolicyRow (pl_name r) false (disabled_policy (pl_configuration r)) (pl_version r + 1) (pl_creator r) (ms cx)]> (tb_policies d))
      (tb_policy_nodes d) (tb_policy_groups d) d) >>>
    audit cx (ac_UserID actor) "operation.policy.disabled" id) d.

Definition policy (id : string) : tx Policy :=
  row <~ query (fun d => tb_policies d !! id) ;;
  r <~ require row ErrNotFound ;;
  if negb (is_ok (Policy_Validate (pl_configuration r))) || negb (pl_enabled r) || negb (Enabled (pl_configuration r)) then fail ErrForbidden
  else ret (pl_configuration r).

(** ** admission.go *)

Definition in_scope (policyID nodeID : string) (d : Tables) : bool :=
  bool_decide ((policyID, nodeID) ∈ tb_policy_nodes d)
  || match tb_nodes d !! nodeID ≫= nd_group with Some g => bool_decide ((policyID, g) ∈ tb_policy_groups d) | None => false end.
Definition scope (policyID nodeID : string) : tx unit :=
  good <~ query (fun d =>
    match tb_nodes d !! nodeID with
    | Some n => bool_decide (is_Some (nd_created n)) && bool_decide (nd_revoked n = None) && in_scope policyID nodeID d
    | None => false
    end) ;;
  if good then ret tt else fail ErrForbidden.

(** [COUNT(...) WHERE id IN (json)]: the distinct identifiers of the list that exist. *)
Definition existing (ids : list string) (dom : gset string) : Z := Z.of_nat (size (list_to_set ids ∩ dom)).
Definition validateSelections (input : TaskInput) : tx unit :=
  good <~ query (fun d => (existing (default [] (ti_NodeIDs input)) (dom (tb_nodes d)) =? llen (default [] (ti_NodeIDs input)))
    && (existing (default [] (ti_GroupIDs input)) (sh_groups (tb_shared d)) =? llen (default [] (ti_GroupIDs input)))) ;;
  if good then ret tt else fail ErrInvalid.

Definition resolved (input : TaskInput) (d : Tables) : list (string * Node) :=
  take (Z.to_nat (PolicyMaximumTargets + 1)) (ordered (fun _ _ => 0) (rows_where (fun id n => str_in id (default [] (ti_NodeIDs input))
    || match nd_group n with Some g => str_in g (default [] (ti_GroupIDs input)) | None => false end) (tb_nodes d))).
Definition resolveTargets (input : TaskInput) : tx (list (string * string)) :=
  validateSelections input >>>
  query (fun d => (fun kv => (kv.1, nd_name kv.2)) <$> resolved input d).

(** ** snippets.go and policy_actions.go *)

Record SnippetInput := mkSnippetInput {
  si_ID : string; si_Name : string; si_Description : string; si_Visibility : string; si_ShellFamily : string; si_Content : list Z;
  si_ExpectedVersion : Z }.
(** The new version. A snippet that was deleted keeps its row and its versions: writing it
    again fails on the version that is there. *)
Definition saveSnippet (cx : context) (actor : Actor) (input : SnippetInput) : tx Z :=
  row <~ query (fun d => match tb_snippets d !! si_ID input with Some s => if bool_decide (sp_deleted s = None) then Some s else None | None => None end) ;;
  let owner := match row with Some s => sp_owner s | None => "" end in
  let current := match row with Some s => sp_current s | None => 0 end in
  if (owner <>s "") && (owner <>s ac_UserID actor) then fail ErrForbidden else
  if negb (si_ExpectedVersion input =? current) then fail ErrConflict else
  let version := current + 1 in
  sealed <~ require (Seal (si_Content input) (OperationSnippetAAD (si_ID input) version (si_ShellFamily input))) ErrUnavailable ;;
  digest <~ fingerprint (si_Content input) ;;
  exec (fun d =>
    let kept := tb_snippets d !! si_ID input in
    set_snippets (<[si_ID input := mkSnippet (si_Name input) (si_Description input) (si_Visibility input)
        (match kept with Some s => sp_owner s | None => ac_UserID actor end) version (kept ≫= sp_deleted)]> (tb_snippets d)) (tb_versions d) d) >>>
  (fun d => if bool_decide (is_Some (tb_versions d !! (si_ID input, version))) then Err ErrUnavailable else
    Ok (tt, set_snippets (tb_snippets d) (<[(si_ID input, version) := mkSnippetVersionRow (si_ShellFamily input) sealed digest None None]> (tb_versions d)) d)) >>>
  audit cx (ac_UserID actor) "operation.snippet.saved" (si_ID input) >>>
  ret version.
Definition SaveSnippet (s : Service) (commit : bool) (now : Time) (fresh : uuid) (actor : Actor) (input : SnippetInput) (d : Tables) : result opsError Z * Tables :=
  if (si_Name input =s "") || (len (si_Name input) >? 200) || (len (si_Description input) >? 2000) || negb (is_ok (ValidateCommand (si_Content input)))
  then (Err ErrInvalid, d) else
  if negb (str_in (si_Visibility input) ["private"; "shared"]) || negb (str_in (si_ShellFamily input) ["sh"; "powershell"]) then (Err ErrInvalid, d) else
  let id := if si_ID input =s "" then uuid_text fresh else si_ID input in
  let input := mkSnippetInput id (si_Name input) (si_Description input) (si_Visibility input) (si_ShellFamily input) (si_Content input) (si_ExpectedVersion input) in
  write s commit now (fun cx => cx <~ authorize cx actor false false ;; saveSnippet cx actor input) d.

Definition ApproveSnippet (s : Service) (commit : bool) (now : Time) (actor : Actor) (id : string) (version : Z) (d : Tables) : result opsError unit * Tables :=
  write s commit now (fun cx =>
    cx <~ authorize cx actor true true ;;
    row <~ query (fun d =>
      match tb_snippets d !! id with
      | Some s => if (sp_current s =? version) && (sp_visibility s =s "shared") && bool_decide (sp_deleted s = None) then tb_versions d !! (id, version) else None
      | None => None
      end) ;;
    v <~ require row ErrConflict ;;
    exec (fun d => set_snippets (tb_snippets d) (<[(id, version) := mkSnippetVersionRow (sv_shell v) (sv_content v) (sv_fingerprint v)
      (Some (ac_UserID actor)) (Some (ms cx))]> (tb_versions d)) d) >>>
    audit cx (ac_UserID actor) "operation.snippet.approved" id) d.

Definition DeleteSnippet (s : Service) (commit : bool) (now : Time) (actor : Actor) (id : string) (d : Tables) : result opsError unit * Tables :=
  write s commit now (fun cx =>
    cx <~ authorize cx actor false false ;;
    row <~ query (fun d => match tb_snippets d !! id with Some s => if bool_decide (sp_deleted s = None) then Some s else None | None => None end) ;;
    s <~ require row ErrNotFound ;;
    if sp_owner s <>s ac_UserID actor then fail ErrForbidden else
    exec (fun d => set_snippets (<[id := mkSnippet (sp_name s) (sp_description s) (sp_visibility s) (sp_owner s) (sp_current s) (Some (ms cx))]> (tb_snippets d))
      (tb_versions d) d) >>>
    audit cx (ac_UserID actor) "operation.snippet.deleted" id) d.
End service.
