(* ===== verification/OpsTasks.v ===== *)
(** * Remote operations: tasks, leases and attempts

    [internal/remoteoperations]: creating a task ([task_create.go],
    [snippet_admission.go]), handing it to an agent ([lease.go], [dispatch_query.go],
    [file_admission.go]), the life of an attempt ([attempt_store.go], [admission.go],
    [running_policy.go], [complete.go], [transfer_state.go]), and what administrators and
    the maintenance do to tasks ([target_actions.go], [task_expiry.go], [retention.go],
    [node_force_delete.go], [restore.go]). *)

From S2P Require Import Prelude GoText GoNumber GoSha256 GoTable OpsPolicy OpsAttempt OpsModel.

Definition QueueLifetime : Duration := 24 * Hour.
Definition fileKind (kind : string) : bool := (kind =s "deploy") || (kind =s "collect").
Definition commandKind (kind : string) : bool := (kind =s "shell") || (kind =s "snippet").

(** [UPDATE ... WHERE id=?] of one row: [one] fails when there is none. *)
Definition update_target (id : string) (f : Target -> Target) : tx unit := fun d =>
  match tb_targets d !! id with
  | Some t => Ok (tt, set_targets (<[id := f t]> (tb_targets d)) d)
  | None => Err ErrUnavailable
  end.
Definition update_attempt (id : string) (f : AttemptRow -> AttemptRow) : tx unit := fun d =>
  match tb_attempts d !! id with
  | Some a => Ok (tt, set_attempts (<[id := f a]> (tb_attempts d)) d)
  | None => Err ErrUnavailable
  end.
Definition update_task (id : string) (f : Task -> Task) : tx unit := fun d =>
  match tb_tasks d !! id with
  | Some k => Ok (tt, set_tasks (<[id := f k]> (tb_tasks d)) d)
  | None => Err ErrUnavailable
  end.
(** [UPDATE ... WHERE c] of every row. *)
Definition update_targets (c : string -> Target -> bool) (f : Target -> Target) : tx unit :=
  exec (fun d => set_targets (update_where c f (tb_targets d)) d).
Definition update_attempts (c : Tables -> string -> AttemptRow -> bool) (f : AttemptRow -> AttemptRow) : tx unit :=
  exec (fun d => set_attempts (update_where (c d) f (tb_attempts d)) d).

(** [INSERT] fails on a key that is there. *)
Definition insert_task (id : string) (k : Task) : tx unit := fun d =>
  if bool_decide (is_Some (tb_tasks d !! id)) || exists_where (fun _ k' => tk_dedupe k' =s tk_dedupe k) (tb_tasks d) then Err ErrUnavailable
  else Ok (tt, set_tasks (<[id := k]> (tb_tasks d)) d).
Definition insert_target (id : string) (t : Target) : tx unit := fun d =>
  if bool_decide (is_Some (tb_targets d !! id)) || exists_where (fun _ t' => (tg_task t' =s tg_task t) && bool_decide (tg_node t' = tg_node t)) (tb_targets d)
  then Err ErrUnavailable else Ok (tt, set_targets (<[id := t]> (tb_targets d)) d).
Definition insert_attempt (id : string) (a : AttemptRow) : tx unit := fun d =>
  if bool_decide (is_Some (tb_attempts d !! id)) then Err ErrUnavailable else Ok (tt, set_attempts (<[id := a]> (tb_attempts d)) d).

Section tasks.
Context `{OpsExternals}.

(** ** task_create.go *)

Record taskCreation := mkCreation {
  tc_actor : Actor; tc_input : TaskInput; tc_encoded : list Z; tc_id : string; tc_policy : Policy; tc_nodes : list (string * string) }.

(** The identifier of the task when the request repeats an earlier one. *)
Definition existingTask (c : taskCreation) : tx (option string) :=
  row <~ query (fun d => head (rows_where (fun _ k => tk_dedupe k =s ti_DedupeKey (tc_input c)) (tb_tasks d))) ;;
  match row with
  | None => ret None
  | Some (id, k) =>
      if tk_actor k <>s ac_UserID (tc_actor c) then fail ErrConflict else
      plain <~ require (Open (tk_payload k) (OperationTaskAAD id)) ErrUnavailable ;;
      stored <~ require (task_of_json plain) ErrUnavailable ;;
      let stored := set_limits (set_targets_limit 0 (ti_Limits stored)) stored in
      if negb (bool_decide (task_json stored = tc_encoded c)) then fail ErrConflict else ret (Some id)
  end.

(** snippet_admission.go *)
Definition validateTaskSnippet (c : taskCreation) : tx unit :=
  let input := tc_input c in
  if Limits_Kind (ti_Limits input) <>s "snippet" then
    if (ti_SnippetID input <>s "") || negb (ti_SnippetVersion input =? 0) then fail ErrInvalid else ret tt
  else
  row <~ query (fun d =>
    match tb_snippets d !! ti_SnippetID input, tb_versions d !! (ti_SnippetID input, ti_SnippetVersion input) with
    | Some s, Some v => if bool_decide (is_Some (sv_approved v)) && (sp_visibility s =s "shared") && bool_decide (sp_deleted s = None) then Some v else None
    | _, _ => None
    end) ;;
  v <~ require row ErrForbidden ;;
  plain <~ require (Open (sv_content v) (OperationSnippetAAD (ti_SnippetID input) (ti_SnippetVersion input) (sv_shell v))) ErrUnavailable ;;
  if (sv_shell v <>s ti_ShellFamily input) || negb (bool_decide (plain = ti_Command input)) then fail ErrConflict else ret tt.

Definition authorizeTarget (cx : context) (c : taskCreation) (n : string * string) : tx unit :=
  let input := tc_input c in
  scope (ti_PolicyID input) n.1 >>>
  local <~ capability cx n.1 ;;
  let limits := set_targets_limit (llen (tc_nodes c)) (ti_Limits input) in
  when (commandKind (Limits_Kind limits)) (lift (AuthorizeShell (tc_policy c) local.1 (ti_ShellFamily input))) >>>
  lift (Authorize (tc_policy c) local.1 limits) >>>
  match ti_File input with
  | Some f => lift (AuthorizeFile (tc_policy c) local.1 (mkFileRequest (Limits_Kind limits) f))
  | None => ret tt
  end.

(** [COUNT(DISTINCT t.id)] of the tasks of the policy with an active target. *)
Definition active_tasks (policyID : string) (d : Tables) : Z :=
  count_where (fun id k => (tk_policy k =s policyID)
    && exists_where (fun _ t => (tg_task t =s id) && bool_decide (is_Some (tg_node t)) && active t) (tb_targets d)) (tb_tasks d).
Definition activeTaskQuota (policyID : string) (maximum : Z) : tx unit :=
  n <~ query (active_tasks policyID) ;;
  if n >=? maximum then fail ErrForbidden else ret tt.

(** [fresh]: the identifiers of the targets. *)
Fixpoint insert_targets (cx : context) (task : string) (fresh : nat -> uuid) (i : nat) (nodes : list (string * string)) : tx unit :=
  match nodes with
  | [] => ret tt
  | n :: rest => insert_target (fresh i) (mkTarget task (Some n.1) n.2 "queued" "" "" "" (ms cx)) >>> insert_targets cx task fresh (S i) rest
  end.
Definition persistTask (cx : context) (fresh : nat -> uuid) (c : taskCreation) : tx unit :=
  let input := tc_input c in
  sealed <~ require (Seal (tc_encoded c) (OperationTaskAAD (tc_id c))) ErrUnavailable ;;
  digest <~ fingerprint (tc_encoded c) ;;
  insert_task (tc_id c) (mkTask (ti_DedupeKey input) digest (Limits_Kind (ti_Limits input)) sealed (ti_PolicyID input)
    (mkSnapshot (tc_policy c) (ti_ShellFamily input) (Limits_RunAsRoot (ti_Limits input)) false) (ac_UserID (tc_actor c))
    (Limits_TimeoutSeconds (ti_Limits input)) (Limits_OutputBytes (ti_Limits input))
    (UnixMilli (Prelude.Add (cx_now cx) (QueueHours (RetentionLimits (tc_policy c)) * Hour))) false (ms cx) (ms cx)) >>>
  insert_targets cx (tc_id c) fresh 0 (tc_nodes c).

Definition createTask (cx : context) (fresh : nat -> uuid) (c : taskCreation) : tx unit :=
  validateTaskSnippet c >>>
  p <~ policy (ti_PolicyID (tc_input c)) ;;
  nodes <~ resolveTargets (tc_input c) ;;
  if (llen nodes =? 0) || (llen nodes >? MaximumTargets p) then fail ErrForbidden else
  let c := mkCreation (tc_actor c) (tc_input c) (tc_encoded c) (tc_id c) p nodes in
  each (authorizeTarget cx c) nodes >>>
  activeTaskQuota (ti_PolicyID (tc_input c)) (MaximumActiveTasks p) >>>
  let input := set_limits (set_targets_limit (llen nodes) (ti_Limits (tc_input c))) (tc_input c) in
  persistTask cx fresh (mkCreation (tc_actor c) input (task_json input) (tc_id c) p nodes) >>>
  audit cx (ac_UserID (tc_actor c)) "operation.task.created" (tc_id c).

(** [slices.Sort] of strings. *)
Definition str_le (a b : string) : Prop := str_lt b a = false.
#[local] Instance str_le_dec : RelDecision str_le.
Proof. intros a b. unfold str_le. apply _. Defined.
Definition Sort (l : list string) : list string := merge_sort str_le l.

(** The request as it is encoded and compared. *)
Definition canonical_input (input : TaskInput) : TaskInput :=
  mkTaskInput (ti_File input) (if ti_ShellFamily input =s "" then "sh" else ti_ShellFamily input) (ti_SnippetID input) (ti_SnippetVersion input)
    (ti_DedupeKey input) (ti_PolicyID input) (ti_Command input) (Sort <$> ti_NodeIDs input) (Sort <$> ti_GroupIDs input)
    (set_targets_limit 0 (ti_Limits input)).
Definition validTask (input : TaskInput) : bool :=
  let shell := if ti_ShellFamily input =s "" then "sh" else ti_ShellFamily input in
  let n := llen (default [] (ti_NodeIDs input)) + llen (default [] (ti_GroupIDs input)) in
  ((shell =s "sh") || (shell =s "powershell"))
  && ValidID (ti_DedupeKey input) && is_ok (ValidateCommand (ti_Command input)) && commandKind (Limits_Kind (ti_Limits input))
  && (1 <=? n) && (n <=? PolicyMaximumTargets)
  && bool_decide (ti_File input = None) && (0 <=? Limits_Targets (ti_Limits input)) && (Limits_Targets (ti_Limits input) <=? PolicyMaximumTargets).

Definition CreateTask (s : Service) (commit : bool) (now : Time) (id : uuid) (fresh : nat -> uuid) (actor : Actor) (input : TaskInput) (d : Tables)
    : result opsError string * Tables :=
  if negb (validTask input) then (Err ErrInvalid, d) else
  let input := canonical_input input in
  let c := mkCreation actor input (task_json input) id (mkPolicy None [] false [] 0 0 0 0 0 false false []) [] in
  write s commit now (fun cx =>
    cx <~ authorize cx actor false true ;;
    duplicate <~ existingTask c ;;
    match duplicate with
    | Some existing => ret existing
    | None => createTask cx fresh c >>> ret (uuid_text id)
    end) d.

(** ** lease.go and dispatch_query.go *)

Definition transfer_of (task : string) (d : Tables) : option (string * Transfer) :=
  head (ordered (fun _ _ => 0) (rows_where (fun _ f => bool_decide (tf_task f = Some task)) (tb_transfers d))).
Definition artifact_of (f : Transfer) (d : Tables) : option ArtifactRow := tf_artifact f ≫= fun id => tb_artifacts d !! id.
(** [f.require_scan OR COALESCE(p.require_scan,0)]. *)
Definition scan_required (f : Transfer) (d : Tables) : bool :=
  tf_require_scan f || match tf_policy f ≫= fun id => tb_policies d !! id with Some p => RequireScan (pl_configuration p) | None => false end.

(** The roots of one policy admit the transfer. *)
Definition root_admits (kind : string) (f : Transfer) (p : Policy) : bool :=
  existsb (fun r => (Root_ID r =s tf_root f) && (tf_size f <=? Root_MaximumBytes r)
    && ((kind =s "collect") && Root_Read r
        || (kind =s "deploy") && Root_Write r && (negb (tf_overwrite f) || Root_Overwrite r) && ((tf_mode f =? 384) || Root_Executable r))) (Roots p).
(** [dispatchAdmissionSQL]: [p] the row of the policy, [c] the configuration of the agent. *)
Definition dispatchAdmission (k : Task) (p : PolicyRow) (c : Policy) (scoped : bool) (f : option Transfer) : bool :=
  let q := pl_configuration p in
  let shell := if sn_shell (tk_snapshot k) =s "" then "sh" else sn_shell (tk_snapshot k) in
  pl_enabled p && Enabled q && Enabled c
  && str_in (tk_kind k) (Kinds q) && str_in (tk_kind k) (Kinds c)
  && (tk_timeout k <=? TimeoutSeconds q) && (tk_timeout k <=? TimeoutSeconds c)
  && (tk_output k <=? OutputBytes q) && (tk_output k <=? OutputBytes c)
  && scoped
  && (fileKind (tk_kind k) || str_in shell (SupportedShells c) && ((llen (SupportedShells q) =? 0) || str_in shell (SupportedShells q)))
  && (negb (sn_root (tk_snapshot k)) || AllowRoot q && AllowRoot c)
  && (negb (fileKind (tk_kind k)) || match f with Some f => root_admits (tk_kind k) f q && root_admits (tk_kind k) f c | None => false end).

(** The file of a task can be sent or collected now. *)
Definition file_ready (now : Z) (k : Task) (f : option Transfer) (p : PolicyRow) (d : Tables) : bool :=
  match f with
  | Some f =>
      match artifact_of f d with
      | Some a =>
          (ar_expires a >? now)
          && ((tk_kind k =s "deploy") && (ar_state a =s "ready")
                && (negb (tf_require_scan f) && negb (RequireScan (pl_configuration p)) || (ar_scan_status a =s "clean"))
              || (tk_kind k =s "collect") && str_in (ar_state a) ["ready"; "uploading"; "awaiting_source"])
      | None => false
      end
  | None => false
  end.

Definition dispatchable (now : Z) (files : bool) (node : string) (d : Tables) (t : Target) : bool :=
  bool_decide (tg_node t = Some node) && (tg_state t =s "queued")
  && match tb_tasks d !! tg_task t, tb_capabilities d !! node with
     | Some k, Some c =>
         match tb_policies d !! tk_policy k with
         | Some p =>
             let f := snd <$> transfer_of (tg_task t) d in
             negb (tk_cancel k) && (tk_expires k >? now) && (files || negb (fileKind (tk_kind k)))
             && (negb (fileKind (tk_kind k)) || file_ready now k f p d)
             && dispatchAdmission k p (cp_configuration c) (in_scope (tk_policy k) node d) f
         | None => false
         end
     | _, _ => false
     end.
Definition task_created (d : Tables) (t : Target) : Z := default 0 (tk_created <$> tb_tasks d !! tg_task t).

Record dispatch := mkDispatch { dp_node : string; dp_target : string; dp_task : string; dp_policy : string; dp_payload : list Z; dp_ignore : string }.
Definition nextDispatch (cx : context) (nodeID : string) (files : bool) : tx (option dispatch) :=
  query (fun d =>
    match head (ordered (fun _ t => task_created d t) (rows_where (fun _ t => dispatchable (ms cx) files nodeID d t) (tb_targets d))) with
    | Some (id, t) => (fun k => mkDispatch nodeID id (tg_task t) (tk_policy k) (tk_payload k) "") <$> tb_tasks d !! tg_task t
    | None => None
    end).

(** file_admission.go *)
Definition fileDispatchAllowed (cx : context) (taskID : string) : tx unit :=
  row <~ query (fun d => (fun f => (tf_direction f.2, artifact_of f.2 d, scan_required f.2 d)) <$> transfer_of taskID d) ;;
  row <~ require row ErrUnavailable ;;
  let '(direction, a, required) := row in
  let state := match a with Some a => ar_state a | None => "" end in
  let expiry := match a with Some a => ar_expires a | None => 0 end in
  let scan := match a with Some a => ar_scan_status a | None => "" end in
  if expiry <=? ms cx then fail ErrConflict else
  if (direction =s "deploy") && ((state <>s "ready") || required && (scan <>s "clean")) then fail ErrConflict else
  if (direction =s "collect") && (state <>s "ready") && (state <>s "uploading") && (state <>s "awaiting_source") then fail ErrConflict else
  ret tt.

Definition busy_count (node ignore : string) (d : Tables) : Z :=
  count_where (fun _ t => bool_decide (tg_node t = Some node) && (tg_current t <>s ignore) && busy t) (tb_targets d).
Definition target_count (task : string) (d : Tables) : Z := count_where (fun _ t => tg_task t =s task) (tb_targets d).

(** The payload the agent may execute now. *)
Definition validateDispatch (cx : context) (item : dispatch) (local : Policy) : tx TaskInput :=
  plain <~ require (Open (dp_payload item) (OperationTaskAAD (dp_task item))) ErrUnavailable ;;
  payload <~ require (task_of_json plain) ErrUnavailable ;;
  p <~ policy (dp_policy item) ;;
  count <~ query (target_count (dp_task item)) ;;
  let limits := set_targets_limit count (ti_Limits payload) in
  scope (dp_policy item) (dp_node item) >>>
  when (commandKind (Limits_Kind limits)) (lift (AuthorizeShell p local (ti_ShellFamily payload))) >>>
  lift (Authorize p local limits) >>>
  match ti_File payload with
  | Some f => fileDispatchAllowed cx (dp_task item) >>> lift (AuthorizeFile p local (mkFileRequest (Limits_Kind limits) f))
  | None => ret tt
  end >>>
  n <~ query (busy_count (dp_node item) (dp_ignore item)) ;;
  if n >=? Z.min (Concurrency p) (Concurrency local) then fail ErrBusy else ret payload.

(** [MAX(attempt_number)+1]. *)
Definition next_number (target : string) (d : Tables) : Z :=
  foldr (fun kv n => Z.max (am_number kv.2) n) 0 (rows_where (fun _ a => am_target a =s target) (tb_attempts d)) + 1.
(** [nonce]: the 32 random bytes; [aid]: the identifier of the attempt. *)
Definition leaseDispatch (cx : context) (nonce : list Z) (aid : uuid) (digest : string) (item : dispatch) (payload : TaskInput) : tx Lease :=
  let expires := UnixMilli (Prelude.Add (cx_now cx) LeaseDuration) in
  row <~ query (fun d => (next_number (dp_target item) d, tb_targets d !! dp_target item)) ;;
  t <~ require row.2 ErrUnavailable ;;
  insert_attempt aid (mkAttemptRow (dp_target item) row.1 (Sum256 nonce) "leased" digest expires None None None None None "" None false
    (tg_retry_actor t) (tg_retry_reason t)) >>>
  update_target (dp_target item) (target_set "leased" aid "" "" (ms cx)) >>>
  ret (mkLease aid (EncodeHex nonce) expires payload).

Definition unstarted (a : AttemptRow) : bool := bool_decide (am_started a = None).
Definition has_attempt (c : AttemptRow -> bool) (d : Tables) (t : Target) : bool :=
  match tb_attempts d !! tg_current t with Some a => c a | None => false end.
Definition reconcile (cx : context) : tx unit :=
  update_attempts (fun _ _ a => (am_state a =s "leased") && unstarted a && (am_lease a <=? ms cx)) (attempt_state "expired") >>>
  exec (fun d => set_targets (update_where (fun _ t => (tg_state t =s "leased") && has_attempt (fun a => (am_state a =s "expired") && unstarted a) d t)
    (fun t => target_set "queued" "" (tg_retry_actor t) (tg_retry_reason t) (ms cx) t) (tb_targets d)) d) >>>
  update_attempts (fun _ _ a => (am_state a =s "running") && match am_heartbeat a with Some h => h <? UnixMilli (Prelude.Add (cx_now cx) (- HeartbeatGrace)) | None => false end)
    (attempt_state "unknown") >>>
  exec (fun d => set_targets (update_where (fun _ t => (tg_state t =s "running") && has_attempt (fun a => am_state a =s "unknown") d t)
    (target_state "unknown" (ms cx)) (tb_targets d)) d).

(** What an agent gets of the payload. *)
Definition public_payload (t : TaskInput) : TaskInput :=
  mkTaskInput (ti_File t) (ti_ShellFamily t) (ti_SnippetID t) (ti_SnippetVersion t) "" "" (ti_Command t) None None (ti_Limits t).

Definition LeaseNext (s : Service) (commit : bool) (now : Time) (nonce : list Z) (aid : uuid) (token digest : string) (d : Tables)
    : result opsError (option Lease) * Tables :=
  write s commit now (fun cx =>
    nodeID <~ node token ;;
    local <~ capability cx nodeID ;;
    if local.2 <>s digest then fail ErrConflict else
    reconcile cx >>>
    item <~ nextDispatch cx nodeID (bool_decide (is_Some (sv_spool s))) ;;
    match item with
    | None => ret None
    | Some item => fun d =>
        match validateDispatch cx item local.1 d with
        | Err ErrBusy => Ok (None, d)
        | Err e => Err e
        | Ok (payload, d) =>
            (lease <~ leaseDispatch cx nonce aid local.2 item payload ;;
             ret (Some (mkLease (ls_AttemptID lease) (ls_Nonce lease) (ls_ExpiresAt lease) (public_payload (ls_Payload lease))))) d
        end
    end) d.
End tasks.
