(* ===== verification/OpsAttempts.v ===== *)
(** * Remote operations: attempts, results and the maintenance of tasks

    [internal/remoteoperations]: the life of an attempt ([attempt_store.go],
    [admission.go], [running_policy.go], [complete.go], [transfer_state.go]), and what
    administrators and the maintenance do to tasks ([target_actions.go],
    [task_expiry.go], [retention.go], [node_force_delete.go], [restore.go],
    [policy_actions.go], [snippets.go]). *)

From S2P Require Import Prelude GoText GoNumber GoSha256 GoTable OpsPolicy OpsAttempt OpsModel OpsTasks.

Section attempts.
Context `{OpsExternals}.

(** ** attempt_store.go *)

Record storedAttempt := mkStored {
  sa_restored : bool; sa_kind : string; sa_attempt : Attempt; sa_target : string; sa_task : string; sa_output : Z }.
Definition of_row (id node : string) (a : AttemptRow) : Attempt :=
  mkAttempt id node (am_state a) (am_nonce a) (FromMilli (am_lease a)) (FromMilli <$> am_started a) (FromMilli (default 0 (am_heartbeat a)))
    (FromMilli <$> am_completed a) (am_digest a).
(** The attempt of this identifier on this node, joined with its target and task. *)
Definition attempt_row (id nodeID : string) (d : Tables) : option (AttemptRow * Target * Task) :=
  match tb_attempts d !! id with
  | Some a =>
      match tb_targets d !! am_target a with
      | Some t =>
          match tb_tasks d !! tg_task t with
          | Some k => if bool_decide (tg_node t = Some nodeID) then Some (a, t, k) else None
          | None => None
          end
      | None => None
      end
  | None => None
  end.
Definition loadAttempt (request : AttemptRequest) : tx storedAttempt :=
  nodeID <~ node (rq_Token request) ;;
  row <~ query (attempt_row (rq_ID request) nodeID) ;;
  row <~ require row ErrNotFound ;;
  let '(a, t, k) := row in
  ret (mkStored (am_restored a) (tk_kind k) (of_row (rq_ID request) nodeID a) (am_target a) (tg_task t) (tk_output k)).
Definition proof_of (cx : context) (item : storedAttempt) (request : AttemptRequest) : AttemptProof :=
  mkProof (Attempt_NodeID (sa_attempt item)) (rq_Nonce request) (cx_now cx).
Definition with_attempt (a : Attempt) (item : storedAttempt) : storedAttempt :=
  mkStored (sa_restored item) (sa_kind item) a (sa_target item) (sa_task item) (sa_output item).

(** ** transfer_state.go *)

Definition reflected_state (task : string) (d : Tables) : string :=
  if exists_where (fun _ t => (tg_task t =s task) && active t) (tb_targets d) then "running" else
  if exists_where (fun _ t => (tg_task t =s task) && (tg_state t <>s "succeeded")) (tb_targets d) then "failed" else "succeeded".
Definition reflectTransferState (cx : context) (item : storedAttempt) : tx unit :=
  let a := sa_attempt item in
  exec (fun d => set_transfers (tb_artifacts d) (tb_transfers d)
    (update_where (fun _ x => bool_decide (tt_node x = Some (Attempt_NodeID a))
        && match tb_transfers d !! tt_transfer x with Some f => bool_decide (tf_task f = Some (sa_task item)) | None => false end)
      (fun x => mkTransferTarget (tt_transfer x) (tt_node x) (tt_node_name x) (Some (Attempt_ID a))
        (if Attempt_State a =s "succeeded" then default (tt_progress x) (tf_size <$> tb_transfers d !! tt_transfer x) else tt_progress x)
        (Attempt_State a) (ms cx)) (tb_transfer_targets d)) d) >>>
  exec (fun d => set_transfers (tb_artifacts d)
    (update_where (fun _ f => bool_decide (tf_task f = Some (sa_task item)))
      (fun f => mkTransfer (tf_policy f) (tf_task f) (tf_require_scan f) (tf_direction f) (tf_path f) (tf_root f) (tf_size f) (tf_digest f) (tf_mode f)
        (tf_overwrite f) (tf_artifact f) (reflected_state (sa_task item) d) (tf_actor f) (tf_expires f) (ms cx)) (tb_transfers d)) (tb_transfer_targets d) d).
Definition validateTransferCompletion (item : storedAttempt) (r : Result) : tx unit :=
  if Result_State r <>s "succeeded" then ret tt else
  row <~ query (fun d => (fun f => (tf_direction f.2, match artifact_of f.2 d with Some a => ar_state a | None => "" end)) <$> transfer_of (sa_task item) d) ;;
  match row with
  | None => if fileKind (sa_kind item) then fail ErrUnavailable else ret tt
  | Some (direction, state) => if (direction =s "collect") && (state <>s "ready") then fail ErrConflict else ret tt
  end.

Definition persistAttempt (cx : context) (item : storedAttempt) : tx unit :=
  let a := sa_attempt item in
  update_attempt (Attempt_ID a) (attempt_life (Attempt_State a) (UnixMilli <$> StartedAt a) (Some (UnixMilli (HeartbeatAt a))) (UnixMilli <$> CompletedAt a)) >>>
  t <~ query (fun d => tb_targets d !! sa_target item) ;;
  t <~ require t ErrUnavailable ;;
  if tg_current t <>s Attempt_ID a then ret tt else
  update_target (sa_target item) (target_state (Attempt_State a) (ms cx)) >>>
  reflectTransferState cx item.

(** ** running_policy.go: whether a started attempt may go on *)

Definition runningPolicy (cx : context) (item : storedAttempt) : tx bool :=
  row <~ query (fun d => match tb_tasks d !! sa_task item, tb_targets d !! sa_target item with Some k, Some t => Some (k, t) | _, _ => None end) ;;
  row <~ require row ErrUnavailable ;;
  let '(k, t) := row in
  let a := sa_attempt item in
  if (tg_current t <>s Attempt_ID a) || tk_cancel k
     || match StartedAt a with Some st => negb (Before (cx_now cx) (Prelude.Add st (tk_timeout k * Second))) | None => true end then ret false else
  fun d => match policy (tk_policy k) d with
  | Err ErrForbidden | Err ErrNotFound => Ok (false, d)
  | Err e => Err e
  | Ok (p, d) =>
      match scope (tk_policy k) (Attempt_NodeID a) d with
      | Err ErrForbidden => Ok (false, d)
      | Err e => Err e
      | Ok (_, d) => Ok (is_ok (Authorize p p (mkLimits (tk_kind k) 1 (tk_timeout k) (tk_output k) false)), d)
      end
  end.

(** ** admission.go: authorizeStart *)

Definition authorizeStart (cx : context) (item : storedAttempt) (request : AttemptRequest) : tx unit :=
  let a := sa_attempt item in
  _ <~ lift (Authenticate a (proof_of cx item request)) ;;
  if (Attempt_State a =s "canceled") || (Attempt_State a =s "cancel_requested") || isSome (CompletedAt a) then fail ErrConflict else
  t <~ query (fun d => tb_targets d !! sa_target item) ;;
  t <~ require t ErrUnavailable ;;
  if tg_current t <>s Attempt_ID a then fail ErrConflict else
  if isSome (StartedAt a) then
    allowed <~ runningPolicy cx item ;;
    if negb allowed then fail ErrConflict else ret tt
  else
  k <~ query (fun d => tb_tasks d !! sa_task item) ;;
  k <~ require k ErrUnavailable ;;
  if tk_cancel k || (tk_expires k <=? ms cx) then fail ErrConflict else
  local <~ capability cx (Attempt_NodeID a) ;;
  expected <~ query (fun d => tb_attempts d !! Attempt_ID a) ;;
  expected <~ require expected ErrUnavailable ;;
  if local.2 <>s am_capability expected then fail ErrConflict else
  _ <~ validateDispatch cx (mkDispatch (Attempt_NodeID a) (sa_target item) (sa_task item) (tk_policy k) (tk_payload k) (Attempt_ID a)) local.1 ;;
  ret tt.

Definition no_spool (s : Service) (item : storedAttempt) : bool := bool_decide (sv_spool s = None) && fileKind (sa_kind item).
Definition Start (s : Service) (commit : bool) (now : Time) (request : AttemptRequest) (d : Tables) : result opsError unit * Tables :=
  write s commit now (fun cx =>
    item <~ loadAttempt request ;;
    if no_spool s item then fail ErrUnavailable else
    authorizeStart cx item request >>>
    let x := Attempt_Start (sa_attempt item) (proof_of cx item request) in
    _ <~ lift x.2 ;;
    persistAttempt cx (with_attempt x.1 item) >>>
    audit cx "" "operation.attempt.started" (Attempt_ID (sa_attempt item))) d.

(** Whether the agent shall cancel. *)
Definition ServiceHeartbeat (s : Service) (commit : bool) (now : Time) (request : AttemptRequest) (d : Tables) : result opsError bool * Tables :=
  atomicWrite commit now (fun cx =>
    item <~ loadAttempt request ;;
    let a := sa_attempt item in
    if sa_restored item && negb (isSome (StartedAt a)) && negb (isSome (CompletedAt a)) then
      _ <~ lift (Authenticate a (proof_of cx item request)) ;;
      persistAttempt cx (with_attempt (set_HeartbeatAt (cx_now cx) a) item) >>>
      ret true
    else
    let x := Heartbeat a (proof_of cx item request) in
    cancel <~ lift x.2 ;;
    let item := with_attempt x.1 item in
    allowed <~ runningPolicy cx item ;;
    if negb allowed || negb (sv_enabled s) || no_spool s item
    then persistAttempt cx (with_attempt (Cancel (sa_attempt item)) item) >>> ret true
    else persistAttempt cx item >>> ret cancel) d.

Definition cancelTask (cx : context) (actor : Actor) (id : string) : tx unit :=
  k <~ query (fun d => tb_tasks d !! id) ;;
  _ <~ require k ErrNotFound ;;
  exec (fun d => set_tasks (alter (fun k => task_set (tk_snapshot k) (tk_expires k) true (ms cx) k) id (tb_tasks d)) d) >>>
  update_attempts (fun d _ a => bool_decide (am_completed a = None) && str_in (am_state a) busyStates
      && match tb_targets d !! am_target a with Some t => tg_task t =s id | None => false end)
    (fun a => attempt_state (if unstarted a then "canceled" else "cancel_requested") a) >>>
  update_targets (fun _ t => (tg_task t =s id) && active t)
    (fun t => target_state (if str_in (tg_state t) ["queued"; "leased"] then "canceled" else "cancel_requested") (ms cx) t) >>>
  audit cx (ac_UserID actor) "operation.task.canceled" id.
Definition CancelTask (commit : bool) (now : Time) (actor : Actor) (id : string) (d : Tables) : result opsError unit * Tables :=
  atomicWrite commit now (fun cx => cx <~ authorize cx actor false false ;; cancelTask cx actor id) d.

(** ** complete.go *)

(** The metadata of a result that is kept in clear. *)
Definition metadata (r : Result) : Result :=
  mkResult (Reason r) (Signal r) (Result_StartedAt r) (FinishedAt r) (llen (content (Stdout r))) (llen (content (Stderr r))) "" "" (Result_State r)
    (ExitCode r) None None (Truncated r).
Definition persistResult (item : storedAttempt) (r : Result) : tx unit :=
  let id := Attempt_ID (sa_attempt item) in
  out <~ require (Seal (content (Stdout r)) (OperationOutputAAD id "stdout")) ErrUnavailable ;;
  errs <~ require (Seal (content (Stderr r)) (OperationOutputAAD id "stderr")) ErrUnavailable ;;
  digest <~ fingerprint (Marshal r) ;;
  update_attempt id (attempt_result (Some out) (Some errs) digest (Some (metadata r)) false).

(** [errResultConflict] is [Ok false]. *)
Definition sameResult (item : storedAttempt) (r : Result) : tx bool :=
  let id := Attempt_ID (sa_attempt item) in
  a <~ query (fun d => tb_attempts d !! id) ;;
  a <~ require a ErrUnavailable ;;
  out <~ require (Open (default [] (am_stdout a)) (OperationOutputAAD id "stdout")) ErrUnavailable ;;
  errs <~ require (Open (default [] (am_stderr a)) (OperationOutputAAD id "stderr")) ErrUnavailable ;;
  if negb (bool_decide (out = content (Stdout r))) || negb (bool_decide (errs = content (Stderr r))) then ret false else
  ret (match am_result a with Some stored => bool_decide (Marshal (metadata r) = Marshal stored) | None => false end).

(** [false]: the result conflicts with the one that is kept. *)
Definition complete (cx : context) (request : AttemptRequest) (r : Result) : tx bool :=
  item <~ loadAttempt request ;;
  let a := sa_attempt item in
  let proof := proof_of cx item request in
  _ <~ lift (Authenticate a proof) ;;
  _ <~ lift (Result_Validate r (sa_output item)) ;;
  if isSome (CompletedAt a) then sameResult item r else
  (fun d => match validateTransferCompletion item r d with
            | Err e => if negb (sa_restored item) || negb (bool_decide (e = ErrConflict)) then Err e else Ok (tt, d)
            | ok => ok
            end) >>>
  a' <~ (if negb (isSome (StartedAt a)) then
           if negb (sa_restored item) || (Attempt_State a <>s "unknown") then fail ErrConflict
           else ret (set_Completed (ResultDigest a) (Some (cx_now cx)) (set_State (Result_State r) a))
         else let x := Complete a proof r in _ <~ lift x.2 ;; ret x.1) ;;
  let item := with_attempt a' item in
  persistResult item r >>>
  persistAttempt cx item >>>
  audit cx "" "operation.attempt.completed" (Attempt_ID a) >>>
  ret true.
Definition CompleteAttempt (s : Service) (commit : bool) (now : Time) (request : AttemptRequest) (r : Result) (d : Tables) : result opsError unit * Tables :=
  if negb (sv_queue s) then (Err ErrForbidden, d) else
  if negb (is_ok (Result_Validate r MaximumOutputBytes)) then (Err ErrInvalid, d) else
  match atomicMutation s commit now (fun cx =>
      same <~ complete cx request r ;;
      when (negb same) (auditEvent cx "" "operation.result.conflict" (rq_ID request) "failure") >>>
      ret same) d with
  | (Ok true, d') => (Ok tt, d')
  | (Ok false, d') => (Err ErrConflict, d')
  | (Err e, d') => (Err e, d')
  end.

(** ** target_actions.go *)

Record RetryInput := mkRetryInput { ri_TaskID : string; ri_TargetID : string; ri_Reason : string; ri_AcknowledgeUnknownRisk : bool }.
Definition retryStates : list string := ["failed"; "timed_out"; "canceled"; "output_limit"; "interrupted"; "expired"; "unknown"].
(** [strings.ContainsAny] of NUL, CR and LF. *)
Definition validReason (reason : string) : bool :=
  (TrimSpace reason <>s "") && (len reason <=? 500) && forallb (fun b => negb ((b =? 0) || (b =? 13) || (b =? 10))) (bytes reason).

Definition retryTarget (cx : context) (actor : Actor) (input : RetryInput) : tx unit :=
  row <~ query (fun d => match tb_targets d !! ri_TargetID input with
                         | Some t => if tg_task t =s ri_TaskID input then (fun k => (t, k)) <$> tb_tasks d !! tg_task t else None
                         | None => None end) ;;
  row <~ require row ErrNotFound ;;
  let '(t, k) := row in
  nodeID <~ require (tg_node t) ErrConflict ;;
  if negb (str_in (tg_state t) retryStates) then fail ErrConflict else
  if ((tg_state t =s "unknown") || sn_restore_risk (tk_snapshot k)) && negb (ri_AcknowledgeUnknownRisk input) then fail ErrConflict else
  local <~ capability cx nodeID ;;
  _ <~ validateDispatch cx (mkDispatch nodeID (ri_TargetID input) (ri_TaskID input) (tk_policy k) (tk_payload k) (tg_current t)) local.1 ;;
  update_target (ri_TargetID input) (target_set "queued" "" (ac_UserID actor) (ri_Reason input) (ms cx)) >>>
  update_task (ri_TaskID input) (fun k => task_set (tk_snapshot k) (UnixMilli (Prelude.Add (cx_now cx) QueueLifetime)) false (ms cx) k) >>>
  audit cx (ac_UserID actor) "operation.target.retried" (ri_TargetID input).
Definition RetryTarget (s : Service) (commit : bool) (now : Time) (actor : Actor) (input : RetryInput) (d : Tables) : result opsError unit * Tables :=
  if negb (validReason (ri_Reason input)) then (Err ErrInvalid, d) else
  write s commit now (fun cx => cx <~ authorize cx actor false true ;; retryTarget cx actor input) d.

(** The output of the current attempt, when it is over and its output is kept. *)
Definition targetOutput (taskID targetID : string) : tx (string * Result) :=
  row <~ query (fun d => match tb_targets d !! targetID with
                         | Some t => if tg_task t =s taskID then (fun a => (tg_current t, a)) <$> tb_attempts d !! tg_current t else None
                         | None => None end) ;;
  row <~ require row ErrNotFound ;;
  let '(id, a) := row in
  if bool_decide (am_completed a = None) then fail ErrNotFound else
  if (llen (default [] (am_stdout a)) =? 0) && (llen (default [] (am_stderr a)) =? 0) then fail ErrNotFound else
  r <~ require (am_result a) ErrUnavailable ;;
  out <~ require (Open (default [] (am_stdout a)) (OperationOutputAAD id "stdout")) ErrUnavailable ;;
  errs <~ require (Open (default [] (am_stderr a)) (OperationOutputAAD id "stderr")) ErrUnavailable ;;
  ret (id, mkResult (Reason r) (Signal r) (Result_StartedAt r) (FinishedAt r) (StdoutBytes r) (StderrBytes r) (StdoutSHA256 r) (StderrSHA256 r)
    (Result_State r) (ExitCode r) (Some out) (Some errs) (Truncated r)).
Definition TargetOutput (s : Service) (commit : bool) (now : Time) (actor : Actor) (taskID targetID : string) (d : Tables)
    : result opsError (string * Result) * Tables :=
  write s commit now (fun cx =>
    cx <~ authorize cx actor false true ;;
    r <~ targetOutput taskID targetID ;;
    audit cx (ac_UserID actor) "operation.output.viewed" targetID >>>
    ret r) d.
(** task_content.go *)
Definition TaskContent (s : Service) (commit : bool) (now : Time) (actor : Actor) (id : string) (d : Tables) : result opsError (string * TaskInput) * Tables :=
  write s commit now (fun cx =>
    cx <~ authorize cx actor false true ;;
    k <~ query (fun d => tb_tasks d !! id) ;;
    k <~ require k ErrNotFound ;;
    plain <~ require (Open (tk_payload k) (OperationTaskAAD id)) ErrUnavailable ;;
    payload <~ require (task_of_json plain) ErrUnavailable ;;
    audit cx (ac_UserID actor) "operation.command.viewed" id >>>
    ret (id, payload)) d.

(** ** task_expiry.go *)

Definition waiting_state (t : Target) : bool := str_in (tg_state t) ["queued"; "leased"].
Definition expiredTaskIDs (now : Z) (d : Tables) : list string :=
  take 64 (ordered (fun _ _ => 0) (rows_where (fun id k => (tk_expires k <=? now)
    && exists_where (fun _ t => (tg_task t =s id) && waiting_state t) (tb_targets d)) (tb_tasks d))).*1.
Definition expireTask (cx : context) (id : string) : tx unit :=
  n <~ query (fun d => match tb_tasks d !! id with
                       | Some k => if tk_expires k <=? ms cx then count_where (fun _ t => (tg_task t =s id) && waiting_state t) (tb_targets d) else 0
                       | None => 0 end) ;;
  if n =? 0 then ret tt else
  update_attempts (fun d _ a => unstarted a && (am_state a =s "leased")
      && match tb_targets d !! am_target a with Some t => tg_task t =s id | None => false end) (attempt_state "expired") >>>
  update_targets (fun _ t => (tg_task t =s id) && waiting_state t) (target_state "expired" (ms cx)) >>>
  audit cx "" "operation.task.queue_expired" id.

(** ** retention.go *)

Definition task_days (k : Task) : Z :=
  match Retention (sn_policy (tk_snapshot k)) with Some r => if (1 <=? TaskDays r) && (TaskDays r <=? 90) then TaskDays r else 30 | None => 30 end.
Definition output_days (k : Task) : Z :=
  Z.min (task_days k)
    (match Retention (sn_policy (tk_snapshot k)) with Some r => if (1 <=? OutputDays r) && (OutputDays r <=? 30) then OutputDays r else 7 | None => 7 end).
Definition attempt_task (d : Tables) (a : AttemptRow) : option Task := tb_targets d !! am_target a ≫= fun t => tb_tasks d !! tg_task t.
Definition output_expired (now : Z) (d : Tables) (a : AttemptRow) : bool :=
  match attempt_task d a, am_completed a with
  | Some k, Some c => (c <? now - output_days k * 86400000) && (isSome (am_stdout a) || isSome (am_stderr a))
  | _, _ => false
  end.
(** [LIMIT] without [ORDER BY]: the first rows of the table. *)
Definition limited `{Countable K} {V} (n : nat) (c : K -> V -> bool) (m : gmap K V) : list K := take n (rows_where c m).*1.
Definition task_over (now : Z) (d : Tables) (id : string) (k : Task) : bool :=
  negb (exists_where (fun _ f => bool_decide (tf_task f = Some id) && isSome (tf_artifact f)) (tb_transfers d))
  && exists_where (fun _ t => tg_task t =s id) (tb_targets d)
  && negb (exists_where (fun _ t => (tg_task t =s id) && ((now - task_days k * 86400000 <=? tg_updated t) || isSome (tg_node t) && active t)) (tb_targets d)).
Definition deleteRetainedTask (cx : context) (id : string) : tx unit :=
  exec (fun d => set_transfers (tb_artifacts d) (update_where (fun _ f => bool_decide (tf_task f = Some id))
    (fun f => mkTransfer (tf_policy f) None (tf_require_scan f) (tf_direction f) (tf_path f) (tf_root f) (tf_size f) (tf_digest f) (tf_mode f) (tf_overwrite f)
      (tf_artifact f) (tf_state f) (tf_actor f) (tf_expires f) (tf_updated f)) (tb_transfers d)) (tb_transfer_targets d) d) >>>
  exec (fun d => set_attempts (delete_where (fun _ a => match tb_targets d !! am_target a with Some t => tg_task t =s id | None => false end) (tb_attempts d)) d) >>>
  exec (fun d => set_targets (delete_where (fun _ t => tg_task t =s id) (tb_targets d)) d) >>>
  k <~ query (fun d => tb_tasks d !! id) ;;
  _ <~ require k ErrUnavailable ;;
  exec (fun d => set_tasks (delete id (tb_tasks d)) d) >>>
  audit cx "" "operation.task.retention_expired" id.
Definition operationTaskRetention : Duration := 30 * 24 * Hour.
Definition retainTransfers (cx : context) : tx unit :=
  let cutoff := UnixMilli (Prelude.Add (cx_now cx) (- operationTaskRetention)) in
  exec (fun d =>
    let expired := limited 64 (fun _ f => bool_decide (tf_artifact f = None) && bool_decide (tf_task f = None) && (tf_updated f <? cutoff)) (tb_transfers d) in
    set_transfers (tb_artifacts d) (delete_where (fun id _ => str_in id expired) (tb_transfers d))
      (delete_where (fun _ x => str_in (tt_transfer x) expired) (tb_transfer_targets d)) d).
Definition retainOperations (cx : context) : tx unit :=
  exec (fun d => let ids := limited 64 (fun _ a => output_expired (ms cx) d a) (tb_attempts d) in
    set_attempts (update_where (fun id _ => str_in id ids) (fun a => attempt_result None None (am_digest a) (am_result a) (am_restored a) a) (tb_attempts d)) d) >>>
  ids <~ query (fun d => limited 8 (task_over (ms cx) d) (tb_tasks d)) ;;
  each (deleteRetainedTask cx) ids >>>
  retainTransfers cx.

(** ** node_force_delete.go *)

Definition forceDetachNode (cx : context) (actor : Actor) (nodeID reason : string) : tx unit :=
  update_attempts (fun d _ a => bool_decide (am_completed a = None)
      && match tb_targets d !! am_target a with Some t => bool_decide (tg_node t = Some nodeID) | None => false end)
    (fun a => attempt_reason (ac_UserID actor) reason (attempt_state (if unstarted a then "canceled" else "unknown") a)) >>>
  update_targets (fun _ t => bool_decide (tg_node t = Some nodeID))
    (fun t => target_detached (target_state
      (if str_in (tg_state t) ["queued"; "leased"] then "canceled" else if str_in (tg_state t) ["running"; "unknown"; "cancel_requested"] then "unknown" else tg_state t)
      (ms cx) t)) >>>
  exec (fun d => set_transfers (tb_artifacts d) (tb_transfers d)
    (update_where (fun _ x => bool_decide (tt_node x = Some nodeID))
      (fun x => mkTransferTarget (tt_transfer x) None (tt_node_name x) (tt_attempt x) (tt_progress x)
        (if str_in (tt_state x) ["queued"; "leased"; "uploading"] then "canceled"
         else if str_in (tt_state x) ["running"; "unknown"; "cancel_requested"] then "unknown" else tt_state x) (ms cx)) (tb_transfer_targets d)) d).

(** sqlite_operations.go: the trigger and the foreign keys of nodes. *)
Definition node_busy (id : string) (d : Tables) : bool :=
  exists_where (fun _ t => bool_decide (tg_node t = Some id) && active t) (tb_targets d)
  || exists_where (fun _ x => bool_decide (tt_node x = Some id) && str_in (tt_state x) ("uploading" :: activeStates)) (tb_transfer_targets d).
Definition without_node (id : string) (s : Shared) : Shared := mkShared (sh_users s) (sh_sessions s) (delete id (sh_nodes s)) (sh_groups s).
Definition delete_node (id : string) : tx unit := fun d =>
  if node_busy id d then Err ErrUnavailable else
  Ok (tt, d |> set_shared (without_node id (tb_shared d))
    |> (fun d => set_policies (tb_policies d) (filter (fun x => x.2 <> id) (tb_policy_nodes d)) (tb_policy_groups d) d)
    |> (fun d => set_capabilities (delete id (tb_capabilities d)) d)
    |> (fun d => set_targets (update_where (fun _ t => bool_decide (tg_node t = Some id)) target_detached (tb_targets d)) d)
    |> (fun d => set_transfers (tb_artifacts d) (tb_transfers d) (update_where (fun _ x => bool_decide (tt_node x = Some id))
         (fun x => mkTransferTarget (tt_transfer x) None (tt_node_name x) (tt_attempt x) (tt_progress x) (tt_state x) (tt_updated x)) (tb_transfer_targets d)) d)).

Definition ForceDeleteNode (s : Service) (commit : bool) (now : Time) (actor : Actor) (nodeID reason : string) (acknowledged : bool) (d : Tables)
    : result opsError unit * Tables :=
  if negb acknowledged || negb (ValidID nodeID) || negb (validReason reason) then (Err ErrInvalid, d) else
  operationMutation s commit now (fun cx =>
    cx <~ authorize cx actor true true ;;
    n <~ query (fun d => tb_nodes d !! nodeID) ;;
    _ <~ require n ErrNotFound ;;
    forceDetachNode cx actor nodeID reason >>>
    delete_node nodeID >>>
    audit cx (ac_UserID actor) "operation.node.force_deleted" nodeID) d.

(** ** restore.go *)

Definition reconcileRestoredOperations (cx : context) : tx unit :=
  exec (fun d => set_tasks (map_imap (fun id k => Some (task_set
      (mkSnapshot (sn_policy (tk_snapshot k)) (sn_shell (tk_snapshot k)) (sn_root (tk_snapshot k)) true) (tk_expires k)
      (exists_where (fun _ t => (tg_task t =s id) && active t) (tb_targets d) || tk_cancel k) (tk_updated k) k)) (tb_tasks d)) d) >>>
  update_attempts (fun _ _ a => bool_decide (am_completed a = None) && str_in (am_state a) busyStates)
    (fun a => attempt_result (am_stdout a) (am_stderr a) (am_digest a) (am_result a) true (attempt_state "unknown" a)) >>>
  update_targets (fun _ t => active t) (target_state "unknown" (ms cx)) >>>
  exec (fun d => set_transfers (update_where (fun _ _ => true) (fun a => mkArtifactRow (ar_direction a) (ar_size a) (ar_digest a) (ar_scan_status a) "expired"
      (ar_actor a) "" 0 (ms cx)) (tb_artifacts d)) (tb_transfers d)
    (update_where (fun _ x => str_in (tt_state x) ("uploading" :: activeStates))
      (fun x => mkTransferTarget (tt_transfer x) (tt_node x) (tt_node_name x) (tt_attempt x) (tt_progress x) "unknown" (ms cx)) (tb_transfer_targets d)) d) >>>
  auditEvent (mkContext (cx_now cx) "system") "" "operation.restore.reconciled" "restore" "success".
Definition ReconcileRestore (commit : bool) (now : Time) (d : Tables) : result opsError unit * Tables :=
  atomicWrite commit now reconcileRestoredOperations d.
End attempts.
