(* ===== verification/OpsInvariant.v ===== *)
(** * Remote operations: what every operation keeps

    The invariant of targets and attempts, the relation of two states between which no
    command was started and no target was queued again, and the operations one by one. *)

From S2P Require Import Prelude GoText GoNumber GoSha256 GoTable OpsPolicy OpsAttempt OpsModel OpsTasks OpsAttempts.

Create HintDb ops discriminated.
#[export] Hint Resolve reads_then reads_ret reads_fail reads_query reads_require reads_lift reads_when reads_each : ops.
Ltac read_only := repeat first [solve [auto with ops] | progress cbv zeta | apply reads_then; [|intros ?] | progress cases].

(** ** Operations that only read *)

Section readers.
Context `{OpsExternals}.
Lemma reads_authorize cx actor owner recent : reads (authorize cx actor owner recent).
Proof. unfold authorize. read_only. Qed.
Lemma reads_node token : reads (node token).
Proof. unfold node. read_only. Qed.
Lemma reads_capability cx id : reads (capability cx id).
Proof. unfold capability. read_only. Qed.
Lemma reads_policy id : reads (policy id).
Proof. unfold policy. read_only. Qed.
Lemma reads_scope p n : reads (scope p n).
Proof. unfold scope. read_only. Qed.
Lemma reads_fingerprint c : reads (fingerprint c).
Proof. unfold fingerprint. read_only. Qed.
Lemma reads_resolveTargets input : reads (resolveTargets input).
Proof. unfold resolveTargets, validateSelections. read_only. Qed.
Lemma reads_existingTask c : reads (existingTask c).
Proof. unfold existingTask. read_only. Qed.
Lemma reads_validateTaskSnippet c : reads (validateTaskSnippet c).
Proof. unfold validateTaskSnippet. read_only. Qed.
Lemma reads_nextDispatch cx n files : reads (nextDispatch cx n files).
Proof. unfold nextDispatch. read_only. Qed.
Lemma reads_activeTaskQuota p n : reads (activeTaskQuota p n).
Proof. unfold activeTaskQuota. read_only. Qed.
Lemma reads_fileDispatchAllowed cx id : reads (fileDispatchAllowed cx id).
Proof. unfold fileDispatchAllowed. read_only. Qed.
Lemma reads_validateTransferCompletion item r : reads (validateTransferCompletion item r).
Proof. unfold validateTransferCompletion. read_only. Qed.
Lemma reads_loadAttempt request : reads (loadAttempt request).
Proof. pose proof (reads_node (rq_Token request)). unfold loadAttempt. read_only. Qed.
Lemma reads_sameResult item r : reads (sameResult item r).
Proof. unfold sameResult. read_only. Qed.
End readers.
#[export] Hint Resolve reads_authorize reads_node reads_capability reads_policy reads_scope reads_fingerprint reads_resolveTargets reads_existingTask
  reads_validateTaskSnippet reads_nextDispatch reads_activeTaskQuota reads_fileDispatchAllowed reads_validateTransferCompletion reads_loadAttempt reads_sameResult : ops.

Section readers2.
Context `{OpsExternals}.
Lemma reads_validateDispatch cx item p : reads (validateDispatch cx item p).
Proof. unfold validateDispatch. read_only. Qed.
Lemma reads_authorizeTarget cx c n : reads (authorizeTarget cx c n).
Proof. unfold authorizeTarget. read_only. Qed.
Lemma reads_runningPolicy cx item : reads (runningPolicy cx item).
Proof.
  unfold runningPolicy. do 2 (apply reads_then; [auto with ops|intros ?]). destruct a0 as [k t]. destruct (_ || _); [auto with ops|]. intros d b d'.
  destruct (policy (tk_policy k) d) as [[p d1]|[]] eqn:E; try done; try (by intros [= _ ->]). apply reads_policy in E as ->.
  destruct (scope _ _ d) as [[u d1]|[]] eqn:E; try done; try (by intros [= _ ->]). apply reads_scope in E as ->. by intros [= _ ->].
Qed.
End readers2.
#[export] Hint Resolve reads_validateDispatch reads_authorizeTarget reads_runningPolicy : ops.

Section readers3.
Context `{OpsExternals}.
Lemma reads_authorizeStart cx item request : reads (authorizeStart cx item request).
Proof. unfold authorizeStart. read_only. Qed.
End readers3.
#[export] Hint Resolve reads_authorizeStart : ops.

(** ** The invariant *)

(** An attempt somebody may be working on. *)
Definition busy_attempt (a : AttemptRow) : bool := bool_decide (am_completed a = None) && str_in (am_state a) busyStates.

(** A leased attempt was not started; a started one is open or has a result; a result is
    for good. *)
Record row_ok (a : AttemptRow) : Prop := {
  ro_leased : am_state a = "leased" -> am_started a = None /\ am_completed a = None;
  ro_open : am_started a <> None -> am_completed a = None -> str_in (am_state a) ["running"; "unknown"; "cancel_requested"] = true;
  ro_over : am_completed a <> None -> str_in (am_state a) result_states = true;
  ro_known : am_state a <> "queued" }.

(** A target that waits has no attempt, one that is leased has a leased attempt, and while
    its attempt is busy the target is. *)
Record target_ok (attempts : gmap string AttemptRow) (tid : string) (t : Target) : Prop := {
  to_queued : tg_state t = "queued" -> tg_current t = "";
  to_leased : tg_state t = "leased" -> exists a, attempts !! tg_current t = Some a /\ am_target a = tid /\ am_state a = "leased";
  to_current : forall a, attempts !! tg_current t = Some a -> am_target a = tid ->
    (am_state a = "leased" -> tg_state t = "leased") /\ (busy_attempt a = true -> busy t = true) }.

(** A target that takes one of the places of its node. *)
Definition holding (n : string) (t : Target) : bool := bool_decide (tg_node t = Some n) && (tg_current t <>s "") && busy t.

Record wf (d : Tables) : Prop := {
  wf_rows : forall id a, tb_attempts d !! id = Some a -> row_ok a;
  wf_none : tb_attempts d !! "" = None;
  wf_targets : forall tid t, tb_targets d !! tid = Some t -> target_ok (tb_attempts d) tid t;
  wf_capacity : forall n, count_where (fun _ t => holding n t) (tb_targets d) <= MaximumConcurrency }.

(** A result is kept as it is, less its output once that is erased. *)
Record final (a a' : AttemptRow) : Prop := {
  fi_life : am_target a' = am_target a /\ am_number a' = am_number a /\ am_state a' = am_state a /\ am_started a' = am_started a /\ am_completed a' = am_completed a;
  fi_result : am_digest a' = am_digest a /\ am_result a' = am_result a;
  fi_output : (am_stdout a' = am_stdout a /\ am_stderr a' = am_stderr a) \/ (am_stdout a' = None /\ am_stderr a' = None) }.
Lemma final_refl a : final a a.
Proof. split; auto. Qed.
Lemma final_trans a b c : final a b -> final b c -> final a c.
Proof.
  intros [(A1 & A2 & A3 & A4 & A5) [B1 B2] C] [(A1' & A2' & A3' & A4' & A5') [B1' B2'] C'].
  split; [split_and!; congruence|split; congruence|]. destruct C' as [[-> ->]|?]; [done|auto].
Qed.

(** No command was started, no target waits that did not wait before, and no result has
    changed. *)
Record calm (d d' : Tables) : Prop := {
  calm_starts : forall id a', tb_attempts d' !! id = Some a' -> am_started a' <> None -> exists a, tb_attempts d !! id = Some a /\ am_started a <> None;
  calm_waits : forall tid t', tb_targets d' !! tid = Some t' -> waiting_state t' = true -> exists t, tb_targets d !! tid = Some t /\ waiting_state t = true;
  calm_kept : forall id a a', tb_attempts d !! id = Some a -> am_completed a <> None -> tb_attempts d' !! id = Some a' -> final a a' }.
Definition inv (d0 d : Tables) : Prop := wf d /\ calm d0 d.

Lemma ops_calm_refl d : calm d d.
Proof. split; eauto. intros id a a' Ha _ Ha'. assert (a' = a) as -> by congruence. apply final_refl. Qed.
Lemma calm_step d0 d d' : calm d0 d ->
  (forall id a', tb_attempts d' !! id = Some a' -> am_started a' <> None -> exists a, tb_attempts d !! id = Some a /\ am_started a <> None) ->
  (forall tid t', tb_targets d' !! tid = Some t' -> waiting_state t' = true -> exists t, tb_targets d !! tid = Some t /\ waiting_state t = true) ->
  (forall id a', tb_attempts d' !! id = Some a' -> tb_attempts d0 !! id = None \/ exists a, tb_attempts d !! id = Some a /\ (am_completed a <> None -> final a a')) -> calm d0 d'.
Proof.
  intros [A B C] A' B' C'. split.
  - intros id a' Ha Hs. destruct (A' _ _ Ha Hs) as (a & Ha1 & Hs1). eauto.
  - intros id t' Ht Hs. destruct (B' _ _ Ht Hs) as (t & Ht1 & Hs1). eauto.
  - intros id a a' Ha Hc Ha'. destruct (C' id a' Ha') as [?|(b & Hb & Hf)]; [congruence|]. pose proof (C id a b Ha Hc Hb) as Hab.
    eapply final_trans; [exact Hab|]. apply Hf. destruct Hab as [(_ & _ & _ & _ & ->) _ _]. done.
Qed.

(** Only targets and attempts matter. *)
Definition core (d : Tables) := (tb_targets d, tb_attempts d).
Lemma ops_inv_core d0 d d' : core d' = core d -> inv d0 d -> inv d0 d'.
Proof.
  unfold core. intros [= Et Ea] [[A B C D] [X Y Z]]. split; [split; rewrite ?Ea, ?Et; auto|split; rewrite ?Ea, ?Et; auto].
Qed.

(** Every row is changed in its place. *)
Record mapped (fa : string -> AttemptRow -> AttemptRow) (ft : string -> Target -> Target) (d d' : Tables) : Prop := {
  mp_attempts : forall k, tb_attempts d' !! k = fa k <$> tb_attempts d !! k;
  mp_targets : forall k, tb_targets d' !! k = ft k <$> tb_targets d !! k }.

(** What a change of all rows has to respect, row by row: [a'] is the changed attempt. *)
Record attempt_step (a a' : AttemptRow) : Prop := {
  as_ok : row_ok a -> row_ok a';
  as_target : am_target a' = am_target a;
  as_started : am_started a' <> None -> am_started a <> None;
  as_final : row_ok a -> am_completed a <> None -> final a a' }.
(** For a target without the attempt it names, or with one of another target; and for one
    with its attempt. *)
Definition target_free (t t' : Target) : Prop :=
  (tg_current t' = "" \/ tg_current t' = tg_current t) /\ (tg_state t' = "queued" -> tg_current t' = "") /\ tg_state t' <> "leased".
Definition target_paired (a' : AttemptRow) (t' : Target) : Prop :=
  (tg_state t' = "queued" -> tg_current t' = "") /\ (tg_state t' = "leased" <-> am_state a' = "leased") /\ (busy_attempt a' = true -> busy t' = true).
Record target_step (attempts : gmap string AttemptRow) (fa : string -> AttemptRow -> AttemptRow) (tid : string) (t t' : Target) : Prop := {
  ts_waits : waiting_state t' = true -> waiting_state t = true;
  ts_node : tg_node t' = tg_node t \/ tg_node t' = None;
  ts_busy : busy t' = true -> tg_current t' <> "" -> busy t = true;
  ts_free : tg_current t' = "" \/ (forall a, attempts !! tg_current t = Some a -> am_target a <> tid) -> target_free t t';
  ts_paired : forall a, tg_current t' <> "" -> attempts !! tg_current t = Some a -> am_target a = tid ->
    tg_current t' = tg_current t /\ target_paired (fa (tg_current t) a) t' }.

Lemma mapped_wf fa ft d d' : wf d -> mapped fa ft d d' ->
  (forall k a, tb_attempts d !! k = Some a -> row_ok a -> row_ok (fa k a) /\ am_target (fa k a) = am_target a) ->
  (forall tid t, tb_targets d !! tid = Some t -> target_ok (tb_attempts d) tid t -> target_step (tb_attempts d) fa tid t (ft tid t)) ->
  wf d' /\ forall tid t', tb_targets d' !! tid = Some t' -> waiting_state t' = true -> exists t, tb_targets d !! tid = Some t /\ waiting_state t = true.
Proof.
  intros [Hr Hn Ht Hc] [Ma Mt] Ha Hs. assert (tb_attempts d' !! "" = None) as Hn' by (by rewrite Ma, Hn). split.
  - split; [|done| |].
    + intros k a'. rewrite Ma. intros (a & Hk & ->)%fmap_Some. apply (Ha k a Hk); eauto.
    + intros tid t'. rewrite Mt. intros (t & Hk & ->)%fmap_Some. specialize (Hs tid t Hk (Ht tid t Hk)). destruct Hs as [_ _ _ Hf Hp].
      destruct (decide (tg_current (ft tid t) = "")) as [E|E].
      { destruct (Hf (or_introl E)) as (_ & Hq & Hl). split; [done|by intros ?|]. intros a. by rewrite E, Hn'. }
      destruct (tb_attempts d !! tg_current t) as [a|] eqn:Ea; [destruct (decide (am_target a = tid)) as [Et|Et]|].
      * destruct (Hp a E eq_refl Et) as (Ec & Hq & Hl & Hb). pose proof (Ha _ _ Ea (Hr _ _ Ea)) as [_ Hat].
        assert (tb_attempts d' !! tg_current (ft tid t) = Some (fa (tg_current t) a)) as Ea' by (by rewrite Ma, Ec, Ea).
        split; [done| |].
        -- intros Hx. exists (fa (tg_current t) a). split_and!; [done|congruence|tauto].
        -- intros a0. rewrite Ea'. intros [= <-] _. tauto.
      * destruct Hf as (Hcur & Hq & Hl); [right; by intros ? [= <-]|]. split; [done|by intros ?|]. intros a0. rewrite Ma.
        destruct Hcur as [Hcur|Hcur]; [by rewrite Hcur, Hn|]. rewrite Hcur, Ea. cbn. intros [= <-]. pose proof (Ha _ _ Ea (Hr _ _ Ea)) as [_ Hat]. congruence.
      * destruct Hf as (Hcur & Hq & Hl); [by right|]. split; [done|by intros ?|]. intros a0. rewrite Ma.
        destruct Hcur as [Hcur|Hcur]; rewrite Hcur, ?Hn, ?Ea; done.
    + intros n. etrans; [|apply (Hc n)]. apply count_where_mono. intros k t'. rewrite Mt. intros (t & Hk & ->)%fmap_Some Hh. exists t. split; [done|].
      specialize (Hs k t Hk (Ht k t Hk)). destruct Hs as [_ Hnode Hb Hf Hp]. unfold holding in *.
      rewrite !andb_true_iff, negb_true_iff, String.eqb_neq, bool_decide_eq_true in Hh |- *. destruct Hh as ((Hh1 & Hh2) & Hh3).
      assert (tg_current (ft k t) = tg_current t) as Ec.
      { destruct (tb_attempts d !! tg_current t) as [a|] eqn:Ea; [destruct (decide (am_target a = k)) as [Et|Et]|].
        - by apply (Hp a).
        - destruct Hf as ([?|?] & _); [right; by intros ? [= <-]|done|done].
        - destruct Hf as ([?|?] & _); [by right|done|done]. }
      split_and!; [destruct Hnode; congruence|congruence|by apply Hb].
  - intros k t'. rewrite Mt. intros (t & Hk & ->)%fmap_Some Hst. exists t. split; [done|]. by apply (Hs k t Hk (Ht _ _ Hk)).
Qed.

Lemma mapped_inv fa ft d0 d d' : inv d0 d -> mapped fa ft d d' ->
  (forall k a, tb_attempts d !! k = Some a -> row_ok a -> attempt_step a (fa k a)) ->
  (forall tid t, tb_targets d !! tid = Some t -> target_ok (tb_attempts d) tid t -> target_step (tb_attempts d) fa tid t (ft tid t)) -> inv d0 d'.
Proof.
  intros [Hd Hcalm] Hm Ha Hs. destruct (mapped_wf fa ft d d' Hd Hm) as [Hd' Hw]; [|done|].
  { intros k a Hk Hok. destruct (Ha k a Hk Hok) as [? ? _ _]. auto. }
  split; [done|]. eapply calm_step; [done| |done|].
  - intros k a'. rewrite (mp_attempts _ _ _ _ Hm). intros (a & Hk & ->)%fmap_Some Hst. exists a. split; [done|]. by apply (Ha k a Hk (wf_rows _ Hd _ _ Hk)).
  - intros k a'. rewrite (mp_attempts _ _ _ _ Hm). intros (a & Hk & ->)%fmap_Some. right. exists a. split; [done|]. pose proof (wf_rows _ Hd _ _ Hk) as Hok. by apply (Ha k a Hk Hok).
Qed.

(** ** Statements over whole tables *)

Lemma target_ok_paired attempts tid t a : target_ok attempts tid t -> attempts !! tg_current t = Some a -> am_target a = tid -> target_paired a t.
Proof.
  intros [Hq Hl Hc] Ha Ht. destruct (Hc a Ha Ht) as [Hc1 Hc2]. split_and!; [done| |done]. split; [|done]. intros Hs.
  destruct (Hl Hs) as (a0 & Ha0 & _ & Hs0). congruence.
Qed.
Lemma target_ok_free attempts tid t : attempts !! "" = None -> target_ok attempts tid t ->
  tg_current t = "" \/ (forall a, attempts !! tg_current t = Some a -> am_target a <> tid) -> target_free t t.
Proof.
  intros Hn [Hq Hl Hc] Hf. split_and!; [by right|done|]. intros Hs. destruct (Hl Hs) as (a & Ha & Ht & _). destruct Hf as [Hf|Hf]; [|by eapply Hf].
  rewrite Hf in Ha. congruence.
Qed.
(** A target that stays as it is, with an attempt that is no busier. *)
Lemma target_step_same attempts fa tid t : attempts !! "" = None -> target_ok attempts tid t ->
  (forall a, attempts !! tg_current t = Some a -> am_target a = tid -> (am_state (fa (tg_current t) a) = "leased" <-> am_state a = "leased") /\
     (busy_attempt (fa (tg_current t) a) = true -> busy t = true)) -> target_step attempts fa tid t t.
Proof.
  intros Hn Ht Hf. split; [done|by left|done| |].
  - by apply target_ok_free.
  - intros a _ Ha Hat. split; [done|]. destruct (Hf a Ha Hat) as [H1 H2]. destruct (target_ok_paired _ _ _ _ Ht Ha Hat) as (Hq & Hl & Hb).
    split_and!; [done|tauto|tauto].
Qed.
Lemma attempt_step_refl a : attempt_step a a.
Proof. split; auto using final_refl. Qed.

Lemma update_attempts_val c f d u d' : update_attempts c f d = Ok (u, d') ->
  (forall k, tb_attempts d' !! k = (fun a => if c d k a then f a else a) <$> tb_attempts d !! k) /\ tb_targets d' = tb_targets d.
Proof. intros [= _ <-]. split; [|done]. intros k. apply lookup_update_where. Qed.
Lemma update_targets_val c f d u d' : update_targets c f d = Ok (u, d') ->
  (forall k, tb_targets d' !! k = (fun t => if c k t then f t else t) <$> tb_targets d !! k) /\ tb_attempts d' = tb_attempts d.
Proof. intros [= _ <-]. split; [|done]. intros k. apply lookup_update_where. Qed.

(** The pieces of a case analysis on states: equations between literals decide. *)
Ltac on_states :=
  repeat match goal with
  | H : (_ && _) = true |- _ => apply andb_true_iff in H as [? ?]
  | H : (_ =s _) = true |- _ => apply String.eqb_eq in H
  | H : bool_decide _ = true |- _ => apply bool_decide_eq_true in H
  | H : bool_decide _ = false |- _ => apply bool_decide_eq_false in H
  end.

Definition expired_attempt (now : Z) (a : AttemptRow) : AttemptRow :=
  if (am_state a =s "leased") && unstarted a && (am_lease a <=? now) then attempt_state "expired" a else a.
Definition silent_attempt (limit : Z) (a : AttemptRow) : AttemptRow :=
  if (am_state a =s "running") && match am_heartbeat a with Some h => h <? limit | None => false end then attempt_state "unknown" a else a.
Definition requeued (now : Z) (attempts : gmap string AttemptRow) (t : Target) : Target :=
  if (tg_state t =s "leased") && match attempts !! tg_current t with Some a => (am_state (expired_attempt now a) =s "expired") && unstarted (expired_attempt now a) | None => false end
  then target_set "queued" "" (tg_retry_actor t) (tg_retry_reason t) now t else t.
Definition silenced (now limit : Z) (attempts : gmap string AttemptRow) (t : Target) : Target :=
  if (tg_state t =s "running") && match attempts !! tg_current t with Some a => am_state (silent_attempt limit (expired_attempt now a)) =s "unknown" | None => false end
  then target_state "unknown" now t else t.

Lemma reconcile_val cx d u d' : reconcile cx d = Ok (u, d') ->
  mapped (fun _ a => silent_attempt (UnixMilli (Prelude.Add (cx_now cx) (- HeartbeatGrace))) (expired_attempt (ms cx) a))
    (fun _ t => silenced (ms cx) (UnixMilli (Prelude.Add (cx_now cx) (- HeartbeatGrace))) (tb_attempts d) (requeued (ms cx) (tb_attempts d) t)) d d'.
Proof.
  unfold reconcile. intros (? & d1 & [A1 T1]%update_attempts_val & (? & d2 & ->%exec_val & (? & d3 & [A3 T3]%update_attempts_val & ->%exec_val)%andThen_ok)%andThen_ok)%andThen_ok.
  cbn in A3, T3. set (limit := UnixMilli _) in *. split; intros k; cbn.
  - rewrite A3, A1, <- option_fmap_compose. apply option_fmap_ext. intros a. cbn. reflexivity.
  - rewrite lookup_update_where, T3, lookup_update_where, T1, <- option_fmap_compose. apply option_fmap_ext. intros t. cbn. unfold silenced, requeued, has_attempt.
    assert (forall j, tb_attempts d3 !! j = (fun a => silent_attempt limit (expired_attempt (ms cx) a)) <$> tb_attempts d !! j) as A3'.
    { intros j. rewrite A3, A1, <- option_fmap_compose. apply option_fmap_ext. reflexivity. }
    rewrite A1. rewrite A3'. destruct (tb_attempts d !! tg_current t) as [a|] eqn:Ea; cbn.
    + fold (expired_attempt (ms cx) a). destruct (_ && (_ && _)); [|by rewrite Ea]. cbn [target_set tg_state tg_current]. destruct (fmap _ _); done.
    + rewrite !andb_false_r. by rewrite Ea, !andb_false_r.
Qed.

Lemma attempt_step_state s a : s <> "leased" /\ s <> "queued" ->
  (row_ok a -> am_started a <> None -> am_completed a = None -> str_in s ["running"; "unknown"; "cancel_requested"] = true) ->
  (row_ok a -> am_completed a = None) -> attempt_step a (attempt_state s a).
Proof.
  intros [H1 H0] H2 H3. split; [|done|done|]; intros Hok; specialize (H3 Hok); [|by rewrite H3]. split; cbn; [done|by apply H2|by rewrite H3|done].
Qed.
Lemma attempt_step_trans a b c : attempt_step a b -> attempt_step b c -> attempt_step a c.
Proof.
  intros [A1 A2 A3 A4] [B1 B2 B3 B4]. split; [auto|congruence|auto|]. intros Hok Hc. pose proof (A4 Hok Hc) as Hf. eapply final_trans; [exact Hf|]. apply B4; [auto|].
  by destruct Hf as [(_ & _ & _ & _ & ->) _ _].
Qed.

Lemma expired_step now a : attempt_step a (expired_attempt now a).
Proof.
  unfold expired_attempt. destruct (_ && _) eqn:E; [|apply attempt_step_refl]. on_states. unfold unstarted in *. on_states.
  apply attempt_step_state; [done|done|]. intros [Hl _ _ _]. by destruct (Hl ltac:(done)).
Qed.
Lemma silent_step limit a : attempt_step a (silent_attempt limit a).
Proof.
  unfold silent_attempt. destruct (_ && _) eqn:E; [|apply attempt_step_refl]. on_states.
  apply attempt_step_state; [done|done|]. intros [_ _ Ho _]. destruct (am_completed a) eqn:Ec; [|done]. specialize (Ho ltac:(done)) as Hx. by rewrite H in Hx.
Qed.

(** The states of a target and its attempt that go together. *)
Lemma busy_state t s : tg_state t = s -> busy t = str_in s busyStates.
Proof. by intros <-. Qed.
Lemma waiting_is t s : tg_state t = s -> waiting_state t = str_in s ["queued"; "leased"].
Proof. by intros <-. Qed.

Lemma expired_state now a : am_state (expired_attempt now a) = "leased" -> am_state a = "leased".
Proof. unfold expired_attempt. by destruct (_ && _). Qed.
Lemma silent_leased limit a : am_state (silent_attempt limit a) = "leased" <-> am_state a = "leased".
Proof. unfold silent_attempt. destruct (_ && _) eqn:E; [|done]. on_states. cbn. rewrite H. done. Qed.
Lemma silent_busy limit a : busy_attempt (silent_attempt limit a) = busy_attempt a.
Proof. unfold silent_attempt. destruct (_ && _) eqn:E; [|done]. on_states. unfold busy_attempt. cbn. by rewrite H. Qed.
Lemma expired_busy now a : busy_attempt (expired_attempt now a) = true -> busy_attempt a = true /\ expired_attempt now a = a.
Proof. unfold expired_attempt. destruct (_ && _) eqn:E; [|done]. unfold busy_attempt. cbn. by rewrite andb_false_r. Qed.

Lemma reconcile_inv d0 cx : preserves (inv d0) (reconcile cx).
Proof.
  intros d u d' Hd Hm%reconcile_val. set (limit := UnixMilli _) in Hm. pose proof (wf_none _ (proj1 Hd)) as Hn. eapply mapped_inv; [done|exact Hm| |].
  { intros k a _ _. eapply attempt_step_trans; [apply expired_step|apply silent_step]. }
  intros tid t _ Hok. cbn. unfold requeued. destruct ((tg_state t =s "leased") && _) eqn:E.
  - apply andb_true_iff in E as [Es%String.eqb_eq E]. unfold silenced. cbn. destruct (to_leased _ _ _ Hok Es) as (a & Ha & Hat & Has).
    split; [intros _; by rewrite (waiting_is t _ Es)|by left|done|intros _; split_and!; [by left|done|done]|done].
  - unfold silenced. destruct ((tg_state t =s "running") && _) eqn:E2.
    + apply andb_true_iff in E2 as [Es%String.eqb_eq E2]. split; [done|by left|intros _ _; by rewrite (busy_state t _ Es)|intros _; split_and!; [by right|done|done]|].
      intros a Hc Ha Hat. split; [done|]. destruct (target_ok_paired _ _ _ _ Hok Ha Hat) as (_ & Hl & _). split_and!; [done| |done].
      cbn. rewrite silent_leased. split; [done|]. intros ?%expired_state. apply Hl in H. congruence.
    + apply target_step_same; [done..|]. intros a Ha Hat. rewrite silent_leased, silent_busy. destruct (target_ok_paired _ _ _ _ Hok Ha Hat) as (_ & Hl & Hb). split.
      * split; [apply expired_state|]. intros Hs. apply Hl in Hs as Ht. rewrite Ht, Ha in E. cbn in E.
        unfold expired_attempt in *. destruct ((am_state a =s "leased") && unstarted a && (am_lease a <=? ms cx)) eqn:E3; [|done].
        on_states. unfold unstarted in *. cbn in E. congruence.
      * intros [? _]%expired_busy. auto.
Qed.

(** ** Operations on many rows *)

Lemma busy_attempt_state a s : busy_attempt (attempt_state s a) = bool_decide (am_completed a = None) && str_in s busyStates.
Proof. done. Qed.
Lemma unstarted_spec a : unstarted a = true <-> am_started a = None.
Proof. apply bool_decide_eq_true. Qed.

Lemma audit_core cx actor action id outcome d u d' : auditEvent cx actor action id outcome d = Ok (u, d') -> core d' = core d.
Proof. by intros ->%exec_val. Qed.
Lemma audit_inv d0 cx actor action id outcome : preserves (inv d0) (auditEvent cx actor action id outcome).
Proof. intros d u d' Hd Hc%audit_core. by eapply ops_inv_core. Qed.
Lemma audit_success_inv d0 cx actor action id : preserves (inv d0) (audit cx actor action id).
Proof. apply audit_inv. Qed.
Lemma exec_core_inv d0 f : (forall d, core (f d) = core d) -> preserves (inv d0) (exec f : tx unit).
Proof. intros Hf d u d' Hd ->%exec_val. eapply ops_inv_core; [apply Hf|done]. Qed.
#[export] Hint Resolve preserves_then preserves_reads preserves_when preserves_each audit_inv audit_success_inv exec_core_inv reconcile_inv : ops.

(** What becomes of the current attempt of a target when all attempts of some targets are
    ended: [c] chooses the targets, [s] is the new state of a busy attempt. *)
Definition ended (s0 s1 : string) (a : AttemptRow) : AttemptRow := attempt_state (if unstarted a then s0 else s1) a.
Lemma ended_step s0 s1 a : s0 <> "leased" /\ s0 <> "queued" -> s1 = "cancel_requested" \/ s1 = "unknown" -> am_completed a = None -> attempt_step a (ended s0 s1 a).
Proof.
  intros H0 H1 Hc. unfold ended. destruct (unstarted a) eqn:E; apply attempt_step_state; try done.
  - by apply unstarted_spec in E.
  - by destruct H1 as [->| ->].
  - by destruct H1 as [->| ->].
Qed.

Definition canceled_target (now : Z) (t : Target) : Target :=
  target_state (if str_in (tg_state t) ["queued"; "leased"] then "canceled" else "cancel_requested") now t.
Lemma cancelTask_val cx actor id d u d' : cancelTask cx actor id d = Ok (u, d') ->
  mapped (fun _ a => if bool_decide (am_completed a = None) && str_in (am_state a) busyStates
                        && match tb_targets d !! am_target a with Some t => tg_task t =s id | None => false end then ended "canceled" "cancel_requested" a else a)
    (fun _ t => if (tg_task t =s id) && active t then canceled_target (ms cx) t else t) d d'.
Proof.
  unfold cancelTask. intros (k & e1 & [_ ->]%query_val & (? & e2 & [_ ->]%require_val & (? & e3 & ->%exec_val & (? & d2 & [A1 T1]%update_attempts_val &
    (? & d3 & [T2 A2]%update_targets_val & Ha%audit_core)%andThen_ok)%andThen_ok)%andThen_ok)%andThen_ok)%andThen_ok.
  unfold core in Ha. injection Ha as Et Ea. split; intros j; rewrite ?Et, ?Ea; [rewrite A2, A1|rewrite T2, T1]; reflexivity.
Qed.

Lemma active_cases t : active t = true -> tg_state t = "queued" \/ tg_state t = "leased" \/ str_in (tg_state t) ["running"; "unknown"; "cancel_requested"] = true.
Proof.
  unfold active. rewrite !str_in_spec. unfold activeStates. rewrite !(elem_of_cons _ _ "queued"), !(elem_of_cons _ _ "leased"). tauto.
Qed.
Lemma busy_active t : busy t = true -> active t = true.
Proof. unfold busy, active. rewrite !str_in_spec. intros Hb. by right. Qed.
Lemma running_busy t : str_in (tg_state t) ["running"; "unknown"; "cancel_requested"] = true -> busy t = true /\ str_in (tg_state t) ["queued"; "leased"] = false.
Proof.
  unfold busy. rewrite str_in_spec, !elem_of_cons. intros [Hs|[Hs|[Hs|Hs]]]; [rewrite Hs; done..|by apply not_elem_of_nil in Hs].
Qed.

Lemma cancelTask_inv d0 cx actor id : preserves (inv d0) (cancelTask cx actor id).
Proof.
  intros d u d' Hd Hm%cancelTask_val. pose proof (wf_none _ (proj1 Hd)) as Hn. eapply mapped_inv; [done|exact Hm| |].
  { intros k a _ _. cbn. destruct (_ && _) eqn:E; [|apply attempt_step_refl]. on_states. apply ended_step; [done|by left|done]. }
  intros tid t Hid Hok. cbv beta. destruct ((tg_task t =s id) && active t) eqn:E.
  - apply andb_true_iff in E as [Et Ea]. unfold canceled_target. destruct (active_cases t Ea) as [Hs|[Hs|Hs]].
    + rewrite Hs. cbn. split; [intros _; by rewrite (waiting_is t _ Hs)|by left|done| |].
      * intros _. split_and!; [by right|done|done].
      * intros a Hc. by destruct (Hc (to_queued _ _ _ Hok Hs)).
    + rewrite Hs. cbn. split; [intros _; by rewrite (waiting_is t _ Hs)|by left|done| |].
      * intros _. split_and!; [by right|done|done].
      * intros a Hc Ha Hat. split; [done|]. destruct (target_ok_paired _ _ _ _ Hok Ha Hat) as (_ & Hl & _). apply Hl in Hs as Hsa.
        destruct (wf_rows _ (proj1 Hd) _ _ Ha) as [Hro _ _ _]. destruct (Hro Hsa) as [Hst Hco]. rewrite Hco, Hsa, Hat, Hid, Et. cbn. unfold ended.
        rewrite (proj2 (unstarted_spec a) Hst). split_and!; [done|done|]. rewrite busy_attempt_state, andb_false_r. done.
    + destruct (running_busy t Hs) as [Hb Hw]. rewrite Hw. split; [done|by left|done| |].
      * intros _. split_and!; [by right|done|done].
      * intros a Hc Ha Hat. split; [done|]. destruct (target_ok_paired _ _ _ _ Hok Ha Hat) as (_ & Hl & _). split_and!; [done| |done].
        split; [done|]. intros Hx. exfalso. assert (am_state a = "leased") as Hsa.
        { destruct (_ && _) in Hx; [|done]. unfold ended in Hx. by destruct (unstarted a). }
        apply Hl in Hsa. by rewrite Hsa in Hs.
  - apply target_step_same; [done..|]. intros a Ha Hat. destruct (target_ok_paired _ _ _ _ Hok Ha Hat) as (_ & Hl & Hb). rewrite Hat, Hid.
    destruct (_ && _ && (tg_task t =s id)) eqn:E2; [|done]. apply andb_true_iff in E2 as [E2 Et]. rewrite Et, andb_true_l in E.
    assert (busy t = true) as Hbusy by (apply Hb; exact E2). apply busy_active in Hbusy. congruence.
Qed.
