(* ===== verification/OpsSteps.v ===== *)
(** * Remote operations: the operations keep the invariant

    Expiry, restore, detaching and deleting nodes, retention; the changes of a single
    attempt; creating, leasing, starting and retrying. *)

From S2P Require Import Prelude GoText GoNumber GoSha256 GoTable OpsPolicy OpsAttempt OpsModel OpsTasks OpsAttempts OpsInvariant.

(** ** Expiry of the queue *)

Lemma expireTask_val cx id d u d' : expireTask cx id d = Ok (u, d') -> d' = d \/
  mapped (fun _ a => if unstarted a && (am_state a =s "leased") && match tb_targets d !! am_target a with Some t => tg_task t =s id | None => false end
                     then attempt_state "expired" a else a)
    (fun _ t => if (tg_task t =s id) && waiting_state t then target_state "expired" (ms cx) t else t) d d'.
Proof.
  unfold expireTask. intros (n & e1 & [_ ->]%query_val & Hx)%andThen_ok. destruct (n =? 0); [apply ret_ok in Hx as [_ ->]; by left|right].
  apply andThen_ok in Hx as (? & d2 & [A1 T1]%update_attempts_val & (? & d3 & [T2 A2]%update_targets_val & Ha%audit_core)%andThen_ok).
  unfold core in Ha. injection Ha as Et Ea. split; intros j; rewrite ?Et, ?Ea; [rewrite A2, A1|rewrite T2, T1]; reflexivity.
Qed.

Lemma waiting_cases t : waiting_state t = true -> tg_state t = "queued" \/ tg_state t = "leased".
Proof. unfold waiting_state. rewrite str_in_spec, !elem_of_cons. intros [?|[?|[]%not_elem_of_nil]]; auto. Qed.

Lemma expireTask_inv d0 cx id : preserves (inv d0) (expireTask cx id).
Proof.
  intros d u d' Hd [->|Hm]%expireTask_val; [done|]. pose proof (wf_none _ (proj1 Hd)) as Hn. eapply mapped_inv; [done|exact Hm| |].
  { intros k a _ _. cbv beta. destruct (_ && _ && _) eqn:E; [|apply attempt_step_refl]. apply andb_true_iff in E as [[Hu%unstarted_spec Hs%String.eqb_eq]%andb_true_iff _].
    apply attempt_step_state; [done|done|]. intros [Hl _ _ _]. by destruct (Hl Hs). }
  intros tid t Hid Hok. cbv beta. destruct ((tg_task t =s id) && waiting_state t) eqn:E.
  - apply andb_true_iff in E as [Et Ew]. split; [done|by left|done|intros _; split_and!; [by right|done|done]|].
    intros a Hc Ha Hat. split; [done|]. destruct (target_ok_paired _ _ _ _ Hok Ha Hat) as (_ & Hl & _).
    destruct (waiting_cases t Ew) as [Hs|Hs]; [by destruct (Hc (to_queued _ _ _ Hok Hs))|]. apply Hl in Hs as Hsa.
    destruct (wf_rows _ (proj1 Hd) _ _ Ha) as [Hro _ _ _]. destruct (Hro Hsa) as [Hst Hco]. rewrite (proj2 (unstarted_spec a) Hst), Hsa, Hat, Hid, Et. cbn.
    split_and!; [done|done|]. by rewrite busy_attempt_state, andb_false_r.
  - apply target_step_same; [done..|]. intros a Ha Hat. destruct (target_ok_paired _ _ _ _ Hok Ha Hat) as (_ & Hl & Hb). rewrite Hat, Hid.
    destruct (_ && _ && (tg_task t =s id)) eqn:E2; [|done]. apply andb_true_iff in E2 as [[_ Hs%String.eqb_eq]%andb_true_iff Et].
    apply Hl in Hs. rewrite Et, (waiting_is t _ Hs) in E. done.
Qed.

(** ** Nodes that go *)

Lemma attempt_step_same a a' : am_target a' = am_target a -> am_state a' = am_state a -> am_started a' = am_started a -> am_completed a' = am_completed a ->
  (am_completed a <> None -> final a a') -> attempt_step a a'.
Proof. intros H1 H2 H3 H4 H5. split; [|done|congruence|auto]. intros [A B C D]. split; rewrite ?H2, ?H3, ?H4; auto. Qed.
Lemma busy_attempt_same a a' : am_state a' = am_state a -> am_completed a' = am_completed a -> busy_attempt a' = busy_attempt a.
Proof. unfold busy_attempt. by intros -> ->. Qed.
(** A target that loses its node and nothing else. *)
Lemma target_step_detached attempts fa tid t : target_step attempts fa tid t t -> target_step attempts fa tid t (target_detached t).
Proof. intros [A B C D E]. split; [done|by right|done|done|done]. Qed.

Lemma preserves_detach d0 id f : (forall d, tb_attempts (f d) = tb_attempts d) ->
  (forall d, tb_targets (f d) = update_where (fun _ t => bool_decide (tg_node t = Some id)) target_detached (tb_targets d)) -> forall d, inv d0 d -> inv d0 (f d).
Proof.
  intros Fa Ft d Hd. pose proof (wf_none _ (proj1 Hd)) as Hn.
  eapply (mapped_inv (fun _ a => a) (fun _ t => if bool_decide (tg_node t = Some id) then target_detached t else t)); [done| | |].
  - split; intros k; [rewrite Fa; by destruct (tb_attempts d !! k)|rewrite Ft; apply lookup_update_where].
  - intros k a _ _. apply attempt_step_refl.
  - intros tid t Hid Hok. cbv beta. assert (target_step (tb_attempts d) (fun _ a => a) tid t t) as Hs.
    { apply target_step_same; [done..|]. intros a Ha Hat. destruct (target_ok_paired _ _ _ _ Hok Ha Hat) as (_ & _ & Hb). auto. }
    destruct (bool_decide _); [by apply target_step_detached|done].
Qed.

Lemma delete_node_inv d0 id : preserves (inv d0) (delete_node id).
Proof.
  intros d u d' Hd. unfold delete_node. destruct (node_busy id d); [done|]. intros [= _ <-].
  by apply (preserves_detach d0 id (fun d => d |> set_shared (without_node id (tb_shared d))
    |> (fun d => set_policies (tb_policies d) (filter (fun x => x.2 <> id) (tb_policy_nodes d)) (tb_policy_groups d) d)
    |> (fun d => set_capabilities (delete id (tb_capabilities d)) d)
    |> (fun d => set_targets (update_where (fun _ t => bool_decide (tg_node t = Some id)) target_detached (tb_targets d)) d)
    |> (fun d => set_transfers (tb_artifacts d) (tb_transfers d) (update_where (fun _ x => bool_decide (tt_node x = Some id))
         (fun x => mkTransferTarget (tt_transfer x) None (tt_node_name x) (tt_attempt x) (tt_progress x) (tt_state x) (tt_updated x)) (tb_transfer_targets d)) d))).
Qed.

Definition forced (t : Target) : string :=
  if str_in (tg_state t) ["queued"; "leased"] then "canceled" else if str_in (tg_state t) ["running"; "unknown"; "cancel_requested"] then "unknown" else tg_state t.
Lemma forceDetachNode_val cx actor nodeID reason d u d' : forceDetachNode cx actor nodeID reason d = Ok (u, d') ->
  mapped (fun _ a => if bool_decide (am_completed a = None)
                        && match tb_targets d !! am_target a with Some t => bool_decide (tg_node t = Some nodeID) | None => false end
                     then attempt_reason (ac_UserID actor) reason (ended "canceled" "unknown" a) else a)
    (fun _ t => if bool_decide (tg_node t = Some nodeID) then target_detached (target_state (forced t) (ms cx) t) else t) d d'.
Proof.
  unfold forceDetachNode. intros (? & d2 & [A1 T1]%update_attempts_val & (? & d3 & [T2 A2]%update_targets_val & ->%exec_val)%andThen_ok)%andThen_ok.
  split; intros j; cbn; [rewrite A2, A1|rewrite T2, T1]; reflexivity.
Qed.

Lemma forced_spec t : (busy t = true -> tg_state t <> "leased" -> forced t = "unknown") /\ forced t <> "leased" /\ forced t <> "queued" /\
  (str_in (forced t) busyStates = true -> busy t = true).
Proof.
  unfold forced. destruct (str_in (tg_state t) ["queued"; "leased"]) eqn:E.
  { split_and!; [|done|done|done]. intros Hb Hn. apply waiting_cases in E as [Hs|Hs]; [|done]. by rewrite (busy_state t _ Hs) in Hb. }
  assert (tg_state t <> "queued" /\ tg_state t <> "leased") as [Hq Hl] by (split; intros Hs; by rewrite Hs in E).
  destruct (str_in (tg_state t) ["running"; "unknown"; "cancel_requested"]) eqn:E2; [split_and!; [done..|]; intros _; by apply running_busy|].
  split_and!; [|done|done|done]. intros Hb _. destruct (active_cases t (busy_active t Hb)) as [?|[?|?]]; congruence.
Qed.

Lemma forceDetachNode_inv d0 cx actor nodeID reason : preserves (inv d0) (forceDetachNode cx actor nodeID reason).
Proof.
  intros d u d' Hd Hm%forceDetachNode_val. pose proof (wf_none _ (proj1 Hd)) as Hn. eapply mapped_inv; [done|exact Hm| |].
  { intros k a _ _. cbv beta. destruct (_ && _) eqn:E; [|apply attempt_step_refl]. apply andb_true_iff in E as [E%bool_decide_eq_true _].
    eapply attempt_step_trans; [by apply (ended_step "canceled" "unknown"); [|right|]|by apply attempt_step_same]. }
  intros tid t Hid Hok. cbv beta. destruct (bool_decide (tg_node t = Some nodeID)) eqn:E.
  - destruct (forced_spec t) as (Hf1 & Hf2 & Hf3 & Hf4). split; [|by right|by intros ? _; apply Hf4|intros _; split_and!; [by right|done|done]|].
    { cbn. intros [?|?]%(waiting_cases (target_state (forced t) (ms cx) t)); done. }
    intros a Hc Ha Hat. split; [done|]. destruct (target_ok_paired _ _ _ _ Hok Ha Hat) as (_ & Hl & Hb). rewrite Hat, Hid, E, andb_true_r.
    destruct (wf_rows _ (proj1 Hd) _ _ Ha) as [Hro Hop Hov _]. destruct (bool_decide (am_completed a = None)) eqn:Ec.
    + apply bool_decide_eq_true in Ec. unfold ended. destruct (unstarted a) eqn:Eu; (split_and!; [done|split; done|]).
      * unfold busy_attempt. cbn. by rewrite andb_false_r.
      * intros _. assert (am_started a <> None) as Hs by (by intros ?%unstarted_spec; congruence). specialize (Hop Hs Ec).
        assert (busy t = true) as Hbt. { apply Hb. unfold busy_attempt. rewrite (bool_decide_true _ Ec). apply str_in_spec in Hop. apply str_in_spec. by right. }
        unfold busy. cbn. rewrite Hf1; [done|done|]. intros Hx%Hl. by destruct (Hro Hx).
    + apply bool_decide_eq_false in Ec. split_and!; [done| |].
      * split; [done|]. intros Hx. by destruct (Hro Hx).
      * unfold busy_attempt. by rewrite bool_decide_false.
  - apply target_step_same; [done..|]. intros a Ha Hat. destruct (target_ok_paired _ _ _ _ Hok Ha Hat) as (_ & Hl & Hb). by rewrite Hat, Hid, E, andb_false_r.
Qed.

(** ** Restore *)

Definition unknown_attempt (a : AttemptRow) : AttemptRow :=
  attempt_result (am_stdout a) (am_stderr a) (am_digest a) (am_result a) true (attempt_state "unknown" a).
Lemma reconcileRestored_val cx d u d' : reconcileRestoredOperations cx d = Ok (u, d') ->
  mapped (fun _ a => if bool_decide (am_completed a = None) && str_in (am_state a) busyStates then unknown_attempt a else a)
    (fun _ t => if active t then target_state "unknown" (ms cx) t else t) d d' /\
  (forall id, tb_tasks d' !! id = (fun k => task_set (mkSnapshot (sn_policy (tk_snapshot k)) (sn_shell (tk_snapshot k)) (sn_root (tk_snapshot k)) true) (tk_expires k)
    (exists_where (fun _ t => (tg_task t =s id) && active t) (tb_targets d) || tk_cancel k) (tk_updated k) k) <$> tb_tasks d !! id).
Proof.
  unfold reconcileRestoredOperations. intros (? & e1 & ->%exec_val & (? & d2 & Ha & (? & d3 & Ht & (? & e4 & ->%exec_val & ->%exec_val)%andThen_ok)%andThen_ok)%andThen_ok)%andThen_ok.
  injection Ha as _ <-. injection Ht as _ <-. split; [split; intros j; cbn; apply lookup_update_where|]. intros id. cbn. rewrite map_lookup_imap. by destruct (tb_tasks d !! id).
Qed.

Lemma reconcileRestored_inv d0 cx : preserves (inv d0) (reconcileRestoredOperations cx).
Proof.
  intros d u d' Hd [Hm _]%reconcileRestored_val. pose proof (wf_none _ (proj1 Hd)) as Hn. eapply mapped_inv; [done|exact Hm| |].
  { intros k a _ _. cbv beta. destruct (_ && _) eqn:E; [|apply attempt_step_refl]. apply andb_true_iff in E as [E%bool_decide_eq_true _].
    eapply attempt_step_trans; [apply (attempt_step_state "unknown" a)|apply attempt_step_same; try done; by rewrite E]; [done|done|done]. }
  intros tid t Hid Hok. cbv beta. destruct (active t) eqn:E.
  - split; [done|by left| |intros _; split_and!; [by right|done|done]|].
    + intros _ Hc. destruct (active_cases t E) as [Hs|[Hs|Hs]]; [by destruct (Hc (to_queued _ _ _ Hok Hs))|by rewrite (busy_state t _ Hs)|by apply running_busy].
    + intros a Hc Ha Hat. split; [done|]. destruct (target_ok_paired _ _ _ _ Hok Ha Hat) as (_ & Hl & Hb). split_and!; [done| |done]. split; [done|].
      destruct (wf_rows _ (proj1 Hd) _ _ Ha) as [Hro _ _ _]. destruct (_ && _) eqn:E2; [done|]. intros Hx. exfalso. destruct (Hro Hx) as [_ Hco].
      rewrite Hx, (bool_decide_true _ Hco) in E2. done.
  - apply target_step_same; [done..|]. intros a Ha Hat. destruct (target_ok_paired _ _ _ _ Hok Ha Hat) as (_ & Hl & Hb). fold (busy_attempt a).
    destruct (busy_attempt a) eqn:E2; [|by rewrite E2]. specialize (Hb eq_refl). apply busy_active in Hb. congruence.
Qed.

(** ** Retention *)

Lemma deleted_inv d0 id d d' :
  (forall k a, tb_attempts d' !! k = Some a -> tb_attempts d !! k = Some a) ->
  (forall k a t, tb_attempts d !! k = Some a -> tb_targets d !! am_target a = Some t -> tg_task t <> id -> tb_attempts d' !! k = Some a) ->
  (forall k t, tb_targets d' !! k = Some t <-> tb_targets d !! k = Some t /\ tg_task t <> id) -> inv d0 d -> inv d0 d'.
Proof.
  intros Ha Ha' Ht [[A B C D] Hc]. split.
  - split; [eauto| | |].
    + destruct (tb_attempts d' !! "") as [a|] eqn:E; [|done]. apply Ha in E. congruence.
    + intros tid t [Htid Hne]%Ht. destruct (C tid t Htid) as [Hq Hl Hcur]. split; [done| |eauto].
      intros Hs. destruct (Hl Hs) as (a & Hx & Hat & Hst). exists a. split_and!; [|done|done]. eapply Ha'; [done| |done]. by rewrite Hat.
    + intros n. etrans; [|apply (D n)]. apply count_where_mono. intros k t [? _]%Ht Hh. eauto.
  - eapply calm_step; [done|eauto| |]; [intros tid t [? _]%Ht Hw; eauto|]. intros k a Hk%Ha. right. eauto using final_refl.
Qed.

Lemma deleteRetainedTask_inv d0 cx id : preserves (inv d0) (deleteRetainedTask cx id).
Proof.
  intros d u d' Hd. unfold deleteRetainedTask. intros (? & e1 & ->%exec_val & (? & e2 & ->%exec_val & (? & e3 & ->%exec_val & (k & e4 & [_ ->]%query_val &
    (? & e5 & [_ ->]%require_val & (? & e6 & ->%exec_val & Hau%audit_core)%andThen_ok)%andThen_ok)%andThen_ok)%andThen_ok)%andThen_ok)%andThen_ok.
  eapply ops_inv_core; [exact Hau|]. eapply (deleted_inv d0 id); [| | |exact Hd]; cbn.
  - by intros k0 a [? _]%lookup_delete_where.
  - intros k0 a t Ha Ht Hne. apply lookup_delete_where. split; [done|]. rewrite Ht. by apply String.eqb_neq.
  - intros k0 t. by rewrite lookup_delete_where, String.eqb_neq.
Qed.

Lemma retainOperations_inv d0 cx : preserves (inv d0) (retainOperations cx).
Proof.
  unfold retainOperations. apply preserves_then; [|intros _; apply preserves_then; [auto with ops|intros ids; apply preserves_then; [|intros _; by apply exec_core_inv]]].
  - intros d u d' Hd ->%exec_val. pose proof (wf_none _ (proj1 Hd)) as Hn. set (ids := limited 64 _ _).
    eapply (mapped_inv (fun id a => if str_in id ids then attempt_result None None (am_digest a) (am_result a) (am_restored a) a else a) (fun _ t => t)); [done| | |].
    + split; intros k; cbn; [apply lookup_update_where|by destruct (tb_targets d !! k)].
    + intros k a _ _. destruct (str_in k ids); [|apply attempt_step_refl]. apply attempt_step_same; try done. intros _. split; auto.
    + intros tid t _ Hok. apply target_step_same; [done..|]. intros a Ha Hat. destruct (target_ok_paired _ _ _ _ Hok Ha Hat) as (_ & Hl & Hb). by destruct (str_in _ ids).
  - apply preserves_each. intros id. apply deleteRetainedTask_inv.
Qed.
#[export] Hint Resolve cancelTask_inv expireTask_inv delete_node_inv forceDetachNode_inv reconcileRestored_inv retainOperations_inv : ops.

(** ** One attempt *)

Lemma UnixMilli_FromMilli x : UnixMilli (FromMilli x) = x.
Proof. unfold UnixMilli, FromMilli. replace (unixEpoch + x * Millisecond - unixEpoch) with (x * Millisecond) by lia. apply Z.div_mul. done. Qed.
Lemma milli_option (o : option Z) : UnixMilli <$> (FromMilli <$> o) = o.
Proof. destruct o as [x|]; [|done]. cbn. by rewrite UnixMilli_FromMilli. Qed.

Lemma update_attempt_val id f d u d' : update_attempt id f d = Ok (u, d') -> exists a, tb_attempts d !! id = Some a /\ d' = set_attempts (<[id := f a]> (tb_attempts d)) d.
Proof. unfold update_attempt. destruct (tb_attempts d !! id) as [a|]; [|done]. intros [= _ <-]. eauto. Qed.
Lemma ops_update_target_val id f d u d' : update_target id f d = Ok (u, d') -> exists t, tb_targets d !! id = Some t /\ d' = set_targets (<[id := f t]> (tb_targets d)) d.
Proof. unfold update_target. destruct (tb_targets d !! id) as [t|]; [|done]. intros [= _ <-]. eauto. Qed.
Lemma update_task_val id f d u d' : update_task id f d = Ok (u, d') -> exists k, tb_tasks d !! id = Some k /\ d' = set_tasks (<[id := f k]> (tb_tasks d)) d.
Proof. unfold update_task. destruct (tb_tasks d !! id) as [k|]; [|done]. intros [= _ <-]. eauto. Qed.

(** The columns that a life of an attempt fills. *)
Definition lived (a : Attempt) (r : AttemptRow) : AttemptRow :=
  attempt_life (Attempt_State a) (UnixMilli <$> StartedAt a) (Some (UnixMilli (HeartbeatAt a))) (UnixMilli <$> CompletedAt a) r.
Lemma reflectTransferState_core cx item d u d' : reflectTransferState cx item d = Ok (u, d') -> core d' = core d.
Proof. unfold reflectTransferState. by intros (? & d1 & ->%exec_val & ->%exec_val)%andThen_ok. Qed.

Lemma persistAttempt_val cx item d u d' : persistAttempt cx item d = Ok (u, d') ->
  exists r t, tb_attempts d !! Attempt_ID (sa_attempt item) = Some r /\ tb_targets d !! sa_target item = Some t /\
    mapped (fun k a => if k =s Attempt_ID (sa_attempt item) then lived (sa_attempt item) a else a)
      (fun k x => if (k =s sa_target item) && (tg_current x =s Attempt_ID (sa_attempt item)) then target_state (Attempt_State (sa_attempt item)) (ms cx) x else x) d d'.
Proof.
  unfold persistAttempt. set (aid := Attempt_ID _). set (tid := sa_target _).
  intros (? & d1 & (r & Hr & ->)%update_attempt_val & (t0 & e1 & [-> ->]%query_val & (t & e2 & [Ht ->]%require_val & Hx)%andThen_ok)%andThen_ok)%andThen_ok. cbn in Ht.
  exists r, t. split_and!; [done|done|].
  assert (forall k, <[aid := lived (sa_attempt item) r]> (tb_attempts d) !! k = (fun a => if k =s aid then lived (sa_attempt item) a else a) <$> tb_attempts d !! k) as Ha.
  { intros k. destruct (k =s aid) eqn:E; [apply String.eqb_eq in E as ->; by rewrite lookup_insert_eq, Hr|]. apply String.eqb_neq in E. rewrite lookup_insert_ne by done.
    by destruct (tb_attempts d !! k). }
  destruct (tg_current t <>s aid) eqn:Ec.
  - apply ret_ok in Hx as [_ ->]. split; [exact Ha|]. intros k. cbn. destruct (k =s tid) eqn:E; [|by destruct (tb_targets d !! k)]. apply String.eqb_eq in E as ->.
    rewrite Ht. cbn. apply negb_true_iff in Ec. by rewrite Ec.
  - apply negb_false_iff in Ec. apply andThen_ok in Hx as (? & d2 & (t1 & Ht1 & ->)%ops_update_target_val & Hcore%reflectTransferState_core). cbn in Ht1, Hcore.
    fold tid in Ht1. rewrite Ht in Ht1. injection Ht1 as <-. unfold core in Hcore. cbn in Hcore. injection Hcore as Et Ea. split; intros k; rewrite ?Ea, ?Et; [exact (Ha k)|].
    destruct (k =s tid) eqn:E; [apply String.eqb_eq in E as ->; rewrite lookup_insert_eq, Ht; cbn; by rewrite Ec|]. apply String.eqb_neq in E.
    rewrite lookup_insert_ne by done. by destruct (tb_targets d !! k).
Qed.

(** What a change of one attempt has to respect. *)
Record life_ok (a : Attempt) (r : AttemptRow) : Prop := {
  lo_row : row_ok (lived a r);
  lo_busy : str_in (Attempt_State a) busyStates = true -> busy_attempt r = true;
  lo_leased : Attempt_State a = "leased" -> am_state r = "leased" }.

Lemma persistAttempt_step cx item d u d' : wf d -> persistAttempt cx item d = Ok (u, d') ->
  (forall r, tb_attempts d !! Attempt_ID (sa_attempt item) = Some r -> am_target r = sa_target item /\ (row_ok r -> life_ok (sa_attempt item) r)) ->
  wf d' /\ forall tid t', tb_targets d' !! tid = Some t' -> waiting_state t' = true -> exists t, tb_targets d !! tid = Some t /\ waiting_state t = true.
Proof.
  intros Hd (r & t & Hr & Ht & Hm)%persistAttempt_val Hlife. destruct (Hlife r Hr) as [Hrt Hlo]. specialize (Hlo (wf_rows _ Hd _ _ Hr)). destruct Hlo as [Hrow Hbusy Hleased].
  pose proof (wf_none _ Hd) as Hn. set (aid := Attempt_ID _) in *. set (tid := sa_target _) in *. eapply mapped_wf; [done|exact Hm| |].
  { intros k a Hk Hok. cbv beta. destruct (k =s aid) eqn:E; [|done]. apply String.eqb_eq in E as ->. rewrite Hr in Hk. injection Hk as <-. done. }
  intros j x Hj Hok. cbv beta. destruct (j =s tid) eqn:Ej; cbn [andb]; [destruct (tg_current x =s aid) eqn:Ec|].
  - apply String.eqb_eq in Ej as ->. apply String.eqb_eq in Ec. rewrite <- Ec in Hr. destruct (target_ok_paired _ _ _ _ Hok Hr Hrt) as (_ & Hl & Hb).
    assert (Attempt_State (sa_attempt item) <> "queued") as Hq by (destruct Hrow as [_ _ _ Hq]; exact Hq).
    split; [|by left| | |].
    + intros [?|Hx]%waiting_cases; [done|]. apply Hleased, Hl in Hx. by rewrite (waiting_is x _ Hx).
    + intros Hx _. apply Hb, Hbusy. exact Hx.
    + intros Hf. exfalso. destruct Hf as [Hf|Hf]; [cbn in Hf; rewrite Hf in Hr; congruence|]. by apply (Hf r Hr).
    + intros a Hc Ha Hat. split; [done|]. rewrite Hr in Ha. injection Ha as <-. rewrite Ec, String.eqb_refl. split_and!; [done|done|].
      unfold busy_attempt. cbn. intros [_ ?]%andb_true_iff. done.
  - apply target_step_same; [done..|]. intros a Ha Hat. rewrite Ec. destruct (target_ok_paired _ _ _ _ Hok Ha Hat) as (_ & _ & Hb). done.
  - apply target_step_same; [done..|]. intros a Ha Hat. destruct (target_ok_paired _ _ _ _ Hok Ha Hat) as (_ & _ & Hb). destruct (tg_current x =s aid) eqn:Ec; [|done].
    apply String.eqb_eq in Ec. exfalso. rewrite Ec, Hr in Ha. injection Ha as <-. apply String.eqb_neq in Ej. congruence.
Qed.

Lemma persistAttempt_inv d0 cx item d u d' : inv d0 d -> persistAttempt cx item d = Ok (u, d') ->
  (forall r, tb_attempts d !! Attempt_ID (sa_attempt item) = Some r -> am_target r = sa_target item /\ (row_ok r -> life_ok (sa_attempt item) r) /\
     (am_started r = None -> StartedAt (sa_attempt item) = None) /\ am_completed r = None) -> inv d0 d'.
Proof.
  intros [Hd Hc] Hp Hlife. destruct (persistAttempt_step _ _ _ _ _ Hd Hp) as [Hd' Hw]; [intros r Hr; destruct (Hlife r Hr) as (? & ? & _); done|].
  split; [done|]. apply persistAttempt_val in Hp as (r & t & Hr & _ & Hm). destruct (Hlife r Hr) as (_ & _ & Hst & Hco). eapply calm_step; [done| |done|].
  - intros k a'. rewrite (mp_attempts _ _ _ _ Hm). intros (a & Hk & ->)%fmap_Some. destruct (k =s _) eqn:E; [|eauto]. apply String.eqb_eq in E as ->. cbn. intros Hs. exists a.
    split; [done|]. rewrite Hr in Hk. injection Hk as <-. intros Hn. apply Hs. by rewrite Hst.
  - intros k a'. rewrite (mp_attempts _ _ _ _ Hm). intros (a & Hk & ->)%fmap_Some. right. exists a. split; [done|]. destruct (k =s _) eqn:E; [|auto using final_refl].
    apply String.eqb_eq in E as ->. rewrite Hr in Hk. injection Hk as <-. by rewrite Hco.
Qed.
