(* ===== verification/OpsRun.v ===== *)
(** * Remote operations: runs

    Every operation of the service as one step, any sequence of them, and what a step can
    do to targets and attempts. *)

From S2P Require Import Prelude GoText GoNumber GoSha256 GoTable OpsPolicy OpsAttempt OpsModel OpsTasks OpsAttempts OpsInvariant OpsSteps.

Section steps.
Context `{OpsExternals}.

(** ** Loading *)

Lemma loadAttempt_val request d item d' : loadAttempt request d = Ok (item, d') -> d' = d /\ exists nodeID a t k,
  node (rq_Token request) d = Ok (nodeID, d) /\ tb_attempts d !! rq_ID request = Some a /\ tb_targets d !! am_target a = Some t /\ tb_tasks d !! tg_task t = Some k /\
  tg_node t = Some nodeID /\ item = mkStored (am_restored a) (tk_kind k) (of_row (rq_ID request) nodeID a) (am_target a) (tg_task t) (tk_output k).
Proof.
  unfold loadAttempt. intros (nodeID & d1 & Hnode & Hx)%andThen_ok. pose proof (reads_node _ _ _ _ Hnode) as ->.
  apply andThen_ok in Hx as (row & d1 & [-> ->]%query_val & (row & d1 & [Hrow ->]%require_val & Hx)%andThen_ok).
  destruct row as [[a t] k]. apply ret_ok in Hx as [-> ->]. split; [done|]. exists nodeID, a, t, k. unfold attempt_row in Hrow.
  destruct (tb_attempts d !! rq_ID request) as [a0|] eqn:Ea; [|done]. destruct (tb_targets d !! am_target a0) as [t0|] eqn:Et; [|done].
  destruct (tb_tasks d !! tg_task t0) as [k0|] eqn:Ek; [|done]. case_bool_decide; [|done]. injection Hrow as -> -> ->. done.
Qed.

(** ** The life of one attempt *)

Lemma open_life a r : row_ok r -> am_started r <> None -> am_completed r = None -> StartedAt a <> None -> CompletedAt a = None ->
  str_in (Attempt_State a) ["running"; "unknown"; "cancel_requested"] = true -> life_ok a r.
Proof.
  intros Hok Hs Hc Hs' Hc' Hst. assert (Attempt_State a <> "leased" /\ Attempt_State a <> "queued") as [Hl Hq] by (split; intros Hx; by rewrite Hx in Hst).
  split; [|intros _|done].
  - split; cbn; [done|done|by rewrite Hc'|done].
  - unfold busy_attempt. rewrite (bool_decide_true _ Hc). pose proof (ro_open _ Hok Hs Hc) as Ho. apply str_in_spec in Ho. apply str_in_spec. by right.
Qed.
(** An attempt that only lives on. *)
Lemma same_life a r : row_ok r -> Attempt_State a = am_state r -> UnixMilli <$> StartedAt a = am_started r -> UnixMilli <$> CompletedAt a = am_completed r ->
  (am_completed r = None \/ str_in (am_state r) busyStates = false) -> life_ok a r.
Proof.
  intros Hok Hs Hst Hco Hb. split; rewrite ?Hs; [|destruct Hb as [Hb|Hb]; [|congruence]|done].
  - unfold lived. rewrite Hs, Hst, Hco. destruct Hok. split; done.
  - intros Hx. unfold busy_attempt. by rewrite (bool_decide_true _ Hb).
Qed.
Lemma over_life a r : CompletedAt a <> None -> str_in (Attempt_State a) result_states = true -> life_ok a r.
Proof.
  intros Hc Hs. assert (Attempt_State a <> "leased" /\ Attempt_State a <> "queued" /\ str_in (Attempt_State a) busyStates = false) as (Hl & Hq & Hb).
  { unfold result_states in Hs. apply str_in_spec in Hs. rewrite !elem_of_cons in Hs. destruct_or? Hs; try rewrite Hs; try done. by apply not_elem_of_nil in Hs. }
  split; [|congruence|done]. split; [done| |done|done]. intros _. cbn. by destruct (CompletedAt a).
Qed.

Lemma heartbeat_life r id nodeID p a c : row_ok r -> Heartbeat (of_row id nodeID r) p = (a, Ok c) ->
  life_ok a r /\ life_ok (Cancel a) r /\ (am_started r <> None /\ am_completed r = None) /\ Attempt_ID a = id /\ Attempt_ID (Cancel a) = id.
Proof.
  intros Hok. unfold Heartbeat. destruct (Authenticate _ p); [|done]. pose proof (ro_open _ Hok) as Ho. destruct r as [t n h s cap l st hb co o e dg m re ra rr].
  destruct st as [st|]; [|done]. destruct co as [co|]; [done|]. specialize (Ho ltac:(done) eq_refl). unfold of_row. cbn [Attempt_State set_HeartbeatAt am_state] in *.
  change (negb (isSome (StartedAt _)) || isSome (CompletedAt _)) with false. cbn [am_state] in Ho.
  destruct (s =s "unknown") eqn:Eu; intros [= <- _]; (split_and!; [by apply open_life|by apply open_life|done..]).
Qed.
Lemma start_life r id nodeID p a c : row_ok r -> Attempt_Start (of_row id nodeID r) p = (a, Ok c) ->
  (am_started r <> None /\ a = of_row id nodeID r) \/
  (am_started r = None /\ am_state r = "leased" /\ life_ok a r /\ Attempt_ID a = id /\ Attempt_State a = "running" /\ StartedAt a = Some (Proof_Now p)).
Proof.
  intros Hok. unfold Attempt_Start. destruct (Authenticate _ p); [|done]. cbn. destruct (am_started r) as [st|] eqn:Es; cbn; [intros [= <-]; by left|].
  destruct (_ || _) eqn:E; [done|]. intros [= <-]. right. apply orb_false_iff in E as [E%negb_false_iff%String.eqb_eq _].
  destruct (ro_leased _ Hok E) as [_ Hco]. split_and!; try done. split; cbn.
  - split; cbn; [done|done|by rewrite Hco|done].
  - intros _. unfold busy_attempt. by rewrite E, (bool_decide_true _ Hco).
  - done.
Qed.

(** ** Transactions *)

Lemma atomicWrite_keeps {A} (P : Tables -> Prop) commit now (m : context -> tx A) d : (forall cx, preserves P (m cx)) -> P d -> P (atomicWrite commit now m d).2.
Proof. intros Hm Hd. unfold atomicWrite. destruct (m _ d) as [[a d']|e] eqn:E; [|done]. destruct commit; [|done]. by eapply Hm. Qed.
Lemma write_keeps {A} (P : Tables -> Prop) s commit now (m : context -> tx A) d : (forall cx, preserves P (m cx)) -> P d -> P (write s commit now m d).2.
Proof. intros Hm Hd. unfold write. destruct (negb _); [done|]. by apply atomicWrite_keeps. Qed.
Lemma atomicMutation_keeps {A} (P : Tables -> Prop) s commit now (m : context -> tx A) d : (forall cx, preserves P (m cx)) -> P d -> P (atomicMutation s commit now m d).2.
Proof. intros Hm Hd. unfold atomicMutation. destruct (negb _); [done|]. by apply atomicWrite_keeps. Qed.
Lemma operationMutation_keeps {A} (P : Tables -> Prop) s commit now (m : context -> tx A) d : (forall cx, preserves P (m cx)) -> P d -> P (operationMutation s commit now m d).2.
Proof. intros Hm Hd. unfold operationMutation. destruct (negb _); [done|]. by apply atomicMutation_keeps. Qed.

(** ** Heartbeats and completions *)

Lemma loaded_row request d item : loadAttempt request d = Ok (item, d) -> Attempt_ID (sa_attempt item) = rq_ID request /\
  exists r nodeID, tb_attempts d !! rq_ID request = Some r /\ sa_attempt item = of_row (rq_ID request) nodeID r /\ am_target r = sa_target item.
Proof. intros (_ & nodeID & a & t & k & _ & Ha & _ & _ & _ & ->)%loadAttempt_val. split; [done|]. exists a, nodeID. done. Qed.

Lemma ServiceHeartbeat_inv d0 s commit now request d : inv d0 d -> inv d0 (ServiceHeartbeat s commit now request d).2.
Proof.
  apply atomicWrite_keeps. clear d. intros cx d b d' Hd (item & d1 & Hl & Hx)%andThen_ok. pose proof (reads_loadAttempt _ _ _ _ Hl) as ->.
  apply loaded_row in Hl as (Hid & r & nodeID & Hr & Ha & Ht). pose proof (wf_rows _ (proj1 Hd) _ _ Hr) as Hok.
  cbv zeta in Hx. destruct (sa_restored item && _ && _) eqn:E.
  - apply andThen_ok in Hx as (u & d1 & [_ ->]%lift_ok & (u1 & d1 & Hp & [_ ->]%ret_ok)%andThen_ok). eapply persistAttempt_inv; [exact Hd|exact Hp|]. cbn. rewrite Hid, Hr.
    rewrite Ha in *. intros r0 [= <-]. apply andb_true_iff in E as [_ E%negb_true_iff%isSome_false]. cbn in E |- *.
    assert (am_completed r = None) as Hco by (by destruct (am_completed r)). split_and!; [done| |by intros ->|done].
    intros _. apply same_life; cbn; [done|done|apply milli_option|apply milli_option|by left].
  - apply andThen_ok in Hx as (c & d1 & [Hb ->]%lift_ok & (ok & d1 & Hrun & Hx)%andThen_ok). apply reads_runningPolicy in Hrun as ->.
    destruct (Heartbeat _ _) as [a' c'] eqn:Eh. cbn in Hb. subst c'. rewrite Ha in Eh. destruct (heartbeat_life _ _ _ _ _ _ Hok Eh) as (H1 & H2 & H3 & H4 & H5). cbn [fst] in Hx.
    destruct (_ || _); apply andThen_ok in Hx as (u1 & d1 & Hp & [_ ->]%ret_ok); (eapply persistAttempt_inv; [exact Hd|exact Hp|]); cbn [with_attempt sa_attempt sa_target];
      rewrite ?H4, ?H5, Hr; (intros r0 [= <-]; split_and!; [done|done|tauto|tauto]).
Qed.

Lemma persistResult_inv d0 item r d u d' : inv d0 d -> (forall a, tb_attempts d !! Attempt_ID (sa_attempt item) = Some a -> am_completed a = None) ->
  persistResult item r d = Ok (u, d') -> inv d0 d'.
Proof.
  intros Hd Hnone. unfold persistResult. intros (c1 & e1 & [_ ->]%require_val & (c2 & e2 & [_ ->]%require_val & (c3 & e3 & [_ ->]%require_val & Hx)%andThen_ok)%andThen_ok)%andThen_ok.
  apply update_attempt_val in Hx as (a & Ha & ->). pose proof (wf_none _ (proj1 Hd)) as Hn. set (id := Attempt_ID _) in *.
  set (f := attempt_result _ _ _ _ _). eapply (mapped_inv (fun k x => if k =s id then f x else x) (fun _ t => t)); [exact Hd| | |].
  - split; intros k; cbn; [|by destruct (tb_targets d !! k)]. destruct (k =s id) eqn:E; [apply String.eqb_eq in E as ->; by rewrite lookup_insert_eq, Ha|].
    apply String.eqb_neq in E. rewrite lookup_insert_ne by done. by destruct (tb_attempts d !! k).
  - intros k x Hk _. destruct (k =s id) eqn:E; [|apply attempt_step_refl]. apply String.eqb_eq in E as ->. apply attempt_step_same; try done. by rewrite (Hnone x Hk).
  - intros tid t _ Hok. apply target_step_same; [done..|]. intros x Hx Hxt. destruct (target_ok_paired _ _ _ _ Hok Hx Hxt) as (_ & Hl & Hb). by destruct (_ =s id).
Qed.
Lemma persistResult_row item r d u d' : persistResult item r d = Ok (u, d') -> exists a a', tb_attempts d !! Attempt_ID (sa_attempt item) = Some a /\
  tb_attempts d' !! Attempt_ID (sa_attempt item) = Some a' /\ am_target a' = am_target a /\ am_state a' = am_state a /\ am_started a' = am_started a /\ am_completed a' = am_completed a.
Proof.
  unfold persistResult. intros (? & e1 & [_ ->]%require_val & (c2 & e2 & [_ ->]%require_val & (c3 & e3 & [_ ->]%require_val & Hx)%andThen_ok)%andThen_ok)%andThen_ok.
  apply update_attempt_val in Hx as (a & Ha & ->). exists a. eexists. cbn. rewrite lookup_insert_eq. done.
Qed.

(** The attempt a completion leaves: it is over, with a state a result can have. *)
Lemma complete_val cx request r d b d' : complete cx request r d = Ok (b, d') -> exists item, loadAttempt request d = Ok (item, d) /\
  Authenticate (sa_attempt item) (proof_of cx item request) = Ok tt /\ Result_Validate r (sa_output item) = Ok tt /\
  ((CompletedAt (sa_attempt item) <> None /\ sameResult item r d = Ok (b, d) /\ d' = d) \/
   (CompletedAt (sa_attempt item) = None /\ b = true /\ exists a d1 d2 u1 u2, Attempt_ID a = Attempt_ID (sa_attempt item) /\ CompletedAt a = Some (cx_now cx) /\
  Attempt_State a = Result_State r /\ StartedAt a = StartedAt (sa_attempt item) /\
  persistResult (with_attempt a item) r d = Ok (u1, d1) /\ persistAttempt cx (with_attempt a item) d1 = Ok (u2, d2) /\
  audit cx "" "operation.attempt.completed" (Attempt_ID (sa_attempt item)) d2 = Ok (tt, d'))).
Proof.
  unfold complete. cbv zeta. intros (item & d1 & Hl & Hx)%andThen_ok. pose proof (reads_loadAttempt _ _ _ _ Hl) as ->. exists item. split; [done|].
  apply andThen_ok in Hx as ([] & d1 & [Hau ->]%lift_ok & ([] & d1 & [Hv ->]%lift_ok & Hx)%andThen_ok). split_and!; [done|done|].
  destruct (isSome (CompletedAt (sa_attempt item))) eqn:Ec.
  - left. apply isSome_spec in Ec. pose proof (reads_sameResult _ _ _ _ _ Hx) as ->. done.
  - right. apply isSome_false in Ec. split; [done|]. apply andThen_ok in Hx as (u & d1 & Hv1 & Hx). assert (d1 = d) as ->.
    { destruct (validateTransferCompletion item r d) as [[? d2]|e] eqn:E; [apply reads_validateTransferCompletion in E as ->; by injection Hv1 as _ <-|].
      destruct (_ || _); [done|]. by injection Hv1 as _ <-. }
    apply andThen_ok in Hx as (a & d1 & Ha & Hx). assert (d1 = d /\ Attempt_ID a = Attempt_ID (sa_attempt item) /\ CompletedAt a = Some (cx_now cx) /\
      Attempt_State a = Result_State r /\ StartedAt a = StartedAt (sa_attempt item)) as (-> & H1 & H2 & H3 & H4).
    { destruct (negb (isSome (StartedAt (sa_attempt item)))); [destruct (_ || _); [done|]; by apply ret_ok in Ha as [-> ->]|].
      apply andThen_ok in Ha as ([] & d2 & [Hc ->]%lift_ok & [-> ->]%ret_ok). destruct (Complete _ _ r) as [a c] eqn:E.
      cbn in Hc |- *. subst c. unfold Complete in E. rewrite Hau in E. destruct (Result_Validate r MaximumOutputBytes); [|done]. rewrite Ec in E.
      destruct (negb _); [done|]. by injection E as <-. }
    apply andThen_ok in Hx as (u1 & e1 & Hp1 & (u2 & e2 & Hp2 & ([] & e3 & Hp3 & [-> ->]%ret_ok)%andThen_ok)%andThen_ok). split; [done|].
    exists a, e1, e2, u1, u2. done.
Qed.

Lemma complete_inv d0 cx request r : preserves (inv d0) (complete cx request r).
Proof.
  intros d b d' Hd (item & Hl & _ & Hv & [(_ & _ & ->)|(Hc & -> & a & d1 & d2 & u1 & u2 & H1 & H2 & H3 & H4 & Hp1 & Hp2 & Hau%audit_core)])%complete_val; [done|].
  eapply ops_inv_core; [exact Hau|]. apply loaded_row in Hl as (Hid & r0 & nodeID & Hr & Ha & Ht). rewrite Ha in Hc. cbn in Hc.
  assert (am_completed r0 = None) as Hco by (by destruct (am_completed r0)).
  assert (inv d0 d1) as Hd1. { eapply persistResult_inv; [exact Hd| |exact Hp1]. cbn. rewrite H1, Hid, Hr. by intros ? [= <-]. }
  apply persistResult_row in Hp1 as (x & x' & Hx & Hx' & Hxt & _ & Hxs & Hxc). eapply persistAttempt_inv; [exact Hd1|exact Hp2|]. cbn in *. rewrite H1, Hid in *.
  rewrite Hx'. intros y [= <-]. assert (x = r0) as -> by congruence. split_and!; [congruence| | |congruence].
  - intros _. apply over_life; [by rewrite H2|]. rewrite H3. apply str_in_spec. by eapply Result_Validate_state.
  - rewrite Hxs, H4, Ha. cbn. by intros ->.
Qed.

Lemma CompleteAttempt_inv d0 s commit now request r d : inv d0 d -> inv d0 (CompleteAttempt s commit now request r d).2.
Proof.
  intros Hd. unfold CompleteAttempt. destruct (negb (sv_queue s)); [done|]. destruct (negb _); [done|].
  pose proof (atomicMutation_keeps (inv d0) s commit now (fun cx => same <~ complete cx request r ;;
      when (negb same) (auditEvent cx "" "operation.result.conflict" (rq_ID request) "failure") >>> ret same) d) as Hk.
  destruct (atomicMutation s commit now _ d) as [[[]|e] d']; cbn in *; apply Hk; try done; intros cx; auto using complete_inv with ops.
Qed.
(** ** Leases *)

Lemma insert_attempt_val id a d u d' : insert_attempt id a d = Ok (u, d') -> tb_attempts d !! id = None /\ d' = set_attempts (<[id := a]> (tb_attempts d)) d.
Proof. unfold insert_attempt. case_bool_decide as E; [done|]. intros [= _ <-]. split; [|done]. by apply eq_None_not_Some. Qed.

Lemma leased_inv d0 d tid t aid a n cx : inv d0 d -> tb_targets d !! tid = Some t -> tg_state t = "queued" -> tg_node t = Some n -> busy_count n "" d < MaximumConcurrency ->
  tb_attempts d !! aid = None -> aid <> "" -> am_target a = tid -> am_state a = "leased" -> am_started a = None -> am_completed a = None -> tb_attempts d0 !! aid = None ->
  inv d0 (set_targets (<[tid := target_set "leased" aid "" "" (ms cx) t]> (tb_targets d)) (set_attempts (<[aid := a]> (tb_attempts d)) d)).
Proof.
  intros [[A B C D] Hc] Ht Hs Hn Hb Ha Hne Hat Hst Hsa Hco Ha0. split; [split; cbn|eapply calm_step; [exact Hc|cbn..]].
  - intros id x [[_ <-]|[_ Hx]]%lookup_insert_Some; [|eauto]. split; rewrite ?Hst; try done; by rewrite Hsa.
  - by rewrite lookup_insert_ne.
  - intros k x [[<- <-]|[Hk Hx]]%lookup_insert_Some.
    + split; cbn; [done|intros _; exists a; by rewrite lookup_insert_eq|]. intros y. rewrite lookup_insert_eq. intros [= <-] _. done.
    + destruct (C k x Hx) as [Hq Hl Hcur]. split; [done| |].
      * intros Hs'. destruct (Hl Hs') as (y & Hy & Hy'). exists y. split; [|done]. rewrite lookup_insert_ne; [done|]. intros ->. congruence.
      * intros y [[_ <-]|[_ Hy]]%lookup_insert_Some Hyt; [congruence|]. by apply Hcur.
  - intros m. destruct (decide (m = n)) as [->|Hm].
    + etrans; [apply count_where_insert|]. change (busy_count n "" d) with (count_where (fun _ t => holding n t) (tb_targets d)) in Hb. lia.
    + etrans; [|apply (D m)]. apply count_where_mono. intros k x [[<- <-]|[_ Hx]]%lookup_insert_Some Hh; [|eauto]. exfalso. revert Hh. unfold holding. cbn. rewrite Hn.
      by rewrite bool_decide_false by congruence.
  - intros id x [[_ <-]|[_ Hx]]%lookup_insert_Some Hst'; [done|eauto].
  - intros k x [[<- <-]|[_ Hx]]%lookup_insert_Some Hw; [|eauto]. exists t. split; [done|]. by rewrite Hs.
  - intros id x [[<- <-]|[_ Hx]]%lookup_insert_Some; [by left|]. right. exists x. auto using final_refl.
Qed.

Lemma validateDispatch_val cx item local d payload d' : validateDispatch cx item local d = Ok (payload, d') -> d' = d /\ exists plain p,
  Open (dp_payload item) (OperationTaskAAD (dp_task item)) = Some plain /\ task_of_json plain = Some payload /\ policy (dp_policy item) d = Ok (p, d) /\
  scope (dp_policy item) (dp_node item) d = Ok (tt, d) /\
  (commandKind (Limits_Kind (ti_Limits payload)) = true -> AuthorizeShell p local (ti_ShellFamily payload) = nil_err) /\
  Authorize p local (set_targets_limit (target_count (dp_task item) d) (ti_Limits payload)) = nil_err /\
  (forall f, ti_File payload = Some f -> fileDispatchAllowed cx (dp_task item) d = Ok (tt, d) /\ AuthorizeFile p local (mkFileRequest (Limits_Kind (ti_Limits payload)) f) = nil_err) /\
  busy_count (dp_node item) (dp_ignore item) d < Z.min (Concurrency p) (Concurrency local).
Proof.
  intros Hx. pose proof (reads_validateDispatch _ _ _ _ _ _ Hx) as ->. split; [done|]. unfold validateDispatch in Hx. cbv zeta in Hx.
  apply andThen_ok in Hx as (plain & d1 & [Hop ->]%require_val & (pl & d1 & [Hj ->]%require_val & (p & d1 & Hp & Hx)%andThen_ok)%andThen_ok).
  pose proof (reads_policy _ _ _ _ Hp) as ->. apply andThen_ok in Hx as (n & d1 & [-> ->]%query_val & ([] & d1 & Hsc & Hx)%andThen_ok).
  pose proof (reads_scope _ _ _ _ _ Hsc) as ->. apply andThen_ok in Hx as ([] & d1 & Hsh & ([] & d2 & [Hau ->]%lift_ok & Hx)%andThen_ok).
  assert (d1 = d) as -> by (eapply (reads_when _ (lift _)); [apply reads_lift|exact Hsh]).
  apply andThen_ok in Hx as ([] & d1 & Hf & (c & d2 & [-> ->]%query_val & Hx)%andThen_ok). exists plain, p.
  assert (d1 = d) as ->. { destruct (ti_File pl); [|by apply ret_ok in Hf as [_ ->]]. apply andThen_ok in Hf as ([] & d2 & H1%reads_fileDispatchAllowed & [_ ->]%lift_ok). done. }
  destruct (_ >=? _) eqn:E; [done|]. apply ret_ok in Hx as [-> _]. split_and!; try done.
  - intros Hk. cbn [Limits_Kind set_targets_limit] in Hsh. rewrite Hk in Hsh. by apply lift_ok in Hsh as [? _].
  - intros f Hfile. rewrite Hfile in Hf. apply andThen_ok in Hf as ([] & d2 & H1 & [H2 _]%lift_ok). pose proof (reads_fileDispatchAllowed _ _ _ _ _ H1) as ->. done.
  - rewrite Z.geb_leb in E. apply Z.leb_gt in E. done.
Qed.

Lemma nextDispatch_val cx nodeID files d item d' : nextDispatch cx nodeID files d = Ok (Some item, d') -> d' = d /\ exists t k, tb_targets d !! dp_target item = Some t /\
  dispatchable (ms cx) files nodeID d t = true /\ tb_tasks d !! tg_task t = Some k /\ item = mkDispatch nodeID (dp_target item) (tg_task t) (tk_policy k) (tk_payload k) "".
Proof.
  unfold nextDispatch. intros [Hx ->]%query_val. split; [done|]. destruct (head _) as [[id t]|] eqn:E; [|done].
  apply head_Some_elem_of in E. rewrite elem_of_ordered in E. apply elem_of_rows_where in E as [Ht Hdi]. destruct (tb_tasks d !! tg_task t) as [k|] eqn:Ek; [|done].
  cbn in Hx. injection Hx as ->. exists t, k. done.
Qed.
Lemma dispatchable_val now files nodeID d t : dispatchable now files nodeID d t = true -> tg_node t = Some nodeID /\ tg_state t = "queued" /\
  exists k c p, tb_tasks d !! tg_task t = Some k /\ tb_capabilities d !! nodeID = Some c /\ tb_policies d !! tk_policy k = Some p /\ tk_cancel k = false /\ now < tk_expires k /\
    dispatchAdmission k p (cp_configuration c) (in_scope (tk_policy k) nodeID d) (snd <$> transfer_of (tg_task t) d) = true.
Proof.
  unfold dispatchable. rewrite !andb_true_iff, bool_decide_eq_true, String.eqb_eq. intros [[Hn Hs] Hx]. split_and!; [done|done|].
  destruct (tb_tasks d !! tg_task t) as [k|]; [|done]. destruct (tb_capabilities d !! nodeID) as [c|]; [|done]. destruct (tb_policies d !! tk_policy k) as [p|] eqn:Ep; [|done].
  rewrite !andb_true_iff, negb_true_iff, Z.gtb_lt in Hx. exists k, c, p. intuition auto.
Qed.

(** What a successful lease did. *)
Lemma LeaseNext_val s commit now nonce aid token digest d l d' : LeaseNext s commit now nonce aid token digest d = (Ok (Some l), d') ->
  sv_enabled s = true /\ exists nodeID local d1 u item t k payload, node token d = Ok (nodeID, d) /\ capability (mkContext now "") nodeID d = Ok ((local, digest), d) /\
    reconcile (mkContext now "") d = Ok (u, d1) /\ tb_targets d1 !! dp_target item = Some t /\ dispatchable (UnixMilli now) (bool_decide (is_Some (sv_spool s))) nodeID d1 t = true /\
    tb_tasks d1 !! tg_task t = Some k /\ item = mkDispatch nodeID (dp_target item) (tg_task t) (tk_policy k) (tk_payload k) "" /\
    validateDispatch (mkContext now "") item local d1 = Ok (payload, d1) /\ tb_attempts d1 !! uuid_text aid = None /\
    l = mkLease aid (EncodeHex nonce) (UnixMilli (Prelude.Add now LeaseDuration)) (public_payload payload) /\
    d' = set_targets (<[dp_target item := target_set "leased" aid "" "" (UnixMilli now) t]> (tb_targets d1))
           (set_attempts (<[uuid_text aid := mkAttemptRow (dp_target item) (next_number (dp_target item) d1) (Sum256 nonce) "leased" digest
              (UnixMilli (Prelude.Add now LeaseDuration)) None None None None None "" None false (tg_retry_actor t) (tg_retry_reason t)]> (tb_attempts d1)) d1).
Proof.
  unfold LeaseNext, write. destruct (sv_enabled s); [cbn|done]. unfold atomicWrite. intros Hx. split; [done|].
  destruct (andThen (node token) _ d) as [[o d2]|e] eqn:E; [|done]. destruct commit; [|done]. injection Hx as -> ->.
  apply andThen_ok in E as (nodeID & d1 & Hn & E). pose proof (reads_node _ _ _ _ Hn) as ->. apply andThen_ok in E as ([local dg] & d1 & Hcap & E).
  pose proof (reads_capability _ _ _ _ _ Hcap) as ->. cbn [fst snd] in E. destruct (dg <>s digest) eqn:Ed; [done|]. apply negb_false_iff, String.eqb_eq in Ed as ->.
  apply andThen_ok in E as (u & d1 & Hrec & (o & d2 & Hnext & E)%andThen_ok). pose proof (reads_nextDispatch _ _ _ _ _ _ Hnext) as ->.
  destruct o as [item|]; [|by apply ret_ok in E as [? _]]. apply nextDispatch_val in Hnext as (_ & t & k & Ht & Hdi & Hk & Hitem).
  destruct (validateDispatch _ item local d1) as [[payload d2]|e] eqn:Ev; [|by destruct e]. pose proof (reads_validateDispatch _ _ _ _ _ _ Ev) as ->.
  apply andThen_ok in E as (l0 & d2 & Hl & [Hl0 ->]%ret_ok). unfold leaseDispatch in Hl. cbv zeta in Hl.
  apply andThen_ok in Hl as (row & d3 & [-> ->]%query_val & (t0 & d3 & [Ht0 ->]%require_val & (u1 & d3 & [Hfresh ->]%insert_attempt_val &
    (u2 & d4 & (t1 & Ht1 & ->)%ops_update_target_val & [-> ->]%ret_ok)%andThen_ok)%andThen_ok)%andThen_ok). cbn in Ht0, Ht1.
  assert (t0 = t) as -> by congruence. assert (t1 = t) as -> by congruence. injection Hl0 as ->.
  exists nodeID, local, d1, u, item, t, k, payload. split_and!; done.
Qed.

Lemma policy_valid id d p d' : policy id d = Ok (p, d') -> d' = d /\ Policy_Validate p = nil_err /\ Enabled p = true /\
  exists r, tb_policies d !! id = Some r /\ pl_enabled r = true /\ pl_configuration r = p.
Proof.
  unfold policy. intros (row & e1 & [-> ->]%query_val & (r & e2 & [Hr ->]%require_val & Hx)%andThen_ok)%andThen_ok. destruct (_ || _) eqn:E; [done|]. apply ret_ok in Hx as [-> ->].
  rewrite !orb_false_iff, !negb_false_iff in E. destruct E as [[E1 E2] E3]. apply is_ok_check in E1. split_and!; eauto.
Qed.

Lemma LeaseNext_inv s commit now nonce aid token digest d : wf d -> inv d (LeaseNext s commit now nonce aid token digest d).2.
Proof.
  intros Hwf. assert (inv d d) as Hd by (split; [done|apply ops_calm_refl]). destruct (LeaseNext s commit now nonce aid token digest d) as [[[l|]|e] d'] eqn:E; cbn.
  - apply LeaseNext_val in E as (_ & nodeID & local & d1 & u & item & t & k & payload & _ & _ & Hrec & Ht & Hdi & _ & Hitem & Hv & Hfresh & _ & ->).
    apply dispatchable_val in Hdi as (Hn & Hs & _). apply (leased_inv d d1 _ t _ _ nodeID (mkContext now "")); try done.
    + by eapply reconcile_inv.
    + apply validateDispatch_val in Hv as (_ & plain & p & _ & _ & Hp & _ & _ & _ & _ & Hb). rewrite Hitem in Hb. cbn in Hb.
      apply policy_valid in Hp as (_ & Hp%Policy_Validate_bounds & _). lia.
    + intros Hx. pose proof (uuid_some aid) as Hu. by rewrite Hx in Hu.
    + apply reconcile_val in Hrec. rewrite (mp_attempts _ _ _ _ Hrec) in Hfresh. by apply fmap_None in Hfresh.
  - revert E. unfold LeaseNext, write. destruct (negb _); [by intros [= <-]|]. unfold atomicWrite. destruct (andThen (node token) _ d) as [[o d2]|e] eqn:E; [|by intros [= <-]].
    destruct commit; [|by intros [= <-]]. intros [= -> ->].
    apply andThen_ok in E as (nodeID & e1 & ->%reads_node & ([local dg] & e2 & ->%reads_capability & E)%andThen_ok). destruct (_ <>s _); [done|].
    apply andThen_ok in E as (u & d1 & Hrec & (o & d2 & ->%reads_nextDispatch & E)%andThen_ok). assert (inv d d1) as Hd1 by (by eapply reconcile_inv).
    destruct o as [item|]; [|by apply ret_ok in E as [_ ->]]. destruct (validateDispatch _ item _ d1) as [[payload d2]|e]; [by apply andThen_ok in E as (l0 & d3 & _ & [? _]%ret_ok)|].
    destruct e; try done. by injection E as <-.
  - revert E. unfold LeaseNext, write. destruct (negb _); [by intros [= _ <-]|]. unfold atomicWrite. destruct (andThen (node token) _ d) as [[o d2]|e1]; [|by intros [= _ <-]].
    destruct commit; [done|by intros [= _ <-]].
Qed.
End steps.
