(* ===== verification/OpsCount.v ===== *)
(** * Remote operations: runs and how often a command is started

    Starting, creating and retrying; every operation of the service as one step; the
    number of starts of a target in a run. *)

From S2P Require Import Prelude GoText GoNumber GoSha256 GoTable OpsPolicy OpsAttempt OpsModel OpsTasks OpsAttempts OpsInvariant OpsSteps OpsRun.

(** ** Counting *)

(** Attempts of the target that are started in [d'] and were not in [d]. *)
Definition newly_started (tid : string) (d : Tables) (id : string) (a : AttemptRow) : bool :=
  (am_target a =s tid) && negb (unstarted a) && match tb_attempts d !! id with Some a0 => unstarted a0 | None => true end.
Definition started_by (tid : string) (d d' : Tables) : Z := count_where (newly_started tid d) (tb_attempts d').
(** 1 while the target waits for an agent. *)
Definition waits (tid : string) (d : Tables) : Z := match tb_targets d !! tid with Some t => if waiting_state t then 1 else 0 | None => 0 end.
(** 1 when the target was created. *)
Definition created_by (tid : string) (d d' : Tables) : Z :=
  if bool_decide (tb_targets d !! tid = None) && bool_decide (is_Some (tb_targets d' !! tid)) then 1 else 0.

Lemma waits_range tid d : 0 <= waits tid d <= 1.
Proof. unfold waits. destruct (tb_targets d !! tid) as [t|]; [destruct (waiting_state t)|]; lia. Qed.
Lemma created_range tid d d' : 0 <= created_by tid d d' <= 1.
Proof. unfold created_by. destruct (_ && _); lia. Qed.
Lemma started_none tid d d' : (forall id a', tb_attempts d' !! id = Some a' -> am_started a' <> None -> exists a, tb_attempts d !! id = Some a /\ am_started a <> None) ->
  started_by tid d d' = 0.
Proof.
  intros Hc. apply count_where_zero. intros id a' Ha. unfold newly_started. destruct (unstarted a') eqn:E; [by rewrite andb_false_r|].
  destruct (Hc id a' Ha) as (a & Ha0 & Hs); [by intros ?%unstarted_spec; congruence|]. rewrite Ha0. destruct (unstarted a) eqn:E2; [by apply unstarted_spec in E2|]. by rewrite andb_false_r.
Qed.
Lemma calm_counts tid d d' : calm d d' -> started_by tid d d' + waits tid d' <= waits tid d.
Proof.
  intros [Hs Hw _]. rewrite started_none by done. unfold waits. destruct (tb_targets d' !! tid) as [t'|] eqn:E; [|pose proof (waits_range tid d) as Hr; unfold waits in Hr; lia].
  destruct (waiting_state t') eqn:Ew; [|pose proof (waits_range tid d) as Hr; unfold waits in Hr; lia]. destruct (Hw tid t' E Ew) as (t & -> & ->). lia.
Qed.

Section steps.
Context `{OpsExternals}.

(** ** Starting *)

Lemma authorizeStart_val cx item request d u d' : authorizeStart cx item request d = Ok (u, d') -> d' = d /\
  Authenticate (sa_attempt item) (proof_of cx item request) = Ok tt /\ CompletedAt (sa_attempt item) = None /\
  exists t, tb_targets d !! sa_target item = Some t /\ tg_current t = Attempt_ID (sa_attempt item) /\
    (StartedAt (sa_attempt item) = None -> exists k local digest r payload, tb_tasks d !! sa_task item = Some k /\ tk_cancel k = false /\ ms cx < tk_expires k /\
       capability cx (Attempt_NodeID (sa_attempt item)) d = Ok ((local, digest), d) /\ tb_attempts d !! Attempt_ID (sa_attempt item) = Some r /\ am_capability r = digest /\
       validateDispatch cx (mkDispatch (Attempt_NodeID (sa_attempt item)) (sa_target item) (sa_task item) (tk_policy k) (tk_payload k) (Attempt_ID (sa_attempt item))) local d = Ok (payload, d)).
Proof.
  intros Hx. pose proof (reads_authorizeStart _ _ _ _ _ _ Hx) as ->. split; [done|]. unfold authorizeStart in Hx. cbv zeta in Hx.
  apply andThen_ok in Hx as ([] & d1 & [Hau ->]%lift_ok & Hx). destruct (_ || isSome (CompletedAt _)) eqn:Ec; [done|]. apply orb_false_iff in Ec as [_ Ec%isSome_false].
  apply andThen_ok in Hx as (o & d1 & [-> ->]%query_val & (t & d1 & [Ht ->]%require_val & Hx)%andThen_ok). destruct (_ <>s _) eqn:Ecur; [done|].
  apply negb_false_iff, String.eqb_eq in Ecur. split_and!; [done|done|]. exists t. split_and!; [done|done|]. intros Hns. rewrite Hns in Hx. cbn [isSome] in Hx.
  apply andThen_ok in Hx as (o & d1 & [-> ->]%query_val & (k & d1 & [Hk ->]%require_val & Hx)%andThen_ok). destruct (_ || _) eqn:E; [done|].
  apply orb_false_iff in E as [E1 E2%Z.leb_gt]. apply andThen_ok in Hx as ([local digest] & d1 & Hcap & Hx). pose proof (reads_capability _ _ _ _ _ Hcap) as ->.
  apply andThen_ok in Hx as (o & d1 & [-> ->]%query_val & (r & d1 & [Hr ->]%require_val & Hx)%andThen_ok). cbn [fst snd] in Hx. destruct (_ <>s _) eqn:Ed; [done|].
  apply negb_false_iff, String.eqb_eq in Ed. apply andThen_ok in Hx as (payload & d1 & Hv & _). pose proof (reads_validateDispatch _ _ _ _ _ _ Hv) as ->.
  exists k, local, digest, r, payload. done.
Qed.

(** A start that succeeds: of an attempt that runs already, which changes nothing that
    matters, or of the leased attempt of a leased target. *)
Lemma Start_val s commit now request d d' : Start s commit now request d = (Ok tt, d') -> exists item u d1, loadAttempt request d = Ok (item, d) /\
  authorizeStart (mkContext now "") item request d = Ok (u, d) /\ core d' = core d1 /\
  exists a, Attempt_Start (sa_attempt item) (proof_of (mkContext now "") item request) = (a, Ok tt) /\ exists u1, persistAttempt (mkContext now "") (with_attempt a item) d = Ok (u1, d1).
Proof.
  unfold Start, write. destruct (negb _); [done|]. unfold atomicWrite. destruct (andThen (loadAttempt request) _ d) as [[x d2]|e] eqn:E; [|done].
  destruct commit; [|done]. intros [= -> ->]. apply andThen_ok in E as (item & d1 & Hl & E). pose proof (reads_loadAttempt _ _ _ _ Hl) as ->.
  destruct (no_spool s item); [done|]. cbv zeta in E. apply andThen_ok in E as (u & d1 & Hau & ([] & d3 & [Hs ->]%lift_ok & (u1 & d3 & Hp & Haud)%andThen_ok)%andThen_ok).
  pose proof (reads_authorizeStart _ _ _ _ _ _ Hau) as ->. exists item, u, d3. split_and!; [done|done|by eapply audit_core|].
  destruct (Attempt_Start _ _) as [a c]. cbn in Hs, Hp. subst c. exists a. eauto.
Qed.

Lemma Start_step s commit now request d : wf d -> let d' := (Start s commit now request d).2 in
  wf d' /\ (forall tid, started_by tid d d' + waits tid d' <= waits tid d) /\
  (forall id a a', tb_attempts d !! id = Some a -> am_completed a <> None -> tb_attempts d' !! id = Some a' -> final a a').
Proof.
  intros Hd. cbv zeta. destruct (Start s commit now request d) as [[[]|e] d'] eqn:E; cbn [snd].
  2: { assert (d' = d) as ->; [|split_and!; [done|intros tid; apply calm_counts, ops_calm_refl|apply ops_calm_refl]]. revert E. unfold Start, write. destruct (negb _); [by intros [= _ <-]|]. unfold atomicWrite.
       destruct (andThen (loadAttempt request) _ d) as [[x d2]|e1]; [|by intros [= _ <-]]. destruct commit; [done|by intros [= _ <-]]. }
  apply Start_val in E as (item & u & d1 & Hl & Hau & Hcore & a & Ha & u1 & Hp). apply loaded_row in Hl as (Hid & r & nodeID & Hr & Hrow & Htid).
  pose proof (wf_rows _ Hd _ _ Hr) as Hok. rewrite Hrow in Ha. destruct (start_life _ _ _ _ _ _ Hok Ha) as [[Hst ->]|(Hst & Hle & Hlife & Haid & Hrun & Hsome)].
  - assert (inv d d1) as [Hd1 Hc1].
    { eapply persistAttempt_inv; [split; [exact Hd|apply ops_calm_refl]|exact Hp|]. cbn. rewrite Hr. intros r0 [= <-].
      apply authorizeStart_val in Hau as (_ & _ & Hco & _). rewrite Hrow in Hco. cbn in Hco. assert (am_completed r = None) as Hco' by (by destruct (am_completed r)).
      split_and!; [done| |by intros ->|done]. intros _. apply same_life; cbn; [done|done|apply milli_option|apply milli_option|by left]. }
    assert (inv d d') as [Hd' Hc'] by (by eapply ops_inv_core). split_and!; [done| |apply Hc']. intros tid. by apply calm_counts.
  - destruct (persistAttempt_step _ _ _ _ _ Hd Hp) as [Hd1 Hw]; [cbn; rewrite Haid, Hr; by intros r0 [= <-]|].
    assert (inv d1 d') as [Hd' _] by (eapply ops_inv_core; [exact Hcore|split; [done|apply ops_calm_refl]]). split; [done|]. unfold core in Hcore. injection Hcore as Et Ea. split.
    2: { intros id x x' Hx Hxc. rewrite Ea. apply persistAttempt_val in Hp as (r0 & t0 & _ & _ & Hm). rewrite (mp_attempts _ _ _ _ Hm), Hx. cbn. rewrite Haid. intros [= <-].
         destruct (id =s rq_ID request) eqn:Ei; [|apply final_refl]. apply String.eqb_eq in Ei as ->. assert (x = r) as -> by congruence. by destruct (ro_leased _ Hok Hle). }
    apply authorizeStart_val in Hau as (_ & _ & _ & t & Ht & Hcur & _). apply persistAttempt_val in Hp as (r0 & t0 & Hr0 & Ht0 & Hm). cbn in Hr0, Ht0, Hm.
    rewrite Haid in *. rewrite Hrow in Hcur. cbn in Hcur. assert (t0 = t) as -> by congruence. assert (r0 = r) as -> by congruence.
    assert (tg_state t = "leased") as Hlt. { rewrite <- Hcur in Hr. by apply (target_ok_paired _ _ _ _ (wf_targets _ Hd _ _ Ht) Hr Htid). }
    intros tid. destruct (decide (tid = sa_target item)) as [->|Hne].
    + assert (started_by (sa_target item) d d' <= 1) as Hone.
      { unfold started_by. rewrite Ea. apply (count_where_one _ _ (rq_ID request)). intros k a'. rewrite (mp_attempts _ _ _ _ Hm). intros (a0 & Hk & ->)%fmap_Some.
        destruct (k =s rq_ID request) eqn:Ek; [by apply String.eqb_eq in Ek|]. unfold newly_started. rewrite Hk. destruct (unstarted a0); [by rewrite andb_false_r|]. by rewrite !andb_false_r. }
      assert (waits (sa_target item) d' = 0) as Hz.
      { unfold waits. rewrite Et, (mp_targets _ _ _ _ Hm), Ht. cbn. rewrite String.eqb_refl, Hcur, String.eqb_refl. cbn. by rewrite Hrun. }
      assert (waits (sa_target item) d = 1) as Ho by (unfold waits; by rewrite Ht, (waiting_is t _ Hlt)). lia.
    + assert (started_by tid d d' = 0) as Hz.
      { apply count_where_zero. intros k a'. rewrite Ea, (mp_attempts _ _ _ _ Hm). intros (a0 & Hk & ->)%fmap_Some. unfold newly_started. rewrite Hk.
        destruct (k =s rq_ID request) eqn:Ek; [|destruct (unstarted a0); [by rewrite andb_false_r|by rewrite !andb_false_r]].
        apply String.eqb_eq in Ek as ->. rewrite Hr in Hk. injection Hk as <-. cbn. rewrite (proj2 (String.eqb_neq (am_target r) tid)); [done|]. congruence. }
      rewrite Hz. unfold waits. rewrite Et, (mp_targets _ _ _ _ Hm). rewrite (proj2 (String.eqb_neq tid (sa_target item))) by done. cbn.
      destruct (tb_targets d !! tid) as [x|]; cbn; [|lia]. lia.
Qed.
(** ** Creating *)

(** Targets were added and nothing else. *)
Definition grown (d0 d : Tables) : Prop := wf d /\ tb_attempts d = tb_attempts d0 /\ tb_targets d0 ⊆ tb_targets d.
Lemma grown_core d0 d d' : core d' = core d -> grown d0 d -> grown d0 d'.
Proof.
  intros Hc (Hd & Ha & Ht). assert (inv d d') as [Hd' _] by (eapply ops_inv_core; [exact Hc|split; [done|apply ops_calm_refl]]). unfold core in Hc. injection Hc as Et Ea.
  split_and!; [done|congruence|by rewrite Et].
Qed.
Lemma grown_counts tid d d' : grown d d' -> started_by tid d d' + waits tid d' <= waits tid d + created_by tid d d'.
Proof.
  intros (_ & Ha & Ht). rewrite started_none by (intros id a'; rewrite Ha; eauto). unfold waits, created_by. destruct (tb_targets d !! tid) as [t|] eqn:E.
  - rewrite (lookup_weaken _ _ _ _ E Ht). rewrite bool_decide_false by done. cbn. lia.
  - rewrite bool_decide_true by done. destruct (tb_targets d' !! tid) as [t|]; [|by cbn]. rewrite bool_decide_true by done. destruct (waiting_state t); cbn; lia.
Qed.

Lemma insert_target_grown d0 id t : tg_state t = "queued" -> tg_current t = "" -> preserves (grown d0) (insert_target id t).
Proof.
  intros Hs Hc d u d' (Hd & Ha & Ht). unfold insert_target. destruct (_ || _) eqn:E; [done|]. intros [= _ <-]. apply orb_false_iff in E as [E%bool_decide_eq_false _].
  apply eq_None_not_Some in E. split_and!; [|done|].
  2: { cbn. etrans; [exact Ht|]. by apply insert_subseteq. }
  destruct Hd as [A B C D]. split; cbn; [done|done| |].
  - intros k x [[_ <-]|[_ Hx]]%lookup_insert_Some; [|eauto]. split; [done|by rewrite Hs|]. intros a. by rewrite Hc, B.
  - intros n. etrans; [|apply (D n)]. apply count_where_mono. intros k x [[_ <-]|[_ Hx]]%lookup_insert_Some Hh; [|eauto]. exfalso. revert Hh. unfold holding. by rewrite Hc, andb_false_r.
Qed.
Lemma insert_targets_grown d0 cx task fresh nodes : forall i, preserves (grown d0) (insert_targets cx task fresh i nodes).
Proof.
  induction nodes as [|n nodes IH]; intros i; cbn [insert_targets]; [apply preserves_reads, reads_ret|]. apply preserves_then; [by apply insert_target_grown|intros _; apply IH].
Qed.
Lemma insert_task_grown d0 id k : preserves (grown d0) (insert_task id k).
Proof. intros d u d' Hd. unfold insert_task. destruct (_ || _); [done|]. intros [= _ <-]. by eapply grown_core; [|exact Hd]. Qed.
Lemma audit_grown d0 cx actor action id outcome : preserves (grown d0) (auditEvent cx actor action id outcome).
Proof. intros d u d' Hd Hc%audit_core. by eapply grown_core. Qed.
Lemma persistTask_grown d0 cx fresh c : preserves (grown d0) (persistTask cx fresh c).
Proof.
  unfold persistTask. do 2 (apply preserves_then; [auto with ops|intros ?]). apply preserves_then; [apply insert_task_grown|intros _; apply insert_targets_grown].
Qed.
Lemma createTask_grown d0 cx fresh c : preserves (grown d0) (createTask cx fresh c).
Proof.
  unfold createTask. do 3 (apply preserves_then; [auto with ops|intros ?]). destruct (_ || _); [auto with ops|]. cbv zeta. apply preserves_then; [auto with ops|intros _].
  apply preserves_then; [auto with ops|intros _]. apply preserves_then; [apply persistTask_grown|intros _; apply audit_grown].
Qed.
Lemma CreateTask_grown s commit now id fresh actor input d : wf d -> grown d (CreateTask s commit now id fresh actor input d).2.
Proof.
  intros Hd. assert (grown d d) as Hg by done. unfold CreateTask. destruct (negb _); [done|]. apply write_keeps; [|done]. intros cx.
  apply preserves_then; [auto with ops|intros cx1]. apply preserves_then; [auto with ops|intros o]. destruct o; [auto with ops|].
  apply preserves_then; [apply createTask_grown|auto with ops].
Qed.

(** ** Retrying *)

Lemma retryTarget_val cx actor input d u d' : retryTarget cx actor input d = Ok (u, d') -> exists t k nodeID local digest payload,
  tb_targets d !! ri_TargetID input = Some t /\ tg_task t = ri_TaskID input /\ tb_tasks d !! ri_TaskID input = Some k /\ tg_node t = Some nodeID /\
  str_in (tg_state t) retryStates = true /\ ((tg_state t = "unknown" \/ sn_restore_risk (tk_snapshot k) = true) -> ri_AcknowledgeUnknownRisk input = true) /\
  capability cx nodeID d = Ok ((local, digest), d) /\
  validateDispatch cx (mkDispatch nodeID (ri_TargetID input) (ri_TaskID input) (tk_policy k) (tk_payload k) (tg_current t)) local d = Ok (payload, d) /\
  core d' = (<[ri_TargetID input := target_set "queued" "" (ac_UserID actor) (ri_Reason input) (ms cx) t]> (tb_targets d), tb_attempts d).
Proof.
  unfold retryTarget. intros (o & e1 & [-> ->]%query_val & (row & e2 & [Hrow ->]%require_val & Hx)%andThen_ok)%andThen_ok. destruct row as [t k].
  destruct (tb_targets d !! ri_TargetID input) as [t0|] eqn:Et; [|done]. destruct (tg_task t0 =s ri_TaskID input) eqn:Eq; [|done]. apply String.eqb_eq in Eq.
  apply fmap_Some in Hrow as (k0 & Hk & [= -> ->]). apply andThen_ok in Hx as (nodeID & e1 & [Hn ->]%require_val & Hx). destruct (negb _) eqn:Es; [done|]. apply negb_false_iff in Es.
  destruct (_ && _) eqn:Er; [done|]. apply andThen_ok in Hx as ([local digest] & e1 & Hcap & (payload & e2 & Hv & (u1 & e3 & (t1 & Ht1 & ->)%ops_update_target_val &
    (u2 & e4 & (k1 & Hk1 & ->)%update_task_val & Hau%audit_core)%andThen_ok)%andThen_ok)%andThen_ok).
  pose proof (reads_capability _ _ _ _ _ Hcap) as ->. pose proof (reads_validateDispatch _ _ _ _ _ _ Hv) as ->. cbn [fst] in Hv. rewrite Et in Ht1. injection Ht1 as <-.
  exists t0, k0, nodeID, local, digest, payload. split_and!; try done; [congruence|].
  intros Hr. apply andb_false_iff in Er as [Er|Er%negb_false_iff]; [|done]. apply orb_false_iff in Er as [Er1%String.eqb_neq Er2]. destruct Hr; congruence.
Qed.
Lemma RetryTarget_val s commit now actor input d d' : RetryTarget s commit now actor input d = (Ok tt, d') ->
  validReason (ri_Reason input) = true /\ exists cx u, authorize (mkContext now "") actor false true d = Ok (cx, d) /\ retryTarget cx actor input d = Ok (u, d').
Proof.
  unfold RetryTarget. destruct (validReason _); [cbn|done]. unfold write. destruct (negb _); [done|]. unfold atomicWrite. destruct (andThen (authorize _ _ _ _) _ d) as [[x d2]|e] eqn:E; [|done].
  destruct commit; [|done]. intros [= -> ->]. apply andThen_ok in E as (cx & d1 & Hau & Hx). pose proof (reads_authorize _ _ _ _ _ _ _ Hau) as ->. eauto.
Qed.

Lemma RetryTarget_err s commit now actor input d e d' : RetryTarget s commit now actor input d = (Err e, d') -> d' = d.
Proof.
  unfold RetryTarget. destruct (negb _); [by intros [= _ <-]|]. unfold write. destruct (negb _); [by intros [= _ <-]|]. unfold atomicWrite.
  destruct (andThen _ _ d) as [[x d2]|e1]; [|by intros [= _ <-]]. destruct commit; [done|by intros [= _ <-]].
Qed.

Lemma RetryTarget_step s commit now actor input d : wf d -> let x := RetryTarget s commit now actor input d in
  wf x.2 /\ forall tid, started_by tid d x.2 + waits tid x.2 <= waits tid d + (if is_ok x.1 && (ri_TargetID input =s tid) then 1 else 0).
Proof.
  intros Hd. cbv zeta. destruct (RetryTarget s commit now actor input d) as [[[]|e] d'] eqn:E; cbn [fst snd is_ok].
  2: { apply RetryTarget_err in E as ->. split; [done|]. intros tid. pose proof (calm_counts tid d d (ops_calm_refl d)). cbn. lia. }
  apply RetryTarget_val in E as (_ & cx & u & _ & (t & k & nodeID & local & digest & payload & Ht & _ & _ & _ & Hs & _ & _ & _ & Hcore)%retryTarget_val).
  unfold core in Hcore. injection Hcore as Et Ea. split.
  - destruct Hd as [A B C D]. split; rewrite ?Ea, ?Et; [done|done| |].
    + intros tid x [[<- <-]|[_ Hx]]%lookup_insert_Some; [|eauto]. split; cbn; [done|done|]. intros a. by rewrite B.
    + intros n. etrans; [|apply (D n)]. apply count_where_mono. intros j x [[<- <-]|[_ Hx]]%lookup_insert_Some Hh; [|eauto]. exfalso. revert Hh. unfold holding. cbn. by rewrite andb_false_r.
  - intros tid. rewrite started_none by (intros id a'; rewrite Ea; eauto). cbn [andb]. pose proof (waits_range tid d). pose proof (waits_range tid d').
    destruct (ri_TargetID input =s tid) eqn:Eq; [lia|]. apply String.eqb_neq in Eq. unfold waits. rewrite Et, lookup_insert_ne by done. lia.
Qed.
(** ** Operations that touch neither targets nor attempts *)

Lemma Advertise_inv d0 s commit now token p d : inv d0 d -> inv d0 (Advertise s commit now token p d).2.
Proof.
  intros Hd. unfold Advertise. destruct (negb _); [done|]. apply write_keeps; [|done]. intros cx. apply preserves_then; [auto with ops|intros id]. destruct (_ >? _); [auto with ops|].
  apply preserves_then; [by apply exec_core_inv|auto with ops].
Qed.
Lemma assign_inv d0 {A} (c : A -> Tables -> bool) (f : A -> Tables -> Tables) l : (forall a d, core (f a d) = core d) ->
  preserves (inv d0) (each (fun a d => if c a d then Err ErrUnavailable else Ok (tt, f a d)) l).
Proof. intros Hf. apply preserves_each. intros a d u d' Hd. destruct (c a d); [done|]. intros [= _ <-]. eapply ops_inv_core; [apply Hf|done]. Qed.
Lemma SavePolicy_inv d0 s commit now fresh actor input d : inv d0 d -> inv d0 (SavePolicy s commit now fresh actor input d).2.
Proof.
  intros Hd. unfold SavePolicy. destruct (_ || _); [done|]. apply write_keeps; [|done]. intros cx. apply preserves_then; [auto with ops|intros cx1].
  apply preserves_then; [|auto with ops]. unfold savePolicy, assignPolicy, assign_nodes, assign_groups. do 2 (apply preserves_then; [auto with ops|intros ?]). cbv zeta.
  destruct (_ && _); [auto with ops|]. destruct (negb _); [auto with ops|]. destruct (_ >? _); [auto with ops|]. apply preserves_then; [by apply exec_core_inv|intros _]. apply preserves_then; [|auto with ops].
  do 2 (apply preserves_then; [by apply exec_core_inv|intros _]). apply preserves_then; [|intros _]; by apply assign_inv.
Qed.
Lemma DisablePolicy_inv d0 s commit now actor id d : inv d0 d -> inv d0 (DisablePolicy s commit now actor id d).2.
Proof.
  apply write_keeps. intros cx. do 3 (apply preserves_then; [auto with ops|intros ?]). apply preserves_then; [by apply exec_core_inv|auto with ops].
Qed.
Lemma SaveSnippet_inv d0 s commit now fresh actor input d : inv d0 d -> inv d0 (SaveSnippet s commit now fresh actor input d).2.
Proof.
  intros Hd. unfold SaveSnippet. destruct (_ || _); [done|]. destruct (_ || _); [done|]. apply write_keeps; [|done]. intros cx. apply preserves_then; [auto with ops|intros cx1].
  unfold saveSnippet. apply preserves_then; [auto with ops|intros row]. cbv zeta. destruct (_ && _); [auto with ops|]. destruct (negb _); [auto with ops|].
  do 2 (apply preserves_then; [auto with ops|intros ?]). apply preserves_then; [by apply exec_core_inv|intros _]. apply preserves_then; [|intros _; auto with ops].
  intros d1 u d' Hd1. case_bool_decide; [done|]. intros [= _ <-]. by eapply ops_inv_core; [|exact Hd1].
Qed.
Lemma ApproveSnippet_inv d0 s commit now actor id version d : inv d0 d -> inv d0 (ApproveSnippet s commit now actor id version d).2.
Proof.
  apply write_keeps. intros cx. do 3 (apply preserves_then; [auto with ops|intros ?]). apply preserves_then; [by apply exec_core_inv|auto with ops].
Qed.
Lemma DeleteSnippet_inv d0 s commit now actor id d : inv d0 d -> inv d0 (DeleteSnippet s commit now actor id d).2.
Proof.
  apply write_keeps. intros cx. do 3 (apply preserves_then; [auto with ops|intros ?]). destruct (_ <>s _); [auto with ops|].
  apply preserves_then; [by apply exec_core_inv|auto with ops].
Qed.
Lemma TargetOutput_inv d0 s commit now actor task target d : inv d0 d -> inv d0 (TargetOutput s commit now actor task target d).2.
Proof.
  apply write_keeps. intros cx. apply preserves_then; [auto with ops|intros cx1]. apply preserves_then; [|auto with ops]. apply preserves_reads. unfold targetOutput. read_only.
Qed.
Lemma TaskContent_inv d0 s commit now actor id d : inv d0 d -> inv d0 (TaskContent s commit now actor id d).2.
Proof. apply write_keeps. intros cx. do 5 (apply preserves_then; [auto with ops|intros ?]). auto with ops. Qed.
Lemma ForceDeleteNode_inv d0 s commit now actor id reason ack d : inv d0 d -> inv d0 (ForceDeleteNode s commit now actor id reason ack d).2.
Proof.
  intros Hd. unfold ForceDeleteNode. destruct (_ || _); [done|]. apply operationMutation_keeps; [|done]. intros cx. do 3 (apply preserves_then; [auto with ops|intros ?]).
  do 2 (apply preserves_then; [auto with ops|intros _]). auto with ops.
Qed.

(** ** Runs *)

(** The operations of the service. The last five stand for what else writes these tables:
    other services change administrators, nodes and groups ([OpShared], [OpDeleteNode]);
    the transfer of files keeps its own tables ([OpTransfers]), creates the task of a
    transfer ([OpTransferTask]) and cancels it ([OpTransferStop]). *)
Inductive operation :=
| OpAdvertise (token : string) (p : Policy)
| OpSavePolicy (fresh : uuid) (actor : Actor) (input : PolicyInput)
| OpDisablePolicy (actor : Actor) (id : string)
| OpSaveSnippet (fresh : uuid) (actor : Actor) (input : SnippetInput)
| OpApproveSnippet (actor : Actor) (id : string) (version : Z)
| OpDeleteSnippet (actor : Actor) (id : string)
| OpCreateTask (id : uuid) (fresh : nat -> uuid) (actor : Actor) (input : TaskInput)
| OpLease (nonce : list Z) (aid : uuid) (token digest : string)
| OpStart (request : AttemptRequest)
| OpHeartbeat (request : AttemptRequest)
| OpComplete (request : AttemptRequest) (r : Result)
| OpCancelTask (actor : Actor) (id : string)
| OpRetryTarget (actor : Actor) (input : RetryInput)
| OpTargetOutput (actor : Actor) (task target : string)
| OpTaskContent (actor : Actor) (id : string)
| OpForceDeleteNode (actor : Actor) (id reason : string) (acknowledged : bool)
| OpReconcile
| OpExpire (id : string)
| OpRetain
| OpRestore
| OpShared (sh : Shared)
| OpDeleteNode (id : string)
| OpTransfers (a : gmap string ArtifactRow) (f : gmap string Transfer) (t : gmap string TransferTarget) (c : gmap (string * Z) Chunk)
| OpTransferTask (fresh : nat -> uuid) (c : taskCreation)
| OpTransferStop (actor : Actor) (id : string).

Definition run_operation (s : Service) (commit : bool) (now : Time) (op : operation) (d : Tables) : Tables :=
  match op with
  | OpAdvertise token p => (Advertise s commit now token p d).2
  | OpSavePolicy fresh actor input => (SavePolicy s commit now fresh actor input d).2
  | OpDisablePolicy actor id => (DisablePolicy s commit now actor id d).2
  | OpSaveSnippet fresh actor input => (SaveSnippet s commit now fresh actor input d).2
  | OpApproveSnippet actor id version => (ApproveSnippet s commit now actor id version d).2
  | OpDeleteSnippet actor id => (DeleteSnippet s commit now actor id d).2
  | OpCreateTask id fresh actor input => (CreateTask s commit now id fresh actor input d).2
  | OpLease nonce aid token digest => (LeaseNext s commit now nonce aid token digest d).2
  | OpStart request => (Start s commit now request d).2
  | OpHeartbeat request => (ServiceHeartbeat s commit now request d).2
  | OpComplete request r => (CompleteAttempt s commit now request r d).2
  | OpCancelTask actor id => (CancelTask commit now actor id d).2
  | OpRetryTarget actor input => (RetryTarget s commit now actor input d).2
  | OpTargetOutput actor task target => (TargetOutput s commit now actor task target d).2
  | OpTaskContent actor id => (TaskContent s commit now actor id d).2
  | OpForceDeleteNode actor id reason acknowledged => (ForceDeleteNode s commit now actor id reason acknowledged d).2
  | OpReconcile => (atomicWrite commit now reconcile d).2
  | OpExpire id => (atomicMutation s commit now (fun cx => expireTask cx id) d).2
  | OpRetain => (atomicWrite commit now retainOperations d).2
  | OpRestore => (ReconcileRestore commit now d).2
  | OpShared sh => set_shared sh d
  | OpDeleteNode id => (atomicWrite commit now (fun _ => delete_node id) d).2
  | OpTransfers a f t c => set_chunks c (set_transfers a f t d)
  | OpTransferTask fresh c => (atomicWrite commit now (fun cx => persistTask cx fresh c) d).2
  | OpTransferStop actor id => (atomicWrite commit now (fun cx => cancelTask cx actor id) d).2
  end.

Definition step : Type := Service * bool * Time * operation.
Definition do_step (x : step) (d : Tables) : Tables := run_operation x.1.1.1 x.1.1.2 x.1.2 x.2 d.
Fixpoint run (steps : list step) (d : Tables) : Tables := match steps with [] => d | x :: rest => run rest (do_step x d) end.
Definition empty_tables : Tables := mkTables (mkShared ∅ ∅ ∅ ∅) ∅ ∅ ∅ ∅ ∅ ∅ ∅ ∅ ∅ ∅ ∅ ∅ ∅ [].

(** 1 when the step is a retry of the target that succeeds. *)
Definition retried_by (tid : string) (x : step) (d : Tables) : Z :=
  match x with
  | (s, commit, now, OpRetryTarget actor input) => if is_ok (RetryTarget s commit now actor input d).1 && (ri_TargetID input =s tid) then 1 else 0
  | _ => 0
  end.
Fixpoint total (f : step -> Tables -> Z) (steps : list step) (d : Tables) : Z :=
  match steps with [] => 0 | x :: rest => f x d + total f rest (do_step x d) end.
Definition starts_in (tid : string) : list step -> Tables -> Z := total (fun x d => started_by tid d (do_step x d)).
Definition creations_in (tid : string) : list step -> Tables -> Z := total (fun x d => created_by tid d (do_step x d)).
Definition retries_in (tid : string) : list step -> Tables -> Z := total (retried_by tid).

(** The operations that neither create, start nor retry. *)
Definition quiet (op : operation) : bool :=
  match op with OpCreateTask _ _ _ _ | OpStart _ | OpRetryTarget _ _ | OpTransferTask _ _ => false | _ => true end.
Lemma quiet_inv s commit now op d : wf d -> quiet op = true -> inv d (run_operation s commit now op d).
Proof.
  intros Hd. assert (inv d d) as Hi by (split; [done|apply ops_calm_refl]). destruct op; cbn [run_operation quiet]; intros Hq; try done.
  - by apply Advertise_inv.
  - by apply SavePolicy_inv.
  - by apply DisablePolicy_inv.
  - by apply SaveSnippet_inv.
  - by apply ApproveSnippet_inv.
  - by apply DeleteSnippet_inv.
  - by apply LeaseNext_inv.
  - by apply ServiceHeartbeat_inv.
  - by apply CompleteAttempt_inv.
  - unfold CancelTask. apply atomicWrite_keeps; [|done]. intros cx. apply preserves_then; auto with ops.
  - by apply TargetOutput_inv.
  - by apply TaskContent_inv.
  - by apply ForceDeleteNode_inv.
  - apply atomicWrite_keeps; [|done]. auto with ops.
  - apply atomicMutation_keeps; [|done]. auto with ops.
  - apply atomicWrite_keeps; [|done]. auto with ops.
  - unfold ReconcileRestore. apply atomicWrite_keeps; [|done]. auto with ops.
  - by eapply ops_inv_core; [|exact Hi].
  - apply atomicWrite_keeps; [|done]. auto with ops.
  - by eapply ops_inv_core; [|exact Hi].
  - apply atomicWrite_keeps; [|done]. auto with ops.
Qed.
Lemma TransferTask_grown commit now fresh c d : wf d -> grown d (atomicWrite commit now (fun cx => persistTask cx fresh c) d).2.
Proof. intros Hd. by apply atomicWrite_keeps; [intros cx; apply persistTask_grown|]. Qed.

Lemma step_counts tid x d : wf d -> wf (do_step x d) /\
  started_by tid d (do_step x d) + waits tid (do_step x d) <= waits tid d + created_by tid d (do_step x d) + retried_by tid x d.
Proof.
  intros Hd. destruct x as [[[s commit] now] op]. unfold do_step. cbn [fst snd]. destruct (quiet op) eqn:Eq.
  { destruct (quiet_inv s commit now op d Hd Eq) as [Hd' Hc]. split; [done|]. pose proof (calm_counts tid _ _ Hc). pose proof (created_range tid d (run_operation s commit now op d)).
    destruct op; cbn [retried_by]; try done; lia. }
  destruct op; try done; cbn [run_operation retried_by].
  - pose proof (CreateTask_grown s commit now id fresh actor input d Hd) as Hg. split; [apply Hg|]. etrans; [by apply grown_counts|lia].
  - destruct (Start_step s commit now request d Hd) as (Hd' & Hs & _). split; [done|]. specialize (Hs tid). pose proof (created_range tid d (Start s commit now request d).2). lia.
  - destruct (RetryTarget_step s commit now actor input d Hd) as (Hd' & Hs). split; [done|]. specialize (Hs tid). pose proof (created_range tid d (RetryTarget s commit now actor input d).2).
    cbv zeta in Hs. lia.
  - pose proof (TransferTask_grown commit now fresh c d Hd) as Hg. split; [apply Hg|]. etrans; [by apply grown_counts|lia].
Qed.

(** No step changes a result. *)
Lemma step_final x d id a a' : wf d -> tb_attempts d !! id = Some a -> am_completed a <> None -> tb_attempts (do_step x d) !! id = Some a' -> final a a'.
Proof.
  intros Hd. destruct x as [[[s commit] now] op]. unfold do_step. cbn [fst snd]. destruct (quiet op) eqn:Eq; [by apply (quiet_inv s commit now op d Hd Eq)|].
  assert (forall d', tb_attempts d' = tb_attempts d -> tb_attempts d !! id = Some a -> am_completed a <> None -> tb_attempts d' !! id = Some a' -> final a a') as Hsame.
  { intros d' Hd' Ha _. rewrite Hd', Ha. intros [= <-]. apply final_refl. }
  destruct op; try done; cbn [run_operation].
  - apply Hsame. by apply CreateTask_grown.
  - by apply Start_step.
  - apply Hsame. destruct (RetryTarget s commit now actor input d) as [[[]|e] d'] eqn:E; cbn; [|by apply RetryTarget_err in E as ->].
    apply RetryTarget_val in E as (_ & cx & u & _ & (t & k & nodeID & local & digest & payload & _ & _ & _ & _ & _ & _ & _ & _ & Hcore)%retryTarget_val). by injection Hcore as _ ->.
  - apply Hsame. by apply TransferTask_grown.
Qed.

Lemma ops_run_wf steps : forall d, wf d -> wf (run steps d).
Proof. induction steps as [|x steps IH]; intros d Hd; [done|]. cbn. apply IH. by apply (step_counts ""). Qed.
Lemma ops_empty_wf : wf empty_tables.
Proof.
  split; cbn; [intros id a; by rewrite lookup_empty|done|intros tid t; by rewrite lookup_empty|]. intros n. unfold count_where, rows_where. rewrite map_to_list_empty. done.
Qed.
Lemma run_counts tid steps : forall d, wf d -> starts_in tid steps d + waits tid (run steps d) <= waits tid d + creations_in tid steps d + retries_in tid steps d.
Proof.
  unfold starts_in, creations_in, retries_in. induction steps as [|x steps IH]; intros d Hd; cbn [total run]; [lia|].
  destruct (step_counts tid x d Hd) as [Hd' Hs]. specialize (IH _ Hd'). lia.
Qed.
End steps.
