(* ===== verification/OpsTrace.v ===== *)
(** * Remote operations: where tasks come from

    The sealed request of a task is never changed: every task of a reachable state was
    put there by a step that sealed it, and opening it gives what was submitted. *)

From S2P Require Import Prelude GoText GoNumber GoSha256 GoTable OpsPolicy OpsAttempt OpsModel OpsTasks OpsAttempts OpsInvariant OpsSteps OpsRun OpsCount.

(** ** Tasks that stay *)

(** Only the snapshot, the expiry, the cancellation and the time of change may differ, and
    the mark of a restore is not taken away. *)
Definition at_risk (k : Task) : bool := sn_restore_risk (tk_snapshot k).
Definition same_task (k k' : Task) : Prop :=
  (exists snapshot expires cancel updated, k' = task_set snapshot expires cancel updated k) /\ (at_risk k = true -> at_risk k' = true).
Lemma same_task_refl k : same_task k k.
Proof. split; [|done]. exists (tk_snapshot k), (tk_expires k), (tk_cancel k), (tk_updated k). by destruct k. Qed.
Lemma same_task_trans a b c : same_task a b -> same_task b c -> same_task a c.
Proof. intros [(s & e & x & u & ->) H1] [(s' & e' & x' & u' & ->) H2]. split; [by exists s', e', x', u'|auto]. Qed.

Definition kept (d0 d : Tables) : Prop := forall id k', tb_tasks d !! id = Some k' -> exists k, tb_tasks d0 !! id = Some k /\ same_task k k'.
Lemma ops_kept_refl d : kept d d.
Proof. intros id k Hk. eauto using same_task_refl. Qed.
Lemma kept_same d0 d d' : kept d0 d -> (forall id k', tb_tasks d' !! id = Some k' -> exists k, tb_tasks d !! id = Some k /\ same_task k k') -> kept d0 d'.
Proof. intros Hd Hs id k' Hk. destruct (Hs id k' Hk) as (k & Hk1 & Hs1). destruct (Hd id k Hk1) as (k0 & Hk0 & Hs0). eauto using same_task_trans. Qed.
Lemma kept_eq d0 d d' : kept d0 d -> tb_tasks d' = tb_tasks d -> kept d0 d'.
Proof. intros Hd He id k'. rewrite He. apply Hd. Qed.

Create HintDb tasks discriminated.
#[export] Hint Resolve preserves_then preserves_reads preserves_when preserves_each : tasks.

Section statements.
Context `{OpsExternals}.
Lemma exec_kept d0 f : (forall d, tb_tasks (f d) = tb_tasks d) -> preserves (kept d0) (exec f : tx unit).
Proof. intros Hf d u d' Hd ->%exec_val. by eapply kept_eq. Qed.
Lemma update_attempts_kept d0 c f : preserves (kept d0) (update_attempts c f).
Proof. by apply exec_kept. Qed.
Lemma update_targets_kept d0 c f : preserves (kept d0) (update_targets c f).
Proof. by apply exec_kept. Qed.
Lemma audit_kept d0 cx actor action id outcome : preserves (kept d0) (auditEvent cx actor action id outcome).
Proof. by apply exec_kept. Qed.
Lemma audit_success_kept d0 cx actor action id : preserves (kept d0) (audit cx actor action id).
Proof. apply audit_kept. Qed.
Lemma update_attempt_kept d0 id f : preserves (kept d0) (update_attempt id f).
Proof. intros d u d' Hd (a & _ & ->)%update_attempt_val. by eapply kept_eq. Qed.
Lemma update_target_kept d0 id f : preserves (kept d0) (update_target id f).
Proof. intros d u d' Hd (a & _ & ->)%ops_update_target_val. by eapply kept_eq. Qed.
Lemma insert_attempt_kept d0 id a : preserves (kept d0) (insert_attempt id a).
Proof. intros d u d' Hd [_ ->]%insert_attempt_val. by eapply kept_eq. Qed.
Lemma reads_kept {A} d0 (m : tx A) : reads m -> preserves (kept d0) m.
Proof. apply preserves_reads. Qed.
End statements.
#[export] Hint Resolve update_attempts_kept update_targets_kept audit_kept audit_success_kept update_attempt_kept update_target_kept insert_attempt_kept : tasks.
#[export] Hint Extern 1 (preserves _ (exec _)) => apply exec_kept; intros ?; reflexivity : tasks.
#[export] Hint Extern 3 (reads _) => solve [auto with ops] : tasks.
Ltac kept_cases := repeat match goal with
  | |- preserves _ (match ?x with _ => _ end) => destruct x
  | |- forall _, preserves _ _ => intros ?
  | |- preserves _ (andThen _ _) => apply preserves_then
  | |- preserves _ (let _ := _ in _) => cbv zeta
  end; auto with tasks.

Section operations.
Context `{OpsExternals}.

Lemma reconcile_kept d0 cx : preserves (kept d0) (reconcile cx).
Proof. unfold reconcile. kept_cases. Qed.
Lemma persistAttempt_kept d0 cx item : preserves (kept d0) (persistAttempt cx item).
Proof. unfold persistAttempt, reflectTransferState. kept_cases. Qed.
Lemma persistResult_kept d0 item r : preserves (kept d0) (persistResult item r).
Proof. unfold persistResult. kept_cases. Qed.
Lemma leaseDispatch_kept d0 cx nonce aid digest item payload : preserves (kept d0) (leaseDispatch cx nonce aid digest item payload).
Proof. unfold leaseDispatch. kept_cases. Qed.
Lemma cancelTask_kept d0 cx actor id : preserves (kept d0) (cancelTask cx actor id).
Proof.
  unfold cancelTask. kept_cases. intros d u d' Hd ->%exec_val. eapply kept_same; [exact Hd|]. cbn. intros j k'. destruct (decide (j = id)) as [->|Hne].
  - rewrite lookup_alter_eq. intros (k & Hk & ->)%fmap_Some. eexists. split; [done|]. split; [by eexists _, _, _, _|done].
  - rewrite lookup_alter_ne by done. eauto using same_task_refl.
Qed.
Lemma expireTask_kept d0 cx id : preserves (kept d0) (expireTask cx id).
Proof. unfold expireTask. kept_cases. Qed.
Lemma delete_node_kept d0 id : preserves (kept d0) (delete_node id).
Proof. intros d u d' Hd. unfold delete_node. destruct (node_busy id d); [done|]. intros [= _ <-]. by eapply kept_eq. Qed.
Lemma forceDetachNode_kept d0 cx actor id reason : preserves (kept d0) (forceDetachNode cx actor id reason).
Proof. unfold forceDetachNode. kept_cases. Qed.
Lemma retainOperations_kept d0 cx : preserves (kept d0) (retainOperations cx).
Proof.
  unfold retainOperations, retainTransfers. kept_cases. apply preserves_each. intros id. unfold deleteRetainedTask. kept_cases.
  intros d u d' Hd ->%exec_val. eapply kept_same; [exact Hd|]. cbn. intros j k' [_ Hk]%lookup_delete_Some. eauto using same_task_refl.
Qed.
Lemma reconcileRestored_kept d0 cx : preserves (kept d0) (reconcileRestoredOperations cx).
Proof.
  intros d u d' Hd [_ Ht]%reconcileRestored_val. eapply kept_same; [exact Hd|]. intros j k'. rewrite Ht. intros (k & Hk & ->)%fmap_Some. eexists. split; [done|]. split; [by eexists _, _, _, _|done].
Qed.
Lemma complete_kept d0 cx request r : preserves (kept d0) (complete cx request r).
Proof.
  intros d b d' Hd (item & _ & _ & _ & [(_ & _ & ->)|(_ & _ & a & d1 & d2 & u1 & u2 & _ & _ & _ & _ & Hp1 & Hp2 & Hau)])%complete_val; [done|].
  eapply audit_kept; [|exact Hau]. eapply persistAttempt_kept; [|exact Hp2]. by eapply persistResult_kept.
Qed.
Lemma retryTarget_kept d0 cx actor input : preserves (kept d0) (retryTarget cx actor input).
Proof.
  unfold retryTarget. kept_cases. intros d u d' Hd (k0 & Hk0 & ->)%update_task_val. eapply kept_same; [exact Hd|]. cbn.
  intros j k' [[<- <-]|[_ Hk]]%lookup_insert_Some; [|eauto using same_task_refl]. eexists. split; [done|]. split; [by eexists _, _, _, _|done].
Qed.
End operations.
#[export] Hint Resolve reconcile_kept persistAttempt_kept persistResult_kept leaseDispatch_kept cancelTask_kept expireTask_kept delete_node_kept forceDetachNode_kept
  retainOperations_kept reconcileRestored_kept complete_kept retryTarget_kept : tasks.

(** ** Steps *)

(** The steps that can create a task. *)
Definition creates (op : operation) : bool := match op with OpCreateTask _ _ _ _ | OpTransferTask _ _ => true | _ => false end.

Section runs.
Context `{OpsExternals}.

Lemma LeaseNext_kept d0 s commit now nonce aid token digest d : kept d0 d -> kept d0 (LeaseNext s commit now nonce aid token digest d).2.
Proof.
  apply write_keeps. intros cx. do 2 (apply preserves_then; [auto with tasks|intros ?]). destruct (_ <>s _); [auto with tasks|]. apply preserves_then; [auto with tasks|intros _].
  apply preserves_then; [auto with tasks|intros item]. destruct item as [item|]; [|auto with tasks]. intros d1 l d' Hd.
  destruct (validateDispatch _ _ _ d1) as [[payload d2]|[]] eqn:E; try done; [|by intros [= _ <-]]. pose proof (reads_validateDispatch _ _ _ _ _ _ E) as ->.
  by apply (preserves_then (kept d0)); auto with tasks.
Qed.
Lemma Heartbeat_kept d0 s commit now request d : kept d0 d -> kept d0 (ServiceHeartbeat s commit now request d).2.
Proof. apply atomicWrite_keeps. intros cx. kept_cases. Qed.
Lemma Start_kept d0 s commit now request d : kept d0 d -> kept d0 (Start s commit now request d).2.
Proof. apply write_keeps. intros cx. kept_cases. Qed.
Lemma SavePolicy_kept d0 s commit now fresh actor input d : kept d0 d -> kept d0 (SavePolicy s commit now fresh actor input d).2.
Proof.
  intros Hd. unfold SavePolicy. destruct (_ || _); [done|]. apply write_keeps; [|done]. intros cx. unfold savePolicy, assignPolicy, assign_nodes, assign_groups. kept_cases.
  all: first [by apply exec_kept|apply preserves_each; intros n d1 u d' Hd1; destruct (_ || _); [done|]; intros [= _ <-]; by eapply kept_eq].
Qed.
Lemma SaveSnippet_kept d0 s commit now fresh actor input d : kept d0 d -> kept d0 (SaveSnippet s commit now fresh actor input d).2.
Proof.
  intros Hd. unfold SaveSnippet. destruct (_ || _); [done|]. destruct (_ || _); [done|]. apply write_keeps; [|done]. intros cx. unfold saveSnippet. kept_cases.
  all: first [by apply exec_kept|intros d1 u d' Hd1; case_bool_decide; [done|]; intros [= _ <-]; by eapply kept_eq].
Qed.

Lemma step_kept x d : creates x.2 = false -> kept d (do_step x d).
Proof.
  intros Hc. pose proof (ops_kept_refl d) as Hd. destruct x as [[[s commit] now] op]. unfold do_step. cbn [fst snd] in *. destruct op; try done; cbn [run_operation].
  - unfold Advertise. destruct (negb _); [done|]. apply (write_keeps (kept d)); [|done]. intros cx. kept_cases.
  - by apply SavePolicy_kept.
  - apply (write_keeps (kept d)); [|done]. intros cx. kept_cases.
  - by apply SaveSnippet_kept.
  - apply (write_keeps (kept d)); [|done]. intros cx. kept_cases.
  - apply (write_keeps (kept d)); [|done]. intros cx. kept_cases.
  - by apply LeaseNext_kept.
  - by apply Start_kept.
  - by apply Heartbeat_kept.
  - unfold CompleteAttempt. destruct (negb (sv_queue s)); [done|]. destruct (negb _); [done|].
    pose proof (atomicMutation_keeps (kept d) s commit now (fun cx => same <~ complete cx request r ;;
      when (negb same) (auditEvent cx "" "operation.result.conflict" (rq_ID request) "failure") >>> ret same) d) as Hk.
    destruct (atomicMutation s commit now _ d) as [[[]|e] d']; cbn in *; apply Hk; try done; intros cx; kept_cases.
  - apply (atomicWrite_keeps (kept d)); [|done]. intros cx. kept_cases.
  - unfold RetryTarget. destruct (negb _); [done|]. apply (write_keeps (kept d)); [|done]. intros cx. kept_cases.
  - apply (write_keeps (kept d)); [|done]. intros cx. unfold targetOutput. kept_cases.
  - apply (write_keeps (kept d)); [|done]. intros cx. kept_cases.
  - unfold ForceDeleteNode. destruct (_ || _); [done|]. apply (operationMutation_keeps (kept d)); [|done]. intros cx. kept_cases.
  - apply (atomicWrite_keeps (kept d)); [|done]. intros cx. kept_cases.
  - apply (atomicMutation_keeps (kept d)); [|done]. intros cx. kept_cases.
  - apply (atomicWrite_keeps (kept d)); [|done]. intros cx. kept_cases.
  - apply (atomicWrite_keeps (kept d)); [|done]. intros cx. kept_cases.
  - apply (atomicWrite_keeps (kept d)); [|done]. intros cx. kept_cases.
  - apply (atomicWrite_keeps (kept d)); [|done]. intros cx. kept_cases.
Qed.

(** ** Origins *)

(** The request that is sealed, for a task with [n] targets. *)
Definition submitted (input : TaskInput) (n : Z) : TaskInput := set_limits (set_targets_limit n (ti_Limits (canonical_input input))) (canonical_input input).

(** The row [persistTask] writes. *)
Lemma insert_targets_tasks cx task fresh nodes : forall i d u d', insert_targets cx task fresh i nodes d = Ok (u, d') -> tb_tasks d' = tb_tasks d.
Proof.
  induction nodes as [|n nodes IH]; intros i d u d' Hx; cbn [insert_targets] in Hx; [by apply ret_ok in Hx as [_ ->]|].
  apply andThen_ok in Hx as (u1 & d1 & Hi & Hx). apply IH in Hx as ->. revert Hi. unfold insert_target. destruct (_ || _); [done|]. by intros [= _ <-].
Qed.
Lemma persistTask_row cx fresh c d u d' : persistTask cx fresh c d = Ok (u, d') -> exists sealed digest, Seal (tc_encoded c) (OperationTaskAAD (tc_id c)) = Some sealed /\
  tb_tasks d !! tc_id c = None /\ exists_where (fun _ k' => tk_dedupe k' =s ti_DedupeKey (tc_input c)) (tb_tasks d) = false /\
  tb_tasks d' = <[tc_id c := mkTask (ti_DedupeKey (tc_input c)) digest (Limits_Kind (ti_Limits (tc_input c))) sealed (ti_PolicyID (tc_input c))
    (mkSnapshot (tc_policy c) (ti_ShellFamily (tc_input c)) (Limits_RunAsRoot (ti_Limits (tc_input c))) false) (ac_UserID (tc_actor c))
    (Limits_TimeoutSeconds (ti_Limits (tc_input c))) (Limits_OutputBytes (ti_Limits (tc_input c)))
    (UnixMilli (Prelude.Add (cx_now cx) (QueueHours (RetentionLimits (tc_policy c)) * Hour))) false (ms cx) (ms cx)]> (tb_tasks d).
Proof.
  unfold persistTask. cbv zeta. intros (sealed & e1 & [Hs ->]%require_val & (digest & e2 & [_ ->]%require_val & (u1 & d1 & Hi & Ht%insert_targets_tasks)%andThen_ok)%andThen_ok)%andThen_ok.
  exists sealed, digest. revert Hi. unfold insert_task. destruct (_ || _) eqn:E; [done|]. intros [= _ <-]. apply orb_false_iff in E as [E%bool_decide_eq_false%eq_None_not_Some E2]. done.
Qed.

(** A creation that succeeds found the task or wrote it. *)
Lemma CreateTask_val s commit now id fresh actor input d tid d' : CreateTask s commit now id fresh actor input d = (Ok tid, d') ->
  validTask input = true /\ sv_enabled s = true /\ exists cx, authorize (mkContext now "") actor false true d = Ok (cx, d) /\ cx_now cx = now /\
  let c := mkCreation actor (canonical_input input) (task_json (canonical_input input)) id (mkPolicy None [] false [] 0 0 0 0 0 false false []) [] in
  (existingTask c d = Ok (Some tid, d) /\ d' = d) \/
  (existingTask c d = Ok (None, d) /\ tid = uuid_text id /\ exists p nodes u d1, policy (ti_PolicyID input) d = Ok (p, d) /\
     persistTask cx fresh (mkCreation actor (submitted input (llen nodes)) (task_json (submitted input (llen nodes))) id p nodes) d = Ok (u, d1) /\ tb_tasks d' = tb_tasks d1 /\ tb_shared d' = tb_shared d1).
Proof.
  unfold CreateTask, write. destruct (validTask input); [cbn [negb]|done]. destruct (sv_enabled s); [cbn [negb]|done]. unfold atomicWrite.
  destruct (andThen (authorize _ _ _ _) _ d) as [[x d2]|e] eqn:E; [|done]. destruct commit; [|done]. intros [= -> ->]. split_and!; [done|done|].
  apply andThen_ok in E as (cx & d1 & Hau & E). pose proof (reads_authorize _ _ _ _ _ _ _ Hau) as ->. exists cx. split; [done|]. split.
  { revert Hau. unfold authorize. intros (row & d1 & [-> ->]%query_val & Hx)%andThen_ok. cbv zeta in Hx. destruct (session_live _ _ _) as [[us se]|]; [|done].
    destruct (_ && _); [done|]. destruct (_ && _); [done|]. by apply ret_ok in Hx as [-> _]. }
  cbv zeta. apply andThen_ok in E as (dup & d1 & Hex & E). pose proof (reads_existingTask _ _ _ _ Hex) as ->. destruct dup as [existing|].
  { left. apply ret_ok in E as [-> ->]. done. }
  right. split; [done|]. apply andThen_ok in E as (u & d1 & Hc & [-> ->]%ret_ok). split; [done|]. unfold createTask in Hc. cbn [tc_input tc_actor tc_encoded tc_id] in Hc.
  apply andThen_ok in Hc as (u1 & d2 & ->%reads_validateTaskSnippet & (p & d3 & Hp & Hc)%andThen_ok). pose proof (reads_policy _ _ _ _ Hp) as ->.
  apply andThen_ok in Hc as (nodes & d2 & ->%reads_resolveTargets & Hc). destruct (_ || _); [done|]. cbv zeta in Hc. cbn [tc_input tc_actor tc_encoded tc_id] in Hc.
  apply andThen_ok in Hc as (u2 & d2 & Hea & (u3 & d3 & ->%reads_activeTaskQuota & (u4 & d4 & Hpt & ->%exec_val)%andThen_ok)%andThen_ok).
  assert (d2 = d) as ->. { eapply reads_each; [|exact Hea]. intros n. apply reads_authorizeTarget. } exists p, nodes, u4, d4. done.
Qed.

Lemma CreateTask_committed s commit now id fresh actor input d tid d' : CreateTask s commit now id fresh actor input d = (Ok tid, d') -> commit = true.
Proof.
  unfold CreateTask, write, atomicWrite. destruct (negb (validTask input)); [done|]. destruct (negb (sv_enabled s)); [done|]. destruct (andThen _ _ d) as [[]|]; [|done]. by destruct commit.
Qed.
Lemma CreateTask_failed s commit now id fresh actor input d e d' : CreateTask s commit now id fresh actor input d = (Err e, d') -> d' = d.
Proof.
  unfold CreateTask, write, atomicWrite. destruct (negb (validTask input)); [by intros [= _ <-]|]. destruct (negb (sv_enabled s)); [by intros [= _ <-]|].
  destruct (andThen _ _ d) as [[]|]; [|by intros [= _ <-]]. destruct commit; [done|by intros [= _ <-]].
Qed.

(** Who put a task there, and what was sealed. *)
Inductive task_origin (steps : list step) (id : string) (k : Task) : Prop :=
| from_request before s now uid fresh actor input after cx n
    (split : steps = before ++ (s, true, now, OpCreateTask uid fresh actor input) :: after)
    (identity : uuid_text uid = id)
    (valid : validTask input = true)
    (authority : authorize (mkContext now "") actor false true (run before empty_tables) = Ok (cx, run before empty_tables))
    (sealed : Seal (task_json (submitted input n)) (OperationTaskAAD id) = Some (tk_payload k))
    (kind : tk_kind k = Limits_Kind (ti_Limits input))
    (owner : tk_actor k = ac_UserID actor)
| from_transfer before s now fresh c after
    (split : steps = before ++ (s, true, now, OpTransferTask fresh c) :: after)
    (identity : tc_id c = id)
    (sealed : Seal (tc_encoded c) (OperationTaskAAD id) = Some (tk_payload k)).

Lemma task_origin_snoc steps x id k : task_origin steps id k -> task_origin (steps ++ [x]) id k.
Proof.
  intros [before s now uid fresh actor input after cx n -> Hi Hv Ha Hs Hk Ho|before s now fresh c after -> Hi Hs].
  - eapply from_request; [rewrite <- app_assoc; reflexivity|done..].
  - eapply from_transfer; [rewrite <- app_assoc; reflexivity|done..].
Qed.
Lemma task_origin_same steps id k k' : same_task k k' -> task_origin steps id k -> task_origin steps id k'.
Proof.
  intros [(sn & ex & ca & up & ->) _] [before s now uid fresh actor input after cx n -> Hi Hv Ha Hs Hk Ho|before s now fresh c after -> Hi Hs].
  - by eapply from_request.
  - by eapply from_transfer.
Qed.

Lemma ops_run_snoc steps x : forall d, run (steps ++ [x]) d = do_step x (run steps d).
Proof. induction steps as [|y steps IH]; intros d; [done|]. cbn. apply IH. Qed.

Lemma run_origin steps : forall id k, tb_tasks (run steps empty_tables) !! id = Some k -> task_origin steps id k.
Proof.
  induction steps as [|[[[s commit] now] op] steps IH] using rev_ind; intros id k Hk; [cbn in Hk; by rewrite lookup_empty in Hk|]. rewrite ops_run_snoc in Hk.
  set (d := run steps empty_tables) in *. destruct (creates op) eqn:Ec.
  2: { destruct (step_kept (s, commit, now, op) d Ec id k Hk) as (k0 & Hk0 & Hs). apply task_origin_snoc. eapply task_origin_same; [exact Hs|]. by apply IH. }
  unfold do_step in Hk. cbn [fst snd] in Hk. destruct op; try done; cbn [run_operation] in Hk.
  - destruct (CreateTask s commit now id0 fresh actor input d) as [[tid|e] d'] eqn:E; cbn in Hk.
    + pose proof (CreateTask_committed _ _ _ _ _ _ _ _ _ _ E) as ->.
      apply CreateTask_val in E as (Hv & _ & cx & Hau & _ & [[_ ->]|(_ & -> & p & nodes & u & d1 & _ & Hp & Ht & _)]); [apply task_origin_snoc; by apply IH|].
      apply persistTask_row in Hp as (sealed & digest & Hs & _ & _ & Hrow). cbn in Hs, Hrow. rewrite Ht, Hrow in Hk. apply lookup_insert_Some in Hk as [[<- <-]|[_ Hk]].
      * by eapply from_request.
      * apply task_origin_snoc. by apply IH.
    + apply CreateTask_failed in E as ->. apply task_origin_snoc. by apply IH.
  - unfold atomicWrite in Hk. destruct (persistTask _ fresh c d) as [[u d1]|e] eqn:E; [|apply task_origin_snoc; by apply IH]. destruct commit; [|apply task_origin_snoc; by apply IH].
    cbn in Hk. apply persistTask_row in E as (sealed & digest & Hs & _ & _ & Hrow). rewrite Hrow in Hk. apply lookup_insert_Some in Hk as [[<- <-]|[_ Hk]].
    + by eapply from_transfer.
    + apply task_origin_snoc. by apply IH.
Qed.

(** ** Restored tasks *)

(** A step leaves a task that is there and keeps being there the same task. *)
Lemma step_same x d id k k' : tb_tasks d !! id = Some k -> tb_tasks (do_step x d) !! id = Some k' -> same_task k k'.
Proof.
  intros Hk Hk'. destruct (creates x.2) eqn:Ec; [|destruct (step_kept x d Ec id k' Hk') as (k0 & Hk0 & Hs); by simplify_eq].
  destruct x as [[[s commit] now] op]. unfold do_step in Hk'. cbn [fst snd] in *.
  assert (forall cx fresh c u d1, persistTask cx fresh c d = Ok (u, d1) -> tb_tasks d1 !! id = Some k' -> same_task k k') as Hrow.
  { intros cx fresh c u d1 (sealed & digest & _ & Hnone & _ & ->)%persistTask_row [[<- _]|[_ Hx]]%lookup_insert_Some; [congruence|]. simplify_eq. apply same_task_refl. }
  assert (tb_tasks d !! id = Some k' -> same_task k k') as Hsame by (intros Hx; simplify_eq; apply same_task_refl).
  destruct op; try done; cbn [run_operation] in Hk'.
  - destruct (CreateTask s commit now id0 fresh actor input d) as [[tid|e] d'] eqn:E; cbn in Hk'; [|apply CreateTask_failed in E as ->; auto].
    apply CreateTask_val in E as (_ & _ & cx & _ & _ & [[_ ->]|(_ & _ & p & nodes & u & d1 & _ & Hp & Ht & _)]); [auto|]. rewrite Ht in Hk'. by eapply Hrow.
  - unfold atomicWrite in Hk'. destruct (persistTask _ fresh c d) as [[u d1]|e] eqn:E; [|auto]. destruct commit; [|auto]. by eapply Hrow.
Qed.

(** A task that is at risk stays so while it is there. *)
Lemma risk_stays after d id k : (forall k0, tb_tasks d !! id = Some k0 -> at_risk k0 = true) ->
  (forall before rest, after = before ++ rest -> is_Some (tb_tasks (run before d) !! id)) -> tb_tasks (run after d) !! id = Some k -> at_risk k = true.
Proof.
  intros Hd. revert k. induction after as [|x after IH] using rev_ind; intros k Hthere Hk; [by apply Hd|]. rewrite ops_run_snoc in Hk.
  destruct (Hthere after [x] eq_refl) as [k0 Hk0]. destruct (step_same _ _ _ _ _ Hk0 Hk) as [_ Hr]. apply Hr. apply IH; [|done].
  intros before rest ->. apply (Hthere before (rest ++ [x])). by rewrite app_assoc.
Qed.
End runs.
