(* ===== verification/OpsSample.v ===== *)
(** * Remote operations: a concrete service

    Externals that satisfy the laws of [OpsExternals], and a run from the first policy to
    the result of a command on two nodes. *)

From S2P Require Import Prelude GoText GoNumber GoSha256 GoTable OpsPolicy OpsAttempt OpsModel OpsTasks OpsAttempts OpsInvariant OpsSteps OpsRun OpsCount.

(** ** Externals *)

(** A sequence of fields, each after its length. *)
Definition pack (fields : list (list Z)) : list Z := concat (map (fun f => llen f :: f) fields).
Fixpoint unpack (fuel : nat) (l : list Z) : list (list Z) :=
  match fuel, l with
  | S fuel, n :: rest => take (Z.to_nat n) rest :: unpack fuel (drop (Z.to_nat n) rest)
  | _, _ => []
  end.
Definition unpacked (l : list Z) : list (list Z) := unpack (length l) l.
Lemma unpack_pack fields : forall fuel, (length fields <= fuel)%nat -> unpack fuel (pack fields) = fields.
Proof.
  induction fields as [|f fields IH]; intros [|fuel] Hf; cbn in Hf; try lia; [done..|]. cbn. unfold llen. rewrite Nat2Z.id, take_app_length, drop_app_length.
  f_equal. apply IH. lia.
Qed.
Lemma pack_length fields : (length fields <= length (pack fields))%nat.
Proof. induction fields as [|f fields IH]; [done|]. unfold pack in *. cbn [map concat length app]. rewrite length_app. lia. Qed.
Lemma unpacked_pack fields : unpacked (pack fields) = fields.
Proof. apply unpack_pack, pack_length. Qed.

Definition bool_field (b : bool) : list Z := [if b then 1 else 0].
Definition of_bool (l : list Z) : bool := bool_decide (l = [1]).
Definition texts_field (o : option (list string)) : list Z := match o with Some l => 1 :: pack (map bytes l) | None => [] end.
Definition of_texts (l : list Z) : option (list string) := match l with _ :: rest => Some (map of_bytes (unpacked rest)) | [] => None end.
Definition file_field (o : option FileSpec) : list Z :=
  match o with
  | Some f => 1 :: pack [bytes (RootID f); bytes (RelativePath f); [Size f]; bytes (Digest f); [Mode f]; bool_field (Overwrite f); bytes (ArtifactID f)]
  | None => []
  end.
Definition of_file (l : list Z) : option FileSpec :=
  match l with
  | _ :: rest =>
      match unpacked rest with
      | [a; b; [c]; d; [e]; f; g] => Some (mkFileSpec (of_bytes a) (of_bytes b) c (of_bytes d) e (of_bool f) (of_bytes g))
      | _ => None
      end
  | [] => None
  end.
Definition sample_task_json (t : TaskInput) : list Z :=
  pack [file_field (ti_File t); bytes (ti_ShellFamily t); bytes (ti_SnippetID t); [ti_SnippetVersion t]; bytes (ti_DedupeKey t); bytes (ti_PolicyID t);
    ti_Command t; texts_field (ti_NodeIDs t); texts_field (ti_GroupIDs t); bytes (Limits_Kind (ti_Limits t)); [Limits_Targets (ti_Limits t)];
    [Limits_TimeoutSeconds (ti_Limits t)]; [Limits_OutputBytes (ti_Limits t)]; bool_field (Limits_RunAsRoot (ti_Limits t))].
Definition sample_task_of_json (l : list Z) : option TaskInput :=
  match unpacked l with
  | [f; sh; si; [sv]; de; po; co; no; gr; ki; [ta]; [ti]; [ou]; ro] =>
      Some (mkTaskInput (of_file f) (of_bytes sh) (of_bytes si) sv (of_bytes de) (of_bytes po) co (of_texts no) (of_texts gr)
        (mkLimits (of_bytes ki) ta ti ou (of_bool ro)))
  | _ => None
  end.

Lemma of_bool_field b : of_bool (bool_field b) = b.
Proof. by destruct b. Qed.
Lemma of_texts_field o : of_texts (texts_field o) = o.
Proof.
  destruct o as [l|]; [|done]. cbn. rewrite unpacked_pack, map_map. f_equal. rewrite <- (map_id l) at 2. apply map_ext. intros s. apply of_bytes_bytes.
Qed.
Lemma of_file_field o : of_file (file_field o) = o.
Proof. destruct o as [f|]; [|done]. unfold of_file, file_field. rewrite unpacked_pack, !of_bytes_bytes, of_bool_field. by destruct f. Qed.
Lemma sample_task_roundtrip t : sample_task_of_json (sample_task_json t) = Some t.
Proof.
  unfold sample_task_of_json, sample_task_json. rewrite unpacked_pack, !of_bytes_bytes, of_bool_field, !of_texts_field, of_file_field. by destruct t as [? ? ? ? ? ? ? ? ? []].
Qed.

(** The associated data in front of the content. *)
Definition tag (aad : ResourceAAD) : list Z := Sum256 (pack (map bytes [Namespace aad; RowID aad; Field aad; Revision aad])).
Definition sample_open (sealed : list Z) (aad : ResourceAAD) : option (list Z) :=
  if bool_decide (take 32 sealed = tag aad) then Some (drop 32 sealed) else None.
Lemma sample_open_seal plain aad sealed : Some (tag aad ++ plain) = Some sealed -> sample_open sealed aad = Some plain.
Proof.
  intros Hs. apply Some_inj in Hs as <-. assert (length (tag aad) = 32%nat) as Hl by apply length_Sum256. unfold sample_open. rewrite take_app_length' by done.
  rewrite drop_app_length' by done. by rewrite bool_decide_true.
Qed.

Definition sample_externals : OpsExternals := {|
  Seal := fun plain aad => Some (tag aad ++ plain); Open := sample_open; OperationFingerprint := fun c => Some (EncodeHex (Sum256 c));
  task_json := sample_task_json; task_of_json := sample_task_of_json;
  policy_json := fun p => pack [bool_field (Enabled p); [Concurrency p]; [MaximumTargets p]; [TimeoutSeconds p]];
  well_formed_token := fun token => token <>s "";
  Open_Seal := sample_open_seal; task_of_task_json := fun t _ => sample_task_roundtrip t |}.
#[export] Existing Instance sample_externals.

(** ** A run *)

Definition instant (n : Z) : Time := unixEpoch + n * Second.
Definition id_of (s : string) (some : (s =s "") = false) : uuid := mkUuid s some.
Definition admin : Actor := mkActor "session" "user".
Definition agent_node (token : string) (group : option string) : Node := mkNode "a node" group (Sum256 (bytes token)) (Some (instant 0)) None.
Definition shared_rows : Shared := mkShared {["user" := mkUser "root" "owner" true]}
  {["session" := mkSession "user" "" (Some (instant 100000)) None (instant 100000) (instant 100000)]}
  {["n1" := agent_node "token-1" None; "n2" := agent_node "token-2" (Some "g")]} {["g"]}.
Definition service : Service := mkService true None true.
Definition shell_policy (targets : Z) : Policy := mkPolicy None ["sh"] true ["shell"; "snippet"] targets 10 2 60 4096 false false [].
Definition policy_input (version targets : Z) : PolicyInput := mkPolicyInput "policy" "commands" version (shell_policy targets) ["n1"] ["g"].
Definition command (dedupe : string) (nodes : list string) (groups : list string) : TaskInput :=
  mkTaskInput None "" "" 0 dedupe "policy" (bytes "uptime") (Some nodes) (Some groups) (mkLimits "shell" 0 30 1024 false).
Definition digest_of (p : Policy) : string := EncodeHex (Sum256 (policy_json p)).
Definition nonce_of (b : Z) : list Z := repeat b 32.
Definition attempt_of (token id : string) (b : Z) : AttemptRequest := mkAttemptRequest token id (EncodeHex (nonce_of b)).
Definition answer (text : string) : Result := mkResult "" 0 71000 75000 (len text) 0 (EncodeHex (Sum256 (bytes text))) (EncodeHex (Sum256 [])) "succeeded" 0 (Some (bytes text)) (Some []) false.
Definition at_ (n : Z) (op : operation) : step := (service, true, instant n, op).
Definition target_ids (prefix : string) (k : nat) : uuid := id_of (String (if Nat.eqb k 0 then "0" else "1")%char prefix) eq_refl.

(** The owner writes a policy, both agents say what they accept, a command is submitted
    for both nodes. *)
Definition submitted_steps : list step := [
  at_ 60 (OpShared shared_rows); at_ 61 (OpSavePolicy (id_of "u" eq_refl) admin (policy_input 0 5));
  at_ 62 (OpAdvertise "token-1" (shell_policy 5)); at_ 63 (OpAdvertise "token-2" (shell_policy 5));
  at_ 64 (OpCreateTask (id_of "task" eq_refl) (target_ids "t") admin (command "first" ["n1"] ["g"]))].
Definition lease_1 : operation := OpLease (nonce_of 7) (id_of "a1" eq_refl) "token-1" (digest_of (shell_policy 5)).
Definition leased_steps : list step := submitted_steps ++ [at_ 65 lease_1].
Definition started_steps : list step := leased_steps ++ [at_ 66 (OpStart (attempt_of "token-1" "a1" 7))].
Definition completed_steps : list step := started_steps ++ [at_ 70 (OpHeartbeat (attempt_of "token-1" "a1" 7)); at_ 75 (OpComplete (attempt_of "token-1" "a1" 7) (answer "up 3 days"))].

Definition state_of (id : string) (d : Tables) : option (string * string) := (fun t => (tg_state t, tg_current t)) <$> tb_targets d !! id.
Example sample_submitted : let d := run submitted_steps empty_tables in state_of "0t" d = Some ("queued", "") /\ state_of "1t" d = Some ("queued", "").
Proof. vm_compute. auto. Qed.
Example sample_command_leased : let d := run leased_steps empty_tables in state_of "0t" d = Some ("leased", "a1") /\ state_of "1t" d = Some ("queued", "").
Proof. vm_compute. auto. Qed.
Example sample_command_started : state_of "0t" (run started_steps empty_tables) = Some ("running", "a1").
Proof. vm_compute. auto. Qed.
Example sample_command_completed : state_of "0t" (run completed_steps empty_tables) = Some ("succeeded", "a1").
Proof. vm_compute. auto. Qed.
