(* ===== verification/OpsSafety.v ===== *)
(** * Remote operations: what agents execute

    Properties of any run of the service: the invariant, how often a command is started,
    what a lease and a start were checked against, results, restores and repeated
    requests. *)

From S2P Require Import Prelude GoText GoNumber GoSha256 GoTable OpsPolicy OpsAttempt OpsModel OpsTasks OpsAttempts OpsInvariant OpsSteps OpsRun OpsCount OpsTrace OpsSample.

(** ** Tables a reconciliation leaves *)

Record same_authority (d d' : Tables) : Prop := {
  sm_shared : tb_shared d' = tb_shared d; sm_policies : tb_policies d' = tb_policies d; sm_nodes : tb_policy_nodes d' = tb_policy_nodes d;
  sm_groups : tb_policy_groups d' = tb_policy_groups d; sm_tasks : tb_tasks d' = tb_tasks d }.
Lemma reconcile_frame cx d u d' : reconcile cx d = Ok (u, d') -> same_authority d d'.
Proof.
  unfold reconcile. intros (? & d1 & H1 & (? & d2 & H2 & (? & d3 & H3 & H4)%andThen_ok)%andThen_ok)%andThen_ok.
  injection H1 as _ <-. injection H2 as _ <-. injection H3 as _ <-. injection H4 as _ <-. split; reflexivity.
Qed.
Lemma same_scope p n d d' : same_authority d d' -> in_scope p n d' = in_scope p n d.
Proof. intros [A B C D E]. unfold in_scope, tb_nodes. by rewrite A, C, D. Qed.
Lemma scope_val p n d u d' : scope p n d = Ok (u, d') -> in_scope p n d = true /\ exists r, tb_nodes d !! n = Some r /\ nd_revoked r = None.
Proof.
  unfold scope. intros (good & d1 & [-> ->]%query_val & Hx)%andThen_ok. destruct (tb_nodes d !! n) as [r|]; [|done]. destruct (_ && _) eqn:E; [|done].
  rewrite !andb_true_iff, !bool_decide_eq_true in E. destruct E as [[_ E] Es]. eauto.
Qed.

Section safety.
Context `{OpsExternals}.

(** What both policies and the state of the task allow: [payload] for this node now, when
    the node may have fewer than the allowed number of other commands. *)
Record admitted (now : Time) (d : Tables) (nodeID : string) (local : Policy) (task : string) (k : Task) (payload : TaskInput) : Prop := {
  ad_task : tb_tasks d !! task = Some k;
  ad_live : tk_cancel k = false /\ UnixMilli now < tk_expires k;
  ad_node : exists r, tb_nodes d !! nodeID = Some r /\ nd_revoked r = None;
  ad_scope : in_scope (tk_policy k) nodeID d = true;
  ad_policy : exists r, tb_policies d !! tk_policy k = Some r /\ pl_enabled r = true /\
    (commandKind (Limits_Kind (ti_Limits payload)) = true -> AuthorizeShell (pl_configuration r) local (ti_ShellFamily payload) = nil_err) /\
    Authorize (pl_configuration r) local (set_targets_limit (target_count task d) (ti_Limits payload)) = nil_err /\
    (forall f, ti_File payload = Some f -> AuthorizeFile (pl_configuration r) local (mkFileRequest (Limits_Kind (ti_Limits payload)) f) = nil_err);
  ad_payload : exists plain, Open (tk_payload k) (OperationTaskAAD task) = Some plain /\ task_of_json plain = Some payload }.

Lemma validated_admitted now item local d payload k : validateDispatch (mkContext now "") item local d = Ok (payload, d) ->
  tb_tasks d !! dp_task item = Some k -> dp_policy item = tk_policy k -> dp_payload item = tk_payload k -> tk_cancel k = false -> UnixMilli now < tk_expires k ->
  admitted now d (dp_node item) local (dp_task item) k payload /\ busy_count (dp_node item) (dp_ignore item) d < Concurrency local.
Proof.
  intros (_ & plain & p & Hop & Hj & Hp & Hsc & Hsh & Hau & Hf & Hb)%validateDispatch_val Hk Ep El Hc He.
  apply policy_valid in Hp as (_ & _ & _ & r & Hr & Hen & <-). apply scope_val in Hsc as [Hin Hnode]. rewrite Ep in *. split; [|lia]. split; try done.
  - exists r. split_and!; try done. intros f Hfile. by apply Hf.
  - exists plain. by rewrite <- El.
Qed.

Lemma admitted_frame now d d' nodeID local task k payload : same_authority d d' -> (forall task, target_count task d' = target_count task d) ->
  admitted now d' nodeID local task k payload -> admitted now d nodeID local task k payload.
Proof.
  intros Hs Hc [A B C D E F]. pose proof Hs as [S1 S2 S3 S4 S5]. split; [by rewrite <- S5|done| | | |done].
  - unfold tb_nodes in *. by rewrite <- S1.
  - by rewrite <- (same_scope _ _ _ _ Hs).
  - by rewrite <- Hc, <- S2.
Qed.
Lemma mapped_count fa ft d d' task : mapped fa ft d d' -> (forall k t, tg_task (ft k t) = tg_task t) -> target_count task d' = target_count task d.
Proof.
  intros [_ Hm] Ht. unfold target_count. apply Z.le_antisymm; apply count_where_mono; intros k v Hv Hc.
  - rewrite Hm in Hv. apply fmap_Some in Hv as (x & Hx & ->). rewrite Ht in Hc. eauto.
  - exists (ft k v). by rewrite Hm, Hv, Ht.
Qed.

(** ** Facts the theorems share *)

Lemma operations_wf steps : wf (run steps empty_tables).
Proof. apply ops_run_wf, ops_empty_wf. Qed.
Lemma authenticated_nonce a p : Authenticate a p = Ok tt -> exists nonce, DecodeHex (Proof_Nonce p) = Some nonce /\ Sum256 nonce = NonceHash a.
Proof.
  unfold Authenticate. destruct (_ || _); [done|]. destruct (DecodeHex _) as [nonce|]; [|done]. destruct (negb _) eqn:E; [done|]. intros _. exists nonce. split; [done|].
  apply negb_false_iff, Z.eqb_eq in E. unfold ConstantTimeCompare in E. by case_bool_decide.
Qed.
Lemma start_in_time a p b : Attempt_Start a p = (b, Ok tt) -> StartedAt a = None -> Proof_Now p < LeaseExpiresAt a.
Proof.
  unfold Attempt_Start. destruct (Authenticate a p); [|done]. intros Hx Hs. rewrite Hs in Hx. cbn in Hx. destruct (_ || _) eqn:E; [done|].
  apply orb_false_iff in E as [_ E%negb_false_iff%Z.ltb_lt]. done.
Qed.

(** ** The invariant and the number of starts *)

(** C13. After any run of the service from empty tables, with any failures, agents and
    administrators: a target that waits has no attempt, a leased target has a leased attempt
    of its own that was not started, a target is not free while its attempt may be
    executing, an attempt with a result is in a state of results, and no node holds more
    than four targets at once. *)
Theorem operations_invariant steps : wf (run steps empty_tables).
Proof. apply operations_wf. Qed.

(** C9. In any run a command is started on a target at most once for its creation and once
    for each retry an administrator asked for: no sequence of leases, expiries, lost
    answers, restarts, cancellations, restores or failed commits makes an agent start it
    once more. *)
Theorem command_started_once tid steps :
  starts_in tid steps empty_tables <= creations_in tid steps empty_tables + retries_in tid steps empty_tables.
Proof.
  pose proof (run_counts tid steps empty_tables ops_empty_wf) as Hr. pose proof (waits_range tid (run steps empty_tables)). change (waits tid empty_tables) with 0 in Hr. lia.
Qed.

(** ** Leases *)

(** C10. What an agent is handed was allowed when it was handed out: the token is that of a
    node that was not revoked, the node said within the last five minutes that it accepts
    this, the task is neither cancelled nor expired, its policy is enabled and covers the
    node, both the policy and the agent's own authorize the request, and with it the node
    has no more commands than the agent accepts. The lease is kept under the hash of its
    nonce. *)
Theorem lease_authorized steps s now nonce aid token digest l d'
    (Hlease : LeaseNext s true now nonce aid token digest (run steps empty_tables) = (Ok (Some l), d')) :
  let d := run steps empty_tables in
  exists nodeID local task k payload a t,
    node token d = Ok (nodeID, d) /\ capability (mkContext now "") nodeID d = Ok ((local, digest), d) /\
    admitted now d nodeID local task k payload /\ ls_Payload l = public_payload payload /\
    tb_attempts d' !! ls_AttemptID l = Some a /\ am_state a = "leased" /\ am_nonce a = Sum256 nonce /\ am_capability a = digest /\
    tb_targets d' !! am_target a = Some t /\ tg_task t = task /\ tg_node t = Some nodeID /\ tg_current t = ls_AttemptID l /\
    count_where (fun _ t => holding nodeID t) (tb_targets d') <= Concurrency local.
Proof.
  apply LeaseNext_val in Hlease as (_ & nodeID & local & d1 & u & item & t & k & payload & Hn & Hcap & Hrec & Ht & Hdi & Hk & Hitem & Hv & _ & -> & ->). cbv zeta.
  apply dispatchable_val in Hdi as (Hnode & _ & k0 & c & p & Hk0 & _ & _ & Hcancel & Hexp & _). assert (k0 = k) as -> by congruence.
  destruct (validated_admitted now item local d1 payload k Hv) as [Had Hbusy]; [by rewrite Hitem|by rewrite Hitem|by rewrite Hitem|done|done|].
  rewrite Hitem in Had, Hbusy. cbn in Had, Hbusy. exists nodeID, local, (tg_task t), k, payload. eexists _, _. split_and!; [done|done| |done|apply lookup_insert_eq|done|done|done|apply lookup_insert_eq|done|done|done|].
  - eapply admitted_frame; [by eapply reconcile_frame| |exact Had]. intros task. eapply mapped_count; [by eapply reconcile_val|].
    intros j x. unfold silenced, requeued. by repeat case_match.
  - cbn. etrans; [apply count_where_insert|]. change (busy_count nodeID "" d1) with (count_where (fun _ t => holding nodeID t) (tb_targets d1)) in Hbusy. lia.
Qed.

(** C11. What an agent is handed is what somebody with the right to it submitted: the task
    was created by a step of the run in which an administrator with a live session and a
    recent confirmation submitted exactly this command, shell, snippet and limits (when its
    texts are UTF-8), or it is the task of a file transfer. *)
Theorem leased_command_submitted steps s now nonce aid token digest l d'
    (Hlease : LeaseNext s true now nonce aid token digest (run steps empty_tables) = (Ok (Some l), d')) :
  (exists before s' now' uid fresh actor input after cx n,
     steps = before ++ (s', true, now', OpCreateTask uid fresh actor input) :: after /\ validTask input = true /\
     authorize (mkContext now' "") actor false true (run before empty_tables) = Ok (cx, run before empty_tables) /\
     (forallb ValidString (task_texts (submitted input n)) = true -> ls_Payload l = public_payload (submitted input n))) \/
  (exists before s' now' fresh c after payload,
     steps = before ++ (s', true, now', OpTransferTask fresh c) :: after /\ task_of_json (tc_encoded c) = Some payload /\ ls_Payload l = public_payload payload).
Proof.
  apply LeaseNext_val in Hlease as (_ & nodeID & local & d1 & u & item & t & k & payload & _ & _ & Hrec & _ & _ & Hk & Hitem & Hv & _ & -> & _).
  apply validateDispatch_val in Hv as (_ & plain & p & Hop & Hj & _). rewrite Hitem in Hop. cbn in Hop. apply reconcile_frame in Hrec as [_ _ _ _ Ht]. rewrite Ht in Hk.
  destruct (run_origin steps _ _ Hk) as [before s' now' uid fresh actor input after cx n Hs Hid Hvalid Hau Hseal _ _|before s' now' fresh c after Hs Hid Hseal]; apply Open_Seal in Hseal.
  - left. exists before, s', now', uid, fresh, actor, input, after, cx, n. split_and!; [done..|]. intros Htexts%task_of_task_json. cbn. congruence.
  - right. exists before, s', now', fresh, c, after, payload. split_and!; [done|congruence|done].
Qed.

(** C12. The first start of an attempt checks everything again at its own instant: the
    nonce is the one of the lease, the lease has not expired, the attempt is still the one
    of its target, the agent's own policy is the one the lease was given for, and the task,
    its policy and the node are as a lease demands. Then, and only then, the target runs. *)
Theorem start_authorized steps s now request d' a
    (Hstart : Start s true now request (run steps empty_tables) = (Ok tt, d'))
    (Ha : tb_attempts (run steps empty_tables) !! rq_ID request = Some a) (Hnew : am_started a = None) :
  let d := run steps empty_tables in
  exists nodeID local nonce t k payload,
    node (rq_Token request) d = Ok (nodeID, d) /\ DecodeHex (rq_Nonce request) = Some nonce /\ Sum256 nonce = am_nonce a /\
    am_state a = "leased" /\ now < FromMilli (am_lease a) /\ capability (mkContext now "") nodeID d = Ok ((local, am_capability a), d) /\
    tb_targets d !! am_target a = Some t /\ tg_current t = rq_ID request /\ tg_state t = "leased" /\ tg_node t = Some nodeID /\
    admitted now d nodeID local (tg_task t) k payload /\
    tg_state <$> tb_targets d' !! am_target a = Some "running" /\ (tb_attempts d' !! rq_ID request ≫= am_started) = Some (UnixMilli now).
Proof.
  pose proof (operations_wf steps) as Hd. apply Start_val in Hstart as (item & u & d1 & Hl & Hau & Hcore & b & Hb & u1 & Hp).
  pose proof Hl as (_ & nodeID & a0 & t & k & Hn & Ha0 & Ht & Hk & Hnode & Hitem)%loadAttempt_val. rewrite Ha in Ha0. injection Ha0 as <-. rewrite Hitem in Hau, Hb, Hp.
  cbn [sa_attempt] in Hb. pose proof (wf_rows _ Hd _ _ Ha) as Hok. pose proof Hb as Hb'. destruct (start_life _ _ _ _ _ _ Hok Hb) as [[? _]|(_ & Hle & _ & Hid & Hrun & Hsome)]; [done|].
  apply authorizeStart_val in Hau as (_ & Hauth & _ & t0 & Ht0 & Hcur & Hrest). cbn in Ht0, Hcur, Hrest. rewrite Hnew in Hrest. destruct Hrest as (k0 & local & digest & r & payload & Hk0 & Hc & He & Hcap & Hr & Hdig & Hv); [done|].
  rewrite Ht in Ht0. injection Ht0 as <-. rewrite Hk in Hk0. injection Hk0 as <-. rewrite Ha in Hr. injection Hr as <-.
  destruct (authenticated_nonce _ _ Hauth) as (nonce & Hdec & Hsum). cbv zeta. exists nodeID, local, nonce, t, k, payload. split_and!; try done.
  - apply (start_in_time _ _ _ Hb). cbn. by rewrite Hnew.
  - by rewrite Hdig.
  - rewrite <- Hcur in Ha. by apply (target_ok_paired _ _ _ _ (wf_targets _ Hd _ _ Ht) Ha eq_refl).
  - by destruct (validated_admitted _ _ _ _ _ k Hv Hk eq_refl eq_refl Hc He).
  - apply persistAttempt_val in Hp as (r0 & t1 & _ & _ & Hm). injection Hcore as Et _. rewrite Et, (mp_targets _ _ _ _ Hm). cbn. rewrite Ht. cbn. rewrite String.eqb_refl, Hid, Hcur, String.eqb_refl. cbn. by rewrite Hrun.
  - apply persistAttempt_val in Hp as (r0 & t1 & _ & _ & Hm). injection Hcore as _ Ea. rewrite Ea, (mp_attempts _ _ _ _ Hm). cbn. rewrite Ha. cbn. rewrite Hid, String.eqb_refl. cbn. by rewrite Hsome.
Qed.

(** ** Results *)

(** A result is for good: whatever step follows in a run, an attempt that has a result
    keeps its state, its times, its digest and its metadata, and its output is what was
    stored or has been erased. *)
Theorem results_final steps x id a a'
    (Ha : tb_attempts (run steps empty_tables) !! id = Some a) (Hover : am_completed a <> None)
    (Ha' : tb_attempts (run (steps ++ [x]) empty_tables) !! id = Some a') :
  final a a'.
Proof. rewrite ops_run_snoc in Ha'. by eapply step_final; [apply operations_wf|..]. Qed.

(** The columns a result fills. *)
Record recorded (id : string) (r : Result) (a : AttemptRow) : Prop := {
  rc_stdout : Open (default [] (am_stdout a)) (OperationOutputAAD id "stdout") = Some (content (Stdout r));
  rc_stderr : Open (default [] (am_stderr a)) (OperationOutputAAD id "stderr") = Some (content (Stderr r));
  rc_result : exists m, am_result a = Some m /\ Marshal m = Marshal (metadata r) }.
Definition same_answer (r r' : Result) : bool :=
  bool_decide (content (Stdout r) = content (Stdout r')) && bool_decide (content (Stderr r) = content (Stderr r')) && bool_decide (Marshal (metadata r') = Marshal (metadata r)).

Lemma sameResult_spec item r d a r0 : tb_attempts d !! Attempt_ID (sa_attempt item) = Some a -> recorded (Attempt_ID (sa_attempt item)) r0 a ->
  sameResult item r d = Ok (same_answer r0 r, d).
Proof.
  intros Ha [Ho He (m & Hm & HM)]. unfold sameResult, andThen, query, require, ret, same_answer. rewrite Ha, Ho, He, Hm, HM.
  destruct (bool_decide (content (Stdout r0) = _)), (bool_decide (content (Stderr r0) = _)); done.
Qed.
Lemma sameResult_true item r d d' : sameResult item r d = Ok (true, d') -> exists a, tb_attempts d !! Attempt_ID (sa_attempt item) = Some a /\ recorded (Attempt_ID (sa_attempt item)) r a.
Proof.
  unfold sameResult. intros (o & e1 & [-> ->]%query_val & (a & e2 & [Ha ->]%require_val & (out & e3 & [Ho ->]%require_val & (errs & e4 & [He ->]%require_val & Hx)%andThen_ok)%andThen_ok)%andThen_ok)%andThen_ok.
  exists a. split; [done|]. destruct (_ || _) eqn:E; [done|]. rewrite orb_false_iff, !negb_false_iff, !bool_decide_eq_true in E. destruct E as [-> ->].
  apply ret_ok in Hx as [Hx _]. split; [done|done|]. destruct (am_result a) as [m|]; [|done]. symmetry in Hx. apply bool_decide_eq_true in Hx. eauto.
Qed.

Lemma persistAttempt_frame cx item d u d' : persistAttempt cx item d = Ok (u, d') -> same_authority d d'.
Proof.
  unfold persistAttempt. intros (u1 & d1 & (r & _ & ->)%update_attempt_val & (o & e1 & [-> ->]%query_val & (t & e2 & [_ ->]%require_val & Hx)%andThen_ok)%andThen_ok)%andThen_ok.
  destruct (_ <>s _); [by apply ret_ok in Hx as [_ ->]|]. apply andThen_ok in Hx as (u2 & d2 & (t1 & _ & ->)%ops_update_target_val & Hr).
  unfold reflectTransferState in Hr. apply andThen_ok in Hr as (u3 & d3 & ->%exec_val & ->%exec_val). split; reflexivity.
Qed.
Lemma persistResult_recorded item r d u d' : persistResult item r d = Ok (u, d') -> exists a out errs digest, tb_attempts d !! Attempt_ID (sa_attempt item) = Some a /\
  d' = set_attempts (<[Attempt_ID (sa_attempt item) := attempt_result (Some out) (Some errs) digest (Some (metadata r)) false a]> (tb_attempts d)) d /\
  Open out (OperationOutputAAD (Attempt_ID (sa_attempt item)) "stdout") = Some (content (Stdout r)) /\
  Open errs (OperationOutputAAD (Attempt_ID (sa_attempt item)) "stderr") = Some (content (Stderr r)).
Proof.
  unfold persistResult. intros (out & e1 & [Ho%Open_Seal ->]%require_val & (errs & e2 & [He%Open_Seal ->]%require_val & (dg & e3 & [_ ->]%require_val & Hx)%andThen_ok)%andThen_ok)%andThen_ok.
  apply update_attempt_val in Hx as (a & Ha & ->). exists a, out, errs, dg. done.
Qed.

(** What can be loaded is what was loaded, when only the row of the attempt changed. *)
Lemma loadAttempt_again request d d' nodeID a a' t t' k : same_authority d d' -> node (rq_Token request) d = Ok (nodeID, d) -> tb_attempts d' !! rq_ID request = Some a' ->
  am_target a' = am_target a -> tb_targets d' !! am_target a = Some t' -> tg_task t' = tg_task t -> tg_node t' = Some nodeID -> tb_tasks d !! tg_task t = Some k ->
  loadAttempt request d' = Ok (mkStored (am_restored a') (tk_kind k) (of_row (rq_ID request) nodeID a') (am_target a) (tg_task t) (tk_output k), d').
Proof.
  intros [S1 _ _ _ S5] Hn Ha Hat Ht Htk Htn Hk. unfold loadAttempt, andThen. assert (node (rq_Token request) d' = Ok (nodeID, d')) as ->.
  { revert Hn. unfold node. destruct (negb _); [done|]. unfold andThen, query, require. unfold token_node, tb_nodes. rewrite S1. destruct (fst <$> _); [|done]. by intros [= ->]. }
  unfold query, attempt_row. rewrite Ha, Hat, Ht, Htk, S5, Hk. rewrite bool_decide_true by done. cbn. by rewrite Htk, Hat.
Qed.

(** After a completion the attempt can be loaded with the result that is recorded. *)
Lemma complete_recorded cx request r d d' : complete cx request r d = Ok (true, d') -> exists item a, loadAttempt request d' = Ok (item, d') /\
  (forall now, Authenticate (sa_attempt item) (proof_of (mkContext now "") item request) = Ok tt) /\ Result_Validate r (sa_output item) = Ok tt /\
  isSome (CompletedAt (sa_attempt item)) = true /\ Attempt_ID (sa_attempt item) = rq_ID request /\ tb_attempts d' !! rq_ID request = Some a /\ recorded (rq_ID request) r a.
Proof.
  intros (item & Hl & Hau & Hv & Hcase)%complete_val. destruct (loaded_row _ _ _ Hl) as (Hid & _). destruct Hcase as [(Hc & Hs & ->)|(Hc & _ & b & d1 & d2 & u1 & u2 & Hb & Hbc & Hbs & Hbst & Hp1 & Hp2 & Hp3)].
  { apply sameResult_true in Hs as (a & Ha & Hrec). rewrite Hid in *. exists item, a. split_and!; try done. by apply isSome_spec. }
  apply loadAttempt_val in Hl as (_ & nodeID & a & t & k & Hn & Ha & Ht & Hk & Htn & Hitem). rewrite Hitem in *. cbn in Hb, Hau, Hv, Hc.
  apply persistResult_recorded in Hp1 as (a0 & out & errs & digest & Ha0 & -> & Ho & He). cbn in Ha0, Ho, He. rewrite Hb in *. cbn in Ha0, Ho, He. rewrite Ha in Ha0. injection Ha0 as <-.
  pose proof (persistAttempt_frame _ _ _ _ _ Hp2) as Hf. apply persistAttempt_val in Hp2 as (r0 & t0 & _ & _ & Hm). apply exec_val in Hp3 as ->.
  assert (tb_attempts d2 !! rq_ID request = Some (lived b (attempt_result (Some out) (Some errs) digest (Some (metadata r)) false a))) as Ha2.
  { rewrite (mp_attempts _ _ _ _ Hm). cbn. rewrite Hb, lookup_insert_eq. cbn. by rewrite String.eqb_refl. }
  pose proof (mp_targets _ _ _ _ Hm (am_target a)) as Ht2. cbn in Ht2. rewrite Ht in Ht2. cbn in Ht2.
  eexists _, _. split_and!; [eapply (loadAttempt_again request d _ nodeID a)|..]; [|exact Hn|exact Ha2|done|exact Ht2| | |exact Hk|..].
  - destruct Hf as [F1 F2 F3 F4 F5]. split; done.
  - by destruct (_ && _).
  - by destruct (_ && _).
  - intros now. cbn. revert Hau. unfold Authenticate. cbn. done.
  - done.
  - cbn. by rewrite Hbc.
  - done.
  - exact Ha2.
  - split; [done|done|]. cbn. eauto.
Qed.

(** A result that was accepted can be sent again, with its answer lost: the second time
    it is accepted and nothing changes. Another result for the attempt is not accepted, and
    whatever is sent, no target and no attempt changes. *)
Theorem completion_repeatable s now request r d d1 (Hdone : CompleteAttempt s true now request r d = (Ok tt, d1)) now' r' :
  CompleteAttempt s true now' request r d1 = (Ok tt, d1) /\
  core (CompleteAttempt s true now' request r' d1).2 = core d1 /\
  (is_ok (CompleteAttempt s true now' request r' d1).1 = true -> same_answer r r' = true).
Proof.
  unfold CompleteAttempt in Hdone. destruct (negb (sv_queue s)) eqn:Eq; [done|]. destruct (negb (is_ok (Result_Validate r MaximumOutputBytes))) eqn:Ev; [done|].
  unfold atomicMutation, atomicWrite in Hdone. rewrite Eq in Hdone. destruct (andThen (complete _ request r) _ d) as [[b d2]|e] eqn:E; [|done]. destruct b; [|done]. injection Hdone as ->.
  apply andThen_ok in E as (same & d2 & Hc & (u & d3 & Hw & [Hb ->]%ret_ok)%andThen_ok). subst same. apply ret_ok in Hw as [_ ->].
  apply complete_recorded in Hc as (item & a & Hl & Hau & Hv & Hco & Hid & Ha & Hrec).
  assert (forall r2, Result_Validate r2 (sa_output item) = Ok tt -> complete (mkContext now' "") request r2 d2 = Ok (same_answer r r2, d2)) as Hagain.
  { intros r2 Hv2. unfold complete, andThen. rewrite Hl. cbv beta iota zeta. rewrite Hau. cbn [lift]. rewrite Hv2. cbn [lift]. rewrite Hco. apply (sameResult_spec _ _ _ a); by rewrite Hid. }
  assert (same_answer r r = true) as Hself by (unfold same_answer; by rewrite !bool_decide_true).
  unfold CompleteAttempt. rewrite Eq, Ev. unfold atomicMutation, atomicWrite. rewrite Eq. split.
  - unfold andThen at 1. rewrite (Hagain r Hv), Hself. reflexivity.
  - destruct (negb (is_ok (Result_Validate r' _))); [done|]. destruct (Result_Validate r' (sa_output item)) as [[]|e] eqn:Ev'.
    + unfold andThen at 1 3. rewrite (Hagain r' Ev'). destruct (same_answer r r'); done.
    + assert (complete (mkContext now' "") request r' d2 = Err e) as Herr.
      { unfold complete, andThen. rewrite Hl. cbv beta iota zeta. rewrite Hau. cbn [lift]. rewrite Ev'. done. }
      unfold andThen at 1 3. by rewrite Herr.
Qed.

(** ** Restores *)

Definition restored (now : Time) (d : Tables) : Tables := (ReconcileRestore true now d).2.
Lemma restored_run now d : reconcileRestoredOperations (mkContext now "") d = Ok (tt, restored now d).
Proof. reflexivity. Qed.
Lemma restored_wf now d : wf d -> wf (restored now d).
Proof. intros Hd. by apply (reconcileRestored_inv d _ _ _ _ (conj Hd (ops_calm_refl d)) (restored_run now d)). Qed.
Lemma restored_waits now d tid : waits tid (restored now d) = 0.
Proof.
  destruct (reconcileRestored_val _ _ _ _ (restored_run now d)) as [Hm _]. unfold waits. rewrite (mp_targets _ _ _ _ Hm). destruct (tb_targets d !! tid) as [t|]; [|done]. cbn [fmap option_fmap option_map].
  destruct (active t) eqn:E; [done|]. destruct (waiting_state t) eqn:Ew; [|done]. apply waiting_cases in Ew as [Ew|Ew]; unfold active in E; by rewrite Ew in E.
Qed.
(** The task of an open attempt that is the current one of its target is cancelled. *)
Lemma restored_cancelled now d id a t k : wf d -> tb_attempts (restored now d) !! id = Some a -> am_started a <> None -> am_completed a = None ->
  tb_targets (restored now d) !! am_target a = Some t -> tg_current t = id -> tb_tasks (restored now d) !! tg_task t = Some k -> tk_cancel k = true.
Proof.
  intros Hd Ha Hs Hc Ht Hcur Hk. destruct (reconcileRestored_val _ _ _ _ (restored_run now d)) as [Hm Htasks]. rewrite (mp_attempts _ _ _ _ Hm) in Ha. rewrite (mp_targets _ _ _ _ Hm) in Ht.
  apply fmap_Some in Ha as (a0 & Ha0 & Ea). apply fmap_Some in Ht as (t0 & Ht0 & Et).
  assert (am_target a = am_target a0 /\ am_started a = am_started a0 /\ am_completed a = am_completed a0) as (E1 & E2 & E3) by (subst a; by destruct (_ && _)).
  assert (tg_task t = tg_task t0 /\ tg_current t = tg_current t0) as (F1 & F2) by (subst t; by destruct (active t0)).
  rewrite E1 in Ht0. rewrite E2 in Hs. rewrite E3 in Hc. rewrite F2 in Hcur. rewrite F1, Htasks in Hk. apply fmap_Some in Hk as (k0 & _ & ->). cbn. apply orb_true_iff. left.
  apply exists_where_spec. exists (am_target a0), t0. split; [done|]. rewrite String.eqb_refl. apply busy_active. rewrite <- Hcur in Ha0.
  destruct (target_ok_paired _ _ _ _ (wf_targets _ Hd _ _ Ht0) Ha0 eq_refl) as (_ & _ & Hb). apply Hb. unfold busy_attempt. rewrite (bool_decide_true _ Hc).
  pose proof (ro_open _ (wf_rows _ Hd _ _ Ha0) Hs Hc) as Ho. apply str_in_spec in Ho. apply str_in_spec. by right.
Qed.
Lemma runningPolicy_stopped cx item d t k : tb_targets d !! sa_target item = Some t -> tb_tasks d !! sa_task item = Some k ->
  tg_current t <> Attempt_ID (sa_attempt item) \/ tk_cancel k = true -> runningPolicy cx item d = Ok (false, d).
Proof.
  intros Ht Hk Hor. unfold runningPolicy, andThen, query, require, ret. rewrite Hk, Ht. cbv zeta.
  assert ((tg_current t <>s Attempt_ID (sa_attempt item)) || tk_cancel k = true) as ->; [|done].
  destruct Hor as [Hne|Hc]; [apply String.eqb_neq in Hne; by rewrite Hne|]. rewrite Hc. apply orb_true_r.
Qed.

(** C14. After the restore of a backup nothing that was under way goes on by itself. In
    whatever follows, a target is started only as often as it is created or retried after
    the restore, and a retry of a target whose task was restored, and has been there since,
    is accepted only when the administrator has acknowledged that the command may have run.
    A heartbeat that is accepted on the restored tables, before anything else changes them,
    tells the agent to stop. *)
Theorem restore_holds steps now after tid s' now' request actor input :
  let d := restored now (run steps empty_tables) in
  starts_in tid after d <= creations_in tid after d + retries_in tid after d
  /\ ((forall before rest, after = before ++ rest -> is_Some (tb_tasks (run before d) !! ri_TaskID input)) ->
      implb (is_ok (RetryTarget s' true now' actor input (run after d)).1) (ri_AcknowledgeUnknownRisk input) = true)
  /\ (ServiceHeartbeat s' true now' request d).1 <> Ok false.
Proof.
  pose proof (operations_wf steps) as Hd. set (d0 := run steps empty_tables) in *. intros d. split_and!.
  - pose proof (run_counts tid after d (restored_wf now _ Hd)) as Hr. pose proof (waits_range tid (run after d)). pose proof (restored_waits now d0 tid : waits tid d = 0). lia.
  - intros Hthere. destruct (RetryTarget s' true now' actor input (run after d)) as [[[]|e] d'] eqn:E; [|done]. cbn.
    apply RetryTarget_val in E as (_ & cx & u & _ & (t & k & nodeID & local & digest & payload & _ & _ & Hk & _ & _ & Hack & _)%retryTarget_val). apply Hack. right.
    eapply (risk_stays after d); [|exact Hthere|exact Hk]. intros k0 Hk0. destruct (reconcileRestored_val _ _ _ _ (restored_run now d0)) as [_ Htasks]. unfold d in Hk0.
    rewrite Htasks in Hk0. by apply fmap_Some in Hk0 as (k1 & _ & ->).
  - unfold ServiceHeartbeat, atomicWrite. destruct (andThen (loadAttempt request) _ d) as [[b d2]|e] eqn:E; [|done]. cbn. intros [= ->].
    apply andThen_ok in E as (item & d3 & Hl & Hx). pose proof (reads_loadAttempt _ _ _ _ Hl) as ->. apply loadAttempt_val in Hl as (_ & nodeID & a & t & k & _ & Ha & Ht & Hk & _ & Hitem).
    cbv zeta in Hx. destruct (_ && _ && _). { by apply andThen_ok in Hx as (u1 & e1 & _ & (u2 & e2 & _ & [? _]%ret_ok)%andThen_ok). }
    apply andThen_ok in Hx as (c & d3 & [Hh ->]%lift_ok & (ok & d3 & Hrun & Hx)%andThen_ok). destruct (Heartbeat _ _) as [b c'] eqn:Eh. cbn in Hh. subst c'. rewrite Hitem in Eh. cbn in Eh.
    destruct (heartbeat_life _ _ _ _ _ _ (wf_rows _ (restored_wf now _ Hd) _ _ Ha) Eh) as (_ & _ & [Hs Hc] & Hid & _). cbn [fst] in Hrun, Hx.
    rewrite (runningPolicy_stopped _ _ d t k) in Hrun.
    + injection Hrun as <- <-. cbn [negb orb] in Hx. by apply andThen_ok in Hx as (u & d4 & _ & [? _]%ret_ok).
    + by rewrite Hitem.
    + by rewrite Hitem.
    + cbn. rewrite Hid. destruct (decide (tg_current t = rq_ID request)) as [Hcur|?]; [right|by left]. by eapply restored_cancelled.
Qed.

(** ** Repeated requests *)

Lemma rows_where_single {V} (c : string -> V -> bool) (m : gmap string V) id v : m !! id = Some v -> c id v = true ->
  (forall k x, m !! k = Some x -> c k x = true -> k = id) -> rows_where c m = [(id, v)].
Proof.
  intros Hv Hc Hu. pose proof (NoDup_rows_where c m) as Hn. assert (forall kv, kv ∈ rows_where c m <-> kv = (id, v)) as Hin.
  { intros [k x]. rewrite elem_of_rows_where. split; [intros [Hk Hx]; pose proof (Hu k x Hk Hx) as ->; congruence|by intros [= -> ->]]. }
  apply Permutation_singleton_r. apply NoDup_Permutation; [done|apply NoDup_singleton|]. intros kv. by rewrite Hin, list_elem_of_singleton.
Qed.
Lemma task_texts_canonical input n : task_texts (submitted input n) = task_texts (canonical_input input).
Proof. reflexivity. Qed.
Lemma submitted_canonical input n : set_limits (set_targets_limit 0 (ti_Limits (submitted input n))) (submitted input n) = canonical_input input.
Proof. reflexivity. Qed.

(** A request that is sent again creates nothing: once a task was accepted, the same
    request of the same administrator gives the same task, whatever identifiers would be
    drawn, and changes nothing. *)
Theorem task_created_once s now id fresh actor input d tid d1 (Hfirst : CreateTask s true now id fresh actor input d = (Ok tid, d1))
    (Htexts : forallb ValidString (task_texts (canonical_input input)) = true) now' id' fresh' cx
    (Hauthority : authorize (mkContext now' "") actor false true d1 = Ok (cx, d1)) :
  CreateTask s true now' id' fresh' actor input d1 = (Ok tid, d1).
Proof.
  apply CreateTask_val in Hfirst as (Hv & Hen & cx0 & _ & _ & Hcase). unfold CreateTask, write, atomicWrite. rewrite Hv, Hen. cbn [negb]. unfold andThen at 1. rewrite Hauthority.
  set (c' := mkCreation actor _ _ (uuid_text id') _ _). assert (existingTask c' d1 = Ok (Some tid, d1)) as Hex; [|unfold andThen at 1; by rewrite Hex].
  cbv zeta in Hcase. destruct Hcase as [(Hex & ->)|(_ & -> & p & nodes & u & d2 & _ & Hp & Ht & _)]; [exact Hex|].
  apply persistTask_row in Hp as (sealed & digest & Hs & Hfresh & Hnone & Hrow). cbn in Hs, Hfresh, Hnone, Hrow. apply Open_Seal in Hs.
  unfold existingTask, andThen at 1, query. rewrite Ht, Hrow. cbn [tc_input c' ti_DedupeKey canonical_input]. rewrite (rows_where_single _ _ (uuid_text id) _ (lookup_insert_eq _ _ _)).
  - cbn [head tk_actor tc_actor c']. rewrite String.eqb_refl. cbn [negb]. unfold andThen, require. cbn [tk_payload]. rewrite Hs. cbn [ret].
    rewrite task_of_task_json by (by rewrite task_texts_canonical). cbn [ret]. rewrite submitted_canonical. cbn [tc_encoded c']. by rewrite bool_decide_true.
  - cbn. apply String.eqb_refl.
  - intros k x [[<- _]|[Hne Hx]]%lookup_insert_Some Hc; [done|]. cbn in Hc. pose proof (exists_where_false _ _ _ _ Hnone Hx) as Hf. cbn in Hf. congruence.
Qed.
End safety.

(** ** The filter of the queue *)

Lemma find_root_unique seen roots id r : validate_roots_loop seen roots = nil_err -> r ∈ roots -> Root_ID r = id -> find_root roots id = Some r /\ id ∉ seen.
Proof.
  revert seen. induction roots as [|x roots IH]; intros seen Hv Hin Hid; [by apply not_elem_of_nil in Hin|]. cbn [validate_roots_loop] in Hv. destruct (_ || _); [done|].
  destruct (_ || _) eqn:E; [done|]. rewrite !orb_false_iff, bool_decide_eq_false in E. destruct E as [[[_ E] _] _]. cbn. apply elem_of_cons in Hin as [->|Hin].
  - rewrite Hid, String.eqb_refl. split; [done|]. by rewrite <- Hid.
  - destruct (IH _ Hv Hin Hid) as [Hf Hs]. rewrite (proj2 (String.eqb_neq (Root_ID x) id)) by set_solver. split; [done|set_solver].
Qed.
Lemma ValidateFile_mode file : ValidateFile file = nil_err -> Mode file = 384 \/ Mode file = 448.
Proof. unfold ValidateFile. destruct (_ || _) eqn:E; [done|]. intros _. rewrite !orb_false_iff in E. destruct E as [_ E]. lia. Qed.

(** The columns of a transfer are those of the file of its task. *)
Record describes (f : Transfer) (file : FileSpec) : Prop := {
  ds_root : tf_root f = RootID file; ds_size : tf_size f = Size file; ds_mode : tf_mode f = Mode file; ds_overwrite : tf_overwrite f = Overwrite file }.

Lemma root_admits_spec kind f file p : Policy_Validate p = nil_err -> Enabled p = true -> str_in kind (Kinds p) = true -> fileKind kind = true -> describes f file ->
  Mode file = 384 \/ Mode file = 448 -> root_admits kind f p = true <-> authorize_file_in p (mkFileRequest kind file) = nil_err.
Proof.
  intros Hv He Hk Hf [D1 D2 D3 D4] Hm. unfold root_admits, authorize_file_in, operationRoot. cbn [Direction File]. rewrite He, Hk, (proj2 (is_ok_check _) Hv), D1, D2, D3, D4. cbn [negb orb].
  set (grant := fun r : Root => (Size file <=? Root_MaximumBytes r) && ((kind =s "collect") && Root_Read r
    || (kind =s "deploy") && Root_Write r && (negb (Overwrite file) || Root_Overwrite r) && ((Mode file =? 384) || Root_Executable r))).
  assert (forall r, (if Size file >? Root_MaximumBytes r then Err ErrForbidden else
      if (kind =s "deploy") && (negb (Root_Write r) || Overwrite file && negb (Root_Overwrite r) || (Mode file =? 448) && negb (Root_Executable r)) then Err ErrForbidden else
      if (kind =s "collect") && negb (Root_Read r) then Err ErrForbidden else nil_err) = nil_err <-> grant r = true) as Hgrant.
  { intros r. unfold grant. rewrite Z.gtb_ltb, Z.ltb_antisym. destruct (Size file <=? Root_MaximumBytes r); cbn [negb andb]; [|done].
    unfold fileKind in Hf. apply orb_true_iff in Hf as [Hf|Hf]; apply String.eqb_eq in Hf as ->; cbn [String.eqb Ascii.eqb Bool.eqb andb orb].
    - destruct Hm as [->| ->]; cbn; destruct (Root_Write r), (Overwrite file), (Root_Overwrite r), (Root_Executable r); done.
    - cbn. by destruct (Root_Read r). }
  split.
  - intros (r & Hin & Hr)%existsb_exists. rewrite <- !andb_assoc, andb_true_iff, String.eqb_eq in Hr. destruct Hr as [Hid Hr].
    apply Policy_Validate_roots in Hv. destruct (find_root_unique _ _ _ r Hv (proj2 (list_elem_of_In _ _) Hin) Hid) as [-> _]. apply Hgrant. unfold grant. by rewrite <- !andb_assoc.
  - destruct (find_root (Roots p) (RootID file)) as [r|] eqn:Er; [|done]. intros Hr%Hgrant. apply find_root_elem in Er as [Hin Hid]. apply existsb_exists. exists r.
    split; [by apply list_elem_of_In|]. rewrite Hid, String.eqb_refl, andb_true_l. exact Hr.
Qed.

(** The request the columns of a task and its snapshot describe. *)
Definition task_limits (k : Task) (targets : Z) : Limits := mkLimits (tk_kind k) targets (tk_timeout k) (tk_output k) (sn_root (tk_snapshot k)).
Definition task_shell (k : Task) : string := if sn_shell (tk_snapshot k) =s "" then "sh" else sn_shell (tk_snapshot k).

(** C15. The filter of the queue, which is written in SQL, selects exactly what the
    authorization, which is written in Go, then accepts: for valid policies, a number of
    targets within both and a task within the hard limits, a task passes the filter if and
    only if its policy is enabled and covers the node, and the pair of policies authorizes
    its limits, its shell when it is a command, and its file when it is a transfer. *)
Theorem admission_matches_policy k p c scoped f file targets
    (Hq : Policy_Validate (pl_configuration p) = nil_err) (Hc : Policy_Validate c = nil_err)
    (Htargets : 1 <= targets <= Z.min (MaximumTargets (pl_configuration p)) (MaximumTargets c)) (Hlimits : 1 <= tk_timeout k /\ 1 <= tk_output k)
    (Hkind : commandKind (tk_kind k) = true \/ fileKind (tk_kind k) = true /\ describes f file /\ ValidateFile file = nil_err) :
  dispatchAdmission k p c scoped (Some f) = true <->
  pl_enabled p = true /\ scoped = true /\ Authorize (pl_configuration p) c (task_limits k targets) = nil_err /\
  (commandKind (tk_kind k) = true -> AuthorizeShell (pl_configuration p) c (task_shell k) = nil_err) /\
  (fileKind (tk_kind k) = true -> AuthorizeFile (pl_configuration p) c (mkFileRequest (tk_kind k) file) = nil_err).
Proof.
  unfold dispatchAdmission. cbv zeta. fold (task_shell k). set (q := pl_configuration p) in *. rewrite Authorize_spec. unfold grants, task_limits. cbn [Limits_Kind Limits_Targets Limits_TimeoutSeconds Limits_OutputBytes Limits_RunAsRoot].
  rewrite !andb_true_iff, !orb_true_iff, !andb_true_iff, !orb_true_iff, !negb_true_iff, !Z.leb_le, !str_in_spec.
  assert (AuthorizeShell q c (task_shell k) = nil_err <-> task_shell k ∈ SupportedShells c /\ (llen (SupportedShells q) =? 0 = true \/ task_shell k ∈ SupportedShells q)) as Hshell.
  { unfold AuthorizeShell. rewrite <- !str_in_spec. pose proof (llen_nonneg (SupportedShells q)). destruct (str_in _ (SupportedShells c)); cbn; [|split; [done|by intros [? _]]].
    destruct (str_in _ (SupportedShells q)); cbn; rewrite ?andb_false_r, ?andb_true_r; [split; [auto|done]|]. destruct (_ >? 0) eqn:E; split; intuition (auto; lia || done). }
  assert (fileKind (tk_kind k) = true -> AuthorizeFile q c (mkFileRequest (tk_kind k) file) = nil_err <->
    authorize_file_in q (mkFileRequest (tk_kind k) file) = nil_err /\ authorize_file_in c (mkFileRequest (tk_kind k) file) = nil_err) as Hfile.
  { intros Hf. unfold AuthorizeFile. destruct Hkind as [Hx|(_ & _ & Hv)]. { unfold commandKind, fileKind in *. apply orb_true_iff in Hx as [Hx|Hx]; apply String.eqb_eq in Hx; by rewrite Hx in Hf. }
    cbn [File Direction]. rewrite (proj2 (is_ok_check _) Hv). unfold fileKind in Hf. apply orb_true_iff in Hf as [->| ->]; cbn [negb orb andb]; rewrite ?andb_false_r; cbn;
      unfold nil_err; destruct (authorize_file_in q _) as [[]|]; cbn; intuition congruence. }
  assert (sn_root (tk_snapshot k) = false \/ AllowRoot q = true /\ AllowRoot c = true <-> (sn_root (tk_snapshot k) = true -> AllowRoot q = true) /\ (sn_root (tk_snapshot k) = true -> AllowRoot c = true)) as Hroot.
  { destruct (sn_root (tk_snapshot k)); intuition congruence. }
  assert (1 <= targets <= MaximumTargets q /\ 1 <= targets <= MaximumTargets c) as Hn by lia. clear Htargets. assert (false <> true) as Hft by done. assert (true = true) as Htt by done.
  assert (true <> false) as Htf by done. assert (false = false) as Hff by done.
  destruct Hkind as [Hx|(Hf & Hd & Hv)].
  - assert (fileKind (tk_kind k) = false) as Hnf. { unfold commandKind, fileKind in *. apply orb_true_iff in Hx as [Hx|Hx]; apply String.eqb_eq in Hx; by rewrite Hx. }
    rewrite Hnf, Hx, Hroot, Hshell. clear Hroot Hshell Hfile Hnf Hx. tauto.
  - assert (commandKind (tk_kind k) = false) as Hnc. { unfold commandKind, fileKind in *. apply orb_true_iff in Hf as [Hf|Hf]; apply String.eqb_eq in Hf; by rewrite Hf. }
    specialize (Hfile Hf). rewrite Hf, Hnc. pose proof (ValidateFile_mode _ Hv) as Hm.
    assert (forall x, Policy_Validate x = nil_err -> Enabled x = true -> tk_kind k ∈ Kinds x -> root_admits (tk_kind k) f x = true <-> authorize_file_in x (mkFileRequest (tk_kind k) file) = nil_err) as Hra.
    { intros x H1 H2 H3%str_in_spec. by apply root_admits_spec. }
    pose proof (Hra q Hq) as Hra1. pose proof (Hra c Hc) as Hra2. clear Hra.
    rewrite Hroot, Hfile. clear Hroot Hshell Hfile Hnc Hf Hm Hd Hv. tauto.
Qed.

(** ** Concrete runs *)


Definition first_lease : result opsError (option Lease) * Tables :=
  LeaseNext service true (instant 65) (nonce_of 7) (id_of "a1" eq_refl) "token-1" (digest_of (shell_policy 5)) (run submitted_steps empty_tables).
Definition handed : Lease := mkLease "a1" (EncodeHex (nonce_of 7)) (UnixMilli (instant 95)) (public_payload (submitted (command "first" ["n1"] ["g"]) 2)).
Lemma first_lease_ok : first_lease.1 = Ok (Some handed).
Proof. vm_compute. reflexivity. Qed.

Lemma lease_authorized_witness : first_lease.1 = Ok (Some handed) /\ exists nodeID local,
  node "token-1" (run submitted_steps empty_tables) = Ok (nodeID, run submitted_steps empty_tables) /\ count_where (fun _ t => holding nodeID t) (tb_targets first_lease.2) <= Concurrency local.
Proof.
  split; [exact first_lease_ok|]. destruct (lease_authorized submitted_steps service (instant 65) (nonce_of 7) (id_of "a1" eq_refl) "token-1" (digest_of (shell_policy 5)) handed first_lease.2
    (pair_of _ _ first_lease_ok)) as (nodeID & local & task & k & payload & a & t & Hn & _ & _ & _ & _ & _ & _ & _ & _ & _ & _ & _ & Hc). exists nodeID, local. exact (conj Hn Hc).
Defined.
Lemma leased_command_submitted_witness : first_lease.1 = Ok (Some handed) /\ (exists before s now uid fresh actor input after,
  submitted_steps = before ++ (s, true, now, OpCreateTask uid fresh actor input) :: after /\ validTask input = true) \/ exists fresh c, In (OpTransferTask fresh c) (map snd submitted_steps).
Proof.
  destruct (leased_command_submitted submitted_steps service (instant 65) (nonce_of 7) (id_of "a1" eq_refl) "token-1" (digest_of (shell_policy 5)) handed first_lease.2
    (pair_of _ _ first_lease_ok)) as [(before & s & now & uid & fresh & actor & input & after & cx & n & Hs & Hv & _)|(before & s & now & fresh & c & after & payload & Hs & _)].
  - left. split; [exact first_lease_ok|]. exists before, s, now, uid, fresh, actor, input, after. exact (conj Hs Hv).
  - right. exists fresh, c. rewrite Hs, map_app. apply in_or_app. right. left. reflexivity.
Defined.

Definition first_start : result opsError unit * Tables := Start service true (instant 66) (attempt_of "token-1" "a1" 7) (run leased_steps empty_tables).
Lemma first_start_ok : first_start.1 = Ok tt.
Proof. vm_compute. reflexivity. Qed.
Definition leased_row : AttemptRow := mkAttemptRow "0t" 1 (Sum256 (nonce_of 7)) "leased" (digest_of (shell_policy 5)) (UnixMilli (instant 95)) None None None None None "" None false "" "".
Lemma leased_row_ok : tb_attempts (run leased_steps empty_tables) !! "a1" = Some leased_row.
Proof. vm_compute. reflexivity. Qed.
Lemma start_authorized_witness : first_start.1 = Ok tt /\ exists t, tb_targets (run leased_steps empty_tables) !! "0t" = Some t /\ tg_state t = "leased" /\ tg_state <$> tb_targets first_start.2 !! "0t" = Some "running".
Proof.
  split; [exact first_start_ok|]. destruct (start_authorized leased_steps service (instant 66) (attempt_of "token-1" "a1" 7) first_start.2 leased_row (pair_of _ _ first_start_ok) leased_row_ok eq_refl)
    as (nodeID & local & nonce & t & k & payload & _ & _ & _ & _ & _ & _ & Ht & _ & Hs & _ & _ & Hr & _). exists t. exact (conj Ht (conj Hs Hr)).
Defined.

Definition completion : result opsError unit * Tables :=
  CompleteAttempt service true (instant 75) (attempt_of "token-1" "a1" 7) (answer "up 3 days") (run started_steps empty_tables).
Lemma completion_ok : completion.1 = Ok tt.
Proof. vm_compute. reflexivity. Qed.
Lemma completion_repeatable_witness : completion.1 = Ok tt /\ CompleteAttempt service true (instant 80) (attempt_of "token-1" "a1" 7) (answer "up 3 days") completion.2 = (Ok tt, completion.2)
  /\ is_ok (CompleteAttempt service true (instant 80) (attempt_of "token-1" "a1" 7) (answer "down") completion.2).1 = false.
Proof.
  split; [exact completion_ok|]. pose proof (pair_of completion (Ok tt) completion_ok) as Es. unfold completion at 1 in Es.
  destruct (completion_repeatable service (instant 75) (attempt_of "token-1" "a1" 7) (answer "up 3 days") (run started_steps empty_tables) completion.2 Es (instant 80) (answer "down")) as (Hr & _ & Hs).
  split; [exact Hr|]. apply not_true_iff_false. intros Ht%Hs. revert Ht. vm_compute. discriminate.
Defined.

Definition completed_row : AttemptRow := default leased_row (tb_attempts (run completed_steps empty_tables) !! "a1").
Definition kept_row : AttemptRow := default leased_row (tb_attempts (run (completed_steps ++ [at_ 90 OpRestore]) empty_tables) !! "a1").
Lemma completed_row_ok : tb_attempts (run completed_steps empty_tables) !! "a1" = Some completed_row.
Proof. vm_compute. reflexivity. Qed.
Lemma kept_row_ok : tb_attempts (run (completed_steps ++ [at_ 90 OpRestore]) empty_tables) !! "a1" = Some kept_row.
Proof. vm_compute. reflexivity. Qed.
Lemma results_final_witness : am_state completed_row = "succeeded" /\ am_state kept_row = "succeeded".
Proof.
  assert (am_state completed_row = "succeeded") as Hs by (vm_compute; reflexivity). split; [exact Hs|].
  destruct (results_final completed_steps (at_ 90 OpRestore) "a1" completed_row kept_row completed_row_ok) as [(_ & _ & He & _) _ _]; [vm_compute; discriminate|exact kept_row_ok|]. rewrite He. exact Hs.
Defined.

Definition creation : result opsError string * Tables :=
  CreateTask service true (instant 64) (id_of "task" eq_refl) (target_ids "t") admin (command "first" ["n1"] ["g"]) (run (take 4 submitted_steps) empty_tables).
Lemma creation_ok : creation.1 = Ok "task".
Proof. vm_compute. reflexivity. Qed.
Lemma task_created_once_witness : creation.1 = Ok "task" /\
  CreateTask service true (instant 68) (id_of "again" eq_refl) (target_ids "u") admin (command "first" ["n1"] ["g"]) creation.2 = (Ok "task", creation.2).
Proof.
  split; [exact creation_ok|]. pose proof (pair_of creation (Ok "task") creation_ok) as Es. unfold creation at 1 in Es.
  apply (task_created_once service (instant 64) (id_of "task" eq_refl) (target_ids "t") admin (command "first" ["n1"] ["g"]) (run (take 4 submitted_steps) empty_tables) "task" creation.2
    Es eq_refl (instant 68) (id_of "again" eq_refl) (target_ids "u") (mkContext (instant 68) "root")). vm_compute. reflexivity.
Defined.

Definition file_policy : Policy := mkPolicy None [] true ["deploy"] 5 10 2 60 4096 false false [mkRoot "" "r" true true 4096 false false].
Definition policy_row (p : Policy) : PolicyRow := mkPolicyRow "files" true p 1 "user" 0.
Definition file_task : Task := mkTask "f" "" "deploy" [] "policy" (mkSnapshot file_policy "" false false) "user" 30 1024 0 false 0 0.
Definition sample_file : FileSpec := mkFileSpec "r" "etc/app.conf" 100 (EncodeHex (Sum256 [])) 384 false "artifact".
Definition sample_transfer (overwrite : bool) : Transfer := mkTransfer None None false "deploy" [] "r" 100 "" 384 overwrite None "queued" "user" 0 0.
Lemma admission_matches_policy_witness : dispatchAdmission file_task (policy_row file_policy) file_policy true (Some (sample_transfer false)) = true
  /\ AuthorizeFile file_policy file_policy (mkFileRequest "deploy" sample_file) = nil_err.
Proof.
  assert (dispatchAdmission file_task (policy_row file_policy) file_policy true (Some (sample_transfer false)) = true) as Hd by (vm_compute; reflexivity). split; [exact Hd|].
  apply (admission_matches_policy file_task (policy_row file_policy) file_policy true (sample_transfer false) sample_file 2); [vm_compute; reflexivity|vm_compute; reflexivity|cbn; lia|cbn; lia| |exact Hd|reflexivity].
  right. split; [reflexivity|]. split; [split; reflexivity|vm_compute; reflexivity].
Defined.

(** ** Two corners *)

(** A task for more targets than its policy, changed since, allows passes the filter of the
    queue and is refused after it: the node gets nothing, not even the younger task that is
    allowed, until the older one is cancelled or expires. *)
Definition shrunk_steps : list step := submitted_steps ++ [at_ 65 (OpSavePolicy (id_of "u" eq_refl) admin (policy_input 1 1));
  at_ 66 (OpCreateTask (id_of "younger" eq_refl) (target_ids "y") admin (command "second" ["n1"] []))].
Definition lease_after (steps : list step) : result opsError (option Lease) :=
  (LeaseNext service true (instant 70) (nonce_of 8) (id_of "a2" eq_refl) "token-1" (digest_of (shell_policy 5)) (run steps empty_tables)).1.
Example older_task_blocks_queue : state_of "0y" (run shrunk_steps empty_tables) = Some ("queued", "") /\ lease_after shrunk_steps = Err ErrForbidden /\
  (ti_Command ∘ ls_Payload <$> match lease_after (shrunk_steps ++ [at_ 69 (OpCancelTask admin "task")]) with Ok l => l | Err _ => None end) = Some (bytes "uptime").
Proof. vm_compute. auto. Qed.

(** A restore while a command runs: the command can be started again only by a retry that
    acknowledges the risk. *)
Definition restored_tables : Tables := restored (instant 70) (run started_steps empty_tables).
Definition restored_retry (acknowledged : bool) : result opsError unit :=
  (RetryTarget service true (instant 80) admin (mkRetryInput "task" "0t" "again" acknowledged) restored_tables).1.
Lemma restore_holds_witness : state_of "0t" restored_tables = Some ("unknown", "a1") /\ restored_retry true = Ok tt /\ is_ok (restored_retry false) = false.
Proof.
  split; [vm_compute; reflexivity|]. split; [vm_compute; reflexivity|].
  destruct (restore_holds started_steps (instant 70) [] "0t" service (instant 80) (attempt_of "token-1" "a1" 7) admin (mkRetryInput "task" "0t" "again" false))
    as (_ & Hretry & _).
  assert (forall before rest : list step, [] = before ++ rest -> is_Some (tb_tasks (run before restored_tables) !! "task")) as Hthere.
  { intros before rest [-> _]%eq_sym%app_eq_nil. vm_compute. eexists. reflexivity. }
  specialize (Hretry Hthere). cbn [ri_AcknowledgeUnknownRisk run] in Hretry. fold restored_tables in Hretry. unfold restored_retry.
  destruct (is_ok _); [discriminate Hretry|reflexivity].
Defined.

(** A target that waited when a backup was made is unknown after the restore; cancelled
    then, it waits for the answer of an attempt there is none of: it cannot be retried, and
    its node cannot be deleted. *)
Definition stuck_steps : list step := submitted_steps ++ [at_ 66 OpRestore; at_ 67 (OpCancelTask admin "task")].
Example restored_target_stuck : let d := run stuck_steps empty_tables in
  state_of "0t" d = Some ("cancel_requested", "") /\ node_busy "n1" d = true /\
  (RetryTarget service true (instant 70) admin (mkRetryInput "task" "0t" "again" true) d).1 = Err ErrConflict /\
  (RetryTarget service true (instant 70) admin (mkRetryInput "task" "0t" "again" true) (run (submitted_steps ++ [at_ 66 OpRestore]) empty_tables)).1 = Ok tt.
Proof. vm_compute. auto. Qed.

(** A command that ran once, and one that failed, was retried and ran again. *)
Definition retried_steps : list step := started_steps ++ [
  at_ 75 (OpComplete (attempt_of "token-1" "a1" 7) (mkResult "exit_nonzero" 0 71000 75000 0 0 (EncodeHex (Sum256 [])) (EncodeHex (Sum256 [])) "failed" 1 (Some []) (Some []) false));
  at_ 80 (OpRetryTarget admin (mkRetryInput "task" "0t" "try again" false));
  at_ 81 (OpLease (nonce_of 9) (id_of "a3" eq_refl) "token-1" (digest_of (shell_policy 5))); at_ 82 (OpStart (attempt_of "token-1" "a3" 9))].
Definition counts (steps : list step) : Z * Z * Z := (starts_in "0t" steps empty_tables, creations_in "0t" steps empty_tables, retries_in "0t" steps empty_tables).
Example sample_starts : counts completed_steps = (1, 1, 0) /\ counts retried_steps = (2, 1, 1).
Proof. vm_compute. auto. Qed.
