(* ===== verification/GoInstant.v ===== *)
(** * Instants as text

    [time.Format] and [time.Parse] with the layout RFC3339, in UTC. *)

From S2P Require Import Prelude GoText GoNumber GoDate.

Definition day_seconds : Z := 86400.

(** [t.UTC().Format(time.RFC3339)]: whole seconds, the zone written Z. *)
Definition FormatRFC3339 (t : Time) : string :=
  let s := t / Second in let n := s / day_seconds in let r := s mod day_seconds in
  of_bytes (year_digits (Year n) ++ [45] ++ pad2 (Month n) ++ [45] ++ pad2 (Day n)
    ++ [84] ++ pad2 (r / 3600) ++ [58] ++ pad2 (r / 60 mod 60) ++ [58] ++ pad2 (r mod 60) ++ [90]).

(** One or two digits of the hour. *)
Definition hour_digits (l : list Z) : option (Z * list Z) :=
  match l with
  | a :: b :: t => if is_digit a then (if is_digit b then Some (dec [a; b], t) else Some (dec [a], b :: t)) else None
  | [a] => if is_digit a then Some (dec [a], []) else None
  | [] => None
  end.
Definition two_digits (a b : Z) : option Z := if is_digit a && is_digit b then Some (dec [a; b]) else None.
(** A fraction of a second after a point or a comma: nanoseconds, digits after the ninth dropped. *)
Fixpoint digits_of (l : list Z) : list Z * list Z :=
  match l with
  | b :: t => if is_digit b then let r := digits_of t in (b :: r.1, r.2) else ([], l)
  | [] => ([], [])
  end.
Definition fraction (l : list Z) : Z * list Z :=
  match l with
  | p :: d :: t =>
      if ((p =? 46) || (p =? 44)) && is_digit d then
        let r := digits_of (d :: t) in let used := firstn 9 r.1 in
        (dec used * 10 ^ (9 - llen used), r.2)
      else (0, l)
  | _ => (0, l)
  end.
(** The offset of the zone in seconds; it ends the text. *)
Definition zone (l : list Z) : option Z :=
  match l with
  | [90] => Some 0
  | [sign; h1; h2; 58; m1; m2] =>
      match two_digits h1 h2, two_digits m1 m2 with
      | Some h, Some m =>
          if (24 <? h) || (60 <? m) then None
          else if sign =? 43 then Some ((h * 60 + m) * 60) else if sign =? 45 then Some (- ((h * 60 + m) * 60)) else None
      | _, _ => None
      end
  | _ => None
  end.

(** [time.Parse(time.RFC3339, value)], as the instant. *)
Definition ParseRFC3339 (value : string) : option Time :=
  match bytes value with
  | a :: b :: c :: d :: 45 :: e :: f :: 45 :: g :: h :: 84 :: rest =>
      if negb (forallb is_digit [a; b; c; d; e; f; g; h]) then None
      else
        let year := dec [a; b; c; d] in let month := dec [e; f] in let day := dec [g; h] in
        match hour_digits rest with
        | Some (hour, 58 :: i :: j :: 58 :: k :: l :: rest) =>
            match two_digits i j, two_digits k l with
            | Some minute, Some second =>
                let f := fraction rest in
                match zone f.2 with
                | Some offset =>
                    if (1 <=? month) && (month <=? 12) && (1 <=? day) && (day <=? month_days (isLeap year) month)
                       && (hour <? 24) && (minute <? 60) && (second <? 60)
                    then Some ((Date year month day * day_seconds + hour * 3600 + minute * 60 + second - offset) * Second + f.1)
                    else None
                | None => None
                end
            | _, _ => None
            end
        | _ => None
        end
  | _ => None
  end.

Example instants : map ParseRFC3339 ["2026-07-29T12:00:00Z"; "2026-07-29T12:00:00.25+02:00"; "2026-02-30T00:00:00Z"; "2026-07-29T12:00:00"]
  = [Some (Date 2026 7 29 * day_seconds * Second + 12 * Hour); Some (Date 2026 7 29 * day_seconds * Second + 10 * Hour + 250 * Millisecond); None; None].
Proof. vm_compute. reflexivity. Qed.
Example instant_format : FormatRFC3339 (Date 2026 7 29 * day_seconds * Second + 12 * Hour + 61 * Second) = "2026-07-29T12:01:01Z".
Proof. vm_compute. reflexivity. Qed.

Lemma is_digit_digit n : is_digit (digit n) = true.
Proof. apply is_digit_spec, digit_range. Qed.
Lemma two_digits_pad n : 0 <= n <= 99 -> two_digits (digit (n / 10)) (digit n) = Some n.
Proof. intros H. unfold two_digits. rewrite !is_digit_digit. cbn [andb]. f_equal. by apply dec_pad2. Qed.

(** Parsing what was formatted gives the whole seconds back. *)
Lemma ParseRFC3339_Format t : 0 <= Year (t / Second / day_seconds) <= 9999 -> ParseRFC3339 (FormatRFC3339 t) = Some (t / Second * Second).
Proof.
  intros Hy. unfold ParseRFC3339, FormatRFC3339. remember (t / Second) as s eqn:E. clear E. cbv zeta.
  remember (s / day_seconds) as n eqn:En. remember (s mod day_seconds) as r eqn:Er.
  destruct (Date_of_civil n) as [Hdate [Hm Hd]]. assert (0 <= r < 86400) as Hr by (subst r; apply Z.mod_pos_bound; done).
  assert (s = n * day_seconds + r) as Hs by (subst n r; pose proof (Z.div_mod s day_seconds); unfold day_seconds in *; lia). clear En Er.
  rewrite (year_digits_pad _ Hy), bytes_of_bytes.
  2:{ pose proof digit_range as Hg. unfold pad4, pad2. cbn [app]. repeat constructor; try lia;
      match goal with |- context [digit ?x] => specialize (Hg x); lia end. }
  unfold pad4, pad2. cbn [app forallb]. rewrite !is_digit_digit. cbn [andb negb hour_digits]. rewrite !is_digit_digit.
  pose proof (month_days_bound (isLeap (Year n)) (Month n)) as Hmd.
  rewrite !two_digits_pad by (Z.to_euclidean_division_equations; lia). cbn [fraction fst snd zone].
  change (dec [digit (Year n / 1000); digit (Year n / 100); digit (Year n / 10); digit (Year n)]) with (dec (pad4 (Year n))). rewrite (dec_pad4 _ Hy).
  change (dec [digit (Month n / 10); digit (Month n)]) with (dec (pad2 (Month n))). change (dec [digit (Day n / 10); digit (Day n)]) with (dec (pad2 (Day n))).
  change (dec [digit (r / 3600 / 10); digit (r / 3600)]) with (dec (pad2 (r / 3600))).
  rewrite !dec_pad2 by (Z.to_euclidean_division_equations; lia).
  rewrite !(proj2 (Z.leb_le _ _)) by lia. rewrite !(proj2 (Z.ltb_lt _ _)) by (Z.to_euclidean_division_equations; lia). cbn [andb]. rewrite Hdate. f_equal.
  rewrite Z.sub_0_r, Z.add_0_r. f_equal. rewrite Hs. Z.to_euclidean_division_equations. lia.
Qed.
