(* ===== verification/EnrollSecret.v ===== *)
(** * Agent enrollment: tokens and secrets

    The random tokens of an agent ([internal/agentcredential/token.go]), of the one-time
    join ([internal/agentjoin/token.go]) and of discovery
    ([internal/agentenrollment/secret.go]): their text, the prefix that is shown, the
    digest that is stored, and the unpadded base64 of URLs they are written in. The source
    of randomness is the list of bytes it gives; a source that ends early is a short list. *)

From S2P Require Import Prelude GoText GoNumber GoSha256.

(** ** base64.RawURLEncoding *)

Definition url_digit (v : Z) : Z :=
  if v <? 26 then 65 + v else if v <? 52 then 71 + v else if v <? 62 then v - 4 else if v =? 62 then 45 else 95.
Definition url_value (b : Z) : option Z :=
  if between 65 90 b then Some (b - 65) else if between 97 122 b then Some (b - 71) else if between 48 57 b then Some (b + 4)
  else if b =? 45 then Some 62 else if b =? 95 then Some 63 else None.

Fixpoint url_encode (l : list Z) : list Z :=
  match l with
  | [] => []
  | [a] => [url_digit (a / 4); url_digit (a mod 4 * 16)]
  | [a; b] => [url_digit (a / 4); url_digit (a mod 4 * 16 + b / 16); url_digit (b mod 16 * 4)]
  | a :: b :: c :: t =>
      url_digit (a / 4) :: url_digit (a mod 4 * 16 + b / 16) :: url_digit (b mod 16 * 4 + c / 64) :: url_digit (c mod 64) :: url_encode t
  end.
Definition EncodeToString (l : list Z) : string := of_bytes (url_encode l).

(** Line ends are skipped; a last group of one character is an error, and the bits a last
    group of two or three leaves over are not looked at. *)
Fixpoint url_quanta (l : list Z) : option (list Z) :=
  match l with
  | [] => Some []
  | [_] => None
  | [a; b] => Some [a * 4 + b / 16]
  | [a; b; c] => Some [a * 4 + b / 16; b mod 16 * 16 + c / 4]
  | a :: b :: c :: d :: t =>
      match url_quanta t with
      | Some r => Some (a * 4 + b / 16 :: b mod 16 * 16 + c / 4 :: c mod 4 * 64 + d :: r)
      | None => None
      end
  end.
Definition line_end (b : Z) : bool := (b =? 10) || (b =? 13).
Definition DecodeString (s : string) : option (list Z) :=
  match mapM url_value (List.filter (fun b => negb (line_end b)) (bytes s)) with Some v => url_quanta v | None => None end.

(** ** agentcredential *)

Definition tokenPrefix : string := "beat_agent_v1_".
Definition randomBytes : Z := 32.
Definition displayCharacters : Z := 8.

Record Token := mkToken { Token_Plaintext : string; Token_Prefix : string; Token_Hash : list Z }.

Definition Digest (token : string) : list Z := Sum256 (bytes token).
Definition DisplayPrefix (token : string) : option string :=
  if negb (HasPrefix token tokenPrefix) then None
  else
    let encoded := TrimPrefix token tokenPrefix in
    match DecodeString encoded with
    | Some random => if negb (llen random =? randomBytes) || (len encoded <? displayCharacters) then None
                     else Some (tokenPrefix +:+ str_take 8 encoded)
    | None => None
    end.
(** [io.ReadFull] of so many bytes. *)
Definition ReadFull (reader : list Z) (n : Z) : option (list Z) := if n <=? llen reader then Some (firstn (Z.to_nat n) reader) else None.
Definition GenerateFrom (reader : list Z) : option Token :=
  match ReadFull reader randomBytes with
  | Some random =>
      let plaintext := tokenPrefix +:+ EncodeToString random in
      match DisplayPrefix plaintext with Some prefix => Some (mkToken plaintext prefix (Digest plaintext)) | None => None end
  | None => None
  end.
(** [subtle.ConstantTimeCompare(a, b) == 1]: equal lengths and equal bytes. *)
Definition ConstantTimeCompare (a b : list Z) : bool := bool_decide (a = b).
Definition Matches (hash : list Z) (token : string) : bool :=
  if negb (llen hash =? 32) then false else ConstantTimeCompare hash (Digest token).

(** ** agentjoin *)

Definition TokenPrefix : string := "beat_join_v1_".
Definition tokenRandomBytes : Z := 32.

Definition DigestToken (value : string) : list Z := Sum256 (bytes value).
Definition GenerateTokenFrom (reader : list Z) : option Token :=
  match ReadFull reader tokenRandomBytes with
  | Some random =>
      let encoded := EncodeToString random in
      let plaintext := TokenPrefix +:+ encoded in
      Some (mkToken plaintext (TokenPrefix +:+ str_take 8 encoded) (DigestToken plaintext))
  | None => None
  end.
Definition ValidateToken (value : string) : bool :=
  if negb (HasPrefix value TokenPrefix) then false
  else
    let encoded := TrimPrefix value TokenPrefix in
    match DecodeString encoded with
    | Some random => (llen random =? tokenRandomBytes) && (EncodeToString random =s encoded)
    | None => false
    end.

(** ** agentenrollment/secret.go *)

Definition GrantSecretPrefix : string := "beat_enroll_v1_".
Definition RequestTokenPrefix : string := "beat_request_v1_".
Definition ClaimTicketPrefix : string := "beat_claim_v1_".
Definition secretBytes : Z := 32.

Record Secret := mkSecret { Plaintext : string; Prefix : string; Hash : list Z }.

Definition encodedBody (prefix plaintext : string) : option string :=
  let encoded := TrimPrefix plaintext prefix in
  if (encoded =s plaintext) || (len encoded <? displayCharacters) then None
  else match DecodeString encoded with
  | Some random => if llen random =? secretBytes then Some encoded else None
  | None => None
  end.
Definition SecretDigest (plaintext : string) : list Z := Sum256 (bytes plaintext).
Definition DescribeSecret (prefix plaintext : string) : option Secret :=
  match encodedBody prefix plaintext with
  | Some encoded => Some (mkSecret plaintext (prefix +:+ str_take 8 encoded) (SecretDigest plaintext))
  | None => None
  end.
Definition SecretMatches (hash : list Z) (plaintext : string) : bool :=
  if negb (llen hash =? 32) then false else ConstantTimeCompare hash (SecretDigest plaintext).
Definition generateSecret (reader : list Z) (prefix : string) : option Secret :=
  match ReadFull reader secretBytes with
  | Some random => DescribeSecret prefix (prefix +:+ EncodeToString random)
  | None => None
  end.
Definition GenerateGrantSecretFrom (reader : list Z) : option Secret := generateSecret reader GrantSecretPrefix.
Definition GenerateRequestTokenFrom (reader : list Z) : option Secret := generateSecret reader RequestTokenPrefix.
Definition GenerateClaimTicketFrom (reader : list Z) : option Secret := generateSecret reader ClaimTicketPrefix.

(** ** base64 gives the bytes back *)

Definition is_bytes (l : list Z) : Prop := Forall (fun b => 0 <= b < 256) l.

Lemma url_value_digit v : 0 <= v < 64 -> url_value (url_digit v) = Some v /\ line_end (url_digit v) = false /\ 45 <= url_digit v <= 122.
Proof.
  intros H. unfold url_digit, url_value, line_end, between.
  destruct (Z.ltb_spec v 26); [|destruct (Z.ltb_spec v 52); [|destruct (Z.ltb_spec v 62); [|destruct (Z.eqb_spec v 62); [by subst|assert (v = 63) as -> by lia; done]]]].
  all: repeat match goal with |- context [?a <=? ?b] => destruct (Z.leb_spec a b); try lia end; cbn [andb].
  all: repeat match goal with |- context [?a =? ?b] => destruct (Z.eqb_spec a b); try lia end; cbn [orb].
  all: split_and!; [f_equal; lia|done|lia|lia].
Qed.

(** The six-bit values of an encoding. *)
Fixpoint url_sixes (l : list Z) : list Z :=
  match l with
  | [] => []
  | [a] => [a / 4; a mod 4 * 16]
  | [a; b] => [a / 4; a mod 4 * 16 + b / 16; b mod 16 * 4]
  | a :: b :: c :: t => a / 4 :: a mod 4 * 16 + b / 16 :: b mod 16 * 4 + c / 64 :: c mod 64 :: url_sixes t
  end.

(** Induction by three elements. *)
Lemma three_ind (P : list Z -> Prop) : P [] -> (forall a, P [a]) -> (forall a b, P [a; b]) ->
  (forall a b c t, P t -> P (a :: b :: c :: t)) -> forall l, P l.
Proof.
  intros H0 H1 H2 H3. fix IH 1. intros [|a [|b [|c t]]]; [exact H0|exact (H1 a)|exact (H2 a b)|exact (H3 a b c t (IH t))].
Qed.

Lemma url_encode_sixes l : url_encode l = url_digit <$> url_sixes l.
Proof. induction l as [| | |a b c t IH] using three_ind; [done..|]. cbn [url_encode url_sixes fmap list_fmap]. by rewrite IH. Qed.

Lemma url_sixes_range l : is_bytes l -> Forall (fun v => 0 <= v < 64) (url_sixes l).
Proof.
  unfold is_bytes. induction l as [|a|a b|a b c t IH] using three_ind; cbn [url_sixes]; intros H; rewrite ?Forall_cons in *; destruct_and? H;
    split_and?; try (by constructor); try (by apply IH); Z.to_euclidean_division_equations; lia.
Qed.

Lemma url_quanta_sixes l : is_bytes l -> url_quanta (url_sixes l) = Some l.
Proof.
  unfold is_bytes. induction l as [|a|a b|a b c t IH] using three_ind; cbn [url_sixes url_quanta]; intros H; [done|..];
    rewrite ?Forall_cons in H; destruct_and? H; [..|rewrite IH by done]; repeat f_equal; Z.to_euclidean_division_equations; lia.
Qed.

Lemma sixes_decoded l : Forall (fun v => 0 <= v < 64) l ->
  List.filter (fun b => negb (line_end b)) (url_digit <$> l) = url_digit <$> l /\ mapM url_value (url_digit <$> l) = Some l.
Proof.
  induction 1 as [|v l Hv _ [IH1 IH2]]; [done|]. destruct (url_value_digit v Hv) as (H1 & H2 & _).
  cbn [fmap list_fmap List.filter]. rewrite H2. cbn [negb]. rewrite IH1. split; [done|]. cbn [mapM]. rewrite H1. cbn. by rewrite IH2.
Qed.

Lemma bytes_EncodeToString l : is_bytes l -> bytes (EncodeToString l) = url_encode l.
Proof.
  intros H. apply bytes_of_bytes. rewrite url_encode_sixes, Forall_fmap. eapply Forall_impl; [by apply url_sixes_range|].
  intros v Hv. cbn. destruct (url_value_digit v Hv) as (_ & _ & ?). lia.
Qed.

Lemma DecodeString_EncodeToString l : is_bytes l -> DecodeString (EncodeToString l) = Some l.
Proof.
  intros H. unfold DecodeString. rewrite bytes_EncodeToString, url_encode_sixes by done.
  destruct (sixes_decoded (url_sixes l) (url_sixes_range l H)) as [-> ->]. by apply url_quanta_sixes.
Qed.

Lemma length_url_encode l : llen (url_encode l) = (4 * llen l + 2) / 3.
Proof.
  induction l as [|a|a b|a b c t IH] using three_ind; [done..|]. cbn [url_encode]. rewrite !llen_cons, IH. Z.to_euclidean_division_equations. lia.
Qed.

(** What decoding gives are bytes. *)
Lemma url_value_range b v : url_value b = Some v -> 0 <= v < 64.
Proof.
  unfold url_value, between. intros H.
  repeat match type of H with (if ?c then _ else _) = _ => destruct c eqn:?E; [injection H as <-; go_bool; lia|] end. done.
Qed.
Lemma url_quanta_bytes : forall l r, Forall (fun v => 0 <= v < 64) l -> url_quanta l = Some r -> is_bytes r.
Proof.
  unfold is_bytes. fix IH 1. intros [|a [|b [|c [|d t]]]] r; cbn [url_quanta]; rewrite ?Forall_cons.
  1-4: intros H [= <-]; destruct_and? H; repeat (constructor; [Z.to_euclidean_division_equations; lia|]); constructor.
  intros (Ha & Hb & Hc & Hd & Ht). specialize (IH t). destruct (url_quanta t) as [q|]; [|done]. intros [= <-].
  repeat (constructor; [Z.to_euclidean_division_equations; lia|]). by apply IH.
Qed.
Lemma DecodeString_bytes s r : DecodeString s = Some r -> is_bytes r.
Proof.
  unfold DecodeString. destruct (mapM _ _) as [v|] eqn:E; [|done]. apply url_quanta_bytes. apply mapM_Some in E.
  clear -E. induction E; constructor; [by eapply url_value_range|done].
Qed.

(** ** Secrets *)

Lemma TrimPrefix_app p s : TrimPrefix (p +:+ s) p = s.
Proof.
  unfold TrimPrefix. rewrite (proj2 (HasPrefix_spec _ _)) by eauto. induction p as [|a p IH]; [by destruct s|]. exact IH.
Qed.
Lemma str_app_length s t : len (s +:+ t) = len s + len t.
Proof. unfold len. rewrite <- !length_bytes, bytes_app, length_app. lia. Qed.
Lemma len_bytes s : len s = llen (bytes s).
Proof. unfold len, llen. by rewrite length_bytes. Qed.

Lemma ReadFull_bytes reader n random : 0 <= n -> is_bytes reader -> ReadFull reader n = Some random -> is_bytes random /\ llen random = n.
Proof.
  intros Hn Hb. unfold ReadFull. destruct (Z.leb_spec n (llen reader)) as [Hl|]; [|done]. intros [= <-]. split.
  - unfold is_bytes in *. rewrite <- (firstn_skipn (Z.to_nat n) reader), Forall_app in Hb. tauto.
  - unfold llen in *. rewrite length_firstn. lia.
Qed.
Lemma len_EncodeToString l : is_bytes l -> len (EncodeToString l) = (4 * llen l + 2) / 3.
Proof. intros H. by rewrite len_bytes, bytes_EncodeToString, length_url_encode. Qed.

(** The prefixes of all tokens. *)
Definition purposes : list string := [GrantSecretPrefix; RequestTokenPrefix; ClaimTicketPrefix; tokenPrefix; TokenPrefix].

(** The body of a text that was encoded. *)
Lemma encodedBody_encoded p random : (p =s "") = false -> is_bytes random -> llen random = 32 ->
  encodedBody p (p +:+ EncodeToString random) = Some (EncodeToString random).
Proof.
  intros Hp Hb Hl. unfold encodedBody. rewrite TrimPrefix_app, len_EncodeToString, Hl by done. change ((4 * 32 + 2) / 3 <? displayCharacters) with false.
  rewrite orb_false_r, DecodeString_EncodeToString, Hl by done. change (32 =? secretBytes) with true.
  destruct (EncodeToString random =s p +:+ EncodeToString random) eqn:E; [exfalso|done].
  apply String.eqb_eq, (f_equal len) in E. rewrite str_app_length in E. apply String.eqb_neq in Hp. destruct p; [done|]. unfold len in E. cbn in E. lia.
Qed.

Lemma purpose_cases p : p ∈ purposes ->
  p = GrantSecretPrefix \/ p = RequestTokenPrefix \/ p = ClaimTicketPrefix \/ p = tokenPrefix \/ p = TokenPrefix.
Proof. unfold purposes. rewrite !elem_of_cons. intros Hp. destruct_or? Hp; try tauto. by apply not_elem_of_nil in Hp. Qed.
Lemma purposes_differ p q s : p ∈ purposes -> q ∈ purposes -> HasPrefix (p +:+ s) q = true -> q = p.
Proof.
  intros Hp%purpose_cases Hq%purpose_cases. destruct_or? Hp; destruct_or? Hq; subst; try done; intros H; vm_compute in H; discriminate H.
Qed.
Lemma purpose_some p : p ∈ purposes -> (p =s "") = false.
Proof. intros Hp%purpose_cases. by destruct_or? Hp; subst. Qed.

Lemma encodedBody_purpose p q s body : p ∈ purposes -> q ∈ purposes -> encodedBody q (p +:+ s) = Some body -> q = p.
Proof.
  intros Hp Hq. unfold encodedBody, TrimPrefix. destruct (HasPrefix (p +:+ s) q) eqn:E; [intros _; by eapply purposes_differ|].
  by rewrite String.eqb_refl.
Qed.

(** A generated secret is stored by the digest of its text, its text is accepted again
    with that digest for the purpose it was made for, and for no other purpose of any
    token of the program: neither a grant secret, a request token, a claim ticket, a node
    token nor a join token is ever taken for another one. Generation fails only when the
    source of randomness gives fewer than 32 bytes. *)
Theorem secret_has_one_purpose p reader : p ∈ purposes -> is_bytes reader ->
  (is_Some (generateSecret reader p) <-> 32 <= llen reader) /\
  forall secret, generateSecret reader p = Some secret ->
    DescribeSecret p (Plaintext secret) = Some secret /\ SecretMatches (Hash secret) (Plaintext secret) = true /\
    forall q other, q ∈ purposes -> DescribeSecret q (Plaintext secret) = Some other -> q = p.
Proof.
  intros Hp Hb. unfold generateSecret. destruct (ReadFull reader secretBytes) as [random|] eqn:E.
  - destruct (ReadFull_bytes _ secretBytes _ ltac:(done) Hb E) as [Hr Hl]. unfold DescribeSecret at 1 2. rewrite encodedBody_encoded by eauto using purpose_some.
    split.
    { split; [|eauto]. intros _. unfold ReadFull in E. change secretBytes with 32 in E. destruct (Z.leb_spec 32 (llen reader)); [lia|done]. }
    intros secret [= <-]. cbn [Plaintext Hash]. unfold DescribeSecret at 1. rewrite encodedBody_encoded by eauto using purpose_some. split; [done|]. split.
    + unfold SecretMatches, SecretDigest, llen. rewrite length_Sum256. change (Z.of_nat 32 =? 32) with true. cbn [negb]. by apply bool_decide_eq_true_2.
    + intros q other Hq. unfold DescribeSecret. destruct (encodedBody q _) as [body|] eqn:Eq; [|done]. intros _. by eapply encodedBody_purpose.
  - split; [|done]. split; [by intros []|]. intros Hl. unfold ReadFull in E. change secretBytes with 32 in E. destruct (Z.leb_spec 32 (llen reader)); [done|lia].
Qed.

Definition sample_random : list Z := map Z.of_nat (seq 100 32).
Lemma secret_has_one_purpose_witness : exists secret, generateSecret sample_random ClaimTicketPrefix = Some secret /\
  DescribeSecret RequestTokenPrefix (Plaintext secret) = None /\ DescribeSecret ClaimTicketPrefix (Plaintext secret) = Some secret.
Proof.
  assert (ClaimTicketPrefix ∈ purposes) as Hp by (unfold purposes; rewrite !elem_of_cons; tauto).
  assert (is_bytes sample_random) as Hb by (apply Forall_forall; intros x Hx; unfold sample_random in Hx; apply list_elem_of_fmap in Hx as (n & -> & Hn%elem_of_seq); lia).
  destruct (secret_has_one_purpose ClaimTicketPrefix sample_random Hp Hb) as [Hsome Hsecret].
  destruct (proj2 Hsome ltac:(vm_compute; discriminate)) as [secret Hs]. destruct (Hsecret secret Hs) as (Hd & _ & Hq). exists secret. split; [exact Hs|]. split; [|exact Hd].
  destruct (DescribeSecret RequestTokenPrefix (Plaintext secret)) as [other|] eqn:E; [|reflexivity].
  assert (RequestTokenPrefix ∈ purposes) as Hr by (unfold purposes; rewrite !elem_of_cons; tauto). discriminate (Hq _ _ Hr E).
Defined.

(** A join token is accepted exactly when it is the canonical text of 32 bytes. *)
Lemma ValidateToken_canonical value : ValidateToken value = true <->
  exists random, is_bytes random /\ llen random = 32 /\ value = TokenPrefix +:+ EncodeToString random.
Proof.
  unfold ValidateToken. split.
  - destruct (HasPrefix value TokenPrefix) eqn:Ep; [|done]. apply HasPrefix_spec in Ep as [encoded ->]. cbn [negb]. rewrite TrimPrefix_app.
    destruct (DecodeString encoded) as [random|] eqn:Ed; [|done]. intros [Hl%Z.eqb_eq He%String.eqb_eq]%andb_true_iff. exists random.
    rewrite He. eauto using DecodeString_bytes.
  - intros (random & Hb & Hl & ->). rewrite (proj2 (HasPrefix_spec _ _)) by eauto. cbn [negb]. rewrite TrimPrefix_app, DecodeString_EncodeToString, Hl, String.eqb_refl by done.
    done.
Qed.

(** A node token that was generated is well formed, and only its own text matches its digest
    unless the digest collides. *)
Lemma GenerateFrom_ok reader : is_bytes reader -> 32 <= llen reader -> exists token, GenerateFrom reader = Some token /\
  Token_Hash token = Digest (Token_Plaintext token) /\ DisplayPrefix (Token_Plaintext token) = Some (Token_Prefix token) /\ Matches (Token_Hash token) (Token_Plaintext token) = true.
Proof.
  intros Hb Hl. unfold GenerateFrom, ReadFull. change (randomBytes <=? llen reader) with (32 <=? llen reader). rewrite (proj2 (Z.leb_le _ _) Hl).
  assert (ReadFull reader 32 = Some (firstn (Z.to_nat 32) reader)) as E by (unfold ReadFull; by rewrite (proj2 (Z.leb_le _ _) Hl)).
  destruct (ReadFull_bytes _ 32 _ ltac:(done) Hb E) as [Hr Hn]. change (Z.to_nat randomBytes) with (Z.to_nat 32). set (random := firstn (Z.to_nat 32) reader) in *.
  assert (DisplayPrefix (tokenPrefix +:+ EncodeToString random) = Some (tokenPrefix +:+ str_take 8 (EncodeToString random))) as Hd.
  { unfold DisplayPrefix. rewrite (proj2 (HasPrefix_spec _ _)) by eauto. cbn [negb]. rewrite TrimPrefix_app, DecodeString_EncodeToString, Hn, len_EncodeToString, Hn by done. done. }
  rewrite Hd. eexists; split; [done|]. cbn [Token_Hash Token_Plaintext Token_Prefix]. split; [done|]. split; [done|]. unfold Matches, Digest, llen. rewrite length_Sum256. by apply bool_decide_eq_true_2.
Qed.
