(* ===== verification/EnrollPolicy.v ===== *)
(** * Agent enrollment: policies, metadata and signed payloads

    [internal/agentenrollment] (policy.go, metadata.go, protocol.go, state.go) and the tags
    of [internal/model/node_presentation.go]. Addresses and prefixes are those of netip;
    reading their text, regular expressions, Unicode case folding and the verification of
    Ed25519 signatures are externals. *)

From S2P Require Import Prelude GoText GoNumber GoDate GoInstant GoSha256 EnrollSecret.

(** ** Addresses *)

Inductive Addr := V4 (bits : Z) | V6 (bits : Z) (zone : string).
#[export] Instance Addr_eq_dec : EqDecision Addr.
Proof. solve_decision. Defined.
Definition Zone (a : Addr) : string := match a with V4 _ => "" | V6 _ z => z end.
(** ::ffff:0:0/96. *)
Definition Is4In6 (a : Addr) : bool := match a with V4 _ => false | V6 bits _ => Z.shiftr bits 32 =? 65535 end.
Definition Unmap (a : Addr) : Addr := match a with V6 bits _ => if Is4In6 a then V4 (Z.land bits (2 ^ 32 - 1)) else a | V4 _ => a end.
(** A prefix that was parsed: its address has no zone and its bits fit the address. *)
Record NetPrefix := mkNetPrefix { pf_addr : Addr; pf_bits : Z }.
Definition cleared (width bits v : Z) : Z := Z.shiftl (Z.shiftr v (width - bits)) (width - bits).
Definition Masked (p : NetPrefix) : NetPrefix :=
  mkNetPrefix match pf_addr p with V4 v => V4 (cleared 32 (pf_bits p) v) | V6 v _ => V6 (cleared 128 (pf_bits p) v) "" end (pf_bits p).
Definition PrefixContains (p : NetPrefix) (a : Addr) : bool :=
  match pf_addr p, a with
  | V4 v, V4 w => Z.shiftr (Z.lxor w v) (32 - pf_bits p) =? 0
  | V6 v _, V6 w z => (z =s "") && (Z.shiftr (Z.lxor w v) (128 - pf_bits p) =? 0)
  | _, _ => false
  end.

Class EnrollExternals := {
  ParseAddr : string -> option Addr;
  AddrString : Addr -> string;
  ParsePrefix : string -> option NetPrefix;
  Regexp : string -> option (string -> bool);
  EqualFold : string -> string -> bool;
  Ed25519Verify : list Z -> list Z -> list Z -> bool }.

Section policy.
Context `{EnrollExternals}.

(** ** model/node_presentation.go *)

Definition MaxNodeTags : Z := 12.
Definition MaxNodeTagLength : Z := 32.
Definition MaxNodePrivateRemarkLength : Z := 2000.
Definition validNodeTag (value : string) : bool :=
  if (value =s "") || (MaxNodeTagLength <? RuneCount value) || Contains value "," then false else negb (ContainsControl value).
Definition containsFold (values : list string) (candidate : string) : bool := existsb (fun value => EqualFold value candidate) values.
Fixpoint normalizeTags (values tags : list string) : option (list string) :=
  match values with
  | [] => Some tags
  | value :: rest =>
      let tag := TrimSpace value in
      if negb (validNodeTag tag) then None
      else normalizeTags rest (if containsFold tags tag then tags else tags ++ [tag])
  end.
Definition NormalizeNodeTags (values : list string) : option (list string) :=
  if MaxNodeTags <? llen values then None else normalizeTags values [].

(** ** state.go *)

Definition RequestPending : string := "pending".
Definition RequestApproved : string := "approved".
Definition RequestRejected : string := "rejected".
Definition RequestExpired : string := "expired".
Definition RequestClaimed : string := "claimed".
Definition CredentialLegacy : string := "legacy".
Definition CredentialPendingClaim : string := "pending_claim".
Definition CredentialActive : string := "active".
Definition CredentialRevoked : string := "revoked".
Definition CanApprove (status : string) : bool := status =s RequestPending.
Definition CanReject (status : string) : bool := (status =s RequestPending) || (status =s RequestApproved).
Definition CanClaim (status : string) : bool := status =s RequestApproved.
Definition Terminal (status : string) : bool := (status =s RequestRejected) || (status =s RequestExpired) || (status =s RequestClaimed).
Definition StatusValid (status : string) : bool :=
  str_in status [RequestPending; RequestApproved; RequestRejected; RequestExpired; RequestClaimed].
Definition DeriveCredentialState (hasToken revoked : bool) : string :=
  if revoked then CredentialRevoked else if hasToken then CredentialActive else CredentialLegacy.

(** ** policy.go *)

Definition MaxGrantNameLength : Z := 200.
Definition MaxGrantNodeNamePrefix : Z := 64.
Definition MaxGrantSourceCIDRs : Z := 16.
Definition MaxGrantHostnamePattern : Z := 256.
Definition MinimumGrantEnrollments : Z := 1.
Definition MaximumGrantEnrollments : Z := 1000.
Definition MaxDerivedNodeNameLength : nat := 64.
Definition MaxClaimRecoveryAttempts : Z := 3.
Definition ClaimRecoveryWindow : Duration := 15 * Minute.
Definition maximumGrantLifetime : Duration := 10 * 365 * 24 * Hour.
Definition automaticNameSeparator : string := "-".

Definition ApprovalManual : string := "manual".
Definition ApprovalAutomatic : string := "automatic".
Definition ModeValid (mode : string) : bool := (mode =s ApprovalManual) || (mode =s ApprovalAutomatic).

Record GrantPolicy := mkGrantPolicy {
  Name : string; Mode : string; MaximumEnrollments : Z; DefaultGroupID : string; NodeNamePrefix : string; Tags : list string; Remarks : string;
  Public : bool; SSHPort : Z; UseSourceIPAsHost : bool; SourceCIDRs : list string; HostnamePattern : string; ClaimRecovery : bool;
  Enabled : bool; ExpiresAt : Time }.

(** ErrInvalidGrantPolicy with each of its messages. *)
Inductive PolicyError :=
  | BadName | BadNameControl | BadMode | NeedsNamePrefix | LongNamePrefix | NeedsGroup | BadMaximum | ExpiryPast | ExpiryFar | BadTags
  | LongRemarks | BadPort | ManyCIDRs | BadCIDR | MappedCIDR | LongPattern | BadPattern | NoNodeName.

Definition validateIdentity (p : GrantPolicy) : result PolicyError unit :=
  let name := TrimSpace (Name p) in
  if (name =s "") || (MaxGrantNameLength <? RuneCount name) then Err BadName
  else if ContainsControl name then Err BadNameControl
  else if negb (ModeValid (Mode p)) then Err BadMode
  else
    let prefix := TrimSpace (NodeNamePrefix p) in
    if (Mode p =s ApprovalAutomatic) && (prefix =s "") then Err NeedsNamePrefix
    else if MaxGrantNodeNamePrefix <? RuneCount prefix then Err LongNamePrefix else Ok tt.

Definition validateCapacity (p : GrantPolicy) (now : Time) : result PolicyError unit :=
  if TrimSpace (DefaultGroupID p) =s "" then Err NeedsGroup
  else if (MaximumEnrollments p <? MinimumGrantEnrollments) || (MaximumGrantEnrollments <? MaximumEnrollments p) then Err BadMaximum
  else if negb (After (ExpiresAt p) now) then Err ExpiryPast
  else if After (ExpiresAt p) (Add now maximumGrantLifetime) then Err ExpiryFar else Ok tt.

Record SourcePolicy := mkSourcePolicy { prefixes : list NetPrefix; hostname : option (string -> bool) }.

Fixpoint compileCIDRs (cidrs : list string) : result PolicyError (list NetPrefix) :=
  match cidrs with
  | [] => Ok []
  | raw :: rest =>
      match ParsePrefix (TrimSpace raw) with
      | None => Err BadCIDR
      | Some prefix => if Is4In6 (pf_addr prefix) then Err MappedCIDR else let* rest := compileCIDRs rest in Ok (Masked prefix :: rest)
      end
  end.
Definition compileHostnamePattern (pattern : string) : result PolicyError (option (string -> bool)) :=
  let text := TrimSpace pattern in
  if text =s "" then Ok None
  else if MaxGrantHostnamePattern <? len text then Err LongPattern
  else match Regexp ("^(?:" +:+ text +:+ ")$") with Some compiled => Ok (Some compiled) | None => Err BadPattern end.
Definition CompileSourcePolicy (cidrs : list string) (pattern : string) : result PolicyError SourcePolicy :=
  let* prefixes := compileCIDRs cidrs in
  let* compiled := compileHostnamePattern pattern in
  Ok (mkSourcePolicy prefixes compiled).
Definition AllowsSource (p : SourcePolicy) (address : Addr) : bool :=
  match prefixes p with [] => true | l => existsb (fun prefix => PrefixContains prefix (Unmap address)) l end.
Definition AllowsHostname (p : SourcePolicy) (name : string) : bool :=
  match hostname p with None => true | Some compiled => compiled (TrimSpace name) end.

Definition validatePresentation (p : GrantPolicy) : result PolicyError unit :=
  match NormalizeNodeTags (Tags p) with
  | None => Err BadTags
  | Some _ =>
      if MaxNodePrivateRemarkLength <? RuneCount (Remarks p) then Err LongRemarks
      else if (SSHPort p <? 1) || (65535 <? SSHPort p) then Err BadPort
      else if MaxGrantSourceCIDRs <? llen (SourceCIDRs p) then Err ManyCIDRs
      else let* _ := CompileSourcePolicy (SourceCIDRs p) (HostnamePattern p) in Ok tt
  end.
Definition Validate (p : GrantPolicy) (now : Time) : result PolicyError unit :=
  let* _ := validateIdentity p in let* _ := validateCapacity p now in validatePresentation p.

(** The lower case of a rune, as far as it is ASCII: besides the letters A to Z, only the
    Kelvin sign and the dotted capital I have an ASCII letter as lower case. *)
Definition lower_rune (r : Z) : Z := if between 65 90 r then r + 32 else if r =? 8490 then 107 else if r =? 304 then 105 else r.
Definition isNodeNameRune (r : Z) : bool := between 97 122 r || between 48 57 r.
(** The loop over the lower-case runes, with what was built and the pending separator. *)
Fixpoint sanitize (l : list Z) (built : list Z) (separatorPending : bool) : list Z :=
  match l with
  | [] => built
  | r :: rest =>
      if isNodeNameRune r then sanitize rest (built ++ (if separatorPending && negb (llen built =? 0) then [45] else []) ++ [r]) false
      else sanitize rest built (negb (llen built =? 0))
  end.
(** [strings.Trim(s, "-")]. *)
Fixpoint trim_dashes (l : list Z) : list Z := match l with b :: t => if b =? 45 then trim_dashes t else l | [] => [] end.
Definition TrimDashes (l : list Z) : list Z := rev (trim_dashes (rev (trim_dashes l))).
Definition sanitizeNodeNamePart (value : string) : list Z := TrimDashes (sanitize (map lower_rune (runes (TrimSpace value))) [] false).
Definition truncateNodeName (name : list Z) : list Z :=
  if (length name <=? MaxDerivedNodeNameLength)%nat then name else TrimDashes (firstn MaxDerivedNodeNameLength name).
Definition DeriveNodeName (prefix hostname : string) : result PolicyError string :=
  let host := sanitizeNodeNamePart hostname in
  match host with
  | [] => Err NoNodeName
  | _ => let head := sanitizeNodeNamePart prefix in
         Ok (of_bytes (truncateNodeName match head with [] => host | _ => head ++ [45] ++ host end))
  end.

(** ** metadata.go *)

Definition MaxInstallationNonceBytes : Z := 128.
Definition MinSSHPort : Z := 1.
Definition MaxSSHPort : Z := 65535.

Record Metadata := mkMetadata {
  Hostname : string; AdvertisedHost : string; OS : string; Architecture : string; AgentVersion : string; Virtualization : string;
  md_SSHPort : Z; InstallationNonce : string }.

Definition validateMetadataText (value : string) (limit : Z) : bool := (len value <=? limit) && negb (ContainsControl value) && ValidString value.
Definition MetadataValidate (m : Metadata) : bool :=
  validateMetadataText (Hostname m) 256 && validateMetadataText (AdvertisedHost m) 256 && validateMetadataText (OS m) 128
  && validateMetadataText (Architecture m) 128 && validateMetadataText (AgentVersion m) 128 && validateMetadataText (Virtualization m) 256
  && negb (InstallationNonce m =s "") && (len (InstallationNonce m) <=? MaxInstallationNonceBytes)
  && negb (ContainsControl (InstallationNonce m)) && (MinSSHPort <=? md_SSHPort m) && (md_SSHPort m <=? MaxSSHPort).

(** ** protocol.go *)

Definition ChallengeSize : Z := 32.
Definition requestDomain : string := "beat.enrollment.request".
Definition statusDomain : string := "beat.enrollment.status".
Definition claimDomain : string := "beat.enrollment.claim".
Definition metadataDomain : string := "beat.enrollment.metadata".

(** The length is kept in 32 bits. *)
Definition appendField (target field : list Z) : list Z := target ++ be_bytes 4 (llen field mod 2 ^ 32) ++ field.
Definition encodeCanonical (domain : string) (fields : list (list Z)) : list Z := fold_left appendField fields (appendField [] (bytes domain)).

Definition MetadataCanonical (m : Metadata) : list Z :=
  encodeCanonical metadataDomain [bytes (Hostname m); bytes (AdvertisedHost m); bytes (OS m); bytes (Architecture m); bytes (AgentVersion m);
    bytes (Virtualization m); bytes (FormatInt (md_SSHPort m)); bytes (InstallationNonce m)].

Record RequestBinding := mkRequestBinding {
  rb_ChallengeID : string; rb_Challenge : list Z; rb_Origin : string; rb_Fingerprint : list Z; rb_Metadata : list Z; rb_ExpiresAt : Time }.
Definition RequestCanonical (b : RequestBinding) : list Z :=
  encodeCanonical requestDomain [bytes (rb_ChallengeID b); rb_Challenge b; bytes (rb_Origin b); rb_Fingerprint b; rb_Metadata b;
    bytes (FormatRFC3339 (rb_ExpiresAt b))].
Record StatusBinding := mkStatusBinding { sb_RequestID : string; sb_Origin : string; sb_Timestamp : Time; sb_Nonce : list Z }.
Definition StatusCanonical (b : StatusBinding) : list Z :=
  encodeCanonical statusDomain [bytes (sb_RequestID b); bytes (sb_Origin b); bytes (FormatRFC3339 (sb_Timestamp b)); sb_Nonce b].
Record ClaimBinding := mkClaimBinding {
  cb_RequestID : string; cb_NodeID : string; cb_Ticket : string; cb_Origin : string; cb_Timestamp : Time; cb_Nonce : list Z }.
Definition ClaimCanonical (b : ClaimBinding) : list Z :=
  encodeCanonical claimDomain [bytes (cb_RequestID b); bytes (cb_NodeID b); bytes (cb_Ticket b); bytes (cb_Origin b);
    bytes (FormatRFC3339 (cb_Timestamp b)); cb_Nonce b].

Definition VerifySignature (publicKey payload signature : list Z) : bool := (llen publicKey =? 32) && Ed25519Verify publicKey payload signature.
End policy.

(** ** Derived node names *)

(** A dash never follows a dash or stands first; [dashed] says whether one came before. *)
Fixpoint spaced (dashed : bool) (l : list Z) : bool :=
  match l with [] => true | b :: t => if b =? 45 then negb dashed && spaced true t else spaced false t end.
Definition dash_after (dashed : bool) (l : list Z) : bool := match last l with Some b => b =? 45 | None => dashed end.
Definition name_byte (b : Z) : bool := isNodeNameRune b || (b =? 45).
Definition tidy (l : list Z) : Prop := forallb name_byte l = true /\ spaced true l = true /\ last l <> Some 45.

Lemma spaced_app d l m : spaced d (l ++ m) = spaced d l && spaced (dash_after d l) m.
Proof.
  revert d. induction l as [|b l IH]; intros d; [done|]. cbn [app spaced]. assert (dash_after d (b :: l) = dash_after (b =? 45) l) as ->.
  { unfold dash_after. rewrite last_cons. by destruct (last l). }
  destruct (b =? 45); rewrite IH; [by rewrite andb_assoc|done].
Qed.
Lemma tidy_dash l : l <> [] -> last l <> Some 45 -> dash_after true l = false.
Proof. intros Hn Hl. unfold dash_after. destruct (last l) eqn:E; [|by apply last_None in E]. apply Z.eqb_neq. congruence. Qed.
Lemma tidy_app l m : l <> [] -> tidy l -> tidy m -> tidy (l ++ [45] ++ m) \/ m = [].
Proof.
  intros Hn (L1 & L2 & L3) (M1 & M2 & M3). destruct m as [|b m]; [by right|left]. split_and!.
  - rewrite !forallb_app, L1, M1. done.
  - rewrite !spaced_app, L2, (tidy_dash _ Hn L3). cbn [spaced andb negb]. exact M2.
  - rewrite app_assoc, last_app. destruct (last (b :: m)) eqn:E; [congruence|]. by apply last_None in E.
Qed.
Lemma name_rune_dash r : isNodeNameRune r = true -> (r =? 45) = false.
Proof. unfold isNodeNameRune, between. intros Hr. apply Z.eqb_neq. intros ->. done. Qed.
Lemma tidy_rune l r : tidy l -> isNodeNameRune r = true -> tidy (l ++ [r]).
Proof.
  intros (L1 & L2 & L3) Hr. pose proof (name_rune_dash r Hr) as Hd. split_and!.
  - rewrite forallb_app, L1. cbn. unfold name_byte. by rewrite Hr.
  - rewrite spaced_app, L2. cbn. by rewrite Hd.
  - rewrite last_snoc. apply Z.eqb_neq in Hd. congruence.
Qed.
Lemma llen_zero {A} (l : list A) : (llen l =? 0) = true <-> l = [].
Proof. unfold llen. destruct l; cbn; [done|]. split; [|done]. intros Hx%Z.eqb_eq. lia. Qed.

Lemma sanitize_tidy l : forall built pending, tidy built -> tidy (sanitize l built pending).
Proof.
  induction l as [|r l IH]; intros built pending Hb; [done|]. cbn [sanitize]. destruct (isNodeNameRune r) eqn:Er; [|by apply IH]. apply IH.
  destruct (pending && _) eqn:E; [|by apply tidy_rune]. apply andb_true_iff in E as [_ E]. destruct (llen built =? 0) eqn:E0; [done|].
  assert (built <> []) as Hn by (intros Hx; apply llen_zero in Hx; congruence).
  assert (tidy [r]) as Hr by (apply (tidy_rune []); [by split_and!|done]). by destruct (tidy_app _ _ Hn Hb Hr).
Qed.

Lemma trim_dashes_id l : spaced true l = true -> trim_dashes l = l.
Proof. destruct l as [|b l]; [done|]. cbn. by destruct (b =? 45). Qed.
Lemma trim_dashes_last l : last l <> Some 45 -> trim_dashes (rev l) = rev l.
Proof.
  intros Hl. destruct l as [|b l _] using rev_ind; [done|]. rewrite last_snoc in Hl. rewrite rev_app_distr. cbn. rewrite (proj2 (Z.eqb_neq b 45)) by congruence. done.
Qed.
Lemma TrimDashes_tidy l : tidy l -> TrimDashes l = l.
Proof. intros (_ & H2 & H3). unfold TrimDashes. rewrite (trim_dashes_id _ H2), (trim_dashes_last _ H3). apply rev_involutive. Qed.

(** A prefix of a tidy text, trimmed: at most the one dash it can end with goes. *)
Lemma TrimDashes_prefix l m : tidy (l ++ m) -> l <> [] -> (tidy l /\ TrimDashes l = l) \/ exists k, l = k ++ [45] /\ k <> [] /\ tidy k /\ TrimDashes l = k.
Proof.
  intros (H1 & H2 & _) Hn. rewrite forallb_app in H1. rewrite spaced_app in H2. apply andb_true_iff in H1 as [H1 _], H2 as [H2 _].
  destruct (decide (last l = Some 45)) as [Hl|Hl]; [right|left; split; [done|by apply TrimDashes_tidy]].
  apply last_Some in Hl as [k ->]. exists k. split; [done|]. rewrite forallb_app in H1. rewrite spaced_app in H2. apply andb_true_iff in H1 as [H1 _], H2 as [H2 Hd].
  cbn in Hd. rewrite andb_true_r in Hd. apply negb_true_iff in Hd. assert (k <> []) as Hk by (intros ->; done).
  assert (last k <> Some 45) as Hl by (intros Hx; unfold dash_after in Hd; by rewrite Hx in Hd). split_and!; [done|done|].
  unfold TrimDashes. rewrite (trim_dashes_id (k ++ [45])) by (rewrite spaced_app, H2, (tidy_dash _ Hk Hl); done). rewrite rev_app_distr. cbn.
  rewrite (trim_dashes_last _ Hl). apply rev_involutive.
Qed.

Lemma truncateNodeName_tidy l : tidy l -> l <> [] -> tidy (truncateNodeName l) /\ (0 < length (truncateNodeName l) <= MaxDerivedNodeNameLength)%nat.
Proof.
  intros Hl Hn. unfold truncateNodeName. destruct (Nat.leb_spec (length l) MaxDerivedNodeNameLength) as [Hle|Hgt].
  - split; [done|]. destruct l; [done|]. cbn in *. lia.
  - assert (length (firstn MaxDerivedNodeNameLength l) = MaxDerivedNodeNameLength) as Hlen by (rewrite length_firstn; lia).
    destruct (TrimDashes_prefix (firstn MaxDerivedNodeNameLength l) (skipn MaxDerivedNodeNameLength l)) as [[Ht ->]|(k & Ek & Hk & Ht & ->)].
    + by rewrite firstn_skipn.
    + intros Hx. rewrite Hx in Hlen. done.
    + rewrite Hlen. split; [done|]. unfold MaxDerivedNodeNameLength. lia.
    + split; [done|]. rewrite Ek, length_app in Hlen. cbn [length] in Hlen. destruct k; [done|]. cbn [length] in *. lia.
Qed.

Lemma sanitizeNodeNamePart_tidy value : tidy (sanitizeNodeNamePart value).
Proof.
  unfold sanitizeNodeNamePart. assert (tidy (sanitize (map lower_rune (runes (TrimSpace value))) [] false)) as Hs by (apply sanitize_tidy; by split_and!).
  by rewrite TrimDashes_tidy.
Qed.
Lemma tidy_bytes l : tidy l -> is_bytes l.
Proof.
  intros (H1 & _). apply Forall_forall. intros b Hb. rewrite forallb_forall in H1. specialize (H1 b (proj1 (list_elem_of_In _ _) Hb)).
  unfold name_byte, isNodeNameRune, between in H1. go_bool. lia.
Qed.

Lemma sanitize_some l : forall built pending, built <> [] \/ existsb isNodeNameRune l = true -> sanitize l built pending <> [].
Proof.
  induction l as [|r l IH]; intros built pending; cbn [sanitize existsb]; [by intros []|]. intros Hx. destruct (isNodeNameRune r); apply IH.
  - left. by destruct built, (pending && _).
  - cbn in Hx. tauto.
Qed.

(** The name derived for an automatically enrolled node has between 1 and 64
    characters, all lower-case letters, digits and dashes, begins and ends with a letter
    or digit and has no two dashes in a row, whatever the prefix of the grant and the
    hostname the agent reports; and a hostname with a letter or digit always gives one. *)
Theorem derived_name_tidy prefix name :
  match DeriveNodeName prefix name with
  | Ok derived => tidy (bytes derived) /\ 1 <= len derived <= 64
  | Err e => e = NoNodeName /\ existsb isNodeNameRune (map lower_rune (runes (TrimSpace name))) = false
  end.
Proof.
  unfold DeriveNodeName. pose proof (sanitizeNodeNamePart_tidy name) as Hh. pose proof (sanitizeNodeNamePart_tidy prefix) as Hp.
  destruct (sanitizeNodeNamePart name) as [|b host] eqn:Eh.
  { split; [done|]. apply not_true_iff_false. intros Hx. unfold sanitizeNodeNamePart in Eh. rewrite TrimDashes_tidy in Eh by (apply sanitize_tidy; by split_and!).
    by apply (sanitize_some _ [] false (or_intror Hx)). }
  set (whole := match sanitizeNodeNamePart prefix with [] => _ | _ => _ end).
  assert (tidy whole /\ whole <> []) as [Hw Hn].
  { unfold whole. destruct (sanitizeNodeNamePart prefix) as [|c head] eqn:Ep; [done|]. split; [|done].
    by destruct (tidy_app (c :: head) (b :: host) ltac:(done) Hp Hh). }
  destruct (truncateNodeName_tidy whole Hw Hn) as [Ht Hl]. rewrite len_bytes, bytes_of_bytes by (by apply tidy_bytes). split; [done|].
  unfold llen, MaxDerivedNodeNameLength in *. lia.
Qed.

(** ** Signed payloads *)

(** A reader of the fields of a payload. *)
Fixpoint readFields (fuel : nat) (l : list Z) : option (list (list Z)) :=
  match l, fuel with
  | [], _ => Some []
  | a :: b :: c :: d :: t, S fuel =>
      let n := be_value [a; b; c; d] in
      if n <=? llen t then match readFields fuel (skipn (Z.to_nat n) t) with Some rest => Some (firstn (Z.to_nat n) t :: rest) | None => None end
      else None
  | _, _ => None
  end.
Definition field_fits (f : list Z) : Prop := llen f < 2 ^ 32.
Definition framed (f : list Z) : list Z := be_bytes 4 (llen f mod 2 ^ 32) ++ f.

Lemma readFields_framed fields : forall fuel, Forall field_fits fields -> (length (concat (map framed fields)) <= fuel)%nat ->
  readFields fuel (concat (map framed fields)) = Some fields.
Proof.
  induction fields as [|f fields IH]; intros fuel; [by destruct fuel|]. intros [Hf Hfs]%Forall_cons Hl. cbn [map concat] in *.
  unfold framed at 1 in Hl. unfold framed at 1. unfold field_fits in Hf. rewrite (Z.mod_small (llen f)) in * by (pose proof (llen_nonneg f); lia).
  pose proof (be_value_bytes 4 (llen f)) as Hv. rewrite !length_app, length_be_bytes in Hl.
  pose proof (length_be_bytes 4 (llen f)) as H4. destruct (be_bytes 4 (llen f)) as [|a [|b [|c [|d [|]]]]]; try done.
  destruct fuel as [|fuel]; [lia|]. cbn [app readFields]. rewrite Hv. change (256 ^ Z.of_nat 4) with (2 ^ 32).
  rewrite (Z.mod_small (llen f)) by (pose proof (llen_nonneg f); lia). rewrite llen_app, (proj2 (Z.leb_le _ _)) by (pose proof (llen_nonneg (concat (map framed fields))); lia).
  replace (Z.to_nat (llen f)) with (length f) by (unfold llen; lia). rewrite (drop_app_length f), (take_app_length f), IH by (done || lia). done.
Qed.

Lemma encodeCanonical_framed domain fields : encodeCanonical domain fields = concat (map framed (bytes domain :: fields)).
Proof.
  unfold encodeCanonical. cbn [map concat]. assert (forall fs t, fold_left appendField fs t = t ++ concat (map framed fs)) as Hf.
  { induction fs as [|f fs IH]; intros t; cbn [fold_left map concat]; [by rewrite app_nil_r|]. rewrite IH. unfold appendField, framed. by rewrite <- !app_assoc. }
  by rewrite Hf.
Qed.

Lemma canonical_read domain fields : field_fits (bytes domain) -> Forall field_fits fields ->
  readFields (length (encodeCanonical domain fields)) (encodeCanonical domain fields) = Some (bytes domain :: fields).
Proof. intros Hd Hf. rewrite encodeCanonical_framed. apply readFields_framed; [by constructor|done]. Qed.

Lemma canonical_inj d d' fs fs' : field_fits (bytes d) -> field_fits (bytes d') -> Forall field_fits fs -> Forall field_fits fs' ->
  encodeCanonical d fs = encodeCanonical d' fs' -> d = d' /\ fs = fs'.
Proof.
  intros H1 H2 H3 H4 E. pose proof (canonical_read _ _ H1 H3) as R. rewrite E, (canonical_read _ _ H2 H4) in R.
  injection R as R1 R2. split; [by apply bytes_inj|done].
Qed.

(** Every payload that a key of an agent signs, or that is digested before. *)
Inductive payload := PMetadata (m : Metadata) | PRequest (b : RequestBinding) | PStatus (b : StatusBinding) | PClaim (b : ClaimBinding).
Definition payload_domain (p : payload) : string :=
  match p with PMetadata _ => metadataDomain | PRequest _ => requestDomain | PStatus _ => statusDomain | PClaim _ => claimDomain end.
Definition payload_fields (p : payload) : list (list Z) :=
  match p with
  | PMetadata m => [bytes (Hostname m); bytes (AdvertisedHost m); bytes (OS m); bytes (Architecture m); bytes (AgentVersion m);
      bytes (Virtualization m); bytes (FormatInt (md_SSHPort m)); bytes (InstallationNonce m)]
  | PRequest b => [bytes (rb_ChallengeID b); rb_Challenge b; bytes (rb_Origin b); rb_Fingerprint b; rb_Metadata b; bytes (FormatRFC3339 (rb_ExpiresAt b))]
  | PStatus b => [bytes (sb_RequestID b); bytes (sb_Origin b); bytes (FormatRFC3339 (sb_Timestamp b)); sb_Nonce b]
  | PClaim b => [bytes (cb_RequestID b); bytes (cb_NodeID b); bytes (cb_Ticket b); bytes (cb_Origin b); bytes (FormatRFC3339 (cb_Timestamp b)); cb_Nonce b]
  end.
Definition payload_bytes (p : payload) : list Z :=
  match p with PMetadata m => MetadataCanonical m | PRequest b => RequestCanonical b | PStatus b => StatusCanonical b | PClaim b => ClaimCanonical b end.
(** A field is at most 4 GiB, a year has four digits and a port is not negative. *)
Definition writable (t : Time) : Prop := 0 <= Year (t / Second / day_seconds) <= 9999.
Definition payload_ok (p : payload) : Prop :=
  Forall field_fits (payload_fields p) /\
  match p with
  | PMetadata m => 0 <= md_SSHPort m <= int64_max | PRequest b => writable (rb_ExpiresAt b) | PStatus b => writable (sb_Timestamp b) | PClaim b => writable (cb_Timestamp b)
  end.
Definition to_second (t : Time) : Time := t / Second * Second.
Definition same_payload (p q : payload) : Prop :=
  match p, q with
  | PMetadata m, PMetadata m' => m = m'
  | PRequest b, PRequest b' => rb_ChallengeID b = rb_ChallengeID b' /\ rb_Challenge b = rb_Challenge b' /\ rb_Origin b = rb_Origin b' /\
      rb_Fingerprint b = rb_Fingerprint b' /\ rb_Metadata b = rb_Metadata b' /\ to_second (rb_ExpiresAt b) = to_second (rb_ExpiresAt b')
  | PStatus b, PStatus b' => sb_RequestID b = sb_RequestID b' /\ sb_Origin b = sb_Origin b' /\ to_second (sb_Timestamp b) = to_second (sb_Timestamp b') /\
      sb_Nonce b = sb_Nonce b'
  | PClaim b, PClaim b' => cb_RequestID b = cb_RequestID b' /\ cb_NodeID b = cb_NodeID b' /\ cb_Ticket b = cb_Ticket b' /\ cb_Origin b = cb_Origin b' /\
      to_second (cb_Timestamp b) = to_second (cb_Timestamp b') /\ cb_Nonce b = cb_Nonce b'
  | _, _ => False
  end.

Lemma payload_bytes_canonical p : payload_bytes p = encodeCanonical (payload_domain p) (payload_fields p).
Proof. by destruct p. Qed.
Lemma FormatRFC3339_inj t u : writable t -> writable u -> FormatRFC3339 t = FormatRFC3339 u -> to_second t = to_second u.
Proof. intros Ht Hu E. pose proof (ParseRFC3339_Format t Ht) as R. rewrite E, (ParseRFC3339_Format u Hu) in R. unfold to_second. congruence. Qed.
Lemma FormatInt_inj m n : 0 <= m <= int64_max -> 0 <= n <= int64_max -> FormatInt m = FormatInt n -> m = n.
Proof. intros Hm Hn E. destruct (FormatInt_digits m Hm) as (l & El & Em & _), (FormatInt_digits n Hn) as (k & Ek & En & _). congruence. Qed.

(** C25. What an agent signs is read one way only: two payloads of the enrollment protocol
    with the same bytes are of the same kind (metadata, creating a request, polling it or
    claiming it) and agree in every field, instants to the second. No field can be moved
    into a neighbouring one, and a signature made for one purpose is one for no other. *)
Theorem signed_payload_unambiguous p q : payload_ok p -> payload_ok q -> payload_bytes p = payload_bytes q -> same_payload p q.
Proof.
  intros [Hp Hpt] [Hq Hqt]. rewrite !payload_bytes_canonical. intros [Hd Hf]%canonical_inj; [|by destruct p|by destruct q|done|done].
  destruct p as [[]|[]|[]|[]], q as [[]|[]|[]|[]]; try done; cbn in Hf, Hpt, Hqt |- *; injection Hf; intros;
    repeat match goal with E : bytes _ = bytes _ |- _ => apply bytes_inj in E end; subst;
    repeat match goal with E : FormatRFC3339 _ = FormatRFC3339 _ |- _ => apply FormatRFC3339_inj in E; [|done|done] end;
    repeat match goal with E : FormatInt _ = FormatInt _ |- _ => apply FormatInt_inj in E; [|done|done] end; subst; by split_and?.
Qed.

Definition sample_instant : Time := Date 2026 7 29 * day_seconds * Second + 12 * Hour.
Definition sample_claim (t : Time) : ClaimBinding := mkClaimBinding "r1" "n1" "beat_claim_v1_x" "https://beat.example" t [1; 2; 3].
Lemma signed_payload_unambiguous_witness :
  same_payload (PClaim (sample_claim sample_instant)) (PClaim (sample_claim (sample_instant + 1))) /\
  payload_bytes (PStatus (mkStatusBinding "r1" "https://beat.example" sample_instant [1; 2; 3])) <> payload_bytes (PClaim (sample_claim sample_instant)).
Proof.
  assert (forall p, forallb (fun f => llen f <? 2 ^ 32) (payload_fields p) = true -> Forall field_fits (payload_fields p)) as Hfit.
  { intros p Hp. apply Forall_forall. intros f Hf. apply Z.ltb_lt. rewrite forallb_forall in Hp. apply Hp, list_elem_of_In, Hf. }
  assert (forall t, (0 <=? Year (t / Second / day_seconds)) && (Year (t / Second / day_seconds) <=? 9999) = true -> writable t) as Hw.
  { intros t [H1%Z.leb_le H2%Z.leb_le]%andb_true_iff. split; assumption. }
  assert (payload_ok (PClaim (sample_claim sample_instant))) as H1 by (split; [apply Hfit; vm_compute; reflexivity|apply Hw; vm_compute; reflexivity]).
  assert (payload_ok (PClaim (sample_claim (sample_instant + 1)))) as H2 by (split; [apply Hfit; vm_compute; reflexivity|apply Hw; vm_compute; reflexivity]).
  split.
  - apply (signed_payload_unambiguous (PClaim (sample_claim sample_instant)) (PClaim (sample_claim (sample_instant + 1)))); [exact H1|exact H2|vm_compute; reflexivity].
  - intros E. apply (signed_payload_unambiguous (PStatus (mkStatusBinding "r1" "https://beat.example" sample_instant [1; 2; 3]))
      (PClaim (sample_claim sample_instant))); [|exact H1|exact E]. split; [apply Hfit; vm_compute; reflexivity|apply Hw; vm_compute; reflexivity].
Defined.
