(* ===== verification/EnrollModel.v ===== *)
(** * Agent enrollment: tables

    The rows of the enrollment tables ([store/sqlite_migrations_v26.go],
    [store/sqlite_enrollment_schema.go]) and of the columns of nodes that enrollment and
    credentials use, the constraints of the schema that decide between rows (primary keys,
    unique indexes, foreign keys and their actions), and the audit trail
    ([store/agent_enrollment_audit.go]).

    A transaction is a [Tx] over the tables; one that fails leaves them as they were. The
    columns that a grant's policy fills are kept as the policy. Columns that hold the JSON
    of a list hold the list. The identifiers that the code draws are arguments: drawing
    one that is taken is the violation of a primary key. A statement or commit that SQLite
    refuses for any other reason, such as a CHECK on the length of a column, is a
    transaction that fails. The details of audit rows are not kept. *)

From S2P Require Import Prelude GoText GoNumber GoSha256 GoTable EnrollSecret EnrollPolicy.

(** ** Rows *)

Record Node := mkNode {
  nd_name : string; nd_group : string; nd_host : string; nd_port : Z; nd_tags : list string; nd_public : bool; nd_remark : string; nd_sort : Z;
  nd_state : string; nd_lifecycle : string; nd_hash : option (list Z); nd_prefix : string; nd_created : option Time; nd_used : option Time;
  nd_revoked : option Time; nd_updated : Time }.
Definition set_token (hash : option (list Z)) (prefix : string) (created used revoked : option Time) (state : string) (updated : Time) (n : Node) : Node :=
  mkNode (nd_name n) (nd_group n) (nd_host n) (nd_port n) (nd_tags n) (nd_public n) (nd_remark n) (nd_sort n) state (nd_lifecycle n) hash prefix
    created used revoked updated.
Definition set_sort (sort : Z) (updated : Time) (n : Node) : Node :=
  mkNode (nd_name n) (nd_group n) (nd_host n) (nd_port n) (nd_tags n) (nd_public n) (nd_remark n) sort (nd_state n) (nd_lifecycle n) (nd_hash n)
    (nd_prefix n) (nd_created n) (nd_used n) (nd_revoked n) updated.

Record Grant := mkGrant {
  gr_policy : GrantPolicy; gr_hash : list Z; gr_prefix : string; gr_revoked : option Time; gr_consumed : Z; gr_created_by : string;
  gr_created : Time; gr_updated : Time }.
Definition set_enabled (enabled : bool) (p : GrantPolicy) : GrantPolicy :=
  mkGrantPolicy (Name p) (Mode p) (MaximumEnrollments p) (DefaultGroupID p) (NodeNamePrefix p) (Tags p) (Remarks p) (Public p) (SSHPort p)
    (UseSourceIPAsHost p) (SourceCIDRs p) (HostnamePattern p) (ClaimRecovery p) enabled (ExpiresAt p).
(** A grant that still creates requests, and one that still lets approved ones be claimed. *)
Definition Available (g : Grant) (now : Time) : bool :=
  Enabled (gr_policy g) && bool_decide (gr_revoked g = None) && After (ExpiresAt (gr_policy g)) now && (gr_consumed g <? MaximumEnrollments (gr_policy g)).
Definition enrollmentActive (g : Grant) (now : Time) : bool :=
  Enabled (gr_policy g) && bool_decide (gr_revoked g = None) && After (ExpiresAt (gr_policy g)) now.

Record Challenge := mkChallenge {
  ch_grant : string; ch_hash : list Z; ch_fingerprint : list Z; ch_digest : list Z; ch_source : string; ch_expires : Time; ch_created : Time;
  ch_consumed : option Time }.

Record Request := mkRequest {
  er_grant : string; er_fingerprint : list Z; er_key : list Z; er_token : list Z; er_token_prefix : string; er_rotated : Time; er_status : string;
  er_metadata : Metadata; er_source : string; er_first : Time; er_last : Time; er_node : option string; er_snapshot : string;
  er_approved_by : string; er_approved : option Time; er_rejected_by : string; er_rejected : option Time; er_reason : string;
  er_claimed : option Time; er_ticket : option (list Z); er_generation : Z; er_ticket_expires : option Time; er_deadline : option Time;
  er_attempts : Z; er_expires : Time }.
Definition set_contact (token : list Z) (prefix : string) (metadata : Metadata) (source : string) (now expires : Time) (r : Request) : Request :=
  mkRequest (er_grant r) (er_fingerprint r) (er_key r) token prefix now (er_status r) metadata source (er_first r) now (er_node r) (er_snapshot r)
    (er_approved_by r) (er_approved r) (er_rejected_by r) (er_rejected r) (er_reason r) (er_claimed r) (er_ticket r) (er_generation r)
    (er_ticket_expires r) (er_deadline r) (er_attempts r) expires.
Definition set_approved (node snapshot by_ : string) (at_ : Time) (r : Request) : Request :=
  mkRequest (er_grant r) (er_fingerprint r) (er_key r) (er_token r) (er_token_prefix r) (er_rotated r) RequestApproved (er_metadata r) (er_source r)
    (er_first r) (er_last r) (Some node) snapshot by_ (Some at_) (er_rejected_by r) (er_rejected r) "" (er_claimed r) (er_ticket r)
    (er_generation r) (er_ticket_expires r) (er_deadline r) (er_attempts r) (er_expires r).
(** Rejected or expired: the ticket and the window of recovery go. *)
Definition set_ended (status by_ : string) (at_ : Time) (reason : string) (r : Request) : Request :=
  mkRequest (er_grant r) (er_fingerprint r) (er_key r) (er_token r) (er_token_prefix r) (er_rotated r) status (er_metadata r) (er_source r)
    (er_first r) (er_last r) (er_node r) (er_snapshot r) (er_approved_by r) (er_approved r) by_ (Some at_) reason (er_claimed r) None
    (er_generation r) None None (er_attempts r) (er_expires r).
Definition set_reason (reason : string) (r : Request) : Request :=
  mkRequest (er_grant r) (er_fingerprint r) (er_key r) (er_token r) (er_token_prefix r) (er_rotated r) (er_status r) (er_metadata r) (er_source r)
    (er_first r) (er_last r) (er_node r) (er_snapshot r) (er_approved_by r) (er_approved r) (er_rejected_by r) (er_rejected r) reason
    (er_claimed r) (er_ticket r) (er_generation r) (er_ticket_expires r) (er_deadline r) (er_attempts r) (er_expires r).
Definition set_reservation (node : option string) (snapshot : string) (r : Request) : Request :=
  mkRequest (er_grant r) (er_fingerprint r) (er_key r) (er_token r) (er_token_prefix r) (er_rotated r) (er_status r) (er_metadata r) (er_source r)
    (er_first r) (er_last r) node snapshot (er_approved_by r) (er_approved r) (er_rejected_by r) (er_rejected r) (er_reason r)
    (er_claimed r) (er_ticket r) (er_generation r) (er_ticket_expires r) (er_deadline r) (er_attempts r) (er_expires r).
Definition set_ticket (hash : option (list Z)) (expires : option Time) (generation : Z) (r : Request) : Request :=
  mkRequest (er_grant r) (er_fingerprint r) (er_key r) (er_token r) (er_token_prefix r) (er_rotated r) (er_status r) (er_metadata r) (er_source r)
    (er_first r) (er_last r) (er_node r) (er_snapshot r) (er_approved_by r) (er_approved r) (er_rejected_by r) (er_rejected r) (er_reason r)
    (er_claimed r) hash generation expires (er_deadline r) (er_attempts r) (er_expires r).
(** Claimed, or claimed again. *)
Definition set_claimed (status : string) (claimed deadline : option Time) (attempts : Z) (r : Request) : Request :=
  mkRequest (er_grant r) (er_fingerprint r) (er_key r) (er_token r) (er_token_prefix r) (er_rotated r) status (er_metadata r) (er_source r)
    (er_first r) (er_last r) (er_node r) (er_snapshot r) (er_approved_by r) (er_approved r) (er_rejected_by r) (er_rejected r) (er_reason r)
    claimed None (er_generation r) None deadline attempts (er_expires r).

(** agent_enrollment_tokens, the join tokens *)
Record JoinToken := mkJoinToken {
  jt_hash : list Z; jt_prefix : string; jt_url : string; jt_http : bool; jt_creator : string; jt_created : Time; jt_expires : Time;
  jt_revoked : option Time; jt_consumed : option Time; jt_credential : option Time; jt_request : string; jt_node : option string;
  jt_agent : list Z; jt_name : string; jt_host : string; jt_port : Z; jt_ip : string }.
Definition join_revoked (at_ : Time) (j : JoinToken) : JoinToken :=
  mkJoinToken (jt_hash j) (jt_prefix j) (jt_url j) (jt_http j) (jt_creator j) (jt_created j) (jt_expires j) (Some at_) (jt_consumed j)
    (jt_credential j) (jt_request j) (jt_node j) (jt_agent j) (jt_name j) (jt_host j) (jt_port j) (jt_ip j).
Definition join_consumed (at_ created : Time) (request node : string) (agent : list Z) (name host : string) (port : Z) (ip : string) (j : JoinToken) : JoinToken :=
  mkJoinToken (jt_hash j) (jt_prefix j) (jt_url j) (jt_http j) (jt_creator j) (jt_created j) (jt_expires j) (jt_revoked j) (Some at_)
    (Some created) request (Some node) agent name host port ip.
Definition join_node (node : option string) (j : JoinToken) : JoinToken :=
  mkJoinToken (jt_hash j) (jt_prefix j) (jt_url j) (jt_http j) (jt_creator j) (jt_created j) (jt_expires j) (jt_revoked j) (jt_consumed j)
    (jt_credential j) (jt_request j) node (jt_agent j) (jt_name j) (jt_host j) (jt_port j) (jt_ip j).

Record AuditRow := mkAuditRow {
  au_action : string; au_type : string; au_resource : string; au_actor : string; au_username : string; au_request : string; au_ip : string;
  au_agent : string; au_at : Time }.

(** ** The database *)

(** [db_identities] is agent_enrollment_identities, by the hash of the agent token. *)
Record DB := mkDB {
  db_groups : gset string; db_default : option string; db_nodes : gmap string Node; db_grants : gmap string Grant;
  db_challenges : gmap string Challenge; db_requests : gmap string Request; db_joins : gmap string JoinToken;
  db_identities : gmap (list Z) (option string * Time); db_audit : list AuditRow }.
Definition set_nodes m d := mkDB (db_groups d) (db_default d) m (db_grants d) (db_challenges d) (db_requests d) (db_joins d) (db_identities d) (db_audit d).
Definition set_grants m d := mkDB (db_groups d) (db_default d) (db_nodes d) m (db_challenges d) (db_requests d) (db_joins d) (db_identities d) (db_audit d).
Definition set_challenges m d := mkDB (db_groups d) (db_default d) (db_nodes d) (db_grants d) m (db_requests d) (db_joins d) (db_identities d) (db_audit d).
Definition set_requests m d := mkDB (db_groups d) (db_default d) (db_nodes d) (db_grants d) (db_challenges d) m (db_joins d) (db_identities d) (db_audit d).
Definition set_joins m d := mkDB (db_groups d) (db_default d) (db_nodes d) (db_grants d) (db_challenges d) (db_requests d) m (db_identities d) (db_audit d).
Definition set_identities m d := mkDB (db_groups d) (db_default d) (db_nodes d) (db_grants d) (db_challenges d) (db_requests d) (db_joins d) m (db_audit d).
Definition set_audit l d := mkDB (db_groups d) (db_default d) (db_nodes d) (db_grants d) (db_challenges d) (db_requests d) (db_joins d) (db_identities d) l.
Definition empty_db (groups : gset string) (default : option string) : DB := mkDB groups default ∅ ∅ ∅ ∅ ∅ ∅ [].

Inductive Error :=
  | EInvalidPolicy (e : PolicyError) | EInvalidMetadata | EGrantNotFound | EGrantNameTaken | EGrantUnavailable | EGrantCapacity
  | EGrantSecretConflict | ERequestNotFound | ERequestUnavailable | ERequestCapacity | EChallengeUnavailable | EChallengeLimit
  | ETicketUnavailable | ERecoveryUnavailable | ENodeNameConflict | EAgentTokenConflict | EIdentityUnavailable | EUnauthorized | ESource
  | EJoinCapacity | EJoinInvalid | ENodeSort | EDatabase.
#[export] Instance Error_eq_dec : EqDecision Error.
Proof. unfold EqDecision, Decision. intros. decide equality. decide equality. Defined.

Abbreviation T := (Tx Error DB).

(** ** Audit *)

Record AuditContext := mkAuditContext { ac_ActorID : string; ac_ActorUsername : string; ac_RequestID : string; ac_IPAddress : string; ac_UserAgent : string }.
Definition no_actor : AuditContext := mkAuditContext "" "" "" "" "".
(** What a call carries: its instant and where it comes from. *)
Record Context := mkContext { cx_now : Time; cx_audit : AuditContext }.

Definition enrollmentGrantResourceType : string := "agent_enrollment_grant".
Definition enrollmentRequestResourceType : string := "agent_enrollment_request".
Definition enrollmentAnonymousActor : string := "agent".

(** [strings.ToValidUTF8(s, "")] keeps the well-formed runes. *)
Definition ToValidUTF8 (s : string) : string := of_bytes (concat (map (fun x => x.1.2) (List.filter (fun x => x.2) (runes_of (bytes s))))).
Definition enrollmentAuditField (value : string) (limit : nat) : string :=
  let value := ToValidUTF8 (TrimSpace value) in if Z.of_nat limit <? len value then str_take limit value else value.
Definition audit_row (action type resource : string) (a : AuditContext) (now : Time) : AuditRow :=
  let username := TrimSpace (ac_ActorUsername a) in
  let username := if username =s "" then TrimSpace (ac_ActorID a) else username in
  let username := if username =s "" then enrollmentAnonymousActor else username in
  mkAuditRow action type resource (enrollmentAuditField (ac_ActorID a) 128) (enrollmentAuditField username 128)
    (enrollmentAuditField (ac_RequestID a) 128) (enrollmentAuditField (ac_IPAddress a) 128) (enrollmentAuditField (ac_UserAgent a) 512) now.
Definition writeEnrollmentAudit (action type resource : string) (a : AuditContext) (now : Time) : T unit :=
  exec (fun d => set_audit (audit_row action type resource a now :: db_audit d) d).

(** ** Statements that constraints decide *)

(** INSERT INTO nodes. *)
Definition insert_node (id : string) (n : Node) : T unit := fun d =>
  if bool_decide (is_Some (db_nodes d !! id)) then Err EDatabase
  else if exists_where (fun _ m => nd_name m =s nd_name n) (db_nodes d) then Err ENodeNameConflict
  else if match nd_hash n with Some h => exists_where (fun _ m => bool_decide (nd_hash m = Some h)) (db_nodes d) | None => false end then Err EAgentTokenConflict
  else if bool_decide (nd_group n ∉ db_groups d) then Err EDatabase
  else Ok (tt, set_nodes (<[id := n]> (db_nodes d)) d).
(** UPDATE nodes with a new token hash, of one row. *)
Definition update_token (id : string) (hash : list Z) (f : Node -> Node) : T unit := fun d =>
  if exists_where (fun k m => negb (k =s id) && bool_decide (nd_hash m = Some hash)) (db_nodes d) && bool_decide (is_Some (db_nodes d !! id))
  then Err EAgentTokenConflict
  else Ok (tt, set_nodes (alter f id (db_nodes d)) d).
(** DELETE FROM nodes: what refers to them in requests, join tokens and identities is set to NULL. *)
Definition lost (gone : gset string) (o : option string) : option string := match o with Some id => if bool_decide (id ∈ gone) then None else o | None => None end.
Definition without_nodes (c : string -> Node -> bool) (d : DB) : DB :=
  let gone := selected_keys c (db_nodes d) in
  d |> set_nodes (delete_where c (db_nodes d))
    |> set_requests ((fun r => set_reservation (lost gone (er_node r)) (er_snapshot r) r) <$> db_requests d)
    |> set_joins ((fun j => join_node (lost gone (jt_node j)) j) <$> db_joins d)
    |> set_identities ((fun x => (lost gone x.1, x.2)) <$> db_identities d).
Definition delete_nodes (c : DB -> string -> Node -> bool) : T unit := exec (fun d => without_nodes (c d) d).

(** INSERT INTO agent_enrollment_grants, and the unique columns of an update of one. *)
Definition name_taken (id name : string) (d : DB) : bool := exists_where (fun k g => negb (k =s id) && (Name (gr_policy g) =s name)) (db_grants d).
Definition secret_taken (id : string) (hash : list Z) (d : DB) : bool := exists_where (fun k g => negb (k =s id) && bool_decide (gr_hash g = hash)) (db_grants d).
Definition write_grant (id : string) (g : Grant) : T unit := fun d =>
  if name_taken id (Name (gr_policy g)) d then Err EGrantNameTaken
  else if secret_taken id (gr_hash g) d then Err EGrantSecretConflict
  else if bool_decide (DefaultGroupID (gr_policy g) ∉ db_groups d) then Err EDatabase
  else if negb (gr_consumed g <=? MaximumEnrollments (gr_policy g)) then Err EDatabase
  else Ok (tt, set_grants (<[id := g]> (db_grants d)) d).
Definition insert_grant (id : string) (g : Grant) : T unit := fun d =>
  if bool_decide (is_Some (db_grants d !! id)) then Err EDatabase else write_grant id g d.

(** INSERT INTO agent_enrollment_requests, and an update of one with a new token. *)
Definition openStatus (r : Request) : bool := str_in (er_status r) [RequestPending; RequestApproved].
Definition token_taken (id : string) (hash : list Z) (d : DB) : bool := exists_where (fun k r => negb (k =s id) && bool_decide (er_token r = hash)) (db_requests d).
Definition insert_request (id : string) (r : Request) : T unit := fun d =>
  if bool_decide (is_Some (db_requests d !! id)) then Err EDatabase
  else if token_taken id (er_token r) d then Err EDatabase
  else if exists_where (fun _ q => (er_grant q =s er_grant r) && bool_decide (er_fingerprint q = er_fingerprint r) && openStatus q) (db_requests d) then Err EDatabase
  else if bool_decide (db_grants d !! er_grant r = None) then Err EDatabase
  else Ok (tt, set_requests (<[id := r]> (db_requests d)) d).
(** UPDATE agent_enrollment_requests of the rows that satisfy a condition; the rows affected. *)
Definition update_requests (c : DB -> string -> Request -> bool) (f : DB -> Request -> Request) : T Z := fun d =>
  Ok (count_where (c d) (db_requests d), set_requests (update_where (c d) (f d) (db_requests d)) d).
