(* ===== verification/EnrollService.v ===== *)
(** * Agent enrollment: the store of discovery

    [store/agent_enrollment_{grant,challenge,request,approval,claim,cleanup,startup}.go]:
    grants, one-time challenges, requests and their approval, the claim of a node token,
    and the cleanup. Each operation is one transaction. *)

From S2P Require Import Prelude GoText GoNumber GoSha256 GoTable EnrollSecret EnrollPolicy EnrollModel.

Section service.
Context `{EnrollExternals}.

(** ** agent_enrollment_grant.go *)

Record EnrollmentGrantInput := mkGrantInput { gi_Policy : GrantPolicy; gi_Secret : Secret; gi_ActorID : string }.

Definition validated (p : GrantPolicy) (now : Time) : T unit := match Validate p now with Ok _ => ret tt | Err e => fail (EInvalidPolicy e) end.
Definition grant_row (id : string) : T Grant := g <~ query (fun d => db_grants d !! id) ;; require g EGrantNotFound.

Definition CreateGrant (cx : Context) (id : string) (input : EnrollmentGrantInput) : T Grant :=
  validated (gi_Policy input) (cx_now cx) >>>
  insert_grant id (mkGrant (gi_Policy input) (Hash (gi_Secret input)) (Prefix (gi_Secret input)) None 0 (gi_ActorID input) (cx_now cx) (cx_now cx)) >>>
  writeEnrollmentAudit "agent.enrollment.grant.create" enrollmentGrantResourceType id (cx_audit cx) (cx_now cx) >>>
  grant_row id.

Definition updateGrant (cx : Context) (id : string) (where_ : Grant -> bool) (f : Grant -> Grant) (sideEffect : T unit) (action : string) : T Grant :=
  row <~ query (fun d => db_grants d !! id) ;;
  match row with
  | Some g =>
      if where_ g then
        write_grant id (f g) >>> sideEffect >>>
        writeEnrollmentAudit action enrollmentGrantResourceType id (cx_audit cx) (cx_now cx) >>>
        grant_row id
      else fail EGrantNotFound
  | None => fail EGrantNotFound
  end.
Definition not_revoked (g : Grant) : bool := bool_decide (gr_revoked g = None).

Definition deleteGrantChallenges (id : string) : T unit :=
  exec (fun d => set_challenges (delete_where (fun _ c => ch_grant c =s id) (db_challenges d)) d).
Definition RotateGrantSecret (cx : Context) (id : string) (secret : Secret) : T Grant :=
  updateGrant cx id not_revoked
    (fun g => mkGrant (gr_policy g) (Hash secret) (Prefix secret) (gr_revoked g) (gr_consumed g) (gr_created_by g) (gr_created g) (cx_now cx))
    (deleteGrantChallenges id) "agent.enrollment.grant.rotate".

(** COALESCE of the name of the reserved node and the snapshot. *)
Definition snapshotted (d : DB) (r : Request) : Request :=
  set_reservation (er_node r) match er_node r with Some n => match db_nodes d !! n with Some node => nd_name node | None => er_snapshot r end | None => er_snapshot r end r.
Definition hidden_node (n : Node) : bool := (nd_state n =s CredentialPendingClaim) && bool_decide (nd_hash n = None).
Definition reserved_by (c : string -> Request -> bool) (d : DB) (id : string) : bool := exists_where (fun k r => c k r && bool_decide (er_node r = Some id)) (db_requests d).
Definition revokeEnrollmentGrantSideEffects (grantID actor : string) (now : Time) : T unit :=
  deleteGrantChallenges grantID >>>
  update_requests (fun _ _ r => (er_grant r =s grantID) && bool_decide (er_node r <> None)) snapshotted >>>
  delete_nodes (fun d id n => hidden_node n && reserved_by (fun _ r => er_grant r =s grantID) d id) >>>
  update_requests (fun _ _ r => (er_grant r =s grantID) && openStatus r) (fun _ => set_ended RequestRejected actor now "grant_revoked") >>>
  ret tt.
Definition RevokeGrant (cx : Context) (id actor : string) : T Grant :=
  updateGrant cx id not_revoked
    (fun g => mkGrant (set_enabled false (gr_policy g)) (gr_hash g) (gr_prefix g) (Some (cx_now cx)) (gr_consumed g) (gr_created_by g) (gr_created g) (cx_now cx))
    (revokeEnrollmentGrantSideEffects id actor (cx_now cx)) "agent.enrollment.grant.revoke".

Definition UpdateGrant (cx : Context) (id : string) (input : EnrollmentGrantInput) : T Grant :=
  validated (gi_Policy input) (cx_now cx) >>>
  (current <~ grant_row id ;;
   if MaximumEnrollments (gi_Policy input) <? gr_consumed current then fail EGrantCapacity
   else updateGrant cx id (fun g => not_revoked g && (gr_consumed g <=? MaximumEnrollments (gi_Policy input)))
     (fun g => mkGrant (gi_Policy input) (gr_hash g) (gr_prefix g) (gr_revoked g) (gr_consumed g) (gr_created_by g) (gr_created g) (cx_now cx))
     (ret tt) "agent.enrollment.grant.update").

Definition grantBySecretHash (hash : list Z) (d : DB) : option (string * Grant) := head (rows_where (fun _ g => bool_decide (gr_hash g = hash)) (db_grants d)).
Definition GrantBySecret (plaintext : string) (now : Time) : T (string * Grant) :=
  row <~ query (grantBySecretHash (SecretDigest plaintext)) ;;
  row <~ require row EGrantUnavailable ;;
  if negb (Available row.2 now) || negb (SecretMatches (gr_hash row.2) plaintext) then fail EGrantUnavailable else ret row.

(** ** agent_enrollment_challenge.go *)

Definition maxActiveChallengesPerGrant : Z := 256.
Record ChallengeInput := mkChallengeInput {
  ci_GrantID : string; ci_Hash : list Z; ci_Fingerprint : list Z; ci_Digest : list Z; ci_SourceIP : string; ci_Now : Time; ci_ExpiresAt : Time }.
Record ChallengeProof := mkChallengeProof {
  cp_ID : string; cp_Challenge : list Z; cp_Fingerprint : list Z; cp_Digest : list Z; cp_SourceIP : string; cp_Now : Time }.

Definition stale (now : Time) (c : Challenge) : bool := (ch_expires c <=? now) || bool_decide (ch_consumed c <> None).
Definition pruneGrantChallenges (grantID : string) (now : Time) : T unit :=
  exec (fun d => set_challenges (delete_where (fun _ c => (ch_grant c =s grantID) && stale now c) (db_challenges d)) d).
Definition countActiveChallenges (grantID : string) (now : Time) (d : DB) : Z :=
  count_where (fun _ c => (ch_grant c =s grantID) && bool_decide (ch_consumed c = None) && (now <? ch_expires c)) (db_challenges d).
Definition insert_challenge (id : string) (c : Challenge) : T unit := fun d =>
  if bool_decide (is_Some (db_challenges d !! id)) then Err EDatabase
  else if exists_where (fun _ x => bool_decide (ch_hash x = ch_hash c)) (db_challenges d) then Err EDatabase
  else if bool_decide (db_grants d !! ch_grant c = None) then Err EDatabase
  else Ok (tt, set_challenges (<[id := c]> (db_challenges d)) d).
Definition CreateChallenge (id : string) (input : ChallengeInput) : T (string * Challenge) :=
  pruneGrantChallenges (ci_GrantID input) (ci_Now input) >>>
  (active <~ query (countActiveChallenges (ci_GrantID input) (ci_Now input)) ;;
   if maxActiveChallengesPerGrant <=? active then fail EChallengeLimit
   else
     let c := mkChallenge (ci_GrantID input) (ci_Hash input) (ci_Fingerprint input) (ci_Digest input) (ci_SourceIP input) (ci_ExpiresAt input) (ci_Now input) None in
     insert_challenge id c >>> ret (id, c)).

Definition bindingsMatch (c : Challenge) (p : ChallengeProof) : bool :=
  After (ch_expires c) (cp_Now p) && ConstantTimeCompare (ch_hash c) (Sum256 (cp_Challenge p)) && ConstantTimeCompare (ch_fingerprint c) (cp_Fingerprint p)
  && ConstantTimeCompare (ch_digest c) (cp_Digest p) && (ch_source c =s cp_SourceIP p).
Definition consumed_at (now : Time) (c : Challenge) : Challenge :=
  mkChallenge (ch_grant c) (ch_hash c) (ch_fingerprint c) (ch_digest c) (ch_source c) (ch_expires c) (ch_created c) (Some now).
Definition ConsumeChallenge (p : ChallengeProof) : T Challenge :=
  row <~ query (fun d => db_challenges d !! cp_ID p) ;;
  c <~ require row EChallengeUnavailable ;;
  if negb (bindingsMatch c p) then fail EChallengeUnavailable
  else if bool_decide (ch_consumed c <> None) then fail EChallengeUnavailable
  else exec (fun d => set_challenges (<[cp_ID p := consumed_at (cp_Now p) c]> (db_challenges d)) d) >>> ret c.

(** ** agent_enrollment_request.go and the automatic part of agent_enrollment_approval.go *)

Definition maxOpenRequestsPerGrant : Z := 1024.
Definition enrollmentRequestLifetime : Duration := 72 * Hour.
Record RequestInput := mkRequestInput {
  ri_GrantID : string; ri_Fingerprint : list Z; ri_PublicKey : list Z; ri_Token : Secret; ri_Metadata : Metadata; ri_SourceIP : string; ri_Now : Time }.

Definition enrollmentGrantForUpdate (id : string) : T Grant := g <~ query (fun d => db_grants d !! id) ;; require g EGrantUnavailable.
Definition loadEnrollmentRequestTx (id : string) : T Request := r <~ query (fun d => db_requests d !! id) ;; require r ERequestNotFound.

Definition openEnrollmentRequest (grantID : string) (fingerprint : list Z) (d : DB) : option (string * Request) :=
  head (rows_where (fun _ r => (er_grant r =s grantID) && bool_decide (er_fingerprint r = fingerprint) && openStatus r) (db_requests d)).
Definition countOpenEnrollmentRequests (grantID : string) (d : DB) : Z := count_where (fun _ r => (er_grant r =s grantID) && openStatus r) (db_requests d).

Definition insertEnrollmentRequest (id : string) (i : RequestInput) : T unit :=
  insert_request id (mkRequest (ri_GrantID i) (ri_Fingerprint i) (ri_PublicKey i) (Hash (ri_Token i)) (Prefix (ri_Token i)) (ri_Now i) RequestPending
    (ri_Metadata i) (ri_SourceIP i) (ri_Now i) (ri_Now i) None "" "" None "" None "" None None 0 None None 0 (Add (ri_Now i) enrollmentRequestLifetime)).
Definition rotateEnrollmentToken (id : string) (i : RequestInput) : T unit :=
  taken <~ query (token_taken id (Hash (ri_Token i))) ;;
  if taken : bool then fail EDatabase
  else
    affected <~ update_requests (fun _ k r => (k =s id) && openStatus r)
      (fun _ => set_contact (Hash (ri_Token i)) (Prefix (ri_Token i)) (ri_Metadata i) (ri_SourceIP i) (ri_Now i) (Add (ri_Now i) enrollmentRequestLifetime)) ;;
    if affected =? 0 then fail ERequestUnavailable else ret tt.

Definition upsertEnrollmentRequest (id : string) (i : RequestInput) : T (bool * string) :=
  existing <~ query (openEnrollmentRequest (ri_GrantID i) (ri_Fingerprint i)) ;;
  match existing with
  | Some (k, r) =>
      if negb (bool_decide (er_key r = ri_PublicKey i)) then fail ERequestUnavailable
      else rotateEnrollmentToken k i >>> ret (true, k)
  | None =>
      open <~ query (countOpenEnrollmentRequests (ri_GrantID i)) ;;
      if maxOpenRequestsPerGrant <=? open then fail ERequestCapacity
      else insertEnrollmentRequest id i >>> ret (false, id)
  end.

Record reservation := mkReservation {
  rs_Name : string; rs_GroupID : string; rs_Tags : list string; rs_Remarks : string; rs_Public : bool; rs_Host : string; rs_SSHPort : Z }.
Definition insertEnrollmentNode (nodeID : string) (i : reservation) (now : Time) : T unit :=
  insert_node nodeID (mkNode (rs_Name i) (rs_GroupID i) (rs_Host i) (rs_SSHPort i) (rs_Tags i) (rs_Public i) (rs_Remarks i) 0 CredentialPendingClaim
    "active" None "" None None None now).
Definition set_consumed (consumed : Z) (now : Time) (g : Grant) : Grant :=
  mkGrant (gr_policy g) (gr_hash g) (gr_prefix g) (gr_revoked g) consumed (gr_created_by g) (gr_created g) now.
(** The slot of the grant, the hidden node, and the node on the request. *)
Definition takeSlot (grantID : string) (now : Time) : T unit :=
  row <~ query (fun d => db_grants d !! grantID) ;;
  match row with
  | Some g =>
      if not_revoked g && (gr_consumed g <? MaximumEnrollments (gr_policy g))
      then exec (fun d => set_grants (<[grantID := set_consumed (gr_consumed g + 1) now g]> (db_grants d)) d)
      else fail EGrantCapacity
  | None => fail EGrantCapacity
  end.
Definition reserveEnrollmentNode (requestID grantID nodeID actor : string) (i : reservation) (now : Time) : T unit :=
  takeSlot grantID now >>>
  insertEnrollmentNode nodeID i now >>>
  (updated <~ update_requests (fun _ k r => (k =s requestID) && CanApprove (er_status r)) (fun _ => set_approved nodeID (rs_Name i) actor now) ;;
   if updated =? 0 then fail ERequestUnavailable else ret tt).

Definition enrollmentReasonPolicyConflict : string := "policy_conflict".
Definition enrollmentReasonNameConflict : string := "name_conflict".
Definition recordEnrollmentConflict (id reason : string) (now : Time) : T unit :=
  update_requests (fun _ k r => (k =s id) && (er_status r =s RequestPending)) (fun _ => set_reason reason) >>>
  writeEnrollmentAudit "agent.enrollment.request.conflict" enrollmentRequestResourceType id no_actor now.
Definition automaticEnrollmentReservation (g : Grant) (r : Request) : result string reservation :=
  let p := gr_policy g in
  match DeriveNodeName (NodeNamePrefix p) (Hostname (er_metadata r)) with
  | Err _ => Err enrollmentReasonPolicyConflict
  | Ok name =>
      match CompileSourcePolicy (SourceCIDRs p) (HostnamePattern p) with
      | Err _ => Err enrollmentReasonPolicyConflict
      | Ok source =>
          if negb (AllowsHostname source (Hostname (er_metadata r))) then Err enrollmentReasonPolicyConflict
          else
            let host := if UseSourceIPAsHost p then er_source r else AdvertisedHost (er_metadata r) in
            Ok (mkReservation name (DefaultGroupID p) (Tags p) (Remarks p) (Public p) host (SSHPort p))
      end
  end.
Definition enrollmentNodeNameTaken (name : string) (d : DB) : bool := exists_where (fun _ n => nd_name n =s name) (db_nodes d).
Definition autoApproveEnrollmentRequest (grantID : string) (g : Grant) (id nodeID : string) (now : Time) : T unit :=
  r <~ loadEnrollmentRequestTx id ;;
  if negb (er_status r =s RequestPending) then ret tt
  else match automaticEnrollmentReservation g r with
  | Err reason => recordEnrollmentConflict id reason now
  | Ok decision =>
      taken <~ query (enrollmentNodeNameTaken (rs_Name decision)) ;;
      if taken : bool then recordEnrollmentConflict id enrollmentReasonNameConflict now
      else reserveEnrollmentNode id grantID nodeID (gr_created_by g) decision now
  end.

Definition CreateOrResumeRequest (cx : Context) (id nodeID : string) (i : RequestInput) : T (string * Request * bool) :=
  if negb (MetadataValidate (ri_Metadata i)) then fail EInvalidMetadata
  else
    g <~ enrollmentGrantForUpdate (ri_GrantID i) ;;
    if negb (Available g (ri_Now i)) then fail EGrantUnavailable
    else
      up <~ upsertEnrollmentRequest id i ;;
      (if Mode (gr_policy g) =s ApprovalAutomatic then autoApproveEnrollmentRequest (ri_GrantID i) g up.2 nodeID (ri_Now i) else ret tt) >>>
      writeEnrollmentAudit (if up.1 : bool then "agent.enrollment.request.resume" else "agent.enrollment.request.create") enrollmentRequestResourceType
        up.2 (cx_audit cx) (ri_Now i) >>>
      (r <~ loadEnrollmentRequestTx up.2 ;; ret (up.2, r, up.1)).

(** ** agent_enrollment_approval.go *)

Definition maxEnrollmentNodeNameLength : Z := 256.
Definition maxRejectionReasonLength : Z := 64.
Record Approval := mkApproval {
  ap_RequestID : string; ap_NodeName : string; ap_GroupID : string; ap_Tags : list string; ap_Remarks : string; ap_Public : bool; ap_Host : string;
  ap_SSHPort : Z; ap_ActorID : string }.
Record Rejection := mkRejection { rj_RequestID : string; rj_ActorID : string; rj_Reason : string }.

Definition validateEnrollmentNodeName (name : string) : bool :=
  negb (name =s "") && (len name <=? maxEnrollmentNodeNameLength) && negb (ContainsControl name) && ValidString name.

Definition decideEnrollmentRequest (cx : Context) (id action : string) (decide : Request -> Grant -> T unit) : T Request :=
  request <~ loadEnrollmentRequestTx id ;;
  grant <~ enrollmentGrantForUpdate (er_grant request) ;;
  decide request grant >>>
  (updated <~ loadEnrollmentRequestTx id ;;
   writeEnrollmentAudit action enrollmentRequestResourceType id (cx_audit cx) (cx_now cx) >>> ret updated).

Definition ApproveEnrollmentRequest (cx : Context) (nodeID : string) (i : Approval) : T Request :=
  decideEnrollmentRequest cx (ap_RequestID i) "agent.enrollment.request.approve" (fun request grant =>
    let name := TrimSpace (ap_NodeName i) in
    if negb (validateEnrollmentNodeName name) then fail EInvalidMetadata
    else match NormalizeNodeTags (ap_Tags i) with
    | None => fail EInvalidMetadata
    | Some tags =>
        if (ap_SSHPort i <? MinSSHPort) || (MaxSSHPort <? ap_SSHPort i) then fail EInvalidMetadata
        else
          let groupID := if TrimSpace (ap_GroupID i) =s "" then DefaultGroupID (gr_policy grant) else ap_GroupID i in
          let host := TrimSpace (ap_Host i) in
          let host := if host =s "" then er_source request else host in
          reserveEnrollmentNode (ap_RequestID i) (er_grant request) nodeID (ap_ActorID i)
            (mkReservation name groupID tags (ap_Remarks i) (ap_Public i) host (ap_SSHPort i)) (cx_now cx)
    end).

Definition releaseEnrollmentReservation (id : string) (affected : Z) : T unit :=
  if affected =? 0 then fail ERequestUnavailable
  else
    update_requests (fun _ k _ => k =s id) snapshotted >>>
    delete_nodes (fun d n node => hidden_node node && reserved_by (fun k _ => k =s id) d n) >>>
    update_requests (fun _ k _ => k =s id) (fun _ r => set_reservation None (er_snapshot r) r) >>>
    ret tt.
Definition RejectEnrollmentRequest (cx : Context) (i : Rejection) : T Request :=
  decideEnrollmentRequest cx (rj_RequestID i) "agent.enrollment.request.reject" (fun _ _ =>
    let reason := TrimSpace (rj_Reason i) in
    if maxRejectionReasonLength <? len reason then fail EInvalidMetadata
    else
      affected <~ update_requests (fun _ k r => (k =s rj_RequestID i) && openStatus r) (fun _ => set_ended RequestRejected (rj_ActorID i) (cx_now cx) reason) ;;
      releaseEnrollmentReservation (rj_RequestID i) affected).

(** ** agent_enrollment_claim.go *)

Definition enrollmentTicketTTL : Duration := 2 * Minute.
Record ClaimResult := mkClaimResult {
  cr_Request : Request; cr_NodeID : string; cr_NodeName : string; cr_Host : string; cr_Port : Z; cr_GroupID : string; cr_Token : Token; cr_Recovered : bool }.

Definition RotateEnrollmentTicket (id : string) (ticket : Secret) (now : Time) : T Request :=
  affected <~ update_requests (fun _ k r => (k =s id) && str_in (er_status r) [RequestApproved; RequestClaimed])
    (fun _ r => set_ticket (Some (Hash ticket)) (Some (Add now enrollmentTicketTTL)) (er_generation r + 1) r) ;;
  if affected =? 0 then fail ETicketUnavailable else loadEnrollmentRequestTx id.

Definition requireEnrollmentTicket (r : Request) (ticket : string) (now : Time) : bool :=
  match er_ticket r, er_ticket_expires r with
  | Some hash, Some expires => SecretMatches hash ticket && After expires now
  | _, _ => false
  end.
Definition readEnrollmentNode (id state : string) : T Node :=
  row <~ query (fun d => db_nodes d !! id) ;;
  n <~ require row ERequestUnavailable ;;
  if (nd_state n =s state) && (nd_lifecycle n =s "active") then ret n else fail ERequestUnavailable.
Definition writeEnrollmentNodeToken (id : string) (token : Token) (now : Time) : T unit :=
  update_token id (Token_Hash token) (set_token (Some (Token_Hash token)) (Token_Prefix token) (Some now) None None CredentialActive now).
(** ON CONFLICT DO NOTHING. *)
Definition rememberEnrollmentIdentity (hash : list Z) (nodeID : string) (created : Time) : T unit :=
  exec (fun d => set_identities match db_identities d !! hash with Some _ => db_identities d | None => <[hash := (Some nodeID, created)]> (db_identities d) end d).

Definition activateEnrollmentNode (id : string) (r : Request) (token : Token) (now : Time) : T ClaimResult :=
  match er_node r with
  | None => fail ERequestUnavailable
  | Some nodeID =>
      node <~ readEnrollmentNode nodeID CredentialPendingClaim ;;
      writeEnrollmentNodeToken nodeID token now >>>
      rememberEnrollmentIdentity (Token_Hash token) nodeID now >>>
      update_requests (fun _ k r => (k =s id) && (er_status r =s RequestApproved))
        (fun _ => set_claimed RequestClaimed (Some now) (Some (Add now ClaimRecoveryWindow)) 0) >>>
      ret (mkClaimResult r nodeID (nd_name node) (nd_host node) (nd_port node) (nd_group node) token false)
  end.
Definition recoverEnrollmentNode (id : string) (r : Request) (g : Grant) (token : Token) (now : Time) : T ClaimResult :=
  match er_deadline r, er_node r with
  | Some deadline, Some nodeID =>
      if negb (ClaimRecovery (gr_policy g)) || negb (Before now deadline) || (MaxClaimRecoveryAttempts <=? er_attempts r) then fail ERecoveryUnavailable
      else
        node <~ readEnrollmentNode nodeID CredentialActive ;;
        writeEnrollmentNodeToken nodeID token now >>>
        update_requests (fun _ k r => (k =s id) && (er_status r =s RequestClaimed))
          (fun _ r => set_claimed (er_status r) (er_claimed r) (er_deadline r) (er_attempts r + 1) r) >>>
        ret (mkClaimResult r nodeID (nd_name node) (nd_host node) (nd_port node) (nd_group node) token true)
  | _, _ => fail ERecoveryUnavailable
  end.
Definition applyEnrollmentClaim (id : string) (r : Request) (g : Grant) (token : Token) (now : Time) : T ClaimResult :=
  if er_status r =s RequestApproved then activateEnrollmentNode id r token now
  else if er_status r =s RequestClaimed then recoverEnrollmentNode id r g token now
  else fail ERequestUnavailable.
Definition ClaimEnrollmentRequest (cx : Context) (id ticket : string) (token : Token) : T ClaimResult :=
  request <~ loadEnrollmentRequestTx id ;;
  if negb (requireEnrollmentTicket request ticket (cx_now cx)) then fail ETicketUnavailable
  else
    grant <~ enrollmentGrantForUpdate (er_grant request) ;;
    if negb (enrollmentActive grant (cx_now cx)) then fail EGrantUnavailable
    else
      result <~ applyEnrollmentClaim id request grant token (cx_now cx) ;;
      writeEnrollmentAudit (if cr_Recovered result then "agent.enrollment.claim.recover" else "agent.enrollment.claim") enrollmentRequestResourceType
        id (cx_audit cx) (cx_now cx) >>>
      ret result.

(** ** agent_enrollment_cleanup.go *)

Definition enrollmentSystemActor : string := "system:enrollment-cleanup".
Definition enrollmentReasonRequestExpired : string := "request_expired".
Record CleanupResult := mkCleanupResult { ExpiredRequests : Z; PrunedChallenges : Z; PrunedTickets : Z }.

(** enrollmentOpenRequestCondition *)
Definition closed_grant (now : Time) (g : Grant) : bool := bool_decide (gr_revoked g <> None) || (ExpiresAt (gr_policy g) <=? now).
Definition to_end (now : Time) (d : DB) (r : Request) : bool :=
  openStatus r && ((er_expires r <=? now) || match db_grants d !! er_grant r with Some g => closed_grant now g | None => false end).

Definition pruneExpiredChallenges (now : Time) : T Z := fun d =>
  Ok (count_where (fun _ => stale now) (db_challenges d), set_challenges (delete_where (fun _ => stale now) (db_challenges d)) d).
Definition pruneExpiredTicketsTx (now : Time) : T Z :=
  update_requests (fun _ _ r => bool_decide (er_ticket r <> None) && match er_ticket_expires r with Some t => t <=? now | None => false end)
    (fun _ r => set_ticket None None (er_generation r) r).
Definition expireOpenEnrollmentRequests (now : Time) : T Z :=
  update_requests (fun d _ => to_end now d) snapshotted >>>
  delete_nodes (fun d id n => hidden_node n && reserved_by (fun _ => to_end now d) d id) >>>
  update_requests (fun d _ => to_end now d)
    (fun _ r => set_reservation None (er_snapshot r) (set_ended RequestExpired enrollmentSystemActor now enrollmentReasonRequestExpired r)).
Definition deleteOrphanEnrollmentNodes : T unit :=
  delete_nodes (fun d id n => hidden_node n && negb (reserved_by (fun _ _ => true) d id)).
Definition CleanupEnrollmentState (now : Time) : T CleanupResult :=
  challenges <~ pruneExpiredChallenges now ;;
  tickets <~ pruneExpiredTicketsTx now ;;
  requests <~ expireOpenEnrollmentRequests now ;;
  deleteOrphanEnrollmentNodes >>>
  (if requests =? 0 then ret tt else writeEnrollmentAudit "agent.enrollment.request.expire" enrollmentRequestResourceType "" no_actor now) >>>
  ret (mkCleanupResult requests challenges tickets).
End service.
