(* ===== verification/EnrollNodes.v ===== *)
(** * Agent enrollment: node credentials and the one-time join

    [store/node_credential.go] and what other files of the store do to the same rows
    ([node.go], [node_heartbeat.go], [node_presentation.go], the lifecycle column of
    [metric_erasure.go]), [api/middleware/auth.go] for agents, the handlers of
    [api/handler/node_manage.go] that rotate and revoke a token, and the one-time join
    ([agentjoin/validation.go], [store/enrollment{,_consume,_identity}.go]).

    That the administrator may make the change, the limits of alert scopes and the guard of
    running operations are checked by other components; when one refuses, the transaction
    fails and nothing changes. What a join writes to the tables of accelerators is theirs. *)

From S2P Require Import Prelude GoText GoNumber GoSha256 GoTable EnrollSecret EnrollPolicy EnrollModel EnrollService.

(** ** Reading nodes *)

(** hiddenNodeFilter *)
Definition visible (n : Node) : bool := negb (nd_state n =s CredentialPendingClaim).
Definition is_active (n : Node) : bool := nd_lifecycle n =s "active".
Definition GetNode (id : string) : T (option Node) :=
  query (fun d => match db_nodes d !! id with Some n => if visible n && is_active n then Some n else None | None => None end).
Definition getNodeByNameFrom (name : string) (d : DB) : option (string * Node) :=
  head (rows_where (fun _ n => visible n && (nd_name n =s name) && is_active n) (db_nodes d)).

(** ** node_credential.go *)

Record ManagedNodeInput := mkManagedNodeInput { mi_Name : string; mi_GroupID : string; mi_Host : string; mi_Port : Z }.
Record AgentCredential := mkAgentCredential { cd_Hash : list Z; cd_Prefix : string; cd_CreatedAt : Time }.

Definition defaultGroupIDFrom : T string := g <~ query db_default ;; require g EDatabase.
Definition CreateManagedNode (id : string) (i : ManagedNodeInput) (c : AgentCredential) : T Node :=
  groupID <~ (if mi_GroupID i =s "" then defaultGroupIDFrom else ret (mi_GroupID i)) ;;
  let n := mkNode (mi_Name i) groupID (mi_Host i) (mi_Port i) [] true "" 0 CredentialActive "active" (Some (cd_Hash c)) (cd_Prefix c)
             (Some (cd_CreatedAt c)) None None (cd_CreatedAt c) in
  insert_node id n >>> ret n.

(** [mutateCredentialNode]: a node that is not there gives no node and changes nothing. *)
Definition mutateCredentialNode (id : string) (apply_ : T unit) : T (option Node) :=
  previous <~ query (fun d => db_nodes d !! id) ;;
  match previous with
  | None => ret None
  | Some _ => apply_ >>> query (fun d => db_nodes d !! id)
  end.
Definition RotateAgentToken (id : string) (c : AgentCredential) : T (option Node) :=
  mutateCredentialNode id (update_token id (cd_Hash c) (fun n =>
    set_token (Some (cd_Hash c)) (cd_Prefix c) (Some (cd_CreatedAt c)) None None (nd_state n) (cd_CreatedAt c) n)).
Definition RevokeAgentToken (id : string) (revokedAt : Time) : T (option Node) :=
  mutateCredentialNode id (exec (fun d => set_nodes (alter (fun n =>
    set_token (nd_hash n) (nd_prefix n) (nd_created n) (nd_used n) (Some revokedAt) (nd_state n) revokedAt n) id (db_nodes d)) d)).

Definition usable (n : Node) : bool := bool_decide (nd_created n <> None) && bool_decide (nd_revoked n = None) && is_active n && (nd_state n =s CredentialActive).
Definition AuthenticateAgentToken (token : string) (d : DB) : option (string * Node) :=
  match DisplayPrefix token with
  | None => None
  | Some _ => head (rows_where (fun _ n => bool_decide (nd_hash n = Some (Digest token)) && usable n) (db_nodes d))
  end.
Definition AuthenticateLegacyNode (name : string) (d : DB) : option (string * Node) :=
  head (rows_where (fun _ n => (nd_name n =s name) && bool_decide (nd_hash n = None) && bool_decide (nd_created n = None) && bool_decide (nd_revoked n = None)
    && is_active n && (nd_state n =s CredentialLegacy)) (db_nodes d)).
Definition TouchAgentToken (id : string) (usedAt : Time) (minimumInterval : Duration) : T unit :=
  exec (fun d => set_nodes (alter (fun n =>
    if bool_decide (nd_hash n <> None) && bool_decide (nd_revoked n = None)
       && match nd_used n with None => true | Some u => u <=? Add usedAt (- minimumInterval) end
    then set_token (nd_hash n) (nd_prefix n) (nd_created n) (Some usedAt) (nd_revoked n) (nd_state n) (nd_updated n) n else n) id (db_nodes d)) d).

(** ** api/middleware/auth.go *)

Definition agentLastUsedInterval : Duration := 5 * Minute.
Definition AgentCredentialFingerprint (hash : list Z) : string := if llen hash =? 32 then EncodeHex (Sum256 hash) else "".
Record AgentIdentity := mkAgentIdentity { ai_NodeID : string; ai_NodeName : string; ai_Mode : string; ai_Fingerprint : string }.
Definition tokensEqual (actual expected : string) : bool := ConstantTimeCompare (Sum256 (bytes actual)) (Sum256 (bytes expected)).
(** [None] is the answer 401. [legacyName] is what the route's resolver gives, [readOnly]
    whether the request may not write. *)
Definition authenticateAgent (legacyToken : string) (legacyName : option string) (readOnly : bool) (token : string) (now : Time) : T (option AgentIdentity) :=
  node <~ query (AuthenticateAgentToken token) ;;
  match node with
  | Some (id, n) =>
      (if readOnly then ret tt else TouchAgentToken id now agentLastUsedInterval) >>>
      ret (Some (mkAgentIdentity id (nd_name n) CredentialActive (AgentCredentialFingerprint (default [] (nd_hash n)))))
  | None =>
      if (legacyToken =s "") || negb (tokensEqual token legacyToken) then ret None
      else match legacyName with
      | None => ret None
      | Some name =>
          if name =s "" then ret None
          else
            node <~ query (AuthenticateLegacyNode name) ;;
            ret (match node with
                 | Some (id, n) => Some (mkAgentIdentity id (nd_name n) CredentialLegacy (AgentCredentialFingerprint (Sum256 (bytes token))))
                 | None => None
                 end)
      end
  end.

(** ** api/handler/node_manage.go, from the node to its new token *)

Definition HandleRotateAgentToken (id : string) (token : Token) (now : Time) : T (option Node) :=
  node <~ GetNode id ;;
  match node with
  | None => ret None
  | Some _ => RotateAgentToken id (mkAgentCredential (Token_Hash token) (Token_Prefix token) now)
  end.

(** ** The other writers of nodes *)

Definition DeleteNode (id : string) : T unit := delete_nodes (fun _ k _ => k =s id).
(** lifecycle_state, by [metric_erasure.go]. *)
Definition set_lifecycle (lifecycle : string) (now : Time) (n : Node) : Node :=
  mkNode (nd_name n) (nd_group n) (nd_host n) (nd_port n) (nd_tags n) (nd_public n) (nd_remark n) (nd_sort n) (nd_state n) lifecycle (nd_hash n)
    (nd_prefix n) (nd_created n) (nd_used n) (nd_revoked n) now.
Definition updateLifecycle (id from to : string) (now : Time) : T unit :=
  exec (fun d => set_nodes (alter (fun n => if nd_lifecycle n =s from then set_lifecycle to now n else n) id (db_nodes d)) d).
(** The columns of a heartbeat and of an administrator's update: neither the name nor the credential. *)
Definition set_contact_point (host : string) (port : Z) (now : Time) (n : Node) : Node :=
  mkNode (nd_name n) (nd_group n) host port (nd_tags n) (nd_public n) (nd_remark n) (nd_sort n) (nd_state n) (nd_lifecycle n) (nd_hash n)
    (nd_prefix n) (nd_created n) (nd_used n) (nd_revoked n) now.
Definition UpsertNode (id name host : string) (port : Z) (now : Time) : T unit :=
  node <~ query (getNodeByNameFrom name) ;;
  match node with
  | Some (k, _) => exec (fun d => set_nodes (alter (set_contact_point host port now) k (db_nodes d)) d)
  | None =>
      groupID <~ defaultGroupIDFrom ;;
      insert_node id (mkNode name groupID host port [] true "" 0 CredentialLegacy "active" None "" None None None now)
  end.
Record NodeUpdate := mkNodeUpdate {
  nu_GroupID : string; nu_SortOrder : option Z; nu_Tags : option (list string); nu_Public : option bool; nu_PrivateRemark : option string }.
Definition UpdateNode (id : string) (u : NodeUpdate) (now : Time) : T (option Node) :=
  existing <~ query (fun d => match db_nodes d !! id with Some n => if visible n then Some n else None | None => None end) ;;
  match existing with
  | None => ret None
  | Some n =>
      let n := mkNode (nd_name n) (nu_GroupID u) (nd_host n) (nd_port n) (default (nd_tags n) (nu_Tags u)) (default (nd_public n) (nu_Public u))
                 (default (nd_remark n) (nu_PrivateRemark u)) (default (nd_sort n) (nu_SortOrder u)) (nd_state n) (nd_lifecycle n) (nd_hash n)
                 (nd_prefix n) (nd_created n) (nd_used n) (nd_revoked n) now in
      known <~ query (fun d => bool_decide (nu_GroupID u ∈ db_groups d)) ;;
      if negb known then fail EDatabase else exec (fun d => set_nodes (<[id := n]> (db_nodes d)) d) >>> ret (Some n)
  end.

(** ** node_presentation.go *)

Definition maxNodeSortItems : Z := 1000.
Fixpoint hasDuplicateNodeIDs (ids : list string) : bool :=
  match ids with [] => false | id :: rest => (id =s "") || str_in id rest || hasDuplicateNodeIDs rest end.
Definition validateNodeSortGroup (ids : list string) (d : DB) : option string :=
  match mapM (fun id => nd_group <$> db_nodes d !! id) ids with
  | Some (g :: rest) => if forallb (fun x => x =s g) rest then Some g else None
  | _ => None
  end.
Definition UpdateNodeSort (ids : list string) (now : Time) : T unit :=
  if (llen ids =? 0) || (maxNodeSortItems <? llen ids) || hasDuplicateNodeIDs ids then fail ENodeSort
  else
    group <~ query (validateNodeSortGroup ids) ;;
    groupID <~ require group ENodeSort ;;
    count <~ query (fun d => count_where (fun _ n => nd_group n =s groupID) (db_nodes d)) ;;
    if negb (count =? llen ids) then fail ENodeSort
    else each (fun kv => exec (fun d => set_nodes (alter (set_sort kv.1 now) kv.2 (db_nodes d)) d)) (imap (fun i id => (Z.of_nat i, id)) ids).
(** [ListNodes] of a group. *)
Definition ListNodes (groupID : string) (d : DB) : list (string * Node) := rows_where (fun _ n => visible n && (nd_group n =s groupID) && is_active n) (db_nodes d).

(** ** agentjoin/validation.go *)

Section join.
Context `{EnrollExternals}.

Definition MaximumNodeNameBytes : Z := 100.
Definition MaximumHostBytes : Z := 253.
Definition MaximumRequestIDBytes : Z := 128.
Record JoinRequest := mkJoinRequest { jr_RequestID : string; jr_AgentToken : string; jr_NodeName : string; jr_AdvertisedHost : string; jr_SSHPort : Z }.

Definition asciiAlphaNumeric (r : Z) : bool := between 97 122 r || between 65 90 r || between 48 57 r.
Definition invalidRequestIDRune (r : Z) : bool := negb (asciiAlphaNumeric r) && negb (r =? 95) && negb (r =? 45).
Definition validLabel (label : string) : bool :=
  negb (len label =? 0) && (len label <=? 63) && negb (HasPrefix label "-") && negb (HasSuffix label "-")
  && forallb (fun r => asciiAlphaNumeric r || (r =? 45)) (runes label).
Definition ValidHost (value : string) : bool :=
  if (value =s "") || (MaximumHostBytes <? len value) then false
  else match ParseAddr value with
  | Some address => Zone address =s ""
  | None => forallb validLabel (Split (TrimSuffix value ".") "."%char)
  end.
Definition JoinRequestValidate (r : JoinRequest) : bool :=
  negb (jr_RequestID r =s "") && (len (jr_RequestID r) <=? MaximumRequestIDBytes) && negb (existsb invalidRequestIDRune (runes (jr_RequestID r)))
  && bool_decide (is_Some (DisplayPrefix (jr_AgentToken r)))
  && negb (TrimSpace (jr_NodeName r) =s "") && (len (jr_NodeName r) <=? MaximumNodeNameBytes) && negb (ContainsControl (jr_NodeName r))
  && ((jr_AdvertisedHost r =s "") || ValidHost (jr_AdvertisedHost r)) && (1 <=? jr_SSHPort r) && (jr_SSHPort r <=? 65535).

(** ** store/enrollment.go *)

Definition maximumEnrollmentTokens : Z := 4096.
Definition reserveEnrollmentCapacity (now : Time) : T unit :=
  exec (fun d => set_joins (delete_where (fun _ j => jt_expires j <=? now) (db_joins d)) d) >>>
  (count <~ query (fun d => Z.of_nat (size (db_joins d))) ;;
   if maximumEnrollmentTokens <=? count then fail EJoinCapacity else ret tt).
(** [origin] is the normalised server URL, [None] when it is not an acceptable one. *)
Definition CreateEnrollmentToken (id : string) (origin : option string) (hash : list Z) (prefix : string) (allowHTTP : bool) (creator : string)
    (created expires : Time) : T JoinToken :=
  match origin with
  | None => fail EJoinInvalid
  | Some url =>
      if negb (llen hash =? 32) || (creator =s "") || negb (After expires created) then fail EJoinInvalid
      else
        reserveEnrollmentCapacity created >>>
        let j := mkJoinToken hash prefix url allowHTTP creator created expires None None None "" None [] "" "" 22 "" in
        (fun d => if bool_decide (is_Some (db_joins d !! id)) || exists_where (fun _ x => bool_decide (jt_hash x = hash)) (db_joins d) then Err EDatabase
                  else Ok (j, set_joins (<[id := j]> (db_joins d)) d))
  end.
Definition RevokeEnrollmentToken (id : string) (now : Time) : T unit := exec (fun d => set_joins (alter (join_revoked now) id (db_joins d)) d).

(** ** store/enrollment_consume.go and enrollment_identity.go *)

Record ConsumeInput := mkConsumeInput { si_TokenHash : list Z; si_Request : JoinRequest; si_SourceIP : string; si_Secure : bool; si_Now : Time; si_AuditRequestID : string }.
Record JoinResult := mkJoinResult { jo_NodeID : string; jo_ServerURL : string; jo_AgentToken : string; jo_NodeName : string; jo_Host : string; jo_SSHPort : Z }.
Record EnrollmentIdentity := mkIdentity { ei_ID : string; ei_Name : string; ei_Host : string; ei_Port : Z; ei_Hash : list Z; ei_CreatedAt : Time }.

Definition prepareEnrollmentInput (i : ConsumeInput) : result Error ConsumeInput :=
  let r := si_Request i in
  if negb (JoinRequestValidate r) then Err EJoinInvalid
  else if negb (llen (si_TokenHash i) =? 32) then Err EUnauthorized
  else match ParseAddr (si_SourceIP i) with
  | None => Err ESource
  | Some address =>
      if Zone address <>s "" then Err ESource
      else
        let source := AddrString (Unmap address) in
        let host := if jr_AdvertisedHost r =s "" then source else jr_AdvertisedHost r in
        Ok (mkConsumeInput (si_TokenHash i) (mkJoinRequest (jr_RequestID r) (jr_AgentToken r) (TrimSpace (jr_NodeName r)) host (jr_SSHPort r)) source
              (si_Secure i) (si_Now i) (si_AuditRequestID i))
  end.
Definition readEnrollment (hash : list Z) : T (string * JoinToken) :=
  row <~ query (fun d => head (rows_where (fun _ j => bool_decide (jt_hash j = hash)) (db_joins d))) ;; require row EUnauthorized.
Definition resumeEnrollment (j : JoinToken) (i : ConsumeInput) : T unit :=
  let r := si_Request i in
  if negb (jr_RequestID r =s jt_request j) || negb (Matches (jt_agent j) (jr_AgentToken r)) then fail EUnauthorized
  else match jt_node j, jt_credential j with
  | Some node, Some created =>
      found <~ query (fun d => match db_nodes d !! node with
                               | Some n => bool_decide (nd_hash n = Some (jt_agent j)) && bool_decide (nd_created n = Some created) && bool_decide (nd_revoked n = None)
                               | None => false
                               end) ;;
      if found : bool then ret tt else fail EIdentityUnavailable
  | _, _ => fail EIdentityUnavailable
  end.
Definition findEnrollmentIdentity (r : JoinRequest) : T (option EnrollmentIdentity) :=
  let hash := Digest (jr_AgentToken r) in
  binding <~ query (fun d => db_identities d !! hash) ;;
  row <~ query (fun d => head (rows_where (fun _ n => bool_decide (nd_hash n = Some hash)) (db_nodes d))) ;;
  match row with
  | None => match binding with Some _ => fail EIdentityUnavailable | None => ret None end
  | Some (id, n) =>
      match nd_created n with
      | None => fail EIdentityUnavailable
      | Some created =>
          if bool_decide (nd_revoked n <> None) then fail EIdentityUnavailable
          else if match binding with Some (node, at_) => negb (bool_decide (node = Some id) && TimeEqual at_ created) | None => false end then fail EIdentityUnavailable
          else if negb (JoinRequestValidate (mkJoinRequest (jr_RequestID r) (jr_AgentToken r) (nd_name n) (nd_host n) (nd_port n))) then fail EIdentityUnavailable
          else ret (Some (mkIdentity id (nd_name n) (nd_host n) (nd_port n) hash created))
      end
  end.
Definition createEnrollmentNode (nodeID : string) (r : JoinRequest) (now : Time) : T EnrollmentIdentity :=
  groupID <~ defaultGroupIDFrom ;;
  let hash := Digest (jr_AgentToken r) in
  insert_node nodeID (mkNode (jr_NodeName r) groupID (jr_AdvertisedHost r) (jr_SSHPort r) [] true "" 0 CredentialActive "active" (Some hash)
    (default "" (DisplayPrefix (jr_AgentToken r))) (Some now) None None now) >>>
  ret (mkIdentity nodeID (jr_NodeName r) (jr_AdvertisedHost r) (jr_SSHPort r) hash now).
Definition activateEnrollment (joinID nodeID : string) (i : ConsumeInput) : T EnrollmentIdentity :=
  found <~ findEnrollmentIdentity (si_Request i) ;;
  node <~ match found with Some node => ret node | None => createEnrollmentNode nodeID (si_Request i) (si_Now i) end ;;
  rememberEnrollmentIdentity (ei_Hash node) (ei_ID node) (ei_CreatedAt node) >>>
  exec (fun d => set_joins (alter (join_consumed (si_Now i) (ei_CreatedAt node) (jr_RequestID (si_Request i)) (ei_ID node) (ei_Hash node) (ei_Name node)
    (ei_Host node) (ei_Port node) (si_SourceIP i)) joinID (db_joins d)) d) >>>
  exec (fun d => set_audit (mkAuditRow "agent.enrollment.consume" "node" (ei_ID node) "" "agent" (si_AuditRequestID i) (si_SourceIP i) "" (si_Now i) :: db_audit d) d) >>>
  ret node.
Definition ConsumeEnrollmentToken (nodeID : string) (input : ConsumeInput) : T JoinResult :=
  i <~ lift (prepareEnrollmentInput input) ;;
  row <~ readEnrollment (si_TokenHash i) ;;
  let j := row.2 in
  if bool_decide (jt_revoked j <> None) || negb (Before (si_Now i) (jt_expires j)) || (negb (si_Secure i) && negb (jt_http j)) then fail EUnauthorized
  else match jt_consumed j with
  | Some _ =>
      resumeEnrollment j i >>>
      ret (mkJoinResult (default "" (jt_node j)) (jt_url j) (jr_AgentToken (si_Request i)) (jt_name j) (jt_host j) (jt_port j))
  | None =>
      node <~ activateEnrollment row.1 nodeID i ;;
      ret (mkJoinResult (ei_ID node) (jt_url j) (jr_AgentToken (si_Request i)) (ei_Name node) (ei_Host node) (ei_Port node))
  end.
End join.
