(* ===== verification/EnrollHandlers.v ===== *)
(** * Agent enrollment: the public protocol

    [api/handler/agent_discovery{,_claim,_request,_decode,_contract}.go] and
    [enrollment_budget.go]: the four endpoints an agent calls, from the parsed body to the
    answer, over the tables and the budgets. What the server reads from its environment
    (the clock, randomness, the client address of the middleware, the origin it is reached
    at) and the parsed JSON of the body are arguments; an instant is read once per call. *)

From S2P Require Import Prelude GoText GoNumber GoInstant GoSha256 GoTable EnrollSecret EnrollPolicy EnrollModel EnrollService.

(** ** enrollment_budget.go *)

Definition enrollmentBudgetWindow : Duration := Minute.
Record BudgetPolicy := mkBudgetPolicy { perIP : Z; bp_total : Z; concurrent : Z; keys : Z }.
(** An entry is the start of its window and its count. *)
Record Budget := mkBudget { bg_entries : gmap string (Time * Z); bg_start : Time; bg_total : Z; bg_active : Z }.
Definition newEnrollmentBudget : Budget := mkBudget ∅ 0 0 0.

Definition prune (now : Time) (b : Budget) : Budget :=
  let fresh := IsZero (bg_start b) || (enrollmentBudgetWindow <=? Sub now (bg_start b)) in
  mkBudget (delete_where (fun _ e => enrollmentBudgetWindow <=? Sub now e.1) (bg_entries b))
    (if fresh then now else bg_start b) (if fresh then 0 else bg_total b) (bg_active b).
Definition acquire (p : BudgetPolicy) (key : string) (now : Time) (b : Budget) : bool * Budget :=
  let b := prune now b in
  let entry := default (0, 0) (bg_entries b !! key) in
  let exists_ := bool_decide (is_Some (bg_entries b !! key)) in
  if (concurrent p <=? bg_active b) || (bp_total p <=? bg_total b) || (perIP p <=? entry.2)
     || (negb exists_ && (keys p <=? Z.of_nat (size (bg_entries b))))
  then (false, b)
  else (true, mkBudget (<[key := (if exists_ then entry.1 else now, entry.2 + 1)]> (bg_entries b)) (bg_start b) (bg_total b + 1) (bg_active b + 1)).
Definition release (b : Budget) : Budget := mkBudget (bg_entries b) (bg_start b) (bg_total b) (bg_active b - 1).

(** newDiscoveryBudgets: one budget per endpoint, and one for refused calls. *)
Inductive endpoint := EChallenge | ERequest | EPoll | EClaim | ERejected.
#[export] Instance endpoint_eq_dec : EqDecision endpoint.
Proof. solve_decision. Defined.
Definition budget_policy (e : endpoint) : BudgetPolicy :=
  match e with
  | EChallenge => mkBudgetPolicy 10 240 32 2048
  | ERequest => mkBudgetPolicy 10 240 32 2048
  | EPoll => mkBudgetPolicy 120 2400 64 4096
  | EClaim => mkBudgetPolicy 30 600 32 2048
  | ERejected => mkBudgetPolicy 60 1200 64 4096
  end.

Record World := mkWorld { w_db : DB; w_budget : endpoint -> Budget }.
Definition set_db (d : DB) (w : World) : World := mkWorld d (w_budget w).
Definition set_budget (e : endpoint) (b : Budget) (w : World) : World := mkWorld (w_db w) (fun e' => if decide (e' = e) then b else w_budget w e').

(** ** Calls and answers *)

(** A call as the handler sees it; [hr_origin] is what the configured origin gives. *)
Record HttpRequest := mkHttpRequest { hr_secure : bool; hr_client : string; hr_authorization : string; hr_path_id : string; hr_origin : string; hr_audit : AuditContext }.
Record Config := mkConfig { secureOnly : bool }.

Record ChallengeBody := mkChallengeBody { cb_public_key : string; cb_metadata_digest : string }.
Record MetadataPayload := mkMetadataPayload {
  mp_hostname : string; mp_advertised_host : string; mp_os : string; mp_architecture : string; mp_agent_version : string; mp_virtualization : string;
  mp_ssh_port : Z; mp_installation_nonce : string }.
Record CreateBody := mkCreateBody {
  rb_challenge_id : string; rb_challenge : string; rb_public_key : string; rb_metadata_digest : string; rb_metadata : MetadataPayload; rb_signature : string }.
Record StatusBody := mkStatusBody { sb_timestamp : string; sb_nonce : string; sb_signature : string }.
Record ClaimBody := mkClaimBody { kb_ticket : string; kb_timestamp : string; kb_nonce : string; kb_signature : string }.

Record StatusView := mkStatusView {
  sv_RequestID : string; sv_Status : string; sv_Reason : string; sv_Ticket : string; sv_Generation : Z; sv_TicketExpiresAt : string; sv_NodeID : string }.
Inductive Answer :=
  | Refused (status : Z)
  | ChallengeIssued (id : string) (challenge : string) (origin issued expires : string)
  | RequestCreated (id token status grantName : string)
  | StatusShown (v : StatusView)
  | NodeIssued (nodeID name group serverURL host : string) (port : Z) (token : string) (recovered : bool).

(** A handler stops with an answer or goes on. *)
Definition H (A : Type) : Type := World -> (Answer + A) * World.
Definition go {A} (a : A) : H A := fun w => (inr a, w).
Definition stop {A} (answer : Answer) : H A := fun w => (inl answer, w).
Definition andNext {A B} (m : H A) (k : A -> H B) : H B := fun w => match m w with (inr a, w) => k a w | (inl answer, w) => (inl answer, w) end.
Notation "x <<~ m ;; k" := (andNext m (fun x => k)) (at level 100, m at next level, k at level 200, right associativity).

Section handlers.
Context `{EnrollExternals}.

(** ** Decoding *)

Definition discoveryClockSkew : Duration := 2 * Minute.
Definition agentDiscoveryChallengeTTL : Duration := 2 * Minute.
Definition discoveryMinimumNonceBytes : Z := 16.
Definition discoveryMaximumNonceBytes : Z := 64.

Definition decodeDiscoverySecret (value prefix : string) : option Secret := DescribeSecret prefix (TrimSpace value).
Definition decodeDiscoveryFixed (value : string) (size : Z) : option (list Z) :=
  match DecodeString (TrimSpace value) with Some decoded => if llen decoded =? size then Some decoded else None | None => None end.
Definition decodeDiscoveryPublicKey (value : string) : option (list Z) := decodeDiscoveryFixed value 32.
Definition decodeDiscoverySignature (value : string) : option (list Z) := decodeDiscoveryFixed value 64.
Definition decodeDiscoveryDigest (value : string) : option (list Z) := decodeDiscoveryFixed value 32.
Definition decodeDiscoveryNonce (value : string) : option (list Z) :=
  match DecodeString (TrimSpace value) with
  | Some decoded => if (llen decoded <? discoveryMinimumNonceBytes) || (discoveryMaximumNonceBytes <? llen decoded) then None else Some decoded
  | None => None
  end.
Definition parseDiscoveryInstant (value : string) : option Time := ParseRFC3339 (TrimSpace value).
Definition withinDiscoverySkew (instant now : Time) : bool := (Sub now instant <=? discoveryClockSkew) && (- discoveryClockSkew <=? Sub now instant).

(** The scheme is compared in any case of its letters, which are not the ones other runes fold to. *)
Definition enrollmentBearerSecret (header : string) : option string :=
  let header := TrimSpace header in
  if (len header <=? 7) || negb (ToUpperASCII (str_take 7 header) =s "BEARER ") then None
  else let secret := TrimSpace (str_drop 7 header) in if secret =s "" then None else Some secret.

Definition metadataFromPayload (p : MetadataPayload) : Metadata :=
  mkMetadata (TrimSpace (mp_hostname p)) (TrimSpace (mp_advertised_host p)) (TrimSpace (mp_os p)) (TrimSpace (mp_architecture p))
    (TrimSpace (mp_agent_version p)) (TrimSpace (mp_virtualization p)) (if mp_ssh_port p =? 0 then 22 else mp_ssh_port p) (TrimSpace (mp_installation_nonce p)).
Record discoveryRequestCreate := mkDiscoveryCreate {
  dc_publicKey : list Z; dc_challenge : list Z; dc_digest : list Z; dc_metadata : Metadata; dc_canonical : list Z; dc_fingerprint : list Z;
  dc_signature : list Z; dc_challengeID : string }.
Definition decodeRequestCreate (b : CreateBody) : option discoveryRequestCreate :=
  match decodeDiscoveryPublicKey (rb_public_key b), decodeDiscoveryFixed (rb_challenge b) ChallengeSize,
        decodeDiscoveryDigest (rb_metadata_digest b), decodeDiscoverySignature (rb_signature b) with
  | Some publicKey, Some challenge, Some digest, Some signature =>
      if TrimSpace (rb_challenge_id b) =s "" then None
      else
        let metadata := metadataFromPayload (rb_metadata b) in
        if negb (MetadataValidate metadata) then None
        else
          let canonical := MetadataCanonical metadata in
          if negb (ConstantTimeCompare (Sum256 canonical) digest) then None
          else Some (mkDiscoveryCreate publicKey challenge digest metadata canonical (Sum256 publicKey) signature (TrimSpace (rb_challenge_id b)))
  | _, _, _, _ => None
  end.

(** ** The parts the endpoints share *)

Definition canonicalOrigin (r : HttpRequest) : string := TrimRight (TrimSpace (hr_origin r)) (fun a => Ascii.eqb a "/"%char).
Definition discoveryClientAddress (r : HttpRequest) : option Addr :=
  match ParseAddr (hr_client r) with Some address => if Zone address <>s "" then None else Some (Unmap address) | None => None end.
(** discoveryReject: what acquiring the budget of refused calls gives is not looked at. *)
Definition discoveryReject {A} (r : HttpRequest) (now : Time) : H A := fun w =>
  (inl (Refused 403),
   match discoveryClientAddress r with
   | Some address => set_budget ERejected (acquire (budget_policy ERejected) (AddrString address) now (w_budget w ERejected)).2 w
   | None => w
   end).
Definition respondStoreError (e : Error) : Answer :=
  match e with
  | EChallengeLimit => Refused 429
  | EInvalidMetadata | EInvalidPolicy _ | EChallengeUnavailable | ERequestUnavailable | ERequestCapacity | ETicketUnavailable | ERecoveryUnavailable
  | EGrantUnavailable | EGrantCapacity => Refused 400
  | _ => Refused 503
  end.
(** A transaction of the store: an error is answered and leaves the tables. *)
Definition transact {A} (m : T A) : World -> result Error A * World := fun w =>
  match m (w_db w) with Ok (a, d) => (Ok a, set_db d w) | Err e => (Err e, w) end.
Definition call {A} (m : T A) : H A := fun w => match transact m w with (Ok a, w) => (inr a, w) | (Err e, w) => (inl (respondStoreError e), w) end.
Definition orReject {A} (r : HttpRequest) (now : Time) (o : option A) : H A := match o with Some a => go a | None => discoveryReject r now end.
Definition rejectUnless (r : HttpRequest) (now : Time) (b : bool) : H unit := if b then go tt else discoveryReject r now.
(** The parsed body, or the status its parser answered with; and drawn randomness. *)
Definition parsed {A} (body : result Z A) : H A := match body with Ok a => go a | Err status => stop (Refused status) end.
Definition drawn {A} (o : option A) : H A := match o with Some a => go a | None => stop (Refused 503) end.

(** begin, the body of the endpoint, and the deferred release. *)
Definition served (c : Config) (r : HttpRequest) (e : endpoint) (now : Time) (body : H Answer) : World -> Answer * World := fun w =>
  if secureOnly c && negb (hr_secure r) then (Refused 400, w)
  else match discoveryClientAddress r with
  | None => (Refused 400, w)
  | Some address =>
      match acquire (budget_policy e) (AddrString address) now (w_budget w e) with
      | (false, b) => (Refused 429, set_budget e b w)
      | (true, b) =>
          match body (set_budget e b w) with
          | (inl answer, w) | (inr answer, w) => (answer, set_budget e (release (w_budget w e)) w)
          end
      end
  end.

Definition authenticateGrant (r : HttpRequest) (now : Time) : H (string * Grant) :=
  plaintext <<~ orReject r now (enrollmentBearerSecret (hr_authorization r)) ;;
  _ <<~ orReject r now (decodeDiscoverySecret plaintext GrantSecretPrefix) ;;
  fun w => match transact (GrantBySecret plaintext now) w with (Ok g, w) => (inr g, w) | (Err _, w) => discoveryReject r now w end.
Definition authenticateRequestToken (r : HttpRequest) (now : Time) : H (string * Request) :=
  plaintext <<~ orReject r now (enrollmentBearerSecret (hr_authorization r)) ;;
  _ <<~ orReject r now (decodeDiscoverySecret plaintext RequestTokenPrefix) ;;
  let id := TrimSpace (hr_path_id r) in
  fun w => match db_requests (w_db w) !! id with
           | Some request => if SecretMatches (er_token request) plaintext then (inr (id, request), w) else discoveryReject r now w
           | None => discoveryReject r now w
           end.
Definition grantAllowsSource (g : Grant) (address : Addr) : bool :=
  match CompileSourcePolicy (SourceCIDRs (gr_policy g)) (HostnamePattern (gr_policy g)) with Ok p => AllowsSource p address | Err _ => false end.
Definition grantAllowsHostname (g : Grant) (name : string) : bool :=
  match CompileSourcePolicy (SourceCIDRs (gr_policy g)) (HostnamePattern (gr_policy g)) with Ok p => AllowsHostname p name | Err _ => false end.

(** ** The endpoints *)

(** [id] and [challenge] are drawn. *)
Definition HandleChallenge (c : Config) (r : HttpRequest) (body : result Z ChallengeBody) (id : string) (challenge : option (list Z)) (now : Time) :
    World -> Answer * World :=
  served c r EChallenge now
    (grant <<~ authenticateGrant r now ;;
     b <<~ parsed body ;;
     publicKey <<~ orReject r now (decodeDiscoveryPublicKey (cb_public_key b)) ;;
     digest <<~ orReject r now (decodeDiscoveryDigest (cb_metadata_digest b)) ;;
     address <<~ orReject r now (discoveryClientAddress r) ;;
     _ <<~ rejectUnless r now (grantAllowsSource grant.2 address) ;;
     challenge <<~ drawn challenge ;;
     let expiresAt := Add now agentDiscoveryChallengeTTL in
     created <<~ call (CreateChallenge id (mkChallengeInput grant.1 (Sum256 challenge) (Sum256 publicKey) digest (AddrString address) now expiresAt)) ;;
     go (ChallengeIssued created.1 (EncodeToString challenge) (canonicalOrigin r) (FormatRFC3339 now) (FormatRFC3339 expiresAt))).

Definition verifyRequestSignature (r : HttpRequest) (challengeID : string) (c : Challenge) (i : discoveryRequestCreate) : bool :=
  VerifySignature (dc_publicKey i) (RequestCanonical (mkRequestBinding challengeID (dc_challenge i) (canonicalOrigin r) (dc_fingerprint i)
    (dc_canonical i) (ch_expires c))) (dc_signature i).
(** [id], [nodeID] and [token] are drawn. *)
Definition HandleCreateRequest (c : Config) (r : HttpRequest) (body : result Z CreateBody) (id nodeID : string) (token : option Secret) (now : Time) :
    World -> Answer * World :=
  served c r ERequest now
    (grant <<~ authenticateGrant r now ;;
     b <<~ parsed body ;;
     input <<~ orReject r now (decodeRequestCreate b) ;;
     address <<~ orReject r now (discoveryClientAddress r) ;;
     _ <<~ rejectUnless r now (grantAllowsSource grant.2 address && grantAllowsHostname grant.2 (Hostname (dc_metadata input))) ;;
     challenge <<~ call (ConsumeChallenge (mkChallengeProof (dc_challengeID input) (dc_challenge input) (dc_fingerprint input) (dc_digest input)
       (AddrString address) now)) ;;
     _ <<~ rejectUnless r now ((ch_grant challenge =s grant.1) && verifyRequestSignature r (dc_challengeID input) challenge input) ;;
     token <<~ drawn token ;;
     created <<~ call (CreateOrResumeRequest (mkContext now no_actor) id nodeID
       (mkRequestInput grant.1 (dc_fingerprint input) (dc_publicKey input) token (dc_metadata input) (AddrString address) now)) ;;
     go (RequestCreated created.1.1 (Plaintext token) (er_status created.1.2) (Name (gr_policy grant.2)))).

Definition verifyStatusSignature (r : HttpRequest) (id : string) (request : Request) (b : StatusBody) (now : Time) : bool :=
  match parseDiscoveryInstant (sb_timestamp b), decodeDiscoveryNonce (sb_nonce b), decodeDiscoverySignature (sb_signature b) with
  | Some timestamp, Some nonce, Some signature =>
      withinDiscoverySkew timestamp now
      && VerifySignature (er_key request) (StatusCanonical (mkStatusBinding id (canonicalOrigin r) timestamp nonce)) signature
  | _, _, _ => false
  end.
Definition ticketAvailable (r : Request) (now : Time) : bool :=
  if er_status r =s RequestApproved then true
  else if negb (er_status r =s RequestClaimed) then false
  else match er_deadline r with
  | None => false
  | Some deadline => if MaxClaimRecoveryAttempts <=? er_attempts r then false else Before now deadline
  end.
Definition agentStatusView (id : string) (r : Request) : StatusView :=
  mkStatusView id (er_status r) (if er_status r =s RequestRejected then er_reason r else "") "" 0 "" (default "" (er_node r)).
(** [rotateTicket]: when no ticket can be drawn or stored, the status is shown without one. *)
Definition rotateTicket (id : string) (request : Request) (ticket : option Secret) (now : Time) : H (option (Secret * Request)) := fun w =>
  if negb (ticketAvailable request now) then (inr None, w)
  else match ticket with
  | None => (inr None, w)
  | Some ticket => match transact (RotateEnrollmentTicket id ticket now) w with (Ok rotated, w) => (inr (Some (ticket, rotated)), w) | (Err _, w) => (inr None, w) end
  end.
Definition HandleRequestStatus (c : Config) (r : HttpRequest) (body : result Z StatusBody) (ticket : option Secret) (now : Time) : World -> Answer * World :=
  served c r EPoll now
    (request <<~ authenticateRequestToken r now ;;
     b <<~ parsed body ;;
     _ <<~ rejectUnless r now (verifyStatusSignature r request.1 request.2 b now) ;;
     rotated <<~ rotateTicket request.1 request.2 ticket now ;;
     let v := agentStatusView request.1 request.2 in
     go (StatusShown match rotated with
         | Some (ticket, row) => mkStatusView (sv_RequestID v) (sv_Status v) (sv_Reason v) (Plaintext ticket) (er_generation row)
             match er_ticket_expires row with Some t => FormatRFC3339 t | None => "" end (sv_NodeID v)
         | None => v
         end)).

Definition decodeClaimTicket (r : HttpRequest) (id : string) (request : Request) (b : ClaimBody) (now : Time) : option Secret :=
  match decodeDiscoverySecret (kb_ticket b) ClaimTicketPrefix, parseDiscoveryInstant (kb_timestamp b), decodeDiscoveryNonce (kb_nonce b),
        decodeDiscoverySignature (kb_signature b) with
  | Some ticket, Some timestamp, Some nonce, Some signature =>
      if withinDiscoverySkew timestamp now
         && VerifySignature (er_key request) (ClaimCanonical (mkClaimBinding id (default "" (er_node request)) (Plaintext ticket) (canonicalOrigin r)
              timestamp nonce)) signature
      then Some ticket else None
  | _, _, _, _ => None
  end.
Definition HandleClaim (c : Config) (r : HttpRequest) (body : result Z ClaimBody) (token : option Token) (now : Time) : World -> Answer * World :=
  served c r EClaim now
    (request <<~ authenticateRequestToken r now ;;
     b <<~ parsed body ;;
     ticket <<~ orReject r now (decodeClaimTicket r request.1 request.2 b now) ;;
     token <<~ drawn token ;;
     result <<~ call (ClaimEnrollmentRequest (mkContext now (hr_audit r)) request.1 (Plaintext ticket) token) ;;
     go (NodeIssued (cr_NodeID result) (cr_NodeName result) (cr_GroupID result) (canonicalOrigin r) (cr_Host result) (cr_Port result)
          (Token_Plaintext token) (cr_Recovered result))).
End handlers.
