(* ===== verification/EnrollInvariant.v ===== *)
(** * Agent enrollment: the invariant

    What always holds between the requests, the nodes they reserve and the slots of the
    grants, and the elementary changes of the tables that keep it. *)

From S2P Require Import Prelude GoText GoNumber GoSha256 GoTable EnrollSecret EnrollPolicy EnrollModel EnrollService.

(** ** Well-formed tables *)

(** The columns of a request by its status. *)
Definition never_approved (r : Request) : Prop := er_approved r = None.
Definition unclaimed (r : Request) : Prop := er_claimed r = None /\ er_deadline r = None /\ er_attempts r = 0.
Definition row_ok (r : Request) : Prop :=
  er_status r = RequestPending /\ never_approved r /\ er_node r = None /\ er_ticket r = None /\ unclaimed r \/
  er_status r = RequestApproved /\ ~ never_approved r /\ unclaimed r \/
  er_status r = RequestClaimed /\ ~ never_approved r /\ 0 <= er_attempts r <= MaxClaimRecoveryAttempts /\
    (exists t, er_claimed r = Some t /\ er_deadline r = Some (Add t ClaimRecoveryWindow)) \/
  (er_status r = RequestRejected \/ er_status r = RequestExpired) /\ er_node r = None /\ er_ticket r = None /\ unclaimed r.

(** The node of a request exists, is hidden until the claim and carries a token after. *)
Definition linked (nodes : gmap string Node) (r : Request) : Prop :=
  forall id, er_node r = Some id -> exists n, nodes !! id = Some n /\
    (er_status r = RequestApproved /\ nd_state n = CredentialPendingClaim \/ er_status r = RequestClaimed /\ nd_state n = CredentialActive).
Definition node_ok (n : Node) : Prop :=
  (nd_state n = CredentialPendingClaim -> nd_hash n = None) /\ (nd_state n = CredentialActive -> nd_hash n <> None /\ nd_created n <> None).

(** The requests of a grant that were ever approved. *)
Definition approval (grant : string) (r : Request) : bool := (er_grant r =s grant) && bool_decide (er_approved r <> None).
Definition approvals (grant : string) (requests : gmap string Request) : Z := count_where (fun _ => approval grant) requests.

Record wf (d : DB) : Prop := {
  wf_rows : forall id r, db_requests d !! id = Some r -> row_ok r /\ linked (db_nodes d) r /\ is_Some (db_grants d !! er_grant r);
  wf_reserved : forall i j r s n, db_requests d !! i = Some r -> db_requests d !! j = Some s -> er_node r = Some n -> er_node s = Some n -> i = j;
  wf_open : forall i j r s, db_requests d !! i = Some r -> db_requests d !! j = Some s -> openStatus r = true -> openStatus s = true ->
    er_grant r = er_grant s -> er_fingerprint r = er_fingerprint s -> i = j;
  wf_nodes : forall id n, db_nodes d !! id = Some n -> node_ok n;
  wf_grants : forall id g, db_grants d !! id = Some g -> gr_consumed g = approvals id (db_requests d) /\ gr_consumed g <= MaximumEnrollments (gr_policy g);
  wf_names : forall i j n m, db_nodes d !! i = Some n -> db_nodes d !! j = Some m -> nd_name n = nd_name m -> i = j;
  wf_hashes : forall i j n m h, db_nodes d !! i = Some n -> db_nodes d !! j = Some m -> nd_hash n = Some h -> nd_hash m = Some h -> i = j }.

(** What the invariant is about. *)
Definition core (d : DB) := (db_nodes d, db_grants d, db_requests d).
Lemma enroll_core d d' : core d' = core d -> wf d -> wf d'.
Proof. unfold core. intros E [A B C D F G I]. injection E as E1 E2 E3. split; rewrite ?E1, ?E2, ?E3; assumption. Qed.

Lemma wf_empty groups default : wf (empty_db groups default).
Proof. split; cbn; intros *; rewrite ?lookup_empty; done. Qed.

Lemma status_open r : openStatus r = true <-> er_status r = RequestPending \/ er_status r = RequestApproved.
Proof. unfold openStatus. rewrite str_in_spec, !elem_of_cons, elem_of_nil. tauto. Qed.

(** ** Changes of requests *)

Record row_step (r r' : Request) : Prop := {
  st_grant : er_grant r' = er_grant r; st_fingerprint : er_fingerprint r' = er_fingerprint r;
  st_approved : er_approved r' = None <-> er_approved r = None;
  st_ok : row_ok r -> row_ok r';
  st_open : openStatus r' = true -> openStatus r = true;
  st_node : er_node r' = None \/ er_node r' = er_node r /\ er_status r' = er_status r }.
Lemma request_step_refl r : row_step r r.
Proof. split; auto; tauto. Qed.
Lemma request_step_trans r s t : row_step r s -> row_step s t -> row_step r t.
Proof.
  intros [A B C D E F] [A' B' C' D' E' F']. split; [congruence|congruence|tauto|auto|auto|]. destruct F' as [->|[F1 F2]]; [by left|].
  destruct F as [F|[F F3]]; [left|right]; rewrite ?F1, ?F2; tauto.
Qed.

Lemma approvals_mapped f grant m : (forall k r, m !! k = Some r -> row_step r (f k r)) ->
  approvals grant (map_imap (fun k r => Some (f k r)) m) = approvals grant m.
Proof.
  intros Hf. assert (forall k r, m !! k = Some r -> approval grant (f k r) = approval grant r) as Ha.
  { intros k r Hr. destruct (Hf k r Hr). unfold approval. rewrite st_grant0. f_equal. by apply bool_decide_ext; rewrite st_approved0. }
  apply Z.le_antisymm; apply count_where_mono; intros k r; rewrite map_lookup_imap.
  - destruct (m !! k) as [x|] eqn:E; [|done]. intros [= <-] Hc. exists x. by rewrite <- (Ha k x E).
  - intros E Hc. rewrite E. exists (f k r). by rewrite (Ha k r E).
Qed.

Lemma wf_mapped f d d' : db_nodes d' = db_nodes d -> db_grants d' = db_grants d ->
  db_requests d' = map_imap (fun k r => Some (f k r)) (db_requests d) ->
  (forall k r, db_requests d !! k = Some r -> row_step r (f k r)) -> wf d -> wf d'.
Proof.
  intros En Eg Er Hf [A B C D F G I].
  assert (forall k r', db_requests d' !! k = Some r' -> exists r, db_requests d !! k = Some r /\ row_step r r') as Hr.
  { intros k r'. rewrite Er, map_lookup_imap. destruct (db_requests d !! k) as [r|] eqn:E; [|done]. intros [= <-]. eauto. }
  split; rewrite ?En, ?Eg; try assumption.
  - intros k r' (r & E & [S1 S2 S3 S4 S5 S6])%Hr. destruct (A k r E) as (Ho & Hl & Hg). rewrite S1. split; [auto|]. split; [|done].
    intros n. destruct S6 as [S6|[S6 S7]]; [by rewrite S6|]. rewrite S6, S7. apply Hl.
  - intros i j r' s' n (r & Ei & Si)%Hr (s & Ej & Sj)%Hr Hi Hj. apply (B i j r s n Ei Ej).
    + destruct (st_node _ _ Si) as [E|[E _]]; congruence.
    + destruct (st_node _ _ Sj) as [E|[E _]]; congruence.
  - intros i j r' s' (r & Ei & Si)%Hr (s & Ej & Sj)%Hr Hi Hj. rewrite (st_grant _ _ Si), (st_grant _ _ Sj), (st_fingerprint _ _ Si), (st_fingerprint _ _ Sj).
    eapply C; eauto using st_open.
  - intros k g Hg. destruct (F k g Hg) as [F1 F2]. split; [|done]. by rewrite Er, approvals_mapped.
Qed.

(** A statement over requests. *)
Lemma update_requests_val c f d n d' : update_requests c f d = Ok (n, d') ->
  n = count_where (c d) (db_requests d) /\ d' = set_requests (update_where (c d) (f d) (db_requests d)) d.
Proof. unfold update_requests. by intros [= <- <-]. Qed.
Lemma wf_updated c f d : (forall k r, db_requests d !! k = Some r -> c d k r = true -> row_step r (f d r)) ->
  wf d -> wf (set_requests (update_where (c d) (f d) (db_requests d)) d).
Proof.
  intros Hf. apply (wf_mapped (fun k r => if c d k r then f d r else r)); [done..|].
  intros k r Hr. destruct (c d k r) eqn:E; [by eapply Hf|apply request_step_refl].
Qed.

(** ** Nodes that go *)

Lemma row_step_lost gone r : row_step r (set_reservation (lost gone (er_node r)) (er_snapshot r) r).
Proof.
  unfold lost. destruct (er_node r) as [id|] eqn:E; [destruct (bool_decide _) eqn:Eb|].
  2,3: split; try done; [unfold row_ok; cbn; by rewrite E|cbn; auto].
  split; try done; [|cbn; auto]. unfold row_ok, never_approved, unclaimed. cbn. rewrite E. intuition congruence.
Qed.

Lemma wf_without c d : wf d -> wf (without_nodes c d).
Proof.
  intros Hd. pose proof Hd as [A B C D F G I]. set (gone := selected_keys c (db_nodes d)).
  assert (wf (set_requests ((fun r => set_reservation (lost gone (er_node r)) (er_snapshot r) r) <$> db_requests d) d)) as [A' B' C' _ F' _ _].
  { apply (wf_mapped (fun _ r => set_reservation (lost gone (er_node r)) (er_snapshot r) r) d); [done|done| |intros; apply row_step_lost|done].
    cbn [db_requests set_requests]. apply map_eq. intros k. rewrite lookup_fmap, map_lookup_imap. by destruct (db_requests d !! k). }
  unfold without_nodes. cbn [set_nodes set_requests set_joins set_identities] in *. split; cbn in *; try assumption.
  - intros k r' Hr. destruct (A' k r' Hr) as (Ho & Hl & Hg). split_and!; try assumption. intros id Hid. destruct (Hl id Hid) as (n & Hn & Hs). exists n. split; [|done].
    apply lookup_delete_where. split; [done|]. apply not_true_iff_false. intros Hc. assert (id ∈ gone) as Hin by (apply elem_of_selected_keys; eauto).
    rewrite lookup_fmap in Hr. destruct (db_requests d !! k) as [r|]; [|done]. injection Hr as <-. cbn in Hid. unfold lost in Hid.
    destruct (er_node r) as [x|]; [|done]. case_bool_decide; [done|]. by injection Hid as ->.
  - intros id n [Hn _]%lookup_delete_where. by eapply D.
  - intros i j n m [Hn _]%lookup_delete_where [Hm _]%lookup_delete_where. by eapply G.
  - intros i j n m h [Hn _]%lookup_delete_where [Hm _]%lookup_delete_where. by eapply I.
Qed.

(** ** Nodes that change or come *)

Record node_step (n n' : Node) : Prop := { ns_name : nd_name n' = nd_name n; ns_state : nd_state n' = nd_state n; ns_ok : node_ok n -> node_ok n' }.
Lemma wf_node_changed id f d h : (forall n, db_nodes d !! id = Some n -> node_step n (f n)) ->
  (forall n, db_nodes d !! id = Some n -> nd_hash (f n) = nd_hash n \/ nd_hash (f n) = Some h /\
     forall j m, db_nodes d !! j = Some m -> j <> id -> nd_hash m <> Some h) ->
  wf d -> wf (set_nodes (alter f id (db_nodes d)) d).
Proof.
  intros Hf Hh [A B C D F G I].
  assert (forall j n', alter f id (db_nodes d) !! j = Some n' -> exists n, db_nodes d !! j = Some n /\ nd_name n' = nd_name n /\ nd_state n' = nd_state n /\
    (node_ok n -> node_ok n') /\ (nd_hash n' = nd_hash n \/ j = id /\ nd_hash n' = Some h /\ forall j m, db_nodes d !! j = Some m -> j <> id -> nd_hash m <> Some h)) as Hn.
  { intros j n'. destruct (decide (j = id)) as [->|Hne].
    - rewrite lookup_alter_eq. destruct (db_nodes d !! id) as [n|] eqn:E; [|done]. intros [= <-]. exists n. destruct (Hf n eq_refl). split_and!; try done.
      destruct (Hh n eq_refl) as [?|[? ?]]; auto.
    - rewrite lookup_alter_ne by done. intros E. exists n'. split_and!; auto. }
  split; cbn; try assumption.
  - intros k r Hr. destruct (A k r Hr) as (Ho & Hl & Hg). split_and!; try assumption. intros j Hj. destruct (Hl j Hj) as (n & En & Hs).
    destruct (decide (j = id)) as [->|Hne].
    + exists (f n). rewrite lookup_alter_eq, En. split; [done|]. by rewrite (ns_state _ _ (Hf n En)).
    + exists n. by rewrite lookup_alter_ne.
  - intros j n' (n & En & _ & _ & Ho & _)%Hn. apply Ho. by eapply D.
  - intros i j n' m' (n & En & En1 & _)%Hn (m & Em & Em1 & _)%Hn Hx. eapply G; [done..|congruence].
  - intros i j n' m' h' (n & En & _ & _ & _ & Hi)%Hn (m & Em & _ & _ & _ & Hj)%Hn Hhi Hhj. destruct Hi as [Hi|(-> & Hi & Hu)], Hj as [Hj|(-> & Hj & Hv)]; try done.
    + apply (I i j n m h' En Em); congruence.
    + destruct (decide (i = id)) as [|Hne]; [done|]. destruct (Hv i n En Hne). congruence.
    + destruct (decide (j = id)) as [|Hne]; [done|]. destruct (Hu j m Em Hne). congruence.
Qed.

Lemma insert_node_val id n d u d' : insert_node id n d = Ok (u, d') -> db_nodes d !! id = None /\
  (forall j m, db_nodes d !! j = Some m -> nd_name m <> nd_name n) /\ (forall j m h, db_nodes d !! j = Some m -> nd_hash n = Some h -> nd_hash m <> Some h) /\
  nd_group n ∈ db_groups d /\ d' = set_nodes (<[id := n]> (db_nodes d)) d.
Proof.
  unfold insert_node. destruct (bool_decide (is_Some _)) eqn:E1; [done|]. destruct (exists_where _ _) eqn:E2; [done|].
  destruct (match nd_hash n with Some _ => _ | None => _ end) eqn:E3; [done|]. destruct (bool_decide (nd_group n ∉ _)) eqn:E4; [done|]. intros [= _ <-].
  apply bool_decide_eq_false in E4. split_and!; [| | |by apply dec_stable|done].
  - apply bool_decide_eq_false in E1. destruct (db_nodes d !! id); [|done]. destruct E1. eauto.
  - intros j m Hm Hx. pose proof (exists_where_false _ _ _ _ E2 Hm) as Hc. cbn in Hc. rewrite Hx, String.eqb_refl in Hc. done.
  - intros j m h Hm Hh Hx. rewrite Hh in E3. pose proof (exists_where_false _ _ _ _ E3 Hm) as Hc. cbn in Hc. by rewrite Hx, bool_decide_eq_true_2 in Hc.
Qed.
Lemma wf_node_new id n d : db_nodes d !! id = None -> (forall j m, db_nodes d !! j = Some m -> nd_name m <> nd_name n) ->
  (forall j m h, db_nodes d !! j = Some m -> nd_hash n = Some h -> nd_hash m <> Some h) -> node_ok n -> wf d -> wf (set_nodes (<[id := n]> (db_nodes d)) d).
Proof.
  intros Hid Hname Hhash Hok [A B C D F G I]. split; cbn; try assumption.
  - intros k r Hr. destruct (A k r Hr) as (Ho & Hl & Hg). split_and!; try assumption. intros j Hj. destruct (Hl j Hj) as (m & Em & Hs). exists m. split; [|done].
    rewrite lookup_insert_ne; [done|]. congruence.
  - intros j m [[<- <-]|[_ Hm]]%lookup_insert_Some; [done|]. by eapply D.
  - intros i j m m' [[<- <-]|[Hi Hm]]%lookup_insert_Some [[<- <-]|[Hj Hm']]%lookup_insert_Some Hx; [done| | |by eapply G].
    + by destruct (Hname _ _ Hm').
    + by destruct (Hname _ _ Hm).
  - intros i j m m' h [[<- <-]|[Hi Hm]]%lookup_insert_Some [[<- <-]|[Hj Hm']]%lookup_insert_Some Hx Hy; [done| | |by eapply I].
    + by destruct (Hhash _ _ _ Hm' Hx).
    + by destruct (Hhash _ _ _ Hm Hy).
Qed.

(** ** Grants *)

Lemma write_grant_val id g d u d' : write_grant id g d = Ok (u, d') -> d' = set_grants (<[id := g]> (db_grants d)) d /\
  gr_consumed g <= MaximumEnrollments (gr_policy g).
Proof.
  unfold write_grant. destruct (name_taken _ _ _); [done|]. destruct (secret_taken _ _ _); [done|]. destruct (bool_decide _); [done|].
  destruct (gr_consumed g <=? _) eqn:E; [|done]. intros [= _ <-]. split; [done|lia].
Qed.
Lemma wf_grant_written id g d : gr_consumed g = match db_grants d !! id with Some g0 => gr_consumed g0 | None => 0 end ->
  gr_consumed g <= MaximumEnrollments (gr_policy g) -> wf d -> wf (set_grants (<[id := g]> (db_grants d)) d).
Proof.
  intros Hc Hm [A B C D F G I]. split; cbn; try assumption.
  - intros k r Hr. destruct (A k r Hr) as (Ho & Hl & Hg). split_and!; try assumption. destruct (decide (er_grant r = id)) as [->|Hne].
    + rewrite lookup_insert_eq. eauto.
    + by rewrite lookup_insert_ne.
  - intros k g' [[<- <-]|[Hne Hg]]%lookup_insert_Some; [|by eapply F]. split; [|done]. rewrite Hc. destruct (db_grants d !! id) as [g0|] eqn:E; [by apply F|].
    symmetry. apply count_where_zero. intros k r Hr. unfold approval. destruct (er_grant r =s id) eqn:Ei; [|done]. apply String.eqb_eq in Ei.
    destruct (A k r Hr) as (_ & _ & [? Hg]). congruence.
Qed.

(** ** Requests that come *)

Lemma insert_request_val id r d u d' : insert_request id r d = Ok (u, d') -> db_requests d !! id = None /\ is_Some (db_grants d !! er_grant r) /\
  (forall k q, db_requests d !! k = Some q -> openStatus q = true -> er_grant q = er_grant r -> er_fingerprint q <> er_fingerprint r) /\
  d' = set_requests (<[id := r]> (db_requests d)) d.
Proof.
  unfold insert_request. destruct (bool_decide (is_Some _)) eqn:E1; [done|]. destruct (token_taken _ _ _); [done|]. destruct (exists_where _ _) eqn:E2; [done|].
  destruct (bool_decide (_ = None)) eqn:E3; [done|]. intros [= _ <-]. apply bool_decide_eq_false in E1, E3. split_and!; [| | |done].
  - destruct (db_requests d !! id); [|done]. destruct E1. eauto.
  - by apply not_eq_None_Some in E3.
  - intros k q Hq Ho Hg Hf. pose proof (exists_where_false _ _ _ _ E2 Hq) as Hc. cbv beta in Hc. by rewrite Hg, String.eqb_refl, Hf, bool_decide_eq_true_2, Ho in Hc.
Qed.
Lemma wf_request_new id r d : db_requests d !! id = None -> is_Some (db_grants d !! er_grant r) ->
  (forall k q, db_requests d !! k = Some q -> openStatus q = true -> er_grant q = er_grant r -> er_fingerprint q <> er_fingerprint r) ->
  row_ok r -> er_status r = RequestPending -> wf d -> wf (set_requests (<[id := r]> (db_requests d)) d).
Proof.
  intros Hid Hg Ho Hok Hs [A B C D F G I]. assert (er_approved r = None /\ er_node r = None) as [Ha Hn].
  { destruct Hok as [(_ & ? & ? & _)|[(E & _)|[(E & _)|([E|E] & _)]]]; [done|rewrite Hs in E; done..]. }
  split; cbn; try assumption.
  - intros k q [[<- <-]|[_ Hq]]%lookup_insert_Some; [|by eapply A]. split_and!; [done| |done]. intros n. by rewrite Hn.
  - intros i j q s n [[<- <-]|[_ Hi]]%lookup_insert_Some [[<- <-]|[_ Hj]]%lookup_insert_Some; [done|congruence|congruence|]. by eapply B.
  - intros i j q s [[<- <-]|[_ Hi]]%lookup_insert_Some [[<- <-]|[_ Hj]]%lookup_insert_Some Oi Oj Eg Ef; [done| | |by eapply C].
    + by destruct (Ho _ _ Hj Oj (eq_sym Eg)).
    + by destruct (Ho _ _ Hi Oi Eg).
  - intros k g Hk. destruct (F k g Hk) as [F1 F2]. split; [|done]. rewrite F1. symmetry. apply count_where_same. rewrite Hid. unfold approval.
    rewrite Ha. cbn. by rewrite andb_false_r.
Qed.

(** ** Approval and claim *)

Lemma row_pending r : row_ok r -> er_status r = RequestPending -> er_approved r = None /\ er_node r = None /\ er_ticket r = None /\ unclaimed r.
Proof. intros [(_ & ? & ? & ? & ?)|[(E & _)|[(E & _)|([E|E] & _)]]] Hs; [done|rewrite Hs in E; done..]. Qed.
Lemma row_approved r : row_ok r -> er_status r = RequestApproved -> er_approved r <> None /\ unclaimed r.
Proof. intros [(E & _)|[(_ & ? & ?)|[(E & _)|([E|E] & _)]]] Hs; [rewrite Hs in E; done|done|rewrite Hs in E; done..]. Qed.
Lemma row_claimed r : row_ok r -> er_status r = RequestClaimed -> er_approved r <> None /\ 0 <= er_attempts r <= MaxClaimRecoveryAttempts /\
  exists t, er_claimed r = Some t /\ er_deadline r = Some (Add t ClaimRecoveryWindow).
Proof. intros [(E & _)|[(E & _)|[(_ & ? & ? & ?)|([E|E] & _)]]] Hs; [rewrite Hs in E; done|rewrite Hs in E; done|done|rewrite Hs in E; done..]. Qed.

(** The slot, the hidden node and the request, together. *)
Lemma wf_approve d rid r gid g nid n snapshot actor now : wf d -> db_requests d !! rid = Some r -> er_status r = RequestPending -> er_grant r = gid ->
  db_grants d !! gid = Some g -> gr_consumed g < MaximumEnrollments (gr_policy g) ->
  db_nodes d !! nid = None -> (forall j m, db_nodes d !! j = Some m -> nd_name m <> nd_name n) -> nd_hash n = None -> nd_state n = CredentialPendingClaim ->
  wf (d |> set_grants (<[gid := set_consumed (gr_consumed g + 1) now g]> (db_grants d)) |> set_nodes (<[nid := n]> (db_nodes d))
        |> set_requests (<[rid := set_approved nid snapshot actor now r]> (db_requests d))).
Proof.
  intros Hd Hr Hs Hgr Hg Hcap Hnid Hname Hh Hst. assert (node_ok n) as Hok by (split; [done|]; intros E; rewrite Hst in E; done).
  pose proof (wf_node_new nid n d Hnid Hname ltac:(intros; congruence) Hok Hd) as [A B C D F G I]. cbn in A, B, C, D, F, G, I.
  destruct (A _ _ Hr) as (Hrow & _ & _). destruct (row_pending _ Hrow Hs) as (Ha & Hnone & Ht & Hu).
  assert (forall k q, db_requests d !! k = Some q -> er_node q <> Some nid) as Hfree.
  { intros k q Hq Hx. destruct Hd as [A0 _ _ _ _ _ _]. destruct (A0 _ _ Hq) as (_ & Hl & _). destruct (Hl _ Hx) as (m & Hm & _). congruence. }
  split; cbn; try assumption.
  - intros k q [[<- <-]|[Hne Hq]]%lookup_insert_Some.
    + split; [right; left; by split_and!|]. split; [|cbn; rewrite Hgr, lookup_insert_eq; eauto]. intros j [= <-]. exists n. rewrite lookup_insert_eq. auto.
    + destruct (A _ _ Hq) as (Ho & Hl & Hgq). split_and!; try assumption. destruct (decide (er_grant q = gid)) as [E|Hx]; [|by rewrite lookup_insert_ne].
      rewrite E, lookup_insert_eq. eauto.
  - intros i j q s x [[<- <-]|[Hi Hq]]%lookup_insert_Some [[<- <-]|[Hj Hq']]%lookup_insert_Some Ex Ey; [done| | |by eapply B].
    + cbn in Ex. injection Ex as <-. by destruct (Hfree _ _ Hq').
    + cbn in Ey. injection Ey as <-. by destruct (Hfree _ _ Hq).
  - assert (openStatus r = true) as Hor by (apply status_open; by left).
    intros i j q s [[<- <-]|[Hi Hq]]%lookup_insert_Some [[<- <-]|[Hj Hq']]%lookup_insert_Some Oi Oj Eg Ef; [done| | |by eapply C].
    + by apply (C rid j r s).
    + by apply (C i rid q r).
  - intros k g' [[<- <-]|[Hne Hg']]%lookup_insert_Some.
    + destruct (F _ _ Hg) as [F1 F2]. cbn. split; [|lia]. rewrite F1. symmetry. apply count_where_more; [intros v Hv|].
      * rewrite Hr in Hv. injection Hv as <-. unfold approval. rewrite Ha. cbn. by rewrite andb_false_r.
      * unfold approval. cbn. by rewrite Hgr, String.eqb_refl.
    + destruct (F _ _ Hg') as [F1 F2]. split; [|done]. rewrite F1. symmetry. apply count_where_same. rewrite Hr. unfold approval. cbn.
      assert ((er_grant r =s k) = false) as -> by (apply String.eqb_neq; congruence). done.
Qed.

(** The token and the request, together. *)
Lemma wf_claim d rid r nid n f now : wf d -> db_requests d !! rid = Some r -> er_status r = RequestApproved -> er_node r = Some nid ->
  db_nodes d !! nid = Some n -> nd_name (f n) = nd_name n -> nd_state (f n) = CredentialActive -> nd_created (f n) <> None ->
  (exists h, nd_hash (f n) = Some h /\ forall j m, db_nodes d !! j = Some m -> j <> nid -> nd_hash m <> Some h) ->
  wf (d |> set_nodes (alter f nid (db_nodes d))
        |> set_requests (<[rid := set_claimed RequestClaimed (Some now) (Some (Add now ClaimRecoveryWindow)) 0 r]> (db_requests d))).
Proof.
  intros Hd Hr Hs Hn En Hname Hst Hcr (h & Hh & Hu). pose proof Hd as [A B C D F G I]. destruct (A _ _ Hr) as (Hrow & _ & Hgr).
  destruct (row_approved _ Hrow Hs) as (Ha & Hun).
  assert (forall j m', alter f nid (db_nodes d) !! j = Some m' -> exists m, db_nodes d !! j = Some m /\ nd_name m' = nd_name m /\ (j = nid /\ m' = f n \/ j <> nid /\ m' = m)) as Hm.
  { intros j m'. destruct (decide (j = nid)) as [->|Hne]; [rewrite lookup_alter_eq, En|rewrite lookup_alter_ne by done].
    - intros [= <-]. exists n. auto.
    - intros E. exists m'. auto. }
  split; cbn; try assumption.
  - intros k q [[<- <-]|[Hne Hq]]%lookup_insert_Some.
    + split; [right; right; left; split_and!; cbn; try done; eauto|]. split; [|done]. intros j. cbn. rewrite Hn. intros [= <-]. exists (f n).
      rewrite lookup_alter_eq, En. auto.
    + destruct (A _ _ Hq) as (Ho & Hl & Hgq). split_and!; try assumption. intros j Hj. destruct (Hl j Hj) as (m & Em & Hx). exists m.
      rewrite lookup_alter_ne; [done|]. intros <-. apply Hne, (B _ _ _ _ _ Hr Hq Hn Hj).
  - intros i j q s x [[<- <-]|[Hi Hq]]%lookup_insert_Some [[<- <-]|[Hj Hq']]%lookup_insert_Some Ex Ey; [done| | |by eapply B].
    + by apply (B rid j r s x).
    + by apply (B i rid q r x).
  - intros i j q s [[<- <-]|[Hi Hq]]%lookup_insert_Some [[<- <-]|[Hj Hq']]%lookup_insert_Some Oi Oj; [done|done|done|by eapply C].
  - intros j m' (m & Em & _ & [[-> ->]|[_ ->]])%Hm; [|by eapply D]. split; [intros E; rewrite Hst in E; done|]. intros _. split; [by rewrite Hh|done].
  - intros k g Hg. destruct (F _ _ Hg) as [F1 F2]. split; [|done]. rewrite F1. symmetry. apply count_where_same. rewrite Hr. unfold approval. done.
  - intros i j m1 m2 (n1 & E1 & N1 & _)%Hm (n2 & E2 & N2 & _)%Hm Hx. apply (G i j n1 n2); [done|done|congruence].
  - intros i j m1 m2 x (n1 & E1 & _ & H1)%Hm (n2 & E2 & _ & H2)%Hm X1 X2. destruct H1 as [[-> ->]|[? ->]], H2 as [[-> ->]|[? ->]]; [done| | |by eapply I].
    + destruct (Hu j n2 E2); [done|]. congruence.
    + destruct (Hu i n1 E1); [done|]. congruence.
Qed.
