(* ===== verification/EnrollSteps.v ===== *)
(** * Agent enrollment: the operations keep the invariant *)

From S2P Require Import Prelude GoText GoNumber GoSha256 GoTable EnrollSecret EnrollPolicy EnrollModel EnrollService EnrollNodes EnrollInvariant.

Create HintDb enroll.

(** ** Parts that keep it at once *)

Lemma preserves_core {A} (m : T A) : (forall d a d', m d = Ok (a, d') -> core d' = core d) -> preserves wf m.
Proof. intros Hm d a d' Hd H. by eapply enroll_core; [eapply Hm|]. Qed.
Lemma preserves_frame f : (forall d, core (f d) = core d) -> preserves wf (exec f : T unit).
Proof. intros Hf. apply preserves_exec. intros d. by apply enroll_core. Qed.
Lemma preserves_deleted c : preserves wf (delete_nodes c).
Proof. apply preserves_exec. intros d. apply wf_without. Qed.
Lemma preserves_updated c f : (forall d k r, wf d -> db_requests d !! k = Some r -> c d k r = true -> row_step r (f d r)) -> preserves wf (update_requests c f).
Proof. intros Hf d n d' Hd [_ ->]%update_requests_val. apply wf_updated; [|done]. intros k r Hr Hc. by apply (Hf d k r). Qed.
Lemma preserves_node id f : (forall d n, wf d -> db_nodes d !! id = Some n -> node_step n (f n) /\ nd_hash (f n) = nd_hash n) ->
  preserves wf (exec (fun d => set_nodes (alter f id (db_nodes d)) d) : T unit).
Proof.
  intros Hf. apply preserves_exec. intros d Hd. apply (wf_node_changed id f d []); [intros n Hn; by destruct (Hf d n Hd Hn)|intros n Hn; left; by destruct (Hf d n Hd Hn)|done].
Qed.

Ltac keeps :=
  repeat match goal with
  | |- preserves _ (andThen _ _) => apply preserves_then; [|intros ?]
  | |- preserves _ (match _ with _ => _ end) => progress cases
  | |- preserves _ (delete_nodes _) => apply preserves_deleted
  | |- preserves _ (ret _) => apply preserves_reads, reads_ret
  | |- preserves _ (fail _) => apply preserves_reads, reads_fail
  | |- preserves _ (query _) => apply preserves_reads, reads_query
  | |- preserves _ (require _ _) => apply preserves_reads, reads_require
  | |- preserves _ (lift _) => apply preserves_reads, reads_lift
  | |- preserves _ (exec _) => apply preserves_frame; intros ?; reflexivity
  | |- preserves _ _ => solve [eauto with enroll]
  end.

Lemma preserves_validated `{EnrollExternals} p now : preserves wf (validated p now).
Proof. unfold validated. keeps. Qed.
Lemma preserves_grant_row id : preserves wf (grant_row id).
Proof. unfold grant_row. keeps. Qed.
Lemma preserves_audit action type resource a now : preserves wf (writeEnrollmentAudit action type resource a now).
Proof. unfold writeEnrollmentAudit. keeps. Qed.
Lemma preserves_forget id : preserves wf (deleteGrantChallenges id).
Proof. unfold deleteGrantChallenges. keeps. Qed.
Lemma preserves_grant_for_update id : preserves wf (enrollmentGrantForUpdate id).
Proof. unfold enrollmentGrantForUpdate. keeps. Qed.
Lemma preserves_load id : preserves wf (loadEnrollmentRequestTx id).
Proof. unfold loadEnrollmentRequestTx. keeps. Qed.
#[export] Hint Resolve preserves_validated preserves_grant_row preserves_audit preserves_forget preserves_grant_for_update preserves_load : enroll.

(** ** Rows *)

Lemma row_step_same r r' : er_grant r' = er_grant r -> er_fingerprint r' = er_fingerprint r -> er_approved r' = er_approved r -> er_status r' = er_status r ->
  er_node r' = er_node r -> (er_ticket r' = er_ticket r \/ er_ticket r' = None \/ er_status r = RequestApproved \/ er_status r = RequestClaimed) ->
  er_claimed r' = er_claimed r -> er_deadline r' = er_deadline r -> er_attempts r' = er_attempts r -> row_step r r'.
Proof.
  intros H1 H2 H3 H4 H5 H6 H7 H8 H9. split; [done|done|by rewrite H3| |unfold openStatus; by rewrite H4|auto].
  unfold row_ok, never_approved, unclaimed. rewrite H3, H4, H5, H7, H8, H9.
  intros [(A & B & C & D & E)|[(A & B & E)|[(A & B & E)|(A & B & C & E)]]]; [left|right; left; tauto|right; right; left; tauto|right; right; right]; split_and!; try tauto.
  - destruct H6 as [->|[->|[Hx|Hx]]]; [done|done|rewrite A in Hx; done..].
  - destruct H6 as [->|[->|[Hx|Hx]]]; [done|done|destruct A as [A|A]; rewrite A in Hx; done..].
Qed.
Lemma row_open_unclaimed r : row_ok r -> openStatus r = true -> unclaimed r.
Proof. intros Hok [Hs|Hs]%status_open; [by apply row_pending|by apply row_approved]. Qed.
Lemma row_step_ended status by_ at_ reason snapshot r : status = RequestRejected \/ status = RequestExpired -> openStatus r = true ->
  row_step r (set_reservation None snapshot (set_ended status by_ at_ reason r)).
Proof.
  intros Hs Ho. split; [done|done|done| |intros _; exact Ho|by left]. intros Hok. pose proof (row_open_unclaimed r Hok Ho) as (Hc & Hd & Ha).
  right; right; right. by split_and!.
Qed.

(** A reserved node of an open request is a hidden one. *)
Lemma open_reserved d k r id : wf d -> db_requests d !! k = Some r -> openStatus r = true -> er_node r = Some id ->
  exists n, db_nodes d !! id = Some n /\ hidden_node n = true.
Proof.
  intros [A _ _ D _ _ _] Hr Ho Hn. destruct (A _ _ Hr) as (Hok & Hl & _). destruct (Hl _ Hn) as (n & En & [[_ Hs]|[Hc _]]).
  - exists n. split; [done|]. unfold hidden_node. rewrite Hs, (proj1 (D _ _ En) Hs). done.
  - apply status_open in Ho as [Ho|Ho]; rewrite Hc in Ho; done.
Qed.

(** ** Grants *)

Section steps.
Context `{EnrollExternals}.

Lemma preserves_new_grant id g : gr_consumed g = 0 -> preserves wf (insert_grant id g).
Proof.
  intros Hc d u d' Hd. unfold insert_grant. destruct (bool_decide _) eqn:E; [done|]. intros [-> Hm]%write_grant_val. apply wf_grant_written; [|done|done].
  apply bool_decide_eq_false in E. destruct (db_grants d !! id); [destruct E; eauto|done].
Qed.
Lemma CreateGrant_wf cx id input : preserves wf (CreateGrant cx id input).
Proof. unfold CreateGrant. keeps. by apply preserves_new_grant. Qed.

Lemma updateGrant_wf cx id where_ f side action : (forall g, gr_consumed (f g) = gr_consumed g) -> preserves wf side -> preserves wf (updateGrant cx id where_ f side action).
Proof.
  intros Hf Hside d a d' Hd. unfold updateGrant. intros (row & d1 & [-> ->]%query_val & Hx)%andThen_ok. destruct (db_grants d !! id) as [g|] eqn:Eg; [|done].
  destruct (where_ g); [|done]. apply andThen_ok in Hx as (u & d1 & [-> Hm]%write_grant_val & Hx).
  assert (wf (set_grants (<[id := f g]> (db_grants d)) d)) as H1 by (apply wf_grant_written; [rewrite Eg; apply Hf|done|done]).
  revert H1 Hx. generalize (set_grants (<[id := f g]> (db_grants d)) d). intros d2 H2 Hx. revert Hx. apply (preserves_then wf); [done| |done]. intros ?. keeps.
Qed.
Lemma RotateGrantSecret_wf cx id secret : preserves wf (RotateGrantSecret cx id secret).
Proof. apply updateGrant_wf; [done|]. keeps. Qed.
Lemma UpdateGrant_wf cx id input : preserves wf (UpdateGrant cx id input).
Proof. unfold UpdateGrant. keeps. apply updateGrant_wf; [done|]. keeps. Qed.

Lemma preserves_snapshot c : preserves wf (update_requests c snapshotted).
Proof. apply preserves_updated. intros d k r _ _ _. apply row_step_same; try done. auto. Qed.
Hint Resolve preserves_snapshot : enroll.

(** Ending the open requests of tables in which none of them reserves a node any more. *)
Lemma ended_wf c status by_ at_ reason d n d' : status = RequestRejected \/ status = RequestExpired -> wf d ->
  (forall k r, db_requests d !! k = Some r -> c d k r = true -> openStatus r = true /\ er_node r = None) ->
  update_requests c (fun _ => set_ended status by_ at_ reason) d = Ok (n, d') -> wf d'.
Proof.
  intros Hs Hd Hc [_ ->]%update_requests_val. apply (wf_updated c (fun _ => set_ended status by_ at_ reason)); [|done]. intros k r Hr Hcr. destruct (Hc k r Hr Hcr) as [Ho Hn].
  replace (set_ended status by_ at_ reason r) with (set_reservation None (er_snapshot r) (set_ended status by_ at_ reason r)); [by apply row_step_ended|].
  unfold set_reservation, set_ended. cbn. by rewrite Hn.
Qed.

Lemma revoke_side_wf grantID actor now : preserves wf (revokeEnrollmentGrantSideEffects grantID actor now).
Proof.
  intros d u d' Hd. unfold revokeEnrollmentGrantSideEffects.
  intros (? & d1 & H1 & (? & d2 & H2 & (? & d3 & H3 & (? & d4 & H4 & Hr)%andThen_ok)%andThen_ok)%andThen_ok)%andThen_ok. apply ret_ok in Hr as [_ ->].
  apply (preserves_forget _ _ _ _ Hd) in H1. apply (preserves_snapshot _ _ _ _ H1) in H2. pose proof (preserves_deleted _ _ _ _ H2 H3) as Hd3.
  apply exec_val in H3 as ->. eapply ended_wf; [by left|exact Hd3| |exact H4]. intros k r Hr [Hg Ho]%andb_true_iff. split; [done|].
  cbn in Hr. rewrite lookup_fmap in Hr. destruct (db_requests d2 !! k) as [r2|] eqn:E2; [|done]. injection Hr as <-. cbn in Hg, Ho |- *.
  unfold lost. destruct (er_node r2) as [n|] eqn:En; [|done]. case_bool_decide as Hin; [done|]. destruct Hin.
  destruct (open_reserved d2 k r2 n H2 E2 Ho En) as (node & Hnode & Hh). apply elem_of_selected_keys. exists node. split; [done|]. rewrite Hh. cbn.
  apply exists_where_spec. exists k, r2. split; [done|]. rewrite Hg. by apply bool_decide_eq_true_2.
Qed.
Lemma RevokeGrant_wf cx id actor : preserves wf (RevokeGrant cx id actor).
Proof. apply updateGrant_wf; [done|]. apply revoke_side_wf. Qed.

(** ** Challenges *)

Lemma insert_challenge_val id c d u d' : insert_challenge id c d = Ok (u, d') -> db_challenges d !! id = None /\ d' = set_challenges (<[id := c]> (db_challenges d)) d.
Proof.
  unfold insert_challenge. destruct (bool_decide (is_Some _)) eqn:E; [done|]. destruct (exists_where _ _); [done|]. destruct (bool_decide (_ = None)); [done|].
  intros [= _ <-]. split; [|done]. apply bool_decide_eq_false in E. destruct (db_challenges d !! id); [destruct E; eauto|done].
Qed.
Lemma CreateChallenge_wf id input : preserves wf (CreateChallenge id input).
Proof. unfold CreateChallenge, pruneGrantChallenges. keeps. apply preserves_core. by intros d u d' [_ ->]%insert_challenge_val. Qed.
Lemma ConsumeChallenge_wf p : preserves wf (ConsumeChallenge p).
Proof. unfold ConsumeChallenge. keeps. Qed.

(** ** Requests *)

Lemma rotateEnrollmentToken_wf id i : preserves wf (rotateEnrollmentToken id i).
Proof. unfold rotateEnrollmentToken. keeps. apply preserves_updated. intros d k r _ _ _. apply row_step_same; try done. auto. Qed.
Lemma insertEnrollmentRequest_wf id i : preserves wf (insertEnrollmentRequest id i).
Proof.
  intros d u d' Hd (H1 & H2 & H3 & ->)%insert_request_val. apply wf_request_new; try done. left. by split_and!.
Qed.
Hint Resolve rotateEnrollmentToken_wf insertEnrollmentRequest_wf : enroll.
Lemma upsertEnrollmentRequest_wf id i : preserves wf (upsertEnrollmentRequest id i).
Proof. unfold upsertEnrollmentRequest. keeps. Qed.


(** The request that was created or resumed is one of the grant. *)
Lemma upsert_grant id i d b k d' : upsertEnrollmentRequest id i d = Ok ((b, k), d') -> exists r, db_requests d' !! k = Some r /\ er_grant r = ri_GrantID i.
Proof.
  unfold upsertEnrollmentRequest. intros (existing & d1 & [-> ->]%query_val & Hx)%andThen_ok.
  destruct (openEnrollmentRequest _ _ d) as [[k0 r0]|] eqn:Eo.
  - apply head_rows_where in Eo as [Er [[Eg%String.eqb_eq _]%andb_true_iff Eopen]%andb_true_iff]. destruct (negb _); [done|].
    apply andThen_ok in Hx as (u & d2 & Hrot & [[= -> ->] ->]%ret_ok). unfold rotateEnrollmentToken in Hrot.
    apply andThen_ok in Hrot as (taken & d3 & [-> ->]%query_val & Hrot). destruct (token_taken _ _ d); [done|].
    apply andThen_ok in Hrot as (n & d4 & [-> ->]%update_requests_val & Hend). destruct (_ =? 0); [done|]. apply ret_ok in Hend as [_ ->].
    cbn [db_requests set_requests]. rewrite lookup_update_where, Er. cbn [fmap option_fmap option_map]. eexists. split; [done|]. by destruct (_ && _).
  - apply andThen_ok in Hx as (open & d1 & [-> ->]%query_val & Hx). destruct (_ <=? _); [done|].
    apply andThen_ok in Hx as (u & d2 & (H1 & H2 & H3 & ->)%insert_request_val & [[= -> ->] ->]%ret_ok).
    cbn [db_requests set_requests]. rewrite lookup_insert_eq. eexists. split; [done|]. done.
Qed.

(** ** Reservation *)

Lemma takeSlot_val gid now d u d' : takeSlot gid now d = Ok (u, d') -> exists g, db_grants d !! gid = Some g /\ gr_revoked g = None /\
  gr_consumed g < MaximumEnrollments (gr_policy g) /\ d' = set_grants (<[gid := set_consumed (gr_consumed g + 1) now g]> (db_grants d)) d.
Proof.
  unfold takeSlot. intros (row & d1 & [-> ->]%query_val & Hx)%andThen_ok. destruct (db_grants d !! gid) as [g|]; [|done].
  destruct (not_revoked g && _) eqn:E; [|done]. apply exec_val in Hx as ->. apply andb_true_iff in E as [E1%bool_decide_eq_true E2]. exists g. split_and!; [done|done|lia|done].
Qed.

(** One row of a table that a statement selects by its key. *)
Lemma update_one {V} (id : string) (c : V -> bool) f (m : gmap string V) v : m !! id = Some v -> c v = true ->
  update_where (fun k v => (k =s id) && c v) f m = <[id := f v]> m.
Proof.
  intros Hv Hc. apply map_eq. intros k. rewrite lookup_update_where. destruct (decide (k = id)) as [->|Hne].
  - rewrite lookup_insert_eq, Hv. cbn. by rewrite String.eqb_refl, Hc.
  - rewrite lookup_insert_ne by done. destruct (m !! k); [|done]. cbn. by rewrite (proj2 (String.eqb_neq k id) Hne).
Qed.
Lemma count_one {V} (id : string) (c : V -> bool) (m : gmap string V) : count_where (fun k v => (k =s id) && c v) m <> 0 -> exists v, m !! id = Some v /\ c v = true.
Proof.
  intros Hn. destruct (m !! id) as [v|] eqn:E; [destruct (c v) eqn:Ec; [eauto|]|]; destruct Hn; apply count_where_zero; intros k x Hx;
    (destruct (k =s id) eqn:Ek; [|done]); apply String.eqb_eq in Ek as ->; rewrite E in Hx; first [done | by injection Hx as <-].
Qed.

Lemma reserve_val rid gid nid actor i now d u d' : reserveEnrollmentNode rid gid nid actor i now d = Ok (u, d') -> exists g r n,
  db_grants d !! gid = Some g /\ gr_revoked g = None /\ gr_consumed g < MaximumEnrollments (gr_policy g) /\ db_requests d !! rid = Some r /\ er_status r = RequestPending /\
  n = mkNode (rs_Name i) (rs_GroupID i) (rs_Host i) (rs_SSHPort i) (rs_Tags i) (rs_Public i) (rs_Remarks i) 0 CredentialPendingClaim "active" None "" None None None now /\
  db_nodes d !! nid = None /\ (forall j m, db_nodes d !! j = Some m -> nd_name m <> rs_Name i) /\ rs_GroupID i ∈ db_groups d /\
  d' = (d |> set_grants (<[gid := set_consumed (gr_consumed g + 1) now g]> (db_grants d)) |> set_nodes (<[nid := n]> (db_nodes d))
          |> set_requests (<[rid := set_approved nid (rs_Name i) actor now r]> (db_requests d))).
Proof.
  unfold reserveEnrollmentNode. intros (? & d1 & (g & Hg & Hrev & Hcap & ->)%takeSlot_val & Hx)%andThen_ok.
  apply andThen_ok in Hx as (? & d2 & (N1 & N2 & _ & N4 & ->)%insert_node_val & Hx). cbn in N1, N2, N4.
  apply andThen_ok in Hx as (n & d3 & [-> ->]%update_requests_val & Hx). destruct (_ =? 0) eqn:E; [done|]. apply ret_ok in Hx as [_ ->]. apply Z.eqb_neq in E.
  destruct (count_one rid (fun r => CanApprove (er_status r)) _ E) as (r & Hr & Ha). cbn in Hr. exists g, r. eexists. split_and!; try done.
  - by apply String.eqb_eq.
  - cbn. f_equal. by apply (update_one rid (fun r => CanApprove (er_status r))).
Qed.
Lemma reserve_wf rid gid nid actor i now d u d' : wf d -> (forall r, db_requests d !! rid = Some r -> er_grant r = gid) ->
  reserveEnrollmentNode rid gid nid actor i now d = Ok (u, d') -> wf d'.
Proof. intros Hd Hg (g & r & n & H1 & _ & H3 & H4 & H5 & -> & H7 & H8 & _ & ->)%reserve_val. apply wf_approve; try done. by apply Hg. Qed.

Lemma conflict_wf id reason now : preserves wf (recordEnrollmentConflict id reason now).
Proof. unfold recordEnrollmentConflict. keeps. apply preserves_updated. intros d k r _ _ _. apply row_step_same; try done. auto. Qed.
Lemma loaded id d r d' : loadEnrollmentRequestTx id d = Ok (r, d') -> db_requests d !! id = Some r /\ d' = d.
Proof. unfold loadEnrollmentRequestTx. by intros (o & d1 & [-> ->]%query_val & [? ->]%require_val)%andThen_ok. Qed.
Lemma autoApprove_wf gid g id nid now d u d' : wf d -> (forall r, db_requests d !! id = Some r -> er_grant r = gid) ->
  autoApproveEnrollmentRequest gid g id nid now d = Ok (u, d') -> wf d'.
Proof.
  intros Hd Hgrant. unfold autoApproveEnrollmentRequest. intros (r & d1 & [Hr ->]%loaded & Hx)%andThen_ok. destruct (negb _); [by apply ret_ok in Hx as [_ ->]|].
  destruct (automaticEnrollmentReservation g r) as [decision|reason]; [|by eapply conflict_wf].
  apply andThen_ok in Hx as (taken & d2 & [-> ->]%query_val & Hx). destruct (enrollmentNodeNameTaken _ d); [by eapply conflict_wf|]. by eapply reserve_wf.
Qed.
Lemma CreateOrResumeRequest_wf cx id nid i : preserves wf (CreateOrResumeRequest cx id nid i).
Proof.
  intros d a d' Hd. unfold CreateOrResumeRequest. destruct (negb _); [done|].
  intros (g & d1 & Hg & Hx)%andThen_ok. apply (preserves_grant_for_update _ _ _ _ Hd) in Hg. destruct (negb _); [done|].
  apply andThen_ok in Hx as ([b k] & d2 & Hup & Hx). pose proof (upsertEnrollmentRequest_wf _ _ _ _ _ Hg Hup) as Hd2. apply upsert_grant in Hup as (r & Hr & Hgr).
  apply andThen_ok in Hx as (u & d3 & Hauto & Hx). assert (wf d3) as Hd3.
  { destruct (_ =s ApprovalAutomatic); [|by apply ret_ok in Hauto as [_ ->]]. eapply autoApprove_wf; [exact Hd2| |exact Hauto]. cbn. intros r' Hr'. congruence. }
  revert Hd3 Hx. match goal with |- wf _ -> ?m d3 = _ -> _ => assert (preserves wf m) as Hm by keeps end. intros Hd3 Hx. by eapply Hm.
Qed.

(** ** Decisions *)

Lemma grant_for_update id d g d' : enrollmentGrantForUpdate id d = Ok (g, d') -> db_grants d !! id = Some g /\ d' = d.
Proof. unfold enrollmentGrantForUpdate. by intros (o & d1 & [-> ->]%query_val & [? ->]%require_val)%andThen_ok. Qed.
Lemma decide_val cx id action decide d r' d' : decideEnrollmentRequest cx id action decide d = Ok (r', d') -> exists r g d1,
  db_requests d !! id = Some r /\ db_grants d !! er_grant r = Some g /\ decide r g d = Ok (tt, d1) /\ db_requests d1 !! id = Some r' /\ core d' = core d1 /\
  db_challenges d' = db_challenges d1.
Proof.
  unfold decideEnrollmentRequest. intros (r & e1 & [Hr ->]%loaded & (g & e2 & [Hg ->]%grant_for_update & ([] & d1 & Hdec & Hx)%andThen_ok)%andThen_ok)%andThen_ok.
  apply andThen_ok in Hx as (updated & e3 & [Hu ->]%loaded & (? & e4 & ->%exec_val & [-> ->]%ret_ok)%andThen_ok). by exists r, g, d1.
Qed.
Lemma ApproveEnrollmentRequest_wf cx nid i : preserves wf (ApproveEnrollmentRequest cx nid i).
Proof.
  intros d r' d' Hd (r & g & d1 & Hr & Hg & Hdec & _ & Hcore & _)%decide_val. eapply enroll_core; [exact Hcore|]. cbv zeta in Hdec.
  destruct (negb _); [done|]. destruct (NormalizeNodeTags _) as [tags|]; [|done]. destruct (_ || _); [done|].
  eapply reserve_wf; [exact Hd| |exact Hdec]. intros r0 Hr0. congruence.
Qed.

(** A rejection ends the request and takes its hidden node. *)
Lemma reject_val cx i d r' d' : RejectEnrollmentRequest cx i d = Ok (r', d') -> exists r snapshot c d1,
  let r1 := set_reservation None snapshot (set_ended RequestRejected (rj_ActorID i) (cx_now cx) (TrimSpace (rj_Reason i)) r) in
  db_requests d !! rj_RequestID i = Some r /\ openStatus r = true /\ d1 = without_nodes c d /\
  (forall id n, db_nodes d !! id = Some n -> hidden_node n = true -> er_node r = Some id -> c id n = true) /\
  core d' = (db_nodes d1, db_grants d1, <[rj_RequestID i := r1]> (db_requests d1)).
Proof.
  intros (r & g & d1 & Hr & Hg & Hdec & _ & Hcore & _)%decide_val. cbv zeta in Hdec. destruct (_ <? _); [done|].
  apply andThen_ok in Hdec as (n & e1 & [-> ->]%update_requests_val & Hrel). unfold releaseEnrollmentReservation in Hrel. destruct (_ =? 0) eqn:E; [done|]. apply Z.eqb_neq in E.
  destruct (count_one (rj_RequestID i) openStatus _ E) as (r0 & Hr0 & Ho). rewrite Hr in Hr0. injection Hr0 as <-.
  rewrite (update_one _ openStatus _ _ r Hr Ho) in Hrel. set (e1 := set_requests _ d) in Hrel.
  apply andThen_ok in Hrel as (? & e2 & [_ ->]%update_requests_val & (? & e3 & ->%exec_val & (? & e4 & [_ ->]%update_requests_val & [_ ->]%ret_ok)%andThen_ok)%andThen_ok).
  set (e2 := set_requests _ e1) in Hcore. set (c := fun n node => hidden_node node && reserved_by (fun k _ => k =s rj_RequestID i) e2 n) in Hcore.
  set (r2 := snapshotted e1 (set_ended RequestRejected (rj_ActorID i) (cx_now cx) (TrimSpace (rj_Reason i)) r)).
  assert (db_requests e2 = <[rj_RequestID i := r2]> (db_requests d)) as E2.
  { transitivity (<[rj_RequestID i := r2]> (db_requests e1)); [|apply insert_insert_eq].
    unfold e2, r2. cbn [db_requests set_requests]. rewrite <- (update_one (rj_RequestID i) (fun _ => true) (snapshotted e1) (db_requests e1)
      (set_ended RequestRejected (rj_ActorID i) (cx_now cx) (TrimSpace (rj_Reason i)) r)); [|apply lookup_insert_eq|done].
    apply map_eq. intros k. rewrite !lookup_update_where. destruct (db_requests e1 !! k); [|done]. cbn. by rewrite andb_true_r. }
  exists r, (er_snapshot r2), c, (without_nodes c d). split_and!; [done|done|done| |].
  - intros id node Hnode Hh Hid. unfold c. rewrite Hh. cbn. apply exists_where_spec. exists (rj_RequestID i), r2. rewrite E2, lookup_insert_eq. split; [done|].
    rewrite String.eqb_refl. apply bool_decide_eq_true_2. exact Hid.
  - rewrite Hcore. unfold core. cbn [db_nodes db_grants db_requests set_requests without_nodes set_nodes set_joins set_identities]. f_equal.
    apply map_eq. intros k. rewrite lookup_update_where, lookup_fmap. rewrite E2. destruct (decide (k = rj_RequestID i)) as [->|Hne].
    + rewrite !lookup_insert_eq. cbn. by rewrite String.eqb_refl.
    + rewrite !lookup_insert_ne, lookup_fmap by done. destruct (db_requests d !! k); [|done]. cbn. by rewrite (proj2 (String.eqb_neq _ _) Hne).
Qed.
Lemma RejectEnrollmentRequest_wf cx i : preserves wf (RejectEnrollmentRequest cx i).
Proof.
  intros d r' d' Hd (r & snapshot & c & d1 & Hr & Ho & -> & _ & Hcore)%reject_val. pose proof (wf_without c d Hd) as Hd1.
  set (r1 := set_reservation None snapshot (set_ended RequestRejected (rj_ActorID i) (cx_now cx) (TrimSpace (rj_Reason i)) r)) in Hcore.
  apply (wf_mapped (fun k q => if k =s rj_RequestID i then r1 else q) (without_nodes c d)); [by injection Hcore|by injection Hcore| | |done].
  - injection Hcore as _ _ ->. apply map_eq. intros k. rewrite map_lookup_imap. destruct (decide (k = rj_RequestID i)) as [->|Hne].
    + rewrite lookup_insert_eq. cbn. rewrite lookup_fmap, Hr. cbn. by rewrite String.eqb_refl.
    + rewrite lookup_insert_ne by done. match goal with |- ?x = _ => change x with (db_requests (without_nodes c d) !! k) end.
      destruct (db_requests (without_nodes c d) !! k); [|done]. cbn. by rewrite (proj2 (String.eqb_neq _ _) Hne).
  - intros k q Hq. destruct (k =s rj_RequestID i) eqn:Ek; [|apply request_step_refl]. apply String.eqb_eq in Ek as ->. cbn in Hq. rewrite lookup_fmap, Hr in Hq. injection Hq as <-.
    apply (row_step_ended RequestRejected (rj_ActorID i) (cx_now cx) (TrimSpace (rj_Reason i)) snapshot (set_reservation (lost (selected_keys c (db_nodes d)) (er_node r)) (er_snapshot r) r)); [by left|done].
Qed.

(** ** Tickets and claims *)

Lemma RotateEnrollmentTicket_wf id ticket now : preserves wf (RotateEnrollmentTicket id ticket now).
Proof.
  unfold RotateEnrollmentTicket. keeps. apply preserves_updated. intros d k r _ _ [_ Hs%str_in_spec]%andb_true_iff. apply row_step_same; try done.
  right. right. rewrite !elem_of_cons in Hs. destruct_or? Hs; [auto|auto|by apply not_elem_of_nil in Hs].
Qed.

Lemma update_token_val id hash f d u d' : update_token id hash f d = Ok (u, d') -> d' = set_nodes (alter f id (db_nodes d)) d /\
  (is_Some (db_nodes d !! id) -> forall j m, db_nodes d !! j = Some m -> j <> id -> nd_hash m <> Some hash).
Proof.
  unfold update_token. destruct (exists_where _ _ && _) eqn:E; [done|]. intros [= _ <-]. split; [done|]. intros Hs j m Hm Hne Hx.
  rewrite (bool_decide_eq_true_2 _ Hs), andb_true_r in E. pose proof (exists_where_false _ _ _ _ E Hm) as Hc. cbn in Hc.
  by rewrite (proj2 (String.eqb_neq _ _) Hne), Hx, bool_decide_eq_true_2 in Hc.
Qed.
Lemma read_node_val id state d n d' : readEnrollmentNode id state d = Ok (n, d') -> db_nodes d !! id = Some n /\ nd_state n = state /\ nd_lifecycle n = "active" /\ d' = d.
Proof.
  unfold readEnrollmentNode. intros (row & d1 & [-> ->]%query_val & (n0 & d2 & [Hn ->]%require_val & Hx)%andThen_ok)%andThen_ok.
  destruct (_ && _) eqn:E; [|done]. apply ret_ok in Hx as [-> ->]. apply andb_true_iff in E as [E1%String.eqb_eq E2%String.eqb_eq]. auto.
Qed.

(** A first claim. *)
Lemma activate_val id r token now d result d' : activateEnrollmentNode id r token now d = Ok (result, d') -> exists nid n,
  er_node r = Some nid /\ db_nodes d !! nid = Some n /\ nd_state n = CredentialPendingClaim /\ nd_lifecycle n = "active" /\
  (forall j m, db_nodes d !! j = Some m -> j <> nid -> nd_hash m <> Some (Token_Hash token)) /\
  result = mkClaimResult r nid (nd_name n) (nd_host n) (nd_port n) (nd_group n) token false /\
  db_grants d' = db_grants d /\ db_challenges d' = db_challenges d /\
  db_nodes d' = alter (set_token (Some (Token_Hash token)) (Token_Prefix token) (Some now) None None CredentialActive now) nid (db_nodes d) /\
  db_requests d' = update_where (fun k r => (k =s id) && (er_status r =s RequestApproved))
    (set_claimed RequestClaimed (Some now) (Some (Add now ClaimRecoveryWindow)) 0) (db_requests d).
Proof.
  unfold activateEnrollmentNode. destruct (er_node r) as [nid|]; [|done]. intros (n & d1 & (Hn & Hs & Hl & ->)%read_node_val & Hx)%andThen_ok.
  apply andThen_ok in Hx as (? & d2 & [-> Hu]%update_token_val & (? & d3 & ->%exec_val & (? & d4 & [_ ->]%update_requests_val & [-> ->]%ret_ok)%andThen_ok)%andThen_ok).
  exists nid, n. split_and!; try done. apply Hu. eauto.
Qed.
(** A claim again. *)
Lemma recover_val id r g token now d result d' : recoverEnrollmentNode id r g token now d = Ok (result, d') -> exists nid n deadline,
  er_node r = Some nid /\ er_deadline r = Some deadline /\ now < deadline /\ er_attempts r < MaxClaimRecoveryAttempts /\ ClaimRecovery (gr_policy g) = true /\
  db_nodes d !! nid = Some n /\ nd_state n = CredentialActive /\ nd_lifecycle n = "active" /\
  (forall j m, db_nodes d !! j = Some m -> j <> nid -> nd_hash m <> Some (Token_Hash token)) /\
  result = mkClaimResult r nid (nd_name n) (nd_host n) (nd_port n) (nd_group n) token true /\
  db_grants d' = db_grants d /\ db_challenges d' = db_challenges d /\
  db_nodes d' = alter (set_token (Some (Token_Hash token)) (Token_Prefix token) (Some now) None None CredentialActive now) nid (db_nodes d) /\
  db_requests d' = update_where (fun k r => (k =s id) && (er_status r =s RequestClaimed))
    (fun r => set_claimed (er_status r) (er_claimed r) (er_deadline r) (er_attempts r + 1) r) (db_requests d).
Proof.
  unfold recoverEnrollmentNode. destruct (er_deadline r) as [deadline|]; [|done]. destruct (er_node r) as [nid|]; [|done].
  destruct (_ || _) eqn:E; [done|]. intros (n & d1 & (Hn & Hs & Hl & ->)%read_node_val & Hx)%andThen_ok.
  apply andThen_ok in Hx as (? & d2 & [-> Hu]%update_token_val & (? & d4 & [_ ->]%update_requests_val & [-> ->]%ret_ok)%andThen_ok).
  rewrite !orb_false_iff in E. destruct E as [[E1%negb_false_iff E2%negb_false_iff] E3]. unfold Before in E2. exists nid, n, deadline. split_and!; try done; [lia|lia|]. apply Hu. eauto.
Qed.
Lemma token_node_step n token now : nd_state n = CredentialActive -> node_step n (set_token (Some (Token_Hash token)) (Token_Prefix token) (Some now) None None CredentialActive now n).
Proof. intros Hs. split; [done|by rewrite Hs|]. intros _. split; cbn; [done|]. done. Qed.

Lemma applyEnrollmentClaim_wf id r g token now d result d' : wf d -> db_requests d !! id = Some r -> applyEnrollmentClaim id r g token now d = Ok (result, d') -> wf d'.
Proof.
  intros Hd Hr. unfold applyEnrollmentClaim. destruct (er_status r =s RequestApproved) eqn:Ea; [|destruct (er_status r =s RequestClaimed) eqn:Ec; [|done]].
  - apply String.eqb_eq in Ea. intros (nid & n & Hn & En & Hs & Hl & Hu & _ & Hg & _ & Hno & Hre)%activate_val.
    eapply enroll_core; [|eapply (wf_claim d id r nid n (set_token (Some (Token_Hash token)) (Token_Prefix token) (Some now) None None CredentialActive now) now); try done; eauto].
    unfold core. rewrite Hg, Hno, Hre. cbn. f_equal. apply (update_one id (fun r => er_status r =s RequestApproved)); [done|]. by rewrite Ea.
  - apply String.eqb_eq in Ec. intros (nid & n & dl & Hn & Hdl & Hnow & Hat & _ & En & Hs & Hl & Hu & _ & Hg & _ & Hno & Hre)%recover_val.
    set (f := set_token (Some (Token_Hash token)) (Token_Prefix token) (Some now) None None CredentialActive now) in Hno.
    assert (wf (set_nodes (alter f nid (db_nodes d)) d)) as Hd1.
    { apply (wf_node_changed nid f d (Token_Hash token)); [| |done]; intros n0 Hn0; rewrite En in Hn0; injection Hn0 as <-; [by apply token_node_step|right; auto]. }
    apply (wf_mapped (fun k r => if (k =s id) && (er_status r =s RequestClaimed) then set_claimed (er_status r) (er_claimed r) (er_deadline r) (er_attempts r + 1) r else r)
      (set_nodes (alter f nid (db_nodes d)) d)); try done.
    intros k q Hq. cbn in Hq. destruct (k =s id) eqn:Ek; [|apply request_step_refl]. apply String.eqb_eq in Ek as ->. rewrite Hr in Hq. injection Hq as <-. rewrite Ec. cbn [andb String.eqb].
    rewrite String.eqb_refl. split; try done; [|by right]. intros Hok. destruct (row_claimed _ Hok Ec) as (Hap & Hatt & Hx). right; right; left. split_and!; [done|done|cbn; lia|cbn; lia|done].
Qed.
Lemma claim_val cx id ticket token d result d' : ClaimEnrollmentRequest cx id ticket token d = Ok (result, d') -> exists r g d1,
  db_requests d !! id = Some r /\ requireEnrollmentTicket r ticket (cx_now cx) = true /\ db_grants d !! er_grant r = Some g /\ enrollmentActive g (cx_now cx) = true /\
  applyEnrollmentClaim id r g token (cx_now cx) d = Ok (result, d1) /\ core d' = core d1 /\ db_challenges d' = db_challenges d1.
Proof.
  unfold ClaimEnrollmentRequest. intros (r & e1 & [Hr ->]%loaded & Hx)%andThen_ok. destruct (requireEnrollmentTicket _ _ _) eqn:Et; [|done]. cbn [negb] in Hx.
  apply andThen_ok in Hx as (g & e2 & [Hg ->]%grant_for_update & Hx). destruct (enrollmentActive _ _) eqn:Ea; [|done]. cbn [negb] in Hx.
  apply andThen_ok in Hx as (res & d1 & Happ & (? & e3 & ->%exec_val & [-> ->]%ret_ok)%andThen_ok). by exists r, g, d1.
Qed.
Lemma ClaimEnrollmentRequest_wf cx id ticket token : preserves wf (ClaimEnrollmentRequest cx id ticket token).
Proof.
  intros d result d' Hd (r & g & d1 & Hr & _ & Hg & _ & Happ & Hcore & _)%claim_val. eapply enroll_core; [exact Hcore|]. by eapply applyEnrollmentClaim_wf.
Qed.

(** ** Cleanup *)

Lemma expireOpen_wf now : preserves wf (expireOpenEnrollmentRequests now).
Proof.
  unfold expireOpenEnrollmentRequests. keeps. apply preserves_updated. intros d k r Hd Hr [Ho _]%andb_true_iff. apply row_step_ended; [by right|done].
Qed.
Hint Resolve expireOpen_wf : enroll.
Lemma CleanupEnrollmentState_wf now : preserves wf (CleanupEnrollmentState now).
Proof.
  unfold CleanupEnrollmentState, deleteOrphanEnrollmentNodes. keeps.
  - apply preserves_core. unfold pruneExpiredChallenges. by intros d a d' [= _ <-].
  - apply preserves_updated. intros d k r _ _ _. apply row_step_same; try done. auto.
Qed.
End steps.
