(* ===== verification/EnrollRun.v ===== *)
(** * Agent enrollment: runs

    Every operation of enrollment and of node credentials as one step, the public protocol
    through its handlers, and any sequence of them. *)

From S2P Require Import Prelude GoText GoNumber GoInstant GoSha256 GoTable EnrollSecret EnrollPolicy EnrollModel EnrollService EnrollNodes EnrollHandlers EnrollInvariant EnrollSteps.

(** ** Node operations *)

Lemma preserves_new_node id n : node_ok n -> preserves wf (insert_node id n).
Proof. intros Hok d u d' Hd (H1 & H2 & H3 & _ & ->)%insert_node_val. by apply wf_node_new. Qed.
Lemma active_node_ok n : nd_state n = CredentialActive -> nd_hash n <> None -> nd_created n <> None -> node_ok n.
Proof. intros H1 H2 H3. split; [intros E; rewrite H1 in E; done|done]. Qed.
Lemma CreateManagedNode_wf id i c : preserves wf (CreateManagedNode id i c).
Proof. unfold CreateManagedNode, defaultGroupIDFrom. keeps. all: by apply preserves_new_node, active_node_ok. Qed.

Lemma node_step_same n n' : nd_name n' = nd_name n -> nd_state n' = nd_state n -> nd_hash n' = nd_hash n -> nd_created n' = nd_created n -> node_step n n'.
Proof. intros H1 H2 H3 H4. split; [done|done|]. unfold node_ok. by rewrite H2, H3, H4. Qed.
Lemma preserves_altered id f : (forall n, nd_name (f n) = nd_name n /\ nd_state (f n) = nd_state n /\ nd_hash (f n) = nd_hash n /\ nd_created (f n) = nd_created n) ->
  preserves wf (exec (fun d => set_nodes (alter f id (db_nodes d)) d) : T unit).
Proof. intros Hf. apply preserves_node. intros d n _ _. destruct (Hf n) as (H1 & H2 & H3 & H4). split; [by apply node_step_same|done]. Qed.

Lemma RevokeAgentToken_wf id revokedAt : preserves wf (RevokeAgentToken id revokedAt).
Proof.
  unfold RevokeAgentToken, mutateCredentialNode. apply preserves_then; [apply preserves_reads, reads_query|]. intros previous. destruct previous; keeps. by apply preserves_altered.
Qed.
Lemma TouchAgentToken_wf id usedAt interval : preserves wf (TouchAgentToken id usedAt interval).
Proof. apply preserves_altered. intros n. by destruct (_ && _ && _). Qed.
#[export] Hint Resolve TouchAgentToken_wf : enroll.
Lemma authenticateAgent_wf legacy name readOnly token now : preserves wf (authenticateAgent legacy name readOnly token now).
Proof. unfold authenticateAgent. keeps. Qed.

(** A rotated token of a node that is seen. *)
Lemma RotateAgentToken_val id c d o d' : RotateAgentToken id c d = Ok (o, d') -> db_nodes d !! id = None /\ o = None /\ d' = d \/ exists n,
  db_nodes d !! id = Some n /\ (forall j m, db_nodes d !! j = Some m -> j <> id -> nd_hash m <> Some (cd_Hash c)) /\
  o = Some (set_token (Some (cd_Hash c)) (cd_Prefix c) (Some (cd_CreatedAt c)) None None (nd_state n) (cd_CreatedAt c) n) /\
  d' = set_nodes (<[id := set_token (Some (cd_Hash c)) (cd_Prefix c) (Some (cd_CreatedAt c)) None None (nd_state n) (cd_CreatedAt c) n]> (db_nodes d)) d.
Proof.
  unfold RotateAgentToken, mutateCredentialNode. intros (previous & d1 & [-> ->]%query_val & Hx)%andThen_ok. destruct (db_nodes d !! id) as [n|] eqn:En.
  - right. exists n. apply andThen_ok in Hx as (u & d2 & [-> Hu]%update_token_val & [-> ->]%query_val). cbn. rewrite lookup_alter_eq, En. cbn. split_and!; [done| |done|].
    + apply Hu. eauto.
    + f_equal. by rewrite (alter_inserted _ id _ n En).
  - left. by apply ret_ok in Hx as [-> ->].
Qed.
Lemma HandleRotate_val id token now d o d' : HandleRotateAgentToken id token now d = Ok (o, d') -> o = None /\ d' = d \/ exists n,
  db_nodes d !! id = Some n /\ visible n = true /\ is_active n = true /\ (forall j m, db_nodes d !! j = Some m -> j <> id -> nd_hash m <> Some (Token_Hash token)) /\
  d' = set_nodes (<[id := set_token (Some (Token_Hash token)) (Token_Prefix token) (Some now) None None (nd_state n) now n]> (db_nodes d)) d.
Proof.
  unfold HandleRotateAgentToken, GetNode. intros (node & d1 & [-> ->]%query_val & Hx)%andThen_ok. destruct (db_nodes d !! id) as [n|] eqn:En; [|left; by apply ret_ok in Hx as [-> ->]].
  destruct (visible n && is_active n) eqn:E; [|left; by apply ret_ok in Hx as [-> ->]]. apply andb_true_iff in E as [Ev Ea]. right. exists n.
  apply RotateAgentToken_val in Hx as [(E & _)|(n0 & E & Hu & _ & ->)]; [congruence|]. rewrite En in E. injection E as <-. auto.
Qed.
Lemma HandleRotateAgentToken_wf id token now : preserves wf (HandleRotateAgentToken id token now).
Proof.
  intros d o d' Hd [[_ ->]|(n & En & Hv & _ & Hu & ->)]%HandleRotate_val; [done|].
  set (f := set_token (Some (Token_Hash token)) (Token_Prefix token) (Some now) None None (nd_state n) now). rewrite <- (alter_inserted f id _ n En).
  apply (wf_node_changed id f d (Token_Hash token)); [| |done]; intros n0 Hn0; rewrite En in Hn0; injection Hn0 as <-; [|right; auto].
  split; [done|done|]. intros _. split; cbn; [|done]. intros E. unfold visible in Hv. rewrite E in Hv. done.
Qed.

Lemma DeleteNode_wf id : preserves wf (DeleteNode id).
Proof. unfold DeleteNode. keeps. Qed.
Lemma updateLifecycle_wf id from to now : preserves wf (updateLifecycle id from to now).
Proof. apply preserves_altered. intros n. by destruct (_ =s _). Qed.
Lemma UpsertNode_wf id name host port now : preserves wf (UpsertNode id name host port now).
Proof.
  unfold UpsertNode, defaultGroupIDFrom. apply preserves_then; [apply preserves_reads, reads_query|]. intros [[k n]|]; [by apply preserves_altered|]. keeps.
  apply preserves_new_node. by split.
Qed.
Lemma UpdateNode_wf id u now : preserves wf (UpdateNode id u now).
Proof.
  intros d o d' Hd. unfold UpdateNode. intros (existing & d1 & [-> ->]%query_val & Hx)%andThen_ok. destruct (db_nodes d !! id) as [n|] eqn:En; [|by apply ret_ok in Hx as [_ ->]].
  destruct (visible n); [|by apply ret_ok in Hx as [_ ->]]. cbv zeta in Hx. apply andThen_ok in Hx as (known & d2 & [-> ->]%query_val & Hx). destruct (negb _); [done|].
  apply andThen_ok in Hx as (? & d3 & ->%exec_val & [_ ->]%ret_ok). set (n' := mkNode _ _ _ _ _ _ _ _ _ _ _ _ _ _ _ _).
  rewrite <- (alter_inserted (fun _ => n') id _ n En).
  apply (wf_node_changed id (fun _ => n') d []); [| |done]; intros n0 Hn0; rewrite En in Hn0; injection Hn0 as <-; [by apply node_step_same|by left].
Qed.
Lemma UpdateNodeSort_wf ids now : preserves wf (UpdateNodeSort ids now).
Proof. unfold UpdateNodeSort. keeps. apply preserves_each. intros kv. by apply preserves_altered. Qed.

Section runs.
Context `{EnrollExternals}.

Lemma CreateEnrollmentToken_wf id origin hash prefix http creator created expires : preserves wf (CreateEnrollmentToken id origin hash prefix http creator created expires).
Proof.
  unfold CreateEnrollmentToken, reserveEnrollmentCapacity. keeps. apply preserves_core. intros d1 j d2. cbv beta zeta. by match goal with |- (if ?b then _ else _) = _ -> _ => destruct b; [|intros [= _ <-]] end.
Qed.
Lemma RevokeEnrollmentToken_wf id now : preserves wf (RevokeEnrollmentToken id now).
Proof. unfold RevokeEnrollmentToken. keeps. Qed.
Lemma ConsumeEnrollmentToken_wf nodeID input : preserves wf (ConsumeEnrollmentToken nodeID input).
Proof.
  unfold ConsumeEnrollmentToken, readEnrollment, resumeEnrollment, activateEnrollment, findEnrollmentIdentity, createEnrollmentNode, defaultGroupIDFrom, rememberEnrollmentIdentity.
  keeps. all: by apply preserves_new_node, active_node_ok.
Qed.

(** ** Steps *)

Inductive op :=
  | OpChallenge (c : Config) (r : HttpRequest) (body : result Z ChallengeBody) (id : string) (challenge : option (list Z)) (now : Time)
  | OpRequest (c : Config) (r : HttpRequest) (body : result Z CreateBody) (id nodeID : string) (token : option Secret) (now : Time)
  | OpStatus (c : Config) (r : HttpRequest) (body : result Z StatusBody) (ticket : option Secret) (now : Time)
  | OpClaim (c : Config) (r : HttpRequest) (body : result Z ClaimBody) (token : option Token) (now : Time)
  | OpCreateGrant (cx : Context) (id : string) (input : EnrollmentGrantInput)
  | OpUpdateGrant (cx : Context) (id : string) (input : EnrollmentGrantInput)
  | OpRotateSecret (cx : Context) (id : string) (secret : Secret)
  | OpRevokeGrant (cx : Context) (id actor : string)
  | OpApprove (cx : Context) (nodeID : string) (i : Approval)
  | OpReject (cx : Context) (i : Rejection)
  | OpCleanup (now : Time)
  | OpManagedNode (id : string) (i : ManagedNodeInput) (c : AgentCredential)
  | OpRotateToken (id : string) (token : Token) (now : Time)
  | OpRevokeToken (id : string) (now : Time)
  | OpAuthenticate (legacy : string) (name : option string) (readOnly : bool) (token : string) (now : Time)
  | OpDeleteNode (id : string)
  | OpLifecycle (id from to : string) (now : Time)
  | OpUpsertNode (id name host : string) (port : Z) (now : Time)
  | OpUpdateNode (id : string) (u : NodeUpdate) (now : Time)
  | OpSort (ids : list string) (now : Time)
  | OpIssueJoin (id : string) (origin : option string) (hash : list Z) (prefix : string) (http : bool) (creator : string) (created expires : Time)
  | OpRevokeJoin (id : string) (now : Time)
  | OpJoin (nodeID : string) (input : ConsumeInput).

Definition attempted {A} (m : T A) (w : World) : World := (transact m w).2.
(** The state after a step; a transaction that fails leaves it. *)
Definition perform (o : op) (w : World) : World :=
  match o with
  | OpChallenge c r body id challenge now => (HandleChallenge c r body id challenge now w).2
  | OpRequest c r body id nodeID token now => (HandleCreateRequest c r body id nodeID token now w).2
  | OpStatus c r body ticket now => (HandleRequestStatus c r body ticket now w).2
  | OpClaim c r body token now => (HandleClaim c r body token now w).2
  | OpCreateGrant cx id input => attempted (CreateGrant cx id input) w
  | OpUpdateGrant cx id input => attempted (UpdateGrant cx id input) w
  | OpRotateSecret cx id secret => attempted (RotateGrantSecret cx id secret) w
  | OpRevokeGrant cx id actor => attempted (RevokeGrant cx id actor) w
  | OpApprove cx nodeID i => attempted (ApproveEnrollmentRequest cx nodeID i) w
  | OpReject cx i => attempted (RejectEnrollmentRequest cx i) w
  | OpCleanup now => attempted (CleanupEnrollmentState now) w
  | OpManagedNode id i c => attempted (CreateManagedNode id i c) w
  | OpRotateToken id token now => attempted (HandleRotateAgentToken id token now) w
  | OpRevokeToken id now => attempted (RevokeAgentToken id now) w
  | OpAuthenticate legacy name readOnly token now => attempted (authenticateAgent legacy name readOnly token now) w
  | OpDeleteNode id => attempted (DeleteNode id) w
  | OpLifecycle id from to now => attempted (updateLifecycle id from to now) w
  | OpUpsertNode id name host port now => attempted (UpsertNode id name host port now) w
  | OpUpdateNode id u now => attempted (UpdateNode id u now) w
  | OpSort ids now => attempted (UpdateNodeSort ids now) w
  | OpIssueJoin id origin hash prefix http creator created expires => attempted (CreateEnrollmentToken id origin hash prefix http creator created expires) w
  | OpRevokeJoin id now => attempted (RevokeEnrollmentToken id now) w
  | OpJoin nodeID input => attempted (ConsumeEnrollmentToken nodeID input) w
  end.
Fixpoint run (ops : list op) (w : World) : World := match ops with [] => w | o :: rest => run rest (perform o w) end.
Definition start_world (groups : gset string) (default : option string) : World := mkWorld (empty_db groups default) (fun _ => newEnrollmentBudget).

(** ** What a handler does to the tables is what its transactions do *)

(** A property of the tables before and after that every transaction of a handler keeps. *)
Definition hkeeps {A} (R : DB -> DB -> Prop) (m : H A) : Prop := forall w, R (w_db w) (w_db (m w).2).
Section keeping.
Context (R : DB -> DB -> Prop) (Rrefl : forall d, R d d) (Rtrans : forall a b c, R a b -> R b c -> R a c).

Lemma hkeeps_then {A B} (m : H A) (k : A -> H B) : hkeeps R m -> (forall a, hkeeps R (k a)) -> hkeeps R (andNext m k).
Proof.
  intros Hm Hk w. unfold andNext. specialize (Hm w). destruct (m w) as [[answer|a] w1]; [exact Hm|]. cbn in Hm. eapply Rtrans; [exact Hm|apply Hk].
Qed.
Lemma hkeeps_go {A} (a : A) : hkeeps R (go a).
Proof. intros w. apply Rrefl. Qed.
Lemma hkeeps_stop {A} (answer : Answer) : hkeeps R (stop answer : H A).
Proof. intros w. apply Rrefl. Qed.
Lemma hkeeps_reject {A} r now : hkeeps R (discoveryReject r now : H A).
Proof. intros w. unfold discoveryReject. cbn. destruct (discoveryClientAddress r); apply Rrefl. Qed.
Lemma hkeeps_orReject {A} r now (o : option A) : hkeeps R (orReject r now o).
Proof. destruct o; [apply hkeeps_go|apply hkeeps_reject]. Qed.
Lemma hkeeps_unless r now b : hkeeps R (rejectUnless r now b).
Proof. destruct b; [apply hkeeps_go|apply hkeeps_reject]. Qed.
Lemma hkeeps_parsed {A} (body : result Z A) : hkeeps R (parsed body).
Proof. destruct body; [apply hkeeps_go|apply hkeeps_stop]. Qed.
Lemma hkeeps_drawn {A} (o : option A) : hkeeps R (drawn o).
Proof. destruct o; [apply hkeeps_go|apply hkeeps_stop]. Qed.
Lemma hkeeps_call {A} (m : T A) : (forall d a d', m d = Ok (a, d') -> R d d') -> hkeeps R (call m).
Proof. intros Hm w. unfold call, transact. destruct (m (w_db w)) as [[a d']|e] eqn:E; [cbn; by eapply Hm|apply Rrefl]. Qed.
Lemma attempted_keeps {A} (m : T A) w : (forall d a d', m d = Ok (a, d') -> R d d') -> R (w_db w) (w_db (attempted m w)).
Proof. intros Hm. unfold attempted, transact. destruct (m (w_db w)) as [[a d']|e] eqn:E; [cbn; by eapply Hm|apply Rrefl]. Qed.
Lemma hkeeps_grant r now : hkeeps R (authenticateGrant r now).
Proof.
  unfold authenticateGrant. apply hkeeps_then; [apply hkeeps_orReject|]. intros plaintext. apply hkeeps_then; [apply hkeeps_orReject|]. intros _ w. unfold transact.
  destruct (GrantBySecret plaintext now (w_db w)) as [[g d']|e] eqn:E; [|apply hkeeps_reject]. cbn. unfold GrantBySecret in E.
  apply andThen_ok in E as (row & d1 & [-> ->]%query_val & (row' & d2 & [_ ->]%require_val & Hx)%andThen_ok). destruct (_ || _); [done|]. by apply ret_ok in Hx as [_ ->].
Qed.
Lemma hkeeps_token r now : hkeeps R (authenticateRequestToken r now).
Proof.
  unfold authenticateRequestToken. apply hkeeps_then; [apply hkeeps_orReject|]. intros plaintext. apply hkeeps_then; [apply hkeeps_orReject|]. intros _ w. cbv zeta.
  destruct (db_requests (w_db w) !! _) as [q|]; [|apply hkeeps_reject]. destruct (SecretMatches _ _); [apply Rrefl|apply hkeeps_reject].
Qed.
Lemma served_keeps c r e now body w : hkeeps R body -> R (w_db w) (w_db (served c r e now body w).2).
Proof.
  intros Hb. unfold served. destruct (_ && _); [apply Rrefl|]. destruct (discoveryClientAddress r) as [a|]; [|apply Rrefl].
  destruct (acquire _ _ _ _) as [[] b]; [|apply Rrefl]. specialize (Hb (set_budget e b w)). destruct (body (set_budget e b w)) as [[x|x] w1]; exact Hb.
Qed.

(** The transactions of the four endpoints. *)
Ltac handled :=
  apply served_keeps;
    repeat (apply hkeeps_then; [first [apply hkeeps_grant|apply hkeeps_token|apply hkeeps_parsed|apply hkeeps_orReject|apply hkeeps_unless|apply hkeeps_drawn|apply hkeeps_call; eauto|idtac]|intros ?]);
    try apply hkeeps_go.
Lemma challenges_keep : (forall id i d a d', CreateChallenge id i d = Ok (a, d') -> R d d') -> forall w c r body id ch now, R (w_db w) (w_db (HandleChallenge c r body id ch now w).2).
Proof. intros H1 w *. handled. Qed.
Lemma requests_keep :
  (forall p d a d', ConsumeChallenge p d = Ok (a, d') -> R d d') -> (forall cx id nid i d a d', CreateOrResumeRequest cx id nid i d = Ok (a, d') -> R d d') ->
  (forall id t now d a d', RotateEnrollmentTicket id t now d = Ok (a, d') -> R d d') ->
  (forall cx id t k d a d', ClaimEnrollmentRequest cx id t k d = Ok (a, d') -> R d d') -> forall w,
  (forall c r body id nid token now, R (w_db w) (w_db (HandleCreateRequest c r body id nid token now w).2)) /\
  (forall c r body ticket now, R (w_db w) (w_db (HandleRequestStatus c r body ticket now w).2)) /\
  (forall c r body token now, R (w_db w) (w_db (HandleClaim c r body token now w).2)).
Proof.
  intros H2 H3 H4 H5 w. split_and!; intros *; handled.
  intros w1. unfold rotateTicket. destruct (negb _); [apply Rrefl|]. destruct ticket as [t|]; [|apply Rrefl]. unfold transact.
  destruct (RotateEnrollmentTicket _ t now (w_db w1)) as [[q d']|e] eqn:E; [cbn; by eapply H4|apply Rrefl].
Qed.
End keeping.

(** ** The invariant of any run *)

Lemma perform_wf o w : wf (w_db w) -> wf (w_db (perform o w)).
Proof.
  set (R := fun d d' => wf d -> wf d'). change (R (w_db w) (w_db (perform o w))).
  assert (forall d, R d d) as Rr by (unfold R; auto). assert (forall a b c, R a b -> R b c -> R a c) as Rt by (unfold R; auto).
  assert (forall A (m : T A), preserves wf m -> forall d a d', m d = Ok (a, d') -> R d d') as Hp by (intros A m Hm d a d' E Hd; by eapply Hm).
  pose proof (challenges_keep R Rr Rt ltac:(intros; eapply Hp; [apply CreateChallenge_wf|eassumption]) w) as K1.
  pose proof (requests_keep R Rr Rt ltac:(intros; eapply Hp; [apply ConsumeChallenge_wf|eassumption])
    ltac:(intros; eapply Hp; [apply CreateOrResumeRequest_wf|eassumption]) ltac:(intros; eapply Hp; [apply RotateEnrollmentTicket_wf|eassumption])
    ltac:(intros; eapply Hp; [apply ClaimEnrollmentRequest_wf|eassumption]) w) as (K2 & K3 & K4).
  destruct o; cbn [perform]; try solve [apply K1 | apply K2 | apply K3 | apply K4]; apply attempted_keeps; try done; apply Hp;
    auto using CreateGrant_wf, UpdateGrant_wf, RotateGrantSecret_wf, RevokeGrant_wf, ApproveEnrollmentRequest_wf, RejectEnrollmentRequest_wf, CleanupEnrollmentState_wf,
      CreateManagedNode_wf, HandleRotateAgentToken_wf, RevokeAgentToken_wf, authenticateAgent_wf, DeleteNode_wf, updateLifecycle_wf, UpsertNode_wf, UpdateNode_wf,
      UpdateNodeSort_wf, CreateEnrollmentToken_wf, RevokeEnrollmentToken_wf, ConsumeEnrollmentToken_wf.
Qed.
Lemma enroll_run_wf ops : forall w, wf (w_db w) -> wf (w_db (run ops w)).
Proof. induction ops as [|o ops IH]; intros w Hw; [done|]. by apply IH, perform_wf. Qed.
End runs.
