(* ===== verification/EnrollTrace.v ===== *)
(** * Agent enrollment: how requests and grants evolve

    A relation between the tables before and after that every operation keeps: a request
    moves along its states and keeps its key, a grant that was revoked stays so, and a
    request comes only under a grant that is not revoked. *)

From S2P Require Import Prelude GoText GoNumber GoInstant GoSha256 GoTable EnrollSecret EnrollPolicy EnrollModel EnrollService EnrollNodes EnrollHandlers EnrollInvariant EnrollSteps EnrollRun.

(** ** The states of a request *)

(** state.go: pending and approved requests end, approved ones are claimed. *)
Inductive moves : string -> string -> Prop :=
  | moves_approve : moves RequestPending RequestApproved
  | moves_reject s : CanReject s = true -> moves s RequestRejected
  | moves_expire s : CanReject s = true -> moves s RequestExpired
  | moves_claim : moves RequestApproved RequestClaimed.

Lemma moves_open s s' : moves s s' -> CanReject s = true.
Proof. by inversion 1. Qed.
Lemma terminal_final s s' : rtc moves s s' -> Terminal s = true -> s' = s.
Proof.
  intros Hm Ht. destruct Hm as [|s s1 s2 H1 _]; [done|]. apply moves_open in H1. unfold Terminal, CanReject in *.
  destruct (s =s RequestPending) eqn:E1; [apply String.eqb_eq in E1 as ->; done|]. destruct (s =s RequestApproved) eqn:E2; [apply String.eqb_eq in E2 as ->; done|]. done.
Qed.
Lemma open_CanReject r : openStatus r = CanReject (er_status r).
Proof. unfold openStatus, CanReject, str_in. cbn. by rewrite orb_false_r. Qed.
Lemma ended_stays s s' : rtc moves s s' -> CanReject s = false -> s' = s.
Proof. intros Hm Ht. destruct Hm as [|s s1 s2 H1 _]; [done|]. apply moves_open in H1. congruence. Qed.

Record evolved (r r' : Request) : Prop := {
  ev_grant : er_grant r' = er_grant r; ev_key : er_key r' = er_key r; ev_fingerprint : er_fingerprint r' = er_fingerprint r;
  ev_status : rtc moves (er_status r) (er_status r');
  ev_attempts : er_status r = RequestClaimed -> er_attempts r <= er_attempts r' }.
Record evolves (d d' : DB) : Prop := {
  es_requests : forall id r, db_requests d !! id = Some r -> exists r', db_requests d' !! id = Some r' /\ evolved r r';
  es_grants : forall id g, db_grants d !! id = Some g -> exists g', db_grants d' !! id = Some g' /\ (gr_revoked g <> None -> gr_revoked g' <> None);
  es_new : forall id r' g, db_requests d' !! id = Some r' -> db_requests d !! id = None -> db_grants d !! er_grant r' = Some g -> gr_revoked g = None }.

Lemma evolved_refl r : evolved r r.
Proof. split; try done. Qed.
Lemma evolved_trans a b c : evolved a b -> evolved b c -> evolved a c.
Proof.
  intros [A B C D E] [A' B' C' D' E']. split; [congruence..|by etrans|]. intros Hs. assert (er_status b = RequestClaimed) as Hb by (rewrite <- Hs; eapply terminal_final; [done|by rewrite Hs]).
  specialize (E Hs). specialize (E' Hb). lia.
Qed.
Lemma evolves_refl d : evolves d d.
Proof. split; [eauto using evolved_refl|eauto|congruence]. Qed.
Lemma evolves_trans a b c : evolves a b -> evolves b c -> evolves a c.
Proof.
  intros [A1 A2 A3] [B1 B2 B3]. split.
  - intros id r (r1 & H1 & E1)%A1. destruct (B1 _ _ H1) as (r2 & H2 & E2). eauto using evolved_trans.
  - intros id g (g1 & H1 & E1)%A2. destruct (B2 _ _ H1) as (g2 & H2 & E2). eauto.
  - intros id r g Hr Hn Hg. destruct (db_requests b !! id) as [q|] eqn:Eq.
    + destruct (B1 _ _ Eq) as (r' & Hr' & [Eg _ _ _ _]). rewrite Hr in Hr'. injection Hr' as <-. eapply A3; [exact Eq|done|by rewrite <- Eg].
    + destruct (A2 _ _ Hg) as (g' & Hg' & Hrev). pose proof (B3 _ _ _ Hr Eq Hg') as Hx. destruct (gr_revoked g); [|done]. destruct (Hrev ltac:(done) Hx).
Qed.

(** ** Transactions that evolve the tables *)

Definition evolving {A} (m : T A) : Prop := forall d a d', m d = Ok (a, d') -> evolves d d'.
Lemma evolving_then {A B} (m : T A) (k : A -> T B) : evolving m -> (forall a, evolving (k a)) -> evolving (andThen m k).
Proof. intros Hm Hk d b d' (a & d1 & H1 & H2)%andThen_ok. eapply evolves_trans; [by eapply Hm|by eapply Hk]. Qed.
Lemma evolving_reads {A} (m : T A) : reads m -> evolving m.
Proof. intros Hm d a d' Hx. apply Hm in Hx as ->. apply evolves_refl. Qed.
Lemma evolves_same d d' : db_requests d' = db_requests d -> db_grants d' = db_grants d -> evolves d d'.
Proof. intros E1 E2. split; rewrite ?E1, ?E2; [eauto using evolved_refl|eauto|congruence]. Qed.
Lemma evolving_exec f : (forall d, evolves d (f d)) -> evolving (exec f : T unit).
Proof. intros Hf d a d' ->%exec_val. apply Hf. Qed.
Lemma evolves_mapped (f : Request -> Request) (c : string -> Request -> bool) d d' : db_requests d' = update_where c f (db_requests d) -> db_grants d' = db_grants d ->
  (forall k r, c k r = true -> evolved r (f r)) -> evolves d d'.
Proof.
  intros Er Eg Hf. split; rewrite ?Eg; [|eauto|].
  - intros id r Hr. rewrite Er, lookup_update_where, Hr. cbn. eexists. split; [done|]. destruct (c id r) eqn:E; [by eapply Hf|apply evolved_refl].
  - intros id r' g. rewrite Er, lookup_update_where. intros Hx Hn. rewrite Hn in Hx. done.
Qed.
Lemma evolving_updated c f : (forall d k r, c d k r = true -> evolved r (f d r)) -> evolving (update_requests c f).
Proof. intros Hf d n d' [_ ->]%update_requests_val. apply (evolves_mapped (f d) (c d)); [done|done|]. intros k r. apply Hf. Qed.
Lemma evolving_deleted c : evolving (delete_nodes c).
Proof.
  apply evolving_exec. intros d. eapply (evolves_mapped (fun r => set_reservation (lost (selected_keys (c d) (db_nodes d)) (er_node r)) (er_snapshot r) r) (fun _ _ => true)); [|done|].
  - apply map_eq. intros k. cbn. rewrite lookup_fmap, lookup_update_where. by destruct (db_requests d !! k).
  - intros k r _. by split.
Qed.

Create HintDb evolve.
Ltac evolve :=
  repeat match goal with
  | |- evolving (andThen _ _) => apply evolving_then; [|intros ?]
  | |- evolving (match ?x with _ => _ end) => destruct x
  | |- evolving (delete_nodes _) => apply evolving_deleted
  | |- evolving (ret _) => apply evolving_reads, reads_ret
  | |- evolving (fail _) => apply evolving_reads, reads_fail
  | |- evolving (query _) => apply evolving_reads, reads_query
  | |- evolving (require _ _) => apply evolving_reads, reads_require
  | |- evolving (lift _) => apply evolving_reads, reads_lift
  | |- evolving (exec _) => apply evolving_exec; intros ?; by apply evolves_same
  | |- evolving _ => solve [eauto with evolve]
  end.

Lemma evolving_audit action type resource a now : evolving (writeEnrollmentAudit action type resource a now).
Proof. unfold writeEnrollmentAudit. evolve. Qed.
Lemma evolving_insert_node id n : evolving (insert_node id n).
Proof. intros d u d' (_ & _ & _ & _ & ->)%insert_node_val. by apply evolves_same. Qed.
Lemma evolving_token id hash f : evolving (update_token id hash f).
Proof. intros d u d' [-> _]%update_token_val. by apply evolves_same. Qed.
Lemma evolving_load id : evolving (loadEnrollmentRequestTx id).
Proof. unfold loadEnrollmentRequestTx. evolve. Qed.
Lemma evolving_grant id : evolving (enrollmentGrantForUpdate id).
Proof. unfold enrollmentGrantForUpdate. evolve. Qed.
Lemma evolving_grant_row id : evolving (grant_row id).
Proof. unfold grant_row. evolve. Qed.
Lemma evolving_forget id : evolving (deleteGrantChallenges id).
Proof. unfold deleteGrantChallenges. evolve. Qed.
Lemma evolving_validated `{EnrollExternals} p now : evolving (validated p now).
Proof. unfold validated. evolve. Qed.
#[export] Hint Resolve evolving_audit evolving_insert_node evolving_token evolving_load evolving_grant evolving_grant_row evolving_forget evolving_validated : evolve.

Lemma evolved_once s s' r r' : er_grant r' = er_grant r -> er_key r' = er_key r -> er_fingerprint r' = er_fingerprint r -> er_status r = s -> er_status r' = s' -> moves s s' ->
  evolved r r'.
Proof.
  intros H1 H2 H3 Hs Hs' Hm. split; [done|done|done|rewrite Hs, Hs'; by apply rtc_once|]. intros Hc. apply moves_open in Hm. rewrite <- Hs, Hc in Hm. done.
Qed.
Lemma evolved_quiet r r' : er_grant r' = er_grant r -> er_key r' = er_key r -> er_fingerprint r' = er_fingerprint r -> er_status r' = er_status r -> er_attempts r <= er_attempts r' ->
  evolved r r'.
Proof. intros H1 H2 H3 H4 H5. split; [done..|by rewrite H4|done]. Qed.
(** An open request that is rejected or expires. *)
Lemma evolved_ended status r r' : status = RequestRejected \/ status = RequestExpired -> openStatus r = true -> er_grant r' = er_grant r -> er_key r' = er_key r ->
  er_fingerprint r' = er_fingerprint r -> er_status r' = status -> evolved r r'.
Proof.
  intros Hs Ho H1 H2 H3 H4. eapply evolved_once; [done..|]. rewrite open_CanReject in Ho. destruct Hs as [-> | ->]; by constructor.
Qed.

(** ** Grants *)

Section evolution.
Context `{EnrollExternals}.

Lemma evolves_grant id g d : (forall g0, db_grants d !! id = Some g0 -> gr_revoked g0 <> None -> gr_revoked g <> None) -> evolves d (set_grants (<[id := g]> (db_grants d)) d).
Proof.
  intros Hg. split; cbn; [eauto using evolved_refl| |congruence]. intros k g0 Hk. destruct (decide (k = id)) as [->|Hne].
  - exists g. rewrite lookup_insert_eq. eauto.
  - exists g0. by rewrite lookup_insert_ne.
Qed.
Lemma evolving_new_grant id g : evolving (insert_grant id g).
Proof.
  intros d u d'. unfold insert_grant. destruct (bool_decide _) eqn:E; [done|]. intros [-> _]%write_grant_val. apply evolves_grant. intros g0 Hg0.
  apply bool_decide_eq_false in E. destruct E. eauto.
Qed.
Hint Resolve evolving_new_grant : evolve.
Lemma evolving_updateGrant cx id where_ f side action : (forall g, where_ g = true -> gr_revoked g = None) -> evolving side -> evolving (updateGrant cx id where_ f side action).
Proof.
  intros Hf Hside d a d'. unfold updateGrant. intros (row & d1 & [-> ->]%query_val & Hx)%andThen_ok. destruct (db_grants d !! id) as [g|] eqn:Eg; [|done].
  destruct (where_ g) eqn:Ew; [|done]. apply andThen_ok in Hx as (u & d1 & [-> _]%write_grant_val & Hx). eapply evolves_trans.
  - apply evolves_grant. intros g0 Hg0. rewrite Eg in Hg0. injection Hg0 as <-. by rewrite (Hf g Ew).
  - eapply evolving_then; [exact Hside| |exact Hx]. intros ?. cbv beta. evolve.
Qed.
Lemma not_revoked_spec g : not_revoked g = true -> gr_revoked g = None.
Proof. apply bool_decide_eq_true. Qed.
Lemma evolving_revoke_side grantID actor now : evolving (revokeEnrollmentGrantSideEffects grantID actor now).
Proof.
  unfold revokeEnrollmentGrantSideEffects. evolve.
  - apply evolving_updated. intros d k r _. by apply evolved_quiet.
  - apply evolving_updated. intros d k r [_ Ho]%andb_true_iff. by eapply (evolved_ended RequestRejected); [left| | | | |].
Qed.
Lemma CreateGrant_evolves cx id input : evolving (CreateGrant cx id input).
Proof. unfold CreateGrant. evolve. Qed.
Lemma RotateGrantSecret_evolves cx id secret : evolving (RotateGrantSecret cx id secret).
Proof. apply evolving_updateGrant; [apply not_revoked_spec|apply evolving_forget]. Qed.
Lemma RevokeGrant_evolves cx id actor : evolving (RevokeGrant cx id actor).
Proof. apply evolving_updateGrant; [apply not_revoked_spec|apply evolving_revoke_side]. Qed.
Lemma UpdateGrant_evolves cx id input : evolving (UpdateGrant cx id input).
Proof.
  unfold UpdateGrant. evolve. apply evolving_updateGrant; [|evolve]. intros g [E _]%andb_true_iff. by apply not_revoked_spec.
Qed.

(** ** Challenges, requests and claims *)

Lemma CreateChallenge_evolves id input : evolving (CreateChallenge id input).
Proof. unfold CreateChallenge, pruneGrantChallenges. evolve. intros d u d' [_ ->]%insert_challenge_val. by apply evolves_same. Qed.
Lemma ConsumeChallenge_evolves p : evolving (ConsumeChallenge p).
Proof. unfold ConsumeChallenge. evolve. Qed.

Lemma takeSlot_evolves gid now : evolving (takeSlot gid now).
Proof. intros d u d' (g & Hg & Hr & _ & ->)%takeSlot_val. apply evolves_grant. intros g0 Hg0. rewrite Hg in Hg0. injection Hg0 as <-. done. Qed.
Hint Resolve takeSlot_evolves : evolve.
Lemma reserve_evolves rid gid nid actor i now : evolving (reserveEnrollmentNode rid gid nid actor i now).
Proof.
  unfold reserveEnrollmentNode, insertEnrollmentNode. evolve. apply evolving_updated. intros d k r [_ Hs%String.eqb_eq]%andb_true_iff. eapply evolved_once; [done|done|done|exact Hs|done|constructor].
Qed.
Lemma rotate_evolves id i : evolving (rotateEnrollmentToken id i).
Proof. unfold rotateEnrollmentToken. evolve. apply evolving_updated. intros d k r _. by apply evolved_quiet. Qed.
Lemma conflict_evolves id reason now : evolving (recordEnrollmentConflict id reason now).
Proof. unfold recordEnrollmentConflict. evolve. apply evolving_updated. intros d k r _. by apply evolved_quiet. Qed.
Hint Resolve reserve_evolves rotate_evolves conflict_evolves : evolve.
Lemma autoApprove_evolves gid g id nid now : evolving (autoApproveEnrollmentRequest gid g id nid now).
Proof. unfold autoApproveEnrollmentRequest. evolve. Qed.
(** A new request, under a grant that is there and not revoked. *)
Lemma insert_request_evolves id r d u d' : (forall g, db_grants d !! er_grant r = Some g -> gr_revoked g = None) -> insert_request id r d = Ok (u, d') -> evolves d d'.
Proof.
  intros Hg (H1 & _ & _ & ->)%insert_request_val. split; cbn; [|eauto|].
  - intros k q Hq. exists q. rewrite lookup_insert_ne by congruence. split; [done|apply evolved_refl].
  - intros k q g [[<- <-]|[Hne Hq]]%lookup_insert_Some Hn Hgr; [eauto|congruence].
Qed.
Lemma upsert_evolves id i d a d' : (forall g, db_grants d !! ri_GrantID i = Some g -> gr_revoked g = None) -> upsertEnrollmentRequest id i d = Ok (a, d') -> evolves d d'.
Proof.
  intros Hg. unfold upsertEnrollmentRequest. intros (existing & d1 & [-> ->]%query_val & Hx)%andThen_ok. destruct (openEnrollmentRequest _ _ d) as [[k r]|].
  - destruct (negb _); [done|]. apply andThen_ok in Hx as (u & d2 & Hrot & [_ ->]%ret_ok). by eapply rotate_evolves.
  - apply andThen_ok in Hx as (open & d1 & [-> ->]%query_val & Hx). destruct (_ <=? _); [done|]. apply andThen_ok in Hx as (u & d2 & Hin & [_ ->]%ret_ok).
    eapply insert_request_evolves; [|exact Hin]. done.
Qed.
Lemma Available_unrevoked g now : Available g now = true -> gr_revoked g = None.
Proof. unfold Available. rewrite !andb_true_iff. intros (((_ & E%bool_decide_eq_true) & _) & _). done. Qed.
Lemma CreateOrResumeRequest_evolves cx id nid i : evolving (CreateOrResumeRequest cx id nid i).
Proof.
  intros d a d'. unfold CreateOrResumeRequest. destruct (negb _); [done|]. intros (g & d1 & [Hg ->]%grant_for_update & Hx)%andThen_ok.
  destruct (Available g _) eqn:Ea; [|done]. cbn [negb] in Hx. apply andThen_ok in Hx as (up & d2 & Hup & Hx). eapply evolves_trans.
  - eapply upsert_evolves; [|exact Hup]. intros g0 Hg0. rewrite Hg in Hg0. injection Hg0 as <-. by eapply Available_unrevoked.
  - revert Hx. match goal with |- ?m d2 = _ -> _ => assert (evolving m) as Hm by (evolve; apply autoApprove_evolves) end. apply Hm.
Qed.

Lemma decide_evolves cx id action decide : (forall r g, evolving (decide r g)) -> evolving (decideEnrollmentRequest cx id action decide).
Proof. intros Hd. unfold decideEnrollmentRequest. evolve. Qed.
Lemma ApproveEnrollmentRequest_evolves cx nid i : evolving (ApproveEnrollmentRequest cx nid i).
Proof. apply decide_evolves. intros r g. cbv zeta. evolve. Qed.
Lemma RejectEnrollmentRequest_evolves cx i : evolving (RejectEnrollmentRequest cx i).
Proof.
  apply decide_evolves. intros r g. cbv zeta. unfold releaseEnrollmentReservation. evolve.
  - apply evolving_updated. intros d k q [_ Ho]%andb_true_iff. by eapply (evolved_ended RequestRejected); [left| | | | |].
  - apply evolving_updated. intros d k q _. by apply evolved_quiet.
  - apply evolving_updated. intros d k q _. by apply evolved_quiet.
Qed.
Lemma RotateEnrollmentTicket_evolves id ticket now : evolving (RotateEnrollmentTicket id ticket now).
Proof. unfold RotateEnrollmentTicket. evolve. apply evolving_updated. intros d k r _. by apply evolved_quiet. Qed.
Lemma ClaimEnrollmentRequest_evolves cx id ticket token : evolving (ClaimEnrollmentRequest cx id ticket token).
Proof.
  unfold ClaimEnrollmentRequest, applyEnrollmentClaim, activateEnrollmentNode, recoverEnrollmentNode, readEnrollmentNode, writeEnrollmentNodeToken, rememberEnrollmentIdentity. evolve.
  - apply evolving_updated. intros d k r [_ Hs%String.eqb_eq]%andb_true_iff. eapply evolved_once; [done|done|done|exact Hs|done|constructor].
  - apply evolving_updated. intros d k r _. apply evolved_quiet; try done. cbn. lia.
Qed.
Lemma CleanupEnrollmentState_evolves now : evolving (CleanupEnrollmentState now).
Proof.
  unfold CleanupEnrollmentState, pruneExpiredTicketsTx, expireOpenEnrollmentRequests, deleteOrphanEnrollmentNodes. evolve.
  - unfold pruneExpiredChallenges. intros d a d' [= _ <-]. by apply evolves_same.
  - apply evolving_updated. intros d k r _. by apply evolved_quiet.
  - apply evolving_updated. intros d k r _. by apply evolved_quiet.
  - apply evolving_updated. intros d k r [Ho _]%andb_true_iff. by eapply (evolved_ended RequestExpired); [right| | | | |].
Qed.

(** ** Any step *)

Lemma quiet_nodes {A} (m : T A) : (forall d a d', m d = Ok (a, d') -> db_requests d' = db_requests d /\ db_grants d' = db_grants d) -> evolving m.
Proof. intros Hm d a d' Hx. destruct (Hm _ _ _ Hx). by apply evolves_same. Qed.
Lemma UpdateNodeSort_evolves ids now : evolving (UpdateNodeSort ids now).
Proof.
  unfold UpdateNodeSort. evolve. match goal with |- evolving (each _ ?l) => generalize l end. intros l. induction l as [|x l IH]; cbn [each]; evolve.
Qed.

Lemma perform_evolves o w : evolves (w_db w) (w_db (perform o w)).
Proof.
  pose proof (challenges_keep evolves evolves_refl evolves_trans CreateChallenge_evolves w) as K1.
  pose proof (requests_keep evolves evolves_refl evolves_trans ConsumeChallenge_evolves CreateOrResumeRequest_evolves RotateEnrollmentTicket_evolves ClaimEnrollmentRequest_evolves w)
    as (K2 & K3 & K4).
  destruct o; cbn [perform]; try solve [apply K1 | apply K2 | apply K3 | apply K4]; apply (attempted_keeps evolves evolves_refl);
    try solve [apply CreateGrant_evolves | apply UpdateGrant_evolves | apply RotateGrantSecret_evolves | apply RevokeGrant_evolves | apply ApproveEnrollmentRequest_evolves
      | apply RejectEnrollmentRequest_evolves | apply CleanupEnrollmentState_evolves | apply UpdateNodeSort_evolves].
  all: match goal with |- forall d a d', ?m d = Ok (a, d') -> _ => change (evolving m) end.
  - unfold CreateManagedNode, defaultGroupIDFrom. evolve.
  - unfold HandleRotateAgentToken, GetNode, RotateAgentToken, mutateCredentialNode. evolve.
  - unfold RevokeAgentToken, mutateCredentialNode. evolve.
  - unfold authenticateAgent, TouchAgentToken. evolve.
  - unfold DeleteNode. evolve.
  - unfold updateLifecycle. evolve.
  - unfold UpsertNode, defaultGroupIDFrom. evolve.
  - unfold UpdateNode. evolve.
  - unfold CreateEnrollmentToken, reserveEnrollmentCapacity. evolve. apply quiet_nodes. intros d1 j d2. cbv beta zeta.
    by match goal with |- (if ?b then _ else _) = _ -> _ => destruct b; [|intros [= _ <-]] end.
  - unfold RevokeEnrollmentToken. evolve.
  - unfold ConsumeEnrollmentToken, readEnrollment, resumeEnrollment, activateEnrollment, findEnrollmentIdentity, createEnrollmentNode, defaultGroupIDFrom, rememberEnrollmentIdentity. evolve.
Qed.
Lemma run_evolves ops : forall w, evolves (w_db w) (w_db (run ops w)).
Proof. induction ops as [|o ops IH]; intros w; [apply evolves_refl|]. cbn. eapply evolves_trans; [apply perform_evolves|apply IH]. Qed.
End evolution.
