(* ===== verification/EnrollAnswers.v ===== *)
(** * Agent enrollment: what an answer of the protocol implies

    The four endpoints read backwards, from the answer to the checks that were passed and
    the transactions that were made; and how challenges are used up. *)

From S2P Require Import Prelude GoText GoNumber GoInstant GoSha256 GoTable EnrollSecret EnrollPolicy EnrollModel EnrollService EnrollNodes EnrollHandlers EnrollInvariant EnrollSteps EnrollRun EnrollTrace.

Section answers.
Context `{EnrollExternals}.

(** ** Parts of a handler *)

Lemma next_ok {A B} (m : H A) (k : A -> H B) w b w' : andNext m k w = (inr b, w') -> exists a w1, m w = (inr a, w1) /\ k a w1 = (inr b, w').
Proof. unfold andNext. destruct (m w) as [[answer|a] w1] eqn:E; [done|]. intros Hk. eauto. Qed.
Lemma reject_ok {A} r now w (a : A) w' : discoveryReject r now w = (inr a, w') -> False.
Proof. done. Qed.
Lemma orReject_ok {A} r now (o : option A) w a w' : orReject r now o w = (inr a, w') -> o = Some a /\ w' = w.
Proof. destruct o; [by intros [= <- <-]|done]. Qed.
Lemma unless_ok r now b w u w' : rejectUnless r now b w = (inr u, w') -> b = true /\ w' = w.
Proof. destruct b; [by intros [= _ <-]|done]. Qed.
Lemma parsed_ok {A} (body : result Z A) w a w' : parsed body w = (inr a, w') -> body = Ok a /\ w' = w.
Proof. destruct body; [by intros [= <- <-]|done]. Qed.
Lemma drawn_ok {A} (o : option A) w a w' : drawn o w = (inr a, w') -> o = Some a /\ w' = w.
Proof. destruct o; [by intros [= <- <-]|done]. Qed.
Lemma go_ok {A} (a b : A) w w' : go a w = (inr b, w') -> b = a /\ w' = w.
Proof. by intros [= <- <-]. Qed.
Lemma call_ok {A} (m : T A) w a w' : call m w = (inr a, w') -> m (w_db w) = Ok (a, w_db w').
Proof. unfold call, transact. destruct (m (w_db w)) as [[x d]|e]; [|done]. by intros [= <- <-]. Qed.
Lemma grant_by_secret plaintext now d row d' : GrantBySecret plaintext now d = Ok (row, d') ->
  db_grants d !! row.1 = Some row.2 /\ gr_hash row.2 = SecretDigest plaintext /\ Available row.2 now = true /\ d' = d.
Proof.
  unfold GrantBySecret. intros (o & d1 & [-> ->]%query_val & (x & d2 & [Hx ->]%require_val & Hr)%andThen_ok)%andThen_ok. destruct (_ || _) eqn:E; [done|].
  apply ret_ok in Hr as [-> ->]. destruct x as [id g]. apply head_rows_where in Hx as [Hg Hh%bool_decide_eq_true]. apply orb_false_iff in E as [E%negb_false_iff _]. done.
Qed.
Lemma grant_ok r now w row w' : authenticateGrant r now w = (inr row, w') -> exists plaintext, enrollmentBearerSecret (hr_authorization r) = Some plaintext /\
  db_grants (w_db w) !! row.1 = Some row.2 /\ gr_hash row.2 = SecretDigest plaintext /\ Available row.2 now = true /\ w_db w' = w_db w.
Proof.
  unfold authenticateGrant. intros (p & w1 & [Hp ->]%orReject_ok & (s & w2 & [_ ->]%orReject_ok & Hx)%next_ok)%next_ok. unfold transact in Hx.
  destruct (GrantBySecret p now (w_db w)) as [[g d']|e] eqn:E; [|by apply reject_ok in Hx]. injection Hx as <- <-. apply grant_by_secret in E as (H1 & H2 & H3 & ->). eauto 10.
Qed.
Lemma SecretMatches_digest hash text : SecretMatches hash text = true -> hash = SecretDigest text.
Proof. unfold SecretMatches. destruct (negb _); [done|]. apply bool_decide_eq_true. Qed.
Lemma token_ok r now w row w' : authenticateRequestToken r now w = (inr row, w') -> exists plaintext, enrollmentBearerSecret (hr_authorization r) = Some plaintext /\
  is_Some (DescribeSecret RequestTokenPrefix (TrimSpace plaintext)) /\ row.1 = TrimSpace (hr_path_id r) /\ db_requests (w_db w) !! row.1 = Some row.2 /\
  er_token row.2 = SecretDigest plaintext /\ w' = w.
Proof.
  unfold authenticateRequestToken. intros (p & w1 & [Hp ->]%orReject_ok & (s & w2 & [Hs ->]%orReject_ok & Hx)%next_ok)%next_ok. cbv zeta beta in Hx.
  destruct (db_requests (w_db w) !! _) as [q|] eqn:E; [|by apply reject_ok in Hx]. destruct (SecretMatches _ _) eqn:Em; [|by apply reject_ok in Hx].
  injection Hx as <- <-. apply SecretMatches_digest in Em. exists p. by split_and!.
Qed.

(** A body that stops does so by refusing. *)
Definition refuses {A} (m : H A) : Prop := forall w answer w', m w = (inl answer, w') -> exists status, answer = Refused status.
Lemma refuses_then {A B} (m : H A) (k : A -> H B) : refuses m -> (forall a, refuses (k a)) -> refuses (andNext m k).
Proof. intros Hm Hk w answer w'. unfold andNext. destruct (m w) as [[x|a] w1] eqn:E; [intros [= <- _]; by eapply Hm|apply Hk]. Qed.
Lemma refuses_go {A} (a : A) : refuses (go a).
Proof. done. Qed.
Lemma refuses_orReject {A} r now (o : option A) : refuses (orReject r now o).
Proof. intros w answer w'. destruct o; [done|]. intros [= <- _]. eauto. Qed.
Lemma refuses_unless r now b : refuses (rejectUnless r now b).
Proof. intros w answer w'. destruct b; [done|]. intros [= <- _]. eauto. Qed.
Lemma refuses_parsed {A} (body : result Z A) : refuses (parsed body).
Proof. intros w answer w'. destruct body; [done|]. intros [= <- _]. eauto. Qed.
Lemma refuses_drawn {A} (o : option A) : refuses (drawn o).
Proof. intros w answer w'. destruct o; [done|]. intros [= <- _]. eauto. Qed.
Lemma refuses_call {A} (m : T A) : refuses (call m).
Proof. intros w answer w'. unfold call. destruct (transact m w) as [[a|e] w1]; [done|]. intros [= <- _]. destruct e; cbn; eauto. Qed.
Lemma refuses_grant r now : refuses (authenticateGrant r now).
Proof.
  apply refuses_then; [apply refuses_orReject|]. intros p. apply refuses_then; [apply refuses_orReject|]. intros _ w answer w'. destruct (transact _ w) as [[g|e] w1]; [done|].
  intros [= <- _]. eauto.
Qed.
Lemma refuses_token r now : refuses (authenticateRequestToken r now).
Proof.
  apply refuses_then; [apply refuses_orReject|]. intros p. apply refuses_then; [apply refuses_orReject|]. intros _ w answer w'. cbv zeta beta.
  destruct (db_requests _ !! _) as [q|]; [destruct (SecretMatches _ _)|]; [done|..]; intros [= <- _]; eauto.
Qed.

(** The answer of an endpoint, and the tables after it. *)
Lemma served_val c r e now body w answer w' : refuses body -> served c r e now body w = (answer, w') ->
  (exists status, answer = Refused status) \/ exists w1 w2, w_db w1 = w_db w /\ body w1 = (inr answer, w2) /\ w_db w' = w_db w2.
Proof.
  intros Hb. unfold served. destruct (_ && _); [intros [= <- _]; eauto|]. destruct (discoveryClientAddress r) as [a|]; [|intros [= <- _]; eauto].
  destruct (acquire _ _ _ _) as [[] b]; [|intros [= <- _]; eauto]. destruct (body (set_budget e b w)) as [[x|x] w2] eqn:E; intros [= <- <-].
  - left. by eapply Hb.
  - right. exists (set_budget e b w), w2. done.
Qed.
(** A body that changes the tables only as it answers. *)
Definition harmless {A} (m : H A) : Prop := forall w answer w', m w = (inl answer, w') -> w_db w' = w_db w.
Lemma harmless_then {A B} (m : H A) (k : A -> H B) : hkeeps eq m -> (forall a, harmless (k a)) -> harmless (andNext m k).
Proof.
  intros Hm Hk w answer w'. unfold andNext. specialize (Hm w). destruct (m w) as [[x|a] w1]; cbn in Hm; [by intros [= _ <-]|]. intros E. rewrite (Hk a w1 answer w' E). done.
Qed.
Lemma harmless_last {A B} (m : T A) (f : A -> B) : harmless (andNext (call m) (fun a => go (f a))).
Proof. intros w answer w'. unfold andNext, call, transact. destruct (m (w_db w)) as [[a d]|e]; [done|]. by intros [= _ <-]. Qed.
Ltac refuse := repeat (apply refuses_then; [first [apply refuses_grant|apply refuses_token|apply refuses_parsed|apply refuses_orReject|apply refuses_unless|apply refuses_drawn|apply refuses_call|idtac]|intros ?]); try apply refuses_go.

(** ** The endpoints *)

Lemma HandleChallenge_val c r body id challenge now w a ch origin issued expires w' : HandleChallenge c r body id challenge now w = (ChallengeIssued a ch origin issued expires, w') ->
  exists gid g i c0, a = id /\ db_grants (w_db w) !! gid = Some g /\ Available g now = true /\ ci_GrantID i = gid /\ CreateChallenge id i (w_db w) = Ok ((id, c0), w_db w').
Proof.
  intros [[s [=]]|(w1 & w2 & E1 & Hb & E2)]%served_val; [|refuse].
  apply next_ok in Hb as ([gid g] & w3 & (p & _ & Hg & _ & Ha & E3)%grant_ok & Hb). cbn in Hg, Ha. apply next_ok in Hb as (b & w4 & [_ ->]%parsed_ok & Hb).
  apply next_ok in Hb as (key & w4 & [_ ->]%orReject_ok & (digest & w4 & [_ ->]%orReject_ok & (address & w4 & [_ ->]%orReject_ok & Hb)%next_ok)%next_ok).
  apply next_ok in Hb as (u & w4 & [_ ->]%unless_ok & (ch0 & w4 & [_ ->]%drawn_ok & Hb)%next_ok). cbv zeta in Hb.
  apply next_ok in Hb as ([k c0] & w4 & Hc%call_ok & [[= -> _ _ _ _] ->]%go_ok). assert (k = id) as ->.
  { unfold CreateChallenge in Hc. apply andThen_ok in Hc as (? & d1 & _ & (n & d2 & _ & Hc)%andThen_ok). destruct (_ <=? _); [done|]. by apply andThen_ok in Hc as (? & d3 & _ & [[= -> _] _]%ret_ok). }
  rewrite E3, E1 in Hc. rewrite E1 in Hg. rewrite E2. eexists gid, g, _, c0. split_and!; try done. done.
Qed.

Lemma HandleChallenge_cases c r body id challenge now w answer w' : HandleChallenge c r body id challenge now w = (answer, w') ->
  w_db w' = w_db w \/ exists a ch origin issued expires, answer = ChallengeIssued a ch origin issued expires.
Proof.
  unfold HandleChallenge, served. destruct (_ && _); [intros [= _ <-]; by left|]. destruct (discoveryClientAddress r) as [a|]; [|intros [= _ <-]; by left].
  destruct (acquire _ _ _ _) as [[] b]; [|intros [= _ <-]; by left]. match goal with |- context [match ?m ?w1 with _ => _ end] => destruct (m w1) as [[x|x] w2] eqn:E end; intros [= <- <-].
  - left. change (w_db w) with (w_db (set_budget EChallenge b w)). revert E. match goal with |- ?m _ = _ -> _ => assert (harmless m) as Hm end.
    2:{ intros E. apply Hm in E. exact E. }
    repeat (apply harmless_then; [first [apply hkeeps_grant; congruence|by apply hkeeps_parsed|by apply hkeeps_orReject|by apply hkeeps_unless|by apply hkeeps_drawn]|intros ?]; cbv zeta). apply harmless_last.
  - right. repeat (apply next_ok in E as (? & ? & _ & E)). apply go_ok in E as [-> _]. eauto 10.
Qed.

Lemma decode_id b input : decodeRequestCreate b = Some input -> dc_challengeID input = TrimSpace (rb_challenge_id b).
Proof. unfold decodeRequestCreate. intros E. repeat match type of E with context [match ?x with _ => _ end] => destruct x; try done end. by injection E as <-. Qed.
Lemma HandleCreate_val c r body id nid token now w a t status grant w' : HandleCreateRequest c r body id nid token now w = (RequestCreated a t status grant, w') ->
  exists plaintext b input gid g ch address secret q resumed d1,
    let p := mkChallengeProof (TrimSpace (rb_challenge_id b)) (dc_challenge input) (dc_fingerprint input) (dc_digest input) (AddrString address) now in
    let i := mkRequestInput gid (dc_fingerprint input) (dc_publicKey input) secret (dc_metadata input) (AddrString address) now in
    enrollmentBearerSecret (hr_authorization r) = Some plaintext /\ body = Ok b /\ decodeRequestCreate b = Some input /\ discoveryClientAddress r = Some address /\
    db_grants (w_db w) !! gid = Some g /\ gr_hash g = SecretDigest plaintext /\ Available g now = true /\ grantAllowsSource g address = true /\
    grantAllowsHostname g (Hostname (dc_metadata input)) = true /\ ConsumeChallenge p (w_db w) = Ok (ch, d1) /\ ch_grant ch = gid /\
    verifyRequestSignature r (TrimSpace (rb_challenge_id b)) ch input = true /\ token = Some secret /\ t = Plaintext secret /\ status = er_status q /\
    CreateOrResumeRequest (mkContext now no_actor) id nid i d1 = Ok ((a, q, resumed), w_db w').
Proof.
  intros [[s [=]]|(w1 & w2 & E1 & Hb & E2)]%served_val; [|refuse].
  apply next_ok in Hb as ([gid g] & w3 & (p & Hp & Hg & Hh & Ha & E3)%grant_ok & Hb). cbn in Hg, Ha, Hh. apply next_ok in Hb as (b & w4 & [Eb ->]%parsed_ok & Hb).
  apply next_ok in Hb as (input & w4 & [Ei ->]%orReject_ok & (address & w4 & [Ead ->]%orReject_ok & (u & w4 & [Hal ->]%unless_ok & Hb)%next_ok)%next_ok).
  apply next_ok in Hb as (ch & w4 & Hc%call_ok & (u' & w5 & [Hv ->]%unless_ok & (tok & w5 & [Et ->]%drawn_ok & Hb)%next_ok)%next_ok).
  apply next_ok in Hb as ([[k q] resumed] & w5 & Hr%call_ok & [[= -> -> -> _] ->]%go_ok). apply andb_true_iff in Hv as [Hgr%String.eqb_eq Hv], Hal as [Hs Hn]. cbn in Hgr, Hs, Hn, Hr.
  rewrite (decode_id _ _ Ei) in Hc, Hv. rewrite E3, E1 in Hc. rewrite E1 in Hg. rewrite E2. exists p, b, input, gid, g, ch, address, tok, q, resumed, (w_db w4). cbn zeta. by split_and!.
Qed.

Lemma HandleClaim_val c r body token now w nid name group url host port text recovered w' :
  HandleClaim c r body token now w = (NodeIssued nid name group url host port text recovered, w') ->
  exists plaintext b q ticket key result, let id := TrimSpace (hr_path_id r) in
    enrollmentBearerSecret (hr_authorization r) = Some plaintext /\ is_Some (DescribeSecret RequestTokenPrefix (TrimSpace plaintext)) /\
    db_requests (w_db w) !! id = Some q /\ er_token q = SecretDigest plaintext /\ body = Ok b /\ decodeClaimTicket r id q b now = Some ticket /\ token = Some key /\
    ClaimEnrollmentRequest (mkContext now (hr_audit r)) id (Plaintext ticket) key (w_db w) = Ok (result, w_db w') /\
    nid = cr_NodeID result /\ name = cr_NodeName result /\ group = cr_GroupID result /\ url = canonicalOrigin r /\ host = cr_Host result /\ port = cr_Port result /\
    text = Token_Plaintext key /\ recovered = cr_Recovered result.
Proof.
  intros [[s [=]]|(w1 & w2 & E1 & Hb & E2)]%served_val; [|refuse].
  apply next_ok in Hb as ([id q] & w3 & (p & Hp & Hd & Hid & Hq & Ht & ->)%token_ok & Hb). cbn in Hid, Hq, Ht. subst id.
  apply next_ok in Hb as (b & w4 & [Eb ->]%parsed_ok & (ticket & w4 & [Etk ->]%orReject_ok & (key & w4 & [Ek ->]%drawn_ok & Hb)%next_ok)%next_ok).
  apply next_ok in Hb as (result & w4 & Hc%call_ok & [[= -> -> -> -> -> -> -> ->] ->]%go_ok). rewrite E1 in Hq, Hc. rewrite E2. exists p, b, q, ticket, key, result. cbn zeta. split_and!; done.
Qed.

(** What the body of a claim proves, and what the claim does to the request and its node. *)
Lemma decodeClaim_val r id q b now ticket : decodeClaimTicket r id q b now = Some ticket -> exists timestamp nonce signature, withinDiscoverySkew timestamp now = true /\
  VerifySignature (er_key q) (ClaimCanonical (mkClaimBinding id (default "" (er_node q)) (Plaintext ticket) (canonicalOrigin r) timestamp nonce)) signature = true.
Proof.
  unfold decodeClaimTicket. destruct (decodeDiscoverySecret _ _) as [tk|]; [|done]. destruct (parseDiscoveryInstant _) as [timestamp|]; [|done].
  destruct (decodeDiscoveryNonce _) as [nonce|]; [|done]. destruct (decodeDiscoverySignature _) as [signature|]; [|done]. destruct (_ && _) eqn:Ev; [|done].
  intros [= ->]. apply andb_true_iff in Ev. eauto.
Qed.
Lemma ticket_val q ticket now : requireEnrollmentTicket q ticket now = true -> er_ticket q = Some (SecretDigest ticket) /\ exists t, er_ticket_expires q = Some t /\ now < t.
Proof.
  unfold requireEnrollmentTicket. destruct (er_ticket q) as [th|]; [|done]. destruct (er_ticket_expires q) as [te|]; [|done]. intros [->%SecretMatches_digest Ht%Z.ltb_lt]%andb_true_iff. eauto.
Qed.
Definition first_claim (q : Request) (n : Node) (recovered : bool) : Prop := er_status q = RequestApproved /\ nd_state n = CredentialPendingClaim /\ recovered = false.
Definition recovery_claim (g : Grant) (q : Request) (n : Node) (now : Time) (recovered : bool) : Prop :=
  er_status q = RequestClaimed /\ nd_state n = CredentialActive /\ recovered = true /\ ClaimRecovery (gr_policy g) = true /\ er_attempts q < MaxClaimRecoveryAttempts /\
  exists t, er_claimed q = Some t /\ now < Add t ClaimRecoveryWindow.
Lemma claim_outcome id q g key now d result d' : wf d -> db_requests d !! id = Some q -> applyEnrollmentClaim id q g key now d = Ok (result, d') -> exists n q',
  er_node q = Some (cr_NodeID result) /\ db_nodes d !! cr_NodeID result = Some n /\ nd_lifecycle n = "active" /\
  (forall j m, db_nodes d !! j = Some m -> j <> cr_NodeID result -> nd_hash m <> Some (Token_Hash key)) /\
  (first_claim q n (cr_Recovered result) \/ recovery_claim g q n now (cr_Recovered result)) /\
  db_nodes d' = <[cr_NodeID result := set_token (Some (Token_Hash key)) (Token_Prefix key) (Some now) None None CredentialActive now n]> (db_nodes d) /\
  db_requests d' = <[id := q']> (db_requests d) /\ er_status q' = RequestClaimed /\ er_ticket q' = None /\ er_key q' = er_key q.
Proof.
  intros [A _ _ _ _ _ _] Hq. destruct (A _ _ Hq) as (Hrow & _ & _). unfold applyEnrollmentClaim. destruct (er_status q =s RequestApproved) eqn:Ea; [|destruct (er_status q =s RequestClaimed) eqn:Ec; [|done]].
  - apply String.eqb_eq in Ea. intros (nid & n & Hnid & Hn & Hst & Hl & Hu & -> & _ & _ & Hno & Hre)%activate_val. cbn [cr_NodeID cr_Recovered].
    rewrite (update_one id (fun r => er_status r =s RequestApproved) _ _ q Hq) in Hre by (by rewrite Ea). exists n. eexists. rewrite Hno, Hre. split_and!; try done; [by left|by apply alter_inserted].
  - apply String.eqb_eq in Ec. intros (nid & n & deadline & Hnid & Hdl & Hlt & Hat & Hrec & Hn & Hst & Hl & Hu & -> & _ & _ & Hno & Hre)%recover_val. cbn [cr_NodeID cr_Recovered].
    destruct (row_claimed _ Hrow Ec) as (_ & _ & t & Hcl & Hdl'). rewrite Hdl in Hdl'. injection Hdl' as ->.
    rewrite (update_one id (fun r => er_status r =s RequestClaimed) _ _ q Hq) in Hre by (by rewrite Ec). exists n. eexists. rewrite Hno, Hre.
    split_and!; try done; [right; split_and!; eauto|by apply alter_inserted].
Qed.
End answers.
