(* ===== verification/EnrollCount.v ===== *)
(** * Agent enrollment: counting answers

    How often a challenge can be used and how often a request can be claimed, over all the
    answers of a run. *)

From S2P Require Import Prelude GoText GoNumber GoInstant GoSha256 GoTable EnrollSecret EnrollPolicy EnrollModel EnrollService EnrollNodes EnrollHandlers EnrollInvariant EnrollSteps EnrollRun EnrollTrace EnrollAnswers.

(** ** Challenges that were not used *)

Definition unused (d : DB) (id : string) : Z := match db_challenges d !! id with Some c => if bool_decide (ch_consumed c = None) then 1 else 0 | None => 0 end.
Lemma unused_range d id : 0 <= unused d id <= 1.
Proof. unfold unused. destruct (db_challenges d !! id) as [c|]; [destruct (bool_decide _)|]; lia. Qed.
Definition spent (d d' : DB) : Prop := forall id, unused d' id <= unused d id.
Lemma spent_refl d : spent d d.
Proof. intros id. lia. Qed.
Lemma spent_trans a b c : spent a b -> spent b c -> spent a c.
Proof. intros H1 H2 id. specialize (H1 id). specialize (H2 id). lia. Qed.
Lemma spent_same d d' : db_challenges d' = db_challenges d -> spent d d'.
Proof. intros E id. unfold unused. rewrite E. lia. Qed.
Lemma spent_deleted c d : spent d (set_challenges (delete_where c (db_challenges d)) d).
Proof.
  intros id. pose proof (unused_range d id). unfold unused at 1. cbn. destruct (delete_where c (db_challenges d) !! id) as [x|] eqn:E; [|lia].
  apply lookup_delete_where in E as [E _]. unfold unused. rewrite E. lia.
Qed.

Definition spends {A} (m : T A) : Prop := forall d a d', m d = Ok (a, d') -> spent d d'.
Lemma spends_then {A B} (m : T A) (k : A -> T B) : spends m -> (forall a, spends (k a)) -> spends (andThen m k).
Proof. intros Hm Hk d b d' (a & d1 & H1 & H2)%andThen_ok. eapply spent_trans; [by eapply Hm|by eapply Hk]. Qed.
Lemma spends_reads {A} (m : T A) : reads m -> spends m.
Proof. intros Hm d a d' Hx. apply Hm in Hx as ->. apply spent_refl. Qed.
Lemma spends_exec f : (forall d, spent d (f d)) -> spends (exec f : T unit).
Proof. intros Hf d a d' ->%exec_val. apply Hf. Qed.
Lemma spends_updated c f : spends (update_requests c f).
Proof. intros d n d' [_ ->]%update_requests_val. by apply spent_same. Qed.
Lemma spends_node id n : spends (insert_node id n).
Proof. intros d u d' (_ & _ & _ & _ & ->)%insert_node_val. by apply spent_same. Qed.
Lemma spends_token id hash f : spends (update_token id hash f).
Proof. intros d u d' [-> _]%update_token_val. by apply spent_same. Qed.
Lemma spends_grant id g : spends (write_grant id g).
Proof. intros d u d' [-> _]%write_grant_val. by apply spent_same. Qed.
Lemma spends_new_grant id g : spends (insert_grant id g).
Proof. intros d u d'. unfold insert_grant. destruct (bool_decide _); [done|]. apply spends_grant. Qed.
Lemma spends_request id r : spends (insert_request id r).
Proof. intros d u d' (_ & _ & _ & ->)%insert_request_val. by apply spent_same. Qed.
Lemma spends_each {A} (f : A -> T unit) l : (forall x, spends (f x)) -> spends (each f l).
Proof. intros Hf. induction l as [|x l IH]; cbn [each]; [apply spends_reads, reads_ret|]. apply spends_then; [apply Hf|]. intros _. exact IH. Qed.

Ltac spend :=
  repeat match goal with
  | |- spends (andThen _ _) => apply spends_then; [|intros ?]
  | |- spends (match ?x with _ => _ end) => destruct x
  | |- spends (ret _) => apply spends_reads, reads_ret
  | |- spends (fail _) => apply spends_reads, reads_fail
  | |- spends (query _) => apply spends_reads, reads_query
  | |- spends (require _ _) => apply spends_reads, reads_require
  | |- spends (lift _) => apply spends_reads, reads_lift
  | |- spends (update_requests _ _) => apply spends_updated
  | |- spends (insert_node _ _) => apply spends_node
  | |- spends (update_token _ _ _) => apply spends_token
  | |- spends (write_grant _ _) => apply spends_grant
  | |- spends (insert_grant _ _) => apply spends_new_grant
  | |- spends (insert_request _ _) => apply spends_request
  | |- spends (each _ _) => apply spends_each; intros ?
  | |- spends (exec _) => apply spends_exec; intros ?; first [by apply spent_same | apply spent_deleted]
  end.

Section counting.
Context `{EnrollExternals}.

Lemma spends_audit action type resource a now : spends (writeEnrollmentAudit action type resource a now).
Proof. unfold writeEnrollmentAudit. spend. Qed.
Lemma CreateOrResumeRequest_spends cx id nid i : spends (CreateOrResumeRequest cx id nid i).
Proof.
  unfold CreateOrResumeRequest, enrollmentGrantForUpdate, upsertEnrollmentRequest, rotateEnrollmentToken, insertEnrollmentRequest, autoApproveEnrollmentRequest, recordEnrollmentConflict,
    reserveEnrollmentNode, takeSlot, insertEnrollmentNode, loadEnrollmentRequestTx, writeEnrollmentAudit. spend.
Qed.
Lemma decide_spends cx id action decide : (forall r g, spends (decide r g)) -> spends (decideEnrollmentRequest cx id action decide).
Proof. intros Hd. unfold decideEnrollmentRequest, loadEnrollmentRequestTx, enrollmentGrantForUpdate, writeEnrollmentAudit. spend. apply Hd. Qed.
Lemma ApproveEnrollmentRequest_spends cx nid i : spends (ApproveEnrollmentRequest cx nid i).
Proof. apply decide_spends. intros r g. cbv zeta. unfold reserveEnrollmentNode, takeSlot, insertEnrollmentNode. spend. Qed.
Lemma RejectEnrollmentRequest_spends cx i : spends (RejectEnrollmentRequest cx i).
Proof. apply decide_spends. intros r g. cbv zeta. unfold releaseEnrollmentReservation, delete_nodes. spend. Qed.
Lemma RotateEnrollmentTicket_spends id ticket now : spends (RotateEnrollmentTicket id ticket now).
Proof. unfold RotateEnrollmentTicket, loadEnrollmentRequestTx. spend. Qed.
Lemma ClaimEnrollmentRequest_spends cx id ticket token : spends (ClaimEnrollmentRequest cx id ticket token).
Proof.
  unfold ClaimEnrollmentRequest, loadEnrollmentRequestTx, enrollmentGrantForUpdate, applyEnrollmentClaim, activateEnrollmentNode, recoverEnrollmentNode, readEnrollmentNode,
    writeEnrollmentNodeToken, rememberEnrollmentIdentity, writeEnrollmentAudit. spend.
Qed.
Lemma CleanupEnrollmentState_spends now : spends (CleanupEnrollmentState now).
Proof.
  unfold CleanupEnrollmentState, pruneExpiredTicketsTx, expireOpenEnrollmentRequests, deleteOrphanEnrollmentNodes, delete_nodes, writeEnrollmentAudit. spend.
  unfold pruneExpiredChallenges. intros d a d' [= _ <-]. apply spent_deleted.
Qed.
Lemma grants_spend cx id : (forall input, spends (CreateGrant cx id input)) /\ (forall input, spends (UpdateGrant cx id input)) /\
  (forall secret, spends (RotateGrantSecret cx id secret)) /\ (forall actor, spends (RevokeGrant cx id actor)).
Proof.
  split_and!; intros ?; unfold CreateGrant, UpdateGrant, RotateGrantSecret, RevokeGrant, updateGrant, validated, grant_row, deleteGrantChallenges, revokeEnrollmentGrantSideEffects,
    deleteGrantChallenges, delete_nodes, writeEnrollmentAudit; spend.
Qed.

(** What a challenge was when it was consumed, and what is left of it. *)
Lemma consume_val p d c d' : ConsumeChallenge p d = Ok (c, d') -> db_challenges d !! cp_ID p = Some c /\ ch_consumed c = None /\ bindingsMatch c p = true /\
  d' = set_challenges (<[cp_ID p := consumed_at (cp_Now p) c]> (db_challenges d)) d.
Proof.
  unfold ConsumeChallenge. intros (row & d1 & [-> ->]%query_val & (c0 & d2 & [Hc ->]%require_val & Hx)%andThen_ok)%andThen_ok. destruct (bindingsMatch c0 p) eqn:Eb; [|done].
  cbn [negb] in Hx. destruct (bool_decide _) eqn:E; [done|]. apply andThen_ok in Hx as (? & d3 & ->%exec_val & [-> ->]%ret_ok). apply bool_decide_eq_false, dec_stable in E. done.
Qed.
Lemma consume_spent p d c d' : ConsumeChallenge p d = Ok (c, d') -> spent d d' /\ unused d (cp_ID p) = 1 /\ unused d' (cp_ID p) = 0.
Proof.
  intros (Hc & Hn & _ & ->)%consume_val. unfold unused. cbn. rewrite Hc, Hn, lookup_insert_eq. split; [|done]. intros id. unfold unused. cbn.
  destruct (decide (id = cp_ID p)) as [->|Hne]; [rewrite lookup_insert_eq; cbn; destruct (db_challenges d !! _) as [x|]; [destruct (bool_decide _)|]; lia|]. rewrite lookup_insert_ne by done. lia.
Qed.
Lemma ConsumeChallenge_spends p : spends (ConsumeChallenge p).
Proof. intros d c d' Hx. by apply consume_spent in Hx as [? _]. Qed.
(** A new challenge has an identifier of its own. *)
Lemma create_unused id i d a d' : CreateChallenge id i d = Ok (a, d') -> forall k, unused d' k <= unused d k + (if k =s id then 1 else 0).
Proof.
  unfold CreateChallenge. intros (? & d1 & Hp & (n & d2 & [_ ->]%query_val & Hx)%andThen_ok)%andThen_ok. destruct (_ <=? _); [done|]. cbv zeta in Hx.
  apply andThen_ok in Hx as (? & d3 & [_ ->]%insert_challenge_val & [_ ->]%ret_ok). assert (spent d d1) as Hs.
  { revert Hp. unfold pruneGrantChallenges. intros ->%exec_val. apply spent_deleted. }
  intros k. specialize (Hs k). unfold unused at 1. cbn. destruct (decide (k = id)) as [->|Hne].
  - rewrite lookup_insert_eq, String.eqb_refl. pose proof (unused_range d id). cbn. lia.
  - rewrite lookup_insert_ne by done. rewrite (proj2 (String.eqb_neq k id) Hne). unfold unused at 1 in Hs. lia.
Qed.

(** ** Answers *)

(** Whether a step issues the challenge, or creates a request from it. *)
Definition issues_challenge (id : string) (o : op) (w : World) : Z :=
  match o with
  | OpChallenge c r body k ch now => match (HandleChallenge c r body k ch now w).1 with ChallengeIssued k _ _ _ _ => if k =s id then 1 else 0 | _ => 0 end
  | _ => 0
  end.
Definition uses_challenge (id : string) (o : op) (w : World) : Z :=
  match o with
  | OpRequest c r (Ok b) k nid token now => if TrimSpace (rb_challenge_id b) =s id
      then match (HandleCreateRequest c r (Ok b) k nid token now w).1 with RequestCreated _ _ _ _ => 1 | _ => 0 end else 0
  | _ => 0
  end.
(** Whether a step hands out a token for the node of a request. *)
Definition issues_token (id : string) (o : op) (w : World) : Z :=
  match o with
  | OpClaim c r body token now => if TrimSpace (hr_path_id r) =s id then match (HandleClaim c r body token now w).1 with NodeIssued _ _ _ _ _ _ _ _ => 1 | _ => 0 end else 0
  | _ => 0
  end.
(** The sum over the steps of a run. *)
Fixpoint total (f : op -> World -> Z) (ops : list op) (w : World) : Z := match ops with [] => 0 | o :: rest => f o w + total f rest (perform o w) end.

Lemma total_bound f g (measure : World -> Z) (P : World -> Prop) : (forall o w, P w -> P (perform o w)) ->
  (forall o w, P w -> f o w + measure (perform o w) <= measure w + g o w) -> forall ops w, P w -> total f ops w + measure (run ops w) <= measure w + total g ops w.
Proof.
  intros HP Hs ops. induction ops as [|o ops IH]; intros w Hw; cbn [total run]; [lia|]. specialize (Hs o w Hw). specialize (IH (perform o w) (HP o w Hw)). lia.
Qed.

(** ** Challenges over a run *)

(** A step that issues no challenge uses them up. *)
Definition challenging (o : op) : bool := match o with OpChallenge _ _ _ _ _ _ => true | _ => false end.
Lemma perform_spent o w : challenging o = false -> spent (w_db w) (w_db (perform o w)).
Proof.
  pose proof (requests_keep spent spent_refl spent_trans ConsumeChallenge_spends CreateOrResumeRequest_spends RotateEnrollmentTicket_spends ClaimEnrollmentRequest_spends w) as (K2 & K3 & K4).
  intros Ho. destruct o; [done|..]; cbn [perform]; try solve [apply K2 | apply K3 | apply K4]; apply (attempted_keeps spent spent_refl);
    match goal with |- forall d a d', ?m d = Ok (a, d') -> _ => change (spends m) end;
    try solve [apply grants_spend | apply ApproveEnrollmentRequest_spends | apply RejectEnrollmentRequest_spends | apply CleanupEnrollmentState_spends].
  - unfold CreateManagedNode, defaultGroupIDFrom. spend.
  - unfold HandleRotateAgentToken, GetNode, RotateAgentToken, mutateCredentialNode. spend.
  - unfold RevokeAgentToken, mutateCredentialNode. spend.
  - unfold authenticateAgent, TouchAgentToken. spend.
  - unfold DeleteNode, delete_nodes. spend.
  - unfold updateLifecycle. spend.
  - unfold UpsertNode, defaultGroupIDFrom. spend.
  - unfold UpdateNode. spend.
  - unfold UpdateNodeSort. spend.
  - unfold CreateEnrollmentToken, reserveEnrollmentCapacity. spend. intros d1 j d2. cbv beta zeta.
    by match goal with |- (if ?b then _ else _) = _ -> _ => destruct b; [|intros [= _ <-]; apply spent_same] end.
  - unfold RevokeEnrollmentToken. spend.
  - unfold ConsumeEnrollmentToken, readEnrollment, resumeEnrollment, activateEnrollment, findEnrollmentIdentity, createEnrollmentNode, defaultGroupIDFrom, rememberEnrollmentIdentity. spend.
Qed.
Lemma challenge_step id o w : uses_challenge id o w + unused (w_db (perform o w)) id <= unused (w_db w) id + issues_challenge id o w.
Proof.
  destruct (challenging o) eqn:Eo.
  { destruct o as [c r body k ch now | | | | | | | | | | | | | | | | | | | | | |]; try done. cbn [uses_challenge issues_challenge perform]. destruct (HandleChallenge c r body k ch now w) as [answer w'] eqn:E. cbn [fst snd].
    pose proof E as [->|(a & ch' & origin & issued & expires & ->)]%HandleChallenge_cases; [destruct answer; try lia; destruct (_ =s _); lia|].
    apply HandleChallenge_val in E as (gid & g & i & c0 & -> & _ & _ & _ & Hc). pose proof (create_unused _ _ _ _ _ Hc id) as Hu. rewrite String.eqb_sym in Hu. lia. }
  pose proof (perform_spent o w Eo id) as Hs. destruct o as [|c r [b|e] k nid token now | | | | | | | | | | | | | | | | | | | | |]; try done; cbn [uses_challenge issues_challenge] in *; try lia.
  destruct (TrimSpace (rb_challenge_id b) =s id) eqn:Eid; [|lia]. apply String.eqb_eq in Eid. cbn [perform] in *.
  destruct (HandleCreateRequest c r (Ok b) k nid token now w) as [answer w'] eqn:E. cbn [fst snd] in *. destruct answer; try lia.
  apply HandleCreate_val in E as (pt & b0 & input & gid & g & ch & address & secret & q & resumed & d1 & _ & [= <-] & _ & _ & _ & _ & _ & _ & _ & Hc & _ & _ & _ & _ & _ & Hr).
  apply consume_spent in Hc as (_ & Hu1 & Hu0). cbn [cp_ID] in Hu1, Hu0. rewrite Eid in Hu1, Hu0. apply CreateOrResumeRequest_spends in Hr. specialize (Hr id). lia.
Qed.

(** ** Claims over a run *)

(** How often a request can still be claimed. *)
Definition claims_left (d : DB) (id : string) : Z :=
  match db_requests d !! id with
  | None => 1 + MaxClaimRecoveryAttempts
  | Some r => if CanReject (er_status r) then 1 + MaxClaimRecoveryAttempts else if er_status r =s RequestClaimed then MaxClaimRecoveryAttempts - er_attempts r else 0
  end.
Lemma claims_left_nonneg d id : wf d -> 0 <= claims_left d id.
Proof.
  intros [A _ _ _ _ _ _]. unfold claims_left, MaxClaimRecoveryAttempts. destruct (db_requests d !! id) as [r|] eqn:E; [|lia]. destruct (CanReject _); [lia|].
  destruct (er_status r =s RequestClaimed) eqn:Es; [|lia]. apply String.eqb_eq in Es. destruct (A _ _ E) as (Ho & _). destruct (row_claimed _ Ho Es) as (_ & Hl & _). unfold MaxClaimRecoveryAttempts in Hl. lia.
Qed.
Lemma claims_left_max d id : wf d -> claims_left d id <= 1 + MaxClaimRecoveryAttempts.
Proof.
  intros [A _ _ _ _ _ _]. unfold claims_left, MaxClaimRecoveryAttempts. destruct (db_requests d !! id) as [r|] eqn:E; [|lia]. destruct (CanReject _); [lia|].
  destruct (er_status r =s RequestClaimed) eqn:Es; [|lia]. apply String.eqb_eq in Es. destruct (A _ _ E) as (Ho & _). destruct (row_claimed _ Ho Es) as (_ & Hl & _). lia.
Qed.
Lemma claims_left_step d d' id : wf d' -> evolves d d' -> claims_left d' id <= claims_left d id.
Proof.
  intros Hw [Hr _ _]. pose proof (claims_left_max d' id Hw) as Hm. unfold claims_left at 2. destruct (db_requests d !! id) as [r|] eqn:E; [|done]. destruct (CanReject (er_status r)) eqn:Ec; [done|].
  destruct (Hr _ _ E) as (r' & E' & [_ _ _ Hs Ha]). pose proof (ended_stays _ _ Hs Ec) as Es. unfold claims_left. rewrite E', Es, Ec. destruct (er_status r =s RequestClaimed) eqn:El; [|lia].
  apply String.eqb_eq in El. specialize (Ha El). lia.
Qed.
(** The request after a claim. *)
Lemma claim_request cx id ticket token d result d' : ClaimEnrollmentRequest cx id ticket token d = Ok (result, d') -> exists r, db_requests d !! id = Some r /\
  (er_status r = RequestApproved /\ db_requests d' !! id = Some (set_claimed RequestClaimed (Some (cx_now cx)) (Some (Add (cx_now cx) ClaimRecoveryWindow)) 0 r) \/
   er_status r = RequestClaimed /\ er_attempts r < MaxClaimRecoveryAttempts /\
   db_requests d' !! id = Some (set_claimed (er_status r) (er_claimed r) (er_deadline r) (er_attempts r + 1) r)).
Proof.
  intros (r & g & d1 & Hr & _ & _ & _ & Happ & Hcore & _)%claim_val. injection Hcore as _ _ ->. exists r. split; [done|]. unfold applyEnrollmentClaim in Happ.
  destruct (er_status r =s RequestApproved) eqn:Ea; [left|destruct (er_status r =s RequestClaimed) eqn:Ec; [right|done]].
  - apply activate_val in Happ as (nid & n & _ & _ & _ & _ & _ & _ & _ & _ & _ & ->). apply String.eqb_eq in Ea. split; [done|].
    rewrite (update_one id (fun r => er_status r =s RequestApproved) _ _ r Hr) by (by rewrite Ea). apply lookup_insert_eq.
  - apply recover_val in Happ as (nid & n & deadline & _ & _ & _ & Hl & _ & _ & _ & _ & _ & _ & _ & _ & _ & ->). apply String.eqb_eq in Ec. split; [done|]. split; [done|].
    rewrite (update_one id (fun r => er_status r =s RequestClaimed) _ _ r Hr) by (by rewrite Ec). apply lookup_insert_eq.
Qed.
Lemma claim_step id o w : wf (w_db w) -> issues_token id o w + claims_left (w_db (perform o w)) id <= claims_left (w_db w) id.
Proof.
  intros Hw. pose proof (claims_left_step _ _ id (perform_wf o w Hw) (perform_evolves o w)) as Hs. destruct o as [| | |c r body token now | | | | | | | | | | | | | | | | | | |]; cbn [issues_token]; try lia.
  destruct (TrimSpace (hr_path_id r) =s id) eqn:Eid; [|lia]. apply String.eqb_eq in Eid. cbn [perform] in *. destruct (HandleClaim c r body token now w) as [answer w'] eqn:E.
  cbn [fst snd] in *. destruct answer; try lia. apply HandleClaim_val in E as (p & b & q & ticket & key & result & _ & _ & _ & _ & _ & _ & _ & Hc & _).
  rewrite Eid in Hc. apply claim_request in Hc as (x & Hx & [[Es Hx']|(Es & Hl & Hx')]); unfold claims_left; rewrite Hx, Hx', Es; cbn; lia.
Qed.
End counting.
