(* ===== verification/EnrollSample.v ===== *)
(** * Agent enrollment: a concrete server

    External functions with definitions of their own, and a run in which an agent enrolls
    under a grant that approves by itself and claims the token of its node. *)

From S2P Require Import Prelude GoText GoNumber GoDate GoInstant GoSha256 GoTable EnrollSecret EnrollPolicy EnrollModel EnrollService EnrollNodes EnrollHandlers EnrollInvariant EnrollSteps EnrollRun.

(** ** Externals *)

Definition sample_address : string := "192.0.2.7".
Definition sample_sign (key payload : list Z) : list Z := Sum256 (key ++ payload) ++ Sum256 (payload ++ key).
#[export] Instance sample_externals : EnrollExternals := {|
  ParseAddr := fun s => if s =s sample_address then Some (V4 3221225991) else None;
  AddrString := fun _ => sample_address;
  ParsePrefix := fun _ => None;
  Regexp := fun _ => None;
  EqualFold := String.eqb;
  Ed25519Verify := fun key payload signature => bool_decide (signature = sample_sign key payload) |}.

(** ** Secrets and keys *)

Definition random_from (n : nat) : list Z := map Z.of_nat (seq n 32).
Definition no_secret : Secret := mkSecret "" "" [].
Definition sample_grant_secret : Secret := Eval vm_compute in default no_secret (GenerateGrantSecretFrom (random_from 1)).
Definition sample_request_token : Secret := Eval vm_compute in default no_secret (GenerateRequestTokenFrom (random_from 40)).
Definition sample_ticket : Secret := Eval vm_compute in default no_secret (GenerateClaimTicketFrom (random_from 80)).
Definition sample_token : Token := Eval vm_compute in default (mkToken "" "" []) (GenerateFrom (random_from 120)).
Definition sample_key : list Z := random_from 7.
Definition sample_challenge : list Z := random_from 160.
Definition sample_nonce : list Z := take 16 (random_from 200).

(** ** The calls *)

Definition sample_now : Time := sample_instant.
Definition sample_origin : string := "https://beat.example".
Definition sample_call (bearer path : string) : HttpRequest := mkHttpRequest true sample_address ("Bearer " +:+ bearer) path sample_origin no_actor.
Definition sample_config : Config := mkConfig true.
Definition sample_policy : GrantPolicy :=
  mkGrantPolicy "rack 4" ApprovalAutomatic 2 "default" "edge" ["linux"] "" true 22 true [] "" true true (sample_now + 24 * Hour).
Definition sample_payload : MetadataPayload := mkMetadataPayload "Web 01" "" "linux" "amd64" "1.4.0" "kvm" 0 "nonce-1".
Definition sample_metadata : Metadata := metadataFromPayload sample_payload.
Definition sample_digest : list Z := Eval vm_compute in Sum256 (MetadataCanonical sample_metadata).
Definition sample_challenge_body : ChallengeBody := mkChallengeBody (EncodeToString sample_key) (EncodeToString sample_digest).
Definition sample_request_signature : list Z := Eval vm_compute in
  sample_sign sample_key (RequestCanonical (mkRequestBinding "c1" sample_challenge sample_origin (Sum256 sample_key) (MetadataCanonical sample_metadata)
    (Add (sample_now + Second) agentDiscoveryChallengeTTL))).
Definition sample_create_body : CreateBody :=
  mkCreateBody "c1" (EncodeToString sample_challenge) (EncodeToString sample_key) (EncodeToString sample_digest) sample_payload (EncodeToString sample_request_signature).
Definition sample_status_signature : list Z := Eval vm_compute in sample_sign sample_key (StatusCanonical (mkStatusBinding "r1" sample_origin (sample_now + 3 * Second) sample_nonce)).
Definition sample_status_body : StatusBody := mkStatusBody (FormatRFC3339 (sample_now + 3 * Second)) (EncodeToString sample_nonce) (EncodeToString sample_status_signature).
Definition sample_claim_signature : list Z := Eval vm_compute in
  sample_sign sample_key (ClaimCanonical (mkClaimBinding "r1" "n1" (Plaintext sample_ticket) sample_origin (sample_now + 4 * Second) sample_nonce)).
Definition sample_claim_body : ClaimBody :=
  mkClaimBody (Plaintext sample_ticket) (FormatRFC3339 (sample_now + 4 * Second)) (EncodeToString sample_nonce) (EncodeToString sample_claim_signature).

Definition op_grant : op := OpCreateGrant (mkContext sample_now no_actor) "g1" (mkGrantInput sample_policy sample_grant_secret "admin").
Definition op_challenge : op :=
  OpChallenge sample_config (sample_call (Plaintext sample_grant_secret) "") (Ok sample_challenge_body) "c1" (Some sample_challenge) (sample_now + Second).
Definition op_request : op :=
  OpRequest sample_config (sample_call (Plaintext sample_grant_secret) "") (Ok sample_create_body) "r1" "n1" (Some sample_request_token) (sample_now + 2 * Second).
Definition op_status : op := OpStatus sample_config (sample_call (Plaintext sample_request_token) "r1") (Ok sample_status_body) (Some sample_ticket) (sample_now + 3 * Second).
Definition op_claim : op := OpClaim sample_config (sample_call (Plaintext sample_request_token) "r1") (Ok sample_claim_body) (Some sample_token) (sample_now + 4 * Second).

Definition sample_start : World := start_world {["default"]} (Some "default").
Definition sample_requested : World := run [op_grant; op_challenge; op_request] sample_start.
Definition sample_polled : World := run [op_grant; op_challenge; op_request; op_status] sample_start.

(** The agent's claim is answered with the token of the node it named in its signature. *)
Example sample_enrolls :
  (HandleClaim sample_config (sample_call (Plaintext sample_request_token) "r1") (Ok sample_claim_body) (Some sample_token) (sample_now + 4 * Second) sample_polled).1 =
  NodeIssued "n1" "edge-web-01" "default" sample_origin sample_address 22 (Token_Plaintext sample_token) false.
Proof. vm_compute. reflexivity. Qed.
