(* ===== verification/EnrollSafety.v ===== *)
(** * Agent enrollment: what the protocol guarantees

    The properties of enrollment and of node credentials, for every sequence of calls of
    agents and administrators, with the run of [EnrollSample] as their witness. *)

From S2P Require Import Prelude GoText GoNumber GoDate GoInstant GoSha256 GoTable EnrollSecret EnrollPolicy EnrollModel EnrollService EnrollNodes EnrollHandlers EnrollInvariant EnrollSteps EnrollRun EnrollTrace EnrollAnswers EnrollCount EnrollSample.

Section safety.
Context `{EnrollExternals}.

(** ** Any run *)

(** C18. After any run of the server from empty tables, with any agents, administrators,
    clocks, drawn identifiers and failed transactions: a request holds exactly the columns
    of its status; a node that is reserved for a request is there, hidden and without a
    token until the claim and active with a token after it, and reserved for one request
    only; there is at most one open request per key and grant; a grant has handed out as
    many places as requests of it were ever approved, and never more than it allows; no
    two nodes share a name or the digest of a token; and an active node has a token. *)
Theorem enrollment_invariant ops groups default_ : wf (w_db (run ops (start_world groups default_))).
Proof. apply enroll_run_wf, wf_empty. Qed.

(** C19. A challenge creates at most one request: in any run, the calls that created or
    resumed a request from a challenge are at most as many as the calls that issued a
    challenge with that identifier. Replaying a signed request gives nothing. *)
Theorem challenge_used_once ops groups default_ id :
  total (uses_challenge id) ops (start_world groups default_) <= total (issues_challenge id) ops (start_world groups default_).
Proof.
  pose proof (total_bound (uses_challenge id) (issues_challenge id) (fun w => unused (w_db w) id) (fun _ => True) ltac:(done) (fun o w _ => challenge_step id o w) ops (start_world groups default_) I) as Hb.
  cbv beta in Hb. pose proof (unused_range (w_db (run ops (start_world groups default_))) id) as Hr. change (unused (w_db (start_world groups default_)) id) with 0 in Hb. lia.
Qed.

(** C20. At most four tokens are ever handed out for a request: the first claim and three
    recoveries of a lost answer, in any run. *)
Theorem tokens_issued_bounded ops groups default_ id : total (issues_token id) ops (start_world groups default_) <= 4.
Proof.
  pose proof (total_bound (issues_token id) (fun _ _ => 0) (fun w => claims_left (w_db w) id) (fun w => wf (w_db w)) perform_wf) as Hb.
  specialize (Hb ltac:(intros o w Hw; cbv beta; pose proof (claim_step id o w Hw); lia) ops (start_world groups default_) (wf_empty groups default_)). cbv beta in Hb.
  pose proof (claims_left_nonneg (w_db (run ops (start_world groups default_))) id (enroll_run_wf ops (start_world groups default_) (wf_empty groups default_))) as Hn.
  change (claims_left (w_db (start_world groups default_)) id) with 4 in Hb. assert (total (fun _ _ => 0) ops (start_world groups default_) = 0) as E; [|lia].
  generalize (start_world groups default_). clear. induction ops as [|o ops IH]; intros w; cbn [total]; [done|]. by rewrite IH.
Qed.

(** C22. A request is a machine of five states. Whatever happens after, a request is still
    there, with the key, the fingerprint and the grant it was made with, and its status was
    reached by approvals of pending requests, claims of approved ones, and rejections and
    expiries of open ones; a rejected, expired or claimed request keeps its status. *)
Theorem request_status_machine ops w id r : db_requests (w_db w) !! id = Some r ->
  exists r', db_requests (w_db (run ops w)) !! id = Some r' /\ er_grant r' = er_grant r /\ er_key r' = er_key r /\ er_fingerprint r' = er_fingerprint r /\
    rtc moves (er_status r) (er_status r') /\ (Terminal (er_status r) = true -> er_status r' = er_status r).
Proof.
  intros Hr. destruct (run_evolves ops w) as [Hs _ _]. destruct (Hs id r Hr) as (r' & Hr' & [E1 E2 E3 Hm _]). exists r'. split_and!; try done. by apply terminal_final.
Qed.

(** ** The checks of a claim *)

(** C16. A token is handed out only to the holder of the key that was approved. When a call
    is answered with a token: it carried the token of the request; a signature that the
    request's own key verifies over this request, the reserved node, the ticket, this
    server and an instant within two minutes of now; the ticket is the last one issued and
    has not expired; the grant is enabled, unexpired and not revoked; and either the
    request is approved and its node still waits for a token, or it was claimed less than
    15 minutes and fewer than four times ago under a grant that allows recovery. The token
    goes to that node and to no other, the ticket is used up, and no other request changes. *)
Theorem node_token_authorized c r body token now w nid name group url host port text recovered w' : wf (w_db w) ->
  HandleClaim c r body token now w = (NodeIssued nid name group url host port text recovered, w') ->
  exists plaintext q g n ticket timestamp nonce signature key, let id := TrimSpace (hr_path_id r) in
    enrollmentBearerSecret (hr_authorization r) = Some plaintext /\ db_requests (w_db w) !! id = Some q /\ er_token q = SecretDigest plaintext /\
    db_grants (w_db w) !! er_grant q = Some g /\ enrollmentActive g now = true /\ er_node q = Some nid /\ db_nodes (w_db w) !! nid = Some n /\ nd_lifecycle n = "active" /\
    er_ticket q = Some (SecretDigest ticket) /\ (exists t, er_ticket_expires q = Some t /\ now < t) /\ withinDiscoverySkew timestamp now = true /\
    VerifySignature (er_key q) (ClaimCanonical (mkClaimBinding id nid ticket (canonicalOrigin r) timestamp nonce)) signature = true /\
    (first_claim q n recovered \/ recovery_claim g q n now recovered) /\
    token = Some key /\ text = Token_Plaintext key /\
    db_nodes (w_db w') = <[nid := set_token (Some (Token_Hash key)) (Token_Prefix key) (Some now) None None CredentialActive now n]> (db_nodes (w_db w)) /\
    (forall q', db_requests (w_db w') !! id = Some q' -> er_status q' = RequestClaimed /\ er_ticket q' = None /\ er_key q' = er_key q) /\
    forall j, j <> id -> db_requests (w_db w') !! j = db_requests (w_db w) !! j.
Proof.
  intros Hw Hc. apply HandleClaim_val in Hc as (p & b & q & ticket & key & result & Hp & _ & Hq & Ht & _ & Hdec & -> & Hclaim & -> & _ & _ & _ & _ & _ & -> & ->). cbv zeta in *.
  apply claim_val in Hclaim as (q0 & g & d1 & Hq0 & [Htk Hex]%ticket_val & Hg & Hact & Happ & Hcore & _). rewrite Hq in Hq0. injection Hq0 as <-. cbn [cx_now] in *. injection Hcore as En _ Er.
  apply decodeClaim_val in Hdec as (timestamp & nonce & signature & Hsk & Hsig).
  apply (claim_outcome _ _ _ _ _ _ _ _ Hw Hq) in Happ as (n & q' & Hnid & Hn & Hl & _ & Hkind & Hno & Hre & Hs' & Ht' & Hk'). rewrite Hnid in Hsig.
  exists p, q, g, n, (Plaintext ticket), timestamp, nonce, signature, key. cbv zeta. rewrite En, Er, Hno, Hre. split_and!; try done.
  - intros x. rewrite lookup_insert_eq. by intros [= <-].
  - intros j Hj. by rewrite lookup_insert_ne.
Qed.

(** ** The checks of a request *)

Lemma lifetime_ahead now : now < Add now enrollmentRequestLifetime.
Proof. unfold Add, enrollmentRequestLifetime, Hour, Minute, Second. lia. Qed.
(** The row that a call creates or resumes, before and after it is approved by itself. *)
Definition made_by (i : RequestInput) (q : Request) : Prop :=
  er_grant q = ri_GrantID i /\ er_key q = ri_PublicKey i /\ er_fingerprint q = ri_Fingerprint i /\ er_token q = Hash (ri_Token i) /\ er_metadata q = ri_Metadata i /\
  er_source q = ri_SourceIP i /\ ri_Now i < er_expires q /\ openStatus q = true.
Lemma upsert_row id i d b k d' : upsertEnrollmentRequest id i d = Ok ((b, k), d') -> exists q, db_requests d' !! k = Some q /\ made_by i q.
Proof.
  unfold upsertEnrollmentRequest. intros (existing & d1 & [-> ->]%query_val & Hx)%andThen_ok. destruct (openEnrollmentRequest _ _ d) as [[k0 r0]|] eqn:Eo.
  - apply head_rows_where in Eo as [Er [[Eg%String.eqb_eq Ef%bool_decide_eq_true]%andb_true_iff Eopen]%andb_true_iff]. destruct (bool_decide (er_key r0 = _)) eqn:Ek; [|done]. cbn [negb] in Hx.
    apply bool_decide_eq_true in Ek. apply andThen_ok in Hx as (? & d2 & Hrot & [[= -> ->] ->]%ret_ok). unfold rotateEnrollmentToken in Hrot.
    apply andThen_ok in Hrot as (taken & d3 & [-> ->]%query_val & Hrot). destruct (token_taken _ _ _); [done|]. apply andThen_ok in Hrot as (n & d3 & [-> ->]%update_requests_val & Hrot).
    destruct (_ =? 0); [done|]. apply ret_ok in Hrot as [_ ->]. cbn [db_requests set_requests]. rewrite (update_one k0 openStatus _ _ r0 Er Eopen), lookup_insert_eq. eexists. split; [done|].
    split_and!; try done. apply lifetime_ahead.
  - apply andThen_ok in Hx as (open & d1 & [-> ->]%query_val & Hx). destruct (_ <=? _); [done|]. apply andThen_ok in Hx as (? & d2 & (_ & _ & _ & ->)%insert_request_val & [[= -> ->] ->]%ret_ok).
    cbn [db_requests set_requests]. rewrite lookup_insert_eq. eexists. split; [done|]. split_and!; try done. apply lifetime_ahead.
Qed.
Lemma autoApprove_row gid g id nid now i d u d' q : db_requests d !! id = Some q -> made_by i q -> autoApproveEnrollmentRequest gid g id nid now d = Ok (u, d') ->
  exists q', db_requests d' !! id = Some q' /\ made_by i q'.
Proof.
  intros Hq Hm. unfold autoApproveEnrollmentRequest. intros (r & d1 & [Hr ->]%loaded & Hx)%andThen_ok. rewrite Hq in Hr. injection Hr as <-.
  assert (forall reason, recordEnrollmentConflict id reason now d = Ok (u, d') -> exists q', db_requests d' !! id = Some q' /\ made_by i q') as Hconf.
  { unfold recordEnrollmentConflict. intros reason (n & d1 & [_ ->]%update_requests_val & ->%exec_val)%andThen_ok. cbn [db_requests set_requests set_audit]. rewrite lookup_update_where, Hq. cbn.
    eexists. split; [done|]. by destruct (_ && _). }
  destruct (negb _); [apply ret_ok in Hx as [_ ->]; eauto|]. destruct (automaticEnrollmentReservation g q) as [decision|reason]; [|by eapply Hconf].
  apply andThen_ok in Hx as (taken & d1 & [-> ->]%query_val & Hx). destruct (enrollmentNodeNameTaken _ _); [by eapply Hconf|].
  apply reserve_val in Hx as (g0 & r & n & _ & _ & _ & Hr & _ & _ & _ & _ & _ & ->). rewrite Hq in Hr. injection Hr as <-. cbn. rewrite lookup_insert_eq. eexists. split; [done|].
  destruct Hm as (M1 & M2 & M3 & M4 & M5 & M6 & M7 & M8). by split_and!.
Qed.
Lemma created_row cx id nid i d k q resumed d' : CreateOrResumeRequest cx id nid i d = Ok ((k, q, resumed), d') -> db_requests d' !! k = Some q /\ made_by i q.
Proof.
  unfold CreateOrResumeRequest. destruct (negb _); [done|]. intros (g & d1 & [Hg ->]%grant_for_update & Hx)%andThen_ok. destruct (negb _); [done|].
  apply andThen_ok in Hx as ([b k0] & d2 & (r & Hr & Hm)%upsert_row & (u & d3 & Hauto & (? & d4 & ->%exec_val & (r4 & d5 & [Hr4 ->]%loaded & [[= -> -> _] ->]%ret_ok)%andThen_ok)%andThen_ok)%andThen_ok).
  cbn [fst snd] in *. split; [done|]. assert (exists q', db_requests d3 !! k0 = Some q' /\ made_by i q') as (q' & Hq' & Hm').
  { destruct (_ =s _); [eapply autoApprove_row; [exact Hr|exact Hm|exact Hauto]|]. apply ret_ok in Hauto as [_ ->]. eauto. }
  cbn in Hr4. congruence.
Qed.

(** C17. A request is created only for the holder of a key, by whoever holds the secret of a
    grant. When a call is answered with a request: it carried the secret of a grant that
    is enabled, unexpired, not revoked and has places left; its source and hostname are
    ones the grant allows; its challenge is one this server issued under that grant to
    this key, metadata and source, that had not expired and was never used; and the key
    verifies the signature over the challenge, the server, the key and the metadata. After
    it the request holds that key, metadata and source and the digest of the token it was
    answered with, is open and has not expired, and the challenge is used up. *)
Theorem request_proves_key c r body id nid token now w rid text status grant w' :
  HandleCreateRequest c r body id nid token now w = (RequestCreated rid text status grant, w') ->
  exists plaintext b input gid g ch address secret q, let cid := TrimSpace (rb_challenge_id b) in
    enrollmentBearerSecret (hr_authorization r) = Some plaintext /\ body = Ok b /\ decodeRequestCreate b = Some input /\ discoveryClientAddress r = Some address /\
    db_grants (w_db w) !! gid = Some g /\ gr_hash g = SecretDigest plaintext /\ Available g now = true /\ grantAllowsSource g address = true /\
    grantAllowsHostname g (Hostname (dc_metadata input)) = true /\
    db_challenges (w_db w) !! cid = Some ch /\ ch_consumed ch = None /\ ch_grant ch = gid /\ now < ch_expires ch /\ ch_hash ch = Sum256 (dc_challenge input) /\
    ch_fingerprint ch = dc_fingerprint input /\ ch_digest ch = dc_digest input /\ ch_source ch = AddrString address /\
    VerifySignature (dc_publicKey input) (RequestCanonical (mkRequestBinding cid (dc_challenge input) (canonicalOrigin r) (dc_fingerprint input) (dc_canonical input) (ch_expires ch)))
      (dc_signature input) = true /\
    token = Some secret /\ text = Plaintext secret /\ db_requests (w_db w') !! rid = Some q /\ status = er_status q /\
    made_by (mkRequestInput gid (dc_fingerprint input) (dc_publicKey input) secret (dc_metadata input) (AddrString address) now) q /\ unused (w_db w') cid = 0.
Proof.
  intros (p & b & input & gid & g & ch & address & secret & q & resumed & d1 & Hp & -> & Hi & Had & Hg & Hh & Hav & Hs & Hn & Hc & Hcg & Hv & -> & -> & -> & Hr)%HandleCreate_val.
  pose proof Hc as (_ & _ & Hu)%consume_spent. apply consume_val in Hc as (Hch & Hcon & Hb & _). apply created_row in Hr as Hrow. destruct Hrow as [Hq Hm].
  apply CreateOrResumeRequest_spends in Hr. specialize (Hr (TrimSpace (rb_challenge_id b))). cbn [cp_ID] in *. unfold bindingsMatch, ConstantTimeCompare in Hb. cbn in Hb.
  rewrite !andb_true_iff in Hb. destruct Hb as ((((B1%Z.ltb_lt & B2%bool_decide_eq_true) & B3%bool_decide_eq_true) & B4%bool_decide_eq_true) & B5%String.eqb_eq).
  exists p, b, input, gid, g, ch, address, secret, q. cbv zeta. split_and!; try done. pose proof (unused_range (w_db w') (TrimSpace (rb_challenge_id b))). lia.
Qed.

(** ** Revoked grants *)

Lemma updateGrant_val cx id where_ f side action d g' d' : updateGrant cx id where_ f side action d = Ok (g', d') -> exists g d1,
  db_grants d !! id = Some g /\ where_ g = true /\ side (set_grants (<[id := f g]> (db_grants d)) d) = Ok (tt, d1) /\ core d' = core d1 /\ db_challenges d' = db_challenges d1.
Proof.
  unfold updateGrant. intros (row & d1 & [-> ->]%query_val & Hx)%andThen_ok. destruct (db_grants d !! id) as [g|]; [|done]. destruct (where_ g) eqn:Ew; [|done].
  apply andThen_ok in Hx as (? & d1 & [-> _]%write_grant_val & ([] & d2 & Hside & (? & d3 & ->%exec_val & Hx)%andThen_ok)%andThen_ok). unfold grant_row in Hx.
  apply andThen_ok in Hx as (? & d3 & [-> ->]%query_val & [_ ->]%require_val). exists g, d2. done.
Qed.
(** What revoking a grant leaves of it, in the tables with the grant already revoked. *)
Lemma revoke_side_val id actor now d u d' : revokeEnrollmentGrantSideEffects id actor now d = Ok (u, d') -> db_grants d' = db_grants d /\
  (forall k c, db_challenges d' !! k = Some c -> ch_grant c <> id) /\
  (forall k r, db_requests d' !! k = Some r -> er_grant r = id -> openStatus r = false) /\
  (forall k n j r, db_nodes d !! k = Some n -> hidden_node n = true -> db_requests d !! j = Some r -> er_grant r = id -> er_node r = Some k -> db_nodes d' !! k = None).
Proof.
  unfold revokeEnrollmentGrantSideEffects. intros (? & d1 & ->%exec_val & (? & d2 & [_ ->]%update_requests_val & (? & d3 & ->%exec_val & (? & d4 & [_ ->]%update_requests_val & [_ ->]%ret_ok)%andThen_ok)%andThen_ok)%andThen_ok)%andThen_ok.
  split_and!; [done| | |].
  - intros k c [_ Hc%String.eqb_neq]%lookup_delete_where. done.
  - intros k r. cbn [db_requests set_requests]. rewrite lookup_update_where. destruct (_ !! k) as [q|]; [|done]. cbn [fmap option_fmap option_map]. intros [= <-]. destruct ((er_grant q =s id) && openStatus q) eqn:E; [done|].
    intros Hg. rewrite Hg, String.eqb_refl in E. exact E.
  - intros k n j r Hk Hh Hj Hg Hn. cbn [db_nodes set_requests]. apply eq_None_not_Some. intros [node [Hx Hc]%lookup_delete_where]. cbn [db_nodes set_requests set_challenges] in Hx. rewrite Hk in Hx. injection Hx as <-.
    rewrite Hh in Hc. cbn [andb] in Hc. unfold reserved_by in Hc. assert (exists q, update_where (fun _ r => (er_grant r =s id) && bool_decide (er_node r <> None)) (snapshotted d) (db_requests d) !! j = Some q /\
      er_grant q = id /\ er_node q = Some k) as (q & Hq & Hqg & Hqn). { rewrite lookup_update_where, Hj. cbn. eexists. split; [done|]. by destruct (_ && _). }
    pose proof (exists_where_false _ _ _ _ Hc Hq) as Hf. cbv beta in Hf. by rewrite Hqg, String.eqb_refl, Hqn, bool_decide_eq_true_2 in Hf.
Qed.
Definition grant_closed (id : string) (d : DB) : Prop :=
  (exists g, db_grants d !! id = Some g /\ gr_revoked g <> None) /\ forall k r, db_requests d !! k = Some r -> er_grant r = id -> openStatus r = false.
Lemma closed_stays id d d' : evolves d d' -> grant_closed id d -> grant_closed id d'.
Proof.
  intros [Hr Hg Hnew] [(g & Hid & Hrev) Hclosed]. split; [destruct (Hg _ _ Hid) as (g' & ? & ?); eauto|]. intros k r' Hk Heq. destruct (db_requests d !! k) as [r|] eqn:E.
  - destruct (Hr _ _ E) as (r0 & Hr0 & [Eg _ _ Hm _]). rewrite Hk in Hr0. injection Hr0 as <-. rewrite Eg in Heq. pose proof (Hclosed _ _ E Heq) as Ho. rewrite open_CanReject in *. by rewrite (ended_stays _ _ Hm Ho).
  - destruct Hrev. rewrite <- Heq in Hid. by eapply Hnew.
Qed.

(** C21. A revoked grant is closed for good. When an administrator revokes a grant, none of
    its challenges and no open request of it is left and the hidden nodes that its requests
    reserved are gone; and whatever is called after that, by anybody, no request of the
    grant is ever open again, and no token is handed out for one of its requests. *)
Theorem revoked_grant_closed cx id actor d g d' : RevokeGrant cx id actor d = Ok (g, d') ->
  (forall k c, db_challenges d' !! k = Some c -> ch_grant c <> id) /\
  (forall k n j r, db_nodes d !! k = Some n -> hidden_node n = true -> db_requests d !! j = Some r -> er_grant r = id -> er_node r = Some k -> db_nodes d' !! k = None) /\
  forall ops w, w_db w = d' ->
    (forall k r, db_requests (w_db (run ops w)) !! k = Some r -> er_grant r = id -> openStatus r = false) /\
    forall c r body token now nid name group url host port text recovered w' q,
      HandleClaim c r body token now (run ops w) = (NodeIssued nid name group url host port text recovered, w') ->
      db_requests (w_db (run ops w)) !! TrimSpace (hr_path_id r) = Some q -> er_grant q <> id.
Proof.
  intros (g0 & d1 & Hg & _ & (Eg & Hch & Hreq & Hno)%revoke_side_val & Hcore & Ec)%updateGrant_val. injection Hcore as En Egr Er. rewrite Ec, En.
  split; [done|]. split; [done|]. intros ops w Hw. assert (grant_closed id (w_db (run ops w))) as [(g1 & Hg1 & Hrev) Hclosed].
  { eapply closed_stays; [apply run_evolves|]. rewrite Hw. split; [|by rewrite Er]. rewrite Egr, Eg. cbn. rewrite lookup_insert_eq. eauto. }
  split; [done|]. intros * (p & b & q0 & ticket & key & result & _ & _ & Hq0 & _ & _ & _ & _ & Hclaim & _)%HandleClaim_val Hq Heq. rewrite Hq in Hq0. injection Hq0 as <-.
  apply claim_val in Hclaim as (q1 & g2 & d2 & Hq1 & _ & Hg2 & Hact & _). rewrite Hq in Hq1. injection Hq1 as <-. rewrite Heq, Hg1 in Hg2. injection Hg2 as <-.
  unfold enrollmentActive in Hact. rewrite !andb_true_iff in Hact. destruct Hact as ((_ & Ha%bool_decide_eq_true) & _). done.
Qed.

(** ** The token of a node *)

Lemma authenticated_row token d id n : AuthenticateAgentToken token d = Some (id, n) -> db_nodes d !! id = Some n /\ nd_hash n = Some (Digest token) /\ usable n = true.
Proof.
  unfold AuthenticateAgentToken. destruct (DisplayPrefix token); [|done]. intros [Hn [Hh%bool_decide_eq_true Hu]%andb_true_iff]%head_rows_where. done.
Qed.
Lemma token_authenticates token d id n : wf d -> DisplayPrefix token <> None -> db_nodes d !! id = Some n -> nd_hash n = Some (Digest token) -> usable n = true ->
  AuthenticateAgentToken token d = Some (id, n).
Proof.
  intros [_ _ _ _ _ _ I] Hp Hn Hh Hu. unfold AuthenticateAgentToken. destruct (DisplayPrefix token); [|done].
  set (c := fun (_ : string) m => bool_decide (nd_hash m = Some (Digest token)) && usable m). assert ((id, n) ∈ rows_where c (db_nodes d)) as Hin.
  { apply elem_of_rows_where. split; [done|]. unfold c. by rewrite Hh, bool_decide_eq_true_2, Hu. }
  destruct (head (rows_where c (db_nodes d))) as [[id' n']|] eqn:E; [|destruct (rows_where c (db_nodes d)); [by apply not_elem_of_nil in Hin|done]].
  apply head_rows_where in E as [Hn' [Hh'%bool_decide_eq_true _]%andb_true_iff]. assert (id' = id) as -> by (by eapply I). congruence.
Qed.

(** C23. The token of a claim is the credential of its node, and the only one. A token that
    was generated and handed out authenticates its node from the moment of the answer, and
    no other token does, so that a token handed out before for the same node no longer
    works once the claim is repeated. *)
Theorem claimed_token_authenticates c r body reader key now w nid name group url host port text recovered w' : wf (w_db w) -> is_bytes reader -> GenerateFrom reader = Some key ->
  HandleClaim c r body (Some key) now w = (NodeIssued nid name group url host port text recovered, w') ->
  (exists n, AuthenticateAgentToken text (w_db w') = Some (nid, n) /\ nd_state n = CredentialActive) /\
  forall other n, Digest other <> Digest text -> AuthenticateAgentToken other (w_db w') <> Some (nid, n).
Proof.
  intros Hw Hb Hgen Hc. assert (wf (w_db w')) as Hw'.
  { change w' with (snd (NodeIssued nid name group url host port text recovered, w')). rewrite <- Hc. apply (perform_wf (OpClaim c r body (Some key) now) w Hw). }
  apply HandleClaim_val in Hc as (p & b & q & ticket & key0 & result & _ & _ & Hq & _ & _ & _ & [= <-] & Hclaim & -> & _ & _ & _ & _ & _ & -> & _).
  apply claim_val in Hclaim as (q0 & g & d1 & Hq0 & _ & _ & _ & Happ & Hcore & _). rewrite Hq in Hq0. injection Hq0 as <-. injection Hcore as En _ _.
  apply (claim_outcome _ _ _ _ _ _ _ _ Hw Hq) in Happ as (n & q' & _ & Hn & Hl & _ & _ & Hno & _). rewrite <- En in Hno. cbn [cx_now] in Hno.
  assert (32 <= llen reader) as Hlen. { unfold GenerateFrom, ReadFull in Hgen. change randomBytes with 32 in Hgen. destruct (Z.leb_spec 32 (llen reader)); [done|done]. }
  destruct (GenerateFrom_ok reader Hb Hlen) as (k & Hk & Hh & Hp & _). rewrite Hgen in Hk. injection Hk as <-.
  set (n' := set_token _ _ _ _ _ _ _ n) in Hno. assert (db_nodes (w_db w') !! cr_NodeID result = Some n') as Hn' by (rewrite Hno; apply lookup_insert_eq). split.
  - exists n'. split; [|done]. apply token_authenticates; [done|by rewrite Hp|done|cbn; by rewrite Hh|]. unfold usable, is_active. cbn. by rewrite Hl.
  - intros other m Hne (Hm & Hhm & _)%authenticated_row. rewrite Hn' in Hm. injection Hm as <-. change (nd_hash n') with (Some (Token_Hash key)) in Hhm. rewrite Hh in Hhm. congruence.
Qed.

(** ** Cleanup *)

Lemma to_end_same now d d' r r' : db_grants d' = db_grants d -> er_status r' = er_status r -> er_expires r' = er_expires r -> er_grant r' = er_grant r ->
  to_end now d' r' = to_end now d r.
Proof. intros E1 E2 E3 E4. unfold to_end, openStatus. by rewrite E1, E2, E3, E4. Qed.
Definition past_ticket (now : Time) (r : Request) : bool := bool_decide (er_ticket r <> None) && match er_ticket_expires r with Some t => t <=? now | None => false end.
(** What becomes of one request. *)
Record cleaned (now : Time) (due : bool) (r r' : Request) : Prop := {
  cl_grant : er_grant r' = er_grant r; cl_expires : er_expires r' = er_expires r; cl_ticket : past_ticket now r' = false;
  cl_status : er_status r' = if due then RequestExpired else er_status r;
  cl_node : er_node r' = None \/ er_node r' = er_node r }.
(** The tables after the statements that end requests, and after the last one. *)
Lemma cleanup_val now d result d' : CleanupEnrollmentState now d = Ok (result, d') -> exists d5 c1,
  db_challenges d' = delete_where (fun _ => stale now) (db_challenges d) /\ db_grants d' = db_grants d /\
  (forall k, db_requests d !! k = None -> db_requests d5 !! k = None) /\
  (forall k r, db_requests d !! k = Some r -> exists r', db_requests d5 !! k = Some r' /\ cleaned now (to_end now d r) r r' /\
     (to_end now d r = false -> er_node r' = lost (selected_keys c1 (db_nodes d)) (er_node r))) /\
  (forall id n, c1 id n = true -> hidden_node n = true /\ exists k r, db_requests d !! k = Some r /\ to_end now d r = true /\ er_node r = Some id) /\
  db_nodes d5 = delete_where c1 (db_nodes d) /\
  let c2 := fun id n => hidden_node n && negb (reserved_by (fun _ _ => true) d5 id) in
  db_nodes d' = delete_where c2 (db_nodes d5) /\
  db_requests d' = (fun r => set_reservation (lost (selected_keys c2 (db_nodes d5)) (er_node r)) (er_snapshot r) r) <$> db_requests d5.
Proof.
  unfold CleanupEnrollmentState, expireOpenEnrollmentRequests, pruneExpiredTicketsTx, deleteOrphanEnrollmentNodes. intros (n1 & e1 & H1 & Hx)%andThen_ok. injection H1 as _ <-.
  apply andThen_ok in Hx as (n2 & e2 & [_ ->]%update_requests_val & Hx). apply andThen_ok in Hx as (n3 & e5 & H5 & Hx).
  apply andThen_ok in H5 as (? & e3 & [_ ->]%update_requests_val & (? & e4 & ->%exec_val & [_ ->]%update_requests_val)%andThen_ok).
  apply andThen_ok in Hx as (? & e6 & ->%exec_val & (? & e7 & Haud & [_ ->]%ret_ok)%andThen_ok). set (e1 := set_challenges _ d) in *. set (e2 := set_requests _ e1) in *. set (e3 := set_requests _ e2) in *.
  set (c1 := fun id n => hidden_node n && reserved_by (fun _ => to_end now e3) e3 id) in *. set (e4 := without_nodes c1 e3) in *. set (e5 := set_requests _ e4) in *. set (e6 := without_nodes _ e5) in *.
  assert (core e7 = core e6 /\ db_challenges e7 = db_challenges e6) as [Hcore Hch].
  { destruct (n3 =? 0); [by apply ret_ok in Haud as [_ ->]|by apply exec_val in Haud as ->]. }
  injection Hcore as En Eg Er. exists e5, c1. rewrite En, Eg, Er, Hch.
  assert (forall k r, db_requests d !! k = Some r -> exists r3, db_requests e3 !! k = Some r3 /\ er_grant r3 = er_grant r /\ er_expires r3 = er_expires r /\ er_status r3 = er_status r /\
    er_node r3 = er_node r /\ past_ticket now r3 = false) as H3.
  { intros k r Hk. assert (db_requests e2 !! k = Some (if past_ticket now r then set_ticket None None (er_generation r) r else r)) as H2.
    { unfold e2, e1. cbn [db_requests set_requests set_challenges]. by rewrite lookup_update_where, Hk. }
    unfold e3. cbn [db_requests set_requests]. rewrite lookup_update_where, H2. cbn [fmap option_fmap option_map]. eexists. split; [done|]. by destruct (past_ticket now r) eqn:Ep, (to_end now e2 _). }
  assert (forall k r3, db_requests e3 !! k = Some r3 -> exists r, db_requests d !! k = Some r /\ to_end now e3 r3 = to_end now d r /\ er_node r3 = er_node r) as Hback.
  { intros k r3 Hk. destruct (db_requests d !! k) as [r|] eqn:Ek.
    - destruct (H3 k r Ek) as (y & Hy & X1 & X2 & X3 & X4 & _). rewrite Hk in Hy. injection Hy as <-. exists r. split_and!; [done|by apply to_end_same|done].
    - exfalso. revert Hk. unfold e3, e2, e1. cbn [db_requests set_requests set_challenges]. by rewrite !lookup_update_where, Ek. }
  split_and!; [done|done| | | |done|done|done].
  - intros k Hk. unfold e5, e4, e3, e2, e1. cbn [db_requests set_requests set_challenges without_nodes]. rewrite lookup_update_where. cbn. by rewrite lookup_fmap, !lookup_update_where, Hk.
  - intros k r Hk. destruct (H3 k r Hk) as (r3 & Hr3 & X1 & X2 & X3 & X4 & X5). unfold e5. cbn [db_requests set_requests]. rewrite lookup_update_where.
    assert (db_requests e4 !! k = Some (set_reservation (lost (selected_keys c1 (db_nodes d)) (er_node r3)) (er_snapshot r3) r3)) as H4.
    { transitivity ((fun r => set_reservation (lost (selected_keys c1 (db_nodes d)) (er_node r)) (er_snapshot r) r) <$> db_requests e3 !! k); [apply lookup_fmap|by rewrite Hr3]. }
    rewrite H4. cbn [fmap option_fmap option_map]. rewrite (to_end_same now d e4 r (set_reservation (lost (selected_keys c1 (db_nodes d)) (er_node r3)) (er_snapshot r3) r3) eq_refl X3 X2 X1). eexists. split; [done|]. rewrite <- X4. destruct (to_end now d r); [split; [|done]|split; [|done]].
    + split; [done|done|done|done|by left].
    + split; [done|done|exact X5|done|]. cbn. unfold lost. rewrite X4. destruct (er_node r); [destruct (bool_decide _)|]; auto.
  - intros id n [Hh (k & r3 & Hr3 & [Ht Hn%bool_decide_eq_true]%andb_true_iff)%exists_where_spec]%andb_true_iff. split; [done|]. destruct (Hback k r3 Hr3) as (r & Hr & Et & En3). exists k, r. split_and!; congruence.
Qed.

(** A node that some request reserves is no orphan. *)
Lemma reserved_kept d k r id : db_requests d !! k = Some r -> er_node r = Some id ->
  lost (selected_keys (fun id n => hidden_node n && negb (reserved_by (fun _ _ => true) d id)) (db_nodes d)) (Some id) = Some id.
Proof.
  intros Hr Hn. cbn. rewrite bool_decide_eq_false_2; [done|]. intros (n & _ & [_ Hc%negb_true_iff]%andb_true_iff)%elem_of_selected_keys.
  pose proof (exists_where_false _ _ _ _ Hc Hr) as Hf. cbv beta in Hf. by rewrite Hn, bool_decide_eq_true_2 in Hf.
Qed.

(** C24. The cleanup is complete and takes nothing else. After it, no challenge is used or
    past its time; every open request is within its time and under a grant that is neither
    revoked nor expired; no ticket is past its time; and every hidden node is reserved by
    an approved request. It ends exactly the open requests that were due, the others keep
    their status and the node they reserve, and every node that is not hidden stays as it
    is. *)
Theorem cleanup_complete now d result d' : wf d -> CleanupEnrollmentState now d = Ok (result, d') ->
  (forall k c, db_challenges d' !! k = Some c -> stale now c = false) /\
  (forall k r, db_requests d' !! k = Some r -> openStatus r = true -> now < er_expires r /\ exists g, db_grants d' !! er_grant r = Some g /\ closed_grant now g = false) /\
  (forall k r, db_requests d' !! k = Some r -> past_ticket now r = false) /\
  (forall id n, db_nodes d' !! id = Some n -> nd_state n = CredentialPendingClaim -> exists k r, db_requests d' !! k = Some r /\ er_node r = Some id /\ er_status r = RequestApproved) /\
  (forall k r, db_requests d !! k = Some r -> exists r', db_requests d' !! k = Some r' /\
     er_status r' = (if to_end now d r then RequestExpired else er_status r) /\ (to_end now d r = false -> er_node r' = er_node r)) /\
  forall id n, db_nodes d !! id = Some n -> nd_state n <> CredentialPendingClaim -> db_nodes d' !! id = Some n.
Proof.
  intros Hd Hx. pose proof (CleanupEnrollmentState_wf now d result d' Hd Hx) as Hd'. apply cleanup_val in Hx as (d5 & c1 & Ech & Eg & Hnone & Hrow & Hc1 & En5 & En & Er).
  set (c2 := fun id n => hidden_node n && negb (reserved_by (fun _ _ => true) d5 id)) in *.
  assert (forall k r', db_requests d' !! k = Some r' -> exists r5 r, db_requests d5 !! k = Some r5 /\ db_requests d !! k = Some r /\ cleaned now (to_end now d r) r r5 /\
    r' = set_reservation (lost (selected_keys c2 (db_nodes d5)) (er_node r5)) (er_snapshot r5) r5) as Hback.
  { intros k r'. rewrite Er, lookup_fmap. destruct (db_requests d5 !! k) as [r5|] eqn:E5; [|done]. intros [= <-]. destruct (db_requests d !! k) as [r|] eqn:Ek; [|rewrite Hnone in E5; done].
    destruct (Hrow k r Ek) as (y & Hy & Hcl & _). rewrite E5 in Hy. injection Hy as <-. eauto 10. }
  split_and!.
  - intros k c0 Hc. rewrite Ech in Hc. by apply lookup_delete_where in Hc as [_ ?].
  - intros k r' (r5 & r & _ & Hr & [C1 C2 _ C4 _] & ->)%Hback Ho. rewrite open_CanReject in Ho. cbn in Ho. rewrite C4 in Ho. cbn. rewrite C1, C2, Eg. destruct (to_end now d r) eqn:Et; [done|].
    unfold to_end in Et. rewrite open_CanReject, Ho in Et. cbn [andb] in Et. apply orb_false_iff in Et as [E1%Z.leb_gt E2]. split; [done|]. destruct Hd as [A _ _ _ _ _ _].
    destruct (A _ _ Hr) as (_ & _ & [g Hg]). rewrite Hg in E2. eauto.
  - by intros k r' (r5 & r & _ & _ & [_ _ C3 _ _] & ->)%Hback.
  - intros id n Hn Hs. assert (hidden_node n = true) as Hh.
    { unfold hidden_node. rewrite Hs. destruct Hd' as [_ _ _ D _ _ _]. destruct (D _ _ Hn) as [Hp _]. by rewrite (Hp Hs). }
    rewrite En in Hn. apply lookup_delete_where in Hn as [Hn5 Hc2]. unfold c2 in Hc2. rewrite Hh in Hc2. cbn [andb] in Hc2. apply negb_false_iff, exists_where_spec in Hc2 as (k & r5 & Hr5 & Hn'%bool_decide_eq_true).
    assert (db_requests d' !! k = Some (set_reservation (Some id) (er_snapshot r5) r5)) as Hk.
    { rewrite Er, lookup_fmap, Hr5. cbn [fmap option_fmap option_map]. unfold c2. by rewrite Hn', (reserved_kept d5 k r5 id Hr5 Hn'). }
    exists k. eexists. split; [exact Hk|]. split; [done|]. destruct Hd' as [A _ _ _ _ _ _]. destruct (A _ _ Hk) as (_ & Hl & _). destruct (Hl id eq_refl) as (m & Hm & [[? _]|[_ Hx]]); [done|].
    rewrite En in Hm. apply lookup_delete_where in Hm as [Hm _]. rewrite Hn5 in Hm. injection Hm as <-. rewrite Hs in Hx. done.
  - intros k r Hr. destruct (Hrow k r Hr) as (r5 & Hr5 & [_ _ _ C4 _] & Hnode). rewrite Er, lookup_fmap, Hr5. eexists. split; [done|]. split; [done|]. intros Ht. specialize (Hnode Ht).
    cbn [er_node set_reservation]. destruct (er_node r) as [id|] eqn:Eid; [|by rewrite Hnode]. assert (er_node r5 = Some id) as E5; [|rewrite E5; by eapply reserved_kept].
    rewrite Hnode. cbn. rewrite bool_decide_eq_false_2; [done|]. intros (n & _ & (_ & k2 & r2 & Hr2 & Ht2 & Hn2)%Hc1)%elem_of_selected_keys. destruct Hd as [_ B _ _ _ _ _].
    rewrite (B _ _ _ _ _ Hr Hr2 Eid Hn2) in Hr. congruence.
  - intros id n Hn Hs. rewrite En, En5. assert (hidden_node n = false) as Hh by (unfold hidden_node; by rewrite (proj2 (String.eqb_neq _ _) Hs)). apply lookup_delete_where. split; [apply lookup_delete_where; split; [done|]|].
    + apply not_true_iff_false. intros [Hx _]%Hc1. congruence.
    + unfold c2. by rewrite Hh.
Qed.

(** ** Two surprises *)

(** A node of an earlier version, or one whose token was revoked when the column of its
    state came, that gets a new token keeps its state, and nothing authenticates it: not
    the new token, not any other one, and not the shared token of earlier versions. *)
Theorem rotation_locks_out id n token now d n' d' : db_nodes d !! id = Some n -> nd_state n <> CredentialActive -> HandleRotateAgentToken id token now d = Ok (Some n', d') ->
  forall legacyToken legacyName readOnly text later identity d2,
    authenticateAgent legacyToken legacyName readOnly text later d' = Ok (Some identity, d2) -> ai_NodeID identity <> id.
Proof.
  intros Hn Hs [[[=] _]|(n0 & Hn0 & _ & _ & _ & ->)]%HandleRotate_val legacyToken legacyName readOnly text later identity d2. rewrite Hn in Hn0. injection Hn0 as <-.
  set (n1 := set_token _ _ _ _ _ _ _ n). set (d1 := set_nodes _ d). assert (db_nodes d1 !! id = Some n1) as Hn1 by apply lookup_insert_eq. clearbody d1. unfold authenticateAgent.
  intros (row & e & [-> ->]%query_val & Hx)%andThen_ok Hid. destruct (AuthenticateAgentToken text d1) as [[k m]|] eqn:Ea.
  - apply andThen_ok in Hx as (? & e & _ & [[= ->] _]%ret_ok). cbn in Hid. subst k. apply authenticated_row in Ea as (Hm & _ & Hu). rewrite Hn1 in Hm. injection Hm as <-.
    unfold usable in Hu. apply andb_true_iff in Hu as [_ Hu%String.eqb_eq]. done.
  - destruct (_ || _); [by apply ret_ok in Hx as [[=] _]|]. destruct legacyName as [name|]; [|by apply ret_ok in Hx as [[=] _]]. destruct (name =s ""); [by apply ret_ok in Hx as [[=] _]|].
    apply andThen_ok in Hx as (row & e & [-> ->]%query_val & [Hx _]%ret_ok). destruct (AuthenticateLegacyNode name d1) as [[k m]|] eqn:El; [|done]. injection Hx as ->. cbn in Hid. subst k.
    apply head_rows_where in El as [Hm Hc]. rewrite Hn1 in Hm. injection Hm as <-. rewrite !andb_true_iff in Hc. destruct Hc as (((((_ & Hh%bool_decide_eq_true) & _) & _) & _) & _). done.
Qed.

Lemma no_duplicates ids : hasDuplicateNodeIDs ids = false -> NoDup ids.
Proof.
  induction ids as [|i ids IH]; [constructor|]. cbn [hasDuplicateNodeIDs]. intros [[_ Hi]%orb_false_iff Hr]%orb_false_iff. constructor; [|by apply IH]. intros Hin%str_in_spec. congruence.
Qed.
(** While a node of a group is reserved for an agent that did not claim it yet, the nodes
    of the group cannot be sorted: the count of the group includes the hidden node, which
    no list of nodes shows. *)
Theorem hidden_node_blocks_sort groupID h hidden ids now d : db_nodes d !! h = Some hidden -> nd_group hidden = groupID -> visible hidden = false ->
  (forall id, id ∈ ids -> exists n, db_nodes d !! id = Some n /\ nd_group n = groupID /\ visible n = true) -> UpdateNodeSort ids now d = Err ENodeSort.
Proof.
  intros Hh Hg Hv Hids. unfold UpdateNodeSort. destruct (_ || hasDuplicateNodeIDs ids) eqn:E; [done|]. apply orb_false_iff in E as [E Hdup%no_duplicates].
  unfold andThen, query at 1. destruct (validateNodeSortGroup ids d) as [g|] eqn:Eg; [|done]. cbn [require]. unfold ret, query.
  assert (g = groupID) as ->.
  { unfold validateNodeSortGroup in Eg. destruct ids as [|i ids]; [done|]. destruct (Hids i) as (n & Hn & Hgn & _); [by left|]. cbn in Eg. rewrite Hn in Eg. cbn in Eg.
    destruct (mapM _ ids) as [l|]; [|done]. cbn in Eg. destruct (forallb _ l); [|done]. congruence. }
  destruct (_ =? llen ids) eqn:Ec; [exfalso|done]. apply Z.eqb_eq in Ec. rewrite count_where_size in Ec. assert (list_to_set (h :: ids) ⊆ selected_keys (fun _ n => nd_group n =s groupID) (db_nodes d)) as Hsub.
  { intros i [->|Hi]%elem_of_list_to_set%elem_of_cons; apply elem_of_selected_keys; [exists hidden; by rewrite Hg, String.eqb_refl|]. destruct (Hids i Hi) as (n & Hn & Hgn & _).
    exists n. by rewrite Hgn, String.eqb_refl. }
  apply subseteq_size in Hsub. rewrite size_list_to_set in Hsub. { unfold llen in Ec. cbn in Hsub. lia. }
  constructor; [|done]. intros (n & Hn & _ & Hvn)%Hids. congruence.
Qed.
End safety.

(** ** Witnesses *)

Lemma sample_polled_wf : wf (w_db sample_polled).
Proof. exact (enroll_run_wf [op_grant; op_challenge; op_request; op_status] sample_start (wf_empty _ _)). Qed.

Lemma sample_claim_answered : exists w',
  HandleClaim sample_config (sample_call (Plaintext sample_request_token) "r1") (Ok sample_claim_body) (Some sample_token) (sample_now + 4 * Second) sample_polled =
  (NodeIssued "n1" "edge-web-01" "default" sample_origin sample_address 22 (Token_Plaintext sample_token) false, w').
Proof. eexists. apply pair_of, sample_enrolls. Qed.

Lemma node_token_authorized_witness : exists w' key n,
  db_nodes (w_db w') = <[ "n1" := set_token (Some (Token_Hash key)) (Token_Prefix key) (Some (sample_now + 4 * Second)) None None CredentialActive (sample_now + 4 * Second) n ]>
    (db_nodes (w_db sample_polled)) /\ Token_Plaintext sample_token = Token_Plaintext key.
Proof.
  destruct sample_claim_answered as (w' & Es).
  destruct (node_token_authorized sample_config (sample_call (Plaintext sample_request_token) "r1") (Ok sample_claim_body) (Some sample_token) (sample_now + 4 * Second) sample_polled
    "n1" "edge-web-01" "default" sample_origin sample_address 22 (Token_Plaintext sample_token) false w' sample_polled_wf Es)
    as (p & q & g & n & ticket & timestamp & nonce & signature & key & _ & _ & _ & _ & _ & _ & _ & _ & _ & _ & _ & _ & _ & _ & Ht & Hno & _). exists w', key, n. exact (conj Hno Ht).
Defined.

Lemma claimed_token_authenticates_witness : exists w' n, AuthenticateAgentToken (Token_Plaintext sample_token) (w_db w') = Some ("n1", n) /\ nd_state n = CredentialActive.
Proof.
  destruct sample_claim_answered as (w' & Es). exists w'.
  assert (is_bytes (random_from 120)) as Hb by (apply Forall_forall; intros x Hx; unfold random_from in Hx; apply list_elem_of_fmap in Hx as (i & -> & Hi%elem_of_seq); lia).
  assert (GenerateFrom (random_from 120) = Some sample_token) as Hg by (vm_compute; reflexivity).
  exact (proj1 (claimed_token_authenticates sample_config (sample_call (Plaintext sample_request_token) "r1") (Ok sample_claim_body) (random_from 120) sample_token (sample_now + 4 * Second) sample_polled
    "n1" "edge-web-01" "default" sample_origin sample_address 22 (Token_Plaintext sample_token) false w' sample_polled_wf Hb Hg Es)).
Defined.

Definition sample_row : Request := default (mkRequest "" [] [] [] "" 0 "" sample_metadata "" 0 0 None "" "" None "" None "" None None 0 None None 0 0) (db_requests (w_db sample_requested) !! "r1").
Lemma sample_row_ok : db_requests (w_db sample_requested) !! "r1" = Some sample_row.
Proof. vm_compute. reflexivity. Qed.
Lemma request_status_machine_witness : er_status sample_row = RequestApproved /\ exists r', db_requests (w_db (run [op_status; op_claim] sample_requested)) !! "r1" = Some r' /\
  er_key r' = er_key sample_row /\ rtc moves (er_status sample_row) (er_status r').
Proof.
  split; [vm_compute; reflexivity|]. destruct (request_status_machine [op_status; op_claim] sample_requested "r1" sample_row sample_row_ok) as (r' & Hr & _ & Hk & _ & Hm & _).
  exists r'. exact (conj Hr (conj Hk Hm)).
Defined.

Definition sample_before : World := run [op_grant; op_challenge] sample_start.
Lemma sample_created : exists w',
  HandleCreateRequest sample_config (sample_call (Plaintext sample_grant_secret) "") (Ok sample_create_body) "r1" "n1" (Some sample_request_token) (sample_now + 2 * Second) sample_before =
  (RequestCreated "r1" (Plaintext sample_request_token) RequestApproved "rack 4", w').
Proof. eexists. apply pair_of. vm_compute. reflexivity. Qed.
Lemma request_proves_key_witness : unused (w_db sample_before) "c1" = 1 /\ exists w', unused (w_db w') (TrimSpace (rb_challenge_id sample_create_body)) = 0.
Proof.
  split; [vm_compute; reflexivity|]. destruct sample_created as (w' & Es). exists w'.
  destruct (request_proves_key sample_config (sample_call (Plaintext sample_grant_secret) "") (Ok sample_create_body) "r1" "n1" (Some sample_request_token) (sample_now + 2 * Second) sample_before
    "r1" (Plaintext sample_request_token) RequestApproved "rack 4" w' Es)
    as (p & b & input & gid & g & ch & address & secret & q & _ & Hb & _ & _ & _ & _ & _ & _ & _ & _ & _ & _ & _ & _ & _ & _ & _ & _ & _ & _ & _ & _ & _ & Hu).
  injection Hb as <-. exact Hu.
Defined.

Definition sample_admin : Context := mkContext (sample_now + Minute) no_actor.
Definition sample_revoked : DB := match RevokeGrant sample_admin "g1" "admin" (w_db sample_polled) with Ok (_, d) => d | Err _ => w_db sample_polled end.
Definition sample_revoked_grant : Grant := default (mkGrant sample_policy [] "" None 0 "" 0 0) (db_grants sample_revoked !! "g1").
Lemma sample_revoked_ok : RevokeGrant sample_admin "g1" "admin" (w_db sample_polled) = Ok (sample_revoked_grant, sample_revoked).
Proof. vm_compute. reflexivity. Qed.
Lemma revoked_grant_closed_witness : db_nodes sample_revoked !! "n1" = None /\
  forall w, w_db w = sample_revoked -> forall k r, db_requests (w_db (run [op_claim; op_request] w)) !! k = Some r -> er_grant r = "g1" -> openStatus r = false.
Proof.
  destruct (revoked_grant_closed sample_admin "g1" "admin" (w_db sample_polled) sample_revoked_grant sample_revoked sample_revoked_ok) as (_ & _ & Hrun).
  split; [vm_compute; reflexivity|]. intros w Hw. exact (proj1 (Hrun [op_claim; op_request] w Hw)).
Defined.

Definition sample_late : Time := sample_now + 100 * Hour.
Definition sample_clean : DB := match CleanupEnrollmentState sample_late (w_db sample_polled) with Ok (_, d) => d | Err _ => w_db sample_polled end.
Lemma sample_clean_ok : CleanupEnrollmentState sample_late (w_db sample_polled) = Ok (mkCleanupResult 1 1 1, sample_clean).
Proof. vm_compute. reflexivity. Qed.
Lemma sample_due : exists r, db_requests (w_db sample_polled) !! "r1" = Some r /\ to_end sample_late (w_db sample_polled) r = true.
Proof.
  assert (to_end sample_late (w_db sample_polled) <$> db_requests (w_db sample_polled) !! "r1" = Some true) as Hk by (vm_compute; reflexivity).
  apply fmap_Some in Hk as (r & Hr & Ht). exists r. exact (conj Hr (eq_sym Ht)).
Qed.
Lemma cleanup_complete_witness : db_nodes sample_clean !! "n1" = None /\ exists r', db_requests sample_clean !! "r1" = Some r' /\ er_status r' = RequestExpired.
Proof.
  split; [vm_compute; reflexivity|]. destruct sample_due as (r & Hr & Ht).
  destruct (cleanup_complete sample_late (w_db sample_polled) (mkCleanupResult 1 1 1) sample_clean sample_polled_wf sample_clean_ok) as (_ & _ & _ & _ & Hrow & _).
  destruct (Hrow "r1" r Hr) as (r' & Hr' & Hs & _). rewrite Ht in Hs. exists r'. exact (conj Hr' Hs).
Defined.

(** A node of an earlier version, before and after its first token. *)
Definition legacy_node : Node := mkNode "old" "default" "192.0.2.9" 22 [] true "" 0 CredentialLegacy "active" None "" None None None sample_now.
Definition legacy_db : DB := set_nodes {["o1" := legacy_node]} (w_db sample_start).
Example legacy_node_locked_out :
  is_Some (AuthenticateLegacyNode "old" legacy_db) /\
  match HandleRotateAgentToken "o1" sample_token sample_now legacy_db with
  | Ok (Some _, d) => AuthenticateAgentToken (Token_Plaintext sample_token) d = None /\ AuthenticateLegacyNode "old" d = None
  | _ => False
  end.
Proof. vm_compute. split; [eexists; reflexivity|split; reflexivity]. Qed.
(** A group with one shown node and one reserved node, and the attempt to sort it. *)
Example reserved_group_not_sorted :
  match CreateManagedNode "m1" (mkManagedNodeInput "db-1" "default" "192.0.2.8" 22) (mkAgentCredential (Digest "t") "t" sample_now) (w_db sample_requested) with
  | Ok (_, d) => map fst (ListNodes "default" d) = ["m1"] /\ UpdateNodeSort (map fst (ListNodes "default" d)) sample_now d = Err ENodeSort
  | Err _ => False
  end.
Proof. vm_compute. split; reflexivity. Qed.
(** The same signed poll, sent again ten seconds later by whoever saw it, is answered with
    another ticket, and the ticket of the first answer no longer claims the node. *)
Definition op_status_again : op := OpStatus sample_config (sample_call (Plaintext sample_request_token) "r1") (Ok sample_status_body) (GenerateClaimTicketFrom (random_from 90)) (sample_now + 13 * Second).
Example poll_replayed :
  er_generation <$> db_requests (w_db (perform op_status_again sample_polled)) !! "r1" = Some 2 /\
  (HandleClaim sample_config (sample_call (Plaintext sample_request_token) "r1") (Ok sample_claim_body) (Some sample_token) (sample_now + 14 * Second) (perform op_status_again sample_polled)).1 = Refused 400.
Proof. vm_compute. split; reflexivity. Qed.
